(* ===== verification/_CoqProject ===== *)
-Q . S2P
Prelude.v
StringData.v
ParseNumber.v
HostAndPort.v
Random.v
BsonTypes.v
BufBuilder.v
Bson.v
BsonBuilder.v
Codec.v
Oid.v
BsonCompare.v
BsonObj.v
Namespace.v
WriteOps.v
WriteResult.v
Writers.v
BulkResult.v
BsonValidate.v
Endian.v
HostSet.v
RSState.v
RSSelect.v
RSRefresh.v
RSLoop.v
RSMonitor.v
RSRegistry.v
DepGraph.v
FailPoint.v
Background.v
LogSettings.v
Logging.v
FastKeyTable.v
TimeSupport.v
CLib.v
JsonParse.v
JsonPrint.v
Json.v
Message.v
MessagePort.v
Socket.v
Cursor.v
Query.v
ConnString.v
RSClient.v
IndexSpec.v
Commands.v
DoubleArith.v
Grid.v
Md5.v
Text.v
BsonExtract.v
Sasl.v
BsonRange.v
CursorCommands.v
Connection.v
BsonStream.v
BsonElem.v
Init.v
