(* ===== verification/Prelude.v ===== *)
(** * A verification library for the MongoDB C++ driver

    Paths are below [src/src/mongo/].  Every definition has the name of the
    function, method or type it models; where one name serves two classes, the
    class comes first ([StringData_compare], [BSONObj_woCompare]).

    ** The program

    The driver turns the calls of an application into documents, documents into
    messages, and sends the messages to the server the replica set monitor
    chooses.  From the bottom up:
    - [base] and [util]: strings, numbers, buffers, text encodings, dates, hash
      tables, the graph that orders initializers, fail points, background jobs;
    - [bson]: the documents, their bytes, their order, their validation;
    - [util/net]: sockets, the framing of messages, ports;
    - [client], reading: queries, cursors, commands, indexes, GridFS;
    - [client], writes: write operations, batches, replies;
    - [client], connections: connection strings, one connection, its login by
      SASL or MONGODB-CR, its reconnection;
    - [client], replica sets: the view of a set, the threads that refresh it, the
      registry of all monitors, and the client that routes each call to a member.

    A call goes down like this: a helper of [Commands] or [CursorCommands] makes a
    command, [Cursor] makes a message of it and a cursor of the reply, [RSClient]
    chooses the connection, [Connection] reconnects and logs in when it has to,
    [MessagePort] frames the message, and [Socket] gives it to the system piece by
    piece.  Each is stated over what it calls of the one below: an argument, or a
    class of operations, with laws where its theorems need them.  The parts are
    proved separately; where one assumes what another does ([psock_recv] of a port
    and [Socket_recv]), a theorem says that they agree.

    ** Files

    Base:
    - [Prelude]: bytes, machine integers ([wrap] reduces to a type's width),
      [size_t], [Status] and exceptions.  A function that can throw answers in
      [M]: [Ret], or [Throw] with the exception; undefined behaviour (a read
      outside an object, a null pointer, a signed overflow the code relies on)
      is the exception [EUndefined], so a theorem that says a call returns says
      that there is none.  Also reachability for step relations, and the
      tactics and hints of the library.
    - [StringData]: base/string_data.h.  The bytes a [StringData] spans; find,
      compare, substr, prefixes, with [size_t] positions and [npos].
    - [ParseNumber]: base/parse_number.cpp at the ten integer types, with the
      overflow tests the code makes at the width of the type.
    - [HostAndPort]: util/net/hostandport.cpp.  Parser, printer, order.
    - [Random]: platform/random.cpp.  The xorshift generator, and a shuffle.
    - [Codec], [Oid], [Namespace]: util/base64.cpp, util/hex.cpp, bson/oid.cpp,
      db/namespace_string.h.
    - [TimeSupport]: the ISO 8601 dates and [Backoff] of util/time_support.cpp.
    - [Md5]: util/md5.cpp, util/md5.hpp and the password digest.
    - [Text]: util/text.cpp, util/stringutils.cpp: splitting, UTF-8, the order of
      texts with numbers in them.
    - [Background]: util/background.cpp as interleaved steps.
    - [LogSettings]: logger/log_severity.*, log_component.*, log_component_settings.*.
    - [Logging]: the domains of logger/log_domain.h with their appenders, the builder of
      a line (logger/logstream_builder.cpp) and the encoders of its text.
    - [DepGraph]: base/initializer_dependency_graph.cpp and base/initializer.cpp.
    - [FailPoint]: util/fail_point.cpp as interleaved atomic steps.
    - [FastKeyTable]: util/unordered_fast_key_table.h, the table of [StringMap].

    BSON:
    - [BsonTypes], [BufBuilder]: type bytes, exact comparison of ints, longs and
      doubles; the growable buffer of bson/util/builder.h.
    - [Bson]: documents as lists of named values, their bytes, and the code that
      reads those bytes (sizes, iterator, accessors).  A document under
      construction elsewhere is such a list: [BsonBuilder] shows that the
      builder's bytes are the encoding of the list of what was appended.
    - [BsonBuilder], [BsonCompare], [BsonObj], [BsonValidate]: bsonobjbuilder.h,
      the orders of bsonelement.cpp, bsonobj.cpp and ordering.h, the operations
      of bsonobj.cpp, and bson_validate.cpp.
    - [Endian]: platform/endian.h, base/data_view.h, base/data_cursor.h on machines of both
      byte orders.
    - [BsonStream], [BsonElem]: the stream inside a builder ([BSON( "a" << GT << 1 )]) of
      bsonmisc.cpp; operators, arrays and conversions of bsonelement.cpp.
    - [BsonRange], [BsonExtract]: the rest of bsonobjbuilder.cpp (the least and the
      greatest value of a type); bson/util/bson_extract.cpp.
    - [DoubleArith]: the arithmetic of doubles the drivers' code does, exact and
      rounded.

    JSON:
    - [CLib]: what the C library does with numbers in text: [strtol] and its
      relatives, [strtod] and the printing of a [double] with sixteen digits, both
      exact.
    - [JsonParse], [JsonPrint]: db/json.cpp; [jsonString] of bsonelement.cpp and
      bsonobj.cpp.  The parser's builders share one buffer, of which the parser keeps
      the bytes in use ([grow_buffer]).
    - [Json]: what the parser makes of the printer's text.

    Network:
    - [Message]: util/net/message.h and db/dbmessage.h: the bytes of messages.
    - [MessagePort]: util/net/message_port.cpp, over a socket that is a stream of
      bytes.
    - [Socket]: util/net/sock.cpp over the system calls; what it receives is what
      [MessagePort] assumes.

    Reading and commands:
    - [Cursor]: dbclientcursor.cpp, its shims, and [query], [findN] and [findOne] of
      dbclient.cpp; the classes [Client] (operations) and [Server] (protocol).
    - [Query]: queries and their modifiers, names of indexes, [count], last errors.
    - [IndexSpec], [Commands], [CursorCommands]: index_spec.cpp; the helpers of
      dbclient.cpp that run commands; those that answer with cursors.
    - [Grid]: gridfs.cpp over the class [GridOps].

    Connections:
    - [ConnString]: the connection strings of dbclient.cpp: mongodb:// URLs and lists of
      servers, parsed and printed, and the login parameters they give.
    - [Sasl]: SCRAM-SHA-1 and PLAIN, the session and the driver of the login, over
      the class [Crypto].
    - [Connection]: [DBClientConnection] over the class [Net].
    - [RSClient]: dbclient_rs.cpp over a class of connections and monitors.
    - [Init]: client/init.cpp, the start and the end of the driver.

    Writes:
    - [WriteOps]: write_concern.cpp and the three kinds of write operation.
    - [WriteResult]: write_result.cpp.  A member function may throw half way, so
      it maps the object to the object and an outcome.
    - [Writers]: command_writer.cpp, wire_protocol_writer.cpp, the bulk builder and
      the write functions of dbclient.cpp.  The server is a function of what has
      been sent so far.
    - [BulkResult]: what a bulk write reports, through sorting and batching: the
      exchanges with the server, and the entries their replies leave in the result.

    Replica sets, all of replica_set_monitor.cpp and its headers:
    - [HostSet]: the ordered sets and vectors keyed by host.
    - [RSState]: [isMaster] replies, [Node], [SetState] and host selection.
    - [RSSelect]: the specification of the selection and the invariant that
      [checkInvariants] asserts.
    - [RSRefresh]: the [Refresher], each function being what the code does while
      it holds the mutex.
    - [RSLoop]: one thread refreshing, the network a parameter.
    - [RSMonitor]: any number of threads, each step one critical section.
    - [RSRegistry]: the maps of monitors and seeds.

    ** What the theorems show

    Refinement and equivalence: the hash table behaves as a finite map for every
    sequence of insertions, erasures and lookups, whatever the hash function;
    the validator accepts exactly the buffers that start with the encoding of a
    well-formed document; the batches a [CommandWriter] sends are the enqueued
    operations in order, each batch within the server's limits; comparison under
    an [Ordering] is comparison under its index key.

    Refinement across layers: draining a cursor gives the documents the query
    selects, for every server that keeps the protocol and every size of batch;
    sockets give the port above the stream of bytes it assumes, whatever part of it
    each system call transmits; messages sent through a port arrive at another.
    MD5 in pieces is MD5 of the whole; the order of texts with numbers is the order
    of their tokens; a component logs from the severity of its nearest configured
    ancestor, whatever was set and cleared before.  Reads and writes through views are
    those of little-endian bytes on machines of both orders.

    Safety of the conversations: a cursor is not left open at the server; a replica
    set client uses and returns its own connections only, when its logins are not told
    that the host is not master and its lazy calls are not interrupted; a call goes out
    on a connection that works, after a reconnection and the cached logins, and leaves
    it marked when there is no answer; a SASL login
    ends within four turns and succeeds only when the server has proved that it
    knows the keys, and the client's messages are those RFC 5802 accepts.

    Invariants and liveness: in every reachable state of threads sharing a
    monitor the set's invariant holds and each scan's hosts are accounted for;
    from every such state threads that are still running can take a step, and a
    measure bounds the contacts of a scan; one thread's refresh returns.  A scan
    ends only when every host it heard of has been tried or a master was found.  The
    errors and upserts a bulk write reports are those of the replies, for the operations
    they name.

    Concurrency: while a fail point's block is running the settings it reads are
    those of the last [setMode]; the counts of [nTimes] and [skip] are exact for
    one thread.  A background job runs at most once, never after it was cancelled, and
    leaves no thread asleep.

    Functional behaviour, errors and bounds: the topological sort (order, cycle
    and missing-dependency errors), initializers in order, number parsing
    against an independent grammar and the range of the type, [HostAndPort], object
    comparison as the lexicographic order of keys, the bounds of a type in that
    order, dotted paths, storage checks, generated identifiers, host selection,
    latency smoothing, buffer growth, typed fields, index specifications, the
    chunks of a GridFS file, collections listed by servers of two generations.

    Round trips: BSON bytes, the builder, JSON in its three formats, [HostAndPort],
    numbers, base64, dates, messages, connection strings, arrays as vectors, cursors, read preferences, GridFS
    files.  [fromjson] is total on every text of at most 512MB.

    Each file ends with what modelling showed where it showed something: small closed
    runs of the definitions on which the code does what it does not mean to.

    ** Bounds and fuel

    - Reading a document: the length of its bytes ([elements_fuel_bound]); every
      level and every element takes at least one byte.
    - The validator: [validate_fuel], twice the length of the buffer and 40; its
      measure decreases at every step ([run_inv]).
    - The JSON parser: the length of the text and one; every nested value and
      every turn of a loop reads a byte ([okp_value], [okp_loop]).
    - [getFieldDotted]: the number of dots of the path.
    - A refresh: [RSLoop] runs one round for each contact and a scan contacts a
      host once; the theorem gives the bound from the scan.
    - The depth-first sort: the number of nodes; the hash table: its probe limit,
      which is the code's own.
    - Writers: the number of operations; each batch takes at least one.
    - [recv] of a port: the length of what comes in and one, every turn reads a header;
      of a socket: the bytes asked for and the interruptions; [send]: the bytes.
    - The dotted name of a component: the number of components, every parent comes before.
    - Draining a cursor: the documents and one; a transforming shim may discard as many
      documents in a call as its argument [turns] says.
    - Calls on a replica set are tried [MAX_RETRY] times, the code's own bound; the SASL
      conversation is given four turns, which the theorem shows to be enough.
    - Splitting, comparing and regular expressions over a text: its length; MD5: the
      length of the data, a block takes 64 bytes; GridFS: the length of the data.
    - [checkConnection] of a connection reconnects with commands that check it again: to
      a depth that is its argument, and of which the theorems hold for all.
    - [int] lengths are below 2^31 where a document has to fit a message
      ([int_sized]); [size_t] lengths below [npos] ([sized]).

    ** Parameters

    What the sources call and do not define is an argument: the network and the
    servers' replies, [std::sort], the clock, the random device, MurmurHash3, the
    iteration order of a hash map, the local time zone (with a [time_t] of 64 bits), the contents of fresh memory
    ([malloc], [stack], [garbage]).  The hypotheses on them are their documented
    behaviour: a sort returns a sorted permutation, an iteration visits each entry
    once, [malloc] gives as many bytes as it is asked for.  Classes with laws:
    [Server] (the protocol of cursors), [WorldLaws] (the connections and the monitor of a
    replica set), [BoostLaws] (regular expressions), [GridServer] (a collection that
    keeps what it is given), [IterationOrderLaws], [Crypto] (hashes of 20 bytes),
    [KernelLaws] (partial transmission); classes of operations only: [Client], [DBOps],
    [GridOps], [Net], [Kernel].  Each class with laws has an instance
    on which the witnesses run.

    ** Not modelled

    TLS, Cyrus SASL and SSPI (wrappers of libraries); the code for Windows; addresses
    and the resolver (operating system); timers and atomics (their documented
    effect is used); global option objects; third-party code; tests and test support;
    the GeoJSON wrappers, which are arithmetic on doubles; copying of databases, and
    the making of connections and sets from a connection string (calls of the parts
    modelled, with objects made by factories).  Inside the modelled parts: the printing
    of [toString], the text of error messages where it quotes its input, allocators,
    stream operators and other forms of calls that are modelled once. *)
From Stdlib Require Export ZArith Lia ZifyBool.
From Stdlib Require Import Ascii.
From Stdlib Require Export (notations) Ascii.
From stdpp Require Export base tactics list strings gmap sets.

Declare Scope mongo_scope.
Delimit Scope mongo_scope with mongo.
Create HintDb mongo.
Create Rewrite HintDb mongo.

(** ** Byte strings

    A [char] is one byte, [ascii]; the contents of a [std::string] or of a
    [StringData] is the list of its bytes. *)

Abbreviation char := ascii.
Abbreviation bytes := (list ascii).

Definition B (s : string) : bytes := String.list_ascii_of_string s.

(** The value of a byte read as [unsigned char] and as (x86) [signed char]. *)
Definition uchar (c : char) : Z := Z.of_N (N_of_ascii c).
Definition schar (c : char) : Z :=
  if decide (uchar c < 128)%Z then uchar c else (uchar c - 256)%Z.

(** Conversion of an integer to [char]: the low eight bits. *)
Definition chr (z : Z) : char := ascii_of_N (Z.to_N (z mod 256)).

Definition ceq (a b : char) : bool := bool_decide (a = b).

Lemma uchar_range c : (0 <= uchar c < 256)%Z.
Proof.
  unfold uchar. pose proof (N_ascii_bounded c). lia.
Qed.

Lemma uchar_chr z : uchar (chr z) = (z mod 256)%Z.
Proof.
  unfold uchar, chr. pose proof (Z.mod_pos_bound z 256 ltac:(lia)).
  rewrite N_ascii_embedding by lia. lia.
Qed.

Lemma chr_uchar c : chr (uchar c) = c.
Proof.
  unfold chr. pose proof (uchar_range c).
  rewrite Z.mod_small by lia. unfold uchar. rewrite N2Z.id. apply ascii_N_embedding.
Qed.

Global Instance uchar_inj : Inj (=) (=) uchar.
Proof. intros a b Hab. rewrite <-(chr_uchar a), <-(chr_uchar b). congruence. Qed.

Lemma schar_range c : (-128 <= schar c < 128)%Z.
Proof. unfold schar. pose proof (uchar_range c). case_decide; lia. Qed.

Global Instance schar_inj : Inj (=) (=) schar.
Proof.
  intros a b. unfold schar. pose proof (uchar_range a). pose proof (uchar_range b).
  repeat case_decide; intros; apply (inj uchar); lia.
Qed.

Lemma uchar_chr_small z : (0 <= z < 256)%Z -> uchar (chr z) = z.
Proof. intros. rewrite uchar_chr. apply Z.mod_small. lia. Qed.

#[export] Hint Rewrite uchar_chr chr_uchar : mongo.
#[export] Hint Resolve uchar_range schar_range : mongo.

(** Exhaustive reasoning about one byte: a decidable property of the 256
    values is checked by computation. *)
Definition all_chars : list char := (fun n => chr (Z.of_nat n)) <$> seq 0 256.

Lemma elem_of_all_chars c : c ∈ all_chars.
Proof.
  unfold all_chars. apply list_elem_of_fmap. exists (Z.to_nat (uchar c)).
  pose proof (uchar_range c). split.
  - rewrite Z2Nat.id by lia. by rewrite chr_uchar.
  - apply elem_of_seq. lia.
Qed.

Lemma forall_chars (f : char -> bool) :
  forallb f all_chars = true -> forall c, f c = true.
Proof.
  intros H c. rewrite forallb_forall in H. apply H.
  apply list_elem_of_In, elem_of_all_chars.
Qed.

(** [ctype.h] in the "C" locale. *)
Definition isdigit (c : char) : bool := (48 <=? uchar c)%Z && (uchar c <=? 57)%Z.
Definition isupper (c : char) : bool := (65 <=? uchar c)%Z && (uchar c <=? 90)%Z.
Definition islower (c : char) : bool := (97 <=? uchar c)%Z && (uchar c <=? 122)%Z.
Definition tolower (c : char) : char := if isupper c then chr (uchar c + 32) else c.

(** ** Machine integers *)

Record int_type := IntType { is_signed : bool; width : Z }.

Definition int_min (t : int_type) : Z :=
  if is_signed t then (- 2 ^ (width t - 1))%Z else 0%Z.
Definition int_max (t : int_type) : Z :=
  if is_signed t then (2 ^ (width t - 1) - 1)%Z else (2 ^ width t - 1)%Z.
(** Conversion to the type: reduction modulo [2 ^ width]. *)
Definition wrap (t : int_type) (z : Z) : Z :=
  let m := (z mod 2 ^ width t)%Z in
  if is_signed t && (2 ^ (width t - 1) <=? m)%Z then (m - 2 ^ width t)%Z else m.
Definition in_range (t : int_type) (z : Z) : Prop := (int_min t <= z <= int_max t)%Z.

Definition int8 := IntType true 8.
Definition uint8 := IntType false 8.
Definition int16 := IntType true 16.
Definition uint16 := IntType false 16.
Definition int32 := IntType true 32.
Definition uint32 := IntType false 32.
Definition int64 := IntType true 64.
Definition uint64 := IntType false 64.

Lemma wrap_id t z : (0 < width t)%Z -> in_range t z -> wrap t z = z.
Proof.
  unfold in_range, wrap, int_min, int_max. intros Hw Hz.
  assert (2 ^ width t = 2 * 2 ^ (width t - 1))%Z as E.
  { rewrite <-Z.pow_succ_r by lia. f_equal. lia. }
  assert (0 < 2 ^ (width t - 1))%Z by (apply Z.pow_pos_nonneg; lia).
  destruct (is_signed t); cbn [andb].
  - destruct (decide (0 <= z)%Z).
    + rewrite Z.mod_small by lia. destruct (Z.leb_spec (2 ^ (width t - 1)) z); lia.
    + replace (z mod 2 ^ width t)%Z with (z + 2 ^ width t)%Z.
      * destruct (Z.leb_spec (2 ^ (width t - 1)) (z + 2 ^ width t)); lia.
      * apply Z.mod_unique with (-1)%Z; lia.
  - apply Z.mod_small. lia.
Qed.

Lemma wrap_range t z : (0 < width t)%Z -> in_range t (wrap t z).
Proof.
  unfold in_range, wrap, int_min, int_max. intros Hw.
  assert (2 ^ width t = 2 * 2 ^ (width t - 1))%Z as E.
  { rewrite <-Z.pow_succ_r by lia. f_equal. lia. }
  assert (0 < 2 ^ (width t - 1))%Z by (apply Z.pow_pos_nonneg; lia).
  pose proof (Z.mod_pos_bound z (2 ^ width t) ltac:(lia)).
  destruct (is_signed t); cbn [andb]; [|lia].
  destruct (Z.leb_spec (2 ^ (width t - 1)) (z mod 2 ^ width t)); lia.
Qed.

(** [size_t] is 64 bits wide; [std::string::npos] is its largest value.  Sizes
    of strings that exist in memory are below it. *)
Definition npos : Z := (2 ^ 64 - 1)%Z.
Definition size_wrap (z : Z) : Z := (z mod 2 ^ 64)%Z.
Definition sized (s : bytes) : Prop := (Z.of_nat (length s) < npos)%Z.

(** ** Status and exceptions *)

Inductive ErrorCode :=
  | BadValue | FailedToParse | InvalidBSON | DuplicateKey | GraphContainsCycle
  | DollarPrefixedFieldName | DottedFieldName | InvalidIdField
  | InternalError | AlreadyInitialized | ExceededTimeLimit | NoSuchKey | TypeMismatch
  | UnknownError | InvalidLength | ProtocolError | AuthenticationFailed
  | OtherCode (code : Z).

(** [Status] of base/status.h: success, or an error code with its reason. *)
Inductive Status :=
  | OK
  | Err (code : ErrorCode) (reason : bytes).

Global Instance ErrorCode_eq_dec : EqDecision ErrorCode.
Proof. solve_decision. Defined.
Global Instance Status_eq_dec : EqDecision Status.
Proof. solve_decision. Defined.

Definition isOK (s : Status) : bool := match s with OK => true | Err _ _ => false end.
(** The number of a code; those the library does not name are numbers. *)
Definition status_code (c : ErrorCode) : Z :=
  match c with
  | InternalError => 1 | BadValue => 2 | NoSuchKey => 4 | GraphContainsCycle => 5 | UnknownError => 8 | FailedToParse => 9
  | TypeMismatch => 14 | InvalidLength => 16 | ProtocolError => 17 | AuthenticationFailed => 18
  | InvalidBSON => 22 | AlreadyInitialized => 23 | ExceededTimeLimit => 50 | DollarPrefixedFieldName => 52
  | InvalidIdField => 53 | DottedFieldName => 57 | DuplicateKey => 11000 | OtherCode code => code
  end.

(** What ends a computation without a value: an exception thrown by an
    assertion of util/assert_util.h, by a socket, or by the standard library, or a
    read outside an object, which the language leaves undefined. *)
Inductive exn :=
  | EUassert (code : Z)
  | EMassert (code : Z)
  | EVerify
  | EInvariant
  | EFassert (code : Z)
  | EOutOfRange
  | EBadAlloc
  | ESocket
  | EStatus (s : Status)
  | EUndefined.

Inductive result (E A : Type) :=
  | Ret (a : A)
  | Throw (e : E).
Arguments Ret {E A} a.
Arguments Throw {E A} e.

Abbreviation M := (result exn).
(** The code's "Status plus output parameter" functions. *)
Abbreviation StatusWith A := (result (ErrorCode * bytes) A).

Global Instance result_ret {E} : MRet (result E) := fun A a => Ret a.
Global Instance result_bind {E} : MBind (result E) :=
  fun A C f m => match m with Ret a => f a | Throw e => Throw e end.
Global Instance result_fmap {E} : FMap (result E) :=
  fun A C f m => match m with Ret a => Ret (f a) | Throw e => Throw e end.
Global Instance exn_eq_dec : EqDecision exn.
Proof. solve_decision. Defined.
Global Instance result_eq_dec {E A} `{EqDecision E} `{EqDecision A} : EqDecision (result E A).
Proof. solve_decision. Defined.

Definition is_Ret {E A} (m : result E A) : Prop := exists a, m = Ret a.
(** [guard_throw b e]: go on when [b] holds, throw [e] otherwise. *)
Definition guard_throw {E} (b : bool) (e : E) : result E unit :=
  if b then Ret tt else Throw e.
Definition uassert (code : Z) (b : bool) : M unit := guard_throw b (EUassert code).
Definition massert (code : Z) (b : bool) : M unit := guard_throw b (EMassert code).
Definition verify (b : bool) : M unit := guard_throw b EVerify.
Definition invariant (b : bool) : M unit := guard_throw b EInvariant.

Lemma ret_bind {E A C} (a : A) (f : A -> result E C) : (Ret a ≫= f) = f a.
Proof. done. Qed.
Lemma bind_Ret {E A C} (m : result E A) (f : A -> result E C) c :
  m ≫= f = Ret c <-> exists a, m = Ret a /\ f a = Ret c.
Proof.
  destruct m as [a|e]; cbn; split.
  - intros. by exists a.
  - by intros (? & [= ->] & ?).
  - done.
  - by intros (? & [=] & ?).
Qed.

Lemma guard_throw_Ret {E} b (e : E) u : guard_throw b e = Ret u <-> b = true.
Proof. destruct b, u; cbn; split; congruence. Qed.

(** ** Computations on a state

    The state is kept when an exception ends the computation. *)

Definition ST (S A : Type) : Type := S -> S * M A.
Global Instance ST_ret {S} : MRet (ST S) := fun A a s => (s, Ret a).
Global Instance ST_bind {S} : MBind (ST S) := fun A C f m s =>
  let '(s, a) := m s in match a with Ret a => f a s | Throw e => (s, Throw e) end.
Definition st_get {S} : ST S S := fun s => (s, Ret s).
Definition st_update {S} (f : S -> S) : ST S unit := fun s => (f s, Ret tt).
Definition st_lift {S A} (m : M A) : ST S A := fun s => (s, m).

Lemma st_bind_run {S A C} (m : ST S A) (f : A -> ST S C) s s1 a :
  m s = (s1, Ret a) -> (m ≫= f) s = f a s1.
Proof. unfold mbind, ST_bind. by intros ->. Qed.
Lemma st_bind_throw {S A C} (m : ST S A) (f : A -> ST S C) s s1 e :
  m s = (s1, Throw e) -> (m ≫= f) s = (s1, Throw e).
Proof. unfold mbind, ST_bind. by intros ->. Qed.
Lemma st_bind_Ret {S A C} (m : ST S A) (f : A -> ST S C) s s' r :
  (m ≫= f) s = (s', Ret r) <-> exists s1 a, m s = (s1, Ret a) /\ f a s1 = (s', Ret r).
Proof.
  unfold mbind, ST_bind. destruct (m s) as [s1 [a|e]]; split.
  - intros. by exists s1, a.
  - by intros (? & ? & [= -> ->] & ?).
  - done.
  - by intros (? & ? & [=] & ?).
Qed.
Lemma st_lift_Ret {S A} (m : M A) (s s' : S) a : st_lift m s = (s', Ret a) <-> s' = s /\ m = Ret a.
Proof. unfold st_lift. split; [by intros [= -> ->]|by intros [-> ->]]. Qed.
Lemma st_bind_lift {S A C} (a : A) (f : A -> ST S C) : (st_lift (Ret a) ≫= f) = f a.
Proof. reflexivity. Qed.

(** ** Reachability for step relations *)

Section Reachable.
Context {St : Type} (init : St -> Prop) (step : St -> St -> Prop).

Inductive reachable : St -> Prop :=
  | reach_init s : init s -> reachable s
  | reach_step s s' : reachable s -> step s s' -> reachable s'.

Lemma reachable_invariant (I : St -> Prop) :
  (forall s, init s -> I s) ->
  (forall s s', reachable s -> I s -> step s s' -> I s') ->
  forall s, reachable s -> I s.
Proof. intros Hi Hs. induction 1; eauto. Qed.
End Reachable.

(** ** Lists indexed by machine integers *)

(** [s[i]] for an index computed as an integer; [None] outside the object. *)
Definition zlookup {A} (l : list A) (i : Z) : option A :=
  if decide (0 <= i)%Z then l !! Z.to_nat i else None.

Lemma zlookup_Some {A} (l : list A) i x :
  zlookup l i = Some x -> (0 <= i < Z.of_nat (length l))%Z.
Proof.
  unfold zlookup. case_decide; [|done]. intros Hl%lookup_lt_Some. lia.
Qed.

Lemma zlookup_of_nat {A} (l : list A) (i : nat) : zlookup l (Z.of_nat i) = l !! i.
Proof. unfold zlookup. rewrite decide_True by lia. by rewrite Nat2Z.id. Qed.

Definition zlen {A} (l : list A) : Z := Z.of_nat (length l).

Lemma zlen_nonneg {A} (l : list A) : (0 <= zlen l)%Z.
Proof. unfold zlen. lia. Qed.
Lemma zlen_app {A} (l k : list A) : zlen (l ++ k) = (zlen l + zlen k)%Z.
Proof. unfold zlen. rewrite length_app. lia. Qed.
Lemma zlen_cons {A} (x : A) k : zlen (x :: k) = (1 + zlen k)%Z.
Proof. unfold zlen. cbn [length]. lia. Qed.
Lemma zlen_nil {A} : zlen (@nil A) = 0%Z.
Proof. done. Qed.
#[export] Hint Rewrite @zlen_app @zlen_cons @zlen_nil : mongo.

(** ** Tactics *)

(** Split the bindings of a [result] computation known to return. *)
Ltac inv_ret :=
  repeat match goal with
  | H : Ret _ = Ret _ |- _ => injection H as H; subst
  | H : Throw _ = Ret _ |- _ => discriminate H
  | H : Ret _ = Throw _ |- _ => discriminate H
  | H : mbind _ _ = Ret _ |- _ => apply bind_Ret in H as (? & ? & H)
  | H : guard_throw _ _ = Ret _ |- _ => apply guard_throw_Ret in H
  | H : uassert _ _ = Ret _ |- _ => apply guard_throw_Ret in H
  | H : massert _ _ = Ret _ |- _ => apply guard_throw_Ret in H
  | H : verify _ = Ret _ |- _ => apply guard_throw_Ret in H
  | H : invariant _ = Ret _ |- _ => apply guard_throw_Ret in H
  end.

(** Non-membership in a list written with [++], [::] and [ [] ]. *)
Ltac not_in :=
  repeat first
    [ done | apply not_elem_of_nil
    | apply not_elem_of_app; split | apply not_elem_of_cons; split ].

(** Turn boolean comparisons in the context into propositions. *)
Ltac boolify :=
  repeat match goal with
  | H : _ && _ = true |- _ => apply andb_prop in H as [? ?]
  | H : _ || _ = false |- _ => apply orb_false_elim in H as [? ?]
  | H : negb _ = true |- _ => apply negb_true_iff in H
  | H : negb _ = false |- _ => apply negb_false_iff in H
  | H : (_ <=? _)%Z = true |- _ => apply Z.leb_le in H
  | H : (_ <=? _)%Z = false |- _ => apply Z.leb_gt in H
  | H : (_ <? _)%Z = true |- _ => apply Z.ltb_lt in H
  | H : (_ <? _)%Z = false |- _ => apply Z.ltb_ge in H
  | H : (_ =? _)%Z = true |- _ => apply Z.eqb_eq in H
  | H : (_ =? _)%Z = false |- _ => apply Z.eqb_neq in H
  | H : bool_decide _ = true |- _ => apply bool_decide_eq_true_1 in H
  | H : bool_decide _ = false |- _ => apply bool_decide_eq_false_1 in H
  end.

Global Instance in_range_dec t z : Decision (in_range t z).
Proof. unfold in_range. apply _. Defined.
