(* ===== verification/StringData.v ===== *)
(** * StringData: base/string_data.h, string_data-inl.h

    A [StringData] is a pointer and a length; it is modelled by the bytes it
    spans.  [size_t] positions are integers, [npos] is [std::string::npos]. *)
From S2P Require Import Prelude.
Local Open Scope Z_scope.

(** ** The C library routines the class uses *)

(** [memcmp] on two blocks, byte by byte as [unsigned char], up to the shorter. *)
Fixpoint memcmp (a b : bytes) : Z :=
  match a, b with
  | x :: a', y :: b' => if ceq x y then memcmp a' b' else uchar x - uchar y
  | _, _ => 0
  end.

(** [memchr]: the offset of the first [c]. *)
Fixpoint memchr (s : bytes) (c : char) : option nat :=
  match s with
  | [] => None
  | x :: s' => if ceq x c then Some 0%nat else S <$> memchr s' c
  end.

(** ** The class *)

Definition StringData_size (s : bytes) : Z := zlen s.
Definition StringData_empty (s : bytes) : bool := StringData_size s =? 0.

Definition StringData_compare (a b : bytes) : Z :=
  let n := Nat.min (length a) (length b) in
  let res := memcmp (take n a) (take n b) in
  if negb (res =? 0) then (if res >? 0 then 1 else -1)
  else if StringData_size a =? StringData_size b then 0
  else if StringData_size a >? StringData_size b then 1 else -1.

Definition StringData_eq (a b : bytes) : bool :=
  (StringData_size a =? StringData_size b) && (StringData_compare a b =? 0).
Definition StringData_lt (a b : bytes) : bool := StringData_compare a b <? 0.

Fixpoint equalCaseInsensitive_loop (a b : bytes) : bool :=
  match a, b with
  | x :: a', y :: b' =>
      if ceq x y then equalCaseInsensitive_loop a' b'
      else if ceq (tolower x) (tolower y) then equalCaseInsensitive_loop a' b'
      else false
  | _, _ => true
  end.
Definition StringData_equalCaseInsensitive (a b : bytes) : bool :=
  if negb (StringData_size b =? StringData_size a) then false
  else equalCaseInsensitive_loop a b.

(** The bytes [copyTo] leaves in [dest]. *)
Definition StringData_copyTo (s : bytes) (includeEndingNull : bool) : bytes :=
  s ++ (if includeEndingNull then [chr 0] else []).

Definition StringData_find_char (s : bytes) (c : char) (fromPos : Z) : Z :=
  if fromPos >=? StringData_size s then npos
  else match memchr (drop (Z.to_nat fromPos) s) c with
       | None => npos
       | Some k => fromPos + Z.of_nat k
       end.

(** The loop of [find(needle)], from index [i] with [n] more positions to try. *)
Fixpoint find_loop (s needle : bytes) (i : Z) (n : nat) : Z :=
  if memcmp (take (length needle) (drop (Z.to_nat i) s)) needle =? 0 then i
  else match n with
       | O => npos
       | S n' => find_loop s needle (i + 1) n'
       end.
Definition StringData_find (s needle : bytes) : Z :=
  let mx := StringData_size s in
  let needleSize := StringData_size needle in
  if needleSize =? 0 then 0
  else if needleSize >? mx then npos
  else find_loop s needle 0 (Z.to_nat (mx - needleSize)).

Fixpoint rfind_loop (s : bytes) (c : char) (cur : nat) : Z :=
  match cur with
  | O => npos
  | S k => match s !! k with
           | Some x => if ceq x c then Z.of_nat k else rfind_loop s c k
           | None => rfind_loop s c k
           end
  end.
Definition StringData_rfind (s : bytes) (c : char) (fromPos : Z) : Z :=
  let sz := StringData_size s in
  let fromPos := if fromPos >? sz then sz else fromPos in
  rfind_loop s c (Z.to_nat fromPos).

Definition StringData_substr (s : bytes) (pos n : Z) : M bytes :=
  if pos >? StringData_size s then Throw EOutOfRange
  else
    let n := if n >? StringData_size s - pos then StringData_size s - pos else n in
    Ret (take (Z.to_nat n) (drop (Z.to_nat pos) s)).

Definition StringData_startsWith (s prefix : bytes) : M bool :=
  p ← StringData_substr s 0 (StringData_size prefix);
  Ret (StringData_eq p prefix).

Definition StringData_endsWith (s suffix : bytes) : M bool :=
  if StringData_size suffix >? StringData_size s then Ret false
  else t ← StringData_substr s (StringData_size s - StringData_size suffix) npos;
       Ret (StringData_eq t suffix).

(** [operator[]]: the byte at [pos]; a position outside the span is not the
    string's to read. *)
Definition StringData_at (s : bytes) (pos : Z) : M char :=
  match zlookup s pos with Some c => Ret c | None => Throw EUndefined end.

(** [m[k] = v] for a [std::map] with strings for keys, which is kept in the order of
    the keys. *)
Fixpoint map_assign {A} (k : bytes) (v : A) (m : list (bytes * A)) : list (bytes * A) :=
  match m with
  | [] => [(k, v)]
  | (k', v') :: m' =>
      if StringData_lt k k' then (k, v) :: m
      else if bool_decide (k = k') then (k, v) :: m'
      else (k', v') :: map_assign k v m'
  end.
(** [m.find(k)]. *)
Fixpoint map_find {A} (k : bytes) (m : list (bytes * A)) : option A :=
  match m with
  | [] => None
  | (k', v') :: m' => if bool_decide (k = k') then Some v' else map_find k m'
  end.

(** ** Lemmas *)

Lemma ceq_refl c : ceq c c = true.
Proof. by apply bool_decide_eq_true. Qed.
Lemma ceq_true a b : ceq a b = true <-> a = b.
Proof. apply bool_decide_eq_true. Qed.
Lemma ceq_false a b : ceq a b = false <-> a <> b.
Proof. apply bool_decide_eq_false. Qed.
#[export] Hint Rewrite ceq_refl : mongo.

Ltac case_ceq :=
  match goal with
  | |- context [ceq ?a ?b] => destruct (ceq a b) eqn:?
  | H : context [ceq ?a ?b] |- _ => destruct (ceq a b) eqn:?
  end;
  repeat match goal with
  | H : ceq _ _ = true |- _ => apply ceq_true in H; subst
  | H : ceq _ _ = false |- _ => apply ceq_false in H
  end.

Lemma memcmp_refl a : memcmp a a = 0.
Proof. induction a; cbn; rewrite ?ceq_refl; auto. Qed.

Lemma memcmp_antisym a b : memcmp b a = - memcmp a b.
Proof.
  revert b. induction a as [|x a IH]; intros [|y b]; cbn; try done.
  destruct (decide (x = y)) as [->|Hne].
  - rewrite ceq_refl. apply IH.
  - rewrite !(proj2 (ceq_false _ _)) by congruence. lia.
Qed.

Lemma memcmp_zero a b : length a = length b -> memcmp a b = 0 <-> a = b.
Proof.
  intros Hlen. split; [|intros ->; apply memcmp_refl].
  revert b Hlen. induction a as [|x a IH]; intros [|y b] Hlen; cbn; try done.
  case_ceq; intros Hz.
  - f_equal. apply IH; [by injection Hlen|done].
  - exfalso. assert (uchar x = uchar y) as Hxy by lia. by apply (inj uchar) in Hxy.
Qed.

(** The reference order: lexicographic on unsigned bytes, a prefix first. *)
Fixpoint lex (a b : bytes) : comparison :=
  match a, b with
  | [], [] => Eq
  | [], _ :: _ => Lt
  | _ :: _, [] => Gt
  | x :: a', y :: b' =>
      match uchar x ?= uchar y with Eq => lex a' b' | r => r end
  end.

Definition cmp_int (c : comparison) : Z := match c with Lt => -1 | Eq => 0 | Gt => 1 end.

Lemma compare_cons x a y b :
  StringData_compare (x :: a) (y :: b) =
  if ceq x y then StringData_compare a b else cmp_int (uchar x ?= uchar y).
Proof.
  unfold StringData_compare, StringData_size, zlen.
  cbn [length Nat.min take memcmp]. case_ceq.
  - repeat match goal with |- context [if ?b then _ else _] => destruct b eqn:? end;
      lia.
  - assert (uchar x <> uchar y) by (intros E; by apply (inj uchar) in E).
    destruct (Z.compare_spec (uchar x) (uchar y)); [lia|..];
      repeat match goal with |- context [if ?b then _ else _] => destruct b eqn:? end;
      cbn; lia.
Qed.

Lemma compare_lex_aux a b : StringData_compare a b = cmp_int (lex a b).
Proof.
  revert b. induction a as [|x a IH]; intros [|y b]; try done.
  rewrite compare_cons. cbn [lex]. case_ceq.
  - by rewrite Z.compare_refl, IH.
  - destruct (Z.compare_spec (uchar x) (uchar y)) as [E|E|E]; [|done..].
    by apply (inj uchar) in E.
Qed.

Lemma lex_refl a : lex a a = Eq.
Proof. induction a; cbn; rewrite ?Z.compare_refl; auto. Qed.
Lemma lex_eq a b : lex a b = Eq -> a = b.
Proof.
  revert b. induction a as [|x a IH]; intros [|y b]; cbn; try done.
  destruct (Z.compare_spec (uchar x) (uchar y)) as [E|E|E]; try done.
  intros ?%IH. apply (inj uchar) in E. by subst.
Qed.
Lemma lex_opp a b : lex b a = CompOpp (lex a b).
Proof.
  revert b. induction a as [|x a IH]; intros [|y b]; cbn; try done.
  rewrite (Z.compare_antisym (uchar x)). destruct (uchar x ?= uchar y); cbn; auto.
Qed.
Lemma lex_lt_trans a b c : lex a b = Lt -> lex b c = Lt -> lex a c = Lt.
Proof.
  revert b c. induction a as [|x a IH]; intros [|y b] [|z c]; cbn; try done.
  destruct (Z.compare_spec (uchar x) (uchar y)), (Z.compare_spec (uchar y) (uchar z));
    try done; intros; destruct (Z.compare_spec (uchar x) (uchar z)); try done; try lia.
  eauto.
Qed.

Lemma StringData_eq_spec a b : StringData_eq a b = true <-> a = b.
Proof.
  unfold StringData_eq. rewrite compare_lex_aux, andb_true_iff, !Z.eqb_eq. split.
  - intros [_ E]. destruct (lex a b) eqn:El; try done. by apply lex_eq.
  - intros ->. by rewrite lex_refl.
Qed.

Lemma compare_zero a b : StringData_compare a b = 0 <-> a = b.
Proof.
  rewrite compare_lex_aux. split.
  - intros E. destruct (lex a b) eqn:El; try done. by apply lex_eq.
  - intros ->. by rewrite lex_refl.
Qed.

Lemma StringData_lt_spec a b : StringData_lt a b = true <-> lex a b = Lt.
Proof.
  unfold StringData_lt. rewrite compare_lex_aux, Z.ltb_lt.
  destruct (lex a b); cbn; split; (lia || done).
Qed.

(** *** Searching *)

Lemma memchr_Some s c k :
  memchr s c = Some k <->
  exists pre post, s = pre ++ c :: post /\ length pre = k /\ c ∉ pre.
Proof.
  revert k. induction s as [|x s IH]; intros k; cbn.
  - split; [done|]. intros ([|??] & ? & [=] & _).
  - case_ceq.
    + split.
      * intros [= <-]. exists [], s. split_and!; [done..|apply not_elem_of_nil].
      * intros ([|y pre] & post & [= ] & Hk & Hn); cbn in Hk; subst; [done|].
        destruct Hn. by left.
    + rewrite fmap_Some. split.
      * intros (k' & (pre & post & -> & <- & Hn)%IH & ->).
        exists (x :: pre), post. split_and!; [done..|].
        rewrite not_elem_of_cons. by split.
      * intros ([|y pre] & post & [= ] & Hk & Hn); cbn in Hk; subst; [done|].
        exists (length pre). split; [|done]. apply IH. exists pre, post.
        rewrite not_elem_of_cons in Hn. by destruct Hn.
Qed.

Lemma memchr_None s c : memchr s c = None <-> c ∉ s.
Proof.
  induction s as [|x s IH]; cbn.
  - split; [intros _; apply not_elem_of_nil|done].
  - rewrite not_elem_of_cons. case_ceq.
    + split; [done|]. by intros [? _].
    + rewrite fmap_None, IH. split; [by intros; split|by intros [_ ?]].
Qed.

Lemma memchr_app_notin pre post c :
  c ∉ pre -> memchr (pre ++ c :: post) c = Some (length pre).
Proof. intros. apply memchr_Some. by exists pre, post. Qed.

(** [find(c)] from the start of a string: absent, or the first occurrence. *)
Lemma find_char_notin s c : c ∉ s -> StringData_find_char s c 0 = npos.
Proof.
  intros Hn. unfold StringData_find_char. case_match; [done|].
  rewrite drop_0. by rewrite (proj2 (memchr_None _ _) Hn).
Qed.
Lemma find_char_first pre c post :
  c ∉ pre -> StringData_find_char (pre ++ c :: post) c 0 = zlen pre.
Proof.
  intros Hn. unfold StringData_find_char, StringData_size.
  destruct (0 >=? zlen (pre ++ c :: post)) eqn:E.
  - rewrite zlen_app, zlen_cons in E. pose proof (zlen_nonneg pre).
    pose proof (zlen_nonneg post). lia.
  - rewrite drop_0, memchr_app_notin by done. done.
Qed.

Lemma rfind_loop_notin s c n : c ∉ take n s -> rfind_loop s c n = npos.
Proof.
  induction n as [|n IH]; intros Hn; [done|]. cbn.
  destruct (s !! n) as [x|] eqn:E.
  - rewrite (take_S_r _ _ _ E), elem_of_app, list_elem_of_singleton in Hn.
    case_ceq; [tauto|]. apply IH. tauto.
  - apply IH. apply lookup_ge_None in E.
    rewrite take_ge in Hn by lia. by rewrite take_ge by lia.
Qed.
Lemma rfind_loop_last pre c post n :
  c ∉ post -> (length pre < n)%nat -> (n <= length (pre ++ c :: post))%nat ->
  rfind_loop (pre ++ c :: post) c n = zlen pre.
Proof.
  intros Hn. induction n as [|n IH]; intros Hl Hu; [lia|]. cbn.
  destruct (decide (n = length pre)) as [->|Hne].
  - rewrite list_lookup_middle by done. by rewrite ceq_refl.
  - rewrite IH by lia. destruct (_ !! n) as [x|] eqn:E; [|done].
    rewrite lookup_app_r, lookup_cons_ne_0 in E by lia.
    case_ceq; [|done]. destruct Hn. eapply list_elem_of_lookup_2, E.
Qed.

Lemma rfind_notin s c : c ∉ s -> StringData_rfind s c npos = npos.
Proof.
  intros Hn. unfold StringData_rfind. apply rfind_loop_notin.
  intros [? [? _]]%elem_of_take. apply Hn. by eapply list_elem_of_lookup_2.
Qed.
Lemma rfind_last pre c post :
  sized (pre ++ c :: post) -> c ∉ post ->
  StringData_rfind (pre ++ c :: post) c npos = zlen pre.
Proof.
  unfold sized. intros Hs Hn. unfold StringData_rfind, StringData_size, zlen in *.
  destruct (_ >? _) eqn:E; [|lia]. apply rfind_loop_last; [done|..];
    rewrite Nat2Z.id, length_app; cbn; lia.
Qed.

(** *** Substrings *)

Lemma substr_0 s n : 0 <= n -> StringData_substr s 0 n = Ret (take (Z.to_nat n) s).
Proof.
  intros Hn. unfold StringData_substr, StringData_size. pose proof (zlen_nonneg s).
  destruct (0 >? zlen s) eqn:E; [lia|]. rewrite drop_0.
  destruct (n >? zlen s - 0) eqn:E2; [|done].
  f_equal. unfold zlen in *. by rewrite !take_ge by lia.
Qed.
Lemma substr_all s : sized s -> StringData_substr s 0 npos = Ret s.
Proof.
  intros. rewrite substr_0 by (by vm_compute). f_equal. apply take_ge.
  unfold sized in *. lia.
Qed.
Lemma substr_drop s n :
  sized s -> 0 <= n <= zlen s -> StringData_substr s n npos = Ret (drop (Z.to_nat n) s).
Proof.
  unfold sized. intros Hs Hn. unfold StringData_substr, StringData_size, zlen in *.
  destruct (_ >? _) eqn:E; [lia|]. destruct (npos >? _) eqn:E2; [|lia].
  f_equal. apply take_ge. rewrite length_drop. lia.
Qed.
Lemma substr_middle a b c :
  StringData_substr (a ++ b ++ c) (zlen a) (zlen b) = Ret b.
Proof.
  unfold StringData_substr, StringData_size. rewrite !zlen_app.
  pose proof (zlen_nonneg a). pose proof (zlen_nonneg b). pose proof (zlen_nonneg c).
  destruct (_ >? _) eqn:E; [lia|]. destruct (zlen b >? _) eqn:E2; [lia|].
  unfold zlen. by rewrite !Nat2Z.id, drop_app_length, take_app_length.
Qed.

Lemma startsWith_spec s p :
  exists b, StringData_startsWith s p = Ret b /\ (b = true <-> p `prefix_of` s).
Proof.
  unfold StringData_startsWith. rewrite substr_0 by apply zlen_nonneg. cbn.
  eexists. split; [done|]. rewrite StringData_eq_spec.
  unfold StringData_size, zlen. rewrite Nat2Z.id. split.
  - intros <-. apply prefix_take.
  - intros [k ->]. by rewrite take_app_length.
Qed.

Definition has_prefix (s p : bytes) : bool := bool_decide (p `prefix_of` s).
Lemma startsWith_eq s p : StringData_startsWith s p = Ret (has_prefix s p).
Proof.
  destruct (startsWith_spec s p) as (b & -> & Hb). f_equal. unfold has_prefix.
  destruct b.
  - symmetry. apply bool_decide_eq_true. tauto.
  - symmetry. apply bool_decide_eq_false. intros ?%Hb. done.
Qed.

Lemma find_char_total s c :
  ((c ∉ s) /\ StringData_find_char s c 0 = npos) \/
  exists pre post, s = pre ++ c :: post /\ (c ∉ pre) /\
    StringData_find_char s c 0 = zlen pre.
Proof.
  destruct (memchr s c) as [k|] eqn:E.
  - apply memchr_Some in E as (pre & post & -> & <- & Hn). right.
    exists pre, post. by rewrite find_char_first.
  - apply memchr_None in E. left. by rewrite find_char_notin.
Qed.

Lemma last_occurrence s (c : char) :
  c ∉ s \/ exists pre post, s = pre ++ c :: post /\ c ∉ post.
Proof.
  induction s as [|x s IH]; [left; apply not_elem_of_nil|].
  destruct IH as [Hn|(pre & post & -> & Hn)].
  - destruct (decide (c = x)) as [->|Hne].
    + right. by exists [], s.
    + left. rewrite not_elem_of_cons. by split.
  - right. by exists (x :: pre), post.
Qed.

Lemma rfind_total s c :
  sized s ->
  ((c ∉ s) /\ StringData_rfind s c npos = npos) \/
  exists pre post, s = pre ++ c :: post /\ (c ∉ post) /\
    StringData_rfind s c npos = zlen pre.
Proof.
  intros Hs. destruct (last_occurrence s c) as [Hn|(pre & post & -> & Hn)].
  - left. by rewrite rfind_notin.
  - right. exists pre, post. by rewrite rfind_last.
Qed.

Lemma size_wrap_small z : 0 <= z <= npos -> size_wrap z = z.
Proof. intros. apply Z.mod_small. unfold npos in *. lia. Qed.

Lemma sized_app_cons a (c : char) b : sized (a ++ c :: b) -> zlen a + zlen b + 1 < npos.
Proof. unfold sized. rewrite length_app. cbn. unfold zlen. lia. Qed.

Lemma substr_app_0 a b : StringData_substr (a ++ b) 0 (zlen a) = Ret a.
Proof. exact (substr_middle [] a b). Qed.

Lemma substr_after a (c : char) b :
  sized (a ++ c :: b) ->
  StringData_substr (a ++ c :: b) (size_wrap (zlen a + 1)) npos = Ret b.
Proof.
  intros Hs. pose proof (sized_app_cons _ _ _ Hs). pose proof (zlen_nonneg a).
  pose proof (zlen_nonneg b).
  rewrite size_wrap_small by lia. rewrite substr_drop; [|done|].
  - f_equal. replace (Z.to_nat (zlen a + 1)) with (S (length a)) by (unfold zlen; lia).
    rewrite drop_app_ge by lia. by replace (S (length a) - length a)%nat with 1%nat by lia.
  - rewrite zlen_app, zlen_cons. lia.
Qed.

Lemma zlen_ne_npos (a b : bytes) (c : char) :
  sized (a ++ c :: b) -> (zlen a =? npos) = false.
Proof.
  intros Hs%sized_app_cons. pose proof (zlen_nonneg b). lia.
Qed.

(** *** [find(needle)] *)

Definition occurs_at (s needle : bytes) (i : nat) : Prop :=
  exists pre post, s = pre ++ needle ++ post /\ length pre = i.

Lemma occurs_at_memcmp s needle i :
  (i + length needle <= length s)%nat ->
  memcmp (take (length needle) (drop i s)) needle = 0 <-> occurs_at s needle i.
Proof.
  intros Hl. rewrite memcmp_zero by (rewrite length_take, length_drop; lia). split.
  - intros Heq. exists (take i s), (drop (i + length needle) s). split.
    + rewrite <-drop_drop, <-Heq at 1. by rewrite !take_drop.
    + rewrite length_take. lia.
  - intros (pre & post & -> & <-). by rewrite drop_app_length, take_app_length.
Qed.

Lemma find_loop_spec s needle n i :
  sized s -> (i + n + length needle = length s)%nat ->
  (exists k, find_loop s needle (Z.of_nat i) n = Z.of_nat k /\ occurs_at s needle k /\
     (i <= k)%nat /\ forall j, (i <= j < k)%nat -> ~ occurs_at s needle j) \/
  (find_loop s needle (Z.of_nat i) n = npos /\
     forall j, (i <= j <= i + n)%nat -> ~ occurs_at s needle j).
Proof.
  intros Hs. revert i. induction n as [|n IH]; intros i Hl; cbn [find_loop];
    rewrite Nat2Z.id; destruct (_ =? 0) eqn:E.
  1, 3: left; exists i; apply Z.eqb_eq in E; rewrite occurs_at_memcmp in E by lia;
    split_and!; [done|done|done|intros; exfalso; lia].
  - right. split; [done|]. intros j Hj.
    replace j with i by lia. apply Z.eqb_neq in E. by rewrite occurs_at_memcmp in E by lia.
  - apply Z.eqb_neq in E. rewrite occurs_at_memcmp in E by lia.
    replace (Z.of_nat i + 1) with (Z.of_nat (S i)) by lia.
    destruct (IH (S i) ltac:(lia)) as [(k & Hk & Hat & Hle & Hmin)|(Hk & Hmin)].
    + left. exists k. split; [done|]. split; [done|]. split; [lia|]. intros j Hj.
      destruct (decide (j = i)) as [->|]; [done|]. apply Hmin. lia.
    + right. split; [done|]. intros j Hj.
      destruct (decide (j = i)) as [->|]; [done|]. apply Hmin. lia.
Qed.

Lemma occurs_at_bound s needle i :
  occurs_at s needle i -> (i + length needle <= length s)%nat.
Proof. intros (pre & post & -> & <-). rewrite !length_app. lia. Qed.

(** ** Properties *)

(** [compare] is the lexicographic order of the bytes read as unsigned
    characters, a proper prefix being smaller, and it returns exactly -1, 0 or 1. *)
Theorem StringData_compare_lex a b : StringData_compare a b = cmp_int (lex a b).
Proof. exact (compare_lex_aux a b). Qed.

(** [find(needle)] returns the position of the first occurrence of the
    needle, and [npos] exactly when the needle does not occur. *)
Theorem StringData_find_first s needle :
  sized s ->
  (StringData_find s needle = npos /\ (forall i, ~ occurs_at s needle i)) \/
  (exists k, StringData_find s needle = Z.of_nat k /\ occurs_at s needle k /\
     forall j, (j < k)%nat -> ~ occurs_at s needle j).
Proof.
  intros Hs. unfold StringData_find, StringData_size.
  destruct (zlen needle =? 0) eqn:E.
  { right. exists 0%nat. split_and!; [done| |lia].
    apply Z.eqb_eq in E. destruct needle; [|done]. by exists [], s. }
  destruct (zlen needle >? zlen s) eqn:E2; unfold zlen in *.
  { left. split; [done|]. intros i Hi%occurs_at_bound. lia. }
  destruct (find_loop_spec s needle
              (Z.to_nat (Z.of_nat (length s) - Z.of_nat (length needle))) 0)
    as [(k & Hk & Hat & _ & Hmin)|[Hk Hmin]]; [done|lia|..].
  - right. exists k. split_and!; [done..|]. intros j Hj. apply Hmin. lia.
  - left. split; [done|]. intros i Hi. pose proof (occurs_at_bound _ _ _ Hi).
    apply (Hmin i); [lia|done].
Qed.

Lemma StringData_find_first_witness :
  sized (B "a.$cmd.$cmd") /\
  exists k, StringData_find (B "a.$cmd.$cmd") (B "$cmd") = Z.of_nat k /\
    occurs_at (B "a.$cmd.$cmd") (B "$cmd") k.
Proof.
  split; [done|].
  destruct (StringData_find_first (B "a.$cmd.$cmd") (B "$cmd")) as [[_ H]|(k & H & Hk & _)].
  - done.
  - exfalso. apply (H 2%nat). by exists (B "a."), (B ".$cmd").
  - by exists k.
Defined.
