(* ===== verification/ParseNumber.v ===== *)
(** * Number parsing: base/parse_number.cpp

    [parseNumberFromStringWithBase] for the ten integer types it is
    instantiated with, at their widths.  The instance for [double] calls the C
    library's [strtod] and is not modelled. *)
From S2P Require Import Prelude StringData.
Local Open Scope Z_scope.

(** The double quote, which the error messages put around characters. *)
Definition dquote : bytes := [chr 34].

Definition _digitValue (c : char) : Z :=
  if (48 <=? uchar c) && (uchar c <=? 57) then uchar c - 48
  else if (97 <=? uchar c) && (uchar c <=? 122) then uchar c - 97 + 10
  else if (65 <=? uchar c) && (uchar c <=? 90) then uchar c - 65 + 10
  else 36.

(** The sign and the rest of the string. *)
Definition _extractSign (s : bytes) : bool * bytes :=
  match s with
  | [] => (false, s)
  | c :: s' =>
      if ceq c "-"%char then (true, s')
      else if ceq c "+"%char then (false, s')
      else (false, s)
  end.

(** The string without its base prefix, and the base. *)
Definition _extractBase (s : bytes) (inputBase : Z) : bytes * Z :=
  let hex := has_prefix s (B "0x") || has_prefix s (B "0X") in
  if inputBase =? 0 then
    if (StringData_size s >? 2) && hex then (drop 2 s, 16)
    else if (StringData_size s >? 1) && has_prefix s (B "0") then (s, 8)
    else (s, 10)
  else
    if (inputBase =? 16) && hex then (drop 2 s, inputBase) else (s, inputBase).

(** Arithmetic on operands of type [t] happens in the promoted type. *)
Definition promoted (t : int_type) : int_type := if width t <? 32 then int32 else t.
Definition arith (t : int_type) (z : Z) : Z := wrap (promoted t) z.

Section Loops.
Context (t : int_type) (base : Z) (stringValue : bytes).

Definition badDigit (c : char) : ErrorCode * bytes :=
  (FailedToParse, B "Bad digit " ++ dquote ++ [c] ++ dquote ++
                  B " while parsing " ++ stringValue).

Fixpoint parse_negative (str : bytes) (n : Z) : StatusWith Z :=
  match str with
  | [] => Ret n
  | c :: str' =>
      let digitValue := wrap t (_digitValue c) in
      if digitValue >=? base then Throw (badDigit c)
      else if (wrap t (arith t (Z.quot (int_min t) base)) >? n)
           || (arith t (int_min t - wrap t (arith t (n * base))) >? arith t (- digitValue))
      then Throw (FailedToParse, B "Underflow")
      else
        let n := wrap t (arith t (n * wrap t base)) in
        let n := wrap t (arith t (n - digitValue)) in
        parse_negative str' n
  end.

Fixpoint parse_positive (str : bytes) (n : Z) : StatusWith Z :=
  match str with
  | [] => Ret n
  | c :: str' =>
      let digitValue := wrap t (_digitValue c) in
      if digitValue >=? base then Throw (badDigit c)
      else if (wrap t (arith t (Z.quot (int_max t) base)) <? n)
           || (wrap t (arith t (int_max t - arith t (n * base))) <? digitValue)
      then Throw (FailedToParse, B "Overflow")
      else
        let n := wrap t (arith t (n * wrap t base)) in
        let n := wrap t (arith t (n + digitValue)) in
        parse_positive str' n
  end.
End Loops.

Definition parseNumberFromStringWithBase (t : int_type) (stringValue : bytes) (base : Z)
    : StatusWith Z :=
  if (base =? 1) || (base <? 0) || (base >? 36) then Throw (BadValue, B "Invalid base")
  else
    let '(isNegative, unsigned) := _extractSign stringValue in
    let '(str, base) := _extractBase unsigned base in
    if StringData_empty str then Throw (FailedToParse, B "No digits")
    else if isNegative then
      if is_signed t then parse_negative t base stringValue str 0
      else Throw (FailedToParse, B "Negative value")
    else parse_positive t base stringValue str 0.

(** ** Specification: the integer a numeral denotes

    The grammar of numerals with their values, in terms of its own alphabets. *)

Definition digit_alphabet : bytes := B "0123456789abcdefghijklmnopqrstuvwxyz".
Definition DIGIT_ALPHABET : bytes := B "0123456789ABCDEFGHIJKLMNOPQRSTUVWXYZ".
(** A character is the digit at its place in one of the alphabets. *)
Definition is_digit (c : char) (d : Z) : Prop :=
  0 <= d /\ (digit_alphabet !! Z.to_nat d = Some c \/ DIGIT_ALPHABET !! Z.to_nat d = Some c).
(** The digits of a base, with the most significant first. *)
Fixpoint positional (base : Z) (ds : list Z) : Z :=
  match ds with [] => 0 | d :: ds' => d * base ^ Z.of_nat (length ds') + positional base ds' end.

(** Prefix, digits and radix of a numeral whose base is given as [base]: a base
    that is given is the radix, a hexadecimal prefix is allowed with base 16, and with
    base 0 the text tells the radix. *)
Inductive radix (base : Z) : bytes -> bytes -> Z -> Prop :=
  | radix_given ds : base <> 0 -> radix base [] ds base
  | radix_hex p ds : base = 16 \/ base = 0 -> p = B "0x" \/ p = B "0X" -> radix base p ds 16
  | radix_octal ds : base = 0 -> ds <> [] -> radix base [] ("0"%char :: ds) 8
  | radix_decimal ds : base = 0 -> head ds <> Some "0"%char \/ ds = B "0" -> radix base [] ds 10.
Inductive sign : bytes -> Z -> Prop :=
  | sign_none : sign [] 1
  | sign_plus : sign (B "+") 1
  | sign_minus : sign (B "-") (-1).
Definition denotes (base : Z) (s : bytes) (v : Z) : Prop :=
  exists sg k p ds b vs, s = sg ++ p ++ ds /\ sign sg k /\ radix base p ds b /\ ds <> [] /\
    Forall2 (fun c d => is_digit c d /\ d < b) ds vs /\ v = k * positional b vs.

(** ** What the code makes of a numeral, without the bounds *)

Fixpoint digits_value (base : Z) (str : bytes) (acc : Z) : option Z :=
  match str with
  | [] => Some acc
  | c :: str' =>
      if _digitValue c <? base then digits_value base str' (acc * base + _digitValue c)
      else None
  end.

Definition code_numeral (s : bytes) (base : Z) : option Z :=
  let '(neg, u) := _extractSign s in
  let '(str, b) := _extractBase u base in
  if StringData_empty str then None
  else (fun v => if neg then - v else v) <$> digits_value b str 0.

Definition supported (t : int_type) : Prop :=
  t ∈ [int8; uint8; int16; uint16; int32; uint32; int64; uint64].

Lemma digitValue_range c : 0 <= _digitValue c <= 36.
Proof.
  unfold _digitValue. pose proof (uchar_range c).
  repeat match goal with |- context [if ?b then _ else _] => destruct b eqn:? end; lia.
Qed.

Lemma extractBase_range s b :
  b = 0 \/ 2 <= b <= 36 -> 2 <= (_extractBase s b).2 <= 36.
Proof.
  intros Hb. unfold _extractBase.
  repeat match goal with |- context [if ?b then _ else _] => destruct b eqn:? end;
    cbn [snd]; lia.
Qed.

Ltac destruct_supported H :=
  unfold supported in H; rewrite !elem_of_cons in H;
  destruct H as [->|[->|[->|[->|[->|[->|[->|[->|H]]]]]]]];
  [..|by apply elem_of_nil in H].

Lemma supported_facts t :
  supported t ->
  0 < width t /\ in_range t 36 /\
  (forall z, in_range t z -> in_range (promoted t) z) /\
  (0 <= int_max t) /\ (int_min t <= 0) /\ 0 < width (promoted t) /\
  (is_signed t = true -> int_min t = - int_max t - 1 /\ is_signed (promoted t) = true) /\
  (is_signed t = false -> int_min t = 0).
Proof.
  intros H. destruct_supported H;
    unfold in_range, promoted, int_min, int_max, int8, uint8, int16, uint16, int32, uint32,
      int64, uint64; cbn;
    (split_and!; [lia|lia|lia|intros z Hz; lia|lia|lia|lia|intros; split; (done || lia)|
      intros; (done || lia)]).
Qed.

Lemma digits_value_mono base str acc v :
  2 <= base -> 0 <= acc -> digits_value base str acc = Some v -> acc <= v.
Proof.
  intros Hb. revert acc. induction str as [|c str IH]; cbn; intros acc Ha.
  - intros [= <-]. lia.
  - pose proof (digitValue_range c). case_match; [|done]. intros Hv.
    apply IH in Hv; nia.
Qed.

Lemma wrap_promoted t z :
  supported t -> in_range t z -> wrap t (arith t z) = z.
Proof.
  intros Hs Hz. pose proof (supported_facts t Hs) as (? & _ & Hp & _ & _ & ? & _).
  unfold arith. rewrite (wrap_id (promoted t)) by auto. by apply wrap_id.
Qed.
Lemma arith_id t z : supported t -> in_range t z -> arith t z = z.
Proof.
  intros Hs Hz. pose proof (supported_facts t Hs) as (? & _ & Hp & _ & _ & ? & _).
  unfold arith. apply wrap_id; auto.
Qed.

(** One step of the positive loop: the guard holds exactly when the next value
    would exceed the maximum. *)
Lemma positive_guard t base n d :
  supported t -> 2 <= base <= 36 -> 0 <= n <= int_max t -> 0 <= d < base ->
  ((wrap t (arith t (Z.quot (int_max t) base)) <? n)
   || (wrap t (arith t (int_max t - arith t (n * base))) <? d)) = true
  <-> int_max t < n * base + d.
Proof.
  intros Hs Hb Hn Hd.
  pose proof (supported_facts t Hs) as (_ & _ & _ & ? & ? & _ & _ & _).
  assert (0 <= Z.quot (int_max t) base <= int_max t) as Hq.
  { rewrite Z.quot_div_nonneg by lia. split; [apply Z.div_pos; lia|].
    apply Z.div_le_upper_bound; nia. }
  rewrite wrap_promoted; [|done|unfold in_range; lia].
  rewrite Z.quot_div_nonneg in * by lia.
  pose proof (Z.mul_div_le (int_max t) base ltac:(lia)) as Hle.
  pose proof (Z.mul_succ_div_gt (int_max t) base ltac:(lia)) as Hgt.
  destruct (Z.ltb_spec (int_max t / base) n) as [Hlt|Hge]; cbn [orb].
  - split; [intros _; nia|done].
  - assert (n * base <= int_max t) by nia.
    rewrite (arith_id t (n * base)) by (done || unfold in_range; nia).
    rewrite wrap_promoted by (done || unfold in_range; nia). lia.
Qed.

Lemma negative_guard t base n d :
  supported t -> is_signed t = true -> 2 <= base <= 36 -> int_min t <= n <= 0 ->
  0 <= d < base ->
  ((wrap t (arith t (Z.quot (int_min t) base)) >? n)
   || (arith t (int_min t - wrap t (arith t (n * base))) >? arith t (- d))) = true
  <-> n * base - d < int_min t.
Proof.
  intros Hs Hsg Hb Hn Hd.
  pose proof (supported_facts t Hs) as (_ & H36 & _ & ? & ? & _ & Hmin & _).
  destruct (Hmin Hsg) as [Hm _]. unfold in_range in H36.
  set (m := - int_min t). assert (int_min t = - m) as Em by (unfold m; lia).
  assert (Z.quot (int_min t) base = - (m / base)) as Eq.
  { rewrite Em, Z.quot_opp_l by lia. rewrite Z.quot_div_nonneg; lia. }
  pose proof (Z.mul_div_le m base ltac:(lia)) as Hle.
  pose proof (Z.mul_succ_div_gt m base ltac:(lia)) as Hgt.
  pose proof (Z.div_pos m base ltac:(lia) ltac:(lia)).
  rewrite Eq, wrap_promoted; [|done|unfold in_range; nia].
  rewrite (arith_id t (- d)) by (done || unfold in_range; lia).
  destruct (Z.gtb_spec (- (m / base)) n) as [Hlt|Hge]; cbn [orb].
  - split; [intros _; nia|done].
  - assert (- m <= n * base <= 0) by nia.
    rewrite (wrap_promoted t (n * base)) by (done || unfold in_range; nia).
    rewrite arith_id by (done || unfold in_range; nia). lia.
Qed.

Lemma wrap_digit t c : supported t -> wrap t (_digitValue c) = _digitValue c.
Proof.
  intros Hs. pose proof (supported_facts t Hs) as (? & H36 & _ & _ & ? & _).
  pose proof (digitValue_range c). apply wrap_id; [done|]. unfold in_range in *. lia.
Qed.
Lemma wrap_base t b : supported t -> 2 <= b <= 36 -> wrap t b = b.
Proof.
  intros Hs ?. pose proof (supported_facts t Hs) as (? & H36 & _ & _ & ? & _).
  apply wrap_id; [done|]. unfold in_range in *. lia.
Qed.

(** What a loop answers: the value when the digits denote one the type holds. *)
Definition parse_spec (t : int_type) (v : option Z) (r : StatusWith Z) : Prop :=
  match v with
  | Some z => if decide (in_range t z) then r = Ret z
              else exists m, r = Throw (FailedToParse, m)
  | None => exists m, r = Throw (FailedToParse, m)
  end.

Lemma parse_spec_err t v e m :
  (forall z, v = Some z -> ~ in_range t z) -> e = (FailedToParse, m) ->
  parse_spec t v (Throw e).
Proof.
  intros Hv ->. unfold parse_spec. destruct v as [z|]; [|eauto].
  rewrite decide_False by auto. eauto.
Qed.

Lemma parse_positive_spec t base sv str n :
  supported t -> 2 <= base <= 36 -> 0 <= n <= int_max t ->
  parse_spec t (digits_value base str n) (parse_positive t base sv str n).
Proof.
  intros Hs Hb. revert n. induction str as [|c str IH]; intros n Hn; cbn [parse_positive digits_value].
  { pose proof (supported_facts t Hs) as (_ & _ & _ & _ & ? & _).
    cbn. rewrite decide_True; [done|]. unfold in_range. lia. }
  rewrite wrap_digit by done. pose proof (digitValue_range c) as Hd.
  destruct (_digitValue c >=? base) eqn:E1.
  { replace (_digitValue c <? base) with false by lia.
    by eapply parse_spec_err. }
  replace (_digitValue c <? base) with true by lia.
  pose proof (positive_guard t base n (_digitValue c) Hs Hb Hn ltac:(lia)) as Hg.
  destruct (_ || _) eqn:E2.
  { eapply parse_spec_err; [|done]. intros z Hz%digits_value_mono; unfold in_range; [|lia..].
    assert (int_max t < n * base + _digitValue c) by tauto. lia. }
  assert (0 <= n * base + _digitValue c <= int_max t) as Hnext.
  { split; [nia|]. apply Z.nlt_ge. intros ?. assert (false = true) by tauto. done. }
  pose proof (supported_facts t Hs) as (_ & _ & _ & _ & ? & _).
  rewrite (wrap_base t base) by done. rewrite (wrap_promoted t (n * base));
    [|done|unfold in_range; nia].
  rewrite wrap_promoted; [|done|unfold in_range; lia]. by apply IH.
Qed.

Lemma parse_negative_spec t base sv str n :
  supported t -> is_signed t = true -> 2 <= base <= 36 -> int_min t <= n <= 0 ->
  parse_spec t (Z.opp <$> digits_value base str (- n)) (parse_negative t base sv str n).
Proof.
  intros Hs Hsg Hb. revert n. induction str as [|c str IH]; intros n Hn; cbn [parse_negative digits_value].
  { pose proof (supported_facts t Hs) as (_ & _ & _ & ? & _).
    cbn. rewrite Z.opp_involutive, decide_True; [done|]. unfold in_range. lia. }
  rewrite wrap_digit by done. pose proof (digitValue_range c) as Hd.
  destruct (_digitValue c >=? base) eqn:E1.
  { replace (_digitValue c <? base) with false by lia.
    by eapply parse_spec_err. }
  replace (_digitValue c <? base) with true by lia.
  pose proof (negative_guard t base n (_digitValue c) Hs Hsg Hb Hn ltac:(lia)) as Hg.
  replace (- n * base + _digitValue c) with (- (n * base - _digitValue c)) by lia.
  destruct (_ || _) eqn:E2.
  { eapply parse_spec_err; [|done].
    intros z (v & Hv%digits_value_mono & ->)%fmap_Some; unfold in_range; [|nia..].
    assert (n * base - _digitValue c < int_min t) by tauto. lia. }
  assert (int_min t <= n * base - _digitValue c <= 0) as Hnext.
  { split; [|nia]. apply Z.nlt_ge. intros ?. assert (false = true) by tauto. done. }
  pose proof (supported_facts t Hs) as (_ & _ & _ & ? & _).
  rewrite (wrap_base t base) by done. rewrite (wrap_promoted t (n * base));
    [|done|unfold in_range; nia].
  rewrite wrap_promoted; [|done|unfold in_range; lia]. by apply IH.
Qed.

Lemma parseNumber_spec_aux t s base :
  supported t -> base = 0 \/ 2 <= base <= 36 ->
  is_signed t = true \/ (_extractSign s).1 = false ->
  parse_spec t (code_numeral s base) (parseNumberFromStringWithBase t s base).
Proof.
  intros Hs Hb Hneg. unfold parseNumberFromStringWithBase, code_numeral.
  replace ((base =? 1) || (base <? 0) || (base >? 36)) with false by lia.
  destruct (_extractSign s) as [neg u]. cbn in Hneg.
  pose proof (extractBase_range u base Hb) as Hb'.
  destruct (_extractBase u base) as [str b]. cbn in Hb'.
  destruct (StringData_empty str); [by eapply parse_spec_err|].
  pose proof (supported_facts t Hs) as (_ & _ & _ & ? & ? & _ & _ & _).
  destruct neg.
  - destruct Hneg as [Hsg|?]; [|done]. rewrite Hsg.
    change (fun v : Z => if true then - v else v) with Z.opp.
    apply (parse_negative_spec t b s str 0); [done..|lia].
  - replace ((fun v : Z => if false then - v else v) <$> digits_value b str 0)
      with (digits_value b str 0) by (by destruct (digits_value b str 0)).
    apply parse_positive_spec; [done..|lia].
Qed.

Lemma parseNumber_result t s base :
  supported t -> base = 0 \/ 2 <= base <= 36 ->
  is_signed t = true \/ (_extractSign s).1 = false ->
  (exists z, parseNumberFromStringWithBase t s base = Ret z /\ in_range t z) \/
  (exists m, parseNumberFromStringWithBase t s base = Throw (FailedToParse, m)).
Proof.
  intros Hs Hb Hn. pose proof (parseNumber_spec_aux t s base Hs Hb Hn) as H.
  unfold parse_spec in H. destruct (code_numeral s base) as [z|]; [|by right].
  case_decide; [left; eauto|by right].
Qed.

(** ** Printing an [int] in decimal: the C library's ["%d"], which
    [StringBuilder::operator<<(int)] uses *)

Fixpoint dec_loop (fuel : nat) (z : Z) (acc : bytes) : bytes :=
  let acc := chr (48 + z mod 10) :: acc in
  match fuel with
  | O => acc
  | S f => if z <? 10 then acc else dec_loop f (z / 10) acc
  end.
Definition print_nonneg (z : Z) : bytes := dec_loop (Z.to_nat (Z.log2 z)) z [].
Definition print_int (z : Z) : bytes :=
  if z <? 0 then B "-" ++ print_nonneg (- z) else print_nonneg z.

Lemma digitValue_chr d : 0 <= d < 10 -> _digitValue (chr (48 + d)) = d.
Proof.
  intros. unfold _digitValue. rewrite uchar_chr_small by lia.
  replace ((48 <=? 48 + d) && (48 + d <=? 57)) with true by lia. lia.
Qed.

Lemma digits_value_app base a b acc :
  digits_value base (a ++ b) acc = digits_value base a acc ≫= digits_value base b.
Proof.
  revert acc. induction a as [|c a IH]; intros acc; cbn; [done|].
  case_match; [apply IH|done].
Qed.

Lemma dec_loop_value fuel z acc :
  0 <= z < 2 ^ (Z.of_nat fuel + 1) ->
  exists ds, dec_loop fuel z acc = ds ++ acc /\ ds <> [] /\
    (forall c, c ∈ ds -> isdigit c = true) /\
    forall a, 0 <= a -> digits_value 10 ds 0 = Some z.
Proof.
  revert z acc. induction fuel as [|fuel IH]; intros z acc Hz;
    pose proof (Z.mod_pos_bound z 10 ltac:(lia)) as Hm; cbn [dec_loop].
  all: assert (isdigit (chr (48 + z mod 10)) = true) as Hdig
    by (unfold isdigit; rewrite uchar_chr_small by lia; lia).
  - exists [chr (48 + z mod 10)]. split_and!; [done|done| |].
    + by intros c ->%list_elem_of_singleton.
    + intros _ _. cbn. change (2 ^ (Z.of_nat 0 + 1)) with 2 in Hz.
      rewrite Z.mod_small in * by lia. rewrite digitValue_chr by lia.
      by replace (z <? 10) with true by lia.
  - destruct (z <? 10) eqn:E.
    + exists [chr (48 + z mod 10)]. split_and!; [done|done| |].
      * by intros c ->%list_elem_of_singleton.
      * intros _ _. cbn. rewrite Z.mod_small in * by lia. rewrite digitValue_chr by lia.
        by replace (z <? 10) with true by lia.
    + destruct (IH (z / 10) (chr (48 + z mod 10) :: acc)) as (ds & -> & Hne & Hds & Hv).
      { split; [apply Z.div_pos; lia|].
        apply Z.div_lt_upper_bound; [lia|].
        replace (Z.of_nat (S fuel) + 1) with (Z.succ (Z.of_nat fuel + 1)) in Hz by lia.
        rewrite Z.pow_succ_r in Hz by lia. lia. }
      exists (ds ++ [chr (48 + z mod 10)]). split_and!.
      * by rewrite <-app_assoc.
      * by destruct ds.
      * intros c [?| ->%list_elem_of_singleton]%elem_of_app; auto.
      * intros _ _. rewrite digits_value_app, (Hv 0) by lia. cbn.
        rewrite digitValue_chr by lia. replace (z mod 10 <? 10) with true by lia.
        f_equal. pose proof (Z.div_mod z 10). lia.
Qed.

Lemma print_nonneg_value z :
  0 <= z ->
  print_nonneg z <> [] /\ (forall c, c ∈ print_nonneg z -> isdigit c = true) /\
  digits_value 10 (print_nonneg z) 0 = Some z.
Proof.
  intros Hz. destruct (dec_loop_value (Z.to_nat (Z.log2 z)) z []) as (ds & Hd & Hne & Hds & Hv).
  { split; [done|]. rewrite Z2Nat.id by apply Z.log2_nonneg.
    destruct (decide (z = 0)) as [->|]; [done|]. apply Z.log2_spec. lia. }
  unfold print_nonneg. rewrite Hd, app_nil_r. split_and!; [done..|]. by apply (Hv 0).
Qed.

Lemma extractSign_digit s :
  (forall c, c ∈ s -> isdigit c = true) -> _extractSign s = (false, s).
Proof.
  destruct s as [|c s]; [done|]. intros Hd. cbn.
  pose proof (Hd c ltac:(left)) as Hc. unfold isdigit in Hc.
  case_ceq; [done|]. by case_ceq.
Qed.

Lemma empty_false s : s <> [] -> StringData_empty s = false.
Proof. by destruct s. Qed.

Lemma numeral_print z : code_numeral (print_int z) 10 = Some z.
Proof.
  unfold code_numeral, print_int. destruct (z <? 0) eqn:E.
  - destruct (print_nonneg_value (- z) ltac:(lia)) as (Hne & _ & Hv).
    change (_extractSign (B "-" ++ print_nonneg (- z))) with (true, print_nonneg (- z)).
    unfold _extractBase. cbn [Z.eqb Pos.eqb andb]. cbv iota beta.
    rewrite empty_false, Hv by done. cbn. f_equal. lia.
  - destruct (print_nonneg_value z ltac:(lia)) as (Hne & Hd & Hv).
    rewrite extractSign_digit by done.
    unfold _extractBase. cbn [Z.eqb Pos.eqb andb]. cbv iota beta.
    by rewrite empty_false, Hv by done.
Qed.

Lemma parse_print_aux t z :
  supported t -> in_range t z ->
  parseNumberFromStringWithBase t (print_int z) 10 = Ret z.
Proof.
  intros Hs Hz. pose proof (parseNumber_spec_aux t (print_int z) 10 Hs) as H.
  rewrite numeral_print in H. cbn in H. rewrite decide_True in H by done.
  apply H; [lia|]. destruct (is_signed t) eqn:Esg; [by left|right].
  pose proof (supported_facts t Hs) as (_ & _ & _ & _ & _ & _ & _ & Hmin).
  unfold in_range in Hz. rewrite (Hmin Esg) in Hz. unfold print_int.
  replace (z <? 0) with false by lia.
  destruct (print_nonneg_value z ltac:(lia)) as (_ & Hd & _).
  by rewrite extractSign_digit.
Qed.

(** ** The code's numerals are those of the grammar *)

Lemma is_digit_value c d : is_digit c d <-> _digitValue c = d /\ d < 36.
Proof.
  assert (forallb (fun i => bool_decide (from_option _digitValue (-1) (digit_alphabet !! i) = Z.of_nat i) &&
    bool_decide (from_option _digitValue (-1) (DIGIT_ALPHABET !! i) = Z.of_nat i)) (seq 0 36) = true) as Htab by (by vm_compute).
  rewrite forallb_forall in Htab. split.
  - intros [Hd H].
    assert (Z.to_nat d < 36)%nat as Hl by (destruct H as [H|H]; apply lookup_lt_Some in H; exact H).
    specialize (Htab (Z.to_nat d) ltac:(apply in_seq; lia)).
    apply andb_prop in Htab as [H1%bool_decide_eq_true_1 H2%bool_decide_eq_true_1].
    destruct H as [H|H]; rewrite H in *; cbn in *; lia.
  - intros [<- Hd].
    assert (implb (_digitValue c <? 36)
      (bool_decide (digit_alphabet !! Z.to_nat (_digitValue c) = Some c) ||
       bool_decide (DIGIT_ALPHABET !! Z.to_nat (_digitValue c) = Some c)) = true) as H
      by (clear; revert c; apply forall_chars; by vm_compute).
    replace (_digitValue c <? 36) with true in H by lia. cbn [implb] in H.
    pose proof (digitValue_range c). split; [lia|].
    apply orb_prop in H as [H%bool_decide_eq_true_1|H%bool_decide_eq_true_1]; [by left|by right].
Qed.
Lemma digits_value_positional b ds acc v : b <= 36 ->
  digits_value b ds acc = Some v <->
  exists vs, Forall2 (fun c d => is_digit c d /\ d < b) ds vs /\ v = acc * b ^ Z.of_nat (length ds) + positional b vs.
Proof.
  intros Hb. revert acc v. induction ds as [|c ds IH]; intros acc v; cbn [digits_value].
  { split; [intros [= <-]; exists []; split; [constructor|cbn; lia]|].
    intros (vs & ->%Forall2_nil_inv_l & ->). cbn. f_equal. lia. }
  assert (b ^ Z.of_nat (length (c :: ds)) = b * b ^ Z.of_nat (length ds)) as Ep
    by (cbn [length]; rewrite Nat2Z.inj_succ, Z.pow_succ_r by lia; done).
  rewrite Ep. destruct (_digitValue c <? b) eqn:E.
  - rewrite IH. split.
    + intros (vs & Hvs & ->). exists (_digitValue c :: vs).
      split; [constructor; [split; [apply is_digit_value; lia|lia]|done]|].
      cbn [positional]. rewrite <-(Forall2_length _ _ _ Hvs). lia.
    + intros (vs & Hvs & ->). apply Forall2_cons_inv_l in Hvs as (d & vs' & [Hd _] & Hvs & ->).
      apply is_digit_value in Hd as [<- _]. exists vs'. split; [done|].
      cbn [positional]. rewrite <-(Forall2_length _ _ _ Hvs). lia.
  - split; [done|]. intros (vs & Hvs & _). apply Forall2_cons_inv_l in Hvs as (d & vs' & [Hd Hlt] & _ & _).
    apply is_digit_value in Hd as [Hd _]. lia.
Qed.

(** The sign: what follows one is anything, and a numeral without one starts with
    something else. *)
Lemma extractSign_spec s :
  exists sg, s = sg ++ (_extractSign s).2 /\ sign sg (if (_extractSign s).1 then -1 else 1).
Proof.
  destruct s as [|c s]; cbn [_extractSign]; [exists []; split; [done|constructor]|].
  destruct (ceq c "-"%char) eqn:E1; [apply ceq_true in E1 as ->; exists (B "-"); split; [done|constructor]|].
  destruct (ceq c "+"%char) eqn:E2; [apply ceq_true in E2 as ->; exists (B "+"); split; [done|constructor]|].
  exists []. split; [done|constructor].
Qed.
(** Neither a prefix nor a digit is a sign. *)
Definition unsigned_start (u : bytes) : Prop := head u <> Some "-"%char /\ head u <> Some "+"%char.
Lemma extractSign_unique sg k u : sign sg k -> unsigned_start u -> _extractSign (sg ++ u) = (k =? -1, u).
Proof.
  intros [] [H1 H2]; [|done|done]. destruct u as [|c u]; [done|]. cbn in *.
  rewrite (proj2 (ceq_false c "-"%char)), (proj2 (ceq_false c "+"%char)) by congruence. done.
Qed.
Lemma numeral_unsigned base p ds b vs : radix base p ds b -> ds <> [] ->
  Forall2 (fun c d => is_digit c d /\ d < b) ds vs -> unsigned_start (p ++ ds).
Proof.
  intros Hr Hne Hvs.
  assert (unsigned_start ds) as Hds.
  { destruct ds as [|c ds]; [done|]. apply Forall2_cons_inv_l in Hvs as (d & ? & [[H1 H2]%is_digit_value _] & _ & _).
    split; cbn; intros [= ->]; vm_compute in H1; lia. }
  destruct Hr as [| p ds Hb Hp | |]; cbn [app] in *; [done| |done|done].
  by destruct Hp as [-> | ->].
Qed.

Lemma has_prefix_app (p s : bytes) : has_prefix (p ++ s) p = true.
Proof. apply bool_decide_eq_true_2. by exists s. Qed.
Lemma has_prefix_split (p s : bytes) : has_prefix s p = true -> s = p ++ drop (length p) s.
Proof. intros [k ->]%bool_decide_eq_true_1. by rewrite drop_app_length. Qed.
Lemma extractBase_radix u base : base = 0 \/ 2 <= base <= 36 ->
  exists p, u = p ++ (_extractBase u base).1 /\
    ((_extractBase u base).1 <> [] -> radix base p (_extractBase u base).1 (_extractBase u base).2).
Proof.
  intros Hb. assert (forall h, h = B "0x" \/ h = B "0X" -> has_prefix u h = true -> u = h ++ drop 2 u) as Hh.
  { intros h Hh Hu. rewrite (has_prefix_split h u Hu) at 1. by destruct Hh as [-> | ->]. }
  assert (has_prefix u (B "0x") || has_prefix u (B "0X") = true ->
    exists h, (h = B "0x" \/ h = B "0X") /\ u = h ++ drop 2 u) as Hhex.
  { intros [H|H]%orb_prop; eexists; (split; [|by apply Hh; [|exact H]; auto]); auto. }
  unfold _extractBase. destruct (base =? 0) eqn:E0.
  - apply Z.eqb_eq in E0 as ->. destruct (_ && (_ || _)) eqn:E1.
    + apply andb_prop in E1 as [_ E1]. destruct (Hhex E1) as (h & Hx & Eu). exists h. cbn [fst snd].
      split; [done|]. intros _. by apply radix_hex; [right|].
    + destruct (_ && has_prefix u (B "0")) eqn:E2; cbn [fst snd]; exists []; (split; [done|intros Hne]).
      * apply andb_prop in E2 as [E2 E3]. apply has_prefix_split in E3. rewrite E3.
        apply radix_octal; [done|]. intros H0. rewrite E3 in E2. change (length (B "0")) with 1%nat in H0.
        change (length (B "0")) with 1%nat in E2. rewrite H0 in E2. done.
      * apply radix_decimal; [done|]. destruct u as [|c u]; [done|]. cbn [head].
        destruct (decide (c = "0"%char)) as [->|Hc]; [right|left; congruence].
        destruct u as [|c u]; [done|]. rewrite (has_prefix_app (B "0") (c :: u) : has_prefix ("0"%char :: c :: u) (B "0") = true), andb_true_r in E2.
        unfold StringData_size in E2. rewrite !zlen_cons in E2. pose proof (zlen_nonneg u). lia.
  - assert (base <> 0) by lia. destruct (_ && (_ || _)) eqn:E1; cbn [fst snd].
    + apply andb_prop in E1 as [Eb E1]. destruct (Hhex E1) as (h & Hx & Eu). exists h.
      split; [done|]. intros _. assert (base = 16) as -> by lia. by apply radix_hex; [left|].
    + exists []. split; [done|]. intros _. by apply radix_given.
Qed.
(** With base 16 or less an [x] is no digit, so that the radix is the only one. *)
Lemma extractBase_unique base p ds b vs : radix base p ds b -> ds <> [] ->
  Forall2 (fun c d => is_digit c d /\ d < b) ds vs -> _extractBase (p ++ ds) base = (ds, b).
Proof.
  intros Hr Hne Hvs.
  assert (b <= 16 -> forall x, x = "x"%char \/ x = "X"%char -> has_prefix ds ["0"%char; x] = false) as Hx.
  { intros Hb x Hx. apply bool_decide_eq_false_2. intros [l ->]. cbn [app] in Hvs.
    apply Forall2_cons_inv_l in Hvs as (? & ? & _ & Hvs & _).
    apply Forall2_cons_inv_l in Hvs as (? & ? & [[Hd _]%is_digit_value Hlt] & _ & _).
    destruct Hx as [-> | ->]; vm_compute in Hd; lia. }
  assert (forall x l, x = B "0x" \/ x = B "0X" -> l <> [] -> StringData_size (x ++ l) >? 2 = true) as Hlen.
  { intros x l [-> | ->] Hl; unfold StringData_size; rewrite zlen_app; destruct l; try done;
      rewrite zlen_cons; pose proof (zlen_nonneg l); [change (zlen (B "0x")) with 2|change (zlen (B "0X")) with 2]; lia. }
  unfold _extractBase. destruct Hr as [ds H0|p ds Hb Hp|ds H0 Hds|ds H0 Hds].
  - replace (base =? 0) with false by lia. cbn [app]. destruct (base =? 16) eqn:E16; [|done].
    rewrite (Hx ltac:(lia) "x"%char ltac:(auto) : has_prefix ds (B "0x") = false),
      (Hx ltac:(lia) "X"%char ltac:(auto) : has_prefix ds (B "0X") = false). done.
  - assert (has_prefix (p ++ ds) (B "0x") || has_prefix (p ++ ds) (B "0X") = true) as ->
      by (destruct Hp as [-> | ->]; rewrite has_prefix_app; [done|apply orb_true_r]).
    assert (drop 2 (p ++ ds) = ds) as -> by (by destruct Hp as [-> | ->]).
    destruct Hb as [-> | ->]; cbn [Z.eqb Pos.eqb andb]; [done|]. by rewrite Hlen.
  - subst base. cbn [Z.eqb app].
    rewrite (Hx ltac:(lia) "x"%char ltac:(auto) : has_prefix ("0"%char :: ds) (B "0x") = false),
      (Hx ltac:(lia) "X"%char ltac:(auto) : has_prefix ("0"%char :: ds) (B "0X") = false).
    cbn [orb]. rewrite andb_false_r, (has_prefix_app (B "0") ds : has_prefix ("0"%char :: ds) (B "0") = true).
    unfold StringData_size. destruct ds as [|c ds]; [done|]. rewrite !zlen_cons. pose proof (zlen_nonneg ds).
    by replace (1 + (1 + zlen ds) >? 1) with true by lia.
  - subst base. cbn [Z.eqb app].
    rewrite (Hx ltac:(lia) "x"%char ltac:(auto) : has_prefix ds (B "0x") = false),
      (Hx ltac:(lia) "X"%char ltac:(auto) : has_prefix ds (B "0X") = false).
    cbn [orb]. rewrite andb_false_r. destruct Hds as [Hds| ->]; [|done].
    assert (has_prefix ds (B "0") = false) as ->; [|by rewrite andb_false_r].
    apply bool_decide_eq_false_2. by intros [l ->].
Qed.

Lemma code_numeral_denotes base s v : base = 0 \/ 2 <= base <= 36 ->
  code_numeral s base = Some v <-> denotes base s v.
Proof.
  intros Hb. unfold code_numeral. split.
  - destruct (extractSign_spec s) as (sg & Es & Hsg).
    destruct (_extractSign s) as [neg u]. cbn [fst snd] in *.
    destruct (extractBase_radix u base Hb) as (p & Eu & Hr). pose proof (extractBase_range u base Hb) as Hb'.
    destruct (_extractBase u base) as [ds b]. cbn [fst snd] in *.
    destruct ds as [|c ds]; [done|]. cbn [StringData_empty]. intros (w & Hw & ->)%fmap_Some.
    apply digits_value_positional in Hw as (vs & Hvs & ->); [|lia].
    exists sg, (if neg then -1 else 1), p, (c :: ds), b, vs. rewrite <-Eu. split_and!; [done|done|by apply Hr|done|done|].
    destruct neg; lia.
  - intros (sg & k & p & ds & b & vs & -> & Hsg & Hr & Hne & Hvs & ->).
    rewrite (extractSign_unique sg k) by (done || by eapply numeral_unsigned).
    rewrite (extractBase_unique base p ds b vs Hr Hne Hvs).
    assert (b <= 36) as Hb36 by (destruct Hr; lia).
    assert (digits_value b ds 0 = Some (positional b vs)) as ->
      by (apply digits_value_positional; [done|]; exists vs; split; [done|lia]).
    destruct ds as [|c ds]; [done|]. cbn [StringData_empty fmap option_fmap option_map].
    f_equal. destruct Hsg; cbn [Z.eqb Pos.eqb]; cbv iota; lia.
Qed.
Lemma starts_minus s : (_extractSign s).1 = true <-> head s = Some "-"%char.
Proof.
  destruct s as [|c s]; cbn; [done|]. destruct (ceq c "-"%char) eqn:E.
  - apply ceq_true in E as ->. done.
  - apply ceq_false in E. split; [by destruct (ceq c "+"%char)|congruence].
Qed.

(** ** Properties *)

(** C40: for each of the ten integer types and every base: an illegal base is
    refused with [BadValue]; with a legal one (0, or 2 to 36) the text is parsed to
    [v] exactly when it is a numeral that denotes [v] in the grammar [denotes], [v]
    lies in the range of the type, and the type is signed or there is no minus sign
    (so that [-0] is refused for an unsigned type); any other text is refused with
    [FailedToParse]. *)
Theorem parseNumber_correct t s base : supported t ->
  if decide (base = 0 \/ 2 <= base <= 36) then
    (forall v, parseNumberFromStringWithBase t s base = Ret v <->
       denotes base s v /\ in_range t v /\ (is_signed t = true \/ head s <> Some "-"%char)) /\
    ((exists v, parseNumberFromStringWithBase t s base = Ret v) \/
     (exists m, parseNumberFromStringWithBase t s base = Throw (FailedToParse, m)))
  else parseNumberFromStringWithBase t s base = Throw (BadValue, B "Invalid base").
Proof.
  intros Hs. case_decide as Hb.
  2: { unfold parseNumberFromStringWithBase. by replace ((base =? 1) || (base <? 0) || (base >? 36)) with true by lia. }
  assert (is_signed t = true \/ (_extractSign s).1 = false <-> is_signed t = true \/ head s <> Some "-"%char) as Hm.
  { rewrite <-starts_minus. destruct (_extractSign s).1; intuition congruence. }
  destruct (decide (is_signed t = true \/ (_extractSign s).1 = false)) as [Hsg|Hsg].
  - pose proof (parseNumber_spec_aux t s base Hs Hb Hsg) as Hp. unfold parse_spec in Hp. split.
    + intros v. rewrite <-code_numeral_denotes by done. destruct (code_numeral s base) as [z|] eqn:E.
      * case_decide as Hz.
        -- rewrite Hp. split; [intros [= <-]; tauto|by intros ([= <-] & _)].
        -- destruct Hp as [m ->]. split; [done|]. intros ([= <-] & ? & _). done.
      * destruct Hp as [m ->]. split; [done|]. by intros (? & _).
    + destruct (parseNumber_result t s base Hs Hb Hsg) as [(z & -> & _)|[m ->]]; eauto.
  - assert (exists m, parseNumberFromStringWithBase t s base = Throw (FailedToParse, m)) as [m Em].
    { unfold parseNumberFromStringWithBase. replace ((base =? 1) || (base <? 0) || (base >? 36)) with false by lia.
      destruct (_extractSign s) as [neg u]. cbn in Hsg. destruct (_extractBase u base) as [str b].
      destruct (StringData_empty str); [eauto|]. destruct neg; [|tauto]. destruct (is_signed t); [tauto|eauto]. }
    rewrite Em. split; [|eauto]. intros v. split; [done|]. intros (_ & _ & ?). tauto.
Qed.

Lemma parseNumber_correct_witness :
  supported int8 /\ denotes 0 (B "-0x80") (-128) /\ ~ denotes 0 (B "08") 8 /\
  parseNumberFromStringWithBase uint8 (B "-0") 10 = Throw (FailedToParse, B "Negative value").
Proof.
  assert (supported int8) as Hs by (unfold supported; set_solver).
  split; [exact Hs|]. split.
  - pose proof (parseNumber_correct int8 (B "-0x80") 0 Hs) as H. rewrite decide_True in H by lia.
    by apply (proj1 H (-128)).
  - split; [|reflexivity]. intros Hd. pose proof (parseNumber_correct int8 (B "08") 0 Hs) as H.
    rewrite decide_True in H by lia.
    assert (parseNumberFromStringWithBase int8 (B "08") 0 = Ret 8) as E.
    { apply (proj1 H 8). split_and!; [done|by vm_compute|by left]. }
    discriminate E.
Defined.

(** Printing an integer in decimal and parsing the text gives the integer
    back, for every type and every value of the type, both extremes included. *)
Theorem parse_print_roundtrip t z :
  supported t -> in_range t z ->
  parseNumberFromStringWithBase t (print_int z) 10 = Ret z.
Proof. exact (parse_print_aux t z). Qed.

Lemma parse_print_roundtrip_witness :
  in_range int64 (-9223372036854775808) /\
  parseNumberFromStringWithBase int64 (print_int (-9223372036854775808)) 10
    = Ret (-9223372036854775808).
Proof.
  split; [by vm_compute|]. apply (parse_print_roundtrip int64).
  - unfold supported. set_solver.
  - by vm_compute.
Defined.

(** For an unsigned type a leading minus sign is an error whatever follows
    it, "-0" included. *)
Theorem parseNumber_unsigned_negative t s base :
  is_signed t = false -> base = 0 \/ 2 <= base <= 36 ->
  exists m, parseNumberFromStringWithBase t (B "-" ++ s) base = Throw (FailedToParse, m).
Proof.
  intros Hu Hb. unfold parseNumberFromStringWithBase.
  replace ((base =? 1) || (base <? 0) || (base >? 36)) with false by lia.
  cbn [B String.list_ascii_of_string app _extractSign]. rewrite ceq_refl.
  destruct (_extractBase s base) as [str b].
  destruct (StringData_empty str); [eauto|]. rewrite Hu. eauto.
Qed.

Lemma parseNumber_unsigned_negative_witness :
  is_signed uint8 = false /\
  exists m, parseNumberFromStringWithBase uint8 (B "-" ++ B "0") 10 = Throw (FailedToParse, m).
Proof. split; [done|]. apply parseNumber_unsigned_negative; [done|lia]. Defined.
