(* ===== verification/HostAndPort.v ===== *)
(** * Network names: util/net/hostandport.h and .cpp

    [HostAndPort] with its parser, printer, equality and order.  The reason
    text of a refused string is shortened: the C++ appends the offending text. *)
From S2P Require Import Prelude StringData ParseNumber.
Local Open Scope Z_scope.

Record HostAndPort := mkHostAndPort { _host : bytes; _port : Z }.

Definition kDbServer : Z := 27017.

Definition HostAndPort_default : HostAndPort := mkHostAndPort [] (-1).
Definition HostAndPort_hasPort (h : HostAndPort) : bool := _port h >=? 0.
Definition HostAndPort_port (h : HostAndPort) : Z :=
  if HostAndPort_hasPort h then _port h else kDbServer.
Definition HostAndPort_empty (h : HostAndPort) : bool :=
  StringData_empty (_host h) && (_port h <? 0).

Definition HostAndPort_lt (l r : HostAndPort) : bool :=
  let cmp := StringData_compare (_host l) (_host r) in
  if negb (cmp =? 0) then cmp <? 0
  else HostAndPort_port l <? HostAndPort_port r.
Definition HostAndPort_eq (l r : HostAndPort) : bool :=
  bool_decide (_host l = _host r) && (HostAndPort_port l =? HostAndPort_port r).

Definition HostAndPort_isLocalHost (h : HostAndPort) : bool :=
  bool_decide (_host h = B "localhost")
  || has_prefix (_host h) (B "127.")
  || bool_decide (_host h = B "::1")
  || bool_decide (_host h = B "anonymous unix socket")
  || match _host h with c :: _ => ceq c "/"%char | [] => false end.

Definition colon : char := ":"%char.
Definition lbracket : char := "["%char.
Definition rbracket : char := "]"%char.

(** [append] writes to a StringBuilder; [toString] is its text. *)
Definition HostAndPort_append (ss : bytes) (h : HostAndPort) : bytes :=
  ss ++ (if StringData_find_char (_host h) colon 0 =? npos then _host h
         else [lbracket] ++ _host h ++ [rbracket])
     ++ [colon] ++ print_int (HostAndPort_port h).
Definition HostAndPort_toString (h : HostAndPort) : bytes := HostAndPort_append [] h.

(** The bracket analysis of [initialize]: the host part and the position of
    the colon before the port ([npos] when there is no port). *)
Definition split_host (s : bytes) : M (StatusWith (bytes * Z)) :=
  let colonPos := StringData_rfind s colon npos in
  hostPart ← StringData_substr s 0 colonPos;
  let openBracketPos := StringData_find_char s lbracket 0 in
  let closeBracketPos := StringData_find_char s rbracket 0 in
  if negb (openBracketPos =? npos) then
    if negb (openBracketPos =? 0) then
      Ret (Throw (FailedToParse, B "'[' present, but not first character in "))
    else if closeBracketPos =? npos then
      Ret (Throw (FailedToParse, B "ipv6 address is missing closing ']' in hostname in "))
    else
      hostPart ← StringData_substr s (size_wrap (openBracketPos + 1))
                   (size_wrap (closeBracketPos - openBracketPos - 1));
      if colonPos <? closeBracketPos then Ret (Ret (hostPart, npos))
      else if negb (colonPos =? size_wrap (closeBracketPos + 1)) then
        Ret (Throw (FailedToParse, B "Extraneous characters between ']' and pre-port ':'"))
      else Ret (Ret (hostPart, colonPos))
  else if negb (closeBracketPos =? npos) then
    Ret (Throw (FailedToParse, B "']' present without '[' in "))
  else if negb (StringData_find_char s colon 0 =? colonPos) then
    Ret (Throw (FailedToParse, B "More than one ':' detected."))
  else Ret (Ret (hostPart, colonPos)).

Definition HostAndPort_initialize (s : bytes) : M (StatusWith HostAndPort) :=
  split ← split_host s;
  match split with
  | Throw e => Ret (Throw e)
  | Ret (hostPart, colonPos) =>
      if StringData_empty hostPart then
        Ret (Throw (FailedToParse, B "Empty host component parsing HostAndPort"))
      else if negb (colonPos =? npos) then
        portPart ← StringData_substr s (size_wrap (colonPos + 1)) npos;
        match parseNumberFromStringWithBase int32 portPart 10 with
        | Throw e => Ret (Throw e)
        | Ret port =>
            if port <=? 0 then
              Ret (Throw (FailedToParse, B "Port number out of range parsing HostAndPort"))
            else Ret (Ret (mkHostAndPort hostPart port))
        end
      else Ret (Ret (mkHostAndPort hostPart (-1)))
  end.

Definition HostAndPort_parse (text : bytes) : M (StatusWith HostAndPort) :=
  HostAndPort_initialize text.

(** The throwing constructor: [uassertStatusOK(initialize(text))]. *)
Definition HostAndPort_ctor (text : bytes) : M HostAndPort :=
  r ← HostAndPort_initialize text;
  match r with
  | Ret h => Ret h
  | Throw (code, reason) => Throw (EStatus (Err code reason))
  end.

(** ** Lemmas *)

(** A plain [host:port] text. *)
Lemma split_host_plain h p :
  sized (h ++ colon :: p) -> colon ∉ h -> lbracket ∉ h -> rbracket ∉ h ->
  colon ∉ p -> lbracket ∉ p -> rbracket ∉ p ->
  split_host (h ++ colon :: p) = Ret (Ret (h, zlen h)).
Proof.
  intros Hs Hc Hl Hr Hcp Hlp Hrp. unfold split_host.
  rewrite rfind_last by done. rewrite substr_app_0. cbn [mbind result_bind].
  rewrite (find_char_notin _ lbracket), (find_char_notin _ rbracket) by not_in.
  rewrite find_char_first by done. by rewrite !Z.eqb_refl.
Qed.

Lemma find_char_head c s : StringData_find_char (c :: s) c 0 = 0.
Proof. apply (find_char_first [] c s), not_elem_of_nil. Qed.

(** A bracketed [[host]:port] text. *)
Lemma split_host_bracket h p :
  sized (lbracket :: h ++ rbracket :: colon :: p) -> rbracket ∉ h -> colon ∉ p ->
  split_host (lbracket :: h ++ rbracket :: colon :: p) = Ret (Ret (h, zlen h + 2)).
Proof.
  intros Hs Hr Hcp. unfold split_host.
  assert (StringData_rfind (lbracket :: h ++ rbracket :: colon :: p) colon npos
          = zlen h + 2) as ->.
  { replace (lbracket :: h ++ rbracket :: colon :: p)
      with ((lbracket :: h ++ [rbracket]) ++ colon :: p) in *
      by (cbn; by rewrite <-app_assoc).
    rewrite rfind_last by done. rewrite zlen_cons, zlen_app, zlen_cons, zlen_nil. lia. }
  rewrite find_char_head.
  pose proof (find_char_first (lbracket :: h) rbracket (colon :: p)) as Hfc. cbn [app] in Hfc.
  rewrite Hfc by not_in. clear Hfc.
  pose proof (zlen_nonneg h) as Hh. pose proof (zlen_nonneg p) as Hp.
  assert (zlen h + zlen p + 3 < npos) as Hb.
  { unfold sized in Hs. cbn in Hs. rewrite length_app in Hs. cbn in Hs. unfold zlen. lia. }
  rewrite zlen_cons. rewrite substr_0 by lia. cbn [mbind result_bind].
  replace (0 =? npos) with false by done. rewrite Z.eqb_refl. cbn [negb].
  replace (1 + zlen h =? npos) with false by lia.
  rewrite !size_wrap_small by lia.
  replace (1 + zlen h - 0 - 1) with (zlen h) by lia.
  pose proof (substr_middle [lbracket] h (rbracket :: colon :: p)) as Hm.
  change (zlen [lbracket]) with (0 + 1) in Hm. cbn [app] in Hm. rewrite Hm.
  cbn [mbind result_bind].
  replace (zlen h + 2 <? 1 + zlen h) with false by lia.
  by replace (zlen h + 2 =? 1 + zlen h + 1) with true by lia.
Qed.

Lemma int32_supported : supported int32.
Proof. unfold supported. set_solver. Qed.
#[export] Hint Resolve int32_supported : mongo.

Lemma print_int_no_mark z c :
  0 <= z -> isdigit c = false -> c ∉ print_int z.
Proof.
  intros Hz Hc Hin. unfold print_int in Hin. replace (z <? 0) with false in Hin by lia.
  destruct (print_nonneg_value z Hz) as (_ & Hd & _). by rewrite (Hd c Hin) in Hc.
Qed.

(** The hosts a printed name can carry: no brackets, and not empty. *)
Definition printable_host (h : bytes) : Prop :=
  h <> [] /\ (lbracket ∉ h) /\ (rbracket ∉ h).

Lemma toString_split h :
  printable_host (_host h) -> 0 <= HostAndPort_port h ->
  sized (HostAndPort_toString h) ->
  exists pos pre,
    split_host (HostAndPort_toString h) = Ret (Ret (_host h, pos)) /\ pos = zlen pre /\
    HostAndPort_toString h = pre ++ colon :: print_int (HostAndPort_port h).
Proof.
  intros (Hne & Hl & Hr) Hp. unfold HostAndPort_toString, HostAndPort_append.
  cbn [app]. set (p := print_int (HostAndPort_port h)).
  assert (colon ∉ p) by (by apply print_int_no_mark).
  assert (lbracket ∉ p) by (by apply print_int_no_mark).
  assert (rbracket ∉ p) by (by apply print_int_no_mark).
  destruct (find_char_total (_host h) colon) as [[Hn ->]|(pre & post & E & Hn & ->)].
  - rewrite Z.eqb_refl. intros Hs. exists (zlen (_host h)), (_host h).
    split; [by apply split_host_plain|done].
  - intros Hs. destruct (zlen pre =? npos) eqn:En.
    { exfalso. unfold sized in Hs. rewrite length_app, E, length_app in Hs. cbn in Hs.
      unfold zlen in En. lia. }
    exists (zlen (_host h) + 2), (lbracket :: _host h ++ [rbracket]).
    cbn [app] in *. rewrite <-app_assoc in *. cbn [app] in *. split_and!.
    + by apply split_host_bracket.
    + rewrite zlen_cons, zlen_app, zlen_cons, zlen_nil. lia.
    + done.
Qed.

(** [initialize] never lets an out-of-range position reach [substr]. *)
Lemma split_host_total s :
  sized s ->
  exists r, split_host s = Ret r /\
    match r with
    | Ret (_, pos) => pos = npos \/ 0 <= pos < zlen s
    | Throw (c, _) => c = FailedToParse
    end.
Proof.
  intros Hs. unfold split_host.
  assert (exists p, StringData_substr s 0 (StringData_rfind s colon npos) = Ret p) as (p & ->).
  { rewrite substr_0; [by eexists|].
    destruct (rfind_total s colon Hs) as [[_ ->]|(? & ? & _ & _ & ->)];
      [done|apply zlen_nonneg]. }
  assert (StringData_rfind s colon npos = npos \/ 0 <= StringData_rfind s colon npos < zlen s)
    as Hc.
  { destruct (rfind_total s colon Hs) as [[_ ->]|(pre & post & E & _ & ->)]; [by left|].
    right. rewrite E, zlen_app, zlen_cons.
    pose proof (zlen_nonneg pre). pose proof (zlen_nonneg post). lia. }
  generalize dependent (StringData_rfind s colon npos). intros cp Hc.
  cbn [mbind result_bind].
  destruct (StringData_find_char s lbracket 0 =? npos) eqn:Eo; cbn [negb].
  { destruct (negb _); [by eexists|]. destruct (negb _); [by eexists|].
    eexists. split; [done|]. exact Hc. }
  destruct (StringData_find_char s lbracket 0 =? 0) eqn:Eo0; cbn [negb];
    [|by eexists].
  destruct (StringData_find_char s rbracket 0 =? npos) eqn:Ec;
    [by eexists|].
  assert (exists q, StringData_substr s (size_wrap (StringData_find_char s lbracket 0 + 1))
            (size_wrap (StringData_find_char s rbracket 0 -
               StringData_find_char s lbracket 0 - 1)) = Ret q) as (q & ->).
  { replace (StringData_find_char s lbracket 0) with 0 by lia.
    change (size_wrap (0 + 1)) with 1. unfold StringData_substr, StringData_size.
    destruct (1 >? zlen s) eqn:E1; [|by eexists].
    destruct s; [done|]. rewrite zlen_cons in E1. pose proof (zlen_nonneg s). lia. }
  cbn [mbind result_bind].
  destruct (cp <? _); [eexists; split; [done|]; by left|].
  destruct (negb _); [by eexists|]. eexists. split; [done|]. exact Hc.
Qed.

(** Whatever follows the bracket of an IPv6 host without a port is ignored. *)
Lemma split_host_suffix h junk :
  colon ∈ h -> rbracket ∉ h -> colon ∉ junk ->
  sized (lbracket :: h ++ rbracket :: junk) ->
  split_host (lbracket :: h ++ rbracket :: junk) = Ret (Ret (h, npos)).
Proof.
  intros Hc Hr Hj Hs. unfold split_host.
  set (s := lbracket :: h ++ rbracket :: junk) in *.
  assert (0 <= StringData_rfind s colon npos < 1 + zlen h) as Hcp.
  { destruct (rfind_total s colon Hs) as [[Hn _]|(pre & post & E & _ & ->)].
    { destruct Hn. unfold s. right. apply elem_of_app. by left. }
    split; [apply zlen_nonneg|]. apply Z.nle_gt. intros Hle.
    assert (s !! length pre = Some colon) as Hl by (rewrite E; by apply list_lookup_middle).
    unfold s in Hl. unfold zlen in Hle. rewrite app_comm_cons in Hl.
    rewrite lookup_app_r in Hl by (cbn; lia).
    apply list_elem_of_lookup_2, elem_of_cons in Hl as [?|?]; done. }
  pose proof (zlen_nonneg h). pose proof (zlen_nonneg junk).
  assert (zlen h + zlen junk + 2 < npos) as Hb.
  { unfold sized, s in Hs. cbn in Hs. rewrite length_app in Hs. cbn in Hs. unfold zlen. lia. }
  assert (StringData_find_char s lbracket 0 = 0) as -> by apply find_char_head.
  assert (StringData_find_char s rbracket 0 = 1 + zlen h) as ->.
  { pose proof (find_char_first (lbracket :: h) rbracket junk ltac:(not_in)) as Hfc.
    by rewrite zlen_cons in Hfc. }
  rewrite substr_0 by lia. cbn [mbind result_bind].
  replace (0 =? npos) with false by done. rewrite Z.eqb_refl. cbn [negb].
  replace (1 + zlen h =? npos) with false by lia. rewrite !size_wrap_small by lia.
  replace (1 + zlen h - 0 - 1) with (zlen h) by lia.
  assert (StringData_substr s (0 + 1) (zlen h) = Ret h) as ->
    by exact (substr_middle [lbracket] h (rbracket :: junk)).
  cbn [mbind result_bind].
  by replace (StringData_rfind s colon npos <? 1 + zlen h) with true by lia.
Qed.

(** The order and the equality are those of the pair of host and port. *)
Definition hp_key (h : HostAndPort) : bytes * Z := (_host h, HostAndPort_port h).

Definition key_lt (a b : bytes * Z) : Prop :=
  lex a.1 b.1 = Lt \/ (a.1 = b.1 /\ a.2 < b.2).

Lemma HostAndPort_lt_key l r : HostAndPort_lt l r = true <-> key_lt (hp_key l) (hp_key r).
Proof.
  unfold HostAndPort_lt, key_lt, hp_key. cbn [fst snd]. rewrite compare_lex_aux.
  destruct (lex (_host l) (_host r)) eqn:E; cbn.
  - apply lex_eq in E. rewrite Z.ltb_lt.
    split; [intros; by right|]. by intros [?|[_ ?]].
  - split; [intros; by left|done].
  - split; [done|]. intros [?|[E2 _]]; [done|]. rewrite E2, lex_refl in E. done.
Qed.

Lemma HostAndPort_eq_key l r : HostAndPort_eq l r = true <-> hp_key l = hp_key r.
Proof.
  unfold HostAndPort_eq, hp_key. rewrite andb_true_iff, bool_decide_eq_true, Z.eqb_eq.
  split; [by intros [-> ->]|]. by intros [= -> ->].
Qed.

Global Instance key_lt_dec a b : Decision (key_lt a b).
Proof. unfold key_lt. apply _. Defined.
Global Instance key_lt_strict : StrictOrder key_lt.
Proof.
  split.
  - intros [h p] [E|[_ E]]; cbn in *; [by rewrite lex_refl in E|lia].
  - intros [h1 p1] [h2 p2] [h3 p3] [E1|[E1 F1]] [E2|[E2 F2]]; unfold key_lt; cbn in *; subst;
      eauto using lex_lt_trans. right. split; [done|lia].
Qed.
Lemma key_lt_trichotomy a b : key_lt a b \/ a = b \/ key_lt b a.
Proof.
  destruct a as [h1 p1], b as [h2 p2]. unfold key_lt. cbn.
  pose proof (lex_opp h1 h2) as Ho. destruct (lex h1 h2) eqn:E; cbn in Ho.
  - apply lex_eq in E. subst. destruct (Z.lt_trichotomy p1 p2) as [|[->|]]; auto.
  - auto.
  - auto.
Qed.

Lemma key_lt_irrefl a : ~ key_lt a a.
Proof. apply key_lt_strict. Qed.
Lemma key_lt_trans a b c : key_lt a b -> key_lt b c -> key_lt a c.
Proof. apply key_lt_strict. Qed.

(** ** Properties *)

(** Printing a name and parsing the text gives an equal name, with the
    default port made explicit; IPv6 hosts go through the bracketed form. *)
Theorem HostAndPort_roundtrip h :
  printable_host (_host h) -> 1 <= HostAndPort_port h <= 2147483647 ->
  sized (HostAndPort_toString h) ->
  HostAndPort_initialize (HostAndPort_toString h)
    = Ret (Ret (mkHostAndPort (_host h) (HostAndPort_port h))).
Proof.
  intros Hh Hp Hs. unfold HostAndPort_initialize.
  destruct (toString_split h Hh ltac:(lia) Hs) as (pos & pre & -> & -> & E).
  cbn [mbind result_bind]. destruct Hh as (Hne & _). rewrite empty_false by done.
  rewrite E in *. rewrite (zlen_ne_npos pre (print_int (HostAndPort_port h)) colon) by done.
  rewrite substr_after by done. cbn [negb mbind result_bind].
  rewrite parse_print_aux; [|auto with mongo|unfold in_range; cbn; lia].
  by replace (HostAndPort_port h <=? 0) with false by lia.
Qed.

Lemma HostAndPort_roundtrip_witness :
  HostAndPort_toString (mkHostAndPort (B "::1") (-1)) = B "[::1]:27017" /\
  HostAndPort_initialize (B "[::1]:27017") = Ret (Ret (mkHostAndPort (B "::1") 27017)).
Proof.
  split; [reflexivity|].
  apply (HostAndPort_roundtrip (mkHostAndPort (B "::1") (-1))); [|by vm_compute|reflexivity].
  unfold printable_host. cbn. split_and!; [done|not_in..].
Defined.

(** Parsing never throws: every text of memory size gives a name or a
    [FailedToParse] status, and a returned name has a non-empty host and either
    no port or a positive one that fits an [int]. *)
Theorem HostAndPort_initialize_total s :
  sized s ->
  exists r, HostAndPort_initialize s = Ret r /\
    match r with
    | Ret h => _host h <> [] /\ (_port h = -1 \/ 1 <= _port h <= 2147483647)
    | Throw (c, _) => c = FailedToParse
    end.
Proof.
  intros Hs. unfold HostAndPort_initialize.
  destruct (split_host_total s Hs) as ([[h pos]|[c m]] & -> & Hr); cbn [mbind result_bind];
    [|by eexists].
  destruct (StringData_empty h) eqn:Eh; [by eexists|].
  assert (h <> []) by (by intros ->).
  destruct (pos =? npos) eqn:Ep; cbn [negb].
  { eexists. split; [done|]. cbn. auto. }
  destruct Hr as [Hr|Hr]; [lia|].
  assert (zlen s < npos) by (by unfold zlen).
  rewrite size_wrap_small by lia. rewrite substr_drop by (done || lia). cbn [mbind result_bind].
  destruct (parseNumber_result int32 (drop (Z.to_nat (pos + 1)) s) 10)
    as [(z & -> & Hz)|(m & ->)]; [auto with mongo|lia|by left|..].
  - unfold in_range in Hz. cbn in Hz. case_match; eexists; (split; [done|]); cbn; [done|].
    split; [done|lia].
  - by eexists.
Qed.

Lemma HostAndPort_initialize_total_witness :
  sized (B "[::1") /\ exists r, HostAndPort_initialize (B "[::1") = Ret r.
Proof.
  split; [done|]. destruct (HostAndPort_initialize_total (B "[::1")) as (r & H & _); [done|].
  by exists r.
Defined.

(** [operator<] is a strict total order whose equivalence is [operator==]:
    exactly one of [l < r], [l == r], [r < l] holds, and [<] is transitive, the
    missing port counting as 27017 in both. *)
Theorem HostAndPort_order l r x :
  (HostAndPort_eq l r = true <->
     HostAndPort_lt l r = false /\ HostAndPort_lt r l = false) /\
  (HostAndPort_lt l r = true -> HostAndPort_lt r l = false) /\
  (HostAndPort_lt l r = true -> HostAndPort_lt r x = true -> HostAndPort_lt l x = true).
Proof.
  rewrite <-!not_true_iff_false, !HostAndPort_lt_key, HostAndPort_eq_key. split_and!.
  - split.
    + intros ->. split; apply key_lt_irrefl.
    + intros [H1 H2]. by destruct (key_lt_trichotomy (hp_key l) (hp_key r)) as [?|[?|?]].
  - intros H1 H2. by eapply key_lt_irrefl, key_lt_trans.
  - apply key_lt_trans.
Qed.

Lemma HostAndPort_order_witness :
  HostAndPort_lt (mkHostAndPort (B "a") (-1)) (mkHostAndPort (B "a") 27018) = true /\
  HostAndPort_lt (mkHostAndPort (B "a") 27018) (mkHostAndPort (B "a") (-1)) = false.
Proof.
  split; [reflexivity|].
  by apply (HostAndPort_order (mkHostAndPort (B "a") (-1)) (mkHostAndPort (B "a") 27018)
              (mkHostAndPort [] 0)).
Defined.

(** Text after the closing bracket of an IPv6 host is dropped without an
    error when no port follows it; the same text before a port is refused as
    extraneous. *)
Theorem HostAndPort_bracket_suffix h junk :
  h <> [] -> colon ∈ h -> rbracket ∉ h -> colon ∉ junk ->
  sized (lbracket :: h ++ rbracket :: junk) ->
  HostAndPort_initialize (lbracket :: h ++ rbracket :: junk)
    = Ret (Ret (mkHostAndPort h (-1))).
Proof.
  intros Hne Hc Hr Hj Hs. unfold HostAndPort_initialize.
  rewrite (split_host_suffix h junk) by done. cbn [mbind result_bind].
  rewrite empty_false by done. by rewrite Z.eqb_refl.
Qed.

Lemma HostAndPort_bracket_suffix_witness :
  HostAndPort_initialize (B "[::1]junk") = Ret (Ret (mkHostAndPort (B "::1") (-1))) /\
  HostAndPort_initialize (B "[::1]junk:34")
    = Ret (Throw (FailedToParse, B "Extraneous characters between ']' and pre-port ':'")).
Proof.
  split; [|reflexivity].
  apply (HostAndPort_bracket_suffix (B "::1") (B "junk")); [done| | | |done].
  - cbn. left.
  - cbn. not_in.
  - cbn. not_in.
Defined.
