(* ===== verification/Random.v ===== *)
(** * Pseudo-random numbers: platform/random.h, platform/random.cpp

    The xorshift generator with its [int32_t] state, the three ways of drawing
    a number below a bound, and [std::random_shuffle] driven by it (the
    library's loop: element [i] is swapped with one drawn from the first
    [i + 1]). *)
From S2P Require Import Prelude.
Local Open Scope Z_scope.

Record PseudoRandom := mkPseudoRandom { _x : Z; _y : Z; _z : Z; _w : Z }.

(** Left shift of an [int32_t], wrapping; right shift is arithmetic. *)
Definition shl32 (a k : Z) : Z := wrap int32 (Z.shiftl a k).

Definition default_y : Z := 362436069.
Definition default_z : Z := 521288629.
Definition default_w : Z := 88675123.

Definition PseudoRandom_int32 (seed : Z) : PseudoRandom :=
  mkPseudoRandom seed default_y default_z default_w.
Definition PseudoRandom_uint32 (seed : Z) : PseudoRandom :=
  mkPseudoRandom (wrap int32 seed) default_y default_z default_w.
Definition PseudoRandom_int64 (seed : Z) : PseudoRandom :=
  let high := wrap int32 (Z.shiftr seed 32) in
  let low := wrap int32 (Z.land seed (2 ^ 32 - 1)) in
  mkPseudoRandom (Z.lxor high low) default_y default_z default_w.

Definition nextInt32 (r : PseudoRandom) : Z * PseudoRandom :=
  let t := Z.lxor (_x r) (shl32 (_x r) 11) in
  let w := Z.lxor (Z.lxor (_w r) (Z.shiftr (_w r) 19)) (Z.lxor t (Z.shiftr t 8)) in
  (w, mkPseudoRandom (_y r) (_z r) (_w r) w).

Definition nextInt64 (r : PseudoRandom) : Z * PseudoRandom :=
  let (a, r1) := nextInt32 r in
  let (b, r2) := nextInt32 r1 in
  (Z.lor (wrap int64 (Z.shiftl a 32)) b, r2).

(** [nextInt32(max)] and [nextInt64(max)]: C++'s remainder. *)
Definition nextInt32_max (r : PseudoRandom) (max : Z) : Z * PseudoRandom :=
  let (n, r) := nextInt32 r in (Z.rem n max, r).
Definition nextInt64_max (r : PseudoRandom) (max : Z) : Z * PseudoRandom :=
  let (n, r) := nextInt64 r in (Z.rem n max, r).
(** The function-call operator, where [intptr_t] has 64 bits. *)
Definition PseudoRandom_call (r : PseudoRandom) (max : Z) : Z * PseudoRandom :=
  nextInt64_max r max.

(** [std::iter_swap] of two positions of a sequence. *)
Definition iter_swap {A} (l : list A) (i j : Z) : M (list A) :=
  match zlookup l i, zlookup l j with
  | Some a, Some b => Ret (<[Z.to_nat i := b]> (<[Z.to_nat j := a]> l))
  | _, _ => Throw EUndefined
  end.

Fixpoint random_shuffle_loop {A} (n : nat) (i : Z) (l : list A) (r : PseudoRandom)
    : M (list A * PseudoRandom) :=
  match n with
  | O => Ret (l, r)
  | S n' =>
      let (j, r) := PseudoRandom_call r (i + 1) in
      l ← iter_swap l i j;
      random_shuffle_loop n' (i + 1) l r
  end.
Definition random_shuffle {A} (l : list A) (r : PseudoRandom) : M (list A * PseudoRandom) :=
  random_shuffle_loop (length l - 1) 1 l r.

(** ** Lemmas *)

Definition wf_random (r : PseudoRandom) : Prop :=
  in_range int32 (_x r) /\ in_range int32 (_y r) /\
  in_range int32 (_z r) /\ in_range int32 (_w r).

(** An [int32_t] is a number whose bits from the 31st on are all equal. *)
Lemma int32_shiftr z : in_range int32 z <-> Z.shiftr z 31 = 0 \/ Z.shiftr z 31 = -1.
Proof.
  unfold in_range. change (int_min int32) with (-2147483648).
  change (int_max int32) with 2147483647. rewrite Z.shiftr_div_pow2 by lia.
  change (2 ^ 31) with 2147483648.
  pose proof (Z.div_mod z 2147483648 ltac:(lia)).
  pose proof (Z.mod_pos_bound z 2147483648 ltac:(lia)). lia.
Qed.

Lemma lxor_int32 a b :
  in_range int32 a -> in_range int32 b -> in_range int32 (Z.lxor a b).
Proof.
  rewrite !int32_shiftr, Z.shiftr_lxor. intros [->| ->] [->| ->]; cbn; auto.
Qed.

Lemma shiftr_int32 a k : 0 <= k -> in_range int32 a -> in_range int32 (Z.shiftr a k).
Proof.
  intros Hk. rewrite !int32_shiftr, Z.shiftr_shiftr, Z.add_comm, <-Z.shiftr_shiftr by lia.
  intros [->| ->]; [left; apply Z.shiftr_0_l|right].
  rewrite Z.shiftr_div_pow2 by lia.
  assert (0 < 2 ^ k) by (apply Z.pow_pos_nonneg; lia).
  symmetry. apply Z.div_unique with (2 ^ k - 1); lia.
Qed.

(** Exclusive or with one's own arithmetic right shift clears the sign. *)
Lemma lxor_shiftr_nonneg a k : 0 <= k -> 0 <= Z.lxor a (Z.shiftr a k).
Proof. intros. apply Z.lxor_nonneg. by rewrite Z.shiftr_nonneg. Qed.

Lemma nextInt32_wf r :
  wf_random r ->
  0 <= (nextInt32 r).1 < 2 ^ 31 /\ wf_random (nextInt32 r).2.
Proof.
  intros (Hx & Hy & Hz & Hw). unfold nextInt32. cbn [fst snd].
  set (t := Z.lxor (_x r) (shl32 (_x r) 11)).
  assert (in_range int32 t) by (apply lxor_int32; [done|]; by apply wrap_range).
  clearbody t. set (w := Z.lxor (Z.lxor (_w r) (Z.shiftr (_w r) 19)) (Z.lxor t (Z.shiftr t 8))).
  assert (in_range int32 w) as Hw'.
  { repeat apply lxor_int32; try apply shiftr_int32; done || lia. }
  assert (0 <= w).
  { apply Z.lxor_nonneg.
    pose proof (lxor_shiftr_nonneg (_w r) 19 ltac:(lia)).
    pose proof (lxor_shiftr_nonneg t 8 ltac:(lia)). by split. }
  split; [|by unfold wf_random].
  unfold in_range in Hw'. cbn in Hw'. change (2 ^ 31) with 2147483648. lia.
Qed.

Lemma lor_shiftl_bound a b :
  0 <= a < 2 ^ 31 -> 0 <= b < 2 ^ 31 -> 0 <= Z.lor (Z.shiftl a 32) b < 2 ^ 63.
Proof.
  intros Ha Hb.
  assert (Z.land (Z.shiftl a 32) b = 0) as Hland.
  { apply Z.bits_inj'. intros i Hi. rewrite Z.land_spec, Z.bits_0.
    destruct (decide (i < 32)); [by rewrite Z.shiftl_spec_low by lia|].
    destruct (decide (b = 0)) as [->|]; [by rewrite Z.bits_0, andb_false_r|].
    rewrite (Z.bits_above_log2 b); [apply andb_false_r|lia|].
    apply Z.lt_le_trans with 31; [|lia]. apply Z.log2_lt_pow2; lia. }
  rewrite <-Z.lxor_lor, <-Z.add_nocarry_lxor, Z.shiftl_mul_pow2 by (done || lia). lia.
Qed.

Lemma nextInt64_wf r :
  wf_random r ->
  0 <= (nextInt64 r).1 < 2 ^ 63 /\ wf_random (nextInt64 r).2.
Proof.
  intros Hr. unfold nextInt64.
  destruct (nextInt32_wf r Hr) as [Ha Hr1]. destruct (nextInt32 r) as [a r1].
  destruct (nextInt32_wf r1 Hr1) as [Hb Hr2]. destruct (nextInt32 r1) as [b r2].
  cbn [fst snd] in *. split; [|done]. rewrite wrap_id; [by apply lor_shiftl_bound|done|].
  unfold in_range. cbn. rewrite Z.shiftl_mul_pow2 by lia. lia.
Qed.

Lemma rem_bound n max : 0 <= n -> 0 < max -> 0 <= Z.rem n max < max.
Proof. intros. rewrite Z.rem_mod_nonneg by lia. apply Z.mod_pos_bound. lia. Qed.

Lemma nextInt32_max_bound_aux r max :
  wf_random r -> 0 < max ->
  0 <= (nextInt32_max r max).1 < max /\ wf_random (nextInt32_max r max).2.
Proof.
  intros Hr Hm. unfold nextInt32_max. destruct (nextInt32_wf r Hr).
  destruct (nextInt32 r). cbn in *. split; [|done]. apply rem_bound; lia.
Qed.
Lemma call_bound r max :
  wf_random r -> 0 < max ->
  0 <= (PseudoRandom_call r max).1 < max /\ wf_random (PseudoRandom_call r max).2.
Proof.
  intros Hr Hm. unfold PseudoRandom_call, nextInt64_max. destruct (nextInt64_wf r Hr).
  destruct (nextInt64 r). cbn in *. split; [|done]. apply rem_bound; lia.
Qed.

Lemma seed_int64_wf seed : in_range int64 seed -> wf_random (PseudoRandom_int64 seed).
Proof.
  intros. unfold PseudoRandom_int64. unfold wf_random. cbn [_x _y _z _w].
  split_and!; [|by vm_compute..]. apply lxor_int32; by apply wrap_range.
Qed.

Lemma iter_swap_perm {A} (l : list A) i j :
  0 <= i < zlen l -> 0 <= j < zlen l ->
  exists l', iter_swap l i j = Ret l' /\ Permutation l' l.
Proof.
  unfold zlen. intros Hi Hj. unfold iter_swap, zlookup. rewrite !decide_True by lia.
  destruct (lookup_lt_is_Some_2 l (Z.to_nat i)) as [a Ha]; [lia|].
  destruct (lookup_lt_is_Some_2 l (Z.to_nat j)) as [b Hb]; [lia|].
  rewrite Ha, Hb. eexists. split; [done|].
  destruct (decide (Z.to_nat i = Z.to_nat j)) as [E|Hne].
  - rewrite E in *. rewrite list_insert_insert_eq. by rewrite list_insert_id.
  - apply Permutation_insert_swap; congruence.
Qed.

Lemma random_shuffle_loop_perm {A} n i (l : list A) r :
  wf_random r -> 0 <= i -> i + Z.of_nat n <= zlen l ->
  exists l' r', random_shuffle_loop n i l r = Ret (l', r') /\ Permutation l' l /\ wf_random r'.
Proof.
  revert i l r. induction n as [|n IH]; intros i l r Hr Hi Hn; cbn [random_shuffle_loop].
  { by exists l, r. }
  pose proof (call_bound r (i + 1) Hr ltac:(lia)) as [Hj Hr1].
  destruct (PseudoRandom_call r (i + 1)) as [j r1]. cbn [fst snd] in *.
  destruct (iter_swap_perm l i j) as (l1 & -> & Hp); [lia..|]. cbn [mbind result_bind].
  assert (zlen l1 = zlen l) as Hl by (unfold zlen; by rewrite Hp).
  destruct (IH (i + 1) l1 r1) as (l2 & r2 & -> & Hp2 & Hr2); [done|lia|lia|].
  exists l2, r2. split_and!; [done|by etrans|done].
Qed.

Lemma random_shuffle_perm {A} (l : list A) r :
  wf_random r ->
  exists l' r', random_shuffle l r = Ret (l', r') /\ Permutation l' l /\ wf_random r'.
Proof.
  intros Hr. unfold random_shuffle. destruct l as [|x l].
  - by exists [], r.
  - apply random_shuffle_loop_perm; [done|lia|]. rewrite zlen_cons.
    unfold zlen. cbn [length]. lia.
Qed.

(** ** Properties *)

(** The generator never returns a negative number although its state words
    are signed and its shifts arithmetic, so that a draw below a positive bound
    is an index below that bound and [random_shuffle] permutes its sequence
    without touching anything outside it. *)
Theorem PseudoRandom_bounds {A} (r : PseudoRandom) (max : Z) (l : list A) :
  wf_random r -> 0 < max ->
  0 <= (nextInt32 r).1 /\ 0 <= (nextInt64 r).1 /\
  0 <= (nextInt32_max r max).1 < max /\ 0 <= (nextInt64_max r max).1 < max /\
  wf_random (nextInt32 r).2 /\
  exists l' r', random_shuffle l r = Ret (l', r') /\ Permutation l' l.
Proof.
  intros Hr Hm. destruct (nextInt32_wf r Hr), (nextInt64_wf r Hr),
    (nextInt32_max_bound_aux r max Hr Hm), (call_bound r max Hr Hm).
  destruct (random_shuffle_perm l r Hr) as (l' & r' & ? & ? & ?).
  refine (conj _ (conj _ (conj _ (conj _ (conj _ _))))); try (lia || done).
  by exists l', r'.
Qed.

Lemma PseudoRandom_bounds_witness :
  wf_random (PseudoRandom_int64 (-1)) /\
  (exists l' r', random_shuffle [1; 2; 3; 4] (PseudoRandom_int64 (-1)) = Ret (l', r') /\
     Permutation l' [1; 2; 3; 4]) /\
  (fst <$> random_shuffle [1; 2; 3; 4] (PseudoRandom_int64 12345)) = Ret [2; 3; 1; 4].
Proof.
  assert (wf_random (PseudoRandom_int64 (-1))) as H by (apply seed_int64_wf; by vm_compute).
  split; [done|]. split; [|by vm_compute].
  apply (PseudoRandom_bounds _ 7 [1; 2; 3; 4] H). lia.
Defined.
