(* ===== verification/BsonTypes.v ===== *)
(** * BSON types and number comparison: bson/bsontypes.h and .cpp,
    base/compare_numbers.h

    A double is modelled by its exact value: not-a-number, an infinity, or an
    integer number of units of [2 ^ -1074], the spacing of the smallest doubles;
    [double_of_bits] reads the 64-bit pattern.  Comparisons of doubles, the
    conversion of a [long long] that a double holds exactly and the truncating
    conversion back are exact operations on that value. *)
From S2P Require Import Prelude.
Local Open Scope Z_scope.

(** ** Types *)

Inductive BSONType :=
  | MinKey | EOO | NumberDouble | String_ | Object_ | Array_ | BinData | Undefined
  | jstOID | Bool_ | Date_ | jstNULL | RegEx | DBRef | Code | Symbol | CodeWScope
  | NumberInt | Timestamp | NumberLong | MaxKey.

Global Instance BSONType_eq_dec : EqDecision BSONType.
Proof. solve_decision. Defined.

Definition BSONType_value (t : BSONType) : Z :=
  match t with
  | MinKey => -1 | EOO => 0 | NumberDouble => 1 | String_ => 2 | Object_ => 3
  | Array_ => 4 | BinData => 5 | Undefined => 6 | jstOID => 7 | Bool_ => 8
  | Date_ => 9 | jstNULL => 10 | RegEx => 11 | DBRef => 12 | Code => 13
  | Symbol => 14 | CodeWScope => 15 | NumberInt => 16 | Timestamp => 17
  | NumberLong => 18 | MaxKey => 127
  end.

Definition all_types : list BSONType :=
  [MinKey; EOO; NumberDouble; String_; Object_; Array_; BinData; Undefined; jstOID;
   Bool_; Date_; jstNULL; RegEx; DBRef; Code; Symbol; CodeWScope; NumberInt;
   Timestamp; NumberLong; MaxKey].

(** The enumerator a type byte stands for, if any. *)
Definition BSONType_of (b : Z) : option BSONType :=
  find (fun t => BSONType_value t =? b) all_types.

Definition JSTypeMax : Z := 18.

(** The switches read a byte cast to the enumeration; a byte that is no
    enumerator takes the [default] branch. *)
Definition canonicalizeBSONType_byte (b : Z) : M Z :=
  match BSONType_of b with
  | Some MinKey => Ret (BSONType_value MinKey)
  | Some MaxKey => Ret (BSONType_value MaxKey)
  | Some (EOO | Undefined) => Ret 0
  | Some jstNULL => Ret 5
  | Some (NumberDouble | NumberInt | NumberLong) => Ret 10
  | Some (String_ | Symbol) => Ret 15
  | Some Object_ => Ret 20
  | Some Array_ => Ret 25
  | Some BinData => Ret 30
  | Some jstOID => Ret 35
  | Some Bool_ => Ret 40
  | Some Date_ => Ret 45
  | Some Timestamp => Ret 47
  | Some RegEx => Ret 50
  | Some DBRef => Ret 55
  | Some Code => Ret 60
  | Some CodeWScope => Ret 65
  | None => Throw EVerify
  end.
Definition canonicalizeBSONType (t : BSONType) : Z :=
  match canonicalizeBSONType_byte (BSONType_value t) with Ret c => c | Throw _ => -1 end.

Definition typeName (b : Z) : bytes :=
  match BSONType_of b with
  | Some MinKey => B "MinKey" | Some EOO => B "EOO"
  | Some NumberDouble => B "NumberDouble" | Some String_ => B "String"
  | Some Object_ => B "Object" | Some Array_ => B "Array"
  | Some BinData => B "BinaryData" | Some Undefined => B "Undefined"
  | Some jstOID => B "OID" | Some Bool_ => B "Bool" | Some Date_ => B "Date"
  | Some jstNULL => B "NULL" | Some RegEx => B "RegEx" | Some DBRef => B "DBRef"
  | Some Code => B "Code" | Some Symbol => B "Symbol"
  | Some CodeWScope => B "CodeWScope" | Some NumberInt => B "NumberInt32"
  | Some Timestamp => B "Timestamp" | Some NumberLong => B "NumberLong64"
  | Some MaxKey => B "MaxKey"
  | None => B "Invalid"
  end.

Lemma BSONType_of_value t : BSONType_of (BSONType_value t) = Some t.
Proof. by destruct t. Qed.
Lemma BSONType_of_Some b t : BSONType_of b = Some t -> BSONType_value t = b.
Proof. intros [_ H]%find_some. by apply Z.eqb_eq. Qed.

(** ** Doubles *)

Inductive double :=
  | NaN
  | Infinity (negative : bool)
  | Finite (units : Z).

(** Units of a double in one. *)
Definition one_units : Z := 2 ^ 1074.

Definition double_of_bits (b : Z) : double :=
  let negative := Z.testbit b 63 in
  let ex := Z.land (Z.shiftr b 52) 2047 in
  let frac := Z.land b (2 ^ 52 - 1) in
  if ex =? 2047 then if frac =? 0 then Infinity negative else NaN
  else
    let m := if ex =? 0 then frac else (2 ^ 52 + frac) * 2 ^ (ex - 1) in
    Finite (if negative then - m else m).

Definition double_eq (a b : double) : bool :=
  match a, b with
  | Finite x, Finite y => x =? y
  | Infinity n, Infinity m => Bool.eqb n m
  | _, _ => false
  end.
Definition double_lt (a b : double) : bool :=
  match a, b with
  | Finite x, Finite y => x <? y
  | Infinity true, Finite _ => true
  | Finite _, Infinity false => true
  | Infinity true, Infinity false => true
  | _, _ => false
  end.
Definition double_ge (a b : double) : bool := double_lt b a || double_eq a b.
Definition isNaN (d : double) : bool := match d with NaN => true | _ => false end.
(** [(double) n], for an [n] that a double holds exactly. *)
Definition long_to_double (n : Z) : double := Finite (n * one_units).
(** [(long long) d], for a [d] within the range: truncation. *)
Definition double_to_long (d : double) : Z :=
  match d with Finite v => Z.quot v one_units | _ => 0 end.

(** ** The comparisons *)

Definition compareInts (lhs rhs : Z) : Z :=
  if lhs =? rhs then 0 else if lhs <? rhs then -1 else 1.
Definition compareLongs (lhs rhs : Z) : Z :=
  if lhs =? rhs then 0 else if lhs <? rhs then -1 else 1.
Definition compareDoubles (lhs rhs : double) : Z :=
  if double_eq lhs rhs then 0
  else if double_lt lhs rhs then -1
  else if double_lt rhs lhs then 1
  else if isNaN lhs then (if isNaN rhs then 0 else -1)
  else 1.

Definition kEndOfPreciseDoubles : Z := 2 ^ 53.
Definition kBoundOfLongRange : Z := 2 ^ 63.

Definition compareLongToDouble (lhs : Z) (rhs : double) : Z :=
  if isNaN rhs then 1
  else if (lhs <=? kEndOfPreciseDoubles) && (lhs >=? - kEndOfPreciseDoubles) then
    compareDoubles (long_to_double lhs) rhs
  else if double_ge rhs (long_to_double kBoundOfLongRange) then -1
  else if double_lt rhs (long_to_double (- kBoundOfLongRange)) then 1
  else compareLongs lhs (double_to_long rhs).
Definition compareDoubleToLong (lhs : double) (rhs : Z) : Z :=
  - compareLongToDouble rhs lhs.

(** ** The reference order on numbers

    A number is placed by its kind (not-a-number, minus infinity, finite, plus
    infinity) and then by its exact value. *)

Definition num_key (d : double) : Z * Z :=
  match d with
  | NaN => (0, 0)
  | Infinity true => (1, 0)
  | Finite v => (2, v)
  | Infinity false => (3, 0)
  end.
Definition long_key (n : Z) : Z * Z := (2, n * one_units).

Definition key_cmp (a b : Z * Z) : Z :=
  if a.1 <? b.1 then -1 else if b.1 <? a.1 then 1
  else if a.2 <? b.2 then -1 else if b.2 <? a.2 then 1 else 0.

(** A double that comes from a bit pattern has no fraction from [2 ^ 53] on. *)
Definition wf_double (d : double) : Prop :=
  match d with
  | Finite v => kEndOfPreciseDoubles * one_units <= Z.abs v -> (one_units | v)
  | _ => True
  end.

Lemma one_units_pos : 0 < one_units.
Proof. by vm_compute. Qed.

Lemma double_of_bits_wf b : wf_double (double_of_bits b).
Proof.
  unfold double_of_bits. set (frac := Z.land b (2 ^ 52 - 1)).
  set (ex := Z.land (Z.shiftr b 52) 2047).
  assert (0 <= frac < 2 ^ 52) as Hf.
  { unfold frac. change (2 ^ 52 - 1) with (Z.ones 52). rewrite Z.land_ones by lia.
    apply Z.mod_pos_bound. lia. }
  assert (0 <= ex) as He by (apply Z.land_nonneg; lia).
  clearbody frac ex.
  destruct (ex =? 2047); [by destruct (frac =? 0)|].
  set (m := if ex =? 0 then frac else (2 ^ 52 + frac) * 2 ^ (ex - 1)).
  assert (0 <= m /\ (kEndOfPreciseDoubles * one_units <= m -> (one_units | m))) as [Hm Hd].
  { unfold m, kEndOfPreciseDoubles. destruct (ex =? 0) eqn:E0.
    - split; [lia|]. intros Hle. exfalso. pose proof one_units_pos.
      assert (2 ^ 53 <= 2 ^ 53 * one_units) by nia.
      assert (2 ^ 52 < 2 ^ 53) by lia. lia.
    - assert (0 < 2 ^ (ex - 1)) by (apply Z.pow_pos_nonneg; lia).
      split; [nia|]. intros Hle.
      assert (1075 <= ex) as Hge.
      { apply Z.nlt_ge. intros Hlt.
        assert (2 ^ (ex - 1) <= one_units) by (apply Z.pow_le_mono_r; lia). nia. }
      apply Z.divide_mul_r. unfold one_units.
      replace (ex - 1) with ((ex - 1075) + 1074) by lia.
      rewrite Z.pow_add_r by lia. apply Z.divide_factor_r. }
  clearbody m. destruct (Z.testbit b 63); cbn [wf_double]; intros Hle.
  - apply Z.divide_opp_r, Hd. lia.
  - apply Hd. lia.
Qed.

Ltac cmp_cases :=
  repeat match goal with
  | |- context [if ?b then _ else _] => destruct b eqn:?
  end.

Lemma compareDoubles_key a b : compareDoubles a b = key_cmp (num_key a) (num_key b).
Proof.
  unfold compareDoubles, key_cmp.
  destruct a as [|[]|v], b as [|[]|w]; cbn; try done.
  destruct (Z.eqb_spec v w) as [->|]; [by rewrite !Z.ltb_irrefl|].
  cmp_cases; lia.
Qed.

Lemma compareLongs_key a b : compareLongs a b = key_cmp (long_key a) (long_key b).
Proof.
  unfold compareLongs, key_cmp, long_key. cbn [fst snd]. rewrite !Z.ltb_irrefl.
  pose proof one_units_pos. cmp_cases; nia.
Qed.

Lemma compareLongToDouble_key n d :
  in_range int64 n -> wf_double d ->
  compareLongToDouble n d = key_cmp (long_key n) (num_key d).
Proof.
  intros Hn Hd. unfold compareLongToDouble. pose proof one_units_pos as HU.
  destruct d as [|neg|v]; [done|..]; cbn [isNaN].
  - rewrite compareDoubles_key. destruct (_ && _); [done|]. by destruct neg.
  - rewrite compareDoubles_key. destruct (_ && _) eqn:Es; [done|].
    unfold double_ge, long_to_double, kBoundOfLongRange, double_lt, double_eq, double_to_long.
    unfold in_range in Hn. cbn in Hn.
    unfold wf_double, kEndOfPreciseDoubles in *.
    change (2 ^ 63) with 9223372036854775808.
    change (2 ^ 53) with 9007199254740992 in *.
    unfold key_cmp, long_key. cbn [num_key fst snd]. rewrite !Z.ltb_irrefl.
    generalize dependent one_units. intros U Hd HU.
    destruct (decide (9007199254740992 * U <= Z.abs v)) as [Hbig|Hsmall].
    + destruct (Hd Hbig) as [q ->]. rewrite Z.quot_mul by lia.
      unfold compareLongs. cmp_cases; boolify; nia.
    + assert (Z.abs (Z.quot v U) < 9007199254740992) as Hq.
      { rewrite <-Z.quot_abs by lia. rewrite (Z.abs_eq U), Z.quot_div_nonneg by lia.
        apply Z.div_lt_upper_bound; lia. }
      unfold compareLongs. cmp_cases; boolify; nia.
Qed.

Lemma key_cmp_anti a b : key_cmp b a = - key_cmp a b.
Proof. unfold key_cmp. cmp_cases; lia. Qed.
Lemma key_cmp_trans a b c : key_cmp a b <= 0 -> key_cmp b c <= 0 -> key_cmp a c <= 0.
Proof. unfold key_cmp. cmp_cases; lia. Qed.

Lemma compareDoubleToLong_key n d :
  in_range int64 n -> wf_double d ->
  compareDoubleToLong d n = key_cmp (num_key d) (long_key n).
Proof.
  intros. unfold compareDoubleToLong. rewrite compareLongToDouble_key by done.
  rewrite key_cmp_anti. lia.
Qed.

Lemma log2_one_units m : 0 < m -> Z.log2 (m * one_units) - Z.log2 one_units = Z.log2 m.
Proof. intros Hm. unfold one_units. rewrite Z.log2_mul_pow2, Z.log2_pow2 by lia. lia. Qed.
(** Its 1075 bits are not for unification to look at. *)
Global Opaque one_units.

Lemma canonicalizeBSONType_total t : exists c, canonicalizeBSONType_byte (BSONType_value t) = Ret c.
Proof. destruct t; by eexists. Qed.

(** ** Properties *)

(** Comparing a 64-bit integer with a double gives the order of their exact
    values, with not-a-number below every integer: integers a double cannot
    hold, doubles with a fraction, doubles outside the range of the integers
    and the infinities included. *)
Theorem compareLongToDouble_exact n bits :
  in_range int64 n ->
  compareLongToDouble n (double_of_bits bits)
    = key_cmp (long_key n) (num_key (double_of_bits bits)) /\
  compareDoubleToLong (double_of_bits bits) n
    = - compareLongToDouble n (double_of_bits bits).
Proof.
  intros Hn. split; [|done]. apply compareLongToDouble_key; [done|apply double_of_bits_wf].
Qed.

(** [2 ^ 53 + 1] against the double [2 ^ 53], and the largest integer against
    [2 ^ 63]. *)
Lemma compareLongToDouble_exact_witness :
  compareLongToDouble 9007199254740993 (double_of_bits 0x4340000000000000) = 1 /\
  compareLongToDouble 9223372036854775807 (double_of_bits 0x43E0000000000000) = -1 /\
  key_cmp (long_key 9223372036854775807) (num_key (double_of_bits 0x43E0000000000000)) = -1.
Proof.
  assert (in_range int64 9223372036854775807) as H by (by vm_compute).
  split; [by vm_compute|]. split; [by vm_compute|].
  rewrite <-(proj1 (compareLongToDouble_exact _ 0x43E0000000000000 H)). by vm_compute.
Defined.
