(* ===== verification/BufBuilder.v ===== *)
(** * The growable byte buffer: bson/util/builder.h, class [_BufBuilder]

    The bytes written so far are a list; its length is the code's [l].  A region
    that [skip] leaves unwritten is filled with zero bytes in the model (its
    contents are unspecified in the code, which writes it before reading it). *)
From S2P Require Import Prelude StringData.
Local Open Scope Z_scope.

Definition BufferMaxSize : Z := 64 * 1024 * 1024.
(** The largest document there may be. *)
Definition BSONObjMaxInternalSize : Z := 16 * 1024 * 1024 + 16 * 1024.

Record BufBuilder := mkBufBuilder { bb_data : bytes; bb_size : Z; bb_reservedBytes : Z }.

Definition BufBuilder_len (b : BufBuilder) : Z := zlen (bb_data b).

Definition BufBuilder_ctor (initsize : Z) : BufBuilder := mkBufBuilder [] initsize 0.

Definition BufBuilder_reset (b : BufBuilder) : BufBuilder := mkBufBuilder [] (bb_size b) 0.
Definition BufBuilder_reset_max (b : BufBuilder) (maxSize : Z) : BufBuilder :=
  mkBufBuilder [] (if negb (maxSize =? 0) && (bb_size b >? maxSize) then maxSize else bb_size b) 0.

(** An [int] result: signed overflow is undefined. *)
Definition int_result (z : Z) : M Z :=
  if bool_decide (in_range int32 z) then Ret z else Throw EUndefined.

(** The loop of [grow_reallocate]; 32 rounds double 64 past every [int]. *)
Fixpoint reallocate_loop (fuel : nat) (a minSize : Z) : M Z :=
  match fuel with
  | O => Throw EUndefined
  | S f => if a <? minSize then a ← int_result (a * 2); reallocate_loop f a minSize
           else Ret a
  end.
Definition grow_reallocate (b : BufBuilder) (minSize : Z) : M BufBuilder :=
  a ← reallocate_loop 32 64 minSize;
  if a >? BufferMaxSize then Throw (EMassert 13548)
  else Ret (mkBufBuilder (bb_data b) a (bb_reservedBytes b)).

(** [grow]: make room for [by] bytes after the current end. *)
Definition BufBuilder_grow (b : BufBuilder) (by_ : Z) : M BufBuilder :=
  newLen ← int_result (BufBuilder_len b + by_);
  minSize ← int_result (newLen + bb_reservedBytes b);
  if minSize >? bb_size b then grow_reallocate b minSize else Ret b.

Definition BufBuilder_reserveBytes (b : BufBuilder) (n : Z) : M BufBuilder :=
  minSize ← int_result (BufBuilder_len b + bb_reservedBytes b + n);
  b ← (if minSize >? bb_size b then grow_reallocate b minSize else Ret b);
  Ret (mkBufBuilder (bb_data b) (bb_size b) (bb_reservedBytes b + n)).

Definition BufBuilder_claimReservedBytes (b : BufBuilder) (n : Z) : M BufBuilder :=
  invariant (bb_reservedBytes b >=? n);;
  Ret (mkBufBuilder (bb_data b) (bb_size b) (bb_reservedBytes b - n)).

(** The writers grow the buffer and store the bytes where it ended.  The length
    reaches [grow] as an [int]: a longer source would overrun the room made. *)
Definition BufBuilder_appendBuf (b : BufBuilder) (src : bytes) : M BufBuilder :=
  n ← int_result (zlen src);
  b ← BufBuilder_grow b n;
  Ret (mkBufBuilder (bb_data b ++ src) (bb_size b) (bb_reservedBytes b)).
Definition BufBuilder_appendStr (b : BufBuilder) (s : bytes) (includeEndingNull : bool) : M BufBuilder :=
  BufBuilder_appendBuf b (StringData_copyTo s includeEndingNull).
Definition BufBuilder_skip (b : BufBuilder) (n : Z) : M BufBuilder :=
  BufBuilder_appendBuf b (replicate (Z.to_nat n) (chr 0)).

(** The little-endian image of an integer of [n] bytes ([DataView::writeLE]). *)
Fixpoint le_bytes (n : nat) (z : Z) : bytes :=
  match n with
  | O => []
  | S n' => chr z :: le_bytes n' (z / 256)
  end.
(** [readLE] of an unsigned and of a signed type. *)
Fixpoint le_value (bs : bytes) : Z :=
  match bs with [] => 0 | c :: bs' => uchar c + 256 * le_value bs' end.

Definition BufBuilder_appendNum (b : BufBuilder) (t : int_type) (j : Z) : M BufBuilder :=
  BufBuilder_appendBuf b (le_bytes (Z.to_nat (width t / 8)) j).

Definition BufBuilder_setlen (b : BufBuilder) (newLen : Z) : BufBuilder :=
  mkBufBuilder (take (Z.to_nat newLen) (bb_data b)) (bb_size b) (bb_reservedBytes b).

(** Overwriting bytes already in the buffer ([DataView(buf() + pos).writeLE]). *)
Definition BufBuilder_write_at (b : BufBuilder) (pos : Z) (src : bytes) : M BufBuilder :=
  if (0 <=? pos) && (pos + zlen src <=? BufBuilder_len b) then
    Ret (mkBufBuilder (take (Z.to_nat pos) (bb_data b) ++ src ++
                       drop (Z.to_nat (pos + zlen src)) (bb_data b))
           (bb_size b) (bb_reservedBytes b))
  else Throw EUndefined.

(** ** Invariant *)

(** What was written and what is reserved fit in the allocation. *)
Definition wf_buf (b : BufBuilder) : Prop :=
  0 <= bb_reservedBytes b /\ BufBuilder_len b + bb_reservedBytes b <= bb_size b /\
  bb_size b <= int_max int32.

Lemma int_result_Ret z r : int_result z = Ret r <-> r = z /\ in_range int32 z.
Proof.
  unfold int_result. case_bool_decide as Hz; split.
  - by intros [= <-].
  - by intros [-> _].
  - done.
  - by intros [-> ?].
Qed.

Lemma int_result_ok z : in_range int32 z -> int_result z = Ret z.
Proof. intros. by apply int_result_Ret. Qed.

(** Doubling from [64 * 2 ^ k] reaches the least such size that is enough. *)
Lemma reallocate_loop_spec fuel a minSize :
  0 < a -> a <= 2 ^ 30 -> minSize <= 2 ^ 30 -> 2 ^ 30 < a * 2 ^ (Z.of_nat fuel) ->
  (exists k, 0 <= k /\ 2 ^ 30 = a * 2 ^ k) ->
  exists r, reallocate_loop fuel a minSize = Ret r /\ minSize <= r <= 2 ^ 30 /\
    (r = a \/ r < 2 * minSize).
Proof.
  revert a. induction fuel as [|fuel IH]; intros a Ha Hle Hm Hf [k [Hk Ek]].
  { cbn in Hf. lia. }
  cbn [reallocate_loop]. destruct (a <? minSize) eqn:E.
  - assert (k <> 0) by (intros ->; lia).
    assert (2 ^ 30 = (a * 2) * 2 ^ (k - 1)) as Ek'.
    { rewrite Ek. replace k with (Z.succ (k - 1)) at 1 by lia. rewrite Z.pow_succ_r; lia. }
    assert (0 < 2 ^ (k - 1)) by (apply Z.pow_pos_nonneg; lia).
    assert (a * 2 <= 2 ^ 30) by nia.
    rewrite int_result_ok by (unfold in_range; cbn; lia). cbn [mbind result_bind].
    destruct (IH (a * 2)) as (r & -> & Hr & Hd); [lia|lia|lia| | |].
    + replace (Z.of_nat (S fuel)) with (Z.succ (Z.of_nat fuel)) in Hf by lia.
      rewrite Z.pow_succ_r in Hf by lia. lia.
    + exists (k - 1). lia.
    + exists r. split; [done|]. lia.
  - exists a. split; [done|]. lia.
Qed.

Lemma reallocate_ok minSize :
  minSize <= 2 ^ 30 ->
  exists r, reallocate_loop 32 64 minSize = Ret r /\ minSize <= r <= 2 ^ 30 /\
    (r = 64 \/ r < 2 * minSize).
Proof.
  intros. apply reallocate_loop_spec; [lia|lia|lia|by vm_compute|].
  exists 24. by vm_compute.
Qed.

(** Past [2 ^ 30] no size the loop can hold in an [int] is enough. *)
Lemma reallocate_loop_overflow fuel k minSize :
  0 <= k <= 24 -> 2 ^ 30 < minSize ->
  reallocate_loop fuel (64 * 2 ^ k) minSize = Throw EUndefined.
Proof.
  revert k. induction fuel as [|fuel IH]; intros k Hk Hm; [done|]. cbn [reallocate_loop].
  assert (64 * 2 ^ k <= 2 ^ 30).
  { change (2 ^ 30) with (64 * 2 ^ 24). apply Z.mul_le_mono_nonneg_l; [lia|].
    apply Z.pow_le_mono_r; lia. }
  replace (64 * 2 ^ k <? minSize) with true by lia.
  assert (64 * 2 ^ k * 2 = 64 * 2 ^ (Z.succ k)) as ->
    by (rewrite Z.pow_succ_r by lia; lia).
  destruct (decide (k = 24)) as [->|].
  - unfold int_result. rewrite bool_decide_eq_false_2; [done|].
    change (64 * 2 ^ Z.succ 24) with 2147483648. unfold in_range. cbn. lia.
  - unfold int_result. case_bool_decide; [|done]. cbn [mbind result_bind].
    apply IH; lia.
Qed.

(** A growing step either makes room or refuses with the 64MB assertion. *)
Lemma grow_reallocate_cases b minSize :
  minSize <= 2 ^ 30 ->
  (exists a, grow_reallocate b minSize = Ret (mkBufBuilder (bb_data b) a (bb_reservedBytes b)) /\
     minSize <= a <= BufferMaxSize) \/
  (grow_reallocate b minSize = Throw (EMassert 13548) /\ BufferMaxSize < 2 * minSize).
Proof.
  intros Hm. unfold grow_reallocate. destruct (reallocate_ok minSize Hm) as (r & -> & Hr & Hd).
  cbn [mbind result_bind]. unfold BufferMaxSize. destruct (r >? _) eqn:E.
  - right. split; [done|]. lia.
  - left. exists r. split; [done|]. lia.
Qed.

Lemma appendBuf_cases b src :
  wf_buf b -> BufBuilder_len b + zlen src + bb_reservedBytes b <= 2 ^ 30 ->
  (exists b', BufBuilder_appendBuf b src = Ret b' /\ wf_buf b' /\
     bb_data b' = bb_data b ++ src /\ bb_reservedBytes b' = bb_reservedBytes b) \/
  (BufBuilder_appendBuf b src = Throw (EMassert 13548) /\
     BufferMaxSize < 2 * (BufBuilder_len b + zlen src + bb_reservedBytes b)).
Proof.
  intros (Hr & Hl & Hs) Hb. unfold BufBuilder_appendBuf, BufBuilder_grow.
  pose proof (zlen_nonneg src). pose proof (zlen_nonneg (bb_data b)).
  unfold BufBuilder_len in *.
  rewrite !int_result_ok by (unfold in_range; cbn; lia). cbn [mbind result_bind].
  rewrite int_result_ok by (unfold in_range; cbn; lia). cbn [mbind result_bind].
  rewrite int_result_ok by (unfold in_range; cbn; lia). cbn [mbind result_bind].
  destruct (_ >? _) eqn:E.
  - destruct (grow_reallocate_cases b (zlen (bb_data b) + zlen src + bb_reservedBytes b))
      as [(a & -> & Ha)|[-> Hlt]]; [lia| |by right].
    left. cbn [mbind result_bind]. eexists. split; [done|].
    unfold wf_buf, BufBuilder_len, BufferMaxSize in *. cbn. rewrite zlen_app.
    split_and!; try done; lia.
  - left. cbn [mbind result_bind]. eexists. split; [done|].
    unfold wf_buf, BufBuilder_len. cbn [bb_data bb_reservedBytes bb_size]. rewrite zlen_app.
    split_and!; try done; lia.
Qed.

(** Up to half the limit an append always succeeds. *)
Lemma appendBuf_ok b src :
  wf_buf b -> 2 * (BufBuilder_len b + zlen src + bb_reservedBytes b) <= BufferMaxSize ->
  exists b', BufBuilder_appendBuf b src = Ret b' /\ wf_buf b' /\
    bb_data b' = bb_data b ++ src /\ bb_reservedBytes b' = bb_reservedBytes b.
Proof.
  intros Hw Hb. assert (BufferMaxSize < 2 ^ 30) by (by vm_compute).
  destruct (appendBuf_cases b src Hw) as [?|[_ ?]]; [|done|].
  - pose proof (zlen_nonneg src). destruct Hw as (?&?&?).
    unfold BufBuilder_len in *. pose proof (zlen_nonneg (bb_data b)). lia.
  - lia.
Qed.

Lemma le_bytes_length n z : length (le_bytes n z) = n.
Proof. revert z. induction n; intros; cbn; auto. Qed.

Lemma le_value_bytes n z : le_value (le_bytes n z) = z mod 256 ^ Z.of_nat n.
Proof.
  revert z. induction n as [|n IH]; intros z; [by rewrite Z.mod_1_r|].
  cbn [le_bytes le_value]. rewrite IH, uchar_chr.
  replace (Z.of_nat (S n)) with (Z.succ (Z.of_nat n)) by lia.
  rewrite Z.pow_succ_r by lia.
  assert (0 < 256 ^ Z.of_nat n) by (apply Z.pow_pos_nonneg; lia).
  symmetry. rewrite Z.rem_mul_r by lia. lia.
Qed.

Lemma le_bytes_value bs : le_bytes (length bs) (le_value bs) = bs.
Proof.
  induction bs as [|c bs IH]; [done|]. cbn [length le_value le_bytes].
  pose proof (uchar_range c).
  replace ((uchar c + 256 * le_value bs) / 256) with (le_value bs).
  - rewrite IH. f_equal. apply (inj uchar). rewrite uchar_chr.
    rewrite Z.mul_comm, Z_mod_plus_full, Z.mod_small; lia.
  - symmetry. rewrite Z.mul_comm, Z.div_add by lia. rewrite Z.div_small by lia. lia.
Qed.

Lemma le_value_range bs : 0 <= le_value bs < 256 ^ zlen bs.
Proof.
  induction bs as [|c bs IH]; [by vm_compute|]. cbn [le_value]. pose proof (uchar_range c).
  rewrite zlen_cons, Z.pow_add_r by (lia || apply zlen_nonneg). lia.
Qed.

(** ** Properties *)

(** Appending to a sound buffer either adds exactly the given bytes and
    keeps it sound, or stops with the 64MB assertion, and then the requested
    size really was more than half the limit; a request above a gigabyte has
    neither outcome, because the doubling loop leaves the range of [int]. *)
Theorem BufBuilder_append_spec b src minSize :
  wf_buf b -> BufBuilder_len b + zlen src + bb_reservedBytes b <= 2 ^ 30 ->
  ((exists b', BufBuilder_appendBuf b src = Ret b' /\ wf_buf b' /\
      bb_data b' = bb_data b ++ src) \/
   (BufBuilder_appendBuf b src = Throw (EMassert 13548) /\
      BufferMaxSize < 2 * (BufBuilder_len b + zlen src + bb_reservedBytes b))) /\
  (2 ^ 30 < minSize -> grow_reallocate b minSize = Throw EUndefined).
Proof.
  intros Hw Hb. split.
  - destruct (appendBuf_cases b src Hw Hb) as [(b' & ? & ? & ? & _)|?]; eauto.
  - intros Hm. unfold grow_reallocate. change 64 with (64 * 2 ^ 0) at 1.
    by rewrite reallocate_loop_overflow.
Qed.

Lemma BufBuilder_append_spec_witness :
  wf_buf (BufBuilder_ctor 4) /\
  (bb_data <$> BufBuilder_appendBuf (BufBuilder_ctor 4) (B "hello")) = Ret (B "hello") /\
  grow_reallocate (BufBuilder_ctor 4) (2 ^ 30 + 1) = Throw EUndefined.
Proof.
  assert (wf_buf (BufBuilder_ctor 4)) as Hw by (unfold wf_buf; split_and!; by vm_compute).
  split; [done|]. split; [done|].
  apply (BufBuilder_append_spec (BufBuilder_ctor 4) (B "hello") (2 ^ 30 + 1)); [done|by vm_compute|lia].
Defined.
