(* ===== verification/Bson.v ===== *)
(** * BSON elements and objects: bson/bsonelement.h, bsonelement.cpp,
    bsonobjiterator.h

    An object is the list of its elements, an element a field name with a
    value.  [encode_*] gives the bytes an object occupies (a 32-bit length, the
    elements, a zero byte).  The byte-level half of the file models what the
    code does on those bytes: element sizes, the iterator and the accessors
    that read a value; reading beyond the bytes given is undefined. *)
From S2P Require Import Prelude StringData BsonTypes BufBuilder.
Local Open Scope Z_scope.
Local Set Warnings "-register-all".

(** ** Data *)

Inductive bson_value :=
  | VMinKey | VEOO | VUndefined | VjstNULL | VMaxKey
  | VNumberDouble (bits : Z)
  | VString (s : bytes)
  | VObject (o : list (bytes * bson_value))
  | VArray (o : list (bytes * bson_value))
  | VBinData (subtype : char) (data : bytes)
  | VjstOID (oid : bytes)
  | VBool (b : char)
  | VDate (millis : Z)
  | VRegEx (regex flags : bytes)
  | VDBRef (ns oid : bytes)
  | VCode (code : bytes)
  | VSymbol (s : bytes)
  | VCodeWScope (code : bytes) (scope : list (bytes * bson_value))
  | VNumberInt (n : Z)
  | VTimestamp (increment seconds : Z)
  | VNumberLong (n : Z).

Definition BSONElement : Type := bytes * bson_value.
Definition BSONObj : Type := list BSONElement.

(** The element a default-constructed [BSONElement] is. *)
Definition eooElement : BSONElement := ([], VEOO).

Definition value_type (v : bson_value) : BSONType :=
  match v with
  | VMinKey => MinKey | VEOO => EOO | VUndefined => Undefined | VjstNULL => jstNULL
  | VMaxKey => MaxKey | VNumberDouble _ => NumberDouble | VString _ => String_
  | VObject _ => Object_ | VArray _ => Array_ | VBinData _ _ => BinData
  | VjstOID _ => jstOID | VBool _ => Bool_ | VDate _ => Date_ | VRegEx _ _ => RegEx
  | VDBRef _ _ => DBRef | VCode _ => Code | VSymbol _ => Symbol
  | VCodeWScope _ _ => CodeWScope | VNumberInt _ => NumberInt
  | VTimestamp _ _ => Timestamp | VNumberLong _ => NumberLong
  end.
Definition element_type (e : BSONElement) : BSONType := value_type e.2.
Definition eoo (e : BSONElement) : bool := bool_decide (element_type e = EOO).

(** Induction through the nested lists of elements. *)
Section bson_ind.
Context (P : bson_value -> Prop).
Context (Hbase : forall v,
  match v with VObject _ | VArray _ | VCodeWScope _ _ => False | _ => True end -> P v).
Context (HObject : forall o, Forall (fun e => P e.2) o -> P (VObject o)).
Context (HArray : forall o, Forall (fun e => P e.2) o -> P (VArray o)).
Context (HScope : forall c o, Forall (fun e => P e.2) o -> P (VCodeWScope c o)).

Fixpoint bson_value_ind' (v : bson_value) : P v :=
  let go := fix go (o : list (bytes * bson_value)) : Forall (fun e => P e.2) o :=
    match o with
    | [] => List.Forall_nil _
    | e :: o' => @List.Forall_cons _ (fun e => P e.2) e o' (bson_value_ind' e.2) (go o')
    end in
  match v with
  | VObject o => HObject o (go o)
  | VArray o => HArray o (go o)
  | VCodeWScope c o => HScope c o (go o)
  | v => Hbase v I
  end.
End bson_ind.

(** ** Encoding *)

Definition nul : char := chr 0.
Definition le4 (z : Z) : bytes := le_bytes 4 z.
Definition le8 (z : Z) : bytes := le_bytes 8 z.

Definition encode_string (s : bytes) : bytes := le4 (zlen s + 1) ++ s ++ [nul].
Definition encode_obj_with (body : bytes) : bytes := le4 (zlen body + 5) ++ body ++ [nul].

Fixpoint encode_value (v : bson_value) : bytes :=
  let elements := fix elements (o : list (bytes * bson_value)) : bytes :=
    match o with
    | [] => []
    | (n, v) :: o' => chr (BSONType_value (value_type v)) :: n ++ nul :: encode_value v ++ elements o'
    end in
  match v with
  | VMinKey | VEOO | VUndefined | VjstNULL | VMaxKey => []
  | VNumberDouble bits => le8 bits
  | VString s | VCode s | VSymbol s => encode_string s
  | VObject o | VArray o => encode_obj_with (elements o)
  | VBinData subtype data => le4 (zlen data) ++ subtype :: data
  | VjstOID oid => oid
  | VBool b => [b]
  | VDate millis => le8 millis
  | VRegEx regex flags => regex ++ nul :: flags ++ [nul]
  | VDBRef ns oid => encode_string ns ++ oid
  | VCodeWScope code scope =>
      let sc := encode_obj_with (elements scope) in
      le4 (4 + zlen (encode_string code) + zlen sc) ++ encode_string code ++ sc
  | VNumberInt n => le4 n
  | VTimestamp increment seconds => le4 increment ++ le4 seconds
  | VNumberLong n => le8 n
  end.

Definition encode_element (e : BSONElement) : bytes :=
  chr (BSONType_value (element_type e)) :: e.1 ++ nul :: encode_value e.2.
Definition encode_elements (o : BSONObj) : bytes := flat_map encode_element o.
Definition encode_obj (o : BSONObj) : bytes := encode_obj_with (encode_elements o).

(** ** Reading bytes *)

(** [ConstDataView(p + off).readLE<t>()]. *)
Definition readLE (t : int_type) (d : bytes) (off : Z) : M Z :=
  let n := width t / 8 in
  if (0 <=? off) && (off + n <=? zlen d) then
    Ret (wrap t (le_value (take (Z.to_nat n) (drop (Z.to_nat off) d))))
  else Throw EUndefined.

(** [strlen]: the terminator must exist. *)
Definition strlen (d : bytes) : M Z :=
  match memchr d nul with Some k => Ret (Z.of_nat k) | None => Throw EUndefined end.

Definition read_bytes (d : bytes) (off n : Z) : M bytes :=
  if (0 <=? off) && (0 <=? n) && (off + n <=? zlen d) then
    Ret (take (Z.to_nat n) (drop (Z.to_nat off) d))
  else Throw EUndefined.

(** The type byte of the element at the start of [d]. *)
Definition type_byte (d : bytes) : M Z := readLE int8 d 0.

(** [fieldNameSize()] counts the terminator; an EOO element has no name. *)
Definition fieldNameSize (d : bytes) : M Z :=
  t ← type_byte d;
  if t =? 0 then Ret 0 else n ← strlen (drop 1 d); int_result (n + 1).

(** [BSONElement::size()], without a bound. *)
Definition value_size (t : Z) (value : bytes) : M Z :=
  match BSONType_of t with
  | Some (EOO | Undefined | jstNULL | MaxKey | MinKey) => Ret 0
  | Some Bool_ => Ret 1
  | Some NumberInt => Ret 4
  | Some (Timestamp | Date_ | NumberDouble | NumberLong) => Ret 8
  | Some jstOID => Ret 12
  | Some (Symbol | Code | String_) => n ← readLE int32 value 0; int_result (n + 4)
  | Some DBRef => n ← readLE int32 value 0; int_result (n + 4 + 12)
  | Some (CodeWScope | Object_ | Array_) => n ← readLE uint32 value 0; Ret (wrap int32 n)
  | Some BinData => n ← readLE int32 value 0; int_result (n + 4 + 1)
  | Some RegEx =>
      len1 ← strlen value;
      len2 ← strlen (drop (Z.to_nat (len1 + 1)) value);
      Ret (wrap int32 (len1 + 1 + len2 + 1))
  | None => Throw (EMassert 10320)
  end.
Definition element_size (d : bytes) : M Z :=
  t ← type_byte d;
  if t =? 0 then Ret 1
  else
    fns ← fieldNameSize d;
    x ← value_size t (drop (Z.to_nat (fns + 1)) d);
    int_result (x + fns + 1).

(** [strnlen]: no terminator within [n] bytes gives [n]. *)
Definition strnlen (d : bytes) (n : Z) : M Z :=
  match memchr (take (Z.to_nat n) d) nul with
  | Some k => Ret (Z.of_nat k)
  | None => if n <=? zlen d then Ret n else Throw EUndefined
  end.

(** The constructor and [size(maxLen)] of the bounded [next(true)]: the name and
    the length prefix must lie within [maxLen] bytes. *)
Definition value_size_max (t : Z) (value : bytes) (remain : Z) : M Z :=
  match BSONType_of t with
  | Some (EOO | Undefined | jstNULL | MaxKey | MinKey) => Ret 0
  | Some Bool_ => Ret 1
  | Some NumberInt => Ret 4
  | Some (Timestamp | Date_ | NumberDouble | NumberLong) => Ret 8
  | Some jstOID => Ret 12
  | Some (Symbol | Code | String_) =>
      massert 10313 (remain >? 3);; n ← readLE int32 value 0; int_result (n + 4)
  | Some CodeWScope =>
      massert 10314 (remain >? 3);; n ← readLE uint32 value 0; Ret (wrap int32 n)
  | Some DBRef =>
      massert 10315 (remain >? 3);; n ← readLE int32 value 0; int_result (n + 4 + 12)
  | Some (Object_ | Array_) =>
      massert 10316 (remain >? 3);; n ← readLE uint32 value 0; Ret (wrap int32 n)
  | Some BinData =>
      massert 10317 (remain >? 3);; n ← readLE int32 value 0; int_result (n + 4 + 1)
  | Some RegEx =>
      len1 ← strnlen value (size_wrap remain);
      massert 10318 (len1 <? size_wrap remain);;
      let x := size_wrap (remain - len1 - 1) in
      verify (x <=? 0x7fffffff);;
      len2 ← strnlen (drop (Z.to_nat (len1 + 1)) value) x;
      massert 10319 (len2 <? x);;
      Ret (wrap int32 (len1 + 1 + len2 + 1))
  | None => Throw (EMassert 13655)
  end.
Definition element_size_max (d : bytes) (maxLen : Z) : M Z :=
  t ← type_byte d;
  if t =? 0 then Ret 1
  else
    n ← strnlen (drop 1 d) (size_wrap (maxLen - 1));
    uassert 10333 (n <? size_wrap (maxLen - 1));;
    let fns := wrap int32 (n + 1) in
    x ← value_size_max t (drop (Z.to_nat (fns + 1)) d) (maxLen - fns - 1);
    int_result (x + fns + 1).

(** ** The iterator *)

Record BSONObjIterator := mkBSONObjIterator { _pos : Z; _theend : Z }.

Definition objsize (d : bytes) : M Z := readLE int32 d 0.
(** The check of the constructor of a [BSONObj] from bytes somebody else owns. *)
Definition BSONObj_init (d : bytes) : M unit :=
  sz ← objsize d;
  massert 10334 ((0 <? sz) && (sz <=? BSONObjMaxInternalSize)).

Definition BSONObjIterator_ctor (d : bytes) : M BSONObjIterator :=
  sz ← objsize d;
  if sz =? 0 then Ret (mkBSONObjIterator 0 0) else Ret (mkBSONObjIterator 4 (sz - 1)).
Definition iterator_more (i : BSONObjIterator) : bool := _pos i <? _theend i.
Definition iterator_moreWithEOO (i : BSONObjIterator) : bool := _pos i <=? _theend i.
(** [next()]: the position of the element and the advanced iterator. *)
Definition iterator_next (d : bytes) (i : BSONObjIterator) : M (Z * BSONObjIterator) :=
  verify (_pos i <=? _theend i);;
  esize ← element_size (drop (Z.to_nat (_pos i)) d);
  Ret (_pos i, mkBSONObjIterator (_pos i + esize) (_theend i)).
(** [next(true)]. *)
Definition iterator_next_checked (d : bytes) (i : BSONObjIterator) : M (Z * BSONObjIterator) :=
  verify (_pos i <=? _theend i);;
  let maxLen := _theend i + 1 - _pos i in
  verify (maxLen >? 0);;
  esize ← element_size_max (drop (Z.to_nat (_pos i)) d) maxLen;
  massert 16446 (esize >? 0);;
  Ret (_pos i, mkBSONObjIterator (_pos i + esize) (_theend i)).

(** [str()] and the other accessors of a string-like value: [valuestrsize()]
    counts the terminator. *)
Definition read_valuestr (value : bytes) : M bytes :=
  n ← readLE int32 value 0; read_bytes value 4 (n - 1).

(** The view of the element at the start of [d]: its name and its value, read
    with the accessor of its type; the elements of an embedded object are
    those its iterator visits.  The fuel bounds the number of elements and the
    nesting together. *)
Section read.
Context (read_obj : bytes -> M (list (bytes * bson_value))).

Definition read_value (t : BSONType) (value : bytes) : M bson_value :=
  match t with
  | MinKey => Ret VMinKey | EOO => Ret VEOO | Undefined => Ret VUndefined
  | jstNULL => Ret VjstNULL | MaxKey => Ret VMaxKey
  | NumberDouble => n ← readLE uint64 value 0; Ret (VNumberDouble n)
  | String_ => s ← read_valuestr value; Ret (VString s)
  | Code => s ← read_valuestr value; Ret (VCode s)
  | Symbol => s ← read_valuestr value; Ret (VSymbol s)
  | Object_ => o ← read_obj value; Ret (VObject o)
  | Array_ => o ← read_obj value; Ret (VArray o)
  | BinData =>
      n ← readLE int32 value 0;
      subtype ← StringData_at value 4;
      data ← read_bytes value 5 n;
      Ret (VBinData subtype data)
  | jstOID => oid ← read_bytes value 0 12; Ret (VjstOID oid)
  | Bool_ => b ← StringData_at value 0; Ret (VBool b)
  | Date_ => n ← readLE uint64 value 0; Ret (VDate n)
  | RegEx =>
      len1 ← strlen value;
      regex ← read_bytes value 0 len1;
      let p := drop (Z.to_nat (len1 + 1)) value in
      len2 ← strlen p;
      flags ← read_bytes p 0 len2;
      Ret (VRegEx regex flags)
  | DBRef =>
      n ← readLE int32 value 0;
      ns ← read_bytes value 4 (n - 1);
      oid ← read_bytes value (4 + n) 12;
      Ret (VDBRef ns oid)
  | CodeWScope =>
      n ← readLE int32 value 4;
      code ← read_bytes value 8 (n - 1);
      scope ← read_obj (drop (Z.to_nat (4 + 4 + n)) value);
      Ret (VCodeWScope code scope)
  | NumberInt => n ← readLE int32 value 0; Ret (VNumberInt n)
  | Timestamp =>
      increment ← readLE uint32 value 0;
      seconds ← readLE uint32 value 4;
      Ret (VTimestamp increment seconds)
  | NumberLong => n ← readLE int64 value 0; Ret (VNumberLong n)
  end.

Definition read_element (d : bytes) : M BSONElement :=
  t ← type_byte d;
  fns ← fieldNameSize d;
  name ← (if t =? 0 then Ret [] else read_bytes d 1 (fns - 1));
  match BSONType_of t with
  | Some ty => v ← read_value ty (drop (Z.to_nat (fns + 1)) d); Ret (name, v)
  | None => Throw (EMassert 10320)
  end.
End read.

Fixpoint read_loop (fuel : nat) (d : bytes) (i : BSONObjIterator) : M BSONObj :=
  match fuel with
  | O => Throw EUndefined
  | S f =>
      let read_obj := fun v => it ← BSONObjIterator_ctor v; read_loop f v it in
      if iterator_more i then
        '(pos, i) ← iterator_next d i;
        e ← read_element read_obj (drop (Z.to_nat pos) d);
        o ← read_loop f d i;
        Ret (e :: o)
      else Ret []
  end.
Definition read_object (fuel : nat) (d : bytes) : M BSONObj :=
  it ← BSONObjIterator_ctor d; read_loop fuel d it.

(** ** Well-formed documents *)

Fixpoint wf_value (v : bson_value) : Prop :=
  let wf_elements := fix wf_elements (o : list (bytes * bson_value)) : Prop :=
    match o with
    | [] => True
    | (n, v) :: o' => (nul ∉ n) /\ wf_value v /\ wf_elements o'
    end in
  match v with
  | VEOO => False
  | VMinKey | VUndefined | VjstNULL | VMaxKey | VBool _ => True
  | VString _ | VCode _ | VSymbol _ | VBinData _ _ => True
  | VNumberDouble n | VDate n => in_range uint64 n
  | VObject o | VArray o => wf_elements o
  | VCodeWScope _ o => wf_elements o
  | VjstOID oid => zlen oid = 12
  | VRegEx regex flags => (nul ∉ regex) /\ (nul ∉ flags)
  | VDBRef _ oid => zlen oid = 12
  | VNumberInt n => in_range int32 n
  | VTimestamp increment seconds => in_range uint32 increment /\ in_range uint32 seconds
  | VNumberLong n => in_range int64 n
  end.
Definition wf_element (e : BSONElement) : Prop := (nul ∉ e.1) /\ wf_value e.2.
Definition wf_obj (o : BSONObj) : Prop := Forall wf_element o.
(** Sizes are [int]s. *)
Definition int_sized (s : bytes) : Prop := zlen s <= int_max int32.

Lemma wf_obj_unfold o :
  (fix wf_elements (o : list (bytes * bson_value)) : Prop :=
    match o with
    | [] => True
    | (n, v) :: o' => (nul ∉ n) /\ wf_value v /\ wf_elements o'
    end) o <-> wf_obj o.
Proof.
  unfold wf_obj. induction o as [|[n v] o IH]; [done|].
  rewrite List.Forall_cons_iff, <-IH. unfold wf_element. cbn. tauto.
Qed.

Lemma encode_elements_unfold o :
  (fix elements (o : list (bytes * bson_value)) : bytes :=
    match o with
    | [] => []
    | (n, v) :: o' => chr (BSONType_value (value_type v)) :: n ++ nul :: encode_value v ++ elements o'
    end) o = encode_elements o.
Proof.
  induction o as [|[n v] o IH]; [done|]. rewrite IH. cbn.
  rewrite <-app_assoc. cbn. done.
Qed.

Lemma encode_VObject o : encode_value (VObject o) = encode_obj o.
Proof. cbn [encode_value]. by rewrite encode_elements_unfold. Qed.
Lemma encode_VArray o : encode_value (VArray o) = encode_obj o.
Proof. cbn [encode_value]. by rewrite encode_elements_unfold. Qed.
Lemma encode_VCodeWScope c o :
  encode_value (VCodeWScope c o) =
  le4 (4 + zlen (encode_string c) + zlen (encode_obj o)) ++ encode_string c ++ encode_obj o.
Proof. cbn [encode_value]. by rewrite encode_elements_unfold. Qed.

Lemma wf_VObject o : wf_value (VObject o) <-> wf_obj o.
Proof. apply wf_obj_unfold. Qed.
Lemma wf_VArray o : wf_value (VArray o) <-> wf_obj o.
Proof. apply wf_obj_unfold. Qed.
Lemma wf_VCodeWScope c o : wf_value (VCodeWScope c o) <-> wf_obj o.
Proof. apply wf_obj_unfold. Qed.

(** ** Reading what was encoded *)

Lemma zlen_le_bytes n z : zlen (le_bytes n z) = Z.of_nat n.
Proof. unfold zlen. by rewrite le_bytes_length. Qed.
Lemma zlen_le4 z : zlen (le4 z) = 4.
Proof. apply zlen_le_bytes. Qed.
Lemma zlen_le8 z : zlen (le8 z) = 8.
Proof. apply zlen_le_bytes. Qed.
#[export] Hint Rewrite zlen_le_bytes zlen_le4 zlen_le8 : mongo.

Lemma wrap_mod t z : 0 < width t -> wrap t (z mod 2 ^ width t) = wrap t z.
Proof.
  intros. unfold wrap. rewrite Z.mod_mod; [done|].
  assert (0 < 2 ^ width t) by (apply Z.pow_pos_nonneg; lia). lia.
Qed.

Lemma drop_zlen {A} (a b : list A) : drop (Z.to_nat (zlen a)) (a ++ b) = b.
Proof. unfold zlen. by rewrite Nat2Z.id, drop_app_length. Qed.
Lemma take_zlen {A} (a b : list A) : take (Z.to_nat (zlen a)) (a ++ b) = a.
Proof. unfold zlen. by rewrite Nat2Z.id, take_app_length. Qed.

(** Reading an integer written at some offset. *)
Lemma readLE_at t k a z b :
  width t = 8 * Z.of_nat k -> (0 < k)%nat -> in_range t z ->
  readLE t (a ++ le_bytes k z ++ b) (zlen a) = Ret z.
Proof.
  intros Hw Hk Hz. unfold readLE. rewrite Hw.
  replace (8 * Z.of_nat k / 8) with (Z.of_nat k) by (rewrite Z.mul_comm, Z.div_mul; lia).
  rewrite !zlen_app, zlen_le_bytes. pose proof (zlen_nonneg a). pose proof (zlen_nonneg b).
  destruct (_ && _) eqn:E; [|lia].
  rewrite drop_zlen, Nat2Z.id.
  rewrite take_app_length' by (by rewrite le_bytes_length).
  rewrite le_value_bytes. f_equal.
  replace (256 ^ Z.of_nat k) with (2 ^ width t)
    by (rewrite Hw, Z.pow_mul_r by lia; done).
  rewrite wrap_mod by lia. apply wrap_id; [lia|done].
Qed.

Lemma readLE_int32 z b : in_range int32 z -> readLE int32 (le4 z ++ b) 0 = Ret z.
Proof. apply (readLE_at int32 4 []); [done|lia]. Qed.
Lemma readLE_uint32 z b : in_range uint32 z -> readLE uint32 (le4 z ++ b) 0 = Ret z.
Proof. apply (readLE_at uint32 4 []); [done|lia]. Qed.

Lemma readLE_uint64 z b : in_range uint64 z -> readLE uint64 (le8 z ++ b) 0 = Ret z.
Proof. apply (readLE_at uint64 8 []); [done|lia]. Qed.
Lemma readLE_int64 z b : in_range int64 z -> readLE int64 (le8 z ++ b) 0 = Ret z.
Proof. apply (readLE_at int64 8 []); [done|lia]. Qed.

Lemma read_bytes_at a s b : read_bytes (a ++ s ++ b) (zlen a) (zlen s) = Ret s.
Proof.
  unfold read_bytes. rewrite !zlen_app.
  pose proof (zlen_nonneg a). pose proof (zlen_nonneg b). pose proof (zlen_nonneg s).
  destruct (_ && _) eqn:E; [|lia]. by rewrite drop_zlen, take_zlen.
Qed.
Lemma read_bytes_0 s b : read_bytes (s ++ b) 0 (zlen s) = Ret s.
Proof. apply (read_bytes_at []). Qed.

Lemma strlen_cstr s b : nul ∉ s -> strlen (s ++ nul :: b) = Ret (zlen s).
Proof. intros. unfold strlen. by rewrite memchr_app_notin. Qed.

Lemma uint_of_int z : 0 <= z <= int_max int32 -> in_range int32 z /\ in_range uint32 z.
Proof. unfold in_range. cbn. lia. Qed.

Lemma wrap_uint_int z : 0 <= z <= int_max int32 -> wrap int32 z = z.
Proof. intros. apply wrap_id; [done|]. by apply uint_of_int. Qed.

Lemma zlen_encode_string s : zlen (encode_string s) = zlen s + 5.
Proof. unfold encode_string. autorewrite with mongo. lia. Qed.
Lemma zlen_encode_obj o : zlen (encode_obj o) = zlen (encode_elements o) + 5.
Proof. unfold encode_obj, encode_obj_with. autorewrite with mongo. lia. Qed.
#[export] Hint Rewrite zlen_encode_string zlen_encode_obj : mongo.

(** Sums of lengths of lists, with every length known non-negative. *)
Ltac zlen_simpl :=
  autorewrite with mongo in *;
  repeat match goal with
  | |- context [zlen ?l] =>
      lazymatch goal with
      | _ : 0 <= zlen l |- _ => fail
      | _ => pose proof (zlen_nonneg l)
      end
  | _ : context [zlen ?l] |- _ =>
      lazymatch goal with
      | _ : 0 <= zlen l |- _ => fail
      | _ => pose proof (zlen_nonneg l)
      end
  end.

Lemma readLE_encode_string s b :
  zlen s + 1 <= int_max int32 ->
  readLE int32 (encode_string s ++ b) 0 = Ret (zlen s + 1).
Proof.
  intros Hs. pose proof (zlen_nonneg s). unfold encode_string. rewrite <-app_assoc.
  apply readLE_int32, uint_of_int. lia.
Qed.
Lemma read_valuestr_encode s b :
  zlen s + 1 <= int_max int32 -> read_valuestr (encode_string s ++ b) = Ret s.
Proof.
  intros Hs. unfold read_valuestr. rewrite readLE_encode_string by done.
  cbn [mbind result_bind]. replace (zlen s + 1 - 1) with (zlen s) by lia.
  unfold encode_string. rewrite <-!app_assoc.
  exact (read_bytes_at (le4 (zlen s + 1)) s ([nul] ++ b)).
Qed.

Lemma objsize_encode o b :
  int_sized (encode_obj o) ->
  readLE int32 (encode_obj o ++ b) 0 = Ret (zlen (encode_obj o)) /\
  readLE uint32 (encode_obj o ++ b) 0 = Ret (zlen (encode_obj o)).
Proof.
  unfold int_sized. intros Hs. pose proof (zlen_nonneg (encode_obj o)).
  rewrite zlen_encode_obj in *. unfold encode_obj, encode_obj_with. rewrite <-app_assoc.
  split; [apply readLE_int32|apply readLE_uint32]; apply uint_of_int; lia.
Qed.

Lemma zlen_encode_obj_with body : zlen (encode_obj_with body) = zlen body + 5.
Proof. unfold encode_obj_with. autorewrite with mongo. lia. Qed.
Lemma objsize_encode_with body :
  zlen (encode_obj_with body) <= int_max int32 ->
  objsize (encode_obj_with body) = Ret (zlen (encode_obj_with body)).
Proof.
  rewrite zlen_encode_obj_with. intros Hs. pose proof (zlen_nonneg body). unfold objsize, encode_obj_with.
  apply readLE_int32, uint_of_int. lia.
Qed.
Lemma BSONObj_init_with body :
  zlen (encode_obj_with body) <= int_max int32 ->
  BSONObj_init (encode_obj_with body) =
    if zlen (encode_obj_with body) <=? BSONObjMaxInternalSize then Ret tt else Throw (EMassert 10334).
Proof.
  intros Hs. unfold BSONObj_init. rewrite objsize_encode_with by done. cbn [mbind result_bind].
  assert (0 < zlen (encode_obj_with body)) by
    (rewrite zlen_encode_obj_with; pose proof (zlen_nonneg body); lia).
  replace (0 <? zlen (encode_obj_with body)) with true by lia. cbn [andb].
  unfold massert, guard_throw. by destruct (_ <=? _).
Qed.

(** The size the code computes is the encoded length. *)
Lemma value_size_encode v b :
  wf_value v -> int_sized (encode_value v) ->
  value_size (BSONType_value (value_type v)) (encode_value v ++ b) = Ret (zlen (encode_value v)).
Proof.
  unfold int_sized. intros Hw Hs.
  assert (int_max int32 = 2147483647) as Hmax by done.
  destruct v; cbn [value_type]; unfold value_size; rewrite BSONType_of_value;
    cbn [encode_value] in *; try done; try (by autorewrite with mongo).
  1,8,9: zlen_simpl; rewrite readLE_encode_string by lia;
    cbn [mbind result_bind]; rewrite int_result_ok by (unfold in_range; cbn; lia);
    f_equal; lia.
  1,2: rewrite encode_elements_unfold in *; fold (encode_obj o) in *;
    rewrite (proj2 (objsize_encode o b Hs)); cbn [mbind result_bind];
    rewrite wrap_uint_int; [done|]; split; [apply zlen_nonneg|done].
  - zlen_simpl. rewrite <-app_assoc, readLE_int32 by (apply uint_of_int; lia).
    cbn [mbind result_bind]. rewrite int_result_ok by (unfold in_range; cbn; lia). f_equal. lia.
  - cbn in Hw. by rewrite Hw.
  - destruct Hw as [Hr Hf]. rewrite <-app_assoc. cbn [app]. rewrite strlen_cstr by done.
    cbn [mbind result_bind]. replace (regex ++ nul :: (flags ++ [nul]) ++ b)
      with ((regex ++ [nul]) ++ flags ++ nul :: b) by (rewrite <-!app_assoc; done).
    replace (zlen regex + 1) with (zlen (regex ++ [nul])) by (by autorewrite with mongo).
    rewrite drop_zlen, strlen_cstr by done. cbn [mbind result_bind]. zlen_simpl.
    rewrite wrap_uint_int by lia. f_equal. lia.
  - cbn in Hw. zlen_simpl. rewrite <-app_assoc.
    rewrite readLE_encode_string by lia.
    cbn [mbind result_bind]. rewrite int_result_ok by (unfold in_range; cbn; lia). f_equal. lia.
  - rewrite encode_elements_unfold in *; fold (encode_obj scope) in *. zlen_simpl.
    rewrite <-app_assoc, readLE_uint32 by (apply uint_of_int; lia).
    cbn [mbind result_bind]. rewrite wrap_uint_int by lia. f_equal. lia.
Qed.

Lemma zlen_encode_element e :
  zlen (encode_element e) = zlen e.1 + zlen (encode_value e.2) + 2.
Proof. unfold encode_element. autorewrite with mongo. lia. Qed.
#[export] Hint Rewrite zlen_encode_element : mongo.

Lemma type_byte_encode e b :
  type_byte (encode_element e ++ b) = Ret (BSONType_value (element_type e)).
Proof.
  unfold type_byte, encode_element. cbn [app].
  replace [chr (BSONType_value (element_type e))]
    with (le_bytes 1 (BSONType_value (element_type e))) by done.
  apply (readLE_at int8 1 [] (BSONType_value (element_type e))); [done|lia|].
  unfold in_range. cbn. by destruct (element_type e).
Qed.

Lemma fieldNameSize_encode e b :
  wf_element e -> int_sized (encode_element e) ->
  fieldNameSize (encode_element e ++ b) = Ret (zlen e.1 + 1).
Proof.
  intros [Hn Hv] Hs. unfold int_sized in Hs. zlen_simpl. unfold fieldNameSize.
  rewrite type_byte_encode. cbn [mbind result_bind].
  assert ((BSONType_value (element_type e) =? 0) = false) as ->.
  { apply Z.eqb_neq. unfold element_type. destruct e as [n v]. by destruct v. }
  unfold encode_element. cbn [app skipn]. rewrite <-app_assoc. cbn [app].
  rewrite drop_0, strlen_cstr by done. cbn [mbind result_bind].
  apply int_result_ok. unfold in_range. change (int_max int32) with 2147483647 in *. cbn. lia.
Qed.

Lemma drop_name e b :
  drop (Z.to_nat (zlen e.1 + 1 + 1)) (encode_element e ++ b) = encode_value e.2 ++ b.
Proof.
  unfold encode_element. cbn [app]. rewrite <-app_assoc. cbn [app].
  replace (chr (BSONType_value (element_type e)) :: e.1 ++ nul :: encode_value e.2 ++ b)
    with ((chr (BSONType_value (element_type e)) :: e.1 ++ [nul]) ++ encode_value e.2 ++ b)
    by (cbn; by rewrite <-app_assoc).
  replace (zlen e.1 + 1 + 1)
    with (zlen (chr (BSONType_value (element_type e)) :: e.1 ++ [nul]))
    by (autorewrite with mongo; lia).
  apply drop_zlen.
Qed.

Lemma element_size_encode e b :
  wf_element e -> int_sized (encode_element e) ->
  element_size (encode_element e ++ b) = Ret (zlen (encode_element e)).
Proof.
  intros He Hs. pose proof He as [_ Hv]. unfold element_size.
  rewrite type_byte_encode. cbn [mbind result_bind].
  assert ((BSONType_value (element_type e) =? 0) = false) as ->.
  { apply Z.eqb_neq. unfold element_type. destruct e as [n v]. by destruct v. }
  rewrite fieldNameSize_encode by done. cbn [mbind result_bind]. rewrite drop_name.
  unfold int_sized in Hs. zlen_simpl. change (element_type e) with (value_type e.2).
  rewrite value_size_encode; [|done|unfold int_sized; lia]. cbn [mbind result_bind].
  rewrite int_result_ok; [f_equal; lia|].
  unfold in_range. change (int_max int32) with 2147483647 in *. cbn. lia.
Qed.

(** Fuel for the nested reader: one for each element of a level, and the
    deepest level below it. *)
Fixpoint value_fuel (v : bson_value) : nat :=
  let elements_fuel := fix elements_fuel (o : list (bytes * bson_value)) : nat :=
    match o with
    | [] => 1%nat
    | (_, v) :: o' => S (Nat.max (value_fuel v) (elements_fuel o'))
    end in
  match v with
  | VObject o | VArray o | VCodeWScope _ o => elements_fuel o
  | _ => O
  end.
Fixpoint elements_fuel (o : BSONObj) : nat :=
  match o with
  | [] => 1%nat
  | (_, v) :: o' => S (Nat.max (value_fuel v) (elements_fuel o'))
  end.

Lemma elements_fuel_unfold o :
  (fix elements_fuel (o : list (bytes * bson_value)) : nat :=
    match o with
    | [] => 1%nat
    | (_, v) :: o' => S (Nat.max (value_fuel v) (elements_fuel o'))
    end) o = elements_fuel o.
Proof. induction o as [|[n v] o IH]; [done|]. by rewrite IH. Qed.

Definition reads_obj (o : BSONObj) : Prop := forall fuel b,
  (elements_fuel o <= fuel)%nat -> int_sized (encode_obj o) ->
  read_object fuel (encode_obj o ++ b) = Ret o.

Lemma read_value_encode rd v b :
  wf_value v -> int_sized (encode_value v) ->
  (forall o b, (v = VObject o \/ v = VArray o \/ exists c, v = VCodeWScope c o) ->
     int_sized (encode_obj o) -> rd (encode_obj o ++ b) = Ret o) ->
  read_value rd (value_type v) (encode_value v ++ b) = Ret v.
Proof.
  unfold int_sized. intros Hw Hs Hrd.
  assert (int_max int32 = 2147483647) as Hmax by done.
  destruct v; cbn [value_type read_value]; try done;
    rewrite ?encode_VObject, ?encode_VArray, ?encode_VCodeWScope in *;
    cbn [encode_value] in *.
  - by rewrite readLE_uint64 by done.
  - zlen_simpl. by rewrite read_valuestr_encode by lia.
  - rewrite Hrd; [done|by left|done].
  - rewrite Hrd; [done|auto|done].
  - zlen_simpl. rewrite <-app_assoc. rewrite readLE_int32 by (apply uint_of_int; lia).
    cbn [mbind result_bind app].
    assert (read_bytes (le4 (zlen data) ++ subtype :: data ++ b) 5 (zlen data) = Ret data)
      as -> by exact (read_bytes_at (le4 (zlen data) ++ [subtype]) data b).
    done.
  - cbn in Hw. rewrite <-Hw at 1. by rewrite read_bytes_0.
  - by rewrite readLE_uint64 by done.
  - destruct Hw as [Hr Hf]. rewrite <-app_assoc. cbn [app]. rewrite strlen_cstr by done.
    cbn [mbind result_bind]. rewrite read_bytes_0. cbn [mbind result_bind].
    replace (regex ++ nul :: (flags ++ [nul]) ++ b)
      with ((regex ++ [nul]) ++ flags ++ nul :: b) by (rewrite <-!app_assoc; done).
    replace (zlen regex + 1) with (zlen (regex ++ [nul])) by (by autorewrite with mongo).
    rewrite drop_zlen, strlen_cstr by done. cbn [mbind result_bind].
    by rewrite read_bytes_0.
  - cbn in Hw. zlen_simpl. rewrite <-app_assoc. rewrite readLE_encode_string by lia.
    cbn [mbind result_bind]. replace (zlen ns + 1 - 1) with (zlen ns) by lia.
    assert (read_bytes (encode_string ns ++ oid ++ b) 4 (zlen ns) = Ret ns) as ->.
    { unfold encode_string. rewrite <-!app_assoc.
      exact (read_bytes_at (le4 (zlen ns + 1)) ns ([nul] ++ oid ++ b)). }
    cbn [mbind result_bind].
    assert (read_bytes (encode_string ns ++ oid ++ b) (4 + (zlen ns + 1)) 12 = Ret oid) as ->;
      [|done].
    rewrite <-Hw. replace (4 + (zlen ns + 1)) with (zlen (encode_string ns))
      by (autorewrite with mongo; lia). apply read_bytes_at.
  - zlen_simpl. by rewrite read_valuestr_encode by lia.
  - zlen_simpl. by rewrite read_valuestr_encode by lia.
  - zlen_simpl. rewrite <-!app_assoc.
    set (hd := le4 _). assert (zlen hd = 4) as Hhd by (unfold hd; apply zlen_le4).
    assert (readLE int32 (hd ++ encode_string code ++ encode_obj scope ++ b) 4
            = Ret (zlen code + 1)) as ->.
    { unfold encode_string. rewrite <-Hhd, <-!app_assoc.
      apply (readLE_at int32 4); [done|lia|]. apply uint_of_int. lia. }
    cbn [mbind result_bind]. replace (zlen code + 1 - 1) with (zlen code) by lia.
    assert (read_bytes (hd ++ encode_string code ++ encode_obj scope ++ b) 8 (zlen code)
            = Ret code) as ->.
    { unfold encode_string. rewrite <-!app_assoc, (app_assoc hd).
      replace 8 with (zlen (hd ++ le4 (zlen code + 1)))
        by (rewrite zlen_app, zlen_le4; lia). apply read_bytes_at. }
    cbn [mbind result_bind]. rewrite app_assoc.
    replace (4 + 4 + (zlen code + 1)) with (zlen (hd ++ encode_string code))
      by (rewrite zlen_app; autorewrite with mongo; lia).
    rewrite drop_zlen, Hrd; [done|eauto|]. autorewrite with mongo. lia.
  - rewrite readLE_int32; [done|]. by cbn in Hw.
  - destruct Hw as [Hi Hse]. rewrite <-app_assoc, readLE_uint32 by done.
    cbn [mbind result_bind].
    assert (readLE uint32 (le4 increment ++ le4 seconds ++ b) 4 = Ret seconds) as ->; [|done].
    apply (readLE_at uint32 4 (le4 increment)); [done|lia|done].
  - by rewrite readLE_int64 by done.
Qed.

Lemma read_element_encode rd e b :
  wf_element e -> int_sized (encode_element e) ->
  (forall o b, (e.2 = VObject o \/ e.2 = VArray o \/ exists c, e.2 = VCodeWScope c o) ->
     int_sized (encode_obj o) -> rd (encode_obj o ++ b) = Ret o) ->
  read_element rd (encode_element e ++ b) = Ret e.
Proof.
  intros He Hs Hrd. pose proof He as [Hn Hv]. unfold read_element.
  rewrite type_byte_encode. cbn [mbind result_bind].
  rewrite fieldNameSize_encode by done. cbn [mbind result_bind].
  assert ((BSONType_value (element_type e) =? 0) = false) as ->.
  { apply Z.eqb_neq. unfold element_type. destruct e as [n v]. by destruct v. }
  replace (zlen e.1 + 1 - 1) with (zlen e.1) by lia.
  assert (read_bytes (encode_element e ++ b) 1 (zlen e.1) = Ret e.1) as ->.
  { unfold encode_element. cbn [app]. rewrite <-app_assoc.
    exact (read_bytes_at [_] e.1 ((nul :: encode_value e.2) ++ b)). }
  cbn [mbind result_bind]. rewrite BSONType_of_value, drop_name.
  change (element_type e) with (value_type e.2). unfold int_sized in *. zlen_simpl.
  rewrite read_value_encode; [|done|unfold int_sized; lia|done].
  by destruct e.
Qed.

Lemma nested_fuel v o :
  (v = VObject o \/ v = VArray o \/ exists c, v = VCodeWScope c o) ->
  value_fuel v = elements_fuel o /\ (wf_value v -> wf_obj o).
Proof.
  intros [->|[->|[c ->]]]; (split; [apply elements_fuel_unfold|]).
  - apply wf_VObject.
  - apply wf_VArray.
  - apply wf_VCodeWScope.
Qed.

Lemma read_loop_encode fuel :
  (forall o pre b, wf_obj o -> (elements_fuel o <= fuel)%nat ->
     zlen pre + zlen (encode_elements o) + 1 <= int_max int32 ->
     read_loop fuel (pre ++ encode_elements o ++ nul :: b)
       (mkBSONObjIterator (zlen pre) (zlen pre + zlen (encode_elements o))) = Ret o) /\
  (forall o b, wf_obj o -> (elements_fuel o <= fuel)%nat -> int_sized (encode_obj o) ->
     read_object fuel (encode_obj o ++ b) = Ret o).
Proof.
  induction fuel as [|fuel [IHl IHo]].
  { split; intros o; intros; by destruct o as [|[]]; cbn in *; lia. }
  assert (forall o pre b, wf_obj o -> (elements_fuel o <= S fuel)%nat ->
     zlen pre + zlen (encode_elements o) + 1 <= int_max int32 ->
     read_loop (S fuel) (pre ++ encode_elements o ++ nul :: b)
       (mkBSONObjIterator (zlen pre) (zlen pre + zlen (encode_elements o))) = Ret o) as Hl.
  { intros o pre b Hw Hf Hs. cbn [read_loop]. unfold iterator_more. cbn [_pos _theend].
    destruct o as [|e o].
    { cbn [encode_elements flat_map]. rewrite zlen_nil.
      by replace (zlen pre <? zlen pre + 0) with false by lia. }
    apply List.Forall_cons_iff in Hw as [He Hw].
    change (encode_elements (e :: o)) with (encode_element e ++ encode_elements o) in *.
    zlen_simpl. replace (_ <? _) with true by lia.
    assert (int_sized (encode_element e)) by (unfold int_sized; autorewrite with mongo; lia).
    unfold iterator_next. cbn [_pos _theend].
    replace (zlen pre <=? _) with true by lia. cbn [verify guard_throw mbind result_bind].
    rewrite <-!app_assoc, drop_zlen, element_size_encode by done. cbn [mbind result_bind].
    rewrite drop_zlen, read_element_encode; [|done..|].
    - cbn [mbind result_bind].
      replace (mkBSONObjIterator _ _) with
        (mkBSONObjIterator (zlen (pre ++ encode_element e))
           (zlen (pre ++ encode_element e) + zlen (encode_elements o)))
        by (autorewrite with mongo; f_equal; lia).
      rewrite app_assoc. rewrite IHl; [done|done| |autorewrite with mongo; lia].
      destruct e as [n v]. cbn in Hf. lia.
    - intros o2 b2 Ho2 Hs2. destruct (nested_fuel _ _ Ho2) as [Ef Hw2].
      apply IHo; [by apply Hw2, He| |done]. destruct e as [n v]. cbn in *. lia. }
  split; [exact Hl|]. intros o b Hw Hf Hs. unfold read_object, BSONObjIterator_ctor, objsize.
  rewrite (proj1 (objsize_encode o b Hs)). cbn [mbind result_bind].
  unfold int_sized in Hs. zlen_simpl.
  replace (_ =? 0) with false by lia. cbn [mbind result_bind].
  unfold encode_obj, encode_obj_with. rewrite <-!app_assoc.
  set (pre := le4 _). assert (zlen pre = 4) as Hpre by apply zlen_le4.
  replace (mkBSONObjIterator _ _) with
    (mkBSONObjIterator (zlen pre) (zlen pre + zlen (encode_elements o))) by (f_equal; lia).
  apply Hl; [done|done|lia].
Qed.

(** The bytes of a document are fuel enough. *)
Lemma value_fuel_bound v : (value_fuel v <= length (encode_value v))%nat.
Proof.
  assert (forall o, Forall (fun e => (value_fuel e.2 <= length (encode_value e.2))%nat) o ->
    (elements_fuel o <= S (length (encode_elements o)))%nat) as Ho.
  { induction 1 as [|[n v'] o He Ho IH]; [done|].
    change (encode_elements ((n, v') :: o)) with (encode_element (n, v') ++ encode_elements o).
    unfold encode_element. cbn [elements_fuel fst snd] in *.
    rewrite length_app. cbn [length]. rewrite length_app. cbn [length]. lia. }
  assert (forall o, (S (length (encode_elements o)) <= length (encode_obj o))%nat) as Hl.
  { intros o. unfold encode_obj, encode_obj_with, le4. rewrite !length_app, le_bytes_length.
    cbn. lia. }
  induction v as [v Hv|o IH|o IH|c o IH] using bson_value_ind'.
  - destruct v; done || (cbn; lia).
  - rewrite encode_VObject, (proj1 (nested_fuel (VObject o) o ltac:(auto))).
    specialize (Ho o IH). specialize (Hl o). lia.
  - rewrite encode_VArray, (proj1 (nested_fuel (VArray o) o ltac:(auto))).
    specialize (Ho o IH). specialize (Hl o). lia.
  - rewrite encode_VCodeWScope, (proj1 (nested_fuel (VCodeWScope c o) o ltac:(eauto))).
    rewrite !length_app. specialize (Ho o IH). specialize (Hl o). lia.
Qed.

Lemma encode_elements_app a b : encode_elements (a ++ b) = encode_elements a ++ encode_elements b.
Proof. apply flat_map_app. Qed.

Lemma elements_fuel_bound o : (elements_fuel o <= length (encode_obj o))%nat.
Proof.
  rewrite <-encode_VObject, <-(proj1 (nested_fuel (VObject o) o ltac:(auto))).
  apply value_fuel_bound.
Qed.

Lemma read_encode_aux o b :
  wf_obj o -> int_sized (encode_obj o) ->
  read_object (length (encode_obj o ++ b)) (encode_obj o ++ b) = Ret o.
Proof.
  intros Hw Hs. apply (proj2 (read_loop_encode _)); [done| |done].
  rewrite length_app. pose proof (elements_fuel_bound o). lia.
Qed.

(** ** Properties *)

(** Reading the bytes of a document with the iterator, the element sizes
    and the typed accessors gives back exactly its elements, whatever bytes
    follow; every type, nested objects, arrays and scopes included, and the
    length of the bytes is fuel enough. *)
Theorem BSONObj_read_encode o b :
  wf_obj o -> int_sized (encode_obj o) ->
  read_object (length (encode_obj o ++ b)) (encode_obj o ++ b) = Ret o.
Proof. exact (read_encode_aux o b). Qed.

Lemma BSONObj_read_encode_witness :
  let o := [(B "a", VNumberInt (-1));
            (B "b", VArray [(B "0", VString (B "x")); (B "1", VObject [])]);
            (B "c", VCodeWScope (B "f()") [(B "y", VRegEx (B "^a") (B "i"))])] in
  wf_obj o /\ read_object (length (encode_obj o ++ B "tail")) (encode_obj o ++ B "tail") = Ret o.
Proof.
  intros o. assert (wf_obj o) as Hw.
  { repeat constructor; cbn; not_in; repeat split; not_in; try (by vm_compute). }
  split; [exact Hw|]. apply (BSONObj_read_encode o (B "tail") Hw). by vm_compute.
Defined.
