(* ===== verification/BsonBuilder.v ===== *)
(** * The object builder: bson/bsonobjbuilder.h, bsonobjbuilder.cpp

    A builder writes into a [BufBuilder], after an optional reference-count
    header of [holder_size] bytes, a length that [_done] fills in, the elements,
    and the zero byte [_done] adds. *)
From S2P Require Import Prelude StringData BsonTypes BufBuilder Bson.
Local Open Scope Z_scope.

Record BSONObjBuilder := mkBSONObjBuilder {
  _b : BufBuilder; _offset : Z; _doneCalled : bool }.

Definition with_b (o : BSONObjBuilder) (m : M BufBuilder) : M BSONObjBuilder :=
  b ← m; Ret (mkBSONObjBuilder b (_offset o) (_doneCalled o)).

(** A builder with its own buffer. *)
Definition BSONObjBuilder_ctor (holder_size initsize : Z) : M BSONObjBuilder :=
  b ← BufBuilder_skip (BufBuilder_ctor (holder_size + initsize)) holder_size;
  b ← BufBuilder_skip b 4;
  b ← BufBuilder_reserveBytes b 1;
  Ret (mkBSONObjBuilder b holder_size false).
(** A builder inside another one's buffer. *)
Definition BSONObjBuilder_sub (base : BufBuilder) : M BSONObjBuilder :=
  let offset := BufBuilder_len base in
  b ← BufBuilder_skip base 4;
  b ← BufBuilder_reserveBytes b 1;
  Ret (mkBSONObjBuilder b offset false).

Definition checkFieldName (fieldName : bytes) : M unit :=
  uassert 0 (StringData_find_char fieldName nul 0 =? npos).

(** The common start of every append. *)
Definition append_header (t : BSONType) (fieldName : bytes) (b : BufBuilder) : M BufBuilder :=
  b ← BufBuilder_appendNum b int8 (BSONType_value t);
  BufBuilder_appendStr b fieldName true.
Definition append_checked (t : BSONType) (fieldName : bytes) (b : BufBuilder) : M BufBuilder :=
  checkFieldName fieldName;; append_header t fieldName b.

(** The [append*] functions, by the type they write. *)
Definition append_int (fieldName : bytes) (n : Z) (b : BufBuilder) : M BufBuilder :=
  b ← append_checked NumberInt fieldName b; BufBuilder_appendNum b int32 n.
Definition append_long (fieldName : bytes) (n : Z) (b : BufBuilder) : M BufBuilder :=
  b ← append_checked NumberLong fieldName b; BufBuilder_appendNum b int64 n.
Definition append_double (fieldName : bytes) (bits : Z) (b : BufBuilder) : M BufBuilder :=
  b ← append_checked NumberDouble fieldName b; BufBuilder_appendNum b uint64 bits.
Definition append_bool (fieldName : bytes) (val : bool) (b : BufBuilder) : M BufBuilder :=
  b ← append_checked Bool_ fieldName b; BufBuilder_appendNum b int8 (if val then 1 else 0).
Definition append_object (fieldName subObj : bytes) (b : BufBuilder) : M BufBuilder :=
  b ← append_checked Object_ fieldName b; BufBuilder_appendBuf b subObj.
Definition appendArray (fieldName subObj : bytes) (b : BufBuilder) : M BufBuilder :=
  b ← append_checked Array_ fieldName b; BufBuilder_appendBuf b subObj.
Definition append_oid (fieldName oid : bytes) (b : BufBuilder) : M BufBuilder :=
  b ← append_checked jstOID fieldName b; BufBuilder_appendBuf b oid.
Definition appendTimeT (fieldName : bytes) (dt : Z) (b : BufBuilder) : M BufBuilder :=
  b ← append_checked Date_ fieldName b; BufBuilder_appendNum b uint64 (wrap uint64 (dt * 1000)).
(** [appendDate] and [appendUndefined] do not check the name. *)
Definition appendDate (fieldName : bytes) (dt : Z) (b : BufBuilder) : M BufBuilder :=
  b ← append_header Date_ fieldName b; BufBuilder_appendNum b uint64 dt.
Definition appendUndefined (fieldName : bytes) (b : BufBuilder) : M BufBuilder :=
  append_header Undefined fieldName b.
Definition appendNull (fieldName : bytes) (b : BufBuilder) : M BufBuilder :=
  append_checked jstNULL fieldName b.
Definition appendMinKey (fieldName : bytes) (b : BufBuilder) : M BufBuilder :=
  append_checked MinKey fieldName b.
Definition appendMaxKey (fieldName : bytes) (b : BufBuilder) : M BufBuilder :=
  append_checked MaxKey fieldName b.
Definition appendRegex (fieldName regex options : bytes) (b : BufBuilder) : M BufBuilder :=
  checkFieldName fieldName;;
  uassert 0 (StringData_find_char regex nul 0 =? npos);;
  b ← append_header RegEx fieldName b;
  b ← BufBuilder_appendStr b regex true;
  BufBuilder_appendStr b options true.
(** The string-like types write the size with the terminator; the sum is done
    in [int]. *)
Definition append_sized_string (t : BSONType) (fieldName s : bytes) (b : BufBuilder) : M BufBuilder :=
  b ← append_checked t fieldName b;
  n ← int_result (wrap int32 (zlen s) + 1);
  b ← BufBuilder_appendNum b int32 n;
  BufBuilder_appendStr b s true.
Definition append_string (fieldName s : bytes) : BufBuilder -> M BufBuilder :=
  append_sized_string String_ fieldName s.
Definition appendCode (fieldName s : bytes) : BufBuilder -> M BufBuilder :=
  append_sized_string Code fieldName s.
Definition appendSymbol (fieldName s : bytes) : BufBuilder -> M BufBuilder :=
  append_sized_string Symbol fieldName s.
Definition appendTimestamp (fieldName : bytes) (increment seconds : Z) (b : BufBuilder) : M BufBuilder :=
  b ← append_checked Timestamp fieldName b;
  BufBuilder_appendBuf b (le4 increment ++ le4 seconds).
Definition appendDBRef (fieldName ns oid : bytes) (b : BufBuilder) : M BufBuilder :=
  b ← append_checked DBRef fieldName b;
  n ← int_result (wrap int32 (zlen ns) + 1);
  b ← BufBuilder_appendNum b int32 n;
  b ← BufBuilder_appendStr b ns true;
  BufBuilder_appendBuf b oid.
Definition appendBinData (fieldName : bytes) (subtype : char) (data : bytes) (b : BufBuilder) : M BufBuilder :=
  b ← append_checked BinData fieldName b;
  b ← BufBuilder_appendNum b int32 (zlen data);
  b ← BufBuilder_appendNum b int8 (uchar subtype);
  BufBuilder_appendBuf b data.
Definition appendBinDataArrayDeprecated (fieldName data : bytes) (b : BufBuilder) : M BufBuilder :=
  b ← append_checked BinData fieldName b;
  n ← int_result (zlen data + 4);
  b ← BufBuilder_appendNum b int32 n;
  b ← BufBuilder_appendNum b int8 2;
  b ← BufBuilder_appendNum b int32 (zlen data);
  BufBuilder_appendBuf b data.
Definition appendCodeWScope (fieldName code scope : bytes) (b : BufBuilder) : M BufBuilder :=
  b ← append_checked CodeWScope fieldName b;
  b ← BufBuilder_appendNum b int32 (wrap int32 (4 + 4 + zlen code + 1 + zlen scope));
  n ← int_result (wrap int32 (zlen code) + 1);
  b ← BufBuilder_appendNum b int32 n;
  b ← BufBuilder_appendStr b code true;
  BufBuilder_appendBuf b scope.

Definition maxInt_half : Z := 1073741823.
Definition appendIntOrLL (fieldName : bytes) (n : Z) : BufBuilder -> M BufBuilder :=
  if (- maxInt_half <? n) && (n <? maxInt_half) then append_int fieldName n
  else append_long fieldName n.
(** [appendNumber(long long)]: int, then a double that holds it, then long;
    [double_bits] gives the pattern of an integer a double holds exactly. *)
Definition double_bits (n : Z) : Z :=
  if n =? 0 then 0
  else
    let k := Z.log2 (Z.abs n) in
    (if n <? 0 then 2 ^ 63 else 0) + (k + 1023) * 2 ^ 52
      + (Z.abs n - 2 ^ k) * 2 ^ (52 - k).
Definition appendNumber_ll (fieldName : bytes) (n : Z) : BufBuilder -> M BufBuilder :=
  if (- 2 ^ 30 <? n) && (n <? 2 ^ 30) then append_int fieldName n
  else if (- 2 ^ 40 <? n) && (n <? 2 ^ 40) then append_double fieldName (double_bits n)
  else append_long fieldName n.
Definition appendNumber_size (fieldName : bytes) (n : Z) : BufBuilder -> M BufBuilder :=
  if n <? 2 ^ 30 then append_int fieldName n else append_long fieldName (wrap int64 n).

(** [append(BSONElement)] copies the element's bytes, [appendAs] its value under
    another name. *)
Definition append_element (e : BSONElement) (b : BufBuilder) : M BufBuilder :=
  checkFieldName e.1;;
  verify (negb (eoo e));;
  BufBuilder_appendBuf b (encode_element e).
Definition appendAs (e : BSONElement) (fieldName : bytes) (b : BufBuilder) : M BufBuilder :=
  checkFieldName fieldName;;
  verify (negb (eoo e));;
  b ← append_header (element_type e) fieldName b;
  BufBuilder_appendBuf b (encode_value e.2).

(** Append a value with the function of its type. *)
Definition append_value (fieldName : bytes) (v : bson_value) : BufBuilder -> M BufBuilder :=
  match v with
  | VMinKey => appendMinKey fieldName | VEOO => append_element (fieldName, VEOO)
  | VUndefined => appendUndefined fieldName
  | VjstNULL => appendNull fieldName | VMaxKey => appendMaxKey fieldName
  | VNumberDouble bits => append_double fieldName bits
  | VString s => append_string fieldName s
  | VObject o => append_object fieldName (encode_obj o)
  | VArray o => appendArray fieldName (encode_obj o)
  | VBinData subtype data => appendBinData fieldName subtype data
  | VjstOID oid => append_oid fieldName oid
  | VBool b => append_bool fieldName (negb (ceq b nul))
  | VDate millis => appendDate fieldName millis
  | VRegEx regex flags => appendRegex fieldName regex flags
  | VDBRef ns oid => appendDBRef fieldName ns oid
  | VCode s => appendCode fieldName s
  | VSymbol s => appendSymbol fieldName s
  | VCodeWScope code scope => appendCodeWScope fieldName code (encode_obj scope)
  | VNumberInt n => append_int fieldName n
  | VTimestamp increment seconds => appendTimestamp fieldName increment seconds
  | VNumberLong n => append_long fieldName n
  end.
Definition append_values (o : BSONObj) (b : BufBuilder) : M BufBuilder :=
  foldl (fun m e => b ← m; append_value e.1 e.2 b) (Ret b) o.

(** [_done]: the zero byte and the length; the object's bytes start at the
    offset. *)
Definition BSONObjBuilder__done (o : BSONObjBuilder) : M (BSONObjBuilder * bytes) :=
  if _doneCalled o then Ret (o, drop (Z.to_nat (_offset o)) (bb_data (_b o)))
  else
    b ← BufBuilder_claimReservedBytes (_b o) 1;
    b ← BufBuilder_appendNum b int8 (BSONType_value EOO);
    size ← int_result (BufBuilder_len b - _offset o);
    b ← BufBuilder_write_at b (_offset o) (le4 size);
    Ret (mkBSONObjBuilder b (_offset o) true, drop (Z.to_nat (_offset o)) (bb_data b)).

(** [done]: a [BSONObj] of the bytes, whose size is checked. *)
Definition BSONObjBuilder_done (o : BSONObjBuilder) : M (BSONObjBuilder * bytes) :=
  '(o, data) ← BSONObjBuilder__done o;
  BSONObj_init data;;
  Ret (o, data).
(** [obj]: the [BSONObj] takes over the buffer, which only a builder that owns
    its buffer can give away; the size is not checked. *)
Definition BSONObjBuilder_obj (owned : bool) (o : BSONObjBuilder) : M bytes :=
  massert 10335 owned;;
  '(_, data) ← BSONObjBuilder__done o;
  Ret data.

(** [asTempObj]: look at the object and go on appending. *)
Definition BSONObjBuilder_asTempObj (o : BSONObjBuilder) : M (BSONObjBuilder * bytes) :=
  '(o, temp) ← BSONObjBuilder_done o;
  let b := BufBuilder_setlen (_b o) (BufBuilder_len (_b o) - 1) in
  b ← BufBuilder_reserveBytes b 1;
  Ret (mkBSONObjBuilder b (_offset o) false, temp).

(** ** What an append writes *)

(** [writes f s]: on a sound buffer with room below half the limit, [f] adds
    exactly the bytes [s]. *)
Definition writes (f : BufBuilder -> M BufBuilder) (s : bytes) : Prop :=
  forall b, wf_buf b ->
    2 * (BufBuilder_len b + zlen s + bb_reservedBytes b) <= BufferMaxSize ->
    exists b', f b = Ret b' /\ wf_buf b' /\ bb_data b' = bb_data b ++ s /\
      bb_reservedBytes b' = bb_reservedBytes b.

Lemma writes_buf s : writes (fun b => BufBuilder_appendBuf b s) s.
Proof. intros b Hw Hb. by apply appendBuf_ok. Qed.

Lemma writes_bind f g s t :
  writes f s -> writes g t -> writes (fun b => b ← f b; g b) (s ++ t).
Proof.
  intros Hf Hg b Hw Hb. pose proof (zlen_nonneg s). pose proof (zlen_nonneg t).
  rewrite zlen_app in Hb.
  destruct (Hf b Hw ltac:(lia)) as (b1 & -> & Hw1 & Hd1 & Hr1).
  destruct (Hg b1 Hw1) as (b2 & ? & Hw2 & Hd2 & Hr2).
  { unfold BufBuilder_len in *. rewrite Hd1, Hr1, zlen_app. lia. }
  exists b2. split_and!; [done|done|by rewrite Hd2, Hd1, app_assoc|congruence].
Qed.

Lemma writes_num t j :
  writes (fun b => BufBuilder_appendNum b t j) (le_bytes (Z.to_nat (width t / 8)) j).
Proof. apply writes_buf. Qed.
Lemma writes_str s : writes (fun b => BufBuilder_appendStr b s true) (s ++ [nul]).
Proof. apply writes_buf. Qed.

Lemma writes_header t n : writes (append_header t n) (chr (BSONType_value t) :: n ++ [nul]).
Proof. apply (writes_bind _ _ [_]); [apply writes_num|apply writes_str]. Qed.

Lemma checkFieldName_ok n : nul ∉ n -> checkFieldName n = Ret tt.
Proof. intros. unfold checkFieldName. by rewrite find_char_notin. Qed.

Lemma writes_checked t n :
  nul ∉ n -> writes (append_checked t n) (chr (BSONType_value t) :: n ++ [nul]).
Proof.
  intros Hn b. unfold append_checked. rewrite checkFieldName_ok by done. apply writes_header.
Qed.

Lemma encode_element_header n v :
  encode_element (n, v) = (chr (BSONType_value (value_type v)) :: n ++ [nul]) ++ encode_value v.
Proof. unfold encode_element, element_type. cbn. by rewrite <-app_assoc. Qed.

(** A size prefix computed in [int] is the size, on what fits a buffer. *)
Lemma writes_sized s g t :
  writes g t ->
  writes (fun b => n ← int_result (wrap int32 (zlen s) + 1);
                   b ← BufBuilder_appendNum b int32 n;
                   b ← BufBuilder_appendStr b s true; g b) (encode_string s ++ t).
Proof.
  intros Hg b Hw Hb. pose proof (zlen_nonneg s) as Hs.
  assert (BufferMaxSize <= 67108864) by done.
  rewrite zlen_app, zlen_encode_string in Hb. pose proof (zlen_nonneg t).
  destruct Hw as (Hr & Hw). pose proof (zlen_nonneg (bb_data b)).
  unfold BufBuilder_len in Hb.
  rewrite wrap_uint_int by (cbn; lia). rewrite int_result_ok by (unfold in_range; cbn; lia).
  cbn [mbind result_bind].
  assert (writes (fun b => b ← BufBuilder_appendNum b int32 (zlen s + 1);
                   b ← BufBuilder_appendStr b s true; g b) (le4 (zlen s + 1) ++ (s ++ [nul]) ++ t))
    as Hwr.
  { apply writes_bind; [apply writes_num|]. apply writes_bind; [apply writes_str|done]. }
  unfold encode_string. rewrite <-app_assoc. apply Hwr; [by split|].
  unfold BufBuilder_len. autorewrite with mongo. lia.
Qed.

Lemma writes_ret : writes (fun b => Ret b) [].
Proof. intros b Hw _. exists b. by rewrite app_nil_r. Qed.

Lemma writes_ext f g s : (forall b, f b = g b) -> writes g s -> writes f s.
Proof. intros He Hg b. rewrite He. apply Hg. Qed.

Lemma bind_ret_r {E A} (m : result E A) : (x ← m; Ret x) = m.
Proof. by destruct m. Qed.

Lemma writes_sized_string s :
  writes (fun b => n ← int_result (wrap int32 (zlen s) + 1);
                   b ← BufBuilder_appendNum b int32 n;
                   BufBuilder_appendStr b s true) (encode_string s).
Proof.
  rewrite <-(app_nil_r (encode_string s)).
  eapply writes_ext; [|apply writes_sized, writes_ret].
  intros b. cbn beta. destruct (int_result _); [|done]. cbn [mbind result_bind].
  destruct (BufBuilder_appendNum b _ _); [|done]. cbn [mbind result_bind].
  by rewrite bind_ret_r.
Qed.

(** What the public appends can write: a sound value that is not EOO, booleans
    as 0 or 1. *)
Definition appendable (v : bson_value) : Prop :=
  wf_value v /\ match v with VBool b => b = chr 0 \/ b = chr 1 | _ => True end.

Lemma writes_codeWScope n code scope :
  nul ∉ n ->
  writes (appendCodeWScope n code (encode_obj scope)) (encode_element (n, VCodeWScope code scope)).
Proof.
  intros Hn. rewrite encode_element_header, encode_VCodeWScope. unfold appendCodeWScope.
  apply writes_bind; [by apply writes_checked|].
  intros b Hw Hb. assert (BufferMaxSize <= 67108864) by done.
  pose proof Hw as (Hr & Hl & _). zlen_simpl. unfold BufBuilder_len in *.
  pose proof (zlen_nonneg (bb_data b)).
  assert (wrap int32 (4 + 4 + zlen code + 1 + (zlen (encode_elements scope) + 5))
    = 4 + (zlen code + 5) + (zlen (encode_elements scope) + 5)) as ->
    by (rewrite wrap_uint_int; cbn; lia).
  refine (writes_bind (fun b => BufBuilder_appendNum b int32 _)
    (fun b => n ← int_result (wrap int32 (zlen code) + 1);
       b ← BufBuilder_appendNum b int32 n; b ← BufBuilder_appendStr b code true;
       BufBuilder_appendBuf b (encode_obj scope))
    (le4 _) (encode_string code ++ encode_obj scope) _ _ b Hw _).
  - apply (writes_num int32).
  - apply writes_sized, writes_buf.
  - unfold BufBuilder_len. autorewrite with mongo. lia.
Qed.

Lemma append_value_writes n v :
  nul ∉ n -> appendable v -> writes (append_value n v) (encode_element (n, v)).
Proof.
  intros Hn [Hv Hb]. rewrite encode_element_header.
  assert (forall t f s, writes f s ->
    writes (fun b => b ← append_checked t n b; f b) ((chr (BSONType_value t) :: n ++ [nul]) ++ s))
    as Hc by (intros; by apply writes_bind; [apply writes_checked|]).
  destruct v; cbn [append_value value_type];
    rewrite ?encode_VObject, ?encode_VArray; cbn [encode_value].
  2: done.
  1,3,4: rewrite app_nil_r; by apply writes_checked.
  1: rewrite app_nil_r; apply writes_header.
  1: apply Hc, (writes_num uint64).
  1,2,3: apply Hc; first [apply writes_sized_string | apply writes_buf].
  - apply Hc. apply (writes_bind _ _ (le4 _) (subtype :: data)); [apply (writes_num int32)|].
    replace (subtype :: data) with ([chr (uchar subtype)] ++ data) by (by rewrite chr_uchar).
    apply writes_bind; [apply (writes_num int8)|apply writes_buf].
  - apply Hc, writes_buf.
  - apply Hc. destruct Hb as [-> | ->]; apply (writes_num int8).
  - apply writes_bind; [apply writes_header|apply (writes_num uint64)].
  - destruct Hv as [Hr Hf]. unfold appendRegex. intros b.
    rewrite checkFieldName_ok by done. rewrite find_char_notin by done.
    change (uassert 0 (npos =? npos)) with (Ret tt : M unit). cbn [mbind result_bind].
    replace (regex ++ nul :: flags ++ [nul]) with ((regex ++ [nul]) ++ flags ++ [nul])
      by (by rewrite <-app_assoc).
    apply writes_bind; [apply writes_header|].
    apply writes_bind; apply writes_str.
  - apply Hc. apply writes_sized, writes_buf.
  - apply Hc. apply writes_sized_string.
  - apply Hc. apply writes_sized_string.
  - pose proof (writes_codeWScope n code scope Hn) as Hw.
    by rewrite encode_element_header in Hw.
  - apply Hc, (writes_num int32).
  - apply Hc, writes_buf.
  - apply Hc, (writes_num int64).
Qed.

Definition appendable_obj (o : BSONObj) : Prop :=
  Forall (fun e => (nul ∉ e.1) /\ appendable e.2) o.

Lemma append_values_cons e o b :
  append_values (e :: o) b = b ← append_value e.1 e.2 b; append_values o b.
Proof.
  unfold append_values. cbn. destruct (append_value e.1 e.2 b) as [b1|x]; [done|].
  cbn. by induction o.
Qed.

Lemma append_values_writes o : appendable_obj o -> writes (append_values o) (encode_elements o).
Proof.
  induction 1 as [|[n v] o [Hn Hv] Ho IH]; [apply writes_ret|].
  eapply writes_ext; [intros b; apply append_values_cons|].
  change (encode_elements ((n, v) :: o)) with (encode_element (n, v) ++ encode_elements o).
  apply writes_bind; [by apply append_value_writes|done].
Qed.

(** A builder that has started its object: header, length to be filled in, and
    room for the final byte. *)
Definition started (o : BSONObjBuilder) (pre body : bytes) : Prop :=
  wf_buf (_b o) /\ _offset o = zlen pre /\ _doneCalled o = false /\
  1 <= bb_reservedBytes (_b o) /\
  exists len4, zlen len4 = 4 /\ bb_data (_b o) = pre ++ len4 ++ body.

Lemma done_started o pre body :
  started o pre body ->
  exists o', BSONObjBuilder__done o = Ret (o', encode_obj_with body) /\ wf_buf (_b o') /\
    bb_data (_b o') = pre ++ encode_obj_with body /\ _doneCalled o' = true /\
    _offset o' = _offset o /\ bb_reservedBytes (_b o') = bb_reservedBytes (_b o) - 1.
Proof.
  intros ((Hr & Hl & Hmax) & Ho & Hd & H1 & len4 & H4 & Hdata).
  destruct o as [[data size reserved] offset done]. cbn [_b _offset _doneCalled bb_data
    bb_size bb_reservedBytes] in *. subst.
  assert (int_max int32 = 2147483647) as Hint by done.
  unfold BufBuilder_len in Hl. cbn [bb_data] in Hl.
  pose proof (zlen_nonneg pre). pose proof (zlen_nonneg body).
  rewrite !zlen_app in Hl.
  unfold BSONObjBuilder__done. cbn [_b _offset _doneCalled].
  unfold BufBuilder_claimReservedBytes. cbn [bb_reservedBytes bb_data bb_size].
  replace (reserved >=? 1) with true by lia. cbn [invariant guard_throw mbind result_bind].
  unfold BufBuilder_appendNum, BufBuilder_appendBuf, BufBuilder_grow, BufBuilder_len.
  cbn [bb_reservedBytes bb_data bb_size].
  change (le_bytes (Z.to_nat (width int8 / 8)) (BSONType_value EOO)) with [nul].
  change (zlen [nul]) with 1. rewrite (int_result_ok 1) by done. cbn [mbind result_bind].
  rewrite !zlen_app. rewrite !int_result_ok by (unfold in_range; cbn; lia).
  cbn [mbind result_bind]. rewrite int_result_ok by (unfold in_range; cbn; lia).
  cbn [mbind result_bind]. destruct (_ >? _) eqn:E; [lia|]. cbn [mbind result_bind bb_data].
  rewrite !zlen_app. change (zlen [nul]) with 1.
  rewrite int_result_ok by (unfold in_range; cbn; lia). cbn [mbind result_bind].
  unfold BufBuilder_write_at, BufBuilder_len. cbn [bb_data bb_size bb_reservedBytes].
  rewrite !zlen_app, zlen_le4. change (zlen [nul]) with 1.
  destruct (_ && _) eqn:E2; [|lia]. cbn [mbind result_bind].
  assert (take (Z.to_nat (zlen pre)) ((pre ++ len4 ++ body) ++ [nul]) ++
      le4 (zlen pre + (zlen len4 + zlen body) + 1 - zlen pre) ++
      drop (Z.to_nat (zlen pre + 4)) ((pre ++ len4 ++ body) ++ [nul])
    = pre ++ encode_obj_with body) as ->.
  { rewrite <-!app_assoc, take_zlen. f_equal. unfold encode_obj_with. f_equal; [f_equal; lia|].
    rewrite (app_assoc pre). replace (zlen pre + 4) with (zlen (pre ++ len4))
      by (rewrite zlen_app; lia). by rewrite drop_zlen. }
  cbn [bb_data]. rewrite drop_zlen. eexists. split; [done|]. cbn [_b bb_data _doneCalled _offset
    bb_reservedBytes].
  split_and!; [|done..]. unfold wf_buf, BufBuilder_len, encode_obj_with.
  cbn [bb_data bb_size bb_reservedBytes]. rewrite !zlen_app, zlen_le4.
  change (zlen [nul]) with 1. lia.
Qed.

(** The size of the object is checked when it is looked at in the builder. *)
Lemma started_size o pre body : started o pre body -> zlen (encode_obj_with body) <= int_max int32.
Proof.
  intros ((Hr & Hl & Hmax) & _ & _ & H1 & len4 & H4 & Hdata). unfold BufBuilder_len in Hl.
  rewrite Hdata, !zlen_app in Hl. pose proof (zlen_nonneg pre).
  rewrite zlen_encode_obj_with. lia.
Qed.
Lemma init_started o pre body : started o pre body ->
  BSONObj_init (encode_obj_with body) =
    if zlen body + 5 <=? BSONObjMaxInternalSize then Ret tt else Throw (EMassert 10334).
Proof.
  intros Hs. rewrite BSONObj_init_with by (by eapply started_size).
  assert (zlen (encode_obj_with body) = zlen body + 5) as ->
    by (unfold encode_obj_with; autorewrite with mongo; lia). done.
Qed.
(** [done] throws for an object that is too large. *)
Lemma done_checked o pre body : started o pre body ->
  if zlen body + 5 <=? BSONObjMaxInternalSize
  then exists o', BSONObjBuilder_done o = Ret (o', encode_obj_with body)
  else BSONObjBuilder_done o = Throw (EMassert 10334).
Proof.
  intros Hs. unfold BSONObjBuilder_done. destruct (done_started o pre body Hs) as (o' & -> & _).
  cbn [mbind result_bind]. rewrite (init_started o pre body Hs).
  destruct (_ <=? _); [by exists o'|done].
Qed.

Lemma reserveBytes_ok b n :
  wf_buf b -> 0 <= n -> 2 * (BufBuilder_len b + bb_reservedBytes b + n) <= BufferMaxSize ->
  exists b', BufBuilder_reserveBytes b n = Ret b' /\ wf_buf b' /\ bb_data b' = bb_data b /\
    bb_reservedBytes b' = bb_reservedBytes b + n.
Proof.
  intros (Hr & Hl & Hm) Hn Hb. assert (BufferMaxSize = 67108864) as HM by done.
  assert (int_max int32 = 2147483647) as Hint by done.
  unfold BufBuilder_reserveBytes, BufBuilder_len in *. pose proof (zlen_nonneg (bb_data b)).
  rewrite int_result_ok by (unfold in_range; cbn; lia). cbn [mbind result_bind].
  destruct (_ >? _) eqn:E.
  - destruct (grow_reallocate_cases b (zlen (bb_data b) + bb_reservedBytes b + n))
      as [(a & -> & Ha)|[_ ?]]; [lia| |lia].
    cbn [mbind result_bind]. eexists. split; [done|]. unfold wf_buf, BufBuilder_len.
    cbn [bb_data bb_size bb_reservedBytes]. split_and!; lia || done.
  - cbn [mbind result_bind]. eexists. split; [done|]. unfold wf_buf, BufBuilder_len.
    cbn [bb_data bb_size bb_reservedBytes]. split_and!; lia || done.
Qed.

Lemma buf_skip_ok b n :
  wf_buf b -> 0 <= n -> 2 * (BufBuilder_len b + n + bb_reservedBytes b) <= BufferMaxSize ->
  exists b' fill, BufBuilder_skip b n = Ret b' /\ wf_buf b' /\ zlen fill = n /\
    bb_data b' = bb_data b ++ fill /\ bb_reservedBytes b' = bb_reservedBytes b.
Proof.
  intros Hw Hn Hb. unfold BufBuilder_skip.
  assert (zlen (replicate (Z.to_nat n) (chr 0)) = n)
    by (unfold zlen; rewrite length_replicate; lia).
  destruct (appendBuf_ok b (replicate (Z.to_nat n) (chr 0)) Hw) as (b' & ? & ? & ? & ?); [lia|].
  by exists b', (replicate (Z.to_nat n) (chr 0)).
Qed.

Lemma sub_started b :
  wf_buf b -> 2 * (BufBuilder_len b + 4 + bb_reservedBytes b + 1) <= BufferMaxSize ->
  exists o, BSONObjBuilder_sub b = Ret o /\ started o (bb_data b) [] /\
    bb_reservedBytes (_b o) = bb_reservedBytes b + 1.
Proof.
  intros Hw Hb. unfold BSONObjBuilder_sub.
  destruct (buf_skip_ok b 4 Hw) as (b1 & fill & -> & Hw1 & Hf & Hd1 & Hr1); [lia|lia|].
  cbn [mbind result_bind].
  destruct (reserveBytes_ok b1 1 Hw1) as (b2 & -> & Hw2 & Hd2 & Hr2); [lia| |].
  { unfold BufBuilder_len in *. rewrite Hd1, Hr1, zlen_app. lia. }
  cbn [mbind result_bind]. eexists. split; [done|]. destruct Hw as (? & _).
  split; [|cbn; lia].
  unfold started. cbn [_b _offset _doneCalled]. split_and!; [done|done|done|lia|].
  exists fill. by rewrite app_nil_r, Hd2, Hd1.
Qed.

Lemma ctor_started holder_size initsize :
  0 <= holder_size -> 0 <= initsize -> 2 * (holder_size + initsize + 5) <= BufferMaxSize ->
  exists o pre, BSONObjBuilder_ctor holder_size initsize = Ret o /\ started o pre [] /\
    zlen pre = holder_size /\ bb_reservedBytes (_b o) = 1.
Proof.
  intros Hh Hi Hb. assert (BufferMaxSize = 67108864) as HM by done.
  assert (int_max int32 = 2147483647) as Hint by done.
  unfold BSONObjBuilder_ctor.
  assert (wf_buf (BufBuilder_ctor (holder_size + initsize))) as Hw.
  { unfold wf_buf, BufBuilder_len, BufBuilder_ctor. cbn [bb_data bb_size bb_reservedBytes].
    change (zlen (@nil char)) with 0. lia. }
  destruct (buf_skip_ok _ holder_size Hw Hh) as (b1 & fill & -> & Hw1 & Hf & Hd1 & Hr1).
  { unfold BufBuilder_len, BufBuilder_ctor. cbn [bb_data bb_reservedBytes].
    change (zlen (@nil char)) with 0. lia. }
  cbn [mbind result_bind]. cbn [BufBuilder_ctor bb_data bb_reservedBytes app] in *.
  destruct (sub_started b1 Hw1) as (o & Ho & Hst & Hr).
  { unfold BufBuilder_len. rewrite Hd1, Hr1. lia. }
  unfold BSONObjBuilder_sub in Ho. unfold BufBuilder_len in Ho. rewrite Hd1, Hf in Ho.
  exists o, fill. rewrite Hd1 in Hst. split_and!; [exact Ho|done|done|lia].
Qed.

Lemma started_append f s o pre body :
  started o pre body -> writes f s ->
  2 * (BufBuilder_len (_b o) + zlen s + bb_reservedBytes (_b o)) <= BufferMaxSize ->
  exists o', with_b o (f (_b o)) = Ret o' /\ started o' pre (body ++ s) /\
    bb_reservedBytes (_b o') = bb_reservedBytes (_b o).
Proof.
  intros (Hw & Ho & Hd & H1 & len4 & H4 & Hdata) Hf Hb.
  destruct (Hf (_b o) Hw Hb) as (b' & E & Hw' & Hd' & Hr').
  unfold with_b. rewrite E. cbn [mbind result_bind]. eexists. split; [done|].
  cbn [_b]. split; [|done]. unfold started. cbn [_b _offset _doneCalled].
  split_and!; [done..|lia|]. exists len4. by rewrite Hd', Hdata, <-!app_assoc.
Qed.

Lemma appendable_wf o : appendable_obj o -> wf_obj o.
Proof. intros H. eapply Forall_impl; [exact H|]. by intros e [? [? _]]. Qed.

(** A whole document built from its values, in a buffer of its own. *)
Definition build (holder_size initsize : Z) (o : BSONObj) : M bytes :=
  x ← BSONObjBuilder_ctor holder_size initsize;
  x ← with_b x (append_values o (_b x));
  BSONObjBuilder_obj true x.
(** The same document, looked at in the builder. *)
Definition build_done (holder_size initsize : Z) (o : BSONObj) : M bytes :=
  x ← BSONObjBuilder_ctor holder_size initsize;
  x ← with_b x (append_values o (_b x));
  snd <$> BSONObjBuilder_done x.

Lemma build_started holder_size initsize o :
  appendable_obj o -> 0 <= holder_size -> 0 <= initsize ->
  2 * (holder_size + initsize + zlen (encode_obj o)) <= BufferMaxSize ->
  exists x x' pre, BSONObjBuilder_ctor holder_size initsize = Ret x /\
    with_b x (append_values o (_b x)) = Ret x' /\ started x' pre (encode_elements o).
Proof.
  intros Ho Hh Hi Hb. rewrite zlen_encode_obj in Hb. pose proof (zlen_nonneg (encode_elements o)).
  destruct (ctor_started holder_size initsize Hh Hi ltac:(lia)) as (x & pre & E & Hst & Hp & Hr).
  destruct (started_append (append_values o) (encode_elements o) x pre [] Hst)
    as (x1 & E1 & Hst1 & Hr1).
  { by apply append_values_writes. }
  { destruct Hst as (_ & _ & _ & _ & len4 & H4 & Hd). unfold BufBuilder_len.
    rewrite Hd, !zlen_app, zlen_nil. lia. }
  by exists x, x1, pre.
Qed.
Lemma build_encode holder_size initsize o :
  appendable_obj o -> 0 <= holder_size -> 0 <= initsize ->
  2 * (holder_size + initsize + zlen (encode_obj o)) <= BufferMaxSize ->
  build holder_size initsize o = Ret (encode_obj o) /\
  build_done holder_size initsize o =
    if zlen (encode_obj o) <=? BSONObjMaxInternalSize then Ret (encode_obj o) else Throw (EMassert 10334).
Proof.
  intros Ho Hh Hi Hb. destruct (build_started holder_size initsize o Ho Hh Hi Hb) as (x & x' & pre & E & E' & Hs).
  unfold build, build_done. rewrite E. cbn [mbind result_bind]. rewrite E'. cbn [mbind result_bind]. split.
  - unfold BSONObjBuilder_obj. cbn [massert guard_throw mbind result_bind].
    by destruct (done_started x' pre _ Hs) as (x2 & -> & _).
  - pose proof (done_checked x' pre _ Hs) as Hd. rewrite zlen_encode_obj.
    destruct (_ <=? _); [destruct Hd as [x2 ->]|rewrite Hd]; done.
Qed.

(** ** Properties *)

(** C38: a document built with the builder's append functions from any sound
    values, within half the buffer limit, and taken with [obj] is, byte for byte,
    the encoding of those values, and reading it with the iterator gives the same
    values back; [done] gives the same bytes, or throws 10334 when they are more
    than a [BSONObj] may have. *)
Theorem BSONObjBuilder_roundtrip holder_size initsize o :
  appendable_obj o -> 0 <= holder_size -> 0 <= initsize ->
  2 * (holder_size + initsize + zlen (encode_obj o)) <= BufferMaxSize ->
  exists bs, build holder_size initsize o = Ret bs /\ bs = encode_obj o /\
    read_object (length bs) bs = Ret o /\
    build_done holder_size initsize o =
      if zlen bs <=? BSONObjMaxInternalSize then Ret bs else Throw (EMassert 10334).
Proof.
  intros Ho Hh Hi Hb. destruct (build_encode holder_size initsize o Ho Hh Hi Hb) as [Hbuild Hdone].
  exists (encode_obj o). split_and!; [done|done| |done].
  pose proof (read_encode_aux o []) as Hr. rewrite !app_nil_r in Hr. apply Hr.
  - by apply appendable_wf.
  - unfold int_sized. assert (BufferMaxSize <= int_max int32) by (by vm_compute).
    pose proof (zlen_nonneg (encode_obj o)). lia.
Qed.

Lemma BSONObjBuilder_roundtrip_witness :
  let o := [(B "n", VNumberInt 7); (B "s", VString (B "x")); (B "t", VBool (chr 1));
            (B "d", VDBRef (B "db.c") (B "0123456789ab"))] in
  appendable_obj o /\
  exists bs, build 4 512 o = Ret bs /\ bs = encode_obj o /\ read_object (length bs) bs = Ret o /\
    build_done 4 512 o = if zlen bs <=? BSONObjMaxInternalSize then Ret bs else Throw (EMassert 10334).
Proof.
  intros o. assert (appendable_obj o) as Ho.
  { repeat constructor; cbn; not_in; auto; by vm_compute. }
  split; [exact Ho|]. apply (BSONObjBuilder_roundtrip 4 512 o Ho); by vm_compute.
Defined.

(** Looking at the object with [asTempObj] returns the complete object so
    far, if it is not too large, and leaves the builder as if nothing had
    happened: what is appended afterwards follows the same elements. *)
Theorem asTempObj_continues x pre body :
  started x pre body -> zlen body + 5 <= BSONObjMaxInternalSize ->
  2 * (BufBuilder_len (_b x) + bb_reservedBytes (_b x)) <= BufferMaxSize ->
  exists x', BSONObjBuilder_asTempObj x = Ret (x', encode_obj_with body) /\
    started x' pre body /\ bb_reservedBytes (_b x') = bb_reservedBytes (_b x).
Proof.
  intros Hst Hsize Hb. pose proof Hst as (_ & Ho & _ & H1 & len4 & H4 & Hdata).
  unfold BSONObjBuilder_asTempObj, BSONObjBuilder_done.
  destruct (done_started x pre body Hst) as (x1 & -> & (Hr1 & Hl1 & Hm1) & Hd1 & Hc1 & Ho1 & Hrs1).
  cbn [mbind result_bind]. rewrite (init_started x pre body Hst).
  replace (zlen body + 5 <=? BSONObjMaxInternalSize) with true by lia. cbn [mbind result_bind].
  assert (bb_data (_b x1) = (pre ++ le4 (zlen body + 5) ++ body) ++ [nul]) as Hd1'
    by (rewrite Hd1; unfold encode_obj_with; by rewrite <-!app_assoc).
  set (b2 := BufBuilder_setlen _ _).
  assert (bb_data b2 = pre ++ le4 (zlen body + 5) ++ body) as Hd2.
  { unfold b2, BufBuilder_setlen, BufBuilder_len. cbn [bb_data]. rewrite Hd1', zlen_app.
    change (zlen [nul]) with 1.
    replace (zlen (pre ++ le4 (zlen body + 5) ++ body) + 1 - 1)
      with (zlen (pre ++ le4 (zlen body + 5) ++ body)) by lia. apply take_zlen. }
  assert (BufBuilder_len b2 = BufBuilder_len (_b x)) as Hlen.
  { unfold BufBuilder_len. rewrite Hd2, Hdata, !zlen_app, zlen_le4. lia. }
  destruct (reserveBytes_ok b2 1) as (b3 & -> & Hw3 & Hd3 & Hr3).
  { unfold wf_buf, BufBuilder_len in *. rewrite Hlen.
    rewrite Hdata, !zlen_app in *. rewrite Hd1', !zlen_app, zlen_le4 in Hl1.
    change (zlen [nul]) with 1 in Hl1.
    unfold b2, BufBuilder_setlen. cbn [bb_reservedBytes bb_size]. lia. }
  { lia. }
  { rewrite Hlen. unfold b2, BufBuilder_setlen. cbn [bb_reservedBytes]. lia. }
  cbn [mbind result_bind]. eexists. split; [done|].
  unfold b2, BufBuilder_setlen in Hr3. cbn [bb_reservedBytes] in Hr3.
  split; [|cbn [_b]; lia]. unfold started. cbn [_b _offset _doneCalled].
  split_and!; [done|congruence|done|lia|].
  exists (le4 (zlen body + 5)). rewrite Hd3. split; [apply zlen_le4|done].
Qed.

Lemma asTempObj_continues_witness :
  exists x, BSONObjBuilder_ctor 0 64 = Ret x /\
  exists x', BSONObjBuilder_asTempObj x = Ret (x', encode_obj []) /\ started x' [] [].
Proof.
  eexists. split; [reflexivity|].
  destruct (asTempObj_continues (mkBSONObjBuilder (mkBufBuilder [nul; nul; nul; nul] 64 1) 0 false)
    [] []) as (x' & ? & ? & _); [|by vm_compute|by vm_compute|by exists x'].
  unfold started. split_and!; try done. by exists [nul; nul; nul; nul].
Defined.
