(* ===== verification/Codec.v ===== *)
(** * Text encodings of bytes: util/base64.cpp, util/hex.h, util/hex.cpp

    [base64] is the alphabet with its decoding table, [encode] and [decode];
    [toHex] and [fromHex] are the hexadecimal forms, [integerToHex] the one of
    an integer without its leading zeros. *)
From S2P Require Import Prelude StringData BsonTypes BufBuilder.
Local Open Scope Z_scope.

(** ** base64 *)

Definition base64_chars : bytes :=
  B "ABCDEFGHIJKLMNOPQRSTUVWXYZabcdefghijklmnopqrstuvwxyz0123456789+/=".
(** The member [encode] of [Alphabet] and its table [decode], filled by the
    constructor. *)
Definition alphabet_encode : bytes := take 64 base64_chars.
Definition alphabet_decode_table : list Z :=
  foldl (fun t i => match alphabet_encode !! i with
                    | Some c => <[Z.to_nat (uchar c) := Z.of_nat i]> t | None => t end)
    (replicate 256 0) (seq 0 64).

Definition alphabet_e (x : Z) : char :=
  default (chr 0) (zlookup alphabet_encode (Z.land x 0x3f)).
Definition alphabet_decode (c : char) : Z :=
  default 0 (zlookup alphabet_decode_table (uchar c)).

(** [Alphabet::test], run by the constructor. *)
Definition toupper (c : char) : char := if islower c then chr (uchar c - 32) else c.
Definition alphabet_test : M unit :=
  verify (length alphabet_encode =? 64)%nat;;
  verify (forallb (fun i =>
    ceq (default (chr 0) (alphabet_encode !! i))
        (toupper (default (chr 0) (alphabet_encode !! (i + 26)%nat)))) (seq 0 26)).

(** The loop of [encode], from [start]: three bytes at a time, the last group
    with what is [left]. *)
Fixpoint base64_encode_loop (start : bytes) : bytes :=
  match start with
  | [] => []
  | s0 :: rest =>
      let temp := Z.land (Z.shiftl (uchar s0) 4) 0xFF in
      alphabet_e (Z.shiftr (uchar s0) 2) ::
      match rest with
      | [] => [alphabet_e temp]
      | s1 :: rest =>
          alphabet_e (Z.lor temp (Z.land (Z.shiftr (uchar s1) 4) 0xF)) ::
          let temp := Z.shiftl (Z.land (uchar s1) 0xF) 2 in
          match rest with
          | [] => [alphabet_e temp]
          | s2 :: rest =>
              alphabet_e (Z.lor temp (Z.land (Z.shiftr (uchar s2) 6) 0x3)) ::
              alphabet_e (Z.land (uchar s2) 0x3f) :: base64_encode_loop rest
          end
      end
  end.

(** [encode(data, size)]: [size] is an [int], and [%] truncates. *)
Definition base64_encode (data : bytes) (size : Z) : bytes :=
  base64_encode_loop (take (Z.to_nat size) data) ++
  let mod_ := Z.rem size 3 in
  if mod_ =? 1 then B "==" else if mod_ =? 2 then B "=" else [].
Definition base64_encode_string (s : bytes) : bytes := base64_encode s (wrap int32 (zlen s)).

(** The loop of [decode], four characters at a time. *)
Fixpoint base64_decode_loop (start : bytes) : bytes :=
  match start with
  | s0 :: s1 :: s2 :: s3 :: rest =>
      let d0 := alphabet_decode s0 in let d1 := alphabet_decode s1 in
      let d2 := alphabet_decode s2 in let d3 := alphabet_decode s3 in
      let buf0 := Z.lor (Z.land (Z.shiftl d0 2) 0xFC) (Z.land (Z.shiftr d1 4) 0x3) in
      let buf1 := Z.lor (Z.land (Z.shiftl d1 4) 0xF0) (Z.land (Z.shiftr d2 2) 0xF) in
      let buf2 := Z.lor (Z.land (Z.shiftl d2 6) 0xC0) (Z.land d3 0x3F) in
      let len := if ceq s3 (chr 61) then (if ceq s2 (chr 61) then 1%nat else 2%nat) else 3%nat in
      take len [chr buf0; chr buf1; chr buf2] ++ base64_decode_loop rest
  | _ => []
  end.

Definition base64_decode (s : bytes) : M bytes :=
  uassert 10270 (zlen s mod 4 =? 0);;
  let size := wrap int32 (zlen s) in
  Ret (base64_decode_loop (take (Z.to_nat size) s)).

(** ** Hexadecimal *)

Definition hexchars : bytes := B "0123456789ABCDEF".
Definition hexchars_lower : bytes := B "0123456789abcdef".
Definition hexdigit (digits : bytes) (i : Z) : char := default (chr 0) (zlookup digits i).

(** The two functions differ in the digits only; [(c & 0xF0) >> 4] is taken of
    a signed [char]. *)
Definition toHex_with (digits : bytes) (inRaw : bytes) (len : Z) : bytes :=
  flat_map (fun c =>
    [hexdigit digits (Z.shiftr (Z.land (schar c) 0xF0) 4);
     hexdigit digits (Z.land (schar c) 0x0F)]) (take (Z.to_nat len) inRaw).
Definition toHex : bytes -> Z -> bytes := toHex_with hexchars.
Definition toHexLower : bytes -> Z -> bytes := toHex_with hexchars_lower.

Definition fromHex (c : char) : M Z :=
  let u := schar c in
  if (48 <=? u) && (u <=? 57) then Ret (u - 48)
  else if (97 <=? u) && (u <=? 102) then Ret (u - 97 + 10)
  else if (65 <=? u) && (u <=? 70) then Ret (u - 65 + 10)
  else Throw EVerify.
(** [fromHex] of a pointer, on the two characters it reads. *)
Definition fromHex_pair (c0 c1 : char) : M char :=
  hi ← fromHex c0; lo ← fromHex c1; Ret (chr (Z.lor (Z.shiftl hi 4) lo)).

(** The loop of [integerToHexDef]: [j] goes down, so [n] is [j + 1]. *)
Fixpoint integerToHex_loop (n : nat) (inInt : Z) (outbuf : bytes) (lastSeenNumber : nat)
    : bytes * nat :=
  match n with
  | O => (outbuf, lastSeenNumber)
  | S j =>
      let c := hexdigit hexchars (Z.land inInt 0xF) in
      integerToHex_loop j (Z.shiftr inInt 4) (c :: outbuf)
        (if ceq c (chr 48) then lastSeenNumber else j)
  end.
Definition integerToHex (t : int_type) (inInt : Z) : bytes :=
  if inInt =? 0 then B "0"
  else
    let '(outbuf, last) := integerToHex_loop (Z.to_nat (width t / 8 * 2)) inInt [] 0 in
    drop last outbuf.

(** ** Lemmas on base64 *)

Lemma alphabet_roundtrip x : alphabet_decode (alphabet_e x) = Z.land x 0x3f.
Proof.
  unfold alphabet_e. change 0x3f with (Z.ones 6). rewrite Z.land_ones by lia.
  pose proof (Z.mod_pos_bound x (2 ^ 6) ltac:(lia)) as H. revert H. generalize (x mod 2 ^ 6).
  intros y Hy. apply Z.eqb_eq.
  assert (forallb (fun i => alphabet_decode (default (chr 0) (zlookup alphabet_encode (Z.of_nat i)))
    =? Z.of_nat i) (seq 0 64) = true) as Hall by (by vm_compute).
  rewrite forallb_forall in Hall. specialize (Hall (Z.to_nat y)).
  rewrite Z2Nat.id in Hall by lia. apply Hall, in_seq. lia.
Qed.

Lemma alphabet_e_in x : alphabet_e x ∈ alphabet_encode.
Proof.
  unfold alphabet_e. change 0x3f with (Z.ones 6). rewrite Z.land_ones by lia.
  pose proof (Z.mod_pos_bound x (2 ^ 6) ltac:(lia)) as H. revert H. generalize (x mod 2 ^ 6).
  intros y Hy. unfold zlookup. rewrite decide_True by lia.
  destruct (alphabet_encode !! Z.to_nat y) eqn:E; [by apply list_elem_of_lookup_2 in E|].
  apply lookup_ge_None in E. change (length alphabet_encode) with 64%nat in E. lia.
Qed.

Lemma alphabet_e_pad x : alphabet_e x <> chr 61.
Proof.
  intros E. pose proof (alphabet_e_in x) as H. rewrite E in H. revert H.
  apply (bool_decide_eq_true_1 (chr 61 ∉ alphabet_encode)). by vm_compute.
Qed.

(** Two functions of one or two bytes compared on all their arguments. *)
Lemma forall_chars_eq {A} `{EqDecision A} (f g : char -> A) :
  forallb (fun a => bool_decide (f a = g a)) all_chars = true -> forall a, f a = g a.
Proof.
  intros H a. apply (bool_decide_eq_true_1 (f a = g a)).
  exact (forall_chars (fun a => bool_decide (f a = g a)) H a).
Qed.
Lemma forall_two_chars_eq {A} `{EqDecision A} (f g : char -> char -> A) :
  forallb (fun a => forallb (fun b => bool_decide (f a b = g a b)) all_chars) all_chars = true ->
  forall a b, f a b = g a b.
Proof.
  intros H a b. apply (bool_decide_eq_true_1 (f a b = g a b)).
  refine (forall_chars (fun b => bool_decide (f a b = g a b)) _ b).
  refine (forall_chars (fun a => forallb (fun b => bool_decide (f a b = g a b)) all_chars) _ a).
  done.
Qed.

Lemma group_byte0 a b :
  chr (Z.lor (Z.land (Z.shiftl (Z.land (Z.shiftr (uchar a) 2) 0x3f) 2) 0xFC)
    (Z.land (Z.shiftr (Z.land (Z.lor (Z.land (Z.shiftl (uchar a) 4) 0xFF)
      (Z.land (Z.shiftr (uchar b) 4) 0xF)) 0x3f) 4) 0x3)) = a.
Proof. revert a b. apply forall_two_chars_eq. by vm_compute. Qed.

Lemma group_byte1 a b c :
  chr (Z.lor (Z.land (Z.shiftl (Z.land (Z.lor (Z.land (Z.shiftl (uchar a) 4) 0xFF)
      (Z.land (Z.shiftr (uchar b) 4) 0xF)) 0x3f) 4) 0xF0)
    (Z.land (Z.shiftr (Z.land (Z.lor (Z.shiftl (Z.land (uchar b) 0xF) 2)
      (Z.land (Z.shiftr (uchar c) 6) 0x3)) 0x3f) 2) 0xF)) = b.
Proof.
  (* the first operand depends on [b] only *)
  assert (Z.land (Z.shiftl (Z.land (Z.lor (Z.land (Z.shiftl (uchar a) 4) 0xFF)
      (Z.land (Z.shiftr (uchar b) 4) 0xF)) 0x3f) 4) 0xF0 = Z.land (uchar b) 0xF0) as ->.
  { revert a b. apply forall_two_chars_eq. by vm_compute. }
  revert b c. apply forall_two_chars_eq. by vm_compute.
Qed.

Lemma group_byte2 b c :
  chr (Z.lor (Z.land (Z.shiftl (Z.land (Z.lor (Z.shiftl (Z.land (uchar b) 0xF) 2)
      (Z.land (Z.shiftr (uchar c) 6) 0x3)) 0x3f) 6) 0xC0)
    (Z.land (Z.land (Z.land (uchar c) 0x3f) 0x3f) 0x3F)) = c.
Proof. revert b c. apply forall_two_chars_eq. by vm_compute. Qed.

(** [encode] without its argument [size]: the loop and the padding. *)
Definition base64_text (s : bytes) : bytes :=
  base64_encode_loop s ++
  let m := Z.rem (zlen s) 3 in if m =? 1 then B "==" else if m =? 2 then B "=" else [].

(** Induction three bytes at a time. *)
Lemma list_ind3 {A} (P : list A -> Prop) :
  P [] -> (forall a, P [a]) -> (forall a b, P [a; b]) ->
  (forall a b c l, P l -> P (a :: b :: c :: l)) -> forall l, P l.
Proof.
  intros H0 H1 H2 H3 l.
  assert (P l /\ (forall a, P (a :: l)) /\ forall a b, P (a :: b :: l)) as [? _]; [|done].
  induction l as [|x l (IH0 & IH1 & IH2)]; [done|].
  split_and!; [apply IH1|intros; apply IH2|intros; by apply H3].
Qed.

Lemma base64_text_group a b c l :
  base64_text (a :: b :: c :: l) = base64_encode_loop [a; b; c] ++ base64_text l.
Proof.
  unfold base64_text. cbn [base64_encode_loop app]. do 4 f_equal. f_equal.
  replace (Z.rem (zlen (a :: b :: c :: l)) 3) with (Z.rem (zlen l) 3); [done|].
  pose proof (zlen_nonneg l). rewrite !zlen_cons, !Z.rem_mod_nonneg by lia.
  replace (1 + (1 + (1 + zlen l))) with (zlen l + 1 * 3) by lia. by rewrite Z.mod_add.
Qed.

Lemma base64_text_length s : zlen (base64_text s) = 4 * ((zlen s + 2) / 3).
Proof.
  induction s as [|a|a b|a b c l IH] using list_ind3; [done..|].
  rewrite base64_text_group, zlen_app, IH. rewrite !zlen_cons.
  replace (1 + (1 + (1 + zlen l)) + 2) with (zlen l + 2 + 1 * 3) by lia.
  rewrite Z.div_add by lia. change (zlen (base64_encode_loop [a; b; c])) with 4. lia.
Qed.

Lemma base64_text_chars s : Forall (fun c => c ∈ base64_chars) (base64_text s).
Proof.
  assert (forall x, alphabet_e x ∈ base64_chars) as He.
  { intros x. eapply (elem_of_submseteq alphabet_encode); [apply alphabet_e_in|].
    apply sublist_submseteq, sublist_take. }
  assert (chr 61 ∈ base64_chars) as Hp by (apply (bool_decide_eq_true_1 (chr 61 ∈ base64_chars)); by vm_compute).
  induction s as [|a|a b|a b c l IH] using list_ind3; [constructor|..].
  - repeat (apply Forall_cons_2; [first [apply He|apply Hp]|]). apply Forall_nil_2.
  - repeat (apply Forall_cons_2; [first [apply He|apply Hp]|]). apply Forall_nil_2.
  - rewrite base64_text_group. apply Forall_app. split; [|done].
    repeat (apply Forall_cons_2; [apply He|]). apply Forall_nil_2.
Qed.

Lemma decode_group a b c l :
  base64_decode_loop (base64_encode_loop [a; b; c] ++ l) = a :: b :: c :: base64_decode_loop l.
Proof.
  cbn [base64_encode_loop app base64_decode_loop]. rewrite !alphabet_roundtrip.
  unfold ceq. rewrite (bool_decide_eq_false_2 (_ = chr 61)) by apply alphabet_e_pad.
  by rewrite group_byte0, group_byte1, group_byte2.
Qed.

(** The last group, with one or two bytes, ends at its padding. *)
Lemma decode_padded (s : bytes) : (length s < 3)%nat -> base64_decode_loop (base64_text s) = s.
Proof.
  destruct s as [|a [|b [|c s]]]; intros Hs; [done|..|cbn in Hs; lia]; clear Hs.
  - unfold base64_text. cbn [base64_encode_loop app zlen length].
    change (Z.rem (zlen [a]) 3 =? 1) with true. cbn [B].
    cbn [String.list_ascii_of_string app base64_decode_loop]. rewrite !alphabet_roundtrip.
    change (ceq "="%char (chr 61)) with true. cbn [take app]. f_equal.
    revert a. apply forall_chars_eq. by vm_compute.
  - unfold base64_text. cbn [base64_encode_loop app].
    change (Z.rem (zlen [a; b]) 3 =? 1) with false. change (Z.rem (zlen [a; b]) 3 =? 2) with true.
    cbn [String.list_ascii_of_string B app base64_decode_loop]. rewrite !alphabet_roundtrip.
    change (ceq "="%char (chr 61)) with true.
    unfold ceq. rewrite (bool_decide_eq_false_2 (_ = chr 61)) by apply alphabet_e_pad.
    cbn [take app]. rewrite group_byte0. do 2 f_equal.
    revert a b. apply forall_two_chars_eq. by vm_compute.
Qed.

Lemma base64_decode_text s : base64_decode_loop (base64_text s) = s.
Proof.
  induction s as [|a|a b|a b c l IH] using list_ind3; [by apply decode_padded; cbn; lia..|].
  by rewrite base64_text_group, decode_group, IH.
Qed.

Lemma base64_encode_text s :
  zlen s <= int_max int32 -> base64_encode_string s = base64_text s.
Proof.
  intros Hs. pose proof (zlen_nonneg s). unfold base64_encode_string, base64_encode.
  rewrite wrap_id by (unfold in_range; cbn in *; lia).
  rewrite take_ge by (unfold zlen; lia). done.
Qed.

Lemma base64_text_mod s : zlen (base64_text s) mod 4 = 0.
Proof. rewrite base64_text_length, Z.mul_comm. apply Z.mod_mul. lia. Qed.

Lemma base64_decode_of_text s :
  zlen s <= 1610612733 -> base64_decode (base64_text s) = Ret s.
Proof.
  intros Hs. pose proof (zlen_nonneg s). pose proof (base64_text_length s) as Hl.
  assert (0 <= (zlen s + 2) / 3 <= 536870911) as Hq.
  { split; [apply Z.div_pos; lia|apply Z.lt_succ_r, Z.div_lt_upper_bound; lia]. }
  unfold base64_decode. rewrite base64_text_mod. change (uassert 10270 (0 =? 0)) with (Ret tt : M unit).
  cbn [mbind result_bind]. rewrite (wrap_id int32) by (done || (unfold in_range; cbn; lia)).
  rewrite take_ge by (unfold zlen; lia). by rewrite base64_decode_text.
Qed.

(** ** Lemmas on hexadecimal *)

Lemma fromHex_toHex digits c :
  digits = hexchars \/ digits = hexchars_lower ->
  fromHex_pair (hexdigit digits (Z.shiftr (Z.land (schar c) 0xF0) 4))
    (hexdigit digits (Z.land (schar c) 0x0F)) = Ret c.
Proof.
  intros [-> | ->]; revert c; apply forall_chars_eq; by vm_compute.
Qed.

Lemma toHex_length digits s n :
  zlen (toHex_with digits s n) = 2 * zlen (take (Z.to_nat n) s).
Proof.
  unfold toHex_with. induction (take (Z.to_nat n) s) as [|c l IH]; [done|].
  cbn [flat_map app]. rewrite !zlen_cons. rewrite IH. lia.
Qed.

(** ** Properties *)

(** Base64: whatever is encoded is decoded to itself, as long as the lengths
    fit the [int]s they are kept in; the text is four characters for every
    group of three bytes, of the alphabet and the padding only; and [decode]
    refuses exactly the texts whose length is not a multiple of four. *)
Theorem base64_roundtrip s :
  zlen s <= 1610612733 ->
  base64_decode (base64_encode_string s) = Ret s /\
  zlen (base64_encode_string s) = 4 * ((zlen s + 2) / 3) /\
  Forall (fun c => c ∈ base64_chars) (base64_encode_string s) /\
  alphabet_test = Ret tt /\
  forall t, (exists e, base64_decode t = Throw e) <-> ~ (4 | zlen t).
Proof.
  intros Hs. pose proof (zlen_nonneg s) as H0.
  rewrite base64_encode_text by (cbn; lia). pose proof (base64_text_length s) as Hl.
  split_and!; [by apply base64_decode_of_text|done|apply base64_text_chars|by vm_compute|].
  intros t. unfold base64_decode. rewrite <-Z.mod_divide by lia.
  destruct (Z.eqb_spec (zlen t mod 4) 0); cbn; split.
  + by intros (? & ?).
  + done.
  + done.
  + intros _. by eexists.
Qed.

(** The test vectors of RFC 4648. *)
Lemma base64_roundtrip_witness :
  base64_encode_string (B "foob") = B "Zm9vYg==" /\
  base64_decode (B "Zm9vYg==") = Ret (B "foob") /\
  base64_encode_string (B "fooba") = B "Zm9vYmE=".
Proof.
  assert (zlen (B "foob") <= 1610612733) as H by (by vm_compute).
  pose proof (proj1 (base64_roundtrip (B "foob") H)) as Hr.
  split; [by vm_compute|]. split; [exact Hr|by vm_compute].
Defined.
