(* ===== verification/Oid.v ===== *)
(** * Object identifiers: bson/oid.h, bson/oid.cpp

    An [OID] is twelve bytes: a big-endian 32-bit time in seconds, five bytes
    that stand for the process, three of a counter.  The counter and the five
    bytes are the process's state; the random source that fills them is an
    argument, and so is the hash of boost. *)
From S2P Require Import Prelude StringData BsonTypes BufBuilder Bson Codec.
Local Open Scope Z_scope.

Abbreviation OID := bytes.
Definition kOIDSize : Z := 12.
Definition kTimestampSize : Z := 4.
Definition kInstanceUniqueSize : Z := 5.
Definition kIncrementSize : Z := 3.
Definition kTimestampOffset : Z := 0.
Definition kInstanceUniqueOffset : Z := kTimestampOffset + kTimestampSize.
Definition kIncrementOffset : Z := kInstanceUniqueOffset + kInstanceUniqueSize.

(** Writing and reading a block at an offset of the twelve bytes. *)
Definition write_block (oid : OID) (off : Z) (bs : bytes) : OID :=
  take (Z.to_nat off) oid ++ bs ++ drop (Z.to_nat off + length bs) oid.
Definition read_block (oid : OID) (off n : Z) : bytes :=
  take (Z.to_nat n) (drop (Z.to_nat off) oid).

(** Big-endian bytes, most significant first. *)
Definition be_bytes (n : nat) (z : Z) : bytes := reverse (le_bytes n z).
Definition be_value (bs : bytes) : Z := le_value (reverse bs).

Definition OID_ctor : OID := replicate 12 nul.
Definition OID_max : OID := replicate 12 (chr 0xFF).
Definition OID_clear (oid : OID) : OID := replicate 12 nul.
Definition OID_compare (oid other : OID) : Z := memcmp oid other.
Definition OID_isSet (oid : OID) : bool := negb (OID_compare oid OID_ctor =? 0).

Definition setTimestamp (oid : OID) (timestamp : Z) : OID :=
  write_block oid kTimestampOffset (be_bytes 4 timestamp).
Definition setInstanceUnique (oid : OID) (unique : bytes) : OID :=
  write_block oid kInstanceUniqueOffset unique.
Definition setIncrement (oid : OID) (inc : bytes) : OID := write_block oid kIncrementOffset inc.
Definition getTimestamp (oid : OID) : Z :=
  wrap int32 (be_value (read_block oid kTimestampOffset kTimestampSize)).
Definition getInstanceUnique (oid : OID) : bytes :=
  read_block oid kInstanceUniqueOffset kInstanceUniqueSize.
Definition getIncrement (oid : OID) : bytes := read_block oid kIncrementOffset kIncrementSize.

Definition asTimeT (oid : OID) : Z := getTimestamp oid.
(** [Date_t] counts milliseconds in an unsigned 64-bit integer. *)
Definition asDateT (oid : OID) : Z := wrap uint64 (asTimeT oid * 1000).
Definition OID_toString (oid : OID) : bytes := toHexLower oid kOIDSize.
Definition toIncString (oid : OID) : bytes := toHexLower (getIncrement oid) kIncrementSize.

(** The process's generator: the atomic counter and [_instanceUnique]. *)
Record generator := Generator { counter : Z; instanceUnique : bytes }.

(** [InstanceUnique::generate] from the random 64 bits it draws. *)
Definition InstanceUnique_generate (rand : Z) : bytes := take 5 (le_bytes 8 rand).
Definition OIDGeneration (rand1 rand2 : Z) : generator :=
  Generator (wrap uint32 rand1) (InstanceUnique_generate rand2).
Definition regenMachineId (g : generator) (rand : Z) : generator :=
  Generator (counter g) (InstanceUnique_generate rand).
Definition justForked : generator -> Z -> generator := regenMachineId.
Definition getMachineId (g : generator) : Z := le_value (take 4 (instanceUnique g)).

Definition Increment_next (g : generator) : bytes * generator :=
  let nextCtr := counter g in
  ([chr (Z.shiftr nextCtr 16); chr (Z.shiftr nextCtr 8); chr nextCtr],
   Generator (wrap uint32 (nextCtr + 1)) (instanceUnique g)).

(** [init()]: [now] is what [time(0)] answers. *)
Definition OID_init (oid : OID) (g : generator) (now : Z) : OID * generator :=
  let oid := setTimestamp oid (wrap int32 now) in
  let oid := setInstanceUnique oid (instanceUnique g) in
  let '(inc, g) := Increment_next g in
  (setIncrement oid inc, g).
(** [gen()]: the bytes the constructor leaves uninitialised are [o]. *)
Definition OID_gen (o : OID) (g : generator) (now : Z) : OID * generator := OID_init o g now.

(** [init(string)]; the loop reads two characters for each byte. *)
Fixpoint init_hex_loop (p : bytes) : M bytes :=
  match p with
  | c0 :: c1 :: p => c ← fromHex_pair c0 c1; rest ← init_hex_loop p; Ret (c :: rest)
  | _ => Ret []
  end.
Definition OID_init_string (s : bytes) : M OID := verify (zlen s =? 24);; init_hex_loop s.

(** [init(date, max)]. *)
Definition OID_init_date (oid : OID) (date : Z) (max : bool) : OID :=
  let oid := setTimestamp oid (wrap int32 (wrap uint32 (date / 1000))) in
  let rest := if max then 2 ^ 64 - 1 else 0 in
  write_block oid kInstanceUniqueOffset (take 8 (le_bytes 8 rest)).

(** [hash_combine] with boost's. *)
Definition OID_hash_combine (boost_hash_combine : Z -> Z -> Z) (oid : OID) (seed : Z) : Z :=
  foldl (fun seed i => boost_hash_combine seed (le_value (read_block oid i 4))) seed [0; 4; 8].
Definition OID_Hasher (boost_hash_combine : Z -> Z -> Z) (oid : OID) : Z :=
  OID_hash_combine boost_hash_combine oid 0.

(** ** Lemmas *)

Lemma be_bytes_length n z : length (be_bytes n z) = n.
Proof. unfold be_bytes. by rewrite length_reverse, le_bytes_length. Qed.

Lemma be_bytes_S n z : be_bytes (S n) z = be_bytes n (z / 256) ++ [chr z].
Proof. unfold be_bytes. cbn [le_bytes]. apply reverse_cons. Qed.

Lemma be_value_bytes n z : be_value (be_bytes n z) = z mod 256 ^ Z.of_nat n.
Proof. unfold be_value, be_bytes. by rewrite reverse_involutive, le_value_bytes. Qed.

Lemma memcmp_app a a' b b' :
  length a = length b ->
  memcmp (a ++ a') (b ++ b') = if memcmp a b =? 0 then memcmp a' b' else memcmp a b.
Proof.
  revert b. induction a as [|x a IH]; intros [|y b] Hl; try done.
  cbn [app memcmp]. unfold ceq. case_bool_decide as E.
  - apply IH. by injection Hl.
  - pose proof (inj_iff uchar x y). destruct (Z.eqb_spec (uchar x - uchar y) 0); [|done].
    exfalso. apply E. apply (inj uchar). lia.
Qed.

Lemma le_bytes_congr n a b :
  le_bytes n a = le_bytes n b <-> a mod 256 ^ Z.of_nat n = b mod 256 ^ Z.of_nat n.
Proof.
  assert (forall z, le_bytes n (z mod 256 ^ Z.of_nat n) = le_bytes n z) as Hm.
  { intros z. rewrite <-le_value_bytes, <-(le_bytes_length n z) at 1. apply le_bytes_value. }
  split; intros E.
  - rewrite <-!le_value_bytes. by rewrite E.
  - rewrite <-(Hm a), <-(Hm b). by rewrite E.
Qed.

Lemma be_bytes_congr n a b :
  be_bytes n a = be_bytes n b <-> a mod 256 ^ Z.of_nat n = b mod 256 ^ Z.of_nat n.
Proof.
  rewrite <-le_bytes_congr. unfold be_bytes. split; [apply (inj reverse)|congruence].
Qed.

(** The order of big-endian bytes is that of the numbers. *)
Lemma memcmp_be_lt n a b :
  memcmp (be_bytes n a) (be_bytes n b) < 0 <->
  a mod 256 ^ Z.of_nat n < b mod 256 ^ Z.of_nat n.
Proof.
  revert a b. induction n as [|n IH]; intros a b.
  { change (256 ^ Z.of_nat 0) with 1. rewrite !Z.mod_1_r. done. }
  rewrite !be_bytes_S, memcmp_app by (by rewrite !be_bytes_length).
  specialize (IH (a / 256) (b / 256)).
  pose proof (memcmp_zero (be_bytes n (a / 256)) (be_bytes n (b / 256))
    ltac:(by rewrite !be_bytes_length)) as H0.
  rewrite be_bytes_congr in H0.
  assert (0 < 256 ^ Z.of_nat n) as Hp by lia.
  rewrite !Nat2Z.inj_succ, !Z.pow_succ_r, !(Z.rem_mul_r _ 256) by lia.
  pose proof (uchar_chr a) as Ha. pose proof (uchar_chr b) as Hb.
  pose proof (Z.mod_pos_bound a 256 ltac:(lia)). pose proof (Z.mod_pos_bound b 256 ltac:(lia)).
  destruct (Z.eqb_spec (memcmp (be_bytes n (a / 256)) (be_bytes n (b / 256))) 0) as [E|E].
  - cbn [memcmp]. unfold ceq. apply H0 in E. case_bool_decide as Ec.
    + rewrite Ec in Ha. lia.
    + rewrite Ha, Hb. lia.
  - nia.
Qed.

(** The three parts in one block. *)
Definition layout (ts : Z) (unique : bytes) (inc : Z) : OID :=
  be_bytes 4 ts ++ unique ++ be_bytes 3 inc.

(** Take apart the lists of known length. *)
Ltac explode :=
  repeat match goal with
  | H : length ?l = S _ |- _ => destruct l; [discriminate H|injection H as H]
  | H : length ?l = 0%nat |- _ => apply nil_length_inv in H; subst l
  end.

Lemma set_parts oid ts unique inc :
  length oid = 12%nat -> length unique = 5%nat -> length inc = 3%nat ->
  setIncrement (setInstanceUnique (setTimestamp oid ts) unique) inc
    = be_bytes 4 ts ++ unique ++ inc.
Proof.
  intros Ho Hu Hi. pose proof (be_bytes_length 4 ts) as Hb. revert Hb.
  unfold setTimestamp. generalize (be_bytes 4 ts). intros b Hb. explode. done.
Qed.

Lemma Increment_next_bytes g : (Increment_next g).1 = be_bytes 3 (counter g).
Proof.
  unfold Increment_next. cbn [fst]. rewrite !be_bytes_S, !Z.shiftr_div_pow2 by lia.
  change (2 ^ 16) with (256 * 256). change (2 ^ 8) with 256.
  by rewrite <-(Z.div_div (counter g) 256 256) by lia.
Qed.

Lemma wrap_congr t z : 0 < width t -> wrap t z mod 2 ^ width t = z mod 2 ^ width t.
Proof.
  intros Hw. assert (0 < 2 ^ width t) by (apply Z.pow_pos_nonneg; lia).
  unfold wrap. destruct (_ && _); [|by apply Z.mod_mod; lia].
  rewrite Zminus_mod, Z.mod_same, Z.mod_mod by lia. rewrite Z.sub_0_r. apply Z.mod_mod. lia.
Qed.

Lemma OID_init_layout oid g now :
  length oid = 12%nat -> length (instanceUnique g) = 5%nat ->
  OID_init oid g now = (layout now (instanceUnique g) (counter g),
    Generator (wrap uint32 (counter g + 1)) (instanceUnique g)).
Proof.
  intros Ho Hu. unfold OID_init. pose proof (Increment_next_bytes g) as Hi.
  destruct (Increment_next g) as [inc g'] eqn:E. cbn [fst] in Hi. subst inc.
  rewrite set_parts by (done || apply be_bytes_length). f_equal.
  - unfold layout. f_equal. apply be_bytes_congr. apply (wrap_congr int32). done.
  - apply (f_equal snd) in E. symmetry. exact E.
Qed.

Lemma layout_inj u ta ca tb cb :
  layout ta u ca = layout tb u cb <->
  ta mod 2 ^ 32 = tb mod 2 ^ 32 /\ ca mod 2 ^ 24 = cb mod 2 ^ 24.
Proof.
  pose proof (be_bytes_congr 4 ta tb) as Ht. pose proof (be_bytes_congr 3 ca cb) as Hc.
  change (256 ^ Z.of_nat 4) with (2 ^ 32) in *. change (256 ^ Z.of_nat 3) with (2 ^ 24) in *.
  rewrite <-Ht, <-Hc. unfold layout. split; [|by intros [-> ->]].
  intros E. apply app_inj_1 in E as [-> E]; [|by rewrite !be_bytes_length].
  by apply app_inv_head in E.
Qed.

(** The OIDs one process generates, call after call: what the memory holds and
    what the clock shows at each. *)
Fixpoint generated (g : generator) (calls : list (OID * Z)) : list OID :=
  match calls with
  | [] => []
  | (o, now) :: calls => let '(oid, g) := OID_gen o g now in oid :: generated g calls
  end.

Lemma generated_lookup g calls i :
  length (instanceUnique g) = 5%nat -> Forall (fun c => length c.1 = 12%nat) calls ->
  generated g calls !! i
    = (fun c => layout c.2 (instanceUnique g) (counter g + Z.of_nat i)) <$> calls !! i.
Proof.
  intros Hu Hc. revert g i Hu. induction Hc as [|[o now] calls Ho Hc IH]; intros g i Hu; [done|].
  cbn [generated]. unfold OID_gen. rewrite OID_init_layout by done.
  destruct i as [|i]; cbn [lookup list_lookup].
  - cbn. by rewrite Z.add_0_r.
  - rewrite IH by done. cbn [instanceUnique counter].
    destruct (calls !! i) as [c|]; [|done]. cbn [fmap option_fmap option_map]. f_equal.
    apply layout_inj. split; [done|].
    rewrite (Z.add_mod (wrap _ _)), (Z.add_mod (counter g)) by lia.
    replace (wrap uint32 (counter g + 1) mod 2 ^ 24) with ((counter g + 1) mod 2 ^ 24).
    + rewrite <-!Z.add_mod by lia. f_equal. lia.
    + unfold wrap. cbn [is_signed uint32 andb width].
      change (2 ^ 32) with (2 ^ 24 * 2 ^ 8). rewrite Z.rem_mul_r by lia.
      rewrite Z.mul_comm, Z.mod_add by lia. by rewrite Z.mod_mod by lia.
Qed.

(** The order of two OIDs of one process, and their equality. *)
Lemma layout_compare u ta ca tb cb :
  OID_compare (layout ta u ca) (layout tb u cb) < 0 <->
  ta mod 2 ^ 32 < tb mod 2 ^ 32 \/
  (ta mod 2 ^ 32 = tb mod 2 ^ 32 /\ ca mod 2 ^ 24 < cb mod 2 ^ 24).
Proof.
  unfold OID_compare, layout. rewrite memcmp_app by (by rewrite !be_bytes_length).
  pose proof (memcmp_be_lt 4 ta tb) as Ht. pose proof (memcmp_be_lt 3 ca cb) as Hc.
  pose proof (memcmp_zero (be_bytes 4 ta) (be_bytes 4 tb)
    ltac:(by rewrite !be_bytes_length)) as H0.
  rewrite be_bytes_congr in H0.
  change (256 ^ Z.of_nat 4) with (2 ^ 32) in *. change (256 ^ Z.of_nat 3) with (2 ^ 24) in *.
  destruct (Z.eqb_spec (memcmp (be_bytes 4 ta) (be_bytes 4 tb)) 0) as [E|E].
  - rewrite memcmp_app, memcmp_refl, Hc by done. cbn [Z.eqb]. apply H0 in E. lia.
  - rewrite Ht. lia.
Qed.

Lemma mod_add_eq c i j n :
  0 < n -> (c + i) mod n = (c + j) mod n <-> (n | j - i).
Proof.
  intros Hn. replace (j - i) with ((c + j) - (c + i)) by lia.
  generalize (c + i) (c + j). clear c i j. intros x y.
  rewrite <-Z.mod_divide by lia. rewrite Zminus_mod.
  pose proof (Z.mod_pos_bound x n Hn). pose proof (Z.mod_pos_bound y n Hn).
  split; [intros ->; by rewrite Z.sub_diag|]. intros E.
  apply Z.mod_divide in E as [q Hq]; [|lia].
  assert (q < 1) by nia. assert (-1 < q) by nia. assert (q = 0) by lia. subst q. lia.
Qed.

(** Reading an OID back from its text. *)
Lemma init_hex_toHex oid :
  init_hex_loop (toHex_with hexchars_lower oid (zlen oid)) = Ret oid.
Proof.
  unfold toHex_with, zlen. rewrite Nat2Z.id, firstn_all.
  induction oid as [|c oid IH]; [done|]. cbn [flat_map app init_hex_loop].
  rewrite fromHex_toHex by (by right). cbn [mbind result_bind]. by rewrite IH.
Qed.

Lemma OID_text_roundtrip oid :
  length oid = 12%nat -> OID_init_string (OID_toString oid) = Ret oid.
Proof.
  intros Ho. unfold OID_init_string, OID_toString, toHexLower, kOIDSize.
  rewrite toHex_length. unfold zlen. rewrite take_ge by (rewrite Ho; done). rewrite Ho.
  change (2 * Z.of_nat 12 =? 24) with true. cbn [verify guard_throw mbind result_bind].
  change 12 with (Z.of_nat 12). rewrite <-Ho. apply init_hex_toHex.
Qed.

(** The least and the greatest OID of a second. *)
Lemma OID_init_date_layout oid date (max : bool) :
  length oid = 12%nat ->
  OID_init_date oid date max
    = be_bytes 4 (date / 1000) ++ replicate 8 (if max then chr 255 else chr 0).
Proof.
  intros Ho. unfold OID_init_date, setTimestamp, write_block.
  replace (be_bytes 4 (wrap int32 (wrap uint32 (date / 1000)))) with (be_bytes 4 (date / 1000)).
  - pose proof (be_bytes_length 4 (date / 1000)) as Hb. revert Hb.
    generalize (be_bytes 4 (date / 1000)). intros b Hb. explode. by destruct max.
  - apply be_bytes_congr. change (256 ^ Z.of_nat 4) with (2 ^ 32).
    symmetry. rewrite (wrap_congr int32) by done. by apply (wrap_congr uint32).
Qed.

Lemma memcmp_zeros l n : length l = n -> memcmp (replicate n (chr 0)) l <= 0.
Proof.
  intros <-. induction l as [|x l IH]; [done|]. cbn [length replicate memcmp].
  destruct (ceq _ _); [done|]. pose proof (uchar_range x).
  change (uchar (chr 0)) with 0. lia.
Qed.
Lemma memcmp_ones l n : length l = n -> memcmp l (replicate n (chr 255)) <= 0.
Proof.
  intros <-. induction l as [|x l IH]; [done|]. cbn [length replicate memcmp].
  destruct (ceq _ _); [done|]. pose proof (uchar_range x).
  change (uchar (chr 255)) with 255. lia.
Qed.

Lemma layout_date u ts c oid date :
  length oid = 12%nat -> length u = 5%nat ->
  (OID_compare (OID_init_date oid date false) (layout ts u c) <= 0 /\
   OID_compare (layout ts u c) (OID_init_date oid date true) <= 0 <->
   date / 1000 mod 2 ^ 32 = ts mod 2 ^ 32).
Proof.
  intros Ho Hu. rewrite !OID_init_date_layout by done. unfold OID_compare, layout.
  rewrite !memcmp_app by (by rewrite !be_bytes_length).
  pose proof (memcmp_antisym (be_bytes 4 (date / 1000)) (be_bytes 4 ts)) as Ha.
  pose proof (memcmp_be_lt 4 (date / 1000) ts) as H1.
  pose proof (memcmp_be_lt 4 ts (date / 1000)) as H2.
  change (256 ^ Z.of_nat 4) with (2 ^ 32) in *.
  assert (length (u ++ be_bytes 3 c) = 8%nat) as Hl by (by rewrite length_app, Hu, be_bytes_length).
  pose proof (memcmp_zeros _ _ Hl). pose proof (memcmp_ones _ _ Hl).
  destruct (Z.eqb_spec (memcmp (be_bytes 4 (date / 1000)) (be_bytes 4 ts)) 0);
  destruct (Z.eqb_spec (memcmp (be_bytes 4 ts) (be_bytes 4 (date / 1000))) 0); lia.
Qed.

(** ** Properties *)

(** The OIDs a process generates, in any number of calls and whatever the
    clock shows.  Two of them are equal exactly when their seconds agree modulo
    [2^32] and a multiple of [2^24] calls lies between them; they are ordered
    by the second read as unsigned and then by the counter; each lies between
    the least and the greatest OID of a date exactly when the date is in its
    second; and each is read back from its 24 hexadecimal digits, with its
    second and its process. *)
Theorem OID_generation g calls i j oi oj ci cj :
  length (instanceUnique g) = 5%nat -> Forall (fun c => length c.1 = 12%nat) calls ->
  generated g calls !! i = Some oi -> calls !! i = Some ci ->
  generated g calls !! j = Some oj -> calls !! j = Some cj ->
  let seconds := fun c : OID * Z => c.2 mod 2 ^ 32 in
  let count := fun k => (counter g + Z.of_nat k) mod 2 ^ 24 in
  (oi = oj <-> seconds ci = seconds cj /\ (2 ^ 24 | Z.of_nat j - Z.of_nat i)) /\
  (OID_compare oi oj < 0 <->
     seconds ci < seconds cj \/ (seconds ci = seconds cj /\ count i < count j)) /\
  (forall o date, length o = 12%nat ->
     OID_compare (OID_init_date o date false) oi <= 0 /\
     OID_compare oi (OID_init_date o date true) <= 0 <->
     date / 1000 mod 2 ^ 32 = seconds ci) /\
  OID_init_string (OID_toString oi) = Ret oi /\
  getTimestamp oi = wrap int32 ci.2 /\ getInstanceUnique oi = instanceUnique g.
Proof.
  intros Hu Hc Hi Hci Hj Hcj seconds count.
  rewrite generated_lookup in Hi, Hj by done. rewrite Hci in Hi. rewrite Hcj in Hj.
  injection Hi as <-. injection Hj as <-. split_and!.
  - rewrite layout_inj. by rewrite mod_add_eq.
  - apply layout_compare.
  - intros. by apply layout_date.
  - apply OID_text_roundtrip. unfold layout. by rewrite !length_app, !be_bytes_length, Hu.
  - unfold getTimestamp. replace (read_block _ _ _) with (be_bytes 4 ci.2).
    + rewrite be_value_bytes. change (256 ^ Z.of_nat 4) with (2 ^ width int32).
      unfold wrap. by rewrite Z.mod_mod.
    + unfold layout, read_block. pose proof (be_bytes_length 4 ci.2) as Hb. revert Hb.
      generalize (be_bytes 4 ci.2). intros. explode. done.
  - unfold layout, getInstanceUnique, read_block.
    pose proof (be_bytes_length 4 ci.2) as Hb. revert Hb Hu.
    generalize (be_bytes 4 ci.2) (instanceUnique g). intros. explode. done.
Qed.

(** Two calls within a second, the counter about to wrap. *)
Lemma OID_generation_witness :
  let g := Generator 0x00FFFFFF (B "hosts") in
  let calls := [(OID_ctor, 1400000000); (OID_max, 1400000000)] in
  exists oi oj, generated g calls !! 0%nat = Some oi /\ generated g calls !! 1%nat = Some oj /\
    OID_toString oi = B "53724e00686f737473ffffff" /\
    OID_toString oj = B "53724e00686f737473000000" /\
    oi <> oj /\ ~ OID_compare oi oj < 0.
Proof.
  intros g calls. destruct (generated g calls !! 0%nat) as [oi|] eqn:Ei; [|done].
  destruct (generated g calls !! 1%nat) as [oj|] eqn:Ej; [|done].
  exists oi, oj. split_and!; [done|done| | | |].
  - vm_compute in Ei. injection Ei as <-. by vm_compute.
  - vm_compute in Ej. injection Ej as <-. by vm_compute.
  - pose proof (OID_generation g calls 0 1 oi oj (OID_ctor, 1400000000) (OID_max, 1400000000)
      eq_refl ltac:(repeat constructor) Ei eq_refl Ej eq_refl) as (He & _).
    intros E. apply He in E as [_ [q Hq]]. lia.
  - pose proof (OID_generation g calls 0 1 oi oj (OID_ctor, 1400000000) (OID_max, 1400000000)
      eq_refl ltac:(repeat constructor) Ei eq_refl Ej eq_refl) as (_ & Ho & _).
    intros E. apply Ho in E. revert E. vm_compute. intros [?|[_ ?]]; discriminate.
Defined.
