(* ===== verification/BsonCompare.v ===== *)
(** * The order of BSON values: bson/bsonelement.cpp, bson/bsonobj.cpp,
    bson/ordering.h

    [compareElementValues], [woCompare] of elements and of objects, with and
    without an index key or an [Ordering], on the view of the documents as lists
    of elements.  The reference order is the lexicographic order of integer
    keys ([value_key], [element_key], [obj_key]). *)
From S2P Require Import Prelude StringData BsonTypes BufBuilder Bson.
Local Open Scope Z_scope.

(** [strcmp] on C strings, as the difference of the first bytes that differ. *)
Definition strcmp (a b : bytes) : Z := memcmp (a ++ [nul]) (b ++ [nul]).

Definition canonicalType (v : bson_value) : Z := canonicalizeBSONType (value_type v).

Definition isNumber (v : bson_value) : bool :=
  match v with VNumberLong _ | VNumberDouble _ | VNumberInt _ => true | _ => false end.

(** [number() < 0]: conversion to double keeps the sign. *)
Definition number_negative (v : bson_value) : bool :=
  match v with
  | VNumberInt n | VNumberLong n => n <? 0
  | VNumberDouble bits => double_lt (double_of_bits bits) (Finite 0)
  | _ => false
  end.

(** [date()] of a timestamp: its eight bytes as one unsigned integer. *)
Definition timestamp_date (increment seconds : Z) : Z := seconds * 2 ^ 32 + increment.

(** The iterator of the index key: after the final EOO it must not be advanced. *)
Definition key_next (k : option BSONObj) : M (BSONElement * option BSONObj) :=
  match k with
  | None => Throw EVerify
  | Some [] => Ret (eooElement, None)
  | Some (e :: k') => Ret (e, Some k')
  end.

Section with_compare.
Context (cmp : bson_value -> bson_value -> M Z).

Definition element_woCompare_with (considerFieldName : bool) (l r : BSONElement) : M Z :=
  let x := canonicalType l.2 - canonicalType r.2 in
  if negb (x =? 0) && (negb (isNumber l.2) || negb (isNumber r.2)) then Ret x
  else
    let x := strcmp l.1 r.1 in
    if considerFieldName && negb (x =? 0) then Ret x
    else cmp l.2 r.2.

(** The loop of [woCompare(r, idxKey, considerFieldName)]. *)
Fixpoint woCompare_loop (considerFieldName ordered : bool) (i j : list (bytes * bson_value))
    (k : option BSONObj) : M Z :=
  '(o, k) ← (if ordered then key_next k else Ret (eooElement, k));
  match i, j with
  | [], [] => Ret 0
  | [], _ :: _ => Ret (-1)
  | _ :: _, [] => Ret 1
  | l :: i', r :: j' =>
      x ← element_woCompare_with considerFieldName l r;
      let x := if ordered && number_negative o.2 then - x else x in
      if negb (x =? 0) then Ret x
      else woCompare_loop considerFieldName ordered i' j' k
  end.

Definition obj_woCompare_with (considerFieldName : bool) (a b idxKey : BSONObj) : M Z :=
  match a, b with
  | [], [] => Ret 0
  | [], _ => Ret (-1)
  | _, [] => Ret 1
  | _, _ => woCompare_loop considerFieldName (negb (bool_decide (idxKey = []))) a b (Some idxKey)
  end.
End with_compare.

Definition sign_of (f : Z) : Z := if f <? 0 then -1 else if f =? 0 then 0 else 1.

Global Instance bson_value_eq_dec_nil (o : BSONObj) : Decision (o = []).
Proof. destruct o; [by left|by right]. Defined.

(** Values whose types agree up to the canonical type; the [default] branches
    and the reads of a value as a type it does not have are never reached. *)
Fixpoint compareElementValues (l r : bson_value) : M Z :=
  match l with
  | VEOO | VUndefined | VjstNULL | VMaxKey | VMinKey =>
      Ret (sign_of (canonicalType l - canonicalType r))
  | VBool a => match r with VBool b => Ret (schar a - schar b) | _ => Throw EUndefined end
  | VTimestamp ai as_ =>
      match r with
      | VTimestamp bi bs =>
          let a := timestamp_date ai as_ in
          let b := timestamp_date bi bs in
          Ret (if a <? b then -1 else if a =? b then 0 else 1)
      | _ => Throw EUndefined
      end
  | VDate a =>
      match r with
      | VDate b =>
          let a := wrap int64 a in
          let b := wrap int64 b in
          Ret (if a <? b then -1 else if a =? b then 0 else 1)
      | _ => Throw (EMassert 13111)
      end
  | VNumberInt a =>
      match r with
      | VNumberInt b => Ret (compareInts a b)
      | VNumberLong b => Ret (compareLongs a b)
      | VNumberDouble b => Ret (compareDoubles (long_to_double a) (double_of_bits b))
      | _ => Throw EInvariant
      end
  | VNumberLong a =>
      match r with
      | VNumberLong b => Ret (compareLongs a b)
      | VNumberInt b => Ret (compareLongs a b)
      | VNumberDouble b => Ret (compareLongToDouble a (double_of_bits b))
      | _ => Throw EInvariant
      end
  | VNumberDouble a =>
      match r with
      | VNumberDouble b => Ret (compareDoubles (double_of_bits a) (double_of_bits b))
      | VNumberInt b => Ret (compareDoubles (double_of_bits a) (long_to_double b))
      | VNumberLong b => Ret (compareDoubleToLong (double_of_bits a) b)
      | _ => Throw EInvariant
      end
  | VjstOID a => match r with VjstOID b => Ret (memcmp a b) | _ => Throw EUndefined end
  | VCode a | VSymbol a | VString a =>
      match r with
      | VCode b | VSymbol b | VString b =>
          let lsz := zlen a + 1 in
          let rsz := zlen b + 1 in
          let res := memcmp (a ++ [nul]) (b ++ [nul]) in
          Ret (if negb (res =? 0) then res else lsz - rsz)
      | _ => Throw EUndefined
      end
  | VObject a | VArray a =>
      match r with
      | VObject b | VArray b => obj_woCompare_with compareElementValues true a b []
      | _ => Throw EVerify
      end
  | VDBRef _ _ =>
      match r with
      | VDBRef _ _ =>
          let lsz := zlen (encode_value l) in
          let rsz := zlen (encode_value r) in
          if negb (lsz - rsz =? 0) then Ret (lsz - rsz)
          else Ret (memcmp (encode_value l) (encode_value r))
      | _ => Throw EUndefined
      end
  | VBinData sa a =>
      match r with
      | VBinData sb b =>
          let lsz := zlen a in
          let rsz := zlen b in
          if negb (lsz - rsz =? 0) then Ret (lsz - rsz)
          else Ret (memcmp (sa :: a) (sb :: b))
      | _ => Throw EUndefined
      end
  | VRegEx ra fa =>
      match r with
      | VRegEx rb fb =>
          let c := strcmp ra rb in
          if negb (c =? 0) then Ret c else Ret (strcmp fa fb)
      | _ => Throw EVerify
      end
  | VCodeWScope ca a =>
      match r with
      | VCodeWScope cb b =>
          let c := StringData_compare ca cb in
          if negb (c =? 0) then Ret c
          else obj_woCompare_with compareElementValues true a b []
      | _ => Throw (EMassert 16177)
      end
  end.

Definition BSONElement_woCompare (considerFieldName : bool) : BSONElement -> BSONElement -> M Z :=
  element_woCompare_with compareElementValues considerFieldName.
Definition BSONElement_eq (l r : BSONElement) : M bool :=
  x ← BSONElement_woCompare true l r; Ret (x =? 0).
Definition BSONObj_woCompare (considerFieldName : bool) (a b idxKey : BSONObj) : M Z :=
  obj_woCompare_with compareElementValues considerFieldName a b idxKey.

(** ** Ordering *)

(** One bit per field, set for a descending one; bit [n] of an [unsigned]. *)
Fixpoint Ordering_make_loop (k : BSONObj) (n b : Z) : M Z :=
  match k with
  | [] => Ret b
  | e :: k' =>
      uassert 13103 (n <=? 31);;
      let b := if number_negative e.2 then Z.lor b (2 ^ n) else b in
      Ordering_make_loop k' (n + 1) b
  end.
Definition Ordering_make (obj : BSONObj) : M Z := Ordering_make_loop obj 0 0.
Definition Ordering_get (bits i : Z) : Z := if negb (Z.land (2 ^ i) bits =? 0) then -1 else 1.
Definition Ordering_descending (bits mask : Z) : Z := Z.land bits mask.

Fixpoint woCompare_ordering_loop (bits : Z) (considerFieldName : bool)
    (i j : BSONObj) (mask : Z) : M Z :=
  match i, j with
  | [], [] => Ret 0
  | [], _ :: _ => Ret (-1)
  | _ :: _, [] => Ret 1
  | l :: i', r :: j' =>
      x ← BSONElement_woCompare considerFieldName l r;
      let x := if negb (Ordering_descending bits mask =? 0) then - x else x in
      if negb (x =? 0) then Ret x
      else woCompare_ordering_loop bits considerFieldName i' j' (wrap uint32 (Z.shiftl mask 1))
  end.
Definition BSONObj_woCompare_ordering (bits : Z) (considerFieldName : bool) (a b : BSONObj) : M Z :=
  match a, b with
  | [], [] => Ret 0
  | [], _ => Ret (-1)
  | _, [] => Ret 1
  | _, _ => woCompare_ordering_loop bits considerFieldName a b 1
  end.

(** ** The reference order *)

(** Bytes, closed by a number below every byte. *)
Definition bytes_key (s : bytes) : list Z := (uchar <$> s) ++ [-1].
Definition num_pair (k : Z * Z) : list Z := [k.1; k.2].
(** A number below every canonical type closes an object. *)
Definition end_key : Z := -1000.

Fixpoint value_key (v : bson_value) : list Z :=
  let elements_key := fix elements_key (o : list (bytes * bson_value)) : list Z :=
    match o with
    | [] => [end_key]
    | (n, v) :: o' => canonicalType v :: bytes_key n ++ value_key v ++ elements_key o'
    end in
  match v with
  | VEOO | VUndefined | VjstNULL | VMaxKey | VMinKey => []
  | VBool b => [schar b]
  | VTimestamp i s => [timestamp_date i s]
  | VDate m => [wrap int64 m]
  | VNumberInt n | VNumberLong n => num_pair (long_key n)
  | VNumberDouble b => num_pair (num_key (double_of_bits b))
  | VjstOID oid => uchar <$> oid
  | VString s | VCode s | VSymbol s => bytes_key s
  | VObject o | VArray o => elements_key o
  | VDBRef ns oid => let e := encode_string ns ++ oid in zlen e :: (uchar <$> e)
  | VBinData subtype data => zlen data :: (uchar <$> subtype :: data)
  | VRegEx r f => bytes_key r ++ bytes_key f
  | VCodeWScope c o => bytes_key c ++ elements_key o
  end.
Definition element_key (considerFieldName : bool) (e : BSONElement) : list Z :=
  canonicalType e.2 :: (if considerFieldName then bytes_key e.1 else []) ++ value_key e.2.
Fixpoint obj_key (considerFieldName : bool) (o : BSONObj) : list Z :=
  match o with
  | [] => [end_key]
  | e :: o' => element_key considerFieldName e ++ obj_key considerFieldName o'
  end.

Fixpoint lexZ (a b : list Z) : Z :=
  match a, b with
  | [], [] => 0
  | [], _ :: _ => -1
  | _ :: _, [] => 1
  | x :: a', y :: b' => if x <? y then -1 else if y <? x then 1 else lexZ a' b'
  end.

(** ** Keys and comparisons

    [keyed f a b]: the sign of [f] is the order of the keys [a] and [b], and
    where [f] is zero the keys are of the same extent, whatever follows them. *)
Definition keyed (f : Z) (a b : list Z) : Prop :=
  forall s t, lexZ (a ++ s) (b ++ t) = if f =? 0 then lexZ s t else sign_of f.

Lemma keyed_nil : keyed 0 [] [].
Proof. done. Qed.

Lemma keyed_then f g a b a' b' :
  keyed f a b -> keyed g a' b' -> keyed (if negb (f =? 0) then f else g) (a ++ a') (b ++ b').
Proof.
  intros Hf Hg s t. rewrite <-!app_assoc, Hf. destruct (f =? 0) eqn:E; cbn [negb].
  - apply Hg.
  - by rewrite E.
Qed.

Lemma keyed_one f x y :
  (f < 0 <-> x < y) -> (f = 0 <-> x = y) -> keyed f [x] [y].
Proof.
  intros H1 H2 s t. cbn. unfold sign_of.
  destruct (x <? y) eqn:E1, (y <? x) eqn:E2, (f =? 0) eqn:E3, (f <? 0) eqn:E4; lia.
Qed.

Lemma keyed_diff x y : keyed (x - y) [x] [y].
Proof. apply keyed_one; lia. Qed.

Lemma keyed_sign f a b : (forall s t, lexZ (a ++ s) (b ++ t) = if f =? 0 then lexZ s t else sign_of f) ->
  keyed (sign_of f) a b.
Proof.
  intros H s t. rewrite H. unfold sign_of.
  destruct (f <? 0) eqn:E1, (f =? 0) eqn:E2; cbn; try done; lia.
Qed.

Lemma keyed_pair a b : keyed (key_cmp a b) (num_pair a) (num_pair b).
Proof.
  intros s t. unfold num_pair, key_cmp. cbn [app lexZ]. cmp_cases; cbn; done || lia.
Qed.

(** [memcmp] on blocks of one length. *)
Lemma keyed_memcmp x y : length x = length y -> keyed (memcmp x y) (uchar <$> x) (uchar <$> y).
Proof.
  revert y. induction x as [|a x IH]; intros [|b y] Hl; try done.
  injection Hl as Hl. intros s t. cbn. case_ceq.
  - rewrite Z.ltb_irrefl. by apply IH.
  - assert (uchar a <> uchar b) by (intros ?; by apply (inj uchar) in H).
    unfold sign_of. cmp_cases; lia.
Qed.

(** [memcmp] on terminated strings, the longer one last. *)
Lemma uchar_nul : uchar nul = 0.
Proof. done. Qed.

Lemma uchar_nz c : c <> nul -> 0 < uchar c.
Proof.
  intros Hc. pose proof (uchar_range c). assert (uchar c <> 0); [|lia].
  rewrite <-uchar_nul. intros ?%(inj uchar). done.
Qed.

Lemma keyed_string x y :
  keyed (if negb (memcmp (x ++ [nul]) (y ++ [nul]) =? 0) then memcmp (x ++ [nul]) (y ++ [nul])
         else (zlen x + 1) - (zlen y + 1)) (bytes_key x) (bytes_key y).
Proof.
  revert y. induction x as [|a x IH]; intros [|b y]; intros s t; unfold bytes_key.
  - cbn. done.
  - pose proof (uchar_range b). pose proof (zlen_nonneg y). cbn [fmap list_fmap app lexZ memcmp].
    replace (-1 <? uchar b) with true by lia. change (zlen (@nil char)) with 0. rewrite zlen_cons.
    destruct (decide (b = nul)) as [->|Hb].
    + rewrite ceq_refl. unfold sign_of.
      replace (memcmp [] (y ++ [nul])) with 0 by done. cbn [negb Z.eqb].
      replace (0 + 1 - (1 + zlen y + 1) =? 0) with false by lia.
      by replace (_ <? 0) with true by lia.
    + rewrite (proj2 (ceq_false nul b)) by done. apply uchar_nz in Hb. rewrite uchar_nul.
      replace (0 - uchar b =? 0) with false by lia. cbn [negb]. unfold sign_of.
      replace (0 - uchar b =? 0) with false by lia.
      by replace (0 - uchar b <? 0) with true by lia.
  - pose proof (uchar_range a). pose proof (zlen_nonneg x). cbn [fmap list_fmap app lexZ memcmp].
    replace (uchar a <? -1) with false by lia. replace (-1 <? uchar a) with true by lia.
    change (zlen (@nil char)) with 0. rewrite zlen_cons.
    destruct (decide (a = nul)) as [->|Ha].
    + rewrite ceq_refl. unfold sign_of.
      replace (memcmp (x ++ [nul]) []) with 0 by (by destruct x). cbn [negb Z.eqb].
      replace (1 + zlen x + 1 - (0 + 1) =? 0) with false by lia.
      by replace (_ <? 0) with false by lia.
    + rewrite (proj2 (ceq_false a nul)) by done. apply uchar_nz in Ha. rewrite uchar_nul.
      replace (uchar a - 0 =? 0) with false by lia. cbn [negb]. unfold sign_of.
      replace (uchar a - 0 =? 0) with false by lia.
      by replace (uchar a - 0 <? 0) with false by lia.
  - cbn [fmap list_fmap app lexZ memcmp]. rewrite !zlen_cons. destruct (decide (a = b)) as [->|Hne].
    + rewrite ceq_refl, Z.ltb_irrefl.
      replace (1 + zlen x + 1 - (1 + zlen y + 1)) with (zlen x + 1 - (zlen y + 1)) by lia.
      apply IH.
    + rewrite (proj2 (ceq_false a b)) by done.
      assert (uchar a <> uchar b) by (intros ?; by apply Hne, (inj uchar)).
      assert ((uchar a - uchar b =? 0) = false) as E by lia. rewrite E. cbn [negb]. rewrite E.
      unfold sign_of. cmp_cases; lia.
Qed.

(** On strings without a zero byte [strcmp] needs no length. *)
Lemma strcmp_nonzero x y :
  nul ∉ x -> nul ∉ y -> strcmp x y = 0 -> x = y.
Proof.
  unfold strcmp. revert y. induction x as [|a x IH]; intros [|b y] Hx Hy; cbn; try done.
  - rewrite not_elem_of_cons in Hy. destruct Hy as [Hb _].
    rewrite (proj2 (ceq_false nul b)) by done. pose proof (uchar_nz b ltac:(done)).
    rewrite uchar_nul. lia.
  - rewrite not_elem_of_cons in Hx. destruct Hx as [Ha _].
    rewrite (proj2 (ceq_false a nul)) by done. pose proof (uchar_nz a ltac:(done)).
    rewrite uchar_nul. lia.
  - rewrite not_elem_of_cons in Hx, Hy. case_ceq.
    + intros ?%IH; [by subst|tauto..].
    + intros ?. assert (uchar a = uchar b) as E by lia. by apply (inj uchar) in E.
Qed.

Lemma keyed_strcmp x y :
  nul ∉ x -> nul ∉ y -> keyed (strcmp x y) (bytes_key x) (bytes_key y).
Proof.
  intros Hx Hy s t. rewrite (keyed_string x y s t). fold (strcmp x y).
  destruct (strcmp x y =? 0) eqn:E; cbn [negb]; [|by rewrite E].
  apply Z.eqb_eq, strcmp_nonzero in E; [|done..]. subst.
  by replace (zlen y + 1 - (zlen y + 1)) with 0 by lia.
Qed.

Lemma keyed_StringData x y : keyed (StringData_compare x y) (bytes_key x) (bytes_key y).
Proof.
  rewrite compare_lex_aux. revert y. induction x as [|a x IH]; intros [|b y]; intros s t;
    unfold bytes_key; cbn [fmap list_fmap app lexZ lex].
  - done.
  - pose proof (uchar_range b). by replace (-1 <? uchar b) with true by lia.
  - pose proof (uchar_range a). replace (uchar a <? -1) with false by lia.
    by replace (-1 <? uchar a) with true by lia.
  - destruct (Z.compare_spec (uchar a) (uchar b)) as [->|Hlt|Hgt].
    + rewrite Z.ltb_irrefl. apply IH.
    + by replace (uchar a <? uchar b) with true by lia.
    + replace (uchar a <? uchar b) with false by lia.
      by replace (uchar b <? uchar a) with true by lia.
Qed.

Lemma keyed_three_way a b : keyed (if a <? b then -1 else if a =? b then 0 else 1) [a] [b].
Proof. apply keyed_one; cmp_cases; lia. Qed.

Lemma elements_key_unfold o :
  (fix elements_key (o : list (bytes * bson_value)) : list Z :=
    match o with
    | [] => [end_key]
    | (n, v) :: o' => canonicalType v :: bytes_key n ++ value_key v ++ elements_key o'
    end) o = obj_key true o.
Proof.
  induction o as [|[n v] o IH]; [done|]. rewrite IH. cbn. by rewrite <-app_assoc.
Qed.

Definition value_cmp_ok (v : bson_value) : Prop := forall w,
  wf_value v -> wf_value w -> canonicalType v = canonicalType w ->
  exists n, compareElementValues v w = Ret n /\ keyed n (value_key v) (value_key w).

Definition element_cmp_ok (l : BSONElement) : Prop := forall consider r,
  wf_element l -> wf_element r ->
  exists n, BSONElement_woCompare consider l r = Ret n /\
    keyed n (element_key consider l) (element_key consider r).

Lemma isNumber_canonical v w :
  canonicalType v <> canonicalType w -> negb (isNumber v) || negb (isNumber w) = true.
Proof. destruct v, w; done. Qed.

Lemma element_cmp l : value_cmp_ok l.2 -> element_cmp_ok l.
Proof.
  intros Hv consider r [Hnl Hl] [Hnr Hr]. unfold BSONElement_woCompare, element_woCompare_with.
  unfold element_key. destruct (decide (canonicalType l.2 = canonicalType r.2)) as [E|Hne].
  - replace (canonicalType l.2 - canonicalType r.2 =? 0) with true by lia. cbn [negb andb].
    destruct (Hv r.2 Hl Hr E) as (n & En & Hk). rewrite En, E.
    assert (keyed 0 [canonicalType r.2] [canonicalType r.2]) as Hc by (apply keyed_one; lia).
    destruct consider; cbn [andb].
    + exists (if negb (strcmp l.1 r.1 =? 0) then strcmp l.1 r.1 else n).
      split; [by destruct (negb _)|].
      apply (keyed_then 0 _ [_] [_] _ _ Hc). apply keyed_then; [by apply keyed_strcmp|done].
    + exists n. split; [done|]. apply (keyed_then 0 _ [_] [_] _ _ Hc Hk).
  - replace (canonicalType l.2 - canonicalType r.2 =? 0) with false by lia. cbn [negb andb].
    rewrite isNumber_canonical by done. eexists. split; [done|].
    intros s t. rewrite <-!app_comm_cons.
    rewrite (keyed_diff (canonicalType l.2) (canonicalType r.2) _ _ :
      lexZ (canonicalType l.2 :: _) (canonicalType r.2 :: _) = _).
    by replace (canonicalType l.2 - canonicalType r.2 =? 0) with false by lia.
Qed.

Lemma canonicalType_range v : -1 <= canonicalType v <= 127.
Proof. destruct v; by vm_compute. Qed.

Lemma loop_cmp consider a b k :
  Forall element_cmp_ok a -> wf_obj a -> wf_obj b ->
  exists n, woCompare_loop compareElementValues consider false a b k = Ret n /\
    keyed n (obj_key consider a) (obj_key consider b).
Proof.
  intros Ha. revert b. induction Ha as [|l a Hl Ha IH]; intros [|r b] Hwa Hwb;
    cbn [woCompare_loop mbind result_bind].
  - exists 0. split; [done|]. apply keyed_one; lia.
  - exists (-1). split; [done|]. intros s t. cbn. pose proof (canonicalType_range r.2).
    unfold end_key. by replace (-1000 <? canonicalType r.2) with true by lia.
  - exists 1. split; [done|]. intros s t. cbn. pose proof (canonicalType_range l.2).
    unfold end_key. replace (canonicalType l.2 <? -1000) with false by lia.
    by replace (-1000 <? canonicalType l.2) with true by lia.
  - apply List.Forall_cons_iff in Hwa as [Hwl Hwa]. apply List.Forall_cons_iff in Hwb as [Hwr Hwb].
    destruct (Hl consider r Hwl Hwr) as (n & En & Hk).
    unfold BSONElement_woCompare in En. rewrite En. cbn [mbind result_bind andb].
    destruct (IH b Hwa Hwb) as (m & -> & Hm).
    exists (if negb (n =? 0) then n else m). split; [by destruct (negb _)|].
    cbn [obj_key]. by apply keyed_then.
Qed.

Lemma obj_cmp a b :
  Forall element_cmp_ok a -> wf_obj a -> wf_obj b ->
  exists n, obj_woCompare_with compareElementValues true a b [] = Ret n /\
    keyed n (obj_key true a) (obj_key true b).
Proof.
  intros Ha Hwa Hwb. destruct (loop_cmp true a b (Some []) Ha Hwa Hwb) as (n & E & Hk).
  exists n. split; [|done]. rewrite <-E. by destruct a, b.
Qed.

(** The groups of values that share a canonical type. *)
Definition number_key (v : bson_value) : Z * Z :=
  match v with
  | VNumberInt n | VNumberLong n => long_key n
  | VNumberDouble b => num_key (double_of_bits b)
  | _ => (0, 0)
  end.
Definition string_of (v : bson_value) : option bytes :=
  match v with VString s | VCode s | VSymbol s => Some s | _ => None end.

Lemma numbers_cmp v w :
  wf_value v -> wf_value w -> isNumber v = true -> isNumber w = true ->
  exists n, compareElementValues v w = Ret n /\ keyed n (value_key v) (value_key w).
Proof.
  intros Hv Hw Ha Hb.
  assert (forall u, isNumber u = true -> value_key u = num_pair (number_key u)) as Hk
    by (intros u Hu; by destruct u).
  exists (key_cmp (number_key v) (number_key w)).
  split; [|rewrite !Hk by done; apply keyed_pair]. clear Hk.
  destruct v; try discriminate Ha; destruct w; try discriminate Hb;
    cbn [compareElementValues number_key]; apply (f_equal Ret).
  - apply compareDoubles_key.
  - apply compareDoubles_key.
  - apply compareDoubleToLong_key; [exact Hw|apply double_of_bits_wf].
  - apply compareDoubles_key.
  - apply compareLongs_key.
  - apply compareLongs_key.
  - apply compareLongToDouble_key; [exact Hv|apply double_of_bits_wf].
  - apply compareLongs_key.
  - apply compareLongs_key.
Qed.

Lemma strings_cmp v w a b :
  string_of v = Some a -> string_of w = Some b ->
  exists n, compareElementValues v w = Ret n /\ keyed n (value_key v) (value_key w).
Proof.
  intros Ha Hb.
  exists (if negb (memcmp (a ++ [nul]) (b ++ [nul]) =? 0) then memcmp (a ++ [nul]) (b ++ [nul])
         else (zlen a + 1) - (zlen b + 1)).
  destruct v; try discriminate; destruct w; try discriminate;
    cbn [string_of] in Ha, Hb; injection Ha as <-; injection Hb as <-;
    (split; [reflexivity|apply keyed_string]).
Qed.

(** A length first, then the bytes. *)
Lemma keyed_sized x y f :
  (length x = length y <-> f = 0) -> zlen x - zlen y = f ->
  keyed (if negb (f =? 0) then f else memcmp x y) (zlen x :: (uchar <$> x)) (zlen y :: (uchar <$> y)).
Proof.
  intros Hf Hd s t. cbn [app lexZ]. destruct (f =? 0) eqn:E; cbn [negb].
  - assert (zlen x = zlen y) as -> by lia. rewrite Z.ltb_irrefl.
    apply keyed_memcmp. apply Hf. lia.
  - rewrite E. unfold sign_of. cmp_cases; lia.
Qed.

Lemma binData_cmp sa a sb b :
  keyed (if negb (zlen a - zlen b =? 0) then zlen a - zlen b else memcmp (sa :: a) (sb :: b))
    (zlen a :: (uchar <$> sa :: a)) (zlen b :: (uchar <$> sb :: b)).
Proof.
  intros s t. pose proof (keyed_memcmp (sa :: a) (sb :: b)) as Hk. unfold keyed in Hk.
  generalize dependent (uchar <$> sa :: a). generalize dependent (uchar <$> sb :: b).
  generalize dependent (memcmp (sa :: a) (sb :: b)). intros f kb ka Hk.
  cbn [app lexZ]. destruct (zlen a - zlen b =? 0) eqn:E; cbn [negb].
  - replace (zlen a) with (zlen b) by lia. rewrite Z.ltb_irrefl. apply Hk.
    unfold zlen in E. cbn. lia.
  - rewrite E. unfold sign_of. cmp_cases; lia.
Qed.

Lemma leaves_cmp v w :
  match v with VObject _ | VArray _ | VCodeWScope _ _ => False | _ => True end ->
  wf_value v -> wf_value w -> canonicalType v = canonicalType w ->
  exists n, compareElementValues v w = Ret n /\ keyed n (value_key v) (value_key w).
Proof.
  intros Hl Hv Hw Hc.
  destruct (isNumber v) eqn:Ea.
  { apply numbers_cmp; [done..|]. destruct v; try discriminate Ea; by destruct w. }
  destruct (string_of v) as [a|] eqn:Es.
  { destruct (string_of w) as [b|] eqn:Et; [by eapply strings_cmp|].
    destruct v; try discriminate; destruct w; discriminate. }
  assert (forall (c : bool) (x y : Z), (if c then Ret x else Ret y) = Ret (if c then x else y) :> M Z)
    as Hif by (by intros []).
  destruct v; try discriminate; try contradiction; destruct w; try discriminate Hc; try contradiction;
    cbn [compareElementValues value_key]; cbv zeta; rewrite ?Hif; eexists; (split; [reflexivity|]).
  1-4: apply keyed_nil.
  - apply binData_cmp.
  - apply keyed_memcmp. cbn in Hv, Hw. unfold zlen in *. lia.
  - apply keyed_diff.
  - apply keyed_three_way.
  - destruct Hv as [Hr Hf]. destruct Hw as [Hr' Hf'].
    apply keyed_then; by apply keyed_strcmp.
  - apply keyed_sized; [|done]. cbn [encode_value]. unfold zlen. lia.
  - apply keyed_three_way.
Qed.

Lemma value_cmp v : value_cmp_ok v.
Proof.
  assert (forall o, Forall (fun e => value_cmp_ok e.2) o -> Forall element_cmp_ok o) as Hel.
  { intros o Ho. eapply Forall_impl; [exact Ho|]. intros e. apply element_cmp. }
  induction v as [v Hv|o IH|o IH|c o IH] using bson_value_ind'; intros w Hwv Hww Hc.
  - by apply leaves_cmp.
  - destruct w as [| | | | | | |o'| | | | | | | | | | | | |]; try discriminate Hc.
    cbn [compareElementValues value_key]. rewrite !elements_key_unfold.
    apply obj_cmp; [by apply Hel|by apply wf_VObject|by apply wf_VObject].
  - destruct w as [| | | | | | | |o'| | | | | | | | | | | |]; try discriminate Hc.
    cbn [compareElementValues value_key]. rewrite !elements_key_unfold.
    apply obj_cmp; [by apply Hel|by apply wf_VArray|by apply wf_VArray].
  - destruct w as [| | | | | | | | | | | | | | | | |c' o'| | |]; try discriminate Hc.
    cbn [compareElementValues value_key]. rewrite !elements_key_unfold.
    destruct (obj_cmp o o') as (n & -> & Hk);
      [by apply Hel|by eapply wf_VCodeWScope|by eapply wf_VCodeWScope|].
    exists (if negb (StringData_compare c c' =? 0) then StringData_compare c c' else n).
    split; [by destruct (negb _)|]. apply keyed_then; [apply keyed_StringData|done].
Qed.

Lemma element_cmp_all consider l r :
  wf_element l -> wf_element r ->
  exists n, BSONElement_woCompare consider l r = Ret n /\ keyed n (element_key consider l) (element_key consider r).
Proof. apply element_cmp, value_cmp. Qed.

Lemma keyed_lexZ n a b : keyed n a b -> sign_of n = lexZ a b.
Proof.
  intros Hk. specialize (Hk [] []). rewrite !app_nil_r in Hk. rewrite Hk.
  unfold sign_of. by destruct (n <? 0) eqn:E1, (n =? 0) eqn:E2; try lia.
Qed.

Lemma obj_cmp_all consider a b :
  wf_obj a -> wf_obj b ->
  exists n, BSONObj_woCompare consider a b [] = Ret n /\ sign_of n = lexZ (obj_key consider a) (obj_key consider b).
Proof.
  intros Ha Hb. assert (Forall element_cmp_ok a) as Hel.
  { apply Forall_forall. intros e _. apply element_cmp, value_cmp. }
  destruct (loop_cmp consider a b (Some []) Hel Ha Hb) as (n & E & Hk).
  exists n. split; [|by apply keyed_lexZ]. rewrite <-E. by destruct a, b.
Qed.

(** The order of keys is total. *)
Lemma lexZ_refl a : lexZ a a = 0.
Proof. induction a; cbn; rewrite ?Z.ltb_irrefl; auto. Qed.
Lemma lexZ_anti a b : lexZ b a = - lexZ a b.
Proof.
  revert b. induction a as [|x a IH]; intros [|y b]; cbn; try done.
  destruct (x <? y) eqn:E1, (y <? x) eqn:E2; try lia. apply IH.
Qed.
Lemma lexZ_trans a b c : lexZ a b <= 0 -> lexZ b c <= 0 -> lexZ a c <= 0.
Proof.
  revert b c. induction a as [|x a IH]; intros [|y b] [|z c]; cbn; try lia.
  destruct (x <? y) eqn:E1, (y <? x) eqn:E2, (y <? z) eqn:E3, (z <? y) eqn:E4,
    (x <? z) eqn:E5, (z <? x) eqn:E6; try lia. apply IH.
Qed.

(** ** Index keys and orderings *)

Lemma ordering_make_loop_bits k n b :
  Z.of_nat (length k) + Z.of_nat n <= 32 -> 0 <= b < 2 ^ Z.of_nat n ->
  exists bits, Ordering_make_loop k (Z.of_nat n) b = Ret bits /\ 0 <= bits < 2 ^ 32 /\ forall i : nat, Z.testbit bits (Z.of_nat i) =
      if decide (i < n)%nat then Z.testbit b (Z.of_nat i)
      else match k !! (i - n)%nat with Some e => number_negative e.2 | None => false end.
Proof.
  revert n b. induction k as [|e k IH]; intros n b Hl Hb; cbn [Ordering_make_loop].
  - exists b. split; [done|]. cbn [length] in Hl. split.
    { split; [lia|]. apply Z.lt_le_trans with (2 ^ Z.of_nat n); [lia|]. apply Z.pow_le_mono_r; lia. }
    intros i. case_decide; [done|]. rewrite lookup_nil.
    destruct (decide (b = 0)) as [->|]; [apply Z.bits_0|]. apply Z.bits_above_log2; [lia|].
    apply Z.lt_le_trans with (Z.of_nat n); [|lia]. apply Z.log2_lt_pow2; lia.
  - cbn [length] in Hl. replace (Z.of_nat n <=? 31) with true by lia.
    cbn [uassert guard_throw mbind result_bind].
    set (b' := if number_negative e.2 then Z.lor b (2 ^ Z.of_nat n) else b).
    assert (forall i : nat, Z.testbit b' (Z.of_nat i) =
      if decide (i < n)%nat then Z.testbit b (Z.of_nat i)
      else if decide (i = n) then number_negative e.2 else false) as Hbits.
    { intros i. assert ((n <= i)%nat -> Z.testbit b (Z.of_nat i) = false) as Hhigh.
      { intros Hi. destruct (decide (b = 0)) as [->|]; [apply Z.bits_0|].
        apply Z.bits_above_log2; [lia|].
        apply Z.lt_le_trans with (Z.of_nat n); [|lia]. apply Z.log2_lt_pow2; lia. }
      unfold b'. destruct (number_negative e.2).
      - rewrite Z.lor_spec, Z.pow2_bits_eqb by lia. case_decide.
        + replace (Z.of_nat n =? Z.of_nat i) with false by lia. by rewrite orb_false_r.
        + rewrite Hhigh by lia. cbn [orb]. case_decide; lia.
      - case_decide; [done|]. rewrite Hhigh by lia. by case_decide. }
    replace (Z.of_nat n + 1) with (Z.of_nat (S n)) by lia.
    destruct (IH (S n) b') as (bits & -> & Hr & Hi); [lia| |].
    + assert (2 ^ Z.of_nat (S n) = 2 * 2 ^ Z.of_nat n) as E
        by (rewrite Nat2Z.inj_succ, Z.pow_succ_r; lia).
      unfold b'. destruct (number_negative e.2); [|lia]. rewrite E.
      split; [apply Z.lor_nonneg; lia|].
      assert (Z.lor b (2 ^ Z.of_nat n) = b + 2 ^ Z.of_nat n) as ->; [|lia].
      rewrite <-Z.lxor_lor, <-Z.add_nocarry_lxor; [done|..];
        (apply Z.bits_inj'; intros j Hj; rewrite Z.land_spec, Z.bits_0, Z.pow2_bits_eqb by lia;
         destruct (Z.eqb_spec (Z.of_nat n) j) as [<-|]; [|apply andb_false_r];
         rewrite andb_true_r; destruct (decide (b = 0)) as [->|]; [apply Z.bits_0|];
         apply Z.bits_above_log2; [lia|]; apply Z.log2_lt_pow2; lia).
    + exists bits. split; [done|]. split; [done|]. intros i. rewrite Hi, Hbits.
      destruct (decide (i < n)%nat); [by rewrite decide_True by lia|].
      destruct (decide (i = n)) as [->|].
      * rewrite decide_True by lia. by rewrite Nat.sub_diag.
      * rewrite decide_False by lia. replace (i - n)%nat with (S (i - S n)) by lia. done.
Qed.

Definition mask_at (n : nat) : Z := if decide (n < 32)%nat then 2 ^ Z.of_nat n else 0.

Lemma mask_next n : (n < 32)%nat -> wrap uint32 (Z.shiftl (mask_at n) 1) = mask_at (S n).
Proof. intros Hn. do 32 (destruct n as [|n]; [by vm_compute|]). lia. Qed.

Lemma land_mask bits n :
  (n < 32)%nat -> negb (Z.land bits (mask_at n) =? 0) = Z.testbit bits (Z.of_nat n).
Proof.
  intros Hn. unfold mask_at. rewrite decide_True by done.
  destruct (Z.testbit bits (Z.of_nat n)) eqn:E.
  - apply negb_true_iff, Z.eqb_neq. intros H.
    assert (Z.testbit (Z.land bits (2 ^ Z.of_nat n)) (Z.of_nat n) = false) as Hf
      by (rewrite H; apply Z.bits_0).
    rewrite Z.land_spec, Z.pow2_bits_true, E in Hf by lia. done.
  - apply negb_false_iff, Z.eqb_eq, Z.bits_inj'. intros i Hi.
    rewrite Z.land_spec, Z.bits_0, Z.pow2_bits_eqb by lia.
    destruct (Z.eqb_spec (Z.of_nat n) i) as [<-|]; [by rewrite E|apply andb_false_r].
Qed.

Lemma loops_agree consider bits a b kk n :
  (n + length kk <= 32)%nat -> (Nat.min (length a) (length b) <= length kk)%nat ->
  (forall i : nat, (i < length kk)%nat -> Z.testbit bits (Z.of_nat (n + i)) =
     match kk !! i with Some e => number_negative e.2 | None => false end) ->
  woCompare_loop compareElementValues consider true a b (Some kk) =
  woCompare_ordering_loop bits consider a b (mask_at n).
Proof.
  revert b kk n. induction a as [|l a IH]; intros b kk n Hn Hk Hb;
    cbn [woCompare_loop woCompare_ordering_loop].
  { by destruct kk, b. }
  destruct b as [|r b]; [by destruct kk|].
  destruct kk as [|e kk]; [cbn in Hk; lia|]. cbn [key_next mbind result_bind length] in *.
  fold (BSONElement_woCompare consider l r).
  unfold BSONElement_woCompare at 1. destruct (element_woCompare_with _ _ l r) as [x|] eqn:Ex;
    unfold BSONElement_woCompare; rewrite Ex; [|done]. cbn [mbind result_bind andb].
  unfold Ordering_descending. rewrite land_mask by lia.
  specialize (Hb 0%nat ltac:(lia)) as Hb0. rewrite Nat.add_0_r in Hb0. rewrite Hb0. cbn [lookup list_lookup].
  destruct (negb (_ =? 0)); [done|]. rewrite mask_next by lia. apply IH; [lia|lia|].
  intros i Hi. replace (S n + i)%nat with (n + S i)%nat by lia. rewrite Hb by lia. done.
Qed.

Lemma unordered_loops_agree consider a b k mask :
  woCompare_loop compareElementValues consider false a b k =
  woCompare_ordering_loop 0 consider a b mask.
Proof.
  revert b k mask. induction a as [|l a IH]; intros [|r b] k mask;
    cbn [woCompare_loop woCompare_ordering_loop mbind result_bind]; try done.
  unfold BSONElement_woCompare. destruct (element_woCompare_with _ _ l r); [|done].
  cbn [mbind result_bind andb]. unfold Ordering_descending. rewrite Z.land_0_l.
  cbn [Z.eqb negb]. destruct (negb _); [done|]. apply IH.
Qed.

Lemma ordering_make_uassert k n b :
  Z.of_nat n <= 32 < Z.of_nat (length k) + Z.of_nat n ->
  Ordering_make_loop k (Z.of_nat n) b = Throw (EUassert 13103).
Proof.
  revert n b. induction k as [|e k IH]; intros n b Hl; cbn [length] in Hl; [lia|].
  cbn [Ordering_make_loop]. destruct (Z.leb_spec (Z.of_nat n) 31); [|done].
  cbn [uassert guard_throw mbind result_bind].
  replace (Z.of_nat n + 1) with (Z.of_nat (S n)) by lia. apply IH. lia.
Qed.

Lemma lexZ_zero a b : lexZ a b = 0 -> a = b.
Proof.
  revert b. induction a as [|x a IH]; intros [|y b]; cbn; try done.
  destruct (x <? y) eqn:E1, (y <? x) eqn:E2; try done.
  intros ->%IH. f_equal. lia.
Qed.

(** ** Properties *)

(** C34: on well-formed documents [woCompare] always answers, its sign is the
    lexicographic order of the documents' keys, and so it is a total preorder:
    the two directions have opposite signs, [<=] is transitive, and [0] means
    the same key: numbers of the three types by exact value, strings with
    symbols, null-valued types alike, nested documents field by field. *)
Theorem BSONObj_woCompare_order consider a b c :
  wf_obj a -> wf_obj b -> wf_obj c ->
  exists x y z w,
    BSONObj_woCompare consider a b [] = Ret x /\ BSONObj_woCompare consider b a [] = Ret y /\
    BSONObj_woCompare consider b c [] = Ret z /\ BSONObj_woCompare consider a c [] = Ret w /\
    sign_of x = lexZ (obj_key consider a) (obj_key consider b) /\
    sign_of y = - sign_of x /\ (x <= 0 -> z <= 0 -> w <= 0) /\
    (x = 0 <-> obj_key consider a = obj_key consider b).
Proof.
  intros Ha Hb Hc.
  destruct (obj_cmp_all consider a b Ha Hb) as (x & Ex & Sx).
  destruct (obj_cmp_all consider b a Hb Ha) as (y & Ey & Sy).
  destruct (obj_cmp_all consider b c Hb Hc) as (z & Ez & Sz).
  destruct (obj_cmp_all consider a c Ha Hc) as (w & Ew & Sw).
  assert (forall n, n <= 0 <-> sign_of n <= 0) as Hs by (intros n; unfold sign_of; cmp_cases; lia).
  assert (forall n, n = 0 <-> sign_of n = 0) as Hz by (intros n; unfold sign_of; cmp_cases; lia).
  exists x, y, z, w. split_and!; try done.
  - by rewrite Sy, Sx, lexZ_anti.
  - intros Hx%Hs Hz'%Hs. apply Hs. rewrite Sx in Hx. rewrite Sz in Hz'. rewrite Sw.
    by eapply lexZ_trans.
  - rewrite (Hz x), Sx. split; [apply lexZ_zero|intros ->; apply lexZ_refl].
Qed.

Lemma BSONObj_woCompare_order_witness :
  let a := [(B "x", VNumberLong 9007199254740993)] in
  let b := [(B "x", VNumberDouble 0x4340000000000000)] in
  wf_obj a /\ wf_obj b /\
  exists x y, BSONObj_woCompare true a b [] = Ret x /\ BSONObj_woCompare true b a [] = Ret y /\
    sign_of y = - sign_of x.
Proof.
  intros a b.
  assert (wf_obj a) as Ha by (repeat constructor; cbn; not_in; by vm_compute).
  assert (wf_obj b) as Hb by (repeat constructor; cbn; not_in; by vm_compute).
  split; [exact Ha|]. split; [exact Hb|].
  destruct (BSONObj_woCompare_order true a b a Ha Hb Ha) as (x & y & z & w & ? & ? & _ & _ & _ & ? & _).
  exists x, y. split; [assumption|split; assumption].
Defined.

(** C35: [Ordering::make] accepts exactly the key patterns of at most 32 fields,
    and comparing with the resulting bits is comparing with the pattern itself,
    for documents that the pattern covers (or an empty pattern). *)
Theorem Ordering_index_key consider a b k :
  (k = [] \/ (Nat.min (length a) (length b) <= length k)%nat) ->
  ((length k <= 32)%nat -> exists bits, Ordering_make k = Ret bits /\
     BSONObj_woCompare_ordering bits consider a b = BSONObj_woCompare consider a b k) /\
  ((32 < length k)%nat -> Ordering_make k = Throw (EUassert 13103)).
Proof.
  intros Hk. split.
  - intros Hl. destruct (ordering_make_loop_bits k 0 0) as (bits & Em & Hr & Hb); [lia|done|].
    exists bits. split; [exact Em|].
    unfold BSONObj_woCompare_ordering, BSONObj_woCompare, obj_woCompare_with.
    destruct a as [|l a]; [done|]. destruct b as [|r b]; [done|].
    destruct (decide (k = [])) as [->|Hne].
    + rewrite bool_decide_eq_true_2 by done. cbn [negb].
      injection Em as <-. symmetry. apply unordered_loops_agree.
    + rewrite bool_decide_eq_false_2 by done. cbn [negb]. symmetry.
      change 1 with (mask_at 0). apply loops_agree; [lia|by destruct Hk|].
      intros i Hi. rewrite Hb. cbn [plus]. rewrite decide_False by lia. by rewrite Nat.sub_0_r.
  - intros Hl. apply (ordering_make_uassert k 0 0). lia.
Qed.

Lemma Ordering_index_key_witness :
  let k := [(B "a", VNumberInt 1); (B "b", VNumberInt (-1))] in
  let a := [(B "a", VNumberInt 1); (B "b", VNumberInt 1)] in
  let b := [(B "a", VNumberInt 1); (B "b", VNumberInt 2)] in
  Ordering_make k = Ret 2 /\ BSONObj_woCompare_ordering 2 true a b = Ret 1 /\
  BSONObj_woCompare true a b k = Ret 1.
Proof.
  intros k a b. destruct (Ordering_index_key true a b k) as [H _]; [by right; cbn; lia|].
  destruct H as (bits & Hm & Hc); [cbn; lia|].
  assert (Ordering_make k = Ret 2) as E by reflexivity. rewrite E in Hm. injection Hm as <-.
  split; [done|]. split; [by vm_compute|]. rewrite <-Hc. by vm_compute.
Defined.
