(* ===== verification/BsonObj.v ===== *)
(** * Operations on objects: bson/bsonobj.cpp

    Lookup by name and by dotted path, the constructions that select or rename
    fields, prefix tests, and the storage check.  Objects are lists of elements
    ([Bson.v]); an object a function builds is the list of the elements it
    appends. *)
From S2P Require Import Prelude StringData ParseNumber BsonTypes BufBuilder Bson BsonCompare.
Local Open Scope Z_scope.
Local Set Warnings "-register-all".

Definition dot : char := "."%char.
Definition dollar : char := "$"%char.

(** ** Lookup *)

Fixpoint getField (o : BSONObj) (name : bytes) : BSONElement :=
  match o with
  | [] => eooElement
  | e :: o' => if StringData_eq name e.1 then e else getField o' name
  end.
Definition hasField (o : BSONObj) (name : bytes) : bool := negb (eoo (getField o name)).
Definition getBoolField (o : BSONObj) (name : bytes) : bool :=
  match (getField o name).2 with VBool b => negb (ceq b nul) | _ => false end.
(** A [const char*]: the text up to the first zero byte. *)
Definition c_string (s : bytes) : bytes :=
  match memchr s nul with Some k => take k s | None => s end.
Definition getStringField (o : BSONObj) (name : bytes) : bytes :=
  match (getField o name).2 with VString s => c_string s | _ => [] end.
Definition getObjectField (o : BSONObj) (name : bytes) : BSONObj :=
  match (getField o name).2 with VObject s | VArray s => s | _ => [] end.
(** [isABSONObj()] and [Obj()] of an element. *)
Definition isABSONObj (e : BSONElement) : bool :=
  match e.2 with VObject _ | VArray _ => true | _ => false end.
Definition Obj (e : BSONElement) : M BSONObj :=
  match e.2 with VObject o | VArray o => Ret o | _ => Throw (EUassert 10065) end.
Definition getObjectID (o : BSONObj) : option BSONElement :=
  let f := getField o (B "_id") in if eoo f then None else Some f.

Definition nFields (o : BSONObj) : Z := zlen o.
(** The names are added to a set; the number of elements is returned. *)
Definition getFieldNames (o : BSONObj) (fields : gset bytes) : gset bytes * Z :=
  (list_to_set (fst <$> o) ∪ fields, zlen o).

(** [getFields]: each element goes to the first slot that asks for its name. *)
Fixpoint fill_slot (names : list bytes) (slots : list BSONElement) (e : BSONElement) : list BSONElement :=
  match names, slots with
  | n :: names', s :: slots' =>
      if strcmp e.1 n =? 0 then e :: slots' else s :: fill_slot names' slots' e
  | _, _ => slots
  end.
Definition getFields (o : BSONObj) (names : list bytes) (slots : list BSONElement) : list BSONElement :=
  foldl (fill_slot names) slots o.

(** [getFieldDotted]: the whole name first, then the part before the first dot
    and the rest inside the object it names. *)
Fixpoint getFieldDotted (fuel : nat) (o : BSONObj) (name : bytes) : M BSONElement :=
  let e := getField o name in
  if eoo e then
    let dot_offset := StringData_find_char name dot 0 in
    if negb (dot_offset =? npos) then
      left_ ← StringData_substr name 0 dot_offset;
      right_ ← StringData_substr name (size_wrap (dot_offset + 1)) npos;
      match getObjectField o left_ with
      | [] => Ret eooElement
      | sub => match fuel with O => Throw EUndefined | S f => getFieldDotted f sub right_ end
      end
    else Ret e
  else Ret e.

(** ** Derived objects *)

Definition removeField (o : BSONObj) (name : bytes) : BSONObj :=
  filter (fun e => StringData_eq name e.1 = false) o.
Definition filterFieldsUndotted (o filter_ : BSONObj) (inFilter : bool) : BSONObj :=
  filter (fun e => let x := getField filter_ e.1 in
            ((eoo x && negb inFilter) || (negb (eoo x) && inFilter)) = true) o.
Definition extractFieldsUnDotted (o pattern : BSONObj) : BSONObj :=
  omap (fun e => let x := getField o e.1 in if eoo x then None else Some ([], x.2)) pattern.
Fixpoint extractFields (o pattern : BSONObj) (fillWithNull : bool) : M BSONObj :=
  match pattern with
  | [] => Ret []
  | e :: p' =>
      x ← getFieldDotted (length e.1) o e.1;
      rest ← extractFields o p' fillWithNull;
      Ret (if negb (eoo x) then (e.1, x.2) :: rest
           else if fillWithNull then (e.1, VjstNULL) :: rest else rest)
  end.
Fixpoint replaceFieldNames (o names : BSONObj) : BSONObj :=
  match o, names with
  | [], _ => []
  | e :: o', [] => e :: replaceFieldNames o' []
  | e :: o', f :: names' => (f.1, e.2) :: replaceFieldNames o' names'
  end.
Definition clientReadable (o : BSONObj) : BSONObj :=
  (fun e => match e.2 with
            | VMinKey => (e.1, VObject [(B "$minElement", VNumberInt 1)])
            | VMaxKey => (e.1, VObject [(B "$maxElement", VNumberInt 1)])
            | _ => e
            end) <$> o.

(** The element at the position the name has in the index key. *)
Fixpoint index_position (indexKey : BSONObj) (fieldName : bytes) (j : nat) : option nat :=
  match indexKey with
  | [] => None
  | f :: k' => if StringData_eq f.1 fieldName then Some j else index_position k' fieldName (S j)
  end.
Definition getFieldUsingIndexNames (o : BSONObj) (fieldName : bytes) (indexKey : BSONObj) : BSONElement :=
  match index_position indexKey fieldName 0 with
  | None => eooElement
  | Some j => default eooElement (o !! j)
  end.

(** ** Tests *)

Fixpoint isPrefixOf (a b : BSONObj) : M bool :=
  match a, b with
  | [], _ => Ret true
  | _ :: _, [] => Ret false
  | x :: a', y :: b' =>
      same ← BSONElement_eq x y;
      if negb same then Ret false else isPrefixOf a' b'
  end.
Fixpoint isFieldNamePrefixOf (a b : BSONObj) : bool :=
  match a, b with
  | [], _ => true
  | _ :: _, [] => false
  | x :: a', y :: b' => if strcmp x.1 y.1 =? 0 then isFieldNamePrefixOf a' b' else false
  end.
Fixpoint couldBeArray_loop (o : BSONObj) (index : Z) : bool :=
  match o with
  | [] => true
  | e :: o' => if negb (strcmp e.1 (print_int index) =? 0) then false
               else couldBeArray_loop o' (index + 1)
  end.
Definition couldBeArray (o : BSONObj) : bool := couldBeArray_loop o 0.

Definition startsWith_char (name : bytes) (c : char) : bool :=
  match name with x :: _ => ceq x c | [] => false end.

(** [_okForStorage]: the loop over the fields, given the check of a nested
    object.  The first field may start a DBRef. *)
Section storage.
Context (nested : bson_value -> Status).

(** The checks made of every field that is not a DBRef's own. *)
Definition storage_checks (root deep : bool) (e : BSONElement) : Status :=
  if negb (StringData_find_char e.1 dot 0 =? npos) then
    Err DottedFieldName (e.1 ++ B " is not valid for storage.")
  else if root && (bool_decide (element_type e = RegEx) || bool_decide (element_type e = Array_)
                   || bool_decide (element_type e = Undefined))
          && (strcmp e.1 (B "_id") =? 0) then
    Err InvalidIdField (e.1 ++ B " is not valid for storage because it is of type "
                            ++ typeName (BSONType_value (element_type e)))
  else if deep then nested e.2 else OK.

Definition bad_dollar (e : BSONElement) : Status :=
  Err DollarPrefixedFieldName (e.1 ++ B " is not valid for storage.").

Fixpoint okForStorage_loop (root deep first : bool) (i : list (bytes * bson_value)) : Status :=
  match i with
  | [] => OK
  | e :: i' =>
      if startsWith_char e.1 dollar then
        if first && (strcmp e.1 (B "$ref") =? 0) && bool_decide (element_type e = String_) then
          match i' with
          | id :: i'' =>
              if strcmp id.1 (B "$id") =? 0 then
                match i'' with
                | [] => OK (* the final EOO element passes every check *)
                | e3 :: i3 =>
                    if (strcmp e3.1 (B "$db") =? 0) && bool_decide (element_type e3 = String_) then
                      okForStorage_loop root deep false i3
                    else if startsWith_char e3.1 dollar then bad_dollar e3
                    else match storage_checks root deep e3 with
                         | OK => okForStorage_loop root deep false i3
                         | err => err
                         end
                end
              else bad_dollar e
          | [] => bad_dollar e
          end
        else bad_dollar e
      else match storage_checks root deep e with
           | OK => okForStorage_loop root deep false i'
           | err => err
           end
  end.
End storage.

Fixpoint nested_okForStorage (v : bson_value) : Status :=
  match v with
  | VObject o | VArray o | VCodeWScope _ o =>
      okForStorage_loop nested_okForStorage false true true o
  | _ => OK
  end.
Definition _okForStorage (root deep : bool) (o : BSONObj) : Status :=
  okForStorage_loop nested_okForStorage root deep true o.

(** [woSortOrder]: compare by the fields of a sort key, a missing one as null. *)
Definition staticNull : BSONElement := ([], VjstNULL).
Definition sort_field (useDotted : bool) (o : BSONObj) (name : bytes) : M BSONElement :=
  l ← (if useDotted then getFieldDotted (length name) o name else Ret (getField o name));
  Ret (if eoo l then staticNull else l).
Fixpoint woSortOrder_loop (a b key : BSONObj) (useDotted : bool) : M Z :=
  match key with
  | [] => Ret 0
  | f :: key' =>
      l ← sort_field useDotted a f.1;
      r ← sort_field useDotted b f.1;
      x ← BSONElement_woCompare false l r;
      let x := if number_negative f.2 then - x else x in
      if negb (x =? 0) then Ret x else woSortOrder_loop a b key' useDotted
  end.
Definition woSortOrder (a b key : BSONObj) (useDotted : bool) : M Z :=
  match a, b with
  | [], [] => Ret 0
  | [], _ => Ret (-1)
  | _, [] => Ret 1
  | _, _ => uassert 10060 (negb (bool_decide (key = [])));; woSortOrder_loop a b key useDotted
  end.

(** ** Lemmas *)

Lemma getField_notin o name : name ∉ (fst <$> o) -> getField o name = eooElement.
Proof.
  induction o as [|e o IH]; [done|]. cbn. rewrite not_elem_of_cons. intros [Hne Hn].
  destruct (StringData_eq name e.1) eqn:E; [by apply StringData_eq_spec in E|auto].
Qed.

Lemma getField_first pre e post :
  e.1 ∉ (fst <$> pre) -> getField (pre ++ e :: post) e.1 = e.
Proof.
  induction pre as [|x pre IH]; cbn; intros Hn.
  - by rewrite (proj2 (StringData_eq_spec _ _)).
  - rewrite not_elem_of_cons in Hn. destruct Hn as [Hne Hn].
    destruct (StringData_eq e.1 x.1) eqn:E; [by apply StringData_eq_spec in E|auto].
Qed.

Lemma eoo_false n v : wf_value v -> eoo (n, v) = false.
Proof. intros Hv. unfold eoo. apply bool_decide_eq_false. by destruct v. Qed.

Lemma startsWith_char_spec n c : startsWith_char n c = true <-> exists r, n = c :: r.
Proof.
  destruct n as [|x n]; cbn.
  - split; [done|]. by intros [? ?].
  - rewrite ceq_true. split; [intros ->; eauto|]. by intros [r [= -> _]].
Qed.

Lemma strcmp_refl a : strcmp a a = 0.
Proof. apply memcmp_refl. Qed.
Lemma strcmp_zero a b : nul ∉ a -> nul ∉ b -> (strcmp a b =? 0) = true <-> a = b.
Proof.
  intros Ha Hb. rewrite Z.eqb_eq. split; [by apply strcmp_nonzero|].
  intros ->. apply strcmp_refl.
Qed.

(** *** What the storage check accepts *)

(** The rules the header documents for a field name, for the [_id] of a root
    document, and (deep) for the documents inside the value. *)
Section storable.
Context (nested : bson_value -> Prop).

Definition plain_field (root deep : bool) (e : BSONElement) : Prop :=
  (dot ∉ e.1) /\ startsWith_char e.1 dollar = false /\
  (root = true -> e.1 = B "_id" -> element_type e <> RegEx /\ element_type e <> Array_ /\
     element_type e <> Undefined) /\
  (deep = true -> nested e.2).

(** Plain fields; or a DBRef: [$ref] with a string, [$id] with any value, and
    optionally [$db] with a string, before plain fields. *)
Definition storable_fields (root deep : bool) (o : list (bytes * bson_value)) : Prop :=
  Forall (plain_field root deep) o \/
  exists ref id rest, o = (B "$ref", VString ref) :: (B "$id", id) :: rest /\
    (Forall (plain_field root deep) rest \/
     exists db rest', rest = (B "$db", VString db) :: rest' /\
       Forall (plain_field root deep) rest').
End storable.

(** The documents inside a value are storable as embedded documents. *)
Inductive storable_value : bson_value -> Prop :=
  | storable_leaf v :
      match v with VObject _ | VArray _ | VCodeWScope _ _ => False | _ => True end ->
      storable_value v
  | storable_object v o :
      (v = VObject o \/ v = VArray o \/ exists c, v = VCodeWScope c o) ->
      storable_fields storable_value false true o -> storable_value v.
Definition storable (root deep : bool) (o : BSONObj) : Prop :=
  storable_fields storable_value root deep o.

Section storage_proof.
Context (check : bson_value -> Status) (spec : bson_value -> Prop).

Definition field_agrees (deep : bool) (e : BSONElement) : Prop :=
  (nul ∉ e.1) /\ sized e.1 /\ (deep = true -> check e.2 = OK <-> spec e.2).

Lemma storage_checks_spec root deep e :
  field_agrees deep e -> startsWith_char e.1 dollar = false ->
  storage_checks check root deep e = OK <-> plain_field spec root deep e.
Proof.
  intros (Hn & Hs & Hc) Hd. unfold storage_checks, plain_field.
  destruct (find_char_total e.1 dot) as [[Hdot E]|(pre & post & E & Hp & E2)].
  - rewrite E, Z.eqb_refl. cbn [negb].
    assert (nul ∉ B "_id") as Hid by (cbn; not_in).
    pose proof (strcmp_zero e.1 (B "_id") Hn Hid) as Hcmp.
    destruct (root && _ && _) eqn:Er.
    + split; [done|]. intros (_ & _ & Hr & _). exfalso.
      apply andb_prop in Er as [Er Es]. apply andb_prop in Er as [-> Er].
      destruct (Hr eq_refl (proj1 Hcmp Es)) as (H1 & H2 & H3).
      rewrite !bool_decide_eq_false_2 in Er by done. done.
    + assert (root = true -> e.1 = B "_id" -> element_type e <> RegEx /\
        element_type e <> Array_ /\ element_type e <> Undefined) as Hr.
      { intros -> He. rewrite (proj2 Hcmp He), andb_true_r in Er. cbn [andb] in Er.
        boolify. done. }
      destruct deep; [rewrite Hc by done; tauto|]. split; [|done]. intros _. by split_and!.
  - rewrite E2. assert ((zlen pre =? npos) = false) as ->
      by (rewrite E in Hs; by eapply zlen_ne_npos).
    cbn [negb]. split; [done|]. intros [Hdot _]. rewrite E in Hdot. destruct Hdot.
    apply elem_of_app. right. left.
Qed.

Lemma checks_then root deep e (s : Status) :
  match storage_checks check root deep e with OK => s | err => err end = OK <->
  storage_checks check root deep e = OK /\ s = OK.
Proof. destruct (storage_checks check root deep e); [tauto|]. split; [done|]. by intros [? _]. Qed.

Lemma plain_loop root deep i :
  Forall (field_agrees deep) i ->
  okForStorage_loop check root deep false i = OK <-> Forall (plain_field spec root deep) i.
Proof.
  induction 1 as [|e i He Hi IH]; [done|]. cbn [okForStorage_loop andb].
  rewrite List.Forall_cons_iff. destruct (startsWith_char e.1 dollar) eqn:Ed.
  - split; [done|]. intros [(_ & ? & _) _]. congruence.
  - rewrite checks_then, storage_checks_spec, IH by done. done.
Qed.

Lemma type_string e : bool_decide (element_type e = String_) = true <-> exists s, e.2 = VString s.
Proof.
  rewrite bool_decide_eq_true. destruct e as [n v]. split; [|by intros [s [= ->]]].
  destruct v; try done. intros _. by eexists.
Qed.

Lemma storage_loop root deep i :
  Forall (field_agrees deep) i ->
  okForStorage_loop check root deep true i = OK <-> storable_fields spec root deep i.
Proof.
  intros Hi. unfold storable_fields. destruct Hi as [|e i He Hi].
  { split; [intros _; by left|done]. }
  cbn [okForStorage_loop andb]. destruct (startsWith_char e.1 dollar) eqn:Ed.
  2:{ rewrite checks_then, storage_checks_spec, plain_loop by done. split.
      - intros [? ?]. left. by constructor.
      - intros [H|(ref & id & rest & [= -> _] & _)]; [by apply List.Forall_cons_iff in H|done]. }
  assert (forall P : Prop, ~ P -> Err DollarPrefixedFieldName (e.1 ++ B " is not valid for storage.") = OK
    <-> P) as Hbad by (intros P ?; split; done).
  assert (~ Forall (plain_field spec root deep) (e :: i)) as Hnp.
  { intros H. apply List.Forall_cons_iff in H as [(_ & ? & _) _]. congruence. }
  destruct (_ && _) eqn:Er.
  2:{ apply Hbad. intros [?|(ref & id & rest & [= -> _] & _)]; [done|]. cbn in Er. done. }
  apply andb_prop in Er as [En Et]. apply type_string in Et as [s Es].
  apply strcmp_zero in En; [|apply He|by cbn; not_in].
  destruct e as [n v]. cbn [fst snd] in *. subst.
  destruct i as [|id i].
  { apply Hbad. by intros [?|(? & ? & ? & [= ] & _)]. }
  apply List.Forall_cons_iff in Hi as [Hid Hi].
  destruct (strcmp id.1 (B "$id") =? 0) eqn:Eid.
  2:{ apply Hbad. intros [?|(ref & id' & rest & [= _ -> _] & _)]; [done|].
      cbn [fst] in Eid. by rewrite strcmp_refl in Eid. }
  apply strcmp_zero in Eid; [|apply Hid|by cbn; not_in].
  destruct id as [nid vid]. cbn [fst snd] in *. subst.
  transitivity (Forall (plain_field spec root deep) i \/
     exists db rest', i = (B "$db", VString db) :: rest' /\
       Forall (plain_field spec root deep) rest').
  2:{ split.
      - intros H. right. by exists s, vid, i.
      - by intros [?|(? & ? & ? & [= <- <- <-] & H)]. }
  destruct Hi as [|e3 i He3 Hi]; [split; [by left|done]|].
  destruct (_ && _) eqn:Edb.
  - apply andb_prop in Edb as [En Et]. apply type_string in Et as [db Es].
    apply strcmp_zero in En; [|apply He3|by cbn; not_in].
    destruct e3 as [n3 v3]. cbn [fst snd] in *. subst.
    rewrite plain_loop by done. split.
    + intros H. right. by exists db, i.
    + intros [H|(db' & rest' & [= <- <-] & H)]; [|done].
      by apply List.Forall_cons_iff in H as [_ ?].
  - destruct (startsWith_char e3.1 dollar) eqn:Ed3.
    + split; [done|]. intros [H|(db' & rest' & [= -> _] & H)].
      * apply List.Forall_cons_iff in H as [(_ & ? & _) _]. congruence.
      * cbn in Edb. done.
    + rewrite checks_then, storage_checks_spec, plain_loop by done. split.
      * intros [? ?]. left. by constructor.
      * intros [H|(db' & rest' & [= -> _] & H)]; [by apply List.Forall_cons_iff in H|done].
Qed.
End storage_proof.

Lemma sized_small s : zlen s <= int_max int32 -> sized s.
Proof.
  unfold sized, zlen. assert (int_max int32 < npos) by (by vm_compute). lia.
Qed.

Lemma elements_fit o :
  wf_obj o -> int_sized (encode_elements o) ->
  Forall (fun e => (nul ∉ e.1) /\ sized e.1 /\ wf_value e.2 /\ int_sized (encode_value e.2)) o.
Proof.
  induction 1 as [|e o [Hn Hv] Ho IH]; [constructor|].
  change (encode_elements (e :: o)) with (encode_element e ++ encode_elements o).
  unfold int_sized in *. intros Hs. zlen_simpl. constructor.
  - split_and!; [done|apply sized_small; lia|done|lia].
  - apply IH. lia.
Qed.

Lemma nested_storage v :
  wf_value v -> int_sized (encode_value v) -> nested_okForStorage v = OK <-> storable_value v.
Proof.
  assert (forall o, Forall (fun e => wf_value e.2 -> int_sized (encode_value e.2) ->
      nested_okForStorage e.2 = OK <-> storable_value e.2) o ->
    wf_obj o -> int_sized (encode_obj o) ->
    okForStorage_loop nested_okForStorage false true true o = OK <->
    storable_fields storable_value false true o) as Ho.
  { intros o IH Hw Hs. apply storage_loop.
    assert (int_sized (encode_elements o)) as Hs' by (unfold int_sized in *; zlen_simpl; lia).
    pose proof (elements_fit o Hw Hs') as Hf. rewrite !Forall_forall in *.
    intros e Hin. destruct (Hf e Hin) as (? & ? & ? & ?). unfold field_agrees. eauto. }
  assert (forall v o, (v = VObject o \/ v = VArray o \/ exists c, v = VCodeWScope c o) ->
    storable_value v <-> storable_fields storable_value false true o) as Hinv.
  { intros u o Hu. split; [|by apply storable_object]. inversion 1 as [? Hl|? o' Hu' Hf]; subst.
    - destruct Hu as [->|[->|[c ->]]]; done.
    - destruct Hu as [->|[->|[c ->]]], Hu' as [H'|[H'|[c' H']]]; simplify_eq; done. }
  induction v as [v Hv|o IH|o IH|c o IH] using bson_value_ind'; intros Hw Hs.
  - split; [intros _; by apply storable_leaf|]. intros _. destruct v; done.
  - rewrite (Hinv _ o) by auto. rewrite encode_VObject in Hs.
    apply Ho; [done|by apply wf_VObject|done].
  - rewrite (Hinv _ o) by auto. rewrite encode_VArray in Hs.
    apply Ho; [done|by apply wf_VArray|done].
  - rewrite (Hinv _ o) by eauto. rewrite encode_VCodeWScope in Hs.
    apply Ho; [done|by eapply wf_VCodeWScope|]. unfold int_sized in *. zlen_simpl. lia.
Qed.

Lemma okForStorage_aux root deep o :
  wf_obj o -> int_sized (encode_obj o) -> _okForStorage root deep o = OK <-> storable root deep o.
Proof.
  intros Hw Hs. apply storage_loop.
  assert (int_sized (encode_elements o)) as Hs' by (unfold int_sized in *; zlen_simpl; lia).
  pose proof (elements_fit o Hw Hs') as Hf. rewrite !Forall_forall in *.
  intros e Hin. destruct (Hf e Hin) as (? & ? & ? & ?). unfold field_agrees.
  split_and!; [done|done|]. intros _. by apply nested_storage.
Qed.

(** *** Dotted lookup *)

(** A path followed object by object; an element that is missing or is no
    object has no fields. *)
Fixpoint path_lookup (o : BSONObj) (p : bytes) (ps : list bytes) : BSONElement :=
  match ps with
  | [] => getField o p
  | q :: ps' => path_lookup (getObjectField o p) q ps'
  end.
Fixpoint join_dots (p : bytes) (ps : list bytes) : bytes :=
  match ps with [] => p | q :: ps' => p ++ dot :: join_dots q ps' end.

(** No field name below contains a dot. *)
Fixpoint dotless_value (v : bson_value) : Prop :=
  let dotless := fix dotless (o : list (bytes * bson_value)) : Prop :=
    match o with [] => True | (n, v) :: o' => (dot ∉ n) /\ dotless_value v /\ dotless o' end in
  match v with VObject o | VArray o | VCodeWScope _ o => dotless o | _ => True end.
Definition dotless (o : BSONObj) : Prop := dotless_value (VObject o).

Lemma dotless_cons n v o : dotless ((n, v) :: o) <-> (dot ∉ n) /\ dotless_value v /\ dotless o.
Proof. done. Qed.

Lemma dotless_getField o name : dotless o -> dot ∈ name -> getField o name = eooElement.
Proof.
  intros Ho Hd. apply getField_notin. intros (e & -> & Hin)%list_elem_of_fmap.
  induction o as [|[n v] o IH]; [by apply not_elem_of_nil in Hin|].
  apply dotless_cons in Ho as (Hn & _ & Ho). apply elem_of_cons in Hin as [-> | Hin]; [done|auto].
Qed.

Lemma dotless_getObjectField o p : dotless o -> dotless (getObjectField o p).
Proof.
  intros Ho. unfold getObjectField. induction o as [|[n v] o IH]; [done|].
  apply dotless_cons in Ho as (_ & Hv & Ho). cbn [getField fst].
  destruct (StringData_eq p n); [by destruct v|by apply IH].
Qed.

Lemma path_lookup_nil p ps : path_lookup [] p ps = eooElement.
Proof. revert p. induction ps as [|q ps IH]; intros p; [done|apply IH]. Qed.

Lemma getFieldDotted_path_aux fuel o p ps :
  (length ps <= fuel)%nat -> dotless o -> Forall (fun q => dot ∉ q) (p :: ps) ->
  sized (join_dots p ps) ->
  getFieldDotted fuel o (join_dots p ps) = Ret (path_lookup o p ps).
Proof.
  revert fuel o p. induction ps as [|q ps IH]; intros fuel o p Hf Ho Hp Hs;
    apply List.Forall_cons_iff in Hp as [Hp Hps].
  - cbn [join_dots path_lookup]. destruct fuel; cbn [getFieldDotted];
      (destruct (eoo (getField o p)); [|done]; by rewrite find_char_notin, Z.eqb_refl).
  - destruct fuel as [|fuel]; [cbn in Hf; lia|]. cbn [getFieldDotted].
    change (join_dots p (q :: ps)) with (p ++ dot :: join_dots q ps) in *.
    rewrite dotless_getField; [|done|apply elem_of_app; right; left].
    change (eoo eooElement) with true. cbv iota. rewrite find_char_first by done.
    rewrite (zlen_ne_npos _ _ _ Hs). cbn [negb]. rewrite substr_app_0, substr_after by done.
    cbn [mbind result_bind path_lookup].
    assert (sized (join_dots q ps)) by (unfold sized in *; rewrite length_app in Hs; cbn in Hs; lia).
    cbn [length] in Hf.
    pose proof (IH fuel (getObjectField o p) q ltac:(lia) (dotless_getObjectField o p Ho) Hps)
      as Hrec.
    destruct (getObjectField o p); [by rewrite path_lookup_nil|by apply Hrec].
Qed.

Lemma join_dots_length p ps : (length ps <= length (join_dots p ps))%nat.
Proof.
  revert p. induction ps as [|q ps IH]; intros p; cbn; [lia|].
  rewrite length_app. cbn. specialize (IH q). lia.
Qed.

(** ** Properties *)

(** The storage check accepts exactly the documents whose field names
    contain no dot and start with no dollar sign, apart from the leading fields
    of a DBRef, at every depth when the check is deep, and whose root [_id] is
    not a regular expression, an array or undefined.  The value of a DBRef's
    [$id] is under no condition: a name the rules forbid passes there. *)
Theorem okForStorage_spec root deep o :
  wf_obj o -> int_sized (encode_obj o) ->
  (_okForStorage root deep o = OK <-> storable root deep o) /\
  _okForStorage true true [(B "$ref", VString (B "c"));
    (B "$id", VObject [(B "$bad.name", VjstNULL)])] = OK.
Proof. intros Hw Hs. split; [by apply okForStorage_aux|by vm_compute]. Qed.

Lemma okForStorage_spec_witness :
  let o := [(B "a", VArray [(B "0", VObject [(B "b.c", VjstNULL)])])] in
  wf_obj o /\ isOK (_okForStorage true true o) = false /\ ~ storable true true o.
Proof.
  intros o.
  assert (wf_obj o) as Hw by (repeat constructor; cbn; not_in; repeat split; not_in).
  split; [exact Hw|]. split; [by vm_compute|].
  destruct (okForStorage_spec true true o Hw) as [H _]; [by vm_compute|].
  rewrite <-H. by vm_compute.
Defined.

(** On documents whose field names contain no dot, looking up a dotted name
    follows the path it spells, object by object; a name of [n] bytes needs at
    most [n] nested lookups, and the lookup never fails. *)
Theorem getFieldDotted_path o p ps :
  dotless o -> Forall (fun q => dot ∉ q) (p :: ps) -> sized (join_dots p ps) ->
  getFieldDotted (length (join_dots p ps)) o (join_dots p ps) = Ret (path_lookup o p ps).
Proof. intros. apply getFieldDotted_path_aux; [apply join_dots_length|done..]. Qed.

Lemma getFieldDotted_path_witness :
  let o := [(B "a", VObject [(B "b", VArray [(B "0", VNumberInt 5)])])] in
  getFieldDotted 5 o (B "a.b.0") = Ret (B "0", VNumberInt 5).
Proof.
  intros o. change (B "a.b.0") with (join_dots (B "a") [B "b"; B "0"]).
  apply (getFieldDotted_path o (B "a") [B "b"; B "0"]); [| |done].
  - cbn. repeat split; not_in.
  - repeat constructor; cbn; not_in.
Defined.
