(* ===== verification/Namespace.v ===== *)
(** * Namespaces: db/namespace_string.h, db/namespace_string-inl.h

    "database.collection": the class [NamespaceString] and the free functions
    that split a namespace at its first dot. *)
From S2P Require Import Prelude StringData BsonTypes BufBuilder Bson BsonObj.
Local Open Scope Z_scope.

Definition MaxDatabaseNameLen : Z := 128.

(** [std::string::find] of a character is that of [StringData]. *)
Definition find_dot (ns : bytes) : Z := StringData_find_char ns dot 0.

Definition nsToDatabaseSubstring (ns : bytes) : M bytes :=
  let i := find_dot ns in
  if i =? npos then massert 10078 (zlen ns <? MaxDatabaseNameLen);; Ret ns
  else massert 10088 (i <? MaxDatabaseNameLen);; StringData_substr ns 0 i.
Definition nsToDatabase (ns : bytes) : M bytes := nsToDatabaseSubstring ns.
(** The form that fills an array: the bytes written there. *)
Definition nsToDatabase_array (ns : bytes) : M bytes :=
  db ← nsToDatabaseSubstring ns; Ret (StringData_copyTo db true).
Definition nsToCollectionSubstring (ns : bytes) : M bytes :=
  let i := find_dot ns in
  massert 16886 (negb (i =? npos));; StringData_substr ns (i + 1) npos.

Definition nsIsFull (ns : bytes) : bool :=
  let i := find_dot ns in
  if i =? npos then false else if i =? size_wrap (zlen ns - 1) then false else true.
Definition nsIsDbOnly (ns : bytes) : bool := if find_dot ns =? npos then true else false.

(** [nsDBHash], on [int] and signed [char]: a step that overflows is undefined. *)
Fixpoint nsDBHash_loop (ns : bytes) (hash : Z) : M Z :=
  match ns with
  | [] => Ret hash
  | c :: ns =>
      if ceq c dot then Ret hash
      else hash ← int_result (hash + 11 * schar c); hash ← int_result (hash * 3);
           nsDBHash_loop ns hash
  end.
Definition nsDBHash (ns : bytes) : M Z := nsDBHash_loop ns 7.

(** [nsDBEquals]: the loop over [a]; past its end [b[a.size()]] is read. *)
Fixpoint nsDBEquals (a b : bytes) : bool :=
  match a, b with
  | x :: a', _ =>
      if ceq x dot then match b with [] => true | y :: _ => ceq y dot end
      else match b with [] => false | y :: b' => if ceq y x then nsDBEquals a' b' else false end
  | [], [] => true
  | [], y :: _ => ceq y dot
  end.

(** ** The class *)

Record NamespaceString := mkNamespaceString { _ns : bytes; _dotIndex : Z }.

Definition NamespaceString_default : NamespaceString := mkNamespaceString [] 0.
Definition NamespaceString_of (nsIn : bytes) : NamespaceString :=
  mkNamespaceString nsIn (find_dot nsIn).
Definition NamespaceString_pair (dbName collectionName : bytes) : M NamespaceString :=
  uassert 17235 (find_dot dbName =? npos);;
  uassert 17246 (match collectionName with [] => true | c :: _ => negb (ceq c dot) end);;
  let ns := dbName ++ dot :: collectionName in
  uassert 17295 (StringData_find_char ns nul 0 =? npos);;
  Ret (mkNamespaceString ns (zlen dbName)).

(** A [StringData] over [n] bytes at [pos]: outside the string it is not the
    program's to make. *)
Definition ns_span (s : bytes) (pos n : Z) : M bytes :=
  if (0 <=? pos) && (0 <=? n) && (pos + n <=? zlen s) then
    Ret (take (Z.to_nat n) (drop (Z.to_nat pos) s))
  else Throw EUndefined.
Definition ns_db (n : NamespaceString) : M bytes :=
  if _dotIndex n =? npos then Ret [] else ns_span (_ns n) 0 (_dotIndex n).
Definition ns_coll (n : NamespaceString) : M bytes :=
  if _dotIndex n =? npos then Ret []
  else ns_span (_ns n) (_dotIndex n + 1) (size_wrap (zlen (_ns n) - 1 - _dotIndex n)).

Definition oplog (ns : bytes) : M bool := StringData_startsWith ns (B "local.oplog.").
Definition normal (ns : bytes) : M bool :=
  if StringData_find_char ns dollar 0 =? npos then Ret true else oplog ns.
Definition special (ns : bytes) : M bool :=
  n ← normal ns;
  if negb n then Ret true
  else t ← StringData_substr ns (find_dot ns) npos; StringData_startsWith t (B ".system.").

Definition bad_db_chars : list char := [nul; "/"%char; "\"%char; dot; " "%char; chr 34].
Definition validDBName (db : bytes) : bool :=
  if (zlen db =? 0) || (64 <? zlen db) then false
  else forallb (fun c => negb (bool_decide (c ∈ bad_db_chars))) db.
Definition validCollectionName (coll : bytes) : bool :=
  match coll with
  | [] => false
  | c :: _ => if ceq c dot then false
              else forallb (fun c => negb (ceq c nul || ceq c dollar)) coll
  end.
Definition validCollectionComponent (ns : bytes) : M bool :=
  let idx := find_dot ns in
  if idx =? npos then Ret false
  else coll ← StringData_substr ns (idx + 1) npos;
       if validCollectionName coll then Ret true else oplog ns.

Definition ns_isValid (n : NamespaceString) : M bool :=
  db ← ns_db n; if negb (validDBName db) then Ret false
  else coll ← ns_coll n; Ret (negb (StringData_empty coll)).
Definition ns_isSystem (n : NamespaceString) : M bool :=
  coll ← ns_coll n; StringData_startsWith coll (B "system.").
Definition ns_isSystemDotIndexes (n : NamespaceString) : M bool :=
  coll ← ns_coll n; Ret (StringData_eq coll (B "system.indexes")).
Definition ns_isConfigDB (n : NamespaceString) : M bool :=
  db ← ns_db n; Ret (StringData_eq db (B "config")).
Definition ns_isCommand (n : NamespaceString) : M bool :=
  coll ← ns_coll n; Ret (StringData_eq coll (B "$cmd")).
Definition ns_isSpecialCommand (n : NamespaceString) : M bool :=
  coll ← ns_coll n; StringData_startsWith coll (B "$cmd.sys").
Definition ns_isOplog (n : NamespaceString) : M bool := oplog (_ns n).
Definition ns_isSpecial (n : NamespaceString) : M bool := special (_ns n).
Definition ns_isNormal (n : NamespaceString) : M bool := normal (_ns n).
Definition ns_eq (n m : NamespaceString) : bool := StringData_eq (_ns m) (_ns n).
Definition ns_lt (n m : NamespaceString) : bool := StringData_lt (_ns n) (_ns m).

Definition getSisterNS (n : NamespaceString) (local : bytes) : M bytes :=
  verify (match local with [] => false | c :: _ => negb (ceq c dot) end);;
  db ← ns_db n; Ret (db ++ dot :: local).
Definition getSystemIndexesCollection (n : NamespaceString) : M bytes :=
  db ← ns_db n; Ret (db ++ B ".system.indexes").
Definition getCommandNS (n : NamespaceString) : M bytes :=
  db ← ns_db n; Ret (db ++ B ".$cmd").

(** ** Lemmas *)

(** A namespace with a dot, split at the first one. *)
Lemma find_dot_split db coll : dot ∉ db -> find_dot (db ++ dot :: coll) = zlen db.
Proof. intros. unfold find_dot. by apply find_char_first. Qed.

Lemma nsToCollection_split db coll :
  dot ∉ db -> sized (db ++ dot :: coll) ->
  nsToCollectionSubstring (db ++ dot :: coll) = Ret coll.
Proof.
  intros Hd Hs. unfold nsToCollectionSubstring. rewrite find_dot_split by done.
  pose proof (sized_app_cons _ _ _ Hs). pose proof (zlen_nonneg db). pose proof (zlen_nonneg coll).
  replace (zlen db =? npos) with false by lia. cbn [negb massert guard_throw mbind result_bind].
  rewrite <-(size_wrap_small (zlen db + 1)) by lia. by apply substr_after.
Qed.

Lemma nsToDatabase_split db coll :
  dot ∉ db -> zlen db < MaxDatabaseNameLen ->
  nsToDatabase (db ++ dot :: coll) = Ret db.
Proof.
  intros Hd Hl. unfold nsToDatabase, nsToDatabaseSubstring. rewrite find_dot_split by done.
  assert (MaxDatabaseNameLen < npos) by done.
  replace (zlen db =? npos) with false by lia.
  replace (zlen db <? MaxDatabaseNameLen) with true by lia.
  cbn [massert guard_throw mbind result_bind]. by apply substr_app_0.
Qed.

(** [nsDBEquals] compares what comes before the first dot. *)
Fixpoint db_part (ns : bytes) : bytes :=
  match ns with [] => [] | c :: ns => if ceq c dot then [] else c :: db_part ns end.
Lemma nsDBEquals_spec a b : nsDBEquals a b = true <-> db_part a = db_part b.
Proof.
  revert b. induction a as [|x a IH]; intros [|y b]; cbn; try done.
  - by destruct (ceq y dot).
  - by destruct (ceq x dot).
  - destruct (ceq x dot) eqn:Ex, (ceq y dot) eqn:Ey; try done.
    + destruct (ceq y x) eqn:E; [|done]. apply ceq_true in E. subst. congruence.
    + destruct (ceq y x) eqn:E.
      * apply ceq_true in E. subst. rewrite IH. split; [by intros ->|by intros [= ->]].
      * apply ceq_false in E. split; [done|]. intros [= ? ?]. congruence.
Qed.
