(* ===== verification/WriteOps.v ===== *)
(** * Write operations: client/write_concern.cpp, write_operation_base.cpp,
    insert_write_operation.cpp, update_write_operation.cpp,
    delete_write_operation.cpp, write_options.h

    What a bulk write is made of: the write concern, and the three kinds of
    operation with the documents and the request bytes they stand for.  A
    document under construction is the list of its elements: [BsonBuilder] shows
    that the builder's bytes are the encoding of that list. *)
From S2P Require Import Prelude StringData ParseNumber BsonTypes BufBuilder Bson BsonObj.
From S2P Require Import BsonBuilder Namespace Codec Oid.
Local Open Scope Z_scope.

(** ** Write concern *)

(** [_enabled] has one bit for each option. *)
Record WriteConcern := mkWriteConcern {
  kW : bool; kWStr : bool; kJ : bool; kFsync : bool; kTimeout : bool;
  _w : Z; _w_str : bytes; _j : bool; _fsync : bool; _timeout : Z }.

Definition WriteConcern_ctor : WriteConcern :=
  mkWriteConcern false false false false false 1 [] false false 0.

Definition wc_nodes (c : WriteConcern) (w : Z) : WriteConcern :=
  mkWriteConcern true false (kJ c) (kFsync c) (kTimeout c) w (_w_str c) (_j c) (_fsync c) (_timeout c).
Definition wc_mode (c : WriteConcern) (w : bytes) : WriteConcern :=
  mkWriteConcern false true (kJ c) (kFsync c) (kTimeout c) (_w c) w (_j c) (_fsync c) (_timeout c).
Definition wc_journal (c : WriteConcern) (j : bool) : WriteConcern :=
  mkWriteConcern (kW c) (kWStr c) true (kFsync c) (kTimeout c) (_w c) (_w_str c) j (_fsync c) (_timeout c).
Definition wc_fsync (c : WriteConcern) (f : bool) : WriteConcern :=
  mkWriteConcern (kW c) (kWStr c) (kJ c) true (kTimeout c) (_w c) (_w_str c) (_j c) f (_timeout c).
Definition wc_timeout (c : WriteConcern) (t : Z) : WriteConcern :=
  mkWriteConcern (kW c) (kWStr c) (kJ c) (kFsync c) true (_w c) (_w_str c) (_j c) (_fsync c) t.

Definition wc_get_nodes (c : WriteConcern) : M Z := invariant (kW c || negb (kWStr c));; Ret (_w c).
Definition wc_get_mode (c : WriteConcern) : M bytes := invariant (kWStr c);; Ret (_w_str c).
Definition wc_hasMode (c : WriteConcern) : bool := kWStr c.

Definition unacknowledged : WriteConcern := wc_nodes WriteConcern_ctor 0.
Definition acknowledged : WriteConcern := WriteConcern_ctor.
Definition journaled : WriteConcern := wc_journal WriteConcern_ctor true.
Definition replicated : WriteConcern := wc_nodes WriteConcern_ctor 2.
Definition majority : WriteConcern := wc_mode WriteConcern_ctor (B "majority").

Definition requiresConfirmation (c : WriteConcern) : bool := negb (kW c) || negb (_w c =? 0).

Definition bool_value (b : bool) : bson_value := VBool (if b then chr 1 else chr 0).
Definition wc_obj (c : WriteConcern) : BSONObj :=
  (if kW c then [(B "w", VNumberInt (_w c))] else []) ++
  (if kWStr c then [(B "w", VString (_w_str c))] else []) ++
  (if kJ c then [(B "j", bool_value (_j c))] else []) ++
  (if kFsync c then [(B "fsync", bool_value (_fsync c))] else []) ++
  (if kTimeout c then [(B "wtimeout", VNumberInt (_timeout c))] else []).

(** ** Operations *)

Inductive WriteOpType := dbWriteUpdate | dbWriteInsert | dbWriteDelete.
Definition WriteOpType_value (t : WriteOpType) : Z :=
  match t with dbWriteUpdate => 2001 | dbWriteInsert => 2002 | dbWriteDelete => 2006 end.
Global Instance WriteOpType_eq_dec : EqDecision WriteOpType.
Proof. solve_decision. Defined.

Definition UpdateOption_Upsert : Z := 1.
Definition UpdateOption_Multi : Z := 2.
Definition RemoveOption_JustOne : Z := 1.
Definition InsertOption_ContinueOnError : Z := 1.

Inductive write_data :=
  | InsertWriteOperation (_doc : BSONObj)
  | DeleteWriteOperation (_selector : BSONObj) (_flags : Z)
  | UpdateWriteOperation (_selector _update : BSONObj) (_flags : Z).
(** [WriteOperationBase]: the index in the bulk operation, 0 until it is set. *)
Record WriteOperation := mkWriteOperation { data : write_data; bulkIndex : Z }.
Definition new_operation (d : write_data) : WriteOperation := mkWriteOperation d 0.
Definition setBulkIndex (o : WriteOperation) (index : Z) : WriteOperation :=
  mkWriteOperation (data o) index.
Definition getBulkIndex (o : WriteOperation) : Z := bulkIndex o.

(** [_ensureId]: a document without an [_id] gets a generated one, first. *)
Definition _ensureId (g : generator) (now : Z) (doc : BSONObj) : M (BSONObj * generator) :=
  let id := getField doc (B "_id") in
  if negb (eoo id) then
    uassert 0 (match id.2 with
               | VObject o | VArray o => isOK (_okForStorage false true o)
               | _ => true end);;
    Ret (doc, g)
  else
    let '(oid, g) := OID_gen OID_ctor g now in
    Ret ((B "_id", VjstOID oid) :: doc, g).
Definition InsertWriteOperation_ctor (g : generator) (now : Z) (doc : BSONObj)
    : M (WriteOperation * generator) :=
  '(doc, g) ← _ensureId g now doc; Ret (new_operation (InsertWriteOperation doc), g).

Definition operationType (o : WriteOperation) : WriteOpType :=
  match data o with
  | InsertWriteOperation _ => dbWriteInsert
  | DeleteWriteOperation _ _ => dbWriteDelete
  | UpdateWriteOperation _ _ _ => dbWriteUpdate
  end.
Definition batchName_of (t : WriteOpType) : bytes :=
  match t with
  | dbWriteInsert => B "documents" | dbWriteDelete => B "deletes" | dbWriteUpdate => B "updates"
  end.
Definition batchName (o : WriteOperation) : bytes := batchName_of (operationType o).
Definition kCommandKey_of (t : WriteOpType) : bytes :=
  match t with
  | dbWriteInsert => B "insert" | dbWriteDelete => B "delete" | dbWriteUpdate => B "update"
  end.

(** [objsize()] of an object of these elements. *)
Definition obj_size (o : BSONObj) : Z := zlen (encode_obj o).
Definition incrementalSize (o : WriteOperation) : M Z :=
  match data o with
  | InsertWriteOperation doc => Ret (obj_size doc)
  | DeleteWriteOperation selector _ => Ret (obj_size selector)
  | UpdateWriteOperation selector update _ => int_result (obj_size selector + obj_size update)
  end.

(** The preamble of a wire protocol request, and the operation's part of it. *)
Definition startRequest (o : WriteOperation) (ns : bytes) (ordered : bool) (b : BufBuilder)
    : M BufBuilder :=
  match data o with
  | InsertWriteOperation _ =>
      b ← BufBuilder_appendNum b int32 (if ordered then 0 else 1);
      BufBuilder_appendStr b ns true
  | DeleteWriteOperation _ flags | UpdateWriteOperation _ _ flags =>
      b ← BufBuilder_appendNum b int32 0;
      b ← BufBuilder_appendStr b ns true;
      BufBuilder_appendNum b int32 flags
  end.
Definition appendSelfToRequest (o : WriteOperation) (b : BufBuilder) : M BufBuilder :=
  match data o with
  | InsertWriteOperation doc => BufBuilder_appendBuf b (encode_obj doc)
  | DeleteWriteOperation selector _ => BufBuilder_appendBuf b (encode_obj selector)
  | UpdateWriteOperation selector update _ =>
      b ← BufBuilder_appendBuf b (encode_obj selector); BufBuilder_appendBuf b (encode_obj update)
  end.

(** The forms of a write command. *)
Definition startCommand (o : WriteOperation) (ns : bytes) (command : BSONObj) : M BSONObj :=
  coll ← nsToCollectionSubstring ns;
  Ret (command ++ [(kCommandKey_of (operationType o), VString coll)]).
Definition appendSelfToBSONObj (o : WriteOperation) (obj : BSONObj) : BSONObj :=
  obj ++
  match data o with
  | InsertWriteOperation doc => doc
  | DeleteWriteOperation selector flags =>
      [(B "q", VObject selector);
       (B "limit", VNumberInt (Z.land flags RemoveOption_JustOne))]
  | UpdateWriteOperation selector update flags =>
      [(B "q", VObject selector); (B "u", VObject update);
       (B "multi", bool_value (negb (Z.land flags UpdateOption_Multi =? 0)));
       (B "upsert", bool_value (negb (Z.land flags UpdateOption_Upsert =? 0)))]
  end.
(** The array of the batch names its elements 0, 1, 2, ... *)
Definition array_append (batch : BSONObj) (v : bson_value) : BSONObj :=
  batch ++ [(print_int (zlen batch), v)].
Definition appendSelfToCommand (o : WriteOperation) (batch : BSONObj) : BSONObj :=
  array_append batch (VObject (appendSelfToBSONObj o [])).

(** ** Lemmas *)

(** What an operation adds to a batch, beyond [incrementalSize]. *)
Definition op_overhead (o : WriteOperation) : Z :=
  match data o with
  | InsertWriteOperation _ => 0
  | DeleteWriteOperation _ _ => 19
  | UpdateWriteOperation _ _ _ => 28
  end.

Lemma obj_size_elements o : obj_size o = zlen (encode_elements o) + 5.
Proof. apply zlen_encode_obj. Qed.

Lemma encode_pair_size n v : zlen (encode_element (n, v)) = 2 + zlen n + zlen (encode_value v).
Proof. rewrite encode_element_header. autorewrite with mongo. cbn [zlen length]. lia. Qed.

Lemma obj_size_nonneg o : 5 <= obj_size o.
Proof. rewrite obj_size_elements. pose proof (zlen_nonneg (encode_elements o)). lia. Qed.

Lemma obj_size_cons n v o : obj_size ((n, v) :: o) = 2 + zlen n + zlen (encode_value v) + obj_size o.
Proof.
  rewrite !obj_size_elements. change (encode_elements ((n, v) :: o))
    with (encode_element (n, v) ++ encode_elements o).
  rewrite zlen_app, encode_pair_size. lia.
Qed.
Lemma encoded_object_size o : zlen (encode_value (VObject o)) = obj_size o.
Proof. by rewrite encode_VObject. Qed.
Lemma encoded_array_size o : zlen (encode_value (VArray o)) = obj_size o.
Proof. by rewrite encode_VArray. Qed.
Lemma encoded_bool_size b : zlen (encode_value (bool_value b)) = 1.
Proof. done. Qed.
Lemma encoded_int_size n : zlen (encode_value (VNumberInt n)) = 4.
Proof. apply zlen_le4. Qed.
Lemma encoded_string_size s : zlen (encode_value (VString s)) = zlen s + 5.
Proof. apply zlen_encode_string. Qed.
Create Rewrite HintDb obj_size.
#[export] Hint Rewrite obj_size_cons encoded_object_size encoded_array_size
  encoded_bool_size encoded_int_size encoded_string_size : obj_size.

Lemma int_result_value z a : int_result z = Ret a -> a = z.
Proof. unfold int_result. case_match; congruence. Qed.

Lemma appendSelfToBSONObj_size o n :
  incrementalSize o = Ret n -> obj_size (appendSelfToBSONObj o []) = n + op_overhead o.
Proof.
  unfold incrementalSize, appendSelfToBSONObj, op_overhead. cbn [app].
  destruct (data o); intros H.
  - injection H as <-. lia.
  - injection H as <-. autorewrite with obj_size.
    change (zlen (B "q")) with 1. change (zlen (B "limit")) with 5. change (obj_size []) with 5. lia.
  - apply int_result_value in H as ->. autorewrite with obj_size.
    change (zlen (B "q")) with 1. change (zlen (B "u")) with 1.
    change (zlen (B "multi")) with 5. change (zlen (B "upsert")) with 6.
    change (obj_size []) with 5. lia.
Qed.

(** The name of an array's element, for an index that is an [int]. *)
Lemma dec_loop_length fuel k z acc :
  0 <= z < 10 ^ Z.of_nat (S k) ->
  zlen acc < zlen (dec_loop fuel z acc) <= zlen acc + Z.of_nat (S k).
Proof.
  revert k z acc. induction fuel as [|fuel IH]; intros k z acc Hz; cbn [dec_loop].
  - rewrite zlen_cons. lia.
  - destruct (z <? 10) eqn:E; [rewrite zlen_cons; lia|].
    destruct k as [|k].
    { change (10 ^ Z.of_nat 1) with 10 in Hz. lia. }
    destruct (IH k (z / 10) (chr (48 + z mod 10) :: acc)) as [H1 H2].
    { rewrite Nat2Z.inj_succ, Z.pow_succ_r in Hz by lia. split; [apply Z.div_pos; lia|].
      apply Z.div_lt_upper_bound; lia. }
    rewrite zlen_cons in *. lia.
Qed.

Lemma print_int_length z : 0 <= z <= int_max int32 -> 1 <= zlen (print_int z) <= 10.
Proof.
  change (int_max int32) with 2147483647. intros Hz. unfold print_int, print_nonneg.
  replace (z <? 0) with false by lia.
  destruct (dec_loop_length (Z.to_nat (Z.log2 z)) 9 z []) as [H1 H2]; [cbn; lia|].
  change (zlen (@nil char)) with 0 in *. lia.
Qed.

(** The array grows by the document and at most twelve bytes. *)
Lemma array_append_size batch o :
  zlen batch <= int_max int32 ->
  obj_size batch < obj_size (array_append batch (VObject o)) <= obj_size batch + obj_size o + 12.
Proof.
  intros Hb. pose proof (zlen_nonneg batch). pose proof (print_int_length (zlen batch) ltac:(lia)).
  pose proof (obj_size_nonneg o).
  unfold array_append. rewrite !(obj_size_elements (batch ++ _)), encode_elements_app, zlen_app.
  rewrite (obj_size_elements batch).
  change (encode_elements [(print_int (zlen batch), VObject o)])
    with (encode_element (print_int (zlen batch), VObject o) ++ []).
  rewrite app_nil_r, encode_pair_size, encoded_object_size. lia.
Qed.
