(* ===== verification/WriteResult.v ===== *)
(** * Results of writes: client/write_result.cpp

    [WriteResult] collects what the replies to the batches of one bulk operation
    say.  A member function changes the object and may throw half way, so each
    is a function from the object to the object and an outcome. *)
From S2P Require Import Prelude StringData BsonTypes BufBuilder Bson BsonObj WriteOps.
Local Open Scope Z_scope.

(** An [OperationException] carries a document; the other exceptions are those
    of [exn]. *)
Inductive write_exn :=
  | OperationException (obj : BSONObj)
  | OtherException (e : exn).

Record WriteResult := mkWriteResult {
  _nInserted : Z; _nUpserted : Z; _nMatched : Z; _nModified : Z; _nRemoved : Z;
  _upserted : list BSONObj; _writeErrors : list BSONObj; _writeConcernErrors : list BSONObj;
  _hasModifiedCount : bool; _requiresDetailedInsertResults : bool }.

Definition WriteResult_ctor : WriteResult := mkWriteResult 0 0 0 0 0 [] [] [] true false.

Definition hasWriteErrors (r : WriteResult) : bool :=
  match _writeErrors r with [] => false | _ => true end.
Definition hasWriteConcernErrors (r : WriteResult) : bool :=
  match _writeConcernErrors r with [] => false | _ => true end.
Definition hasErrors (r : WriteResult) : bool := hasWriteErrors r || hasWriteConcernErrors r.
Definition nModified (r : WriteResult) : M Z := uassert 0 (_hasModifiedCount r);; Ret (_nModified r).

(** ** Computations on a state *)

Definition SE (S A : Type) : Type := S -> S * result write_exn A.
Global Instance SE_ret {S} : MRet (SE S) := fun A a s => (s, Ret a).
Global Instance SE_bind {S} : MBind (SE S) := fun A C f m s =>
  let '(s, a) := m s in match a with Ret a => f a s | Throw e => (s, Throw e) end.
Abbreviation SW := (SE WriteResult).
Definition lift_exn {A} (m : M A) : result write_exn A :=
  match m with Ret a => Ret a | Throw e => Throw (OtherException e) end.
Definition lift {S A} (m : M A) : SE S A := fun s => (s, lift_exn m).

Lemma bind_lift_Ret {S A C} (a : A) (f : A -> SE S C) : (lift (Ret a) ≫= f) = f a.
Proof. reflexivity. Qed.
Lemma bind_lift_Throw {S A C} e (f : A -> SE S C) s :
  (lift (Throw e) ≫= f) s = (s, Throw (OtherException e)).
Proof. reflexivity. Qed.
Lemma bind_mret {S A C} (a : A) (f : A -> SE S C) : (mret a ≫= f) = f a.
Proof. reflexivity. Qed.
Lemma bind_assoc {S A C D} (m : SE S A) (f : A -> SE S C) (g : C -> SE S D) s :
  ((m ≫= f) ≫= g) s = (m ≫= fun x => f x ≫= g) s.
Proof. unfold mbind, SE_bind. by destruct (m s) as [? [?|?]]. Qed.
(** Two computations agree when they do on every state. *)
Lemma bind_ext {S A C} (m : SE S A) (f g : A -> SE S C) s :
  (forall a s, f a s = g a s) -> (m ≫= f) s = (m ≫= g) s.
Proof. intros H. unfold mbind, SE_bind. destruct (m s) as [? [?|?]]; [apply H|done]. Qed.

Lemma bind_run {S A D} (m : SE S A) (f : A -> SE S D) s s1 a : m s = (s1, Ret a) -> (m ≫= f) s = f a s1.
Proof. unfold mbind, SE_bind. by intros ->. Qed.
Lemma bind_Ret_inv {S A C} (m : SE S A) (f : A -> SE S C) s s' v :
  (m ≫= f) s = (s', Ret v) -> exists a s1, m s = (s1, Ret a) /\ f a s1 = (s', Ret v).
Proof.
  unfold mbind, SE_bind. destruct (m s) as [s1 [a|e]]; [|done]. intros H. by exists a, s1.
Qed.

Definition read_result {A} (f : WriteResult -> A) : SW A := fun r => (r, Ret (f r)).
Definition update_result (f : WriteResult -> WriteResult) : SW unit := fun r => (f r, Ret tt).

(** The members one at a time.  The counts are [int]s: [+=] is undefined when
    it overflows. *)
Definition add_nInserted (k : Z) : SW unit :=
  n ← read_result _nInserted; n ← lift (int_result (n + k));
  update_result (fun r => mkWriteResult n (_nUpserted r) (_nMatched r) (_nModified r) (_nRemoved r)
    (_upserted r) (_writeErrors r) (_writeConcernErrors r) (_hasModifiedCount r)
    (_requiresDetailedInsertResults r)).
Definition add_nUpserted (k : Z) : SW unit :=
  n ← read_result _nUpserted; n ← lift (int_result (n + k));
  update_result (fun r => mkWriteResult (_nInserted r) n (_nMatched r) (_nModified r) (_nRemoved r)
    (_upserted r) (_writeErrors r) (_writeConcernErrors r) (_hasModifiedCount r)
    (_requiresDetailedInsertResults r)).
Definition add_nMatched (k : Z) : SW unit :=
  n ← read_result _nMatched; n ← lift (int_result (n + k));
  update_result (fun r => mkWriteResult (_nInserted r) (_nUpserted r) n (_nModified r) (_nRemoved r)
    (_upserted r) (_writeErrors r) (_writeConcernErrors r) (_hasModifiedCount r)
    (_requiresDetailedInsertResults r)).
Definition add_nModified (k : Z) : SW unit :=
  n ← read_result _nModified; n ← lift (int_result (n + k));
  update_result (fun r => mkWriteResult (_nInserted r) (_nUpserted r) (_nMatched r) n (_nRemoved r)
    (_upserted r) (_writeErrors r) (_writeConcernErrors r) (_hasModifiedCount r)
    (_requiresDetailedInsertResults r)).
Definition add_nRemoved (k : Z) : SW unit :=
  n ← read_result _nRemoved; n ← lift (int_result (n + k));
  update_result (fun r => mkWriteResult (_nInserted r) (_nUpserted r) (_nMatched r) (_nModified r) n
    (_upserted r) (_writeErrors r) (_writeConcernErrors r) (_hasModifiedCount r)
    (_requiresDetailedInsertResults r)).
Definition push_upserted (o : BSONObj) : SW unit :=
  update_result (fun r => mkWriteResult (_nInserted r) (_nUpserted r) (_nMatched r) (_nModified r)
    (_nRemoved r) (_upserted r ++ [o]) (_writeErrors r) (_writeConcernErrors r)
    (_hasModifiedCount r) (_requiresDetailedInsertResults r)).
Definition push_writeError (o : BSONObj) : SW unit :=
  update_result (fun r => mkWriteResult (_nInserted r) (_nUpserted r) (_nMatched r) (_nModified r)
    (_nRemoved r) (_upserted r) (_writeErrors r ++ [o]) (_writeConcernErrors r)
    (_hasModifiedCount r) (_requiresDetailedInsertResults r)).
Definition push_writeConcernError (o : BSONObj) : SW unit :=
  update_result (fun r => mkWriteResult (_nInserted r) (_nUpserted r) (_nMatched r) (_nModified r)
    (_nRemoved r) (_upserted r) (_writeErrors r) (_writeConcernErrors r ++ [o])
    (_hasModifiedCount r) (_requiresDetailedInsertResults r)).
Definition set_hasModifiedCount (b : bool) : SW unit :=
  update_result (fun r => mkWriteResult (_nInserted r) (_nUpserted r) (_nMatched r) (_nModified r)
    (_nRemoved r) (_upserted r) (_writeErrors r) (_writeConcernErrors r) b
    (_requiresDetailedInsertResults r)).
Definition set_requiresDetailed (b : bool) : SW unit :=
  update_result (fun r => mkWriteResult (_nInserted r) (_nUpserted r) (_nMatched r) (_nModified r)
    (_nRemoved r) (_upserted r) (_writeErrors r) (_writeConcernErrors r) (_hasModifiedCount r) b).

(** ** Reading a reply *)

(** [getIntField]: [(int) e.number()], where [number()] is a [double]; a value
    no [int] holds makes the conversion undefined. *)
Definition getIntField (o : BSONObj) (field : bytes) : M Z :=
  let to_int z := if decide (in_range int32 z) then Ret z else Throw EUndefined in
  match (getField o field).2 with
  | VNumberInt n => Ret n
  | VNumberLong n => to_int n
  | VNumberDouble bits =>
      match double_of_bits bits with
      | Finite v => to_int (Z.quot v one_units)
      | _ => Throw EUndefined
      end
  | _ => Ret (int_min int32)
  end.
Definition _getIntOrDefault (o : BSONObj) (field : bytes) (defaultValue : Z) : M Z :=
  if hasField o field then getIntField o field else Ret defaultValue.

(** [ops[batchIndex]] of a vector: not checked. *)
Definition op_at (ops : list WriteOperation) (i : Z) : M WriteOperation :=
  match zlookup ops i with Some o => Ret o | None => Throw EUndefined end.
Definition index_element (o : WriteOperation) : BSONElement :=
  (B "index", VNumberLong (getBulkIndex o)).

Definition _createUpsert (upsert : BSONElement) (ops : list WriteOperation) : SW unit :=
  '(batchIndex, id) ← lift (
     if isABSONObj upsert then
       o ← Obj upsert; i ← _getIntOrDefault o (B "index") 0; Ret (i, getField o (B "_id"))
     else Ret (0, upsert));
  op ← lift (op_at ops batchIndex);
  lift (verify (negb (eoo id)));;
  push_upserted [index_element op; (B "_id", id.2)].

Fixpoint createUpserts_loop (arr : BSONObj) (ops : list WriteOperation) (nUpserted : Z) : SW Z :=
  match arr with
  | [] => mret nUpserted
  | e :: arr => _createUpsert e ops;; createUpserts_loop arr ops (nUpserted + 1)
  end.
Definition _createUpserts (upserted : BSONElement) (ops : list WriteOperation) : SW Z :=
  arr ← lift (Obj upserted); createUpserts_loop arr ops 0.

Definition kUnknownError : Z := 8.
Definition kWriteConcernErrorCode : Z := 64.

Definition details_of (error : BSONObj) : BSONObj :=
  if hasField error (B "errInfo")
  then [(B "details", VObject (getObjectField error (B "errInfo")))] else [].
Definition _createWriteError (error : BSONObj) (ops : list WriteOperation) : SW unit :=
  batchIndex ← lift (_getIntOrDefault error (B "index") 0);
  code ← lift (_getIntOrDefault error (B "code") kUnknownError);
  op ← lift (op_at ops batchIndex);
  push_writeError ([index_element op; (B "code", VNumberInt code);
    (B "errmsg", VString (getStringField error (B "errmsg")));
    (B "op", VObject (appendSelfToBSONObj op []))] ++ details_of error).
Definition _createWriteConcernError (error : BSONObj) : SW unit :=
  code ← lift (_getIntOrDefault error (B "code") kWriteConcernErrorCode);
  push_writeConcernError ([(B "code", VNumberInt code);
    (B "errmsg", VString (getStringField error (B "errmsg")))] ++ details_of error).

Definition _setModified (result : BSONObj) : SW unit :=
  n ← lift (getIntField result (B "nModified"));
  has ← read_result _hasModifiedCount;
  if has && (0 <=? n) then add_nModified n else set_hasModifiedCount false.

Fixpoint writeErrors_loop (arr : BSONObj) (ops : list WriteOperation) : SW unit :=
  match arr with
  | [] => mret tt
  | e :: arr =>
      o ← lift (Obj e); _createWriteError o ops;; writeErrors_loop arr ops
  end.

(** [ops.front()]. *)
Definition op_front (ops : list WriteOperation) : M WriteOperation := op_at ops 0.

Definition _mergeCommandResult (ops : list WriteOperation) (result : BSONObj) : SW unit :=
  affected ← lift (_getIntOrDefault result (B "n") 0);
  front ← lift (op_front ops);
  match operationType front with
  | dbWriteInsert => add_nInserted affected
  | dbWriteDelete => add_nRemoved affected
  | dbWriteUpdate =>
      (if hasField result (B "upserted") then
         nUpserted ← _createUpserts (getField result (B "upserted")) ops;
         add_nUpserted nUpserted;;
         matched ← lift (int_result (affected - nUpserted));
         add_nMatched matched
       else add_nMatched affected);;
      _setModified result
  end;;
  (if hasField result (B "writeErrors") then
     arr ← lift (Obj (getField result (B "writeErrors")));
     writeErrors_loop arr ops
   else mret tt);;
  (if hasField result (B "writeConcernError") then
     _createWriteConcernError (getObjectField result (B "writeConcernError"))
   else mret tt).

(** The error text of a reply to getLastError. *)
Definition gle_error (result : BSONObj) : bytes :=
  if hasField result (B "errmsg") then getStringField result (B "errmsg")
  else if hasField result (B "err") then getStringField result (B "err") else [].

(** The [_id] of an upsert an old server did not return. *)
Definition upserted_id (op : WriteOperation) : M BSONElement :=
  let updateOp := appendSelfToBSONObj op [] in
  id ← getFieldDotted 5 updateOp (B "u._id");
  if eoo id then getFieldDotted 5 updateOp (B "q._id") else Ret id.

Definition _mergeGleResult (ops : list WriteOperation) (result : BSONObj) : SW unit :=
  affected ← lift (_getIntOrDefault result (B "n") 0);
  if negb (StringData_empty (gle_error result)) then
    if hasField result (B "wtimeout") then _createWriteConcernError result
    else _createWriteError result ops
  else
    front ← lift (op_front ops);
    match operationType front with
    | dbWriteInsert => add_nInserted 1
    | dbWriteDelete => add_nRemoved affected
    | dbWriteUpdate =>
        (if hasField result (B "upserted") then
           _createUpsert (getField result (B "upserted")) ops;; add_nUpserted affected
         else if hasField result (B "updatedExisting")
                 && negb (getBoolField result (B "updatedExisting")) && (affected =? 1) then
           id ← lift (upserted_id front);
           _createUpsert id ops;; add_nUpserted affected
         else add_nMatched affected);;
        _setModified result
    end.

Definition _check (throwSoftErrors : bool) : SW unit := fun r =>
  match last (_writeErrors r) with
  | Some e => (r, Throw (OperationException e))
  | None =>
      match _writeConcernErrors r with
      | e :: _ => if throwSoftErrors then (r, Throw (OperationException e)) else (r, Ret tt)
      | [] => (r, Ret tt)
      end
  end.
