(* ===== verification/Writers.v ===== *)
(** * Bulk writes: client/command_writer.cpp, wire_protocol_writer.cpp,
    bulk_operation_builder.cpp, bulk_update_builder.cpp, bulk_upsert_builder.cpp,
    and the write functions of client/dbclient.cpp

    The two writers cut the operations into batches, send each batch and merge
    the reply.  The connection is not modelled: what the server does is a
    function of everything sent so far, and may throw. *)
From S2P Require Import Prelude StringData ParseNumber BsonTypes BufBuilder Bson BsonObj.
From S2P Require Import BsonBuilder Namespace Codec Oid WriteOps WriteResult.
Local Open Scope Z_scope.

(** ** The client *)

Inductive event :=
  | SentCommand (db : bytes) (command : BSONObj)
  | SentRequest (op : WriteOpType) (buf : bytes).

Record DBClient := mkDBClient {
  getMaxBsonObjectSize : Z; getMaxMessageSizeBytes : Z; getMaxWriteBatchSize : Z;
  getMaxWireVersion : Z; getWriteConcern : WriteConcern;
  (** [runCommand]: whether the command worked, and the reply; [say]. *)
  answer : list event -> result write_exn (bool * BSONObj);
  delivery : list event -> result write_exn unit }.

(** The caller's [WriteResult] and what has been sent. *)
Record wstate := mkW { wresult : WriteResult; sent : list event }.

Definition on_result {A} (m : SW A) : SE wstate A := fun s =>
  let '(r, a) := m (wresult s) in (mkW r (sent s), a).
Definition runCommand (c : DBClient) (db : bytes) (command : BSONObj) : SE wstate (bool * BSONObj) :=
  fun s => let l := sent s ++ [SentCommand db command] in (mkW (wresult s) l, answer c l).
Definition say (c : DBClient) (op : WriteOpType) (buf : bytes) : SE wstate unit :=
  fun s => let l := sent s ++ [SentRequest op buf] in (mkW (wresult s) l, delivery c l).
Definition throw_unless (b : bool) (o : BSONObj) : SE wstate unit :=
  fun s => (s, if b then Ret tt else Throw (OperationException o)).

(** ** One batch

    The inner loops of the two writers differ in what they append to, in
    [_fits], and in that the wire protocol cannot batch everything. *)
Section Batch.
Context {Acc : Type} (append_op : WriteOperation -> Acc -> M Acc)
  (fits : Acc -> WriteOperation -> M bool) (maxWriteBatchSize : Z) (batchable : WriteOpType -> bool).

(** From [iter], the operation to append, and the ones after it: the batch,
    its operations, and the ones left. *)
Fixpoint batch_loop (batchOpType : WriteOpType) (batch : Acc) (batchOps : list WriteOperation)
    (iter : WriteOperation) (after : list WriteOperation)
    : M (Acc * list WriteOperation * list WriteOperation) :=
  batch ← append_op iter batch;
  let batchOps := batchOps ++ [iter] in
  if negb (batchable batchOpType) then Ret (batch, batchOps, after)
  else
    match after with
    | [] => Ret (batch, batchOps, after)
    | next :: after' =>
        if negb (bool_decide (operationType next = batchOpType)) then Ret (batch, batchOps, after)
        else if zlen batchOps >=? maxWriteBatchSize then Ret (batch, batchOps, after)
        else
          f ← fits batch next;
          if negb f then Ret (batch, batchOps, after)
          else batch_loop batchOpType batch batchOps next after'
    end.
End Batch.

(** ** CommandWriter *)

Definition kOverhead : Z := 8 * 1024.

(** [BSONArrayBuilder::len()]: the reference count in front, the length, and
    the elements so far. *)
Definition array_len (batch : BSONObj) : Z := 4 + 4 + zlen (encode_elements batch).

Definition command_fits (c : DBClient) (batch : BSONObj) (operation : WriteOperation) : M bool :=
  opSize ← incrementalSize operation;
  let maxSize := getMaxBsonObjectSize c in
  uassert 0 (opSize <=? maxSize);;
  n ← int_result (array_len batch + opSize);
  n ← int_result (n + kOverhead);
  Ret (n <=? maxSize).

Definition _endCommand (batch : BSONObj) (operation : WriteOperation) (ordered : bool)
    (command : BSONObj) : BSONObj :=
  command ++ [(batchName operation, VArray batch); (B "ordered", bool_value ordered)].

Definition command_send (c : DBClient) (command : BSONObj) (wc : WriteConcern) (ns : bytes)
    : SE wstate BSONObj :=
  let command := command ++ [(B "writeConcern", VObject (wc_obj wc))] in
  db ← lift (nsToDatabase ns);
  '(commandWorked, result) ← runCommand c db command;
  throw_unless commandWorked result;;
  mret result.

Definition command_batch (c : DBClient)
    : WriteOpType -> BSONObj -> list WriteOperation -> WriteOperation -> list WriteOperation ->
      M (BSONObj * list WriteOperation * list WriteOperation) :=
  batch_loop (fun o b => Ret (appendSelfToCommand o b)) (command_fits c)
    (getMaxWriteBatchSize c) (fun _ => true).

(** The operations are distinct objects, so the last operation of a batch is
    [write_operations.back()] exactly when none is left. *)
Fixpoint command_write_loop (fuel : nat) (c : DBClient) (ns : bytes) (ordered : bool)
    (wc : WriteConcern) (write_operations : list WriteOperation) : SE wstate unit :=
  match write_operations with
  | [] => mret tt
  | first :: after =>
      match fuel with
      | O => lift (Throw EUndefined)
      | S fuel =>
          f ← lift (command_fits c [] first);
          lift (invariant f);;
          command ← lift (startCommand first ns []);
          '(batch, batchOps, after) ← lift (command_batch c (operationType first) [] [] first after);
          let command := _endCommand batch (default first (last batchOps)) ordered command in
          batchResult ← command_send c command wc ns;
          on_result (_mergeCommandResult batchOps batchResult);;
          let lastOp := match after with [] => true | _ => false end in
          (if ordered || lastOp then on_result (_check lastOp) else mret tt);;
          command_write_loop fuel c ns ordered wc after
      end
  end.
Definition CommandWriter_write (c : DBClient) (ns : bytes) (write_operations : list WriteOperation)
    (ordered : bool) (wc : WriteConcern) : SE wstate unit :=
  command_write_loop (length write_operations) c ns ordered wc write_operations.

(** ** WireProtocolWriter *)

Definition wire_fits (c : DBClient) (builder : BufBuilder) (op : WriteOperation) : M bool :=
  size ← incrementalSize op;
  n ← int_result (BufBuilder_len builder + size);
  Ret (n <=? getMaxMessageSizeBytes c).

Definition wire_send (c : DBClient) (opCode : WriteOpType) (builder : BufBuilder)
    (wc : WriteConcern) (ns : bytes) : SE wstate BSONObj :=
  say c opCode (bb_data builder);;
  if requiresConfirmation wc then
    db ← lift (nsToDatabase ns);
    '(commandWorked, result) ← runCommand c db ((B "getlasterror", bool_value true) :: wc_obj wc);
    throw_unless commandWorked result;;
    mret result
  else mret [].

Definition _batchableRequest (opCode : WriteOpType) (writeResult : WriteResult) : bool :=
  bool_decide (opCode = dbWriteInsert) && negb (_requiresDetailedInsertResults writeResult).

Definition wire_batch (c : DBClient) (writeResult : WriteResult)
    : WriteOpType -> BufBuilder -> list WriteOperation -> WriteOperation -> list WriteOperation ->
      M (BufBuilder * list WriteOperation * list WriteOperation) :=
  batch_loop appendSelfToRequest (wire_fits c) (getMaxWriteBatchSize c)
    (fun t => _batchableRequest t writeResult).

Fixpoint wire_write_loop (fuel : nat) (c : DBClient) (ns : bytes) (ordered : bool)
    (wc : WriteConcern) (builder : BufBuilder) (write_operations : list WriteOperation)
    : SE wstate unit :=
  match write_operations with
  | [] => mret tt
  | first :: after =>
      match fuel with
      | O => lift (Throw EUndefined)
      | S fuel =>
          f ← lift (wire_fits c builder first);
          lift (invariant f);;
          let batchOpType := operationType first in
          builder ← lift (startRequest first ns ordered builder);
          r ← on_result (read_result id);
          '(builder, batchOps, after) ← lift (wire_batch c r batchOpType builder [] first after);
          batchResult ← wire_send c batchOpType builder wc ns;
          on_result (_mergeGleResult batchOps batchResult);;
          let lastOp := match after with [] => true | _ => false end in
          (if ordered || lastOp then on_result (_check lastOp) else mret tt);;
          wire_write_loop fuel c ns ordered wc (BufBuilder_reset builder) after
      end
  end.
Definition WireProtocolWriter_write (c : DBClient) (ns : bytes)
    (write_operations : list WriteOperation) (ordered : bool) (wc : WriteConcern) : SE wstate unit :=
  wire_write_loop (length write_operations) c ns ordered wc (BufBuilder_ctor 512) write_operations.

(** ** DBClientBase *)

Definition DBClient_write (c : DBClient) (ns : bytes) (writes : list WriteOperation) (ordered : bool)
    (writeConcern : option WriteConcern) : SE wstate unit :=
  let wc := default (getWriteConcern c) writeConcern in
  if (2 <=? getMaxWireVersion c) && requiresConfirmation wc
  then CommandWriter_write c ns writes ordered wc
  else WireProtocolWriter_write c ns writes ordered wc.

(** [insert] of a vector; the generator of the ids is threaded through.  The
    result object is the function's own. *)
Fixpoint enqueue_inserts (c : DBClient) (g : generator) (now : Z) (v : list BSONObj)
    : M (list WriteOperation * generator) :=
  match v with
  | [] => Ret ([], g)
  | o :: v =>
      uassert 0 (obj_size o <=? getMaxBsonObjectSize c);;
      '(op, g) ← InsertWriteOperation_ctor g now o;
      '(ops, g) ← enqueue_inserts c g now v;
      Ret (op :: ops, g)
  end.
(** A function with a result object of its own: what it sends, its outcome. *)
Definition with_own_result {A} (m : SE wstate A) : SE wstate A := fun s =>
  let '(s', a) := m (mkW WriteResult_ctor (sent s)) in (mkW (wresult s) (sent s'), a).
Definition DBClient_insert (c : DBClient) (g : generator) (now : Z) (ns : bytes)
    (v : list BSONObj) (flags : Z) (wc : option WriteConcern) : SE wstate unit :=
  '(ops, _) ← lift (enqueue_inserts c g now v);
  let ordered := Z.land flags InsertOption_ContinueOnError =? 0 in
  with_own_result (DBClient_write c ns ops ordered wc).
Definition DBClient_remove (c : DBClient) (ns : bytes) (obj : BSONObj) (flags : Z)
    (wc : option WriteConcern) : SE wstate unit :=
  lift (uassert 0 (obj_size obj <=? getMaxBsonObjectSize c));;
  with_own_result (DBClient_write c ns [new_operation (DeleteWriteOperation obj flags)] true wc).
Definition DBClient_update (c : DBClient) (ns : bytes) (query obj : BSONObj) (flags : Z)
    (wc : option WriteConcern) : SE wstate unit :=
  lift (uassert 0 (obj_size query <=? getMaxBsonObjectSize c));;
  lift (uassert 0 (obj_size obj <=? getMaxBsonObjectSize c));;
  with_own_result (DBClient_write c ns [new_operation (UpdateWriteOperation query obj flags)] true wc).

(** ** The bulk builder *)

Record BulkOperationBuilder := mkBulk {
  bulk_ns : bytes; bulk_ordered : bool; bulk_executed : bool; bulk_currentIndex : Z;
  bulk_operations : list WriteOperation }.

Definition BulkOperationBuilder_ctor (ns : bytes) (ordered : bool) : BulkOperationBuilder :=
  mkBulk ns ordered false 0 [].
Definition enqueue (b : BulkOperationBuilder) (o : WriteOperation) : BulkOperationBuilder :=
  mkBulk (bulk_ns b) (bulk_ordered b) (bulk_executed b) (bulk_currentIndex b + 1)
    (bulk_operations b ++ [setBulkIndex o (bulk_currentIndex b)]).
Definition bulk_insert (b : BulkOperationBuilder) (g : generator) (now : Z) (doc : BSONObj)
    : M (BulkOperationBuilder * generator) :=
  '(op, g) ← InsertWriteOperation_ctor g now doc; Ret (enqueue b op, g).

(** The first character of the first field's name: the terminator of an empty
    name. *)
Definition first_char (o : BSONObj) : char :=
  match o with (n, _) :: _ => default nul (head n) | [] => nul end.
Definition isEmpty (o : BSONObj) : bool := obj_size o <=? 5.
Definition checked_modifiers (update : BSONObj) : M unit :=
  uassert 0 (negb (isEmpty update));; uassert 0 (ceq (first_char update) dollar).
Definition checked_replacement (replacement : BSONObj) : M unit :=
  if isEmpty replacement then Ret tt else uassert 0 (negb (ceq (first_char replacement) dollar)).
(** The members of [BulkUpdateBuilder] (flags 0) and [BulkUpsertBuilder] (flags
    [UpdateOption_Upsert]). *)
Definition find_updateOne (b : BulkOperationBuilder) (flags : Z) (selector update : BSONObj)
    : M BulkOperationBuilder :=
  checked_modifiers update;;
  Ret (enqueue b (new_operation (UpdateWriteOperation selector update flags))).
Definition find_update (b : BulkOperationBuilder) (flags : Z) (selector update : BSONObj)
    : M BulkOperationBuilder :=
  checked_modifiers update;;
  Ret (enqueue b (new_operation (UpdateWriteOperation selector update (flags + UpdateOption_Multi)))).
Definition find_replaceOne (b : BulkOperationBuilder) (flags : Z) (selector replacement : BSONObj)
    : M BulkOperationBuilder :=
  checked_replacement replacement;;
  Ret (enqueue b (new_operation (UpdateWriteOperation selector replacement flags))).
Definition find_remove (b : BulkOperationBuilder) (selector : BSONObj) : BulkOperationBuilder :=
  enqueue b (new_operation (DeleteWriteOperation selector 0)).
Definition find_removeOne (b : BulkOperationBuilder) (selector : BSONObj) : BulkOperationBuilder :=
  enqueue b (new_operation (DeleteWriteOperation selector RemoveOption_JustOne)).

(** The order [execute] sorts by; [std::sort] is not stable, so what it makes of
    the vector is an argument. *)
Definition op_compare (lhs rhs : WriteOperation) : bool :=
  WriteOpType_value (operationType rhs) <? WriteOpType_value (operationType lhs).

(** [execute]: the builder afterwards, and the outcome. *)
Definition bulk_execute (std_sort : list WriteOperation -> list WriteOperation) (c : DBClient)
    (b : BulkOperationBuilder) (wc : option WriteConcern) (s : wstate)
    : BulkOperationBuilder * (wstate * result write_exn unit) :=
  if bulk_executed b then (b, (s, Throw (OtherException (EUassert 0))))
  else match bulk_operations b with
  | [] => (b, (s, Throw (OtherException (EUassert 0))))
  | ops =>
      let ops := if bulk_ordered b then ops else std_sort ops in
      (mkBulk (bulk_ns b) (bulk_ordered b) true (bulk_currentIndex b) ops,
       (on_result (set_requiresDetailed true);;
        DBClient_write c (bulk_ns b) ops (bulk_ordered b) wc) s)
  end.

(** ** What a batch is *)

Section Batch_lemmas.
Context {Acc : Type} (append_op : WriteOperation -> Acc -> M Acc)
  (fits : Acc -> WriteOperation -> M bool) (maxWriteBatchSize : Z) (batchable : WriteOpType -> bool).
Context (t : WriteOpType) (batch0 : Acc).

(** [grown ops batch]: the batch of these operations, each of the type [t],
    every one after the first admitted by all the checks. *)
Inductive grown : list WriteOperation -> Acc -> Prop :=
  | grown_first op batch :
      operationType op = t -> append_op op batch0 = Ret batch -> grown [op] batch
  | grown_next ops batch op batch' :
      grown ops batch -> batchable t = true -> operationType op = t ->
      zlen ops < maxWriteBatchSize -> fits batch op = Ret true ->
      append_op op batch = Ret batch' -> grown (ops ++ [op]) batch'.

(** The next operation is not admitted. *)
Definition complete (ops : list WriteOperation) (batch : Acc) (after : list WriteOperation) : Prop :=
  batchable t = false \/
  match after with
  | [] => True
  | next :: _ => operationType next <> t \/ maxWriteBatchSize <= zlen ops \/ fits batch next = Ret false
  end.

Lemma grown_ne ops batch : grown ops batch -> ops <> [].
Proof. destruct 1; [done|]. by destruct ops. Qed.
Lemma grown_types ops batch : grown ops batch -> Forall (fun o => operationType o = t) ops.
Proof.
  induction 1; [by constructor|]. apply Forall_app. split; [done|]. by constructor.
Qed.
Lemma grown_length ops batch : grown ops batch -> zlen ops <= Z.max 1 maxWriteBatchSize.
Proof.
  destruct 1; [change (1 <= Z.max 1 maxWriteBatchSize); lia|]. rewrite zlen_app, zlen_cons. change (zlen (@nil WriteOperation)) with 0.
  lia.
Qed.
Lemma grown_single ops batch : grown ops batch -> batchable t = false -> zlen ops = 1.
Proof. destruct 1; [done|congruence]. Qed.

(** The loop: what it appends to must admit [iter] already. *)
Definition admitted (batchOps : list WriteOperation) (batch : Acc) (iter : WriteOperation) : Prop :=
  operationType iter = t /\
  ((batchOps = [] /\ batch = batch0) \/
   (grown batchOps batch /\ batchable t = true /\ zlen batchOps < maxWriteBatchSize /\
    fits batch iter = Ret true)).

Lemma admitted_append batchOps batch iter batch' :
  admitted batchOps batch iter -> append_op iter batch = Ret batch' ->
  grown (batchOps ++ [iter]) batch'.
Proof.
  intros (Ht & [[-> ->]|(Hg & Hb & Hl & Hf)]) Ha; [by apply grown_first|by eapply grown_next].
Qed.

Lemma batch_loop_grown batch batchOps iter after batch' ops' after' :
  admitted batchOps batch iter ->
  batch_loop append_op fits maxWriteBatchSize batchable t batch batchOps iter after
    = Ret (batch', ops', after') ->
  grown ops' batch' /\ complete ops' batch' after' /\ batchOps ++ iter :: after = ops' ++ after'.
Proof.
  revert batch batchOps iter. induction after as [|next after IH];
    intros batch batchOps iter Had H; cbn [batch_loop] in H;
    destruct (append_op iter batch) as [b1|] eqn:Ea; try discriminate H;
    cbn [mbind result_bind] in H; pose proof (admitted_append _ _ _ _ Had Ea) as Hg.
  - destruct (batchable t) eqn:Eb; cbn [negb] in H; injection H as <- <- <-;
      rewrite app_nil_r; (split_and!; [done| |done]); [by right|by left].
  - destruct (batchable t) eqn:Eb; cbn [negb] in H;
      [|injection H as <- <- <-; rewrite <-app_assoc; split_and!; [done|by left|done]].
    case_bool_decide as Et; cbn [negb] in H;
      [|injection H as <- <- <-; rewrite <-app_assoc;
        split_and!; [done|right; by left|done]].
    destruct (zlen (batchOps ++ [iter]) >=? maxWriteBatchSize) eqn:El.
    { injection H as <- <- <-. rewrite <-app_assoc. split_and!; [done|right; right; left; lia|done]. }
    destruct (fits b1 next) as [f|] eqn:Ef; try discriminate H. cbn [mbind result_bind] in H.
    destruct f; cbn [negb] in H;
      [|injection H as <- <- <-; rewrite <-app_assoc; split_and!; [done|right; by right; right|done]].
    apply IH in H.
    + destruct H as (? & ? & E). by rewrite <-app_assoc in E.
    + split; [done|]. right. split_and!; [done|done|lia|done].
Qed.

(** The loop returns when asking and appending do. *)
Lemma batch_loop_returns (P : WriteOperation -> Prop) batch batchOps iter after :
  (forall ops b o, Forall P ops -> grown ops b -> P o -> is_Ret (fits b o)) ->
  (forall ops b o, Forall P ops -> grown ops b -> P o -> fits b o = Ret true ->
     is_Ret (append_op o b)) ->
  is_Ret (append_op iter batch) -> admitted batchOps batch iter ->
  Forall P batchOps -> P iter -> Forall P after ->
  is_Ret (batch_loop append_op fits maxWriteBatchSize batchable t batch batchOps iter after).
Proof.
  intros Hf Ha. revert batch batchOps iter.
  induction after as [|next after IH]; intros batch batchOps iter [b1 E] Had Hops Hi HP;
    cbn [batch_loop]; rewrite E; cbn [mbind result_bind];
    pose proof (admitted_append _ _ _ _ Had E) as Hg;
    assert (Forall P (batchOps ++ [iter])) as Hops' by (apply Forall_app; by repeat constructor).
  - destruct (negb _); by eexists.
  - apply Forall_cons in HP as [Hn HP].
    destruct (batchable t) eqn:Eb; cbn [negb]; [|by eexists].
    case_bool_decide; cbn [negb]; [|by eexists].
    destruct (_ >=? _) eqn:El; [by eexists|].
    destruct (Hf _ _ _ Hops' Hg Hn) as [[] Ef]; rewrite Ef; cbn [mbind result_bind negb]; [|by eexists].
    apply IH; [by eapply Ha| |done..]. split; [done|]. right. split_and!; [done|done|lia|done].
Qed.
End Batch_lemmas.

(** ** CommandWriter: sizes *)

Section Command.
Context (c : DBClient).
Context (Hmax : 0 <= getMaxBsonObjectSize c <= 2 ^ 29).
Context (Hbatch : in_range int32 (getMaxWriteBatchSize c)).

Abbreviation grown_command t :=
  (grown (fun o b => Ret (appendSelfToCommand o b)) (command_fits c) (getMaxWriteBatchSize c)
     (fun _ => true) t []).

(** An operation whose document has room for the overhead. *)
Definition fits_alone (o : WriteOperation) : Prop :=
  exists n, incrementalSize o = Ret n /\ 0 <= n /\ 8 + n + kOverhead <= getMaxBsonObjectSize c.

Lemma command_fits_eq batch o n :
  incrementalSize o = Ret n -> 0 <= n <= getMaxBsonObjectSize c -> array_len batch <= 2 ^ 30 ->
  command_fits c batch o = Ret (array_len batch + n + kOverhead <=? getMaxBsonObjectSize c).
Proof.
  intros Hn Hr Hb. unfold command_fits. rewrite Hn. cbn [mbind result_bind].
  replace (n <=? getMaxBsonObjectSize c) with true by lia.
  cbn [uassert guard_throw mbind result_bind].
  assert (0 <= array_len batch) by (unfold array_len; pose proof (zlen_nonneg (encode_elements batch)); lia).
  assert (kOverhead = 8192) by done.
  rewrite int_result_ok by (unfold in_range; change (int_max int32) with 2147483647;
    change (int_min int32) with (-2147483648); lia).
  cbn [mbind result_bind].
  rewrite int_result_ok by (unfold in_range; change (int_max int32) with 2147483647;
    change (int_min int32) with (-2147483648); lia).
  done.
Qed.

Lemma op_overhead_range o : 0 <= op_overhead o <= 28.
Proof. unfold op_overhead. destruct (data o); lia. Qed.

Lemma append_command_len batch o n :
  incrementalSize o = Ret n -> zlen batch <= int_max int32 ->
  array_len batch <= array_len (appendSelfToCommand o batch) <= array_len batch + n + 40.
Proof.
  intros Hn Hb. unfold appendSelfToCommand.
  pose proof (array_append_size batch (appendSelfToBSONObj o []) Hb) as Ha.
  rewrite (appendSelfToBSONObj_size o n Hn), !obj_size_elements in Ha.
  pose proof (op_overhead_range o). unfold array_len. lia.
Qed.

Lemma grown_command_count t ops batch : grown_command t ops batch -> zlen batch = zlen ops.
Proof.
  induction 1 as [op batch Ht Ha|ops batch op batch' Hg IH Hb Ht Hl Hf Ha];
    injection Ha as <-; unfold appendSelfToCommand, array_append;
    rewrite ?zlen_app, ?IH; done.
Qed.

(** The array stays within the limit less the overhead, but for what wraps the
    last operation. *)
Lemma grown_command_len t ops batch :
  Forall fits_alone ops -> grown_command t ops batch ->
  array_len batch + kOverhead <= getMaxBsonObjectSize c + 40.
Proof.
  assert (int_max int32 = 2147483647) as Hi by done. unfold in_range in Hbatch.
  intros Hall Hg. destruct Hg as [op batch Ht Ha|ops batch op batch' Hg Hb Ht Hl Hf Ha];
    injection Ha as <-.
  - apply Forall_cons in Hall as [(n & Hn & H0 & Hs) _].
    pose proof (append_command_len [] op n Hn ltac:(by vm_compute)) as Hal.
    change (array_len []) with 8 in Hal. lia.
  - apply Forall_app in Hall as [_ Hop]. apply Forall_cons in Hop as [(n & Hn & H0 & Hs) _].
    pose proof (grown_command_count _ _ _ Hg) as Hc.
    pose proof (append_command_len batch op n Hn ltac:(lia)) as Hal.
    unfold command_fits in Hf. rewrite Hn in Hf. cbn [mbind result_bind] in Hf.
    destruct (uassert _ _); [|discriminate Hf]. cbn [mbind result_bind] in Hf.
    destruct (int_result (array_len batch + n)) as [x|] eqn:E1; [|discriminate Hf].
    cbn [mbind result_bind] in Hf. apply int_result_value in E1.
    destruct (int_result (x + kOverhead)) as [y|] eqn:E2; [|discriminate Hf].
    apply int_result_value in E2. injection Hf as Hf. lia.
Qed.

Lemma grown_fits_alone t ops batch o :
  Forall fits_alone ops -> grown_command t ops batch -> fits_alone o -> is_Ret (command_fits c batch o).
Proof.
  intros Hall Hg (n & Hn & H0 & Hs). pose proof (grown_command_len _ _ _ Hall Hg).
  assert (kOverhead = 8192) by done.
  rewrite (command_fits_eq _ _ n) by (done || lia). by eexists.
Qed.

(** The array and the command of a batch, and what a batch may be. *)
Definition command_array (ops : list WriteOperation) : BSONObj :=
  foldl (fun batch o => appendSelfToCommand o batch) [] ops.
Definition batch_type (ops : list WriteOperation) : WriteOpType :=
  match ops with o :: _ => operationType o | [] => dbWriteInsert end.
Definition batch_command (coll : bytes) (ordered : bool) (wc : WriteConcern)
    (ops : list WriteOperation) : BSONObj :=
  [(kCommandKey_of (batch_type ops), VString coll);
   (batchName_of (batch_type ops), VArray (command_array ops));
   (B "ordered", bool_value ordered); (B "writeConcern", VObject (wc_obj wc))].

Lemma grown_command_array t ops batch : grown_command t ops batch -> batch = command_array ops.
Proof.
  induction 1 as [op batch Ht Ha|ops batch op batch' Hg IH Hb Ht Hl Hf Ha]; injection Ha as <-;
    [done|]. unfold command_array. by rewrite foldl_app, IH.
Qed.

Lemma same_type_batch t ops :
  ops <> [] -> Forall (fun o => operationType o = t) ops -> batch_type ops = t.
Proof. by destruct 2. Qed.

Definition one_type (ops : list WriteOperation) : Prop :=
  Forall (fun o => operationType o = batch_type ops) ops.
(** [next] would not have gone into the batch of [ops]. *)
Definition refused (ops : list WriteOperation) (next : WriteOperation) : Prop :=
  operationType next <> batch_type ops \/ getMaxWriteBatchSize c <= zlen ops \/
  command_fits c (command_array ops) next = Ret false.

Lemma batch_command_size coll ordered wc t ops batch :
  Forall fits_alone ops -> grown_command t ops batch ->
  zlen coll + obj_size (wc_obj wc) <= 8000 ->
  obj_size (batch_command coll ordered wc ops) <= getMaxBsonObjectSize c.
Proof.
  intros Hall Hg Hw. pose proof (grown_command_len _ _ _ Hall Hg) as Hl.
  rewrite (grown_command_array _ _ _ Hg) in Hl.
  unfold batch_command. autorewrite with obj_size. change (obj_size []) with 5.
  rewrite (obj_size_elements (command_array ops)). unfold array_len, kOverhead in Hl.
  change (zlen (B "ordered")) with 7. change (zlen (B "writeConcern")) with 12.
  assert (zlen (kCommandKey_of (batch_type ops)) = 6) as -> by (by destruct (batch_type ops)).
  assert (zlen (batchName_of (batch_type ops)) <= 9) by (by destruct (batch_type ops)).
  lia.
Qed.

(** Running batches that are given: send, merge the reply, check when ordered
    or at the end. *)
Definition run_batch (db : bytes) (command : BSONObj) (ops : list WriteOperation)
    (check : bool) (lastOp : bool) : SE wstate unit :=
  '(commandWorked, reply) ← runCommand c db command;
  throw_unless commandWorked reply;;
  on_result (_mergeCommandResult ops reply);;
  (if check then on_result (_check lastOp) else mret tt).
Fixpoint run_batches (db : bytes) (command : list WriteOperation -> BSONObj) (ordered : bool)
    (bs : list (list WriteOperation)) : SE wstate unit :=
  match bs with
  | [] => mret tt
  | b :: bs =>
      let lastOp := match bs with [] => true | _ => false end in
      run_batch db (command b) b (ordered || lastOp) lastOp;; run_batches db command ordered bs
  end.

Lemma command_first_batch first after :
  fits_alone first -> Forall fits_alone after ->
  exists batch ops after',
    command_batch c (operationType first) [] [] first after = Ret (batch, ops, after') /\
    grown_command (operationType first) ops batch /\
    complete (command_fits c) (getMaxWriteBatchSize c) (fun _ => true) (operationType first)
      ops batch after' /\
    first :: after = ops ++ after'.
Proof.
  intros Hf Ha. unfold command_batch.
  edestruct (batch_loop_returns (fun o b => Ret (appendSelfToCommand o b)) (command_fits c)
    (getMaxWriteBatchSize c) (fun _ => true) (operationType first) [] fits_alone [] [] first after)
    as [[[batch ops] after'] E].
  - intros ops b o Hall Hg Ho. by eapply grown_fits_alone.
  - intros. by eexists.
  - by eexists.
  - split; [done|]. by left.
  - constructor.
  - done.
  - done.
  - exists batch, ops, after'. split; [done|].
    apply (batch_loop_grown _ _ _ _ _ []) in E as (? & ? & ?); [|by split; [done|left]]. done.
Qed.

(** What the batches of one call are. *)
Definition batch_ok (coll : bytes) (ordered : bool) (wc : WriteConcern) (b : list WriteOperation)
    : Prop :=
  b <> [] /\ one_type b /\ zlen b <= Z.max 1 (getMaxWriteBatchSize c) /\
  obj_size (batch_command coll ordered wc b) <= getMaxBsonObjectSize c.
(** No batch has room for the first operation of the next one. *)
Inductive greedy : list (list WriteOperation) -> Prop :=
  | greedy_nil : greedy []
  | greedy_last b : greedy [b]
  | greedy_cons b next b' bs :
      refused b next -> greedy ((next :: b') :: bs) -> greedy (b :: (next :: b') :: bs).

Lemma greedy_extend b after bs :
  concat bs = after -> Forall (fun b => b <> []) bs ->
  match after with [] => True | next :: _ => refused b next end -> greedy bs -> greedy (b :: bs).
Proof.
  intros E Hne Hr Hg. destruct bs as [|[|next b'] bs]; [constructor| |].
  - by apply Forall_cons in Hne as [? _].
  - cbn in E. subst after. by constructor.
Qed.

Lemma first_fits o : fits_alone o -> command_fits c [] o = Ret true.
Proof.
  intros (n & Hn & H0 & Hs). assert (kOverhead = 8192) by done.
  rewrite (command_fits_eq _ _ n) by (done || lia). f_equal. unfold array_len.
  change (zlen (encode_elements [])) with 0. lia.
Qed.

Lemma last_batchName d t ops batch :
  grown_command t ops batch -> batchName (default d (last ops)) = batchName_of t.
Proof.
  destruct 1 as [op batch <- _|ops batch op batch' _ _ <- _ _ _]; [done|].
  by rewrite last_snoc.
Qed.

Lemma concat_nil_match (bs : list (list WriteOperation)) (after : list WriteOperation) :
  concat bs = after -> Forall (fun b => b <> []) bs ->
  match after with [] => true | _ => false end = match bs with [] => true | _ => false end.
Proof.
  intros <- Hne. destruct bs as [|[|o b] bs]; [done| |done]. by apply Forall_cons in Hne as [? _].
Qed.

Lemma command_write_loop_runs ns db coll ordered wc fuel ops :
  nsToCollectionSubstring ns = Ret coll -> nsToDatabase ns = Ret db ->
  zlen coll + obj_size (wc_obj wc) <= 8000 ->
  Forall fits_alone ops -> (length ops <= fuel)%nat ->
  exists bs, concat bs = ops /\ Forall (batch_ok coll ordered wc) bs /\ greedy bs /\
    forall s, command_write_loop fuel c ns ordered wc ops s
      = run_batches db (batch_command coll ordered wc) ordered bs s.
Proof.
  intros Hcoll Hdb Hw. revert ops.
  induction fuel as [|fuel IH]; intros [|first after] Hall Hlen; try (cbn in Hlen; lia).
  1,2: exists []; split_and!; [done|constructor|constructor|done].
  apply Forall_cons in Hall as [Hf Ha].
  destruct (command_first_batch first after Hf Ha) as (batch & b & after' & Eb & Hg & Hcomp & E).
  assert (Forall fits_alone (b ++ after')) as Hall' by (rewrite <-E; by constructor).
  apply Forall_app in Hall' as [Hb Ha'].
  pose proof (grown_ne _ _ _ _ _ _ _ _ Hg) as Hne.
  pose proof (same_type_batch _ _ Hne (grown_types _ _ _ _ _ _ _ _ Hg)) as Hty.
  destruct (IH after' Ha') as (bs & Hc & Hok & Hgr & Hrun).
  { apply (f_equal length) in E. cbn in E, Hlen. rewrite length_app in E.
    destruct b; [done|]. cbn in E. lia. }
  exists (b :: bs). split_and!.
  - cbn. by rewrite Hc.
  - constructor; [|done]. split_and!; [done| |by eapply grown_length|].
    + unfold one_type. rewrite Hty. by eapply grown_types.
    + by eapply batch_command_size.
  - apply (greedy_extend b after'); [done| | |done].
    + eapply Forall_impl; [exact Hok|]. by intros ? [? _].
    + destruct after' as [|next after']; [done|]. unfold refused. rewrite Hty.
      destruct Hcomp as [?|[?|[?|Hn]]]; [done|by left|by right; left|].
      right; right. by rewrite <-(grown_command_array _ _ _ Hg).
  - intros s. cbn [command_write_loop run_batches].
    rewrite (first_fits first Hf), bind_lift_Ret. cbn [invariant guard_throw].
    rewrite bind_lift_Ret. unfold startCommand. rewrite Hcoll. cbn [mbind result_bind app].
    rewrite bind_lift_Ret, Eb, bind_lift_Ret. unfold command_send. rewrite Hdb, bind_lift_Ret.
    unfold _endCommand. rewrite (last_batchName _ _ _ _ Hg), (grown_command_array _ _ _ Hg), <-Hty.
    rewrite (concat_nil_match bs after' Hc) by (eapply Forall_impl; [exact Hok|by intros ? [? _]]).
    unfold run_batch. rewrite !bind_assoc. apply bind_ext. intros [ok reply] s1.
    rewrite !bind_assoc. apply bind_ext. intros [] s2. rewrite bind_mret.
    rewrite !bind_assoc. apply bind_ext. intros [] s3. apply bind_ext. intros [] s4. apply Hrun.
Qed.

(** ** What is sent, and the errors that stop it *)

Lemma on_result_sent {A} (m : SW A) s : sent (on_result m s).1 = sent s.
Proof. unfold on_result. by destruct (m (wresult s)). Qed.

Lemma bind_sent {A C} (m : SE wstate A) (f : A -> SE wstate C) s :
  (forall a s, sent (f a s).1 = sent s) -> sent ((m ≫= f) s).1 = sent (m s).1.
Proof. intros H. unfold mbind, SE_bind. destruct (m s) as [s1 [a|e]]; [apply H|done]. Qed.

Lemma run_batch_sent db command ops check lastOp s :
  sent (run_batch db command ops check lastOp s).1 = sent s ++ [SentCommand db command].
Proof.
  unfold run_batch. rewrite bind_sent; [done|]. intros [ok reply] s1.
  rewrite bind_sent; [done|]. intros [] s2. rewrite bind_sent; [by rewrite on_result_sent|].
  intros [] s3. destruct check; [apply on_result_sent|done].
Qed.

(** A batch that is checked and passes leaves no write error. *)
Lemma check_passes lastOp s s' :
  on_result (_check lastOp) s = (s', Ret tt) -> s' = s /\ _writeErrors (wresult s') = [].
Proof.
  unfold on_result, _check. destruct s as [r l]. cbn [wresult sent].
  destruct (last (_writeErrors r)) eqn:E; [done|]. apply last_None in E.
  destruct (_writeConcernErrors r); [|destruct lastOp]; intros [= <-]; done.
Qed.

Lemma run_batch_checked db command ops lastOp s s' :
  run_batch db command ops true lastOp s = (s', Ret tt) -> _writeErrors (wresult s') = [].
Proof.
  unfold run_batch. intros ([ok reply] & s1 & _ & H)%bind_Ret_inv.
  apply bind_Ret_inv in H as ([] & s2 & _ & H). apply bind_Ret_inv in H as ([] & s3 & _ & H).
  by apply check_passes in H as [_ ?].
Qed.

Lemma run_batches_sent db command ordered bs s s' r :
  run_batches db command ordered bs s = (s', r) ->
  exists k, (k <= length bs)%nat /\
    sent s' = sent s ++ ((fun b => SentCommand db (command b)) <$> take k bs) /\
    (r = Ret tt -> k = length bs /\ (bs <> [] -> _writeErrors (wresult s') = [])).
Proof.
  revert s. induction bs as [|b bs IH]; intros s H; cbn [run_batches] in H.
  { injection H as <- <-. exists 0%nat. cbn. by rewrite app_nil_r. }
  set (lastOp := match bs with [] => true | _ => false end) in H.
  pose proof (run_batch_sent db (command b) b (ordered || lastOp) lastOp s) as Hs.
  unfold mbind, SE_bind in H.
  destruct (run_batch db (command b) b (ordered || lastOp) lastOp s) as [s1 [[]|e]] eqn:E1;
    cbn [fst] in Hs.
  - destruct (IH s1 H) as (k & Hk & Hsent & Hr). exists (S k). cbn [length take fmap list_fmap].
    split_and!; [lia|by rewrite Hsent, Hs, <-app_assoc|].
    intros ->. destruct (Hr eq_refl) as [-> He]. split; [done|]. intros _.
    destruct bs as [|b' bs']; [|by apply He].
    injection H as <-. unfold lastOp in E1. rewrite orb_true_r in E1.
    by eapply run_batch_checked.
  - injection H as <- <-. exists 1%nat. cbn [length take fmap list_fmap].
    split_and!; [lia|by rewrite Hs|done].
Qed.
End Command.

(** ** Properties *)

(** C8: the batches of a bulk write by commands.  Whenever each operation has
    room for the overhead, [write] is exactly: cut the operations, in their
    order and leaving none out, into batches of one type, within the limit of
    operations, whose complete command is within the server's document size,
    and none of which could have taken one operation more; send each batch's
    command, merge its reply, and stop at a write error if the operations are
    ordered.  What reaches the server is a prefix of these commands, all of them
    if nothing is thrown, and then no write error is left. *)
Theorem CommandWriter_batches c ns db coll ordered wc ops :
  0 <= getMaxBsonObjectSize c <= 2 ^ 29 -> in_range int32 (getMaxWriteBatchSize c) ->
  nsToCollectionSubstring ns = Ret coll -> nsToDatabase ns = Ret db ->
  zlen coll + obj_size (wc_obj wc) <= 8000 ->
  Forall (fits_alone c) ops ->
  exists bs, concat bs = ops /\ Forall (batch_ok c coll ordered wc) bs /\ greedy c bs /\
    forall s,
      CommandWriter_write c ns ops ordered wc s
        = run_batches c db (batch_command coll ordered wc) ordered bs s /\
      forall s' r, CommandWriter_write c ns ops ordered wc s = (s', r) ->
      exists k, (k <= length bs)%nat /\
        sent s' = sent s
          ++ ((fun b => SentCommand db (batch_command coll ordered wc b)) <$> take k bs) /\
        (r = Ret tt -> k = length bs /\ (bs <> [] -> _writeErrors (wresult s') = [])).
Proof.
  intros Hmax Hb Hcoll Hdb Hw Hall.
  destruct (command_write_loop_runs c Hmax Hb ns db coll ordered wc (length ops) ops)
    as (bs & Hc & Hok & Hg & Hrun); [done..|].
  exists bs. split_and!; [done..|]. intros s. split; [apply Hrun|]. intros s' r H.
  unfold CommandWriter_write in H. rewrite Hrun in H. by eapply run_batches_sent.
Qed.

(** A server that accepts everything, three inserts and a delete, two
    operations to a batch: three commands. *)
Definition accepting (maxWriteBatchSize : Z) : DBClient :=
  mkDBClient 16777216 48000000 maxWriteBatchSize 2 acknowledged
    (fun _ => Ret (true, [(B "ok", VNumberInt 1); (B "n", VNumberInt 1)])) (fun _ => Ret tt).
Definition sample_ops : list WriteOperation :=
  [mkWriteOperation (InsertWriteOperation [(B "_id", VNumberInt 1)]) 0;
   mkWriteOperation (InsertWriteOperation [(B "_id", VNumberInt 2)]) 1;
   mkWriteOperation (InsertWriteOperation [(B "_id", VNumberInt 3)]) 2;
   mkWriteOperation (DeleteWriteOperation [] 0) 3].

Lemma CommandWriter_batches_witness :
  exists bs, concat bs = sample_ops /\ length bs = 3%nat /\
    Forall (batch_ok (accepting 2) (B "coll") true acknowledged) bs.
Proof.
  destruct (CommandWriter_batches (accepting 2) (B "db.coll") (B "db") (B "coll") true acknowledged
    sample_ops) as (bs & Hc & Hok & _ & Hrun).
  - cbn. lia.
  - by vm_compute.
  - by vm_compute.
  - by vm_compute.
  - by vm_compute.
  - repeat (apply Forall_cons; split; [eexists; split_and!; [reflexivity|by vm_compute..]|]).
    by apply Forall_nil.
  - exists bs. split; [done|]. split; [|done].
    destruct (Hrun (mkW WriteResult_ctor [])) as [_ H].
    destruct (CommandWriter_write (accepting 2) (B "db.coll") sample_ops true acknowledged
      (mkW WriteResult_ctor [])) as [s' r] eqn:E.
    destruct (H s' r eq_refl) as (k & _ & Hs & Hr). clear H Hrun.
    assert (r = Ret tt /\ length (sent s') = 3%nat) as [-> Hl].
    { split.
      - transitivity (s', r).2; [done|]. rewrite <-E. by vm_compute.
      - transitivity (length (sent (s', r).1)); [done|]. rewrite <-E. by vm_compute. }
    destruct (Hr eq_refl) as [-> _]. rewrite Hs in Hl. cbn [sent app] in Hl.
    by rewrite length_fmap, firstn_all in Hl.
Defined.
