(* ===== verification/BulkResult.v ===== *)
(** * What a bulk write reports

    Whatever the server answers, the errors and the upserts in the caller's
    [WriteResult] point at the operations the caller enqueued, through the sort
    and the batches; and what the write functions of the client do with a
    document their own check lets through but a batch has no room for. *)
From S2P Require Import Prelude StringData ParseNumber BsonTypes BufBuilder Bson BsonObj.
From S2P Require Import BsonBuilder Namespace Codec Oid WriteOps WriteResult Writers.
Local Open Scope Z_scope.

(** ** What a reply reports

    Read off the reply alone: the errors in it and the upserts in it, each with the
    place in the batch the server gives it. *)

(** The place in the batch a document of the reply names: its [index] as a number, the
    first operation when it has none. *)
Definition names_place (o : BSONObj) (k : Z) : Prop :=
  if hasField o (B "index") then getIntField o (B "index") = Ret k else k = 0.
Definition operation_at (b : list WriteOperation) (k : Z) (o : WriteOperation) : Prop :=
  0 <= k /\ b !! Z.to_nat k = Some o.

(** [e], in the caller's result, is what the document [error] of a reply says of the
    batch [b]. *)
Definition error_of (x : list WriteOperation * BSONObj) (e : BSONObj) : Prop :=
  exists k o code, names_place x.2 k /\ operation_at x.1 k o /\
    (if hasField x.2 (B "code") then getIntField x.2 (B "code") = Ret code else code = kUnknownError) /\
    getField e (B "index") = (B "index", VNumberLong (getBulkIndex o)) /\
    getField e (B "op") = (B "op", VObject (appendSelfToBSONObj o [])) /\
    getField e (B "code") = (B "code", VNumberInt code) /\
    getField e (B "errmsg") = (B "errmsg", VString (getStringField x.2 (B "errmsg"))).
(** The same for an upsert: an id, of the first operation, or a document with the place
    and the id. *)
Definition upsert_of (x : list WriteOperation * BSONElement) (e : BSONObj) : Prop :=
  exists k o id, operation_at x.1 k o /\ operationType o = dbWriteUpdate /\
    (match x.2.2 with
     | VObject u | VArray u => names_place u k /\ id = getField u (B "_id")
     | _ => k = 0 /\ id = x.2 end) /\
    getField e (B "index") = (B "index", VNumberLong (getBulkIndex o)) /\
    getField e (B "_id") = (B "_id", id.2).

Definition elements_of (e : BSONElement) : BSONObj :=
  match e.2 with VObject o | VArray o => o | _ => [] end.
Definition command_errors (reply : BSONObj) : list BSONObj :=
  if hasField reply (B "writeErrors") then elements_of <$> elements_of (getField reply (B "writeErrors")) else [].
Definition command_upserts (t : WriteOpType) (reply : BSONObj) : list BSONElement :=
  if bool_decide (t = dbWriteUpdate) && hasField reply (B "upserted")
  then elements_of (getField reply (B "upserted")) else [].
(** A reply to getLastError is itself the error; it reports an upsert by its id, and the
    servers that leave the id out by an update that updated nothing and yet affected one
    document: then the id is the operation's own. *)
Definition gle_errors (reply : BSONObj) : list BSONObj :=
  match gle_error reply with [] => [] | _ => if hasField reply (B "wtimeout") then [] else [reply] end.
Definition gle_upserts (b : list WriteOperation) (reply : BSONObj) : list BSONElement :=
  match gle_error reply, head b with
  | [], Some o =>
      if negb (bool_decide (operationType o = dbWriteUpdate)) then []
      else if hasField reply (B "upserted") then [getField reply (B "upserted")]
      else if hasField reply (B "updatedExisting") && negb (getBoolField reply (B "updatedExisting"))
        && bool_decide (_getIntOrDefault reply (B "n") 0 = Ret 1)
      then match upserted_id o with Ret id => [id] | Throw _ => [] end
      else []
  | _, _ => []
  end.

(** The batches of one call with the replies to them. *)
Abbreviation exchange := (list WriteOperation * BSONObj)%type.
Definition errors_in (commands : bool) (x : exchange) : list (list WriteOperation * BSONObj) :=
  (x.1,.) <$> (if commands then command_errors x.2 else gle_errors x.2).
Definition upserts_in (commands : bool) (x : exchange) : list (list WriteOperation * BSONElement) :=
  (x.1,.) <$> (if commands then command_upserts (batch_type x.1) x.2 else gle_upserts x.1 x.2).

(** [es] are the entries for what is reported, in its order: for all of it, or for a
    first part when the merging broke off. *)
Definition entries {A} (R : A -> BSONObj -> Prop) (whole : bool) (reported : list A) (es : list BSONObj) : Prop :=
  if whole then Forall2 R reported es else exists rs, rs `prefix_of` reported /\ Forall2 R rs es.

Arguments entries : simpl never.
Create HintDb entries.

Section Entries.
Context {A : Type} (R : A -> BSONObj -> Prop).
Lemma entries_nil whole : entries R whole [] [].
Proof. destruct whole; [constructor|by exists []]. Qed.
Lemma entries_none l : entries R false l [].
Proof. exists []. split; [apply prefix_nil|constructor]. Qed.
Lemma entries_some whole l es : entries R whole l es -> entries R false l es.
Proof. destruct whole; [|done]. intros H. by exists l. Qed.
Lemma entries_one whole a e : R a e -> entries R whole [a] [e].
Proof. intros H. assert (Forall2 R [a] [e]) by (by repeat constructor). destruct whole; [done|by exists [a]]. Qed.
Lemma entries_app whole l1 l2 e1 e2 :
  entries R true l1 e1 -> entries R whole l2 e2 -> entries R whole (l1 ++ l2) (e1 ++ e2).
Proof.
  intros H1 H2. destruct whole; [by apply Forall2_app|]. destruct H2 as (rs & Hp & H2).
  exists (l1 ++ rs). split; [by apply prefix_app|by apply Forall2_app].
Qed.
Lemma entries_app_l l1 l2 es : entries R false l1 es -> entries R false (l1 ++ l2) es.
Proof. intros (rs & Hp & H). exists rs. split; [by apply prefix_app_r|done]. Qed.
Lemma entries_each whole l es : entries R whole l es -> Forall (fun e => exists a, a ∈ l /\ R a e) es.
Proof.
  intros (rs & [k ->] & H)%entries_some. induction H as [|a e rs es Ha H IH]; constructor.
  - exists a. split; [by left|done].
  - eapply Forall_impl; [exact IH|]. intros x (a' & Hin & ?). exists a'. split; [by right|done].
Qed.
End Entries.
#[export] Hint Resolve entries_nil entries_none entries_one : entries.

(** ** Merging *)

(** [m] adds to the result the entries for these errors and these upserts; for all of
    them when it returns. *)
Definition merges {A} E U (m : SW A) : Prop := forall r,
  exists es us, _writeErrors (m r).1 = _writeErrors r ++ es /\ _upserted (m r).1 = _upserted r ++ us /\
    match (m r).2 with
    | Ret _ => entries error_of true E es /\ entries upsert_of true U us
    | Throw (OtherException _) => entries error_of false E es /\ entries upsert_of false U us
    | Throw (OperationException _) => False
    end.

Lemma merges_lift {A} (m : M A) : merges [] [] (lift m).
Proof. intros r. exists [], []. rewrite !app_nil_r. destruct m; cbn; auto 6 with entries. Qed.
Lemma merges_ret {A} (a : A) : merges [] [] (mret a).
Proof. apply (merges_lift (Ret a)). Qed.
Lemma merges_read {A} (f : WriteResult -> A) : merges [] [] (read_result f).
Proof. intros r. exists [], []. rewrite !app_nil_r. cbn; auto 6 with entries. Qed.
Lemma merges_update (f : WriteResult -> WriteResult) :
  (forall r, _writeErrors (f r) = _writeErrors r /\ _upserted (f r) = _upserted r) -> merges [] [] (update_result f).
Proof. intros H r. exists [], []. rewrite !app_nil_r. cbn. destruct (H r). auto 6 with entries. Qed.
Lemma merges_bind {A C} E1 U1 E2 U2 (m : SW A) (f : A -> SW C) :
  merges E1 U1 m -> (forall a, merges E2 U2 (f a)) -> merges (E1 ++ E2) (U1 ++ U2) (m ≫= f).
Proof.
  intros Hm Hf r. destruct (Hm r) as (es & us & He & Hu & Ho). unfold mbind, SE_bind.
  destruct (m r) as [r1 [a|[o|e]]]; cbn [fst snd] in *; [|done|].
  - destruct (Hf a r1) as (es' & us' & He' & Hu' & Ho'). exists (es ++ es'), (us ++ us').
    rewrite He', Hu', He, Hu, !app_assoc. split_and!; [done..|]. destruct Ho as [H1 H2].
    revert Ho'. destruct (f a r1).2 as [?|[?|?]]; [|done|]; intros [? ?]; split; by apply entries_app.
  - destruct Ho. exists es, us. split_and!; [done..| |]; by apply entries_app_l.
Qed.
(** The steps that add nothing, in front and behind. *)
Lemma merges_after {A C} E U (m : SW A) (f : A -> SW C) :
  merges [] [] m -> (forall a, merges E U (f a)) -> merges E U (m ≫= f).
Proof. apply (merges_bind [] [] E U). Qed.
Lemma merges_before {A C} E U (m : SW A) (f : A -> SW C) :
  merges E U m -> (forall a, merges [] [] (f a)) -> merges E U (m ≫= f).
Proof. intros Hm Hf. rewrite <-(app_nil_r E), <-(app_nil_r U). by apply merges_bind. Qed.
(** A pure step, knowing what it returned; after one that throws nothing is added. *)
Lemma merges_lift_bind {A C} E U (m : M A) (f : A -> SW C) :
  (forall a, m = Ret a -> merges E U (f a)) -> merges E U (lift m ≫= f).
Proof.
  intros Hf r. destruct m as [a|e]; [by apply Hf|]. exists [], []. rewrite !app_nil_r.
  split; [done|]. split; [done|]. split; apply entries_none.
Qed.
Create HintDb merges.
#[export] Hint Resolve merges_lift merges_ret merges_read : merges.
Ltac merge := repeat first [ solve [auto with merges] | apply merges_after; [auto with merges|intros ?] ].

Lemma merges_count (f : Z -> WriteResult -> WriteResult) (g : WriteResult -> Z) k :
  (forall n r, _writeErrors (f n r) = _writeErrors r /\ _upserted (f n r) = _upserted r) ->
  merges [] [] (n ← read_result g; n ← lift (int_result (n + k)); update_result (fun r => f n r)).
Proof. intros Hf. merge. by apply merges_update. Qed.
Lemma merges_add_nInserted k : merges [] [] (add_nInserted k).
Proof. by apply (merges_count (fun n r => mkWriteResult n _ _ _ _ _ _ _ _ _)). Qed.
Lemma merges_add_nUpserted k : merges [] [] (add_nUpserted k).
Proof. by apply (merges_count (fun n r => mkWriteResult _ n _ _ _ _ _ _ _ _)). Qed.
Lemma merges_add_nMatched k : merges [] [] (add_nMatched k).
Proof. by apply (merges_count (fun n r => mkWriteResult _ _ n _ _ _ _ _ _ _)). Qed.
Lemma merges_add_nModified k : merges [] [] (add_nModified k).
Proof. by apply (merges_count (fun n r => mkWriteResult _ _ _ n _ _ _ _ _ _)). Qed.
Lemma merges_add_nRemoved k : merges [] [] (add_nRemoved k).
Proof. by apply (merges_count (fun n r => mkWriteResult _ _ _ _ n _ _ _ _ _)). Qed.
Lemma merges_set_hasModifiedCount b : merges [] [] (set_hasModifiedCount b).
Proof. by apply merges_update. Qed.
Lemma merges_push_writeConcernError o : merges [] [] (push_writeConcernError o).
Proof. by apply merges_update. Qed.
#[export] Hint Resolve merges_add_nInserted merges_add_nUpserted merges_add_nMatched
  merges_add_nModified merges_add_nRemoved merges_set_hasModifiedCount merges_push_writeConcernError : merges.
Lemma merges_push_writeError x e : error_of x e -> merges [x] [] (push_writeError e).
Proof. intros H r. exists [e], []. rewrite app_nil_r. cbn. auto 6 with entries. Qed.
Lemma merges_push_upserted x e : upsert_of x e -> merges [] [x] (push_upserted e).
Proof. intros H r. exists [], [e]. rewrite app_nil_r. cbn. auto 6 with entries. Qed.

Lemma op_at_place b k o : op_at b k = Ret o -> operation_at b k o.
Proof.
  unfold op_at, operation_at. destruct (zlookup b k) as [x|] eqn:E; [|done]. intros [= <-].
  unfold zlookup in E. by case_decide.
Qed.
Lemma place_named o k : _getIntOrDefault o (B "index") 0 = Ret k -> names_place o k.
Proof. unfold _getIntOrDefault, names_place. destruct (hasField o _); [done|]. by intros [= <-]. Qed.

Lemma obj_elements e o : Obj e = Ret o -> elements_of e = o.
Proof. unfold Obj, elements_of. destruct e.2; congruence. Qed.

Section Merge.
Context (b : list WriteOperation).

Lemma merges_createWriteError error : merges [(b, error)] [] (_createWriteError error b).
Proof.
  unfold _createWriteError. apply merges_lift_bind. intros k Hk%place_named. apply merges_lift_bind. intros code Hc.
  apply merges_lift_bind. intros o Ho%op_at_place. apply merges_push_writeError. exists k, o, code.
  split_and!; [done..| |done|done|done|done]. unfold _getIntOrDefault in Hc. cbn [snd].
  destruct (hasField error _); [done|]. by injection Hc as <-.
Qed.
Lemma merges_createWriteConcernError error : merges [] [] (_createWriteConcernError error).
Proof. unfold _createWriteConcernError. merge. Qed.
Lemma merges_setModified result : merges [] [] (_setModified result).
Proof. unfold _setModified. merge. destruct (_ && _); merge. Qed.
Lemma merges_writeErrors_loop arr : merges ((b,.) ∘ elements_of <$> arr) [] (writeErrors_loop arr b).
Proof.
  induction arr as [|e arr IH]; [apply merges_ret|]. cbn [writeErrors_loop fmap list_fmap].
  apply merges_lift_bind. intros o <-%obj_elements.
  apply (merges_bind [(b, elements_of e)] []); [apply merges_createWriteError|done].
Qed.

Context (t : WriteOpType) (Hone : Forall (fun o => operationType o = t) b).

Lemma merges_createUpsert upsert : t = dbWriteUpdate -> merges [] [(b, upsert)] (_createUpsert upsert b).
Proof.
  intros Ht. unfold _createUpsert. apply merges_lift_bind. intros [k id] Hk.
  apply merges_lift_bind. intros o Ho%op_at_place. apply merges_lift_bind. intros _ _.
  apply merges_push_upserted. exists k, o, id. rewrite Forall_forall in Hone. split_and!; [done| | |done|done].
  - rewrite <-Ht. apply Hone. by eapply list_elem_of_lookup_2, Ho.
  - cbn [snd]. unfold isABSONObj, Obj in Hk. destruct upsert.2; cbn in Hk; try (by injection Hk as <- <-);
      destruct (_getIntOrDefault _ _ _) as [i|] eqn:Ei; try discriminate Hk; injection Hk as <- <-; (split; [by apply place_named|done]).
Qed.
Lemma merges_createUpserts upserted : t = dbWriteUpdate ->
  merges [] ((b,.) <$> elements_of upserted) (_createUpserts upserted b).
Proof.
  intros Ht. unfold _createUpserts. apply merges_lift_bind. intros arr <-%obj_elements. generalize (elements_of upserted), 0. intros arr. induction arr as [|e arr IH]; intros k; [apply merges_ret|]. cbn [createUpserts_loop fmap list_fmap].
  apply (merges_bind [] [_]); [by apply merges_createUpsert|]. intros. apply IH.
Qed.

Lemma front_type front : op_front b = Ret front -> head b = Some front /\ operationType front = t /\ batch_type b = t.
Proof.
  intros [_ H]%op_at_place. change (Z.to_nat 0) with 0%nat in H. destruct b as [|o b']; [done|]. injection H as ->.
  apply Forall_cons in Hone as [Ho _]. done.
Qed.

Lemma merges_mergeCommandResult reply :
  merges (errors_in true (b, reply)) (upserts_in true (b, reply)) (_mergeCommandResult b reply).
Proof.
  unfold _mergeCommandResult, errors_in, upserts_in. cbn [fst snd]. apply merges_after; [auto with merges|]. intros n.
  apply merges_lift_bind. intros front (_ & Hf & ->)%front_type.
  rewrite <-(app_nil_l (fmap _ (command_errors reply))), <-(app_nil_r (fmap _ (command_upserts t reply))). apply merges_bind.
  - unfold command_upserts. destruct (operationType front) eqn:E;
      [|rewrite bool_decide_false by congruence; auto with merges..].
    rewrite bool_decide_true by congruence. cbn [andb].
    apply merges_before; [|intros; apply merges_setModified]. destruct (hasField reply _); [|auto with merges].
    apply merges_before; [by apply merges_createUpserts|]. intros k. merge.
  - intros _. apply merges_before; [|intros; destruct (hasField reply _); auto using merges_createWriteConcernError with merges].
    unfold command_errors. destruct (hasField reply _); [|auto with merges]. apply merges_lift_bind. intros arr <-%obj_elements.
    rewrite <-list_fmap_compose. apply merges_writeErrors_loop.
Qed.

Lemma merges_mergeGleResult reply :
  merges (errors_in false (b, reply)) (upserts_in false (b, reply)) (_mergeGleResult b reply).
Proof.
  unfold _mergeGleResult, errors_in, upserts_in, gle_errors, gle_upserts. cbn [fst snd].
  apply merges_lift_bind. intros n Hn. rewrite Hn. destruct (gle_error reply) as [|c0 err]; cbn [StringData_empty StringData_size].
  2:{ change (negb (StringData_empty (c0 :: err))) with true. cbn match.
      destruct (hasField reply (B "wtimeout")); [apply merges_createWriteConcernError|apply merges_createWriteError]. }
  change (negb (StringData_empty [])) with false. cbn match.
  apply merges_lift_bind. intros front (Hh & Hf & _)%front_type. rewrite Hh.
  destruct (operationType front) eqn:E; try (rewrite bool_decide_false by done; cbn [negb]; auto with merges).
  rewrite bool_decide_true by done. cbn [negb]. apply merges_before; [|intros; apply merges_setModified].
  destruct (hasField reply (B "upserted")).
  { apply merges_before; [by apply merges_createUpsert|auto with merges]. }
  replace (bool_decide (Ret n = Ret 1)) with (n =? 1)
    by (symmetry; destruct (n =? 1) eqn:En; [apply bool_decide_true; f_equal; lia|apply bool_decide_false; intros [=]; lia]).
  destruct (_ && _); [|auto with merges]. apply merges_lift_bind. intros id ->.
  apply merges_before; [by apply merges_createUpsert|auto with merges].
Qed.
End Merge.


(** ** What is sent, and what it is answered *)

(** The body of a request: its flags and its namespace, and the documents of the
    operations. *)
Definition operation_body (o : WriteOperation) : bytes :=
  match data o with
  | InsertWriteOperation doc => encode_obj doc
  | DeleteWriteOperation selector _ => encode_obj selector
  | UpdateWriteOperation selector update _ => encode_obj selector ++ encode_obj update
  end.
Definition request_head (ns : bytes) (ordered : bool) (o : WriteOperation) : bytes :=
  match data o with
  | InsertWriteOperation _ => le_bytes 4 (if ordered then 0 else 1) ++ ns ++ [nul]
  | DeleteWriteOperation _ flags | UpdateWriteOperation _ _ flags =>
      le_bytes 4 0 ++ (ns ++ [nul]) ++ le_bytes 4 flags
  end.
Definition request_body (ns : bytes) (ordered : bool) (b : list WriteOperation) : bytes :=
  match b with o :: _ => request_head ns ordered o | [] => [] end ++ concat (operation_body <$> b).

Section Exchanges.
Context (c : DBClient) (ns : bytes) (ordered : bool) (wc : WriteConcern) (commands : bool).

(** The batch goes out as a command, or as a request and, where the write concern wants
    one, the question for its outcome; [reply] is what comes back. *)
Definition asks (l : list event) (b : list WriteOperation) (reply : BSONObj) (l' : list event) : Prop :=
  if commands then
    exists db coll, nsToDatabase ns = Ret db /\ nsToCollectionSubstring ns = Ret coll /\
      l' = l ++ [SentCommand db (batch_command coll ordered wc b)] /\ answer c l' = Ret (true, reply)
  else
    let l1 := l ++ [SentRequest (batch_type b) (request_body ns ordered b)] in
    delivery c l1 = Ret tt /\
    if requiresConfirmation wc then
      exists db, nsToDatabase ns = Ret db /\
        l' = l1 ++ [SentCommand db ((B "getlasterror", bool_value true) :: wc_obj wc)] /\
        answer c l' = Ret (true, reply)
    else l' = l1 /\ reply = [].
Inductive exchanged : list event -> list exchange -> list event -> Prop :=
  | exchanged_nil l : exchanged l [] l
  | exchanged_cons l b reply l1 xs l2 : asks l b reply l1 -> exchanged l1 xs l2 -> exchanged l ((b, reply) :: xs) l2.

(** Nothing went wrong but what the server or a check of the result reports. *)
Definition undisturbed (r : result write_exn unit) : bool :=
  match r with Throw (OtherException _) => false | _ => true end.

(** What a run over the operations [ops] did: the exchanges, over a first part of the
    operations, and the entries they left. *)
Definition traced (ops : list WriteOperation) (s s' : wstate) (r : result write_exn unit) : Prop :=
  exists xs l es us, concat xs.*1 `prefix_of` ops /\ exchanged (sent s) xs l /\ l `prefix_of` sent s' /\
    _writeErrors (wresult s') = _writeErrors (wresult s) ++ es /\
    _upserted (wresult s') = _upserted (wresult s) ++ us /\
    entries error_of (undisturbed r) (xs ≫= errors_in commands) es /\
    entries upsert_of (undisturbed r) (xs ≫= upserts_in commands) us.

Lemma traced_stop ops s s' r : wresult s' = wresult s -> sent s `prefix_of` sent s' -> traced ops s s' r.
Proof.
  intros Hr Hs. exists [], (sent s), [], []. rewrite Hr, !app_nil_r.
  split_and!; try done; [apply prefix_nil|constructor|apply entries_nil..].
Qed.
Lemma traced_lift {A} ops (m : M A) (f : A -> SE wstate unit) s s' r :
  (lift m ≫= f) s = (s', r) -> (forall a, m = Ret a -> f a s = (s', r) -> traced ops s s' r) -> traced ops s s' r.
Proof.
  intros H Hf. destruct m as [a|e]; [by eapply Hf|]. injection H as <- <-. by apply traced_stop.
Qed.

(** A batch merged and checked, and the operations after it. *)
Lemma traced_batch b after reply s s0 s' r (m : SW unit) (check lastOp : bool) (rest : SE wstate unit) :
  asks (sent s) b reply (sent s0) -> wresult s0 = wresult s ->
  merges (errors_in commands (b, reply)) (upserts_in commands (b, reply)) m ->
  (forall s1, rest s1 = (s', r) -> traced after s1 s' r) ->
  (on_result m;; (if check then on_result (_check lastOp) else mret tt);; rest) s0 = (s', r) ->
  traced (b ++ after) s s' r.
Proof.
  intros Ha Hs0 Hm Hrest H. destruct (Hm (wresult s0)) as (es & us & He & Hu & Ho).
  unfold mbind at 1, SE_bind at 1, on_result at 1 in H.
  destruct (m (wresult s0)) as [r1 o] eqn:Em. cbn [fst snd] in He, Hu, Ho. rewrite Hs0 in He, Hu.
  assert (exchanged (sent s) [(b, reply)] (sent s0)) as Hx by (econstructor; [exact Ha|constructor]).
  assert (forall r', (if undisturbed r' then exists u, o = Ret u else True) ->
    traced (b ++ after) s (mkW r1 (sent s0)) r') as Hdone.
  { intros r' Hr'. exists [(b, reply)], (sent s0), es, us. cbn [fmap list_fmap concat mbind list_bind fst].
    rewrite !app_nil_r. split_and!; [by apply prefix_app_r|done|done|done|done| |];
      destruct (undisturbed r'); (destruct o as [u|[|]]; [|done|]); try (by destruct Hr'); destruct Ho; eauto using entries_some. }
  destruct o as [[]|e].
  - unfold mbind at 1, SE_bind at 1 in H.
    destruct ((if check then on_result (_check lastOp) else mret tt) (mkW r1 (sent s0))) as [s2 o2] eqn:Ek.
    assert (s2 = mkW r1 (sent s0)) as ->.
    { destruct check; [|by injection Ek as <- _]. unfold on_result, _check in Ek. cbn in Ek.
      destruct (last _); [by injection Ek as <- _|]. destruct (_writeConcernErrors _); [by injection Ek as <- _|].
      by destruct lastOp; injection Ek as <- _. }
    destruct o2 as [[]|e2]; [|injection H as <- <-; apply Hdone; destruct (undisturbed _); [by exists tt|done]].
    destruct (Hrest _ H) as (xs & l & es' & us' & Hp & Hex & Hl & He' & Hu' & Hes & Hus). cbn [wresult sent] in *.
    exists ((b, reply) :: xs), l, (es ++ es'), (us ++ us'). destruct Ho as [Ho1 Ho2].
    split_and!; [by apply prefix_app|by econstructor|done|by rewrite He', He, app_assoc|by rewrite Hu', Hu, app_assoc| |];
      by apply entries_app.
  - injection H as <- <-. apply Hdone. by destruct e.
Qed.
End Exchanges.

(** ** The writers *)

(** What an append that returns leaves in the buffer. *)
Lemma appendBuf_data b src b' : BufBuilder_appendBuf b src = Ret b' -> bb_data b' = bb_data b ++ src.
Proof.
  unfold BufBuilder_appendBuf. intros (n & _ & H)%bind_Ret. apply bind_Ret in H as (b1 & Hg & H). injection H as <-.
  cbn. f_equal. unfold BufBuilder_grow, grow_reallocate in Hg. apply bind_Ret in Hg as (? & _ & Hg).
  apply bind_Ret in Hg as (? & _ & Hg). destruct (_ >? _); [|by injection Hg as <-].
  apply bind_Ret in Hg as (? & _ & Hg). destruct (_ >? _); [done|by injection Hg as <-].
Qed.
Lemma startRequest_data o ns ordered b b' :
  startRequest o ns ordered b = Ret b' -> bb_data b' = bb_data b ++ request_head ns ordered o.
Proof.
  unfold startRequest, request_head, BufBuilder_appendStr, BufBuilder_appendNum.
  change (StringData_copyTo ns true) with (ns ++ [nul]). change (Z.to_nat (width int32 / 8)) with 4%nat.
  destruct (data o); intros (b1 & ->%appendBuf_data & H)%bind_Ret || intros (b1 & Hb%appendBuf_data & H)%bind_Ret;
    try (apply bind_Ret in H as (b2 & Hb2%appendBuf_data & H)); apply appendBuf_data in H as ->;
    rewrite ?Hb2, ?Hb, <-?app_assoc; done.
Qed.
Lemma appendSelfToRequest_data o b b' :
  appendSelfToRequest o b = Ret b' -> bb_data b' = bb_data b ++ operation_body o.
Proof.
  unfold appendSelfToRequest, operation_body. destruct (data o); [by apply appendBuf_data| |by apply appendBuf_data] ||
    destruct (data o); try by apply appendBuf_data.
  all: intros (b1 & Hb%appendBuf_data & H)%bind_Ret; apply appendBuf_data in H as ->; by rewrite Hb, app_assoc.
Qed.
Lemma grown_request_data fits n batchable t b0 ops b :
  grown appendSelfToRequest fits n batchable t b0 ops b -> bb_data b = bb_data b0 ++ concat (operation_body <$> ops).
Proof.
  induction 1 as [op b _ Ha|ops b op b' _ IH _ _ _ _ Ha]; apply appendSelfToRequest_data in Ha as ->.
  - cbn [fmap list_fmap concat]. by rewrite app_nil_r.
  - rewrite IH, fmap_app, concat_app, <-app_assoc. cbn [fmap list_fmap concat]. by rewrite app_nil_r.
Qed.

(** A batch cut from the operations left. *)
Lemma batch_cut {Acc} append_op fits n batchable (batch0 : Acc) first after batch b after' :
  batch_loop append_op fits n batchable (operationType first) batch0 [] first after = Ret (batch, b, after') ->
  grown append_op fits n batchable (operationType first) batch0 b batch /\ first :: after = b ++ after' /\
  head b = Some first /\ Forall (fun o => operationType o = operationType first) b.
Proof.
  intros (Hg & _ & E)%(batch_loop_grown _ _ _ _ _ batch0); [|split; [done|by left]]. cbn [app] in E.
  split_and!; [done|done| |by eapply grown_types]. pose proof (grown_ne _ _ _ _ _ _ _ _ Hg) as Hne.
  destruct b; [done|]. by injection E as ->.
Qed.

Section Write.
Context (c : DBClient) (ns : bytes) (ordered : bool) (wc : WriteConcern).

Lemma runCommand_asks db cmd s s1 (f : bool * BSONObj -> SE wstate unit) s' r ops commands :
  (runCommand c db cmd ≫= f) s = (s', r) -> sent s1 `prefix_of` sent s -> wresult s = wresult s1 ->
  (forall a, answer c (sent s ++ [SentCommand db cmd]) = Ret a ->
     f a (mkW (wresult s) (sent s ++ [SentCommand db cmd])) = (s', r) -> traced c ns ordered wc commands ops s1 s' r) ->
  traced c ns ordered wc commands ops s1 s' r.
Proof.
  intros H Hp Hr Hf. unfold mbind, SE_bind, runCommand in H. cbv beta zeta in H.
  destruct (answer c (sent s ++ [SentCommand db cmd])) as [a|e]; [by apply (Hf a)|]. injection H as <- <-.
  apply traced_stop; [done|]. by apply prefix_app_r.
Qed.

Lemma command_write_traced fuel ops s s' r :
  command_write_loop fuel c ns ordered wc ops s = (s', r) -> traced c ns ordered wc true ops s s' r.
Proof.
  revert ops s. induction fuel as [|fuel IH]; intros [|first after] s H; cbn [command_write_loop] in H;
    try (injection H as <- <-; by apply traced_stop).
  eapply traced_lift; [exact H|]. clear H. intros f _ H. eapply traced_lift; [exact H|]. clear H. intros [] _ H.
  eapply traced_lift; [exact H|]. clear H. intros cmd Hcmd H. eapply traced_lift; [exact H|]. clear H.
  intros [[batch b] after'] Hb H. apply batch_cut in Hb as (Hg & -> & Hh & Hone).
  unfold startCommand in Hcmd. apply bind_Ret in Hcmd as (coll & Hcoll & Hcmd). injection Hcmd as <-.
  unfold command_send in H. rewrite !bind_assoc in H. eapply traced_lift; [exact H|]. clear H. intros db Hdb H. cbv beta in H.
  rewrite !bind_assoc in H. eapply runCommand_asks; [exact H|done|done|]. clear H. intros [ok reply] Ha H. cbv beta iota in H.
  rewrite !bind_assoc in H. unfold mbind at 1, SE_bind at 1, throw_unless at 1 in H.
  destruct ok; [|injection H as <- <-; apply traced_stop; [done|by apply prefix_app_r]].
  rewrite bind_mret in H. pose proof (grown_command_array _ _ _ _ Hg) as ->.
  assert (batch_type b = operationType first) as Hty by (destruct b; [done|by injection Hh as ->]).
  eapply traced_batch; [| |apply (merges_mergeCommandResult _ _ Hone)|intros s1; apply IH|exact H]; [|done].
  exists db, coll. split_and!; [done|done| |done]. unfold batch_command, _endCommand.
  by rewrite (last_batchName _ _ _ _ _ Hg), Hty.
Qed.

Lemma wire_write_traced fuel builder ops s s' r : bb_data builder = [] ->
  wire_write_loop fuel c ns ordered wc builder ops s = (s', r) -> traced c ns ordered wc false ops s s' r.
Proof.
  revert builder ops s. induction fuel as [|fuel IH]; intros builder [|first after] s Hbb H; cbn [wire_write_loop] in H;
    try (injection H as <- <-; by apply traced_stop).
  eapply traced_lift; [exact H|]. clear H. intros f _ H. eapply traced_lift; [exact H|]. clear H. intros [] _ H.
  eapply traced_lift; [exact H|]. clear H. intros bb1 Hst%startRequest_data H.
  unfold mbind at 1, SE_bind at 1, on_result at 1, read_result in H. cbn [sent wresult] in H. destruct s as [r0 l0].
  eapply traced_lift; [exact H|]. clear H. intros [[bb2 b] after'] Hb H. apply batch_cut in Hb as (Hg & -> & Hh & Hone).
  apply grown_request_data in Hg. rewrite Hst, Hbb in Hg. cbn [app] in Hg.
  assert (batch_type b = operationType first) as Hty by (destruct b; [done|by injection Hh as ->]).
  assert (bb_data bb2 = request_body ns ordered b) as Hbody by (rewrite Hg; destruct b; [done|by injection Hh as ->]).
  rewrite Hbody, <-Hty in *. unfold wire_send in H. rewrite !bind_assoc in H.
  unfold mbind at 1, SE_bind at 1, say at 1 in H. cbv beta zeta in H. cbn [sent wresult] in H.
  rewrite Hbody in H.
  destruct (delivery c _) as [[]|e] eqn:Hd; [|injection H as <- <-; apply traced_stop; [done|by apply prefix_app_r]].
  destruct (requiresConfirmation wc) eqn:Hq.
  - rewrite !bind_assoc in H. unfold mbind at 1, SE_bind at 1, lift at 1 in H.
    destruct (nsToDatabase ns) as [db|e] eqn:Hdb; [|injection H as <- <-; apply traced_stop; [done|by apply prefix_app_r]].
    cbn [lift_exn] in H. rewrite !bind_assoc in H.
    eapply runCommand_asks; [exact H|by apply prefix_app_r|done|]. clear H. intros [ok reply] Ha H. cbn [sent wresult] in Ha, H.
    rewrite !bind_assoc in H. unfold mbind at 1, SE_bind at 1, throw_unless at 1 in H.
    destruct ok; [|injection H as <- <-; apply traced_stop; [done|by do 2 apply prefix_app_r]].
    rewrite bind_mret in H.
    eapply traced_batch; [| |apply (merges_mergeGleResult _ _ Hone)|intros s1; by apply (IH (BufBuilder_reset bb2))|exact H]; [|done].
    unfold asks. rewrite Hq. split; [done|]. by exists db.
  - rewrite bind_mret in H.
    eapply traced_batch; [| |apply (merges_mergeGleResult _ _ Hone)|intros s1; by apply (IH (BufBuilder_reset bb2))|exact H]; [|done].
    unfold asks. by rewrite Hq.
Qed.

Definition by_commands : bool := (2 <=? getMaxWireVersion c) && requiresConfirmation wc.
End Write.
Lemma write_traced c ns ops ordered wc s s' r :
  DBClient_write c ns ops ordered wc s = (s', r) ->
  let w := default (getWriteConcern c) wc in traced c ns ordered w (by_commands c w) ops s s' r.
Proof.
  unfold DBClient_write, by_commands. cbv zeta. destruct (_ && _); [apply command_write_traced|by apply wire_write_traced].
Qed.

(** ** The builder numbers its operations *)

Definition bulk_wf (b : BulkOperationBuilder) : Prop :=
  bulk_currentIndex b = zlen (bulk_operations b) /\
  forall i o, bulk_operations b !! i = Some o -> getBulkIndex o = Z.of_nat i.

Lemma bulk_ctor_wf ns ordered : bulk_wf (BulkOperationBuilder_ctor ns ordered).
Proof. by split. Qed.
Lemma enqueue_wf b o : bulk_wf b -> bulk_wf (enqueue b o).
Proof.
  intros [Hc Hi]. split.
  - cbn. rewrite Hc, zlen_app. done.
  - intros i x H. cbn [enqueue bulk_operations] in H.
    apply lookup_app_Some in H as [H|[Hl H]]; [by apply Hi|].
    apply list_lookup_singleton_Some in H as [Hz <-]. cbn. rewrite Hc. unfold zlen. lia.
Qed.
(** Every way the program has to add an operation. *)
Inductive bulk_built : BulkOperationBuilder -> Prop :=
  | built_ctor ns ordered : bulk_built (BulkOperationBuilder_ctor ns ordered)
  | built_insert b g now doc b' g' :
      bulk_built b -> bulk_insert b g now doc = Ret (b', g') -> bulk_built b'
  | built_updateOne b flags selector u b' :
      bulk_built b -> find_updateOne b flags selector u = Ret b' -> bulk_built b'
  | built_update b flags selector u b' :
      bulk_built b -> find_update b flags selector u = Ret b' -> bulk_built b'
  | built_replaceOne b flags selector r b' :
      bulk_built b -> find_replaceOne b flags selector r = Ret b' -> bulk_built b'
  | built_remove b selector : bulk_built b -> bulk_built (find_remove b selector)
  | built_removeOne b selector : bulk_built b -> bulk_built (find_removeOne b selector).

Lemma bulk_built_wf b : bulk_built b -> bulk_wf b.
Proof.
  induction 1 as [ns ordered|b g now doc b' g' _ IH H|b flags sel u b' _ IH H|b flags sel u b' _ IH H|
    b flags sel r b' _ IH H|b sel _ IH|b sel _ IH]; [apply bulk_ctor_wf|..| |].
  - unfold bulk_insert in H. apply bind_Ret in H as ([op g1] & _ & H). injection H as <- _.
    by apply enqueue_wf.
  - unfold find_updateOne in H. apply bind_Ret in H as (? & _ & H). injection H as <-.
    by apply enqueue_wf.
  - unfold find_update in H. apply bind_Ret in H as (? & _ & H). injection H as <-.
    by apply enqueue_wf.
  - unfold find_replaceOne in H. apply bind_Ret in H as (? & _ & H). injection H as <-.
    by apply enqueue_wf.
  - by apply enqueue_wf.
  - by apply enqueue_wf.
Qed.

(** ** A document that fits the server but not a batch *)

(** [insert] checks a document against the limit, the writer adds its overhead
    and gives up the process. *)
Lemma insert_aborts c g now ns doc wc s :
  negb (eoo (getField doc (B "_id"))) = true -> isABSONObj (getField doc (B "_id")) = false ->
  2 <= getMaxWireVersion c -> requiresConfirmation (default (getWriteConcern c) wc) = true ->
  getMaxBsonObjectSize c <= 2 ^ 29 ->
  obj_size doc <= getMaxBsonObjectSize c < 8 + obj_size doc + kOverhead ->
  DBClient_insert c g now ns [doc] 0 wc s = (s, Throw (OtherException EInvariant)).
Proof.
  intros Hid Hobj Hwire Hconf Hmax Hsize. pose proof (obj_size_nonneg doc).
  assert (kOverhead = 8192) by done.
  unfold DBClient_insert. cbn [enqueue_inserts].
  replace (obj_size doc <=? getMaxBsonObjectSize c) with true by lia.
  cbn [uassert guard_throw mbind result_bind]. unfold InsertWriteOperation_ctor, _ensureId.
  rewrite Hid. unfold isABSONObj in Hobj.
  replace (match (getField doc (B "_id")).2 with
           | VObject o | VArray o => isOK (_okForStorage false true o) | _ => true end) with true
    by (by destruct (getField doc (B "_id")).2).
  cbn [uassert guard_throw mbind result_bind]. rewrite bind_lift_Ret.
  unfold with_own_result, DBClient_write. rewrite Hconf.
  replace (2 <=? getMaxWireVersion c) with true by lia. cbn [andb].
  unfold CommandWriter_write. cbn [length command_write_loop].
  rewrite (command_fits_eq c ltac:(lia) _ _ (obj_size doc)); [|done|lia|by vm_compute].
  change (array_len []) with 8.
  replace (8 + obj_size doc + kOverhead <=? getMaxBsonObjectSize c) with false by lia.
  rewrite bind_lift_Ret. cbn [invariant guard_throw]. by destruct s.
Qed.

(** An upsert through getLastError whose [_id] is a document: the document is
    taken for the [{index, _id}] of a newer server, and the write that succeeded
    ends in an exception with nothing counted. *)
Lemma gle_upsert_document_id op selector update flags id r :
  data op = UpdateWriteOperation selector update flags ->
  eoo (getField id (B "_id")) = true -> hasField id (B "index") = false ->
  _mergeGleResult [op] [(B "n", VNumberInt 1); (B "upserted", VObject id)] r
    = (r, Throw (OtherException EVerify)).
Proof.
  intros Hop Hid Hidx. unfold _mergeGleResult.
  set (reply := [(B "n", VNumberInt 1); (B "upserted", VObject id)]).
  change (_getIntOrDefault reply (B "n") 0) with (Ret 1 : M Z). rewrite bind_lift_Ret.
  change (gle_error reply) with (@nil char). cbn [StringData_empty StringData_size negb].
  change (negb (StringData_empty [])) with false. cbn [op_front].
  change (op_front [op]) with (Ret op : M WriteOperation). rewrite bind_lift_Ret.
  unfold operationType. rewrite Hop. change (hasField reply (B "upserted")) with true.
  change (getField reply (B "upserted")) with (B "upserted", VObject id). cbn iota.
  unfold _createUpsert. cbn [isABSONObj snd Obj mbind result_bind].
  unfold _getIntOrDefault. rewrite Hidx. cbn [mbind result_bind].
  rewrite !bind_assoc, bind_lift_Ret. change (op_at [op] 0) with (Ret op : M WriteOperation).
  rewrite bind_lift_Ret, Hid. done.
Qed.

(** ** Properties *)

(** Executing either is refused, the builder being executed or empty, or writes. *)
Lemma bulk_execute_cases std_sort c b wc s b' s' r :
  bulk_execute std_sort c b wc s = (b', (s', r)) ->
  ((bulk_operations b = [] \/ bulk_executed b = true) /\ b' = b /\ s' = s /\ r = Throw (OtherException (EUassert 0))) \/
  (bulk_executed b' = true /\
   DBClient_write c (bulk_ns b) (if bulk_ordered b then bulk_operations b else std_sort (bulk_operations b))
     (bulk_ordered b) wc (mkW (set_requiresDetailed true (wresult s)).1 (sent s)) = (s', r)).
Proof.
  unfold bulk_execute. destruct (bulk_executed b) eqn:Ex; [intros [= <- <- <-]; by left; split; [right|]|].
  destruct (bulk_operations b) as [|o1 os]; [intros [= <- <- <-]; by left; split; [left|]|].
  intros [= <- H]. by right.
Qed.


(** An unordered bulk operation sorted into the opposite order; the server
    refuses the second operation of each batch. *)
Definition refusing : DBClient :=
  mkDBClient 16777216 48000000 1000 2 acknowledged
    (fun _ => Ret (true, [(B "ok", VNumberInt 1); (B "n", VNumberInt 1);
       (B "writeErrors", VArray [(B "0", VObject [(B "index", VNumberInt 1);
          (B "code", VNumberInt 11000); (B "errmsg", VString (B "dup"))])])]))
    (fun _ => Ret tt).
Definition sample_bulk : BulkOperationBuilder :=
  find_removeOne (find_remove (BulkOperationBuilder_ctor (B "db.coll") false) [])
    [(B "x", VNumberInt 1)].

