(* ===== verification/BsonValidate.v ===== *)
(** * BSON validation: bson/bson_validate.cpp

    The iterative validator as a state machine over a stack of frames.  The
    buffer is the [maxLength] bytes it may read; a read outside them is
    undefined.  Error messages quote the [_id] element, which reads all of its
    bytes; the text of the element is left out of the message. *)
From S2P Require Import Prelude StringData BsonTypes BufBuilder Bson BsonCompare.
Local Open Scope Z_scope.

(** Computations that can stop with a [Status]. *)
Definition vbind {A C} (m : M (StatusWith A)) (f : A -> M (StatusWith C)) : M (StatusWith C) :=
  r ← m; match r with Ret a => f a | Throw e => Ret (Throw e) end.
Notation "m '>>>' f" := (vbind m f) (at level 60, right associativity) : mongo_scope.
Local Open Scope mongo_scope.
Definition vret {A} (a : A) : M (StatusWith A) := Ret (Ret a).

Lemma vbind_ret {A C} (a : A) (f : A -> M (StatusWith C)) : vret a >>> f = f a.
Proof. done. Qed.

Inductive ValidationState := BeginObj | WithinObj | EndObj | BeginCodeWScope | EndCodeWScope | Done.

Global Instance ValidationState_eq_dec : EqDecision ValidationState.
Proof. solve_decision. Defined.

(** [_startPosition]: the position, with the sign bit for CodeWScope. *)
Record ValidationObjectFrame := mkFrame { expectedSize : Z; _startPosition : Z }.

Definition sign_bit : Z := - 2 ^ 31.
Definition startPosition (f : ValidationObjectFrame) : Z :=
  Z.land (_startPosition f) (Z.lnot sign_bit).
Definition isCodeWithScope (f : ValidationObjectFrame) : bool :=
  negb (Z.land (_startPosition f) sign_bit =? 0).
Definition setStartPosition (f : ValidationObjectFrame) (pos : Z) : ValidationObjectFrame :=
  mkFrame (expectedSize f)
    (Z.lor (Z.land (_startPosition f) sign_bit) (Z.land (wrap int32 pos) (Z.lnot sign_bit))).
Definition setIsCodeWithScope (f : ValidationObjectFrame) (b : bool) : ValidationObjectFrame :=
  mkFrame (expectedSize f)
    (if b then Z.lor (_startPosition f) sign_bit else Z.land (_startPosition f) (Z.lnot sign_bit)).
Definition setExpectedSize (f : ValidationObjectFrame) (n : Z) : ValidationObjectFrame :=
  mkFrame n (_startPosition f).

Record VState := mkVState {
  v_frames : list ValidationObjectFrame; (* the last pushed first *)
  v_state : ValidationState;
  v_pos : Z;
  v_idElemStartPos : Z;
  v_idElem : option Z }.

Section buffer.
Context (buf : bytes).

Definition maxLength : Z := zlen buf.

(** [makeError]: a known [_id] is printed in full. *)
Definition makeError {A} (baseMsg : bytes) (idElem : option Z) : M (StatusWith A) :=
  match idElem with
  | None => Ret (Throw (InvalidBSON, baseMsg ++ B " in object with unknown _id"))
  | Some p =>
      _ ← read_element (read_object (length buf)) (drop (Z.to_nat p) buf);
      Ret (Throw (InvalidBSON, baseMsg ++ B " in object with "))
  end.

(** ** Buffer *)

(** [readNumber]: the value and the new position, or nothing. *)
Definition readNumber (t : int_type) (pos : Z) : M (option (Z * Z)) :=
  let n := width t / 8 in
  if size_wrap (pos + n) >? maxLength then Ret None
  else v ← readLE t buf pos; Ret (Some (v, size_wrap (pos + n))).

Definition skip (pos sz : Z) : bool * Z :=
  let pos := size_wrap (pos + sz) in (pos <? maxLength, pos).

(** [memchr] over the [_maxLength - _position] bytes that are left. *)
Definition readCString (pos : Z) (idElem : option Z) : M (StatusWith (bytes * Z)) :=
  if pos >? maxLength then Throw EUndefined
  else
    match memchr (drop (Z.to_nat pos) buf) nul with
    | None => makeError (B "no end of c-string") idElem
    | Some len =>
        vret (take len (drop (Z.to_nat pos) buf), size_wrap (pos + Z.of_nat len + 1))
    end.

Definition readUTF8String (pos : Z) (idElem : option Z) : M (StatusWith Z) :=
  r ← readNumber int32 pos;
  match r with
  | None => makeError (B "invalid bson") idElem
  | Some (sz, pos) =>
      if sz <=? 0 then makeError (B "invalid bson") idElem
      else
        let (ok, pos) := skip pos (sz - 1) in
        if negb ok then makeError (B "invalid bson") idElem
        else
          r ← readNumber int8 pos;
          match r with
          | None => makeError (B "invalid bson") idElem
          | Some (c, pos) =>
              if negb (c =? 0) then makeError (B "not null terminated string") idElem
              else vret pos
          end
  end.

(** ** One element *)

Definition skip_or_error (pos sz : Z) (idElem : option Z) : M (StatusWith (ValidationState * Z)) :=
  let (ok, pos) := skip pos sz in
  if negb ok then makeError (B "invalid bson") idElem else vret (WithinObj, pos).

(** [validateElementInfo]: the next state, the new position and, unless the
    object ended, the field's name. *)
Definition validateElementInfo (pos : Z) (idElem : option Z)
    : M (StatusWith (ValidationState * Z * bytes)) :=
  r ← readNumber int8 pos;
  match r with
  | None => makeError (B "invalid bson") idElem
  | Some (type, pos) =>
      if type =? 0 then vret (EndObj, pos, [])
      else
        readCString pos idElem >>> fun '(name, pos) =>
        (match BSONType_of type with
          | Some (MinKey | MaxKey | jstNULL | Undefined) => vret (WithinObj, pos)
          | Some jstOID => skip_or_error pos 12 idElem
          | Some NumberInt => skip_or_error pos 4 idElem
          | Some Bool_ => skip_or_error pos 1 idElem
          | Some (NumberDouble | NumberLong | Timestamp | Date_) => skip_or_error pos 8 idElem
          | Some DBRef =>
              readUTF8String pos idElem >>> fun pos =>
              (* the result of this skip is not looked at *)
              vret (WithinObj, (skip pos 12).2)
          | Some RegEx =>
              readCString pos idElem >>> fun '(_, pos) =>
              readCString pos idElem >>> fun '(_, pos) =>
              vret (WithinObj, pos)
          | Some (Code | Symbol | String_) =>
              readUTF8String pos idElem >>> fun pos =>
              vret (WithinObj, pos)
          | Some BinData =>
              r ← readNumber int32 pos;
              match r with
              | None => makeError (B "invalid bson") idElem
              | Some (sz, pos) =>
                  if (sz <? 0) || (sz =? int_max int32) then
                    makeError (B "invalid size in bson") idElem
                  else skip_or_error pos (1 + sz) idElem
              end
          | Some CodeWScope => vret (BeginCodeWScope, pos)
          | Some (Object_ | Array_) => vret (BeginObj, pos)
          | Some EOO | None => makeError (B "invalid bson type") idElem
          end) >>> fun '(next, pos) =>
        vret (next, pos, name)
  end.

(** ** The loop *)

Definition within_obj (s : VState) : M (StatusWith VState) :=
  let atTopLevel := zlen (v_frames s) =? 1 in
  let promote := atTopLevel && negb (v_idElemStartPos s =? 0) in
  let idElem := if promote then Some (v_idElemStartPos s) else v_idElem s in
  let idElemStartPos := if promote then 0 else v_idElemStartPos s in
  let elemStartPos := v_pos s in
  validateElementInfo (v_pos s) idElem >>> fun '(next, pos, name) =>
  let idElemStartPos :=
    if negb (bool_decide (next = EndObj)) && bool_decide (idElem = None) && atTopLevel
       && (strcmp name (B "_id") =? 0)
    then elemStartPos else idElemStartPos in
  vret (mkVState (v_frames s) next pos idElemStartPos idElem).

(** The frame on top of the stack, [curr]. *)
Definition with_curr {A} (s : VState)
    (k : ValidationObjectFrame -> list ValidationObjectFrame -> M A) : M A :=
  match v_frames s with [] => Throw EUndefined | f :: fs => k f fs end.

Definition step (s : VState) : M (StatusWith VState) :=
  let set_pos st pos fs := mkVState fs st pos (v_idElemStartPos s) (v_idElem s) in
  match v_state s with
  | BeginObj =>
      let curr := setIsCodeWithScope (setStartPosition (mkFrame 0 0) (v_pos s)) false in
      r ← readNumber int32 (v_pos s);
      match r with
      | None => makeError (B "bson size is larger than buffer size") (v_idElem s)
      | Some (n, pos) =>
          within_obj (set_pos WithinObj pos (setExpectedSize curr n :: v_frames s))
      end
  | WithinObj => within_obj s
  | EndObj =>
      with_curr s (fun curr fs =>
        let actualLength := wrap int32 (v_pos s - startPosition curr) in
        if negb (actualLength =? expectedSize curr) then
          makeError (B "bson length doesn't match what we found") (v_idElem s)
        else
          vret (set_pos (match fs with
                         | [] => Done
                         | f :: _ => if isCodeWithScope f then EndCodeWScope else WithinObj
                         end) (v_pos s) fs))
  | BeginCodeWScope =>
      let curr := setIsCodeWithScope (setStartPosition (mkFrame 0 0) (v_pos s)) true in
      r ← readNumber int32 (v_pos s);
      match r with
      | None => makeError (B "invalid bson CodeWScope size") (v_idElem s)
      | Some (n, pos) =>
          readUTF8String pos (v_idElem s) >>> fun pos =>
          vret (set_pos BeginObj pos (setExpectedSize curr n :: v_frames s))
      end
  | EndCodeWScope =>
      with_curr s (fun curr fs =>
        let actualLength := wrap int32 (v_pos s - startPosition curr) in
        if negb (actualLength =? expectedSize curr) then
          makeError (B "bson length for CodeWScope doesn't match what we found") (v_idElem s)
        else
          match fs with
          | [] => makeError (B "unnested CodeWScope") (v_idElem s)
          | _ => vret (set_pos WithinObj (v_pos s) fs)
          end)
  | Done => vret s
  end.

Fixpoint run (fuel : nat) (s : VState) : M (StatusWith unit) :=
  if bool_decide (v_state s = Done) then vret tt
  else
    match fuel with
    | O => Throw EUndefined
    | S f => step s >>> run f
    end.

(** Every step reads a byte or removes a frame. *)
Definition validate_fuel : nat := 2 * (length buf + 20).

Definition validateBSONIterative : M (StatusWith unit) :=
  run validate_fuel (mkVState [] BeginObj 0 0 None).
End buffer.

Definition validateBSON (originalBuffer : bytes) : M (StatusWith unit) :=
  if zlen originalBuffer <? 5 then
    Ret (Throw (InvalidBSON, B "bson data has to be at least 5 bytes"))
  else validateBSONIterative originalBuffer.

(** ** Frames *)

Lemma lnot_sign : Z.lnot sign_bit = Z.ones 31.
Proof. done. Qed.

Lemma frame_fields pos n b :
  0 <= pos <= int_max int32 ->
  let f := setExpectedSize (setIsCodeWithScope (setStartPosition (mkFrame 0 0) pos) b) n in
  startPosition f = pos /\ isCodeWithScope f = b /\ expectedSize f = n.
Proof.
  intros Hp. assert (int_max int32 = 2147483647) as Hm by done.
  assert (Z.land pos (Z.ones 31) = pos) as Hl.
  { rewrite Z.land_ones by lia. apply Z.mod_small. lia. }
  assert (Z.land pos sign_bit = 0) as Hs.
  { rewrite <-Hl, <-Z.land_assoc. change (Z.land (Z.ones 31) sign_bit) with 0. apply Z.land_0_r. }
  unfold setStartPosition, setIsCodeWithScope, setExpectedSize, startPosition, isCodeWithScope.
  cbn [_startPosition expectedSize]. rewrite lnot_sign, Z.land_0_l, Z.lor_0_l.
  rewrite wrap_uint_int by lia. rewrite Hl. destruct b.
  - rewrite !Z.land_lor_distr_l, Hl, Hs. change (Z.land sign_bit (Z.ones 31)) with 0.
    rewrite Z.lor_0_r. done.
  - rewrite Hl, Hl, Hs. done.
Qed.

(** ** Reading at a known place *)

Lemma le_bytes_mod k z : le_bytes k (z mod 256 ^ Z.of_nat k) = le_bytes k z.
Proof.
  revert z. induction k as [|k IH]; intros z; [done|]. cbn [le_bytes].
  replace (Z.of_nat (S k)) with (Z.succ (Z.of_nat k)) by lia. rewrite Z.pow_succ_r by lia.
  assert (0 < 256 ^ Z.of_nat k) by (apply Z.pow_pos_nonneg; lia).
  rewrite Z.rem_mul_r by lia. f_equal.
  - apply (inj uchar). rewrite !uchar_chr, Z.mul_comm, Z_mod_plus_full.
    apply Z.mod_mod. lia.
  - rewrite <-(IH (z / 256)), <-(IH ((_ + _) / 256)). f_equal.
    rewrite Z.mul_comm, Z.div_add by lia. rewrite Z.div_small by (apply Z.mod_pos_bound; lia).
    by rewrite Z.add_0_l, Z.mod_mod by lia.
Qed.

Lemma le_bytes_wrap t k z :
  width t = 8 * Z.of_nat k -> (0 < k)%nat -> le_bytes k (wrap t z) = le_bytes k z.
Proof.
  intros Hw Hk. rewrite <-(le_bytes_mod k (wrap t z)), <-(le_bytes_mod k z). f_equal.
  replace (256 ^ Z.of_nat k) with (2 ^ width t) by (rewrite Hw, Z.pow_mul_r by lia; done).
  assert (0 < 2 ^ width t) by (apply Z.pow_pos_nonneg; lia).
  unfold wrap. destruct (_ && _); [|by rewrite Z.mod_mod by lia].
  replace (z mod 2 ^ width t - 2 ^ width t) with (z mod 2 ^ width t + (-1) * 2 ^ width t) by lia.
  rewrite Z_mod_plus_full. by rewrite Z.mod_mod by lia.
Qed.

Lemma split_at {A} (l : list A) k : (k <= length l)%nat -> exists a b, l = a ++ b /\ length a = k.
Proof.
  intros. exists (take k l), (drop k l). rewrite take_drop. split; [done|].
  rewrite length_take. lia.
Qed.

Section proofs.
Context (buf : bytes) (Hsize : zlen buf <= int_max int32).

Lemma size_wrap_buf z : 0 <= z <= 2 * int_max int32 + 100 -> size_wrap z = z.
Proof. intros. apply size_wrap_small. cbn in *. unfold npos. lia. Qed.

(** [at_ pre post]: the position after [pre]. *)
Definition at_ (pre post : bytes) : Prop := buf = pre ++ post.

Lemma at_len pre post : at_ pre post -> zlen pre + zlen post = zlen buf.
Proof. intros ->. by rewrite zlen_app. Qed.

Lemma at_drop pre post : at_ pre post -> drop (Z.to_nat (zlen pre)) buf = post.
Proof. intros ->. apply drop_zlen. Qed.

Lemma readNumber_at t k pre post :
  width t = 8 * Z.of_nat k -> (0 < k <= 8)%nat -> at_ pre post ->
  (readNumber buf t (zlen pre) = Ret None /\ zlen post < Z.of_nat k) \/
  exists v post', post = le_bytes k v ++ post' /\ in_range t v /\
    readNumber buf t (zlen pre) = Ret (Some (v, zlen (pre ++ le_bytes k v))).
Proof.
  intros Hw Hk Hat. pose proof (at_len _ _ Hat). pose proof (zlen_nonneg pre).
  pose proof (zlen_nonneg post). unfold readNumber, maxLength. rewrite Hw.
  replace (8 * Z.of_nat k / 8) with (Z.of_nat k) by (rewrite Z.mul_comm, Z.div_mul; lia).
  rewrite size_wrap_buf by (cbn in *; lia).
  destruct (zlen pre + Z.of_nat k >? zlen buf) eqn:E; [left; split; [done|lia]|right].
  destruct (split_at post k) as (a & post' & -> & Ha); [unfold zlen in *; lia|].
  rewrite zlen_app in *. pose proof (zlen_nonneg post').
  assert (a = le_bytes k (wrap t (le_value a))) as Ea.
  { rewrite le_bytes_wrap by (done || lia). by rewrite <-Ha, le_bytes_value. }
  exists (wrap t (le_value a)), post'. rewrite <-Ea. split_and!; [done|apply wrap_range; lia|].
  unfold at_ in Hat. rewrite Hat at 1. rewrite Ea at 1.
  rewrite (readLE_at t k) by (done || lia || (apply wrap_range; lia)).
  cbn [mbind result_bind]. rewrite zlen_app. by replace (zlen a) with (Z.of_nat k) by (unfold zlen; lia).
Qed.

Lemma readNumber_past t pos :
  zlen buf < pos -> pos <= int_max int32 + 50 -> 0 < width t <= 64 ->
  readNumber buf t pos = Ret None.
Proof.
  intros Hp Hi Hw. unfold readNumber, maxLength. pose proof (zlen_nonneg buf).
  assert (0 <= width t / 8 <= 8) by (split; [apply Z.div_pos; lia|apply Z.div_le_upper_bound; lia]).
  rewrite size_wrap_buf by (cbn in *; lia). by replace (_ >? _) with true by lia.
Qed.

Lemma skip_at pre post n :
  at_ pre post -> 0 <= n <= int_max int32 ->
  skip buf (zlen pre) n = (zlen pre + n <? zlen buf, zlen pre + n).
Proof.
  intros Hat Hn. pose proof (at_len _ _ Hat). pose proof (zlen_nonneg pre).
  pose proof (zlen_nonneg post). unfold skip, maxLength.
  rewrite size_wrap_buf by (cbn in *; lia). done.
Qed.

(** A place a skip succeeds at splits the rest of the buffer. *)
Lemma skip_split pre post n :
  at_ pre post -> 0 <= n -> zlen pre + n < zlen buf ->
  exists a post', post = a ++ post' /\ zlen a = n /\ 1 <= zlen post'.
Proof.
  intros Hat Hn Hlt. pose proof (at_len _ _ Hat). pose proof (zlen_nonneg pre).
  destruct (split_at post (Z.to_nat n)) as (a & post' & -> & Ha); [unfold zlen in *; lia|].
  exists a, post'. rewrite zlen_app in *. unfold zlen in *. split_and!; [done|lia|lia].
Qed.

(** *** Errors *)

(** The [_id] a message may quote is a sound element inside the buffer. *)
Definition id_ok (idElem : option Z) : Prop :=
  match idElem with
  | None => True
  | Some p => exists pre e post, at_ pre (encode_element e ++ post) /\ zlen pre = p /\ wf_element e
  end.

Definition is_error {A} (m : M (StatusWith A)) : Prop := exists msg, m = Ret (Throw (InvalidBSON, msg)).

Lemma makeError_error {A} msg id : id_ok id -> is_error (makeError buf msg id : M (StatusWith A)).
Proof.
  destruct id as [p|]; [|by eexists]. intros (pre & e & post & Hat & <- & He). unfold makeError.
  rewrite (at_drop _ _ Hat). pose proof (at_len _ _ Hat) as Hl. rewrite zlen_app in Hl.
  pose proof (zlen_nonneg pre). pose proof (zlen_nonneg post).
  assert (int_sized (encode_element e)) as Hi by (unfold int_sized; lia).
  rewrite read_element_encode; [by eexists|done|done|].
  intros o b Ho Hio. destruct (nested_fuel _ _ Ho) as [_ Hw].
  apply (proj2 (read_loop_encode _)); [by apply Hw, He| |done].
  etrans; [apply elements_fuel_bound|].
  assert (zlen (encode_obj o) <= zlen (encode_element e)) as Hle.
  { rewrite zlen_encode_element. pose proof (zlen_nonneg e.1).
    destruct Ho as [->|[->|[c ->]]]; rewrite ?encode_VObject, ?encode_VArray, ?encode_VCodeWScope;
      zlen_simpl; lia. }
  unfold zlen in *. lia.
Qed.

Lemma at_app pre a post : at_ pre (a ++ post) -> at_ (pre ++ a) post.
Proof. unfold at_. intros ->. by rewrite app_assoc. Qed.

(** A computation either stops with an error or gives a value with [Q]. *)
Definition ok_or_error {A} (m : M (StatusWith A)) (Q : A -> Prop) : Prop :=
  is_error m \/ exists a, m = Ret (Ret a) /\ Q a.

Lemma bind_ok_or_error {A C} (m : M (StatusWith A)) (f : A -> M (StatusWith C)) Q R :
  ok_or_error m Q -> (forall a, Q a -> ok_or_error (f a) R) -> ok_or_error (m >>> f) R.
Proof.
  intros [[msg ->]|(a & -> & Ha)] Hf; unfold vbind; cbn [mbind result_bind].
  - left. by eexists.
  - by apply Hf.
Qed.

Lemma error_ok_or_error {A} msg id (Q : A -> Prop) :
  id_ok id -> ok_or_error (makeError buf msg id) Q.
Proof. left. by apply makeError_error. Qed.

Lemma ret_ok_or_error {A} (a : A) (Q : A -> Prop) : Q a -> ok_or_error (vret a) Q.
Proof. right. by exists a. Qed.

Lemma readCString_at pre post id :
  at_ pre post -> id_ok id ->
  ok_or_error (readCString buf (zlen pre) id) (fun '(s, pos) =>
    exists post', post = s ++ nul :: post' /\ (nul ∉ s) /\ pos = zlen (pre ++ s ++ [nul])).
Proof.
  intros Hat Hid. pose proof (at_len _ _ Hat). pose proof (zlen_nonneg pre).
  pose proof (zlen_nonneg post). unfold readCString, maxLength.
  replace (zlen pre >? zlen buf) with false by lia. rewrite (at_drop _ _ Hat).
  destruct (memchr post nul) as [k|] eqn:E; [|by apply error_ok_or_error].
  apply memchr_Some in E as (s & post' & -> & <- & Hn). apply ret_ok_or_error.
  exists post'. rewrite take_app_length. split_and!; [done..|].
  autorewrite with mongo in *. pose proof (zlen_nonneg post'). pose proof (zlen_nonneg s).
  change (Z.of_nat (length s)) with (zlen s). rewrite size_wrap_buf by (cbn in *; lia). lia.
Qed.

Lemma readUTF8String_at pre post id :
  at_ pre post -> id_ok id ->
  ok_or_error (readUTF8String buf (zlen pre) id) (fun pos =>
    exists s post', post = encode_string s ++ post' /\ pos = zlen (pre ++ encode_string s)).
Proof.
  intros Hat Hid. unfold readUTF8String.
  destruct (readNumber_at int32 4 pre post) as [[-> _]|(sz & post1 & -> & Hr & ->)];
    [done|lia|done|by apply error_ok_or_error|].
  cbn [mbind result_bind]. destruct (sz <=? 0) eqn:E0; [by apply error_ok_or_error|].
  assert (at_ (pre ++ le_bytes 4 sz) post1) as Hat1 by (by apply at_app).
  unfold in_range in Hr. cbn in Hr.
  rewrite (skip_at _ post1) by (done || (cbn; lia)).
  destruct (_ <? zlen buf) eqn:E1; cbn [negb]; [|by apply error_ok_or_error].
  destruct (skip_split _ _ (sz - 1) Hat1) as (s & post2 & -> & Hs & _); [lia|lia|].
  rewrite <-Hs, <-zlen_app.
  assert (at_ ((pre ++ le_bytes 4 sz) ++ s) post2) as Hat2 by (by apply at_app).
  destruct (readNumber_at int8 1 _ post2 eq_refl ltac:(lia) Hat2) as [[-> _]|(c & post3 & -> & Hc & ->)];
    [by apply error_ok_or_error|].
  cbn [mbind result_bind]. destruct (c =? 0) eqn:Ec; cbn [negb]; [|by apply error_ok_or_error].
  apply ret_ok_or_error. exists s, post3. apply Z.eqb_eq in Ec as ->.
  unfold encode_string, le4. replace (zlen s + 1) with sz by lia.
  rewrite <-!app_assoc. done.
Qed.

(** *** One element *)

Definition header (t : BSONType) (name : bytes) : bytes := chr (BSONType_value t) :: name ++ [nul].

Lemma encode_element_hdr n v : encode_element (n, v) = header (value_type v) n ++ encode_value v.
Proof. unfold encode_element, header, element_type. cbn. by rewrite <-app_assoc. Qed.

(** What [validateElementInfo] finds after [pre]: the end of the object, a value
    without nested documents, the start of a nested one, or a DBRef whose
    object id is cut off by the end of the buffer. *)
Inductive element_found (pre post : bytes) : ValidationState * Z * bytes -> Prop :=
  | found_end post' :
      post = nul :: post' -> element_found pre post (EndObj, zlen (pre ++ [nul]), [])
  | found_leaf n v post' :
      wf_element (n, v) -> post = encode_element (n, v) ++ post' ->
      element_found pre post (WithinObj, zlen (pre ++ encode_element (n, v)), n)
  | found_obj t n post' :
      (t = Object_ \/ t = Array_) -> nul ∉ n -> post = header t n ++ post' ->
      element_found pre post (BeginObj, zlen (pre ++ header t n), n)
  | found_code n post' :
      nul ∉ n -> post = header CodeWScope n ++ post' ->
      element_found pre post (BeginCodeWScope, zlen (pre ++ header CodeWScope n), n)
  | found_cut n ns short pos :
      nul ∉ n -> post = header DBRef n ++ encode_string ns ++ short -> zlen short < 12 ->
      zlen buf < pos <= zlen buf + 12 ->
      element_found pre post (WithinObj, pos, n).

Lemma skip_or_error_at pre post n id (Q : ValidationState * Z -> Prop) :
  at_ pre post -> id_ok id -> 0 <= n <= int_max int32 ->
  (forall a post', post = a ++ post' -> zlen a = n -> Q (WithinObj, zlen (pre ++ a))) ->
  ok_or_error (skip_or_error buf (zlen pre) n id) Q.
Proof.
  intros Hat Hid Hn HQ. unfold skip_or_error. rewrite (skip_at _ post) by done.
  destruct (_ <? zlen buf) eqn:E; cbn [negb]; [|by apply error_ok_or_error].
  destruct (skip_split _ _ n Hat) as (a & post' & -> & Ha & _); [lia|lia|].
  apply ret_ok_or_error. rewrite <-Ha, <-zlen_app. by eapply HQ.
Qed.

Lemma bytes_number t k a :
  width t = 8 * Z.of_nat k -> (0 < k)%nat -> zlen a = Z.of_nat k ->
  exists n, in_range t n /\ le_bytes k n = a.
Proof.
  intros Hw Hk Ha. exists (wrap t (le_value a)). split; [apply wrap_range; lia|].
  rewrite le_bytes_wrap by done. replace k with (length a) by (unfold zlen in Ha; lia).
  apply le_bytes_value.
Qed.

(** A leaf: the value's bytes follow the header. *)
Lemma found_value pre post n v post' :
  nul ∉ n -> wf_value v -> post = header (value_type v) n ++ encode_value v ++ post' ->
  element_found pre post (WithinObj, zlen ((pre ++ header (value_type v) n) ++ encode_value v), n).
Proof.
  intros Hn Hv ->. rewrite <-app_assoc, <-encode_element_hdr.
  apply (found_leaf _ _ n v post'); [by split|]. by rewrite encode_element_hdr, <-app_assoc.
Qed.

Lemma validateElementInfo_at pre post id :
  at_ pre post -> id_ok id ->
  ok_or_error (validateElementInfo buf (zlen pre) id) (element_found pre post).
Proof.
  intros Hat Hid. unfold validateElementInfo.
  destruct (readNumber_at int8 1 pre post eq_refl ltac:(lia) Hat) as [[-> _]|(ty & post1 & -> & Hty & ->)];
    [by apply error_ok_or_error|].
  cbn [mbind result_bind]. destruct (ty =? 0) eqn:E0.
  { apply Z.eqb_eq in E0 as ->. apply ret_ok_or_error. by eapply found_end. }
  assert (at_ (pre ++ le_bytes 1 ty) post1) as Hat1 by (by apply at_app).
  eapply bind_ok_or_error; [by apply (readCString_at _ post1)|].
  intros [n pos] (post2 & -> & Hn & ->).
  set (pre2 := (pre ++ le_bytes 1 ty) ++ n ++ [nul]).
  assert (at_ pre2 post2) as Hat2.
  { unfold pre2. apply at_app. unfold at_ in *. by rewrite Hat1, <-!app_assoc. }
  destruct (BSONType_of ty) as [t|] eqn:Et;
    [|eapply bind_ok_or_error; [by apply (error_ok_or_error _ _ (fun _ => False))|done]].
  apply BSONType_of_Some in Et as <-.
  assert (pre2 = pre ++ header t n) as Hpre2.
  { unfold pre2, header. cbn [le_bytes app]. by rewrite <-app_assoc. }
  assert (le_bytes 1 (BSONType_value t) ++ n ++ nul :: post2 = header t n ++ post2) as Hpost.
  { unfold header. cbn [le_bytes app]. by rewrite <-app_assoc. }
  clearbody pre2. subst pre2. rewrite Hpost in *. clear Hpost E0 Hty Hat1.
  set (Q := fun '(next, pos) => element_found pre (header t n ++ post2) (next, pos, n)).
  eapply (bind_ok_or_error _ _ Q); [|intros [next pos] HQ; by apply ret_ok_or_error].
  assert (forall k, 0 <= k <= int_max int32 ->
    (forall a post', post2 = a ++ post' -> zlen a = k -> Q (WithinObj, zlen ((pre ++ header t n) ++ a))) ->
    ok_or_error (skip_or_error buf (zlen (pre ++ header t n)) k id) Q) as Hskip
    by (intros; by eapply skip_or_error_at).
  unfold Q.
  assert (forall v, value_type v = t -> encode_value v = [] -> wf_value v ->
    ok_or_error (vret (WithinObj, zlen (pre ++ header t n))) Q) as Hempty.
  { intros v <- Ev Hv. apply ret_ok_or_error. unfold Q.
    pose proof (found_value pre (header (value_type v) n ++ post2) n v post2 Hn Hv) as H.
    rewrite Ev, app_nil_r in H. by apply H. }
  assert (forall v, value_type v = t -> wf_value v -> forall post', post2 = encode_value v ++ post' ->
    Q (WithinObj, zlen ((pre ++ header t n) ++ encode_value v))) as Hleaf.
  { intros v <- Hv post' ->. unfold Q. by eapply found_value. }
  assert (forall mk, (forall s, value_type (mk s) = t /\ encode_value (mk s) = encode_string s /\
      wf_value (mk s)) ->
    ok_or_error (readUTF8String buf (zlen (pre ++ header t n)) id >>> fun pos => vret (WithinObj, pos)) Q)
    as Hstring.
  { intros mk Hmk. eapply bind_ok_or_error; [by apply (readUTF8String_at _ post2)|].
    intros p (s & post' & -> & ->). apply ret_ok_or_error. destruct (Hmk s) as (Ht & He & Hw).
    rewrite <-He. apply (Hleaf (mk s) Ht Hw post'). by rewrite He. }
  destruct t.
  - by apply (Hempty VMinKey).
  - by apply error_ok_or_error.
  - apply Hskip; [done|]. intros a post' -> Ha.
    destruct (bytes_number uint64 8 a) as (x & Hx & <-); [done|lia|done|].
    by eapply (Hleaf (VNumberDouble x)).
  - by apply (Hstring VString).
  - apply ret_ok_or_error. eapply found_obj; eauto.
  - apply ret_ok_or_error. eapply found_obj; eauto.
  - destruct (readNumber_at int32 4 _ post2 eq_refl ltac:(lia) Hat2) as [[-> _]|(sz & post3 & -> & Hsz & ->)];
      [by apply error_ok_or_error|].
    cbn [mbind result_bind]. unfold in_range in Hsz.
    change (int_min int32) with (-2147483648) in Hsz. change (int_max int32) with 2147483647 in Hsz.
    destruct (_ || _) eqn:Eb; [by apply error_ok_or_error|].
    apply orb_false_elim in Eb as [Eb1 Eb2]. change (int_max int32) with 2147483647 in Eb2.
    eapply (skip_or_error_at _ post3); [by apply at_app|done|cbn; lia|].
    intros a post' -> Ha. destruct a as [|c a]; [rewrite zlen_nil in Ha; lia|].
    rewrite zlen_cons in Ha. rewrite <-app_assoc.
    replace (le_bytes 4 sz ++ c :: a) with (encode_value (VBinData c a))
      by (cbn [encode_value]; unfold le4; by replace (zlen a) with sz by lia).
    eapply (Hleaf (VBinData c a)); [done|done|].
    cbn [encode_value]. unfold le4. replace (zlen a) with sz by lia. by rewrite <-app_assoc.
  - by apply (Hempty VUndefined).
  - apply Hskip; [done|]. intros a post' -> Ha. by eapply (Hleaf (VjstOID a)).
  - apply Hskip; [done|]. intros a post' -> Ha.
    destruct a as [|c [|]]; [done| |rewrite !zlen_cons in Ha; pose proof (zlen_nonneg l); lia].
    by eapply (Hleaf (VBool c)).
  - apply Hskip; [done|]. intros a post' -> Ha.
    destruct (bytes_number uint64 8 a) as (x & Hx & <-); [done|lia|done|].
    by eapply (Hleaf (VDate x)).
  - by apply (Hempty VjstNULL).
  - eapply bind_ok_or_error; [by apply (readCString_at _ post2)|].
    intros [r p] (post3 & -> & Hr & ->).
    eapply bind_ok_or_error; [apply (readCString_at _ post3); [|done]|].
    { apply at_app. rewrite <-app_assoc. done. }
    intros [f p] (post4 & -> & Hf & ->). apply ret_ok_or_error. rewrite <-!app_assoc.
    replace (pre ++ header RegEx n ++ r ++ [nul] ++ f ++ [nul])
      with ((pre ++ header RegEx n) ++ encode_value (VRegEx r f))
      by (by rewrite <-app_assoc).
    eapply (Hleaf (VRegEx r f)); [done|done|]. cbn [encode_value].
    by rewrite <-!app_assoc; cbn; rewrite <-app_assoc.
  - eapply bind_ok_or_error; [by apply (readUTF8String_at _ post2)|].
    intros p (s & post' & -> & ->). apply ret_ok_or_error.
    assert (at_ ((pre ++ header DBRef n) ++ encode_string s) post') as Hat3 by (by apply at_app).
    rewrite (skip_at _ post') by (done || (cbn; lia)). cbn [snd].
    pose proof (at_len _ _ Hat3) as Hl3.
    destruct (decide (12 <= zlen post')) as [Hge|Hlt].
    + destruct (split_at post' 12) as (oid & post4 & -> & Ho); [unfold zlen in Hge; lia|].
      assert (zlen oid = 12) as Ho' by (unfold zlen; lia).
      replace (zlen ((pre ++ header DBRef n) ++ encode_string s) + 12)
        with (zlen ((pre ++ header DBRef n) ++ encode_value (VDBRef s oid)))
        by (cbn [encode_value]; rewrite !zlen_app; lia).
      eapply (Hleaf (VDBRef s oid)); [done|done|]. cbn [encode_value]. by rewrite <-app_assoc.
    + eapply found_cut; [done|done|lia|]. pose proof (zlen_nonneg post'). lia.
  - by apply (Hstring VCode).
  - by apply (Hstring VSymbol).
  - apply ret_ok_or_error. eapply found_code; eauto.
  - apply Hskip; [done|]. intros a post' -> Ha.
    destruct (bytes_number int32 4 a) as (x & Hx & <-); [done|lia|done|].
    by eapply (Hleaf (VNumberInt x)).
  - apply Hskip; [done|]. intros a post' -> Ha.
    destruct (split_at a 4) as (a1 & a2 & -> & Ha1); [unfold zlen in Ha; lia|].
    assert (zlen a1 = 4) as Ha1' by (unfold zlen; lia). rewrite zlen_app in Ha.
    destruct (bytes_number uint32 4 a1) as (x & Hx & <-); [done|lia|done|].
    destruct (bytes_number uint32 4 a2) as (y & Hy & <-); [done|lia|lia|].
    by eapply (Hleaf (VTimestamp x y)).
  - apply Hskip; [done|]. intros a post' -> Ha.
    destruct (bytes_number int64 8 a) as (x & Hx & <-); [done|lia|done|].
    by eapply (Hleaf (VNumberLong x)).
  - by apply (Hempty VMaxKey).
Qed.

(** *** The stack invariant *)

Definition frame_at (b : bool) (f : ValidationObjectFrame) (p : bytes) : Prop :=
  startPosition f = zlen p /\ isCodeWithScope f = b.
(** The bytes of an object's start: its length and some whole elements. *)
Definition opened (f : ValidationObjectFrame) (p : bytes) (els : BSONObj) : bytes :=
  p ++ le4 (expectedSize f) ++ encode_elements els.
(** Where the top-level element in progress starts. *)
Definition top_start (fs : list ValidationObjectFrame) (body : bytes) (t : Z) : Z :=
  match fs with [] => zlen body | _ => t end.

(** [pending fs p t]: after the bytes [p], the frames are [fs] and an object is
    to start; the top-level element it is part of started at [t]. *)
Inductive pending : list ValidationObjectFrame -> bytes -> Z -> Prop :=
  | pend_init : pending [] [] 0
  | pend_obj fs p t els f ty n :
      pending fs p t -> frame_at false f p -> wf_obj els ->
      ty = Object_ \/ ty = Array_ -> nul ∉ n ->
      pending (f :: fs) (opened f p els ++ header ty n) (top_start fs (opened f p els) t)
  | pend_code fs p t els f n g code :
      pending fs p t -> frame_at false f p -> wf_obj els -> nul ∉ n ->
      frame_at true g (opened f p els ++ header CodeWScope n) ->
      pending (g :: f :: fs)
        (opened f p els ++ header CodeWScope n ++ le4 (expectedSize g) ++ encode_string code)
        (top_start fs (opened f p els) t).

(** The remembered start of a top-level [_id] is that of the element in progress
    or, at the top level, of the one just completed. *)
Definition ids_ok (fs : list ValidationObjectFrame) (f : ValidationObjectFrame) (p : bytes)
    (els : BSONObj) (t ids : Z) : Prop :=
  ids = 0 \/
  match fs with
  | [] => exists els0 e, els = els0 ++ [e] /\ ids = zlen (opened f p els0)
  | _ => ids = t
  end.

Definition truncated_dbref_id : Prop :=
  exists pre ns short, buf = pre ++ header DBRef (B "_id") ++ encode_string ns ++ short /\
    zlen short < 12.

Inductive inv : VState -> Prop :=
  | inv_begin fs p t post ids id :
      pending fs p t -> at_ p post -> id_ok id -> ids = 0 \/ (fs <> [] /\ ids = t) ->
      inv (mkVState fs BeginObj (zlen p) ids id)
  | inv_within f fs p t els post ids id :
      pending fs p t -> frame_at false f p -> wf_obj els -> at_ (opened f p els) post ->
      id_ok id -> ids_ok fs f p els t ids ->
      inv (mkVState (f :: fs) WithinObj (zlen (opened f p els)) ids id)
  | inv_end f fs p t els post ids id :
      pending fs p t -> frame_at false f p -> wf_obj els ->
      at_ (opened f p els ++ [nul]) post -> id_ok id -> ids = 0 \/ (fs <> [] /\ ids = t) ->
      inv (mkVState (f :: fs) EndObj (zlen (opened f p els ++ [nul])) ids id)
  | inv_begin_code f fs p t els n post ids id :
      pending fs p t -> frame_at false f p -> wf_obj els -> nul ∉ n ->
      at_ (opened f p els ++ header CodeWScope n) post -> id_ok id ->
      ids = 0 \/ ids = top_start fs (opened f p els) t ->
      inv (mkVState (f :: fs) BeginCodeWScope (zlen (opened f p els ++ header CodeWScope n)) ids id)
  | inv_end_code g f fs p t els n code scope post ids id :
      pending fs p t -> frame_at false f p -> wf_obj els -> nul ∉ n -> wf_obj scope ->
      frame_at true g (opened f p els ++ header CodeWScope n) ->
      at_ (opened f p els ++ header CodeWScope n ++ le4 (expectedSize g) ++ encode_string code
             ++ encode_obj scope) post ->
      id_ok id -> ids = 0 \/ ids = top_start fs (opened f p els) t ->
      inv (mkVState (g :: f :: fs) EndCodeWScope
        (zlen (opened f p els ++ header CodeWScope n ++ le4 (expectedSize g) ++ encode_string code
             ++ encode_obj scope)) ids id)
  | inv_cut f fs pos ids id :
      zlen buf < pos <= zlen buf + 12 -> id_ok id ->
      (fs = [] -> ids = 0 \/ truncated_dbref_id) ->
      inv (mkVState (f :: fs) WithinObj pos ids id)
  | inv_done els post pos ids id :
      wf_obj els -> buf = encode_obj els ++ post -> zlen buf >= pos ->
      inv (mkVState [] Done pos ids id).

Lemma encode_elements_snoc els e :
  encode_elements (els ++ [e]) = encode_elements els ++ encode_element e.
Proof. unfold encode_elements. rewrite flat_map_app. cbn. by rewrite app_nil_r. Qed.

Lemma opened_snoc f p els e : opened f p (els ++ [e]) = opened f p els ++ encode_element e.
Proof. unfold opened. by rewrite encode_elements_snoc, <-!app_assoc. Qed.

Lemma wf_snoc els e : wf_obj els -> wf_element e -> wf_obj (els ++ [e]).
Proof. intros. apply Forall_app. split; [done|]. by constructor. Qed.

Lemma pending_opened_pos fs p t f els : pending fs p t -> 0 < zlen (opened f p els).
Proof. intros _. unfold opened. zlen_simpl. lia. Qed.

Lemma at_opened_snoc f p els e post :
  at_ (opened f p els) (encode_element e ++ post) -> at_ (opened f p (els ++ [e])) post.
Proof. rewrite opened_snoc. apply at_app. Qed.

Lemma strcmp_id n : nul ∉ n -> (strcmp n (B "_id") =? 0) = true -> n = B "_id".
Proof. intros Hn E. apply Z.eqb_eq, strcmp_nonzero in E; [done|done|cbn; not_in]. Qed.

(** *** Steps *)

Lemma within_obj_inv f fs p t els post st ids id :
  pending fs p t -> frame_at false f p -> wf_obj els -> at_ (opened f p els) post ->
  id_ok id -> ids_ok fs f p els t ids ->
  ok_or_error (within_obj buf (mkVState (f :: fs) st (zlen (opened f p els)) ids id))
    (fun s => inv s /\ v_frames s = f :: fs /\ zlen (opened f p els) < v_pos s <= zlen buf + 12).
Proof.
  intros Hp Hf Hw Hat Hid Hids. unfold within_obj. cbn [v_frames v_state v_pos v_idElemStartPos v_idElem].
  set (top := zlen (f :: fs) =? 1).
  set (promote := top && negb (ids =? 0)).
  set (id' := if promote then Some ids else id).
  set (ids' := if promote then 0 else ids).
  assert (top = true <-> fs = []) as Htop.
  { unfold top. rewrite zlen_cons. destruct fs; [done|]. rewrite zlen_cons.
    pose proof (zlen_nonneg fs). split; [lia|done]. }
  clearbody top.
  assert (id_ok id') as Hid'.
  { unfold id', promote. destruct top eqn:Et; cbn [andb]; [|done].
    destruct (ids =? 0) eqn:Ei; cbn [negb]; [done|].
    assert (fs = []) as -> by (by apply Htop).
    destruct Hids as [?|(els0 & e & -> & ->)]; [lia|].
    rewrite opened_snoc in Hat. exists (opened f p els0), e, post.
    split_and!; [unfold at_ in *; by rewrite Hat, <-app_assoc|done|].
    apply Forall_app in Hw as [_ Hw]. by apply List.Forall_cons_iff in Hw as [? _]. }
  assert (fs = [] -> ids' = 0) as Hids0.
  { intros Hfs. unfold ids', promote. rewrite (proj2 Htop Hfs). cbn [andb].
    destruct (ids =? 0) eqn:Ei; cbn [negb]; lia. }
  assert (fs <> [] -> ids' = 0 \/ ids' = t) as Hidst.
  { intros Hfs. unfold ids'. destruct promote; [by left|].
    destruct Hids as [?|H]; [by left|]. destruct fs; [done|by right]. }
  clearbody id' ids'. clear promote.
  eapply bind_ok_or_error; [by apply (validateElementInfo_at _ post)|].
  intros [[next pos] name] Hfound. apply ret_ok_or_error.
  pose proof (at_len _ _ Hat) as Hlen.
  set (ids2 := if _ && _ then _ else _).
  assert (fs <> [] -> ids2 = ids') as Hids2.
  { intros Hfs. unfold ids2. destruct top; [by destruct Hfs; apply Htop|].
    by rewrite andb_false_r. }
  assert (fs = [] -> ids2 = 0 \/ ids2 = zlen (opened f p els)) as Hids3.
  { intros Hfs. unfold ids2. rewrite Hids0 by done. destruct (_ && _); [by right|by left]. }
  assert (ids2 = 0 \/ ids2 = top_start fs (opened f p els) t) as Hids4.
  { destruct fs as [|f' fs]; [by apply Hids3|]. rewrite Hids2 by done. by apply Hidst. }
  inversion Hfound as [post' E|n v post' Hwf E|ty n post' Hty Hn E|n post' Hn E|n ns short pos' Hn E Hs Hpos];
    subst next pos name; rewrite E in Hat.
  - assert (ids2 = ids') as Hi by (unfold ids2; by rewrite bool_decide_eq_true_2).
    split_and!; [|done|cbn [v_pos]; zlen_simpl; lia|].
    + apply (inv_end f fs p t els post'); [done|done|done|by apply (at_app _ [nul])|done|].
      rewrite Hi. destruct fs as [|f' fs]; [left; by apply Hids0|].
      destruct Hidst as [->| ->]; [done|by left|by right].
    + cbn [v_pos]. rewrite E in Hlen. autorewrite with mongo in *. pose proof (zlen_nonneg post'). lia.
  - rewrite <-opened_snoc. split_and!; [|done|..].
    + apply (inv_within f fs p t _ post'); [done|done|by apply wf_snoc|by apply at_opened_snoc|done|].
      unfold ids_ok. destruct fs as [|f' fs].
      * destruct (Hids3 eq_refl) as [->| ->]; [by left|right]. by exists els, (n, v).
      * rewrite Hids2 by done. by apply Hidst.
    + cbn [v_pos]. rewrite opened_snoc. zlen_simpl. lia.
    + cbn [v_pos]. rewrite opened_snoc. rewrite E in Hlen. autorewrite with mongo in *.
      pose proof (zlen_nonneg post'). lia.
  - split_and!; [|done|..].
    + apply (inv_begin _ _ (top_start fs (opened f p els) t) post');
        [by apply pend_obj|by apply at_app|done|].
      destruct Hids4 as [->| ->]; [by left|by right].
    + cbn [v_pos]. unfold header. zlen_simpl. lia.
    + cbn [v_pos]. rewrite E in Hlen. rewrite !zlen_app in *. pose proof (zlen_nonneg post'). lia.
  - split_and!; [|done|..].
    + apply (inv_begin_code f fs p t els n post'); try done. by apply at_app.
    + cbn [v_pos]. unfold header. zlen_simpl. lia.
    + cbn [v_pos]. rewrite E in Hlen. rewrite !zlen_app in *. pose proof (zlen_nonneg post'). lia.
  - split_and!; [|done|cbn [v_pos]; pose proof (zlen_nonneg post); lia|cbn [v_pos]; lia].
    apply inv_cut; [done|done|]. intros Hfs. unfold ids2. rewrite Hids0 by done.
    destruct (_ && _) eqn:Eb; [|by left]. right. apply andb_prop in Eb as [_ Eb].
    apply strcmp_id in Eb; [|done]. subst n. exists (opened f p els), ns, short. by split.
Qed.

Definition measure (s : VState) : Z := 2 * (zlen buf + 14 - v_pos s) + zlen (v_frames s).

(** A step reports an error, or keeps the invariant and makes progress; only a
    cut-off [_id] can make the error itself read outside the buffer. *)
Definition step_spec (s : VState) : Prop :=
  ok_or_error (step buf s) (fun s' => inv s' /\ measure s' < measure s) \/
  (truncated_dbref_id /\
     (is_error (step buf s) \/ exists e, step buf s = Throw e)).

Lemma is_error_weaken {A} (m : M (StatusWith A)) Q : is_error m -> ok_or_error m Q.
Proof. by left. Qed.

Lemma ok_or_error_mono {A} (m : M (StatusWith A)) (Q R : A -> Prop) :
  (forall a, Q a -> R a) -> ok_or_error m Q -> ok_or_error m R.
Proof. intros H [?|(a & ? & ?)]; [by left|right; eauto]. Qed.

Lemma actual_length pre n post :
  at_ (pre ++ n) post -> wrap int32 (zlen (pre ++ n) - zlen pre) = zlen n.
Proof.
  intros Hat. apply at_len in Hat. rewrite zlen_app in *. pose proof (zlen_nonneg pre).
  pose proof (zlen_nonneg n). pose proof (zlen_nonneg post).
  replace (zlen pre + zlen n - zlen pre) with (zlen n) by lia. apply wrap_uint_int. lia.
Qed.

Lemma step_begin fs p t post ids id :
  pending fs p t -> at_ p post -> id_ok id -> ids = 0 \/ (fs <> [] /\ ids = t) ->
  step_spec (mkVState fs BeginObj (zlen p) ids id).
Proof.
  intros Hp Hat Hid Hids. left. unfold step. cbn [v_state v_pos v_idElem v_frames v_idElemStartPos].
  pose proof (at_len _ _ Hat) as Hlen. pose proof (zlen_nonneg p). pose proof (zlen_nonneg post).
  destruct (readNumber_at int32 4 p post eq_refl ltac:(lia) Hat) as [[-> _]|(n & post' & -> & Hn & ->)];
    [by apply error_ok_or_error|]. cbn [mbind result_bind].
  destruct (frame_fields (zlen p) n false ltac:(lia)) as (Hs & Hc & He).
  set (f := setExpectedSize _ n) in *.
  assert (opened f p [] = p ++ le_bytes 4 n) as Ho.
  { unfold opened. rewrite He. cbn [encode_elements flat_map]. by rewrite app_nil_r. }
  rewrite <-Ho. eapply ok_or_error_mono; [|eapply (within_obj_inv f fs p t [] post')].
  - intros s (Hi & Hfr & Hpos). split; [done|]. unfold measure. cbn [v_pos v_frames].
    rewrite Hfr, zlen_cons. rewrite Ho, zlen_app, zlen_le_bytes in Hpos. lia.
  - done.
  - by split.
  - constructor.
  - rewrite Ho. by apply at_app.
  - done.
  - destruct Hids as [->|[Hfs ->]]; [by left|right]. by destruct fs.
Qed.

Lemma step_end f fs p t els post ids id :
  pending fs p t -> frame_at false f p -> wf_obj els ->
  at_ (opened f p els ++ [nul]) post -> id_ok id -> ids = 0 \/ (fs <> [] /\ ids = t) ->
  step_spec (mkVState (f :: fs) EndObj (zlen (opened f p els ++ [nul])) ids id).
Proof.
  intros Hp [Hs Hc] Hw Hat Hid Hids. left. unfold step, with_curr.
  cbn [v_state v_pos v_idElem v_frames v_idElemStartPos]. rewrite Hs.
  set (body := le4 (expectedSize f) ++ encode_elements els ++ [nul]).
  assert (opened f p els ++ [nul] = p ++ body) as Eb.
  { unfold opened, body. by rewrite <-!app_assoc. }
  rewrite Eb in *. rewrite (actual_length _ _ _ Hat).
  destruct (zlen body =? expectedSize f) eqn:E; cbn [negb]; [|by apply error_ok_or_error].
  assert (body = encode_obj els) as ->.
  { unfold body, encode_obj, encode_obj_with. apply Z.eqb_eq in E. rewrite <-E.
    unfold body. autorewrite with mongo. do 2 f_equal. lia. }
  apply ret_ok_or_error. unfold measure. cbn [v_pos v_frames]. rewrite zlen_cons.
  split; [|destruct fs; lia].
  destruct Hp as [|fs p t els' f' ty n Hp Hf' Hw' Hty Hn|fs p t els' f' n g code Hp Hf' Hw' Hn Hg].
  - apply (inv_done els post); [done|exact Hat|].
    apply at_len in Hat. pose proof (zlen_nonneg post). lia.
  - rewrite (proj2 Hf').
    set (v := if decide (ty = Object_) then VObject els else VArray els).
    assert (header ty n ++ encode_obj els = encode_element (n, v)) as Ev.
    { unfold v. destruct Hty as [->| ->]; case_decide; try done; rewrite encode_element_hdr;
        [by rewrite encode_VObject|by rewrite encode_VArray]. }
    assert (wf_element (n, v)) as Hv.
    { split; [done|]. unfold v. case_decide; [by apply wf_VObject|by apply wf_VArray]. }
    rewrite <-app_assoc, Ev, <-opened_snoc in *.
    eapply inv_within; [done|done|by apply wf_snoc|done|done|].
    destruct Hids as [->|[_ ->]]; [by left|right]. destruct fs; [|done].
    by exists els', (n, v).
  - rewrite (proj2 Hg). rewrite <-!app_assoc in *.
    eapply inv_end_code; [done..|]. destruct Hids as [->|[_ ->]]; [by left|by right].
Qed.

Lemma step_begin_code f fs p t els n post ids id :
  pending fs p t -> frame_at false f p -> wf_obj els -> nul ∉ n ->
  at_ (opened f p els ++ header CodeWScope n) post -> id_ok id ->
  ids = 0 \/ ids = top_start fs (opened f p els) t ->
  step_spec (mkVState (f :: fs) BeginCodeWScope (zlen (opened f p els ++ header CodeWScope n)) ids id).
Proof.
  intros Hp Hf Hw Hn Hat Hid Hids. left. unfold step.
  cbn [v_state v_pos v_idElem v_frames v_idElemStartPos].
  set (q := opened f p els ++ header CodeWScope n) in *.
  pose proof (at_len _ _ Hat) as Hlen. pose proof (zlen_nonneg q). pose proof (zlen_nonneg post).
  destruct (readNumber_at int32 4 q post eq_refl ltac:(lia) Hat) as [[-> _]|(sz & post1 & -> & Hsz & ->)];
    [by apply error_ok_or_error|]. cbn [mbind result_bind].
  destruct (frame_fields (zlen q) sz true ltac:(lia)) as (Hs & Hc & He).
  set (g := setExpectedSize _ sz) in *.
  eapply bind_ok_or_error; [apply (readUTF8String_at _ post1); [by apply at_app|done]|].
  intros pos (code & post2 & -> & ->). apply ret_ok_or_error. split.
  - unfold q. rewrite <-!app_assoc. change (le_bytes 4 sz) with (le4 sz). rewrite <-He.
    eapply inv_begin; [by apply pend_code| |done|].
    + unfold at_ in *. rewrite Hat. unfold q. rewrite <-!app_assoc, He. done.
    + destruct Hids as [->| ->]; [by left|by right].
  - unfold measure. cbn [v_pos v_frames]. rewrite !zlen_cons. zlen_simpl. lia.
Qed.

Lemma step_end_code g f fs p t els n code scope post ids id :
  pending fs p t -> frame_at false f p -> wf_obj els -> nul ∉ n -> wf_obj scope ->
  frame_at true g (opened f p els ++ header CodeWScope n) ->
  at_ (opened f p els ++ header CodeWScope n ++ le4 (expectedSize g) ++ encode_string code
         ++ encode_obj scope) post ->
  id_ok id -> ids = 0 \/ ids = top_start fs (opened f p els) t ->
  step_spec (mkVState (g :: f :: fs) EndCodeWScope
    (zlen (opened f p els ++ header CodeWScope n ++ le4 (expectedSize g) ++ encode_string code
         ++ encode_obj scope)) ids id).
Proof.
  intros Hp Hf Hw Hn Hsc [Hs Hc] Hat Hid Hids. left. unfold step, with_curr.
  cbn [v_state v_pos v_idElem v_frames v_idElemStartPos]. rewrite Hs.
  set (body := le4 (expectedSize g) ++ encode_string code ++ encode_obj scope) in *.
  rewrite app_assoc in *. rewrite (actual_length _ _ _ Hat).
  destruct (zlen body =? expectedSize g) eqn:E; cbn [negb]; [|by apply error_ok_or_error].
  assert (body = encode_value (VCodeWScope code scope)) as Eb.
  { rewrite encode_VCodeWScope. unfold body at 1. f_equal. apply Z.eqb_eq in E. rewrite <-E.
    unfold body. rewrite !zlen_app, zlen_le4. f_equal. lia. }
  apply ret_ok_or_error. unfold measure. cbn [v_pos v_frames]. rewrite !zlen_cons.
  split; [|lia]. rewrite Eb, <-app_assoc in *.
  change CodeWScope with (value_type (VCodeWScope code scope)) in *.
  rewrite <-encode_element_hdr, <-opened_snoc in *.
  eapply inv_within; [done|done| |done|done|].
  - apply wf_snoc; [done|]. split; [done|by apply wf_VCodeWScope].
  - destruct Hids as [->| ->]; [by left|right]. destruct fs; [|done].
    by exists els, (n, VCodeWScope code scope).
Qed.

Lemma step_cut f fs pos ids id :
  zlen buf < pos <= zlen buf + 12 -> id_ok id -> (fs = [] -> ids = 0 \/ truncated_dbref_id) ->
  step_spec (mkVState (f :: fs) WithinObj pos ids id).
Proof.
  intros Hpos Hid Hids. unfold step_spec, step, within_obj.
  cbn [v_state v_pos v_idElem v_frames v_idElemStartPos].
  assert (forall i, validateElementInfo buf pos i = makeError buf (B "invalid bson") i) as Hv.
  { intros i. unfold validateElementInfo. rewrite readNumber_past by (done || lia). done. }
  rewrite Hv. destruct (zlen (f :: fs) =? 1) eqn:E; cbn [andb].
  - assert (fs = []) as Hfs.
    { rewrite zlen_cons in E. destruct fs; [done|]. rewrite zlen_cons in E.
      pose proof (zlen_nonneg fs). lia. }
    destruct (Hids Hfs) as [->|Ht].
    + left. cbn [Z.eqb negb]. apply (bind_ok_or_error _ _ (fun _ => False)); [by apply error_ok_or_error|done].
    + right. split; [done|]. unfold vbind, makeError.
      destruct (if negb (ids =? 0) then Some ids else id) as [q|]; [|left; by eexists].
      destruct (read_element _ _); [left; by eexists|right; by eexists].
  - left. apply (bind_ok_or_error _ _ (fun _ => False)); [by apply error_ok_or_error|done].
Qed.

Lemma step_inv s : inv s -> v_state s <> Done -> step_spec s.
Proof.
  destruct 1; intros Hd.
  - by eapply step_begin.
  - left. unfold step. cbn [v_state]. eapply ok_or_error_mono; [|by eapply within_obj_inv].
    intros s (Hi & Hfr & Hpos). split; [done|]. unfold measure. cbn [v_pos v_frames].
    rewrite Hfr. lia.
  - by eapply step_end.
  - by eapply step_begin_code.
  - by eapply step_end_code.
  - by apply step_cut.
  - done.
Qed.

(** The outcomes of the whole run. *)
Lemma run_inv fuel s :
  inv s -> measure s < Z.of_nat fuel ->
  (run buf fuel s = Ret (Ret tt) /\ exists o post, wf_obj o /\ buf = encode_obj o ++ post) \/
  is_error (run buf fuel s) \/
  (truncated_dbref_id /\ exists e, run buf fuel s = Throw e).
Proof.
  revert s. induction fuel as [|fuel IH]; intros s Hi Hm.
  { exfalso. assert (0 <= measure s); [|lia]. unfold measure.
    pose proof (zlen_nonneg (v_frames s)). assert (v_pos s <= zlen buf + 12); [|lia].
    destruct Hi; cbn [v_pos]; try lia;
      match goal with H : at_ _ ?q |- _ => apply at_len in H; pose proof (zlen_nonneg q) end; lia. }
  cbn [run]. destruct (decide (v_state s = Done)) as [Hd|Hd].
  - rewrite bool_decide_eq_true_2 by done. left. split; [done|].
    inversion Hi; subst; try done. by exists els, post.
  - rewrite bool_decide_eq_false_2 by done.
    destruct (step_inv s Hi Hd) as [[[msg E]|(s' & E & Hi' & Hm')]|[Ht [[msg E]|[e E]]]];
      rewrite E; unfold vbind; cbn [mbind result_bind].
    + right; left. by eexists.
    + apply IH; [done|lia].
    + right; left. by eexists.
    + right; right. split; [done|]. by eexists.
Qed.

Lemma initial_inv : inv (mkVState [] BeginObj 0 0 None).
Proof. apply (inv_begin [] [] 0 buf 0 None); [constructor|done|done|by left]. Qed.

Lemma validate_outcomes :
  (validateBSONIterative buf = Ret (Ret tt) /\ exists o post, wf_obj o /\ buf = encode_obj o ++ post) \/
  is_error (validateBSONIterative buf) \/
  (truncated_dbref_id /\ exists e, validateBSONIterative buf = Throw e).
Proof.
  apply run_inv; [apply initial_inv|]. unfold measure, validate_fuel. cbn [v_pos v_frames].
  change (zlen (@nil ValidationObjectFrame)) with 0. unfold zlen. lia.
Qed.

(** *** Encoded documents are accepted *)

Lemma readNumber_ok t k pre v post :
  width t = 8 * Z.of_nat k -> (0 < k <= 8)%nat -> in_range t v -> at_ pre (le_bytes k v ++ post) ->
  readNumber buf t (zlen pre) = Ret (Some (v, zlen (pre ++ le_bytes k v))).
Proof.
  intros Hw Hk Hv Hat. pose proof (at_len _ _ Hat) as Hl. rewrite zlen_app, zlen_le_bytes in Hl.
  pose proof (zlen_nonneg pre). pose proof (zlen_nonneg post). unfold readNumber, maxLength.
  rewrite Hw. replace (8 * Z.of_nat k / 8) with (Z.of_nat k) by (rewrite Z.mul_comm, Z.div_mul; lia).
  rewrite size_wrap_buf by (cbn in *; lia). replace (_ >? _) with false by lia.
  unfold at_ in Hat. rewrite Hat at 1. rewrite (readLE_at t k) by (done || lia).
  cbn [mbind result_bind]. by rewrite zlen_app, zlen_le_bytes.
Qed.

Lemma readCString_ok pre s post id :
  nul ∉ s -> at_ pre (s ++ nul :: post) ->
  readCString buf (zlen pre) id = vret (s, zlen (pre ++ s ++ [nul])).
Proof.
  intros Hn Hat. pose proof (at_len _ _ Hat) as Hl. zlen_simpl. unfold readCString, maxLength.
  replace (zlen pre >? zlen buf) with false by lia.
  rewrite (at_drop _ _ Hat), memchr_app_notin, take_app_length by done.
  change (Z.of_nat (length s)) with (zlen s).
  rewrite size_wrap_buf by (cbn in *; lia). by rewrite Z.add_assoc.
Qed.

Lemma skip_ok pre a post :
  at_ pre (a ++ post) -> 1 <= zlen post -> skip buf (zlen pre) (zlen a) = (true, zlen (pre ++ a)).
Proof.
  intros Hat Hp. pose proof (at_len _ _ Hat) as Hl. rewrite zlen_app in *.
  pose proof (zlen_nonneg pre). pose proof (zlen_nonneg a).
  rewrite (skip_at pre (a ++ post)) by (done || lia). f_equal. lia.
Qed.

Lemma readUTF8String_ok pre s post id :
  at_ pre (encode_string s ++ post) ->
  readUTF8String buf (zlen pre) id = vret (zlen (pre ++ encode_string s)).
Proof.
  intros Hat. pose proof (at_len _ _ Hat) as Hl. zlen_simpl. unfold readUTF8String.
  unfold encode_string in *. rewrite <-!app_assoc in Hat.
  rewrite (readNumber_ok int32 4 pre (zlen s + 1) (s ++ [nul] ++ post))
    by (done || lia || (apply uint_of_int; lia)).
  cbn [mbind result_bind]. replace (zlen s + 1 <=? 0) with false by lia.
  replace (zlen s + 1 - 1) with (zlen s) by lia.
  assert (at_ (pre ++ le_bytes 4 (zlen s + 1)) (s ++ [nul] ++ post)) as Hat1 by (by apply at_app).
  rewrite (skip_ok _ _ ([nul] ++ post)); [|done|autorewrite with mongo; lia]. cbn [negb].
  assert (at_ ((pre ++ le_bytes 4 (zlen s + 1)) ++ s) ([nul] ++ post)) as Hat2 by (by apply at_app).
  rewrite (readNumber_ok int8 1 _ 0 post) by (done || lia). cbn [mbind result_bind].
  rewrite Z.eqb_refl. cbn [negb]. unfold vret. do 2 f_equal. autorewrite with mongo. lia.
Qed.

(** The state after the header and, for a leaf, after the value. *)
Definition next_of (v : bson_value) : ValidationState :=
  match v with
  | VObject _ | VArray _ => BeginObj
  | VCodeWScope _ _ => BeginCodeWScope
  | _ => WithinObj
  end.
Definition leaf_bytes (v : bson_value) : bytes :=
  match v with VObject _ | VArray _ | VCodeWScope _ _ => [] | _ => encode_value v end.

Lemma validateElementInfo_ok pre n v post id :
  wf_element (n, v) -> at_ pre (encode_element (n, v) ++ post) -> 1 <= zlen post ->
  validateElementInfo buf (zlen pre) id =
    vret (next_of v, zlen (pre ++ header (value_type v) n ++ leaf_bytes v), n).
Proof.
  intros [Hn Hv] Hat Hpost. cbn [fst snd] in *. unfold validateElementInfo.
  rewrite encode_element_hdr in Hat.
  pose proof (at_len _ _ Hat) as Hl. rewrite !zlen_app in Hl. pose proof (zlen_nonneg pre).
  pose proof (zlen_nonneg (header (value_type v) n)).
  assert (int_max int32 = 2147483647) as Hmax by done.
  assert (header (value_type v) n = le_bytes 1 (BSONType_value (value_type v)) ++ n ++ [nul]) as Eh by done.
  rewrite (readNumber_ok int8 1 pre (BSONType_value (value_type v)) ((n ++ [nul]) ++ encode_value v ++ post)).
  2-3: done || lia.
  2: by destruct v.
  2: { rewrite Eh, <-!app_assoc in Hat. rewrite <-!app_assoc. exact Hat. }
  cbn [mbind result_bind].
  assert ((BSONType_value (value_type v) =? 0) = false) as -> by (by destruct v).
  set (pre1 := pre ++ le_bytes 1 (BSONType_value (value_type v))).
  rewrite (readCString_ok pre1 n (encode_value v ++ post)).
  2: done.
  2: { rewrite Eh, <-!app_assoc in Hat. by apply at_app. }
  rewrite vbind_ret, BSONType_of_value.
  assert (pre1 ++ n ++ [nul] = pre ++ header (value_type v) n) as E2.
  { unfold pre1. rewrite Eh. by rewrite <-!app_assoc. }
  rewrite E2. clear E2. clearbody pre1. rewrite <-app_assoc in Hat. apply at_app in Hat.
  rewrite (app_assoc pre). set (q := pre ++ header (value_type v) n) in *.
  assert (forall k, 0 <= k -> zlen (encode_value v) = k -> leaf_bytes v = encode_value v -> next_of v = WithinObj ->
    (skip_or_error buf (zlen q) k id >>> fun '(next, pos) => vret (next, pos, n))
    = vret (next_of v, zlen (q ++ leaf_bytes v), n)) as Hskip.
  { intros k Hk <- -> ->. unfold skip_or_error. by rewrite (skip_ok _ _ post). }
  assert (forall s, encode_value v = encode_string s -> leaf_bytes v = encode_value v -> next_of v = WithinObj ->
    ((readUTF8String buf (zlen q) id >>> fun pos => vret (WithinObj, pos)) >>>
       fun '(next, pos) => vret (next, pos, n)) = vret (next_of v, zlen (q ++ leaf_bytes v), n)) as Hstr.
  { intros s Es -> ->. rewrite Es in *. by rewrite (readUTF8String_ok q s post). }
  destruct v; cbn [value_type]; try done; try (by rewrite app_nil_r);
    try (by apply Hskip; [lia|autorewrite with mongo..]); try (by eapply Hstr).
  - cbn [leaf_bytes next_of encode_value] in *. rewrite <-app_assoc in Hat.
    rewrite zlen_app, zlen_cons, zlen_le4 in Hl. pose proof (zlen_nonneg data).
    rewrite (readNumber_ok int32 4 q (zlen data) ((subtype :: data) ++ post))
      by (done || lia || (apply uint_of_int; lia)).
    cbn [mbind result_bind]. replace (_ || _) with false by (cbn; lia).
    assert (at_ (q ++ le_bytes 4 (zlen data)) ((subtype :: data) ++ post)) as Hat1 by (by apply at_app).
    unfold skip_or_error. replace (1 + zlen data) with (zlen (subtype :: data)) by (by rewrite zlen_cons).
    rewrite (skip_ok _ _ post) by done. unfold vbind, vret. cbn [negb mbind result_bind].
    by rewrite <-app_assoc.
  - cbn [leaf_bytes next_of encode_value] in *. destruct Hv as [Hr Hf].
    rewrite (readCString_ok q regex ((flags ++ [nul]) ++ post)); [|done|].
    2: { by rewrite <-app_assoc in Hat. }
    rewrite vbind_ret. rewrite (readCString_ok _ flags post); [|done|].
    2: { rewrite <-app_assoc in Hat. cbn [app] in Hat. rewrite <-app_assoc in Hat.
         apply at_app. rewrite <-!app_assoc. exact Hat. }
    unfold vbind, vret. cbn [mbind result_bind]. by rewrite <-!app_assoc.
  - cbn [leaf_bytes next_of encode_value] in *. cbn in Hv. rewrite <-app_assoc in Hat.
    rewrite (readUTF8String_ok q ns (oid ++ post)) by done.
    unfold vbind, vret. cbn [mbind result_bind]. rewrite <-Hv.
    rewrite (skip_ok _ _ post) by (done || by apply at_app). cbn [snd]. by rewrite <-app_assoc.
Qed.
(** [goes k s s']: [k] iterations of the loop take [s] to [s']. *)
Definition goes (k : nat) (s s' : VState) : Prop :=
  forall m, run buf (k + m) s = run buf m s'.

Lemma goes_trans j k s1 s2 s3 : goes j s1 s2 -> goes k s2 s3 -> goes (j + k) s1 s3.
Proof. intros H1 H2 m. by rewrite <-Nat.add_assoc, H1, H2. Qed.

Lemma goes_step s s' : v_state s <> Done -> step buf s = vret s' -> goes 1 s s'.
Proof. intros Hd E m. cbn [run Nat.add]. by rewrite bool_decide_eq_false_2, E. Qed.

Lemma within_obj_element fs st pre n v post ids id :
  wf_element (n, v) -> at_ pre (encode_element (n, v) ++ post) -> 1 <= zlen post ->
  exists ids' id', within_obj buf (mkVState fs st (zlen pre) ids id) =
    vret (mkVState fs (next_of v) (zlen (pre ++ header (value_type v) n ++ leaf_bytes v)) ids' id').
Proof.
  intros Hw Hat Hp. unfold within_obj. cbn [v_frames v_state v_pos v_idElemStartPos v_idElem].
  rewrite (validateElementInfo_ok pre n v post) by done. rewrite vbind_ret. eauto.
Qed.

Lemma within_obj_end fs st pre post ids id :
  at_ pre (nul :: post) ->
  exists ids' id', within_obj buf (mkVState fs st (zlen pre) ids id) =
    vret (mkVState fs EndObj (zlen (pre ++ [nul])) ids' id').
Proof.
  intros Hat. unfold within_obj. cbn [v_frames v_state v_pos v_idElemStartPos v_idElem].
  unfold validateElementInfo. rewrite (readNumber_ok int8 1 pre 0 post) by (done || lia).
  cbn [mbind result_bind]. rewrite Z.eqb_refl, vbind_ret. eauto.
Qed.

(** Reading an object's length and its first element is one iteration. *)
Lemma begin_within fs pre n post ids id :
  in_range int32 n -> at_ pre (le4 n ++ post) ->
  exists f, frame_at false f pre /\ expectedSize f = n /\ forall m,
    run buf (S m) (mkVState fs BeginObj (zlen pre) ids id) =
    run buf (S m) (mkVState (f :: fs) WithinObj (zlen (pre ++ le4 n)) ids id).
Proof.
  intros Hn Hat. pose proof (at_len _ _ Hat) as Hl. rewrite zlen_app in Hl.
  pose proof (zlen_nonneg pre). pose proof (zlen_nonneg (le4 n)). pose proof (zlen_nonneg post).
  destruct (frame_fields (zlen pre) n false ltac:(lia)) as (Hs & Hc & He).
  eexists. split; [split; [exact Hs|exact Hc]|]. split; [exact He|]. intros m.
  cbn [run v_state]. rewrite !bool_decide_eq_false_2 by done.
  unfold step. cbn [v_state v_pos v_frames v_idElem v_idElemStartPos].
  by rewrite (readNumber_ok int32 4 pre n post) by (done || lia).
Qed.

(** A whole element, and all the elements of an object up to its end. *)
Definition value_accepted (v : bson_value) : Prop :=
  forall n f fs pre post ids id,
    wf_element (n, v) -> at_ pre (encode_element (n, v) ++ post) -> 1 <= zlen post ->
    isCodeWithScope f = false ->
    exists k ids' id', Z.of_nat k <= 2 * zlen (encode_element (n, v)) /\
      goes k (mkVState (f :: fs) WithinObj (zlen pre) ids id)
        (mkVState (f :: fs) WithinObj (zlen (pre ++ encode_element (n, v))) ids' id').

Lemma elements_accepted o : Forall (fun e => value_accepted e.2) o -> wf_obj o ->
  forall f fs pre post ids id,
    at_ pre (encode_elements o ++ nul :: post) -> isCodeWithScope f = false ->
    exists k ids' id', Z.of_nat k <= 2 * zlen (encode_elements o) /\
      goes (S k) (mkVState (f :: fs) WithinObj (zlen pre) ids id)
        (mkVState (f :: fs) EndObj (zlen (pre ++ encode_elements o ++ [nul])) ids' id').
Proof.
  induction 1 as [|[n v] o Hv Ho IH]; intros Hw f fs pre post ids id Hat Hf.
  - destruct (within_obj_end (f :: fs) WithinObj pre post ids id Hat) as (ids' & id' & E).
    exists 0%nat, ids', id'. split; [done|]. by apply goes_step.
  - apply List.Forall_cons_iff in Hw as [Hwe Hw]. cbn [encode_elements flat_map snd] in *.
    change (flat_map encode_element o) with (encode_elements o) in *. rewrite <-app_assoc in Hat.
    destruct (Hv n f fs pre _ ids id Hwe Hat) as (k1 & ids1 & id1 & Hk1 & G1); [|done|].
    { zlen_simpl. lia. }
    destruct (IH Hw f fs (pre ++ encode_element (n, v)) post ids1 id1) as (k2 & ids2 & id2 & Hk2 & G2);
      [by apply at_app|done|].
    exists (k1 + k2)%nat, ids2, id2. split; [rewrite zlen_app; lia|].
    rewrite plus_n_Sm. rewrite <-app_assoc in G2. rewrite <-app_assoc. by eapply goes_trans.
Qed.

Lemma obj_accepted o : Forall (fun e => value_accepted e.2) o -> wf_obj o ->
  forall fs pre post ids id,
    at_ pre (encode_obj o ++ post) ->
    exists k ids' id', Z.of_nat k <= 2 * zlen (encode_elements o) /\
      goes (S (S k)) (mkVState fs BeginObj (zlen pre) ids id)
        (mkVState fs (match fs with
                      | [] => Done
                      | f :: _ => if isCodeWithScope f then EndCodeWScope else WithinObj
                      end) (zlen (pre ++ encode_obj o)) ids' id').
Proof.
  intros Ho Hw fs pre post ids id Hat. pose proof (at_len _ _ Hat) as Hl.
  rewrite zlen_app, zlen_encode_obj in Hl. pose proof Hat as Hat'. unfold encode_obj, encode_obj_with in Hat'. rewrite <-!app_assoc in Hat'.
  set (n := zlen (encode_elements o) + 5) in *.
  assert (in_range int32 n) as Hn.
  { apply uint_of_int. pose proof (zlen_nonneg (encode_elements o)). pose proof (zlen_nonneg pre).
    pose proof (zlen_nonneg post). unfold n. lia. }
  destruct (begin_within fs pre n _ ids id Hn Hat') as (f & [Hs Hc] & He & Hb).
  destruct (elements_accepted o Ho Hw f fs (pre ++ le4 n) post ids id) as (k & ids' & id' & Hk & G);
    [by apply at_app|done|].
  exists k, ids', id'. split; [done|].
  replace (S (S k)) with (S k + 1)%nat by lia. eapply goes_trans; [intros m|].
  { cbn [Nat.add]. rewrite Hb. exact (G m). }
  apply goes_step; [done|]. unfold step, with_curr.
  cbn [v_state v_pos v_idElem v_frames v_idElemStartPos]. rewrite Hs.
  assert ((pre ++ le4 n) ++ encode_elements o ++ [nul] = pre ++ encode_obj o) as ->.
  { unfold encode_obj, encode_obj_with. by rewrite <-!app_assoc. }
  rewrite (actual_length _ _ post) by (by apply at_app).
  rewrite He. replace (_ =? n) with true by (rewrite zlen_encode_obj; unfold n; lia). done.
Qed.

(** The first iteration of an element reads its header, and a leaf whole. *)
Lemma goes_element f fs pre n v post ids id :
  wf_element (n, v) -> at_ pre (encode_element (n, v) ++ post) -> 1 <= zlen post ->
  exists ids' id', goes 1 (mkVState (f :: fs) WithinObj (zlen pre) ids id)
    (mkVState (f :: fs) (next_of v) (zlen (pre ++ header (value_type v) n ++ leaf_bytes v)) ids' id').
Proof.
  intros Hw Hat Hp.
  destruct (within_obj_element (f :: fs) WithinObj pre n v post ids id Hw Hat Hp) as (ids1 & id1 & E).
  exists ids1, id1. by apply goes_step.
Qed.

Lemma document_accepted v o : encode_value v = encode_obj o -> next_of v = BeginObj -> leaf_bytes v = [] ->
  (wf_value v -> wf_obj o) -> Forall (fun e => value_accepted e.2) o -> value_accepted v.
Proof.
  intros Ev Hnext Hleaf Hwf Ho n f fs pre post ids id Hw Hat Hp Hf.
  destruct (goes_element f fs pre n v post ids id Hw Hat Hp) as (ids1 & id1 & G1).
  rewrite Hnext, Hleaf, app_nil_r in G1. rewrite encode_element_hdr, Ev, <-app_assoc in Hat.
  destruct (obj_accepted o Ho (Hwf (proj2 Hw)) (f :: fs) (pre ++ header (value_type v) n) post ids1 id1)
    as (k & ids2 & id2 & Hk & G2); [by apply at_app|].
  rewrite Hf, <-app_assoc, <-Ev, <-encode_element_hdr in G2.
  exists (1 + S (S k))%nat, ids2, id2. split; [|by eapply goes_trans].
  rewrite encode_element_hdr, Ev, zlen_app, zlen_encode_obj.
  pose proof (zlen_nonneg (header (value_type v) n)). lia.
Qed.

Lemma code_begin f fs q sz c post ids id :
  in_range int32 sz -> at_ q (le4 sz ++ encode_string c ++ post) ->
  exists g, frame_at true g q /\ expectedSize g = sz /\
    goes 1 (mkVState (f :: fs) BeginCodeWScope (zlen q) ids id)
      (mkVState (g :: f :: fs) BeginObj (zlen ((q ++ le4 sz) ++ encode_string c)) ids id).
Proof.
  intros Hsz Hat. pose proof (at_len _ _ Hat) as Hl. rewrite zlen_app in Hl.
  pose proof (zlen_nonneg q). pose proof (zlen_nonneg (le4 sz)).
  pose proof (zlen_nonneg (encode_string c ++ post)).
  destruct (frame_fields (zlen q) sz true ltac:(lia)) as (Hs & Hc & He).
  eexists. split; [split; [exact Hs|exact Hc]|]. split; [exact He|]. apply goes_step; [done|].
  unfold step. cbn [v_state v_pos v_frames v_idElem v_idElemStartPos].
  rewrite (readNumber_ok int32 4 q sz (encode_string c ++ post)) by (done || lia).
  cbn [mbind result_bind]. change (le_bytes 4 sz) with (le4 sz).
  by rewrite (readUTF8String_ok _ c post) by (by apply at_app).
Qed.

Lemma code_accepted c o : Forall (fun e => value_accepted e.2) o -> value_accepted (VCodeWScope c o).
Proof.
  intros Ho n f fs pre post ids id Hw Hat Hp Hf.
  destruct (goes_element f fs pre n _ post ids id Hw Hat Hp) as (ids1 & id1 & G1).
  cbn [next_of leaf_bytes] in G1. rewrite app_nil_r in G1.
  pose proof (at_len _ _ Hat) as Hl. rewrite encode_element_hdr in *.
  rewrite <-app_assoc in Hat. apply at_app in Hat. rewrite app_assoc.
  set (q := pre ++ header _ n) in *.
  rewrite encode_VCodeWScope in *. set (sz := 4 + zlen (encode_string c) + zlen (encode_obj o)) in *.
  destruct (code_begin f fs q sz c (encode_obj o ++ post) ids1 id1) as (g & [Hs Hc] & He & G2).
  { apply uint_of_int. clear G1. unfold sz. zlen_simpl. lia. }
  { by rewrite <-!app_assoc in Hat. }
  assert (at_ ((q ++ le4 sz) ++ encode_string c) (encode_obj o ++ post)) as Hat2.
  { unfold at_ in *. by rewrite Hat, <-!app_assoc. }
  destruct (obj_accepted o Ho (proj1 (wf_VCodeWScope c o) (proj2 Hw)) (g :: f :: fs) _ post ids1 id1 Hat2)
    as (k & ids2 & id2 & Hk & G3).
  rewrite Hc in G3. rewrite <-!app_assoc in G3. rewrite <-!app_assoc in G2.
  exists (1 + (1 + (S (S k) + 1)))%nat, ids2, id2. split.
  { unfold header. zlen_simpl. lia. }
  eapply goes_trans; [exact G1|]. eapply goes_trans; [exact G2|]. eapply goes_trans; [exact G3|].
  apply goes_step; [done|]. unfold step, with_curr.
  cbn [v_state v_pos v_idElem v_frames v_idElemStartPos]. rewrite Hs.
  rewrite (actual_length _ _ post) by (unfold at_ in *; by rewrite Hat, <-!app_assoc).
  rewrite He. replace (_ =? sz) with true; [done|].
  unfold sz. rewrite !zlen_app, zlen_le4. lia.
Qed.

Lemma value_accepted_all v : value_accepted v.
Proof.
  induction v as [v Hv|o IH|o IH|c o IH] using bson_value_ind'.
  - intros n f fs pre post ids id Hw Hat Hp Hf.
    destruct (goes_element f fs pre n v post ids id Hw Hat Hp) as (ids1 & id1 & G1).
    exists 1%nat, ids1, id1. rewrite encode_element_hdr. split.
    + pose proof (zlen_nonneg (encode_value v)). unfold header. zlen_simpl. lia.
    + destruct v; done.
  - apply (document_accepted _ o); [apply encode_VObject|done|done|apply wf_VObject|done].
  - apply (document_accepted _ o); [apply encode_VArray|done|done|apply wf_VArray|done].
  - by apply code_accepted.
Qed.

(** The loop accepts an encoded document and whatever follows it. *)
Lemma validate_accepts o post : wf_obj o -> buf = encode_obj o ++ post ->
  validateBSONIterative buf = Ret (Ret tt).
Proof.
  intros Hw Hb. unfold validateBSONIterative.
  destruct (obj_accepted o) with (fs := @nil ValidationObjectFrame) (pre := @nil char) (post := post)
    (ids := 0) (id := @None Z) as (k & ids' & id' & Hk & G); [|done|exact Hb|].
  { apply List.Forall_forall. intros e _. apply value_accepted_all. }
  assert (Z.of_nat (S (S k)) <= Z.of_nat (validate_fuel buf)) as Hf.
  { apply (f_equal zlen) in Hb. rewrite zlen_app, zlen_encode_obj in Hb. pose proof (zlen_nonneg post).
    unfold validate_fuel, zlen in *. lia. }
  replace (validate_fuel buf) with (S (S k) + (validate_fuel buf - S (S k)))%nat by lia.
  change 0 with (zlen (@nil char)) at 1. rewrite (G _).
  by destruct (validate_fuel buf - S (S k))%nat.
Qed.
End proofs.

(** ** Properties *)

(** C4: [validateBSON] accepts a buffer exactly when it starts with the encoding of
    a well-formed document.  (A buffer is at most [INT_MAX] bytes long.) *)
Theorem validateBSON_accepts (buf : bytes) :
  zlen buf <= int_max int32 ->
  validateBSON buf = Ret (Ret tt) <->
  exists o post, wf_obj o /\ buf = encode_obj o ++ post.
Proof.
  intros Hs. unfold validateBSON. split.
  - destruct (zlen buf <? 5); [done|]. intros E.
    destruct (validate_outcomes buf Hs) as [[_ H]|[[msg H]|(_ & e & H)]];
      [done|rewrite E in H; done|rewrite E in H; done].
  - intros (o & post & Hw & Hb).
    assert (5 <= zlen buf).
    { rewrite Hb, zlen_app, zlen_encode_obj. pose proof (zlen_nonneg (encode_elements o)).
      pose proof (zlen_nonneg post). lia. }
    replace (zlen buf <? 5) with false by lia. by eapply validate_accepts.
Qed.

Lemma validateBSON_accepts_witness :
  validateBSON (encode_obj [(B "a", VCodeWScope (B "f") [(B "b", VjstNULL)])] ++ [nul]) = Ret (Ret tt).
Proof.
  apply validateBSON_accepts; [by vm_compute|].
  exists [(B "a", VCodeWScope (B "f") [(B "b", VjstNULL)])], [nul]. split; [|done].
  constructor; [|constructor]. split; [cbn; not_in|].
  apply wf_VCodeWScope. constructor; [|constructor]. split; [cbn; not_in|exact I].
Defined.

(** Whatever the bytes, the validator stops; it accepts, and then the document
    can be read without leaving the buffer, or it answers [InvalidBSON].  The
    only buffers on which it may itself read past the end are those that stop
    inside the object id of a DBRef named [_id], which the error message then
    quotes. *)
Theorem validateBSON_outcomes (buf : bytes) :
  zlen buf <= int_max int32 ->
  (validateBSON buf = Ret (Ret tt) /\ exists o, wf_obj o /\ read_object (length buf) buf = Ret o) \/
  (exists msg, validateBSON buf = Ret (Throw (InvalidBSON, msg))) \/
  (truncated_dbref_id buf /\ exists e, validateBSON buf = Throw e).
Proof.
  intros Hs. unfold validateBSON. destruct (zlen buf <? 5); [right; left; by eexists|].
  destruct (validate_outcomes buf Hs) as [[E (o & post & Hw & Hb)]|[[msg E]|[Ht E]]].
  - left. split; [done|]. exists o. split; [done|]. subst buf. apply read_encode_aux; [done|].
    unfold int_sized. rewrite zlen_app in Hs. pose proof (zlen_nonneg post). lia.
  - right; left. by eexists.
  - by right; right.
Qed.

Lemma validateBSON_outcomes_witness :
  let buf := take 18 (encode_obj [(B "_id", VDBRef (B "ns") (B "abcdefghijkl"))]) in
  exists e, validateBSON buf = Throw e.
Proof.
  cbn zeta.
  set (buf := take 18 (encode_obj [(B "_id", VDBRef (B "ns") (B "abcdefghijkl"))])).
  assert (zlen buf <= int_max int32) as Hs by (by vm_compute).
  destruct (validateBSON_outcomes buf Hs) as [[E _]|[[msg E]|[_ E]]].
  - exfalso. vm_compute in E. discriminate E.
  - exfalso. vm_compute in E. discriminate E.
  - exact E.
Defined.
