(* ===== verification/Endian.v ===== *)
(** * Byte order: platform/endian.h, base/data_view.h, base/data_cursor.h

    The machine the code runs on keeps the bytes of a number in one of two orders; the
    models of the rest of the library read and write little-endian bytes.  Here it is
    shown that the code does, on either machine. *)
From S2P Require Import Prelude BufBuilder Bson BsonValidate.
Local Open Scope Z_scope.

(** [MONGO_BYTE_ORDER]. *)
Inductive byte_order := MONGO_LITTLE_ENDIAN | MONGO_BIG_ENDIAN.
Definition is_little (o : byte_order) : bool := match o with MONGO_LITTLE_ENDIAN => true | MONGO_BIG_ENDIAN => false end.

(** ** Swapping *)

Definition bswap_slow16 (v : Z) : Z :=
  wrap uint16 (Z.lor (Z.shiftl (Z.land v 0x00FF) 8) (Z.shiftr (Z.land v 0xFF00) 8)).
Definition bswap_slow32 (v : Z) : Z :=
  wrap uint32 (Z.lor (Z.lor (Z.lor (Z.shiftl (Z.land v 0x000000FF) 24) (Z.shiftl (Z.land v 0x0000FF00) 8))
    (Z.shiftr (Z.land v 0x00FF0000) 8)) (Z.shiftr (Z.land v 0xFF000000) 24)).
Definition bswap_slow64 (v : Z) : Z :=
  Z.lor (Z.lor (Z.lor (Z.lor (Z.lor (Z.lor (Z.lor
    (wrap uint64 (Z.shiftl (Z.land v 0x00000000000000FF) 56)) (wrap uint64 (Z.shiftl (Z.land v 0x000000000000FF00) 40)))
    (wrap uint64 (Z.shiftl (Z.land v 0x0000000000FF0000) 24))) (wrap uint64 (Z.shiftl (Z.land v 0x00000000FF000000) 8)))
    (Z.shiftr (Z.land v 0x000000FF00000000) 8)) (Z.shiftr (Z.land v 0x0000FF0000000000) 24))
    (Z.shiftr (Z.land v 0x00FF000000000000) 40)) (Z.shiftr (Z.land v 0xFF00000000000000) 56).

(** ** Conversions

    [ByteOrderConverter], by the width of the type: a signed number is swapped as the
    unsigned one, a [float] or [double] as its bits. *)
Definition SWAB (t : int_type) (v : Z) : Z :=
  if width t =? 16 then bswap_slow16 v else if width t =? 32 then bswap_slow32 v else if width t =? 64 then bswap_slow64 v else v.
Definition unsigned (t : int_type) : int_type := IntType false (width t).
Definition htobe (o : byte_order) (t : int_type) (v : Z) : Z := if is_little o then SWAB t v else v.
Definition htole (o : byte_order) (t : int_type) (v : Z) : Z := if is_little o then v else SWAB t v.
Definition betoh (o : byte_order) (t : int_type) (v : Z) : Z := if is_little o then SWAB t v else v.
Definition letoh (o : byte_order) (t : int_type) (v : Z) : Z := if is_little o then v else SWAB t v.
Definition nativeToBig (o : byte_order) (t : int_type) (z : Z) : Z := if width t =? 8 then z else wrap t (htobe o t (wrap (unsigned t) z)).
Definition bigToNative (o : byte_order) (t : int_type) (z : Z) : Z := if width t =? 8 then z else wrap t (betoh o t (wrap (unsigned t) z)).
Definition nativeToLittle (o : byte_order) (t : int_type) (z : Z) : Z := if width t =? 8 then z else wrap t (htole o t (wrap (unsigned t) z)).
Definition littleToNative (o : byte_order) (t : int_type) (z : Z) : Z := if width t =? 8 then z else wrap t (letoh o t (wrap (unsigned t) z)).

(** ** Views of memory *)

(** The bytes of a number in the memory of the machine, and back. *)
Definition native_bytes (o : byte_order) (t : int_type) (z : Z) : bytes :=
  let bs := le_bytes (Z.to_nat (width t / 8)) z in if is_little o then bs else rev bs.
Definition native_value (o : byte_order) (t : int_type) (bs : bytes) : Z := wrap t (le_value (if is_little o then bs else rev bs)).

Definition view_readNative (o : byte_order) (t : int_type) (mem : bytes) (offset : Z) : M Z :=
  if (0 <=? offset) && (offset + width t / 8 <=? zlen mem)
  then Ret (native_value o t (take (Z.to_nat (width t / 8)) (drop (Z.to_nat offset) mem))) else Throw EUndefined.
Definition view_readLE (o : byte_order) (t : int_type) (mem : bytes) (offset : Z) : M Z :=
  v ← view_readNative o t mem offset; Ret (littleToNative o t v).
Definition view_readBE (o : byte_order) (t : int_type) (mem : bytes) (offset : Z) : M Z :=
  v ← view_readNative o t mem offset; Ret (bigToNative o t v).
Definition view_writeNative (o : byte_order) (t : int_type) (value : Z) (mem : bytes) (offset : Z) : M bytes :=
  if (0 <=? offset) && (offset + width t / 8 <=? zlen mem)
  then Ret (take (Z.to_nat offset) mem ++ native_bytes o t value ++ drop (Z.to_nat (offset + width t / 8)) mem) else Throw EUndefined.
Definition view_writeLE (o : byte_order) (t : int_type) (value : Z) : bytes -> Z -> M bytes := view_writeNative o t (nativeToLittle o t value).
Definition view_writeBE (o : byte_order) (t : int_type) (value : Z) : bytes -> Z -> M bytes := view_writeNative o t (nativeToBig o t value).

(** ** Cursors: a view that moves *)

Record DataCursor := mkCursor { c_mem : bytes; c_pos : Z }.
Definition cursor_add (s : Z) (c : DataCursor) : DataCursor := mkCursor (c_mem c) (c_pos c + s).
Definition cursor_sub (s : Z) (c : DataCursor) : DataCursor := mkCursor (c_mem c) (c_pos c - s).
Definition cursor_skip (t : int_type) (c : DataCursor) : DataCursor := cursor_add (width t / 8) c.
Definition readNativeAndAdvance (o : byte_order) (t : int_type) (c : DataCursor) : M (Z * DataCursor) :=
  v ← view_readNative o t (c_mem c) (c_pos c); Ret (v, cursor_skip t c).
Definition readLEAndAdvance (o : byte_order) (t : int_type) (c : DataCursor) : M (Z * DataCursor) :=
  '(v, c) ← readNativeAndAdvance o t c; Ret (littleToNative o t v, c).
Definition readBEAndAdvance (o : byte_order) (t : int_type) (c : DataCursor) : M (Z * DataCursor) :=
  '(v, c) ← readNativeAndAdvance o t c; Ret (bigToNative o t v, c).
Definition writeNativeAndAdvance (o : byte_order) (t : int_type) (value : Z) (c : DataCursor) : M DataCursor :=
  mem ← view_writeNative o t value (c_mem c) (c_pos c); Ret (cursor_skip t (mkCursor mem (c_pos c))).
Definition writeLEAndAdvance (o : byte_order) (t : int_type) (value : Z) : DataCursor -> M DataCursor := writeNativeAndAdvance o t (nativeToLittle o t value).
Definition writeBEAndAdvance (o : byte_order) (t : int_type) (value : Z) : DataCursor -> M DataCursor := writeNativeAndAdvance o t (nativeToBig o t value).

(** Numbers of several types, one after another. *)
Fixpoint write_all (o : byte_order) (l : list (int_type * Z)) (c : DataCursor) : M DataCursor :=
  match l with [] => Ret c | (t, z) :: l => c ← writeLEAndAdvance o t z c; write_all o l c end.
Fixpoint read_all (o : byte_order) (l : list int_type) (c : DataCursor) : M (list Z * DataCursor) :=
  match l with
  | [] => Ret ([], c)
  | t :: l => '(v, c) ← readLEAndAdvance o t c; '(vs, c) ← read_all o l c; Ret (v :: vs, c)
  end.

(** ** Theorems *)

Definition swappable (t : int_type) : Prop := width t = 8 \/ width t = 16 \/ width t = 32 \/ width t = 64.

Lemma land_byte v k : 0 <= k -> Z.land v (255 * 2 ^ k) = ((v / 2 ^ k) mod 256) * 2 ^ k.
Proof.
  intros Hk. change 255 with (Z.ones 8). change 256 with (2 ^ 8). rewrite <- Z.land_ones, <- Z.shiftr_div_pow2, <- !Z.shiftl_mul_pow2 by lia.
  apply Z.bits_inj'. intros n Hn. rewrite Z.land_spec, !Z.shiftl_spec by done. destruct (decide (n < k)).
  - rewrite !(Z.testbit_neg_r _ (n - k)) by lia. by rewrite andb_false_r.
  - rewrite Z.land_spec, Z.shiftr_spec by lia. by replace (n - k + k) with n by lia.
Qed.
Lemma lor_low a y k : 0 <= k -> 0 <= y < 2 ^ k -> Z.lor (a * 2 ^ k) y = a * 2 ^ k + y.
Proof.
  intros Hk Hy. destruct (decide (y = 0)) as [->|Hy0]; [rewrite Z.lor_0_r; lia|]. rewrite <- Z.add_lor_land. assert (Z.land (a * 2 ^ k) y = 0) as ->; [|by rewrite Z.add_0_r].
  apply Z.bits_inj'. intros n Hn. rewrite Z.land_spec, Z.bits_0. destruct (decide (n < k)).
  - by rewrite Z.mul_pow2_bits_low by lia.
  - rewrite (Z.bits_above_log2 y n); [by rewrite andb_false_r|lia|].
    apply Z.log2_lt_pow2; [lia|]. apply Z.lt_le_trans with (2 ^ k); [lia|]. apply Z.pow_le_mono_r; lia.
Qed.

(** The byte of a number at a position, moved to another one. *)
Lemma byte_of bs k : (le_value bs / 256 ^ Z.of_nat k) mod 256 = uchar (nth k bs nul).
Proof.
  revert k. induction bs as [|c bs IH]; intros k; cbn [le_value nth].
  { rewrite Zdiv_0_l. by destruct k. }
  pose proof (uchar_range c). destruct k as [|k].
  - rewrite Z.pow_0_r, Z.div_1_r, (Z.mul_comm 256), Z.mod_add by lia. apply Z.mod_small. lia.
  - rewrite Nat2Z.inj_succ, Z.pow_succ_r by lia. rewrite <- Z.div_div by lia.
    replace ((uchar c + 256 * le_value bs) / 256) with (le_value bs); [apply IH|].
    rewrite (Z.mul_comm 256), Z.div_add by lia. rewrite Z.div_small by lia. lia.
Qed.
Lemma move_up bs k j : 0 <= j -> Z.shiftl (Z.land (le_value bs) (255 * 2 ^ (8 * Z.of_nat k))) j = uchar (nth k bs nul) * 2 ^ (8 * Z.of_nat k + j).
Proof.
  intros Hj. rewrite land_byte by lia. rewrite Z.pow_mul_r by lia. change (2 ^ 8) with 256. rewrite byte_of, Z.shiftl_mul_pow2 by lia.
  change 256 with (2 ^ 8) at 1. rewrite <- Z.pow_mul_r, <- Z.mul_assoc, <- Z.pow_add_r by lia. done.
Qed.
Lemma move_down bs k j : 0 <= j <= 8 * Z.of_nat k -> Z.shiftr (Z.land (le_value bs) (255 * 2 ^ (8 * Z.of_nat k))) j = uchar (nth k bs nul) * 2 ^ (8 * Z.of_nat k - j).
Proof.
  intros Hj. rewrite land_byte by lia. rewrite Z.pow_mul_r by lia. change (2 ^ 8) with 256. rewrite byte_of, Z.shiftr_div_pow2 by lia.
  change 256 with (2 ^ 8) at 1. rewrite <- Z.pow_mul_r by lia. replace (8 * Z.of_nat k) with ((8 * Z.of_nat k - j) + j) at 1 by lia.
  rewrite Z.pow_add_r, Z.mul_assoc, Z.div_mul by lia. done.
Qed.

Lemma lor_next a b k k' : k' = k + 8 -> 0 <= k -> 0 <= b < 256 -> Z.lor (a * 2 ^ k') (b * 2 ^ k) = (a * 256 + b) * 2 ^ k.
Proof.
  intros -> Hk Hb. rewrite (Z.add_comm k), Z.pow_add_r, Z.mul_assoc by lia. change (2 ^ 8) with 256.
  replace (a * 256 * 2 ^ k) with ((a * 256) * 2 ^ k) by lia.
  rewrite <- !Z.shiftl_mul_pow2, <- Z.shiftl_lor by lia. f_equal. change 256 with (2 ^ 8). apply lor_low; [lia|done].
Qed.
Ltac swab_bytes :=
  repeat match goal with |- context [uchar ?c] => lazymatch goal with H : 0 <= uchar c < 256 |- _ => fail | _ => pose proof (uchar_range c) end end;
  repeat (rewrite lor_next by (first [reflexivity | lia])).

(** A swap reverses the bytes. *)
Lemma swab_bytes_16 c0 c1 : bswap_slow16 (le_value [c0; c1]) = le_value [c1; c0].
Proof.
  unfold bswap_slow16. change 0x00FF with (255 * 2 ^ (8 * Z.of_nat 0)). change 0xFF00 with (255 * 2 ^ (8 * Z.of_nat 1)).
  rewrite move_up, move_down by lia. cbn [nth le_value]. swab_bytes.
  change (2 ^ (8 * Z.of_nat 1 - 8)) with 1. rewrite wrap_id; [lia|done|]. split; [change (int_min uint16) with 0|change (int_max uint16) with 65535]; lia.
Qed.
Lemma swab_bytes_32 c0 c1 c2 c3 : bswap_slow32 (le_value [c0; c1; c2; c3]) = le_value [c3; c2; c1; c0].
Proof.
  unfold bswap_slow32. change 0x000000FF with (255 * 2 ^ (8 * Z.of_nat 0)). change 0x0000FF00 with (255 * 2 ^ (8 * Z.of_nat 1)).
  change 0x00FF0000 with (255 * 2 ^ (8 * Z.of_nat 2)). change 0xFF000000 with (255 * 2 ^ (8 * Z.of_nat 3)).
  rewrite !move_up, !move_down by lia. cbn [nth le_value]. swab_bytes.
  change (2 ^ (8 * Z.of_nat 3 - 24)) with 1. rewrite wrap_id; [lia|done|]. split; [change (int_min uint32) with 0|change (int_max uint32) with 4294967295]; lia.
Qed.
Lemma wrap_byte b k : 0 <= b < 256 -> 0 <= k <= 56 -> wrap uint64 (b * 2 ^ k) = b * 2 ^ k.
Proof.
  intros Hb Hk. apply wrap_id; [done|]. assert (0 < 2 ^ k <= 2 ^ 56) as Hp by (split; [apply Z.pow_pos_nonneg; lia|apply Z.pow_le_mono_r; lia]).
  change (2 ^ 56) with 72057594037927936 in Hp. split; [change (int_min uint64) with 0|change (int_max uint64) with 18446744073709551615]; nia.
Qed.
Lemma swab_bytes_64 c0 c1 c2 c3 c4 c5 c6 c7 :
  bswap_slow64 (le_value [c0; c1; c2; c3; c4; c5; c6; c7]) = le_value [c7; c6; c5; c4; c3; c2; c1; c0].
Proof.
  unfold bswap_slow64. change 0x00000000000000FF with (255 * 2 ^ (8 * Z.of_nat 0)). change 0x000000000000FF00 with (255 * 2 ^ (8 * Z.of_nat 1)).
  change 0x0000000000FF0000 with (255 * 2 ^ (8 * Z.of_nat 2)). change 0x00000000FF000000 with (255 * 2 ^ (8 * Z.of_nat 3)).
  change 0x000000FF00000000 with (255 * 2 ^ (8 * Z.of_nat 4)). change 0x0000FF0000000000 with (255 * 2 ^ (8 * Z.of_nat 5)).
  change 0x00FF000000000000 with (255 * 2 ^ (8 * Z.of_nat 6)). change 0xFF00000000000000 with (255 * 2 ^ (8 * Z.of_nat 7)).
  rewrite !move_up, !move_down by lia. cbn [nth]. rewrite !wrap_byte by (first [apply uchar_range | lia]). cbn [le_value]. swab_bytes.
  change (2 ^ (8 * Z.of_nat 7 - 56)) with 1. lia.
Qed.

Lemma SWAB_rev t bs : swappable t -> zlen bs = width t / 8 -> SWAB t (le_value bs) = le_value (rev bs).
Proof.
  intros Ht Hl. unfold SWAB, zlen in *. destruct Ht as [E|[E|[E|E]]]; rewrite E in *; cbn [Z.eqb Pos.eqb].
  - change (8 / 8) with 1 in Hl. destruct bs as [|c0 [|c1 bs]]; cbn [length] in Hl; try lia. done.
  - change (16 / 8) with 2 in Hl. destruct bs as [|c0 [|c1 [|c2 bs]]]; cbn [length] in Hl; try lia. apply swab_bytes_16.
  - change (32 / 8) with 4 in Hl. destruct bs as [|c0 [|c1 [|c2 [|c3 [|c4 bs]]]]]; cbn [length] in Hl; try lia. apply swab_bytes_32.
  - change (64 / 8) with 8 in Hl. destruct bs as [|c0 [|c1 [|c2 [|c3 [|c4 [|c5 [|c6 [|c7 [|c8 bs]]]]]]]]]; cbn [length] in Hl; try lia. apply swab_bytes_64.
Qed.

(** The bytes of a type. *)
Definition nbytes (t : int_type) : nat := Z.to_nat (width t / 8).
Lemma swappable_width t : swappable t -> width t = 8 * Z.of_nat (nbytes t) /\ (0 < nbytes t)%nat /\ width t / 8 = Z.of_nat (nbytes t) /\ 0 < width t.
Proof. unfold nbytes. intros [E|[E|[E|E]]]; rewrite E; split_and!; first [reflexivity | vm_compute; lia]. Qed.
Lemma wrap_unsigned t z : wrap (unsigned t) z = z mod 2 ^ width t.
Proof. reflexivity. Qed.
Lemma wrap_unsigned_wrap t z : 0 < width t -> wrap (unsigned t) (wrap t z) = z mod 2 ^ width t.
Proof.
  intros Hw. rewrite wrap_unsigned. assert (0 < 2 ^ width t) by (apply Z.pow_pos_nonneg; lia). unfold wrap. destruct (_ && _); [|by rewrite Z.mod_mod by lia].
  replace (z mod 2 ^ width t - 2 ^ width t) with (z mod 2 ^ width t + (-1) * 2 ^ width t) by lia. rewrite Z_mod_plus_full. by rewrite Z.mod_mod by lia.
Qed.
Lemma value_small t bs : swappable t -> zlen bs = width t / 8 -> le_value bs mod 2 ^ width t = le_value bs.
Proof.
  intros Ht Hl. destruct (swappable_width t Ht) as (Hw & _ & Hn & _). apply Z.mod_small. pose proof (le_value_range bs) as H.
  replace (2 ^ width t) with (256 ^ zlen bs); [done|]. rewrite Hl, Hn, Hw, Z.pow_mul_r by lia. done.
Qed.
Lemma rev_zlen (bs : bytes) : zlen (rev bs) = zlen bs.
Proof. unfold zlen. by rewrite length_rev. Qed.

(** What a read converts is the number whose little-endian (big-endian) bytes are in
    memory, on both machines. *)
Lemma littleToNative_bytes o t bs : swappable t -> zlen bs = width t / 8 -> littleToNative o t (native_value o t bs) = wrap t (le_value bs).
Proof.
  intros Ht Hl. destruct (swappable_width t Ht) as (_ & _ & _ & Hw). unfold littleToNative, native_value, letoh.
  destruct (width t =? 8) eqn:E8.
  - assert (rev bs = bs) as Er. { apply Z.eqb_eq in E8. rewrite E8 in Hl. change (8 / 8) with 1 in Hl. unfold zlen in Hl. by destruct bs as [|c0 [|c1 bs]]; cbn [length] in Hl; try lia. }
    rewrite Er. by destruct (is_little o).
  - rewrite wrap_unsigned_wrap by done. destruct (is_little o).
    + by rewrite value_small.
    + rewrite value_small, SWAB_rev, rev_involutive by (rewrite ?rev_zlen; done). done.
Qed.
Lemma bigToNative_bytes o t bs : swappable t -> zlen bs = width t / 8 -> bigToNative o t (native_value o t bs) = wrap t (le_value (rev bs)).
Proof.
  intros Ht Hl. destruct (swappable_width t Ht) as (_ & _ & _ & Hw). unfold bigToNative, native_value, betoh.
  destruct (width t =? 8) eqn:E8.
  - assert (rev bs = bs) as Er. { apply Z.eqb_eq in E8. rewrite E8 in Hl. change (8 / 8) with 1 in Hl. unfold zlen in Hl. by destruct bs as [|c0 [|c1 bs]]; cbn [length] in Hl; try lia. }
    rewrite Er. by destruct (is_little o).
  - rewrite wrap_unsigned_wrap by done. destruct (is_little o).
    + by rewrite value_small, SWAB_rev by done.
    + by rewrite value_small by (rewrite ?rev_zlen; done).
Qed.
(** And what a write leaves in memory. *)
Lemma swabbed_bytes t z : swappable t -> le_bytes (nbytes t) (wrap t (SWAB t (wrap (unsigned t) z))) = rev (le_bytes (nbytes t) z).
Proof.
  intros Ht. destruct (swappable_width t Ht) as (Hw & Hn & Hd & Hw0).
  rewrite le_bytes_wrap by done. rewrite wrap_unsigned. replace (2 ^ width t) with (256 ^ Z.of_nat (nbytes t)) by (rewrite Hw, Z.pow_mul_r by lia; done).
  rewrite <- le_value_bytes, SWAB_rev by (done || by rewrite zlen_le_bytes).
  replace (nbytes t) with (length (rev (le_bytes (nbytes t) z))) at 1 by (by rewrite length_rev, le_bytes_length). apply le_bytes_value.
Qed.
Lemma nativeToLittle_bytes o t z : swappable t -> native_bytes o t (nativeToLittle o t z) = le_bytes (nbytes t) z.
Proof.
  intros Ht. destruct (swappable_width t Ht) as (Hw & Hn & _). unfold native_bytes, nativeToLittle, htole. fold (nbytes t).
  destruct (width t =? 8) eqn:E8.
  - apply Z.eqb_eq in E8. destruct (is_little o); [done|]. assert (nbytes t = 1%nat) as -> by (unfold nbytes; by rewrite E8). done.
  - destruct (is_little o).
    + rewrite le_bytes_wrap by done. by apply (le_bytes_wrap (unsigned t)).
    + by rewrite swabbed_bytes, rev_involutive.
Qed.
Lemma nativeToBig_bytes o t z : swappable t -> native_bytes o t (nativeToBig o t z) = rev (le_bytes (nbytes t) z).
Proof.
  intros Ht. destruct (swappable_width t Ht) as (Hw & Hn & _). unfold native_bytes, nativeToBig, htobe. fold (nbytes t).
  destruct (width t =? 8) eqn:E8.
  - apply Z.eqb_eq in E8. destruct (is_little o); [|done]. assert (nbytes t = 1%nat) as -> by (unfold nbytes; by rewrite E8). done.
  - destruct (is_little o).
    + by rewrite swabbed_bytes.
    + f_equal. rewrite le_bytes_wrap by done. by apply (le_bytes_wrap (unsigned t)).
Qed.

(** *** Views *)

Lemma view_bytes o t mem off z : swappable t ->
  view_readLE o t mem off = readLE t mem off /\
  view_writeLE o t z mem off =
    (if (0 <=? off) && (off + width t / 8 <=? zlen mem)
     then Ret (take (Z.to_nat off) mem ++ le_bytes (nbytes t) z ++ drop (Z.to_nat (off + width t / 8)) mem) else Throw EUndefined) /\
  view_writeBE o t z mem off =
    (if (0 <=? off) && (off + width t / 8 <=? zlen mem)
     then Ret (take (Z.to_nat off) mem ++ rev (le_bytes (nbytes t) z) ++ drop (Z.to_nat (off + width t / 8)) mem) else Throw EUndefined).
Proof.
  intros Ht. split_and!.
  - unfold view_readLE, view_readNative, readLE. destruct (_ && _) eqn:E; [|done]. boolify. rewrite ret_bind, littleToNative_bytes; [done|done|].
    destruct (swappable_width t Ht) as (_ & _ & Hn & _). unfold zlen in *. rewrite length_take, length_drop. lia.
  - unfold view_writeLE, view_writeNative. by rewrite nativeToLittle_bytes.
  - unfold view_writeBE, view_writeNative. by rewrite nativeToBig_bytes.
Qed.
(** C29: on either machine the code's reads and writes are those of little-endian bytes
    the rest of the library is modelled with; the forms for the other order use the
    reversed bytes. *)
Theorem view_little_endian o t mem off z : swappable t ->
  view_readLE o t mem off = readLE t mem off /\
  view_writeLE o t z mem off =
    (if (0 <=? off) && (off + width t / 8 <=? zlen mem)
     then Ret (take (Z.to_nat off) mem ++ le_bytes (nbytes t) z ++ drop (Z.to_nat (off + width t / 8)) mem) else Throw EUndefined) /\
  view_writeBE o t z mem off =
    (if (0 <=? off) && (off + width t / 8 <=? zlen mem)
     then Ret (take (Z.to_nat off) mem ++ rev (le_bytes (nbytes t) z) ++ drop (Z.to_nat (off + width t / 8)) mem) else Throw EUndefined).
Proof. exact (view_bytes o t mem off z). Qed.
Lemma view_little_endian_witness :
  view_readLE MONGO_BIG_ENDIAN int32 (chr <$> [0; 254; 255; 255; 255]) 1 = readLE int32 (chr <$> [0; 254; 255; 255; 255]) 1 /\
  readLE int32 (chr <$> [0; 254; 255; 255; 255]) 1 = Ret (-2).
Proof.
  split; [|reflexivity]. apply (view_little_endian MONGO_BIG_ENDIAN int32 (chr <$> [0; 254; 255; 255; 255]) 1 0). right. right. by left.
Defined.

(** What one machine wrote another reads, whatever their orders. *)
Theorem BE_roundtrip o o' t mem off z : swappable t -> in_range t z -> 0 <= off -> off + width t / 8 <= zlen mem ->
  exists mem', view_writeBE o t z mem off = Ret mem' /\ view_readBE o' t mem' off = Ret z.
Proof.
  intros Ht Hz Ho Hl. destruct (swappable_width t Ht) as (Hw & Hn & Hd & Hw0). destruct (view_bytes o t mem off z Ht) as (_ & _ & ->).
  replace ((0 <=? off) && (off + width t / 8 <=? zlen mem)) with true by lia. eexists. split; [reflexivity|].
  set (bs := rev (le_bytes (nbytes t) z)). assert (length bs = nbytes t) as Hbs by (unfold bs; by rewrite length_rev, le_bytes_length).
  assert (length (take (Z.to_nat off) mem) = Z.to_nat off) as Htk by (rewrite length_take; unfold zlen in Hl; lia).
  unfold view_readBE, view_readNative. rewrite !zlen_app. unfold zlen. rewrite Htk, Hbs, length_drop. unfold zlen in Hl.
  replace ((0 <=? off) && _) with true by lia. rewrite ret_bind.
  rewrite drop_app_length' by done. fold (nbytes t). rewrite take_app_length' by done.
  rewrite bigToNative_bytes by (done || (unfold zlen; lia)). unfold bs. rewrite rev_involutive, le_value_bytes.
  replace (256 ^ Z.of_nat (nbytes t)) with (2 ^ width t) by (rewrite Hw, Z.pow_mul_r by lia; done). rewrite wrap_mod by lia. by rewrite wrap_id.
Qed.

(** *** Cursors *)

Definition total_width (l : list (int_type * Z)) : Z := foldr (fun p n => width p.1 / 8 + n) 0 l.
Lemma writeLE_step o t z pre old post : swappable t -> zlen old = width t / 8 ->
  writeLEAndAdvance o t z (mkCursor (pre ++ old ++ post) (zlen pre)) = Ret (mkCursor ((pre ++ le_bytes (nbytes t) z) ++ post) (zlen (pre ++ le_bytes (nbytes t) z))).
Proof.
  intros Ht Ho. destruct (swappable_width t Ht) as (_ & _ & Hd & _). unfold writeLEAndAdvance, writeNativeAndAdvance. cbn [c_mem c_pos].
  destruct (view_bytes o t (pre ++ old ++ post) (zlen pre) z Ht) as (_ & E & _). unfold view_writeLE in E. rewrite E.
  rewrite !zlen_app. pose proof (zlen_nonneg pre). pose proof (zlen_nonneg post). replace ((0 <=? zlen pre) && _) with true by lia. rewrite ret_bind.
  unfold cursor_skip, cursor_add. cbn [c_mem c_pos]. rewrite zlen_le_bytes, Hd. rewrite take_zlen.
  replace (zlen pre + Z.of_nat (nbytes t)) with (zlen (pre ++ old)) at 1 by (rewrite zlen_app; lia). rewrite (app_assoc pre old), drop_zlen, <- app_assoc. done.
Qed.
Definition image (l : list (int_type * Z)) : bytes := flat_map (fun p => le_bytes (nbytes p.1) p.2) l.
Definition typed (p : int_type * Z) : Prop := swappable p.1 /\ in_range p.1 p.2.
Lemma image_cons t z l : image ((t, z) :: l) = le_bytes (nbytes t) z ++ image l.
Proof. reflexivity. Qed.
Lemma total_cons t z l : total_width ((t, z) :: l) = width t / 8 + total_width l.
Proof. reflexivity. Qed.
Lemma image_zlen l : Forall typed l -> zlen (image l) = total_width l.
Proof.
  induction 1 as [|[t z] l [Ht _] Hl IH]; [done|]. rewrite image_cons, total_cons, zlen_app, IH, zlen_le_bytes.
  by destruct (swappable_width t Ht) as (_ & _ & -> & _).
Qed.
Lemma write_all_image o l pre old post : Forall typed l -> zlen old = total_width l ->
  write_all o l (mkCursor (pre ++ old ++ post) (zlen pre)) = Ret (mkCursor (pre ++ image l ++ post) (zlen (pre ++ image l))).
Proof.
  intros Hl. revert pre old. induction Hl as [|[t z] l [Ht _] Hl IH]; intros pre old Ho; cbn [write_all].
  - cbn in Ho. destruct old; [|rewrite zlen_cons in Ho; pose proof (zlen_nonneg old); lia]. cbn. by rewrite app_nil_r.
  - rewrite total_cons in Ho. destruct (swappable_width t Ht) as (_ & _ & Hd & _).
    pose proof (image_zlen l Hl) as Hi. pose proof (zlen_nonneg (image l)).
    destruct (split_at old (nbytes t)) as (a & b & -> & Ha); [unfold zlen in Ho; lia|]. rewrite zlen_app in Ho.
    assert (zlen a = width t / 8) as Ha' by (unfold zlen; lia).
    rewrite <- (app_assoc a b post). rewrite (writeLE_step o t z pre a (b ++ post) Ht Ha'), ret_bind.
    rewrite (IH (pre ++ le_bytes (nbytes t) z) b) by lia. rewrite image_cons. by rewrite <- !app_assoc.
Qed.
Lemma read_all_image o l pre post : Forall typed l ->
  read_all o (fst <$> l) (mkCursor (pre ++ image l ++ post) (zlen pre)) = Ret (snd <$> l, mkCursor (pre ++ image l ++ post) (zlen pre + total_width l)).
Proof.
  intros Hl. revert pre. induction Hl as [|[t z] l [Ht Hz] Hl IH]; intros pre.
  - cbn. by rewrite Z.add_0_r.
  - rewrite !fmap_cons. cbn [read_all fst snd] in *. destruct (swappable_width t Ht) as (Hwd & Hn & Hd & _).
    rewrite image_cons. unfold readLEAndAdvance, readNativeAndAdvance. cbn [c_mem c_pos]. rewrite <- (app_assoc (le_bytes _ _)).
    pose proof (view_bytes o t (pre ++ le_bytes (nbytes t) z ++ image l ++ post) (zlen pre) 0 Ht) as (E & _).
    rewrite (readLE_at t (nbytes t) pre z (image l ++ post) Hwd Hn Hz) in E. unfold view_readLE in E.
    apply bind_Ret in E as (v & Ev & E). injection E as E. rewrite Ev. cbn [mbind result_bind]. rewrite E. unfold cursor_skip, cursor_add. cbn [c_mem c_pos].
    specialize (IH (pre ++ le_bytes (nbytes t) z)). rewrite <- app_assoc in IH. rewrite zlen_app, zlen_le_bytes in IH. rewrite Hd.
    rewrite IH. cbn [mbind result_bind]. rewrite total_cons, Hd. do 3 f_equal. lia.
Qed.
(** Numbers of any types written through a cursor, one after another, are read back by a
    cursor, on the same machine or on another; the bytes are their little-endian bytes. *)
Theorem cursor_roundtrip o o' l mem : Forall typed l -> total_width l <= zlen mem ->
  exists mem', write_all o l (mkCursor mem 0) = Ret (mkCursor mem' (total_width l)) /\
    read_all o' (fst <$> l) (mkCursor mem' 0) = Ret (snd <$> l, mkCursor mem' (total_width l)) /\
    take (Z.to_nat (total_width l)) mem' = image l.
Proof.
  intros Hl Hm. pose proof (image_zlen l Hl) as Hi. pose proof (zlen_nonneg (image l)).
  destruct (split_at mem (Z.to_nat (total_width l))) as (old & post & -> & Ho); [unfold zlen in Hm; lia|].
  pose proof (write_all_image o l [] old post Hl) as Hw. cbn [app] in Hw. change (zlen (@nil char)) with 0 in Hw.
  rewrite Hw, Hi by (unfold zlen; lia). exists (image l ++ post). split; [done|]. split; [exact (read_all_image o' l [] post Hl)|].
  rewrite <- Hi. apply take_zlen.
Qed.
