(* ===== verification/HostSet.v ===== *)
(** * Ordered containers of network names

    The replica set monitor keeps hosts in [std::set<HostAndPort>] and nodes in
    a vector sorted by host.  Both are lists sorted by [HostAndPort_lt]; two
    names are the same element when neither is below the other, that is when
    host and effective port agree ([hp_key]), so [a] and [a:27017] are one. *)
From Stdlib Require Import Sorting.Sorted.
From S2P Require Import Prelude StringData HostAndPort.
Local Open Scope Z_scope.

Abbreviation hkey := (bytes * Z)%type.
Abbreviation hset := (list HostAndPort).

(** [std::lower_bound] on a sorted range: the elements below [h], the others. *)
Fixpoint lower_bound {A} (host : A -> HostAndPort) (l : list A) (h : HostAndPort) : list A * list A :=
  match l with
  | [] => ([], [])
  | x :: l' =>
      if HostAndPort_lt (host x) h then
        let '(a, b) := lower_bound host l' h in (x :: a, b)
      else ([], l)
  end.

(** [std::set]: [count], [insert] of an element (an equivalent one stays),
    [insert] of a range, [erase], [operator==], [std::set_intersection] and
    [std::includes]. *)
Definition hset_count (h : HostAndPort) (s : hset) : bool :=
  match (lower_bound id s h).2 with x :: _ => negb (HostAndPort_lt h x) | [] => false end.
Definition hset_insert (h : HostAndPort) (s : hset) : hset :=
  let '(a, b) := lower_bound id s h in
  match b with
  | x :: _ => if negb (HostAndPort_lt h x) then s else a ++ h :: b
  | [] => a ++ [h]
  end.
Definition hset_insert_all (l : list HostAndPort) (s : hset) : hset :=
  foldl (fun s h => hset_insert h s) s l.
Definition hset_erase (h : HostAndPort) (s : hset) : hset :=
  let '(a, b) := lower_bound id s h in
  match b with
  | x :: b' => if negb (HostAndPort_lt h x) then a ++ b' else s
  | [] => s
  end.
(** [std::equal] of two ranges; the second is at least as long. *)
Fixpoint equal_hosts {A} (host : A -> HostAndPort) (l : list A) (s : hset) : bool :=
  match l, s with
  | [], _ => true
  | x :: l', h :: s' => HostAndPort_eq (host x) h && equal_hosts host l' s'
  | _ :: _, [] => false
  end.
Definition hset_eq (a b : hset) : bool :=
  (zlen a =? zlen b) && equal_hosts id a b.
Definition set_intersection (a b : hset) : hset := List.filter (fun h => hset_count h b) a.
Definition includes {A} (host : A -> HostAndPort) (l : list A) (s : hset) : bool :=
  forallb (fun h => match (lower_bound host l h).2 with
                    | x :: _ => negb (HostAndPort_lt h (host x)) | [] => false end) s.

(** ** Keys *)

Section keys.
Context {A} (host : A -> HostAndPort).

Definition key (x : A) : hkey := hp_key (host x).
Definition keys (l : list A) : gset hkey := list_to_set (key <$> l).
(** Strictly sorted by host: the invariant of the containers. *)
Definition hsorted (l : list A) : Prop := StronglySorted (fun x y => key_lt (key x) (key y)) l.

Lemma elem_of_keys k l : k ∈ keys l <-> exists x, k = key x /\ x ∈ l.
Proof. unfold keys. rewrite elem_of_list_to_set, list_elem_of_fmap. done. Qed.
Lemma keys_app l k : keys (l ++ k) = keys l ∪ keys k.
Proof. unfold keys. by rewrite fmap_app, list_to_set_app_L. Qed.
Lemma keys_cons x l : keys (x :: l) = {[key x]} ∪ keys l.
Proof. done. Qed.
Lemma keys_nil : keys [] = ∅.
Proof. done. Qed.

Lemma hsorted_cons x l : hsorted (x :: l) <-> hsorted l /\ Forall (fun y => key_lt (key x) (key y)) l.
Proof. unfold hsorted. split; [by inversion 1|]. intros [? ?]. by constructor. Qed.

Lemma hsorted_app l k :
  hsorted (l ++ k) <-> hsorted l /\ hsorted k /\ (forall x y, x ∈ l -> y ∈ k -> key_lt (key x) (key y)).
Proof.
  induction l as [|a l IH]; cbn [app].
  - split; [intros ?; split_and!; [constructor|done|by intros ? ? ?%not_elem_of_nil]|tauto].
  - rewrite !hsorted_cons, IH, Forall_app, !Forall_forall. setoid_rewrite elem_of_cons.
    split.
    + intros ((?&?&?)&?&?). split_and!; [done..|]. intros x y [->|]; eauto.
    + intros ((?&Ha)&?&Hlk). split; [split_and!; eauto|]. split; [done|]. intros y Hy. apply Hlk; auto.
Qed.

Lemma lower_bound_spec l h : hsorted l ->
  let '(a, b) := lower_bound host l h in
  l = a ++ b /\ Forall (fun x => key_lt (key x) (hp_key h)) a /\
  Forall (fun x => ~ key_lt (key x) (hp_key h)) b.
Proof.
  intros Hl. induction l as [|x l IH]; cbn [lower_bound]; [by repeat constructor|].
  apply hsorted_cons in Hl as [Hl Hx].
  destruct (HostAndPort_lt (host x) h) eqn:E.
  - apply HostAndPort_lt_key in E. specialize (IH Hl). destruct (lower_bound host l h) as [a b].
    destruct IH as (-> & Ha & Hb). split_and!; [done|by constructor|done].
  - assert (~ key_lt (key x) (hp_key h)) as Hn.
    { intros Hk. apply HostAndPort_lt_key in Hk. congruence. }
    split_and!; [done|constructor|]. constructor; [done|].
    eapply Forall_impl; [done|]. cbn. intros y Hy Hk. apply Hn. by eapply key_lt_trans.
Qed.

(** Where the name is, when it is there. *)
Lemma lower_bound_found l h a x b : hsorted l -> lower_bound host l h = (a, x :: b) ->
  l = a ++ x :: b /\
  (key x = hp_key h \/ (key_lt (hp_key h) (key x) /\ hp_key h ∉ keys l)) /\
  Forall (fun x => key_lt (key x) (hp_key h)) a /\ Forall (fun y => key_lt (hp_key h) (key y)) b.
Proof.
  intros Hl E. pose proof (lower_bound_spec l h Hl) as Hs. rewrite E in Hs.
  destruct Hs as (-> & Ha & Hb). apply List.Forall_cons_iff in Hb as [Hx Hb].
  apply hsorted_app in Hl as (_ & Hl & Hab). apply hsorted_cons in Hl as [_ Hxb].
  assert (Forall (fun y => key_lt (hp_key h) (key y)) b) as Hb'.
  { eapply Forall_impl; [exact Hxb|]. cbn. intros y Hy.
    destruct (key_lt_trichotomy (key x) (hp_key h)) as [?|[<-|?]]; [done|done|by eapply key_lt_trans]. }
  split; [done|]. split; [|done].
  destruct (key_lt_trichotomy (key x) (hp_key h)) as [?|[?|Hlt]]; [done|by left|right].
  split; [done|]. rewrite keys_app, keys_cons. intros [Hin|[Hin|Hin]%elem_of_union]%elem_of_union.
  - apply elem_of_keys in Hin as (y & Ey & Hin). rewrite Forall_forall in Ha. specialize (Ha y Hin).
    rewrite <-Ey in Ha. by apply key_lt_irrefl in Ha.
  - apply elem_of_singleton in Hin. rewrite <-Hin in Hlt. by apply key_lt_irrefl in Hlt.
  - apply elem_of_keys in Hin as (y & Ey & Hin). rewrite Forall_forall in Hb'. specialize (Hb' y Hin).
    rewrite <-Ey in Hb'. by apply key_lt_irrefl in Hb'.
Qed.

Lemma lower_bound_end l h a : hsorted l -> lower_bound host l h = (a, []) ->
  l = a /\ hp_key h ∉ keys l /\ Forall (fun x => key_lt (key x) (hp_key h)) a.
Proof.
  intros Hl E. pose proof (lower_bound_spec l h Hl) as Hs. rewrite E, app_nil_r in Hs.
  destruct Hs as (-> & Ha & _). split_and!; [done| |done].
  intros (y & Ey & Hin)%elem_of_keys. rewrite Forall_forall in Ha. specialize (Ha y Hin).
  rewrite <-Ey in Ha. by apply key_lt_irrefl in Ha.
Qed.

Lemma hsorted_insert a x b :
  hsorted (a ++ b) -> Forall (fun y => key_lt (key y) (key x)) a ->
  Forall (fun y => key_lt (key x) (key y)) b -> hsorted (a ++ x :: b).
Proof.
  intros (Ha & Hb & Hab)%hsorted_app Hax Hxb. apply hsorted_app. rewrite hsorted_cons.
  split_and!; [done..|]. intros y z Hy [->|Hz]%elem_of_cons; [|by apply Hab].
  rewrite Forall_forall in Hax. by apply Hax.
Qed.

Lemma keys_fmap_iff (l : list A) h :
  hp_key h ∈ keys l <-> exists x, x ∈ l /\ HostAndPort_eq (host x) h = true.
Proof.
  rewrite elem_of_keys. split; intros (x & H1 & H2); exists x.
  - split; [done|]. by apply HostAndPort_eq_key.
  - apply HostAndPort_eq_key in H2. by split.
Qed.
End keys.

#[global] Arguments keys {A} host l : simpl never.
#[global] Arguments key {A} host x : simpl never.

Abbreviation hkeys := (keys (@id HostAndPort)).
Abbreviation hs_sorted := (hsorted (@id HostAndPort)).

Lemma lt_false a b : HostAndPort_lt a b = false <-> ~ key_lt (hp_key a) (hp_key b).
Proof. rewrite <-HostAndPort_lt_key. by destruct (HostAndPort_lt a b). Qed.

Lemma key_lt_not a b : key_lt a b -> ~ key_lt b a.
Proof. intros H1 H2. eapply key_lt_irrefl. by eapply key_lt_trans. Qed.

(** [count] is membership, whatever the container sorted by host. *)
Lemma includes_one {A} (host : A -> HostAndPort) l h : hsorted host l ->
  match (lower_bound host l h).2 with x :: _ => negb (HostAndPort_lt h (host x)) | [] => false end = true
  <-> hp_key h ∈ keys host l.
Proof.
  intros Hl. destruct (lower_bound host l h) as [a b] eqn:E. cbn. destruct b as [|x b].
  - apply lower_bound_end in E as (_ & Hn & _); done.
  - apply lower_bound_found in E as (El & Hx & _ & _); [|done].
    destruct (HostAndPort_lt h (host x)) eqn:Eb; cbn.
    + split; [done|]. apply HostAndPort_lt_key in Eb. destruct Hx as [Ex|[_ Hn]]; [|done].
      unfold key in Ex. rewrite Ex in Eb. by apply key_lt_irrefl in Eb.
    + split; [|done]. intros _. destruct Hx as [<-|[Hlt _]].
      * subst l. rewrite keys_app, keys_cons. set_solver.
      * apply lt_false in Eb. done.
Qed.

Lemma hset_count_spec h s : hs_sorted s -> hset_count h s = true <-> hp_key h ∈ hkeys s.
Proof. apply (includes_one id). Qed.
Lemma hset_count_false h s : hs_sorted s -> hset_count h s = false <-> hp_key h ∉ hkeys s.
Proof. intros Hs. rewrite <-(hset_count_spec h s Hs). by destruct (hset_count h s). Qed.

Lemma includes_spec {A} (host : A -> HostAndPort) l s : hsorted host l ->
  includes host l s = true <-> hkeys s ⊆ keys host l.
Proof.
  intros Hl. unfold includes. rewrite forallb_forall. split.
  - intros H k (h & -> & Hh)%elem_of_keys. apply (includes_one host l h Hl), H. by apply list_elem_of_In.
  - intros H h Hh. apply (includes_one host l h Hl), H, elem_of_keys. exists h.
    by rewrite list_elem_of_In.
Qed.

Lemma hset_insert_spec h s : hs_sorted s ->
  hs_sorted (hset_insert h s) /\ hkeys (hset_insert h s) = {[hp_key h]} ∪ hkeys s.
Proof.
  intros Hs. unfold hset_insert. destruct (lower_bound id s h) as [a b] eqn:E. destruct b as [|x b].
  - apply lower_bound_end in E as (-> & _ & Ha); [|done]. split.
    + apply hsorted_insert; [by rewrite app_nil_r|done|constructor].
    + rewrite keys_app, keys_cons, keys_nil. set_solver.
  - apply lower_bound_found in E as (El & Hx & Ha & Hb); [|done].
    destruct (HostAndPort_lt h x) eqn:Eb; cbn [negb].
    + apply HostAndPort_lt_key in Eb. subst s. split.
      * apply hsorted_insert; [done|done|]. constructor; [done|done].
      * rewrite !keys_app, !keys_cons. set_solver.
    + split; [done|]. apply lt_false in Eb. destruct Hx as [Ex|[Hlt _]]; [|done].
      change (hp_key x) with (key id x) in Ex. subst s. rewrite keys_app, keys_cons, <-Ex. set_solver.
Qed.

Lemma hset_insert_all_spec l s : hs_sorted s ->
  hs_sorted (hset_insert_all l s) /\ hkeys (hset_insert_all l s) = list_to_set (hp_key <$> l) ∪ hkeys s.
Proof.
  revert s. induction l as [|h l IH]; intros s Hs; cbn [hset_insert_all foldl fmap list_fmap list_to_set].
  { split; [done|set_solver]. }
  destruct (hset_insert_spec h s Hs) as [Hs' Ek]. destruct (IH _ Hs') as [Hs2 Ek2].
  split; [done|]. unfold hset_insert_all in Ek2. rewrite Ek2, Ek. set_solver.
Qed.

Lemma hset_erase_spec h s : hs_sorted s ->
  hs_sorted (hset_erase h s) /\ hkeys (hset_erase h s) = hkeys s ∖ {[hp_key h]}.
Proof.
  intros Hs. unfold hset_erase. destruct (lower_bound id s h) as [a b] eqn:E. destruct b as [|x b].
  - apply lower_bound_end in E as (-> & Hn & Ha); [|done]. split; [done|set_solver].
  - apply lower_bound_found in E as (El & Hx & Ha & Hb); [|done].
    destruct (HostAndPort_lt h x) eqn:Eb; cbn [negb].
    + apply HostAndPort_lt_key in Eb. split; [done|].
      destruct Hx as [Ex|[_ Hn]]; [|set_solver].
      change (hp_key x) with (key id x) in Eb. rewrite Ex in Eb. by apply key_lt_irrefl in Eb.
    + apply lt_false in Eb. destruct Hx as [Ex|[Hlt _]]; [|done]. subst s.
      apply hsorted_app in Hs as (Hsa & Hsx & Hab). apply hsorted_cons in Hsx as [Hsb Hxb].
      assert (hp_key h ∉ hkeys a) as Hna.
      { intros (y & Ey & Hy)%elem_of_keys. rewrite Forall_forall in Ha. specialize (Ha y Hy).
        rewrite <-Ey in Ha. by apply key_lt_irrefl in Ha. }
      assert (hp_key h ∉ hkeys b) as Hnb.
      { intros (y & Ey & Hy)%elem_of_keys. rewrite Forall_forall in Hb. specialize (Hb y Hy).
        rewrite <-Ey in Hb. by apply key_lt_irrefl in Hb. }
      split.
      * apply hsorted_app. split_and!; [done..|]. intros y z Hy Hz. apply Hab; [done|].
        by apply list_elem_of_further.
      * rewrite !keys_app, keys_cons, Ex. set_solver.
Qed.

Lemma union_inter_in (k : hkey) (a b : gset hkey) : k ∈ b -> {[k]} ∪ (a ∩ b) = ({[k]} ∪ a) ∩ b.
Proof. set_solver. Qed.
Lemma union_inter_out (k : hkey) (a b : gset hkey) : k ∉ b -> a ∩ b = ({[k]} ∪ a) ∩ b.
Proof. set_solver. Qed.

Lemma set_intersection_spec a b : hs_sorted a -> hs_sorted b ->
  hs_sorted (set_intersection a b) /\ hkeys (set_intersection a b) = hkeys a ∩ hkeys b.
Proof.
  intros Ha Hb. unfold set_intersection. induction a as [|h a IH]; cbn [List.filter].
  { split; [done|set_solver]. }
  apply hsorted_cons in Ha as [Ha Hh]. destruct (IH Ha) as [Hs Ek].
  destruct (hset_count h b) eqn:E.
  - apply hset_count_spec in E; [|done]. split.
    + apply hsorted_cons. split; [done|]. apply List.Forall_forall. intros y Hy%List.filter_In.
      rewrite List.Forall_forall in Hh. apply Hh, Hy.
    + rewrite !keys_cons, Ek. by apply union_inter_in.
  - apply hset_count_false in E; [|done]. split; [done|].
    rewrite !keys_cons, Ek. by apply union_inter_out.
Qed.

(** Equal sorted ranges have the same keys, position by position. *)
Lemma equal_hosts_spec {A} (host : A -> HostAndPort) l s :
  length l = length s -> equal_hosts host l s = true <-> key host <$> l = hp_key <$> s.
Proof.
  revert s. induction l as [|x l IH]; intros [|h s] Hl; try done. cbn in *.
  rewrite andb_true_iff, HostAndPort_eq_key, IH by lia. split.
  - intros [E1 E2]. by f_equal.
  - intros E. split; [|exact (f_equal tail E)]. apply (inj Some). exact (f_equal head E).
Qed.

Lemma union_cancel (k : hkey) (a b : gset hkey) : k ∉ a -> k ∉ b -> {[k]} ∪ a = {[k]} ∪ b -> a = b.
Proof.
  intros Ha Hb E. apply set_eq. intros x.
  assert (x ∈ {[k]} ∪ a <-> x ∈ {[k]} ∪ b) as H by (by rewrite E).
  rewrite !elem_of_union, !elem_of_singleton in H. destruct (decide (x = k)) as [->|]; tauto.
Qed.

Lemma hsorted_ext {A C} (f : A -> HostAndPort) (g : C -> HostAndPort) l k :
  hsorted f l -> hsorted g k -> keys f l = keys g k -> key f <$> l = key g <$> k.
Proof.
  revert k. induction l as [|x l IH]; intros [|y k] Hl Hk E; cbn.
  - done.
  - exfalso. rewrite keys_cons, keys_nil in E. assert (key g y ∈ (∅ : gset hkey)); [|set_solver].
    rewrite E. set_solver.
  - exfalso. rewrite keys_cons, keys_nil in E. assert (key f x ∈ (∅ : gset hkey)); [|set_solver].
    rewrite <-E. set_solver.
  - apply hsorted_cons in Hl as [Hl Hx], Hk as [Hk Hy]. rewrite !keys_cons in E.
    assert (key f x ∉ keys f l) as Hnx.
    { intros (z & Ez & Hz)%elem_of_keys. rewrite Forall_forall in Hx. specialize (Hx z Hz).
      rewrite <-Ez in Hx. by apply key_lt_irrefl in Hx. }
    assert (key g y ∉ keys g k) as Hny.
    { intros (z & Ez & Hz)%elem_of_keys. rewrite Forall_forall in Hy. specialize (Hy z Hz).
      rewrite <-Ez in Hy. by apply key_lt_irrefl in Hy. }
    assert (key f x = key g y) as Exy.
    { assert (key f x = key g y \/ key f x ∈ keys g k) as [?|H1] by set_solver; [done|].
      assert (key g y = key f x \/ key g y ∈ keys f l) as [?|H2] by set_solver; [done|].
      apply elem_of_keys in H1 as (u & E1 & Hu), H2 as (v & E2 & Hv).
      rewrite Forall_forall in Hx. rewrite Forall_forall in Hy. specialize (Hx v Hv). specialize (Hy u Hu).
      rewrite <-E2 in Hx. rewrite <-E1 in Hy. by apply key_lt_not in Hy. }
    f_equal; [done|]. apply IH; [done|done|].
    rewrite Exy in *. by eapply union_cancel.
Qed.

Lemma nodes_match_spec {A} (host : A -> HostAndPort) l s : hsorted host l -> hs_sorted s ->
  (zlen l =? zlen s) && equal_hosts host l s = true <-> keys host l = hkeys s.
Proof.
  intros Hl Hs. rewrite andb_true_iff, Z.eqb_eq. unfold zlen. rewrite Nat2Z.inj_iff. split.
  - intros [En E]. apply equal_hosts_spec in E; [|done]. unfold keys. rewrite E. done.
  - intros E. pose proof (hsorted_ext host id l s Hl Hs E) as Ek.
    assert (length l = length s) as El by (by rewrite <-(length_fmap (key host) l), Ek, length_fmap).
    split; [done|]. by apply equal_hosts_spec.
Qed.

Lemma hset_eq_spec a b : hs_sorted a -> hs_sorted b -> hset_eq a b = true <-> hkeys a = hkeys b.
Proof. apply nodes_match_spec. Qed.

#[export] Hint Rewrite @keys_app @keys_cons @keys_nil : mongo.
