(* ===== verification/RSState.v ===== *)
(** * The view of a replica set: client/replica_set_monitor.cpp, first half

    Replies to [isMaster], the nodes of a set, and [SetState] with its lookups
    and host selection.  Sets of hosts are those of [HostSet.v]; the nodes are a
    vector sorted by host; a reply's document is decoded ([Bson.v]).  Scans are
    objects on a heap ([scans]), so that several threads can hold the same one;
    the condition variable is the number of notifications sent on it. *)
From Stdlib Require Import Sorting.Sorted.
From S2P Require Import Prelude StringData HostAndPort Random BsonTypes BufBuilder Bson BsonCompare.
From S2P Require Import BsonObj HostSet.
Local Open Scope Z_scope.

(** ** BSONElement accessors used here *)

Definition trueValue (e : BSONElement) : bool :=
  match e.2 with
  | VNumberLong n | VNumberInt n => negb (n =? 0)
  | VNumberDouble bits => negb (double_eq (double_of_bits bits) (Finite 0))
  | VBool b => negb (ceq b nul)
  | VEOO | VjstNULL | VUndefined => false
  | _ => true
  end.
Definition str (e : BSONElement) : bytes := match e.2 with VString s => s | _ => [] end.
Definition String_checked (e : BSONElement) : M bytes :=
  match e.2 with VString s => Ret s | _ => Throw (EMassert 13111) end.

(** The result of [int64_t] arithmetic, undefined on overflow. *)
Definition int64_result (z : Z) : M Z :=
  if bool_decide (in_range int64 z) then Ret z else Throw EUndefined.

(** ** IsMasterReply *)

Record IsMasterReply := mkIsMasterReply {
  r_ok : bool;
  r_setName : bytes;
  r_isMaster : bool;
  r_secondary : bool;
  r_hidden : bool;
  r_primary : HostAndPort;
  r_normalHosts : hset;
  r_tags : BSONObj;
  r_host : HostAndPort;
  r_latencyMicros : Z }.

(** A reply whose [ok] is false: the other fields mean nothing. *)
Definition reply_not_ok (host : HostAndPort) (latencyMicros : Z) : IsMasterReply :=
  mkIsMasterReply false [] false false false HostAndPort_default [] [] host latencyMicros.

Fixpoint insert_hosts (elems : BSONObj) (s : hset) : M hset :=
  match elems with
  | [] => Ret s
  | e :: elems' =>
      text ← String_checked e;
      h ← HostAndPort_ctor text;
      insert_hosts elems' (hset_insert h s)
  end.

(** The body of [parse], inside its [try]. *)
Definition parse_body (host : HostAndPort) (latencyMicros : Z) (raw : BSONObj) : M IsMasterReply :=
  if negb (trueValue (getField raw (B "ok"))) then Ret (reply_not_ok host latencyMicros)
  else
    let setName := str (getField raw (B "setName")) in
    let hidden := trueValue (getField raw (B "hidden")) in
    let secondary := trueValue (getField raw (B "secondary")) in
    let isMaster := negb hidden && trueValue (getField raw (B "ismaster")) in
    let primaryString := str (getField raw (B "primary")) in
    primary ← (if StringData_empty primaryString then Ret HostAndPort_default
               else HostAndPort_ctor primaryString);
    normalHosts ← insert_hosts (getObjectField raw (B "hosts")) [];
    normalHosts ← insert_hosts (getObjectField raw (B "passives")) normalHosts;
    Ret (mkIsMasterReply true setName isMaster secondary hidden primary normalHosts
           (getObjectField raw (B "tags")) host latencyMicros).

(** [catch (const std::exception&)]: everything but a failed invariant, which
    aborts, and undefined behaviour. *)
Definition catchable (e : exn) : bool :=
  match e with EInvariant | EFassert _ | EUndefined => false | _ => true end.
Definition IsMasterReply_parse (host : HostAndPort) (latencyMicros : Z) (raw : BSONObj) : M IsMasterReply :=
  match parse_body host latencyMicros raw with
  | Ret r => Ret r
  | Throw e => if catchable e then Ret (reply_not_ok host latencyMicros) else Throw e
  end.

(** ** Node *)

Record Node := mkNode {
  n_host : HostAndPort;
  n_isUp : bool;
  n_isMaster : bool;
  n_latencyMicros : Z;
  n_tags : BSONObj }.

Definition unknownLatency : Z := int_max int64.

Definition markFailed (n : Node) : Node :=
  mkNode (n_host n) false false (n_latencyMicros n) (n_tags n).
Definition Node_ctor (host : HostAndPort) : Node :=
  markFailed (mkNode host false false unknownLatency []).

Inductive ReadPreference :=
  | ReadPreference_PrimaryOnly | ReadPreference_PrimaryPreferred
  | ReadPreference_SecondaryOnly | ReadPreference_SecondaryPreferred | ReadPreference_Nearest.

Global Instance ReadPreference_eq_dec : EqDecision ReadPreference.
Proof. solve_decision. Defined.

Definition Node_matches_pref (n : Node) (pref : ReadPreference) : bool :=
  if negb (n_isUp n) then false
  else if bool_decide (pref = ReadPreference_PrimaryOnly) then n_isMaster n
  else if bool_decide (pref = ReadPreference_SecondaryOnly) && n_isMaster n then false
  else true.

Fixpoint Node_matches_tag (n : Node) (tag : BSONObj) : M bool :=
  match tag with
  | [] => Ret true
  | tagCriteria :: tag' =>
      eq ← BSONElement_eq (getField (n_tags n) tagCriteria.1) tagCriteria;
      if negb eq then Ret false else Node_matches_tag n tag'
  end.

(** The tags kept when they are binary equal are the same document. *)
Definition Node_update (n : Node) (reply : IsMasterReply) : M Node :=
  invariant (HostAndPort_eq (n_host n) (r_host reply));;
  invariant (r_ok reply);;
  let isUp := negb (r_hidden reply) && (r_isMaster reply || r_secondary reply) in
  latency ← (if r_latencyMicros reply >=? 0 then
               if n_latencyMicros n =? unknownLatency then Ret (r_latencyMicros reply)
               else
                 delta ← int64_result (r_latencyMicros reply - n_latencyMicros n);
                 int64_result (n_latencyMicros n + Z.quot delta 4)
             else Ret (n_latencyMicros n));
  Ret (mkNode (n_host n) isUp (r_isMaster reply) latency (r_tags reply)).

(** ** SetState *)

Record ScanState := mkScanState {
  foundUpMaster : bool;
  foundAnyUpNodes : bool;
  hostsToScan : list HostAndPort;
  possibleNodes : hset;
  waitingFor : hset;
  triedHosts : hset;
  unconfirmedReplies : list IsMasterReply }.

Definition ScanState_ctor : ScanState := mkScanState false false [] [] [] [] [].

Record SetState := mkSetState {
  s_name : bytes;
  consecutiveFailedScans : Z;
  seedNodes : hset;
  lastSeenMaster : HostAndPort;
  nodes : list Node;
  currentScan : option nat; (* which scan of the heap *)
  latencyThresholdMicros : Z;
  s_rand : PseudoRandom;
  roundRobin : Z;
  cv : nat;
  scans : gmap nat ScanState }.

Definition set_nodes (st : SetState) (l : list Node) : SetState :=
  mkSetState (s_name st) (consecutiveFailedScans st) (seedNodes st) (lastSeenMaster st) l
    (currentScan st) (latencyThresholdMicros st) (s_rand st) (roundRobin st) (cv st) (scans st).
Definition set_rand (st : SetState) (r : PseudoRandom) : SetState :=
  mkSetState (s_name st) (consecutiveFailedScans st) (seedNodes st) (lastSeenMaster st) (nodes st)
    (currentScan st) (latencyThresholdMicros st) r (roundRobin st) (cv st) (scans st).
Definition set_roundRobin (st : SetState) (n : Z) : SetState :=
  mkSetState (s_name st) (consecutiveFailedScans st) (seedNodes st) (lastSeenMaster st) (nodes st)
    (currentScan st) (latencyThresholdMicros st) (s_rand st) n (cv st) (scans st).
Definition set_currentScan (st : SetState) (c : option nat) : SetState :=
  mkSetState (s_name st) (consecutiveFailedScans st) (seedNodes st) (lastSeenMaster st) (nodes st)
    c (latencyThresholdMicros st) (s_rand st) (roundRobin st) (cv st) (scans st).
Definition set_failedScans (st : SetState) (n : Z) : SetState :=
  mkSetState (s_name st) n (seedNodes st) (lastSeenMaster st) (nodes st)
    (currentScan st) (latencyThresholdMicros st) (s_rand st) (roundRobin st) (cv st) (scans st).
Definition set_seedNodes (st : SetState) (s : hset) : SetState :=
  mkSetState (s_name st) (consecutiveFailedScans st) s (lastSeenMaster st) (nodes st)
    (currentScan st) (latencyThresholdMicros st) (s_rand st) (roundRobin st) (cv st) (scans st).
Definition set_lastSeenMaster (st : SetState) (h : HostAndPort) : SetState :=
  mkSetState (s_name st) (consecutiveFailedScans st) (seedNodes st) h (nodes st)
    (currentScan st) (latencyThresholdMicros st) (s_rand st) (roundRobin st) (cv st) (scans st).
Definition notify_all (st : SetState) : SetState :=
  mkSetState (s_name st) (consecutiveFailedScans st) (seedNodes st) (lastSeenMaster st) (nodes st)
    (currentScan st) (latencyThresholdMicros st) (s_rand st) (roundRobin st) (S (cv st)) (scans st).
Definition put_scan (st : SetState) (p : nat) (s : ScanState) : SetState :=
  mkSetState (s_name st) (consecutiveFailedScans st) (seedNodes st) (lastSeenMaster st) (nodes st)
    (currentScan st) (latencyThresholdMicros st) (s_rand st) (roundRobin st) (cv st) (<[p := s]> (scans st)).

(** The constructor; [now] is [time(0)], the threshold option is in
    milliseconds. *)
Definition SetState_ctor (name : bytes) (seeds : hset) (defaultLocalThresholdMillis now : Z) : M SetState :=
  threshold ← int_result (defaultLocalThresholdMillis * 1000);
  uassert 13642 (negb (zlen seeds =? 0));;
  Ret (mkSetState name 0 seeds HostAndPort_default (Node_ctor <$> seeds) None threshold
         (PseudoRandom_int64 now) 0 0 ∅).

(** [findNode]: the node with the nodes before and after it. *)
Definition findNode (l : list Node) (host : HostAndPort) : option (list Node * Node * list Node) :=
  match lower_bound n_host l host with
  | (a, n :: b) => if negb (HostAndPort_eq (n_host n) host) then None else Some (a, n, b)
  | (_, []) => None
  end.
Definition findOrCreateNode (l : list Node) (host : HostAndPort) : list Node * Node * list Node :=
  match lower_bound n_host l host with
  | (a, n :: b) =>
      if negb (HostAndPort_eq (n_host n) host) then (a, Node_ctor host, n :: b) else (a, n, b)
  | (a, []) => (a, Node_ctor host, [])
  end.

Definition updateNodeIfInNodes (l : list Node) (reply : IsMasterReply) : M (list Node) :=
  match findNode l (r_host reply) with
  | None => Ret l
  | Some (a, n, b) => n ← Node_update n reply; Ret (a ++ n :: b)
  end.

(** Nodes marked as failed by [failedHost]. *)
Definition mark_node_failed (l : list Node) (host : HostAndPort) : list Node :=
  match findNode l host with None => l | Some (a, n, b) => a ++ markFailed n :: b end.

Fixpoint join_hosts (first : bool) (s : hset) (ss : bytes) : bytes :=
  match s with
  | [] => ss
  | h :: s' => join_hosts false s' (HostAndPort_append (if first then ss else ss ++ B ",") h)
  end.
Definition getServerAddress (st : SetState) : bytes :=
  join_hosts true (seedNodes st)
    (if StringData_empty (s_name st) then [] else s_name st ++ B "/").

(** ** Host selection *)

Record ReadPreferenceSetting := mkReadPreferenceSetting { pref : ReadPreference; tags : BSONObj }.

Definition compareLatencies (l r : Node) : bool := n_latencyMicros l <? n_latencyMicros r.
(** [std::sort]; on the few nodes of a set it is an insertion sort. *)
Fixpoint insert_by_latency (n : Node) (l : list Node) : list Node :=
  match l with
  | [] => [n]
  | m :: l' => if compareLatencies n m then n :: l else m :: insert_by_latency n l'
  end.
Definition sort_by_latency (l : list Node) : list Node :=
  foldl (fun acc n => insert_by_latency n acc) [] l.

(** The loop that cuts off the nodes too far from the closest. *)
Fixpoint cut_far (threshold closest : Z) (l : list Node) : M (list Node) :=
  match l with
  | [] => Ret []
  | n :: l' =>
      distance ← int64_result (n_latencyMicros n - closest);
      if distance >=? threshold then Ret []
      else l' ← cut_far threshold closest l'; Ret (n :: l')
  end.

Fixpoint matching_nodes (l : list Node) (p : ReadPreference) (tag : BSONObj) : M (list Node) :=
  match l with
  | [] => Ret []
  | n :: l' =>
      m ← (if Node_matches_pref n p then Node_matches_tag n tag else Ret false);
      rest ← matching_nodes l' p tag;
      Ret (if (m : bool) then n :: rest else rest)
  end.

Definition vector_at {A} (l : list A) (i : Z) : M A :=
  match zlookup l i with Some x => Ret x | None => Throw EUndefined end.

Section selection.
Context (useDeterministicHostSelection : bool).

(** One of several matching nodes. *)
Definition choose_node (st : SetState) (matching : list Node) : M (HostAndPort * SetState) :=
  match sort_by_latency matching with
  | [] => Throw EUndefined
  | closest :: others =>
      others ← cut_far (latencyThresholdMicros st) (n_latencyMicros closest) others;
      let near := closest :: others in
      if useDeterministicHostSelection then
        next ← int_result (roundRobin st + 1);
        n ← vector_at near (size_wrap (roundRobin st) mod zlen near);
        Ret (n_host n, set_roundRobin st next)
      else
        let (i, r) := nextInt32_max (s_rand st) (wrap int32 (zlen near)) in
        n ← vector_at near i;
        Ret (n_host n, set_rand st r)
  end.

Fixpoint select_by_tags (st : SetState) (p : ReadPreference) (tagElems : BSONObj)
    : M (HostAndPort * SetState) :=
  match tagElems with
  | [] => Ret (HostAndPort_default, st)
  | tagElem :: rest =>
      uassert 16358 (isABSONObj tagElem);;
      tag ← Obj tagElem;
      matching ← matching_nodes (nodes st) p tag;
      match matching with
      | [] => select_by_tags st p rest
      | [n] => Ret (n_host n, st)
      | _ => choose_node st matching
      end
  end.

(** The cases that do not refer to another preference. *)
Definition select_basic (st : SetState) (p : ReadPreference) (tagElems : BSONObj)
    : M (HostAndPort * SetState) :=
  match p with
  | ReadPreference_PrimaryOnly =>
      match List.find n_isMaster (nodes st) with
      | None => Ret (HostAndPort_default, st)
      | Some n => Ret (n_host n, st)
      end
  | _ => select_by_tags st p tagElems
  end.

Definition getMatchingHost (st : SetState) (criteria : ReadPreferenceSetting)
    : M (HostAndPort * SetState) :=
  match pref criteria with
  | ReadPreference_PrimaryPreferred =>
      '(out, st) ← select_basic st ReadPreference_PrimaryOnly (tags criteria);
      if negb (HostAndPort_empty out) then Ret (out, st)
      else select_basic st ReadPreference_SecondaryOnly (tags criteria)
  | ReadPreference_SecondaryPreferred =>
      '(out, st) ← select_basic st ReadPreference_SecondaryOnly (tags criteria);
      if negb (HostAndPort_empty out) then Ret (out, st)
      else select_basic st ReadPreference_PrimaryOnly (tags criteria)
  | p => select_basic st p (tags criteria)
  end.
End selection.

(** ** checkInvariants *)

Fixpoint node_invariants (lastSeen : HostAndPort) (foundMaster : bool) (prev : option Node)
    (l : list Node) : bool :=
  match l with
  | [] => true
  | n :: l' =>
      negb (HostAndPort_empty (n_host n)) &&
      (if n_isMaster n then n_isUp n && negb foundMaster && HostAndPort_eq (n_host n) lastSeen
       else true) &&
      (n_latencyMicros n >=? 0) &&
      (match prev with None => true | Some m => HostAndPort_lt (n_host m) (n_host n) end) &&
      node_invariants lastSeen (foundMaster || n_isMaster n) (Some n) l'
  end.

Fixpoint no_repeats (cantSee : hset) (q : list HostAndPort) : bool :=
  match q with
  | [] => true
  | h :: q' => negb (hset_count h cantSee) && no_repeats (hset_insert h cantSee) q'
  end.
Definition scan_invariants (s : ScanState) : bool :=
  no_repeats (triedHosts s) (hostsToScan s) &&
  includes id (triedHosts s) (waitingFor s) &&
  (negb (foundUpMaster s) || (zlen (unconfirmedReplies s) =? 0)).

Definition checkInvariants (st : SetState) : bool :=
  node_invariants (lastSeenMaster st) false None (nodes st) &&
  includes n_host (nodes st) (seedNodes st) &&
  match currentScan st with
  | None => true
  | Some p => match scans st !! p with Some s => scan_invariants s | None => false end
  end.

(** ** Parsing replies *)

Definition named (h : HostAndPort) : Prop := _host h <> [].

Lemma named_not_empty h : named h -> HostAndPort_empty h = false.
Proof. unfold named, HostAndPort_empty. by destruct (_host h). Qed.

Lemma substr_throw s p n e : StringData_substr s p n = Throw e -> e = EOutOfRange.
Proof. unfold StringData_substr. repeat case_match; congruence. Qed.

Lemma HostAndPort_ctor_Ret text h : HostAndPort_ctor text = Ret h -> named h.
Proof.
  unfold HostAndPort_ctor, HostAndPort_initialize. intros H. inv_ret.
  destruct x as [x|[c m]]; [inv_ret|done].
  destruct x0 as [[hp cp]|]; [|done].
  assert (forall p, hp <> [] -> named (mkHostAndPort hp p)) by done.
  destruct (StringData_empty hp) eqn:E; [done|].
  assert (hp <> []) by (by intros ->).
  destruct (negb _); inv_ret; [|auto]. repeat case_match; inv_ret; auto.
Qed.

Lemma HostAndPort_ctor_Throw text e : HostAndPort_ctor text = Throw e -> catchable e = true.
Proof.
  unfold HostAndPort_ctor, HostAndPort_initialize, split_host. intros H.
  repeat (match goal with
  | H : mbind _ _ = Throw _ |- _ => unfold mbind, result_bind in H
  | H : StringData_substr _ _ _ = Throw _ |- _ => apply substr_throw in H
  | _ => case_match
  end; simplify_eq); done.
Qed.

(** The name an element of a host list stands for. *)
Definition host_of (e : BSONElement) : option HostAndPort :=
  match e.2 with
  | VString s => match HostAndPort_ctor s with Ret h => Some h | Throw _ => None end
  | _ => None
  end.

Lemma hset_insert_elem x h s : x ∈ hset_insert h s -> x = h \/ x ∈ s.
Proof.
  unfold hset_insert. destruct (lower_bound id s h) as [a b] eqn:E.
  assert (s = a ++ b) as Es.
  { clear x. revert a b E. induction s as [|y s IH]; intros a b; cbn [lower_bound]; [by intros [= <- <-]|].
    destruct (HostAndPort_lt _ _); [|by intros [= <- <-]].
    destruct (lower_bound id s h) as [a' b']. intros [= <- <-]. cbn. f_equal. by apply IH. }
  destruct b as [|y b]; [|destruct (negb _)]; subst s; rewrite ?elem_of_app, ?elem_of_cons; set_solver.
Qed.

Lemma hset_insert_all_named l s : Forall named l -> Forall named s -> Forall named (hset_insert_all l s).
Proof.
  revert s. induction l as [|h l IH]; intros s Hl Hs; [done|]. apply List.Forall_cons_iff in Hl as [Hh Hl].
  apply IH; [done|]. apply Forall_forall. intros x [->|Hx]%hset_insert_elem; [done|].
  rewrite Forall_forall in Hs. by apply Hs.
Qed.

Lemma insert_hosts_spec elems s :
  match mapM host_of elems with
  | Some l => insert_hosts elems s = Ret (hset_insert_all l s) /\ Forall named l
  | None => exists e, insert_hosts elems s = Throw e /\ catchable e = true
  end.
Proof.
  revert s. induction elems as [|[n v] elems IH]; intros s; [by split|].
  change (mapM host_of ((n, v) :: elems))
    with (h ← host_of (n, v); l ← mapM host_of elems; Some (h :: l)).
  assert (host_of (n, v) = match v with
    | VString s => match HostAndPort_ctor s with Ret h => Some h | Throw _ => None end
    | _ => None end) as -> by done.
  cbn [insert_hosts]. unfold String_checked. cbn [snd].
  destruct v; cbn [mbind result_bind option_bind]; try by eexists.
  destruct (HostAndPort_ctor s0) as [h|e] eqn:E; cbn [mbind result_bind option_bind].
  - specialize (IH (hset_insert h s)). destruct (mapM host_of elems) as [l|]; cbn [mbind option_bind].
    + destruct IH as [-> Hl]. split; [done|]. constructor; [by eapply HostAndPort_ctor_Ret|done].
    + done.
  - exists e. split; [done|]. by eapply HostAndPort_ctor_Throw.
Qed.

Definition reply_names (raw : BSONObj) : list BSONElement :=
  getObjectField raw (B "hosts") ++ getObjectField raw (B "passives").

Lemma mapM_app_hosts a b :
  mapM host_of (a ++ b) = (x ← mapM host_of a; y ← mapM host_of b; Some (x ++ y)).
Proof.
  induction a as [|e a IH].
  { cbn [app]. change (mapM host_of []) with (Some (@nil HostAndPort)). by destruct (mapM host_of b). }
  change (mapM host_of ((e :: a) ++ b)) with (h ← host_of e; l ← mapM host_of (a ++ b); Some (h :: l)).
  change (mapM host_of (e :: a)) with (h ← host_of e; l ← mapM host_of a; Some (h :: l)).
  rewrite IH. destruct (host_of e); [|done]. destruct (mapM host_of a); [|done].
  by destruct (mapM host_of b).
Qed.

(** What [parse] does inside its [try], when the reply says [ok]. *)
Definition primary_of (raw : BSONObj) : M HostAndPort :=
  let s := str (getField raw (B "primary")) in
  if StringData_empty s then Ret HostAndPort_default else HostAndPort_ctor s.

Lemma parse_body_spec host lat raw :
  trueValue (getField raw (B "ok")) = true ->
  match primary_of raw, mapM host_of (reply_names raw) with
  | Ret p, Some l =>
      parse_body host lat raw = Ret (mkIsMasterReply true (str (getField raw (B "setName")))
        (negb (trueValue (getField raw (B "hidden"))) && trueValue (getField raw (B "ismaster")))
        (trueValue (getField raw (B "secondary"))) (trueValue (getField raw (B "hidden")))
        p (hset_insert_all l []) (getObjectField raw (B "tags")) host lat) /\
      Forall named l /\ (p = HostAndPort_default \/ named p)
  | _, _ => exists e, parse_body host lat raw = Throw e /\ catchable e = true
  end.
Proof.
  intros Hok. unfold parse_body. rewrite Hok. cbn [negb].
  change (if StringData_empty (str (getField raw (B "primary"))) then Ret HostAndPort_default
          else HostAndPort_ctor (str (getField raw (B "primary")))) with (primary_of raw).
  destruct (primary_of raw) as [p|e] eqn:Ep; cbn [mbind result_bind].
  - unfold reply_names. rewrite mapM_app_hosts.
    pose proof (insert_hosts_spec (getObjectField raw (B "hosts")) []) as H1.
    destruct (mapM host_of (getObjectField raw (B "hosts"))) as [l1|].
    2:{ destruct H1 as (e & -> & He). by exists e. }
    destruct H1 as [-> Hl1]. cbn [mbind result_bind option_bind].
    pose proof (insert_hosts_spec (getObjectField raw (B "passives")) (hset_insert_all l1 [])) as H2.
    destruct (mapM host_of (getObjectField raw (B "passives"))) as [l2|].
    2:{ destruct H2 as (e & -> & He). by exists e. }
    destruct H2 as [-> Hl2]. cbn [mbind result_bind option_bind]. unfold hset_insert_all.
    rewrite foldl_app. split_and!; [done|by apply Forall_app|].
    unfold primary_of in Ep. destruct (StringData_empty _); [left; congruence|right].
    by eapply HostAndPort_ctor_Ret.
  - exists e. split; [done|]. unfold primary_of in Ep. destruct (StringData_empty _); [done|].
    by eapply HostAndPort_ctor_Throw.
Qed.

(** ** Well-formed replies and nodes *)

Record wf_reply (r : IsMasterReply) : Prop := {
  wr_hosts : hs_sorted (r_normalHosts r);
  wr_named : Forall named (r_normalHosts r);
  wr_primary : r_primary r = HostAndPort_default \/ named (r_primary r);
  wr_hidden : r_isMaster r = true -> r_hidden r = false;
  wr_tags : wf_obj (r_tags r);
  wr_latency : in_range int64 (r_latencyMicros r);
  wr_host : named (r_host r) }.

Record wf_node (n : Node) : Prop := {
  wn_named : named (n_host n);
  wn_latency : 0 <= n_latencyMicros n <= unknownLatency;
  wn_up : n_isMaster n = true -> n_isUp n = true;
  wn_tags : wf_obj (n_tags n) }.

Lemma getField_wf o name : wf_obj o -> getField o name = eooElement \/ wf_element (getField o name).
Proof.
  induction 1 as [|e o He Ho IH]; cbn [getField]; [by left|].
  destruct (StringData_eq _ _); [by right|done].
Qed.

Lemma getObjectField_wf o name : wf_obj o -> wf_obj (getObjectField o name).
Proof.
  intros Ho. unfold getObjectField. destruct (getField_wf o name Ho) as [->|[_ Hv]]; [constructor|].
  destruct (getField o name).2; try constructor; [by apply wf_VObject|by apply wf_VArray].
Qed.

(** [parse] never throws, and a reply it accepts is well formed. *)
Lemma parse_total host lat raw :
  exists r, IsMasterReply_parse host lat raw = Ret r /\ r_host r = host /\ r_latencyMicros r = lat.
Proof.
  unfold IsMasterReply_parse. destruct (trueValue (getField raw (B "ok"))) eqn:Eok.
  - pose proof (parse_body_spec host lat raw Eok) as H.
    destruct (primary_of raw) as [p|e]; [destruct (mapM host_of (reply_names raw)) as [l|]|].
    + destruct H as [-> _]. by eexists.
    + destruct H as (e & -> & ->). by eexists.
    + destruct H as (e' & -> & ->). by eexists.
  - unfold parse_body. rewrite Eok. by eexists.
Qed.

Lemma parse_ok_body host lat raw r :
  IsMasterReply_parse host lat raw = Ret r -> r_ok r = true ->
  trueValue (getField raw (B "ok")) = true /\
  exists p l, primary_of raw = Ret p /\ mapM host_of (reply_names raw) = Some l /\
    r = mkIsMasterReply true (str (getField raw (B "setName")))
        (negb (trueValue (getField raw (B "hidden"))) && trueValue (getField raw (B "ismaster")))
        (trueValue (getField raw (B "secondary"))) (trueValue (getField raw (B "hidden")))
        p (hset_insert_all l []) (getObjectField raw (B "tags")) host lat /\
    Forall named l /\ (p = HostAndPort_default \/ named p).
Proof.
  unfold IsMasterReply_parse. intros H Hok. destruct (trueValue (getField raw (B "ok"))) eqn:Eok.
  - pose proof (parse_body_spec host lat raw Eok) as Hb. split; [done|].
    destruct (primary_of raw) as [p|e]; [destruct (mapM host_of (reply_names raw)) as [l|]|].
    + destruct Hb as (Hb & Hl & Hp). rewrite Hb in H. injection H as <-. by exists p, l.
    + destruct Hb as (e & Hb & He). rewrite Hb, He in H. injection H as <-. done.
    + destruct Hb as (e' & Hb & He). rewrite Hb, He in H. injection H as <-. done.
  - unfold parse_body in H. rewrite Eok in H. injection H as <-. done.
Qed.

Lemma parse_wf host lat raw r :
  wf_obj raw -> named host -> in_range int64 lat ->
  IsMasterReply_parse host lat raw = Ret r -> r_ok r = true -> wf_reply r.
Proof.
  intros Hraw Hh Hlat H Hok.
  destruct (parse_ok_body _ _ _ _ H Hok) as (_ & p & l & _ & _ & -> & Hl & Hp).
  constructor; cbn; try done.
  - apply hset_insert_all_spec. constructor.
  - by apply hset_insert_all_named.
  - by destruct (trueValue _).
  - by apply getObjectField_wf.
Qed.

(** ** Updating a node *)

Lemma smoothed_between l r :
  0 <= l <= unknownLatency -> 0 <= r <= unknownLatency ->
  int64_result (r - l) = Ret (r - l) /\
  int64_result (l + Z.quot (r - l) 4) = Ret (l + Z.quot (r - l) 4) /\
  Z.min l r <= l + Z.quot (r - l) 4 <= Z.max l r.
Proof.
  unfold unknownLatency, int64_result, in_range.
  change (int_min int64) with (-9223372036854775808). change (int_max int64) with 9223372036854775807.
  intros Hl Hr.
  assert (Z.min l r <= l + Z.quot (r - l) 4 <= Z.max l r) as Hm.
  { destruct (Z.le_ge_cases 0 (r - l)) as [H|H].
    - pose proof (Z.quot_pos (r - l) 4 H ltac:(lia)).
      pose proof (Z.quot_le_upper_bound (r - l) 4 (r - l) ltac:(lia) ltac:(lia)). lia.
    - replace (r - l) with (- (l - r)) by lia. rewrite Z.quot_opp_l by lia.
      pose proof (Z.quot_pos (l - r) 4 ltac:(lia) ltac:(lia)).
      pose proof (Z.quot_le_upper_bound (l - r) 4 (l - r) ltac:(lia) ltac:(lia)). lia. }
  rewrite !bool_decide_eq_true_2 by lia. done.
Qed.

Lemma Node_update_spec n r :
  wf_node n -> wf_reply r -> r_ok r = true -> HostAndPort_eq (n_host n) (r_host r) = true ->
  exists lat, Node_update n r =
      Ret (mkNode (n_host n) (negb (r_hidden r) && (r_isMaster r || r_secondary r)) (r_isMaster r)
             lat (r_tags r)) /\
    wf_node (mkNode (n_host n) (negb (r_hidden r) && (r_isMaster r || r_secondary r)) (r_isMaster r)
             lat (r_tags r)) /\
    (r_latencyMicros r < 0 -> lat = n_latencyMicros n) /\
    (0 <= r_latencyMicros r -> n_latencyMicros n = unknownLatency -> lat = r_latencyMicros r) /\
    (0 <= r_latencyMicros r -> Z.min (n_latencyMicros n) (r_latencyMicros r) <= lat
       <= Z.max (n_latencyMicros n) (r_latencyMicros r)).
Proof.
  intros [Hn Hl Hu Ht] [_ _ _ Hh Hrt Hlat _] Hok Heq. unfold Node_update.
  rewrite Heq, Hok. cbn [invariant guard_throw mbind result_bind].
  assert (forall lat, 0 <= lat <= unknownLatency ->
    wf_node (mkNode (n_host n) (negb (r_hidden r) && (r_isMaster r || r_secondary r)) (r_isMaster r)
             lat (r_tags r))) as Hwf.
  { intros lat Hlat'. constructor; cbn; try done. intros Hm. rewrite Hm, (Hh Hm). done. }
  unfold in_range in Hlat. change (int_max int64) with unknownLatency in Hlat.
  destruct (r_latencyMicros r >=? 0) eqn:E0.
  - destruct (n_latencyMicros n =? unknownLatency) eqn:E1.
    + eexists. split; [done|]. split; [apply Hwf; lia|]. split_and!; lia.
    + destruct (smoothed_between (n_latencyMicros n) (r_latencyMicros r)) as (E2 & E3 & Hm); [lia..|].
      rewrite E2. cbn [mbind result_bind]. rewrite E3. cbn [mbind result_bind]. eexists. split; [done|]. split; [apply Hwf; lia|]. split_and!; lia.
  - eexists. split; [done|]. split; [apply Hwf; lia|]. split_and!; lia.
Qed.

(** ** The invariant of the nodes *)

Definition node_eq_host (n : Node) : hkey := key n_host n.

Record nodes_ok (last : HostAndPort) (l : list Node) : Prop := {
  no_sorted : hsorted n_host l;
  no_wf : Forall wf_node l;
  no_master : forall n, n ∈ l -> n_isMaster n = true -> HostAndPort_eq (n_host n) last = true }.

Lemma nodes_ok_app last a n b :
  nodes_ok last (a ++ n :: b) ->
  wf_node n /\ (n_isMaster n = true -> HostAndPort_eq (n_host n) last = true) /\
  hsorted n_host (a ++ b) /\
  Forall (fun y => key_lt (key n_host y) (key n_host n)) a /\
  Forall (fun y => key_lt (key n_host n) (key n_host y)) b /\ nodes_ok last (a ++ b).
Proof.
  intros [Hs Hw Hm]. apply hsorted_app in Hs as (Ha & Hb & Hab).
  apply hsorted_cons in Hb as [Hb Hnb]. apply Forall_app in Hw as [Hwa Hwb].
  apply List.Forall_cons_iff in Hwb as [Hwn Hwb].
  assert (hsorted n_host (a ++ b)) as Hsab.
  { apply hsorted_app. split_and!; [done..|]. intros x y Hx Hy. apply Hab; [done|].
    by apply list_elem_of_further. }
  split; [done|]. split; [intros; apply Hm; [set_solver|done]|]. split; [done|].
  split; [apply Forall_forall; intros x Hx; apply Hab; [done|apply list_elem_of_here]|].
  split; [done|]. constructor; [done|by apply Forall_app|].
  intros x Hx. apply Hm. set_solver.
Qed.

(** A node replaced by one with an equal host, or inserted. *)
Lemma nodes_ok_put last a n b :
  nodes_ok last (a ++ b) -> wf_node n ->
  (n_isMaster n = true -> HostAndPort_eq (n_host n) last = true) ->
  Forall (fun y => key_lt (key n_host y) (key n_host n)) a ->
  Forall (fun y => key_lt (key n_host n) (key n_host y)) b ->
  nodes_ok last (a ++ n :: b).
Proof.
  intros [Hs Hw Hm] Hn Hmn Ha Hb. apply Forall_app in Hw as [Hwa Hwb]. constructor.
  - by apply hsorted_insert.
  - apply Forall_app. split; [done|]. by constructor.
  - intros x Hx. assert (x = n \/ x ∈ a ++ b) as [->|Hx'] by set_solver; [done|]. by apply Hm.
Qed.

(** ** Properties *)

(** [IsMasterReply::parse] never throws.  The reply is taken exactly when it
    says [ok], its [primary], when present, is a valid name and every element of
    [hosts] and [passives] is a string that is one; then a hidden node is never
    a master and the set of hosts holds exactly the listed names, each once. *)
Theorem IsMasterReply_parse_spec (host : HostAndPort) (lat : Z) (raw : BSONObj) :
  exists r, IsMasterReply_parse host lat raw = Ret r /\
  (r_ok r = true <-> trueValue (getField raw (B "ok")) = true /\ is_Ret (primary_of raw) /\
     is_Some (mapM host_of (reply_names raw))) /\
  (r_ok r = true ->
     r_host r = host /\ r_latencyMicros r = lat /\
     r_setName r = str (getField raw (B "setName")) /\
     (r_isMaster r = true <-> trueValue (getField raw (B "ismaster")) = true /\ r_hidden r = false) /\
     r_primary r = match primary_of raw with Ret p => p | Throw _ => HostAndPort_default end /\
     hs_sorted (r_normalHosts r) /\ Forall named (r_normalHosts r) /\
     forall k, k ∈ hkeys (r_normalHosts r) <->
       exists e h, e ∈ reply_names raw /\ host_of e = Some h /\ k = hp_key h).
Proof.
  destruct (parse_total host lat raw) as (r & Er & Eh & El). exists r. split; [done|]. split.
  - split.
    + intros Hok. destruct (parse_ok_body _ _ _ _ Er Hok) as (? & p & l & Ep & -> & _).
      split; [done|]. split; [by exists p|by eexists].
    + intros (Hok & [p Hp] & [l Hl]). unfold IsMasterReply_parse in Er.
      pose proof (parse_body_spec host lat raw Hok) as Hb. rewrite Hp, Hl in Hb.
      destruct Hb as [Hb _]. rewrite Hb in Er. by injection Er as <-.
  - intros Hok. destruct (parse_ok_body _ _ _ _ Er Hok) as (_ & p & l & Ep & Hm & -> & Hl & _).
    cbn [r_host r_latencyMicros r_setName r_isMaster r_hidden r_primary r_normalHosts]. rewrite Ep.
    destruct (hset_insert_all_spec l [] ltac:(constructor)) as [Hs Hk].
    split_and!; try done.
    + rewrite andb_true_iff, negb_true_iff. tauto.
    + by apply hset_insert_all_named.
    + intros k. rewrite Hk, elem_of_union, elem_of_list_to_set, list_elem_of_fmap.
      apply mapM_Some in Hm. split.
      * intros [(h & -> & Hh)|Hn]; [|by apply elem_of_empty in Hn].
        apply list_elem_of_lookup in Hh as [i Hi].
        destruct (Forall2_lookup_r _ _ _ _ _ Hm Hi) as (e & He & Ee).
        exists e, h. split; [|done]. by eapply list_elem_of_lookup_2.
      * intros (e & h & He & Ee & ->). left. exists h. split; [done|].
        apply list_elem_of_lookup in He as [i Hi].
        destruct (Forall2_lookup_l _ _ _ _ _ Hm Hi) as (h' & Hh' & Eh'). rewrite Ee in Eh'.
        injection Eh' as ->. by eapply list_elem_of_lookup_2.
Qed.

(** A node updated by several replies, in order. *)
Fixpoint update_all (n : Node) (rs : list IsMasterReply) : M Node :=
  match rs with [] => Ret n | r :: rs' => n ← Node_update n r; update_all n rs' end.

(** A node that receives replies from its host whose latencies lie between two
    bounds gets through the smoothing without overflow, and its latency stays
    between the bounds, wherever it started from; it is up, and master, as the
    last reply says. *)
Theorem Node_update_smoothing n rs r lo hi :
  wf_node n -> (n_latencyMicros n = unknownLatency \/ lo <= n_latencyMicros n <= hi) ->
  0 <= lo -> hi < unknownLatency ->
  Forall (fun r => wf_reply r /\ r_ok r = true /\ lo <= r_latencyMicros r <= hi /\
            HostAndPort_eq (n_host n) (r_host r) = true) (rs ++ [r]) ->
  exists n', update_all n (rs ++ [r]) = Ret n' /\ wf_node n' /\
    lo <= n_latencyMicros n' <= hi /\ n_host n' = n_host n /\
    n_isMaster n' = r_isMaster r /\ n_tags n' = r_tags r /\
    n_isUp n' = negb (r_hidden r) && (r_isMaster r || r_secondary r).
Proof.
  intros Hn Hl Hlo Hhi. revert n Hn Hl.
  assert (forall n x, wf_node n -> (n_latencyMicros n = unknownLatency \/ lo <= n_latencyMicros n <= hi) ->
    (wf_reply x /\ r_ok x = true /\ lo <= r_latencyMicros x <= hi /\
            HostAndPort_eq (n_host n) (r_host x) = true) ->
    exists n', Node_update n x = Ret n' /\ wf_node n' /\ lo <= n_latencyMicros n' <= hi /\
      n_host n' = n_host n /\ n_isMaster n' = r_isMaster x /\ n_tags n' = r_tags x /\
      n_isUp n' = negb (r_hidden x) && (r_isMaster x || r_secondary x)) as Hone.
  { intros n x Hn Hl (Hx & Hok & Hlat & Heq).
    destruct (Node_update_spec n x Hn Hx Hok Heq) as (lat & -> & Hw & _ & Hu & Hs).
    eexists. split; [done|]. split; [done|]. cbn. split; [|done].
    destruct Hl as [Hl|Hl]; [rewrite (Hu ltac:(lia) Hl); lia|specialize (Hs ltac:(lia)); lia]. }
  induction rs as [|x rs IH]; intros n Hn Hl Hrs; cbn [app update_all] in *;
    apply List.Forall_cons_iff in Hrs as [Hx Hrs];
    destruct (Hone n _ Hn Hl Hx) as (n' & -> & Hn' & Hl' & Hh & Hrest); cbn [mbind result_bind].
  - by exists n'.
  - destruct (IH n' Hn' (or_intror Hl')) as (n2 & -> & ? & ? & ? & ?).
    { rewrite Hh. exact Hrs. }
    exists n2. rewrite <-Hh. done.
Qed.

Lemma Node_update_smoothing_witness :
  let h := mkHostAndPort (B "a") (-1) in
  let reply lat := mkIsMasterReply true [] false true false HostAndPort_default [] [] h lat in
  exists n', update_all (Node_ctor h) [reply 100; reply 200; reply 160] = Ret n' /\
    100 <= n_latencyMicros n' <= 200 /\ n_isUp n' = true.
Proof.
  intros h reply.
  assert (forall lat, 100 <= lat <= 200 -> wf_reply (reply lat)) as Hw.
  { intros lat Hl. constructor; cbn; first [done|apply List.Forall_nil|apply SSorted_nil|by left|idtac].
    unfold in_range. cbn. lia. }
  destruct (Node_update_smoothing (Node_ctor h) [reply 100; reply 200] (reply 160) 100 200)
    as (n' & E & _ & Hl & _ & _ & _ & Hup).
  - constructor; cbn; [done|unfold unknownLatency; cbn; lia|done|constructor].
  - by left.
  - lia.
  - by vm_compute.
  - repeat apply List.Forall_cons; try apply List.Forall_nil;
      (split; [apply Hw; lia|]; split; [reflexivity|]; split; [cbn; lia|reflexivity]).
  - exists n'. split; [exact E|]. split; [exact Hl|]. exact Hup.
Defined.
