(* ===== verification/RSSelect.v ===== *)
(** * Host selection and the invariant of a replica set

    The specification of [SetState::getMatchingHost] and the invariant that
    [SetState::checkInvariants] asserts, as a predicate strong enough to be kept
    by every operation. *)
From Stdlib Require Import Sorting.Sorted.
From S2P Require Import Prelude StringData HostAndPort Random BsonTypes BufBuilder Bson BsonCompare.
From S2P Require Import BsonObj HostSet RSState.
Local Open Scope Z_scope.

(** ** The invariant *)

Record wf_scan (s : ScanState) : Prop := {
  ws_possible : hs_sorted (possibleNodes s);
  ws_waiting : hs_sorted (waitingFor s);
  ws_tried : hs_sorted (triedHosts s);
  ws_named : Forall named (hostsToScan s);
  ws_possible_named : Forall named (possibleNodes s);
  ws_nodup : NoDup (hp_key <$> hostsToScan s);
  ws_untried : forall h, h ∈ hostsToScan s -> hp_key h ∉ hkeys (triedHosts s);
  ws_waiting_tried : hkeys (waitingFor s) ⊆ hkeys (triedHosts s);
  ws_master : foundUpMaster s = true -> unconfirmedReplies s = [];
  ws_replies : Forall (fun r => wf_reply r /\ r_ok r = true /\ r_isMaster r = false)
                 (unconfirmedReplies s) }.

Record wf_state (st : SetState) : Prop := {
  wst_nodes : nodes_ok (lastSeenMaster st) (nodes st);
  wst_seeds : hs_sorted (seedNodes st);
  wst_seed_nodes : hkeys (seedNodes st) ⊆ keys n_host (nodes st);
  wst_scan : forall p, currentScan st = Some p -> is_Some (scans st !! p);
  wst_scans : forall p s, scans st !! p = Some s -> wf_scan s;
  wst_rand : wf_random (s_rand st) }.

Lemma no_repeats_spec cantSee q :
  hs_sorted cantSee -> NoDup (hp_key <$> q) -> (forall h, h ∈ q -> hp_key h ∉ hkeys cantSee) ->
  no_repeats cantSee q = true.
Proof.
  revert cantSee. induction q as [|h q IH]; intros c Hc Hd Hn; [done|]. cbn [no_repeats].
  cbn [fmap list_fmap] in Hd. apply NoDup_cons in Hd as [Hh Hd].
  destruct (hset_insert_spec h c Hc) as [Hc' Hk]. apply andb_true_iff. split.
  - apply negb_true_iff, hset_count_false; [done|]. apply Hn, list_elem_of_here.
  - apply IH; [done|done|]. intros x Hx. rewrite Hk. intros [Heq|Hin]%elem_of_union.
    + apply elem_of_singleton in Heq. apply Hh. rewrite <-Heq. by apply list_elem_of_fmap_2.
    + eapply Hn; [|done]. by apply list_elem_of_further.
Qed.

Lemma scan_invariants_hold s : wf_scan s -> scan_invariants s = true.
Proof.
  intros Hs. unfold scan_invariants. rewrite !andb_true_iff. split_and!.
  - apply no_repeats_spec; apply Hs.
  - apply includes_spec; apply Hs.
  - destruct (foundUpMaster s) eqn:E; [|done]. by rewrite (ws_master s Hs E).
Qed.

Lemma node_invariants_hold last l found prev :
  nodes_ok last l ->
  (found = true -> forall n, n ∈ l -> n_isMaster n = false) ->
  (forall m, prev = Some m -> Forall (fun n => key_lt (key n_host m) (key n_host n)) l) ->
  node_invariants last found prev l = true.
Proof.
  revert found prev. induction l as [|n l IH]; intros found prev Hl Hf Hp; [done|].
  cbn [node_invariants]. destruct (nodes_ok_app last [] n l Hl) as (Hn & Hmn & _ & _ & Hb & Hl').
  rewrite (named_not_empty _ (wn_named n Hn)).
  replace (n_latencyMicros n >=? 0) with true by (pose proof (wn_latency n Hn); lia).
  cbn [negb andb]. rewrite !andb_true_iff. split_and!.
  - destruct (n_isMaster n) eqn:E; [|done]. rewrite (wn_up n Hn E), (Hmn eq_refl).
    destruct found; [|done]. rewrite (Hf eq_refl n (list_elem_of_here _ _)) in E. done.
  - done.
  - destruct prev as [m|]; [|done]. apply HostAndPort_lt_key.
    specialize (Hp m eq_refl). by apply List.Forall_cons_iff in Hp as [? _].
  - apply IH; [done| |].
    + intros Hfm x Hx. destruct found; [apply Hf; [done|by apply list_elem_of_further]|].
      cbn in Hfm. destruct (n_isMaster x) eqn:Ex; [|done]. exfalso.
      assert (key n_host n = key n_host x) as Ek.
      { pose proof (Hmn Hfm) as E1. pose proof (no_master _ _ Hl' x Hx Ex) as E2.
        apply HostAndPort_eq_key in E1, E2. unfold key. congruence. }
      rewrite Forall_forall in Hb. specialize (Hb x Hx). rewrite Ek in Hb. by apply key_lt_irrefl in Hb.
    + intros m [= <-]. done.
Qed.

Lemma checkInvariants_hold st : wf_state st -> checkInvariants st = true.
Proof.
  intros [Hn Hs Hsn Hc Hsc _]. unfold checkInvariants. rewrite !andb_true_iff. split_and!.
  - by apply node_invariants_hold.
  - apply includes_spec; [apply Hn|done].
  - destruct (currentScan st) as [p|]; [|done]. destruct (Hc p eq_refl) as [s E]. rewrite E.
    apply scan_invariants_hold. by eapply Hsc.
Qed.

(** ** Finding nodes *)

Lemma findNode_spec l h last : nodes_ok last l ->
  match findNode l h with
  | Some (a, n, b) => l = a ++ n :: b /\ HostAndPort_eq (n_host n) h = true
  | None => hp_key h ∉ keys n_host l
  end.
Proof.
  intros Hl. unfold findNode. destruct (lower_bound n_host l h) as [a b] eqn:E. destruct b as [|n b].
  - apply lower_bound_end in E as (_ & ? & _); [done|apply Hl].
  - apply lower_bound_found in E as (-> & Hx & _ & _); [|apply Hl].
    destruct (HostAndPort_eq (n_host n) h) eqn:Eq; cbn [negb]; [done|].
    destruct Hx as [Hx|[_ Hx]]; [|done]. exfalso.
    assert (HostAndPort_eq (n_host n) h = true) by (by apply HostAndPort_eq_key). congruence.
Qed.

Lemma findNode_none l h last : nodes_ok last l -> findNode l h = None <-> hp_key h ∉ keys n_host l.
Proof.
  intros Hl. pose proof (findNode_spec l h last Hl) as H. destruct (findNode l h) as [[[a n] b]|].
  - split; [done|]. intros Hn. exfalso. apply Hn. destruct H as [-> H].
    apply HostAndPort_eq_key in H. rewrite keys_app, keys_cons, <-H. set_solver.
  - done.
Qed.

Lemma wf_Node_ctor h : named h -> wf_node (Node_ctor h).
Proof. intros Hh. constructor; [done|unfold unknownLatency; cbn; lia|done|constructor]. Qed.

(** The list with the host's node, created when it is missing. *)
Lemma findOrCreateNode_spec l h last : nodes_ok last l -> named h ->
  let '(a, n, b) := findOrCreateNode l h in
  nodes_ok last (a ++ n :: b) /\ keys n_host (a ++ n :: b) = {[hp_key h]} ∪ keys n_host l /\
  HostAndPort_eq (n_host n) h = true /\
  (l = a ++ n :: b \/ (l = a ++ b /\ n = Node_ctor h /\ hp_key h ∉ keys n_host l)).
Proof.
  intros Hl Hh. unfold findOrCreateNode. destruct (lower_bound n_host l h) as [a b] eqn:E.
  assert (forall b', l = a ++ b' -> hp_key h ∉ keys n_host l ->
    Forall (fun x => key_lt (key n_host x) (hp_key h)) a ->
    Forall (fun x => key_lt (hp_key h) (key n_host x)) b' ->
    nodes_ok last (a ++ Node_ctor h :: b') /\
    keys n_host (a ++ Node_ctor h :: b') = {[hp_key h]} ∪ keys n_host l /\
    HostAndPort_eq (n_host (Node_ctor h)) h = true /\
    (l = a ++ Node_ctor h :: b' \/ (l = a ++ b' /\ Node_ctor h = Node_ctor h /\ hp_key h ∉ keys n_host l)))
    as Hins.
  { intros b' -> Hn Ha Hb. split; [apply nodes_ok_put; [done|by apply wf_Node_ctor|done|done|done]|].
    split; [rewrite !keys_app, keys_cons; change (key n_host (Node_ctor h)) with (hp_key h); set_solver|].
    split; [by apply HostAndPort_eq_key|]. by right. }
  destruct b as [|n b].
  - apply lower_bound_end in E as (El & Hn & Ha); [|apply Hl].
    apply Hins; [by rewrite app_nil_r|done|done|constructor].
  - apply lower_bound_found in E as (El & Hx & Ha & Hb); [|apply Hl].
    destruct (HostAndPort_eq (n_host n) h) eqn:Eq; cbn [negb].
    + split; [by rewrite <-El|]. split; [|split; [done|by left]].
      rewrite <-El. apply HostAndPort_eq_key in Eq. symmetry. apply subseteq_union_1_L.
      intros k ->%elem_of_singleton. apply elem_of_keys. exists n. split; [done|].
      rewrite El. apply elem_of_app. right. apply list_elem_of_here.
    + destruct Hx as [Hx|[Hlt Hnk]].
      { exfalso. assert (HostAndPort_eq (n_host n) h = true) by (by apply HostAndPort_eq_key). congruence. }
      apply Hins; [done|done|done|]. by constructor.
Qed.

Lemma key_markFailed n : key n_host (markFailed n) = key n_host n.
Proof. done. Qed.

Lemma wf_markFailed n : wf_node n -> wf_node (markFailed n).
Proof. intros [? ? ? ?]. by constructor. Qed.

(** Replacing a node by one with the same host. *)
Lemma nodes_ok_replace last a n n' b :
  nodes_ok last (a ++ n :: b) -> n_host n' = n_host n -> wf_node n' ->
  (n_isMaster n' = true -> HostAndPort_eq (n_host n') last = true) ->
  nodes_ok last (a ++ n' :: b) /\ keys n_host (a ++ n' :: b) = keys n_host (a ++ n :: b).
Proof.
  intros Hl Hh Hw Hm. destruct (nodes_ok_app _ _ _ _ Hl) as (_ & _ & _ & Ha & Hb & Hab).
  unfold key in Ha, Hb. rewrite <-Hh in Ha, Hb. split.
  - by apply nodes_ok_put.
  - assert (key n_host n' = key n_host n) as Ek by (unfold key; by rewrite Hh).
    rewrite !keys_app, !keys_cons. by rewrite Ek.
Qed.

Lemma mark_node_failed_ok last l h : nodes_ok last l ->
  nodes_ok last (mark_node_failed l h) /\ keys n_host (mark_node_failed l h) = keys n_host l.
Proof.
  intros Hl. unfold mark_node_failed. pose proof (findNode_spec l h last Hl) as Hf.
  destruct (findNode l h) as [[[a n] b]|]; [|done]. destruct Hf as [-> _].
  apply nodes_ok_replace; [done|done| |done]. by apply wf_markFailed, (nodes_ok_app _ _ _ _ Hl).
Qed.

(** A reply of the last seen master, or of a node that is not one. *)
Lemma updateNodeIfInNodes_ok last l r :
  nodes_ok last l -> wf_reply r -> r_ok r = true ->
  (r_isMaster r = true -> HostAndPort_eq (r_host r) last = true) ->
  exists l', updateNodeIfInNodes l r = Ret l' /\ nodes_ok last l' /\ keys n_host l' = keys n_host l.
Proof.
  intros Hl Hr Hok Hm. unfold updateNodeIfInNodes. pose proof (findNode_spec l (r_host r) last Hl) as Hf.
  destruct (findNode l (r_host r)) as [[[a n] b]|]; [|by eexists]. destruct Hf as [-> Heq].
  destruct (nodes_ok_app _ _ _ _ Hl) as (Hn & _).
  destruct (Node_update_spec n r Hn Hr Hok Heq) as (lat & -> & Hw & _). cbn [mbind result_bind].
  eexists. split; [done|]. apply nodes_ok_replace; [done|done|done|]. cbn. intros Hrm.
  specialize (Hm Hrm). apply HostAndPort_eq_key in Hm, Heq. apply HostAndPort_eq_key. congruence.
Qed.

(** ** Tags *)

Lemma eoo_cmp c : wf_element c -> exists b, BSONElement_eq eooElement c = Ret b.
Proof.
  intros [Hn Hv]. unfold BSONElement_eq, BSONElement_woCompare, element_woCompare_with.
  destruct c as [n v]. destruct v; try (cbn in Hv; done); cbn [snd fst eooElement];
    destruct (_ && _) eqn:E1; try (exfalso; vm_compute in E1; discriminate E1); try (by eexists).
  destruct (strcmp [] n =? 0); by eexists.
Qed.

Lemma Node_matches_tag_total n tag : wf_node n -> wf_obj tag ->
  exists b, Node_matches_tag n tag = Ret b /\
    (b = true <-> forall c, c ∈ tag -> BSONElement_eq (getField (n_tags n) c.1) c = Ret true).
Proof.
  intros Hn. induction 1 as [|c tag Hc Htag IH]; cbn [Node_matches_tag].
  { exists true. split; [done|]. split; [|done]. by intros _ ? ?%not_elem_of_nil. }
  assert (exists b, BSONElement_eq (getField (n_tags n) c.1) c = Ret b) as [b Eb].
  { destruct (getField_wf (n_tags n) c.1 (wn_tags n Hn)) as [->|Hw]; [by apply eoo_cmp|].
    destruct (element_cmp_all true _ _ Hw Hc) as (x & E & _). unfold BSONElement_eq.
    rewrite E. by eexists. }
  rewrite Eb. cbn [mbind result_bind]. destruct b; cbn [negb].
  - destruct IH as (b & -> & Hb). exists b. split; [done|]. rewrite Hb. split.
    + intros H c' [->|Hc']%elem_of_cons; auto.
    + intros H c' Hc'. apply H. by apply list_elem_of_further.
  - exists false. split; [done|]. split; [done|]. intros H.
    specialize (H c (list_elem_of_here _ _)). congruence.
Qed.

(** A node that a preference and a tag document allow. *)
Definition eligible (st : SetState) (p : ReadPreference) (tag : BSONObj) (n : Node) : Prop :=
  n ∈ nodes st /\ Node_matches_pref n p = true /\
  forall c, c ∈ tag -> BSONElement_eq (getField (n_tags n) c.1) c = Ret true.

Lemma matching_nodes_spec l p tag : Forall wf_node l -> wf_obj tag ->
  exists m, matching_nodes l p tag = Ret m /\ sublist m l /\
    forall n, n ∈ m <-> n ∈ l /\ Node_matches_pref n p = true /\
      forall c, c ∈ tag -> BSONElement_eq (getField (n_tags n) c.1) c = Ret true.
Proof.
  intros Hl Ht. induction Hl as [|n l Hn Hl IH]; cbn [matching_nodes].
  { exists []. split; [done|]. split; [constructor|]. intros x. split; [by intros ?%not_elem_of_nil|].
    by intros [?%not_elem_of_nil _]. }
  destruct IH as (m & -> & Hsub & Hm).
  destruct (Node_matches_tag_total n tag Hn Ht) as (b & Eb & Hb).
  assert (exists b', (if Node_matches_pref n p then Node_matches_tag n tag else Ret false) = Ret b' /\
    (b' = true <-> Node_matches_pref n p = true /\
      forall c, c ∈ tag -> BSONElement_eq (getField (n_tags n) c.1) c = Ret true)) as (b' & -> & Hb').
  { destruct (Node_matches_pref n p); [exists b; rewrite Hb; tauto|exists false; by split; [|split; [|intros []]]]. }
  cbn [mbind result_bind]. eexists. split; [done|]. destruct b'.
  - split; [by constructor|]. intros x. rewrite !elem_of_cons, Hm. split.
    + intros [->|?]; [|tauto]. split; [by left|]. by apply Hb'.
    + intros [[->|?] Hx]; [by left|right]. tauto.
  - split; [by constructor|]. intros x. rewrite elem_of_cons, Hm. split; [tauto|].
    intros [[->|?] Hx]; [|tauto]. apply Hb' in Hx. done.
Qed.

(** ** Sorting and cutting *)

Definition lat_le (a b : Node) : Prop := n_latencyMicros a <= n_latencyMicros b.

Lemma insert_by_latency_perm n l : insert_by_latency n l ≡ₚ n :: l.
Proof.
  induction l as [|m l IH]; cbn; [done|]. destruct (compareLatencies n m); [done|].
  rewrite IH. constructor.
Qed.

Lemma insert_by_latency_sorted n l :
  StronglySorted lat_le l -> StronglySorted lat_le (insert_by_latency n l).
Proof.
  induction 1 as [|m l Hl IH Hm]; cbn; [repeat constructor|]. unfold compareLatencies.
  destruct (n_latencyMicros n <? n_latencyMicros m) eqn:E.
  - constructor; [by constructor|]. constructor; [unfold lat_le; lia|].
    eapply Forall_impl; [done|]. unfold lat_le. cbn. lia.
  - constructor; [done|]. rewrite insert_by_latency_perm. constructor; [unfold lat_le; lia|done].
Qed.

Lemma sort_by_latency_spec l : sort_by_latency l ≡ₚ l /\ StronglySorted lat_le (sort_by_latency l).
Proof.
  unfold sort_by_latency.
  assert (forall acc, StronglySorted lat_le acc ->
    foldl (fun acc n => insert_by_latency n acc) acc l ≡ₚ acc ++ l /\
    StronglySorted lat_le (foldl (fun acc n => insert_by_latency n acc) acc l)) as H.
  { induction l as [|n l IH]; intros acc Hacc; cbn [foldl].
    - by rewrite app_nil_r.
    - destruct (IH _ (insert_by_latency_sorted n acc Hacc)) as [Hp ?]. split; [|done].
      rewrite Hp, insert_by_latency_perm. cbn [app]. by rewrite Permutation_middle. }
  apply (H []). constructor.
Qed.

Lemma cut_far_spec threshold closest l :
  0 <= closest -> Forall (fun n => closest <= n_latencyMicros n <= unknownLatency) l ->
  exists k, cut_far threshold closest l = Ret (take k l) /\
    Forall (fun n => n_latencyMicros n - closest < threshold) (take k l).
Proof.
  intros Hc. induction 1 as [|n l Hn Hl IH]; cbn [cut_far].
  { exists 0%nat. by split; [|constructor]. }
  unfold int64_result, in_range. unfold unknownLatency in Hn.
  rewrite bool_decide_eq_true_2 by (change (int_min int64) with (-9223372036854775808); lia).
  cbn [mbind result_bind]. destruct (_ >=? threshold) eqn:E.
  - exists 0%nat. by split; [|constructor].
  - destruct IH as (k & -> & Hk). exists (S k). split; [done|]. cbn [take]. constructor; [lia|done].
Qed.

(** ** Choosing *)

(** What selection may change: the generator and the round-robin counter. *)
Definition same_view (st st' : SetState) : Prop :=
  st' = set_roundRobin (set_rand st (s_rand st')) (roundRobin st') /\ wf_random (s_rand st').

Lemma same_view_refl st : wf_random (s_rand st) -> same_view st st.
Proof. by destruct st. Qed.

Lemma vector_at_elem {A} (l : list A) i : 0 <= i < zlen l -> exists x, vector_at l i = Ret x /\ x ∈ l.
Proof.
  intros Hi. unfold vector_at, zlookup. rewrite decide_True by lia.
  destruct (lookup_lt_is_Some_2 l (Z.to_nat i)) as [x Hx]; [unfold zlen in Hi; lia|].
  rewrite Hx. exists x. split; [done|]. by eapply list_elem_of_lookup_2.
Qed.

Definition counter_ok (det : bool) (st : SetState) : Prop :=
  det = true -> int_min int32 <= roundRobin st < int_max int32.

Lemma choose_node_spec det st l :
  l <> [] -> Forall wf_node l -> zlen l <= int_max int32 -> wf_random (s_rand st) ->
  counter_ok det st ->
  exists n st', choose_node det st l = Ret (n_host n, st') /\ n ∈ l /\ same_view st st' /\
    forall m, m ∈ l -> n_latencyMicros n <= n_latencyMicros m \/
      n_latencyMicros n - n_latencyMicros m < latencyThresholdMicros st.
Proof.
  intros Hne Hw Hsz Hr Hc. unfold choose_node. destruct (sort_by_latency_spec l) as [Hp Hs].
  destruct (sort_by_latency l) as [|c others]; [by apply Permutation_nil_l in Hp|].
  inversion Hs as [|? ? Hs' Hmin]; subst.
  assert (Forall wf_node (c :: others)) as Hw' by (by rewrite Hp).
  apply List.Forall_cons_iff in Hw' as [Hwc Hwo].
  destruct (cut_far_spec (latencyThresholdMicros st) (n_latencyMicros c) others) as (k & -> & Hk).
  { apply Hwc. }
  { apply Forall_forall. intros x Hx. rewrite Forall_forall in Hmin. rewrite Forall_forall in Hwo.
    specialize (Hmin x Hx). specialize (Hwo x Hx). destruct Hwo. unfold lat_le in Hmin. lia. }
  cbn [mbind result_bind]. set (near := c :: take k others).
  assert (1 <= zlen near <= zlen l) as Hn.
  { unfold near, zlen. rewrite <-Hp. cbn [length]. rewrite length_take. lia. }
  assert (forall n, n ∈ near -> n ∈ l /\ forall m, m ∈ l ->
    n_latencyMicros n <= n_latencyMicros m \/
    n_latencyMicros n - n_latencyMicros m < latencyThresholdMicros st) as Hgood.
  { intros n Hin. assert (n ∈ c :: others) as Hin'.
    { unfold near in Hin. apply elem_of_cons in Hin as [->|Hin]; [apply list_elem_of_here|].
      apply list_elem_of_further. apply elem_of_take in Hin as (i & Hi & _).
      by eapply list_elem_of_lookup_2. }
    split; [by rewrite <-Hp|]. intros m Hm. rewrite <-Hp in Hm.
    assert (n_latencyMicros c <= n_latencyMicros m) as Hcm.
    { apply elem_of_cons in Hm as [->|Hm]; [lia|]. rewrite Forall_forall in Hmin. by apply Hmin. }
    apply elem_of_cons in Hin as [->|Hin]; [left; lia|]. right.
    rewrite Forall_forall in Hk. specialize (Hk n Hin). lia. }
  clearbody near. destruct det.
  - unfold int_result. rewrite bool_decide_eq_true_2 by (specialize (Hc eq_refl); unfold in_range; lia).
    cbn [mbind result_bind].
    destruct (vector_at_elem near (size_wrap (roundRobin st) mod zlen near)) as (n & -> & Hin).
    { apply Z.mod_pos_bound. lia. }
    cbn [mbind result_bind]. destruct (Hgood n Hin). exists n. eexists. split_and!; [done|done| |done].
    split; [done|]. done.
  - rewrite (wrap_uint_int (zlen near)) by lia.
    pose proof (nextInt32_max_bound_aux (s_rand st) (zlen near) Hr ltac:(lia)) as [Hi Hr'].
    destruct (nextInt32_max (s_rand st) (zlen near)) as [i r]. cbn [fst snd] in *.
    destruct (vector_at_elem near i Hi) as (n & -> & Hin). cbn [mbind result_bind].
    destruct (Hgood n Hin). exists n. eexists. split_and!; [done|done| |done]. by split.
Qed.

(** ** The specification of getMatchingHost *)

Definition tag_of (e : BSONElement) : BSONObj := match e.2 with VObject o | VArray o => o | _ => [] end.
(** The tag set is an array of documents. *)
Definition tag_docs (tagElems : BSONObj) : Prop :=
  Forall (fun e => wf_element e /\ isABSONObj e = true) tagElems.

(** The primary, or the empty host when there is none. *)
Definition primary_choice (st : SetState) (h : HostAndPort) : Prop :=
  (exists n, n ∈ nodes st /\ n_isMaster n = true /\ h = n_host n) \/
  (h = HostAndPort_default /\ forall n, n ∈ nodes st -> n_isMaster n = false).
(** An eligible node for the first tag document that has any: one whose latency
    is below the threshold away from that of every other. *)
Definition tags_choice (st : SetState) (p : ReadPreference) (tagElems : BSONObj) (h : HostAndPort) : Prop :=
  (exists pre e post n, tagElems = pre ++ e :: post /\
     (forall e' m, e' ∈ pre -> ~ eligible st p (tag_of e') m) /\
     eligible st p (tag_of e) n /\ h = n_host n /\
     forall m, eligible st p (tag_of e) m -> n_latencyMicros n <= n_latencyMicros m \/
       n_latencyMicros n - n_latencyMicros m < latencyThresholdMicros st) \/
  (h = HostAndPort_default /\ forall e m, e ∈ tagElems -> ~ eligible st p (tag_of e) m).

Lemma node_named st n : wf_state st -> n ∈ nodes st -> named (n_host n).
Proof.
  intros Hst Hn. pose proof (no_wf _ _ (wst_nodes st Hst)) as Hw. rewrite Forall_forall in Hw.
  by apply Hw.
Qed.

Lemma select_by_tags_spec det st p tagElems :
  wf_state st -> zlen (nodes st) <= int_max int32 -> counter_ok det st -> tag_docs tagElems ->
  exists h st', select_by_tags det st p tagElems = Ret (h, st') /\ same_view st st' /\
    tags_choice st p tagElems h /\ (HostAndPort_empty h = true -> st' = st).
Proof.
  intros Hst Hsz Hc. induction 1 as [|e tagElems [He Hobj] Hdocs IH]; cbn [select_by_tags].
  { exists HostAndPort_default, st. split; [done|]. split; [apply same_view_refl, Hst|]. split; [|done].
    right. split; [done|]. by intros ? ? ?%not_elem_of_nil. }
  rewrite Hobj. cbn [uassert guard_throw mbind result_bind].
  assert (Obj e = Ret (tag_of e) /\ wf_obj (tag_of e)) as [-> Htag].
  { unfold Obj, tag_of. destruct He as [_ Hv]. unfold isABSONObj in Hobj.
    destruct e.2; try done; (split; [done|]); [by apply wf_VObject|by apply wf_VArray]. }
  cbn [mbind result_bind].
  destruct (matching_nodes_spec (nodes st) p (tag_of e) (no_wf _ _ (wst_nodes st Hst)) Htag)
    as (m & -> & Hsub & Hm). cbn [mbind result_bind].
  assert (forall n, n ∈ m <-> eligible st p (tag_of e) n) as Hm' by done. clear Hm.
  assert (forall n st', n ∈ m -> same_view st st' ->
    (forall m', m' ∈ m -> n_latencyMicros n <= n_latencyMicros m' \/
       n_latencyMicros n - n_latencyMicros m' < latencyThresholdMicros st) ->
    same_view st st' /\ tags_choice st p (e :: tagElems) (n_host n) /\
    (HostAndPort_empty (n_host n) = true -> st' = st)) as Hfound.
  { intros n st' Hn Hv Hall. split; [done|]. split.
    - left. exists [], e, tagElems, n. split; [done|]. split; [by intros ? ? ?%not_elem_of_nil|].
      split; [by apply Hm'|]. split; [done|]. intros m' Hm''%Hm'. by apply Hall.
    - rewrite (named_not_empty (n_host n)); [done|]. apply (node_named st); [done|]. by apply Hm' in Hn as [? _]. }
  destruct m as [|n [|n2 m]].
  - destruct IH as (h & st' & -> & Hv & Hch & Hd). exists h, st'. split; [done|]. split; [done|].
    split; [|done]. assert (forall x, ~ eligible st p (tag_of e) x) as Hno.
    { intros x Hx%Hm'. by apply not_elem_of_nil in Hx. }
    destruct Hch as [(pre & e' & post & n & -> & Hpre & Hn)|[-> Hn]].
    + left. exists (e :: pre), e', post, n. split; [done|]. split; [|done].
      intros x y [->|Hx]%elem_of_cons; [apply Hno|by apply Hpre].
    + right. split; [done|]. intros x y [->|Hx]%elem_of_cons; [apply Hno|by apply Hn].
  - exists (n_host n), st. split; [done|]. apply Hfound; [apply list_elem_of_here|apply same_view_refl, Hst|].
    intros x Hx%list_elem_of_singleton. subst x. lia.
  - assert (Forall wf_node (n :: n2 :: m)) as Hw.
    { apply Forall_forall. intros x Hx. apply Hm' in Hx as [Hx _].
      pose proof (no_wf _ _ (wst_nodes st Hst)) as Hw. rewrite Forall_forall in Hw. by apply Hw. }
    destruct (choose_node_spec det st (n :: n2 :: m)) as (x & st' & -> & Hx & Hv & Hall); [done|done| |apply Hst|done|].
    { apply sublist_length in Hsub. unfold zlen in *. lia. }
    exists (n_host x), st'. split; [done|]. by apply Hfound.
Qed.

Lemma select_primary det st tagElems :
  exists h, select_basic det st ReadPreference_PrimaryOnly tagElems = Ret (h, st) /\ primary_choice st h.
Proof.
  cbn [select_basic]. destruct (List.find n_isMaster (nodes st)) as [n|] eqn:E.
  - apply List.find_some in E as [Hn Hm]. exists (n_host n). split; [done|]. left. exists n.
    by rewrite list_elem_of_In.
  - exists HostAndPort_default. split; [done|]. right. split; [done|]. intros n Hn.
    apply (List.find_none _ _ E). by apply list_elem_of_In.
Qed.

Lemma primary_empty st h : wf_state st -> primary_choice st h -> HostAndPort_empty h = true ->
  h = HostAndPort_default /\ forall n, n ∈ nodes st -> n_isMaster n = false.
Proof.
  intros Hst [(n & Hn & _ & ->)|?] He; [|done].
  by rewrite (named_not_empty _ (node_named st n Hst Hn)) in He.
Qed.

Lemma tags_empty st p tagElems h : wf_state st -> tags_choice st p tagElems h ->
  HostAndPort_empty h = true ->
  h = HostAndPort_default /\ forall e m, e ∈ tagElems -> ~ eligible st p (tag_of e) m.
Proof.
  intros Hst [(? & ? & ? & n & _ & _ & [Hn _] & -> & _)|?] He; [|done].
  by rewrite (named_not_empty _ (node_named st n Hst Hn)) in He.
Qed.

(** What each read preference asks for. *)
Definition choice (st : SetState) (criteria : ReadPreferenceSetting) (h : HostAndPort) : Prop :=
  let no_primary := forall n, n ∈ nodes st -> n_isMaster n = false in
  let no_secondary := forall e m, e ∈ tags criteria -> ~ eligible st ReadPreference_SecondaryOnly (tag_of e) m in
  match pref criteria with
  | ReadPreference_PrimaryOnly => primary_choice st h
  | ReadPreference_PrimaryPreferred =>
      (primary_choice st h /\ HostAndPort_empty h = false) \/
      (no_primary /\ tags_choice st ReadPreference_SecondaryOnly (tags criteria) h)
  | ReadPreference_SecondaryPreferred =>
      (tags_choice st ReadPreference_SecondaryOnly (tags criteria) h /\ HostAndPort_empty h = false) \/
      (no_secondary /\ primary_choice st h)
  | p => tags_choice st p (tags criteria) h
  end.

Lemma getMatchingHost_total det st criteria :
  wf_state st -> zlen (nodes st) <= int_max int32 -> counter_ok det st -> tag_docs (tags criteria) ->
  exists h st', getMatchingHost det st criteria = Ret (h, st') /\ same_view st st' /\
    choice st criteria h.
Proof.
  intros Hst Hsz Hc Hd. unfold getMatchingHost, choice.
  destruct (select_primary det st (tags criteria)) as (h1 & E1 & H1).
  destruct (select_by_tags_spec det st ReadPreference_SecondaryOnly (tags criteria) Hst Hsz Hc Hd)
    as (h2 & st2 & E2 & V2 & H2 & D2).
  destruct (select_by_tags_spec det st ReadPreference_Nearest (tags criteria) Hst Hsz Hc Hd)
    as (h3 & st3 & E3 & V3 & H3 & _).
  assert (same_view st st) as V by apply same_view_refl, Hst.
  destruct (pref criteria).
  - by exists h1, st.
  - rewrite E1. cbn [mbind result_bind]. destruct (HostAndPort_empty h1) eqn:He; cbn [negb].
    + destruct (primary_empty _ _ Hst H1 He) as [_ Hno]. exists h2, st2.
      split; [exact E2|]. split; [done|]. by right.
    + exists h1, st. split; [done|]. split; [done|]. by left.
  - exists h2, st2. by split.
  - change (select_basic det st ReadPreference_SecondaryOnly (tags criteria))
      with (select_by_tags det st ReadPreference_SecondaryOnly (tags criteria)).
    rewrite E2. cbn [mbind result_bind]. destruct (HostAndPort_empty h2) eqn:He; cbn [negb].
    + rewrite (D2 eq_refl). exists h1, st. split; [done|]. split; [done|]. right.
      split; [|done]. by apply (tags_empty _ _ _ _ Hst H2 He).
    + exists h2, st2. split; [done|]. split; [done|]. by left.
  - exists h3, st3. by split.
Qed.

Lemma same_view_wf st st' : wf_state st -> same_view st st' -> wf_state st'.
Proof. intros [? ? ? ? ? ?] [-> Hr]. by constructor. Qed.

(** ** Properties *)

(** C39: on a well-formed view, [getMatchingHost] always answers, with the host its
    read preference asks for: the primary; or, for the first tag document that
    any node matches, a node that is up (and no master for the secondary
    preferences) whose latency is within the threshold of every matching node's;
    or the combination of the two; or the empty host when there is none.  The
    random index never leaves the candidates, and only the generator and the
    round-robin counter of the view change. *)
Theorem getMatchingHost_choice det st criteria :
  wf_state st -> zlen (nodes st) <= int_max int32 -> counter_ok det st -> tag_docs (tags criteria) ->
  exists h st', getMatchingHost det st criteria = Ret (h, st') /\ choice st criteria h /\
    same_view st st' /\ wf_state st'.
Proof.
  intros Hst Hsz Hc Hd. destruct (getMatchingHost_total det st criteria Hst Hsz Hc Hd)
    as (h & st' & E & V & H). exists h, st'. split_and!; [done|done|done|by eapply same_view_wf].
Qed.

Lemma getMatchingHost_choice_witness :
  let a := mkHostAndPort (B "a") (-1) in
  let b := mkHostAndPort (B "b") (-1) in
  let st := mkSetState (B "rs") 0 [a; b] b
    [mkNode a true false 1000 [(B "dc", VString (B "ny"))]; mkNode b true true 900 []]
    None 15000 (PseudoRandom_int64 7) 0 0 ∅ in
  let criteria := mkReadPreferenceSetting ReadPreference_SecondaryPreferred
    [(B "0", VObject [(B "dc", VString (B "ny"))])] in
  exists h st', getMatchingHost false st criteria = Ret (h, st') /\ choice st criteria h /\
    h = a /\ wf_state st.
Proof.
  intros a b st criteria.
  assert (wf_state st) as Hst.
  { constructor; cbn.
    - constructor.
      + repeat constructor.
      + repeat constructor; cbn; try done; not_in.
      + intros n Hn Hm. rewrite !elem_of_cons in Hn. destruct Hn as [->|[->|Hn%not_elem_of_nil]]; done.
    - repeat constructor.
    - set_solver.
    - done.
    - intros p s. by rewrite lookup_empty.
    - apply seed_int64_wf. by vm_compute. }
  destruct (getMatchingHost_choice false st criteria Hst) as (h & st' & E & Hch & _ & _).
  - by vm_compute.
  - done.
  - repeat constructor; cbn; try done; not_in.
  - exists h, st'. split; [exact E|]. split; [exact Hch|]. split; [|exact Hst].
    assert (fst <$> getMatchingHost false st criteria = Ret a) as Ea by (by vm_compute).
    rewrite E in Ea. by injection Ea.
Defined.
