(* ===== verification/RSRefresh.v ===== *)
(** * Refreshing the view: client/replica_set_monitor.cpp, the Refresher

    [Refresher] with the scan it takes part in: choosing the next host to
    contact, and processing the replies.  Each function is the part of the code
    that runs with the set's mutex held; [_refreshUntilMatches] is cut at the
    points where the mutex is released ([refresh_top] and [refresh_reply]). *)
From Stdlib Require Import Sorting.Sorted.
From S2P Require Import Prelude StringData HostAndPort Random BsonTypes BufBuilder Bson BsonCompare.
From S2P Require Import BsonObj HostSet RSState RSSelect.
Local Open Scope Z_scope.

(** ** Scans *)

Definition set_hostsToScan (s : ScanState) (q : list HostAndPort) : ScanState :=
  mkScanState (foundUpMaster s) (foundAnyUpNodes s) q (possibleNodes s) (waitingFor s) (triedHosts s)
    (unconfirmedReplies s).
Definition set_possibleNodes (s : ScanState) (l : hset) : ScanState :=
  mkScanState (foundUpMaster s) (foundAnyUpNodes s) (hostsToScan s) l (waitingFor s) (triedHosts s)
    (unconfirmedReplies s).
Definition set_waitingFor (s : ScanState) (l : hset) : ScanState :=
  mkScanState (foundUpMaster s) (foundAnyUpNodes s) (hostsToScan s) (possibleNodes s) l (triedHosts s)
    (unconfirmedReplies s).
Definition set_triedHosts (s : ScanState) (l : hset) : ScanState :=
  mkScanState (foundUpMaster s) (foundAnyUpNodes s) (hostsToScan s) (possibleNodes s) (waitingFor s) l
    (unconfirmedReplies s).
Definition set_unconfirmed (s : ScanState) (l : list IsMasterReply) : ScanState :=
  mkScanState (foundUpMaster s) (foundAnyUpNodes s) (hostsToScan s) (possibleNodes s) (waitingFor s)
    (triedHosts s) l.
Definition set_foundUpMaster (s : ScanState) (b : bool) : ScanState :=
  mkScanState b (foundAnyUpNodes s) (hostsToScan s) (possibleNodes s) (waitingFor s) (triedHosts s)
    (unconfirmedReplies s).
Definition set_foundAnyUpNodes (s : ScanState) (b : bool) : ScanState :=
  mkScanState (foundUpMaster s) b (hostsToScan s) (possibleNodes s) (waitingFor s) (triedHosts s)
    (unconfirmedReplies s).

Definition is_nil {A} (l : list A) : bool := match l with [] => true | _ => false end.

Definition hostIs (h x : HostAndPort) : bool := HostAndPort_eq x h.
(** [std::stable_partition]: the elements that satisfy the predicate first. *)
Definition stable_partition {A} (f : A -> bool) (l : list A) : list A :=
  List.filter f l ++ List.filter (fun x => negb (f x)) l.

Definition enqueAllUntriedHosts (s : ScanState) (container : hset) (rand : PseudoRandom)
    : M (ScanState * PseudoRandom) :=
  invariant (is_nil (hostsToScan s));;
  '(q, rand) ← random_shuffle (List.filter (fun h => negb (hset_count h (triedHosts s))) container) rand;
  Ret (set_hostsToScan s q, rand).

(** The queue of a new scan: nodes that are up are pushed to the front. *)
Fixpoint queue_nodes (l : list Node) (q : list HostAndPort) (upNodes : nat) : list HostAndPort * nat :=
  match l with
  | [] => (q, upNodes)
  | n :: l' =>
      if n_isUp n then queue_nodes l' (n_host n :: q) (S upNodes)
      else queue_nodes l' (q ++ [n_host n]) upNodes
  end.
Definition startNewScan (st : SetState) : M (ScanState * PseudoRandom) :=
  let (q, upNodes) := queue_nodes (nodes st) [] 0 in
  '(up, rand) ← random_shuffle (take upNodes q) (s_rand st);
  '(down, rand) ← random_shuffle (drop upNodes q) rand;
  let q := up ++ down in
  let q := if negb (HostAndPort_empty (lastSeenMaster st))
           then stable_partition (hostIs (lastSeenMaster st)) q else q in
  Ret (set_hostsToScan ScanState_ctor q, rand).

(** ** Refresher *)

Record Refresher := mkRefresher { r_scan : nat; r_startedNewScan : bool }.

Definition Refresher_ctor (st : SetState) : M (Refresher * SetState) :=
  match currentScan st with
  | Some p => Ret (mkRefresher p false, st)
  | None =>
      '(scan, rand) ← startNewScan st;
      let p := fresh (dom (scans st)) in
      Ret (mkRefresher p true, set_currentScan (put_scan (set_rand st rand) p scan) (Some p))
  end.

Inductive NextStep := CONTACT_HOST (host : HostAndPort) | WAIT | DONE.

Definition get_scan (st : SetState) (p : nat) : M ScanState :=
  match scans st !! p with Some s => Ret s | None => Throw EUndefined end.

(** Replies kept until now are taken at face value. *)
Fixpoint apply_unconfirmed (l : list Node) (rs : list IsMasterReply) : M (list Node) :=
  match rs with
  | [] => Ret l
  | r :: rs' =>
      let '(a, n, b) := findOrCreateNode l (r_host r) in
      n ← Node_update n r;
      apply_unconfirmed (a ++ n :: b) rs'
  end.

Definition getNextStep (r : Refresher) (st : SetState) : M (NextStep * SetState) :=
  let p := r_scan r in
  if negb (bool_decide (currentScan st = Some p)) then Ret (DONE, st)
  else
    scan ← get_scan st p;
    if is_nil (hostsToScan scan) && negb (is_nil (waitingFor scan)) then Ret (WAIT, st)
    else
      '(scan, rand) ←
        (if is_nil (hostsToScan scan) && negb (foundUpMaster scan) then
           '(scan, rand) ← enqueAllUntriedHosts scan (possibleNodes scan) (s_rand st);
           Ret (set_possibleNodes scan [], rand)
         else Ret (scan, s_rand st));
      let st := put_scan (set_rand st rand) p scan in
      match hostsToScan scan with
      | [] =>
          l ← (if negb (foundUpMaster scan) then apply_unconfirmed (nodes st) (unconfirmedReplies scan)
               else Ret (nodes st));
          fails ← (if foundAnyUpNodes scan then Ret 0 else int_result (consecutiveFailedScans st + 1));
          Ret (DONE, set_currentScan (set_failedScans (set_nodes st l) fails) None)
      | host :: q =>
          let scan := set_hostsToScan scan q in
          let scan := set_waitingFor scan (hset_insert host (waitingFor scan)) in
          let scan := set_triedHosts scan (hset_insert host (triedHosts scan)) in
          Ret (CONTACT_HOST host, put_scan st p scan)
      end.

Definition failedHost (r : Refresher) (host : HostAndPort) (st : SetState) : M SetState :=
  scan ← get_scan st (r_scan r);
  let scan := set_waitingFor scan (hset_erase host (waitingFor scan)) in
  let st := put_scan st (r_scan r) scan in
  let st := if is_nil (waitingFor scan) then notify_all st else st in
  Ret (set_nodes st (mark_node_failed (nodes st) host)).

Definition clear_master (n : Node) : Node :=
  mkNode (n_host n) (n_isUp n) false (n_latencyMicros n) (n_tags n).

Fixpoint create_nodes (l : list Node) (hosts : hset) : list Node :=
  match hosts with
  | [] => l
  | h :: hosts' => let '(a, n, b) := findOrCreateNode l h in create_nodes (a ++ n :: b) hosts'
  end.

Fixpoint update_confirmed (l : list Node) (rs : list IsMasterReply) : M (list Node) :=
  match rs with
  | [] => Ret l
  | r :: rs' => l ← updateNodeIfInNodes l r; update_confirmed l rs'
  end.

(** A master that does not agree with the list of nodes: non-members go, new
    members come, the queue is replaced by the untried members. *)
Definition adjust_members (reply : IsMasterReply) (scan : ScanState) (rand : PseudoRandom) (l : list Node)
    : M (list Node * ScanState * PseudoRandom) :=
  if negb ((zlen l =? zlen (r_normalHosts reply)) && equal_hosts n_host l (r_normalHosts reply)) then
    let l := List.filter (fun n => hset_count (n_host n) (r_normalHosts reply)) l in
    let l := create_nodes l (r_normalHosts reply) in
    '(scan, rand) ← enqueAllUntriedHosts (set_hostsToScan scan []) (r_normalHosts reply) rand;
    let scan :=
      if negb (is_nil (waitingFor scan)) then
        set_waitingFor scan (set_intersection (r_normalHosts reply) (waitingFor scan))
      else scan in
    Ret (l, scan, rand)
  else Ret (l, scan, rand).

Definition receivedIsMasterFromMaster (r : Refresher) (reply : IsMasterReply) (st : SetState) : M SetState :=
  invariant (r_isMaster reply);;
  scan ← get_scan st (r_scan r);
  let l := clear_master <$> nodes st in
  '(l, scan, rand) ← adjust_members reply scan (s_rand st) l;
  let st := put_scan (set_rand (set_nodes st l) rand) (r_scan r) scan in
  let st := if negb (hset_eq (r_normalHosts reply) (seedNodes st))
            then set_seedNodes st (r_normalHosts reply) else st in
  l ← update_confirmed (nodes st) (unconfirmedReplies scan);
  let scan := set_foundUpMaster (set_unconfirmed scan []) true in
  Ret (set_lastSeenMaster (put_scan (set_nodes st l) (r_scan r) scan) (r_host reply)).

Definition receivedIsMasterBeforeFoundMaster (r : Refresher) (reply : IsMasterReply) (st : SetState)
    : M SetState :=
  invariant (negb (r_isMaster reply));;
  scan ← get_scan st (r_scan r);
  let scan := set_possibleNodes scan (hset_insert_all (r_normalHosts reply) (possibleNodes scan)) in
  let scan :=
    if negb (HostAndPort_empty (r_primary reply)) && negb (hset_count (r_primary reply) (triedHosts scan))
    then
      let q := stable_partition (hostIs (r_primary reply)) (hostsToScan scan) in
      if is_nil (List.filter (hostIs (r_primary reply)) (hostsToScan scan))
      then set_hostsToScan scan (r_primary reply :: q)
      else set_hostsToScan scan q
    else scan in
  Ret (put_scan st (r_scan r) scan).

(** A reply from a member of the set: the rest of [receivedIsMaster]. *)
Definition accept_reply (r : Refresher) (reply : IsMasterReply) (st : SetState) : M SetState :=
  st ← (if r_isMaster reply then receivedIsMasterFromMaster r reply st else Ret st);
  scan ← get_scan st (r_scan r);
  st ← (if foundUpMaster scan then
          l ← updateNodeIfInNodes (nodes st) reply;
          Ret (set_nodes st l)
        else
          st ← receivedIsMasterBeforeFoundMaster r reply st;
          scan ← get_scan st (r_scan r);
          Ret (put_scan st (r_scan r) (set_unconfirmed scan (unconfirmedReplies scan ++ [reply]))));
  scan ← get_scan st (r_scan r);
  Ret (notify_all (put_scan st (r_scan r) (set_foundAnyUpNodes scan true))).

Definition receivedIsMaster (r : Refresher) (from : HostAndPort) (latencyMicros : Z) (replyObj : BSONObj)
    (st : SetState) : M SetState :=
  scan ← get_scan st (r_scan r);
  let st := put_scan st (r_scan r) (set_waitingFor scan (hset_erase from (waitingFor scan))) in
  reply ← IsMasterReply_parse from latencyMicros replyObj;
  if negb (r_ok reply) then failedHost r from st
  else if negb (bool_decide (r_setName reply = s_name st)) then failedHost r from st
  else accept_reply r reply st.

(** ** The loop of _refreshUntilMatches *)

(** How the loop gives the mutex up: by returning, by waiting on the condition
    variable, or to contact a host. *)
Inductive Outcome := Return (h : HostAndPort) | Wait | Contact (h : HostAndPort).

Section loop.
Context (useDeterministicHostSelection : bool).

Definition matching_or_empty (criteria : option ReadPreferenceSetting) (st : SetState)
    : M (HostAndPort * SetState) :=
  match criteria with
  | Some c => getMatchingHost useDeterministicHostSelection st c
  | None => Ret (HostAndPort_default, st)
  end.

(** From the top of the loop. *)
Definition refresh_top (r : Refresher) (criteria : option ReadPreferenceSetting) (st : SetState)
    : M (Outcome * SetState) :=
  '(out, st) ← matching_or_empty criteria st;
  if negb (HostAndPort_empty out) then Ret (Return out, st)
  else
    '(ns, st) ← getNextStep r st;
    match ns with
    | DONE => '(out, st) ← matching_or_empty criteria st; Ret (Return out, st)
    | WAIT => Ret (Wait, st)
    | CONTACT_HOST h => Ret (Contact h, st)
    end.

(** From the return of [timedIsMaster], [reply] being empty on error. *)
Definition refresh_reply (r : Refresher) (criteria : option ReadPreferenceSetting) (host : HostAndPort)
    (pingMicros : Z) (reply : BSONObj) (st : SetState) : M (Outcome * SetState) :=
  if negb (bool_decide (currentScan st = Some (r_scan r))) then
    '(out, st) ← matching_or_empty criteria st; Ret (Return out, st)
  else
    st ← (if is_nil reply then failedHost r host st
          else receivedIsMaster r host pingMicros reply st);
    refresh_top r criteria st.
End loop.

(** ** Queues *)

Lemma hsorted_nodup {A} (f : A -> HostAndPort) l : hsorted f l -> NoDup (key f <$> l).
Proof.
  induction 1 as [|x l Hl IH Hx]; cbn; [constructor|]. constructor; [|done].
  intros (y & E & Hy)%list_elem_of_fmap. rewrite Forall_forall in Hx. specialize (Hx y Hy).
  rewrite <-E in Hx. by apply key_lt_irrefl in Hx.
Qed.

Lemma filter_partition_perm {A} (f : A -> bool) (l : list A) : stable_partition f l ≡ₚ l.
Proof.
  unfold stable_partition. induction l as [|x l IH]; cbn; [done|]. destruct (f x); cbn.
  - by rewrite IH.
  - by rewrite <-Permutation_middle, IH.
Qed.

Lemma queue_nodes_perm l q k : (queue_nodes l q k).1 ≡ₚ (n_host <$> l) ++ q.
Proof.
  revert q k. induction l as [|n l IH]; intros q k; cbn; [done|]. destruct (n_isUp n); rewrite IH.
  - by rewrite Permutation_middle.
  - rewrite (Permutation_app_comm q [n_host n]). cbn. by rewrite Permutation_middle.
Qed.

Lemma elem_of_filter_bool {A} (f : A -> bool) (l : list A) x :
  x ∈ List.filter f l <-> f x = true /\ x ∈ l.
Proof. rewrite !list_elem_of_In, List.filter_In. tauto. Qed.

Lemma hp_nodup_perm (q q' : list HostAndPort) : q ≡ₚ q' -> NoDup (hp_key <$> q) -> NoDup (hp_key <$> q').
Proof. intros Hp. by rewrite Hp. Qed.

Lemma wf_new_scan q :
  Forall named q -> NoDup (hp_key <$> q) -> wf_scan (set_hostsToScan ScanState_ctor q).
Proof.
  intros Hn Hd. constructor; cbn; try done; try constructor.
Qed.

Lemma startNewScan_ok st : wf_state st ->
  exists s r, startNewScan st = Ret (s, r) /\ wf_scan s /\ wf_random r /\
    hostsToScan s ≡ₚ n_host <$> nodes st /\ waitingFor s = [] /\ triedHosts s = [].
Proof.
  intros Hst. unfold startNewScan. pose proof (queue_nodes_perm (nodes st) [] 0) as Hq.
  destruct (queue_nodes (nodes st) [] 0) as [q up]. cbn [fst] in Hq. rewrite app_nil_r in Hq.
  destruct (random_shuffle_perm (take up q) (s_rand st)) as (u & r1 & -> & Hu & Hr1); [apply Hst|].
  cbn [mbind result_bind].
  destruct (random_shuffle_perm (drop up q) r1) as (d & r2 & -> & Hd & Hr2); [done|].
  cbn [mbind result_bind].
  assert (u ++ d ≡ₚ q) as Hud by (by rewrite Hu, Hd, take_drop). clear Hu Hd.
  set (q' := if negb _ then _ else _).
  assert (q' ≡ₚ n_host <$> nodes st) as Hq'.
  { rewrite <-Hq, <-Hud. unfold q'. destruct (negb _); [apply filter_partition_perm|done]. }
  clearbody q'. eexists _, r2. split; [done|]. split_and!; try done. apply wf_new_scan.
  - rewrite Hq'. apply Forall_forall. intros h (n & -> & Hn)%list_elem_of_fmap. by eapply node_named.
  - eapply hp_nodup_perm; [by symmetry|]. rewrite <-list_fmap_compose.
    apply (hsorted_nodup n_host), Hst.
Qed.

Lemma wf_set_hostsToScan s q :
  wf_scan s -> Forall named q -> NoDup (hp_key <$> q) ->
  (forall h, h ∈ q -> hp_key h ∉ hkeys (triedHosts s)) -> wf_scan (set_hostsToScan s q).
Proof. intros [? ? ? ? ? ? ? ? ? ?] ? ? ?. by constructor. Qed.

Lemma enque_ok s container rand :
  wf_scan s -> hostsToScan s = [] -> hs_sorted container -> Forall named container -> wf_random rand ->
  exists q r, enqueAllUntriedHosts s container rand = Ret (set_hostsToScan s q, r) /\
    wf_scan (set_hostsToScan s q) /\ wf_random r /\
    forall h, h ∈ q <-> h ∈ container /\ hp_key h ∉ hkeys (triedHosts s).
Proof.
  intros Hs Hnil Hc Hn Hr. unfold enqueAllUntriedHosts. rewrite Hnil.
  cbn [is_nil invariant guard_throw mbind result_bind].
  set (l := List.filter _ container).
  destruct (random_shuffle_perm l rand Hr) as (q & r & -> & Hp & Hr'). cbn [mbind result_bind].
  assert (forall h, h ∈ q <-> h ∈ container /\ hp_key h ∉ hkeys (triedHosts s)) as Hq.
  { intros h. rewrite Hp. unfold l. rewrite elem_of_filter_bool, negb_true_iff.
    rewrite hset_count_false by apply Hs. tauto. }
  exists q, r. split; [done|]. split; [|done]. apply wf_set_hostsToScan; [done| | |].
  - apply Forall_forall. intros h Hh%Hq. rewrite Forall_forall in Hn. apply Hn, Hh.
  - eapply hp_nodup_perm; [by symmetry|]. unfold l.
    pose proof (hsorted_nodup id container Hc) as Hd. clear -Hd.
    induction container as [|h c IH]; [constructor|]. cbn in *. apply NoDup_cons in Hd as [Hh Hd].
    destruct (negb _); [|auto]. cbn. constructor; [|auto].
    intros (x & E & Hx%elem_of_filter_bool)%list_elem_of_fmap. apply Hh.
    change (key id h) with (hp_key h). rewrite E. apply list_elem_of_fmap. exists x. tauto.
  - intros h Hh%Hq. tauto.
Qed.

(** ** Nodes *)

Lemma nodes_ok_no_master last last' l :
  nodes_ok last l -> (forall n, n ∈ l -> n_isMaster n = false) -> nodes_ok last' l.
Proof. intros [? ? _] Hn. constructor; [done|done|]. intros n Hin Hm. by rewrite Hn in Hm. Qed.

Lemma apply_unconfirmed_ok last l rs :
  nodes_ok last l -> Forall (fun r => wf_reply r /\ r_ok r = true /\ r_isMaster r = false) rs ->
  exists l', apply_unconfirmed l rs = Ret l' /\ nodes_ok last l' /\ keys n_host l ⊆ keys n_host l' /\
    zlen l' <= zlen l + zlen rs.
Proof.
  intros Hl Hrs. revert l Hl. induction Hrs as [|r rs (Hr & Hok & Hm) Hrs IH]; intros l Hl;
    cbn [apply_unconfirmed]; [exists l; split_and!; try done; unfold zlen; lia|].
  pose proof (findOrCreateNode_spec l (r_host r) last Hl (wr_host r Hr)) as Hf.
  destruct (findOrCreateNode l (r_host r)) as [[a n] b]. destruct Hf as (Hok' & Hk & Heq & Hlen).
  assert (zlen (a ++ n :: b) <= zlen l + 1) as Hlen'.
  { destruct Hlen as [->|(-> & _)]; rewrite !zlen_app, ?zlen_cons; lia. }
  destruct (nodes_ok_app _ _ _ _ Hok') as (Hn & _).
  destruct (Node_update_spec n r Hn Hr Hok Heq) as (lat & -> & Hw & _). cbn [mbind result_bind].
  set (n' := mkNode _ _ _ _ _) in *.
  destruct (nodes_ok_replace last a n n' b Hok' eq_refl Hw) as [Hl' Hk'].
  { cbn. congruence. }
  destruct (IH _ Hl') as (l' & -> & Hl2 & Hk2 & Hlen2). exists l'. split; [done|]. split; [done|]. split.
  - rewrite Hk', Hk in Hk2. clear -Hk2. set_solver.
  - rewrite (zlen_app a), !zlen_cons in *. lia.
Qed.

Lemma create_nodes_ok last l hosts :
  nodes_ok last l -> Forall named hosts ->
  nodes_ok last (create_nodes l hosts) /\ keys n_host (create_nodes l hosts) = keys n_host l ∪ hkeys hosts /\
  ((forall n, n ∈ l -> n_isMaster n = false) -> forall n, n ∈ create_nodes l hosts -> n_isMaster n = false).
Proof.
  intros Hl Hh. revert l Hl. induction Hh as [|h hosts Hh Hhs IH]; intros l Hl; cbn [create_nodes].
  { split; [done|]. split; [|done]. rewrite keys_nil. by rewrite (right_id_L ∅ (∪)). }
  pose proof (findOrCreateNode_spec l h last Hl Hh) as Hf.
  destruct (findOrCreateNode l h) as [[a n] b]. destruct Hf as (Hok & Hk & _ & Hor).
  destruct (IH _ Hok) as (H1 & H2 & H3). split; [done|]. split.
  - rewrite H2, Hk, keys_cons. change (key id h) with (hp_key h).
    rewrite (comm_L (∪) {[hp_key h]} (keys n_host l)). by rewrite (assoc_L (∪)).
  - intros Hm. apply H3. destruct Hor as [El|(El & -> & _)]; [by rewrite <-El|].
    intros x Hx. assert (x = Node_ctor h \/ x ∈ l) as [->|Hx']; [|done|by apply Hm].
    subst l. set_solver.
Qed.

Lemma update_confirmed_ok last l rs :
  nodes_ok last l -> Forall (fun r => wf_reply r /\ r_ok r = true /\ r_isMaster r = false) rs ->
  exists l', update_confirmed l rs = Ret l' /\ nodes_ok last l' /\ keys n_host l' = keys n_host l.
Proof.
  intros Hl Hrs. revert l Hl. induction Hrs as [|r rs (Hr & Hok & Hm) Hrs IH]; intros l Hl;
    cbn [update_confirmed]; [by exists l|].
  destruct (updateNodeIfInNodes_ok last l r Hl Hr Hok) as (l1 & -> & Hl1 & Hk1).
  { intros H. congruence. }
  cbn [mbind result_bind]. destruct (IH _ Hl1) as (l' & -> & Hl' & Hk'). exists l'.
  split_and!; [done|done|congruence].
Qed.

Lemma clear_master_ok last last' l : nodes_ok last l ->
  nodes_ok last' (clear_master <$> l) /\ keys n_host (clear_master <$> l) = keys n_host l /\
  (forall n, n ∈ clear_master <$> l -> n_isMaster n = false).
Proof.
  intros [Hs Hw _].
  assert (forall n, n ∈ clear_master <$> l -> n_isMaster n = false) as Hm
    by (by intros n (m & -> & _)%list_elem_of_fmap).
  split; [|split; [|done]].
  - constructor.
    + induction Hs as [|n l Hs IH Hn]; cbn; [constructor|]. apply List.Forall_cons_iff in Hw as [_ Hw].
      apply hsorted_cons. split; [by apply IH; [|intros x Hx; apply Hm; set_solver]|].
      apply Forall_fmap. exact Hn.
    + apply Forall_fmap. eapply Forall_impl; [exact Hw|]. intros n [? ? ? ?]. by constructor.
    + intros n Hn Hmn. by rewrite Hm in Hmn.
  - unfold keys. by rewrite <-list_fmap_compose.
Qed.

Lemma filter_nodes_ok last l hosts : nodes_ok last l -> hs_sorted hosts ->
  let l' := List.filter (fun n => hset_count (n_host n) hosts) l in
  nodes_ok last l' /\ keys n_host l' = keys n_host l ∩ hkeys hosts /\ (forall n, n ∈ l' -> n ∈ l).
Proof.
  intros [Hs Hw Hm] Hh l'.
  assert (forall n, n ∈ l' <-> n ∈ l /\ hp_key (n_host n) ∈ hkeys hosts) as Hin.
  { intros n. unfold l'. rewrite elem_of_filter_bool, hset_count_spec by done. tauto. }
  split; [|split].
  - constructor.
    + unfold l'. clear Hin l' Hw Hm. induction Hs as [|n l Hs IH Hn]; cbn; [constructor|].
      destruct (hset_count _ _); [|done]. apply hsorted_cons. split; [done|].
      apply Forall_forall. intros x Hx%elem_of_filter_bool. rewrite Forall_forall in Hn.
      apply Hn. tauto.
    + apply Forall_forall. intros n Hn%Hin. rewrite Forall_forall in Hw. apply Hw. tauto.
    + intros n Hn%Hin. apply Hm. tauto.
  - apply set_eq. intros k. rewrite elem_of_intersection, (elem_of_keys n_host k l'), (elem_of_keys n_host k l). split.
    + intros (n & -> & Hn%Hin). split; [exists n; tauto|]. apply Hn.
    + intros [(n & -> & Hn) Hk]. exists n. split; [done|]. apply Hin. tauto.
  - intros n Hn%Hin. tauto.
Qed.

(** ** Keeping the invariant *)

Lemma wf_put_scan st p s : wf_state st -> wf_scan s -> wf_state (put_scan st p s).
Proof.
  intros [? ? ? Hc Hs ?] Hw. constructor; cbn; try done.
  - intros q Hq. destruct (Hc q Hq) as [x Hx]. destruct (decide (p = q)) as [->|Hne].
    + rewrite lookup_insert_eq. by eexists.
    + rewrite lookup_insert_ne by done. by eexists.
  - intros q x. destruct (decide (p = q)) as [->|Hne].
    + rewrite lookup_insert_eq. by intros [= <-].
    + rewrite lookup_insert_ne by done. apply Hs.
Qed.

Lemma wf_set_nodes st l : wf_state st -> nodes_ok (lastSeenMaster st) l ->
  hkeys (seedNodes st) ⊆ keys n_host l -> wf_state (set_nodes st l).
Proof. intros [? ? ? ? ? ?] ? ?. by constructor. Qed.

Lemma wf_set_rand st r : wf_state st -> wf_random r -> wf_state (set_rand st r).
Proof. intros [? ? ? ? ? ?] ?. by constructor. Qed.

Lemma wf_notify_all st : wf_state st -> wf_state (notify_all st).
Proof. intros [? ? ? ? ? ?]. by constructor. Qed.

Lemma wf_finish st n : wf_state st -> wf_state (set_currentScan (set_failedScans st n) None).
Proof. intros [? ? ? ? ? ?]. by constructor. Qed.

Lemma wf_set_seeds st s : wf_state st -> hs_sorted s -> hkeys s ⊆ keys n_host (nodes st) ->
  wf_state (set_seedNodes st s).
Proof. intros [? ? ? ? ? ?] ? ?. by constructor. Qed.

Lemma wf_set_master st h : wf_state st -> nodes_ok h (nodes st) -> wf_state (set_lastSeenMaster st h).
Proof. intros [? ? ? ? ? ?] ?. by constructor. Qed.

Lemma wf_set_waitingFor s l : wf_scan s -> hs_sorted l -> hkeys l ⊆ hkeys (triedHosts s) ->
  wf_scan (set_waitingFor s l).
Proof. intros [? ? ? ? ? ? ? ? ? ?] ? ?. by constructor. Qed.

Lemma get_scan_lookup st p s : scans st !! p = Some s -> get_scan st p = Ret s.
Proof. unfold get_scan. by intros ->. Qed.

Lemma scans_put st p s : scans (put_scan st p s) !! p = Some s.
Proof. apply lookup_insert_eq. Qed.

Lemma hset_nil (s : hset) : s = [] <-> hkeys s = ∅.
Proof.
  split; [by intros ->|]. destruct s as [|h s]; [done|]. rewrite keys_cons. intros E.
  exfalso. assert (key id h ∈ (∅ : gset hkey)) as H; [rewrite <-E; set_solver|].
  by apply elem_of_empty in H.
Qed.

(** What an operation of one refresher leaves alone. *)
Definition frame_scan (p : nat) (st st' : SetState) : Prop :=
  (forall q, q <> p -> scans st' !! q = scans st !! q) /\ s_name st' = s_name st.

Lemma frame_refl p st : frame_scan p st st.
Proof. done. Qed.
Lemma frame_put p st s : frame_scan p st (put_scan st p s).
Proof. split; [|done]. intros q Hq. cbn. by rewrite lookup_insert_ne. Qed.
Lemma frame_trans p a b c : frame_scan p a b -> frame_scan p b c -> frame_scan p a c.
Proof. intros [H1 H2] [H3 H4]. split; [|congruence]. intros q Hq. by rewrite H3, H1. Qed.

(** ** getNextStep *)

(** The hosts a scan may still contact without hearing of new ones. *)
Definition known (s : ScanState) : gset hkey := hkeys (hostsToScan s) ∪ hkeys (possibleNodes s).

Lemma pop_host s h q : wf_scan s -> hostsToScan s = h :: q ->
  let s' := set_triedHosts (set_waitingFor (set_hostsToScan s q) (hset_insert h (waitingFor s)))
              (hset_insert h (triedHosts s)) in
  wf_scan s' /\ named h /\ hp_key h ∉ hkeys (triedHosts s) /\
  hkeys (triedHosts s') = {[hp_key h]} ∪ hkeys (triedHosts s) /\
  hkeys (waitingFor s') = {[hp_key h]} ∪ hkeys (waitingFor s).
Proof.
  intros [Hp Hw Ht Hn Hpn Hd Hu Hwt Hm Hr] E s'. rewrite E in *.
  apply List.Forall_cons_iff in Hn as [Hnh Hn]. cbn [fmap list_fmap] in Hd.
  apply NoDup_cons in Hd as [Hdh Hd].
  destruct (hset_insert_spec h (waitingFor s) Hw) as [Hw' Hwk].
  destruct (hset_insert_spec h (triedHosts s) Ht) as [Ht' Htk].
  split; [|split_and!; [done|apply Hu, list_elem_of_here|done|done]]. constructor; cbn; try done.
  - intros x Hx. rewrite Htk. intros [Hin|Hin]%elem_of_union.
    + apply elem_of_singleton in Hin. apply Hdh. rewrite <-Hin. by apply list_elem_of_fmap_2.
    + eapply Hu; [by apply list_elem_of_further|done].
  - rewrite Hwk, Htk. by apply union_mono_l.
Qed.

(** What is left to contact after [h]: the queue and, as long as no master is found, the
    hosts other nodes named. *)
Definition contacted (h : HostAndPort) (s s' : ScanState) : Prop :=
  foundUpMaster s' = foundUpMaster s /\
  hkeys (hostsToScan s) ⊆ {[hp_key h]} ∪ hkeys (hostsToScan s') /\
  (foundUpMaster s = false -> known s ⊆ {[hp_key h]} ∪ known s' ∪ hkeys (triedHosts s)).
(** Nothing is left to contact: nothing queued, and a master was found or every host that
    other nodes named has been tried. *)
Definition exhausted (s : ScanState) : Prop :=
  hostsToScan s = [] /\ (foundUpMaster s = true \/ hkeys (possibleNodes s) ⊆ hkeys (triedHosts s)).

(** The queue loses no host, unless a master ([ms]) tells who the members are. *)
Definition covers (ms : Prop) (s s' : ScanState) : Prop :=
  (ms /\ foundUpMaster s' = true) \/
  (foundUpMaster s' = foundUpMaster s /\ hkeys (hostsToScan s) ⊆ hkeys (hostsToScan s')).

Definition next_post (p : nat) (st : SetState) (ns : NextStep) (st' : SetState) : Prop :=
  match ns with
  | WAIT => st' = st /\ currentScan st = Some p /\
      exists s, scans st !! p = Some s /\ hostsToScan s = [] /\ waitingFor s <> []
  | DONE => currentScan st' <> Some p /\
      (st' = st \/ (currentScan st = Some p /\ currentScan st' = None /\
         exists s s', scans st !! p = Some s /\ scans st' !! p = Some s' /\
           exhausted s /\ waitingFor s = [] /\ triedHosts s' = triedHosts s))
  | CONTACT_HOST h => named h /\ currentScan st = Some p /\ currentScan st' = Some p /\
      exists s s', scans st !! p = Some s /\ scans st' !! p = Some s' /\
        ~ (hostsToScan s = [] /\ waitingFor s <> []) /\
        hp_key h ∉ hkeys (triedHosts s) /\ hp_key h ∈ known s /\
        hkeys (triedHosts s') = {[hp_key h]} ∪ hkeys (triedHosts s) /\
        hkeys (waitingFor s') = {[hp_key h]} ∪ hkeys (waitingFor s) /\
        known s' ⊆ known s /\ contacted h s s'
  end.

Definition fails_ok (st : SetState) : Prop := 0 <= consecutiveFailedScans st < int_max int32.

Lemma known_queue s h : h ∈ hostsToScan s -> hp_key h ∈ known s.
Proof. intros Hh. apply elem_of_union. left. apply elem_of_keys. by exists h. Qed.

(** The queue after the hosts that other nodes reported are added. *)
Lemma refill_ok st s : wf_state st -> wf_scan s ->
  exists s1 r,
    (if is_nil (hostsToScan s) && negb (foundUpMaster s) then
       '(scan, rand) ← enqueAllUntriedHosts s (possibleNodes s) (s_rand st);
       Ret (set_possibleNodes scan [], rand)
     else Ret (s, s_rand st)) = Ret (s1, r) /\
    wf_scan s1 /\ wf_random r /\ triedHosts s1 = triedHosts s /\ waitingFor s1 = waitingFor s /\
    known s1 ⊆ known s /\ unconfirmedReplies s1 = unconfirmedReplies s /\
    foundUpMaster s1 = foundUpMaster s /\ foundAnyUpNodes s1 = foundAnyUpNodes s /\
    (hostsToScan s1 = [] -> exhausted s) /\
    (hostsToScan s1 = hostsToScan s \/ hostsToScan s = []) /\
    known s ⊆ known s1 ∪ hkeys (triedHosts s).
Proof.
  intros Hst Hs. destruct (is_nil (hostsToScan s) && negb (foundUpMaster s)) eqn:E.
  - apply andb_prop in E as [En _]. assert (hostsToScan s = []) as Hnil by (by destruct (hostsToScan s)).
    destruct (enque_ok s (possibleNodes s) (s_rand st) Hs Hnil) as (q & r & -> & Hw & Hr & Hq);
      [apply Hs|apply Hs|apply Hst|]. cbn [mbind result_bind].
    assert (hkeys (possibleNodes s) ⊆ hkeys q ∪ hkeys (triedHosts s)) as Hall.
    { intros k (h & -> & Hh)%elem_of_keys. destruct (decide (key id h ∈ hkeys (triedHosts s))) as [Ht|Ht]; [by apply elem_of_union_r|].
      apply elem_of_union_l, elem_of_keys. exists h. split; [done|]. by apply Hq. }
    exists (set_possibleNodes (set_hostsToScan s q) []), r. split; [done|].
    split; [|split_and!; try done; [| |by right|]].
    + destruct Hw as [? ? ? ? ? ? ? ? ? ?]. by constructor; try done; constructor.
    + unfold known. cbn. intros k [Hk|Hk]%elem_of_union; [|by apply elem_of_empty in Hk].
      apply elem_of_keys in Hk as (h & -> & [Hh _]%Hq). apply elem_of_union. right.
      apply elem_of_keys. by exists h.
    + cbn. intros ->. split; [done|]. right. by rewrite keys_nil, (left_id_L ∅ (∪)) in Hall.
    + unfold known. cbn. rewrite Hnil, keys_nil, (left_id_L ∅ (∪)), (right_id_L ∅ (∪)). exact Hall.
  - exists s, (s_rand st). split; [done|]. split_and!; try done; [apply Hst| |by left|apply union_subseteq_l].
    intros Hnil. rewrite Hnil in E. cbn in E. split; [done|]. left. by destruct (foundUpMaster s).
Qed.

(** How many replies a scan has kept for later. *)
Definition pending (st : SetState) (p : nat) : Z :=
  match scans st !! p with Some s => zlen (unconfirmedReplies s) | None => 0 end.

Lemma pending_nonneg st p : 0 <= pending st p.
Proof. unfold pending. destruct (scans st !! p); [apply zlen_nonneg|done]. Qed.

(** The steps of a scan: only counting the failed scans can go wrong. *)
Definition step_post (r : Refresher) (st : SetState) (ns : NextStep) (st' : SetState) : Prop :=
  wf_state st' /\ cv st' = cv st /\ frame_scan (r_scan r) st st' /\
  0 <= consecutiveFailedScans st' <= consecutiveFailedScans st + 1 /\
  (ns <> DONE -> consecutiveFailedScans st' = consecutiveFailedScans st) /\
  zlen (nodes st') <= zlen (nodes st) + pending st (r_scan r) /\
  next_post (r_scan r) st ns st'.

Lemma failed_scans_cases (up : bool) n : 0 <= n ->
  (exists k, (if up then Ret 0 else int_result (n + 1)) = Ret k /\ 0 <= k <= n + 1) \/
  (int_max int32 <= n /\ (if up then Ret 0 else int_result (n + 1)) = Throw EUndefined).
Proof.
  intros Hn. destruct up; [left; exists 0; split; [done|lia]|]. unfold int_result.
  destruct (bool_decide (in_range int32 (n + 1))) eqn:E.
  - left. exists (n + 1). split; [done|lia].
  - right. split; [|done]. apply bool_decide_eq_false in E. unfold in_range in E.
    change (int_min int32) with (-2147483648) in E. change (int_max int32) with 2147483647 in *. lia.
Qed.

Lemma getNextStep_cases r st : wf_state st -> 0 <= consecutiveFailedScans st ->
  (exists ns st', getNextStep r st = Ret (ns, st') /\ step_post r st ns st') \/
  (int_max int32 <= consecutiveFailedScans st /\ getNextStep r st = Throw EUndefined).
Proof.
  intros Hst Hf. unfold getNextStep, step_post. pose proof (pending_nonneg st (r_scan r)) as Hpend.
  set (p := r_scan r) in *.
  destruct (decide (currentScan st = Some p)) as [Hc|Hc].
  2:{ rewrite bool_decide_eq_false_2 by done. left. exists DONE, st. split; [done|]. split; [done|].
      split_and!; try done; [lia|lia|]. split; [done|by left]. }
  rewrite bool_decide_eq_true_2 by done. cbn [negb].
  destruct (wst_scan st Hst p Hc) as [s Es]. rewrite (get_scan_lookup st p s Es). cbn [mbind result_bind].
  pose proof (wst_scans st Hst p s Es) as Hs.
  destruct (is_nil (hostsToScan s) && negb (is_nil (waitingFor s))) eqn:Ew.
  { apply andb_prop in Ew as [E1 E2]. left. exists WAIT, st. split; [done|]. split; [done|].
    split_and!; try done; [lia|lia|]. split; [done|]. split; [done|]. exists s.
    destruct (hostsToScan s); [|done]. destruct (waitingFor s); done. }
  destruct (refill_ok st s Hst Hs) as (s1 & rand & -> & Hs1 & Hr & Ht1 & Hw1 & Hk1 & Hu1 & Hm1 & Ha1 & Hn1 & Hq1 & Hall).
  cbn [mbind result_bind].
  assert (wf_state (put_scan (set_rand st rand) p s1)) as Hst1 by (by apply wf_put_scan; [apply wf_set_rand|]).
  assert (frame_scan p st (put_scan (set_rand st rand) p s1)) as Hfr.
  { split; [|done]. intros q Hq. cbn. by rewrite lookup_insert_ne. }
  destruct (hostsToScan s1) as [|h q] eqn:Eq.
  - (* no host left *)
    assert (waitingFor s = []) as Hwnil.
    { rewrite (proj1 (Hn1 eq_refl)) in Ew. cbn in Ew. by destruct (waitingFor s). }
    assert (exists l, (if negb (foundUpMaster s1)
        then apply_unconfirmed (nodes (put_scan (set_rand st rand) p s1)) (unconfirmedReplies s1)
        else Ret (nodes (put_scan (set_rand st rand) p s1))) = Ret l /\
        nodes_ok (lastSeenMaster st) l /\ keys n_host (nodes st) ⊆ keys n_host l /\
        zlen l <= zlen (nodes st) + pending st p) as (l & -> & Hl & Hlk & Hlen).
    { cbn [nodes put_scan set_rand].
      destruct (negb (foundUpMaster s1)); [|exists (nodes st); split; [done|]; split; [apply Hst|split; [done|lia]]].
      destruct (apply_unconfirmed_ok (lastSeenMaster st) (nodes st) (unconfirmedReplies s1))
        as (l & -> & Hl & Hlk & Hlen); [apply Hst|apply Hs1|]. exists l. unfold pending. rewrite Es, <-Hu1.
      done. }
    cbn [mbind result_bind consecutiveFailedScans put_scan set_rand].
    destruct (failed_scans_cases (foundAnyUpNodes s1) (consecutiveFailedScans st) Hf)
      as [(n & -> & Hn)|[Hmax ->]]; [|by right].
    cbn [mbind result_bind]. left. exists DONE. eexists. split; [done|]. split.
    { apply wf_finish, wf_set_nodes; [done|done|]. etrans; [apply Hst1|]. done. }
    split; [done|]. split; [exact Hfr|]. split; [cbn; lia|]. split; [done|]. split; [exact Hlen|].
    split; [done|]. right. split; [done|]. split; [done|].
    exists s, s1. split; [done|]. split; [apply scans_put|]. split; [by apply Hn1|done].
  - destruct (pop_host s1 h q Hs1 Eq) as (Hs' & Hnm & Hnt & Ht' & Hw').
    left. exists (CONTACT_HOST h). eexists. split; [done|]. split; [by apply wf_put_scan|].
    split; [done|]. split; [eapply frame_trans; [exact Hfr|apply frame_put]|].
    split; [cbn; lia|]. split; [done|]. split; [cbn; lia|]. split; [done|]. split; [done|]. split; [done|].
    exists s. eexists. split; [done|]. split; [apply scans_put|]. split.
    { intros [En Hne]. rewrite En in Ew. cbn in Ew. by destruct (waitingFor s). }
    rewrite <-Ht1, <-Hw1. split; [done|]. split.
    { apply Hk1, known_queue. rewrite Eq. apply list_elem_of_here. }
    split; [exact Ht'|]. split; [exact Hw'|]. split.
    { etrans; [|exact Hk1]. unfold known. cbn.
      rewrite Eq. apply union_mono_r. rewrite keys_cons. apply union_subseteq_r. }
    split; [exact Hm1|]. split; [|].
    + destruct Hq1 as [Hq1|Hq1]; [|rewrite Hq1; apply empty_subseteq]. rewrite <-Hq1, keys_cons. done.
    + intros _. etrans; [exact Hall|]. apply union_mono_r. unfold known. cbn. rewrite Eq, keys_cons.
      by rewrite (assoc_L (∪)).
Qed.

(** ** Replies *)

(** What processing the reply of [from] does to the scan and to the condition
    variable: [from] is no longer waited for, nobody new is, the hosts to contact
    grow by those the reply names ([new]), and whoever may have to look again is
    notified. *)
Definition reply_hosts (reply : IsMasterReply) : gset hkey :=
  hkeys (r_normalHosts reply) ∪
  (if HostAndPort_empty (r_primary reply) then ∅ else {[hp_key (r_primary reply)]}).

Definition reply_post (p : nat) (from : HostAndPort) (new : gset hkey) (ms : Prop) (st st' : SetState) : Prop :=
  currentScan st' = currentScan st /\ frame_scan p st st' /\
  consecutiveFailedScans st' = consecutiveFailedScans st /\ roundRobin st' = roundRobin st /\
  exists s s', scans st !! p = Some s /\ scans st' !! p = Some s' /\
    hkeys (triedHosts s') = hkeys (triedHosts s) /\ known s' ⊆ known s ∪ new /\ covers ms s s' /\
    hkeys (waitingFor s') ⊆ hkeys (waitingFor s) ∖ {[hp_key from]} /\
    ((cv st' = cv st /\ hostsToScan s' = hostsToScan s /\ waitingFor s' <> [] /\
        hkeys (waitingFor s') = hkeys (waitingFor s) ∖ {[hp_key from]}) \/ (cv st < cv st')%nat).

Lemma erase_waiting s h : wf_scan s ->
  wf_scan (set_waitingFor s (hset_erase h (waitingFor s))) /\
  hkeys (hset_erase h (waitingFor s)) = hkeys (waitingFor s) ∖ {[hp_key h]}.
Proof.
  intros Hs. destruct (hset_erase_spec h (waitingFor s) (ws_waiting s Hs)) as [He Hk]. split; [|done].
  apply wf_set_waitingFor; [done|done|]. rewrite Hk. etrans; [apply subseteq_difference_l|]; [|reflexivity].
  apply Hs.
Qed.

Lemma failedHost_ok r h new ms st s : wf_state st -> scans st !! r_scan r = Some s ->
  exists st', failedHost r h st = Ret st' /\ wf_state st' /\ reply_post (r_scan r) h new ms st st'.
Proof.
  intros Hst Es. unfold failedHost. rewrite (get_scan_lookup _ _ _ Es). cbn [mbind result_bind].
  pose proof (wst_scans st Hst _ _ Es) as Hs. destruct (erase_waiting s h Hs) as [Hw Hk].
  set (s' := set_waitingFor s (hset_erase h (waitingFor s))) in *.
  set (st1 := if is_nil (waitingFor s') then _ else _).
  assert (wf_state st1 /\ nodes st1 = nodes st /\ lastSeenMaster st1 = lastSeenMaster st /\
    seedNodes st1 = seedNodes st /\ currentScan st1 = currentScan st /\ s_name st1 = s_name st /\
    consecutiveFailedScans st1 = consecutiveFailedScans st /\ roundRobin st1 = roundRobin st /\
    scans st1 = <[r_scan r := s']> (scans st) /\
    ((cv st1 = cv st /\ waitingFor s' <> []) \/ (cv st < cv st1)%nat))
    as (Hst1 & En & El & Esd & Ec & Enm & Ef & Err & Esc & Hcv).
  { unfold st1. destruct (waitingFor s') eqn:E; cbn [is_nil].
    - split; [by apply wf_notify_all, wf_put_scan|]. split_and!; try done. right. cbn. lia.
    - split; [by apply wf_put_scan|]. split_and!; try done. by left. }
  clearbody st1. destruct (mark_node_failed_ok (lastSeenMaster st1) (nodes st1) h) as [Hn Hnk]; [apply Hst1|].
  eexists. split; [done|]. split; [apply wf_set_nodes; [done|done|rewrite Hnk; apply Hst1]|].
  cbn. split; [done|]. split.
  { split; [|done]. intros q Hq. cbn. rewrite Esc. by rewrite lookup_insert_ne. }
  split; [done|]. split; [done|]. exists s, s'. split; [done|]. cbn.
  split; [rewrite Esc; apply lookup_insert_eq|]. split; [done|].
  split; [apply union_subseteq_l|]. split; [by right|].
  change (waitingFor s') with (hset_erase h (waitingFor s)) in *. rewrite Hk. split; [done|].
  destruct Hcv as [[? ?]|?]; [left|by right]. by split_and!.
Qed.

Lemma no_key_filter h q : List.filter (hostIs h) q = [] -> forall x, x ∈ q -> hp_key x <> hp_key h.
Proof.
  intros Hf x Hx Hk. assert (x ∈ List.filter (hostIs h) q) as H.
  { apply elem_of_filter_bool. split; [|done]. by apply HostAndPort_eq_key. }
  rewrite Hf in H. by apply not_elem_of_nil in H.
Qed.

Lemma BeforeFoundMaster_ok r reply st s :
  wf_state st -> scans st !! r_scan r = Some s -> wf_reply reply -> r_isMaster reply = false ->
  exists s', receivedIsMasterBeforeFoundMaster r reply st = Ret (put_scan st (r_scan r) s') /\
    wf_scan s' /\ triedHosts s' = triedHosts s /\ waitingFor s' = waitingFor s /\
    foundUpMaster s' = foundUpMaster s /\ unconfirmedReplies s' = unconfirmedReplies s /\
    known s' ⊆ known s ∪ reply_hosts reply /\ covers False s s'.
Proof.
  intros Hst Es Hr Hm. unfold receivedIsMasterBeforeFoundMaster. rewrite Hm.
  cbn [negb invariant guard_throw mbind result_bind]. rewrite (get_scan_lookup _ _ _ Es).
  cbn [mbind result_bind]. pose proof (wst_scans st Hst _ _ Es) as Hs.
  set (s1 := set_possibleNodes s _).
  assert (wf_scan s1) as Hs1.
  { destruct (hset_insert_all_spec (r_normalHosts reply) (possibleNodes s) (ws_possible s Hs)) as [Hp _].
    pose proof (hset_insert_all_named (r_normalHosts reply) (possibleNodes s) (wr_named reply Hr)
      (ws_possible_named s Hs)) as Hn.
    destruct Hs as [? ? ? ? ? ? ? ? ? ?]. by constructor. }
  assert (known s1 ⊆ known s ∪ hkeys (r_normalHosts reply)) as Hk1.
  { destruct (hset_insert_all_spec (r_normalHosts reply) (possibleNodes s) (ws_possible s Hs)) as [_ Hp].
    unfold known. cbn. rewrite Hp. unfold keys. change (key id) with hp_key. set_solver. }
  assert (known s ∪ hkeys (r_normalHosts reply) ⊆ known s ∪ reply_hosts reply) as Hsub.
  { unfold reply_hosts. rewrite (assoc_L (∪)). apply union_subseteq_l. }
  destruct (negb (HostAndPort_empty (r_primary reply)) && negb (hset_count (r_primary reply) (triedHosts s1))) eqn:E;
    [|exists s1; split; [done|]; split_and!; try done; [by etrans|by right]].
  apply andb_prop in E as [E1 E2]. apply negb_true_iff in E1, E2.
  apply hset_count_false in E2; [|apply Hs1].
  assert (named (r_primary reply)) as Hpn.
  { destruct (wr_primary reply Hr) as [Hd|?]; [|done]. by rewrite Hd in E1. }
  pose proof (filter_partition_perm (hostIs (r_primary reply)) (hostsToScan s1)) as Hp.
  assert (wf_scan (set_hostsToScan s1 (stable_partition (hostIs (r_primary reply)) (hostsToScan s1)))) as Hq.
  { apply wf_set_hostsToScan; [done|rewrite Hp; apply Hs1|eapply hp_nodup_perm; [by symmetry|apply Hs1]|].
    intros h. rewrite Hp. apply Hs1. }
  assert (forall q, hkeys q ⊆ known s1 ∪ {[hp_key (r_primary reply)]} ->
    known (set_hostsToScan s1 q) ⊆ known s ∪ reply_hosts reply) as Hkq.
  { intros q Hsq. assert (known s1 ∪ {[hp_key (r_primary reply)]} ⊆ known s ∪ reply_hosts reply) as H1.
    { unfold reply_hosts. rewrite E1. rewrite (assoc_L (∪)). by apply union_mono_r. }
    etrans; [|exact H1]. change (known (set_hostsToScan s1 q)) with (hkeys q ∪ hkeys (possibleNodes s1)).
    apply union_least; [done|]. unfold known. set_solver. }
  assert (hkeys (stable_partition (hostIs (r_primary reply)) (hostsToScan s1)) = hkeys (hostsToScan s1)) as Hsp.
  { unfold keys. by rewrite Hp. }
  destruct (is_nil (List.filter (hostIs (r_primary reply)) (hostsToScan s1))) eqn:En;
    [|eexists; split; [done|]; split; [done|]; split_and!; try done;
      [apply Hkq; rewrite Hsp; unfold known; set_solver|right; split; [done|cbn [hostsToScan set_hostsToScan]; by rewrite Hsp]]].
  eexists. split; [done|]. split; [|split_and!; try done;
    [apply Hkq; rewrite keys_cons, Hsp; unfold known; change (key id (r_primary reply)) with (hp_key (r_primary reply)); set_solver
    |right; split; [done|cbn [hostsToScan set_hostsToScan]; rewrite keys_cons, Hsp; apply union_subseteq_r]]].
  assert (List.filter (hostIs (r_primary reply)) (hostsToScan s1) = []) as Hno by (by destruct (List.filter _ _)).
  apply wf_set_hostsToScan; [done|constructor; [done|apply Hq]| |].
  - cbn [fmap list_fmap]. constructor; [|apply Hq]. intros (x & Ex & Hx)%list_elem_of_fmap.
    rewrite Hp in Hx. by apply (no_key_filter _ _ Hno x Hx).
  - intros h [->|Hh]%elem_of_cons; [done|]. rewrite Hp in Hh. by apply Hs1.
Qed.

Lemma updateNodeIfInNodes_masters l r l' :
  updateNodeIfInNodes l r = Ret l' -> r_isMaster r = false ->
  (forall n, n ∈ l -> n_isMaster n = false) -> forall n, n ∈ l' -> n_isMaster n = false.
Proof.
  unfold updateNodeIfInNodes. intros H Hr Hl. destruct (findNode l (r_host r)) as [[[a n] b]|] eqn:E; inv_ret; [|done].
  assert (l = a ++ n :: b) as El.
  { unfold findNode in E. destruct (lower_bound n_host l (r_host r)) as [a' b'] eqn:Eb.
    destruct b' as [|y b']; [done|]. destruct (negb _); [done|]. injection E as <- <- <-.
    clear -Eb. revert a' Eb. induction l as [|x l IH]; intros a'; cbn; [done|].
    destruct (HostAndPort_lt _ _); [|by intros [= <- <- <-]].
    destruct (lower_bound n_host l (r_host r)) as [u v]. intros [= <- ->]. cbn. f_equal. by apply IH. }
  assert (n_isMaster x = r_isMaster r) as Ex by (unfold Node_update in H0; by inv_ret).
  intros y Hy. assert (y = x \/ y ∈ l) as [->|Hy'] by set_solver; [congruence|by apply Hl].
Qed.

Lemma update_confirmed_masters l rs l' :
  update_confirmed l rs = Ret l' -> Forall (fun r => wf_reply r /\ r_ok r = true /\ r_isMaster r = false) rs ->
  (forall n, n ∈ l -> n_isMaster n = false) -> forall n, n ∈ l' -> n_isMaster n = false.
Proof.
  intros H Hrs. revert l H. induction Hrs as [|r rs (_ & _ & Hr) Hrs IH]; intros l H Hl; cbn [update_confirmed] in H.
  - by injection H as <-.
  - apply bind_Ret in H as (l1 & H1 & H2). apply (IH l1 H2). by apply (updateNodeIfInNodes_masters l r).
Qed.

(** The nodes, the queue and the hosts waited for after a master's reply. *)
Lemma adjust_members_ok reply st s l :
  wf_state st -> wf_scan s -> wf_reply reply ->
  nodes_ok (r_host reply) l -> (forall n, n ∈ l -> n_isMaster n = false) ->
  exists l' s' rand,
    adjust_members reply s (s_rand st) l = Ret (l', s', rand) /\
    nodes_ok (r_host reply) l' /\ (forall n, n ∈ l' -> n_isMaster n = false) /\
    keys n_host l' = hkeys (r_normalHosts reply) /\
    wf_scan s' /\ wf_random rand /\ triedHosts s' = triedHosts s /\
    hkeys (waitingFor s') ⊆ hkeys (waitingFor s) /\ unconfirmedReplies s' = unconfirmedReplies s /\
    known s' ⊆ known s ∪ hkeys (r_normalHosts reply).
Proof.
  intros Hst Hs Hr Hl Hm. unfold adjust_members. destruct (_ && _) eqn:E; cbn [negb].
  { apply nodes_match_spec in E; [|apply Hl|apply Hr]. exists l, s, (s_rand st).
    split; [done|]. split_and!; try done; [apply Hst|apply union_subseteq_l]. }
  destruct (filter_nodes_ok (r_host reply) l (r_normalHosts reply) Hl (wr_hosts reply Hr)) as (Hf & Hfk & Hfi).
  set (l1 := List.filter _ l) in *.
  destruct (create_nodes_ok (r_host reply) l1 (r_normalHosts reply) Hf (wr_named reply Hr)) as (Hc & Hck & Hcm).
  assert (wf_scan (set_hostsToScan s [])) as Hs0.
  { apply wf_set_hostsToScan; [done|constructor|constructor|]. by intros ? ?%not_elem_of_nil. }
  destruct (enque_ok (set_hostsToScan s []) (r_normalHosts reply) (s_rand st) Hs0 eq_refl)
    as (q & rand & Eq & Hq & Hrand & Hqe); [apply Hr|apply Hr|apply Hst|].
  cbv zeta. rewrite Eq. cbn [mbind result_bind].
  eexists _, _, rand. split; [done|]. split; [done|]. split.
  { apply Hcm. intros n Hn. by apply Hm, Hfi. }
  split.
  { rewrite Hck, Hfk. apply set_eq. intros k. rewrite elem_of_union, elem_of_intersection. tauto. }
  assert (known (set_hostsToScan s q) ⊆ known s ∪ hkeys (r_normalHosts reply)) as Hkn.
  { unfold known. cbn. intros k [Hk|Hk]%elem_of_union; [|set_solver].
    apply elem_of_keys in Hk as (h & -> & [Hh _]%Hqe). apply elem_of_union. right.
    apply elem_of_keys. by exists h. }
  destruct (negb _).
  - destruct (set_intersection_spec (r_normalHosts reply) (waitingFor s) (wr_hosts reply Hr) (ws_waiting s Hs))
      as [Hi Hik].
    assert (hkeys (set_intersection (r_normalHosts reply) (waitingFor s)) ⊆ hkeys (waitingFor s)) as Hsub
      by (rewrite Hik; apply intersection_subseteq_r).
    split; [|done]. apply wf_set_waitingFor; [done|done|]. etrans; [exact Hsub|]. apply Hs.
  - done.
Qed.

Lemma FromMaster_ok r reply st s :
  wf_state st -> scans st !! r_scan r = Some s -> wf_reply reply -> r_isMaster reply = true ->
  exists st' s', receivedIsMasterFromMaster r reply st = Ret st' /\ wf_state st' /\
    frame_scan (r_scan r) st st' /\ currentScan st' = currentScan st /\ cv st' = cv st /\
    consecutiveFailedScans st' = consecutiveFailedScans st /\ roundRobin st' = roundRobin st /\
    scans st' !! r_scan r = Some s' /\ foundUpMaster s' = true /\ triedHosts s' = triedHosts s /\
    hkeys (waitingFor s') ⊆ hkeys (waitingFor s) /\
    known s' ⊆ known s ∪ hkeys (r_normalHosts reply) /\
    keys n_host (nodes st') = hkeys (r_normalHosts reply) /\
    hkeys (seedNodes st') = hkeys (r_normalHosts reply) /\
    lastSeenMaster st' = r_host reply /\ (forall n, n ∈ nodes st' -> n_isMaster n = false).
Proof.
  intros Hst Es Hr Hm. unfold receivedIsMasterFromMaster. rewrite Hm.
  cbn [invariant guard_throw mbind result_bind]. rewrite (get_scan_lookup _ _ _ Es).
  cbn [mbind result_bind]. pose proof (wst_scans st Hst _ _ Es) as Hs.
  destruct (clear_master_ok (lastSeenMaster st) (r_host reply) (nodes st) (wst_nodes st Hst)) as (Hc & Hck & Hcm).
  set (l0 := clear_master <$> nodes st) in *. clearbody l0.
  destruct (adjust_members_ok reply st s l0 Hst Hs Hr Hc Hcm)
    as (l1 & s1 & rand & -> & Hl1 & Hm1 & Hk1 & Hs1 & Hrand & Ht1 & Hw1 & Hu1 & Hkn). cbn [mbind result_bind].
  set (st1 := if negb (hset_eq _ _) then _ else _).
  assert (nodes st1 = l1 /\ hkeys (seedNodes st1) = hkeys (r_normalHosts reply) /\ hs_sorted (seedNodes st1) /\
    scans st1 = <[r_scan r := s1]> (scans st) /\ s_rand st1 = rand /\ currentScan st1 = currentScan st /\
    cv st1 = cv st /\ consecutiveFailedScans st1 = consecutiveFailedScans st /\
    roundRobin st1 = roundRobin st /\ s_name st1 = s_name st)
    as (En & Esk & Ess & Esc & Er & Ec & Ecv & Ef & Err & Enm).
  { unfold st1. cbn [seedNodes put_scan set_rand set_nodes].
    destruct (hset_eq (r_normalHosts reply) (seedNodes st)) eqn:Eh; cbn.
    - apply hset_eq_spec in Eh; [|apply Hr|apply Hst]. split_and!; try done. apply Hst.
    - split_and!; try done. apply Hr. }
  clearbody st1. rewrite En.
  assert (Forall (fun r => wf_reply r /\ r_ok r = true /\ r_isMaster r = false) (unconfirmedReplies s1)) as Hu
    by apply Hs1.
  destruct (update_confirmed_ok (r_host reply) l1 (unconfirmedReplies s1) Hl1 Hu) as (l2 & El2 & Hl2 & Hk2).
  pose proof (update_confirmed_masters l1 _ l2 El2 Hu Hm1) as Hm2. rewrite El2. cbn [mbind result_bind].
  set (s2 := set_foundUpMaster (set_unconfirmed s1 []) true).
  assert (wf_scan s2) as Hs2.
  { destruct Hs1 as [? ? ? ? ? ? ? ? ? ?]. by constructor; try done; constructor. }
  eexists _, s2. split; [done|]. split.
  { constructor; cbn; [done|done| | | |rewrite Er; done].
    - by rewrite Esk, Hk2, Hk1.
    - intros p Hp. rewrite Ec in Hp. rewrite Esc. destruct (decide (r_scan r = p)) as [<-|Hne].
      + rewrite lookup_insert_eq. by eexists.
      + rewrite !lookup_insert_ne by done. by apply Hst.
    - intros p x. rewrite Esc. destruct (decide (r_scan r = p)) as [<-|Hne].
      + rewrite lookup_insert_eq. by intros [= <-].
      + rewrite !lookup_insert_ne by done. by apply Hst. }
  cbn. split.
  { split; [|done]. intros q Hq. cbn. rewrite Esc. by rewrite !lookup_insert_ne. }
  split; [done|]. split; [done|]. split; [done|]. split; [done|].
  split; [apply lookup_insert_eq|]. split; [done|]. split; [done|]. split; [done|]. split; [done|].
  split; [by rewrite Hk2|]. split; [done|]. split; [done|exact Hm2].
Qed.

Lemma updateNodeIfInNodes_new_master last l r l' :
  nodes_ok last l -> updateNodeIfInNodes l r = Ret l' -> r_isMaster r = true ->
  (forall n, n ∈ l -> n_isMaster n = false) ->
  forall n, n ∈ l' -> n_isMaster n = HostAndPort_eq (n_host n) (r_host r).
Proof.
  intros Hl H Hr Hm. unfold updateNodeIfInNodes in H. pose proof (findNode_spec l (r_host r) last Hl) as Hf.
  destruct (findNode l (r_host r)) as [[[a x] b]|]; inv_ret.
  - destruct Hf as [-> Heq]. destruct (nodes_ok_app _ _ _ _ Hl) as (_ & _ & _ & Ha & Hb & _).
    assert (n_isMaster x0 = true /\ n_host x0 = n_host x) as [Ex Eh]
      by (unfold Node_update in H0; inv_ret; by rewrite Hr).
    apply HostAndPort_eq_key in Heq. unfold key in Ha, Hb. rewrite Heq in Ha, Hb.
    intros n Hn. assert (n = x0 \/ n ∈ a \/ n ∈ b) as [->|Hin] by set_solver.
    + rewrite Ex, Eh. symmetry. by apply HostAndPort_eq_key.
    + rewrite (Hm n) by set_solver. symmetry. apply not_true_iff_false. intros E%HostAndPort_eq_key.
      rewrite Forall_forall in Ha. rewrite Forall_forall in Hb.
      destruct Hin as [Hin|Hin]; [specialize (Ha n Hin)|specialize (Hb n Hin)];
        rewrite E in *; by eapply key_lt_irrefl.
  - intros n Hn. rewrite (Hm n Hn). symmetry. apply not_true_iff_false. intros E%HostAndPort_eq_key.
    apply Hf. apply elem_of_keys. by exists n.
Qed.

Lemma reply_post_erase p from new ms st s st' :
  scans st !! p = Some s -> wf_scan s ->
  reply_post p from new ms (put_scan st p (set_waitingFor s (hset_erase from (waitingFor s)))) st' ->
  reply_post p from new ms st st'.
Proof.
  intros Es Hs (Hc & Hfr & Hf & Hrr & s0 & s' & Es0 & Es' & Ht & Hkn & Hcov & Hw & Hcv).
  rewrite scans_put in Es0. injection Es0 as <-. destruct (erase_waiting s from Hs) as [_ Hk].
  split; [done|]. split; [eapply frame_trans; [apply frame_put|exact Hfr]|]. split; [done|]. split; [done|].
  exists s, s'. split; [done|]. split; [done|]. split; [done|]. split; [done|]. split; [done|].
  cbn [waitingFor set_waitingFor hostsToScan] in *. rewrite Hk in *.
  rewrite (difference_twice_L (hkeys (waitingFor s)) {[hp_key from]}) in *. split; [done|]. exact Hcv.
Qed.

(** The view after a master's reply. *)
Definition master_post (reply : IsMasterReply) (st' : SetState) : Prop :=
  keys n_host (nodes st') = hkeys (r_normalHosts reply) /\
  hkeys (seedNodes st') = hkeys (r_normalHosts reply) /\ lastSeenMaster st' = r_host reply /\
  forall n, n ∈ nodes st' -> n_isMaster n = HostAndPort_eq (n_host n) (r_host reply).

Lemma wf_set_foundAny s b : wf_scan s -> wf_scan (set_foundAnyUpNodes s b).
Proof. intros [? ? ? ? ? ? ? ? ? ?]. by constructor. Qed.

Lemma accept_master_ok r reply st s :
  wf_state st -> scans st !! r_scan r = Some s -> wf_reply reply -> r_ok reply = true ->
  r_isMaster reply = true ->
  exists st' s', accept_reply r reply st = Ret st' /\ wf_state st' /\
    frame_scan (r_scan r) st st' /\ currentScan st' = currentScan st /\ cv st' = S (cv st) /\
    consecutiveFailedScans st' = consecutiveFailedScans st /\ roundRobin st' = roundRobin st /\
    scans st' !! r_scan r = Some s' /\ triedHosts s' = triedHosts s /\ foundUpMaster s' = true /\
    hkeys (waitingFor s') ⊆ hkeys (waitingFor s) /\ known s' ⊆ known s ∪ reply_hosts reply /\
    master_post reply st'.
Proof.
  intros Hst Es Hr Hok Hm. unfold accept_reply. rewrite Hm.
  destruct (FromMaster_ok r reply st s Hst Es Hr Hm)
    as (st1 & s1 & -> & Hst1 & Hfr & Hc & Hcv & Hf & Hrr & Es1 & Hup & Ht & Hw & Hkn & Hk & Hsd & Hl & Hno).
  cbn [mbind result_bind]. rewrite (get_scan_lookup _ _ _ Es1). cbn [mbind result_bind]. rewrite Hup.
  destruct (updateNodeIfInNodes_ok (lastSeenMaster st1) (nodes st1) reply (wst_nodes _ Hst1) Hr Hok)
    as (l & El & Hnl & Hkl).
  { intros _. rewrite Hl. by apply HostAndPort_eq_key. }
  pose proof (updateNodeIfInNodes_new_master _ _ _ _ (wst_nodes _ Hst1) El Hm Hno) as Hms.
  rewrite El. cbn [mbind result_bind].
  assert (scans (set_nodes st1 l) !! r_scan r = Some s1) as Es2 by done.
  rewrite (get_scan_lookup _ _ _ Es2). cbn [mbind result_bind].
  eexists _, (set_foundAnyUpNodes s1 true). split; [done|]. split.
  { apply wf_notify_all, wf_put_scan; [|by apply wf_set_foundAny, (wst_scans _ Hst1 _ _ Es1)].
    apply wf_set_nodes; [done|done|]. rewrite Hkl. apply Hst1. }
  cbn. split; [eapply frame_trans; [exact Hfr|apply (frame_put (r_scan r) (set_nodes st1 l))]|].
  split; [done|]. split; [by rewrite Hcv|]. split; [done|]. split; [done|].
  split; [apply lookup_insert_eq|]. split; [done|]. split; [done|]. split; [done|].
  split.
  { change (known (set_foundAnyUpNodes s1 true)) with (known s1). etrans; [exact Hkn|].
    unfold reply_hosts. rewrite (assoc_L (∪)). apply union_subseteq_l. }
  unfold master_post. cbn. split; [by rewrite Hkl|]. done.
Qed.

Lemma accept_other_ok r reply st s :
  wf_state st -> scans st !! r_scan r = Some s -> wf_reply reply -> r_ok reply = true ->
  r_isMaster reply = false ->
  exists st' s', accept_reply r reply st = Ret st' /\ wf_state st' /\
    frame_scan (r_scan r) st st' /\ currentScan st' = currentScan st /\ cv st' = S (cv st) /\
    consecutiveFailedScans st' = consecutiveFailedScans st /\ roundRobin st' = roundRobin st /\
    scans st' !! r_scan r = Some s' /\ triedHosts s' = triedHosts s /\ waitingFor s' = waitingFor s /\
    known s' ⊆ known s ∪ reply_hosts reply /\ covers False s s'.
Proof.
  intros Hst Es Hr Hok Hm. unfold accept_reply. rewrite Hm. cbn [mbind result_bind].
  rewrite (get_scan_lookup _ _ _ Es). cbn [mbind result_bind].
  pose proof (wst_scans st Hst _ _ Es) as Hs. destruct (foundUpMaster s) eqn:Eup.
  - destruct (updateNodeIfInNodes_ok (lastSeenMaster st) (nodes st) reply (wst_nodes _ Hst) Hr Hok)
      as (l & -> & Hnl & Hkl); [congruence|].
    cbn [mbind result_bind]. assert (scans (set_nodes st l) !! r_scan r = Some s) as Es2 by done.
    rewrite (get_scan_lookup _ _ _ Es2). cbn [mbind result_bind].
    eexists _, (set_foundAnyUpNodes s true). split; [done|]. split.
    { apply wf_notify_all, wf_put_scan; [|by apply wf_set_foundAny].
      apply wf_set_nodes; [done|done|]. rewrite Hkl. apply Hst. }
    cbn. split; [apply (frame_put (r_scan r) (set_nodes st l))|].
    split_and!; try done; [apply lookup_insert_eq|apply union_subseteq_l|by right].
  - destruct (BeforeFoundMaster_ok r reply st s Hst Es Hr Hm) as (s1 & -> & Hs1 & Ht & Hw & Hup & Hu & Hkn & Hcov).
    cbn [mbind result_bind]. rewrite (get_scan_lookup _ _ _ (scans_put st (r_scan r) s1)).
    cbn [mbind result_bind]. set (s2 := set_unconfirmed s1 _).
    rewrite (get_scan_lookup _ _ _ (scans_put _ (r_scan r) s2)). cbn [mbind result_bind].
    assert (wf_scan s2) as Hs2.
    { pose proof (ws_replies s1 Hs1) as Hrs. destruct Hs1 as [? ? ? ? ? ? ? ? ? ?]. constructor; try done.
      - intros H. cbn in H. congruence.
      - apply Forall_app. split; [done|]. by constructor. }
    eexists _, (set_foundAnyUpNodes s2 true). split; [done|]. split.
    { apply wf_notify_all, wf_put_scan; [|by apply wf_set_foundAny].
      apply wf_put_scan; [|done]. by apply wf_put_scan. }
    cbn. split.
    { split; [|done]. intros q Hq. cbn. by rewrite !lookup_insert_ne. }
    split_and!; try done. apply lookup_insert_eq.
Qed.

(** The hosts that a reply makes the scan consider. *)
Definition parsed_hosts (from : HostAndPort) (lat : Z) (obj : BSONObj) : gset hkey :=
  match IsMasterReply_parse from lat obj with
  | Ret r => if r_ok r then reply_hosts r else ∅
  | Throw _ => ∅
  end.

(** The answer of a member that is the master. *)
Definition master_reply (name : bytes) (from : HostAndPort) (lat : Z) (obj : BSONObj) : Prop :=
  exists reply, IsMasterReply_parse from lat obj = Ret reply /\ r_ok reply = true /\
    r_setName reply = name /\ r_isMaster reply = true.

Lemma receivedIsMaster_ok r from lat obj st s :
  wf_state st -> scans st !! r_scan r = Some s -> named from -> wf_obj obj -> in_range int64 lat ->
  exists st', receivedIsMaster r from lat obj st = Ret st' /\ wf_state st' /\
    reply_post (r_scan r) from (parsed_hosts from lat obj) (master_reply (s_name st) from lat obj) st st' /\
    forall reply, IsMasterReply_parse from lat obj = Ret reply -> r_ok reply = true ->
      r_setName reply = s_name st -> r_isMaster reply = true -> master_post reply st'.
Proof.
  intros Hst Es Hf Ho Hl. pose proof (wst_scans st Hst _ _ Es) as Hs.
  destruct (erase_waiting s from Hs) as [Hse Hk].
  unfold receivedIsMaster. rewrite (get_scan_lookup _ _ _ Es). cbn [mbind result_bind].
  set (s0 := set_waitingFor s (hset_erase from (waitingFor s))) in *.
  set (st0 := put_scan st (r_scan r) s0) in *.
  assert (wf_state st0) as Hst0 by (by apply wf_put_scan).
  assert (scans st0 !! r_scan r = Some s0) as Es0 by apply scans_put.
  destruct (parse_total from lat obj) as (reply & Ep & Eh & _). rewrite Ep. cbn [mbind result_bind].
  destruct (failedHost_ok r from (parsed_hosts from lat obj)
    (master_reply (s_name st) from lat obj) st0 s0 Hst0 Es0) as (stf & Ef & Hstf & Hpf).
  pose proof (reply_post_erase _ _ _ _ _ _ _ Es Hs Hpf) as Hpf'.
  destruct (r_ok reply) eqn:Eok; cbn [negb].
  2:{ exists stf. split; [done|]. split; [done|]. split; [done|]. intros reply' [= <-] H. congruence. }
  destruct (decide (r_setName reply = s_name st)) as [En|En].
  2:{ rewrite bool_decide_eq_false_2 by done. cbn [negb]. exists stf. split; [done|].
      split; [done|]. split; [done|]. by intros reply' [= <-]. }
  rewrite bool_decide_eq_true_2 by done. cbn [negb].
  pose proof (parse_wf from lat obj reply Ho Hf Hl Ep Eok) as Hr.
  assert (forall st' s', frame_scan (r_scan r) st0 st' -> currentScan st' = currentScan st0 ->
    cv st' = S (cv st0) -> consecutiveFailedScans st' = consecutiveFailedScans st0 ->
    roundRobin st' = roundRobin st0 -> scans st' !! r_scan r = Some s' -> triedHosts s' = triedHosts s0 ->
    hkeys (waitingFor s') ⊆ hkeys (waitingFor s0) -> known s' ⊆ known s0 ∪ reply_hosts reply -> covers (master_reply (s_name st) from lat obj) s0 s' ->
    reply_post (r_scan r) from (parsed_hosts from lat obj) (master_reply (s_name st) from lat obj) st st') as Hpost.
  { intros st' s' Hfr Hc Hcv Hfs Hrr Es' Ht Hw Hkn Hcov. apply (reply_post_erase _ _ _ _ _ _ _ Es Hs).
    split; [done|]. split; [done|]. split; [done|]. split; [done|]. exists s0, s'.
    split; [done|]. split; [done|]. split; [by rewrite Ht|].
    split; [unfold parsed_hosts; by rewrite Ep, Eok|]. split; [done|]. split; [|right; rewrite Hcv; unfold lt; reflexivity].
    etrans; [exact Hw|]. change (waitingFor s0) with (hset_erase from (waitingFor s)).
    rewrite Hk. by rewrite (difference_twice_L (hkeys (waitingFor s)) {[hp_key from]}). }
  destruct (r_isMaster reply) eqn:Em.
  - destruct (accept_master_ok r reply st0 s0 Hst0 Es0 Hr Eok Em)
      as (st' & s' & E & Hst' & Hfr & Hc & Hcv & Hfs & Hrr & Es' & Ht & Hup & Hw & Hkn & Hmp).
    exists st'. split; [exact E|]. split; [done|].
    split; [eapply Hpost; try done; left; split; [by exists reply|done]|]. intros reply' [= <-]. done.
  - destruct (accept_other_ok r reply st0 s0 Hst0 Es0 Hr Eok Em)
      as (st' & s' & E & Hst' & Hfr & Hc & Hcv & Hfs & Hrr & Es' & Ht & Hw & Hkn & Hcov).
    exists st'. split; [exact E|]. split; [done|].
    split; [eapply Hpost; try done; [by rewrite Hw|destruct Hcov as [[[] _]|Hcov]; by right]|]. intros reply' [= <-]. congruence.
Qed.

(** ** The sections of the loop *)

Definition criteria_ok (criteria : option ReadPreferenceSetting) : Prop :=
  match criteria with Some c => tag_docs (tags c) | None => True end.
(** Bounds of the view: it has less than [INT_MAX] nodes, and less than
    [INT_MAX] scans in a row have failed. *)
Definition bounded (st : SetState) : Prop :=
  zlen (nodes st) <= int_max int32 /\ fails_ok st.

(** The part of the state that matters to the threads. *)
Definition same_scans (st st' : SetState) : Prop :=
  scans st' = scans st /\ currentScan st' = currentScan st /\ cv st' = cv st /\
  s_name st' = s_name st /\ consecutiveFailedScans st' = consecutiveFailedScans st /\
  nodes st' = nodes st.

Lemma same_view_scans st st' : same_view st st' -> same_scans st st'.
Proof. intros [-> _]. done. Qed.

(** Whatever selection answers, it leaves the scans alone. *)
Lemma nextInt32_max_wf r max : wf_random r -> wf_random (nextInt32_max r max).2.
Proof.
  intros Hr. unfold nextInt32_max. destruct (nextInt32_wf r Hr) as [_ H]. by destruct (nextInt32 r).
Qed.

Lemma choose_node_view det st l h st' :
  wf_random (s_rand st) -> choose_node det st l = Ret (h, st') -> same_view st st'.
Proof.
  intros Hr. unfold choose_node. destruct (sort_by_latency l) as [|c o]; [done|]. intros H.
  apply bind_Ret in H as (o' & _ & H). destruct det.
  - apply bind_Ret in H as (n & _ & H). apply bind_Ret in H as (x & _ & H). injection H as <- <-. done.
  - pose proof (nextInt32_max_wf (s_rand st) (wrap int32 (zlen (c :: o'))) Hr) as Hr'.
    destruct (nextInt32_max _ _) as [i r]. apply bind_Ret in H as (x & _ & H). injection H as <- <-.
    by split.
Qed.

Lemma select_basic_view det st p tagElems h st' :
  wf_random (s_rand st) -> select_basic det st p tagElems = Ret (h, st') -> same_view st st'.
Proof.
  intros Hr.
  assert (select_by_tags det st p tagElems = Ret (h, st') -> same_view st st') as Ht.
  { induction tagElems as [|e l IH]; cbn [select_by_tags]; intros H.
    - injection H as <- <-. by apply same_view_refl.
    - apply bind_Ret in H as (u & _ & H). apply bind_Ret in H as (tag & _ & H).
      apply bind_Ret in H as (m & _ & H). destruct m as [|n [|n2 m]]; [by apply IH| |].
      + injection H as <- <-. by apply same_view_refl.
      + by eapply choose_node_view. }
  destruct p; cbn [select_basic]; try done. intros H.
  destruct (List.find _ _); injection H as <- <-; by apply same_view_refl.
Qed.

Lemma matching_view det criteria st h st' :
  wf_state st -> matching_or_empty det criteria st = Ret (h, st') -> wf_state st' /\ same_scans st st'.
Proof.
  intros Hst H. assert (same_view st st') as Hv.
  { destruct criteria as [c|]; cbn [matching_or_empty] in H; [|injection H as <- <-; apply same_view_refl, Hst].
    unfold getMatchingHost in H. pose proof (wst_rand st Hst) as Hr.
    assert (forall p q, ('(out, st) ← select_basic det st p (tags c);
      if negb (HostAndPort_empty out) then Ret (out, st) else select_basic det st q (tags c)) = Ret (h, st') ->
      same_view st st') as Htwo.
    { intros p q H2. apply bind_Ret in H2 as ([o s1] & H1 & H2).
      apply select_basic_view in H1; [|done]. destruct (negb _); [by injection H2 as <- <-|].
      destruct H1 as [E1 Hr1]. apply select_basic_view in H2; [|done]. destruct H2 as [-> Hr2].
      split; [|done]. by rewrite E1. }
    destruct (pref c); eauto using select_basic_view. }
  split; [by eapply same_view_wf|by apply same_view_scans].
Qed.

Lemma matching_ok criteria st : wf_state st -> zlen (nodes st) <= int_max int32 -> criteria_ok criteria ->
  exists h st', matching_or_empty false criteria st = Ret (h, st') /\ wf_state st' /\ same_scans st st'.
Proof.
  intros Hst Hn Hc. destruct criteria as [c|]; cbn [matching_or_empty].
  - destruct (getMatchingHost_total false st c Hst Hn) as (h & st' & E & V & _); [done|done|].
    exists h, st'. split; [done|]. split; [by eapply same_view_wf|by apply same_view_scans].
  - by exists HostAndPort_default, st.
Qed.

Definition top_post (p : nat) (st : SetState) (out : Outcome) (st' : SetState) : Prop :=
  frame_scan p st st' /\ cv st' = cv st /\
  match out with
  | Wait => scans st' = scans st /\ currentScan st = Some p /\ currentScan st' = Some p /\
      exists s, scans st !! p = Some s /\ hostsToScan s = [] /\ waitingFor s <> []
  | Return _ => (scans st' = scans st /\ currentScan st' = currentScan st) \/
      (currentScan st = Some p /\ currentScan st' = None /\
         exists s s', scans st !! p = Some s /\ scans st' !! p = Some s' /\
           exhausted s /\ waitingFor s = [] /\ triedHosts s' = triedHosts s)
  | Contact h => consecutiveFailedScans st' = consecutiveFailedScans st /\
      named h /\ currentScan st = Some p /\ currentScan st' = Some p /\
      exists s s', scans st !! p = Some s /\ scans st' !! p = Some s' /\
        ~ (hostsToScan s = [] /\ waitingFor s <> []) /\
        hp_key h ∉ hkeys (triedHosts s) /\ hp_key h ∈ known s /\
        hkeys (triedHosts s') = {[hp_key h]} ∪ hkeys (triedHosts s) /\
        hkeys (waitingFor s') = {[hp_key h]} ∪ hkeys (waitingFor s) /\
        known s' ⊆ known s /\ contacted h s s'
  end.

Lemma getNextStep_ret r st ns st' :
  wf_state st -> 0 <= consecutiveFailedScans st -> getNextStep r st = Ret (ns, st') ->
  step_post r st ns st'.
Proof.
  intros Hst Hf H. destruct (getNextStep_cases r st Hst Hf) as [(ns1 & st1 & E & P)|[_ E]]; [|congruence].
  rewrite E in H. by injection H as <- <-.
Qed.

Lemma refresh_top_ret det r criteria st out st' :
  wf_state st -> 0 <= consecutiveFailedScans st -> refresh_top det r criteria st = Ret (out, st') ->
  wf_state st' /\ 0 <= consecutiveFailedScans st' /\ top_post (r_scan r) st out st'.
Proof.
  intros Hst Hf H. unfold refresh_top in H. apply bind_Ret in H as ([h st1] & H1 & H).
  destruct (matching_view _ _ _ _ _ Hst H1) as [Hst1 (Es & Ec & Ecv & Enm & Ef & En)].
  destruct (negb (HostAndPort_empty h)).
  { injection H as <- <-. split; [done|]. split; [lia|]. split; [split; [|done]; by rewrite Es|].
    split; [done|]. by left. }
  apply bind_Ret in H as ([ns st2] & H2 & H).
  destruct (getNextStep_ret r st1 ns st2 Hst1 ltac:(lia) H2) as (Hst2 & Hcv2 & [Hfr Hnm] & [Hf2 _] & Hf3 & _ & Hp).
  assert (frame_scan (r_scan r) st st2) as Hfr2.
  { split; [|congruence]. intros q Hq. by rewrite Hfr, Es. }
  destruct ns as [host| |]; cbn [next_post] in Hp.
  - injection H as <- <-. split; [done|]. split; [done|]. split; [done|]. split; [congruence|].
    rewrite <-Ec, <-Es. split; [|done]. rewrite Hf3 by done. lia.
  - destruct Hp as (-> & Hc1 & s & Hs & Hh & Hw). injection H as <- <-. split; [done|]. split; [done|].
    split; [done|]. split; [done|]. split; [done|]. split; [congruence|]. split; [done|].
    exists s. by rewrite <-Es.
  - apply bind_Ret in H as ([h2 st3] & H3 & H). injection H as <- <-.
    destruct (matching_view _ _ _ _ _ Hst2 H3) as [Hst3 (Es3 & Ec3 & Ecv3 & Enm3 & Ef3 & _)].
    split; [done|]. split; [lia|].
    split; [split; [intros q Hq; rewrite Es3; by apply Hfr2|rewrite Enm3; apply Hfr2]|].
    split; [congruence|]. destruct Hp as [_ [->|(Hc1 & Hc2 & Hs)]].
    + left. split; congruence.
    + right. rewrite <-Ec, <-Es, Es3. split_and!; [done|congruence|done].
Qed.

(** ** Properties *)

(** C20: the choice of the next step is safe on every well-formed view: it gives a
    view that is well formed again and satisfies the code's own [checkInvariants];
    a host is contacted only while the scan is the current one, it was not
    contacted before in this scan, and it is then tried and waited for; WAIT
    changes nothing and is answered only when the queue is empty and replies are
    outstanding; DONE leaves the scan not current, and ends a scan only when
    nothing is left: no reply is outstanding, no host is queued, and a master was found or
    every host the other nodes named has been tried.  None of those hosts is lost on the
    way: what a step does not contact is still known or was tried.  The one error is the signed overflow of the
    count of failed scans. *)
Theorem getNextStep_contract r st :
  wf_state st -> 0 <= consecutiveFailedScans st ->
  (exists ns st', getNextStep r st = Ret (ns, st') /\ wf_state st' /\ checkInvariants st' = true /\
     frame_scan (r_scan r) st st' /\ next_post (r_scan r) st ns st') \/
  (int_max int32 <= consecutiveFailedScans st /\ getNextStep r st = Throw EUndefined).
Proof.
  intros Hst Hf. destruct (getNextStep_cases r st Hst Hf) as [(ns & st' & E & Hw & _ & Hfr & _ & _ & _ & Hp)|H];
    [left|by right].
  exists ns, st'. split; [done|]. split; [done|]. split; [by apply checkInvariants_hold|done].
Qed.

(** A two-member set with a scan under way. *)
Definition sample_scan : ScanState :=
  mkScanState false false [mkHostAndPort (B "b") 27018] [] [mkHostAndPort (B "a") 27017]
    [mkHostAndPort (B "a") 27017] [].
Definition sample_state : SetState :=
  mkSetState (B "rs") 0 [mkHostAndPort (B "a") 27017; mkHostAndPort (B "b") 27018] HostAndPort_default
    [Node_ctor (mkHostAndPort (B "a") 27017); Node_ctor (mkHostAndPort (B "b") 27018)]
    (Some 0%nat) 15000 (PseudoRandom_int64 7) 0 0 {[ 0%nat := sample_scan ]}.

Lemma sample_wf : wf_state sample_state.
Proof.
  constructor; cbn.
  - constructor.
    + repeat constructor.
    + repeat constructor; cbn; try done; unfold unknownLatency; cbn; lia.
    + intros n Hn Hm. rewrite !elem_of_cons in Hn. destruct Hn as [->|[->|Hn%not_elem_of_nil]]; done.
  - repeat constructor.
  - set_solver.
  - intros p [= <-]. by eexists.
  - intros p s [<- <-]%lookup_singleton_Some. constructor; cbn; try done; try by repeat constructor.
    + apply NoDup_singleton.
    + intros h [->|Hh%not_elem_of_nil]%elem_of_cons; [|done]. by vm_compute.
  - apply seed_int64_wf. by vm_compute.
Qed.

Lemma getNextStep_contract_witness :
  let r := mkRefresher 0 false in
  exists st', getNextStep r sample_state = Ret (CONTACT_HOST (mkHostAndPort (B "b") 27018), st') /\
    checkInvariants st' = true.
Proof.
  intros r. destruct (getNextStep_contract r sample_state sample_wf) as [(ns & st' & E & _ & H & _)|[H _]].
  - done.
  - exists st'. split; [|exact H].
    assert (fst <$> getNextStep r sample_state = Ret (CONTACT_HOST (mkHostAndPort (B "b") 27018))) as Ea
      by (by vm_compute).
    rewrite E in *. cbn in Ea. injection Ea as ->. done.
  - cbn in H. lia.
Defined.

Lemma failedHost_nodes r h st st' : failedHost r h st = Ret st' ->
  nodes st' = mark_node_failed (nodes st) h /\ seedNodes st' = seedNodes st /\
  lastSeenMaster st' = lastSeenMaster st /\
  exists s', scans st' !! r_scan r = Some s' /\ cv st' = if is_nil (waitingFor s') then S (cv st) else cv st.
Proof.
  unfold failedHost. intros H. inv_ret. cbn [nodes set_nodes seedNodes lastSeenMaster scans cv waitingFor set_waitingFor].
  destruct (is_nil (hset_erase h _)) eqn:E; (split; [done|]); (split; [done|]); (split; [done|]); eexists;
    (split; [apply lookup_insert_eq|]); cbn; by rewrite E.
Qed.

(** Whether the reply comes from a member of the set. *)
Definition member_reply (st : SetState) (reply : IsMasterReply) : Prop :=
  r_ok reply = true /\ r_setName reply = s_name st.

Lemma receivedIsMaster_refused r from lat obj st st' reply :
  receivedIsMaster r from lat obj st = Ret st' -> IsMasterReply_parse from lat obj = Ret reply ->
  ~ member_reply st reply ->
  nodes st' = mark_node_failed (nodes st) from /\ seedNodes st' = seedNodes st /\
  lastSeenMaster st' = lastSeenMaster st /\
  exists s', scans st' !! r_scan r = Some s' /\ cv st' = if is_nil (waitingFor s') then S (cv st) else cv st.
Proof.
  unfold receivedIsMaster, member_reply. intros H Ep Hn. apply bind_Ret in H as (scan & _ & H).
  rewrite Ep in H. cbn [mbind result_bind] in H.
  destruct (r_ok reply); cbn [negb] in H; [|by apply failedHost_nodes in H].
  destruct (bool_decide (r_setName reply = s_name (put_scan st (r_scan r) _))) eqn:E; cbn [negb] in H;
    [|by apply failedHost_nodes in H].
  apply bool_decide_eq_true in E. by destruct Hn.
Qed.

(** A member's reply always wakes the threads that wait. *)
Lemma accept_reply_cv r reply st st' : accept_reply r reply st = Ret st' -> cv st' = S (cv st).
Proof.
  unfold accept_reply. intros H. apply bind_Ret in H as (st1 & H1 & H). apply bind_Ret in H as (s1 & _ & H).
  apply bind_Ret in H as (st2 & H2 & H). apply bind_Ret in H as (s2 & _ & H). injection H as <-. cbn. f_equal.
  assert (cv st1 = cv st) as <-.
  { destruct (r_isMaster reply); [|by injection H1 as <-]. unfold receivedIsMasterFromMaster in H1.
    apply bind_Ret in H1 as (? & _ & H1). apply bind_Ret in H1 as (? & _ & H1). apply bind_Ret in H1 as ([[l s] rd] & _ & H1).
    apply bind_Ret in H1 as (? & _ & H1). injection H1 as <-. cbn. by destruct (negb _). }
  destruct (foundUpMaster s1).
  - apply bind_Ret in H2 as (? & _ & H2). by injection H2 as <-.
  - unfold receivedIsMasterBeforeFoundMaster in H2. apply bind_Ret in H2 as (st3 & H3 & H2).
    apply bind_Ret in H3 as (? & _ & H3). apply bind_Ret in H3 as (? & _ & H3). injection H3 as <-.
    apply bind_Ret in H2 as (? & _ & H2). by injection H2 as <-.
Qed.
Lemma receivedIsMaster_accepted r from lat obj st st' reply :
  receivedIsMaster r from lat obj st = Ret st' -> IsMasterReply_parse from lat obj = Ret reply ->
  member_reply st reply -> cv st' = S (cv st).
Proof.
  unfold receivedIsMaster, member_reply. intros H Ep [Hok Hn]. apply bind_Ret in H as (scan & _ & H).
  rewrite Ep in H. cbn [mbind result_bind] in H. rewrite Hok in H. cbn [negb] in H.
  rewrite bool_decide_true in H by done. by apply accept_reply_cv in H.
Qed.

(** C19: whatever bytes a host answers isMaster with, processing the reply raises no
    error and keeps the view well formed ([checkInvariants] holds after it).  The
    host is no longer waited for and the scan learns of no host but those the reply
    names.  A reply that is no reply of a member only marks the host as failed, and the
    blocked threads are notified exactly when no other reply is outstanding; a member's
    reply always notifies them, and a master's reply makes the nodes and the seeds exactly the hosts it
    lists and itself the only master. *)
Theorem receivedIsMaster_contract r from lat obj st s :
  wf_state st -> scans st !! r_scan r = Some s -> named from -> wf_obj obj -> in_range int64 lat ->
  exists st' reply, receivedIsMaster r from lat obj st = Ret st' /\
    IsMasterReply_parse from lat obj = Ret reply /\
    wf_state st' /\ checkInvariants st' = true /\
    reply_post (r_scan r) from (parsed_hosts from lat obj) (master_reply (s_name st) from lat obj) st st' /\
    (~ member_reply st reply -> nodes st' = mark_node_failed (nodes st) from /\
       seedNodes st' = seedNodes st /\ lastSeenMaster st' = lastSeenMaster st /\
       exists s', scans st' !! r_scan r = Some s' /\
         cv st' = if is_nil (waitingFor s') then S (cv st) else cv st) /\
    (member_reply st reply -> cv st' = S (cv st)) /\
    (member_reply st reply -> r_isMaster reply = true -> master_post reply st').
Proof.
  intros Hst Es Hf Ho Hl.
  destruct (receivedIsMaster_ok r from lat obj st s Hst Es Hf Ho Hl) as (st' & E & Hw & Hp & Hm).
  destruct (parse_total from lat obj) as (reply & Ep & _). exists st', reply.
  split; [done|]. split; [done|]. split; [done|]. split; [by apply checkInvariants_hold|].
  split; [done|]. split; [|split].
  - intros Hn. by eapply receivedIsMaster_refused.
  - by apply (receivedIsMaster_accepted r from lat obj).
  - intros [Hok Hs]. by apply Hm.
Qed.

(** The master's answer in the samples. *)
Definition sample_reply : BSONObj :=
  [(B "ok", VNumberInt 1); (B "setName", VString (B "rs")); (B "ismaster", VBool (chr 1));
   (B "hosts", VArray [(B "0", VString (B "a:27017")); (B "1", VString (B "c:27019"))])].

Lemma sample_reply_wf : wf_obj sample_reply.
Proof. repeat constructor; cbn; try done; try not_in. Qed.

Lemma receivedIsMaster_contract_witness :
  let a := mkHostAndPort (B "a") 27017 in
  exists st', receivedIsMaster (mkRefresher 0 false) a 120 sample_reply sample_state = Ret st' /\
    checkInvariants st' = true /\ lastSeenMaster st' = a /\
    n_host <$> nodes st' = [a; mkHostAndPort (B "c") 27019].
Proof.
  intros a.
  destruct (receivedIsMaster_contract (mkRefresher 0 false) a 120 sample_reply sample_state sample_scan
    sample_wf) as (st' & reply & E & Ep & _ & Hi & _ & _ & _ & Hm).
  - done.
  - done.
  - apply sample_reply_wf.
  - unfold in_range. cbn. lia.
  - exists st'. split; [exact E|]. split; [exact Hi|]. split.
    + vm_compute in Ep. injection Ep as <-. destruct Hm as (_ & _ & Hl & _); [by split|done|exact Hl].
    + clear Hm. vm_compute in E. injection E as <-. by vm_compute.
Defined.
