(* ===== verification/RSLoop.v ===== *)
(** * One thread refreshing: client/replica_set_monitor.cpp, _refreshUntilMatches

    The loop of [Refresher::_refreshUntilMatches] run by one thread with the
    network as a parameter, and the operations of [ReplicaSetMonitor] that start
    it.  The run stops with a bound on the number of contacts: a scan contacts a
    host at most once. *)
From S2P Require Import Prelude StringData HostAndPort Random BsonTypes BufBuilder Bson BsonCompare.
From S2P Require Import BsonObj HostSet RSState RSSelect RSRefresh.
Local Open Scope Z_scope.

(** ** ReplicaSetMonitor *)

Definition isPrimary (st : SetState) (host : HostAndPort) : bool :=
  match findNode (nodes st) host with Some (_, n, _) => n_isMaster n | None => false end.
Definition isHostUp (st : SetState) (host : HostAndPort) : bool :=
  match findNode (nodes st) host with Some (_, n, _) => n_isUp n | None => false end.
Definition Monitor_failedHost (st : SetState) (host : HostAndPort) : SetState :=
  set_nodes st (mark_node_failed (nodes st) host).
Definition Monitor_contains (st : SetState) (host : HostAndPort) : bool := hset_count host (seedNodes st).

(** How a run of the loop ends. [fuel] bounds the number of contacts. *)
Inductive Run :=
  | Returned (h : HostAndPort) (st : SetState) (contacted : list HostAndPort)
  | Blocked (st : SetState) (contacted : list HostAndPort)
  | Raised (e : exn)
  | OutOfFuel.

Section network.
Context (useDeterministicHostSelection : bool).
(** The answer to the isMaster sent at a given moment: the round trip and the
    document, empty on error. *)
Context (timedIsMaster : nat -> HostAndPort -> Z * BSONObj).

Fixpoint refresh_run (fuel : nat) (r : Refresher) (criteria : option ReadPreferenceSetting) (moment : nat)
    (o : Outcome) (st : SetState) (contacted : list HostAndPort) : Run :=
  match o with
  | Return h => Returned h st contacted
  | Wait => Blocked st contacted
  | Contact h =>
      match fuel with
      | O => OutOfFuel
      | S fuel =>
          let (pingMicros, reply) := timedIsMaster moment h in
          match refresh_reply useDeterministicHostSelection r criteria h pingMicros reply st with
          | Ret (o, st) => refresh_run fuel r criteria (S moment) o st (contacted ++ [h])
          | Throw e => Raised e
          end
      end
  end.

Definition _refreshUntilMatches (fuel : nat) (r : Refresher) (criteria : option ReadPreferenceSetting)
    (moment : nat) (st : SetState) : Run :=
  match refresh_top useDeterministicHostSelection r criteria st with
  | Ret (o, st) => refresh_run fuel r criteria moment o st []
  | Throw e => Raised e
  end.

Definition startOrContinueRefresh (st : SetState) : M (Refresher * SetState) := Refresher_ctor st.

Definition startRefresh (fuel : nat) (criteria : option ReadPreferenceSetting) (moment : nat)
    (st : SetState) : bool * Run :=
  match startOrContinueRefresh st with
  | Ret (r, st) => (r_startedNewScan r, _refreshUntilMatches fuel r criteria moment st)
  | Throw e => (false, Raised e)
  end.

Definition getHostOrRefresh (fuel : nat) (criteria : ReadPreferenceSetting) (moment : nat)
    (st : SetState) : Run :=
  match getMatchingHost useDeterministicHostSelection st criteria with
  | Throw e => Raised e
  | Ret (out, st) =>
      if negb (HostAndPort_empty out) then Returned out st []
      else
        let '(startedNewScan, run) := startRefresh fuel (Some criteria) moment st in
        match run with
        | Returned out st contacted =>
            if negb (HostAndPort_empty out) || startedNewScan then run
            else
              match (startRefresh fuel (Some criteria) (moment + length contacted) st).2 with
              | Returned out st more => Returned out st (contacted ++ more)
              | Blocked st more => Blocked st (contacted ++ more)
              | other => other
              end
        | other => other
        end
  end.
End network.

(** ** One scan *)

Lemma Refresher_ctor_ok st : wf_state st ->
  exists r st' s, Refresher_ctor st = Ret (r, st') /\ wf_state st' /\
    currentScan st' = Some (r_scan r) /\ scans st' !! r_scan r = Some s /\
    consecutiveFailedScans st' = consecutiveFailedScans st /\ nodes st' = nodes st /\
    r_startedNewScan r = bool_decide (currentScan st = None) /\
    (forall q, is_Some (scans st !! q) -> scans st' !! q = scans st !! q) /\ cv st' = cv st /\
    s_name st' = s_name st /\
    match currentScan st with
    | Some p => r_scan r = p /\ st' = st
    | None => scans st !! r_scan r = None /\ waitingFor s = [] /\ triedHosts s = [] /\
        hostsToScan s ≡ₚ n_host <$> nodes st /\ possibleNodes s = []
    end.
Proof.
  intros Hst. unfold Refresher_ctor. destruct (currentScan st) as [p|] eqn:Ec.
  - destruct (wst_scan st Hst p Ec) as [s Es]. exists (mkRefresher p false), st, s. by split_and!.
  - destruct (startNewScan_ok st Hst) as (s & rand & E & Hs & Hr & Hp & Hw & Ht).
    assert (possibleNodes s = []) as Hps.
    { unfold startNewScan in E. destruct (queue_nodes _ _ _).
      apply bind_Ret in E as ([u r1] & _ & E). apply bind_Ret in E as ([d r2] & _ & E). by injection E as <- _. }
    rewrite E. cbn [mbind result_bind]. set (p := fresh _).
    assert (scans st !! p = None) as Hn by (apply not_elem_of_dom, is_fresh).
    eexists _, _, s. split; [done|]. cbn. split.
    { pose proof (wf_put_scan (set_rand st rand) p s (wf_set_rand st rand Hst Hr) Hs) as [? ? ? ? ? ?].
      constructor; try done. intros q [= <-]. cbn. rewrite lookup_insert_eq. by eexists. }
    split; [done|]. split; [apply lookup_insert_eq|]. split; [done|]. split; [done|]. split; [done|].
    split; [|by split_and!].
    intros q [x Hq]. rewrite lookup_insert_ne; [done|]. intros <-. congruence.
Qed.

(** What one thread relies on, at the top of its loop: it owns the current scan,
    which waits for nobody; the hosts contacted so far are those tried; everything
    it may still contact is in the universe [U]. *)
Section one_thread.
Context (det : bool) (env : nat -> HostAndPort -> Z * BSONObj) (U : gset hkey).
(** The set's name and the nodes at the start of the scan. *)
Context (name : bytes) (N0 : gset hkey).

(** The network: round trips are 64-bit numbers, answers are documents (or empty)
    that name hosts of [U]. *)
Definition env_ok : Prop := forall k h, in_range int64 (env k h).1 /\ wf_obj (env k h).2 /\
  parsed_hosts h (env k h).1 (env k h).2 ⊆ U.

Definition host_set (l : list HostAndPort) : gset hkey := list_to_set (hp_key <$> l).

(** Every node was contacted, or a host contacted answered as the master. *)
Definition master_among (T : list HostAndPort) : Prop :=
  exists k h, h ∈ T /\ master_reply name h (env k h).1 (env k h).2.

Record scanning (p : nat) (st : SetState) (T : list HostAndPort) : Prop := {
  sc_wf : wf_state st;
  sc_current : currentScan st = Some p;
  sc_nodup : NoDup (hp_key <$> T);
  sc_universe : host_set T ⊆ U;
  sc_scan : exists s, scans st !! p = Some s /\ waitingFor s = [] /\
    hkeys (triedHosts s) = host_set T /\ known s ⊆ U /\
    (master_among T \/ (foundUpMaster s = false /\ N0 ⊆ hkeys (hostsToScan s) ∪ host_set T));
  sc_name : s_name st = name }.

Lemma host_set_app l h : host_set (l ++ [h]) = {[hp_key h]} ∪ host_set l.
Proof.
  unfold host_set. rewrite fmap_app, list_to_set_app_L. cbn.
  rewrite (right_id_L ∅ (∪)). apply (comm_L (∪)).
Qed.

Lemma not_host_set h l : hp_key h ∉ host_set l -> hp_key h ∉ hp_key <$> l.
Proof. unfold host_set. by rewrite elem_of_list_to_set. Qed.

Lemma cover_step (n a b c t u : gset hkey) :
  n ⊆ a ∪ t -> a ⊆ u ∪ b -> b ⊆ c -> n ⊆ c ∪ (u ∪ t).
Proof. set_solver. Qed.

(** The reply of the host just contacted brings the thread back to the top. *)
Lemma reply_scanning r criteria st T k h st1 lat obj :
  scanning (r_scan r) st T -> 0 <= consecutiveFailedScans st ->
  refresh_top det r criteria st = Ret (Contact h, st1) ->
  env k h = (lat, obj) -> in_range int64 lat -> wf_obj obj -> parsed_hosts h lat obj ⊆ U ->
  exists st2, scanning (r_scan r) st2 (T ++ [h]) /\
    consecutiveFailedScans st2 = consecutiveFailedScans st /\
    refresh_reply det r criteria h lat obj st1 = refresh_top det r criteria st2.
Proof.
  intros [Hst Hc Hnd Hu (s & Es & Hw & Ht & Hk & Hcov) Hname] Hf Htop He Hl Ho Hp.
  destruct (refresh_top_ret det r criteria st _ st1 Hst Hf Htop)
    as (Hst1 & _ & [_ Hnm1] & _ & Hf1 & Hn & _ & Hc1 & s0 & s1 & Es0 & Es1 & _ & Hnew & Hkh & Ht1 & Hw1 & Hk1 & Hup1 & Hq1 & _).
  rewrite Es in Es0. injection Es0 as <-. rewrite Hw in Hw1. rewrite keys_nil, (right_id_L ∅ (∪)) in Hw1.
  assert (exists st2, (if is_nil obj then failedHost r h st1 else receivedIsMaster r h lat obj st1) = Ret st2 /\
    wf_state st2 /\ reply_post (r_scan r) h (parsed_hosts h lat obj) (master_reply (s_name st1) h lat obj) st1 st2) as (st2 & E & Hst2 & Hpost).
  { destruct (is_nil obj); [by eapply failedHost_ok|].
    destruct (receivedIsMaster_ok r h lat obj st1 s1 Hst1 Es1 Hn Ho Hl) as (st2 & E & H1 & H2 & _). by exists st2. }
  destruct Hpost as (Hc2 & [_ Hnm2] & Hf2 & _ & s1' & s2 & Es1' & Es2 & Ht2 & Hk2 & Hcov2 & Hw2 & _).
  rewrite Es1 in Es1'. injection Es1' as <-. exists st2. split.
  - constructor; [done|congruence| | | |congruence].
    + rewrite fmap_app. apply NoDup_app. split; [done|]. split; [|apply NoDup_singleton].
      intros x Hx ->%list_elem_of_singleton. rewrite Ht in Hnew. by apply (not_host_set h T) in Hnew.
    + rewrite host_set_app. apply union_least; [|done]. apply singleton_subseteq_l. by apply Hk.
    + exists s2. split; [done|]. split.
      * apply hset_nil. rewrite Hw1 in Hw2. apply set_eq. intros x. split; [|by intros ?%elem_of_empty].
        intros Hx%Hw2. set_solver.
      * rewrite Ht2, Ht1, Ht, host_set_app. split; [done|]. split.
        { etrans; [exact Hk2|]. apply union_least; [by etrans|done]. }
        destruct Hcov as [(k' & h' & Hin & Hm)|[Hup Hcov]].
        { left. exists k', h'. split; [apply elem_of_app; by left|done]. }
        destruct Hcov2 as [[Hm _]|[Hup2 Hq2]].
        { left. exists k, h. split; [apply elem_of_app; right; by left|]. rewrite He. cbn. congruence. }
        right. split; [congruence|]. by eapply cover_step.
  - split; [congruence|]. unfold refresh_reply. rewrite bool_decide_eq_true_2 by done. cbn [negb].
    by rewrite E.
Qed.

(** [refreshAll] at the top: it goes on, or has ended the scan. *)
Lemma top_none r st T : scanning (r_scan r) st T -> fails_ok st ->
  exists o st', refresh_top det r None st = Ret (o, st') /\
    match o with
    | Return h => h = HostAndPort_default /\ currentScan st' = None /\ (master_among T \/ N0 ⊆ host_set T)
    | _ => True
    end.
Proof.
  intros [Hst Hc _ _ (s & Es & _ & _ & _ & Hcov) _] Hf. unfold refresh_top. cbn [matching_or_empty mbind result_bind].
  change (negb (HostAndPort_empty HostAndPort_default)) with false. cbn match.
  destruct (getNextStep_cases r st Hst) as [(ns & st' & -> & _ & _ & _ & _ & _ & _ & Hp)|[H _]].
  - unfold fails_ok in Hf. lia.
  - cbn [mbind result_bind]. destruct ns; [by eexists _, _|by eexists _, _|].
    exists (Return HostAndPort_default), st'. split; [done|]. split; [done|].
    destruct Hp as [Hne [->|(_ & ? & s' & _ & Es' & _ & [Hq _] & _)]]; [congruence|]. split; [done|].
    rewrite Es in Es'. injection Es' as <-. destruct Hcov as [?|[_ Hcov]]; [by left|right].
    rewrite Hq, keys_nil, (left_id_L ∅ (∪)) in Hcov. done.
  - unfold fails_ok in Hf. lia.
Qed.

Definition run_post (criteria : option ReadPreferenceSetting) (run : Run) : Prop :=
  match run with
  | Returned h st' contacted =>
      wf_state st' /\ NoDup (hp_key <$> contacted) /\ host_set contacted ⊆ U /\
      (criteria = None -> h = HostAndPort_default /\ currentScan st' = None /\
         (master_among contacted \/ N0 ⊆ host_set contacted))
  | Raised _ => criteria <> None
  | _ => False
  end.

Lemma run_ok r criteria fuel st T moment : env_ok ->
  scanning (r_scan r) st T -> fails_ok st -> (size (U ∖ host_set T) <= fuel)%nat ->
  run_post criteria
    match refresh_top det r criteria st with
    | Ret (o, st') => refresh_run det env fuel r criteria moment o st' T
    | Throw e => Raised e
    end.
Proof.
  intros He. revert st T moment. induction fuel as [|fuel IH]; intros st T moment Hsc Hf Hsz.
  all: pose proof (top_none r st T Hsc Hf) as Hnone.
  all: destruct (refresh_top det r criteria st) as [[o st1]|e] eqn:Etop;
    [|intros ->; destruct Hnone as (? & ? & E & _); congruence].
  all: destruct (refresh_top_ret det r criteria st o st1 (sc_wf _ _ _ Hsc) (proj1 Hf) Etop)
    as (Hst1 & _ & _ & _ & Hp).
  all: destruct o as [h| |h]; cbn [refresh_run].
  1,4: split; [done|]; split; [apply Hsc|]; split; [apply Hsc|]; intros ->;
    destruct Hnone as (? & ? & E & Ho); rewrite Etop in E; by injection E as <- <-.
  1,3: destruct Hp as (_ & _ & _ & s & Es & _ & Hw); destruct (sc_scan _ _ _ Hsc) as (s' & Es' & Hw' & _);
    congruence.
  - destruct Hp as (_ & _ & _ & _ & s & s1 & Es & _ & _ & Hnew & Hkh & _).
    destruct (sc_scan _ _ _ Hsc) as (s' & Es' & _ & Ht & Hk & _). rewrite Es in Es'. injection Es' as <-.
    rewrite Ht in Hnew. assert (U ∖ host_set T = ∅) as Hemp by (apply leibniz_equiv, size_empty_inv; lia).
    assert (hp_key h ∈ U ∖ host_set T) as Hin by (apply elem_of_difference; auto).
    rewrite Hemp in Hin. by apply elem_of_empty in Hin.
  - destruct (env moment h) as [lat obj] eqn:Ee. destruct (He moment h) as (Hl & Ho & Hu).
    rewrite Ee in Hl, Ho, Hu. cbn in Hl, Ho, Hu.
    destruct (reply_scanning r criteria st T moment h st1 lat obj Hsc (proj1 Hf) Etop Ee Hl Ho Hu)
      as (st2 & Hsc2 & Hf2 & ->).
    apply IH; [done|unfold fails_ok in *; lia|].
    destruct Hp as (_ & _ & _ & _ & s & s1 & Es & _ & _ & Hnew & Hkh & _).
    destruct (sc_scan _ _ _ Hsc) as (s' & Es' & _ & Ht & Hk & _). rewrite Es in Es'. injection Es' as <-.
    rewrite Ht in Hnew. rewrite host_set_app.
    assert (U ∖ ({[hp_key h]} ∪ host_set T) ⊂ U ∖ host_set T) as Hlt.
    { split; [set_solver|]. intros Hs. assert (hp_key h ∈ U ∖ host_set T) as Hin by (apply elem_of_difference; auto).
      apply Hs in Hin. set_solver. }
    apply subset_size in Hlt. lia.
Qed.

Lemma start_scanning st : wf_state st -> currentScan st = None -> s_name st = name ->
  N0 = keys n_host (nodes st) -> N0 ⊆ U ->
  exists r st', startOrContinueRefresh st = Ret (r, st') /\ scanning (r_scan r) st' [] /\
    consecutiveFailedScans st' = consecutiveFailedScans st.
Proof.
  intros Hst Hc Hn HN HU.
  destruct (Refresher_ctor_ok st Hst) as (r & st' & s & E & Hst' & Hc' & Es & Hf & _ & _ & _ & _ & Hn' & Hnew).
  rewrite Hc in Hnew. destruct Hnew as (_ & Hw & Ht & Hq & Hp).
  assert (hkeys (hostsToScan s) = N0) as Hk.
  { unfold keys. rewrite Hq, HN. unfold keys. by rewrite <-list_fmap_compose. }
  exists r, st'. split; [exact E|]. split; [|done].
  constructor; [done|done|constructor|apply empty_subseteq| |congruence].
  exists s. split; [done|]. split; [done|]. split; [by rewrite Ht|]. split.
  - unfold known. rewrite Hp, keys_nil, Hk. by rewrite (right_id_L ∅ (∪)).
  - destruct (foundUpMaster s) eqn:Eu.
    + exfalso. unfold startOrContinueRefresh, Refresher_ctor in E. rewrite Hc in E.
      unfold startNewScan in E. destruct (queue_nodes _ _ _).
      apply bind_Ret in E as ([x r1] & E1 & E). apply bind_Ret in E1 as ([u r2] & _ & E1).
      apply bind_Ret in E1 as ([d r3] & _ & E1). injection E1 as <- <-. injection E as <- <-.
      cbn in Es. rewrite lookup_insert_eq in Es. injection Es as <-. done.
    + right. split; [done|]. rewrite Hk. apply union_subseteq_l.
Qed.
End one_thread.

(** C21: one thread that starts a scan and runs [_refreshUntilMatches] comes back,
    whatever the hosts answer, after contacting each host at most once and only
    hosts it knew or heard of: at most as many as the universe of hosts that the
    nodes and the answers name.  It never blocks on the condition variable, and
    only read preference criteria can make it raise an error.  [refreshAll] ends
    the scan, and unless a host answered as the master of the set it has contacted
    every node. *)
Theorem refreshUntilMatches_returns det env U criteria fuel moment st :
  wf_state st -> currentScan st = None -> fails_ok st -> env_ok env U ->
  keys n_host (nodes st) ⊆ U -> (size U <= fuel)%nat ->
  run_post env U (s_name st) (keys n_host (nodes st)) criteria
    (startRefresh det env fuel criteria moment st).2.
Proof.
  intros Hst Hc Hf He HU Hfuel. unfold startRefresh.
  destruct (start_scanning env U (s_name st) (keys n_host (nodes st)) st) as (r & st' & -> & Hsc & Hfs); try done.
  cbn [snd]. unfold _refreshUntilMatches. apply (run_ok det env U (s_name st) (keys n_host (nodes st))).
  - done.
  - done.
  - unfold fails_ok in *. lia.
  - unfold host_set. cbn. by rewrite (difference_empty_L U).
Qed.

(** The network of the samples: [a] is the master of [a] and [c], the others are
    down. *)
Definition sample_env (k : nat) (h : HostAndPort) : Z * BSONObj :=
  if HostAndPort_eq h (mkHostAndPort (B "a") 27017) then (120, sample_reply) else (0, []).
Definition sample_hosts : gset hkey :=
  host_set [mkHostAndPort (B "a") 27017; mkHostAndPort (B "b") 27018; mkHostAndPort (B "c") 27019].

Lemma sample_parsed h : exists r, IsMasterReply_parse h 120 sample_reply = Ret r /\ r_ok r = true /\
  r_normalHosts r = [mkHostAndPort (B "a") 27017; mkHostAndPort (B "c") 27019] /\
  r_primary r = HostAndPort_default.
Proof. eexists. split; [vm_compute; reflexivity|]. by split_and!. Qed.

Lemma sample_env_ok : env_ok sample_env sample_hosts.
Proof.
  intros k h. unfold sample_env. destruct (HostAndPort_eq h _); cbn [fst snd].
  - split; [unfold in_range; cbn; lia|]. split; [apply sample_reply_wf|].
    destruct (sample_parsed h) as (r & E & Eok & Eh & Ep). unfold parsed_hosts, reply_hosts.
    rewrite E, Eok, Eh, Ep. apply (bool_decide_unpack _). by vm_compute.
  - split; [unfold in_range; cbn; lia|]. split; [constructor|]. cbn. apply empty_subseteq.
Qed.

Lemma refreshUntilMatches_returns_witness :
  let st := set_currentScan sample_state None in
  exists st' contacted,
    (startRefresh false sample_env 3 None 0 st).2 = Returned HostAndPort_default st' contacted /\
    NoDup (hp_key <$> contacted) /\ currentScan st' = None /\ wf_state st'.
Proof.
  intros st.
  assert (wf_state st) as Hst by (destruct sample_wf as [? ? ? ? ? ?]; by constructor).
  assert (keys n_host (nodes st) ⊆ sample_hosts) as Hsub by (apply (bool_decide_unpack _); by vm_compute).
  assert (size sample_hosts <= 3)%nat as Hsz by (by vm_compute).
  assert (fails_ok st) as Hf by (by split).
  pose proof (refreshUntilMatches_returns false sample_env sample_hosts None 3 0 st Hst eq_refl Hf
    sample_env_ok Hsub Hsz) as H.
  assert (match (startRefresh false sample_env 3 None 0 st).2 with Returned _ _ _ => true | _ => false end = true)
    as E by (by vm_compute).
  destruct (startRefresh false sample_env 3 None 0 st).2 as [h st' T|? ?|e|]; try discriminate E.
  destruct H as (Hw & Hnd & _ & Hr). destruct (Hr eq_refl) as (-> & Hc & _). exists st', T.
  split; [reflexivity|]. split; [exact Hnd|]. split; [exact Hc|exact Hw].
Defined.
