(* ===== verification/RSMonitor.v ===== *)
(** * Threads sharing a monitor: client/replica_set_monitor.cpp

    The interleaving model of a [ReplicaSetMonitor]: any number of threads in
    [getHostOrRefresh] or [refreshAll], each step being one critical section of the
    mutex of the set ([SetState::mutex]), and the condition variable a counter of
    notifications.  Waking up without a notification is allowed, as the standard
    allows it. *)
From stdpp Require Import relations.
From S2P Require Import Prelude StringData HostAndPort Random BsonTypes BufBuilder Bson BsonCompare.
From S2P Require Import BsonObj HostSet RSState RSSelect RSRefresh RSLoop.
Local Open Scope Z_scope.

(** ** Threads *)

(** What a thread in [_refreshUntilMatches] works with; [j_again]: it may start a
    second scan, as [getHostOrRefresh] does once. *)
Record Job := mkJob {
  j_refresher : Refresher;
  j_criteria : option ReadPreferenceSetting;
  j_again : bool }.

Inductive Thread :=
  | Asking (c : ReadPreferenceSetting)                      (* getHostOrRefresh, first look *)
  | Entering (criteria : option ReadPreferenceSetting) (again : bool) (* before startOrContinueRefresh *)
  | AtTop (j : Job)
  | Waiting (j : Job) (gen : nat)                           (* in cv.wait since notification [gen] *)
  | Contacting (j : Job) (h : HostAndPort)                  (* mutex released, isMaster sent *)
  | Finished (h : HostAndPort).

Definition after_return (j : Job) (h : HostAndPort) : Thread :=
  match j_criteria j with
  | None => Finished h
  | Some c =>
      if negb (HostAndPort_empty h) || r_startedNewScan (j_refresher j) || negb (j_again j) then Finished h
      else Entering (Some c) false
  end.

Definition resume (j : Job) (o : Outcome) (st : SetState) : Thread :=
  match o with
  | Return h => after_return j h
  | Wait => Waiting j (cv st)
  | Contact h => Contacting j h
  end.

Record System := mkSystem { shared : SetState; threads : gmap nat Thread }.

Section system.
Context (det : bool).

(** A thread's next critical section. [Contacting] threads get some answer. *)
Inductive runs (i : nat) : System -> System -> Prop :=
  | run_ask st ths c h st' :
      ths !! i = Some (Asking c) -> getMatchingHost det st c = Ret (h, st') ->
      runs i (mkSystem st ths)
        (mkSystem st' (<[i := if negb (HostAndPort_empty h) then Finished h else Entering (Some c) true]> ths))
  | run_enter st ths criteria again r st' :
      ths !! i = Some (Entering criteria again) -> startOrContinueRefresh st = Ret (r, st') ->
      runs i (mkSystem st ths) (mkSystem st' (<[i := AtTop (mkJob r criteria again)]> ths))
  | run_top st ths j o st' :
      ths !! i = Some (AtTop j) -> refresh_top det (j_refresher j) (j_criteria j) st = Ret (o, st') ->
      runs i (mkSystem st ths) (mkSystem st' (<[i := resume j o st']> ths))
  | run_notified st ths j gen o st' :
      ths !! i = Some (Waiting j gen) -> (gen < cv st)%nat ->
      refresh_top det (j_refresher j) (j_criteria j) st = Ret (o, st') ->
      runs i (mkSystem st ths) (mkSystem st' (<[i := resume j o st']> ths))
  | run_reply st ths j h lat obj o st' :
      ths !! i = Some (Contacting j h) -> in_range int64 lat -> wf_obj obj ->
      refresh_reply det (j_refresher j) (j_criteria j) h lat obj st = Ret (o, st') ->
      runs i (mkSystem st ths) (mkSystem st' (<[i := resume j o st']> ths)).

(** The rest: new threads, spurious wake-ups, and failures that connections
    report to [ReplicaSetMonitor::failedHost]. *)
Inductive sys_step : System -> System -> Prop :=
  | step_run i s s' : runs i s s' -> sys_step s s'
  | step_ask st ths i c : ths !! i = None -> sys_step (mkSystem st ths) (mkSystem st (<[i := Asking c]> ths))
  | step_refreshAll st ths i :
      ths !! i = None -> sys_step (mkSystem st ths) (mkSystem st (<[i := Entering None false]> ths))
  | step_spurious st ths i j gen o st' :
      ths !! i = Some (Waiting j gen) -> refresh_top det (j_refresher j) (j_criteria j) st = Ret (o, st') ->
      sys_step (mkSystem st ths) (mkSystem st' (<[i := resume j o st']> ths))
  | step_failed st ths h : sys_step (mkSystem st ths) (mkSystem (Monitor_failedHost st h) ths).

(** A new monitor. *)
Definition initial (s : System) : Prop :=
  exists name seeds threshold now,
    hs_sorted seeds /\ Forall named seeds /\ in_range int64 now /\
    SetState_ctor name seeds threshold now = Ret (shared s) /\ threads s = ∅.

(** ** The invariant *)

Definition job_of (t : Thread) : option Job :=
  match t with AtTop j | Waiting j _ | Contacting j _ => Some j | _ => None end.
Definition scan_of (j : Job) : nat := r_scan (j_refresher j).

(** Thread [i] is contacting the host of key [k] for scan [p]. *)
Definition contacts (ths : gmap nat Thread) (i p : nat) (k : hkey) : Prop :=
  exists j h, ths !! i = Some (Contacting j h) /\ scan_of j = p /\ hp_key h = k.

(** A thread waiting for a notification that has not come: its scan is the current
    one and has outstanding hosts. *)
Definition stuck_ok (st : SetState) (p : nat) : Prop :=
  currentScan st = Some p /\
  exists s, scans st !! p = Some s /\ hostsToScan s = [] /\ waitingFor s <> [].

Record inv (s : System) : Prop := {
  inv_wf : wf_state (shared s);
  inv_fails : 0 <= consecutiveFailedScans (shared s);
  inv_jobs : forall i t j, threads s !! i = Some t -> job_of t = Some j -> is_Some (scans (shared s) !! scan_of j);
  inv_waited : forall p sc k, currentScan (shared s) = Some p -> scans (shared s) !! p = Some sc ->
    k ∈ hkeys (waitingFor sc) -> exists i, contacts (threads s) i p k;
  inv_tried : forall i p k sc, contacts (threads s) i p k -> scans (shared s) !! p = Some sc ->
    k ∈ hkeys (triedHosts sc);
  inv_named : forall i j h, threads s !! i = Some (Contacting j h) -> named h;
  inv_once : forall i i' p k, contacts (threads s) i p k -> contacts (threads s) i' p k -> i = i';
  inv_gen : forall i j gen, threads s !! i = Some (Waiting j gen) ->
    (gen <= cv (shared s))%nat /\ (gen = cv (shared s) -> stuck_ok (shared s) (scan_of j)) }.

Definition not_contacting (t : Thread) : Prop := match t with Contacting _ _ => False | _ => True end.

Lemma contacts_insert ths i t i' p k : not_contacting t ->
  contacts (<[i := t]> ths) i' p k -> contacts ths i' p k /\ i' <> i.
Proof.
  intros Ht (j & h & E & Hp & Hk). destruct (decide (i = i')) as [<-|Hne].
  - rewrite lookup_insert_eq in E. injection E as ->. done.
  - rewrite lookup_insert_ne in E by done. split; [by exists j, h|congruence].
Qed.

Lemma contacts_other ths i t i' p k : i <> i' -> contacts ths i' p k -> contacts (<[i := t]> ths) i' p k.
Proof. intros Hne (j & h & E & Hp). exists j, h. by rewrite lookup_insert_ne. Qed.

(** A thread that contacts nobody moves on, the shared view being the same. *)
Lemma inv_move st ths i t :
  inv (mkSystem st ths) ->
  (match ths !! i with Some t => not_contacting t | None => True end) ->
  not_contacting t -> (forall j, job_of t = Some j -> is_Some (scans st !! scan_of j)) ->
  (forall j gen, t = Waiting j gen -> (gen <= cv st)%nat /\ (gen = cv st -> stuck_ok st (scan_of j))) ->
  inv (mkSystem st (<[i := t]> ths)).
Proof.
  intros [Hw Hf Hj Hwt Ht Hn Ho Hg] Hold Hnew Hjob Hwait. cbn in *. constructor; cbn; [done|done| | | | | |].
  - intros i' t' j. destruct (decide (i = i')) as [<-|Hne].
    + rewrite lookup_insert_eq. intros [= <-]. apply Hjob.
    + rewrite lookup_insert_ne by done. apply Hj.
  - intros p sc k Hc Hs Hk. destruct (Hwt p sc k Hc Hs Hk) as [i' Hi']. exists i'.
    apply contacts_other; [|done]. intros <-. destruct Hi' as (j & h & E & _). by rewrite E in Hold.
  - intros i' p k sc [Hi' _]%contacts_insert; [|done]. by eapply Ht.
  - intros i' j h. destruct (decide (i = i')) as [<-|Hne].
    + rewrite lookup_insert_eq. intros [= ->]. done.
    + rewrite lookup_insert_ne by done. apply Hn.
  - intros i1 i2 p k [H1 _]%contacts_insert [H2 _]%contacts_insert; try done. by eapply Ho.
  - intros i' j gen. destruct (decide (i = i')) as [<-|Hne].
    + rewrite lookup_insert_eq. intros [= ->]. by apply Hwait.
    + rewrite lookup_insert_ne by done. apply Hg.
Qed.

(** A thread gives up contacting, without the view changing: its scan is not the
    current one. *)
Lemma inv_abandon st ths i j h t :
  inv (mkSystem st ths) -> ths !! i = Some (Contacting j h) -> currentScan st <> Some (scan_of j) ->
  t = AtTop j -> inv (mkSystem st (<[i := t]> ths)).
Proof.
  intros [Hw Hf Hj Hwt Ht Hn Ho Hg] Ei Hc ->. cbn in *. constructor; cbn; [done|done| | | | | |].
  - intros i' t' j'. destruct (decide (i = i')) as [<-|Hne].
    + rewrite lookup_insert_eq. intros [= <-] [= <-]. by apply (Hj i (Contacting j h)).
    + rewrite lookup_insert_ne by done. apply Hj.
  - intros p sc k Hcp Hs Hk. destruct (Hwt p sc k Hcp Hs Hk) as [i' Hi']. exists i'.
    apply contacts_other; [|done]. intros <-. destruct Hi' as (j' & h' & E & Hp & _).
    rewrite Ei in E. injection E as -> ->. congruence.
  - intros i' p k sc [Hi' _]%contacts_insert; [|done]. by eapply Ht.
  - intros i' j' h'. destruct (decide (i = i')) as [<-|Hne]; [by rewrite lookup_insert_eq|].
    rewrite lookup_insert_ne by done. apply Hn.
  - intros i1 i2 p k [H1 _]%contacts_insert [H2 _]%contacts_insert; try done. by eapply Ho.
  - intros i' j' gen. destruct (decide (i = i')) as [<-|Hne]; [by rewrite lookup_insert_eq|].
    rewrite lookup_insert_ne by done. apply Hg.
Qed.

(** Sections that leave the scans alone. *)
Lemma inv_same st st' ths :
  inv (mkSystem st ths) -> wf_state st' -> scans st' = scans st -> currentScan st' = currentScan st ->
  cv st' = cv st -> 0 <= consecutiveFailedScans st' -> inv (mkSystem st' ths).
Proof.
  intros [Hw Hf Hj Hwt Ht Hn Ho Hg] Hw' Hs Hc Hcv Hf'. cbn in *.
  constructor; cbn; try done; rewrite ?Hs, ?Hc, ?Hcv; try done.
  intros i j gen Hi. destruct (Hg i j gen Hi) as [H1 H2]. split; [done|].
  intros Heq. destruct (H2 Heq) as (Hc2 & sc & Hsc & Hq). split; [congruence|]. exists sc. by rewrite Hs.
Qed.

Lemma inv_match st ths criteria h st' :
  inv (mkSystem st ths) -> matching_or_empty det criteria st = Ret (h, st') -> inv (mkSystem st' ths).
Proof.
  intros Hi H. destruct (matching_view det criteria st h st' (inv_wf _ Hi) H) as [Hw (Hs & Hc & Hcv & _ & Hf & _)].
  apply (inv_same st); try done. rewrite Hf. apply Hi.
Qed.

(** ** The critical sections *)

Lemma inv_enter st ths r st' :
  inv (mkSystem st ths) -> startOrContinueRefresh st = Ret (r, st') ->
  inv (mkSystem st' ths) /\ is_Some (scans st' !! r_scan r).
Proof.
  intros [Hw Hf Hj Hwt Ht Hn Ho Hg] H. cbn in *.
  destruct (Refresher_ctor_ok st Hw) as (r0 & st0 & s & E & Hw0 & Hc0 & Es0 & Hf0 & _ & _ & Hold & Hcv & _ & Hnew).
  unfold startOrContinueRefresh in H. rewrite E in H. injection H as <- <-. split; [|by eexists].
  destruct (currentScan st) as [p|] eqn:Ec.
  { destruct Hnew as [_ ->]. constructor; cbn; done || rewrite ?Ec; done. }
  destruct Hnew as (Hnone & Hws & _). constructor; cbn; [done|lia| | | |done|done|].
  - intros i t j Hi Ej. rewrite Hold; by eapply Hj.
  - intros p sc k Hcp Hs Hk. rewrite Hc0 in Hcp. injection Hcp as <-. rewrite Es0 in Hs. injection Hs as <-.
    rewrite Hws, keys_nil in Hk. by apply elem_of_empty in Hk.
  - intros i p k sc Hcon Hs. pose proof Hcon as (j & h & Ei & <- & _).
    rewrite Hold in Hs by (by eapply (Hj i)). by eapply Ht.
  - intros i j gen Hi. rewrite Hcv. destruct (Hg i j gen Hi) as [H1 H2]. split; [done|].
    intros Heq. destruct (H2 Heq) as [Hc2 _]. congruence.
Qed.

(** A scan that changes while the others stay. *)
Lemma frame_some p st st' q : frame_scan p st st' -> is_Some (scans st' !! p) ->
  is_Some (scans st !! q) -> is_Some (scans st' !! q).
Proof.
  intros [Hfr _] Hp Hq. destruct (decide (q = p)) as [->|Hne]; [done|]. by rewrite Hfr.
Qed.

(** A thread is not stuck when another one of its scan can go on. *)
Lemma stuck_not st p q sc : stuck_ok st q -> currentScan st = Some p -> scans st !! p = Some sc ->
  ~ (hostsToScan sc = [] /\ waitingFor sc <> []) -> False.
Proof.
  intros (Hc & s & Hs & Hq) Hp Hsc Hn. rewrite Hc in Hp. injection Hp as ->. rewrite Hs in Hsc.
  by injection Hsc as ->.
Qed.

Lemma inv_contact st st' ths i j h t :
  inv (mkSystem st ths) -> ths !! i = Some t -> job_of t = Some j -> not_contacting t ->
  wf_state st' -> 0 <= consecutiveFailedScans st' ->
  top_post (scan_of j) st (Contact h) st' ->
  inv (mkSystem st' (<[i := Contacting j h]> ths)).
Proof.
  intros [Hw Hf Hj Hwt Ht Hn Ho Hg] Ei Ej Hnc Hw' Hf' (Hfr & Hcv & _ & Hnm & Hc & Hc' & s & s' & Es & Es' &
    Hns & Hnew & _ & Ht' & Hw2 & _).
  cbn in *. set (p := scan_of j) in *.
  assert (forall i' q k, contacts (<[i := Contacting j h]> ths) i' q k ->
    (i' = i /\ q = p /\ k = hp_key h) \/ (i' <> i /\ contacts ths i' q k)) as Hcon.
  { intros i' q k (j' & h' & E & Hq & Hk). destruct (decide (i = i')) as [<-|Hne].
    - rewrite lookup_insert_eq in E. injection E as <- <-. left. by subst.
    - rewrite lookup_insert_ne in E by done. right. split; [congruence|]. by exists j', h'. }
  constructor; cbn; [done|done| | | | | |].
  - intros i' t' j' Hi' Ej'. eapply frame_some; [exact Hfr|by eexists|].
    destruct (decide (i = i')) as [<-|Hne].
    + rewrite lookup_insert_eq in Hi'. injection Hi' as <-. injection Ej' as <-. by eexists.
    + rewrite lookup_insert_ne in Hi' by done. by eapply Hj.
  - intros q sc k Hcq Hsq Hk. rewrite Hc' in Hcq. injection Hcq as <-. rewrite Es' in Hsq. injection Hsq as <-.
    rewrite Hw2 in Hk. apply elem_of_union in Hk as [->%elem_of_singleton|Hk].
    + exists i, j, h. by rewrite lookup_insert_eq.
    + destruct (Hwt p s k Hc Es Hk) as [i' Hi']. exists i'. apply contacts_other; [|done].
      intros <-. destruct Hi' as (j' & h' & E & _). rewrite Ei in E. injection E as ->. destruct Hnc.
  - intros i' q k sc [(-> & -> & ->)|[Hne Hi']]%Hcon Hsq.
    + rewrite Es' in Hsq. injection Hsq as <-. rewrite Ht'. set_solver.
    + destruct (decide (q = p)) as [->|Hq].
      * rewrite Es' in Hsq. injection Hsq as <-. rewrite Ht'. apply elem_of_union_r. by eapply Ht.
      * destruct Hfr as [Hfr _]. rewrite Hfr in Hsq by done. by eapply Ht.
  - intros i' j' h'. destruct (decide (i = i')) as [<-|Hne].
    + rewrite lookup_insert_eq. by intros [= <- <-].
    + rewrite lookup_insert_ne by done. apply Hn.
  - intros i1 i2 q k [(-> & -> & ->)|[Hne1 H1]]%Hcon [(-> & E1 & E2)|[Hne2 H2]]%Hcon; [done| | |by eapply Ho].
    + exfalso. apply Hnew. by eapply Ht.
    + exfalso. subst. apply Hnew. by eapply Ht.
  - intros i' j' gen Hi'. destruct (decide (i = i')) as [<-|Hne]; [by rewrite lookup_insert_eq in Hi'|].
    rewrite lookup_insert_ne in Hi' by done. rewrite Hcv. destruct (Hg i' j' gen Hi') as [H1 H2].
    split; [done|]. intros Heq. exfalso. eapply (stuck_not st p); [by apply H2|done..].
Qed.

Lemma inv_return st st' ths p h :
  inv (mkSystem st ths) -> wf_state st' -> 0 <= consecutiveFailedScans st' ->
  top_post p st (Return h) st' -> inv (mkSystem st' ths).
Proof.
  intros Hi Hw' Hf' (Hfr & Hcv & [[Hs Hc]|(Hc & Hc' & s & s' & Es & Es' & Hq & Hwn & Ht')]);
    [by apply (inv_same st)|].
  destruct Hi as [Hw Hf Hj Hwt Ht Hn Ho Hg]. cbn in *. constructor; cbn; [done|done| | | |done|done|].
  - intros i t j Hi Ej. eapply frame_some; [exact Hfr|by eexists|by eapply Hj].
  - intros q sc k Hcq. congruence.
  - intros i q k sc Hcon Hsq. destruct (decide (q = p)) as [->|Hne].
    + rewrite Es' in Hsq. injection Hsq as <-. rewrite Ht'. by eapply Ht.
    + destruct Hfr as [Hfr _]. rewrite Hfr in Hsq by done. by eapply Ht.
  - intros i j gen Hi. rewrite Hcv. destruct (Hg i j gen Hi) as [H1 H2]. split; [done|].
    intros Heq. exfalso. eapply (stuck_not st p); [by apply H2|done|done|]. by intros [_ []].
Qed.

(** A thread at the top of the loop, or waiting. *)
Lemma inv_top st ths i t j o st' :
  inv (mkSystem st ths) -> ths !! i = Some t -> job_of t = Some j -> not_contacting t ->
  refresh_top det (j_refresher j) (j_criteria j) st = Ret (o, st') ->
  inv (mkSystem st' (<[i := resume j o st']> ths)).
Proof.
  intros Hi Ei Ej Hnc H.
  destruct (refresh_top_ret det _ _ st o st' (inv_wf _ Hi) (inv_fails _ Hi) H) as (Hw' & Hf' & Hp).
  fold (scan_of j) in Hp. destruct o as [h| |h]; cbn [resume].
  - apply inv_move; [by eapply inv_return|by rewrite Ei| | |]; unfold after_return; by repeat case_match.
  - destruct Hp as (_ & Hcv & Hs & Hc & Hc' & s & Es & Hq & Hwn). apply inv_move.
    + apply (inv_same st); try done. congruence.
    + by rewrite Ei.
    + done.
    + intros j' [= <-]. rewrite Hs, Es. by eexists.
    + intros j' gen [= <- <-]. split; [done|]. intros _. split; [done|]. exists s. by rewrite Hs.
  - by eapply inv_contact.
Qed.

(** Processing the answer: the thread is back at the top of the loop. *)
Lemma inv_reply st st' ths i j h new ms :
  inv (mkSystem st ths) -> ths !! i = Some (Contacting j h) -> currentScan st = Some (scan_of j) ->
  wf_state st' -> reply_post (scan_of j) h new ms st st' ->
  inv (mkSystem st' (<[i := AtTop j]> ths)).
Proof.
  intros [Hw Hf Hj Hwt Ht Hn Ho Hg] Ei Hc Hw' (Hc' & Hfr & Hf' & _ & s & s' & Es & Es' & Ht' & _ & _ & Hw2 & Hcv).
  cbn in *. set (p := scan_of j) in *. constructor; cbn; [done|lia| | | | | |].
  - intros i' t' j' Hi' Ej'. eapply frame_some; [exact Hfr|by eexists|].
    destruct (decide (i = i')) as [<-|Hne].
    + rewrite lookup_insert_eq in Hi'. injection Hi' as <-. injection Ej' as <-. by eexists.
    + rewrite lookup_insert_ne in Hi' by done. by eapply Hj.
  - intros q sc k Hcq Hsq Hk. rewrite Hc', Hc in Hcq. injection Hcq as <-. rewrite Es' in Hsq.
    injection Hsq as <-. apply Hw2 in Hk. apply elem_of_difference in Hk as [Hk Hne].
    destruct (Hwt p s k Hc Es Hk) as [i' Hi']. exists i'. apply contacts_other; [|done].
    intros <-. destruct Hi' as (j' & h' & E & _ & Hk'). rewrite Ei in E. injection E as -> ->. set_solver.
  - intros i' q k sc [Hi' _]%contacts_insert Hsq; [|done]. destruct (decide (q = p)) as [->|Hne].
    + rewrite Es' in Hsq. injection Hsq as <-. rewrite Ht'. by eapply Ht.
    + destruct Hfr as [Hfr _]. rewrite Hfr in Hsq by done. by eapply Ht.
  - intros i' j' h'. destruct (decide (i = i')) as [<-|Hne]; [by rewrite lookup_insert_eq|].
    rewrite lookup_insert_ne by done. apply Hn.
  - intros i1 i2 q k [H1 _]%contacts_insert [H2 _]%contacts_insert; try done. by eapply Ho.
  - intros i' j' gen. destruct (decide (i = i')) as [<-|Hne]; [by rewrite lookup_insert_eq|].
    rewrite lookup_insert_ne by done. intros Hi'. destruct (Hg i' j' gen Hi') as [H1 H2].
    destruct Hcv as [(Hcv & Hq & Hwn & _)|Hlt]; [|split; lia]. rewrite Hcv. split; [done|].
    intros Heq. destruct (H2 Heq) as (Hc2 & s2 & Es2 & Hq2 & _). rewrite Hc in Hc2. injection Hc2 as E.
    rewrite <-E in Es2. rewrite Es in Es2. injection Es2 as <-. split; [congruence|]. exists s'.
    rewrite <-E. split; [done|]. split; [congruence|done].
Qed.

Lemma reply_section st ths i j h lat obj o st' :
  inv (mkSystem st ths) -> ths !! i = Some (Contacting j h) -> in_range int64 lat -> wf_obj obj ->
  refresh_reply det (j_refresher j) (j_criteria j) h lat obj st = Ret (o, st') ->
  inv (mkSystem st' (<[i := resume j o st']> ths)).
Proof.
  intros Hi Ei Hl Ho H. unfold refresh_reply in H. destruct (bool_decide _) eqn:Ec; cbn [negb] in H.
  - apply bool_decide_eq_true in Ec. apply bind_Ret in H as (st1 & H1 & H).
    destruct (inv_jobs _ Hi i _ j Ei eq_refl) as [s Es]. cbn in Es.
    pose proof (inv_named _ Hi i j h Ei) as Hn.
    assert (exists new ms, wf_state st1 /\ reply_post (scan_of j) h new ms st st1) as (new & ms & Hw1 & Hp).
    { destruct (is_nil obj).
      - destruct (failedHost_ok (j_refresher j) h ∅ False st s (inv_wf _ Hi) Es) as (st2 & E & Hw2 & Hp).
        rewrite E in H1. injection H1 as <-. by eexists _, _.
      - destruct (receivedIsMaster_ok (j_refresher j) h lat obj st s (inv_wf _ Hi) Es Hn Ho Hl)
          as (st2 & E & Hw2 & Hp & _).
        rewrite E in H1. injection H1 as <-. by eexists _, _. }
    pose proof (inv_reply st st1 ths i j h new ms Hi Ei Ec Hw1 Hp) as Hi1.
    rewrite <-(insert_insert_eq ths i (resume j _ _) (AtTop j)). eapply (inv_top st1 _ i (AtTop j)); try done.
    apply lookup_insert_eq.
  - apply bool_decide_eq_false in Ec. apply bind_Ret in H as ([h1 st1] & H1 & H). injection H as <- <-.
    pose proof (inv_abandon st ths i j h _ Hi Ei Ec eq_refl) as Hi1.
    pose proof (inv_match _ _ _ _ _ Hi1 H1) as Hi2. cbn [resume].
    rewrite <-(insert_insert_eq ths i (after_return j _) (AtTop j)). apply inv_move; [done|by rewrite lookup_insert_eq| | |];
      unfold after_return; by repeat case_match.
Qed.

(** ** Reachable systems *)

Lemma failed_inv st ths h : inv (mkSystem st ths) -> inv (mkSystem (Monitor_failedHost st h) ths).
Proof.
  intros Hi. pose proof (inv_wf _ Hi) as Hw. cbn in Hw.
  destruct (mark_node_failed_ok (lastSeenMaster st) (nodes st) h (wst_nodes st Hw)) as [Hn Hk].
  apply (inv_same st); try done; [|apply Hi]. apply wf_set_nodes; [done|done|]. rewrite Hk. apply Hw.
Qed.

Lemma runs_inv i s s' : inv s -> runs i s s' -> inv s'.
Proof.
  intros Hi H. destruct H as [st ths c h st' Ei H|st ths criteria again r st' Ei H|st ths j o st' Ei H
    |st ths j gen o st' Ei Hgen H|st ths j h lat obj o st' Ei Hl Ho H].
  - apply inv_move; [by apply (inv_match st ths (Some c) h)|by rewrite Ei| | |]; by case_match.
  - destruct (inv_enter st ths r st' Hi H) as [Hi' Hr]. apply inv_move; [done|by rewrite Ei|done| |done].
    by intros j [= <-].
  - by eapply inv_top.
  - by eapply inv_top.
  - by eapply reply_section.
Qed.

Lemma sys_step_inv s s' : inv s -> sys_step s s' -> inv s'.
Proof.
  intros Hi H. destruct H as [i s s' H|st ths i c Ei|st ths i Ei|st ths i j gen o st' Ei H|st ths h].
  - by eapply runs_inv.
  - apply inv_move; [done|by rewrite Ei|done|done|done].
  - apply inv_move; [done|by rewrite Ei|done|done|done].
  - by eapply inv_top.
  - by apply failed_inv.
Qed.

Lemma SetState_ctor_wf name seeds threshold now st :
  hs_sorted seeds -> Forall named seeds -> in_range int64 now ->
  SetState_ctor name seeds threshold now = Ret st ->
  wf_state st /\ consecutiveFailedScans st = 0 /\ scans st = ∅ /\ currentScan st = None.
Proof.
  intros Hs Hn Hr H. unfold SetState_ctor in H. apply bind_Ret in H as (t & _ & H).
  apply bind_Ret in H as (u & _ & H). injection H as <-. split; [|done].
  assert (keys n_host (Node_ctor <$> seeds) = hkeys seeds) as Hk.
  { unfold keys. rewrite <-list_fmap_compose. done. }
  constructor; cbn; [|done|by rewrite Hk|done|by intros p s; rewrite lookup_empty|by apply seed_int64_wf].
  constructor.
  - clear -Hs. induction Hs as [|h l Hl IH Hh]; cbn; [constructor|]. apply hsorted_cons. split; [done|].
    by apply Forall_fmap.
  - apply Forall_fmap. eapply Forall_impl; [exact Hn|]. exact wf_Node_ctor.
  - intros n (h & -> & _)%list_elem_of_fmap. done.
Qed.

Lemma initial_sys_inv s : initial s -> inv s.
Proof.
  intros (name & seeds & threshold & now & Hs & Hn & Hr & H & Ht).
  destruct (SetState_ctor_wf _ _ _ _ _ Hs Hn Hr H) as (Hw & Hf & Hsc & Hc).
  assert (forall i t, threads s !! i = Some t -> False) as Hnone by (intros i t; by rewrite Ht, lookup_empty).
  constructor; [done|lia| | | | | |].
  - intros i t j H1. by apply Hnone in H1.
  - intros p sc k H1. congruence.
  - intros i p k sc (j & h & E & _). by apply Hnone in E.
  - intros i j h H1. by apply Hnone in H1.
  - intros i i' p k (j & h & E & _). by apply Hnone in E.
  - intros i j gen H1. by apply Hnone in H1.
Qed.

Definition reachable (s : System) : Prop := exists s0, initial s0 /\ rtc sys_step s0 s.

Lemma reachable_inv s : reachable s -> inv s.
Proof.
  intros (s0 & H0%initial_sys_inv & H). induction H as [s|s1 s2 s3 H12 _ IH]; [done|].
  apply IH. by eapply sys_step_inv.
Qed.

(** ** Progress *)

Definition criteria_of (t : Thread) : option ReadPreferenceSetting :=
  match t with
  | Asking c => Some c
  | Entering criteria _ => criteria
  | AtTop j | Waiting j _ | Contacting j _ => j_criteria j
  | Finished _ => None
  end.

(** Room for counting: less than [INT_MAX] scans in a row have failed, and the
    nodes with those a scan may still create fit in an [int]. *)
Definition roomy (st : SetState) : Prop :=
  fails_ok st /\ zlen (nodes st) <= int_max int32 /\
  forall p, zlen (nodes st) + pending st p <= int_max int32.
End system.

Lemma refresh_top_total r criteria st :
  wf_state st -> roomy st -> criteria_ok criteria ->
  exists o st', refresh_top false r criteria st = Ret (o, st').
Proof.
  intros Hst (Hf & Hn & Hp) Hc. unfold refresh_top.
  destruct (matching_ok criteria st Hst Hn Hc) as (h1 & st1 & -> & Hst1 & Es & _ & _ & _ & Efl & En).
  cbn [mbind result_bind]. destruct (negb (HostAndPort_empty h1)); [by eexists _, _|].
  destruct (getNextStep_cases r st1 Hst1) as [(ns & st2 & -> & Hst2 & _ & _ & _ & _ & Hlen & _)|[Hmax _]];
    [rewrite Efl; apply Hf| |unfold fails_ok in Hf; lia].
  cbn [mbind result_bind]. destruct ns; [by eexists _, _|by eexists _, _|].
  destruct (matching_ok criteria st2 Hst2) as (h3 & st3 & -> & _); [|done|cbn [mbind result_bind]; by eexists _, _].
  etrans; [exact Hlen|]. rewrite En. unfold pending. rewrite Es. apply Hp.
Qed.

Lemma mark_node_failed_length l h last : nodes_ok last l -> zlen (mark_node_failed l h) = zlen l.
Proof.
  intros Hl. unfold mark_node_failed. pose proof (findNode_spec l h last Hl) as Hf.
  destruct (findNode l h) as [[[a n] b]|]; [|done]. destruct Hf as [-> _].
  by rewrite !zlen_app, !zlen_cons.
Qed.

(** An unreachable host is always a possible answer. *)
Lemma no_answer_total r criteria h st s :
  wf_state st -> roomy st -> criteria_ok criteria -> scans st !! r_scan r = Some s ->
  exists o st', refresh_reply false r criteria h 0 [] st = Ret (o, st').
Proof.
  intros Hst Hroom Hc Es. unfold refresh_reply. destruct (negb _).
  - destruct Hroom as (_ & Hn & _). destruct (matching_ok criteria st Hst Hn Hc) as (h1 & st1 & -> & _).
    cbn [mbind result_bind]. by eexists _, _.
  - cbn [is_nil]. destruct (failedHost_ok r h ∅ False st s Hst Es) as (st1 & E & Hst1 & Hp). rewrite E.
    cbn [mbind result_bind]. apply refresh_top_total; [done| |done].
    destruct (failedHost_nodes _ _ _ _ E) as [En _].
    assert (zlen (nodes st1) = zlen (nodes st)) as Hl by (rewrite En; eapply mark_node_failed_length, Hst).
    destruct Hp as (_ & [Hfr _] & Hf & _ & _). destruct Hroom as (Hfo & Hn & Hpend).
    split; [unfold fails_ok in *; by rewrite Hf|]. rewrite Hl. split; [done|]. intros p.
    destruct (decide (p = r_scan r)) as [->|Hne]; [|unfold pending; rewrite Hfr by done; apply Hpend].
    specialize (Hpend (r_scan r)). unfold pending in *. rewrite Es in Hpend.
    unfold failedHost in E. rewrite (get_scan_lookup _ _ _ Es) in E. cbn [mbind result_bind] in E.
    injection E as <-. destruct (is_nil _); cbn; by rewrite lookup_insert_eq.
Qed.

(** ** Properties *)

(** C2: in every state that threads sharing a monitor reach, however their critical
    sections interleave, whatever the hosts answer and whatever failures are
    reported: the code's own [checkInvariants] holds; two threads never contact the
    same host for the same scan; and no wake-up is lost: a thread that waits and
    has not been notified belongs to the current scan, and some other thread is
    contacting a host for that scan. *)
Theorem monitor_reachable det s :
  reachable det s ->
  checkInvariants (shared s) = true /\
  (forall i i' j j' h h', threads s !! i = Some (Contacting j h) -> threads s !! i' = Some (Contacting j' h') ->
     scan_of j = scan_of j' -> hp_key h = hp_key h' -> i = i') /\
  (forall i j, threads s !! i = Some (Waiting j (cv (shared s))) ->
     currentScan (shared s) = Some (scan_of j) /\
     exists i' j' h, threads s !! i' = Some (Contacting j' h) /\ scan_of j' = scan_of j).
Proof.
  intros Hi%reachable_inv. split; [apply checkInvariants_hold, Hi|]. split.
  - intros i i' j j' h h' E E' Hs Hk. apply (inv_once _ Hi i i' (scan_of j) (hp_key h)).
    + by exists j, h.
    + by exists j', h'.
  - intros i j E. destruct (inv_gen _ Hi i j _ E) as [_ H]. destruct (H eq_refl) as (Hc & sc & Es & _ & Hw).
    split; [done|]. destruct (waitingFor sc) as [|w ws] eqn:Ew; [done|].
    destruct (inv_waited _ Hi (scan_of j) sc (key id w) Hc Es) as (i' & j' & h & E' & Hs & _).
    + rewrite Ew, keys_cons. set_solver.
    + by exists i', j', h.
Qed.

(** C3: the monitor does not deadlock: in a reachable state, as long as some thread
    has not finished, some thread can run its next critical section without a
    spurious wake-up, provided the counters have room and the read preferences are
    lists of tag documents. *)
Theorem monitor_progress s i t :
  reachable false s -> roomy (shared s) ->
  (forall i t, threads s !! i = Some t -> criteria_ok (criteria_of t)) ->
  threads s !! i = Some t -> (forall h, t <> Finished h) ->
  exists i' s', runs false i' s s'.
Proof.
  intros Hi%reachable_inv Hroom Hcs. destruct s as [st ths]. cbn in *.
  assert (wf_state st) as Hst by apply Hi.
  assert (forall i' j h, ths !! i' = Some (Contacting j h) -> exists i' s', runs false i' (mkSystem st ths) s')
    as Hcontact.
  { intros i' j h E. destruct (inv_jobs _ Hi i' _ j E eq_refl) as [s Es]. cbn in Es.
    destruct (no_answer_total (j_refresher j) (j_criteria j) h st s Hst Hroom (Hcs _ _ E) Es) as (o & st' & H).
    exists i'. eexists. eapply run_reply; [exact E| | |exact H]; [|constructor].
    unfold in_range. cbn. lia. }
  intros Ei Hnf. pose proof (Hcs _ _ Ei) as Hc. destruct t as [c|criteria again|j|j gen|j h|h]; cbn in Hc.
  - destruct Hroom as (_ & Hn & _). destruct (getMatchingHost_total false st c Hst Hn) as (h & st' & E & _); try done.
    exists i. eexists. by eapply run_ask.
  - destruct (Refresher_ctor_ok st Hst) as (r & st' & _ & E & _). exists i. eexists. by eapply run_enter.
  - destruct (refresh_top_total (j_refresher j) (j_criteria j) st Hst Hroom Hc) as (o & st' & E).
    exists i. eexists. by eapply run_top.
  - destruct (inv_gen _ Hi i j gen Ei) as [Hle Hst2]. cbn in *.
    destruct (decide (gen = cv st)) as [->|Hne].
    + destruct (Hst2 eq_refl) as (Hcur & sc & Es & _ & Hw).
      destruct (waitingFor sc) as [|w ws] eqn:Ew; [done|].
      destruct (inv_waited _ Hi (scan_of j) sc (key id w) Hcur Es) as (i' & j' & h & E' & _).
      * rewrite Ew, keys_cons. set_solver.
      * by apply (Hcontact i' j' h).
    + destruct (refresh_top_total (j_refresher j) (j_criteria j) st Hst Hroom Hc) as (o & st' & E).
      exists i. eexists. eapply run_notified; [exact Ei|lia|exact E].
  - by apply (Hcontact i j h).
  - by destruct (Hnf h).
Qed.

(** Two threads refresh a set of one node: the first contacts it, the second
    waits. *)
Ltac by_computing := vm_compute; reflexivity.
Ltac thread_runs i lem := eapply rtc_l; [apply (step_run false i); eapply lem; [by_computing|by_computing]|].

Definition sample_node : HostAndPort := mkHostAndPort (B "a") 27017.
Definition sample_threads : gmap nat Thread :=
  {[ 0%nat := Contacting (mkJob (mkRefresher 0 true) None false) sample_node;
     1%nat := Waiting (mkJob (mkRefresher 0 false) None false) 0 ]}.

Lemma sample_waiting : exists s, reachable false s /\ threads s = sample_threads /\
  scans (shared s) = {[ 0%nat := mkScanState false false [] [] [sample_node] [sample_node] [] ]} /\
  consecutiveFailedScans (shared s) = 0 /\ zlen (nodes (shared s)) = 1 /\ cv (shared s) = 0%nat.
Proof.
  eexists. split.
  - eexists (mkSystem _ ∅). split.
    + exists (B "rs"), [sample_node], 15, 7.
      split; [by repeat constructor|]. split; [by repeat constructor|]. split; [by vm_compute|].
      split; [by_computing|done].
    + eapply rtc_l; [apply (step_refreshAll false _ _ 0); by_computing|].
      eapply rtc_l; [apply (step_refreshAll false _ _ 1); by_computing|].
      thread_runs 0%nat run_enter.
      thread_runs 1%nat run_enter.
      thread_runs 0%nat run_top.
      thread_runs 1%nat run_top.
      apply rtc_refl.
  - split_and!; by_computing.
Qed.

Lemma monitor_reachable_witness : exists s, reachable false s /\ checkInvariants (shared s) = true /\
  exists i j h, threads s !! i = Some (Contacting j h).
Proof.
  destruct sample_waiting as (s & Hs & Et & _ & _ & _ & Ecv). exists s.
  destruct (monitor_reachable false s Hs) as (Hi & _ & Hw). split; [exact Hs|]. split; [exact Hi|].
  destruct (Hw 1%nat (mkJob (mkRefresher 0 false) None false)) as (_ & i & j & h & E & _).
  - rewrite Et, Ecv. vm_compute. reflexivity.
  - exists i, j, h. exact E.
Defined.

Lemma monitor_progress_witness : exists s i s', reachable false s /\ runs false i s s'.
Proof.
  destruct sample_waiting as (s & Hs & Et & Esc & Ef & En & _).
  destruct (monitor_progress s 1 (Waiting (mkJob (mkRefresher 0 false) None false) 0) Hs) as (i & s' & H).
  - split; [unfold fails_ok; rewrite Ef; split; by vm_compute|]. rewrite En. split; [by vm_compute|].
    intros p. unfold pending. rewrite Esc. destruct ({[ 0%nat := _ ]} !! p) as [x|] eqn:E; [|by vm_compute].
    apply lookup_singleton_Some in E as [_ <-]. by vm_compute.
  - intros i t H. rewrite Et in H. unfold sample_threads in H.
    apply lookup_insert_Some in H as [[_ <-]|[_ H]]; [exact I|].
    apply lookup_singleton_Some in H as [_ <-]. exact I.
  - rewrite Et. vm_compute. reflexivity.
  - intros h H. discriminate H.
  - exists s, i, s'. split; [exact Hs|exact H].
Defined.
