(* ===== verification/RSRegistry.v ===== *)
(** * The registry of monitors: client/replica_set_monitor.cpp

    [ReplicaSetMonitor::createIfNeeded], [get], [remove], [getAllTrackedSets] and the
    maps they share, with their mutex held.  Monitors live in a heap, an entry of
    [sets] being a possibly null pointer into it: [sets[name]] makes the entry
    before the monitor is built.  Every operation gives the registry back, also
    when it raises. *)
From S2P Require Import Prelude StringData HostAndPort Random BsonTypes BufBuilder Bson BsonCompare.
From S2P Require Import BsonObj HostSet RSState.
Local Open Scope Z_scope.

Record Registry := mkRegistry {
  monitors : gmap nat SetState;
  sets : gmap bytes (option nat);
  seedServers : gmap bytes hset }.

Definition empty_registry : Registry := mkRegistry ∅ ∅ ∅.

Definition set_sets (reg : Registry) (m : gmap bytes (option nat)) : Registry :=
  mkRegistry (monitors reg) m (seedServers reg).
Definition set_seedServers (reg : Registry) (m : gmap bytes hset) : Registry :=
  mkRegistry (monitors reg) (sets reg) m.

Section registry.
(** [client::Options::defaultLocalThresholdMillis] and [time(0)]. *)
Context (threshold now : Z).

(** [m.reset(new ReplicaSetMonitor(name, seeds))], [m] being [sets[name]]. *)
Definition create_monitor (reg : Registry) (name : bytes) (seeds : hset) : Registry * M nat :=
  match SetState_ctor name seeds threshold now with
  | Throw e => (reg, Throw e)
  | Ret st =>
      let p := fresh (dom (monitors reg)) in
      (mkRegistry (<[p := st]> (monitors reg)) (<[name := Some p]> (sets reg)) (seedServers reg), Ret p)
  end.

Definition createIfNeeded (reg : Registry) (name : bytes) (servers : hset) : Registry * M unit :=
  match sets reg !! name with
  | Some (Some _) => (reg, Ret tt)
  | _ =>
      let (reg, r) := create_monitor (set_sets reg (<[name := None]> (sets reg))) name servers in
      (reg, _ ← r; Ret tt)
  end.

Definition Registry_get (reg : Registry) (name : bytes) (createFromSeed : bool) : Registry * M (option nat) :=
  match sets reg !! name with
  | Some m => (reg, Ret m)
  | None =>
      if createFromSeed then
        match seedServers reg !! name with
        | Some seeds =>
            (* the entry is new, so the code's invariant(!m) holds *)
            let (reg, r) := create_monitor (set_sets reg (<[name := None]> (sets reg))) name seeds in
            (reg, p ← r; Ret (Some p))
        | None => (reg, Ret None)
        end
      else (reg, Ret None)
  end.

Definition getAllTrackedSets (reg : Registry) : gset bytes := dom (sets reg).

(** Dereferencing the entry. *)
Definition entry_seeds (reg : Registry) (m : option nat) : M hset :=
  match m with
  | Some p => match monitors reg !! p with Some st => Ret (seedNodes st) | None => Throw EUndefined end
  | None => Throw EUndefined
  end.

Definition Registry_remove (reg : Registry) (name : bytes) (clearSeedCache : bool) : Registry * M unit :=
  let clear reg := if clearSeedCache then set_seedServers reg (delete name (seedServers reg)) else reg in
  match sets reg !! name with
  | None => (clear reg, Ret tt)
  | Some m =>
      if clearSeedCache then (clear (set_sets reg (delete name (sets reg))), Ret tt)
      else
        match entry_seeds reg m with
        | Throw e => (reg, Throw e)
        | Ret seeds =>
            let reg := set_seedServers reg (<[name := seeds]> (seedServers reg)) in
            (set_sets reg (delete name (sets reg)), Ret tt)
        end
  end.

(** [shutdown], once the watcher has stopped. *)
Definition clear_registry (reg : Registry) : Registry := mkRegistry (monitors reg) ∅ ∅.

(** ** Properties *)

Lemma ctor_empty name t : SetState_ctor name [] t now =
  if bool_decide (in_range int32 (t * 1000)) then Throw (EUassert 13642) else Throw EUndefined.
Proof. unfold SetState_ctor, int_result. by destruct (bool_decide _). Qed.

Lemma ctor_some name seeds : seeds <> [] -> in_range int32 (threshold * 1000) ->
  exists st, SetState_ctor name seeds threshold now = Ret st /\ seedNodes st = seeds /\
    n_host <$> nodes st = seeds /\ s_name st = name.
Proof.
  intros Hs Ht. unfold SetState_ctor, int_result. rewrite bool_decide_eq_true_2 by done.
  cbn [mbind result_bind]. destruct seeds as [|h l]; [done|]. eexists. split; [reflexivity|]. cbn.
  split; [done|]. split; [|done]. f_equal. rewrite <-list_fmap_compose. by apply list_fmap_id.
Qed.
End registry.

(** A monitor removed without clearing the seed cache is rebuilt by [get] from
    the members it knew last, and the rebuilt monitor is the one [get] finds from
    then on; removed with the cache cleared, it is gone.  But if a master that
    lists no host had emptied its members, [get] raises 13642 and leaves a null
    entry behind: the set is tracked, [get] answers null, and the next [remove]
    without clearing dereferences the null pointer. *)
Theorem registry_remove_get threshold now reg name p st :
  sets reg !! name = Some (Some p) -> monitors reg !! p = Some st -> in_range int32 (threshold * 1000) ->
  let removed := (Registry_remove reg name false).1 in
  let '(rebuilt, r) := Registry_get threshold now removed name true in
  (seedNodes st <> [] ->
     exists p' st', r = Ret (Some p') /\ monitors rebuilt !! p' = Some st' /\
       monitors reg !! p' = None /\ seedNodes st' = seedNodes st /\ n_host <$> nodes st' = seedNodes st /\
       Registry_get threshold now rebuilt name false = (rebuilt, Ret (Some p'))) /\
  (seedNodes st = [] ->
     r = Throw (EUassert 13642) /\ name ∈ getAllTrackedSets rebuilt /\
     Registry_get threshold now rebuilt name true = (rebuilt, Ret None) /\
     (Registry_remove rebuilt name false).2 = Throw EUndefined) /\
  (Registry_get threshold now (Registry_remove reg name true).1 name true).2 = Ret None.
Proof.
  intros Hs Hm Ht removed.
  assert (removed = mkRegistry (monitors reg) (delete name (sets reg)) (<[name := seedNodes st]> (seedServers reg)))
    as Er by (unfold removed, Registry_remove; rewrite Hs; cbn [entry_seeds]; by rewrite Hm).
  assert ((Registry_get threshold now (Registry_remove reg name true).1 name true).2 = Ret None) as Hclear.
  { unfold Registry_remove. rewrite Hs. unfold Registry_get. cbn. by rewrite !lookup_delete_eq. }
  rewrite Er. unfold Registry_get at 1. cbn [sets seedServers]. rewrite lookup_delete_eq, lookup_insert_eq.
  unfold create_monitor. cbn [set_sets monitors sets seedServers].
  destruct (decide (seedNodes st = [])) as [E|E].
  - rewrite E, ctor_empty, bool_decide_eq_true_2 by done. cbn.
    split; [done|]. split; [|done]. intros _. split; [done|]. split; [by rewrite dom_insert_L; set_solver|].
    unfold Registry_get, Registry_remove. cbn. rewrite lookup_insert_eq. done.
  - destruct (ctor_some threshold now name (seedNodes st) E Ht) as (st' & Ec & Esd & En & _). rewrite Ec.
    cbn. split; [|done]. intros _. eexists _, st'. split; [done|]. split; [apply lookup_insert_eq|].
    split; [apply not_elem_of_dom, is_fresh|]. split; [done|]. split; [done|].
    unfold Registry_get. cbn. by rewrite lookup_insert_eq.
Qed.

Lemma registry_remove_get_witness :
  let name := B "rs" in
  let reg := (createIfNeeded 15 7 empty_registry name [mkHostAndPort (B "a") 27017]).1 in
  exists p', (Registry_get 15 7 (Registry_remove reg name false).1 name true).2 = Ret (Some p') /\ sets reg !! name = Some (Some 0%nat).
Proof.
  intros name reg.
  assert (sets reg !! name = Some (Some 0%nat)) as Hs by (by vm_compute).
  destruct (monitors reg !! 0%nat) as [st|] eqn:Em; [|by vm_compute in Em].
  pose proof (registry_remove_get 15 7 reg name 0 st Hs Em) as H. cbv zeta in H.
  destruct (Registry_get 15 7 (Registry_remove reg name false).1 name true) as [rebuilt r].
  destruct H as (H & _ & _); [by vm_compute|]. destruct H as (p' & st' & -> & _).
  - vm_compute in Em. injection Em as <-. discriminate.
  - exists p'. split; [reflexivity|exact Hs].
Defined.
