(* ===== verification/DepGraph.v ===== *)
(** * The initializer graph: base/initializer_dependency_graph.cpp, base/initializer.cpp

    [InitializerDependencyGraph] with its depth-first topological sort, and
    [Initializer::execute].  A hash map of the standard library is a finite map
    whose iteration order is a parameter: some order of its entries. *)
From stdpp Require Import relations.
From S2P Require Import Prelude.

(** ** Iteration orders of [unordered_map] and [unordered_set] *)

Class IterationOrder (V : Type) := {
  map_order : gmap bytes V -> list (bytes * V);
  set_order : gset bytes -> list bytes }.
Class IterationOrderLaws (V : Type) {It : IterationOrder V} : Prop := {
  map_order_perm m : map_order m ≡ₚ map_to_list m;
  set_order_perm s : set_order s ≡ₚ elements s }.

(** The order in which stdpp lists the entries, for the examples. *)
Instance sample_order {V} : IterationOrder V := {| map_order := map_to_list; set_order := elements |}.
Lemma sample_order_laws {V} : IterationOrderLaws V (It := sample_order).
Proof. by constructor. Qed.

Section graph.
Context {F : Type}.

Record NodeData := mkNodeData { fn : option F; prerequisites : gset bytes }.
Definition NodeData_default : NodeData := mkNodeData None ∅.
Abbreviation NodeMap := (gmap bytes NodeData).

Context {It : IterationOrder NodeData} {ItL : IterationOrderLaws NodeData}.

(** [_nodes[name]] *)
Definition node_at (m : NodeMap) (name : bytes) : NodeData := default NodeData_default (m !! name).
Definition add_prerequisites (d : NodeData) (names : list bytes) : NodeData :=
  mkNodeData (fn d) (list_to_set names ∪ prerequisites d).
Definition add_dependent (name : bytes) (m : NodeMap) (dependent : bytes) : NodeMap :=
  <[dependent := add_prerequisites (node_at m dependent) [name]]> m.

Definition addInitializer (m : NodeMap) (name : bytes) (f : option F) (prereqs dependents : list bytes)
    : NodeMap * Status :=
  match f with
  | None => (m, Err BadValue (B "Illegal to supply a NULL function"))
  | Some _ =>
      let newNode := node_at m name in
      let m := <[name := newNode]> m in
      match fn newNode with
      | Some _ => (m, Err DuplicateKey name)
      | None =>
          let m := <[name := add_prerequisites (mkNodeData f (prerequisites newNode)) prereqs]> m in
          (foldl (add_dependent name) m dependents, OK)
      end
  end.

Definition getInitializerFunction (m : NodeMap) (name : bytes) : option F :=
  match m !! name with None => None | Some d => fn d end.

(** ** The sort *)

Record Search := mkSearch {
  inProgressNodeNames : list bytes;
  visitedNodeNames : gset bytes;
  sortedNames : list bytes }.

Fixpoint join_arrow (l : list bytes) : bytes :=
  match l with [] => [] | x :: l' => B " -> " ++ x ++ join_arrow l' end.
Definition cycle_message (l : list bytes) : bytes :=
  match l with [] => [] | x :: l' => B "Cycle in dependendcy graph: " ++ x ++ join_arrow l' end.

Fixpoint first_occurrence (x : bytes) (l : list bytes) : nat :=
  match l with [] => 0 | y :: l' => if bool_decide (y = x) then 0 else S (first_occurrence x l') end.

(** The loop over the prerequisites of a node. *)
Fixpoint visit_all (visit : bytes -> NodeData -> Search -> option (Search * Status)) (m : NodeMap)
    (l : list bytes) (st : Search) : option (Search * Status) :=
  match l with
  | [] => Some (st, OK)
  | x :: l' =>
      match m !! x with
      | None => Some (st, Err BadValue x)
      | Some next =>
          match visit x next st with
          | None => None
          | Some (st, OK) => visit_all visit m l' st
          | Some (st, status) => Some (st, status)
          end
      end
  end.

(** [None]: more recursion than [fuel] allows. *)
Fixpoint recursiveTopSort (fuel : nat) (m : NodeMap) (name : bytes) (currentNode : NodeData) (st : Search)
    : option (Search * Status) :=
  match fuel with
  | O => None
  | S fuel =>
      if bool_decide (name ∈ visitedNodeNames st) then Some (st, OK)
      else
        match fn currentNode with
        | None => Some (st, Err BadValue name)
        | Some _ =>
            let inProgress := inProgressNodeNames st ++ [name] in
            let st := mkSearch inProgress (visitedNodeNames st) (sortedNames st) in
            let firstOccurence := first_occurrence name inProgress in
            if negb (S firstOccurence =? length inProgress)%nat then
              let cycle := drop firstOccurence inProgress in
              Some (mkSearch inProgress (visitedNodeNames st) cycle, Err GraphContainsCycle (cycle_message cycle))
            else
              match visit_all (recursiveTopSort fuel m) m (set_order (prerequisites currentNode)) st with
              | None => None
              | Some (st, OK) =>
                  let sorted := sortedNames st ++ [name] in
                  if bool_decide (last (inProgressNodeNames st) = Some name) then
                    Some (mkSearch (removelast (inProgressNodeNames st)) ({[name]} ∪ visitedNodeNames st) sorted, OK)
                  else
                    Some (mkSearch (inProgressNodeNames st) (visitedNodeNames st) sorted,
                          Err InternalError (B "inProgressNodeNames stack corrupt"))
              | Some (st, status) => Some (st, status)
              end
        end
  end.

Fixpoint topSort_loop (fuel : nat) (m : NodeMap) (l : list (bytes * NodeData)) (st : Search)
    : option (list bytes * Status) :=
  match l with
  | [] => Some (sortedNames st, OK)
  | (name, node) :: l' =>
      match recursiveTopSort fuel m name node st with
      | None => None
      | Some (st, OK) => topSort_loop fuel m l' st
      | Some (st, status) => Some (sortedNames st, status)
      end
  end.

Definition topSort (fuel : nat) (m : NodeMap) : option (list bytes * Status) :=
  topSort_loop fuel m (map_order m) (mkSearch [] ∅ []).

(** ** What the sort means *)

(** [a] needs [b]. *)
Definition edge (m : NodeMap) (a b : bytes) : Prop := exists d, m !! a = Some d /\ b ∈ prerequisites d.
(** [b] is named but never added. *)
Definition missing (m : NodeMap) (b : bytes) : Prop := getInitializerFunction m b = None.
Definition mentioned (m : NodeMap) (b : bytes) : Prop := is_Some (m !! b) \/ exists a, edge m a b.

Fixpoint path (m : NodeMap) (l : list bytes) : Prop :=
  match l with
  | [] => True
  | a :: l' => (match l' with [] => True | b :: _ => edge m a b end) /\ path m l'
  end.

(** A closed walk, first and last element equal. *)
Definition cycle (m : NodeMap) (l : list bytes) : Prop :=
  exists a l', l = a :: l' ++ [a] /\ path m l.

(** Every node of [l] comes after all it needs. *)
Definition ordered (m : NodeMap) (l : list bytes) : Prop :=
  forall l1 x l2, l = l1 ++ x :: l2 -> forall y, edge m x y -> y ∈ l1.

Lemma path_app m l1 l2 :
  path m (l1 ++ l2) <-> path m l1 /\ path m l2 /\
    match last l1, l2 with Some a, b :: _ => edge m a b | _, _ => True end.
Proof.
  induction l1 as [|a l1 IH]; cbn [app path].
  { cbn. tauto. }
  rewrite IH. destruct l1 as [|a' l1]; cbn [app path last].
  - destruct l2; cbn; tauto.
  - change (last (a :: a' :: l1)) with (last (a' :: l1)). tauto.
Qed.

Lemma first_occurrence_spec x l : x ∈ l ->
  exists l1 l2, l = l1 ++ x :: l2 /\ x ∉ l1 /\ first_occurrence x l = length l1.
Proof.
  induction l as [|y l IH]; [by intros ?%not_elem_of_nil|]. cbn. intros H.
  destruct (decide (y = x)) as [->|Hne].
  - rewrite bool_decide_eq_true_2 by done. exists [], l. split; [done|]. split; [|done]. not_in.
  - rewrite bool_decide_eq_false_2 by done. apply elem_of_cons in H as [->|H]; [done|].
    destruct (IH H) as (l1 & l2 & -> & Hn & ->). exists (y :: l1), l2. split; [done|]. split; [|done].
    apply not_elem_of_cons. split; [congruence|done].
Qed.

(** ** The invariant of the search *)

Record wf_search (m : NodeMap) (st : Search) : Prop := {
  wse_path : path m (inProgressNodeNames st);
  wse_nodup : NoDup (inProgressNodeNames st);
  wse_nodes : forall x, x ∈ inProgressNodeNames st -> is_Some (m !! x);
  wse_visited : forall x, x ∈ sortedNames st <-> x ∈ visitedNodeNames st;
  wse_disjoint : forall x, x ∈ inProgressNodeNames st -> x ∉ visitedNodeNames st;
  wse_sorted : NoDup (sortedNames st);
  wse_functions : forall x, x ∈ sortedNames st -> ~ missing m x;
  wse_ordered : ordered m (sortedNames st) }.

(** The node [x] may be visited next. *)
Definition next_ok (m : NodeMap) (st : Search) (x : bytes) : Prop :=
  match last (inProgressNodeNames st) with Some a => edge m a x | None => True end.

(** What a visit gives: the nodes [l] are visited, or an error is explained. *)
Definition visit_post (m : NodeMap) (st : Search) (l : list bytes) (r : option (Search * Status)) : Prop :=
  match r with
  | Some (st', OK) =>
      wf_search m st' /\ inProgressNodeNames st' = inProgressNodeNames st /\
      (forall x, x ∈ visitedNodeNames st -> x ∈ visitedNodeNames st') /\
      (forall x, x ∈ l -> x ∈ visitedNodeNames st')
  | Some (st', Err GraphContainsCycle why) => cycle m (sortedNames st') /\ why = cycle_message (sortedNames st')
  | Some (_, Err BadValue x) => missing m x /\ mentioned m x
  | _ => False
  end.

Definition remaining (m : NodeMap) (st : Search) : nat :=
  size (dom m ∖ list_to_set (inProgressNodeNames st)).

Lemma visit_all_ok visit m st l :
  (forall x d st', m !! x = Some d -> x ∈ l -> wf_search m st' ->
     inProgressNodeNames st' = inProgressNodeNames st -> visit_post m st' [x] (visit x d st')) ->
  wf_search m st -> (forall x, x ∈ l -> exists a, edge m a x) ->
  visit_post m st l (visit_all visit m l st).
Proof.
  intros Hv Hw Hl.
  assert (forall st1, wf_search m st1 -> inProgressNodeNames st1 = inProgressNodeNames st ->
    visit_post m st1 l (visit_all visit m l st1)) as H; [|by apply H].
  clear Hw. induction l as [|x l IH]; intros st1 Hw1 E1; cbn [visit_all].
  { cbn. split; [done|]. split; [done|]. split; [done|]. by intros x ?%not_elem_of_nil. }
  destruct (m !! x) as [d|] eqn:Ex.
  2:{ cbn. unfold missing, getInitializerFunction, mentioned. rewrite Ex. split; [done|].
      right. apply Hl, list_elem_of_here. }
  pose proof (Hv x d st1 Ex (list_elem_of_here _ _) Hw1 E1) as H.
  destruct (visit x d st1) as [[st2 [|c why]]|]; [|by destruct c|done].
  destruct H as (Hw2 & E2 & Hvis & Hx).
  assert (visit_post m st2 l (visit_all visit m l st2)) as H2.
  { apply IH; [|by intros y Hy; apply Hl; apply list_elem_of_further|done|congruence].
    intros y d' st' Ey Hy. apply Hv; [done|by apply list_elem_of_further]. }
  destruct (visit_all visit m l st2) as [[st3 [|c why]]|]; [|by destruct c|done].
  destruct H2 as (Hw3 & E3 & Hvis3 & Hl3). split; [done|]. split; [congruence|]. split; [auto|].
  intros y [->|Hy]%elem_of_cons; [|by apply Hl3]. apply Hvis3, Hx, list_elem_of_here.
Qed.

Lemma first_occurrence_new x l : x ∉ l -> first_occurrence x (l ++ [x]) = length l.
Proof.
  induction l as [|y l IH]; cbn; intros H; [by rewrite bool_decide_eq_true_2|].
  apply not_elem_of_cons in H as [Hne H]. rewrite bool_decide_eq_false_2 by congruence. by rewrite IH.
Qed.

Lemma path_push m l x : path m l -> match last l with Some a => edge m a x | None => True end ->
  path m (l ++ [x]).
Proof. intros Hl Hx. apply path_app. split; [done|]. split; [done|]. by destruct (last l). Qed.

(** Meeting a node in progress again closes a cycle. *)
Lemma cycle_found m l x : path m (l ++ [x]) -> x ∈ l ->
  exists l1 l2, l ++ [x] = l1 ++ x :: l2 ++ [x] /\ first_occurrence x (l ++ [x]) = length l1 /\
    cycle m (x :: l2 ++ [x]).
Proof.
  intros Hp Hx. destruct (first_occurrence_spec x (l ++ [x])) as (l1 & l2 & E & Hn & Ef); [set_solver|].
  rewrite Ef. destruct l2 as [|y l2 _] using rev_ind.
  - exfalso. apply app_inj_tail in E as [-> _]. done.
  - rewrite app_comm_cons, app_assoc in E. apply app_inj_tail in E as [-> <-].
    exists l1, l2. rewrite <-app_assoc. split; [done|]. split; [done|]. exists x, l2. split; [done|].
    rewrite <-app_assoc in Hp. by apply path_app in Hp as (_ & Hp & _).
Qed.

Lemma push_ok m st x d : wf_search m st -> m !! x = Some d -> next_ok m st x ->
  x ∉ inProgressNodeNames st -> x ∉ visitedNodeNames st ->
  let st' := mkSearch (inProgressNodeNames st ++ [x]) (visitedNodeNames st) (sortedNames st) in
  wf_search m st' /\ (remaining m st' < remaining m st)%nat.
Proof.
  intros [Hp Hnd Hn Hv Hd Hs Hf Ho] Ex Hnext Hx Hxv st'. split.
  - constructor; cbn; try done.
    + by apply path_push.
    + apply NoDup_app. split; [done|]. split; [|apply NoDup_singleton]. by intros y Hy ->%list_elem_of_singleton.
    + intros y [Hy| ->%list_elem_of_singleton]%elem_of_app; [by apply Hn|by eexists].
    + intros y [Hy| ->%list_elem_of_singleton]%elem_of_app; [by apply Hd|done].
  - unfold remaining. apply subset_size. cbn. split; [set_solver|]. intros H.
    assert (x ∈ dom m ∖ list_to_set (inProgressNodeNames st)) as Hin.
    { apply elem_of_difference. split; [apply elem_of_dom; by eexists|]. by rewrite elem_of_list_to_set. }
    apply H in Hin. set_solver.
Qed.

Lemma pop_ok m st x d l : wf_search m st -> m !! x = Some d -> is_Some (fn d) ->
  inProgressNodeNames st = l ++ [x] -> (forall y, y ∈ prerequisites d -> y ∈ visitedNodeNames st) ->
  wf_search m (mkSearch l ({[x]} ∪ visitedNodeNames st) (sortedNames st ++ [x])).
Proof.
  intros [Hp Hnd Hn Hv Hd Hs Hf Ho] Ex [f Ef] El Hpre. rewrite El in *.
  apply path_app in Hp as (Hp & _ & _). apply NoDup_app in Hnd as (Hnd & Hxl & _).
  assert (x ∉ sortedNames st) as Hxs by (rewrite Hv; apply Hd; set_solver).
  constructor; cbn.
  - done.
  - done.
  - intros y Hy. apply Hn. set_solver.
  - intros y. rewrite elem_of_app, list_elem_of_singleton, Hv. set_solver.
  - intros y Hy. apply not_elem_of_union. split; [|apply Hd; set_solver].
    intros ->%elem_of_singleton. apply (Hxl x Hy). set_solver.
  - apply NoDup_app. split; [done|]. split; [|apply NoDup_singleton]. by intros y Hy ->%list_elem_of_singleton.
  - intros y [Hy| ->%list_elem_of_singleton]%elem_of_app; [by apply Hf|].
    unfold missing, getInitializerFunction. rewrite Ex, Ef. done.
  - intros l1 z l2 E y Hy. destruct l2 as [|z' l2 _] using rev_ind.
    + apply app_inj_tail in E as [<- <-]. destruct Hy as (d' & Ed & Hy). rewrite Ex in Ed.
      injection Ed as <-. by apply Hv, Hpre.
    + rewrite app_comm_cons, app_assoc in E. apply app_inj_tail in E as [E _]. by eapply Ho.
Qed.

Lemma visit_ok fuel m : forall name d st,
  wf_search m st -> m !! name = Some d -> next_ok m st name -> (remaining m st < fuel)%nat ->
  visit_post m st [name] (recursiveTopSort fuel m name d st).
Proof.
  induction fuel as [|fuel IH]; intros name d st Hw Ed Hnext Hfuel; [lia|]. cbn [recursiveTopSort].
  destruct (decide (name ∈ visitedNodeNames st)) as [Hvis|Hvis].
  { rewrite bool_decide_eq_true_2 by done. cbn. split; [done|]. split; [done|]. split; [done|].
    by intros x ->%list_elem_of_singleton. }
  rewrite bool_decide_eq_false_2 by done. destruct (fn d) as [f|] eqn:Ef.
  2:{ cbn. unfold missing, getInitializerFunction, mentioned. rewrite Ed, Ef. split; [done|]. left. by eexists. }
  pose proof (path_push m _ _ (wse_path _ _ Hw) Hnext) as Hp.
  destruct (decide (name ∈ inProgressNodeNames st)) as [Hin|Hin].
  { destruct (cycle_found m _ _ Hp Hin) as (l1 & l2 & E & Efo & Hc). cbv zeta. rewrite Efo, E.
    replace (S (length l1) =? length (l1 ++ name :: l2 ++ [name]))%nat with false.
    - cbn. rewrite drop_app_length. done.
    - symmetry. apply Nat.eqb_neq. rewrite length_app. cbn. rewrite length_app. cbn. lia. }
  cbv zeta. rewrite first_occurrence_new by done. rewrite length_app. cbn [length].
  rewrite Nat.add_1_r, Nat.eqb_refl. cbn [negb].
  destruct (push_ok m st name d Hw Ed Hnext Hin Hvis) as [Hw1 Hlt]. set (st1 := mkSearch _ _ _) in *.
  assert (forall x, x ∈ set_order (prerequisites d) <-> x ∈ prerequisites d) as Hord.
  { intros x. by rewrite set_order_perm, elem_of_elements. }
  pose proof (visit_all_ok (recursiveTopSort fuel m) m st1 (set_order (prerequisites d))) as H.
  assert (visit_post m st1 (set_order (prerequisites d))
    (visit_all (recursiveTopSort fuel m) m (set_order (prerequisites d)) st1)) as H2.
  { apply H; [|done|].
    - intros x d' st' Ex Hx Hw' E'. apply IH; [done|done| |].
      + unfold next_ok. rewrite E'. cbn. rewrite last_snoc. exists d. split; [done|]. by apply Hord.
      + unfold remaining in *. rewrite E'. lia.
    - intros x Hx. exists name, d. split; [done|]. by apply Hord. }
  clear H. destruct (visit_all _ _ _ _) as [[st2 [|c why]]|]; [|by destruct c|done].
  destruct H2 as (Hw2 & E2 & Hmono & Hall). cbn in E2. rewrite E2, last_snoc.
  rewrite bool_decide_eq_true_2 by done. cbn. rewrite removelast_last.
  split; [|split; [done|]; split; [set_solver|set_solver]].
  apply (pop_ok m st2 name d); [done|done|by eexists|done|]. intros y Hy. apply Hall. by apply Hord.
Qed.

Lemma topSort_loop_ok fuel m l st :
  wf_search m st -> inProgressNodeNames st = [] -> (size (dom m) < fuel)%nat ->
  (forall x d, (x, d) ∈ l -> m !! x = Some d) ->
  match topSort_loop fuel m l st with
  | Some (sorted, OK) => exists st', wf_search m st' /\ sorted = sortedNames st' /\
      (forall x, x ∈ visitedNodeNames st \/ x ∈ l.*1 -> x ∈ sorted)
  | Some (sorted, Err GraphContainsCycle why) => cycle m sorted /\ why = cycle_message sorted
  | Some (_, Err BadValue x) => missing m x /\ mentioned m x
  | _ => False
  end.
Proof.
  intros Hw Hp Hfuel. revert st Hw Hp. induction l as [|[x d] l IH]; intros st Hw Hp Hl; cbn [topSort_loop].
  { exists st. split; [done|]. split; [done|]. intros x [Hx|Hx%not_elem_of_nil]; [|done]. by apply (wse_visited m st Hw). }
  assert (visit_post m st [x] (recursiveTopSort fuel m x d st)) as H.
  { apply visit_ok; [done|apply Hl, list_elem_of_here|unfold next_ok; by rewrite Hp|].
    unfold remaining. rewrite Hp. cbn. by rewrite difference_empty_L. }
  destruct (recursiveTopSort fuel m x d st) as [[st1 [|c why]]|]; [|by destruct c|done].
  destruct H as (Hw1 & E1 & Hmono & Hx). specialize (IH st1 Hw1 ltac:(congruence)).
  destruct (topSort_loop fuel m l st1) as [[sorted [|c why]]|];
    [|apply IH; intros; apply Hl; by apply list_elem_of_further..].
  destruct IH as (st' & Hw' & -> & Hall); [intros; apply Hl; by apply list_elem_of_further|].
  exists st'. split; [done|]. split; [done|]. intros y [Hy|Hy]; [apply Hall; left; auto|].
  cbn in Hy. apply elem_of_cons in Hy as [->|Hy]; apply Hall; [left; apply Hx, list_elem_of_here|by right].
Qed.

Lemma wf_search_init m : wf_search m (mkSearch [] ∅ []).
Proof.
  constructor; cbn; try done; try constructor; try (by intros x ?%not_elem_of_nil).
  - by intros ?%not_elem_of_nil.
  - by intros ?%elem_of_empty.
  - intros l1 x l2 E. by destruct l1.
Qed.

(** An ordered list of all nodes rules cycles out. *)
Lemma ordered_acyclic m l : ordered m l -> (forall x, is_Some (m !! x) -> x ∈ l) -> NoDup l ->
  forall x, ~ tc (edge m) x x.
Proof.
  intros Ho Hall Hnd.
  assert (forall x y, tc (edge m) x y -> forall l1 l2, l = l1 ++ x :: l2 -> y ∈ l1) as H.
  { induction 1 as [x y Hxy|x y z Hxy _ IH]; intros l1 l2 E; [by eapply Ho|].
    pose proof (Ho l1 x l2 E y Hxy) as Hy. apply list_elem_of_split in Hy as (a & b & ->).
    rewrite <-app_assoc in E. cbn in E. specialize (IH a _ E). set_solver. }
  intros x Hx. assert (exists y, edge m x y) as (y & d & Ed & _).
  { inversion Hx; subst; eauto. }
  assert (x ∈ l) as Hin by (apply Hall; by eexists).
  apply list_elem_of_split in Hin as (l1 & l2 & E). pose proof (H x x Hx l1 l2 E) as Hx1.
  rewrite E in Hnd. apply NoDup_app in Hnd as (_ & Hd & _). apply (Hd x Hx1), list_elem_of_here.
Qed.

Lemma cycle_tc m l : cycle m l -> exists x, tc (edge m) x x.
Proof.
  intros (a & l' & -> & Hp). exists a.
  assert (forall b l, path m (b :: l ++ [a]) -> tc (edge m) b a) as H; [|by eapply H].
  clear. intros b l. revert b. induction l as [|c l IH]; intros b Hp; cbn in Hp.
  - apply tc_once, Hp.
  - eapply tc_l; [apply Hp|]. apply IH, Hp.
Qed.

(** The outcomes of the sort. *)
Variant sort_outcome (m : NodeMap) (r : option (list bytes * Status)) : Prop :=
  | sort_done sorted : r = Some (sorted, OK) -> sorted ≡ₚ (map_to_list m).*1 ->
      ordered m sorted -> (forall x, x ∈ sorted -> ~ missing m x) -> sort_outcome m r
  | sort_error l status : r = Some (l, status) -> status <> OK ->
      match status with
      | Err GraphContainsCycle why => cycle m l /\ why = cycle_message l
      | Err BadValue x => missing m x /\ mentioned m x
      | _ => False
      end -> sort_outcome m r.

Lemma topSort_sound m : sort_outcome m (topSort (S (size (dom m))) m).
Proof.
  assert (forall x d, (x, d) ∈ map_order m <-> m !! x = Some d) as Hord.
  { intros x d. by rewrite map_order_perm, elem_of_map_to_list. }
  pose proof (topSort_loop_ok (S (size (dom m))) m (map_order m) (mkSearch [] ∅ []) (wf_search_init m) eq_refl
    ltac:(lia) (fun x d => proj1 (Hord x d))) as H.
  unfold topSort. destruct (topSort_loop _ m _ _) as [[sorted [|c why]]|]; [|by eapply sort_error; [done|done|destruct c]|done].
  destruct H as (st' & Hw & -> & Hall). eapply sort_done; [done| |apply Hw|apply Hw].
  apply NoDup_Permutation; [apply Hw|apply NoDup_fst_map_to_list|]. intros x. rewrite list_elem_of_fmap. split.
  - intros Hx. pose proof (wse_functions m st' Hw x Hx) as Hf. unfold missing, getInitializerFunction in Hf.
    destruct (m !! x) as [d|] eqn:Ed; [|done]. exists (x, d). by rewrite elem_of_map_to_list.
  - intros ([x' d] & -> & Hd%elem_of_map_to_list). apply Hall. right. apply list_elem_of_fmap.
    exists (x', d). split; [done|]. by apply Hord.
Qed.

(** ** Properties of the sort *)

(** C22: the sort always ends within a recursion depth of one more than the number
    of nodes, and means what it says: on success the names are exactly the nodes,
    once each, all with a function, each after everything it needs, which is the
    case precisely when no needed name is missing and no node needs itself through
    others; a cycle error gives a closed walk of the graph; a bad value names a
    missing initializer; no other error exists. *)
Theorem topSort_sorts m :
  match topSort (S (size (dom m))) m with
  | Some (sorted, OK) => sorted ≡ₚ (map_to_list m).*1 /\ ordered m sorted
  | Some (sorted, Err GraphContainsCycle why) => cycle m sorted /\ why = cycle_message sorted
  | Some (_, Err BadValue x) => missing m x /\ mentioned m x
  | _ => False
  end /\
  ((exists sorted, topSort (S (size (dom m))) m = Some (sorted, OK)) <->
   (forall x, mentioned m x -> ~ missing m x) /\ (forall x, ~ tc (edge m) x x)).
Proof.
  destruct (topSort_sound m) as [sorted E Hp Ho Hf|l status E Hne Hs]; rewrite E.
  - assert (forall x, is_Some (m !! x) -> x ∈ sorted) as Hin.
    { intros x [d Hd]. rewrite Hp. apply list_elem_of_fmap. exists (x, d). by rewrite elem_of_map_to_list. }
    split; [done|]. split; [|by eexists]. intros _. split.
    + intros x [Hx|[a (d & Hd & Hx)]]; apply Hf; [by apply Hin|].
      assert (a ∈ sorted) as Ha by (apply Hin; by eexists). apply list_elem_of_split in Ha as (l1 & l2 & ->).
      apply elem_of_app. left. apply (Ho l1 a l2 eq_refl). by exists d.
    + apply (ordered_acyclic m sorted); [done|done|]. rewrite Hp. apply NoDup_fst_map_to_list.
  - destruct status as [|c why]; [done|]. destruct c; try done; (split; [done|]); (split; [by intros [? ?]|]);
      intros [H1 H2].
    + destruct Hs as [Hm Hn]. by destruct (H1 _ Hn).
    + destruct (cycle_tc m l) as [x Hx]; [apply Hs|]. by destruct (H2 x).
Qed.

End graph.

(** ** Building graphs *)

Section building.
Context {F : Type}.
Implicit Types m : gmap bytes (NodeData (F := F)).

(** What was registered: who needs whom. *)
Lemma add_dependent_edges name m d x y :
  edge (add_dependent name m d) x y <-> edge m x y \/ (x = d /\ y = name).
Proof.
  unfold edge, add_dependent, node_at. destruct (decide (d = x)) as [->|Hne].
  - rewrite lookup_insert_eq. split.
    + intros (nd & [= <-] & Hy). cbn in Hy. apply elem_of_union in Hy as [Hy|Hy]; [right; set_solver|].
      left. destruct (m !! x) as [nd|]; [by exists nd|by apply elem_of_empty in Hy].
    + intros [(nd & -> & Hy)|[_ ->]]; eexists; (split; [reflexivity|]); cbn; [|set_solver].
      apply elem_of_union_r. exact Hy.
  - rewrite lookup_insert_ne by done. split; [tauto|]. intros [H|[-> _]]; [done|congruence].
Qed.

Lemma add_dependent_function name m d x :
  getInitializerFunction (add_dependent name m d) x = getInitializerFunction m x.
Proof.
  unfold getInitializerFunction, add_dependent, node_at. destruct (decide (d = x)) as [->|Hne].
  - rewrite lookup_insert_eq. by destruct (m !! x).
  - by rewrite lookup_insert_ne.
Qed.

Lemma add_dependents_spec name l m :
  (forall x y, edge (foldl (add_dependent name) m l) x y <-> edge m x y \/ (x ∈ l /\ y = name)) /\
  (forall x, getInitializerFunction (foldl (add_dependent name) m l) x = getInitializerFunction m x).
Proof.
  revert m. induction l as [|d l IH]; intros m; cbn [foldl].
  - split; [|done]. intros x y. split; [by left|]. intros [H|[H%not_elem_of_nil _]]; done.
  - destruct (IH (add_dependent name m d)) as [H1 H2]. split; intros x; [intros y; rewrite H1, add_dependent_edges|].
    + rewrite elem_of_cons. naive_solver.
    + by rewrite H2, add_dependent_function.
Qed.

(** Registering an initializer adds it with its function and exactly the edges
    it names: from it to its prerequisites, and from its dependents to it, in
    whatever order initializers are registered; a null function or a name that has
    one already is refused, and leaves functions and edges as they were. *)
Theorem addInitializer_edges m name f prereqs dependents :
  let '(m', status) := addInitializer m name f prereqs dependents in
  match f, getInitializerFunction m name with
  | Some _, None => status = OK /\ getInitializerFunction m' name = f /\
      (forall x, x <> name -> getInitializerFunction m' x = getInitializerFunction m x) /\
      (forall x y, edge m' x y <->
         edge m x y \/ (x = name /\ y ∈ prereqs) \/ (x ∈ dependents /\ y = name))
  | _, _ => isOK status = false /\ (forall x, getInitializerFunction m' x = getInitializerFunction m x) /\
      (forall x y, edge m' x y <-> edge m x y)
  end.
Proof.
  unfold addInitializer. destruct f as [f|]; [|by split_and!].
  assert (forall x y, edge (<[name := node_at m name]> m) x y <-> edge m x y) as He.
  { intros x y. unfold edge, node_at. destruct (decide (name = x)) as [->|Hne].
    - rewrite lookup_insert_eq. destruct (m !! x) as [d|]; cbn; [done|]. split; [|by intros (d & [=] & _)].
      intros (d & [= <-] & Hy). by apply elem_of_empty in Hy.
    - by rewrite lookup_insert_ne. }
  assert (forall x, getInitializerFunction (<[name := node_at m name]> m) x = getInitializerFunction m x) as Hf.
  { intros x. unfold getInitializerFunction, node_at. destruct (decide (name = x)) as [->|Hne].
    - rewrite lookup_insert_eq. by destruct (m !! x).
    - by rewrite lookup_insert_ne. }
  assert (fn (node_at m name) = getInitializerFunction m name) as Hg.
  { unfold node_at, getInitializerFunction. by destruct (m !! name). }
  rewrite Hg. destruct (getInitializerFunction m name) as [g|] eqn:Eg; [by split_and!|].
  rewrite insert_insert_eq. set (m1 := <[name := _]> m).
  destruct (add_dependents_spec name dependents m1) as [H1 H2].
  assert (getInitializerFunction m1 name = Some f) as Hn1.
  { unfold getInitializerFunction, m1. by rewrite lookup_insert_eq. }
  split; [done|]. split; [by rewrite H2|]. split.
  - intros x Hx. rewrite H2. unfold getInitializerFunction, m1. by rewrite lookup_insert_ne.
  - intros x y. rewrite H1. assert (edge m1 x y <-> edge m x y \/ (x = name /\ y ∈ prereqs)) as ->; [|tauto].
    unfold edge, m1, node_at. destruct (decide (name = x)) as [->|Hne].
    + rewrite lookup_insert_eq. split.
      * intros (d & [= <-] & Hy). cbn in Hy. apply elem_of_union in Hy as [Hy|Hy].
        -- right. split; [done|]. by apply elem_of_list_to_set in Hy.
        -- left. destruct (m !! x) as [d|]; [by exists d|by apply elem_of_empty in Hy].
      * intros [(d & -> & Hy)|[_ Hy]]; eexists; (split; [reflexivity|]); cbn.
        -- by apply elem_of_union_r.
        -- apply elem_of_union_l. by apply elem_of_list_to_set.
    + rewrite lookup_insert_ne by done. split; [by left|]. intros [H|[-> _]]; [done|congruence].
Qed.
End building.

(** ** Initializer::execute *)

(** How an initializer function ends: with a status, or with a [DBException] whose
    [toStatus] is given. *)
Inductive fn_result := Returned (s : Status) | Caught (s : Status).

Section execute.
(** What the functions change. *)
Context {W : Type}.
Abbreviation InitializerFunction := (W -> W * fn_result).
Context {It : IterationOrder (NodeData (F := InitializerFunction))} {ItL : IterationOrderLaws (NodeData (F := InitializerFunction))}.

Fixpoint execute_loop (m : gmap bytes (NodeData (F := InitializerFunction))) (sortedNodes : list bytes) (w : W)
    : W * Status :=
  match sortedNodes with
  | [] => (w, OK)
  | x :: l =>
      match getInitializerFunction m x with
      | None =>
          (w, Err InternalError
                (B "topSort returned a node that has no associated function: " ++ [chr 34] ++ x ++ [chr 34]))
      | Some fn =>
          match fn w with
          | (w, Caught s) => (w, s)
          | (w, Returned OK) => execute_loop m l w
          | (w, Returned s) => (w, s)
          end
      end
  end.

Definition execute (fuel : nat) (m : gmap bytes (NodeData (F := InitializerFunction))) (w : W)
    : option (W * Status) :=
  match topSort fuel m with
  | None => None
  | Some (sortedNodes, OK) => Some (execute_loop m sortedNodes w)
  | Some (_, status) => Some (w, status)
  end.

(** The functions of [l] run one after the other, all with success. *)
Fixpoint all_ok (m : gmap bytes (NodeData (F := InitializerFunction))) (l : list bytes) (w : W) : option W :=
  match l with
  | [] => Some w
  | x :: l' =>
      match getInitializerFunction m x with
      | Some fn => match fn w with (w, Returned OK) => all_ok m l' w | _ => None end
      | None => None
      end
  end.

Lemma execute_loop_spec m l w : (forall x, x ∈ l -> ~ missing m x) ->
  let '(w', status) := execute_loop m l w in
  (status = OK /\ all_ok m l w = Some w') \/
  exists l1 x l2 fn w1, l = l1 ++ x :: l2 /\ all_ok m l1 w = Some w1 /\
    getInitializerFunction m x = Some fn /\
    ((fn w1 = (w', Returned status) /\ status <> OK) \/ fn w1 = (w', Caught status)).
Proof.
  revert w. induction l as [|x l IH]; intros w Hl; cbn [execute_loop all_ok]; [by left|].
  destruct (getInitializerFunction m x) as [fn|] eqn:Ef.
  2:{ exfalso. apply (Hl x); [apply list_elem_of_here|exact Ef]. }
  destruct (fn w) as [w1 [[|c why]|s]] eqn:E.
  - specialize (IH w1 ltac:(intros y Hy; apply Hl; by apply list_elem_of_further)).
    destruct (execute_loop m l w1) as [w' status]. destruct IH as [?|(l1 & y & l2 & g & w2 & -> & H1 & H2)].
    + by left.
    + right. exists (x :: l1), y, l2, g, w2. split; [done|]. cbn [all_ok]. by rewrite Ef, E.
  - right. exists [], x, l, fn, w. split; [done|]. split; [done|]. split; [done|]. left. by split.
  - right. exists [], x, l, fn, w. split; [done|]. split; [done|]. split; [done|]. by right.
Qed.

(** Running the initializers either runs none of them, with the sort's error, or
    runs them in an order that has all of them once, each after all it needs: all
    of them if the status is OK, and otherwise up to the first that fails or
    throws, whose status is returned.  The internal error that a sorted node has
    no function never occurs. *)
Theorem execute_in_order m w :
  exists w' status, execute (S (size (dom m))) m w = Some (w', status) /\
  ((w' = w /\ isOK status = false /\ exists l, topSort (S (size (dom m))) m = Some (l, status)) \/
   exists sorted, sorted ≡ₚ (map_to_list m).*1 /\ ordered m sorted /\
     ((status = OK /\ all_ok m sorted w = Some w') \/
      exists l1 x l2 fn w1, sorted = l1 ++ x :: l2 /\ all_ok m l1 w = Some w1 /\
        getInitializerFunction m x = Some fn /\
        ((fn w1 = (w', Returned status) /\ status <> OK) \/ fn w1 = (w', Caught status)))).
Proof.
  destruct (topSort_sound m) as [sorted E Hp Ho Hf|l status E Hne _]; unfold execute; rewrite E.
  - pose proof (execute_loop_spec m sorted w Hf) as H. destruct (execute_loop m sorted w) as [w' s].
    exists w', s. split; [done|]. right. by exists sorted.
  - exists w, status. destruct status; [done|]. split; [done|]. left. split; [done|]. split; [done|]. by exists l.
Qed.
End execute.

(** Three initializers that log their names. *)
Definition log_name (x : bytes) (w : list bytes) : list bytes * fn_result := (w ++ [x], Returned OK).
Definition sample_graph : gmap bytes (NodeData (F := list bytes -> list bytes * fn_result)) :=
  let m := (addInitializer ∅ (B "c") (Some (log_name (B "c"))) [B "b"] []).1 in
  let m := (addInitializer m (B "a") (Some (log_name (B "a"))) [] [B "b"]).1 in
  (addInitializer m (B "b") (Some (log_name (B "b"))) [] []).1.

Lemma topSort_sorts_witness :
  topSort (S (size (dom sample_graph))) sample_graph = Some ([B "a"; B "b"; B "c"], OK) /\
  ordered sample_graph [B "a"; B "b"; B "c"].
Proof.
  assert (topSort (S (size (dom sample_graph))) sample_graph = Some ([B "a"; B "b"; B "c"], OK)) as E
    by (by vm_compute).
  split; [exact E|]. pose proof (topSort_sorts (ItL := sample_order_laws) sample_graph) as [H _].
  rewrite E in H. apply H.
Defined.

Lemma execute_in_order_witness :
  exists w' status, execute (S (size (dom sample_graph))) sample_graph [] = Some (w', status) /\
    w' = [B "a"; B "b"; B "c"] /\ status = OK.
Proof.
  destruct (execute_in_order (ItL := sample_order_laws) sample_graph []) as (w' & status & E & _).
  exists w', status. split; [exact E|].
  assert (execute (S (size (dom sample_graph))) sample_graph [] = Some ([B "a"; B "b"; B "c"], OK)) as E'
    by (by vm_compute).
  rewrite E' in E. injection E as <- <-. split; reflexivity.
Defined.
