(* ===== verification/FailPoint.v ===== *)
(** * Fail points: util/fail_point.h, util/fail_point.cpp

    [FailPoint] shared by threads: the counter word [_fpInfo] (bit 31: active, bits
    0-30: references), the settings, and the mutex of [setMode].  A thread is a
    program counter; every atomic operation of the code, and every access to the
    settings, is one step. *)
From stdpp Require Import relations.
From S2P Require Import Prelude.
Local Open Scope Z_scope.

Inductive Mode := off | alwaysOn | random | nTimes.
Global Instance Mode_eq_dec : EqDecision Mode.
Proof. solve_decision. Defined.

(** The argument of [setMode], an integer converted to the enumeration. *)
Definition Mode_of (m : Z) : option Mode :=
  if m =? 0 then Some off else if m =? 1 then Some alwaysOn
  else if m =? 2 then Some random else if m =? 3 then Some nTimes else None.

Section failpoint.
(** The extra BSON object. *)
Context {D : Type}.

Record FailPoint := mkFailPoint {
  _fpInfo : Z;
  _mode : Mode;
  _timesOrPeriod : Z;
  _data : D;
  _modMutex : option nat }.

Definition FailPoint_ctor (empty : D) : FailPoint := mkFailPoint 0 off 0 empty None.

Definition ACTIVE_BIT : Z := 2 ^ 31.
Definition REF_COUNTER_MASK : Z := 2 ^ 31 - 1.

Definition set_fpInfo (fp : FailPoint) (v : Z) : FailPoint :=
  mkFailPoint v (_mode fp) (_timesOrPeriod fp) (_data fp) (_modMutex fp).
Definition set_mode (fp : FailPoint) (m : Mode) : FailPoint :=
  mkFailPoint (_fpInfo fp) m (_timesOrPeriod fp) (_data fp) (_modMutex fp).
Definition set_times (fp : FailPoint) (v : Z) : FailPoint :=
  mkFailPoint (_fpInfo fp) (_mode fp) v (_data fp) (_modMutex fp).
Definition set_data (fp : FailPoint) (d : D) : FailPoint :=
  mkFailPoint (_fpInfo fp) (_mode fp) (_timesOrPeriod fp) d (_modMutex fp).
Definition set_mutex (fp : FailPoint) (o : option nat) : FailPoint :=
  mkFailPoint (_fpInfo fp) (_mode fp) (_timesOrPeriod fp) (_data fp) o.

(** [AtomicUInt32] and [AtomicInt32] wrap around. *)
Definition addAndFetch (fp : FailPoint) (n : Z) : Z * FailPoint :=
  let v := wrap uint32 (_fpInfo fp + n) in (v, set_fpInfo fp v).
Definition subtractAndFetch (fp : FailPoint) : Z * FailPoint :=
  let v := wrap int32 (_timesOrPeriod fp - 1) in (v, set_times fp v).
Definition compareAndSwap (fp : FailPoint) (expected new : Z) : Z * FailPoint :=
  (_fpInfo fp, if _fpInfo fp =? expected then set_fpInfo fp new else fp).
Definition is_active (v : Z) : bool := negb (Z.land v ACTIVE_BIT =? 0).

(** ** Program counters *)

Inductive PC :=
  | Idle
  (* shouldFailOpenBlock, slowShouldFailOpenBlock *)
  | Checked                    (* the relaxed load saw the active bit *)
  | Opened                     (* reference taken while active, before the switch *)
  | Counting                   (* nTimes: before subtractAndFetch *)
  | Exhausted                  (* disableFailPoint, before the load *)
  | Disabling (expected : Z)   (* disableFailPoint, before the compareAndSwap *)
  | SlowOn                     (* the block runs; getData is allowed *)
  | SlowOff
  | Aborted (code : Z)         (* fassertFailed *)
  (* setMode, holding the mutex *)
  | Set_start (mode val : Z) (extra : D)
  | Set_disabling (mode val : Z) (extra : D) (expected : Z)
  | Set_waiting (mode val : Z) (extra : D)
  | Set_checking (mode val : Z) (extra : D)
  | Set_mode (mode : Mode) (val : Z) (extra : D)
  | Set_times (mode : Mode) (val : Z) (extra : D)
  | Set_data (mode : Mode) (extra : D)
  | Set_done
  | Set_enable
  | Set_enabling (expected : Z)
  (* toBSON, holding the mutex *)
  | To_bson.

(** The next step of a thread that is in one of the functions. [None]: it waits. *)
Definition advance (pc : PC) (fp : FailPoint) : option (PC * FailPoint) :=
  match pc with
  | Idle | Aborted _ => None
  | Checked =>
      let (v, fp) := addAndFetch fp 1 in
      Some (if negb (is_active v) then SlowOff else Opened, fp)
  | Opened =>
      match _mode fp with
      | alwaysOn => Some (SlowOn, fp)
      | random => Some (Aborted 16443, fp)
      | nTimes => Some (Counting, fp)
      | off => Some (Aborted 16444, fp)
      end
  | Counting =>
      let (newVal, fp) := subtractAndFetch fp in
      Some (if newVal <=? 0 then Exhausted else SlowOn, fp)
  | Exhausted => Some (Disabling (_fpInfo fp), fp)
  | Disabling e =>
      let (current, fp) := compareAndSwap fp e (Z.land e REF_COUNTER_MASK) in
      Some (if current =? e then SlowOn else Disabling current, fp)
  | SlowOn | SlowOff => let (_, fp) := addAndFetch fp (-1) in Some (Idle, fp)
  | Set_start m v d => Some (Set_disabling m v d (_fpInfo fp), fp)
  | Set_disabling m v d e =>
      let (current, fp) := compareAndSwap fp e (Z.land e REF_COUNTER_MASK) in
      Some (if current =? e then Set_waiting m v d else Set_disabling m v d current, fp)
  | Set_waiting m v d => Some (if _fpInfo fp =? 0 then Set_checking m v d else Set_waiting m v d, fp)
  | Set_checking m v d =>
      match Mode_of m with
      | Some mode => Some (Set_mode mode v d, fp)
      | None => Some (Idle, set_mutex fp None) (* uassert 16442 *)
      end
  | Set_mode mode v d => Some (Set_times mode v d, set_mode fp mode)
  | Set_times mode v d => Some (Set_data mode d, set_times fp (wrap int32 v))
  | Set_data mode d => Some (if bool_decide (mode = off) then Set_done else Set_enable, set_data fp d)
  | Set_enable => Some (Set_enabling (_fpInfo fp), fp)
  | Set_enabling e =>
      let (current, fp) := compareAndSwap fp e (Z.lor e ACTIVE_BIT) in
      Some (if current =? e then Set_done else Set_enabling current, fp)
  | Set_done | To_bson => Some (Idle, set_mutex fp None)
  end.

Record World := mkWorld { fpoint : FailPoint; pcs : gmap nat PC }.

Inductive world_step : World -> World -> Prop :=
  | step_advance i pc pc' fp fp' ths : ths !! i = Some pc -> advance pc fp = Some (pc', fp') ->
      world_step (mkWorld fp ths) (mkWorld fp' (<[i := pc']> ths))
  | step_open i fp ths : ths !! i = Some Idle -> (* the inlined fast path of shouldFailOpenBlock *)
      world_step (mkWorld fp ths) (mkWorld fp (<[i := if is_active (_fpInfo fp) then Checked else Idle]> ths))
  | step_setMode i m v d fp ths : ths !! i = Some Idle -> _modMutex fp = None ->
      world_step (mkWorld fp ths) (mkWorld (set_mutex fp (Some i)) (<[i := Set_start m v d]> ths))
  | step_toBSON i fp ths : ths !! i = Some Idle -> _modMutex fp = None ->
      world_step (mkWorld fp ths) (mkWorld (set_mutex fp (Some i)) (<[i := To_bson]> ths)).

(** Threads that have not called anything yet, fewer than the counter can count. *)
Definition world_init (w : World) : Prop :=
  (exists d, fpoint w = FailPoint_ctor d) /\ (forall i pc, pcs w !! i = Some pc -> pc = Idle) /\
  Z.of_nat (size (pcs w)) < ACTIVE_BIT.

(** ** Who may do what *)

(** Holding a reference. *)
Definition holds (pc : PC) : bool :=
  match pc with
  | Opened | Counting | Exhausted | Disabling _ | SlowOn | SlowOff | Aborted _ => true
  | _ => false
  end.
(** Reading the settings: the fail point was active when the reference was taken. *)
Definition reading (pc : PC) : bool :=
  match pc with Opened | Counting | Exhausted | Disabling _ | SlowOn | Aborted _ => true | _ => false end.
(** Changing the settings. *)
Definition writing (pc : PC) : bool :=
  match pc with
  | Set_checking _ _ _ | Set_mode _ _ _ | Set_times _ _ _ | Set_data _ _ | Set_enable | Set_enabling _ => true
  | _ => false
  end.
(** The active bit is down. *)
Definition deactivated (pc : PC) : bool :=
  match pc with Set_waiting _ _ _ => true | _ => writing pc end.
Definition locking (pc : PC) : bool :=
  match pc with
  | Set_start _ _ _ | Set_disabling _ _ _ _ | Set_waiting _ _ _ | Set_done | To_bson => true
  | _ => writing pc
  end.

(** ** The counter word *)

Definition word (active : bool) (refs : nat) : Z := (if active then ACTIVE_BIT else 0) + Z.of_nat refs.

Lemma word_low active refs : Z.of_nat refs < ACTIVE_BIT -> Z.land (word active refs) REF_COUNTER_MASK = Z.of_nat refs.
Proof.
  intros H. unfold word, REF_COUNTER_MASK, ACTIVE_BIT in *. replace (2 ^ 31 - 1) with (Z.ones 31) by done.
  rewrite Z.land_ones by lia. change (2 ^ 31) with 2147483648 in *.
  destruct active; Z.div_mod_to_equations; lia.
Qed.

Lemma land_bit r : 0 <= r < ACTIVE_BIT -> Z.land r ACTIVE_BIT = 0.
Proof.
  unfold ACTIVE_BIT. intros H. apply Z.bits_inj'. intros n Hn. rewrite Z.land_spec, Z.bits_0, Z.pow2_bits_eqb by lia.
  destruct (Z.eqb_spec 31 n) as [<-|]; [|by rewrite andb_false_r].
  assert (Z.testbit r 31 = false) as ->; [|done]. destruct (Z.eq_dec r 0) as [->|]; [by vm_compute|].
  apply Z.bits_above_log2; [lia|]. apply Z.log2_lt_pow2; lia.
Qed.

Lemma word_active active refs : Z.of_nat refs < ACTIVE_BIT -> is_active (word active refs) = active.
Proof.
  intros H. unfold is_active, word. destruct active; [|rewrite Z.add_0_l, land_bit by lia; done].
  assert (Z.lor ACTIVE_BIT (Z.of_nat refs) = ACTIVE_BIT + Z.of_nat refs) as <-.
  { pose proof (Z.add_lor_land ACTIVE_BIT (Z.of_nat refs)) as E.
    rewrite (Z.land_comm _ (Z.of_nat refs)), land_bit in E by lia. lia. }
  rewrite Z.land_lor_distr_l, Z.land_diag, land_bit, Z.lor_0_r by lia. done.
Qed.

Lemma word_enable active refs : Z.of_nat refs < ACTIVE_BIT -> Z.lor (word active refs) ACTIVE_BIT = word true refs.
Proof.
  intros H. unfold word.
  assert (Z.lor (Z.of_nat refs) ACTIVE_BIT = ACTIVE_BIT + Z.of_nat refs) as E.
  { pose proof (Z.add_lor_land (Z.of_nat refs) ACTIVE_BIT) as E. rewrite land_bit in E by lia. lia. }
  destruct active; [|by rewrite Z.add_0_l].
  rewrite <-E, <-Z.lor_assoc, Z.lor_diag. done.
Qed.

Lemma word_incr active refs : Z.of_nat (S refs) < ACTIVE_BIT ->
  wrap uint32 (word active refs + 1) = word active (S refs).
Proof.
  intros H. unfold word, ACTIVE_BIT in *. rewrite wrap_id; [|by vm_compute|unfold in_range; cbn]; destruct active; lia.
Qed.

Lemma word_decr active refs : Z.of_nat (S refs) < ACTIVE_BIT ->
  wrap uint32 (word active (S refs) + -1) = word active refs.
Proof.
  intros H. unfold word, ACTIVE_BIT in *. rewrite wrap_id; [|by vm_compute|unfold in_range; cbn]; destruct active; lia.
Qed.

(** ** Counting the threads that hold references *)

Definition refs (ths : gmap nat PC) : nat := size (filter (fun x => holds x.2 = true) ths).

Lemma refs_split i pc ths : ths !! i = Some pc -> refs ths = (refs (delete i ths) + Nat.b2n (holds pc))%nat.
Proof.
  intros E. unfold refs. rewrite <-(insert_delete_id ths i pc E) at 1.
  destruct (holds pc) eqn:Eh.
  - rewrite map_filter_insert_True by done. rewrite map_size_insert_None; [cbn; lia|].
    apply map_lookup_filter_None. left. apply lookup_delete_eq.
  - rewrite map_filter_insert_False by (cbn; congruence). rewrite delete_delete_eq. cbn. lia.
Qed.

Lemma refs_insert i pc pc' ths : ths !! i = Some pc ->
  (refs (<[i := pc']> ths) + Nat.b2n (holds pc) = refs ths + Nat.b2n (holds pc'))%nat.
Proof.
  intros E. rewrite (refs_split i pc ths E), (refs_split i pc' (<[i := pc']> ths)) by apply lookup_insert_eq.
  rewrite delete_insert_eq. lia.
Qed.

Lemma refs_drop i pc pc' ths : ths !! i = Some pc -> holds pc = true -> holds pc' = false ->
  refs ths = S (refs (<[i := pc']> ths)).
Proof. intros E H1 H2. pose proof (refs_insert i pc pc' ths E) as H. rewrite H1, H2 in H. cbn in H. lia. Qed.

Lemma refs_take i pc pc' ths : ths !! i = Some pc -> holds pc = false -> holds pc' = true ->
  refs (<[i := pc']> ths) = S (refs ths).
Proof. intros E H1 H2. pose proof (refs_insert i pc pc' ths E) as H. rewrite H1, H2 in H. cbn in H. lia. Qed.

Lemma refs_bound ths : (refs ths <= size ths)%nat.
Proof. apply map_subseteq_size, map_filter_subseteq. Qed.

Lemma refs_zero ths i pc : refs ths = 0%nat -> ths !! i = Some pc -> holds pc = false.
Proof. intros H E. rewrite (refs_split i pc ths E) in H. destruct (holds pc); [cbn in H; lia|done]. Qed.

(** ** The invariant *)

Definition pc_ok (fp : FailPoint) (pc : PC) : Prop :=
  match pc with
  | Set_times m _ _ | Set_data m _ => _mode fp = m
  | Set_enable | Set_enabling _ => _mode fp <> off
  | Aborted c => c = 16443
  | _ => True
  end.

Record world_inv (w : World) : Prop := {
  wi_word : exists active, _fpInfo (fpoint w) = word active (refs (pcs w)) /\
    (active = true -> _mode (fpoint w) <> off /\ forall i pc, pcs w !! i = Some pc -> deactivated pc = false);
  wi_size : Z.of_nat (size (pcs w)) < ACTIVE_BIT;
  wi_lock : forall i pc, pcs w !! i = Some pc -> locking pc = true -> _modMutex (fpoint w) = Some i;
  wi_read : forall i pc, pcs w !! i = Some pc -> reading pc = true -> _mode (fpoint w) <> off /\
    forall j pc', pcs w !! j = Some pc' -> writing pc' = false;
  wi_pc : forall i pc, pcs w !! i = Some pc -> pc_ok (fpoint w) pc }.

Lemma reading_holds pc : reading pc = true -> holds pc = true.
Proof. by destruct pc. Qed.
Lemma reading_not_locking pc : reading pc = true -> locking pc = false.
Proof. by destruct pc. Qed.
Lemma writing_deactivated pc : writing pc = true -> deactivated pc = true.
Proof. by destruct pc. Qed.
Lemma deactivated_locking pc : deactivated pc = true -> locking pc = true.
Proof. by destruct pc. Qed.
Lemma pc_ok_mode fp fp' pc : _mode fp' = _mode fp -> pc_ok fp pc -> pc_ok fp' pc.
Proof. intros E. destruct pc; cbn; by rewrite ?E. Qed.
Lemma pc_ok_unlocked fp fp' pc : locking pc = false -> pc_ok fp pc -> pc_ok fp' pc.
Proof. by destruct pc. Qed.

(** The threads after [i] has moved to [pc']. *)
Lemma after_move (ths : gmap nat PC) i pc' j x : <[i := pc']> ths !! j = Some x -> (j = i /\ x = pc') \/ (j <> i /\ ths !! j = Some x).
Proof. intros [[-> ->]|[? ?]]%lookup_insert_Some; [by left|right; split; [congruence|done]]. Qed.

Section moves.
Context (fp : FailPoint) (ths : gmap nat PC) (i : nat) (pc : PC).
Context (Hinv : world_inv (mkWorld fp ths)) (Ei : ths !! i = Some pc).

Lemma size_move pc' : size (<[i := pc']> ths) = size ths.
Proof. by rewrite map_size_insert_Some. Qed.

Lemma refs_same pc' : holds pc' = holds pc -> refs (<[i := pc']> ths) = refs ths.
Proof. intros E. pose proof (refs_insert i pc pc' ths Ei) as H. rewrite E in H. lia. Qed.

(** Only one thread holds the mutex. *)
Lemma lock_unique j x : locking pc = true -> ths !! j = Some x -> locking x = true -> j = i.
Proof.
  intros Hl Ej Hx. pose proof (wi_lock _ Hinv i pc Ei Hl) as H1. pose proof (wi_lock _ Hinv j x Ej Hx) as H2.
  congruence.
Qed.

(** A move that changes neither the mode nor the mutex. *)
Lemma move_plain pc' fp' active active' :
  _fpInfo fp = word active (refs ths) -> (active = true -> _mode fp <> off) ->
  (forall j x, active = true -> ths !! j = Some x -> deactivated x = false) ->
  _fpInfo fp' = word active' (refs (<[i := pc']> ths)) ->
  _mode fp' = _mode fp -> _modMutex fp' = _modMutex fp -> (locking pc' = true -> locking pc = true) ->
  (active' = true -> active = true /\ deactivated pc' = false) ->
  (reading pc' = true -> reading pc = true \/ active = true) ->
  (writing pc' = true -> writing pc = true \/ refs ths = 0%nat) ->
  pc_ok fp' pc' -> world_inv (mkWorld fp' (<[i := pc']> ths)).
Proof.
  intros Hw Hmode Hdeact Hw' Em El Hlock Hact Hread Hwrite Hok. constructor; cbn.
  - exists active'. split; [done|]. rewrite Em. intros Ha. destruct (Hact Ha) as [Ha' Hd]. split; [auto|].
    intros j x [[-> ->]|[_ Ej]]%after_move; [done|by eapply Hdeact].
  - rewrite size_move. apply Hinv.
  - rewrite El. intros j x [[-> ->]|[_ Ej]]%after_move Hx; [|by apply (wi_lock _ Hinv j x)].
    by apply (wi_lock _ Hinv i pc Ei), Hlock.
  - rewrite Em. intros j x Ej Hx.
    assert (_mode fp <> off /\ forall k y, ths !! k = Some y -> writing y = false) as [Hm Hnw].
    { apply after_move in Ej as [[-> ->]|[_ Ej]]; [|by apply (wi_read _ Hinv j x)].
      destruct (Hread Hx) as [Hr|Ha]; [by apply (wi_read _ Hinv i pc)|]. split; [auto|].
      intros k y Ek. specialize (Hdeact k y Ha Ek). by destruct y. }
    split; [done|]. intros k y [[-> ->]|[_ Ek]]%after_move; [|by eapply Hnw].
    apply not_true_iff_false. intros Hwr. destruct (Hwrite Hwr) as [Hpw|Hz].
    + specialize (Hnw i pc Ei). congruence.
    + apply after_move in Ej as [[-> ->]|[_ Ej]]; [by destruct pc'|].
      pose proof (refs_zero ths j x Hz Ej) as H. apply reading_holds in Hx. congruence.
  - intros j x [[-> ->]|[_ Ej]]%after_move; [done|]. apply (pc_ok_mode fp); [done|]. by apply (wi_pc _ Hinv j x).
Qed.

(** A write by the thread in [setMode]. *)
Lemma move_write pc' fp' :
  writing pc = true -> locking pc' = true -> reading pc' = false -> holds pc' = false ->
  _fpInfo fp' = _fpInfo fp -> _modMutex fp' = _modMutex fp -> pc_ok fp' pc' ->
  world_inv (mkWorld fp' (<[i := pc']> ths)).
Proof.
  intros Hwr Hl Hr Hh Ef Em Hok. pose proof (deactivated_locking _ (writing_deactivated _ Hwr)) as Hlock.
  assert (refs (<[i := pc']> ths) = refs ths) as Er by (apply refs_same; by destruct pc).
  constructor; cbn.
  - destruct (wi_word _ Hinv) as (active & Hw & Ha). cbn in Hw, Ha. exists active. rewrite Ef, Er. split; [done|].
    intros E. destruct (Ha E) as [_ Hd]. specialize (Hd i pc Ei). apply writing_deactivated in Hwr. congruence.
  - rewrite size_move. apply Hinv.
  - rewrite Em. intros j x [[-> ->]|[_ Ej]]%after_move Hx; [by apply (wi_lock _ Hinv i pc Ei)|].
    by apply (wi_lock _ Hinv j x).
  - intros j x [[-> ->]|[_ Ej]]%after_move Hx; [congruence|].
    destruct (wi_read _ Hinv j x Ej Hx) as [_ H]. specialize (H i pc Ei). congruence.
  - intros j x [[-> ->]|[Hne Ej]]%after_move; [done|]. apply (pc_ok_unlocked fp).
    + apply not_true_iff_false. intros Hx. by apply Hne, (lock_unique j x).
    + by apply (wi_pc _ Hinv j x).
Qed.

(** Raising the active bit. *)
Lemma move_enable e fp' : pc = Set_enabling e -> _fpInfo fp = e -> fp' = set_fpInfo fp (Z.lor e ACTIVE_BIT) ->
  world_inv (mkWorld fp' (<[i := Set_done]> ths)).
Proof.
  pose proof refs_same as Hrs. pose proof size_move as Hsm. pose proof lock_unique as Hlu.
  intros -> Ee ->. destruct (wi_word _ Hinv) as (active & Hw & _). cbn in Hw.
  pose proof (wi_size _ Hinv) as Hsz. pose proof (refs_bound ths) as Hb. cbn in Hsz.
  constructor; cbn.
  - exists true. rewrite Hrs by done. rewrite <-Ee, Hw. split; [apply word_enable; lia|]. intros _.
    split; [apply (wi_pc _ Hinv i _ Ei)|]. intros j x [[-> ->]|[Hne Ej]]%after_move; [done|].
    apply not_true_iff_false. intros Hd%deactivated_locking. by apply Hne, (Hlu j x).
  - by rewrite Hsm.
  - intros j x [[-> ->]|[_ Ej]]%after_move Hx; [by apply (wi_lock _ Hinv i _ Ei)|]. by apply (wi_lock _ Hinv j x).
  - intros j x [[-> ->]|[_ Ej]]%after_move Hx; [done|].
    destruct (wi_read _ Hinv j x Ej Hx) as [_ H]. by specialize (H i _ Ei).
  - intros j x [[-> ->]|[_ Ej]]%after_move; [done|]. by apply (wi_pc _ Hinv j x).
Qed.

(** Giving the mutex up. *)
Lemma move_unlock : locking pc = true -> holds pc = false ->
  world_inv (mkWorld (set_mutex fp None) (<[i := Idle]> ths)).
Proof.
  intros Hl Hh. destruct (wi_word _ Hinv) as (active & Hw & Ha). constructor; cbn.
  - exists active. rewrite refs_same by done. split; [done|]. intros E. destruct (Ha E) as [Hm Hd].
    split; [done|]. intros j x [[-> ->]|[_ Ej]]%after_move; [done|by eapply Hd].
  - rewrite size_move. apply Hinv.
  - intros j x [[-> ->]|[Hne Ej]]%after_move Hx; [done|]. by destruct (Hne (lock_unique j x Hl Ej Hx)).
  - intros j x [[-> ->]|[_ Ej]]%after_move Hx; [done|]. destruct (wi_read _ Hinv j x Ej Hx) as [Hm Hnw].
    split; [done|]. intros k y [[-> ->]|[_ Ek]]%after_move; [done|by eapply Hnw].
  - intros j x [[-> ->]|[_ Ej]]%after_move; [done|].
    apply (pc_ok_mode fp (set_mutex fp None)); [done|]. by apply (wi_pc _ Hinv j x).
Qed.

(** Taking it. *)
Lemma move_lock pc' : pc = Idle -> _modMutex fp = None -> locking pc' = true -> deactivated pc' = false ->
  holds pc' = false -> pc_ok fp pc' -> world_inv (mkWorld (set_mutex fp (Some i)) (<[i := pc']> ths)).
Proof.
  pose proof refs_same as Hrs. pose proof size_move as Hsm.
  intros -> Hfree Hl Hd' Hh Hok. destruct (wi_word _ Hinv) as (active & Hw & Ha). constructor; cbn.
  - exists active. rewrite Hrs by done. split; [done|]. intros E. destruct (Ha E) as [Hm Hd].
    split; [done|]. intros j x [[-> ->]|[_ Ej]]%after_move; [done|by eapply Hd].
  - rewrite Hsm. apply Hinv.
  - intros j x [[-> ->]|[Hne Ej]]%after_move Hx; [done|]. pose proof (wi_lock _ Hinv j x Ej Hx) as H. cbn in H.
    congruence.
  - intros j x [[-> ->]|[_ Ej]]%after_move Hx; [by destruct pc'|]. destruct (wi_read _ Hinv j x Ej Hx) as [Hm Hnw].
    split; [done|]. intros k y [[-> ->]|[_ Ek]]%after_move; [by destruct pc'|by eapply Hnw].
  - intros j x [[-> ->]|[_ Ej]]%after_move; [by apply (pc_ok_mode fp)|].
    apply (pc_ok_mode fp); [done|]. by apply (wi_pc _ Hinv j x).
Qed.
End moves.

(** ** Every step keeps the invariant *)

Lemma cas_disable fp active k (e : Z) : Z.of_nat k < ACTIVE_BIT -> _fpInfo fp = word active k -> _fpInfo fp = e ->
  Z.land e REF_COUNTER_MASK = word false k.
Proof. intros Hk Hw <-. rewrite Hw, word_low by done. done. Qed.

Lemma word_zero active k : word active k = 0 -> k = 0%nat.
Proof. unfold word, ACTIVE_BIT. destruct active; lia. Qed.

Lemma refs_room w : world_inv w -> Z.of_nat (refs (pcs w)) < ACTIVE_BIT.
Proof. intros H. pose proof (wi_size _ H). pose proof (refs_bound (pcs w)). lia. Qed.

Lemma refs_room_take fp ths i pc : world_inv (mkWorld fp ths) -> ths !! i = Some pc -> holds pc = false ->
  Z.of_nat (S (refs ths)) < ACTIVE_BIT.
Proof.
  intros H Ei Hh. pose proof (wi_size _ H) as Hs. cbn in Hs. rewrite <-(refs_take i pc Opened ths Ei) by done.
  pose proof (refs_bound (<[i := Opened]> ths)) as Hb. rewrite (size_move ths i pc Ei) in Hb. lia.
Qed.

Lemma advance_inv fp ths i pc pc' fp' :
  world_inv (mkWorld fp ths) -> ths !! i = Some pc -> advance pc fp = Some (pc', fp') ->
  world_inv (mkWorld fp' (<[i := pc']> ths)).
Proof.
  intros Hinv Ei Hadv. destruct (wi_word _ Hinv) as (active & Hw & Hact). cbn in Hw, Hact.
  assert (Z.of_nat (refs ths) < ACTIVE_BIT) as Hlt by (apply (refs_room _ Hinv)).
  assert (forall j x, active = true -> ths !! j = Some x -> deactivated x = false) as Hd
    by (intros j x H; by apply Hact).
  assert (active = true -> _mode fp <> off) as Hm by (intros H; by apply Hact).
  assert (pc_ok fp pc) as Hok by (by apply (wi_pc _ Hinv i)).
  assert (reading pc = true -> _mode fp <> off) as Hrm by (intros H; by apply (wi_read _ Hinv i pc)).
  assert (locking pc' = true -> locking pc = true -> holds pc = false -> holds pc' = false ->
    (writing pc' = true -> writing pc = true) -> deactivated pc' = deactivated pc -> reading pc' = false ->
    pc_ok fp pc' -> world_inv (mkWorld fp (<[i := pc']> ths))) as Hstay.
  { intros Hl' Hl Hh Hh' Hwr Hde Hrd Hok'. apply (move_plain fp ths i pc Hinv Ei pc' fp active active); try done.
    - by rewrite (refs_same ths i pc Ei) by congruence.
    - intros Ha. split; [done|]. rewrite Hde. by apply (Hd i).
    - congruence.
    - auto. }
  assert (forall fp1, _fpInfo fp1 = _fpInfo fp -> _mode fp1 = _mode fp -> _modMutex fp1 = _modMutex fp ->
    reading pc = true -> reading pc' = true -> pc_ok fp1 pc' -> fp' = fp1 ->
    world_inv (mkWorld fp1 (<[i := pc']> ths))) as Hreader.
  { intros fp1 E1 E2 E3 Hrd Hrd' Hok' _. apply (move_plain fp ths i pc Hinv Ei pc' fp1 active active); try done.
    - rewrite (refs_same ths i pc Ei); [by rewrite E1|]. apply reading_holds in Hrd, Hrd'. congruence.
    - intros H. by rewrite (reading_not_locking pc') in H.
    - intros Ha. split; [done|]. by destruct pc'.
    - by left.
    - by destruct pc'. }
  destruct pc as [| | | | |e| | |c|m v d|m v d e|m v d|m v d|m v d|m v d|m d| | |e|]; cbn [advance] in Hadv.
  - done.
  - (* taking a reference *)
    unfold addAndFetch in Hadv. injection Hadv as <- <-.
    assert (Z.of_nat (S (refs ths)) < ACTIVE_BIT) as Hb by (by apply (refs_room_take fp ths i Checked)).
    rewrite Hw, (word_incr active (refs ths) Hb), word_active by done.
    apply (move_plain fp ths i Checked Hinv Ei _ _ active active); try done; destruct active; try done;
      try (by rewrite (refs_take i Checked)); auto.
  - (* the switch *)
    destruct (_mode fp) eqn:Emode; injection Hadv as <- <-; try (by apply Hreader).
    by destruct (Hrm eq_refl).
  - unfold subtractAndFetch in Hadv. injection Hadv as <- <-. by destruct (_ <=? 0); apply Hreader.
  - injection Hadv as <- <-. by apply Hreader.
  - unfold compareAndSwap in Hadv. destruct (_fpInfo fp =? e) eqn:Ee; injection Hadv as <- <-.
    + apply Z.eqb_eq in Ee. apply (move_plain fp ths i _ Hinv Ei _ _ active false); try done.
      * cbn. rewrite (cas_disable fp active (refs ths) e) by done.
        f_equal. symmetry. by apply (refs_same ths i _ Ei).
      * by left.
    + by apply Hreader.
  - (* giving the reference back *)
    unfold addAndFetch in Hadv. injection Hadv as <- <-.
    apply (move_plain fp ths i _ Hinv Ei _ _ active active); try done. cbn. rewrite Hw.
    rewrite (refs_drop i _ Idle ths Ei) by done. apply word_decr. by rewrite <-(refs_drop i _ Idle ths Ei).
  - unfold addAndFetch in Hadv. injection Hadv as <- <-.
    apply (move_plain fp ths i _ Hinv Ei _ _ active active); try done. cbn. rewrite Hw.
    rewrite (refs_drop i _ Idle ths Ei) by done. apply word_decr. by rewrite <-(refs_drop i _ Idle ths Ei).
  - done.
  - injection Hadv as <- <-. by apply Hstay.
  - unfold compareAndSwap in Hadv. destruct (_fpInfo fp =? e) eqn:Ee; injection Hadv as <- <-; [|by apply Hstay].
    apply Z.eqb_eq in Ee. apply (move_plain fp ths i _ Hinv Ei _ _ active false); try done.
    cbn. rewrite (cas_disable fp active (refs ths) e) by done.
    f_equal. symmetry. by apply (refs_same ths i _ Ei).
  - destruct (_fpInfo fp =? 0) eqn:Ee; injection Hadv as <- <-; [|by apply Hstay].
    apply Z.eqb_eq in Ee. rewrite Hw in Ee.
    apply word_zero in Ee.
    apply (move_plain fp ths i _ Hinv Ei _ _ active active); try done.
    + by rewrite (refs_same ths i _ Ei).
    + intros Ha. by specialize (Hd i _ Ha Ei).
    + by right.
  - destruct (Mode_of m) as [mode|]; injection Hadv as <- <-; [by apply Hstay|by apply (move_unlock fp ths i _ Hinv Ei)].
  - injection Hadv as <- <-. by apply (move_write fp ths i _ Hinv Ei).
  - injection Hadv as <- <-. by apply (move_write fp ths i _ Hinv Ei).
  - injection Hadv as <- <-. destruct (bool_decide (m = off)) eqn:Eo; apply (move_write fp ths i _ Hinv Ei); try done.
    cbn in *. apply bool_decide_eq_false in Eo. congruence.
  - by injection Hadv as <- <-; apply (move_unlock fp ths i _ Hinv Ei).
  - injection Hadv as <- <-. by apply Hstay.
  - unfold compareAndSwap in Hadv. destruct (_fpInfo fp =? e) eqn:Ee; injection Hadv as <- <-; [|by apply Hstay].
    apply Z.eqb_eq in Ee. by apply (move_enable fp ths i _ Hinv Ei e).
  - by injection Hadv as <- <-; apply (move_unlock fp ths i _ Hinv Ei).
Qed.

Lemma world_init_inv w : world_init w -> world_inv w.
Proof.
  intros ([d Hfp] & Hidle & Hsz).
  assert (forall i pc, pcs w !! i = Some pc -> pc = Idle) as Hi by done.
  constructor; try done; try (by intros i pc ->%Hi).
  exists false. split; [|done]. rewrite Hfp. cbn. unfold refs.
  replace (filter _ _) with (∅ : gmap nat PC); [done|]. symmetry. apply map_empty. intros i.
  apply map_lookup_filter_None. right. by intros pc ->%Hi.
Qed.

Lemma world_step_inv w w' : world_inv w -> world_step w w' -> world_inv w'.
Proof.
  intros Hinv H. destruct H as [i pc pc' fp fp' ths Ei H|i fp ths Ei|i m v d fp ths Ei Hf|i fp ths Ei Hf].
  - by eapply advance_inv.
  - destruct (wi_word _ Hinv) as (active & Hw & Hact). cbn in Hw, Hact.
    pose proof (refs_room _ Hinv) as Hlt. cbn in Hlt. rewrite Hw, word_active by done.
    apply (move_plain fp ths i Idle Hinv Ei _ _ active active); try done; try (by destruct active).
    + intros Ha. by apply Hact.
    + intros j x Ha. by apply Hact.
    + rewrite (refs_same ths i Idle Ei); [done|by destruct active].
  - by apply (move_lock fp ths i Idle Hinv Ei).
  - by apply (move_lock fp ths i Idle Hinv Ei).
Qed.

Lemma world_reachable_inv w : Prelude.reachable world_init world_step w -> world_inv w.
Proof.
  apply (reachable_invariant world_init world_step world_inv); [exact world_init_inv|].
  intros s s' _. apply world_step_inv.
Qed.

(** Only the thread in the writing part of [setMode] changes the settings. *)
Lemma advance_settings pc pc' fp fp' : advance pc fp = Some (pc', fp') -> writing pc = false ->
  _mode fp' = _mode fp /\ _data fp' = _data fp.
Proof.
  intros H Hw. destruct pc; cbn in H, Hw; try done; unfold addAndFetch, subtractAndFetch, compareAndSwap in H;
    repeat case_match; by injection H as <- <-.
Qed.

(** C23: however the steps of any number of threads interleave (fewer than 2^31, so
    that the counter does not overflow into the active bit): the low bits of the
    counter word are the number of threads holding a reference; while a thread is
    between the open and close of an active block no thread is changing the
    settings, so that the mode and the data it reads do not change under it at any
    step; the settings and [toBSON] are under the mutex; and the only fatal
    assertion a block can reach is that random mode is not supported. *)
Theorem FailPoint_safe w :
  Prelude.reachable world_init world_step w ->
  Z.land (_fpInfo (fpoint w)) REF_COUNTER_MASK = Z.of_nat (refs (pcs w)) /\
  (forall i pc, pcs w !! i = Some pc -> reading pc = true ->
     (forall j pc', pcs w !! j = Some pc' -> writing pc' = false) /\
     (forall w', world_step w w' -> _mode (fpoint w') = _mode (fpoint w) /\ _data (fpoint w') = _data (fpoint w))) /\
  (forall i j pc pc', pcs w !! i = Some pc -> pcs w !! j = Some pc' -> locking pc = true -> locking pc' = true -> i = j) /\
  (forall i c, pcs w !! i = Some (Aborted c) -> c = 16443).
Proof.
  intros Hinv%world_reachable_inv. split; [|split; [|split]].
  - destruct (wi_word _ Hinv) as (active & -> & _). apply word_low, (refs_room _ Hinv).
  - intros i pc Ei Hr. destruct (wi_read _ Hinv i pc Ei Hr) as [_ Hnw]. split; [done|].
    intros w' H. destruct H as [j pcj pc' fp fp' ths Ej H| | |]; [|done..]. apply (advance_settings pcj pc'); [done|].
    by apply (Hnw j).
  - intros i j pc pc' Ei Ej Hl Hl'. pose proof (wi_lock _ Hinv i pc Ei Hl) as H1.
    pose proof (wi_lock _ Hinv j pc' Ej Hl') as H2. congruence.
  - intros i c Ei. by apply (wi_pc _ Hinv i _ Ei).
Qed.

(** ** One thread *)

Inductive RetCode := fastOff | slowOff | slowOn.

Definition disableFailPoint (fp : FailPoint) : FailPoint :=
  set_fpInfo fp (Z.land (_fpInfo fp) REF_COUNTER_MASK).
Definition enableFailPoint (fp : FailPoint) : FailPoint :=
  set_fpInfo fp (Z.lor (_fpInfo fp) ACTIVE_BIT).

Definition shouldFailCloseBlock (fp : FailPoint) : FailPoint := (addAndFetch fp (-1)).2.

Definition slowShouldFailOpenBlock (fp : FailPoint) : M (RetCode * FailPoint) :=
  let (localFpInfo, fp) := addAndFetch fp 1 in
  if negb (is_active localFpInfo) then Ret (slowOff, fp)
  else
    match _mode fp with
    | alwaysOn => Ret (slowOn, fp)
    | random => Throw (EFassert 16443)
    | nTimes =>
        let (newVal, fp) := subtractAndFetch fp in
        Ret (slowOn, if newVal <=? 0 then disableFailPoint fp else fp)
    | off => Throw (EFassert 16444)
    end.

Definition shouldFailOpenBlock (fp : FailPoint) : M (RetCode * FailPoint) :=
  if negb (is_active (_fpInfo fp)) then Ret (fastOff, fp) else slowShouldFailOpenBlock fp.

Definition shouldFail (fp : FailPoint) : M (bool * FailPoint) :=
  '(ret, fp) ← shouldFailOpenBlock fp;
  match ret with
  | fastOff => Ret (false, fp)
  | slowOn => Ret (true, shouldFailCloseBlock fp)
  | slowOff => Ret (false, shouldFailCloseBlock fp)
  end.

(** [None]: a reference is held, by the calling thread, and the wait never ends. *)
Definition setMode (fp : FailPoint) (m val : Z) (extra : D) : option (M FailPoint) :=
  let fp := disableFailPoint fp in
  if negb (_fpInfo fp =? 0) then None
  else
    match Mode_of m with
    | None => Some (Throw (EUassert 16442))
    | Some mode =>
        let fp := set_data (set_times (set_mode fp mode) (wrap int32 val)) extra in
        Some (Ret (if bool_decide (mode = off) then fp else enableFailPoint fp))
    end.

Fixpoint shouldFail_times (k : nat) (fp : FailPoint) : M (list bool * FailPoint) :=
  match k with
  | O => Ret ([], fp)
  | S k => '(b, fp) ← shouldFail fp; '(l, fp) ← shouldFail_times k fp; Ret (b :: l, fp)
  end.

(** [ScopedFailPoint] *)
Record ScopedFailPoint := mkScoped { _once : bool; _shouldClose : bool }.
Definition ScopedFailPoint_ctor : ScopedFailPoint := mkScoped false false.
Definition isActive (s : ScopedFailPoint) (fp : FailPoint) : M (bool * ScopedFailPoint * FailPoint) :=
  if _once s then Ret (false, s, fp)
  else
    '(ret, fp) ← shouldFailOpenBlock fp;
    Ret (match ret with slowOn => true | _ => false end,
         mkScoped true (match ret with fastOff => false | _ => true end), fp).
Definition ScopedFailPoint_dtor (s : ScopedFailPoint) (fp : FailPoint) : FailPoint :=
  if _shouldClose s then shouldFailCloseBlock fp else fp.
Definition Scoped_getData (s : ScopedFailPoint) (fp : FailPoint) : M D :=
  guard_throw (_shouldClose s) (EFassert 16445);; Ret (_data fp).

Lemma shouldFail_inactive fp : _fpInfo fp = word false 0 -> shouldFail fp = Ret (false, fp).
Proof. intros E. unfold shouldFail, shouldFailOpenBlock. by rewrite E. Qed.

Lemma shouldFail_count fp n : _fpInfo fp = word true 0 -> _mode fp = nTimes -> _timesOrPeriod fp = n ->
  in_range int32 n -> int_min int32 < n ->
  exists fp', shouldFail fp = Ret (true, fp') /\ _fpInfo fp' = word (1 <? n) 0 /\ _mode fp' = nTimes /\
    _timesOrPeriod fp' = n - 1 /\ _data fp' = _data fp.
Proof.
  intros Ew Em Et Hr Hmin. unfold shouldFail, shouldFailOpenBlock. rewrite Ew.
  change (negb (is_active (word true 0))) with false. cbn match. unfold slowShouldFailOpenBlock, addAndFetch.
  rewrite Ew. change (wrap uint32 (word true 0 + 1)) with (word true 1).
  change (negb (is_active (word true 1))) with false. cbn match. cbn [_mode set_fpInfo]. rewrite Em.
  unfold subtractAndFetch. cbn [_timesOrPeriod set_fpInfo]. rewrite Et.
  rewrite (wrap_id int32) by (done || (unfold in_range in *; lia)).
  replace (n - 1 <=? 0) with (negb (1 <? n)) by (destruct (Z.ltb_spec 1 n), (Z.leb_spec (n - 1) 0); lia || done).
  destruct (1 <? n); cbn [negb mbind result_bind].
  - eexists. split; [done|]. done.
  - eexists. split; [done|]. done.
Qed.

Lemma shouldFail_times_inactive k fp : _fpInfo fp = word false 0 ->
  shouldFail_times k fp = Ret (replicate k false, fp).
Proof.
  intros E. induction k as [|k IH]; cbn [shouldFail_times]; [done|]. rewrite shouldFail_inactive by done.
  cbn [mbind result_bind]. by rewrite IH.
Qed.

Lemma shouldFail_times_count k fp n : _fpInfo fp = word true 0 -> _mode fp = nTimes -> _timesOrPeriod fp = Z.of_nat (S n) ->
  Z.of_nat (S n) <= int_max int32 ->
  exists fp', shouldFail_times k fp = Ret (replicate (k `min` S n) true ++ replicate (k - S n) false, fp') /\
    exists a, _fpInfo fp' = word a 0.
Proof.
  revert k fp. induction n as [|n IH]; intros k fp Ew Em Et Hn; (destruct k as [|k]; [exists fp; eauto|]);
    cbn [shouldFail_times];
    (destruct (shouldFail_count fp _ Ew Em Et) as (fp1 & -> & Ew1 & Em1 & Et1 & _);
      [unfold in_range; change (int_min int32) with (-2147483648); lia|change (int_min int32) with (-2147483648); lia|]);
    cbn [mbind result_bind].
  - rewrite (shouldFail_times_inactive k fp1 Ew1). cbn [mbind result_bind]. exists fp1.
    rewrite Nat.min_0_r || idtac. replace (S k `min` 1)%nat with 1%nat by lia.
    replace (S k - 1)%nat with k by lia. split; [done|]. by eexists.
  - destruct (IH k fp1) as (fp2 & -> & Hw2); [|done|lia|lia|].
    + rewrite Ew1. f_equal. apply Z.ltb_lt. lia.
    + cbn [mbind result_bind]. exists fp2. split; [|done]. done.
Qed.

(** A fail point used by one thread, set to mode nTimes with a positive count,
    fires for exactly that many calls of [shouldFail] and then never, leaving no
    reference behind; set to alwaysOn it fires at every call, and off at none. *)
Theorem setMode_counts fp val extra k a :
  _fpInfo fp = word a 0 -> 0 < val <= int_max int32 ->
  (exists fp' fp'', setMode fp 3 val extra = Some (Ret fp') /\ _data fp' = extra /\
     shouldFail_times k fp' = Ret (replicate (k `min` Z.to_nat val) true ++ replicate (k - Z.to_nat val) false, fp'') /\
     exists b, _fpInfo fp'' = word b 0) /\
  (exists fp', setMode fp 1 val extra = Some (Ret fp') /\ shouldFail_times k fp' = Ret (replicate k true, fp')) /\
  (exists fp', setMode fp 0 val extra = Some (Ret fp') /\ shouldFail_times k fp' = Ret (replicate k false, fp')).
Proof.
  intros Ew Hval.
  assert (disableFailPoint fp = set_fpInfo fp (word false 0)) as Ed.
  { unfold disableFailPoint. rewrite Ew, word_low; [done|by vm_compute]. }
  unfold setMode. rewrite Ed. cbn [_fpInfo set_fpInfo]. change (negb (word false 0 =? 0)) with false. cbn match.
  assert (wrap int32 val = val) as Ewr.
  { apply wrap_id; [done|]. unfold in_range. change (int_min int32) with (-2147483648). lia. }
  rewrite Ewr. split; [|split].
  - cbn. eexists. destruct (shouldFail_times_count k
      (enableFailPoint (set_data (set_times (set_mode (set_fpInfo fp 0) nTimes) val) extra)) (Z.to_nat val - 1))
      as (fp'' & E & Hb); [done|done|cbn; lia|lia|].
    replace (S (Z.to_nat val - 1)) with (Z.to_nat val) in E by lia. exists fp''. by split_and!.
  - exists (enableFailPoint (set_data (set_times (set_mode (set_fpInfo fp (word false 0)) alwaysOn) val) extra)).
    split; [done|]. set (fp1 := enableFailPoint _).
    assert (shouldFail fp1 = Ret (true, fp1)) as E1 by done. clearbody fp1. clear -E1.
    induction k as [|k IH]; cbn [shouldFail_times]; [done|]. rewrite E1. cbn [mbind result_bind]. by rewrite IH.
  - cbn. eexists. split; [done|]. by apply shouldFail_times_inactive.
Qed.
End failpoint.
Arguments FailPoint D : clear implicits.
Arguments PC D : clear implicits.
Arguments World D : clear implicits.

(** ** Examples *)

Lemma reachable_rtc {St} (init : St -> Prop) (step : St -> St -> Prop) s s' :
  Prelude.reachable init step s -> rtc step s s' -> Prelude.reachable init step s'.
Proof. intros H. induction 1 as [s|s1 s2 s3 Hs _ IH]; [done|]. apply IH. by eapply reach_step. Qed.

Ltac advances i := eapply rtc_l; [eapply (step_advance i); [vm_compute; reflexivity|vm_compute; reflexivity]|].
Ltac opens i := eapply rtc_l; [apply (step_open i); vm_compute; reflexivity|].
Ltac sets i m v := eapply rtc_l; [apply (step_setMode i m v tt); vm_compute; reflexivity|].

Definition three_idle : gmap nat (PC unit) := {[ 0%nat := Idle; 1%nat := Idle; 2%nat := Idle ]}.

(** nTimes with count 1 can fire in two threads: each that opened the block before
    the count reached 0 is answered slowOn. *)
Lemma nTimes_overfires : exists w, Prelude.reachable (world_init (D := unit)) world_step w /\
  pcs w !! 0%nat = Some SlowOn /\ pcs w !! 1%nat = Some SlowOn /\ _timesOrPeriod (fpoint w) = -1.
Proof.
  eexists. split.
  - eapply (reachable_rtc _ _ (mkWorld (FailPoint_ctor tt) three_idle)).
    + apply reach_init. split; [by exists tt|]. split; [|by vm_compute].
      intros i pc H. cbn in H. unfold three_idle in H.
      repeat (apply lookup_insert_Some in H as [[_ <-]|[_ H]]; [done|]). by apply lookup_singleton_Some in H as [_ <-].
    + sets 2%nat 3 1. do 10 advances 2%nat. opens 0%nat. opens 1%nat. advances 0%nat. advances 1%nat.
      do 2 advances 0%nat. do 2 advances 1%nat. do 2 advances 0%nat. do 2 advances 1%nat. apply rtc_refl.
  - by split_and!.
Qed.

Lemma FailPoint_safe_witness : exists w, Prelude.reachable (world_init (D := unit)) world_step w /\
  exists i, pcs w !! i = Some SlowOn /\ forall j pc', pcs w !! j = Some pc' -> writing pc' = false.
Proof.
  destruct nTimes_overfires as (w & Hw & E0 & _). exists w. split; [exact Hw|].
  destruct (FailPoint_safe w Hw) as (_ & H & _). exists 0%nat. split; [exact E0|]. by apply (H 0%nat SlowOn).
Defined.

Lemma setMode_counts_witness : exists fp' fp'',
  setMode (FailPoint_ctor tt) 3 2 tt = Some (Ret fp') /\
  shouldFail_times 4 fp' = Ret ([true; true; false; false], fp'').
Proof.
  destruct (setMode_counts (FailPoint_ctor tt) 2 tt 4 false) as [(fp' & fp'' & E & _ & H & _) _].
  - reflexivity.
  - by vm_compute.
  - exists fp', fp''. split; [exact E|exact H].
Defined.
