(* ===== verification/Background.v ===== *)
(** * Background jobs: util/background.h, util/background.cpp

    A job shared by threads: its status behind a mutex, the thread that runs it, and the
    threads that wait for it.  What a thread does while it holds the mutex is one step;
    waiting on the condition variable gives the mutex back.  Threads wake when they are
    notified, when their time is over, or without a reason. *)
From stdpp Require Import gmap.
From S2P Require Import Prelude.
Local Open Scope Z_scope.

Inductive State := NotStarted | Running | Done.
Global Instance State_eq_dec : EqDecision State.
Proof. solve_decision. Defined.

(** The thread of the job, by what it does next: call [run], return from it, say that it
    is done, delete the job. *)
Inductive JobThread := Starting | InRun | Ending | Leaving | Gone.
Global Instance JobThread_eq_dec : EqDecision JobThread.
Proof. solve_decision. Defined.
(** [runs] counts the calls of [run]; [terminated] is the end of the process. *)
Record BackgroundJob := mkJob {
  _selfDelete : bool; state : State; thread : option JobThread; runs : nat; deleted : bool; terminated : bool }.
Definition BackgroundJob_ctor (selfDelete : bool) : BackgroundJob := mkJob selfDelete NotStarted None 0 false false.
Definition set_state (x : State) (j : BackgroundJob) := mkJob (_selfDelete j) x (thread j) (runs j) (deleted j) (terminated j).
Definition set_thread (x : option JobThread) (j : BackgroundJob) := mkJob (_selfDelete j) (state j) x (runs j) (deleted j) (terminated j).

Inductive WaitPC :=
  | Testing (msTimeOut : Z)                 (* about to take the mutex and test *)
  | Blocked (msTimeOut : Z) (deadline : Z)  (* on the condition variable *)
  | Returned (result : bool).
Record System := mkSystem { job : BackgroundJob; waiters : gmap nat WaitPC; now : Z }.

(** The clock of [boost::xtime], and a time some milliseconds later. *)
Definition xtime_nanos (sec nsec : Z) : Z := sec * 1000000000 + nsec.
Definition incxtimemillis (sec nsec s : Z) : Z * Z :=
  let sec := sec + wrap int32 (s ÷ 1000) in
  let nsec := nsec + wrap int32 ((Z.rem s 1000) * 1000000) in
  if 1000000000 <=? nsec then (sec + 1, nsec - 1000000000) else (sec, nsec).

(** ** The operations *)

Definition notify_all (w : gmap nat WaitPC) : gmap nat WaitPC :=
  (fun pc => match pc with Blocked ms _ => Testing ms | _ => pc end) <$> w.
Definition go (s : System) : M System :=
  massert 17234 (bool_decide (state (job s) <> Running));;
  Ret (if bool_decide (state (job s) = NotStarted)
       then mkSystem (set_state Running (set_thread (Some Starting) (job s))) (waiters s) (now s) else s).
Definition cancel (s : System) : System * bool :=
  match state (job s) with
  | Running => (s, false)
  | NotStarted => (mkSystem (set_state Done (job s)) (notify_all (waiters s)) (now s), true)
  | Done => (s, true)
  end.
Definition running (j : BackgroundJob) : bool := bool_decide (state j = Running).
(** The next step of [jobBody]; [threw]: [run] ended with an exception, which is thrown
    again out of the thread. *)
Definition jobBody (threw : bool) (s : System) : option System :=
  let j := job s in
  match thread j with
  | Some Starting => Some (mkSystem (mkJob (_selfDelete j) (state j) (Some InRun) (S (runs j)) (deleted j) (terminated j)) (waiters s) (now s))
  | Some InRun =>
      Some (if threw then mkSystem (mkJob (_selfDelete j) (state j) (Some InRun) (runs j) (deleted j) true) (waiters s) (now s)
            else mkSystem (set_thread (Some Ending) j) (waiters s) (now s))
  | Some Ending => Some (mkSystem (set_state Done (set_thread (Some Leaving) j)) (notify_all (waiters s)) (now s))
  | Some Leaving =>
      Some (mkSystem (mkJob (_selfDelete j) (state j) (Some Gone) (runs j) (_selfDelete j) (terminated j)) (waiters s) (now s))
  | Some Gone | None => None
  end.
(** [wait]: a call, the test of the loop, and a wake-up. *)
Definition wait_call (t : nat) (msTimeOut : Z) (s : System) : M System :=
  verify (negb (_selfDelete (job s)));; Ret (mkSystem (job s) (<[t := Testing msTimeOut]> (waiters s)) (now s)).
Definition wait_test (msTimeOut : Z) (s : System) : WaitPC :=
  if bool_decide (state (job s) = Done) then Returned true
  else Blocked msTimeOut (let '(sec, nsec) := incxtimemillis (now s / 1000000000) (now s mod 1000000000) msTimeOut in xtime_nanos sec nsec).
Definition put (t : nat) (pc : WaitPC) (s : System) : System := mkSystem (job s) (<[t := pc]> (waiters s)) (now s).

(** Nobody may use a job that has been deleted, and nothing happens in a process that has
    ended. *)
Inductive step : System -> System -> Prop :=
  | step_go s s' : terminated (job s) = false -> deleted (job s) = false -> go s = Ret s' -> step s s'
  | step_cancel s : terminated (job s) = false -> deleted (job s) = false -> step s (cancel s).1
  | step_body threw s s' : terminated (job s) = false -> jobBody threw s = Some s' -> step s s'
  | step_call t ms s s' : terminated (job s) = false -> deleted (job s) = false -> in_range uint32 ms ->
      (forall pc, waiters s !! t = Some pc -> exists r, pc = Returned r) -> wait_call t ms s = Ret s' -> step s s'
  | step_test t ms s : terminated (job s) = false -> waiters s !! t = Some (Testing ms) -> step s (put t (wait_test ms s) s)
  | step_wake t ms d s : terminated (job s) = false -> waiters s !! t = Some (Blocked ms d) -> step s (put t (Testing ms) s)
  | step_timeout t ms d s : terminated (job s) = false -> waiters s !! t = Some (Blocked ms d) -> ms <> 0 -> d <= now s ->
      step s (put t (Returned false) s)
  | step_clock dt s : 0 <= dt -> step s (mkSystem (job s) (waiters s) (now s + dt)).
Definition initial (selfDelete : bool) (start : Z) : System := mkSystem (BackgroundJob_ctor selfDelete) ∅ start.

(** ** Invariant *)

(** How often [run] has been called and what the status is, by where the thread is. *)
Definition thread_runs (t : option JobThread) : nat := match t with None | Some Starting => 0 | Some _ => 1 end.
Definition thread_state (t : option JobThread) (st : State) : Prop :=
  match t with
  | None => st <> Running
  | Some (Starting | InRun | Ending) => st = Running
  | Some (Leaving | Gone) => st = Done
  end.
Record invariant (s : System) : Prop := mkInvariant {
  inv_runs : runs (job s) = thread_runs (thread (job s));
  inv_state : thread_state (thread (job s)) (state (job s));
  inv_deleted : deleted (job s) = true -> _selfDelete (job s) = true /\ thread (job s) = Some Gone;
  inv_terminated : terminated (job s) = true -> thread (job s) = Some InRun;
  inv_blocked t ms d : waiters s !! t = Some (Blocked ms d) -> state (job s) <> Done;
  inv_returned t : waiters s !! t = Some (Returned true) -> state (job s) = Done }.
Lemma notify_lookup w t pc : notify_all w !! t = Some pc ->
  exists pc0, w !! t = Some pc0 /\ pc = match pc0 with Blocked ms _ => Testing ms | _ => pc0 end.
Proof. unfold notify_all. rewrite lookup_fmap. destruct (w !! t) as [pc0|]; [|discriminate]. intros E. injection E as <-. by exists pc0. Qed.
Lemma invariant_put t pc s : invariant s -> (forall ms d, pc = Blocked ms d -> state (job s) <> Done) ->
  (pc = Returned true -> state (job s) = Done) -> invariant (put t pc s).
Proof.
  intros [] Hb Hr. unfold put. constructor; cbn [job waiters]; try done.
  - intros t' ms d. destruct (decide (t = t')) as [<-|Hne]; [rewrite lookup_insert_eq; intros E; injection E as ->; by eapply Hb|].
    rewrite lookup_insert_ne by exact Hne. apply inv_blocked0.
  - intros t'. destruct (decide (t = t')) as [<-|Hne]; [rewrite lookup_insert_eq; intros E; injection E as ->; by apply Hr|].
    rewrite lookup_insert_ne by exact Hne. apply inv_returned0.
Qed.
(** The status becomes [Done], and all waiters are woken. *)
Lemma invariant_done s j : invariant s -> runs j = thread_runs (thread j) -> thread_state (thread j) Done -> state j = Done ->
  deleted j = false -> terminated j = false -> invariant (mkSystem j (notify_all (waiters s)) (now s)).
Proof.
  intros Hi Hr Hs Hd Hde Ht. constructor; cbn [job waiters]; try congruence.
  intros t ms d (pc0 & _ & E)%notify_lookup. by destruct pc0.
Qed.
Lemma body_invariant threw s s' : terminated (job s) = false -> invariant s -> jobBody threw s = Some s' -> invariant s'.
Proof.
  intros Ht Hi. pose proof Hi as [Hr Hs Hd _ Hb Hw]. unfold jobBody. destruct (job s) as [sd st th n de te] eqn:Ej. cbn in *. subst te.
  destruct th as [[| | | |]|]; try discriminate; intros E; injection E as <-; cbn in *.
  - constructor; cbn; try done; try lia. intros ->. by destruct Hd.
  - destruct threw; constructor; cbn; try done; intros ->; by destruct Hd.
  - apply invariant_done; cbn; try done. destruct de; [|done]. by destruct Hd.
  - constructor; cbn; try done.
Qed.
Lemma step_invariant s s' : invariant s -> step s s' -> invariant s'.
Proof.
  intros Hi Hstep. pose proof Hi as [Hr Hs Hd Ht Hb Hw]. destruct Hstep.
  - unfold go in H1. destruct (decide (state (job s) = Running)) as [E|E]; [rewrite (bool_decide_eq_false_2 (state (job s) <> Running)) in H1 by (intros Hc; by apply Hc); discriminate H1|].
    rewrite (bool_decide_eq_true_2 (state (job s) <> Running)) in H1 by exact E. cbn in H1. case_bool_decide as En; injection H1 as <-; [|exact Hi].
    destruct (thread (job s)) as [[| | | |]|] eqn:Eth; cbn in Hs; try congruence.
    constructor; cbn; try done; try congruence. intros t Hl. specialize (Hw t Hl). congruence.
  - unfold cancel. destruct (state (job s)) eqn:E; [|exact Hi|exact Hi]. cbn [fst].
    destruct (thread (job s)) as [[| | | |]|] eqn:Eth; cbn in Hs; try congruence. apply invariant_done; cbn; try done; by rewrite Eth.
  - by eapply body_invariant.
  - unfold wait_call in H3. destruct (_selfDelete (job s)); [discriminate|]. injection H3 as <-. by apply (invariant_put t (Testing ms)).
  - apply invariant_put; [exact Hi| |]; unfold wait_test; case_bool_decide as E; try done.
  - by apply invariant_put.
  - by apply invariant_put.
  - destruct Hi. by constructor.
Qed.

(** A job that is done stays done, and [run] is not called in it any more. *)
Lemma done_stays s s' : invariant s -> state (job s) = Done -> step s s' ->
  state (job s') = Done /\ runs (job s') = runs (job s).
Proof.
  intros Hi Hdone Hstep. pose proof (inv_state s Hi) as Hs. rewrite Hdone in Hs. destruct Hstep; try done.
  - unfold go in H1. rewrite (bool_decide_eq_true_2 (state (job s) <> Running)) in H1 by congruence. cbn in H1.
    rewrite (bool_decide_eq_false_2 (state (job s) = NotStarted)) in H1 by congruence. by injection H1 as <-.
  - unfold cancel. by rewrite Hdone.
  - unfold jobBody in H0. destruct (thread (job s)) as [[| | | |]|]; try discriminate Hs; try discriminate H0.
    injection H0 as <-. done.
  - unfold wait_call in H3. destruct (_selfDelete (job s)); [discriminate|]. by injection H3 as <-.
Qed.
Lemma done_for_good s s' : invariant s -> state (job s) = Done -> reachable (fun x => x = s) step s' ->
  state (job s') = Done /\ runs (job s') = runs (job s).
Proof.
  intros Hi Hdone Hr. enough (invariant s' /\ state (job s') = Done /\ runs (job s') = runs (job s)) as [_ ?] by done.
  revert s' Hr. apply reachable_invariant; [by intros ? ->|]. intros s1 s2 _ (Hi1 & Hd1 & Hr1) Hstep.
  destruct (done_stays s1 s2 Hi1 Hd1 Hstep) as [Hd2 Hr2]. split; [by eapply step_invariant|]. split; [done|congruence].
Qed.
(** [cancel] refuses while the job runs and changes nothing then; where it agrees, the job
    is done. *)
Lemma cancel_spec s : invariant s -> deleted (job s) = false -> terminated (job s) = false ->
  match cancel s with
  | (s', true) => state (job s) <> Running /\ invariant s' /\ state (job s') = Done /\ runs (job s') = runs (job s)
  | (s', false) => state (job s) = Running /\ s' = s
  end.
Proof.
  intros Hi Hd Ht. assert (invariant (cancel s).1) as Hi' by (eapply step_invariant; [exact Hi|by apply step_cancel]).
  revert Hi'. unfold cancel. by destruct (state (job s)) eqn:E; cbn; rewrite ?E.
Qed.


(** [run] that throws ends the process. *)
Lemma throwing_run s : thread (job s) = Some InRun -> exists s', jobBody true s = Some s' /\ terminated (job s') = true /\ state (job s') = state (job s).
Proof. intros E. unfold jobBody. rewrite E. eexists. split; [reflexivity|]. split; reflexivity. Qed.
(** The time a wait is limited to starts again at every wake-up. *)
Lemma timeout_restarts :
  let s t := mkSystem (BackgroundJob_ctor false) ∅ t in
  wait_test 5000 (s 0) = Blocked 5000 5000000000 /\ wait_test 5000 (s 4999000000) = Blocked 5000 9999000000.
Proof. split; vm_compute; reflexivity. Qed.
Lemma incxtimemillis_adds sec nsec ms : 0 <= nsec < 1000000000 -> in_range uint32 ms ->
  let '(sec', nsec') := incxtimemillis sec nsec ms in
  xtime_nanos sec' nsec' = xtime_nanos sec nsec + ms * 1000000 /\ 0 <= nsec' < 1000000000.
Proof.
  intros Hn [Hl Hh]. change (int_min uint32) with 0 in Hl. change (int_max uint32) with 4294967295 in Hh. unfold incxtimemillis.
  rewrite Z.quot_div_nonneg, Z.rem_mod_nonneg by lia. pose proof (Z.mod_pos_bound ms 1000 ltac:(lia)). pose proof (Z.div_mod ms 1000 ltac:(lia)).
  rewrite !wrap_id by (try done; unfold in_range; change (int_min int32) with (-2147483648); change (int_max int32) with 2147483647; split; lia).
  unfold xtime_nanos. destruct (1000000000 <=? _) eqn:E; lia.
Qed.
