(* ===== verification/LogSettings.v ===== *)
(** * What is logged: logger/log_severity.*, logger/log_component.*, logger/log_component_settings.*

    Severities, the components of the program that log, and the severity each component
    logs from: its own, when it was set, or that of the nearest of its ancestors. *)
From stdpp Require Import list.
From S2P Require Import Prelude.
Local Open Scope Z_scope.

(** ** Severities *)

(** The number inside a [LogSeverity]: the smaller, the more severe. *)
Definition Severe : Z := -4.
Definition Error : Z := -3.
Definition Warning : Z := -2.
Definition Info : Z := -1.
Definition Log : Z := 0.
Definition Debug (debugLevel : Z) : Z := debugLevel.
Definition moreSevere (s : Z) : Z := s - 1.
Definition lessSevere (s : Z) : Z := s + 1.
Definition severity_lt (a b : Z) : bool := a >? b.
Definition severity_le (a b : Z) : bool := a >=? b.
Definition severity_gt (a b : Z) : bool := a <? b.
Definition severity_ge (a b : Z) : bool := a <=? b.
Definition severity_string (s : Z) : bytes :=
  if s >? 0 then B "debug" else if s =? Severe then B "SEVERE" else if s =? Error then B "ERROR"
  else if s =? Warning then B "warning" else if s =? Info then B "info" else if s =? Log then B "info" else B "UNKNOWN".
Definition severity_char (s : Z) : char :=
  if s >? 0 then "D"%char else if s =? Severe then "F"%char else if s =? Error then "E"%char
  else if s =? Warning then "W"%char else if s =? Info then "I"%char else if s =? Log then "I"%char else "U"%char.

Record LabeledLevel := mkLabeled { getLabel : bytes; getLevel : Z }.
Definition labeled_plus (l : LabeledLevel) (i : Z) : LabeledLevel := mkLabeled (getLabel l) (getLevel l + i).
Definition labeled_minus (l : LabeledLevel) (i : Z) : LabeledLevel := mkLabeled (getLabel l) (getLevel l - i).

(** ** Components *)

Inductive LogComponent :=
  | kDefault | kAccessControl | kCommand | kControl | kGeo | kIndex | kNetwork | kQuery | kReplication | kSharding
  | kStorage | kJournal | kWrite | kNumLogComponents.
Global Instance LogComponent_eq_dec : EqDecision LogComponent.
Proof. solve_decision. Defined.
Definition components : list LogComponent :=
  [kDefault; kAccessControl; kCommand; kControl; kGeo; kIndex; kNetwork; kQuery; kReplication; kSharding; kStorage; kJournal; kWrite].
(** The value of the enumeration, and the cast back. *)
Definition component_int (c : LogComponent) : nat :=
  match c with
  | kDefault => 0 | kAccessControl => 1 | kCommand => 2 | kControl => 3 | kGeo => 4 | kIndex => 5 | kNetwork => 6 | kQuery => 7
  | kReplication => 8 | kSharding => 9 | kStorage => 10 | kJournal => 11 | kWrite => 12 | kNumLogComponents => 13
  end.
Definition component_of (i : nat) : LogComponent := default kNumLogComponents (components !! i).
Definition parent (c : LogComponent) : LogComponent :=
  match c with kDefault => kNumLogComponents | kJournal => kStorage | kNumLogComponents => kNumLogComponents | _ => kDefault end.
Definition getShortName (c : LogComponent) : bytes :=
  match c with
  | kDefault => B "default" | kAccessControl => B "accessControl" | kCommand => B "command" | kControl => B "control"
  | kGeo => B "geo" | kIndex => B "index" | kNetwork => B "network" | kQuery => B "query" | kReplication => B "replication"
  | kSharding => B "sharding" | kStorage => B "storage" | kJournal => B "journal" | kWrite => B "write" | kNumLogComponents => B "total"
  end.
Definition getNameForLog (c : LogComponent) : bytes :=
  match c with
  | kDefault => B "-       " | kAccessControl => B "ACCESS  " | kCommand => B "COMMAND " | kControl => B "CONTROL "
  | kGeo => B "GEO     " | kIndex => B "INDEX   " | kNetwork => B "NETWORK " | kQuery => B "QUERY   " | kReplication => B "REPL    "
  | kSharding => B "SHARDING" | kStorage => B "STORAGE " | kJournal => B "JOURNAL " | kWrite => B "WRITE   " | kNumLogComponents => B "TOTAL   "
  end.

(** The table of the dotted names that were asked for: an empty entry is a name not yet
    made.  [fuel] bounds the way up; every parent has a smaller number. *)
Abbreviation dottedNames := (list bytes).
Definition dotted_lookup (t : dottedNames) (c : LogComponent) : bytes := default [] (t !! component_int c).
Fixpoint getDottedName (fuel : nat) (c : LogComponent) (t : dottedNames) : dottedNames * bytes :=
  match fuel with
  | O => (t, dotted_lookup t c)
  | S fuel =>
    let t := if bool_decide (dotted_lookup t c = []) then
        match c with
        | kDefault | kNumLogComponents => <[component_int c := getShortName c]> t
        | _ =>
          if bool_decide (parent c = kDefault) then <[component_int c := getShortName c]> t
          else let '(t, up) := getDottedName fuel (parent c) t in <[component_int c := up ++ B "." ++ getShortName c]> t
        end
      else t in
    (t, dotted_lookup t c)
  end.
Definition SetupDottedNames (t : dottedNames) : dottedNames :=
  foldl (fun t c => (getDottedName 14 c t).1) t (components ++ [kNumLogComponents]).

(** ** The severity a component logs from *)

(** The two arrays, by the number of the component.  Reading or writing outside of them
    is undefined: the tests of the arguments are there in debug builds only. *)
Record LogComponentSettings := mkSettings { _hasMinimumLoggedSeverity : list bool; _minimumLoggedSeverity : list Z }.
Definition LogComponentSettings_ctor : LogComponentSettings :=
  mkSettings (<[component_int kDefault := true]> (replicate 13 false)) (replicate 13 (wrap int8 Log)).
Definition array_at {A} (l : list A) (c : LogComponent) : M A :=
  match l !! component_int c with Some x => Ret x | None => Throw EUndefined end.
Definition array_set {A} (l : list A) (c : LogComponent) (x : A) : M (list A) :=
  if bool_decide (component_int c < length l)%nat then Ret (<[component_int c := x]> l) else Throw EUndefined.
Definition hasMinimumLogSeverity (c : LogComponent) (s : LogComponentSettings) : M bool := array_at (_hasMinimumLoggedSeverity s) c.
Definition getMinimumLogSeverity (c : LogComponent) (s : LogComponentSettings) : M Z := array_at (_minimumLoggedSeverity s) c.
(** The body of the loop that hands a severity on to the component [i], and the loop. *)
Definition inherit_one (i : nat) (s : LogComponentSettings) : M LogComponentSettings :=
  let v := component_of i in
  has ← hasMinimumLogSeverity v s;
  if (has : bool) then Ret s
  else parentSeverity ← getMinimumLogSeverity (parent v) s;
       m ← array_set (_minimumLoggedSeverity s) v (wrap int8 parentSeverity);
       Ret (mkSettings (_hasMinimumLoggedSeverity s) m).
Fixpoint inherit (n i : nat) (s : LogComponentSettings) : M LogComponentSettings :=
  match n with O => Ret s | S n => s ← inherit_one i s; inherit n (S i) s end.
Definition setMinimumLoggedSeverity (c : LogComponent) (severity : Z) (s : LogComponentSettings) : M LogComponentSettings :=
  m ← array_set (_minimumLoggedSeverity s) c (wrap int8 severity);
  h ← array_set (_hasMinimumLoggedSeverity s) c true;
  inherit 13 0 (mkSettings h m).
Definition clearMinimumLoggedSeverity (c : LogComponent) (s : LogComponentSettings) : M LogComponentSettings :=
  if bool_decide (c = kDefault) then setMinimumLoggedSeverity c Log s
  else p ← getMinimumLogSeverity (parent c) s;
       s ← setMinimumLoggedSeverity c p s;
       h ← array_set (_hasMinimumLoggedSeverity s) c false;
       Ret (mkSettings h (_minimumLoggedSeverity s)).
Definition shouldLog (c : LogComponent) (severity : Z) (s : LogComponentSettings) : M bool :=
  m ← array_at (_minimumLoggedSeverity s) c; Ret (severity_ge severity m).
Definition shouldLog2 (c1 c2 : LogComponent) (severity : Z) (s : LogComponentSettings) : M bool :=
  b ← shouldLog c1 severity s; if (b : bool) then Ret true else shouldLog c2 severity s.
Definition shouldLog3 (c1 c2 c3 : LogComponent) (severity : Z) (s : LogComponentSettings) : M bool :=
  b ← shouldLog2 c1 c2 severity s; if (b : bool) then Ret true else shouldLog c3 severity s.

(** *** What the settings promise

    Each component has the severity of the nearest of its ancestors, itself first, that
    is configured; the first component of all always is. *)
Fixpoint ancestors (fuel : nat) (c : LogComponent) : list LogComponent :=
  match fuel with
  | O => []
  | S fuel => if bool_decide (c = kNumLogComponents) then [] else c :: ancestors fuel (parent c)
  end.
Definition Config : Type := LogComponent -> option Z.
Definition nearest (conf : Config) (c : LogComponent) : Z := default Log (head (omap conf (ancestors 14 c))).
Inductive config_op := Set_ (c : LogComponent) (severity : Z) | Clear_ (c : LogComponent).
Definition config_run1 (conf : Config) (o : config_op) : Config :=
  match o with
  | Set_ c x => fun d => if bool_decide (d = c) then Some x else conf d
  | Clear_ c => fun d => if bool_decide (d = c) then (if bool_decide (c = kDefault) then Some Log else None) else conf d
  end.
Definition config_init : Config := fun c => if bool_decide (c = kDefault) then Some Log else None.
Definition settings_op (o : config_op) (s : LogComponentSettings) : M LogComponentSettings :=
  match o with Set_ c x => setMinimumLoggedSeverity c x s | Clear_ c => clearMinimumLoggedSeverity c s end.
Fixpoint settings_run (os : list config_op) (s : LogComponentSettings) : M LogComponentSettings :=
  match os with [] => Ret s | o :: os => s ← settings_op o s; settings_run os s end.
Definition op_valid (o : config_op) : Prop :=
  match o with Set_ c x => c <> kNumLogComponents /\ in_range int8 x | Clear_ c => c <> kNumLogComponents end.
(** The dotted name of a component, and a table of them. *)
Definition dotted_spec (c : LogComponent) : bytes :=
  match filter (fun d => d <> kDefault) (ancestors 14 c) with
  | [] => getShortName c
  | l => foldl (fun t d => if bool_decide (t = []) then getShortName d else getShortName d ++ B "." ++ t) [] l
  end.
Definition dotted_table (t : dottedNames) : Prop :=
  length t = 14%nat /\ forall c, dotted_lookup t c = [] \/ dotted_lookup t c = dotted_spec c.

(** ** Theorems *)

(** *** Components *)

Lemma component_of_int c : c <> kNumLogComponents -> component_of (component_int c) = c.
Proof. by destruct c. Qed.
Lemma component_int_of i : (i < 13)%nat -> component_int (component_of i) = i.
Proof. intros. do 13 (destruct i; [reflexivity|]). lia. Qed.
Lemma component_int_lt c : c <> kNumLogComponents -> (component_int c < 13)%nat.
Proof. destruct c; cbn; intros; [lia..|done]. Qed.
Lemma component_int_inj : Inj (=) (=) component_int.
Proof. intros [] []; cbn; congruence. Qed.
(** Children always come after their parents: one pass over the array is enough. *)
Lemma parent_before c : c <> kDefault -> c <> kNumLogComponents ->
  parent c <> kNumLogComponents /\ (component_int (parent c) < component_int c)%nat.
Proof. destruct c; cbn; intros; try done; (split; [done|lia]). Qed.
#[local] Hint Resolve component_int_lt : mongo.

(** *** Settings *)

Lemma array_at_Some {A} (l : list A) c x : l !! component_int c = Some x -> array_at l c = Ret x.
Proof. unfold array_at. by intros ->. Qed.
Lemma array_set_ok {A} (l : list A) c x : length l = 13%nat -> c <> kNumLogComponents -> array_set l c x = Ret (<[component_int c := x]> l).
Proof. intros Hl Hc. unfold array_set. rewrite bool_decide_true; [done|]. rewrite Hl. by apply component_int_lt. Qed.
Lemma insert_at {A} (l : list A) c d x : length l = 13%nat -> c <> kNumLogComponents ->
  <[component_int c := x]> l !! component_int d = if bool_decide (d = c) then Some x else l !! component_int d.
Proof.
  intros Hl Hc. case_bool_decide as E; [subst; rewrite list_lookup_insert; rewrite decide_True; [done|]; rewrite Hl; split; [done|by apply component_int_lt]|].
  rewrite list_lookup_insert_ne; [done|]. intros ?%component_int_inj. congruence.
Qed.

(** The shape every operation keeps: two arrays of thirteen entries, all of them a [char],
    and the first component configured. *)
Record shape (s : LogComponentSettings) : Prop := mkShape {
  shape_has : length (_hasMinimumLoggedSeverity s) = 13%nat;
  shape_min : length (_minimumLoggedSeverity s) = 13%nat;
  shape_range : Forall (in_range int8) (_minimumLoggedSeverity s);
  shape_default : _hasMinimumLoggedSeverity s !! component_int kDefault = Some true }.
Lemma shape_at s c : shape s -> c <> kNumLogComponents ->
  exists h m, _hasMinimumLoggedSeverity s !! component_int c = Some h /\ _minimumLoggedSeverity s !! component_int c = Some m /\ in_range int8 m.
Proof.
  intros Hs Hc. destruct (lookup_lt_is_Some_2 (_hasMinimumLoggedSeverity s) (component_int c)) as [h Eh]; [rewrite (shape_has _ Hs); auto with mongo|].
  destruct (lookup_lt_is_Some_2 (_minimumLoggedSeverity s) (component_int c)) as [m Em]; [rewrite (shape_min _ Hs); auto with mongo|].
  exists h, m. split_and!; [done..|]. exact (proj1 (Forall_lookup _ _) (shape_range _ Hs) _ _ Em).
Qed.
Lemma wrap_int8 z : in_range int8 z -> wrap int8 z = z.
Proof. by apply wrap_id. Qed.

(** One turn of the loop: the entry of [c] follows its parent when [c] is unconfigured,
    and no other entry changes. *)
Lemma inherit_one_spec s c : shape s -> c <> kNumLogComponents ->
  exists s', inherit_one (component_int c) s = Ret s' /\ shape s' /\ _hasMinimumLoggedSeverity s' = _hasMinimumLoggedSeverity s /\
    forall d, _minimumLoggedSeverity s' !! component_int d =
      if bool_decide (d = c) && bool_decide (_hasMinimumLoggedSeverity s !! component_int c = Some false)
      then _minimumLoggedSeverity s !! component_int (parent c) else _minimumLoggedSeverity s !! component_int d.
Proof.
  intros Hs Hc. destruct (shape_at s c Hs Hc) as (h & m & Eh & Em & _).
  unfold inherit_one, hasMinimumLogSeverity, getMinimumLogSeverity. rewrite component_of_int by done. rewrite (array_at_Some _ _ _ Eh), ret_bind.
  destruct h.
  { exists s. split_and!; [done..|]. intros d. rewrite Eh, (bool_decide_false (Some true = Some false)) by done. by rewrite andb_false_r. }
  assert (c <> kDefault) as Hd. { intros ->. pose proof (shape_default _ Hs). congruence. }
  destruct (parent_before c Hd Hc) as [Hp _]. destruct (shape_at s (parent c) Hs Hp) as (_ & mp & _ & Emp & Rp).
  rewrite (array_at_Some _ _ _ Emp), ret_bind, (array_set_ok _ _ _ (shape_min _ Hs) Hc), ret_bind, (wrap_int8 _ Rp).
  eexists. split; [reflexivity|]. split; [|split; [done|]].
  - destruct Hs. split; cbn; [done|by rewrite length_insert|by apply Forall_insert|done].
  - intros d. cbn [_minimumLoggedSeverity]. rewrite (insert_at _ _ _ _ (shape_min _ Hs) Hc), Eh, (bool_decide_true (Some false = Some false)) by done.
    rewrite andb_true_r, Emp. by case_bool_decide.
Qed.

(** The entry of an unconfigured component agrees with its parent's. *)
Definition follows (s : LogComponentSettings) (d : LogComponent) : Prop :=
  _hasMinimumLoggedSeverity s !! component_int d = Some false ->
  _minimumLoggedSeverity s !! component_int d = _minimumLoggedSeverity s !! component_int (parent d).
Lemma inherit_spec n i s : shape s -> (n + i = 13)%nat -> (forall d, (component_int d < i)%nat -> follows s d) ->
  exists s', inherit n i s = Ret s' /\ shape s' /\ _hasMinimumLoggedSeverity s' = _hasMinimumLoggedSeverity s /\
    (forall d, d <> kNumLogComponents -> follows s' d) /\
    (forall d, _hasMinimumLoggedSeverity s !! component_int d = Some true ->
      _minimumLoggedSeverity s' !! component_int d = _minimumLoggedSeverity s !! component_int d).
Proof.
  revert i s. induction n as [|n IH]; intros i s Hs Hi Hf; cbn [inherit].
  { exists s. split_and!; [done..| |done]. intros d Hd. apply Hf. pose proof (component_int_lt d Hd). lia. }
  set (c := component_of i). assert (component_int c = i) as Ei by (apply component_int_of; lia).
  assert (c <> kNumLogComponents) as Hc. { intros E. rewrite E in Ei. cbn in Ei. lia. }
  destruct (inherit_one_spec s c Hs Hc) as (s1 & E1 & Hs1 & Eh1 & Em1). rewrite Ei in E1. rewrite E1, ret_bind.
  destruct (IH (S i) s1 Hs1 ltac:(lia)) as (s2 & E2 & Hs2 & Eh2 & Hf2 & Hm2).
  { intros d Hd. unfold follows. rewrite Eh1, !Em1. intros Ed. destruct (decide (d = c)) as [->|Hdc].
    - rewrite Ed, !bool_decide_true by done. cbn. destruct (bool_decide (parent c = c)) eqn:Ep; [|done].
      apply bool_decide_eq_true in Ep. by rewrite Ep.
    - rewrite (bool_decide_false (d = c)) by done. cbn.
      assert (component_int d < i)%nat as Hlt. { assert (component_int d <> i) by (intros E; apply Hdc, component_int_inj; lia). lia. }
      rewrite (Hf d Hlt Ed). destruct (bool_decide (parent d = c)) eqn:Ep; [|done]. apply bool_decide_eq_true in Ep. exfalso.
      assert (d <> kDefault) by (intros ->; pose proof (shape_default _ Hs); congruence).
      assert (d <> kNumLogComponents) by (intros ->; cbn in Hlt; lia).
      destruct (parent_before d) as [_ Hpb]; [done..|]. rewrite Ep, Ei in Hpb. lia. }
  exists s2. split_and!; [exact E2|done|congruence|done|]. intros d Hd. rewrite Hm2 by congruence. rewrite Em1.
  destruct (decide (d = c)) as [->|Hdc]; [|by rewrite (bool_decide_false (d = c))].
  by rewrite Hd, (bool_decide_false (Some true = Some false)), andb_false_r.
Qed.

Lemma ancestors_parent c : c <> kNumLogComponents -> ancestors 14 c = c :: ancestors 14 (parent c).
Proof. by destruct c. Qed.
Lemma nearest_unfold conf c : c <> kNumLogComponents ->
  nearest conf c = match conf c with Some x => x | None => nearest conf (parent c) end.
Proof. intros Hc. unfold nearest. rewrite ancestors_parent by done. cbn [omap list_omap]. by destruct (conf c). Qed.
Lemma nearest_configured conf c x : c <> kNumLogComponents -> conf c = Some x -> nearest conf c = x.
Proof. intros Hc E. by rewrite nearest_unfold, E. Qed.
(** Configuring a component does not touch what is above it. *)
Lemma nearest_parent conf conf' c : (forall d, d <> c -> conf' d = conf d) -> c <> kDefault -> c <> kNumLogComponents ->
  nearest conf' (parent c) = nearest conf (parent c).
Proof.
  intros E Hd Hc. unfold nearest. do 2 f_equal.
  assert (forall l : list LogComponent, c ∉ l -> omap conf' l = omap conf l) as Hl.
  { induction l as [|d l IH]; intros Hn; [done|]. apply not_elem_of_cons in Hn as [Hn Hl]. cbn. rewrite IH by done. rewrite E by done. reflexivity. }
  apply Hl. destruct c; cbn; not_in.
Qed.

(** The arrays hold a configuration: which components have a severity of their own, and
    the severity each logs from. *)
Record settings_hold (conf : Config) (s : LogComponentSettings) : Prop := mkHold {
  hold_shape : shape s;
  hold_has c : c <> kNumLogComponents -> _hasMinimumLoggedSeverity s !! component_int c = Some (bool_decide (is_Some (conf c)));
  hold_min c : c <> kNumLogComponents -> _minimumLoggedSeverity s !! component_int c = Some (nearest conf c) }.

Lemma hold_intro conf s : shape s ->
  (forall c, c <> kNumLogComponents -> _hasMinimumLoggedSeverity s !! component_int c = Some (bool_decide (is_Some (conf c)))) ->
  (forall c x, c <> kNumLogComponents -> conf c = Some x -> _minimumLoggedSeverity s !! component_int c = Some x) ->
  (forall c, c <> kNumLogComponents -> follows s c) -> settings_hold conf s.
Proof.
  intros Hs Hh Hm Hf. split; [done..|]. intros c Hc. remember (component_int c) as k eqn:Ek. revert c Hc Ek.
  induction (lt_wf k) as [k _ IH]. intros c Hc ->. destruct (conf c) as [x|] eqn:E.
  { rewrite (nearest_configured conf c x) by done. by apply Hm. }
  assert (c <> kDefault) as Hd. { intros ->. pose proof (Hh kDefault Hc) as H1. rewrite (shape_default _ Hs), E in H1. done. }
  destruct (parent_before c Hd Hc) as [Hp Hlt]. rewrite (nearest_unfold conf c Hc), E, <- (IH _ Hlt (parent c) Hp eq_refl).
  apply Hf; [done|]. by rewrite (Hh c Hc), E.
Qed.
Lemma hold_range conf s c : settings_hold conf s -> c <> kNumLogComponents -> in_range int8 (nearest conf c).
Proof. intros H Hc. exact (proj1 (Forall_lookup _ _) (shape_range _ (hold_shape _ _ H)) _ _ (hold_min _ _ H c Hc)). Qed.

Lemma ctor_holds : settings_hold config_init LogComponentSettings_ctor.
Proof.
  split.
  - split; [done..| |done]. apply Forall_replicate. split; by vm_compute.
  - by intros [].
  - by intros [].
Qed.

Lemma set_holds conf s c x : settings_hold conf s -> c <> kNumLogComponents -> in_range int8 x ->
  exists s', setMinimumLoggedSeverity c x s = Ret s' /\ settings_hold (config_run1 conf (Set_ c x)) s'.
Proof.
  intros [Hs Hh Hm] Hc Hx. unfold setMinimumLoggedSeverity.
  rewrite (array_set_ok _ _ _ (shape_min _ Hs) Hc), ret_bind, (array_set_ok _ _ _ (shape_has _ Hs) Hc), ret_bind, (wrap_int8 _ Hx).
  set (s0 := mkSettings _ _).
  assert (shape s0) as Hs0.
  { split; cbn; [rewrite length_insert; apply Hs..|apply Forall_insert; [apply Hs|done]|].
    change 0%nat with (component_int kDefault). rewrite (insert_at _ _ _ _ (shape_has _ Hs) Hc), (shape_default _ Hs). by case_bool_decide. }
  destruct (inherit_spec 13 0 s0 Hs0 eq_refl) as (s' & E & Hs' & Eh & Hf & Hk); [intros; lia|].
  assert (forall d, d <> kNumLogComponents -> _hasMinimumLoggedSeverity s' !! component_int d = Some (bool_decide (is_Some (config_run1 conf (Set_ c x) d)))) as Hh'.
  { intros d Hd. rewrite Eh. cbn [_hasMinimumLoggedSeverity s0 config_run1]. rewrite (insert_at _ _ _ _ (shape_has _ Hs) Hc), (Hh d Hd).
    by case_bool_decide. }
  exists s'. split; [exact E|]. apply hold_intro; [done..| |done].
  intros d y Hd Ey. rewrite Hk by (rewrite <- Eh, (Hh' d Hd), Ey; done). cbn [_minimumLoggedSeverity s0 config_run1] in Ey |- *.
  rewrite (insert_at _ _ _ _ (shape_min _ Hs) Hc). case_bool_decide; [done|]. rewrite (Hm d Hd). f_equal. by apply nearest_configured.
Qed.

Lemma clear_holds conf s c : settings_hold conf s -> c <> kNumLogComponents ->
  exists s', clearMinimumLoggedSeverity c s = Ret s' /\ settings_hold (config_run1 conf (Clear_ c)) s'.
Proof.
  intros H Hc. unfold clearMinimumLoggedSeverity. case_bool_decide as Hd.
  { subst c. destruct (set_holds conf s kDefault Log H Hc) as (s' & E & H'); [by vm_compute|]. exists s'. split; [exact E|].
    destruct H' as [Hs' Hh' Hm']. split; [done| |].
    - intros d Hd. rewrite (Hh' d Hd). reflexivity.
    - intros d Hd. rewrite (Hm' d Hd). reflexivity. }
  destruct (parent_before c Hd Hc) as [Hp _]. unfold getMinimumLogSeverity.
  rewrite (array_at_Some _ _ _ (hold_min _ _ H _ Hp)), ret_bind.
  destruct (set_holds conf s c (nearest conf (parent c)) H Hc (hold_range _ _ _ H Hp)) as (s1 & E & H1). rewrite E, ret_bind.
  destruct H1 as [Hs1 Hh1 Hm1]. rewrite (array_set_ok _ _ _ (shape_has _ Hs1) Hc), ret_bind. eexists. split; [reflexivity|].
  set (conf1 := config_run1 conf (Set_ c (nearest conf (parent c)))) in *.
  assert (forall d, d <> c -> conf1 d = conf d) as Ed by (intros d Hdc; cbn; by rewrite bool_decide_false).
  apply hold_intro; cbn [_hasMinimumLoggedSeverity _minimumLoggedSeverity].
  - destruct Hs1 as [? ? ? ?]. split; cbn; [by rewrite length_insert|done|done|].
    change 0%nat with (component_int kDefault). rewrite insert_at by done. by rewrite bool_decide_false.
  - intros d Hdn. rewrite (insert_at _ _ _ _ (shape_has _ Hs1) Hc), (Hh1 d Hdn). cbn. case_bool_decide; [|done].
    by rewrite (bool_decide_false (c = kDefault)).
  - intros d y Hdn Ey. cbn in Ey. case_bool_decide as Edc; [by rewrite (bool_decide_false (c = kDefault)) in Ey|].
    rewrite (Hm1 d Hdn). f_equal. apply nearest_configured; [done|]. by rewrite Ed.
  - intros d Hdn. unfold follows. cbn. rewrite (insert_at _ _ _ _ (shape_has _ Hs1) Hc). case_bool_decide as Edc.
    + intros _. subst d. rewrite (Hm1 c Hc), (Hm1 _ Hp). f_equal. rewrite (nearest_parent conf conf1 c Ed Hd Hc).
      apply nearest_configured; [done|]. cbn. by rewrite bool_decide_true.
    + rewrite (Hh1 d Hdn), (Hm1 d Hdn). intros [= En%bool_decide_eq_false]. 
      assert (d <> kDefault) as Hdd. { intros ->. pose proof (shape_default _ Hs1) as H2. rewrite (Hh1 _ Hdn) in H2. injection H2 as H2%bool_decide_eq_true. done. }
      destruct (parent_before d Hdd Hdn) as [Hpd _]. rewrite (Hm1 _ Hpd). f_equal. rewrite (nearest_unfold conf1 d Hdn).
      destruct (conf1 d) eqn:E1; [|done]. exfalso. apply En. by eexists.
Qed.

Lemma settings_run_holds os conf s : settings_hold conf s -> Forall op_valid os ->
  exists s', settings_run os s = Ret s' /\ settings_hold (foldl config_run1 conf os) s'.
Proof.
  intros H Hv. revert conf s H. induction Hv as [|o os Ho Hv IH]; intros conf s H; cbn [settings_run foldl]; [by exists s|].
  assert (exists s', settings_op o s = Ret s' /\ settings_hold (config_run1 conf o) s') as (s1 & E & H1).
  { destruct o as [c x|c]; cbn in *; [destruct Ho; by apply set_holds|by apply clear_holds]. }
  rewrite E, ret_bind. by apply IH.
Qed.

(** C28: after any sequence of settings and clearings of components, none of which reads
    or writes outside of the arrays, each component logs exactly the messages at least as
    severe as the configuration of its nearest configured ancestor, itself first: the
    single pass of the code over its arrays is that specification. *)
Theorem settings_refine os : Forall op_valid os ->
  exists s, settings_run os LogComponentSettings_ctor = Ret s /\
  let conf := foldl config_run1 config_init os in
  forall c, c <> kNumLogComponents ->
    hasMinimumLogSeverity c s = Ret (bool_decide (is_Some (conf c))) /\ getMinimumLogSeverity c s = Ret (nearest conf c) /\
    (forall severity, shouldLog c severity s = Ret (severity <=? nearest conf c)) /\
    (forall severity c2, c2 <> kNumLogComponents ->
      shouldLog2 c c2 severity s = Ret ((severity <=? nearest conf c) || (severity <=? nearest conf c2))).
Proof.
  intros Hv. destruct (settings_run_holds os _ _ ctor_holds Hv) as (s & E & [_ Hh Hm]). exists s. split; [exact E|]. intros conf c Hc.
  assert (forall d severity, d <> kNumLogComponents -> shouldLog d severity s = Ret (severity <=? nearest conf d)) as Hl.
  { intros d severity Hd. unfold shouldLog. by rewrite (array_at_Some _ _ _ (Hm d Hd)). }
  split_and!.
  - exact (array_at_Some _ _ _ (Hh c Hc)).
  - exact (array_at_Some _ _ _ (Hm c Hc)).
  - intros severity. by apply Hl.
  - intros severity c2 Hc2. unfold shouldLog2. rewrite (Hl c) by done. cbn. rewrite (Hl c2) by done. by destruct (severity <=? nearest conf c).
Qed.
Lemma settings_refine_witness :
  exists s, settings_run [Set_ kStorage 2; Set_ kDefault 1; Clear_ kStorage; Set_ kStorage 3; Set_ kDefault (-1)] LogComponentSettings_ctor = Ret s /\
    getMinimumLogSeverity kJournal s = Ret 3 /\ getMinimumLogSeverity kQuery s = Ret (-1).
Proof.
  destruct (settings_refine [Set_ kStorage 2; Set_ kDefault 1; Clear_ kStorage; Set_ kStorage 3; Set_ kDefault (-1)]) as (s & E & H).
  { repeat constructor; try discriminate; vm_compute; discriminate. }
  exists s. split; [exact E|]. split; [exact (proj1 (proj2 (H kJournal ltac:(discriminate))))|exact (proj1 (proj2 (H kQuery ltac:(discriminate))))].
Defined.

(** A severity is stored in a [char]: one beyond its range becomes another. *)
Lemma severity_truncated :
  (s ← setMinimumLoggedSeverity kDefault (Debug 200) LogComponentSettings_ctor; getMinimumLogSeverity kQuery s) = Ret (-56).
Proof. reflexivity. Qed.

(** *** Dotted names *)

Lemma dotted_insert t c : dotted_table t ->
  dotted_table (<[component_int c := dotted_spec c]> t) /\ dotted_lookup (<[component_int c := dotted_spec c]> t) c = dotted_spec c.
Proof.
  intros [Hl Ht]. assert (component_int c < length t)%nat as Hc by (rewrite Hl; destruct c; cbn; lia).
  assert (dotted_lookup (<[component_int c := dotted_spec c]> t) c = dotted_spec c) as E.
  { unfold dotted_lookup. rewrite list_lookup_insert, decide_True by done. done. }
  split; [|exact E]. split; [by rewrite length_insert|]. intros d. destruct (decide (d = c)) as [->|Hd]; [by right|].
  unfold dotted_lookup. rewrite list_lookup_insert_ne; [apply Ht|]. intros ?%component_int_inj. congruence.
Qed.
Lemma getDottedName_journal fuel t : getDottedName (S fuel) kJournal t =
  let t' := if bool_decide (dotted_lookup t kJournal = [])
    then let '(t, up) := getDottedName fuel kStorage t in <[component_int kJournal := up ++ B "." ++ getShortName kJournal]> t else t in
  (t', dotted_lookup t' kJournal).
Proof. reflexivity. Qed.
(** Whatever names were asked for before, a name asked for is the names of the component
    and of its ancestors but the default, the outermost first. *)
Theorem getDottedName_correct c t : dotted_table t ->
  exists t', getDottedName 14 c t = (t', dotted_spec c) /\ dotted_table t'.
Proof.
  intros Ht.
  assert (forall fuel d t, dotted_table t -> parent d = kDefault \/ d = kDefault \/ d = kNumLogComponents ->
    exists t', getDottedName (S fuel) d t = (t', dotted_spec d) /\ dotted_table t') as Htop.
  { intros fuel d t' Ht' Hd. cbn [getDottedName]. case_bool_decide as E.
    - destruct (dotted_insert t' d Ht') as [H1 H2]. exists (<[component_int d := dotted_spec d]> t'). split; [|done].
      rewrite <- H2 at 2. destruct d; cbn in Hd; try reflexivity; naive_solver.
    - exists t'. split; [|done]. f_equal. by destruct (proj2 Ht' d). }
  destruct (decide (c = kJournal)) as [->|Hj]; [|apply Htop; [done|]; destruct c; naive_solver].
  rewrite getDottedName_journal. cbv zeta. case_bool_decide as E.
  - destruct (Htop 12%nat kStorage t Ht (or_introl eq_refl)) as (t1 & E1 & H1). rewrite E1.
    change (dotted_spec kStorage ++ B "." ++ getShortName kJournal) with (dotted_spec kJournal).
    destruct (dotted_insert t1 kJournal H1) as [H2 H3]. eexists. split; [by rewrite H3|done].
  - exists t. split; [|done]. f_equal. by destruct (proj2 Ht kJournal).
Qed.
Lemma dotted_names : snd <$> ((fun c => getDottedName 14 c (SetupDottedNames (replicate 14 []))) <$> [kDefault; kStorage; kJournal]) =
  [B "default"; B "storage"; B "storage.journal"].
Proof. vm_compute. reflexivity. Qed.
