(* ===== verification/Logging.v ===== *)
(** * Logging: logger/, util/log.h

    The domain that hands an event to its appenders, the builder that makes an event of
    one log line, and the encoders that make text of it.  What an appender does, what a
    tee does, the clock and the date formatter are arguments. *)
From stdpp Require Import gmap list.
From S2P Require Import Prelude StringData ParseNumber LogSettings.
Local Open Scope Z_scope.

(** ** Log domains *)

Section LogDomain.
(** [Appender]: the pointers to the appenders; [append_event]: what an appender does with
    an event, in a world of files, consoles and lists, and the status it answers. *)
Context {Event Appender World : Type} (append_event : Appender -> Event -> World -> World * Status).

(** An entry without appender is one that was detached. *)
Record LogDomain := mkDomain { _appenders : list (option Appender); _abortOnFailure : bool }.
Definition LogDomain_ctor : LogDomain := mkDomain [] false.
Definition setAbortOnFailure (b : bool) (d : LogDomain) : LogDomain := mkDomain (_appenders d) b.

(** [None]: the process was aborted. *)
Fixpoint append_loop (abortOnFailure : bool) (l : list (option Appender)) (e : Event) (w : World) : World * option Status :=
  match l with
  | [] => (w, Some OK)
  | None :: l => append_loop abortOnFailure l e w
  | Some a :: l =>
    let '(w, status) := append_event a e w in
    if isOK status then append_loop abortOnFailure l e w
    else (w, if abortOnFailure then None else Some status)
  end.
Definition append (d : LogDomain) (e : Event) (w : World) : World * option Status := append_loop (_abortOnFailure d) (_appenders d) e w.
(** [std::find] for the null pointer: its index, or the end. *)
Fixpoint find_null (l : list (option Appender)) : nat :=
  match l with [] => 0 | None :: _ => 0 | Some _ :: l => S (find_null l) end.
(** A handle is an index; the pointer given may be null. *)
Definition attachAppender (a : option Appender) (d : LogDomain) : LogDomain * nat :=
  let i := find_null (_appenders d) in
  if bool_decide (i = length (_appenders d)) then
    let l := _appenders d ++ [a] in (mkDomain l (_abortOnFailure d), (length l - 1)%nat)
  else (mkDomain (<[i := a]> (_appenders d)) (_abortOnFailure d), i).
(** [at] throws for an index that is not there. *)
Definition detachAppender (h : nat) (d : LogDomain) : M (LogDomain * option Appender) :=
  match _appenders d !! h with
  | Some a => Ret (mkDomain (<[h := None]> (_appenders d)) (_abortOnFailure d), a)
  | None => Throw EOutOfRange
  end.
(** The domain, and the appenders that are deleted. *)
Definition clearAppenders (d : LogDomain) : LogDomain * list Appender := (mkDomain [] (_abortOnFailure d), omap id (_appenders d)).

End LogDomain.
Arguments LogDomain : clear implicits.

(** The domains by their names: each is made when it is asked for first. *)
Section LogManager.
Context {D : Type} (new_domain : D).
Record LogManager := mkManager { _domains : gmap bytes nat; heap : list D }.
Definition LogManager_ctor : LogManager := mkManager ∅ [].
Definition getNamedDomain (name : bytes) (m : LogManager) : LogManager * nat :=
  match _domains m !! name with
  | Some p => (m, p)
  | None => (mkManager (<[name := length (heap m)]> (_domains m)) (heap m ++ [new_domain]), length (heap m))
  end.
End LogManager.

(** ** From a log line to its text *)

Record MessageEventEphemeral := mkEvent {
  getDate : Z; getSeverity : Z; getComponent : LogComponent; getContextName : bytes; getMessage : bytes }.

(** The part of a stream's format that integers depend on, and how they are printed;
    other bases than ten print the bits. *)
Inductive fmtbase := Dec | Hex | Oct.
Definition digit_char (d : Z) : char := if d <? 10 then chr (48 + d) else chr (87 + d).
Fixpoint radix_loop (fuel : nat) (radix z : Z) (acc : bytes) : bytes :=
  match fuel with
  | O => acc
  | S fuel => let acc := digit_char (z mod radix) :: acc in if z <? radix then acc else radix_loop fuel radix (z / radix) acc
  end.
Definition print_base (f : fmtbase) (t : int_type) (z : Z) : bytes :=
  let u := wrap (IntType false (width t)) z in
  match f with Dec => print_int z | Hex => radix_loop 65 16 u [] | Oct => radix_loop 65 8 u [] end.

(** *** Encoders *)

Definition newline : bytes := [chr 10].
Definition end_line (msg : bytes) : M bytes := e ← StringData_endsWith msg newline; Ret (if (e : bool) then [] else newline).
Definition put_context (contextName : bytes) : bytes := if bool_decide (contextName = []) then [] else B "[" ++ contextName ++ B "] ".
Definition maxLogLine : Z := 10 * 1024.
Definition put_message (f : fmtbase) (msg : bytes) : M bytes :=
  if zlen msg >? maxLogLine then
    first ← StringData_substr msg 0 (maxLogLine / 3);
    last ← StringData_substr msg (size_wrap (zlen msg - maxLogLine / 3)) npos;
    Ret (B "warning: log line attempted (" ++ print_base f uint64 (zlen msg / 1024) ++ B "k) over max size (" ++
         print_base f uint64 (maxLogLine / 1024) ++ B "k), printing beginning and end ... " ++ first ++ B " .......... " ++ last)
  else Ret msg.
(** [dateFormatter]: the function that was set, [outputDateAsISOStringLocal] at first. *)
Definition details_encode (dateFormatter : Z -> bytes) (f : fmtbase) (e : MessageEventEphemeral) : M bytes :=
  msg ← put_message f (getMessage e);
  nl ← end_line (getMessage e);
  Ret (dateFormatter (getDate e) ++ B " " ++ [severity_char (getSeverity e)] ++ B " " ++ getNameForLog (getComponent e) ++ B " " ++
       put_context (getContextName e) ++ msg ++ nl).
Definition withContext_encode (e : MessageEventEphemeral) : M bytes :=
  nl ← end_line (getMessage e); Ret (put_context (getContextName e) ++ getMessage e ++ nl).
Definition unadorned_encode (e : MessageEventEphemeral) : M bytes :=
  nl ← end_line (getMessage e); Ret (getMessage e ++ nl).

(** *** The builder of a line *)

(** A string stream: its text and its format, and what a line writes to it. *)
Record ostringstream := mkStream { os_text : bytes; os_base : fmtbase }.
Inductive item := Text (t : bytes) | Int (z : Z) | Manip (f : fmtbase).
Definition stream_put (i : item) (s : ostringstream) : ostringstream :=
  match i with
  | Text t => mkStream (os_text s ++ t) (os_base s)
  | Int z => mkStream (os_text s ++ print_base (os_base s) int32 z) (os_base s)
  | Manip f => mkStream (os_text s) f
  end.
(** The streams a thread keeps for its next line; the flag is one for all threads. *)
Record ThreadState := mkThreadState { isThreadOstreamCacheInitialized : bool; threadOstreamCache : list ostringstream }.
Record LogstreamBuilder (Tee : Type) := mkBuilder {
  _contextName : bytes; _severity : Z; _component : LogComponent; _baseMessage : bytes; _os : option ostringstream; _tee : option Tee }.
Arguments mkBuilder {Tee}. Arguments _contextName {Tee}. Arguments _severity {Tee}. Arguments _component {Tee}.
Arguments _baseMessage {Tee}. Arguments _os {Tee}. Arguments _tee {Tee}.

Section Builder.
Context {Appender World Tee : Type} (append_event : Appender -> MessageEventEphemeral -> World -> World * Status)
  (tee_write : Tee -> bytes -> World -> World) (dateFormatter : Z -> bytes).
Let Builder := LogstreamBuilder Tee.

Definition LogstreamBuilder_ctor (contextName : bytes) (severity : Z) (component : LogComponent) : Builder :=
  mkBuilder contextName severity component [] None None.
Definition setBaseMessage (m : bytes) (b : Builder) : Builder := mkBuilder (_contextName b) (_severity b) (_component b) m (_os b) (_tee b).
Definition LogstreamBuilder_labeled (contextName : bytes) (l : LabeledLevel) : Builder :=
  setBaseMessage (getLabel l) (LogstreamBuilder_ctor contextName (getLevel l) kDefault).
(** The copy; [None]: the process was aborted, the other was written to already. *)
Definition LogstreamBuilder_copy (b : Builder) : option Builder :=
  match _os b, _tee b with
  | None, None => Some (mkBuilder (_contextName b) (_severity b) (_component b) (_baseMessage b) None None)
  | _, _ => None
  end.
Definition set_os (s : option ostringstream) (b : Builder) : Builder :=
  mkBuilder (_contextName b) (_severity b) (_component b) (_baseMessage b) s (_tee b).
(** The last stream of the thread's, or a new one. *)
Definition makeStream (b : Builder) (th : ThreadState) : Builder * ThreadState :=
  match _os b with
  | Some _ => (b, th)
  | None =>
    match (if isThreadOstreamCacheInitialized th then last (threadOstreamCache th) else None) with
    | Some s => (set_os (Some s) b, mkThreadState (isThreadOstreamCacheInitialized th) (removelast (threadOstreamCache th)))
    | None => (set_os (Some (mkStream [] Dec)) b, th)
    end
  end.
Definition stream_out (i : item) (b : Builder) (th : ThreadState) : Builder * ThreadState :=
  let '(b, th) := makeStream b th in (set_os (stream_put i <$> _os b) b, th).
Definition put_tee (t : Tee) (b : Builder) (th : ThreadState) : Builder * ThreadState :=
  let '(b, th) := makeStream b th in (mkBuilder (_contextName b) (_severity b) (_component b) (_baseMessage b) (_os b) (Some t), th).
Definition line_event (now : Z) (b : Builder) (s : ostringstream) : MessageEventEphemeral :=
  let base := if bool_decide (_baseMessage b = []) then [] else _baseMessage b ++ B " " in
  mkEvent now (_severity b) (_component b) (_contextName b) (base ++ os_text s).
(** The destructor; [None]: the domain aborted the process. *)
Definition LogstreamBuilder_dtor (now : Z) (d : LogDomain Appender) (b : Builder) (th : ThreadState) (w : World) : M (option (ThreadState * World)) :=
  match _os b with
  | None => Ret (Some (th, w))
  | Some s =>
    let message := line_event now b s in
    match append append_event d message w with
    | (_, None) => Ret None
    | (w, Some _) =>
      w ← match _tee b with
          | Some t => text ← details_encode dateFormatter (os_base s) message; Ret (tee_write t text w)
          | None => Ret w
          end;
      let s := mkStream [] (os_base s) in
      Ret (Some (if isThreadOstreamCacheInitialized th && bool_decide (threadOstreamCache th = [])
                 then mkThreadState (isThreadOstreamCacheInitialized th) (threadOstreamCache th ++ [s]) else th, w))
    end
  end.

(** A whole line: what is streamed, then the destructor; and the line of the macro
    [MONGO_LOG], which is only made when the domain's settings say so. *)
Definition log_line (now : Z) (d : LogDomain Appender) (b : Builder) (items : list item) (th : ThreadState) (w : World) : M (option (ThreadState * World)) :=
  let '(b, th) := foldl (fun '(b, th) i => stream_out i b th) (b, th) items in LogstreamBuilder_dtor now d b th w.
Definition MONGO_LOG (now : Z) (settings : LogComponentSettings) (d : LogDomain Appender) (severity : Z) (c : LogComponent)
    (items : list item) (th : ThreadState) (w : World) : M (option (ThreadState * World)) :=
  b ← shouldLog c severity settings;
  if (b : bool) then log_line now d (LogstreamBuilder_ctor [] severity c) items th w else Ret (Some (th, w)).
End Builder.

(** ** Theorems *)

Section Domain.
Context {Event Appender World : Type} (append_event : Appender -> Event -> World -> World * Status).

(** *** Delivery *)

(** The appenders one after another, up to the first that fails. *)
Fixpoint deliver (l : list Appender) (e : Event) (w : World) : World * Status :=
  match l with
  | [] => (w, OK)
  | a :: l => let '(w, st) := append_event a e w in if isOK st then deliver l e w else (w, st)
  end.
Lemma append_delivers d e w :
  append append_event d e w = let '(w', st) := deliver (omap id (_appenders d)) e w in
                 (w', if isOK st then Some OK else if _abortOnFailure d then None else Some st).
Proof.
  unfold append. destruct d as [l b]. cbn [_appenders _abortOnFailure]. revert w. induction l as [|[a|] l IH]; intros w; cbn; [done| |apply IH].
  destruct (append_event a e w) as [w' st]. destruct st; cbn; [apply IH|done].
Qed.

(** *** Ownership

    What was given to a domain, and what came back from it: handed back, or deleted. *)
Inductive domain_op := Attach (a : option Appender) | Detach (h : nat) | ClearAll.
Record Owned := mkOwned { dom : LogDomain Appender; given : list Appender; handed_back : list Appender; freed : list Appender }.
Definition domain_run1 (s : Owned) (o : domain_op) : Owned :=
  match o with
  | Attach a => mkOwned (attachAppender a (dom s)).1 (given s ++ option_list a) (handed_back s) (freed s)
  | Detach h => match detachAppender h (dom s) with
                | Ret (d, a) => mkOwned d (given s) (handed_back s ++ option_list a) (freed s)
                | Throw _ => s
                end
  | ClearAll => let '(d, l) := clearAppenders (dom s) in mkOwned d (given s) (handed_back s) (freed s ++ l)
  end.
Definition owned_init : Owned := mkOwned LogDomain_ctor [] [] [].

Lemma find_null_spec (l : list (option Appender)) : find_null l = length l \/ l !! find_null l = Some None.
Proof. induction l as [|[a|] l IH]; cbn; [by left| |by right]. destruct IH as [->|]; [by left|by right]. Qed.
Lemma omap_insert_null (l : list (option Appender)) i a : l !! i = Some None -> omap id (<[i := a]> l) ≡ₚ option_list a ++ omap id l.
Proof.
  revert i. induction l as [|x l IH]; intros [|i] E; cbn in E; simplify_eq; cbn.
  - by destruct a.
  - destruct x as [x|]; cbn; [|by apply IH]. rewrite (IH i E). destruct a; cbn; [constructor|done].
Qed.
Lemma omap_insert_remove (l : list (option Appender)) i a : l !! i = Some a -> omap id l ≡ₚ option_list a ++ omap id (<[i := None]> l).
Proof.
  intros E. rewrite <- (omap_insert_null _ i a).
  - rewrite list_insert_insert_eq, list_insert_id; done.
  - rewrite list_lookup_insert, decide_True; [done|]. split; [done|by eapply lookup_lt_Some].
Qed.
Lemma attach_owns (a : option Appender) d : omap id (_appenders (attachAppender a d).1) ≡ₚ option_list a ++ omap id (_appenders d).
Proof.
  unfold attachAppender. case_bool_decide as E; cbn [fst _appenders].
  - rewrite omap_app. destruct a; cbn; [by rewrite Permutation_app_comm|by rewrite app_nil_r].
  - apply omap_insert_null. by destruct (find_null_spec (_appenders d)).
Qed.
(** Every appender given to a domain is, at any time, in exactly one place: attached,
    handed back, or deleted.  None is lost and none deleted twice. *)
Theorem domain_owns os : let s := foldl domain_run1 owned_init os in
  given s ≡ₚ omap id (_appenders (dom s)) ++ handed_back s ++ freed s.
Proof.
  cbn. assert (forall s, given s ≡ₚ omap id (_appenders (dom s)) ++ handed_back s ++ freed s ->
    given (foldl domain_run1 s os) ≡ₚ omap id (_appenders (dom (foldl domain_run1 s os))) ++ handed_back (foldl domain_run1 s os) ++ freed (foldl domain_run1 s os)) as H; [|by apply H].
  induction os as [|o os IH]; intros s Hs; cbn [foldl]; [done|]. apply IH. destruct o as [a|h|]; cbn [domain_run1].
  - cbn [given dom handed_back freed]. rewrite attach_owns, Hs. destruct a; cbn; [|by rewrite app_nil_r]. by rewrite Permutation_app_comm.
  - unfold detachAppender. destruct (_appenders (dom s) !! h) as [a|] eqn:E; [|done]. cbn [given dom handed_back freed _appenders].
    rewrite Hs, (omap_insert_remove _ _ _ E). destruct a as [a|]; cbn; [|by rewrite app_nil_r].
    rewrite (Permutation_app_comm (handed_back s) [a]). cbn. by rewrite Permutation_middle.
  - cbn. rewrite Hs, Permutation_app_comm. by rewrite app_assoc.
Qed.

(** A handle finds its appender, whatever is attached later and whatever else is
    detached, until the domain is cleared. *)
Lemma attach_at (a : Appender) d : _appenders (attachAppender (Some a) d).1 !! (attachAppender (Some a) d).2 = Some (Some a).
Proof.
  unfold attachAppender. case_bool_decide as E; cbn.
  - rewrite length_app, lookup_app_r; cbn; [|lia]. by replace (_ - _ - _)%nat with 0%nat by lia.
  - rewrite list_lookup_insert, decide_True; [done|]. split; [done|]. destruct (find_null_spec (_appenders d)) as [|Hn]; [done|].
    by eapply lookup_lt_Some.
Qed.
Lemma attach_keeps (a : Appender) a' h d : _appenders d !! h = Some (Some a) -> _appenders (attachAppender a' d).1 !! h = Some (Some a).
Proof.
  intros H. unfold attachAppender. case_bool_decide as E; cbn.
  - by apply lookup_app_l_Some.
  - rewrite list_lookup_insert_ne; [done|]. intros <-. destruct (find_null_spec (_appenders d)); congruence.
Qed.
Theorem handle_finds (a : Appender) d os : Forall (fun o => match o with Attach _ => True | Detach h => h <> (attachAppender (Some a) d).2 | ClearAll => False end) os ->
  let s := foldl domain_run1 (mkOwned (attachAppender (Some a) d).1 [] [] []) os in
  exists d', detachAppender (attachAppender (Some a) d).2 (dom s) = Ret (d', Some a).
Proof.
  intros Hos. cbn. assert (forall s, _appenders (dom s) !! (attachAppender (Some a) d).2 = Some (Some a) ->
    _appenders (dom (foldl domain_run1 s os)) !! (attachAppender (Some a) d).2 = Some (Some a)) as H.
  { induction Hos as [|o os Ho _ IH]; intros s Hs; cbn [foldl]; [done|]. apply IH. destruct o as [a'|h'|]; cbn; [by apply attach_keeps| |done].
    unfold detachAppender. destruct (_appenders (dom s) !! h') eqn:E; [|done]. cbn. by rewrite list_lookup_insert_ne. }
  unfold detachAppender. rewrite H; [by eexists|apply attach_at].
Qed.
(** A handle from before [clearAppenders] can find the appender of another. *)
Lemma stale_handle (a b : Appender) : let '(d, h) := attachAppender (Some a) LogDomain_ctor in
  let '(d, h') := attachAppender (Some b) (clearAppenders d).1 in exists d', detachAppender h d = Ret (d', Some b).
Proof. by eexists. Qed.
End Domain.

Section Manager.
Context {D : Type} (new_domain : D).
Definition manager_ok (m : LogManager (D := D)) : Prop :=
  (forall n p, _domains m !! n = Some p -> (p < length (heap m))%nat) /\
  (forall n n' p, _domains m !! n = Some p -> _domains m !! n' = Some p -> n = n').
Lemma getNamedDomain_spec name m : manager_ok m ->
  let '(m', p) := getNamedDomain new_domain name m in
  manager_ok m' /\ getNamedDomain new_domain name m' = (m', p) /\ (p < length (heap m'))%nat /\ heap m `prefix_of` heap m' /\
  (forall n q, _domains m !! n = Some q -> _domains m' !! n = Some q) /\
  (forall n q, n <> name -> _domains m' !! n = Some q -> q <> p).
Proof.
  intros [Hb Hi]. unfold getNamedDomain. destruct (_domains m !! name) as [p|] eqn:E.
  { rewrite E. split; [done|]. split_and!; eauto. intros n q Hn Hq ->. eauto. }
  cbn. rewrite lookup_insert, decide_True by done.
  split; [split; cbn [_domains heap]; intros n|split; [done|split; [rewrite length_app; cbn; lia|split; [by eexists|split]]]].
  - intros p [[<- <-]|[_ Hp]]%lookup_insert_Some; cbn; rewrite length_app; cbn; [lia|]. apply Hb in Hp. lia.
  - intros n' p [[<- <-]|[Hn Hp]]%lookup_insert_Some [[<- Hq]|[Hn' Hp']]%lookup_insert_Some; eauto.
    + apply Hb in Hp'. lia.
    + subst. apply Hb in Hp. lia.
  - intros n q Hq. rewrite lookup_insert_ne; [done|]. congruence.
  - intros n q Hn Hq ->. rewrite lookup_insert_ne in Hq by done. apply Hb in Hq. lia.
Qed.
End Manager.

(** *** Encoders *)

Lemma end_line_spec msg : sized msg -> exists nl, end_line msg = Ret nl /\ zlen nl <= 1 /\ exists t, msg ++ nl = t ++ newline.
Proof.
  intros Hs. unfold end_line, StringData_endsWith. change (StringData_size newline) with 1. unfold StringData_size.
  pose proof (zlen_nonneg msg). destruct (1 >? zlen msg) eqn:E.
  { exists newline. split; [done|]. split; [by vm_compute|]. by exists msg. }
  rewrite substr_drop by (try done; lia). rewrite !ret_bind. unfold zlen in *.
  destruct (exists_last (l := msg)) as (t & c & ->). { intros ->. cbn in E. lia. }
  replace (Z.to_nat _) with (length t) by (rewrite length_app; cbn; lia). rewrite drop_app_length.
  destruct (StringData_eq [c] newline) eqn:Ec.
  - exists []. split; [done|]. split; [by vm_compute|]. exists t. rewrite app_nil_r. f_equal. by apply StringData_eq_spec.
  - exists newline. split; [done|]. split; [by vm_compute|]. by exists (t ++ [c]).
Qed.

(** The text of the largest message that is not cut, or the two ends of a larger one. *)
Lemma radix_loop_length fuel radix z acc : (length (radix_loop fuel radix z acc) <= fuel + length acc)%nat.
Proof.
  revert z acc. induction fuel as [|fuel IH]; intros z acc; cbn; [lia|]. case_match; cbn; [lia|].
  specialize (IH (z / radix) (digit_char (z mod radix) :: acc)). cbn in IH. lia.
Qed.
Lemma dec_loop_size fuel z acc : (length (dec_loop fuel z acc) <= S fuel + length acc)%nat.
Proof.
  revert z acc. induction fuel as [|fuel IH]; intros z acc; cbn; [lia|]. case_match; cbn; [lia|].
  specialize (IH (z / 10) (chr (48 + z mod 10) :: acc)). cbn in IH. lia.
Qed.
Lemma print_base_length f t z : 0 <= z < 2 ^ 64 -> zlen (print_base f t z) <= 65.
Proof.
  intros Hz. destruct f; cbn [print_base].
  - unfold print_int, print_nonneg. replace (z <? 0) with false by lia.
    pose proof (dec_loop_size (Z.to_nat (Z.log2 z)) z []) as H. cbn [length] in H. unfold zlen.
    assert (Z.log2 z < 64) as Hl. { destruct (decide (z = 0)) as [->|]; [by vm_compute|]. apply Z.log2_lt_pow2; lia. }
    pose proof (Z.log2_nonneg z). lia.
  - unfold zlen. pose proof (radix_loop_length 65 16 (wrap (IntType false (width t)) z) []) as H. cbn [length] in H. lia.
  - unfold zlen. pose proof (radix_loop_length 65 8 (wrap (IntType false (width t)) z) []) as H. cbn [length] in H. lia.
Qed.
Lemma ends_app (x y nl nw : bytes) : (exists u, y ++ nl = u ++ nw) -> exists u, (x ++ y) ++ nl = u ++ nw.
Proof. intros (u & E). exists (x ++ u). by rewrite <- app_assoc, E, app_assoc. Qed.
Lemma put_message_spec f msg : sized msg -> exists t, put_message f msg = Ret t /\ zlen t <= maxLogLine /\
  (zlen msg <= maxLogLine -> t = msg) /\ (forall nl, (exists u, msg ++ nl = u ++ newline) -> exists u, t ++ nl = u ++ newline).
Proof.
  intros Hs. unfold put_message. change maxLogLine with 10240. change (10240 / 3) with 3413. change (10240 / 1024) with 10.
  destruct (zlen msg >? 10240) eqn:E.
  2: { exists msg. split_and!; [done|lia|done|by eauto]. }
  assert (zlen msg < 2 ^ 64 - 1) as Hl by apply Hs. unfold size_wrap. rewrite Z.mod_small by lia.
  rewrite substr_0 by lia. rewrite substr_drop by (try done; lia). rewrite !ret_bind. eexists. split; [reflexivity|].
  split; [|split; [lia|]].
  - pose proof (print_base_length f uint64 (zlen msg / 1024) ltac:(split; [apply Z.div_pos; lia|apply Z.div_lt_upper_bound; lia])).
    pose proof (print_base_length f uint64 10 ltac:(lia)).
    rewrite !zlen_app.
    repeat match goal with |- context [zlen (B ?t)] => let n := eval vm_compute in (zlen (B t)) in change (zlen (B t)) with n end.
    unfold zlen in *. rewrite length_take, length_drop. lia.
  - intros nl (u & Hu). assert (Z.to_nat (zlen msg - 3413) + 3413 = length msg)%nat as Hk by (unfold zlen in *; lia).
    generalize dependent (Z.to_nat (zlen msg - 3413)). intros k Hk.
    assert (drop k msg ++ nl = drop k u ++ newline) as Hd.
    { assert (length (msg ++ nl) = length (u ++ newline)) as Hln by congruence. rewrite !length_app in Hln. change (length newline) with 1%nat in Hln.
      rewrite <- drop_app_le by lia. rewrite Hu. apply drop_app_le. lia. }
    do 7 apply ends_app. by eexists.
Qed.

(** Every event becomes one text that ends its line; it has a bound besides the date and
    the context, and nothing is cut from a message of at most 10240 bytes. *)
Theorem details_encode_line dateFormatter f e : sized (getMessage e) ->
  exists t, details_encode dateFormatter f e = Ret t /\
    zlen t <= zlen (dateFormatter (getDate e)) + zlen (getContextName e) + maxLogLine + 16 /\
    (exists u, t = u ++ newline) /\
    (zlen (getMessage e) <= maxLogLine -> exists before after, t = before ++ getMessage e ++ after /\ (after = [] \/ after = newline)).
Proof.
  intros Hs. destruct (put_message_spec f (getMessage e) Hs) as (m & Em & Lm & Hm & Hend).
  destruct (end_line_spec (getMessage e) Hs) as (nl & En & Ln & Hn).
  assert (nl = [] \/ nl = newline) as Hnl.
  { unfold end_line in En. apply bind_Ret in En as ([] & _ & En); injection En as <-; auto. }
  unfold details_encode. rewrite Em, ret_bind, En, ret_bind. eexists. split; [reflexivity|]. split; [|split].
  - assert (zlen (getNameForLog (getComponent e)) = 8) as E8 by (by destruct (getComponent e)).
    assert (zlen (put_context (getContextName e)) <= zlen (getContextName e) + 3) as Hc.
    { unfold put_context. case_bool_decide as E; [rewrite E; by vm_compute|]. rewrite !zlen_app. change (zlen (B "[")) with 1. change (zlen (B "] ")) with 2. lia. }
    rewrite !zlen_app, E8. change (zlen (B " ")) with 1. rewrite zlen_cons, zlen_nil. lia.
  - destruct (Hend nl Hn) as (u & Eu). rewrite Eu. eexists. rewrite !app_assoc. reflexivity.
  - intros Hlen. rewrite (Hm Hlen). do 2 eexists. split; [|exact Hnl]. rewrite !app_assoc. reflexivity.
Qed.

(** *** Lines *)

(** What is streamed, as text, from a given format on; and the format it leaves. *)
Fixpoint render (f : fmtbase) (items : list item) : bytes * fmtbase :=
  match items with
  | [] => ([], f)
  | Text t :: l => let '(u, f) := render f l in (t ++ u, f)
  | Int z :: l => let '(u, f') := render f l in (print_base f int32 z ++ u, f')
  | Manip f :: l => render f l
  end.
(** A thread keeps at most one stream, and keeps it empty. *)
Definition thread_ok (th : ThreadState) : Prop :=
  (length (threadOstreamCache th) <= 1)%nat /\ Forall (fun s => os_text s = []) (threadOstreamCache th).
Definition start_base (th : ThreadState) : fmtbase :=
  if isThreadOstreamCacheInitialized th then default Dec (os_base <$> last (threadOstreamCache th)) else Dec.

Section Lines.
Context {Appender World Tee : Type} (append_event : Appender -> MessageEventEphemeral -> World -> World * Status)
  (tee_write : Tee -> bytes -> World -> World) (dateFormatter : Z -> bytes).
#[local] Abbreviation Builder := (LogstreamBuilder Tee).

Lemma foldl_stream_out (b : Builder) th s items : _os b = Some s ->
  foldl (fun '(b, th) i => stream_out i b th) (b, th) items =
  (set_os (Some (mkStream (os_text s ++ (render (os_base s) items).1) (render (os_base s) items).2)) b, th).
Proof.
  revert b s. induction items as [|i items IH]; intros b s E; cbn [foldl].
  { cbn. rewrite app_nil_r. destruct b, s; cbn in *. by rewrite E. }
  unfold stream_out at 2. unfold makeStream. rewrite E; cbv beta iota; rewrite E. rewrite (IH _ (stream_put i s)) by done.
  destruct i; cbn [stream_put os_text os_base render]; destruct (render _ items) as [u f'] eqn:Er; cbn; rewrite <- ?app_assoc; reflexivity.
Qed.
Lemma makeStream_ok (b : Builder) th : thread_ok th -> _os b = None ->
  exists th1, makeStream b th = (set_os (Some (mkStream [] (start_base th))) b, th1) /\
    isThreadOstreamCacheInitialized th1 = isThreadOstreamCacheInitialized th /\
    (isThreadOstreamCacheInitialized th = true -> threadOstreamCache th1 = []) /\
    (isThreadOstreamCacheInitialized th = false -> th1 = th).
Proof.
  intros [Hl Hf] E. unfold makeStream, start_base. rewrite E. destruct th as [[] [|s [|]]]; cbn in *; try lia.
  all: try (eexists; split; [reflexivity|by split_and!]).
  inversion_clear Hf as [|? ? H0]. destruct s as [x f]. cbn in H0. subst x. eexists. split; [reflexivity|by split_and!].
Qed.
Lemma dtor_line now d (b : Builder) th w s : _os b = Some s -> sized (getMessage (line_event now b s)) ->
  match append append_event d (line_event now b s) w with
  | (_, None) => LogstreamBuilder_dtor append_event tee_write dateFormatter now d b th w = Ret None
  | (w', Some _) => exists w'', (_tee b = None -> w'' = w') /\
      LogstreamBuilder_dtor append_event tee_write dateFormatter now d b th w =
      Ret (Some (if isThreadOstreamCacheInitialized th && bool_decide (threadOstreamCache th = [])
                 then mkThreadState (isThreadOstreamCacheInitialized th) [mkStream [] (os_base s)] else th, w''))
  end.
Proof.
  intros E Hs. unfold LogstreamBuilder_dtor. rewrite E. destruct (append _ _ _ _) as [w' [st|]]; [|done].
  assert (forall w2 : World, (if isThreadOstreamCacheInitialized th && bool_decide (threadOstreamCache th = [])
     then mkThreadState (isThreadOstreamCacheInitialized th) (threadOstreamCache th ++ [mkStream [] (os_base s)]) else th, w2) =
    (if isThreadOstreamCacheInitialized th && bool_decide (threadOstreamCache th = [])
     then mkThreadState (isThreadOstreamCacheInitialized th) [mkStream [] (os_base s)] else th, w2)) as Hth.
  { intros w2. destruct (isThreadOstreamCacheInitialized th); [|done]. cbn. case_bool_decide as Ec; [|done]. by rewrite Ec. }
  destruct (_tee b) as [t|].
  - destruct (details_encode_line dateFormatter (os_base s) _ Hs) as (x & Ex & _). rewrite Ex, !ret_bind, Hth. exists (tee_write t x w'). split; [done|reflexivity].
  - rewrite ret_bind, Hth. exists w'. split; [done|reflexivity].
Qed.

(** A line that streams something appends one event, with what was streamed as its
    message, to the domain, and leaves the thread with at most one stream, empty, in the
    format the line ended with. *)
Theorem log_line_logs now d contextName severity c items th w : thread_ok th -> items <> [] ->
  sized (render (start_base th) items).1 ->
  let e := mkEvent now severity c contextName (render (start_base th) items).1 in
  match append append_event d e w with
  | (_, None) => log_line append_event tee_write dateFormatter now d (LogstreamBuilder_ctor contextName severity c) items th w = Ret None
  | (w', Some _) => exists th',
      log_line append_event tee_write dateFormatter now d (LogstreamBuilder_ctor contextName severity c) items th w = Ret (Some (th', w')) /\
      thread_ok th' /\ isThreadOstreamCacheInitialized th' = isThreadOstreamCacheInitialized th /\
      (isThreadOstreamCacheInitialized th = true -> start_base th' = (render (start_base th) items).2)
  end.
Proof.
  intros Ht Hi Hs e. unfold log_line.
  set (b := LogstreamBuilder_ctor contextName severity c : Builder).
  destruct (makeStream_ok b th Ht eq_refl) as (th1 & Em & E1 & E2 & E3).
  set (b1 := set_os (Some (mkStream [] (start_base th))) b) in *.
  assert (foldl (fun '(b, th) i => stream_out i b th) (b, th) items = foldl (fun '(b, th) i => stream_out i b th) (b1, th1) items) as ->.
  { destruct items as [|i items]; [done|]. cbn [foldl]. f_equal. unfold stream_out at 1. rewrite Em. reflexivity. }
  rewrite (foldl_stream_out b1 th1 _ items eq_refl). cbn [os_text os_base app].
  pose proof (dtor_line now d (set_os (Some (mkStream (render (start_base th) items).1 (render (start_base th) items).2)) b1) th1 w _ eq_refl) as H.
  change (line_event now (set_os _ b1) _) with e in H. specialize (H Hs). change ([] ++ (render (start_base th) items).1) with (render (start_base th) items).1.
  destruct (append append_event d e w) as [w' [st|]]; [|exact H]. destruct H as (w2 & Hw & H). rewrite (Hw eq_refl) in H. rewrite H.
  eexists. split; [reflexivity|]. cbn [os_base]. destruct (isThreadOstreamCacheInitialized th) eqn:Ei.
  - rewrite E1, (E2 eq_refl). cbn. split_and!; [|done|done]. split; [done|]. by repeat constructor.
  - rewrite E1. cbn. rewrite (E3 eq_refl). by split_and!.
Qed.
End Lines.

(** Without manipulators a line does not depend on the lines before it, nor changes the
    format for those after it. *)
Definition plain (i : item) : Prop := match i with Manip _ => False | _ => True end.
Definition item_text (i : item) : bytes := match i with Text t => t | Int z => print_int z | Manip _ => [] end.
Lemma render_plain items : Forall plain items -> render Dec items = (concat (item_text <$> items), Dec).
Proof. induction 1 as [|[t|z|f] items Hp _ IH]; cbn; [done|by rewrite IH|by rewrite IH|done]. Qed.
(** The format is not part of what is cleared: a manipulator in one line changes the
    next line of the thread. *)
Lemma format_leaks :
  let append_event (_ : unit) (e : MessageEventEphemeral) (w : list bytes) := (w ++ [getMessage e], OK) in
  let line (s : option (ThreadState * list bytes)) items := match s with
    | Some (th, w) => match log_line append_event (fun (_ : unit) _ w => w) (fun _ => []) 0 (mkDomain [Some tt] false)
        (LogstreamBuilder_ctor [] Log kDefault) items th w with Ret s => s | Throw _ => None end
    | None => None end in
  snd <$> line (line (Some (mkThreadState true [], [])) [Manip Hex; Int 255]) [Int 255] = Some [B "ff"; B "ff"].
Proof. vm_compute. reflexivity. Qed.
(** The name and the letter of a severity. *)
Lemma severity_letters : severity_string Severe = B "SEVERE" /\ severity_char Severe = "F"%char /\
  forall s, s <> Severe -> -4 <= s -> severity_char s = match severity_string s with c :: _ => if islower c then chr (uchar c - 32) else c | [] => "U"%char end.
Proof.
  split_and!; [done..|]. intros s Hs Hl. unfold severity_string, severity_char. unfold Severe, Error, Warning, Info, Log in *.
  destruct (s >? 0) eqn:E; [done|]. assert (s = -3 \/ s = -2 \/ s = -1 \/ s = 0) as [->|[->|[->| ->]]] by lia; reflexivity.
Qed.

Section MongoLog.
Context {Appender World Tee : Type} (append_event : Appender -> MessageEventEphemeral -> World -> World * Status)
  (tee_write : Tee -> bytes -> World -> World) (dateFormatter : Z -> bytes).
(** The macro: a line less severe than the nearest configured ancestor of its component
    is nothing at all; any other is one event for the domain. *)
Theorem MONGO_LOG_logs now conf settings d severity c items th w : settings_hold conf settings -> c <> kNumLogComponents ->
  thread_ok th -> start_base th = Dec -> Forall plain items -> items <> [] -> sized (concat (item_text <$> items)) ->
  let run := MONGO_LOG append_event tee_write dateFormatter now settings d severity c items th w in
  if severity <=? nearest conf c then
    match append append_event d (mkEvent now severity c [] (concat (item_text <$> items))) w with
    | (_, None) => run = Ret None
    | (w', Some _) => exists th', run = Ret (Some (th', w')) /\ thread_ok th' /\
        (isThreadOstreamCacheInitialized th = true -> start_base th' = Dec)
    end
  else run = Ret (Some (th, w)).
Proof.
  intros H Hc Ht Hb Hp Hi Hs. unfold MONGO_LOG, shouldLog. rewrite (array_at_Some _ _ _ (hold_min _ _ H c Hc)). cbv zeta. rewrite !ret_bind.
  unfold severity_ge. destruct (severity <=? nearest conf c); [|done].
  pose proof (log_line_logs append_event tee_write dateFormatter now d [] severity c items th w Ht Hi) as Hl.
  rewrite Hb, (render_plain _ Hp) in Hl. cbn [fst snd] in Hl. specialize (Hl Hs).
  destruct (append _ _ _ _) as [w' [st|]]; [|done]. destruct Hl as (th' & E & Hok & _ & Hd). by exists th'.
Qed.
End MongoLog.
