(* ===== verification/FastKeyTable.v ===== *)
(** * The open-addressing table behind StringMap: util/unordered_fast_key_table.h,
      util/unordered_fast_key_table_internal.h

    [UnorderedFastKeyTable] with its probe limit, tombstones and growth, as a list
    of entries, and its refinement of a finite map. *)
From S2P Require Import Prelude.
Local Open Scope Z_scope.

(** ** The probe ratio

    [static_cast<unsigned>(capacity * maxProbeRatio)]: the ratio is the double
    [mantissa / 2 ^ shift]; the product is rounded to 53 bits, ties to even, and
    truncated. *)
Record Ratio := mkRatio { mantissa : Z; shift : Z }.

Definition round53 (p : Z) : Z :=
  let d := Z.log2 p - 52 in
  if d <=? 0 then p
  else
    let q := Z.shiftr p d in
    let r := p - Z.shiftl q d in
    let half := Z.shiftl 1 (d - 1) in
    let q := if (r <? half) || ((r =? half) && Z.even q) then q else q + 1 in
    Z.shiftl q d.
Definition probes_of (capacity : Z) (ratio : Ratio) : Z :=
  wrap uint32 (Z.shiftr (round53 (capacity * mantissa ratio)) (shift ratio)).

(** The default ratio, 0.05. *)
Definition default_ratio : Ratio := mkRatio 7205759403792794 57.
Example default_probes : (fun c => probes_of c default_ratio) <$> [20; 39; 40; 160; 2 ^ 20] = [1; 1; 2; 8; 52428].
Proof. vm_compute. reflexivity. Qed.

Section table.
Context {K V : Type} `{Countable K}.
(** The hash function (a [size_t]), the default-constructed key and value, and how
    many entries can be allocated. *)
Context (hash : K -> Z) (K_default : K) (V_default : V) (memory : Z).

Record Entry := mkEntry { used : bool; everUsed : bool; curHash : Z; data : K * V }.
Definition Entry_ctor : Entry := mkEntry false false 0 (K_default, V_default).

Record Area := mkArea { _capacity : Z; _maxProbe : Z; _entries : list Entry }.
Definition Area_ctor (capacity : Z) (ratio : Ratio) : M Area :=
  guard_throw (capacity <=? memory) EBadAlloc;;
  Ret (mkArea capacity (probes_of capacity ratio) (replicate (Z.to_nat capacity) Entry_ctor)).

Definition position (a : Area) (h probe : Z) : Z := size_wrap (h + probe) mod _capacity a.
Definition entry_at (a : Area) (pos : Z) : M Entry :=
  match zlookup (_entries a) pos with Some e => Ret e | None => Throw EUndefined end.
Definition put_entry (a : Area) (pos : Z) (e : Entry) : Area :=
  mkArea (_capacity a) (_maxProbe a) (<[Z.to_nat pos := e]> (_entries a)).

(** The loop of [Area::find] from [probe], [n] probes before the limit; gives the
    position and [firstEmpty]. *)
Fixpoint Area_find_loop (a : Area) (key : K) (h : Z) (n : nat) (probe firstEmpty : Z) : M (Z * Z) :=
  match n with
  | O => Ret (-1, firstEmpty)
  | S n =>
      let pos := position a h probe in
      e ← entry_at a pos;
      if negb (used e) then
        let firstEmpty := if firstEmpty =? -1 then wrap int32 pos else firstEmpty in
        if negb (everUsed e) then Ret (-1, firstEmpty) else Area_find_loop a key h n (probe + 1) firstEmpty
      else if negb (curHash e =? h) then Area_find_loop a key h n (probe + 1) firstEmpty
      else if negb (bool_decide (key = (data e).1)) then Area_find_loop a key h n (probe + 1) firstEmpty
      else Ret (wrap int32 pos, firstEmpty)
  end.
Definition Area_find (a : Area) (key : K) (h : Z) : M (Z * Z) :=
  Area_find_loop a key h (Z.to_nat (_maxProbe a)) 0 (-1).

(** [None]: no room within the probe limit. *)
Fixpoint Area_transfer (l : list Entry) (newArea : Area) : M (option Area) :=
  match l with
  | [] => Ret (Some newArea)
  | e :: l' =>
      if negb (used e) then Area_transfer l' newArea
      else
        '(loc, firstEmpty) ← Area_find newArea (data e).1 (curHash e);
        verify (loc =? -1);;
        if firstEmpty <? 0 then Ret None else Area_transfer l' (put_entry newArea firstEmpty e)
  end.

Record Table := mkTable { _size : Z; _maxProbeRatio : Ratio; _area : Area }.
Definition Table_ctor (startingCapacity : Z) (maxProbeRatio : Ratio) : M Table :=
  area ← Area_ctor startingCapacity maxProbeRatio; Ret (mkTable 0 maxProbeRatio area).
Definition set_area (t : Table) (a : Area) : Table := mkTable (_size t) (_maxProbeRatio t) a.

Fixpoint grow_loop (t : Table) (tries : nat) (capacity : Z) : M Table :=
  match tries with
  | O => Throw (EMassert 16845)
  | S tries =>
      let capacity := wrap uint32 (capacity * 2) in
      newArea ← Area_ctor capacity (_maxProbeRatio t);
      success ← Area_transfer (_entries (_area t)) newArea;
      match success with
      | None => grow_loop t tries capacity
      | Some newArea => Ret (set_area t newArea)
      end
  end.
Definition _grow (t : Table) : M Table := grow_loop t 5 (_capacity (_area t)).

(** [get] gives the position of the value it refers to, and the table also when it
    raises. *)
Fixpoint get_loop (t : Table) (key : K) (h : Z) (tries : nat) : Table * M Z :=
  match tries with
  | O => (t, Throw (EMassert 16471))
  | S tries =>
      match Area_find (_area t) key h with
      | Throw e => (t, Throw e)
      | Ret (pos, firstEmpty) =>
          if pos >=? 0 then (t, Ret pos)
          else if firstEmpty >=? 0 then
            match entry_at (_area t) firstEmpty with
            | Throw e => (t, Throw e)
            | Ret e =>
                let e := mkEntry true true h (key, (data e).2) in
                (mkTable (size_wrap (_size t + 1)) (_maxProbeRatio t) (put_entry (_area t) firstEmpty e),
                 Ret firstEmpty)
            end
          else
            match _grow t with
            | Throw e => (t, Throw e)
            | Ret t => get_loop t key h tries
            end
      end
  end.
Definition Table_get (t : Table) (key : K) : Table * M Z := get_loop t key (hash key) 5.

(** Reading and writing through the reference. *)
Definition value_at (t : Table) (pos : Z) : M V := e ← entry_at (_area t) pos; Ret (data e).2.
Definition assign_at (t : Table) (pos : Z) (v : V) : M Table :=
  e ← entry_at (_area t) pos;
  Ret (set_area t (put_entry (_area t) pos (mkEntry (used e) (everUsed e) (curHash e) ((data e).1, v)))).

Definition erase_at (t : Table) (pos : Z) : M Table :=
  e ← entry_at (_area t) pos;
  Ret (mkTable (size_wrap (_size t - 1)) (_maxProbeRatio t)
         (put_entry (_area t) pos (mkEntry false (everUsed e) (curHash e) ((data e).1, V_default)))).
Definition Table_erase (t : Table) (key : K) : M (Z * Table) :=
  '(pos, _) ← Area_find (_area t) key (hash key);
  if pos <? 0 then Ret (0, t) else t ← erase_at t pos; Ret (1, t).

(** Iterators: a position, -1 at the end, and the last position. *)
Record iterator := mkIterator { _position : Z; _max : Z }.
Definition end_iterator : iterator := mkIterator (-1) 0.
Definition Table_find (t : Table) (key : K) : M iterator :=
  if _size t =? 0 then Ret end_iterator
  else
    '(pos, _) ← Area_find (_area t) key (hash key);
    Ret (if pos <? 0 then end_iterator else mkIterator pos pos).
Fixpoint table_skip (fuel : nat) (a : Area) (it : iterator) : M iterator :=
  match fuel with
  | O => Ret it
  | S fuel =>
      e ← entry_at a (_position it);
      if used e then Ret it
      else if _position it >=? _max it then Ret (mkIterator (-1) (_max it))
      else table_skip fuel a (mkIterator (_position it + 1) (_max it))
  end.
Definition Table_begin (t : Table) : M iterator :=
  table_skip (length (_entries (_area t))) (_area t) (mkIterator 0 (wrap int32 (_capacity (_area t) - 1))).
Definition table_next (a : Area) (it : iterator) : M iterator :=
  if _position it <? 0 then Ret it
  else
    let it := mkIterator (_position it + 1) (_max it) in
    if _position it >? _max it then Ret (mkIterator (-1) (_max it)) else table_skip (length (_entries a)) a it.
Definition table_deref (a : Area) (it : iterator) : M (K * V) := e ← entry_at a (_position it); Ret (data e).

(** A for loop over the table. *)
Fixpoint table_walk (fuel : nat) (a : Area) (it : iterator) : M (list (K * V)) :=
  match fuel with
  | O => Ret []
  | S fuel =>
      if _position it =? -1 then Ret []
      else kv ← table_deref a it; it ← table_next a it; l ← table_walk fuel a it; Ret (kv :: l)
  end.
Definition Table_iterate (t : Table) : M (list (K * V)) :=
  it ← Table_begin t; table_walk (S (length (_entries (_area t)))) (_area t) it.

Definition copyTo (t out : Table) : Table := mkTable (_size t) (_maxProbeRatio t) (_area t).

(** ** What a table represents *)

Definition used_data (l : list Entry) : list (K * V) := data <$> List.filter used l.

(** The entry at position [p] is the one a probe for its key with hash [h] meets
    before any entry that was never used. *)
Definition reachable_at (a : Area) (h : Z) (p : nat) : Prop :=
  exists i, 0 <= i < _maxProbe a /\ position a h i = Z.of_nat p /\
    forall j, 0 <= j < i -> exists e, zlookup (_entries a) (position a h j) = Some e /\ everUsed e = true.

Record wf_area (a : Area) : Prop := {
  wa_length : Z.of_nat (length (_entries a)) = _capacity a;
  wa_capacity : 0 <= _capacity a <= int_max int32;
  wa_probes : _capacity a = 0 -> _maxProbe a <= 0;
  wa_used : forall p e, _entries a !! p = Some e -> used e = true ->
    everUsed e = true /\ curHash e = hash (data e).1 /\ reachable_at a (hash (data e).1) p;
  wa_unused : forall p e, _entries a !! p = Some e -> used e = false -> (data e).2 = V_default;
  wa_keys : NoDup (used_data (_entries a)).*1 }.

Definition contents (a : Area) : gmap K V := list_to_map (used_data (_entries a)).

Lemma used_data_app l1 l2 : used_data (l1 ++ l2) = used_data l1 ++ used_data l2.
Proof. unfold used_data. by rewrite List.filter_app, fmap_app. Qed.

Lemma used_data_elem l k v : (k, v) ∈ used_data l <-> exists p e, l !! p = Some e /\ used e = true /\ data e = (k, v).
Proof.
  unfold used_data. rewrite list_elem_of_fmap. split.
  - intros (e & E & He). apply list_elem_of_In, List.filter_In in He as [He%list_elem_of_In Hu].
    apply list_elem_of_lookup in He as [p Hp]. by exists p, e.
  - intros (p & e & Hp & Hu & E). exists e. split; [done|]. apply list_elem_of_In, List.filter_In.
    split; [|done]. apply list_elem_of_In. by eapply list_elem_of_lookup_2.
Qed.

Lemma contents_lookup a k v : wf_area a ->
  contents a !! k = Some v <-> exists p e, _entries a !! p = Some e /\ used e = true /\ data e = (k, v).
Proof.
  intros Ha. unfold contents. rewrite <-elem_of_list_to_map by apply Ha. apply used_data_elem.
Qed.

Lemma contents_none a k : wf_area a -> contents a !! k = None ->
  forall p e, _entries a !! p = Some e -> used e = true -> (data e).1 <> k.
Proof.
  intros Ha Hn p e Hp Hu Hk. assert (contents a !! k = Some (data e).2) as E; [|congruence].
  apply contents_lookup; [done|]. exists p, e. split; [done|]. split; [done|].
  destruct (data e); cbn in *; congruence.
Qed.

(** A key is stored once. *)
Lemma one_entry a p q e f : wf_area a -> _entries a !! p = Some e -> _entries a !! q = Some f ->
  used e = true -> used f = true -> (data e).1 = (data f).1 -> p = q.
Proof.
  intros Ha Hp Hq Hu Hv Hk. destruct (decide (p = q)) as [|Hne]; [done|]. exfalso.
  pose proof (wa_keys a Ha) as Hnd.
  assert (forall p q e f, (p < q)%nat -> _entries a !! p = Some e -> _entries a !! q = Some f ->
    used e = true -> used f = true -> (data e).1 = (data f).1 -> False) as H2.
  { clear -Hnd. intros p q e f Hlt Hp Hq Hu Hv Hk. apply list_elem_of_split_length in Hp as (l1 & l2 & E & El).
    rewrite E in Hq, Hnd. rewrite lookup_app_r in Hq by lia. 
    destruct (q - length l1)%nat as [|n] eqn:En; [lia|]. cbn in Hq.
    rewrite used_data_app, fmap_app in Hnd. apply NoDup_app in Hnd as (_ & _ & Hnd).
    unfold used_data in Hnd. cbn in Hnd. rewrite Hu in Hnd. cbn in Hnd. apply NoDup_cons in Hnd as [Hnd _].
    apply Hnd. rewrite Hk. apply list_elem_of_fmap. exists (data f). split; [done|].
    destruct (data f) as [k v] eqn:Ef. apply used_data_elem. by exists n, f. }
  destruct (decide (p < q)%nat); [by apply (H2 p q e f)|]. apply (H2 q p f e); try done. lia.
Qed.

Lemma position_range a h i : wf_area a -> 0 < _capacity a -> 0 <= position a h i < _capacity a.
Proof. intros Ha Hc. unfold position. apply Z.mod_pos_bound. lia. Qed.

Lemma position_entry a h i : wf_area a -> 0 < _capacity a ->
  exists e, entry_at a (position a h i) = Ret e /\ zlookup (_entries a) (position a h i) = Some e /\
    _entries a !! Z.to_nat (position a h i) = Some e.
Proof.
  intros Ha Hc. pose proof (position_range a h i Ha Hc) as Hr. pose proof (wa_length a Ha) as Hl.
  destruct (lookup_lt_is_Some_2 (_entries a) (Z.to_nat (position a h i))) as [e He]; [lia|].
  exists e. unfold entry_at, zlookup. rewrite decide_True by lia. by rewrite He.
Qed.

(** ** Area::find *)

(** Where a new entry for a key of hash [h] goes. *)
Definition free_slot (a : Area) (h : Z) (fe : Z) : Prop :=
  0 <= fe /\ (exists e, _entries a !! Z.to_nat fe = Some e /\ used e = false) /\
  reachable_at a h (Z.to_nat fe).

Lemma wrap_position a h i : wf_area a -> 0 < _capacity a -> wrap int32 (position a h i) = position a h i.
Proof.
  intros Ha Hc. pose proof (position_range a h i Ha Hc). pose proof (wa_capacity a Ha).
  apply wrap_id; [done|]. unfold in_range. change (int_min int32) with (-2147483648). lia.
Qed.

Lemma Area_find_loop_spec a key : wf_area a -> 0 < _capacity a ->
  forall n probe fe, 0 <= probe -> probe + Z.of_nat n = _maxProbe a ->
  (forall j, 0 <= j < probe -> exists e, zlookup (_entries a) (position a (hash key) j) = Some e /\
     everUsed e = true /\ (used e = true -> (data e).1 <> key)) ->
  (fe = -1 \/ free_slot a (hash key) fe) ->
  exists pos fe', Area_find_loop a key (hash key) n probe fe = Ret (pos, fe') /\
    match contents a !! key with
    | Some v => 0 <= pos /\ exists e, _entries a !! Z.to_nat pos = Some e /\ used e = true /\ data e = (key, v)
    | None => pos = -1 /\ (fe' = -1 \/ free_slot a (hash key) fe')
    end.
Proof.
  intros Ha Hc. set (h := hash key).
  (* a stored key is where some probe finds it *)
  assert (forall v, contents a !! key = Some v -> exists i p e, 0 <= i < _maxProbe a /\
    _entries a !! p = Some e /\ used e = true /\ data e = (key, v) /\ position a h i = Z.of_nat p /\
    forall j, 0 <= j < i -> exists e', zlookup (_entries a) (position a h j) = Some e' /\ everUsed e' = true) as Hstored.
  { intros v Hv. apply contents_lookup in Hv as (p & e & Hp & Hu & Ed); [|done].
    destruct (wa_used a Ha p e Hp Hu) as (_ & _ & i & Hi & Hpos & Hbefore). rewrite Ed in *.
    by exists i, p, e. }
  induction n as [|n IH]; intros probe fe Hprobe Hn Hbefore Hfe; cbn [Area_find_loop].
  - exists (-1), fe. split; [done|]. destruct (contents a !! key) as [v|] eqn:Ev; [|done]. exfalso.
    destruct (Hstored v eq_refl) as (i & p & e & Hi & Hp & Hu & Ed & Hpos & _).
    destruct (Hbefore i) as (e' & He' & _ & Hk); [lia|]. rewrite Hpos, zlookup_of_nat, Hp in He'.
    injection He' as <-. apply (Hk Hu). by rewrite Ed.
  - destruct (position_entry a h probe Ha Hc) as (e & Ee & Ez & El). rewrite Ee. cbn [mbind result_bind].
    rewrite wrap_position by done.
    pose proof (position_range a h probe Ha Hc) as Hr.
    assert (everUsed e = true -> (used e = true -> (data e).1 <> key) -> forall fe0,
      (fe0 = -1 \/ free_slot a h fe0) -> exists pos fe', Area_find_loop a key h n (probe + 1) fe0 = Ret (pos, fe') /\
      match contents a !! key with
      | Some v => 0 <= pos /\ exists e, _entries a !! Z.to_nat pos = Some e /\ used e = true /\ data e = (key, v)
      | None => pos = -1 /\ (fe' = -1 \/ free_slot a h fe')
      end) as Hgo.
    { intros Hever Hk fe0 Hfe0. apply IH; [lia|lia| |done]. intros j Hj.
      destruct (decide (j = probe)) as [->|Hne]; [by exists e|apply Hbefore; lia]. }
    destruct (used e) eqn:Hu; cbn [negb].
    + destruct (wa_used a Ha _ e El Hu) as (Hever & Hh & _).
      destruct (Z.eqb_spec (curHash e) h) as [Hch|Hch]; cbn [negb].
      2:{ apply Hgo; [done| |done]. intros _ Hk. apply Hch. rewrite Hh, Hk. done. }
      destruct (decide (key = (data e).1)) as [Hk|Hk].
      2:{ rewrite bool_decide_eq_false_2 by done. cbn [negb]. apply Hgo; [done|congruence|done]. }
      rewrite bool_decide_eq_true_2 by done. cbn [negb]. exists (position a h probe), fe. split; [done|].
      assert (contents a !! key = Some (data e).2) as ->.
      { apply contents_lookup; [done|]. exists (Z.to_nat (position a h probe)), e. split; [done|]. split; [done|].
        rewrite Hk. by destruct (data e). }
      split; [lia|]. exists e. split; [done|]. split; [done|]. rewrite Hk. by destruct (data e).
    + set (fe1 := if fe =? -1 then position a h probe else fe).
      assert (free_slot a h fe1) as Hfe1.
      { unfold fe1. destruct (Z.eqb_spec fe (-1)) as [->|Hne]; [|by destruct Hfe].
        split; [lia|]. split; [by exists e|]. exists probe. split; [lia|]. split; [lia|].
        intros j Hj. destruct (Hbefore j Hj) as (e' & ? & ? & _). by exists e'. }
      destruct (everUsed e) eqn:Hever; cbn [negb].
      * apply Hgo; [done|done|by right].
      * exists (-1), fe1. split; [done|]. destruct (contents a !! key) as [v|] eqn:Ev; [|by split; [|right]]. exfalso.
        destruct (Hstored v eq_refl) as (i & p & e' & Hi & Hp & Hu' & Ed & Hpos & Hb').
        destruct (Z.lt_trichotomy i probe) as [Hlt|[->|Hgt]].
        -- destruct (Hbefore i) as (e2 & He2 & _ & Hk); [lia|]. rewrite Hpos, zlookup_of_nat, Hp in He2.
           injection He2 as <-. apply (Hk Hu'). by rewrite Ed.
        -- rewrite Hpos, zlookup_of_nat, Hp in Ez. congruence.
        -- destruct (Hb' probe) as (e2 & He2 & Hever2); [lia|]. congruence.
Qed.

Lemma Area_find_spec a key : wf_area a ->
  exists pos fe, Area_find a key (hash key) = Ret (pos, fe) /\
    match contents a !! key with
    | Some v => 0 <= pos /\ exists e, _entries a !! Z.to_nat pos = Some e /\ used e = true /\ data e = (key, v)
    | None => pos = -1 /\ (fe = -1 \/ free_slot a (hash key) fe)
    end.
Proof.
  intros Ha. unfold Area_find. pose proof (wa_capacity a Ha) as Hc.
  destruct (decide (_maxProbe a <= 0)) as [Hp|Hp].
  - replace (Z.to_nat (_maxProbe a)) with 0%nat by lia. exists (-1), (-1). split; [done|].
    destruct (contents a !! key) as [v|] eqn:E; [|by split; [|left]]. exfalso.
    apply contents_lookup in E as (p & e & Hpe & Hu & _); [|done].
    destruct (wa_used a Ha p e Hpe Hu) as (_ & _ & i & Hi & _). lia.
  - apply Area_find_loop_spec; [done| |lia|lia|lia|by left].
    destruct (decide (_capacity a = 0)) as [E|]; [|lia]. by apply (wa_probes a Ha) in E.
Qed.

(** ** Changing an entry *)

Lemma keys_nodup l :
  (forall p q e f, l !! p = Some e -> l !! q = Some f -> used e = true -> used f = true ->
     (data e).1 = (data f).1 -> p = q) -> NoDup (used_data l).*1.
Proof.
  induction l as [|e l IH]; intros H1; [constructor|]. unfold used_data in *. cbn.
  assert (NoDup (data <$> List.filter used l).*1) as Hl.
  { apply IH. intros p q e1 f Hp Hq Hu Hv Hk. assert (S p = S q) by (by eapply (H1 (S p) (S q))). lia. }
  destruct (used e) eqn:Hu; [|done]. cbn. constructor; [|done].
  intros ([k v] & E & Hin)%list_elem_of_fmap. apply used_data_elem in Hin as (p & f & Hp & Hv & Ef).
  assert (0%nat = S p); [|lia]. eapply (H1 0%nat (S p) e f); try done. by rewrite Ef.
Qed.

Lemma put_lookup a p e' q f : (p < length (_entries a))%nat ->
  _entries (put_entry a (Z.of_nat p) e') !! q = Some f <->
  (q = p /\ f = e') \/ (q <> p /\ _entries a !! q = Some f).
Proof.
  intros Hp. cbn. rewrite Nat2Z.id, list_lookup_insert_Some. split.
  - intros [(-> & -> & _)|[Hne Hq]]; [by left|right; split; [congruence|done]].
  - intros [[-> ->]|[Hne Hq]]; [by left|right; split; [congruence|done]].
Qed.

Lemma put_reachable a p e e' h q : _entries a !! p = Some e -> (everUsed e = true -> everUsed e' = true) ->
  reachable_at a h q -> reachable_at (put_entry a (Z.of_nat p) e') h q.
Proof.
  intros Hp Hever (i & Hi & Hpos & Hb). exists i. split; [done|]. split; [done|]. intros j Hj.
  destruct (Hb j Hj) as (f & Hf & Hfe). change (position (put_entry a (Z.of_nat p) e') h j) with (position a h j).
  pose proof (lookup_lt_Some _ _ _ Hp) as Hlt. unfold zlookup in *. destruct (decide (0 <= position a h j)); [|done].
  destruct (decide (Z.to_nat (position a h j) = p)) as [E|Hne].
  - exists e'. split; [apply put_lookup; [done|by left]|]. rewrite E, Hp in Hf. injection Hf as <-. auto.
  - exists f. split; [apply put_lookup; [done|by right]|done].
Qed.

Lemma put_ok a p e e' : wf_area a -> _entries a !! p = Some e -> (everUsed e = true -> everUsed e' = true) ->
  (used e' = true -> everUsed e' = true /\ curHash e' = hash (data e').1 /\ reachable_at a (hash (data e').1) p /\
     forall q f, q <> p -> _entries a !! q = Some f -> used f = true -> (data f).1 <> (data e').1) ->
  (used e' = false -> (data e').2 = V_default) ->
  wf_area (put_entry a (Z.of_nat p) e').
Proof.
  intros Ha Hp Hever Hnew Hun. pose proof (lookup_lt_Some _ _ _ Hp) as Hlt. constructor.
  - cbn. rewrite length_insert. apply Ha.
  - apply Ha.
  - apply Ha.
  - intros q f [[-> ->]|[Hne Hq]]%put_lookup Hu; [|..|done].
    + destruct (Hnew Hu) as (H1 & H2 & H3 & _). split; [done|]. split; [done|]. by eapply put_reachable.
    + destruct (wa_used a Ha q f Hq Hu) as (H1 & H2 & H3). split; [done|]. split; [done|]. by eapply put_reachable.
  - intros q f [[-> ->]|[Hne Hq]]%put_lookup Hu; [auto|by eapply (wa_unused a Ha)|done].
  - apply keys_nodup. intros q1 q2 f1 f2 H1 H2 Hu1 Hu2 Hk.
    apply put_lookup in H1 as [[-> ->]|[Hne1 H1]]; [| |done];
      (apply put_lookup in H2 as [[-> ->]|[Hne2 H2]]; [| |done]).
    + done.
    + destruct (Hnew Hu1) as (_ & _ & _ & H3). by destruct (H3 q2 f2 Hne2 H2 Hu2).
    + destruct (Hnew Hu2) as (_ & _ & _ & H3). by destruct (H3 q1 f1 Hne1 H1 Hu1).
    + by apply (one_entry a q1 q2 f1 f2).
Qed.

Lemma put_contents a p e e' k : wf_area a -> wf_area (put_entry a (Z.of_nat p) e') -> _entries a !! p = Some e ->
  contents (put_entry a (Z.of_nat p) e') !! k =
  if used e' && bool_decide (k = (data e').1) then Some (data e').2
  else if used e && bool_decide (k = (data e).1) then None
  else contents a !! k.
Proof.
  intros Ha Ha' Hp. pose proof (lookup_lt_Some _ _ _ Hp) as Hlt. apply option_eq. intros v.
  rewrite (contents_lookup _ k v Ha').
  assert ((exists q f, _entries (put_entry a (Z.of_nat p) e') !! q = Some f /\ used f = true /\ data f = (k, v)) <->
    (used e' = true /\ data e' = (k, v)) \/
    exists q f, q <> p /\ _entries a !! q = Some f /\ used f = true /\ data f = (k, v)) as ->.
  { split.
    - intros (q & f & [[-> ->]|[Hne Hq]]%put_lookup & Hu & Ed); [by left| |done]. right. by exists q, f.
    - intros [[Hu Ed]|(q & f & Hne & Hq & Hu & Ed)].
      + exists p, e'. split; [apply put_lookup; [done|by left]|done].
      + exists q, f. split; [apply put_lookup; [done|by right]|done]. }
  assert (used e' = true -> k = (data e').1 -> ~ exists q f, q <> p /\ _entries a !! q = Some f /\ used f = true /\ data f = (k, v)) as Hno.
  { intros Hu Hk (q & f & Hne & Hq & Hv & Ed). apply Hne. apply (one_entry _ q p f e' Ha').
    - apply put_lookup; [done|by right].
    - apply put_lookup; [done|by left].
    - done.
    - done.
    - rewrite Ed. done. }
  destruct (used e' && bool_decide (k = (data e').1)) eqn:E1.
  - apply andb_prop in E1 as [Hu Hk%bool_decide_eq_true]. split.
    + intros [[_ ->]|H1]; [done|]. by destruct (Hno Hu Hk).
    + intros [= <-]. left. split; [done|]. rewrite Hk. by destruct (data e').
  - assert (~ (used e' = true /\ data e' = (k, v))) as Hne'.
    { intros [Hu Ed]. rewrite Hu, Ed, bool_decide_eq_true_2 in E1; done. }
    destruct (used e && bool_decide (k = (data e).1)) eqn:E2.
    + apply andb_prop in E2 as [Hu Hk%bool_decide_eq_true]. split; [|done].
      intros [?|(q & f & Hne & Hq & Hv & Ed)]; [done|]. exfalso. apply Hne.
      apply (one_entry a q p f e Ha); try done. by rewrite Ed.
    + rewrite (contents_lookup a k v Ha). split.
      * intros [?|(q & f & _ & Hq & Hv & Ed)]; [done|by exists q, f].
      * intros (q & f & Hq & Hv & Ed). right. exists q, f. split; [|done]. intros ->.
        rewrite Hp in Hq. injection Hq as <-. rewrite Hv, Ed, bool_decide_eq_true_2 in E2; done.
Qed.

(** ** Growing *)

Context (Hmemory : memory <= int_max int32).

Lemma Area_ctor_ok capacity ratio : 0 <= capacity ->
  Area_ctor capacity ratio = Throw EBadAlloc \/
  exists a, Area_ctor capacity ratio = Ret a /\ wf_area a /\ contents a = ∅ /\ _capacity a = capacity.
Proof.
  intros Hc. unfold Area_ctor. destruct (Z.leb_spec capacity memory) as [Hm|]; [|by left]. right.
  eexists. split; [done|].
  assert (forall p e, replicate (Z.to_nat capacity) Entry_ctor !! p = Some e -> e = Entry_ctor) as Hr
    by (by intros p e [-> _]%lookup_replicate).
  assert (used_data (replicate (Z.to_nat capacity) Entry_ctor) = []) as Hu.
  { clear. induction (Z.to_nat capacity) as [|n IH]; [done|]. exact IH. }
  split; [|split; [|done]].
  - constructor; cbn [_capacity _maxProbe _entries].
    + rewrite length_replicate. lia.
    + split; [done|]. by etrans.
    + intros ->. unfold probes_of, round53. cbn. by rewrite Z.shiftr_0_l.
    + by intros p e ->%Hr.
    + by intros p e ->%Hr.
    + rewrite Hu. constructor.
  - unfold contents. cbn [_entries]. by rewrite Hu.
Qed.

Lemma free_put a key v e : wf_area a -> contents a !! key = None -> forall fe, free_slot a (hash key) fe ->
  used e = true -> everUsed e = true -> curHash e = hash key -> data e = (key, v) ->
  wf_area (put_entry a fe e) /\ contents (put_entry a fe e) = <[key := v]> (contents a).
Proof.
  intros Ha Hn fe (Hfe & (e0 & He0 & Hu0) & Hreach) Hu Hev Hh Ed.
  replace fe with (Z.of_nat (Z.to_nat fe)) by lia.
  assert (wf_area (put_entry a (Z.of_nat (Z.to_nat fe)) e)) as Ha'.
  { apply (put_ok a _ e0); try done; [|congruence]. intros _. rewrite Ed. cbn. split; [done|]. split; [done|].
    split; [done|]. intros q f _ Hq Hv. by apply (contents_none a key Ha Hn q). }
  split; [done|]. apply map_eq. intros k. rewrite (put_contents a _ e0 e k Ha Ha' He0). rewrite Hu, Hu0, Ed. cbn.
  destruct (decide (k = key)) as [->|Hne].
  - by rewrite bool_decide_eq_true_2, lookup_insert_eq.
  - by rewrite bool_decide_eq_false_2, lookup_insert_ne.
Qed.

Lemma transfer_ok l : forall new, wf_area new ->
  (forall e, e ∈ l -> used e = true -> everUsed e = true /\ curHash e = hash (data e).1) ->
  NoDup (used_data l).*1 -> (forall k, k ∈ (used_data l).*1 -> contents new !! k = None) ->
  Area_transfer l new = Ret None \/
  exists a, Area_transfer l new = Ret (Some a) /\ wf_area a /\ contents a = list_to_map (used_data l) ∪ contents new /\
    _capacity a = _capacity new.
Proof.
  induction l as [|e l IH]; intros new Hnew Hl Hnd Hfresh; cbn [Area_transfer].
  { right. exists new. split; [done|]. split; [done|]. split; [|done]. cbn. by rewrite (left_id_L ∅ (∪)). }
  unfold used_data in *. cbn in Hnd, Hfresh |- *. destruct (used e) eqn:Hu; cbn [negb].
  2:{ apply IH; [done| |done|done]. intros f Hf. apply Hl. by apply list_elem_of_further. }
  cbn in Hnd, Hfresh. apply NoDup_cons in Hnd as [Hne Hnd].
  destruct (Hl e (list_elem_of_here _ _) Hu) as [Hev Hh]. rewrite Hh.
  pose proof (Hfresh (data e).1 (list_elem_of_here _ _)) as Hn.
  destruct (Area_find_spec new (data e).1 Hnew) as (pos & fe & -> & Hf). rewrite Hn in Hf.
  destruct Hf as [-> Hfe]. cbn [mbind result_bind]. cbn [verify guard_throw Z.eqb Pos.eqb mbind result_bind].
  destruct Hfe as [->|Hfe]; [by left|]. destruct (Z.ltb_spec fe 0) as [Hlt|_]; [by destruct Hfe; lia|].
  destruct (free_put new (data e).1 (data e).2 e Hnew Hn fe Hfe Hu Hev Hh) as [Hw Hc]; [by destruct (data e)|].
  destruct (IH (put_entry new fe e) Hw) as [?|(a & E & Ha & Hca & Hcap)].
  - intros f Hf. apply Hl. by apply list_elem_of_further.
  - done.
  - intros k Hk. rewrite Hc. rewrite lookup_insert_ne by (intros <-; done). apply Hfresh.
    by apply list_elem_of_further.
  - by left.
  - right. exists a. split; [done|]. split; [done|]. split; [|done]. rewrite Hca, Hc. cbn. destruct (data e) as [k v]. cbn in *.
    change (list_to_map ((k, v) :: (data <$> List.filter used l))) with
      (<[k := v]> (list_to_map (data <$> List.filter used l) : gmap K V)).
    rewrite <-insert_union_l, insert_union_r; [done|]. by apply not_elem_of_list_to_map.
Qed.

Definition table_errors : list exn := [EMassert 16471; EMassert 16845; EBadAlloc].

Record wf_table (t : Table) : Prop := {
  wt_area : wf_area (_area t);
  wt_positive : 0 < _capacity (_area t);
  wt_size : _size t = Z.of_nat (size (contents (_area t))) }.

Lemma size_bound a : wf_area a -> Z.of_nat (size (contents a)) <= int_max int32.
Proof.
  intros Ha. unfold contents. rewrite map_size_list_to_map by apply Ha.
  pose proof (wa_length a Ha). pose proof (wa_capacity a Ha).
  assert (length (used_data (_entries a)) <= length (_entries a))%nat; [|lia].
  unfold used_data. rewrite length_fmap. apply List.filter_length_le.
Qed.

Lemma grow_loop_ok t tries capacity : wf_table t -> 0 < capacity <= int_max int32 ->
  (exists e, grow_loop t tries capacity = Throw e /\ e ∈ table_errors) \/
  exists t', grow_loop t tries capacity = Ret t' /\ wf_table t' /\ contents (_area t') = contents (_area t).
Proof.
  intros Ht. pose proof (wt_area t Ht) as Ha. revert capacity.
  induction tries as [|tries IH]; intros capacity Hcap; cbn [grow_loop].
  { left. exists (EMassert 16845). split; [done|]. unfold table_errors. set_solver. }
  assert (wrap uint32 (capacity * 2) = capacity * 2) as ->.
  { apply wrap_id; [done|]. unfold in_range. change (int_min uint32) with 0. change (int_max uint32) with 4294967295.
    change (int_max int32) with 2147483647 in Hcap. lia. }
  destruct (Area_ctor_ok (capacity * 2) (_maxProbeRatio t)) as [->|(new & -> & Hnew & Hemp & Hcn)];
    [lia| |]; cbn [mbind result_bind].
  { left. exists EBadAlloc. split; [done|]. unfold table_errors. set_solver. }
  pose proof (wa_capacity _ Hnew) as Hcn'. rewrite Hcn in Hcn'.
  destruct (transfer_ok (_entries (_area t)) new Hnew) as [->|(a & -> & Hw & Hca & Hcapa)].
  - intros e He Hu. apply list_elem_of_lookup in He as [p Hp]. destruct (wa_used _ Ha p e Hp Hu) as (H1 & H2 & _). done.
  - apply Ha.
  - intros k _. by rewrite Hemp, lookup_empty.
  - cbn [mbind result_bind]. apply IH. lia.
  - cbn [mbind result_bind]. right. eexists. split; [done|].
    rewrite Hemp, (right_id_L ∅ (∪)) in Hca. split; [|exact Hca]. constructor; [exact Hw|cbn; lia|].
    cbn. unfold contents in *. rewrite Hca. apply Ht.
Qed.

(** ** The operations against a map *)

(** [pos] holds [key] with value [v]. *)
Definition holds_at (a : Area) (pos : Z) (key : K) (v : V) : Prop :=
  0 <= pos /\ exists e, _entries a !! Z.to_nat pos = Some e /\ used e = true /\ data e = (key, v).

Lemma get_loop_ok tries key : forall t, wf_table t ->
  let '(t', r) := get_loop t key (hash key) tries in
  wf_table t' /\
  match r with
  | Ret pos => holds_at (_area t') pos key (default V_default (contents (_area t) !! key)) /\
      contents (_area t') = <[key := default V_default (contents (_area t) !! key)]> (contents (_area t))
  | Throw e => contents (_area t') = contents (_area t) /\ e ∈ table_errors
  end.
Proof.
  induction tries as [|tries IH]; intros t Ht; cbn [get_loop].
  { split; [done|]. split; [done|]. unfold table_errors. set_solver. }
  pose proof (wt_area t Ht) as Ha.
  destruct (Area_find_spec (_area t) key Ha) as (pos & fe & -> & Hf).
  destruct (contents (_area t) !! key) as [v|] eqn:Ek.
  { destruct Hf as [Hpos Hf]. destruct (Z.geb_spec pos 0) as [_|]; [|lia]. split; [done|]. cbn.
    split; [by split|]. by rewrite insert_id. }
  destruct Hf as [-> Hfe]. cbn match. change (-1 >=? 0) with false. cbn match.
  destruct Hfe as [->|Hfe].
  - change (-1 >=? 0) with false. cbn match. unfold _grow.
    pose proof (wa_capacity _ Ha). pose proof (wt_positive _ Ht).
    destruct (grow_loop_ok t 5 (_capacity (_area t)) Ht) as [(e & -> & He)|(t1 & -> & Ht1 & Hc)]; [lia|done|].
    specialize (IH t1 Ht1). rewrite Hc, Ek in IH. exact IH.
  - pose proof Hfe as (Hfe0 & (e & He & Hu) & Hreach). destruct (Z.geb_spec fe 0) as [_|]; [|lia].
    unfold entry_at, zlookup. rewrite decide_True by lia. rewrite He.
    rewrite (wa_unused _ Ha _ _ He Hu).
    destruct (free_put (_area t) key V_default (mkEntry true true (hash key) (key, V_default)) Ha Ek fe Hfe)
      as [Hw Hc]; try done.
    split.
    + constructor; [exact Hw|apply Ht|]. cbn [_size _area]. rewrite Hc, map_size_insert_None by done.
      rewrite (wt_size t Ht). pose proof (size_bound _ Hw) as Hb. rewrite Hc, map_size_insert_None in Hb by done.
      change (int_max int32) with 2147483647 in Hb. unfold size_wrap. rewrite Z.mod_small; lia.
    + cbn. split; [|done]. split; [done|]. eexists. split; [apply list_lookup_insert_eq; by eapply lookup_lt_Some|].
      done.
Qed.

Lemma assign_ok t pos key v v' : wf_table t -> holds_at (_area t) pos key v ->
  exists t', assign_at t pos v' = Ret t' /\ wf_table t' /\ contents (_area t') = <[key := v']> (contents (_area t)) /\
    value_at t pos = Ret v.
Proof.
  intros Ht (Hpos & e & He & Hu & Ed). pose proof (wt_area t Ht) as Ha.
  unfold assign_at, value_at, entry_at, zlookup. rewrite decide_True by done. rewrite He. cbn [mbind result_bind].
  destruct (wa_used _ Ha _ _ He Hu) as (H1 & H2 & H3).
  set (e' := mkEntry _ _ _ _).
  assert (wf_area (put_entry (_area t) (Z.of_nat (Z.to_nat pos)) e')) as Ha'.
  { apply (put_ok _ _ e); try done; [|unfold e'; cbn; congruence]. intros _. cbn. split; [done|]. split; [done|].
    split; [done|]. intros q f Hne Hq Hv Hk. apply Hne. by apply (one_entry (_area t) q _ f e). }
  assert (contents (put_entry (_area t) (Z.of_nat (Z.to_nat pos)) e') = <[key := v']> (contents (_area t))) as Hc.
  { apply map_eq. intros k. rewrite (put_contents _ _ e e' k Ha Ha' He). unfold e'. cbn. rewrite Hu, Ed. cbn.
    destruct (decide (k = key)) as [->|Hne].
    - by rewrite bool_decide_eq_true_2, lookup_insert_eq.
    - by rewrite bool_decide_eq_false_2, lookup_insert_ne. }
  rewrite Z2Nat.id in Ha', Hc by done.
  assert (contents (_area t) !! key = Some v) as Ek.
  { apply contents_lookup; [done|]. by eexists _, e. }
  eexists. split; [done|]. split; [|split; [exact Hc|by rewrite Ed]].
  constructor; [exact Ha'|apply Ht|]. cbn [_size _area set_area]. rewrite Hc, map_size_insert_Some by by eexists. apply Ht.
Qed.

Lemma erase_ok t key : wf_table t ->
  exists t', Table_erase t key = Ret (if bool_decide (is_Some (contents (_area t) !! key)) then 1 else 0, t') /\
    wf_table t' /\ contents (_area t') = delete key (contents (_area t)).
Proof.
  intros Ht. pose proof (wt_area t Ht) as Ha. unfold Table_erase.
  destruct (Area_find_spec (_area t) key Ha) as (pos & fe & -> & Hf). cbn [mbind result_bind].
  destruct (contents (_area t) !! key) as [v|] eqn:Ek.
  2:{ destruct Hf as [-> _]. exists t. split; [done|]. split; [done|]. by rewrite delete_id. }
  destruct Hf as [Hpos (e & He & Hu & Ed)]. destruct (Z.ltb_spec pos 0); [lia|].
  unfold erase_at, entry_at, zlookup. rewrite decide_True by done. rewrite He. cbn [mbind result_bind].
  set (e' := mkEntry _ _ _ _).
  destruct (wa_used _ Ha _ _ He Hu) as (H1 & _).
  assert (wf_area (put_entry (_area t) (Z.of_nat (Z.to_nat pos)) e')) as Ha' by (by apply (put_ok _ _ e)).
  assert (contents (put_entry (_area t) (Z.of_nat (Z.to_nat pos)) e') = delete key (contents (_area t))) as Hc.
  { apply map_eq. intros k. rewrite (put_contents _ _ e e' k Ha Ha' He). unfold e'. cbn. rewrite Hu, Ed. cbn.
    destruct (decide (k = key)) as [->|Hne].
    - by rewrite bool_decide_eq_true_2, lookup_delete_eq.
    - by rewrite bool_decide_eq_false_2, lookup_delete_ne. }
  rewrite Z2Nat.id in Ha', Hc by done.
  eexists. split; [rewrite bool_decide_eq_true_2 by (by eexists); done|]. split; [|exact Hc].
  constructor; [exact Ha'|apply Ht|]. cbn [_size _area]. rewrite Hc, map_size_delete_Some by by eexists.
  rewrite (wt_size t Ht). pose proof (size_bound _ Ha) as Hb. change (int_max int32) with 2147483647 in Hb.
  assert (size (contents (_area t)) <> 0%nat).
  { intros Hz%map_size_empty_inv. by rewrite Hz, lookup_empty in Ek. }
  unfold size_wrap. rewrite Z.mod_small; lia.
Qed.

Lemma find_ok t key : wf_table t ->
  exists it, Table_find t key = Ret it /\
    match contents (_area t) !! key with
    | Some v => table_deref (_area t) it = Ret (key, v) /\ table_next (_area t) it = Ret (mkIterator (-1) (_max it))
    | None => it = end_iterator
    end.
Proof.
  intros Ht. pose proof (wt_area t Ht) as Ha. unfold Table_find. destruct (Z.eqb_spec (_size t) 0) as [Hz|Hz].
  - exists end_iterator. split; [done|]. rewrite (wt_size t Ht) in Hz.
    assert (contents (_area t) = ∅) as -> by (apply map_size_empty_inv; lia). done.
  - destruct (Area_find_spec (_area t) key Ha) as (pos & fe & -> & Hf). cbn [mbind result_bind].
    eexists. split; [done|]. destruct (contents (_area t) !! key) as [v|].
    + destruct Hf as [Hpos (e & He & Hu & Ed)]. destruct (Z.ltb_spec pos 0); [lia|].
      unfold table_deref, entry_at, zlookup. cbn [_position]. rewrite decide_True by done. rewrite He. cbn [mbind result_bind].
      rewrite Ed. split; [done|]. unfold table_next. cbn [_position _max]. destruct (Z.ltb_spec pos 0); [lia|].
      destruct (Z.gtb_spec (pos + 1) pos); [done|lia].
    + destruct Hf as [-> _]. done.
Qed.

(** ** Iterating *)

(** [it] stands before what [l2], the end of the entries, has in use. *)
Definition stands (a : Area) (l2 : list Entry) (it : iterator) : Prop :=
  _max it = _capacity a - 1 /\
  ((_position it = -1 /\ used_data l2 = []) \/
   exists l1 e l3, _entries a = l1 ++ e :: l3 /\ _position it = Z.of_nat (length l1) /\ used e = true /\
     used_data l2 = data e :: used_data l3 /\ (length l3 < length l2)%nat).

Lemma entry_at_app a l1 e l2 : _entries a = l1 ++ e :: l2 -> entry_at a (Z.of_nat (length l1)) = Ret e.
Proof.
  intros E. unfold entry_at. rewrite zlookup_of_nat, E, lookup_app_r, Nat.sub_diag by lia. done.
Qed.

Lemma table_skip_stands a : wf_area a -> forall l2 l1 fuel, _entries a = l1 ++ l2 -> l2 <> [] -> (length l2 <= fuel)%nat ->
  exists it, table_skip fuel a (mkIterator (Z.of_nat (length l1)) (_capacity a - 1)) = Ret it /\ stands a l2 it.
Proof.
  intros Ha. induction l2 as [|e l2 IH]; intros l1 fuel E Hne Hf; [done|].
  destruct fuel as [|fuel]; [cbn in Hf; lia|]. cbn [table_skip _position _max].
  rewrite (entry_at_app a l1 e l2 E). cbn [mbind result_bind]. destruct (used e) eqn:Hu.
  { eexists. split; [done|]. split; [done|]. right. exists l1, e, l2. split; [done|]. split; [done|].
    split; [done|]. split; [|cbn; lia]. unfold used_data. cbn. by rewrite Hu. }
  assert (used_data (e :: l2) = used_data l2) as Eu by (unfold used_data; cbn; by rewrite Hu).
  pose proof (wa_length a Ha) as Hlen. rewrite E, length_app in Hlen. cbn [length] in Hlen.
  destruct (Z.geb_spec (Z.of_nat (length l1)) (_capacity a - 1)) as [Hge|Hlt].
  - assert (l2 = []) as -> by (destruct l2; [done|cbn in Hlen; lia]).
    eexists. split; [done|]. split; [done|]. left. by rewrite Eu.
  - assert (l2 <> []) as Hl2 by (intros ->; cbn in Hlen; lia).
    destruct (IH (l1 ++ [e]) fuel) as (it & Hit & Hmax & Hst); [by rewrite <-app_assoc|done|cbn in Hf; lia|].
    rewrite length_app in Hit. cbn [length] in Hit. replace (Z.of_nat (length l1 + 1)) with (Z.of_nat (length l1) + 1) in Hit by lia.
    exists it. split; [done|]. split; [done|]. rewrite Eu. destruct Hst as [?|(l3 & f & l4 & H1 & H2 & H3 & H4 & H5)]; [by left|].
    right. exists l3, f, l4. split_and!; try done. cbn. lia.
Qed.

Lemma walk_stands a : wf_area a -> forall fuel l2 it, stands a l2 it -> (length l2 < fuel)%nat ->
  table_walk fuel a it = Ret (used_data l2).
Proof.
  intros Ha. induction fuel as [|fuel IH]; intros l2 it [Hmax Hst] Hf; [lia|]. cbn [table_walk].
  destruct Hst as [[-> ->]|(l1 & e & l3 & E & Hp & Hu & -> & Hl)]; [done|].
  rewrite Hp. destruct (Z.eqb_spec (Z.of_nat (length l1)) (-1)) as [|_]; [lia|].
  unfold table_deref. rewrite Hp, (entry_at_app a l1 e l3 E). cbn [mbind result_bind].
  assert (exists it', table_next a it = Ret it' /\ stands a l3 it') as (it' & -> & Hst).
  { unfold table_next. rewrite Hp. destruct (Z.ltb_spec (Z.of_nat (length l1)) 0) as [|_]; [lia|]. cbn [_position _max].
    pose proof (wa_length a Ha) as Hlen. rewrite E, length_app in Hlen. cbn [length] in Hlen.
    destruct (Z.gtb_spec (Z.of_nat (length l1) + 1) (_max it)) as [Hgt|Hle].
    - assert (l3 = []) as -> by (destruct l3; [done|cbn in Hlen; lia]).
      eexists. split; [done|]. split; [done|]. by left.
    - rewrite Hmax. destruct (table_skip_stands a Ha l3 (l1 ++ [e]) (length (_entries a))) as (it' & Hs & Hst).
      + by rewrite <-app_assoc.
      + intros ->. cbn in Hlen. lia.
      + rewrite E, length_app. cbn. lia.
      + exists it'. split; [|done]. rewrite length_app in Hs. cbn [length] in Hs.
        replace (Z.of_nat (length l1 + 1)) with (Z.of_nat (length l1) + 1) in Hs by lia. done. }
  cbn [mbind result_bind]. rewrite (IH l3 it' Hst) by lia. done.
Qed.

Lemma iterate_ok t : wf_table t ->
  exists l, Table_iterate t = Ret l /\ l ≡ₚ map_to_list (contents (_area t)).
Proof.
  intros Ht. pose proof (wt_area t Ht) as Ha. pose proof (wt_positive t Ht) as Hc. unfold Table_iterate, Table_begin.
  pose proof (wa_length _ Ha) as Hl. pose proof (wa_capacity _ Ha) as Hcap.
  rewrite (wrap_id int32); [|done|unfold in_range; change (int_min int32) with (-2147483648); lia].
  destruct (table_skip_stands _ Ha (_entries (_area t)) [] (length (_entries (_area t)))) as (it & Hs & Hst);
    [done|by intros E; rewrite E in Hl; cbn in Hl; lia|lia|]. change (Z.of_nat (length [])) with 0 in Hs. rewrite Hs. cbn [mbind result_bind].
  rewrite (walk_stands _ Ha _ _ _ Hst) by lia. eexists. split; [done|]. unfold contents.
  symmetry. apply map_to_list_to_map, Ha.
Qed.

(** ** The abstract map *)

Inductive op := OpAssign (k : K) (v : V) | OpRead (k : K) | OpErase (k : K) | OpFind (k : K) | OpSize | OpIterate.
Inductive out := OutDone | OutValue (v : V) | OutErased (n : Z) | OutFound (o : option V) | OutSize (n : Z)
  | OutList (l : list (K * V)).

(** What the operations promise, of a map whose [operator[]] inserts a default
    value. *)
Inductive map_step : gmap K V -> op -> out -> gmap K V -> Prop :=
  | ms_assign m k v : map_step m (OpAssign k v) OutDone (<[k := v]> m)
  | ms_read m k : map_step m (OpRead k) (OutValue (default V_default (m !! k)))
      (<[k := default V_default (m !! k)]> m)
  | ms_erase m k : map_step m (OpErase k) (OutErased (if bool_decide (is_Some (m !! k)) then 1 else 0)) (delete k m)
  | ms_find m k : map_step m (OpFind k) (OutFound (m !! k)) m
  | ms_size m : map_step m OpSize (OutSize (Z.of_nat (size m))) m
  | ms_iterate m l : l ≡ₚ map_to_list m -> map_step m OpIterate (OutList l) m.

Inductive map_steps : gmap K V -> list (op * out) -> gmap K V -> Prop :=
  | ms_nil m : map_steps m [] m
  | ms_cons m o r m' l m'' : map_step m o r m' -> map_steps m' l m'' -> map_steps m ((o, r) :: l) m''.

(** The same on the table. *)
Definition run_op (t : Table) (o : op) : Table * M out :=
  match o with
  | OpAssign k v =>
      match Table_get t k with
      | (t, Ret pos) => match assign_at t pos v with Ret t' => (t', Ret OutDone) | Throw e => (t, Throw e) end
      | (t, Throw e) => (t, Throw e)
      end
  | OpRead k =>
      match Table_get t k with
      | (t, Ret pos) => (t, v ← value_at t pos; Ret (OutValue v))
      | (t, Throw e) => (t, Throw e)
      end
  | OpErase k => match Table_erase t k with Ret (n, t) => (t, Ret (OutErased n)) | Throw e => (t, Throw e) end
  | OpFind k =>
      (t, it ← Table_find t k;
          if _position it =? -1 then Ret (OutFound None) else kv ← table_deref (_area t) it; Ret (OutFound (Some kv.2)))
  | OpSize => (t, Ret (OutSize (_size t)))
  | OpIterate => (t, l ← Table_iterate t; Ret (OutList l))
  end.

Fixpoint run_ops (t : Table) (ops : list op) : Table * list (op * out) * option exn :=
  match ops with
  | [] => (t, [], None)
  | o :: ops =>
      match run_op t o with
      | (t, Ret r) => let '(t, l, e) := run_ops t ops in (t, (o, r) :: l, e)
      | (t, Throw e) => (t, [], Some e)
      end
  end.

Lemma get_ok t key : wf_table t -> 
  let '(t', r) := Table_get t key in
  wf_table t' /\
  match r with
  | Ret pos => holds_at (_area t') pos key (default V_default (contents (_area t) !! key)) /\
      contents (_area t') = <[key := default V_default (contents (_area t) !! key)]> (contents (_area t))
  | Throw e => contents (_area t') = contents (_area t) /\ e ∈ table_errors
  end.
Proof. intros Ht. by apply get_loop_ok. Qed.

Lemma run_op_ok t o : wf_table t ->
  let '(t', r) := run_op t o in
  wf_table t' /\
  match r with
  | Ret r => map_step (contents (_area t)) o r (contents (_area t'))
  | Throw e => contents (_area t') = contents (_area t) /\ e ∈ table_errors
  end.
Proof.
  intros Ht. destruct o as [k v|k|k|k| |]; cbn [run_op].
  - pose proof (get_ok t k Ht) as H1. destruct (Table_get t k) as [t1 [pos|e]]; [|done].
    destruct H1 as (Ht1 & Hpos & Hc). destruct (assign_ok t1 pos k _ v Ht1 Hpos) as (t2 & -> & Ht2 & Hc2 & _).
    split; [done|]. rewrite Hc2, Hc, insert_insert_eq. constructor.
  - pose proof (get_ok t k Ht) as H1. destruct (Table_get t k) as [t1 [pos|e]]; [|done].
    destruct H1 as (Ht1 & Hpos & Hc). destruct (assign_ok t1 pos k _ V_default Ht1 Hpos) as (_ & _ & _ & _ & Hv).
    split; [done|]. rewrite Hv. cbn [mbind result_bind]. rewrite Hc. constructor.
  - destruct (erase_ok t k Ht) as (t1 & -> & Ht1 & Hc). split; [done|]. rewrite Hc. constructor.
  - destruct (find_ok t k Ht) as (it & -> & Hf). cbn [mbind result_bind]. split; [done|].
    pose proof (ms_find (contents (_area t)) k) as Hm.
    destruct (contents (_area t) !! k) as [v|]; [|by rewrite Hf].
    destruct Hf as [Hd _]. destruct (Z.eqb_spec (_position it) (-1)) as [E|_].
    + unfold table_deref, entry_at, zlookup in Hd. by rewrite E in Hd.
    + by rewrite Hd.
  - split; [done|]. rewrite (wt_size t Ht). constructor.
  - destruct (iterate_ok t Ht) as (l & -> & Hl). split; [done|]. by constructor.
Qed.

(** C1: a new table, whatever its hash function, probe ratio and starting capacity
    (not 0), behaves as a finite map whose [operator[]] inserts the default value:
    any sequence of assignments, reads, erasures, finds, size and iteration gives
    the results the map gives, the iteration listing its entries once each in some
    order, through collisions, tombstones and growth.  It may stop only when no
    room is found after growing, or memory runs out; then the contents are those of
    the map so far. *)
Theorem Table_refines_map capacity ratio t ops :
  0 < capacity -> Table_ctor capacity ratio = Ret t ->
  let '(t', l, e) := run_ops t ops in
  map_steps ∅ l (contents (_area t')) /\ l.*1 = take (length l) ops /\
  match e with None => l.*1 = ops | Some e => e ∈ table_errors end.
Proof.
  intros Hc Hctor.
  assert (wf_table t /\ contents (_area t) = ∅) as [Ht Hemp].
  { unfold Table_ctor in Hctor. destruct (Area_ctor_ok capacity ratio) as [E|(a & E & Ha & Hca & Hcap)]; [lia| |];
      rewrite E in Hctor; [done|]. injection Hctor as <-. split; [|done]. constructor; [done|cbn; lia|].
    cbn. rewrite Hca. by rewrite map_size_empty. }
  rewrite <-Hemp. clear Hctor Hemp Hc. revert t Ht.
  induction ops as [|o ops IH]; intros t Ht; cbn [run_ops]; [by split; [constructor|]|].
  pose proof (run_op_ok t o Ht) as H1. destruct (run_op t o) as [t1 [r|e]].
  - destruct H1 as [Ht1 Hs]. specialize (IH t1 Ht1). destruct (run_ops t1 ops) as [[t2 l] e].
    destruct IH as (Hss & Hl & He). split; [by econstructor|]. cbn. split; [by f_equal|].
    destruct e; [done|by f_equal].
  - destruct H1 as (_ & Hc & He). rewrite Hc. split; [constructor|]. by split.
Qed.
End table.

(** Strings to numbers, all with the same hash. *)
Lemma Table_refines_map_witness :
  let ratio := mkRatio 1 1 in
  exists t, Table_ctor (@nil char) 0 1024 4 ratio = Ret t /\
    let '(t', l, e) := run_ops (fun _ => 7) (@nil char) 0 1024 t
      [OpAssign (B "a") 1; OpAssign (B "b") 2; OpErase (B "a"); OpAssign (B "c") 3; OpFind (B "b"); OpIterate] in
    map_steps 0 ∅ l (contents (_area t')) /\ l.*2 =
      [OutDone; OutDone; OutErased 1; OutDone; OutFound (Some 2); OutList [(B "b", 2); (B "c", 3)]].
Proof.
  intros ratio. destruct (Table_ctor (@nil char) 0 1024 4 ratio) as [t|e] eqn:Et; [|discriminate Et].
  exists t. split; [reflexivity|].
  pose proof (Table_refines_map (fun _ => 7) (@nil char) 0 1024 ltac:(by vm_compute) 4 ratio t
    [OpAssign (B "a") 1; OpAssign (B "b") 2; OpErase (B "a"); OpAssign (B "c") 3; OpFind (B "b"); OpIterate]
    ltac:(done) Et) as H.
  injection Et as <-.
  destruct (run_ops _ _ _ _ _ _) as [[t' l] e] eqn:E. split; [apply H|]. clear H.
  vm_compute in E. injection E as _ <- _. reflexivity.
Defined.
