(* ===== verification/TimeSupport.v ===== *)
(** * Dates: util/time_support.cpp

    Printing a [Date_t] (milliseconds since 1970, unsigned 64 bits) in the
    ISO 8601 form and parsing that form back, and the backoff of a sleeper.
    [gmtime_r] and [timegm] are modelled for years from 1970 on; what depends on
    the zone database of the machine ([localtime_r], ["%z"]) is an argument. *)
From S2P Require Import Prelude StringData ParseNumber.
Local Open Scope Z_scope.

(** ** The calendar of the C library *)

Record tm := mkTm {
  tm_sec : Z; tm_min : Z; tm_hour : Z; tm_mday : Z; tm_mon : Z; tm_year : Z }.

Definition is_leap (y : Z) : bool :=
  (y mod 4 =? 0) && (negb (y mod 100 =? 0) || (y mod 400 =? 0)).
Definition year_length (y : Z) : Z := if is_leap y then 366 else 365.
Definition month_lengths (y : Z) : list Z :=
  [31; if is_leap y then 29 else 28; 31; 30; 31; 30; 31; 31; 30; 31; 30; 31].

(** Take whole years, then whole months, from a number of days. *)
Fixpoint year_loop (fuel : nat) (y days : Z) : Z * Z :=
  match fuel with
  | O => (y, days)
  | S fuel =>
      if days <? year_length y then (y, days) else year_loop fuel (y + 1) (days - year_length y)
  end.
Fixpoint month_loop (lengths : list Z) (m days : Z) : Z * Z :=
  match lengths with
  | [] => (m, days)
  | l :: lengths => if days <? l then (m, days) else month_loop lengths (m + 1) (days - l)
  end.
Definition gmtime (t : Z) : tm :=
  let days := t / 86400 in let secs := t mod 86400 in
  let '(y, days) := year_loop (Z.to_nat (days / 365 + 1)) 1970 days in
  let '(m, days) := month_loop (month_lengths y) 0 days in
  mkTm (secs mod 60) (secs / 60 mod 60) (secs / 3600) (days + 1) m (y - 1900).

Definition sumZ (l : list Z) : Z := foldr Z.add 0 l.
Definition days_before_year (y : Z) : Z :=
  sumZ ((fun i => year_length (1970 + Z.of_nat i)) <$> seq 0 (Z.to_nat (y - 1970))).
Definition timegm (b : tm) : Z :=
  let y := tm_year b + 1900 in
  (days_before_year y + sumZ (take (Z.to_nat (tm_mon b)) (month_lengths y)) + (tm_mday b - 1)) * 86400
  + tm_hour b * 3600 + tm_min b * 60 + tm_sec b.

(** ** Printing *)

(** The machine of the model has a [time_t] of 64 bits. *)
Definition sizeof_time_t : Z := 8.

Definition isFormatable (millis : Z) : bool :=
  if sizeof_time_t =? 4 then millis <? 2147483647000 else millis <? 32535215999000.
Lemma isFormatable_64 millis : isFormatable millis = (millis <? 32535215999000).
Proof. done. Qed.

Definition toTimeT (millis : Z) : M Z :=
  let signed := wrap int64 millis in
  verify (0 <=? signed);;
  verify (Z.quot signed 1000 <? int_max int64);;
  Ret (millis / 1000).

(** A number in the digits [strftime] and [snprintf] give it, for values of the
    fields' ranges. *)
Definition digit (k : Z) : char := chr (48 + k mod 10).
Definition pad2 (z : Z) : bytes := [digit (z / 10); digit z].
Definition pad3 (z : Z) : bytes := digit (z / 100) :: pad2 z.
Definition pad4 (z : Z) : bytes := digit (z / 1000) :: pad3 z.

(** [strftime] of the format without the zone, ["%Y-%m-%dT%H:%M:%S"]. *)
Definition strftime_iso (b : tm) : bytes :=
  pad4 (tm_year b + 1900) ++ "-"%char :: pad2 (tm_mon b + 1) ++ "-"%char :: pad2 (tm_mday b)
  ++ "T"%char :: pad2 (tm_hour b) ++ ":"%char :: pad2 (tm_min b) ++ ":"%char :: pad2 (tm_sec b).
Definition timeToISOString (time : Z) : M bytes :=
  let buf := strftime_iso (gmtime time) ++ B "Z" in
  guard_throw (zlen buf =? 20) (EFassert 16227);; Ret buf.

Definition _dateToISOString (localtime : Z -> tm) (strftime_z : tm -> bytes) (date : Z) (local : bool)
    : M bytes :=
  invariant (isFormatable date);;
  t ← toTimeT date;
  let b := if local then localtime t else gmtime t in
  let buf := strftime_iso b ++ "."%char :: pad3 (Z.rem (wrap int64 date) 1000) in
  Ret (buf ++ if local then take 5 (strftime_z b) else B "Z").
Definition dateToISOStringUTC (localtime : Z -> tm) (strftime_z : tm -> bytes) (date : Z) : M bytes :=
  _dateToISOString localtime strftime_z date false.
Definition dateToISOStringLocal (localtime : Z -> tm) (strftime_z : tm -> bytes) (date : Z) : M bytes :=
  _dateToISOString localtime strftime_z date true.

(** ** Parsing

    A [Status] that is returned is an exception [EStatus] here: every caller
    returns it at once. *)

Definition bad_value {A} (reason : bytes) : M A := Throw (EStatus (Err BadValue reason)).

Definition terminal (terminalChars : bytes) (c : char) : bool :=
  negb (StringData_find_char terminalChars c 0 =? npos).
Fixpoint scan (terminalChars s : bytes) : nat :=
  match s with
  | [] => O
  | c :: s => if terminal terminalChars c then O else S (scan terminalChars s)
  end.
Definition getNextToken (currentString terminalChars : bytes) (startIndex : Z) : M (bytes * Z) :=
  if startIndex =? npos then Ret ([], npos)
  else
    let index := startIndex + Z.of_nat (scan terminalChars (drop (Z.to_nat startIndex) currentString)) in
    let endIndex := if index <? zlen currentString then index else npos in
    tok ← StringData_substr currentString startIndex (index - startIndex);
    Ret (tok, endIndex).

Definition isOnlyDigits (toCheck : bytes) : bool :=
  forallb (fun c => negb (StringData_find_char (B "0123456789") c 0 =? npos)) toCheck.

Definition parse_int (s : bytes) : M Z :=
  match parseNumberFromStringWithBase int32 s 10 with
  | Ret z => Ret z
  | Throw (c, reason) => Throw (EStatus (Err c reason))
  end.

Definition tz_seconds (tzAdjHours tzAdjMinutes : Z) : Z :=
  -1 * ((if tzAdjHours <? 0 then -1 else 1) * (tzAdjMinutes * 60) + tzAdjHours * 60 * 60).
Definition parseTimeZoneFromToken (tzStr : bytes) : M Z :=
  match tzStr with
  | [] => bad_value (B "Missing required time zone specifier for date")
  | c :: _ =>
      if ceq c "Z"%char then
        if negb (zlen tzStr =? 1)
        then bad_value (B "Found trailing characters in time zone specifier:  " ++ tzStr) else Ret 0
      else if ceq c "+"%char || ceq c "-"%char then
        four ← (if zlen tzStr =? 5 then digits ← StringData_substr tzStr 1 4; Ret (isOnlyDigits digits)
                else Ret false);
        if negb four
        then bad_value (B "Time zone adjustment string should be four digits:  " ++ tzStr)
        else
          tzHoursStr ← StringData_substr tzStr 0 3;
          tzAdjHours ← parse_int tzHoursStr;
          if (tzAdjHours <? -23) || (23 <? tzAdjHours)
          then bad_value (B "Time zone hours adjustment out of range:  " ++ print_int tzAdjHours)
          else
            tzMinutesStr ← StringData_substr tzStr 3 2;
            tzAdjMinutes ← parse_int tzMinutesStr;
            if (tzAdjMinutes <? 0) || (59 <? tzAdjMinutes)
            then bad_value (B "Time zone minutes adjustment out of range:  " ++ print_int tzAdjMinutes)
            else
              let tzAdjSecs := tz_seconds tzAdjHours tzAdjMinutes in
              guard_throw ((-86400 <? tzAdjSecs) && (tzAdjSecs <? 86400)) (EFassert 17318);;
              Ret tzAdjSecs
      else
        bad_value (B "Invalid time zone string:  " ++ [chr 34] ++ tzStr ++ [chr 34] ++
          B ".  Found invalid character at the beginning of time " ++ B "zone specifier: " ++ [c])
  end.

Definition parseMillisFromToken (millisStr : bytes) : M Z :=
  match millisStr with
  | [] => Ret 0
  | _ =>
      if (3 <? zlen millisStr) || negb (isOnlyDigits millisStr)
      then bad_value (B "Millisecond string should be at most three digits:  " ++ millisStr)
      else
        resultMillis ← parse_int millisStr;
        let millisMagnitude :=
          if zlen millisStr =? 2 then 10 else if zlen millisStr =? 1 then 100 else 1 in
        let resultMillis := resultMillis * millisMagnitude in
        if (resultMillis <? 0) || (1000 <? resultMillis)
        then bad_value (B "Millisecond out of range:  " ++ print_int resultMillis)
        else Ret resultMillis
  end.

(** The check and the conversion of one field: its number of digits, its
    limits, and its two messages. *)
Definition parse_field (digitsMsg rangeMsg : bytes) (size lo hi : Z) (str : bytes) : M Z :=
  if negb (zlen str =? size) || negb (isOnlyDigits str) then bad_value (digitsMsg ++ str)
  else
    z ← parse_int str;
    if (z <? lo) || (hi <? z) then bad_value (rangeMsg ++ print_int z) else Ret z.

Definition parseTmFromTokens (yearStr monthStr dayStr hourStr minStr secStr : bytes) : M tm :=
  year ← parse_field (B "Year string should be four digits:  ") (B "Year out of range:  ")
    4 1970 9999 yearStr;
  mon ← parse_field (B "Month string should be two digits:  ") (B "Month out of range:  ")
    2 1 12 monthStr;
  mday ← parse_field (B "Day string should be two digits:  ") (B "Day out of range:  ") 2 1 31 dayStr;
  hour ← parse_field (B "Hour string should be two digits:  ") (B "Hour out of range:  ")
    2 0 23 hourStr;
  min ← parse_field (B "Minute string should be two digits:  ") (B "Minute out of range:  ")
    2 0 59 minStr;
  sec ← (if StringData_empty secStr then Ret 0
         else parse_field (B "Second string should be two digits:  ") (B "Second out of range:  ")
           2 0 59 secStr);
  Ret (mkTm sec min hour mday (mon - 1) (year - 1900)).

(** [end] plus one, as a [size_t]. *)
Definition after (endIndex : Z) : Z := size_wrap (endIndex + 1).
Definition ends_with_msg (dateString : bytes) (c : char) : bytes :=
  B "Invalid date:  " ++ dateString ++ B ".  Ends with " ++ [chr 34; c; chr 34] ++ B " character".
Definition missing_seconds (dateString : bytes) : bytes := B "Missing seconds in date: " ++ dateString.

(** The character at the end of a token, if there is one. *)
Definition char_at_end (dateString : bytes) (endIndex : Z) : option char :=
  if endIndex =? npos then None else zlookup dateString endIndex.
Definition ended_by (dateString : bytes) (endIndex : Z) (c : char) : bool :=
  bool_decide (char_at_end dateString endIndex = Some c).
Definition ended_not_by (dateString : bytes) (endIndex : Z) (c : char) : bool :=
  match char_at_end dateString endIndex with Some x => negb (ceq x c) | None => false end.

Definition parseTm (dateString : bytes) : M (tm * Z * Z) :=
  '(yearStr, yearEnd) ← getNextToken dateString (B "-") 0;
  '(monthStr, monthEnd) ← getNextToken dateString (B "-") (after yearEnd);
  '(dayStr, dayEnd) ← getNextToken dateString (B "T") (after monthEnd);
  '(hourStr, hourEnd) ← getNextToken dateString (B ":") (after dayEnd);
  '(minStr, minEnd) ← getNextToken dateString (B ":+-Z") (after hourEnd);
  '(secStr, secEnd) ← (
    if ended_by dateString minEnd ":"%char then
      if minEnd =? zlen dateString - 1 then bad_value (ends_with_msg dateString ":"%char)
      else
        '(secStr, secEnd) ← getNextToken dateString (B ".+-Z") (after minEnd);
        if StringData_empty secStr then bad_value (missing_seconds dateString)
        else Ret (secStr, secEnd)
    else Ret ([], npos));
  '(millisStr, millisEnd) ← (
    if ended_by dateString secEnd "."%char then
      if secEnd =? zlen dateString - 1 then bad_value (ends_with_msg dateString "."%char)
      else
        '(millisStr, millisEnd) ← getNextToken dateString (B "+-Z") (after secEnd);
        if StringData_empty millisStr then bad_value (missing_seconds dateString)
        else Ret (millisStr, millisEnd)
    else Ret ([], npos));
  '(tzStr, _) ← (
    if negb (millisEnd =? npos) then getNextToken dateString [] millisEnd
    else if ended_not_by dateString secEnd "."%char then getNextToken dateString [] secEnd
    else if ended_not_by dateString minEnd ":"%char then getNextToken dateString [] minEnd
    else Ret ([], npos));
  theTime ← parseTmFromTokens yearStr monthStr dayStr hourStr minStr secStr;
  tzAdjSecs ← parseTimeZoneFromToken tzStr;
  millis ← parseMillisFromToken millisStr;
  Ret (theTime, millis, tzAdjSecs).

(** Every failure is reported as [BadValue], with the reason found. *)
Definition dateFromISOString (dateString : bytes) : M (StatusWith Z) :=
  match parseTm dateString with
  | Ret (theTime, millis, tzAdjSecs) =>
      let resultMillis := wrap uint64 (1000 * wrap uint64 (timegm theTime) + millis) in
      Ret (Ret (wrap uint64 (resultMillis + tzAdjSecs * 1000)))
  | Throw (EStatus (Err _ reason)) => Ret (Throw (BadValue, reason))
  | Throw e => Throw e
  end.

(** ** Backoff *)

Record Backoff := mkBackoff {
  _maxSleepMillis : Z; _resetAfterMillis : Z; _lastSleepMillis : Z; _lastErrorTimeMillis : Z }.
Definition Backoff_ctor (maxSleepMillis resetAfter : Z) : M Backoff :=
  if in_range_dec int32 (maxSleepMillis + resetAfter)
  then Ret (mkBackoff maxSleepMillis (maxSleepMillis + resetAfter) 0 0) else Throw EUndefined.
Definition getNextSleepMillis (b : Backoff) (lastSleepMillis currTimeMillis lastErrorTimeMillis : Z)
    : M Z :=
  let timeSinceLastErrorMillis := wrap uint64 (currTimeMillis - lastErrorTimeMillis) in
  verify (0 <=? _resetAfterMillis b);;
  let lastSleepMillis :=
    if _resetAfterMillis b <? timeSinceLastErrorMillis then 0 else lastSleepMillis in
  verify (0 <? _maxSleepMillis b);;
  if lastSleepMillis =? 0 then Ret 1
  else if in_range_dec int32 (lastSleepMillis * 2)
       then Ret (Z.min (lastSleepMillis * 2) (_maxSleepMillis b)) else Throw EUndefined.
(** [nextSleepMillis], the sleep left out: the new state and how long it sleeps. *)
Definition nextSleepMillis (b : Backoff) (currTimeMillis : Z) : M (Backoff * Z) :=
  let lastError :=
    if (_lastErrorTimeMillis b =? 0) || (currTimeMillis <? _lastErrorTimeMillis b)
    then currTimeMillis else _lastErrorTimeMillis b in
  s ← getNextSleepMillis b (_lastSleepMillis b) currTimeMillis lastError;
  Ret (mkBackoff (_maxSleepMillis b) (_resetAfterMillis b) s currTimeMillis, s).

(** ** The calendar: [timegm] undoes [gmtime] *)

Lemma year_length_range y : 365 <= year_length y <= 366.
Proof. unfold year_length. destruct (is_leap y); lia. Qed.

Lemma sumZ_app a b : sumZ (a ++ b) = sumZ a + sumZ b.
Proof. induction a as [|x a IH]; [done|]. cbn [app sumZ foldr] in *. unfold sumZ in *. lia. Qed.

Lemma days_before_next y :
  1970 <= y -> days_before_year (y + 1) = days_before_year y + year_length y.
Proof.
  intros Hy. unfold days_before_year. replace (Z.to_nat (y + 1 - 1970)) with (S (Z.to_nat (y - 1970)))
    by lia. rewrite seq_S, fmap_app, sumZ_app. cbn [fmap list_fmap sumZ foldr].
  replace (1970 + Z.of_nat (0 + Z.to_nat (y - 1970))) with y by lia. unfold sumZ. lia.
Qed.

Lemma year_loop_spec fuel y days :
  1970 <= y -> 0 <= days < 365 * Z.of_nat fuel ->
  exists y' r, year_loop fuel y days = (y', r) /\ y <= y' /\ 365 * (y' - y) <= days /\
    0 <= r < year_length y' /\ days_before_year y' + r = days_before_year y + days.
Proof.
  revert y days. induction fuel as [|fuel IH]; intros y days Hy Hd; [lia|]. cbn [year_loop].
  pose proof (year_length_range y).
  destruct (Z.ltb_spec days (year_length y)).
  - exists y, days. split_and!; lia || done.
  - destruct (IH (y + 1) (days - year_length y)) as (y' & r & E & ? & ? & ? & Hs); [lia|lia|].
    exists y', r. rewrite days_before_next in Hs by lia. split_and!; done || lia.
Qed.

Lemma month_loop_spec lengths m days :
  0 <= days < sumZ lengths ->
  exists k r, month_loop lengths m days = (m + Z.of_nat k, r) /\
    (exists l, lengths !! k = Some l /\ 0 <= r < l) /\ sumZ (take k lengths) + r = days.
Proof.
  revert m days. induction lengths as [|l lengths IH]; intros m days Hd; [cbn in Hd; lia|].
  cbn [month_loop]. destruct (Z.ltb_spec days l).
  - exists 0%nat, days. split_and!; [f_equal; lia| |cbn; lia]. exists l. split; [done|lia].
  - destruct (IH (m + 1) (days - l)) as (k & r & E & (l' & Hl & Hr) & Hs).
    { cbn [sumZ foldr] in Hd. fold (sumZ lengths) in Hd. lia. }
    exists (S k), r. split_and!; [rewrite E; f_equal; lia|by exists l'|].
    cbn [take sumZ foldr]. fold (sumZ (take k lengths)). lia.
Qed.

Lemma month_lengths_sum y : sumZ (month_lengths y) = year_length y.
Proof. unfold month_lengths, year_length. by destruct (is_leap y). Qed.
Lemma month_lengths_31 y k l : month_lengths y !! k = Some l -> l <= 31 /\ (k < 12)%nat.
Proof.
  intros H. split; [|by apply lookup_lt_Some in H].
  assert (Forall (fun l => l <= 31) (month_lengths y)) as Hall.
  { unfold month_lengths. destruct (is_leap y); repeat constructor; lia. }
  rewrite Forall_lookup in Hall. by apply (Hall k).
Qed.

(** What [gmtime] answers: fields within their limits, and the time again. *)
Lemma gmtime_spec t :
  0 <= t < 32535216000 ->
  let b := gmtime t in
  timegm b = t /\ 1970 <= tm_year b + 1900 < 3002 /\ 0 <= tm_mon b < 12 /\
  1 <= tm_mday b <= 31 /\ 0 <= tm_hour b < 24 /\ 0 <= tm_min b < 60 /\ 0 <= tm_sec b < 60.
Proof.
  intros Ht b. unfold b, gmtime.
  assert (0 <= t / 86400 <= 376565) as Hdays.
  { split; [apply Z.div_pos; lia|]. apply Z.lt_succ_r, Z.div_lt_upper_bound; lia. }
  pose proof (Z.div_mod t 86400 ltac:(lia)) as Hdm.
  pose proof (Z.mod_pos_bound t 86400 ltac:(lia)) as Hsecs.
  set (days := t / 86400) in *. set (secs := t mod 86400) in *. clearbody days secs.
  destruct (year_loop_spec (Z.to_nat (days / 365 + 1)) 1970 days) as (y & r & -> & Hy & Hb & Hr & Hs).
  { lia. }
  { pose proof (Z.div_mod days 365 ltac:(lia)). pose proof (Z.mod_pos_bound days 365 ltac:(lia)).
    assert (0 <= days / 365) by (apply Z.div_pos; lia). lia. }
  change (days_before_year 1970) with 0 in Hs.
  destruct (month_loop_spec (month_lengths y) 0 r) as (k & d & -> & (l & Hl & Hd) & Hm).
  { by rewrite month_lengths_sum. }
  apply month_lengths_31 in Hl as [Hl Hk]. cbn [tm_year tm_mon tm_mday tm_hour tm_min tm_sec].
  pose proof (Z.div_mod secs 60 ltac:(lia)) as D1. pose proof (Z.mod_pos_bound secs 60 ltac:(lia)).
  pose proof (Z.div_mod (secs / 60) 60 ltac:(lia)) as D2.
  pose proof (Z.mod_pos_bound (secs / 60) 60 ltac:(lia)).
  assert (secs / 60 / 60 = secs / 3600) as D3 by (by rewrite Z.div_div).
  assert (0 <= secs / 3600 < 24) by (split; [apply Z.div_pos; lia|apply Z.div_lt_upper_bound; lia]).
  split_and!; try lia.
  unfold timegm. cbn [tm_year tm_mon tm_mday tm_hour tm_min tm_sec].
  replace (y - 1900 + 1900) with y by lia. replace (Z.to_nat (0 + Z.of_nat k)) with k by lia.
  lia.
Qed.

(** ** Digits *)

Lemma digit_check (P : char -> bool) k :
  forallb (fun i => P (chr (48 + Z.of_nat i))) (seq 0 10) = true -> P (digit k) = true.
Proof.
  intros H. pose proof (Z.mod_pos_bound k 10 ltac:(lia)). unfold digit.
  rewrite forallb_forall in H. specialize (H (Z.to_nat (k mod 10))).
  rewrite Z2Nat.id in H by lia. apply H, in_seq. lia.
Qed.

Lemma digit_not_terminal terms k :
  forallb (fun i => negb (terminal terms (chr (48 + Z.of_nat i)))) (seq 0 10) = true ->
  terminal terms (digit k) = false.
Proof.
  intros H. apply negb_true_iff. by apply (digit_check (fun c => negb (terminal terms c))).
Qed.

(** The printed numbers parse back. *)
Lemma parse_range (print : Z -> bytes) n z :
  forallb (fun i => bool_decide (parse_int (print (Z.of_nat i)) = Ret (Z.of_nat i))
                    && isOnlyDigits (print (Z.of_nat i))) (seq 0 n) = true ->
  0 <= z < Z.of_nat n -> parse_int (print z) = Ret z /\ isOnlyDigits (print z) = true.
Proof.
  intros H Hz. rewrite forallb_forall in H. specialize (H (Z.to_nat z) ltac:(apply in_seq; lia)).
  rewrite Z2Nat.id in H by lia. apply andb_prop in H as [H1 H2]. split; [|done].
  by apply bool_decide_eq_true_1 in H1.
Qed.
Lemma parse_pad2 z : 0 <= z < 100 -> parse_int (pad2 z) = Ret z /\ isOnlyDigits (pad2 z) = true.
Proof. apply (parse_range pad2 100). by vm_compute. Qed.
Lemma parse_pad3 z : 0 <= z < 1000 -> parse_int (pad3 z) = Ret z /\ isOnlyDigits (pad3 z) = true.
Proof. apply (parse_range pad3 1000). by vm_compute. Qed.
Lemma parse_pad4 z : 0 <= z < 3002 -> parse_int (pad4 z) = Ret z /\ isOnlyDigits (pad4 z) = true.
Proof. apply (parse_range pad4 (Z.to_nat 3002)). by vm_compute. Qed.

(** ** Tokens *)

Lemma scan_app terms tok c post :
  Forall (fun x => terminal terms x = false) tok -> terminal terms c = true ->
  scan terms (tok ++ c :: post) = length tok.
Proof.
  intros Ht Hc. induction Ht as [|x tok Hx Ht IH]; cbn; [by rewrite Hc|]. by rewrite Hx, IH.
Qed.
Lemma scan_all terms tok : Forall (fun x => terminal terms x = false) tok -> scan terms tok = length tok.
Proof. induction 1 as [|x tok Hx Ht IH]; [done|]. cbn. by rewrite Hx, IH. Qed.

(** A token that ends at a terminal character. *)
Lemma getNextToken_ended cs terms i tok c post :
  0 <= i -> zlen cs < npos -> drop (Z.to_nat i) cs = tok ++ c :: post ->
  Forall (fun x => terminal terms x = false) tok -> terminal terms c = true ->
  getNextToken cs terms i = Ret (tok, i + zlen tok).
Proof.
  intros Hi Hs Hd Ht Hc. unfold getNextToken.
  assert (zlen cs = i + zlen tok + 1 + zlen post) as Hl.
  { assert (i <= zlen cs) as Hle.
    { apply Z.nlt_ge. intros Hlt. rewrite drop_ge in Hd by (unfold zlen in Hlt; lia).
      by destruct tok. }
    apply (f_equal length) in Hd. rewrite length_drop, length_app in Hd. cbn [length] in Hd.
    unfold zlen in *. lia. }
  pose proof (zlen_nonneg tok). pose proof (zlen_nonneg post).
  replace (i =? npos) with false by lia. rewrite Hd, scan_app by done. fold (zlen tok).
  replace (i + zlen tok <? zlen cs) with true by lia.
  unfold StringData_substr, StringData_size. replace (i >? zlen cs) with false by lia.
  replace (i + zlen tok - i >? zlen cs - i) with false by lia. cbn [mbind result_bind].
  rewrite Hd. replace (i + zlen tok - i) with (zlen tok) by lia.
  unfold zlen at 1. rewrite Nat2Z.id. by rewrite take_app_length.
Qed.
(** A token that runs to the end. *)
Lemma getNextToken_rest cs terms i tok :
  0 <= i <= zlen cs -> zlen cs < npos -> drop (Z.to_nat i) cs = tok ->
  Forall (fun x => terminal terms x = false) tok ->
  getNextToken cs terms i = Ret (tok, npos).
Proof.
  intros Hi Hs Hd Ht. unfold getNextToken. replace (i =? npos) with false by lia.
  assert (zlen tok = zlen cs - i) as Hl.
  { rewrite <-Hd. unfold zlen in *. rewrite length_drop. lia. }
  rewrite Hd, scan_all by done. fold (zlen tok).
  replace (i + zlen tok <? zlen cs) with false by lia.
  unfold StringData_substr, StringData_size. replace (i >? zlen cs) with false by lia.
  replace (i + zlen tok - i >? zlen cs - i) with false by lia. cbn [mbind result_bind].
  rewrite Hd. replace (i + zlen tok - i) with (zlen tok) by lia.
  unfold zlen at 1. rewrite Nat2Z.id. by rewrite firstn_all.
Qed.
Lemma terminal_none c : terminal [] c = false.
Proof. done. Qed.

Lemma parse_field_ok m1 m2 size lo hi str z :
  parse_int str = Ret z -> isOnlyDigits str = true -> zlen str = size -> lo <= z <= hi ->
  parse_field m1 m2 size lo hi str = Ret z.
Proof.
  intros Hp Hd <- Hr. unfold parse_field. rewrite Z.eqb_refl, Hd, Hp. cbn [negb orb mbind result_bind].
  by replace ((z <? lo) || (hi <? z)) with false by lia.
Qed.

(** The string of a date, in front of its zone. *)
Definition iso_string (b : tm) (millis : Z) (tz : bytes) : bytes :=
  strftime_iso b ++ "."%char :: pad3 millis ++ tz.
Definition wf_tm (b : tm) : Prop :=
  1970 <= tm_year b + 1900 < 3002 /\ 0 <= tm_mon b < 12 /\ 1 <= tm_mday b <= 31 /\
  0 <= tm_hour b < 24 /\ 0 <= tm_min b < 60 /\ 0 <= tm_sec b < 60.

Ltac digits := repeat (apply Forall_cons_2; [by apply digit_not_terminal; vm_compute|]); apply Forall_nil_2.

Lemma parseTm_iso b millis c rest :
  wf_tm b -> 0 <= millis < 1000 -> terminal (B "+-Z") c = true -> zlen rest < 100 ->
  parseTm (iso_string b millis (c :: rest))
    = (tz ← parseTimeZoneFromToken (c :: rest); Ret (b, millis, tz)).
Proof.
  intros (Hy & Hmo & Hd & Hh & Hmi & Hs) Hms Hc Hrest.
  set (cs := iso_string b millis (c :: rest)).
  assert (zlen cs = 24 + zlen rest) as Hlen.
  { unfold cs, iso_string, strftime_iso. autorewrite with mongo.
    change (zlen (pad3 millis)) with 3. change (zlen (pad4 (tm_year b + 1900))) with 4.
    unfold pad2. autorewrite with mongo. change (zlen (@nil char)) with 0. lia. }
  assert (zlen cs < npos) as Hsz by (assert (1000 < npos) by done; lia).
  pose proof (zlen_nonneg rest). unfold parseTm.
  rewrite (getNextToken_ended cs (B "-") 0 (pad4 (tm_year b + 1900)) "-"%char
    (drop 5 cs)) by (done || digits).
  cbn [mbind result_bind].
  change (after (0 + zlen (pad4 (tm_year b + 1900)))) with 5.
  rewrite (getNextToken_ended cs (B "-") 5 (pad2 (tm_mon b + 1)) "-"%char (drop 8 cs))
    by (done || digits).
  cbn [mbind result_bind]. change (after (5 + zlen (pad2 (tm_mon b + 1)))) with 8.
  rewrite (getNextToken_ended cs (B "T") 8 (pad2 (tm_mday b)) "T"%char (drop 11 cs))
    by (done || digits).
  cbn [mbind result_bind]. change (after (8 + zlen (pad2 (tm_mday b)))) with 11.
  rewrite (getNextToken_ended cs (B ":") 11 (pad2 (tm_hour b)) ":"%char (drop 14 cs))
    by (done || digits).
  cbn [mbind result_bind]. change (after (11 + zlen (pad2 (tm_hour b)))) with 14.
  rewrite (getNextToken_ended cs (B ":+-Z") 14 (pad2 (tm_min b)) ":"%char (drop 17 cs))
    by (done || digits).
  cbn [mbind result_bind]. change (14 + zlen (pad2 (tm_min b))) with 16.
  change (ended_by cs 16 ":"%char) with true. cbn iota.
  replace (16 =? zlen cs - 1) with false by lia. change (after 16) with 17.
  rewrite (getNextToken_ended cs (B ".+-Z") 17 (pad2 (tm_sec b)) "."%char (drop 20 cs))
    by (done || digits).
  cbn [mbind result_bind]. change (17 + zlen (pad2 (tm_sec b))) with 19.
  change (StringData_empty (pad2 (tm_sec b))) with false. cbn [mbind result_bind].
  change (ended_by cs 19 "."%char) with true. cbn iota.
  replace (19 =? zlen cs - 1) with false by lia. change (after 19) with 20.
  rewrite (getNextToken_ended cs (B "+-Z") 20 (pad3 millis) c rest) by (done || digits).
  cbn [mbind result_bind]. change (20 + zlen (pad3 millis)) with 23.
  change (StringData_empty (pad3 millis)) with false. cbn [mbind result_bind].
  change (negb (23 =? npos)) with true. cbn iota.
  rewrite (getNextToken_rest cs [] 23 (c :: rest)); [|lia|done|done|].
  2: { apply Forall_forall. intros. apply terminal_none. }
  cbn [mbind result_bind].
  unfold parseTmFromTokens.
  destruct (parse_pad4 (tm_year b + 1900)) as [Py Dy]; [lia|].
  destruct (parse_pad2 (tm_mon b + 1)) as [Pmo Dmo]; [lia|].
  destruct (parse_pad2 (tm_mday b)) as [Pd Dd]; [lia|].
  destruct (parse_pad2 (tm_hour b)) as [Ph Dh]; [lia|].
  destruct (parse_pad2 (tm_min b)) as [Pmi Dmi]; [lia|].
  destruct (parse_pad2 (tm_sec b)) as [Ps Ds]; [lia|].
  destruct (parse_pad3 millis) as [Pms Dms]; [lia|].
  change (StringData_empty (pad2 (tm_sec b))) with false. cbn iota.
  rewrite (parse_field_ok _ _ 4 1970 9999 _ _ Py Dy eq_refl) by lia. cbn [mbind result_bind].
  rewrite (parse_field_ok _ _ 2 1 12 _ _ Pmo Dmo eq_refl) by lia. cbn [mbind result_bind].
  rewrite (parse_field_ok _ _ 2 1 31 _ _ Pd Dd eq_refl) by lia. cbn [mbind result_bind].
  rewrite (parse_field_ok _ _ 2 0 23 _ _ Ph Dh eq_refl) by lia. cbn [mbind result_bind].
  rewrite (parse_field_ok _ _ 2 0 59 _ _ Pmi Dmi eq_refl) by lia. cbn [mbind result_bind].
  rewrite (parse_field_ok _ _ 2 0 59 _ _ Ps Ds eq_refl) by lia. cbn [mbind result_bind].
  replace (mkTm _ _ _ _ _ _) with b by (destruct b; cbn; f_equal; lia).
  destruct (parseTimeZoneFromToken (c :: rest)) as [tz|e]; [|done]. cbn [mbind result_bind].
  unfold parseMillisFromToken.
  change (pad3 millis) with (digit (millis / 100) :: pad2 millis) at 1. cbn iota.
  rewrite Dms, Pms. change (3 <? zlen (pad3 millis)) with false. cbn [negb orb mbind result_bind].
  change (zlen (pad3 millis) =? 2) with false. change (zlen (pad3 millis) =? 1) with false. cbn iota.
  rewrite Z.mul_1_r. by replace ((millis <? 0) || (1000 <? millis)) with false by lia.
Qed.

(** ** Zones *)

(** The zone [+hhmm] or [-hhmm]. *)
Definition zone (west : bool) (h m : Z) : bytes :=
  (if west then "-"%char else "+"%char) :: pad2 h ++ pad2 m.

Lemma parse_zone (west : bool) h m :
  0 <= h < 24 -> 0 <= m < 60 ->
  parseTimeZoneFromToken (zone west h m) = Ret (tz_seconds (if west then - h else h) m).
Proof.
  intros Hh Hm.
  assert (parse_int ((if west then "-"%char else "+"%char) :: pad2 h)
    = Ret (if west then - h else h)) as Ph.
  { assert (forallb (fun i =>
        bool_decide (parse_int ("-"%char :: pad2 (Z.of_nat i)) = Ret (- Z.of_nat i)) &&
        bool_decide (parse_int ("+"%char :: pad2 (Z.of_nat i)) = Ret (Z.of_nat i)))
      (seq 0 24) = true) as Hall by (by vm_compute).
    rewrite forallb_forall in Hall. specialize (Hall (Z.to_nat h) ltac:(apply in_seq; lia)).
    rewrite Z2Nat.id in Hall by lia. apply andb_prop in Hall as [H1 H2].
    apply bool_decide_eq_true_1 in H1. apply bool_decide_eq_true_1 in H2. by destruct west. }
  destruct (parse_pad2 h) as [_ Dh]; [lia|]. destruct (parse_pad2 m) as [Pm Dm]; [lia|].
  assert (isOnlyDigits (pad2 h ++ pad2 m) = true) as Dhm.
  { unfold isOnlyDigits in *. by rewrite forallb_app, Dh, Dm. }
  unfold parseTimeZoneFromToken, zone.
  set (c := if west then "-"%char else "+"%char).
  assert (ceq c "Z"%char = false) as -> by (by destruct west).
  assert (ceq c "+"%char || ceq c "-"%char = true) as -> by (by destruct west).
  change (zlen (c :: pad2 h ++ pad2 m) =? 5) with true. cbn iota.
  change (StringData_substr (c :: pad2 h ++ pad2 m) 1 4) with (Ret (pad2 h ++ pad2 m) : M bytes).
  change (StringData_substr (c :: pad2 h ++ pad2 m) 0 3) with (Ret (c :: pad2 h) : M bytes).
  change (StringData_substr (c :: pad2 h ++ pad2 m) 3 2) with (Ret (pad2 m) : M bytes).
  cbn [mbind result_bind]. rewrite Dhm. cbn [negb]. unfold c. rewrite Ph. cbn [mbind result_bind].
  set (ah := if west then - h else h). assert (-23 <= ah <= 23) by (unfold ah; destruct west; lia).
  replace ((ah <? -23) || (23 <? ah)) with false by lia. rewrite Pm. cbn [mbind result_bind].
  replace ((m <? 0) || (59 <? m)) with false by lia.
  replace ((-86400 <? tz_seconds ah m) && (tz_seconds ah m <? 86400)) with true; [done|].
  unfold tz_seconds. destruct (ah <? 0) eqn:E; lia.
Qed.

(** ** Date to string *)

Lemma dateToISOStringUTC_iso lt sz date :
  0 <= date < 32535215999000 ->
  dateToISOStringUTC lt sz date
    = Ret (iso_string (gmtime (date / 1000)) (date mod 1000) (B "Z")) /\
  wf_tm (gmtime (date / 1000)) /\ timegm (gmtime (date / 1000)) = date / 1000 /\
  0 <= date mod 1000 < 1000.
Proof.
  intros Hd. pose proof (Z.mod_pos_bound date 1000 ltac:(lia)).
  assert (0 <= date / 1000 < 32535216000) as Ht.
  { split; [apply Z.div_pos; lia|apply Z.div_lt_upper_bound; lia]. }
  destruct (gmtime_spec (date / 1000) Ht) as (Hg & Hf).
  split_and!; [|exact Hf|done|lia|lia].
  assert (wrap int64 date = date) as Hw.
  { apply wrap_id; [done|]. unfold in_range. cbn. lia. }
  unfold dateToISOStringUTC, _dateToISOString, toTimeT. rewrite isFormatable_64.
  replace (date <? 32535215999000) with true by lia. cbn [invariant guard_throw mbind result_bind].
  rewrite Hw. replace (0 <=? date) with true by lia. cbn [verify guard_throw mbind result_bind].
  rewrite Z.quot_div_nonneg, Z.rem_mod_nonneg by lia.
  assert (date / 1000 <? int_max int64 = true) as ->.
  { change (int_max int64) with 9223372036854775807. lia. }
  cbn [verify guard_throw mbind result_bind].
  unfold iso_string. by rewrite <-app_assoc.
Qed.

Lemma dateFromISOString_iso b millis c rest tz :
  wf_tm b -> 0 <= millis < 1000 -> terminal (B "+-Z") c = true -> zlen rest < 100 ->
  parseTimeZoneFromToken (c :: rest) = Ret tz ->
  0 <= 1000 * timegm b + millis < 2 ^ 60 -> 0 <= 1000 * timegm b + millis + tz * 1000 < 2 ^ 60 ->
  dateFromISOString (iso_string b millis (c :: rest))
    = Ret (Ret (1000 * timegm b + millis + tz * 1000)).
Proof.
  intros Hb Hm Hc Hr Hz H1 H2. unfold dateFromISOString.
  rewrite parseTm_iso, Hz by done. cbn [mbind result_bind].
  assert (forall z, 0 <= z < 2 ^ 60 -> wrap uint64 z = z) as Hw.
  { intros z Hz0. apply wrap_id; [done|]. unfold in_range. cbn. lia. }
  rewrite (Hw (timegm b)) by lia. rewrite (Hw (1000 * timegm b + millis)) by lia.
  by rewrite Hw by lia.
Qed.

(** [-00mm] is read as [+00mm]: the hours parse to zero and lose the sign. *)
Lemma negative_half_hour m :
  0 <= m < 60 -> parseTimeZoneFromToken (zone true 0 m) = parseTimeZoneFromToken (zone false 0 m).
Proof. intros. by rewrite !parse_zone by lia. Qed.

(** The form with a colon in the zone, which the header shows, is refused. *)
Lemma zone_with_colon_refused :
  exists reason, dateFromISOString (B "2013-07-23T18:42:14.072-05:00") = Ret (Throw (BadValue, reason)).
Proof. eexists. vm_compute. reflexivity. Qed.

(** ** Properties *)

(** C33: dates and ISO 8601 strings.  Every date that can be formatted is printed
    in 24 characters and parsed back to itself; and with any zone in place of
    the [Z] (save those west of Greenwich by less than an hour) the same clock
    is parsed to the date that many hours and minutes earlier or later. *)
Theorem dateFromISOString_roundtrip localtime strftime_z date :
  0 <= date < 32535215999000 ->
  isFormatable date = true /\
  exists s, dateToISOStringUTC localtime strftime_z date = Ret (s ++ B "Z") /\ zlen s = 23 /\
    dateFromISOString (s ++ B "Z") = Ret (Ret date) /\
    forall (west : bool) h m, 0 <= h < 24 -> 0 <= m < 60 -> (west = true -> h <> 0) ->
      let offset := (if west then -1 else 1) * (h * 3600 + m * 60) * 1000 in
      0 <= date - offset ->
      dateFromISOString (s ++ zone west h m) = Ret (Ret (date - offset)).
Proof.
  intros Hd. split; [rewrite isFormatable_64; lia|].
  destruct (dateToISOStringUTC_iso localtime strftime_z date Hd) as (Hp & Hb & Hg & Hm).
  set (b := gmtime (date / 1000)) in *. set (ms := date mod 1000) in *.
  assert (1000 * timegm b + ms = date) as Hdate.
  { rewrite Hg. unfold ms. pose proof (Z.div_mod date 1000 ltac:(lia)). lia. }
  exists (strftime_iso b ++ "."%char :: pad3 ms).
  assert (forall tz, (strftime_iso b ++ "."%char :: pad3 ms) ++ tz = iso_string b ms tz) as He.
  { intros tz. unfold iso_string. by rewrite <-app_assoc. }
  rewrite He. split_and!; [done|done| |].
  - change (B "Z") with ["Z"%char].
    rewrite (dateFromISOString_iso b ms "Z"%char [] 0) by (done || lia). do 2 f_equal. lia.
  - intros west h m Hh Hmi Hw offset Ho. rewrite He. unfold zone.
    rewrite (dateFromISOString_iso b ms _ _ (tz_seconds (if west then - h else h) m)).
    + do 2 f_equal. rewrite Hdate. unfold offset, tz_seconds. destruct west.
      * specialize (Hw eq_refl). replace (- h <? 0) with true by lia. lia.
      * replace (h <? 0) with false by lia. lia.
    + done.
    + done.
    + by destruct west.
    + done.
    + by apply parse_zone.
    + rewrite Hdate. lia.
    + rewrite Hdate. unfold offset, tz_seconds in *. destruct west.
      * specialize (Hw eq_refl). replace (- h <? 0) with true by lia. lia.
      * replace (h <? 0) with false by lia. lia.
Qed.

(** The sample date of the header, and the same clock five hours to the west. *)
Lemma dateFromISOString_roundtrip_witness :
  dateFromISOString (B "2013-07-23T18:42:14.072Z") = Ret (Ret 1374604934072) /\
  dateFromISOString (B "2013-07-23T18:42:14.072-0500") = Ret (Ret 1374622934072).
Proof.
  assert (0 <= 1374604934072 < 32535215999000) as Hd by lia.
  destruct (dateFromISOString_roundtrip (fun _ => gmtime 0) (fun _ => []) 1374604934072 Hd)
    as (_ & s & Hp & Hl & Hz & Hw).
  assert (dateToISOStringUTC (fun _ => gmtime 0) (fun _ => []) 1374604934072
    = Ret (B "2013-07-23T18:42:14.072" ++ B "Z")) as Hp' by (by vm_compute).
  assert (B "2013-07-23T18:42:14.072" = s) as <-.
  { apply (app_inv_tail (B "Z")). congruence. }
  split; [exact Hz|].
  specialize (Hw true 5 0 ltac:(lia) ltac:(lia) ltac:(lia) ltac:(lia)). exact Hw.
Defined.
