(* ===== verification/CLib.v ===== *)
(** * What the driver uses of the C library

    [isspace], [isxdigit], the number scanners [strtol], [strtoll], [strtoul],
    [strtoull] (base 10) and [strtod], and the printing of a [double] by a stream
    of precision 16 ([printf]'s ["%.16g"]).  A [char*] into a C string is the
    list of the bytes before its terminator; a scanner answers with the value,
    the suffix [endptr] points at, and whether it set [errno] to [ERANGE].  No
    definition of this file models code of the repository. *)
From S2P Require Import Prelude StringData ParseNumber BsonTypes.
Local Open Scope Z_scope.

Definition isspace (c : char) : bool := ((9 <=? uchar c) && (uchar c <=? 13)) || (uchar c =? 32).
Definition isxdigit (c : char) : bool :=
  isdigit c || ((97 <=? uchar c) && (uchar c <=? 102)) || ((65 <=? uchar c) && (uchar c <=? 70)).

Fixpoint skip_space (s : bytes) : bytes :=
  match s with c :: s' => if isspace c then skip_space s' else s | [] => [] end.
(** The longest prefix of characters that satisfy [p], and the rest. *)
Fixpoint span (p : char -> bool) (s : bytes) : bytes * bytes :=
  match s with
  | c :: s' => if p c then let '(a, b) := span p s' in (c :: a, b) else ([], s)
  | [] => ([], [])
  end.

(** ** Scanning integers *)

Definition digits_number (base : Z) (ds : bytes) : Z := default 0 (digits_value base ds 0).

Definition strto (t : int_type) (s : bytes) : Z * bytes * bool :=
  let '(neg, s1) := _extractSign (skip_space s) in
  let '(ds, endptr) := span isdigit s1 in
  if bool_decide (ds = []) then (0, s, false)
  else
    let m := digits_number 10 ds in
    let v := if neg then - m else m in
    if is_signed t then
      if (int_min t <=? v) && (v <=? int_max t) then (v, endptr, false)
      else (if neg then int_min t else int_max t, endptr, true)
    else if m <=? int_max t then (wrap t v, endptr, false)
    else (int_max t, endptr, true).
Definition strtol : bytes -> Z * bytes * bool := strto int64.
Definition strtoll : bytes -> Z * bytes * bool := strto int64.
Definition strtoul : bytes -> Z * bytes * bool := strto uint64.
Definition strtoull : bytes -> Z * bytes * bool := strto uint64.

(** ** Rounding *)

(** The quotient of two positive integers rounded to the nearest, ties to even. *)
Definition round_div (num den : Z) : Z :=
  let q := num / den in let r := 2 * (num mod den) in
  if r <? den then q else if den <? r then q + 1 else if Z.even q then q else q + 1.
(** [num / den] in units of [b ^ e]. *)
Definition round_units (b e num den : Z) : Z :=
  if 0 <=? e then round_div num (den * b ^ e) else round_div (num * b ^ (- e)) den.
(** [b ^ e <= num / den]. *)
Definition pow_le (b e num den : Z) : bool :=
  if 0 <=? e then den * b ^ e <=? num else den <=? num * b ^ (- e).

Definition inf_bits : Z := 2047 * 2 ^ 52.
Definition sign_bit (neg : bool) : Z := if neg then 2 ^ 63 else 0.
Definition quiet_NaN : Z := 2047 * 2 ^ 52 + 2 ^ 51.

(** The bits of the double nearest to [num / den], and [ERANGE]: overflow, or a
    result below the smallest normal double that is not exact. *)
Definition double_nearest (num den : Z) : Z * bool :=
  let k := Z.log2 num - Z.log2 den in
  let k := if pow_le 2 k num den then k else k - 1 in
  let u := Z.max (k - 52) (-1074) in
  let q := round_units 2 u num den in
  let bits := (u + 1074) * 2 ^ 52 + q in
  if inf_bits <=? bits then (inf_bits, true)
  else (bits, (bits <? 2 ^ 52) && negb (num * 2 ^ 1074 =? q * den)).

(** [m] times [b ^ e], for [m] of [n] digits; far outside the range the power is
    not computed. *)
Definition scaled_double (b m e n : Z) : Z * bool :=
  if m =? 0 then (0, false)
  else if 1100 <? e then (inf_bits, true)
  else if e + n <? -1100 then (0, true)
  else if 0 <=? e then double_nearest (m * b ^ e) 1
  else double_nearest m (b ^ (- e)).

(** ** Scanning doubles *)

Definition lower_is (c : char) (c' : char) : bool := ceq (tolower c) c'.
Fixpoint strip_nocase (word s : bytes) : option bytes :=
  match word, s with
  | [], _ => Some s
  | w :: word, c :: s => if lower_is c w then strip_nocase word s else None
  | _, [] => None
  end.

(** An exponent, or nothing. *)
Definition scan_exponent (mark : char) (s : bytes) : Z * bytes :=
  match s with
  | c :: s1 =>
      if lower_is c mark then
        let '(neg, s2) := _extractSign s1 in
        let '(ds, s3) := span isdigit s2 in
        if bool_decide (ds = []) then (0, s)
        else let e := digits_number 10 ds in (if neg then - e else e, s3)
      else (0, s)
  | [] => (0, s)
  end.
(** Digits with an optional point, at least one digit. *)
Definition scan_mantissa (p : char -> bool) (s : bytes) : option (bytes * Z * bytes) :=
  let '(i, s1) := span p s in
  let '(f, s2) := match s1 with
                  | c :: s' => if ceq c "."%char then span p s' else ([], s1)
                  | [] => ([], s1)
                  end in
  if bool_decide (i ++ f = []) then None else Some (i ++ f, zlen f, s2).
Definition scan_decimal (s : bytes) : option (Z * bool * bytes) :=
  '(ds, frac, s1) ← scan_mantissa isdigit s;
  let '(e, s2) := scan_exponent "e"%char s1 in
  let '(bits, erange) := scaled_double 10 (digits_number 10 ds) (e - frac) (zlen ds) in
  Some (bits, erange, s2).
Definition scan_hex (s : bytes) : option (Z * bool * bytes) :=
  s ← strip_nocase (B "0x") s;
  '(ds, frac, s1) ← scan_mantissa isxdigit s;
  let '(e, s2) := scan_exponent "p"%char s1 in
  let '(bits, erange) := scaled_double 2 (digits_number 16 ds) (e - 4 * frac) (4 * zlen ds) in
  Some (bits, erange, s2).
(** ["nan"] takes a word in parentheses. *)
Definition scan_nan_word (s : bytes) : bytes :=
  match s with
  | c :: s1 =>
      if ceq c "("%char then
        let '(_, s2) := span (fun c => isdigit c || islower c || isupper c || ceq c "_"%char) s1 in
        match s2 with c2 :: s3 => if ceq c2 ")"%char then s3 else s | [] => s end
      else s
  | [] => s
  end.
Definition scan_word (s : bytes) : option (Z * bool * bytes) :=
  match strip_nocase (B "infinity") s, strip_nocase (B "inf") s, strip_nocase (B "nan") s with
  | Some r, _, _ | None, Some r, _ => Some (inf_bits, false, r)
  | None, None, Some r => Some (quiet_NaN, false, scan_nan_word r)
  | None, None, None => None
  end.

(** [strtod]: the bits of the double. *)
Definition strtod (s : bytes) : Z * bytes * bool :=
  let '(neg, s1) := _extractSign (skip_space s) in
  let scanned := match scan_word s1 with
                 | Some r => Some r
                 | None => match scan_hex s1 with Some r => Some r | None => scan_decimal s1 end
                 end in
  match scanned with
  | Some (bits, erange, endptr) => (sign_bit neg + bits, endptr, erange)
  | None => (0, s, false)
  end.

(** ** Printing doubles *)

Fixpoint search_power (fuel : nat) (x num den : Z) : Z :=
  match fuel with
  | O => x
  | S f => if pow_le 10 (x + 1) num den then search_power f (x + 1) num den else x
  end.
(** The decimal exponent of [num / den]: from an estimate below it, upwards. *)
Definition decimal_exponent (num den : Z) : Z :=
  let k := Z.log2 num - Z.log2 den in
  search_power 5 (((k - 1) * 30103) / 100000 - 1) num den.

Fixpoint drop_zeros (s : bytes) : bytes :=
  match s with c :: s' => if ceq c "0"%char then drop_zeros s' else s | [] => [] end.
Definition strip_zeros (s : bytes) : bytes := reverse (drop_zeros (reverse s)).
Definition with_point (frac : bytes) : bytes :=
  if bool_decide (strip_zeros frac = []) then [] else "."%char :: strip_zeros frac.

(** ["%.16g"] of [num / den]: sixteen digits, fixed or with an exponent,
    without the zeros at the end of the fraction. *)
Definition print_ratio (num den : Z) : bytes :=
  let x := decimal_exponent num den in
  let q := round_units 10 (x - 15) num den in
  let '(q, x) := if q =? 10 ^ 16 then (10 ^ 15, x + 1) else (q, x) in
  let ds := print_nonneg q in
  if (-4 <=? x) && (x <? 16) then
    if 0 <=? x then
      take (Z.to_nat (x + 1)) ds ++ with_point (drop (Z.to_nat (x + 1)) ds)
    else B "0" ++ with_point (replicate (Z.to_nat (- x - 1)) "0"%char ++ ds)
  else
    take 1 ds ++ with_point (drop 1 ds) ++ B "e" ++ (if x <? 0 then B "-" else B "+") ++
    (if Z.abs x <? 10 then B "0" else []) ++ print_nonneg (Z.abs x).

(** A finite double: its sign and its magnitude in units of [2 ^ -1074]. *)
Definition print_double (neg : bool) (units : Z) : bytes :=
  (if neg then B "-" else []) ++
  if units =? 0 then B "0" else print_ratio units one_units.

(** ** Lemmas: digits *)

Lemma span_app p t c r : p c = false ->
  span p (t ++ c :: r) = ((span p t).1, (span p t).2 ++ c :: r).
Proof.
  intros Hc. induction t as [|x t IH]; cbn; [by rewrite Hc|].
  destruct (p x); [|done]. rewrite IH. by destruct (span p t).
Qed.
Lemma span_all p t : forallb p t = true -> span p t = (t, []).
Proof.
  induction t as [|x t IH]; cbn; [done|]. intros [Hx Ht]%andb_prop. rewrite Hx, (IH Ht). done.
Qed.

Lemma dec_loop_more f z acc : 0 <= z -> z < 2 ^ (Z.of_nat f + 1) ->
  dec_loop (S f) z acc = dec_loop f z acc.
Proof.
  revert z acc. induction f as [|f IH]; intros z acc Hz Hf.
  - cbn [dec_loop]. change (2 ^ (Z.of_nat 0 + 1)) with 2 in Hf. by replace (z <? 10) with true by lia.
  - cbn [dec_loop] in *. destruct (z <? 10) eqn:E; [done|].
    rewrite (IH (z / 10)); [done|apply Z.div_pos; lia|].
    replace (Z.of_nat (S f) + 1) with (Z.of_nat f + 1 + 1) in Hf by lia.
    rewrite Z.pow_add_r in Hf by lia. change (2 ^ 1) with 2 in Hf.
    apply Z.div_lt_upper_bound; lia.
Qed.
Lemma dec_loop_ge f g z acc : 0 <= z -> z < 2 ^ (Z.of_nat f + 1) -> (f <= g)%nat ->
  dec_loop g z acc = dec_loop f z acc.
Proof.
  intros Hz Hf Hg. induction Hg as [|g Hg IH]; [done|]. rewrite dec_loop_more; [done|done|].
  eapply Z.lt_le_trans; [exact Hf|]. apply Z.pow_le_mono_r; lia.
Qed.
Lemma log2_fuel z : 0 <= z -> z < 2 ^ (Z.of_nat (Z.to_nat (Z.log2 z)) + 1).
Proof.
  intros Hz. rewrite Z2Nat.id by apply Z.log2_nonneg.
  destruct (decide (z = 0)) as [-> |]; [done|]. apply Z.log2_spec. lia.
Qed.
Lemma dec_loop_acc f z acc : dec_loop f z acc = dec_loop f z [] ++ acc.
Proof.
  revert z acc. induction f as [|f IH]; intros z acc; cbn [dec_loop]; [done|].
  destruct (z <? 10); [done|]. rewrite IH, (IH _ [_]). by rewrite <-app_assoc.
Qed.
Lemma print_nonneg_small z : 0 <= z < 10 -> print_nonneg z = [chr (48 + z)].
Proof.
  intros Hz. unfold print_nonneg. rewrite <-(dec_loop_ge _ (S (Z.to_nat (Z.log2 z)))); [|lia|apply log2_fuel; lia|lia].
  cbn [dec_loop]. replace (z <? 10) with true by lia. by rewrite Z.mod_small by lia.
Qed.
Lemma print_nonneg_step z : 10 <= z ->
  print_nonneg z = print_nonneg (z / 10) ++ [chr (48 + z mod 10)].
Proof.
  intros Hz. unfold print_nonneg.
  rewrite <-(dec_loop_ge _ (S (Z.to_nat (Z.log2 z)))); [|lia|apply log2_fuel; lia|lia].
  cbn [dec_loop]. replace (z <? 10) with false by lia. rewrite dec_loop_acc.
  assert (0 <= z / 10) by (apply Z.div_pos; lia).
  rewrite (dec_loop_ge (Z.to_nat (Z.log2 (z / 10)))); [done|lia|by apply log2_fuel|].
  apply Z2Nat.inj_le; [apply Z.log2_nonneg|apply Z.log2_nonneg|]. apply Z.log2_le_mono.
  apply Z.div_le_upper_bound; lia.
Qed.

(** Strong induction on the number that is printed. *)
Lemma print_ind (P : Z -> Prop) :
  (forall z, 0 <= z < 10 -> P z) -> (forall z, 10 <= z -> P (z / 10) -> P z) ->
  forall z, 0 <= z -> P z.
Proof.
  intros Hs Hr z Hz. pattern z. apply Zlt_0_ind; [|done]. clear z Hz. intros z IH Hz.
  destruct (decide (z < 10)); [apply Hs; lia|]. apply Hr; [lia|]. apply IH.
  split; [apply Z.div_pos; lia|apply Z.div_lt; lia].
Qed.
Lemma print_nonneg_digits z : 0 <= z -> forallb isdigit (print_nonneg z) = true.
Proof.
  assert (forall d, 0 <= d < 10 -> isdigit (chr (48 + d)) = true) as Hd.
  { intros d Hd. unfold isdigit. rewrite uchar_chr_small by lia. lia. }
  revert z. apply print_ind.
  - intros z Hz. rewrite print_nonneg_small by lia. cbn [forallb]. by rewrite Hd.
  - intros z Hz IH. rewrite print_nonneg_step by lia. rewrite forallb_app, IH. cbn [forallb].
    by rewrite Hd by (apply Z.mod_pos_bound; lia).
Qed.
(** The first digit: zero only for zero. *)
Lemma print_nonneg_head z : 0 <= z ->
  exists d l, print_nonneg z = chr (48 + d) :: l /\ 0 <= d < 10 /\ (d = 0 -> z = 0 /\ l = []).
Proof.
  revert z. apply print_ind.
  - intros z Hz. exists z, []. rewrite print_nonneg_small by lia. done.
  - intros z Hz (d & l & E & Hd & H0). exists d, (l ++ [chr (48 + z mod 10)]).
    rewrite print_nonneg_step, E by lia. split_and!; [done|lia|lia|].
    intros ->. destruct (H0 eq_refl) as [Hz0 _].
    pose proof (Z.div_le_lower_bound z 10 1 ltac:(lia) ltac:(lia)). lia.
Qed.
Lemma print_nonneg_length z k : 0 <= k -> 10 ^ k <= z < 10 ^ (k + 1) ->
  zlen (print_nonneg z) = k + 1.
Proof.
  intros Hk. revert z. pattern k. apply Zlt_0_ind; [|done]. clear k Hk. intros k IH Hk z Hz.
  destruct (decide (k = 0)) as [-> |].
  - change (10 ^ 0) with 1 in Hz. change (10 ^ (0 + 1)) with 10 in Hz.
    by rewrite print_nonneg_small by lia.
  - assert (10 ^ k = 10 * 10 ^ (k - 1)) as E by (rewrite <-Z.pow_succ_r by lia; f_equal; lia).
    rewrite Z.pow_add_r in Hz by lia. change (10 ^ 1) with 10 in Hz.
    assert (0 < 10 ^ (k - 1)) by (apply Z.pow_pos_nonneg; lia).
    rewrite print_nonneg_step by lia. rewrite zlen_app.
    rewrite (IH (k - 1) ltac:(lia)).
    + change (zlen [_]) with 1. lia.
    + replace (k - 1 + 1) with k by lia. split; [apply Z.div_le_lower_bound; lia|].
      apply Z.div_lt_upper_bound; lia.
Qed.
Lemma print_nonneg_shift z k : 0 < z ->
  print_nonneg (z * 10 ^ Z.of_nat k) = print_nonneg z ++ replicate k "0"%char.
Proof.
  intros Hz. induction k as [|k IH]; [cbn; by rewrite Z.mul_1_r, app_nil_r|].
  rewrite Nat2Z.inj_succ, Z.pow_succ_r by lia.
  assert (0 < 10 ^ Z.of_nat k) by (apply Z.pow_pos_nonneg; lia).
  rewrite print_nonneg_step by nia.
  replace (z * (10 * 10 ^ Z.of_nat k)) with (z * 10 ^ Z.of_nat k * 10) by lia.
  rewrite Z.div_mul, Z.mod_mul, IH by lia. rewrite replicate_S_end, app_assoc. done.
Qed.

(** ** Lemmas: scanners stop at what follows a number

    [delim c]: the characters that follow a value in the printed documents. *)

Definition delim (c : char) : Prop := c = " "%char \/ c = ","%char.

Lemma delim_not_digit c : delim c -> isdigit c = false.
Proof. by intros [-> | ->]. Qed.
Lemma delim_not_xdigit c : delim c -> isxdigit c = false.
Proof. by intros [-> | ->]. Qed.
Lemma extractSign_app x t s :
  _extractSign (x :: t ++ s) = ((_extractSign (x :: t)).1, (_extractSign (x :: t)).2 ++ s).
Proof. cbn. by repeat case_match. Qed.
Lemma extractSign_delim c r : delim c -> _extractSign (c :: r) = (false, c :: r).
Proof. by intros [-> | ->]. Qed.

Section Local.
Context (c : char) (r : bytes) (Hc : delim c).

Lemma extractSign_local t :
  _extractSign (t ++ c :: r) = ((_extractSign t).1, (_extractSign t).2 ++ c :: r).
Proof. destruct t; [by apply extractSign_delim|apply extractSign_app]. Qed.
Lemma strip_nocase_local w t : Forall (fun x => lower_is c x = false) w ->
  strip_nocase w (t ++ c :: r) = (fun s => s ++ c :: r) <$> strip_nocase w t.
Proof.
  intros Hw. revert t. induction Hw as [|x w Hx Hw IH]; intros t; [done|].
  destruct t as [|y t]; cbn; [by rewrite Hx|]. destruct (lower_is y x); [apply IH|done].
Qed.
Lemma scan_exponent_local mark t : lower_is c mark = false ->
  scan_exponent mark (t ++ c :: r) = ((scan_exponent mark t).1, (scan_exponent mark t).2 ++ c :: r).
Proof.
  intros Hm. destruct t as [|x t]; cbn [scan_exponent app]; [by rewrite Hm|].
  destruct (lower_is x mark); [|done]. rewrite extractSign_local.
  destruct (_extractSign t) as [neg s2]. cbn [fst snd].
  rewrite span_app by (by apply delim_not_digit). destruct (span isdigit s2) as [ds s3]. cbn.
  by case_bool_decide.
Qed.
Lemma scan_mantissa_local p t : p c = false ->
  scan_mantissa p (t ++ c :: r) = (fun x => (x.1, x.2 ++ c :: r)) <$> scan_mantissa p t.
Proof.
  intros Hp. unfold scan_mantissa. rewrite span_app by done.
  destruct (span p t) as [i s1]. cbn [fst snd].
  destruct s1 as [|x s1]; cbn [app].
  - assert (ceq c "."%char = false) as -> by (by destruct Hc as [-> | ->]). by case_bool_decide.
  - destruct (ceq x "."%char); [|by case_bool_decide].
    rewrite span_app by done. destruct (span p s1) as [f s2]. cbn. by case_bool_decide.
Qed.
Definition add_rest {A} (x : A * bytes) : A * bytes := (x.1, x.2 ++ c :: r).
Lemma scan_decimal_local t : scan_decimal (t ++ c :: r) = add_rest <$> scan_decimal t.
Proof.
  unfold scan_decimal. rewrite scan_mantissa_local by (by apply delim_not_digit).
  destruct (scan_mantissa isdigit t) as [[[ds f] s1]|]; [|done]. cbn.
  rewrite scan_exponent_local by (by destruct Hc as [-> | ->]).
  destruct (scan_exponent "e"%char s1) as [e s2]. cbn. by destruct (scaled_double _ _ _ _).
Qed.
Lemma scan_hex_local t : scan_hex (t ++ c :: r) = add_rest <$> scan_hex t.
Proof.
  unfold scan_hex. rewrite strip_nocase_local
    by (destruct Hc as [-> | ->]; repeat constructor).
  destruct (strip_nocase (B "0x") t) as [t'|]; [|done]. cbn [fmap option_fmap option_map mbind option_bind].
  rewrite scan_mantissa_local by (by apply delim_not_xdigit).
  destruct (scan_mantissa isxdigit t') as [[[ds f] s1]|]; [|done]. cbn.
  rewrite scan_exponent_local by (by destruct Hc as [-> | ->]).
  destruct (scan_exponent "p"%char s1) as [e s2]. cbn. by destruct (scaled_double _ _ _ _).
Qed.
Lemma scan_nan_word_local t : scan_nan_word (t ++ c :: r) = scan_nan_word t ++ c :: r.
Proof.
  destruct t as [|x t]; cbn [scan_nan_word app].
  { by destruct Hc as [-> | ->]. }
  destruct (ceq x "("%char); [|done].
  rewrite span_app by (by destruct Hc as [-> | ->]).
  destruct (span _ t) as [a s2]. cbn [fst snd].
  destruct s2 as [|y s2]; cbn [app]; [by destruct Hc as [-> | ->]|]. by destruct (ceq y ")"%char).
Qed.
Lemma scan_word_local t : scan_word (t ++ c :: r) = add_rest <$> scan_word t.
Proof.
  unfold scan_word.
  rewrite !strip_nocase_local by (destruct Hc as [-> | ->]; repeat constructor).
  destruct (strip_nocase (B "infinity") t), (strip_nocase (B "inf") t), (strip_nocase (B "nan") t);
    cbn; try done. unfold add_rest. cbn. by rewrite scan_nan_word_local.
Qed.
Lemma skip_space_local t : t <> [] -> skip_space t = t -> skip_space (t ++ c :: r) = t ++ c :: r.
Proof.
  destruct t as [|x t]; [done|]. cbn. destruct (isspace x) eqn:E; [|done].
  intros _ H. assert (length (skip_space t) <= length t)%nat as Hl.
  { clear. induction t as [|x t IH]; cbn; [lia|]. destruct (isspace x); cbn; lia. }
  rewrite H in Hl. cbn in Hl. lia.
Qed.
Definition add_suffix {V} (x : V * bytes * bool) : V * bytes * bool := (x.1.1, x.1.2 ++ c :: r, x.2).
Lemma strtod_local t : t <> [] -> skip_space t = t -> strtod (t ++ c :: r) = add_suffix (strtod t).
Proof.
  intros Ht Hs. unfold strtod. rewrite skip_space_local, Hs, extractSign_local by done.
  destruct (_extractSign t) as [neg s1]. cbn [fst snd].
  rewrite scan_word_local, scan_hex_local, scan_decimal_local.
  by destruct (scan_word s1) as [[[? ?] ?]|], (scan_hex s1) as [[[? ?] ?]|],
    (scan_decimal s1) as [[[? ?] ?]|].
Qed.
End Local.
(** An integer is followed by anything but a digit. *)
Lemma strto_local c r ty t : isdigit c = false -> t <> [] -> skip_space t = t ->
  strto ty (t ++ c :: r) = add_suffix c r (strto ty t).
Proof.
  intros Hc Ht Hs. unfold strto. rewrite skip_space_local, Hs by done.
  destruct t as [|x t]; [done|]. rewrite <-app_comm_cons, extractSign_app.
  destruct (_extractSign (x :: t)) as [neg s1]. cbn [fst snd].
  rewrite span_app by done. destruct (span isdigit s1) as [ds e].
  cbn [fst snd]. by repeat case_match.
Qed.

(** Scanning what was printed. *)
Lemma print_int_start z : exists x l, print_int z = x :: l /\ isspace x = false.
Proof.
  unfold print_int. destruct (z <? 0) eqn:E; [by exists "-"%char, (print_nonneg (- z))|].
  destruct (print_nonneg_head z ltac:(lia)) as (d & l & -> & Hd & _). exists (chr (48 + d)), l.
  split; [done|]. unfold isspace. rewrite uchar_chr_small by lia. lia.
Qed.
Lemma print_int_skip z : print_int z <> [] /\ skip_space (print_int z) = print_int z.
Proof. destruct (print_int_start z) as (x & l & -> & Hx). cbn. by rewrite Hx. Qed.

Lemma extractSign_print z : _extractSign (print_int z) = (z <? 0, print_nonneg (Z.abs z)).
Proof.
  unfold print_int. destruct (z <? 0) eqn:E.
  - cbn. by replace (Z.abs z) with (- z) by lia.
  - replace (Z.abs z) with z by lia.
    destruct (print_nonneg_value z ltac:(lia)) as (_ & Hd & _). by apply extractSign_digit.
Qed.
Lemma digits_number_print z : 0 <= z -> digits_number 10 (print_nonneg z) = z.
Proof.
  intros Hz. destruct (print_nonneg_value z Hz) as (_ & _ & Hv). unfold digits_number. by rewrite Hv.
Qed.
Lemma strto_print ty z : in_range ty z -> (is_signed ty = true \/ 0 <= z /\ 0 < width ty) ->
  strto ty (print_int z) = (z, [], false).
Proof.
  intros Hz Ht. unfold strto. destruct (print_int_skip z) as [_ ->].
  rewrite extractSign_print, (span_all isdigit) by (apply print_nonneg_digits; lia).
  rewrite digits_number_print by lia.
  assert (print_nonneg (Z.abs z) <> []) as Hn by (apply print_nonneg_value; lia).
  rewrite (bool_decide_eq_false_2 _ Hn).
  unfold in_range in Hz. destruct (is_signed ty) eqn:Es.
  - assert ((if z <? 0 then - Z.abs z else Z.abs z) = z) as -> by (destruct (z <? 0) eqn:?; lia).
    replace ((int_min ty <=? z) && (z <=? int_max ty)) with true by lia. done.
  - destruct Ht as [?|[? ?]]; [done|]. replace (z <? 0) with false by lia.
    replace (Z.abs z <=? int_max ty) with true by lia.
    rewrite wrap_id by (done || (unfold in_range; lia)). by replace (Z.abs z) with z by lia.
Qed.
Lemma strto_print_rest ty z c r : in_range ty z -> (is_signed ty = true \/ 0 <= z /\ 0 < width ty) ->
  isdigit c = false -> strto ty (print_int z ++ c :: r) = (z, c :: r, false).
Proof.
  intros Hz Ht Hc. destruct (print_int_skip z). by rewrite strto_local, strto_print.
Qed.

Lemma round_div_1 n : round_div n 1 = n.
Proof. unfold round_div. by rewrite Z.div_1_r, Z.mod_1_r. Qed.
(** An integer of at most 53 bits is read as a double without loss or range
    error. *)
Lemma double_nearest_int m : 0 < m < 2 ^ 53 -> (double_nearest m 1).2 = false.
Proof.
  intros Hm. unfold double_nearest. change (Z.log2 1) with 0. rewrite Z.sub_0_r.
  pose proof (Z.log2_spec m ltac:(lia)) as Hl. pose proof (Z.log2_nonneg m).
  assert (Z.log2 m < 53) by (apply Z.log2_lt_pow2; lia).
  assert (pow_le 2 (Z.log2 m) m 1 = true) as ->.
  { unfold pow_le. replace (0 <=? Z.log2 m) with true by lia. lia. }
  set (k := Z.log2 m) in *. replace (Z.max (k - 52) (-1074)) with (k - 52) by lia.
  assert (round_units 2 (k - 52) m 1 = m * 2 ^ (52 - k)) as ->.
  { unfold round_units. destruct (0 <=? k - 52) eqn:E.
    - replace (k - 52) with 0 by lia. replace (52 - k) with 0 by lia.
      change (1 * 2 ^ 0) with 1. change (2 ^ 0) with 1. rewrite round_div_1. lia.
    - replace (- (k - 52)) with (52 - k) by lia. apply round_div_1. }
  assert (2 ^ 52 <= m * 2 ^ (52 - k) < 2 ^ 53) as Hq.
  { replace (2 ^ 52) with (2 ^ k * 2 ^ (52 - k)) by (rewrite <-Z.pow_add_r by lia; f_equal; lia).
    replace (2 ^ 53) with (2 ^ Z.succ k * 2 ^ (52 - k)) by (rewrite <-Z.pow_add_r by lia; f_equal; lia).
    assert (0 < 2 ^ (52 - k)) by (apply Z.pow_pos_nonneg; lia). nia. }
  unfold inf_bits. replace (2047 * 2 ^ 52 <=? (k - 52 + 1074) * 2 ^ 52 + m * 2 ^ (52 - k)) with false by lia.
  cbn [snd]. by replace ((k - 52 + 1074) * 2 ^ 52 + m * 2 ^ (52 - k) <? 2 ^ 52) with false by lia.
Qed.
Lemma print_nonneg_not_word d l : 0 <= d < 10 -> scan_word (chr (48 + d) :: l) = None.
Proof.
  intros Hd. assert (d = 0 \/ d = 1 \/ d = 2 \/ d = 3 \/ d = 4 \/ d = 5 \/ d = 6 \/ d = 7 \/ d = 8 \/ d = 9)
    as H by lia. by repeat destruct H as [-> |H]; subst.
Qed.
Lemma print_nonneg_not_hex z : 0 <= z -> scan_hex (print_nonneg z) = None.
Proof.
  intros Hz. destruct (print_nonneg_head z Hz) as (d & l & -> & Hd & H0).
  destruct (decide (d = 0)) as [-> |Hne]; [by destruct (H0 eq_refl) as [_ ->]|].
  assert (d = 1 \/ d = 2 \/ d = 3 \/ d = 4 \/ d = 5 \/ d = 6 \/ d = 7 \/ d = 8 \/ d = 9)
    as H by lia. by repeat destruct H as [-> |H]; subst.
Qed.
Lemma strtod_print z : Z.abs z < 2 ^ 53 ->
  exists d, strtod (print_int z) = (d, [], false).
Proof.
  intros Hz. unfold strtod. destruct (print_int_skip z) as [_ ->]. rewrite extractSign_print.
  rewrite print_nonneg_not_hex by lia.
  destruct (print_nonneg_head (Z.abs z) ltac:(lia)) as (d & l & E & Hd & _).
  assert (scan_word (print_nonneg (Z.abs z)) = None) as -> by (rewrite E; by apply print_nonneg_not_word).
  unfold scan_decimal, scan_mantissa.
  rewrite span_all by (apply print_nonneg_digits; lia). rewrite app_nil_r.
  assert (print_nonneg (Z.abs z) <> []) as Hn by (apply print_nonneg_value; lia).
  rewrite (bool_decide_eq_false_2 _ Hn). cbn [mbind option_bind]. rewrite digits_number_print by lia.
  change (0 - zlen []) with 0. unfold scaled_double. cbn [scan_exponent].
  destruct (Z.abs z =? 0) eqn:E0; [by eexists|].
  change (0 - zlen _) with 0. change (1100 <? 0) with false.
  pose proof (zlen_nonneg (print_nonneg (Z.abs z))).
  replace (0 + zlen (print_nonneg (Z.abs z)) <? -1100) with false by lia.
  change (0 <=? 0) with true. cbv iota. change (10 ^ 0) with 1. rewrite Z.mul_1_r.
  pose proof (double_nearest_int (Z.abs z) ltac:(lia)) as Hr.
  destruct (double_nearest (Z.abs z) 1) as [bits er]. cbn in Hr. subst. by eexists.
Qed.

(** ** Lemmas: a stream prints an [int] held in a double like the [int] *)

Lemma round_div_mul a u : 0 < u -> round_div (a * u) u = a.
Proof.
  intros Hu. unfold round_div. rewrite Z.div_mul, Z.mod_mul by lia.
  by replace (2 * 0 <? u) with true by lia.
Qed.
Lemma search_power_spec fuel x num den :
  let y := search_power fuel x num den in
  x <= y <= x + Z.of_nat fuel /\ (y = x \/ pow_le 10 y num den = true) /\
  (y = x + Z.of_nat fuel \/ pow_le 10 (y + 1) num den = false).
Proof.
  revert x. induction fuel as [|f IH]; intros x; cbn [search_power]; [split_and!; lia || auto|].
  destruct (pow_le 10 (x + 1) num den) eqn:E; [|split_and!; lia || auto].
  specialize (IH (x + 1)). cbn in IH. destruct IH as (H1 & H2 & H3). split_and!; [lia..| |].
  - destruct H2 as [-> |]; auto.
  - destruct H3 as [H3|]; [left; lia|auto].
Qed.
Lemma pow_le_int x m : 0 <= x -> pow_le 10 x (m * one_units) one_units = (10 ^ x <=? m).
Proof.
  intros Hx. unfold pow_le. replace (0 <=? x) with true by lia.
  pose proof one_units_pos. rewrite (Z.mul_comm m).
  destruct (10 ^ x <=? m) eqn:E; [apply Z.leb_le; nia|apply Z.leb_gt; nia].
Qed.
Lemma pow_le_neg x m : x < 0 -> 0 < m -> pow_le 10 x (m * one_units) one_units = true.
Proof.
  intros Hx Hm. unfold pow_le. replace (0 <=? x) with false by lia.
  pose proof one_units_pos. assert (0 < 10 ^ (- x)) by (apply Z.pow_pos_nonneg; lia).
  assert (1 <= m * 10 ^ (- x)) by nia. apply Z.leb_le. nia.
Qed.
(** The estimate of the exponent of a number of [k + 1] bits. *)
Definition estimate (k : Z) : Z := ((k - 1) * 30103) / 100000 - 1.
Lemma estimate_ok k : 0 <= k < 40 ->
  0 <= estimate k + 5 /\ (estimate k < 0 \/ 10 ^ estimate k <= 2 ^ k) /\ 2 ^ (k + 1) <= 10 ^ (estimate k + 5).
Proof.
  intros Hk.
  assert (forallb (fun i => let k := Z.of_nat i in
    (0 <=? estimate k + 5) && ((estimate k <? 0) || (10 ^ estimate k <=? 2 ^ k)) &&
    (2 ^ (k + 1) <=? 10 ^ (estimate k + 5))) (seq 0 40) = true) as H by (by vm_compute).
  rewrite forallb_forall in H. specialize (H (Z.to_nat k)). rewrite Z2Nat.id in H by lia.
  assert (In (Z.to_nat k) (seq 0 40)) as Hin by (apply in_seq; lia).
  specialize (H Hin). cbv zeta in H. lia.
Qed.
Lemma decimal_exponent_int m : 0 < m < 2 ^ 40 ->
  let x := decimal_exponent (m * one_units) one_units in 0 <= x /\ 10 ^ x <= m < 10 ^ (x + 1).
Proof.
  intros Hm. unfold decimal_exponent.
  rewrite log2_one_units by lia.
  fold (estimate (Z.log2 m)).
  pose proof (Z.log2_nonneg m). assert (Z.log2 m < 40) by (apply Z.log2_lt_pow2; lia).
  pose proof (Z.log2_spec m ltac:(lia)) as Hl. unfold Z.succ in Hl.
  destruct (estimate_ok (Z.log2 m) ltac:(lia)) as (He0 & He1 & He2).
  destruct (search_power_spec 5 (estimate (Z.log2 m)) (m * one_units) one_units) as (H1 & H2 & H3).
  set (y := search_power _ _ _ _) in *. change (Z.of_nat 5) with 5 in *. cbv zeta.
  assert (pow_le 10 (estimate (Z.log2 m) + 5) (m * one_units) one_units = false) as H5.
  { rewrite pow_le_int by lia. lia. }
  assert (pow_le 10 (y + 1) (m * one_units) one_units = false) as H4.
  { destruct H3 as [H3|]; [|done]. rewrite <-H3 in H5. destruct H2 as [H2|H2]; [lia|congruence]. }
  assert (0 <= y) as Hy.
  { destruct (decide (0 <= y)) as [|Hn]; [done|]. destruct (decide (y + 1 < 0)).
    - rewrite pow_le_neg in H4 by lia. done.
    - replace (y + 1) with 0 in H4 by lia. rewrite pow_le_int in H4 by lia. cbn in H4. lia. }
  rewrite pow_le_int in H4 by lia. split; [done|].
  destruct H2 as [H2|H2]; [|rewrite pow_le_int in H2 by done; lia].
  rewrite H2 in *. destruct He1 as [?|He1]; lia.
Qed.
Lemma strip_zeros_replicate n : strip_zeros (replicate n "0"%char) = [].
Proof.
  unfold strip_zeros. rewrite reverse_replicate.
  assert (drop_zeros (replicate n "0"%char) = []) as -> by (induction n; cbn; auto). done.
Qed.
Lemma print_ratio_int m : 0 < m < 2 ^ 40 -> print_ratio (m * one_units) one_units = print_nonneg m.
Proof.
  intros Hm. destruct (decimal_exponent_int m Hm) as [Hx Hmx]. unfold print_ratio.
  set (x := decimal_exponent _ _) in *. pose proof one_units_pos.
  assert (x < 15).
  { destruct (decide (x < 15)) as [|Hn]; [done|].
    assert (10 ^ 15 <= 10 ^ x) by (apply Z.pow_le_mono_r; lia). lia. }
  assert (round_units 10 (x - 15) (m * one_units) one_units = m * 10 ^ (15 - x)) as ->.
  { unfold round_units. replace (0 <=? x - 15) with false by lia.
    replace (- (x - 15)) with (15 - x) by lia.
    replace (m * one_units * 10 ^ (15 - x)) with (m * 10 ^ (15 - x) * one_units) by lia.
    by apply round_div_mul. }
  assert (10 ^ (x + 1) * 10 ^ (15 - x) = 10 ^ 16) as E
    by (rewrite <-Z.pow_add_r by lia; f_equal; lia).
  assert (0 < 10 ^ (15 - x)) by (apply Z.pow_pos_nonneg; lia).
  replace (m * 10 ^ (15 - x) =? 10 ^ 16) with false by nia.
  replace ((-4 <=? x) && (x <? 16)) with true by lia. replace (0 <=? x) with true by lia.
  rewrite <-(Z2Nat.id (15 - x)) by lia. rewrite print_nonneg_shift by lia.
  pose proof (print_nonneg_length m x Hx ltac:(lia)) as Hlen. unfold zlen in Hlen.
  rewrite take_app_length' by lia. rewrite drop_app_length' by lia.
  unfold with_point. rewrite strip_zeros_replicate. cbn. by rewrite app_nil_r.
Qed.
Lemma print_double_int n : Z.abs n < 2 ^ 40 ->
  print_double (n <? 0) (Z.abs n * one_units) = print_int n.
Proof.
  intros Hn. unfold print_double. pose proof one_units_pos.
  destruct (decide (n = 0)) as [-> |Hne]; [done|].
  replace (Z.abs n * one_units =? 0) with false by nia. rewrite print_ratio_int by lia.
  unfold print_int. destruct (n <? 0) eqn:E; [by replace (Z.abs n) with (- n) by lia|].
  by replace (Z.abs n) with n by lia.
Qed.
