(* ===== verification/JsonParse.v ===== *)
(** * The JSON parser: db/json.cpp, class [JParse]

    A [JParse] is the part of the text it has not read, a C string.  Each parsing
    function answers with a [Status], may throw (the append functions of the
    builder do), and leaves the text where it stopped, also when it fails.  A
    function that is given a builder answers with the elements it appends to it.
    An error's text is the one given to [parseError], which adds the offset and
    the input to it. *)
From S2P Require Import Prelude StringData ParseNumber BsonTypes BufBuilder Bson BsonBuilder.
From S2P Require Import Codec Oid TimeSupport CLib.
Local Open Scope Z_scope.

(** ** Parsing functions *)

Definition JP (A : Type) : Type := bytes -> M (StatusWith A * bytes).
Global Instance JP_ret : MRet JP := fun A a s => Ret (Ret a, s).
Global Instance JP_bind : MBind JP := fun A C f m s =>
  match m s with
  | Ret (Ret a, s) => f a s
  | Ret (Throw e, s) => Ret (Throw e, s)
  | Throw e => Throw e
  end.
Definition parseError {A} (msg : bytes) : JP A := fun s => Ret (Throw (FailedToParse, msg), s).
Definition jp_throws {A} (m : M A) : JP A := fun s =>
  match m with Ret a => Ret (Ret a, s) | Throw e => Throw e end.
Definition jp_status {A} (m : StatusWith A) : JP A := fun s => Ret (m, s).
(** Test the rest of the text, and move to another suffix of it. *)
Definition jp_input : JP bytes := fun s => Ret (Ret s, s).
Definition jp_move (s : bytes) : JP unit := fun _ => Ret (Ret tt, s).
Definition jp_if {A} (c : JP bool) (t e : JP A) : JP A := fun s =>
  match c s with
  | Ret (Ret true, s) => t s
  | Ret (Ret false, s) => e s
  | Ret (Throw x, s) => Ret (Throw x, s)
  | Throw x => Throw x
  end.
Definition jp_unless {A} (b : bool) (msg : bytes) (m : JP A) : JP A :=
  if b then m else parseError msg.

(** ** Characters and tokens *)

Definition ALPHA : bytes := B "ABCDEFGHIJKLMNOPQRSTUVWXYZabcdefghijklmnopqrstuvwxyz".
Definition DIGIT : bytes := B "0123456789".
Definition JOPTIONS : bytes := B "gims".
Definition DOUBLEQUOTE : bytes := [chr 34].
Definition SINGLEQUOTE : bytes := [chr 39].
Definition backslash : char := chr 92.

(** [strchr] also finds the terminator of the set. *)
Definition match_ (matchChar : char) (matchSet : bytes) : bool :=
  if bool_decide (matchSet = []) then false
  else bool_decide (matchChar ∈ matchSet ++ [nul]).
Definition isHexString (str : bytes) : bool := forallb isxdigit str.
Definition isBase64String (str : bytes) : bool := forallb (fun c => match_ c base64_chars) str.

Fixpoint strip_prefix (token s : bytes) : option bytes :=
  match token, s with
  | [], _ => Some s
  | t :: token, c :: s => if ceq t c then strip_prefix token s else None
  | _, [] => None
  end.
Definition readTokenImpl (token : bytes) (advance : bool) : JP bool := fun s =>
  match strip_prefix token (skip_space s) with
  | Some s' => Ret (Ret true, if advance then s' else s)
  | None => Ret (Ret false, s)
  end.
Definition peekToken (token : bytes) : JP bool := readTokenImpl token false.
Definition readToken (token : bytes) : JP bool := readTokenImpl token true.
(** [if (!readToken(token)) return parseError(msg);] *)
Definition expect (token msg : bytes) : JP unit :=
  jp_if (readToken token) (mret tt) (parseError msg).

Definition encodeUTF8 (first second : char) : bytes :=
  let f := uchar first in let s := uchar second in
  let low := Z.lor 0x80 (Z.land (Z.lnot 0xc0) s) in
  let mid := Z.lor (Z.shiftl f 2) (Z.shiftr s 6) in
  if (f =? 0) && (s <? 0x80) then [second]
  else if f <? 0x08 then [chr (Z.lor 0xc0 mid); chr low]
  else [chr (Z.lor 0xe0 (Z.shiftr f 4)); chr (Z.lor 0x80 (Z.land (Z.lnot 0xc0) mid)); chr low].

Definition control (c : char) : bool := (0 <=? schar c) && (schar c <=? 0x1F).
Definition simple_escapes : list (char * char) :=
  [(chr 34, chr 34); (chr 39, chr 39); (backslash, backslash); ("/"%char, "/"%char);
   ("b"%char, chr 8); ("f"%char, chr 12); ("n"%char, chr 10); ("r"%char, chr 13);
   ("t"%char, chr 9); ("v"%char, chr 11)].
Definition lookup_char (c : char) (l : list (char * char)) : option char :=
  snd <$> find (fun p => ceq c p.1) l.

(** The loop of [chars] at [q]; the text is left alone when it fails. *)
Fixpoint chars_loop (terminalSet : bytes) (allowedSet : option bytes) (q result : bytes)
    : M (StatusWith bytes * option bytes) :=
  let fail := fun msg : string => Ret (Throw (FailedToParse, B msg), None) in
  match q with
  | [] => fail "Unexpected end of input"
  | c :: q1 =>
      if match_ c terminalSet then Ret (Ret result, Some q)
      else if match allowedSet with Some a => negb (match_ c a) | None => false end
      then Ret (Ret result, Some q)
      else if control c then fail "Invalid control character"
      else
        match ceq c backslash, q1 with
        | true, e :: q2 =>
            match lookup_char e simple_escapes with
            | Some x => chars_loop terminalSet allowedSet q2 (result ++ [x])
            | None =>
                if ceq e "u"%char then
                  match q2 with
                  | h0 :: h1 :: h2 :: h3 :: ((_ :: _) as q3) =>
                      if isHexString [h0; h1; h2; h3] then
                        first ← fromHex_pair h0 h1;
                        second ← fromHex_pair h2 h3;
                        chars_loop terminalSet allowedSet q3 (result ++ encodeUTF8 first second)
                      else fail "Expecting 4 hex digits"
                  | _ => fail "Expecting 4 hex digits"
                  end
                else if ceq e "x"%char then fail "Hex escape not supported"
                else if bool_decide (e ∈ B "01234567") then fail "Octal escape not supported"
                else chars_loop terminalSet allowedSet q2 (result ++ [e])
            end
        | _, _ => chars_loop terminalSet allowedSet q1 (result ++ [c])
        end
  end.

Definition chars (terminalSet : bytes) (allowedSet : option bytes) : JP bytes := fun s =>
  match chars_loop terminalSet allowedSet s [] with
  | Ret (r, s') => Ret (r, default s s')
  | Throw e => Throw e
  end.

Definition quotedString : JP bytes :=
  jp_if (readToken DOUBLEQUOTE)
    (r ← chars DOUBLEQUOTE None; expect DOUBLEQUOTE (B "Expecting '" ++ DOUBLEQUOTE ++ B "'");; mret r)
  (jp_if (readToken SINGLEQUOTE)
    (r ← chars SINGLEQUOTE None; expect SINGLEQUOTE (B "Expecting '''");; mret r)
    (parseError (B "Expecting quoted string"))).
Definition regexPat : JP bytes := chars (B "/") None.
Definition regexOpt : JP bytes := chars [] (Some JOPTIONS).
Definition regexOptCheck (opt : bytes) : JP unit :=
  match find (fun c => negb (match_ c JOPTIONS)) opt with
  | Some c => parseError (B "Bad regex option: " ++ [c])
  | None => mret tt
  end.

Definition unquotedField : JP bytes :=
  s ← jp_input;
  jp_move (skip_space s);;
  match skip_space s with
  | [] => parseError (B "Field name expected")
  | c :: _ =>
      jp_unless (match_ c (ALPHA ++ B "_$")) (B "First character in field must be [A-Za-z$_]")
        (chars [] (Some (ALPHA ++ DIGIT ++ B "_$")))
  end.
Definition field : JP bytes :=
  jp_if (peekToken DOUBLEQUOTE) quotedString
  (jp_if (peekToken SINGLEQUOTE) quotedString unquotedField).
(** [readField]; a failed [field] counts as a wrong name. *)
Definition readField (expectedField : bytes) : JP bool := fun s =>
  match field s with
  | Ret (Ret nextField, s') => Ret (Ret (bool_decide (nextField = expectedField)), s')
  | Ret (Throw _, s') => Ret (Ret false, s')
  | Throw e => Throw e
  end.
Definition expect_field (name msg : bytes) : JP unit :=
  jp_if (readField name) (mret tt) (parseError msg).
Definition JParse_isArray : JP bool := peekToken (B "[").

(** ** The builder

    All the builders of a parse write into one [BufBuilder].  Where it throws
    depends on one number, [used]: the bytes that are written and the bytes that
    are reserved in it.  A builder answers with the elements it appended, so that
    after them [used] is larger by the length of their encoding ([used_after]).
    [grow_buffer] below shows that [grow] is [BufBuilder_appendBuf] in this
    respect. *)
Definition grow (used n : Z) : M Z :=
  n ← int_result n;
  minSize ← int_result (used + n);
  if minSize <=? BufferMaxSize then Ret minSize
  else if minSize <=? 2 ^ 30 then Throw (EMassert 13548) else Throw EUndefined.
(** One write after the other. *)
Fixpoint write (used : Z) (sizes : list Z) : M Z :=
  match sizes with
  | [] => Ret used
  | n :: sizes => used ← grow used n; write used sizes
  end.
Definition used_after (used : Z) (o : BSONObj) : Z := used + zlen (encode_elements o).
(** What the append functions write after the name. *)
Definition value_sizes (v : bson_value) : list Z :=
  match v with
  | VString s => [4; zlen s + 1]
  | VBinData _ data => [4; 1; zlen data]
  | VRegEx regex flags => [zlen regex + 1; zlen flags + 1]
  | v => [zlen (encode_value v)]
  end.
Definition write_element (used : Z) (fieldName : bytes) (v : bson_value) : M Z :=
  write used (1 :: (zlen fieldName + 1) :: value_sizes v).
(** A builder of its own: the reference count, the length, and the reserved byte. *)
Definition holder_size : Z := 4.
Definition builder_used : Z := holder_size + 4 + 1.
(** [done]. *)
Definition done_ (o : BSONObj) : JP unit := jp_throws (BSONObj_init (encode_obj o)).

(** The builder checks names for NUL bytes in all its functions but [appendDate]
    and [appendUndefined]. *)

Definition append (used : Z) (fieldName : bytes) (v : bson_value) : JP BSONObj :=
  jp_throws (checkFieldName fieldName;; write_element used fieldName v);; mret [(fieldName, v)].
Definition append_unchecked (used : Z) (fieldName : bytes) (v : bson_value) : JP BSONObj :=
  jp_throws (write_element used fieldName v);; mret [(fieldName, v)].
Definition append_regex (used : Z) (fieldName pat opt : bytes) : JP BSONObj :=
  jp_throws (checkFieldName fieldName;; uassert 0 (StringData_find_char pat nul 0 =? npos);;
             write_element used fieldName (VRegEx pat opt));;
  mret [(fieldName, VRegEx pat opt)].
(** The type [appendNumber] chooses for a [long long]. *)
Definition number_value (n : Z) : bson_value :=
  if (- 2 ^ 30 <? n) && (n <? 2 ^ 30) then VNumberInt n
  else if (- 2 ^ 40 <? n) && (n <? 2 ^ 40) then VNumberDouble (double_bits n)
  else VNumberLong n.
Definition bool_val (b : bool) : bson_value := VBool (if b then chr 1 else chr 0).

(** ** Numbers *)

(** [strtoll] and then, for what does not fit, [strtoull]. *)
Definition date_number : JP Z :=
  s ← jp_input;
  let '(v, endptr, erange) := strtoll s in
  jp_unless (negb (zlen endptr =? zlen s)) (B "Date expecting integer milliseconds")
    (if erange then
       let '(v, endptr, erange) := strtoull s in
       jp_unless (negb erange) (B "Date milliseconds overflow") (jp_move endptr;; mret v)
     else jp_move endptr;; mret (wrap uint64 v)).
(** [strtoul], kept as a [uint32_t]. *)
Definition unsigned_number (overflow expecting : bytes) : JP Z :=
  s ← jp_input;
  let '(v, endptr, erange) := strtoul s in
  jp_unless (negb erange) overflow
    (jp_unless (negb (zlen endptr =? zlen s)) expecting
       (jp_move endptr;; mret (wrap uint32 v))).
(** [strtoll] or [strtol], kept in a type. *)
Definition signed_number (t : int_type) (overflow expecting : bytes) : JP Z :=
  s ← jp_input;
  let '(v, endptr, erange) := strtol s in
  jp_unless (negb erange) overflow
    (jp_unless (negb (zlen endptr =? zlen s)) expecting
       (jp_move endptr;; mret (wrap t v))).

Definition number (used : Z) (fieldName : bytes) : JP BSONObj :=
  s ← jp_input;
  let '(retd, endptrd, erange) := strtod s in
  jp_unless (negb (zlen endptrd =? zlen s)) (B "Bad characters in value")
    (jp_unless (negb erange) (B "Value cannot fit in double")
      (let '(retll, endptrll, erange) := strtoll s in
       o ← append used fieldName
             (if (zlen endptrd <? zlen endptrll) || erange then VNumberDouble retd
              else if retll =? wrap int32 retll then VNumberInt retll
              else VNumberLong retll);
       jp_move endptrd;;
       jp_unless (0 <? zlen endptrd) (B "Trailing number at end of input") (mret o))).

(** ** The special objects and the shell's constructors *)

Definition hex_oid (used : Z) (fieldName id : bytes) : JP BSONObj :=
  jp_unless (zlen id =? 24) (B "Expecting 24 hex digits: " ++ id)
    (jp_unless (isHexString id) (B "Expecting hex digits: " ++ id)
      (oid ← jp_throws (OID_init_string id); append used fieldName (VjstOID oid))).
Definition objectIdObject (used : Z) (fieldName : bytes) : JP BSONObj :=
  expect (B ":") (B "Expected ':'");;
  id ← quotedString; hex_oid used fieldName id.
Definition objectId (used : Z) (fieldName : bytes) : JP BSONObj :=
  expect (B "(") (B "Expecting '('");;
  id ← quotedString;
  expect (B ")") (B "Expecting ')'");;
  hex_oid used fieldName id.

(** [fromHex(binDataType)], of the first two characters. *)
Definition fromHex_string (s : bytes) : M char :=
  match s with c0 :: c1 :: _ => fromHex_pair c0 c1 | _ => Throw EUndefined end.
Definition binaryObject (used : Z) (fieldName : bytes) : JP BSONObj :=
  expect (B ":") (B "Expected ':'");;
  binDataString ← quotedString;
  jp_unless (zlen binDataString mod 4 =? 0) (B "Invalid length base64 encoded string")
    (jp_unless (isBase64String binDataString) (B "Invalid character in base64 encoded string")
      (binData ← jp_throws (base64_decode binDataString);
       expect (B ",") (B "Expected ','");;
       expect_field (B "$type") (B "Expected second field name in $binary object");;
       expect (B ":") (B "Expected ':'");;
       binDataType ← quotedString;
       jp_unless ((zlen binDataType =? 2) && isHexString binDataType)
         (B "Argument of $type must be a hex string representation of a single byte")
         (t ← jp_throws (fromHex_string binDataType);
          append used fieldName (VBinData t binData)))).

Definition quoted_long : JP Z :=
  numberLongString ← quotedString;
  jp_status (parseNumberFromStringWithBase int64 numberLongString 0).
Definition dateObject (used : Z) (fieldName : bytes) : JP BSONObj :=
  expect (B ":") (B "Expected ':'");;
  date ← jp_if (peekToken DOUBLEQUOTE)
           (dateString ← quotedString; r ← jp_throws (dateFromISOString dateString); jp_status r)
         (jp_if (readToken (B "{"))
           (name ← field;
            jp_unless (bool_decide (name = B "$numberLong"))
              (B "Expected field name: $numberLong for $date value object")
              (expect (B ":") (B "Expecting ':'");;
               n ← quoted_long; mret (wrap uint64 n)))
           date_number);
  append_unchecked used fieldName (VDate date).

Definition seconds_and_increment (check_i : JP unit) (increment : bytes) : JP (Z * Z) :=
  jp_if (readToken (B "-")) (parseError (B "Negative seconds in $timestamp"))
    (seconds ← unsigned_number (B "Timestamp seconds overflow")
                 (B "Expecting unsigned integer seconds in $timestamp");
     expect (B ",") (B "Expecting ','");;
     check_i;;
     jp_if (readToken (B "-")) (parseError (B "Negative " ++ increment ++ B " in $timestamp"))
       (count ← unsigned_number (B "Timestamp increment overflow")
                  (B "Expecting unsigned integer increment in $timestamp");
        mret (seconds, count))).
Definition timestampObject (used : Z) (fieldName : bytes) : JP BSONObj :=
  expect (B ":") (B "Expecting ':'");;
  expect (B "{") (B "Expecting '{' to start $timestamp object");;
  expect_field (B "t") (B "Expected field name t in $timestamp sub object");;
  expect (B ":") (B "Expecting ':'");;
  '(seconds, count) ← seconds_and_increment
     (expect_field (B "i") (B "Expected field name i in $timestamp sub object");;
      expect (B ":") (B "Expecting ':'")) (B "increment");
  expect (B "}") (B "Expecting '}'");;
  append used fieldName (VTimestamp count seconds).
Definition timestamp (used : Z) (fieldName : bytes) : JP BSONObj :=
  expect (B "(") (B "Expecting '('");;
  '(seconds, count) ← seconds_and_increment (mret tt) (B "seconds");
  expect (B ")") (B "Expecting ')'");;
  append used fieldName (VTimestamp count seconds).

Definition regexObject (used : Z) (fieldName : bytes) : JP BSONObj :=
  expect (B ":") (B "Expecting ':'");;
  pat ← quotedString;
  jp_if (readToken (B ","))
    (expect_field (B "$options") (B "Expected field name: $options in $regex object");;
     expect (B ":") (B "Expecting ':'");;
     opt ← quotedString;
     regexOptCheck opt;;
     append_regex used fieldName pat opt)
    (append_regex used fieldName pat []).
Definition regex (used : Z) (fieldName : bytes) : JP BSONObj :=
  expect (B "/") (B "Expecting '/'");;
  pat ← regexPat;
  expect (B "/") (B "Expecting '/'");;
  opt ← regexOpt;
  regexOptCheck opt;;
  append_regex used fieldName pat opt.

Definition undefinedObject (used : Z) (fieldName : bytes) : JP BSONObj :=
  expect (B ":") (B "Expecting ':'");;
  expect (B "true") (B "Reserved field $undefined requires value of true");;
  append_unchecked used fieldName VUndefined.
Definition numberLongObject (used : Z) (fieldName : bytes) : JP BSONObj :=
  expect (B ":") (B "Expecting ':'");;
  n ← quoted_long; append used fieldName (number_value n).
Definition minKeyObject (used : Z) (fieldName : bytes) : JP BSONObj :=
  expect (B ":") (B "Expecting ':'");;
  expect (B "1") (B "Reserved field $minKey requires value of 1");;
  append used fieldName VMinKey.
Definition maxKeyObject (used : Z) (fieldName : bytes) : JP BSONObj :=
  expect (B ":") (B "Expecting ':'");;
  expect (B "1") (B "Reserved field $maxKey requires value of 1");;
  append used fieldName VMaxKey.

Definition date (used : Z) (fieldName : bytes) : JP BSONObj :=
  expect (B "(") (B "Expecting '('");;
  d ← date_number;
  expect (B ")") (B "Expecting ')'");;
  append_unchecked used fieldName (VDate d).
(** [constructor] calls [date] and drops its [Status]. *)
Definition drop_status (m : JP BSONObj) : JP BSONObj := fun s =>
  match m s with
  | Ret (Throw _, s') => Ret (Ret [], s')
  | r => r
  end.
Definition constructor (used : Z) (fieldName : bytes) : JP BSONObj :=
  jp_if (readToken (B "Date")) (drop_status (date used fieldName))
    (parseError (B "new keyword not followed by Date constructor")).
Definition numberLong (used : Z) (fieldName : bytes) : JP BSONObj :=
  expect (B "(") (B "Expecting '('");;
  n ← signed_number int64 (B "NumberLong out of range") (B "Expecting number in NumberLong");
  expect (B ")") (B "Expecting ')'");;
  append used fieldName (number_value n).
Definition numberInt (used : Z) (fieldName : bytes) : JP BSONObj :=
  expect (B "(") (B "Expecting '('");;
  n ← signed_number int32 (B "NumberInt out of range") (B "Expecting unsigned number in NumberInt");
  expect (B ")") (B "Expecting ')'");;
  append used fieldName (VNumberInt n).

(** ** Values, objects and arrays *)

Section Nested.
Context (value : Z -> bytes -> JP BSONObj).

(** [subobjStart] and [subarrayStart] check the name first, and the builder
    inside skips its length and reserves a byte. *)
Definition sub_builder (used : Z) (fieldName : bytes) (wrap_ : BSONObj -> bson_value)
    (body : Z -> JP BSONObj) : JP BSONObj :=
  used ← jp_throws (checkFieldName fieldName;; write used [1; zlen fieldName + 1; 4; 1]);
  o ← body used; mret [(fieldName, wrap_ o)].

Definition dbRefObject (used : Z) (fieldName : bytes) : JP BSONObj :=
  sub_builder used fieldName VObject (fun used =>
    expect (B ":") (B "DBRef: Expecting ':'");;
    ns ← quotedString;
    ref ← append used (B "$ref") (VString ns);
    expect (B ",") (B "DBRef: Expecting ','");;
    expect_field (B "$id") (B "DBRef: Expected field name: $id in $ref object");;
    expect (B ":") (B "DBRef: Expecting ':'");;
    id ← value (used_after used ref) (B "$id");
    o ← jp_if (readToken (B ","))
      (expect_field (B "$db") (B "DBRef: Expected field name: $db in $ref object");;
       expect (B ":") (B "DBRef: Expecting ':'");;
       db ← quotedString;
       d ← append (used_after used (ref ++ id)) (B "$db") (VString db);
       mret ((ref ++ id) ++ d))
      (mret (ref ++ id));
    done_ o;;
    mret o).
Definition dbRef (used : Z) (fieldName : bytes) : JP BSONObj :=
  sub_builder used fieldName VObject (fun used =>
    expect (B "(") (B "Expecting '('");;
    ns ← quotedString;
    ref ← append used (B "$ref") (VString ns);
    expect (B ",") (B "Expecting ','");;
    id ← value (used_after used ref) (B "$id");
    o ← jp_if (readToken (B ","))
          (db ← quotedString;
           d ← append (used_after used (ref ++ id)) (B "$db") (VString db);
           mret ((ref ++ id) ++ d))
          (mret (ref ++ id));
    expect (B ")") (B "Expecting ')'");;
    done_ o;;
    mret o).

(** The loops run once for each comma; the text bounds their number.  [acc]: the
    elements that are in the builder already. *)
Fixpoint members (fuel : nat) (used : Z) (acc : BSONObj) : JP BSONObj :=
  match fuel with
  | O => jp_throws (Throw EUndefined)
  | S f =>
      jp_if (readToken (B ","))
        (name ← field;
         expect (B ":") (B "Expecting ':'");;
         o ← value (used_after used acc) name;
         members f used (acc ++ o))
        (mret acc)
  end.
Fixpoint items (fuel : nat) (used : Z) (index : Z) (acc : BSONObj) : JP BSONObj :=
  match fuel with
  | O => jp_throws (Throw EUndefined)
  | S f =>
      o ← value (used_after used acc) (print_int index);
      jp_if (readToken (B ",")) (items f used (wrap uint32 (index + 1)) (acc ++ o)) (mret (acc ++ o))
  end.

Definition special_objects : list (bytes * (Z -> bytes -> JP BSONObj)) :=
  [(B "$oid", objectIdObject); (B "$binary", binaryObject); (B "$date", dateObject);
   (B "$timestamp", timestampObject); (B "$regex", regexObject); (B "$ref", dbRefObject);
   (B "$undefined", undefinedObject); (B "$numberLong", numberLongObject);
   (B "$minKey", minKeyObject); (B "$maxKey", maxKeyObject)].
Definition special_object (firstField : bytes) : option (Z -> bytes -> JP BSONObj) :=
  snd <$> find (fun p => bool_decide (firstField = p.1)) special_objects.

Definition object (used : Z) (fieldName : bytes) (subObject : bool) : JP BSONObj :=
  expect (B "{") (B "Expecting '{'");;
  jp_if (readToken (B "}"))
    (if subObject then sub_builder used fieldName VObject (fun _ => done_ [];; mret []) else mret [])
    (firstField ← field;
     o ← match special_object firstField with
         | Some special =>
             jp_unless subObject (B "Reserved field name in base object: " ++ firstField)
               (special used fieldName)
         | None =>
             let body (used : Z) : JP BSONObj :=
               expect (B ":") (B "Expecting ':'");;
               o ← value used firstField;
               s ← jp_input; members (S (length s)) used o in
             if subObject then sub_builder used fieldName VObject body else body used
         end;
     expect (B "}") (B "Expecting '}' or ','");;
     mret o).

Definition array (used : Z) (fieldName : bytes) (subObject : bool) : JP BSONObj :=
  expect (B "[") (B "Expecting '['");;
  let body (used : Z) : JP BSONObj :=
    o ← jp_if (peekToken (B "]")) (mret []) (s ← jp_input; items (S (length s)) used 0 []);
    done_ o;;
    mret o in
  o ← if subObject then sub_builder used fieldName VArray body else body used;
  expect (B "]") (B "Expecting ']' or ','");;
  mret o.

(** The alternatives of [value] that start with a token, tried in this order;
    the others start with a quote, or are numbers. *)
Definition value_body (used : Z) (fieldName : bytes) : JP BSONObj :=
  jp_if (peekToken (B "{")) (object used fieldName true)
  (jp_if (peekToken (B "[")) (array used fieldName true)
  (jp_if (readToken (B "new")) (constructor used fieldName)
  (jp_if (readToken (B "Date")) (date used fieldName)
  (jp_if (readToken (B "Timestamp")) (timestamp used fieldName)
  (jp_if (readToken (B "ObjectId")) (objectId used fieldName)
  (jp_if (readToken (B "NumberLong")) (numberLong used fieldName)
  (jp_if (readToken (B "NumberInt")) (numberInt used fieldName)
  (jp_if (jp_if (readToken (B "Dbref")) (mret true) (readToken (B "DBRef"))) (dbRef used fieldName)
  (jp_if (peekToken (B "/")) (regex used fieldName)
  (jp_if (jp_if (peekToken DOUBLEQUOTE) (mret true) (peekToken SINGLEQUOTE))
     (valueString ← quotedString; append used fieldName (VString valueString))
  (jp_if (readToken (B "true")) (append used fieldName (bool_val true))
  (jp_if (readToken (B "false")) (append used fieldName (bool_val false))
  (jp_if (readToken (B "null")) (append used fieldName VjstNULL)
  (jp_if (readToken (B "undefined")) (append_unchecked used fieldName VUndefined)
  (jp_if (readToken (B "NaN")) (append used fieldName (VNumberDouble quiet_NaN))
  (jp_if (readToken (B "Infinity")) (append used fieldName (VNumberDouble inf_bits))
  (jp_if (readToken (B "-Infinity")) (append used fieldName (VNumberDouble (sign_bit true + inf_bits)))
  (number used fieldName)))))))))))))))))).
End Nested.

(** The nesting of calls, bounded by [fuel]. *)
Fixpoint value (fuel : nat) (used : Z) (fieldName : bytes) : JP BSONObj :=
  match fuel with
  | O => jp_throws (Throw EUndefined)
  | S f => value_body (value f) used fieldName
  end.

Definition parse (fuel : nat) : JP BSONObj :=
  jp_if JParse_isArray (array (value fuel) builder_used (B "UNUSED") false)
    (object (value fuel) builder_used (B "UNUSED") false).

(** [fromjson] of a C string: the object and the length that was read.  The
    parser's exceptions become one of its own, and [obj] does not check the size. *)
Definition is_exception (e : exn) : bool :=
  match e with EUndefined | EInvariant | EFassert _ => false | _ => true end.
Definition fromjson_len (jsonString : bytes) : M (BSONObj * Z) :=
  match jsonString with
  | [] => Ret ([], 0)
  | _ =>
      match parse (S (length jsonString)) jsonString with
      | Ret (Ret o, s) => Ret (o, zlen jsonString - zlen s)
      | Ret (Throw _, _) => Throw (EMassert 16619)
      | Throw e => Throw (if is_exception e then EMassert 17031 else e)
      end
  end.
Definition fromjson (str : bytes) : M BSONObj :=
  fst <$> fromjson_len (span (fun c => negb (ceq c nul)) str).1.

(** [isArray] of a [StringData]. *)
Definition isArray (str : bytes) : bool :=
  match JParse_isArray str with Ret (Ret b, _) => b | _ => false end.

(** ** The buffer

    [grow] is what a [BufBuilder] of at most 64MB does for an append. *)

Lemma doubling_le fuel k minSize : 0 <= k -> 20 < k + Z.of_nat fuel -> minSize <= BufferMaxSize ->
  64 * 2 ^ k <= BufferMaxSize ->
  exists r, reallocate_loop fuel (64 * 2 ^ k) minSize = Ret r /\ r <= BufferMaxSize.
Proof.
  revert k. induction fuel as [|fuel IH]; intros k Hk Hf Hm Ha.
  { assert (2 ^ 21 <= 2 ^ k) by (apply Z.pow_le_mono_r; cbn in Hf; lia). unfold BufferMaxSize in *. lia. }
  cbn [reallocate_loop]. destruct (64 * 2 ^ k <? minSize) eqn:E; [|by eexists].
  replace (64 * 2 ^ k * 2) with (64 * 2 ^ (k + 1)) by (rewrite Z.pow_add_r by lia; lia).
  assert (k < 20).
  { destruct (decide (k < 20)); [done|]. assert (2 ^ 20 <= 2 ^ k) by (apply Z.pow_le_mono_r; lia).
    unfold BufferMaxSize in *. lia. }
  assert (2 ^ (k + 1) <= 2 ^ 20) by (apply Z.pow_le_mono_r; lia).
  assert (0 < 2 ^ (k + 1)) by (apply Z.pow_pos_nonneg; lia).
  rewrite int_result_ok by (unfold in_range; cbn; lia). cbn [mbind result_bind].
  unfold BufferMaxSize in *. apply IH; lia.
Qed.
Lemma doubling_fits b minSize : minSize <= BufferMaxSize ->
  exists a, grow_reallocate b minSize = Ret (mkBufBuilder (bb_data b) a (bb_reservedBytes b)) /\
    minSize <= a <= BufferMaxSize.
Proof.
  intros Hm. destruct (doubling_le 32 0 minSize) as (r & E & Hr); [lia|lia|done|done|].
  change (64 * 2 ^ 0) with 64 in E. assert (BufferMaxSize <= 2 ^ 30) by done.
  destruct (reallocate_ok minSize ltac:(lia)) as (r' & E' & Hr' & _). rewrite E in E'. injection E' as <-.
  exists r. split; [|lia]. unfold grow_reallocate. rewrite E. cbn [mbind result_bind].
  replace (r >? BufferMaxSize) with false by lia. done.
Qed.
(** Bytes fit in a buffer of at most 64MB exactly when [grow] finds room for them. *)
Theorem grow_buffer b src : wf_buf b -> bb_size b <= BufferMaxSize ->
  match grow (BufBuilder_len b + bb_reservedBytes b) (zlen src) with
  | Ret used => exists b', BufBuilder_appendBuf b src = Ret b' /\ wf_buf b' /\ bb_size b' <= BufferMaxSize /\
      bb_data b' = bb_data b ++ src /\ BufBuilder_len b' + bb_reservedBytes b' = used
  | Throw e => BufBuilder_appendBuf b src = Throw e
  end.
Proof.
  intros (Hr & Hl & Hs) Hmax. pose proof (zlen_nonneg src) as Hn. pose proof (zlen_nonneg (bb_data b)) as Hd.
  unfold BufBuilder_appendBuf, BufBuilder_grow, BufBuilder_len in *. unfold grow.
  destruct (int_result (zlen src)) as [n|e] eqn:En; [|done]. apply int_result_Ret in En as [-> Hsrc].
  cbn [mbind result_bind].
  set (used := zlen (bb_data b) + bb_reservedBytes b) in *. set (minSize := used + zlen src).
  assert (int_result minSize = if minSize <=? 2147483647 then Ret minSize else Throw EUndefined) as Em.
  { unfold int_result. destruct (_ <=? _) eqn:E; [rewrite bool_decide_true|rewrite bool_decide_false];
      try done; unfold in_range; cbn; lia. }
  assert ((newLen ← int_result (zlen (bb_data b) + zlen src); int_result (newLen + bb_reservedBytes b))
    = int_result minSize) as Ei.
  { destruct (decide (in_range int32 (zlen (bb_data b) + zlen src))) as [H1|H1].
    - rewrite (int_result_ok _ H1). cbn [mbind result_bind]. f_equal. unfold minSize, used. lia.
    - assert (int_result (zlen (bb_data b) + zlen src) = Throw EUndefined) as ->
        by (unfold int_result; by rewrite (bool_decide_eq_false_2 _ H1)).
      rewrite Em. cbn [mbind result_bind].
      replace (minSize <=? 2147483647) with false; [done|].
      unfold minSize, used. unfold in_range in H1. cbn in H1. lia. }
  assert (forall A (k : Z -> M A), (newLen ← int_result (zlen (bb_data b) + zlen src);
      minSize ← int_result (newLen + bb_reservedBytes b); k minSize) = (m ← int_result minSize; k m)) as Ek.
  { intros A k. rewrite <-Ei. by destruct (int_result (zlen (bb_data b) + zlen src)). }
  rewrite Ek, Em. destruct (minSize <=? 2147483647) eqn:E1; [|done]. cbn [mbind result_bind].
  assert (int_max int32 = 2147483647) as Hint by done. assert (BufferMaxSize = 67108864) as HM by done.
  destruct (minSize <=? BufferMaxSize) eqn:E2.
  - destruct (minSize >? bb_size b) eqn:E3.
    + destruct (doubling_fits b minSize ltac:(lia)) as (a & -> & Ha). cbn [mbind result_bind].
      eexists. split; [done|]. unfold wf_buf, BufBuilder_len. cbn [bb_data bb_size bb_reservedBytes].
      rewrite zlen_app. unfold minSize, used in *. split_and!; lia || done.
    + cbn [mbind result_bind]. eexists. split; [done|]. unfold wf_buf, BufBuilder_len.
      cbn [bb_data bb_size bb_reservedBytes]. rewrite zlen_app. unfold minSize, used in *. split_and!; lia || done.
  - replace (minSize >? bb_size b) with true by lia. destruct (minSize <=? 2 ^ 30) eqn:E3.
    + unfold grow_reallocate. destruct (reallocate_ok minSize ltac:(lia)) as (r & -> & Hr' & _).
      cbn [mbind result_bind]. by replace (r >? BufferMaxSize) with true by lia.
    + unfold grow_reallocate. change 64 with (64 * 2 ^ 0). by rewrite reallocate_loop_overflow by lia.
Qed.

(** ** Parsing stays inside the text

    [okp n P m]: on a text of at most [n] bytes, which are at most 512MB, [m]
    leaves no longer text behind, throws nothing but exceptions, and its result
    satisfies [P]; [eats m]: when it succeeds it has read something. *)

Definition safe {A} (m : M A) : Prop := match m with Ret _ => True | Throw e => is_exception e = true end.
Definition text_limit : Z := 2 ^ 29.
Definition okp {A} (n : nat) (P : A -> Prop) (m : JP A) : Prop :=
  Z.of_nat n <= text_limit -> forall s, (length s <= n)%nat ->
  match m s with
  | Ret (Ret a, s') => (length s' <= length s)%nat /\ P a
  | Ret (Throw _, s') => (length s' <= length s)%nat
  | Throw e => is_exception e = true
  end.
Abbreviation ok n m := (okp n (fun _ => True) m).
Definition eats {A} (m : JP A) : Prop := forall s a s',
  m s = Ret (Ret a, s') -> (length s' < length s)%nat.
(** A string that comes from the text, and a buffer that has not thrown. *)
Definition short (s : bytes) : Prop := zlen s <= text_limit.
Definition fits (used : Z) : Prop := 0 <= used <= BufferMaxSize.

Lemma safe_bind {A C} (m : M A) (f : A -> M C) :
  safe m -> (forall a, m = Ret a -> safe (f a)) -> safe (m ≫= f).
Proof. destruct m as [a|e]; cbn; [|done]. intros _ H. by apply H. Qed.
Lemma safe_guard b e : (b = false -> is_exception e = true) -> safe (guard_throw b e).
Proof. unfold guard_throw. destruct b; cbn; auto. Qed.

Lemma okp_weaken {A} n n' (P : A -> Prop) (m : JP A) : okp n P m -> (n' <= n)%nat -> Z.of_nat n <= text_limit -> okp n' P m.
Proof. intros H Hn Hl _ s Hs. apply H; lia. Qed.
Lemma okp_impl {A} n (P Q : A -> Prop) (m : JP A) : okp n P m -> (forall a, P a -> Q a) -> okp n Q m.
Proof.
  intros H HPQ Hn s Hs. specialize (H Hn s Hs). destruct (m s) as [[[a|e] s']|e]; [|done|done].
  destruct H. split; [done|by apply HPQ].
Qed.
Lemma okp_ret {A} n (P : A -> Prop) (a : A) : P a -> okp n P (mret a).
Proof. intros H _ s Hs. by split. Qed.
Lemma okp_error {A} n (P : A -> Prop) msg : okp n P (@parseError A msg).
Proof. intros _ s Hs. cbn. lia. Qed.
Lemma okp_throws {A} n (P : A -> Prop) (m : M A) : safe m -> (forall a, m = Ret a -> P a) -> okp n P (jp_throws m).
Proof. intros H HP _ s Hs. unfold jp_throws. destruct m; cbn in *; [by split; [|apply HP]|done]. Qed.
Lemma ok_throws {A} n (m : M A) : safe m -> ok n (jp_throws m).
Proof. intros H. by apply okp_throws. Qed.
Lemma ok_status {A} n (m : StatusWith A) : ok n (jp_status m).
Proof. intros _ s Hs. unfold jp_status. destruct m; [by split|cbn; lia]. Qed.
Lemma okp_bind_eq {A C} n (P : A -> Prop) (Q : C -> Prop) (m : JP A) (f : A -> JP C) : okp n P m ->
  (forall s a s', (length s <= n)%nat -> m s = Ret (Ret a, s') -> P a -> okp (length s') Q (f a)) ->
  okp n Q (m ≫= f).
Proof.
  intros Hm Hf Hn s Hs. unfold mbind, JP_bind. specialize (Hm Hn s Hs).
  destruct (m s) as [[[a|e] s']|e] eqn:E; [|done|done]. destruct Hm as [Hl HP].
  specialize (Hf s a s' Hs E HP ltac:(lia) s' ltac:(lia)).
  destruct (f a s') as [[[r|?] s'']|e]; [destruct Hf; split; [lia|done]|lia|done].
Qed.
Lemma okp_bind {A C} n (P : A -> Prop) (Q : C -> Prop) (m : JP A) (f : A -> JP C) :
  okp n P m -> (forall a, P a -> okp n Q (f a)) -> okp n Q (m ≫= f).
Proof.
  intros Hm Hf Hn. revert Hn. intros Hn. refine (okp_bind_eq n P Q m f Hm _ Hn). intros s a s' Hs E HP.
  specialize (Hm Hn s Hs). rewrite E in Hm. eapply okp_weaken; [by apply Hf|lia|done].
Qed.
(** After something is read, less text is left. *)
Lemma okp_bind_eats {A C} n (P : A -> Prop) (Q : C -> Prop) (m : JP A) (f : A -> JP C) : okp n P m -> eats m ->
  (forall a k, (k < n)%nat -> P a -> okp k Q (f a)) -> okp n Q (m ≫= f).
Proof.
  intros Hm He Hf. eapply okp_bind_eq; [done|]. intros s a s' Hs E HP.
  specialize (He s a s' E). apply Hf; [lia|done].
Qed.
Lemma okp_if {A} n (P : A -> Prop) (c : JP bool) (t e : JP A) : ok n c -> okp n P t -> okp n P e -> okp n P (jp_if c t e).
Proof.
  intros Hc Ht He Hn s Hs. unfold jp_if. specialize (Hc Hn s Hs).
  destruct (c s) as [[[[]|x] s']|x]; try done; destruct Hc as [Hc _];
    [specialize (Ht Hn s' ltac:(lia)); destruct (t s') as [[[?|?] ?]|]
    |specialize (He Hn s' ltac:(lia)); destruct (e s') as [[[?|?] ?]|]]; try done; try lia;
    [destruct Ht|destruct He]; (split; [lia|done]).
Qed.
Lemma okp_unless {A} n (P : A -> Prop) b msg (m : JP A) : (b = true -> okp n P m) -> okp n P (jp_unless b msg m).
Proof. intros H. unfold jp_unless. destruct b; [by apply H|apply okp_error]. Qed.

Lemma skip_space_length s : (length (skip_space s) <= length s)%nat.
Proof. induction s as [|c s IH]; cbn; [lia|]. destruct (isspace c); cbn; lia. Qed.
Lemma strip_prefix_length t s s' :
  strip_prefix t s = Some s' -> length s = (length t + length s')%nat.
Proof.
  revert s. induction t as [|c t IH]; intros s; cbn; [by intros [= ->]|].
  destruct s as [|x s]; [done|]. destruct (ceq c x); [|done]. intros H. apply IH in H. cbn. lia.
Qed.
Lemma readTokenImpl_true token advance s s' :
  readTokenImpl token advance s = Ret (Ret true, s') ->
  advance = true -> (length s' + length token <= length s)%nat.
Proof.
  unfold readTokenImpl. destruct (strip_prefix token (skip_space s)) as [r|] eqn:E; [|done].
  intros [= <-] ->. apply strip_prefix_length in E. pose proof (skip_space_length s). lia.
Qed.
Lemma ok_token n token advance : ok n (readTokenImpl token advance).
Proof.
  intros _ s Hs. unfold readTokenImpl.
  destruct (strip_prefix token (skip_space s)) as [r|] eqn:E; [|by split].
  apply strip_prefix_length in E. pose proof (skip_space_length s). split; [|done]. destruct advance; lia.
Qed.
Lemma ok_readToken n token : ok n (readToken token).
Proof. apply ok_token. Qed.
Lemma ok_peekToken n token : ok n (peekToken token).
Proof. apply ok_token. Qed.
Lemma ok_expect n token msg : ok n (expect token msg).
Proof. apply okp_if; [apply ok_token|by apply okp_ret|apply okp_error]. Qed.
Lemma eats_expect token msg : token <> [] -> eats (expect token msg).
Proof.
  intros Ht s [] s'. unfold expect, jp_if, readToken.
  destruct (readTokenImpl token true s) as [[[[]|?] r]|?] eqn:E; try done.
  intros [= <-]. apply readTokenImpl_true in E; [|done]. destruct token; [done|]. cbn in E. lia.
Qed.

Lemma safe_fromHex_pair a b : safe (fromHex_pair a b).
Proof. unfold fromHex_pair, fromHex. repeat (case_match; cbn; try done). Qed.
Lemma encodeUTF8_length a b : (length (encodeUTF8 a b) <= 3)%nat.
Proof. unfold encodeUTF8. repeat case_match; cbn; lia. Qed.
(** What is read is no longer than the text it stands for. *)
Lemma chars_loop_ok term allowed q acc :
  match chars_loop term allowed q acc with
  | Ret (Ret r, Some s') => (length r + length s' <= length acc + length q)%nat
  | Ret (Ret _, None) => False
  | Ret (Throw _, s') => s' = None
  | Throw e => is_exception e = true
  end.
Proof.
  remember (length q) as n eqn:Hn. revert q Hn acc.
  induction n as [n IH] using lt_wf_ind. intros q Hn acc. subst n.
  assert (forall q' acc', (length q' < length q)%nat -> (length acc' + length q' <= length acc + length q)%nat ->
    match chars_loop term allowed q' acc' with
    | Ret (Ret r, Some s') => (length r + length s' <= length acc + length q)%nat
    | Ret (Ret _, None) => False
    | Ret (Throw _, s') => s' = None
    | Throw e => is_exception e = true
    end) as IH'.
  { intros q' acc' Hl Hle. specialize (IH _ Hl q' eq_refl acc').
    destruct (chars_loop term allowed q' acc') as [[[?|?] [?|]]|]; try done. lia. }
  clear IH. destruct q as [|c q1]; [done|]. cbn [chars_loop].
  destruct (match_ c term); [done|].
  destruct (match allowed with Some a => negb (match_ c a) | None => false end); [done|].
  destruct (control c); [done|].
  destruct (ceq c backslash); [|apply IH'; rewrite ?length_app; cbn; lia].
  destruct q1 as [|e q2]; [apply IH'; rewrite ?length_app; cbn; lia|].
  destruct (lookup_char e simple_escapes); [apply IH'; rewrite ?length_app; cbn; lia|].
  destruct (ceq e "u"%char).
  { destruct q2 as [|h0 [|h1 [|h2 [|h3 [|h4 q3]]]]]; try done.
    destruct (isHexString [h0; h1; h2; h3]); [|done].
    pose proof (safe_fromHex_pair h0 h1) as S1. pose proof (safe_fromHex_pair h2 h3) as S2.
    destruct (fromHex_pair h0 h1) as [f1|]; [|done]. destruct (fromHex_pair h2 h3) as [f2|]; [|done].
    cbn [mbind result_bind]. pose proof (encodeUTF8_length f1 f2).
    apply IH'; rewrite ?length_app; cbn [length]; lia. }
  destruct (ceq e "x"%char); [done|].
  destruct (bool_decide _); [done|]. apply IH'; rewrite ?length_app; cbn; lia.
Qed.
Lemma okp_chars n term allowed : okp n short (chars term allowed).
Proof.
  intros Hn s Hs. unfold chars. pose proof (chars_loop_ok term allowed s []) as H.
  destruct (chars_loop term allowed s []) as [[[r|r] [s'|]]|e]; cbn in *; try done.
  split; [lia|]. unfold short, zlen. lia.
Qed.
Lemma okp_quotedString n : okp n short quotedString.
Proof.
  unfold quotedString. apply okp_if; [apply ok_token| |apply okp_if; [apply ok_token| |apply okp_error]];
    (eapply okp_bind; [apply okp_chars|]; intros r Hr; eapply okp_bind; [apply ok_expect|];
     intros _ _; by apply okp_ret).
Qed.
Lemma ok_regexOptCheck n opt : ok n (regexOptCheck opt).
Proof. unfold regexOptCheck. destruct (find _ _); [apply okp_error|by apply okp_ret]. Qed.
Lemma okp_field n : okp n short field.
Proof.
  apply okp_if; [apply ok_token|apply okp_quotedString|].
  apply okp_if; [apply ok_token|apply okp_quotedString|].
  intros Hn s Hs. unfold unquotedField, mbind, JP_bind, jp_input, jp_move. pose proof (skip_space_length s) as Hl.
  destruct (skip_space s) as [|c r]; [cbn; lia|].
  cbn beta iota. unfold jp_unless. destruct (match_ c _); [|cbn in *; lia].
  pose proof (okp_chars n [] (Some (ALPHA ++ DIGIT ++ B "_$")) Hn (c :: r) ltac:(lia)) as H.
  destruct (chars _ _ _) as [[[?|?] ?]|]; [destruct H; split; [lia|done]|lia|done].
Qed.
Lemma ok_readField n name : ok n (readField name).
Proof.
  intros Hn s Hs. unfold readField. pose proof (okp_field n Hn s Hs) as H.
  destruct (field s) as [[[?|?] ?]|?]; [by destruct H|by split|done].
Qed.
Lemma ok_expect_field n name msg : ok n (expect_field name msg).
Proof. apply okp_if; [apply ok_readField|by apply okp_ret|apply okp_error]. Qed.

(** *** Appending *)

Lemma grow_spec used n : fits used -> 0 <= n <= text_limit + 1 ->
  match grow used n with Ret u => u = used + n /\ fits u | Throw e => is_exception e = true end.
Proof.
  unfold fits, grow, text_limit. assert (BufferMaxSize = 67108864) as HM by done. intros Hu Hn.
  rewrite int_result_ok by (unfold in_range; cbn; lia). cbn [mbind result_bind].
  rewrite int_result_ok by (unfold in_range; cbn; lia). cbn [mbind result_bind].
  destruct (_ <=? BufferMaxSize) eqn:E; [split; lia|].
  replace (used + n <=? 2 ^ 30) with true by lia. done.
Qed.
Definition total (sizes : list Z) : Z := foldr Z.add 0 sizes.
Lemma write_spec used sizes : fits used -> Forall (fun n => 0 <= n <= text_limit + 1) sizes ->
  match write used sizes with Ret u => u = used + total sizes /\ fits u | Throw e => is_exception e = true end.
Proof.
  intros Hu Hs. revert used Hu. induction Hs as [|n sizes Hn Hs IH]; intros used Hu; cbn [write total foldr].
  { split; [lia|done]. }
  pose proof (grow_spec used n Hu Hn) as Hg. destruct (grow used n) as [u|e]; [|done].
  destruct Hg as [-> Hu']. cbn [mbind result_bind]. specialize (IH _ Hu').
  destruct (write _ sizes) as [u|e]; [|done]. destruct IH as [-> ?]. unfold total. split; [lia|done].
Qed.

(** A value that is appended, in the pieces that are written. *)
Definition sized (v : bson_value) : Prop :=
  Forall (fun n => 0 <= n <= text_limit + 1) (value_sizes v) /\ total (value_sizes v) = zlen (encode_value v).
Lemma used_after_one used name v : used_after used [(name, v)] = used + 2 + zlen name + zlen (encode_value v).
Proof. unfold used_after. cbn [encode_elements flat_map]. rewrite app_nil_r, zlen_encode_element. cbn [fst snd]. lia. Qed.
Lemma used_after_app used o o' : used_after used (o ++ o') = used_after (used_after used o) o'.
Proof. unfold used_after. rewrite encode_elements_app, zlen_app. lia. Qed.
Lemma write_element_spec used name v : fits used -> short name -> sized v ->
  match write_element used name v with
  | Ret u => u = used_after used [(name, v)] /\ fits u | Throw e => is_exception e = true end.
Proof.
  intros Hu Hn [Hs Ht]. unfold write_element, short, text_limit in *. pose proof (zlen_nonneg name).
  pose proof (write_spec used (1 :: (zlen name + 1) :: value_sizes v) Hu) as H1.
  destruct (write used _) as [u|e]; [|apply H1; repeat constructor; unfold text_limit; lia || done].
  destruct H1 as [-> Hf]; [repeat constructor; unfold text_limit; lia || done|].
  split; [|done]. rewrite used_after_one, <-Ht. unfold total. cbn [foldr]. lia.
Qed.
Lemma sized_of v n : value_sizes v = [n] -> n = zlen (encode_value v) -> n <= text_limit -> sized v.
Proof.
  intros E En Hn. unfold sized. rewrite E. pose proof (zlen_nonneg (encode_value v)). split.
  - apply Forall_singleton. lia.
  - unfold total. cbn. lia.
Qed.
Lemma sized_string s : short s -> sized (VString s).
Proof.
  unfold short, text_limit. intros H. pose proof (zlen_nonneg s). split.
  - repeat constructor; unfold text_limit; lia.
  - unfold total. cbn [value_sizes foldr encode_value]. rewrite zlen_encode_string. lia.
Qed.
Lemma sized_binary t s : short s -> sized (VBinData t s).
Proof.
  unfold short, text_limit. intros H. pose proof (zlen_nonneg s). split.
  - repeat constructor; unfold text_limit; lia.
  - unfold total. cbn [value_sizes foldr encode_value]. rewrite zlen_app, zlen_cons, zlen_le4. lia.
Qed.
Lemma sized_regex r f : short r -> short f -> sized (VRegEx r f).
Proof.
  unfold short, text_limit. intros Hr Hf. pose proof (zlen_nonneg r). pose proof (zlen_nonneg f). split.
  - repeat constructor; unfold text_limit; lia.
  - unfold total. cbn [value_sizes foldr encode_value]. rewrite zlen_app, zlen_cons, zlen_app.
    change (zlen [nul]) with 1. lia.
Qed.
Lemma sized_oid oid : short oid -> sized (VjstOID oid).
Proof. intros H. by eapply sized_of. Qed.
Definition fixed (v : bson_value) : bool :=
  match v with
  | VMinKey | VUndefined | VjstNULL | VMaxKey | VNumberDouble _ | VBool _ | VDate _ | VNumberInt _
  | VTimestamp _ _ | VNumberLong _ => true
  | _ => false
  end.
Lemma sized_fixed v : fixed v = true -> sized v.
Proof. intros H. destruct v; try discriminate H; (eapply sized_of; [reflexivity|reflexivity|by vm_compute]). Qed.
Lemma sized_number n : sized (number_value n).
Proof. apply sized_fixed. unfold number_value. by repeat case_match. Qed.

Lemma safe_element used name v : fits used -> short name -> sized v -> safe (write_element used name v).
Proof.
  intros Hu Hn Hv. pose proof (write_element_spec used name v Hu Hn Hv) as H. unfold safe. by destruct (write_element _ _ _).
Qed.
Lemma fits_element used name v u : fits used -> short name -> sized v -> write_element used name v = Ret u ->
  fits (used_after used [(name, v)]).
Proof.
  intros Hu Hn Hv E. pose proof (write_element_spec used name v Hu Hn Hv) as H. rewrite E in H. by destruct H as [<- ?].
Qed.
Abbreviation builds n used m := (okp n (fun o => fits (used_after used o)) m).
Lemma okp_append n used name v : fits used -> short name -> sized v -> builds n used (append used name v).
Proof.
  intros Hu Hn Hv. eapply (okp_bind n (fun _ => fits (used_after used [(name, v)])));
    [|intros u Hf; by apply okp_ret]. apply okp_throws.
  - apply safe_bind; [by apply safe_guard|intros _ _; by apply safe_element].
  - intros u Hw. destruct (checkFieldName name); [|done]. by eapply fits_element.
Qed.
Lemma okp_append_unchecked n used name v : fits used -> short name -> sized v ->
  builds n used (append_unchecked used name v).
Proof.
  intros Hu Hn Hv. eapply (okp_bind n (fun _ => fits (used_after used [(name, v)])));
    [|intros u Hf; by apply okp_ret]. apply okp_throws; [by apply safe_element|].
  intros u Hw. by eapply fits_element.
Qed.
Lemma okp_append_regex n used name pat opt : fits used -> short name -> short pat -> short opt ->
  builds n used (append_regex used name pat opt).
Proof.
  intros Hu Hn Hp Ho. pose proof (sized_regex pat opt Hp Ho) as Hv.
  eapply (okp_bind n (fun _ => fits (used_after used [(name, VRegEx pat opt)]))); [|intros u Hf; by apply okp_ret].
  apply okp_throws.
  - apply safe_bind; [by apply safe_guard|intros _ _]. apply safe_bind; [by apply safe_guard|intros _ _].
    by apply safe_element.
  - intros u Hw. destruct (checkFieldName name); [|done]. cbn [mbind result_bind] in Hw.
    destruct (uassert 0 _); [|done]. by eapply fits_element.
Qed.

(** The number scanners give back a suffix. *)
Lemma span_length p s : (length (span p s).2 <= length s)%nat.
Proof.
  induction s as [|c s IH]; cbn; [lia|]. destruct (p c); cbn; [|lia].
  destruct (span p s) as [a b]. cbn in *. lia.
Qed.
Lemma extractSign_length s : (length (_extractSign s).2 <= length s)%nat.
Proof. destruct s as [|c s]; cbn; [lia|]. repeat case_match; cbn; lia. Qed.
Lemma strip_nocase_length w s r : strip_nocase w s = Some r -> (length r <= length s)%nat.
Proof.
  revert s. induction w as [|c w IH]; intros s; cbn; [intros [= ->]; lia|].
  destruct s as [|x s]; [done|]. destruct (lower_is x c); [|done]. intros H. apply IH in H. cbn. lia.
Qed.
Lemma strto_length t s : (length (strto t s).1.2 <= length s)%nat.
Proof.
  unfold strto. pose proof (skip_space_length s). pose proof (extractSign_length (skip_space s)).
  destruct (_extractSign (skip_space s)) as [neg s1]. pose proof (span_length isdigit s1).
  destruct (span isdigit s1) as [ds r]. cbn in *. repeat case_match; cbn; lia.
Qed.
Lemma scan_exponent_length mark s : (length (scan_exponent mark s).2 <= length s)%nat.
Proof.
  destruct s as [|c s]; cbn [scan_exponent]; [cbn; lia|]. destruct (lower_is c mark); [|cbn; lia].
  pose proof (extractSign_length s). destruct (_extractSign s) as [neg s2].
  pose proof (span_length isdigit s2). destruct (span isdigit s2) as [ds r]. cbn in *.
  case_match; cbn; lia.
Qed.
Lemma scan_mantissa_length p s ds f r :
  scan_mantissa p s = Some (ds, f, r) -> (length r <= length s)%nat.
Proof.
  unfold scan_mantissa. pose proof (span_length p s). destruct (span p s) as [i s1]. cbn in *.
  assert (length (match s1 with
                  | c :: s' => if ceq c "."%char then span p s' else ([], s1)
                  | [] => ([], s1) end).2 <= length s1)%nat as Hl.
  { destruct s1 as [|c s']; [done|]. destruct (ceq c "."%char); [|done].
    pose proof (span_length p s'). cbn. lia. }
  match goal with |- context [let '(f, s2) := ?m in _] => destruct m as [f' s2] end. cbn in *. case_match; [done|].
  intros [= <- <- <-]. lia.
Qed.
Lemma scan_decimal_length s b e r : scan_decimal s = Some (b, e, r) -> (length r <= length s)%nat.
Proof.
  unfold scan_decimal. destruct (scan_mantissa isdigit s) as [[[ds f] s1]|] eqn:E; [|done].
  apply scan_mantissa_length in E. cbn. pose proof (scan_exponent_length "e"%char s1).
  destruct (scan_exponent "e"%char s1) as [ex s2]. destruct (scaled_double _ _ _ _) as [bits er].
  cbn in *. intros [= <- <- <-]. lia.
Qed.
Lemma scan_hex_length s b e r : scan_hex s = Some (b, e, r) -> (length r <= length s)%nat.
Proof.
  unfold scan_hex. destruct (strip_nocase _ s) as [s0|] eqn:E0; [|done]. cbn.
  apply strip_nocase_length in E0.
  destruct (scan_mantissa isxdigit s0) as [[[ds f] s1]|] eqn:E; [|done].
  apply scan_mantissa_length in E. cbn. pose proof (scan_exponent_length "p"%char s1).
  destruct (scan_exponent "p"%char s1) as [ex s2]. destruct (scaled_double _ _ _ _) as [bits er].
  cbn in *. intros [= <- <- <-]. lia.
Qed.
Lemma scan_nan_word_length s : (length (scan_nan_word s) <= length s)%nat.
Proof.
  destruct s as [|c s]; cbn [scan_nan_word]; [lia|]. destruct (ceq c "("%char); [|lia].
  match goal with |- context [span ?p s] => pose proof (span_length p s); destruct (span p s) as [a r] end.
  cbn in *. destruct r as [|c2 r]; cbn in *; [lia|]. destruct (ceq c2 ")"%char); cbn; lia.
Qed.
Lemma scan_word_length s b e r : scan_word s = Some (b, e, r) -> (length r <= length s)%nat.
Proof.
  unfold scan_word. destruct (strip_nocase (B "infinity") s) as [r1|] eqn:E1.
  { apply strip_nocase_length in E1. intros [= <- <- <-]. lia. }
  destruct (strip_nocase (B "inf") s) as [r1|] eqn:E2.
  { apply strip_nocase_length in E2. intros [= <- <- <-]. lia. }
  destruct (strip_nocase (B "nan") s) as [r1|] eqn:E3; [|done].
  apply strip_nocase_length in E3. pose proof (scan_nan_word_length r1). intros [= <- <- <-]. lia.
Qed.
Lemma strtod_length s : (length (strtod s).1.2 <= length s)%nat.
Proof.
  unfold strtod. pose proof (skip_space_length s). pose proof (extractSign_length (skip_space s)).
  destruct (_extractSign (skip_space s)) as [neg s1]. cbn [fst snd] in *.
  destruct (scan_word s1) as [[[b e] r]|] eqn:E1. { apply scan_word_length in E1. cbn. lia. }
  destruct (scan_hex s1) as [[[b e] r]|] eqn:E2; [apply scan_hex_length in E2; cbn; lia|].
  destruct (scan_decimal s1) as [[[b e] r]|] eqn:E3; [apply scan_decimal_length in E3; cbn; lia|].
  cbn. lia.
Qed.

Lemma okp_input {A} n P (f : bytes -> JP A) :
  (Z.of_nat n <= text_limit -> forall s, (length s <= n)%nat ->
     match f s s with
     | Ret (Ret a, s') => (length s' <= length s)%nat /\ P a
     | Ret (Throw _, s') => (length s' <= length s)%nat
     | Throw e => is_exception e = true end) ->
  okp n P (s ← jp_input; f s).
Proof. intros H Hn s Hs. by apply H. Qed.
Lemma move_ret {A} s r (a : A) : (jp_move r;; mret a) s = Ret (Ret a, r).
Proof. reflexivity. Qed.

Lemma ok_date_number n : ok n date_number.
Proof.
  apply okp_input. intros _ s Hs. pose proof (strto_length int64 s). unfold strtoll.
  destruct (strto int64 s) as [[v endptr] er]. unfold jp_unless. cbn in H.
  destruct (negb _); [|cbn; lia]. destruct er; [|rewrite move_ret; split; [lia|done]].
  pose proof (strto_length uint64 s). unfold strtoull.
  destruct (strto uint64 s) as [[v2 endptr2] er2]. cbn in H0.
  destruct (negb er2); [rewrite move_ret; split; [lia|done]|cbn; lia].
Qed.
Lemma ok_unsigned_number n m1 m2 : ok n (unsigned_number m1 m2).
Proof.
  apply okp_input. intros _ s Hs. pose proof (strto_length uint64 s). unfold strtoul.
  destruct (strto uint64 s) as [[v endptr] er]. unfold jp_unless. cbn in H.
  destruct (negb er); [|cbn; lia]. destruct (negb _); [rewrite move_ret; split; [lia|done]|cbn; lia].
Qed.
Lemma ok_signed_number n t m1 m2 : ok n (signed_number t m1 m2).
Proof.
  apply okp_input. intros _ s Hs. pose proof (strto_length int64 s). unfold strtol.
  destruct (strto int64 s) as [[v endptr] er]. unfold jp_unless. cbn in H.
  destruct (negb er); [|cbn; lia]. destruct (negb _); [rewrite move_ret; split; [lia|done]|cbn; lia].
Qed.
Lemma okp_number n used fieldName : fits used -> short fieldName -> builds n used (number used fieldName).
Proof.
  intros Hu Hf. apply okp_input. intros Hn s Hs. pose proof (strtod_length s) as H.
  destruct (strtod s) as [[d endptr] er]. cbn in H. unfold jp_unless at 1.
  destruct (negb _); [|cbn; lia]. unfold jp_unless at 1. destruct (negb er); [|cbn; lia].
  destruct (strtoll s) as [[v endptr2] er2].
  match goal with |- context [append used fieldName ?v] =>
    pose proof (okp_append (length s) used fieldName v Hu Hf ltac:(apply sized_fixed; by repeat case_match)
      ltac:(lia) s ltac:(lia)) as Ha;
    unfold mbind, JP_bind; destruct (append used fieldName v s) as [[[o|x] s']|x] end; try done.
  unfold jp_move. unfold jp_unless. destruct Ha as [Ha Hb]. destruct (0 <? zlen endptr); cbn; [by split|lia].
Qed.

(** Dates: the range of the zone is checked before it is asserted. *)
Lemma safe_substr s pos n : safe (StringData_substr s pos n).
Proof. unfold StringData_substr. case_match; done. Qed.
Lemma safe_parse_int s : safe (parse_int s).
Proof. unfold parse_int. destruct (parseNumberFromStringWithBase _ _ _) as [?|[? ?]]; done. Qed.
Lemma safe_getNextToken s t i : safe (getNextToken s t i).
Proof.
  unfold getNextToken. case_match; [done|]. apply safe_bind; [apply safe_substr|done].
Qed.
Lemma safe_timezone s : safe (parseTimeZoneFromToken s).
Proof.
  unfold parseTimeZoneFromToken. destruct s as [|c s]; [done|].
  destruct (ceq c "Z"%char); [case_match; done|]. case_match; [|done].
  apply safe_bind; [case_match; [apply safe_bind; [apply safe_substr|done]|done]|].
  intros four _. case_match; [done|]. apply safe_bind; [apply safe_substr|intros h _].
  apply safe_bind; [apply safe_parse_int|intros hours _]. case_match; [done|].
  apply safe_bind; [apply safe_substr|intros m _].
  apply safe_bind; [apply safe_parse_int|intros minutes _]. case_match; [done|].
  apply safe_bind; [|done]. apply safe_guard. unfold tz_seconds. case_match; lia.
Qed.
Lemma safe_millis s : safe (parseMillisFromToken s).
Proof.
  unfold parseMillisFromToken. destruct s; [done|]. case_match; [done|].
  apply safe_bind; [apply safe_parse_int|intros ? _]. case_match; done.
Qed.
Lemma safe_field m1 m2 size lo hi s : safe (parse_field m1 m2 size lo hi s).
Proof.
  unfold parse_field. case_match; [done|].
  apply safe_bind; [apply safe_parse_int|intros ? _]. case_match; done.
Qed.
Lemma safe_tm y mo d h mi s : safe (parseTmFromTokens y mo d h mi s).
Proof.
  unfold parseTmFromTokens. do 5 (apply safe_bind; [apply safe_field|intros ? _]).
  apply safe_bind; [|done]. case_match; [done|apply safe_field].
Qed.
Lemma safe_parseTm s : safe (parseTm s).
Proof.
  unfold parseTm.
  do 5 (apply safe_bind; [apply safe_getNextToken|intros [? ?] _]).
  do 2 (apply safe_bind; [case_match; [case_match; [done|]|done];
    apply safe_bind; [apply safe_getNextToken|intros [? ?] _]; case_match; done|intros [? ?] _]).
  apply safe_bind; [repeat case_match; try done; apply safe_getNextToken|intros [? ?] _].
  apply safe_bind; [apply safe_tm|intros ? _].
  apply safe_bind; [apply safe_timezone|intros ? _].
  by apply safe_bind; [apply safe_millis|intros ? _].
Qed.
Lemma safe_date s : safe (dateFromISOString s).
Proof.
  unfold dateFromISOString. pose proof (safe_parseTm s) as H.
  destruct (parseTm s) as [[[? ?] ?]|[]]; try done. by destruct s0.
Qed.
Lemma safe_oid id : safe (OID_init_string id).
Proof.
  unfold OID_init_string. apply safe_bind; [by apply safe_guard|intros _ _].
  assert (forall n p, (length p < n)%nat -> safe (init_hex_loop p)) as H; [|apply (H (S (length id))); lia].
  induction n as [|n IH]; intros [|a [|b p]] Hn; try done; [cbn in Hn; lia|]. cbn.
  apply safe_bind; [apply safe_fromHex_pair|intros ? _].
  apply safe_bind; [apply IH; cbn in Hn; lia|done].
Qed.
Lemma safe_binary_type s : zlen s =? 2 = true -> safe (fromHex_string s).
Proof.
  intros H. destruct s as [|a [|b s]]; [done|done|]. apply safe_fromHex_pair.
Qed.

Lemma init_hex_short id oid : init_hex_loop id = Ret oid -> (length oid <= length id)%nat.
Proof.
  remember (length id) as n eqn:Hn. revert id Hn oid. induction n as [n IH] using lt_wf_ind. intros id -> oid.
  destruct id as [|a [|b p]]; cbn [init_hex_loop]; [by intros [= <-]|intros [= <-]; cbn; lia|].
  destruct (fromHex_pair a b); [|done]. cbn [mbind result_bind].
  destruct (init_hex_loop p) as [r|] eqn:E; [|done]. cbn [mbind result_bind]. intros [= <-].
  specialize (IH (length p) ltac:(cbn; lia) p eq_refl r E). cbn. lia.
Qed.
Lemma decode_short s d : base64_decode s = Ret d -> short s -> short d.
Proof.
  unfold base64_decode. destruct (uassert 10270 _); [|done]. cbn [mbind result_bind]. intros [= <-] Hs.
  assert (forall n t, (length t < n)%nat -> (length (base64_decode_loop t) <= length t)%nat) as H.
  { induction n as [|n IH]; intros t Ht; [lia|]. destruct t as [|c0 [|c1 [|c2 [|c3 t]]]]; cbn [base64_decode_loop length]; try lia.
    rewrite length_app. specialize (IH t ltac:(cbn in Ht; lia)).
    match goal with |- context [take ?k ?l] => assert (length (take k l) <= 3)%nat by (rewrite length_take; cbn; lia) end.
    cbn [length]. lia. }
  unfold short, zlen in *. specialize (H _ (take (Z.to_nat (wrap int32 (Z.of_nat (length s)))) s) (Nat.lt_succ_diag_r _)).
  rewrite length_take in H. lia.
Qed.
Lemma short_index i : 0 <= i < 2 ^ 32 -> short (print_int i).
Proof.
  intros Hi. assert (forall fuel z acc, (length (dec_loop fuel z acc) <= fuel + 1 + length acc)%nat) as H.
  { induction fuel as [|f IH]; intros z acc; cbn [dec_loop length]; [cbn; lia|].
    destruct (z <? 10); [cbn; lia|]. specialize (IH (z / 10) (chr (48 + z mod 10) :: acc)). cbn [length] in IH. lia. }
  unfold short, text_limit, zlen, print_int, print_nonneg. replace (i <? 0) with false by lia.
  specialize (H (Z.to_nat (Z.log2 i)) i []). cbn [length] in H.
  assert (Z.log2 i < 32); [|lia]. destruct (decide (i = 0)) as [->|]; [by vm_compute|]. apply Z.log2_lt_pow2; lia.
Qed.

Create HintDb jp_ok.
#[local] Hint Resolve okp_error ok_status ok_expect ok_readToken ok_peekToken okp_quotedString okp_field
  ok_expect_field ok_regexOptCheck okp_append okp_append_unchecked okp_append_regex okp_chars ok_date_number
  ok_unsigned_number ok_signed_number okp_number sized_string sized_binary sized_regex sized_oid sized_number : jp_ok.
#[local] Hint Extern 1 (sized _) => (apply sized_fixed; reflexivity) : jp_ok.
#[local] Hint Extern 1 (okp _ (fun _ => True) (mret _)) => (by apply okp_ret) : jp_ok.
#[local] Hint Extern 1 (short _) => (unfold short, text_limit; by vm_compute) : jp_ok.
(** Strings are read first: what is appended is as short as the text. *)
Ltac jp_ok :=
  repeat first
    [ solve [eauto with jp_ok]
    | apply okp_if
    | apply okp_unless; intros
    | eapply okp_bind; [solve [eauto with jp_ok]|intros ? ?]
    | match goal with |- okp _ _ (let '(_, _) := ?p in _) => destruct p end ].

Section Building.
Context (n : nat) (used : Z) (fieldName : bytes) (Hu : fits used) (Hf : short fieldName).

Lemma okp_hex_oid id : short id -> builds n used (hex_oid used fieldName id).
Proof.
  intros Hid. unfold hex_oid. jp_ok. eapply okp_bind; [|intros oid Hoid; apply okp_append; [done|done|by apply sized_oid]].
  apply okp_throws; [apply safe_oid|]. intros oid Ho. unfold OID_init_string in Ho.
  destruct (verify _); [|done]. apply init_hex_short in Ho. unfold short, zlen in *. lia.
Qed.
Hint Resolve okp_hex_oid : jp_ok.
Lemma okp_objectIdObject : builds n used (objectIdObject used fieldName).
Proof. unfold objectIdObject. jp_ok. Qed.
Lemma okp_objectId : builds n used (objectId used fieldName).
Proof. unfold objectId. jp_ok. Qed.
Lemma okp_binaryObject : builds n used (binaryObject used fieldName).
Proof.
  unfold binaryObject. jp_ok. eapply (okp_bind n short).
  { apply okp_throws; [unfold base64_decode; apply safe_bind; [by apply safe_guard|done]|].
    intros d Hd. by eapply decode_short. }
  intros d Hd. jp_ok. eapply okp_bind; [apply ok_throws, safe_binary_type; by destruct (zlen _ =? 2)|].
  intros t _. jp_ok.
Qed.
Lemma ok_quoted_long k : ok k quoted_long.
Proof. unfold quoted_long. jp_ok. Qed.
Hint Resolve ok_quoted_long : jp_ok.
Lemma okp_dateObject : builds n used (dateObject used fieldName).
Proof.
  unfold dateObject. jp_ok. apply (okp_bind n (fun _ => True)); [|intros d _; jp_ok].
  jp_ok. eapply okp_bind; [apply ok_throws, safe_date|]. intros r _. jp_ok.
Qed.
Lemma ok_seconds k c i : ok k c -> ok k (seconds_and_increment c i).
Proof. intros. unfold seconds_and_increment. jp_ok. Qed.
Hint Resolve ok_seconds : jp_ok.
Lemma okp_timestampObject : builds n used (timestampObject used fieldName).
Proof.
  unfold timestampObject. jp_ok. eapply okp_bind; [apply ok_seconds; jp_ok|]. intros [? ?] _. jp_ok.
Qed.
Lemma okp_timestamp : builds n used (timestamp used fieldName).
Proof.
  unfold timestamp. jp_ok.
Qed.
Lemma okp_regexObject : builds n used (regexObject used fieldName).
Proof. unfold regexObject. jp_ok. Qed.
Lemma okp_regex : builds n used (regex used fieldName).
Proof. unfold regex, regexPat, regexOpt. jp_ok. Qed.
Lemma okp_undefinedObject : builds n used (undefinedObject used fieldName).
Proof. unfold undefinedObject. jp_ok. Qed.
Lemma okp_numberLongObject : builds n used (numberLongObject used fieldName).
Proof. unfold numberLongObject. jp_ok. Qed.
Lemma okp_minKeyObject : builds n used (minKeyObject used fieldName).
Proof. unfold minKeyObject. jp_ok. Qed.
Lemma okp_maxKeyObject : builds n used (maxKeyObject used fieldName).
Proof. unfold maxKeyObject. jp_ok. Qed.
Lemma okp_date : builds n used (date used fieldName).
Proof. unfold date. jp_ok. Qed.
Lemma fits_nothing : fits (used_after used []).
Proof. unfold used_after. change (zlen (encode_elements [])) with 0. by rewrite Z.add_0_r. Qed.
Lemma okp_constructor : builds n used (constructor used fieldName).
Proof.
  unfold constructor. jp_ok. intros Hn s Hs. unfold drop_status.
  pose proof (okp_date Hn s Hs) as H. destruct (date used fieldName s) as [[[?|?] ?]|?]; try done.
  split; [done|]. apply fits_nothing.
Qed.
Lemma okp_numberLong : builds n used (numberLong used fieldName).
Proof. unfold numberLong. jp_ok. Qed.
Lemma okp_numberInt : builds n used (numberInt used fieldName).
Proof. unfold numberInt. jp_ok. Qed.
(** A builder inside: its header is part of the element. *)
Lemma okp_sub_builder w body :
  (forall o, zlen (encode_value (w o)) = zlen (encode_elements o) + 5) ->
  (forall used', fits used' -> builds n used' (body used')) -> builds n used (sub_builder used fieldName w body).
Proof.
  intros Hw Hbody. unfold sub_builder.
  assert (Forall (fun k => 0 <= k <= text_limit + 1) [1; zlen fieldName + 1; 4; 1]) as Hs.
  { unfold short, text_limit in *. pose proof (zlen_nonneg fieldName). repeat constructor; unfold text_limit; lia. }
  pose proof (write_spec used _ Hu Hs) as H.
  eapply (okp_bind n (fun u => u = used + (zlen fieldName + 7) /\ fits u)).
  { apply okp_throws.
    - apply safe_bind; [by apply safe_guard|]. intros _ _. unfold safe. by destruct (write _ _).
    - intros u E. destruct (checkFieldName fieldName); [|done]. cbn [mbind result_bind] in E. rewrite E in H.
      destruct H as [-> ?]. split; [|done]. unfold total. cbn [foldr]. lia. }
  intros u [-> Hfit]. eapply okp_bind; [by apply Hbody|]. intros o Ho. apply okp_ret.
  rewrite used_after_one, Hw. unfold used_after in Ho. by replace (used + 2 + zlen fieldName + (zlen (encode_elements o) + 5))
    with (used + (zlen fieldName + 7) + zlen (encode_elements o)) by lia.
Qed.
End Building.
#[local] Hint Resolve okp_objectIdObject okp_objectId okp_binaryObject okp_dateObject okp_timestampObject
  okp_timestamp okp_regexObject okp_regex okp_undefinedObject okp_numberLongObject okp_minKeyObject
  okp_maxKeyObject okp_date okp_constructor okp_numberLong okp_numberInt fits_nothing : jp_ok.
Lemma sub_object o : zlen (encode_value (VObject o)) = zlen (encode_elements o) + 5.
Proof. by rewrite encode_VObject, zlen_encode_obj. Qed.
Lemma sub_array o : zlen (encode_value (VArray o)) = zlen (encode_elements o) + 5.
Proof. by rewrite encode_VArray, zlen_encode_obj. Qed.
(** The size of a finished object is checked. *)
Lemma ok_done n o used : fits (used_after used o) -> 0 <= used -> ok n (done_ o).
Proof.
  unfold fits, used_after. intros Hf Hu. apply ok_throws. unfold encode_obj. rewrite BSONObj_init_with.
  - by destruct (_ <=? _).
  - rewrite zlen_encode_obj_with. assert (BufferMaxSize = 67108864) by done. change (int_max int32) with 2147483647. lia.
Qed.
Lemma fits_pos used : fits used -> 0 <= used.
Proof. unfold fits. lia. Qed.
Lemma fits_app used o o' : fits (used_after (used_after used o) o') -> fits (used_after used (o ++ o')).
Proof. by rewrite used_after_app. Qed.
#[local] Hint Resolve ok_done fits_pos fits_app sub_object sub_array : jp_ok.

Section NestedOk.
Context (value : Z -> bytes -> JP BSONObj) (fuel : nat).
Context (Hvalue : forall used fieldName n, (n < fuel)%nat -> fits used -> short fieldName ->
  builds n used (value used fieldName)).

(** The optional third field of a DBRef, and the end of its object. *)
Lemma okp_dbRefObject n used fieldName : (n < S fuel)%nat -> fits used -> short fieldName ->
  builds n used (dbRefObject value used fieldName).
Proof.
  intros Hn Hu Hf. apply okp_sub_builder; [done|done|apply sub_object|]. clear used Hu. intros used Hu.
  eapply okp_bind_eats; [jp_ok|by apply eats_expect|]. intros _ k Hk _.
  jp_ok. eapply okp_bind; [apply Hvalue; [lia|jp_ok|jp_ok]|]. intros id Hid.
  eapply (okp_bind k (fun o => fits (used_after used o))).
  - apply okp_if; [jp_ok| |apply okp_ret; jp_ok]. jp_ok. apply okp_ret. jp_ok.
  - intros o Ho. jp_ok. by apply okp_ret.
Qed.
Lemma okp_dbRef n used fieldName : (n < S fuel)%nat -> fits used -> short fieldName ->
  builds n used (dbRef value used fieldName).
Proof.
  intros Hn Hu Hf. apply okp_sub_builder; [done|done|apply sub_object|]. clear used Hu. intros used Hu.
  eapply okp_bind_eats; [jp_ok|by apply eats_expect|]. intros _ k Hk _.
  jp_ok. eapply okp_bind; [apply Hvalue; [lia|jp_ok|jp_ok]|]. intros id Hid.
  eapply (okp_bind k (fun o => fits (used_after used o))).
  - apply okp_if; [jp_ok| |apply okp_ret; jp_ok]. jp_ok. apply okp_ret. jp_ok.
  - intros o Ho. jp_ok. by apply okp_ret.
Qed.
(** A step of a loop: a token is read, then less text is left. *)
Lemma okp_if_token {A} n P token (t e : JP A) : token <> [] ->
  (forall k, (k < n)%nat -> okp k P t) -> okp n P e -> okp n P (jp_if (readToken token) t e).
Proof.
  intros Ht Hk He Hn s Hs. unfold jp_if. pose proof (ok_token n token true Hn s Hs) as H.
  unfold readToken. destruct (readTokenImpl token true s) as [[[[]|x] s']|x] eqn:E; [| |done|done].
  - apply readTokenImpl_true in E; [|done]. assert (0 < length token)%nat by (destruct token; cbn in *; [done|lia]).
    specialize (Hk (length s') ltac:(lia) ltac:(lia) s' ltac:(lia)).
    destruct (t s') as [[[?|?] ?]|]; [destruct Hk; split; [lia|done]|lia|done].
  - destruct H as [H _]. specialize (He Hn s' ltac:(lia)).
    destruct (e s') as [[[?|?] ?]|]; [destruct He; split; [lia|done]|lia|done].
Qed.
Lemma okp_members n f used acc : (n < f)%nat -> (n < S fuel)%nat -> fits (used_after used acc) ->
  builds n used (members value f used acc).
Proof.
  revert n acc. induction f as [|f IH]; intros n acc Hn Hf Ha; [lia|]. cbn [members].
  apply okp_if_token; [done| |by apply okp_ret]. intros k Hk. jp_ok.
  eapply okp_bind; [apply Hvalue; [lia|done|done]|]. intros o Ho. apply IH; [lia|lia|by apply fits_app].
Qed.
Lemma okp_items n f used index acc : (n < f)%nat -> (n < fuel)%nat -> 0 <= index < 2 ^ 32 -> fits (used_after used acc) ->
  builds n used (items value f used index acc).
Proof.
  revert n index acc. induction f as [|f IH]; intros n index acc Hn Hf Hi Ha; [lia|]. cbn [items].
  eapply okp_bind; [apply Hvalue; [lia|done|by apply short_index]|intros o Ho].
  apply okp_if_token; [done| |apply okp_ret; by apply fits_app]. intros k Hk.
  apply IH; [lia|lia| |by apply fits_app]. unfold wrap. cbn. apply Z.mod_pos_bound. lia.
Qed.
Lemma okp_loop n P (m : nat -> JP BSONObj) :
  (forall k, (k <= n)%nat -> okp k P (m (S k))) -> okp n P (s ← jp_input; m (S (length s))).
Proof. intros H. apply okp_input. intros Hn s Hs. apply (H (length s)); lia. Qed.
Lemma okp_special n name special used fieldName : (n < S fuel)%nat -> fits used -> short fieldName ->
  special_object value name = Some special -> builds n used (special used fieldName).
Proof.
  intros Hn Hu Hf Hs. unfold special_object, special_objects in Hs. cbn [find fst] in Hs.
  repeat (case_bool_decide; [cbn in Hs; injection Hs as <-;
    auto using okp_dbRefObject with jp_ok|]); done.
Qed.
Lemma okp_object n used fieldName sub : (n < S fuel)%nat -> fits used -> short fieldName ->
  builds n used (object value used fieldName sub).
Proof.
  intros Hn Hu Hf. unfold object. eapply okp_bind_eats; [jp_ok|by apply eats_expect|]. intros _ k Hk _.
  apply okp_if; [apply ok_token| |].
  { destruct sub; [|apply okp_ret; jp_ok]. apply okp_sub_builder; [done|done|apply sub_object|].
    intros u Hu'. eapply okp_bind; [apply (ok_done k [] u); jp_ok|]. intros _ _. apply okp_ret. jp_ok. }
  eapply okp_bind; [apply okp_field|intros firstField Hfirst].
  eapply (okp_bind k (fun o => fits (used_after used o))); [|intros o Ho; jp_ok; by apply okp_ret].
  destruct (special_object value firstField) as [special|] eqn:E.
  - apply okp_unless. intros _. eapply okp_special; [|done|done|done]. lia.
  - assert (forall u, fits u -> builds k u (expect (B ":") (B "Expecting ':'");; o ← value u firstField;
                  s ← jp_input; members value (S (length s)) u o)) as Hb.
    { intros u Hu'. jp_ok. eapply okp_bind; [apply Hvalue; [lia|done|done]|intros o Ho].
      apply (okp_loop k _ (fun f => members value f u o)).
      intros j Hj. apply okp_members; [lia|lia|done]. }
    destruct sub; [by apply okp_sub_builder; [| |apply sub_object|]|by apply Hb].
Qed.
Lemma okp_array n used fieldName sub : (n < S fuel)%nat -> fits used -> short fieldName ->
  builds n used (array value used fieldName sub).
Proof.
  intros Hn Hu Hf. unfold array. eapply okp_bind_eats; [jp_ok|by apply eats_expect|]. intros _ k Hk _.
  assert (forall u, fits u -> builds k u (o ← jp_if (peekToken (B "]")) (mret [])
    (s ← jp_input; items value (S (length s)) u 0 []); done_ o;; mret o)) as Hb.
  { intros u Hu'. eapply (okp_bind k (fun o => fits (used_after u o))).
    - apply okp_if; [apply ok_token|apply okp_ret; jp_ok|]. apply (okp_loop k _ (fun f => items value f u 0 [])).
      intros j Hj. apply okp_items; [lia|lia|lia|jp_ok].
    - intros o Ho. jp_ok. by apply okp_ret. }
  cbn zeta. eapply (okp_bind k (fun o => fits (used_after used o)));
    [destruct sub; [by apply okp_sub_builder; [| |apply sub_array|]|by apply Hb]|].
  intros o Ho. jp_ok. by apply okp_ret.
Qed.
Lemma okp_value_body n used fieldName : (n < S fuel)%nat -> fits used -> short fieldName ->
  builds n used (value_body value used fieldName).
Proof.
  intros Hn Hu Hf. unfold value_body.
  repeat (apply okp_if; [solve [repeat (apply okp_if); auto with jp_ok]
    |solve [auto using okp_object, okp_array, okp_dbRef with jp_ok | jp_ok]|]).
  by apply okp_number.
Qed.
End NestedOk.

Lemma okp_value fuel used fieldName n : (n < fuel)%nat -> fits used -> short fieldName ->
  builds n used (value fuel used fieldName).
Proof.
  revert used fieldName n. induction fuel as [|f IH]; intros used fieldName n Hn Hu Hf; [lia|].
  apply okp_value_body with f; [|lia|done|done]. intros. by apply IH.
Qed.
Lemma okp_parse n : builds n builder_used (parse (S n)).
Proof.
  assert (fits builder_used) by (by unfold fits; split; vm_compute).
  assert (short (B "UNUSED")) by (by vm_compute).
  apply okp_if; [apply ok_token| |].
  - apply okp_array with (S n); [|lia|done|done]. intros. by apply okp_value.
  - apply okp_object with (S n); [|lia|done|done]. intros. by apply okp_value.
Qed.

(** ** Property *)

(** C6: for every text of at most 512MB, [fromjson] terminates without undefined
    behaviour: it answers with a document, which fits in the buffer of 64MB, and
    the length of the text it read, which is within the text, or throws one of
    its two exceptions; growing past the limit of the buffer and a nested array or
    reference that is too large are among the reasons.  (A longer text can make the
    buffer's doubling overflow.) *)
Theorem fromjson_safe s : zlen s <= text_limit ->
  (exists o n, fromjson_len s = Ret (o, n) /\ 0 <= n <= zlen s /\
     holder_size + zlen (encode_obj o) <= BufferMaxSize) \/
  fromjson_len s = Throw (EMassert 16619) \/ fromjson_len s = Throw (EMassert 17031).
Proof.
  intros Hs. unfold fromjson_len. destruct s as [|c s]; [left; exists [], 0; by split_and!; vm_compute|].
  pose proof (okp_parse (length (c :: s)) Hs (c :: s) ltac:(lia)) as H.
  destruct (parse (S (length (c :: s))) (c :: s)) as [[[o|x] s']|x].
  - left. exists o, (zlen (c :: s) - zlen s'). destruct H as [Hl Hf]. split_and!; [done|unfold zlen; lia..|].
    unfold fits, used_after, builder_used in Hf. rewrite zlen_encode_obj. lia.
  - by right; left.
  - rewrite H. by right; right.
Qed.
Lemma fromjson_safe_witness :
  let s := B "{ a : [ 1, 'x' ], b : { $oid : '000102030405060708090a0b' } }" in
  zlen s <= text_limit /\
  ((exists o n, fromjson_len s = Ret (o, n) /\ 0 <= n <= zlen s /\
     holder_size + zlen (encode_obj o) <= BufferMaxSize) \/
   fromjson_len s = Throw (EMassert 16619) \/ fromjson_len s = Throw (EMassert 17031)).
Proof.
  intros s. assert (zlen s <= text_limit) as Hs by (by vm_compute). split; [exact Hs|exact (fromjson_safe s Hs)].
Defined.
