(* ===== verification/JsonPrint.v ===== *)
(** * Printing documents as JSON: bson/bsonelement.cpp, bson/bsonobj.cpp

    [escape], and [jsonString] of elements and objects in the three formats.  A
    stream is the text written to it.  The zone of the machine ([localtime] and
    the zone that [strftime] prints) is an argument, as in [TimeSupport]. *)
From S2P Require Import Prelude StringData ParseNumber BsonTypes BufBuilder Bson BsonObj BsonBuilder.
From S2P Require Import Codec Oid TimeSupport CLib.
Local Open Scope Z_scope.

Inductive JsonStringFormat := Strict | TenGen | JS.
Global Instance JsonStringFormat_eq_dec : EqDecision JsonStringFormat.
Proof. solve_decision. Defined.

Definition quote : bytes := [chr 34].

Definition escape_char (escape_slash : bool) (c : char) : bytes :=
  let esc := fun x : char => [chr 92; x] in
  if ceq c (chr 34) then esc (chr 34)
  else if ceq c (chr 92) then esc (chr 92)
  else if ceq c "/"%char then (if escape_slash then esc "/"%char else [c])
  else if ceq c (chr 8) then esc "b"%char
  else if ceq c (chr 12) then esc "f"%char
  else if ceq c (chr 10) then esc "n"%char
  else if ceq c (chr 13) then esc "r"%char
  else if ceq c (chr 9) then esc "t"%char
  else if (0 <=? schar c) && (schar c <=? 0x1f) then esc "u"%char ++ B "00" ++ toHexLower [c] 1
  else [c].
Definition escape (s : bytes) (escape_slash : bool) : bytes := flat_map (escape_char escape_slash) s.
Definition quoted (s : bytes) : bytes := quote ++ escape s false ++ quote.
(** A string literal of the source, written as text between double quotes. *)
Definition q (s : string) : bytes := quote ++ B s ++ quote.
(** A [char*] that ends at the first zero byte. *)
Definition c_str (s : bytes) : bytes := (span (fun c => negb (ceq c nul)) s).1.

(** A [double] by its bits, and an [int] as a double. *)
Definition print_number (bits : Z) : M bytes :=
  match double_of_bits bits with
  | Finite u => Ret (print_double (Z.testbit bits 63) (Z.abs u))
  | NaN => Ret (B "NaN")
  | Infinity negative => Ret (if negative then B "-Infinity" else B "Infinity")
  end.
Definition print_int_number (n : Z) : bytes := print_double (n <? 0) (Z.abs n * one_units).

Definition newline_indent (pretty : Z) : bytes :=
  chr 10 :: flat_map (fun _ => B "  ") (seq 0 (Z.to_nat pretty)).
Definition indent_next (pretty : Z) : Z := if pretty =? 0 then 0 else pretty + 1.

(** The iterator is at its end. *)
Definition no_more {A} (o : list A) : bool := match o with [] => true | _ => false end.

Section Print.
Context (localtime : Z -> tm) (strftime_z : tm -> bytes).

Definition number_long_object (n : Z) : bytes :=
  B "{ " ++ q "$numberLong" ++ B " : " ++ quote ++ print_int n ++ quote ++ B " }".
Definition print_date (format : JsonStringFormat) (pretty millis : Z) : M bytes :=
  if decide (format = Strict) then
    v ← (if isFormatable millis then
           s ← dateToISOStringLocal localtime strftime_z millis; Ret (quote ++ s ++ quote)
         else Ret (number_long_object (wrap int64 millis)));
    Ret (B "{ " ++ q "$date" ++ B " : " ++ v ++ B " }")
  else
    v ← (if pretty =? 0 then Ret (print_int (wrap int64 millis))
         else if isFormatable millis then
           s ← dateToISOStringLocal localtime strftime_z millis; Ret (quote ++ s ++ quote)
         else Ret (print_int millis));
    Ret (B "Date( " ++ v ++ B " )").

Definition print_flags (flags : bytes) : bytes := filter (fun c => c ∈ B "gim") (c_str flags).

(** The values without elements inside. *)
Definition json_scalar (format : JsonStringFormat) (pretty : Z) (v : bson_value) : M bytes :=
  match v with
  | VString s | VSymbol s | VCode s => Ret (quoted s)
  | VNumberLong n =>
      Ret (if decide (format = TenGen) then B "NumberLong(" ++ print_int n ++ B ")"
           else number_long_object n)
  | VNumberInt n =>
      Ret (if decide (format = JS) then B "NumberInt(" ++ print_int n ++ B ")"
           else print_int_number n)
  | VNumberDouble bits => print_number bits
  | VBool b => Ret (if ceq b nul then B "false" else B "true")
  | VjstNULL => Ret (B "null")
  | VUndefined =>
      Ret (if decide (format = Strict) then B "{ " ++ q "$undefined" ++ B " : true }" else B "undefined")
  | VDBRef ns oid =>
      let oid := quote ++ OID_toString oid ++ quote in
      Ret (if decide (format = TenGen) then
             B "Dbref( " ++ quote ++ c_str ns ++ quote ++ B ", " ++ oid ++ B " )"
           else B "{ " ++ q "$ref" ++ B " : " ++ quote ++ c_str ns ++ quote ++ B ", " ++ q "$id" ++ B " : "
                ++ oid ++ B " }")
  | VjstOID oid =>
      let oid := quote ++ OID_toString oid ++ quote in
      Ret (if decide (format = TenGen) then B "ObjectId( " ++ oid ++ B " )"
           else B "{ " ++ q "$oid" ++ B " : " ++ oid ++ B " }")
  | VBinData subtype data =>
      Ret (B "{ " ++ q "$binary" ++ B " : " ++ quote ++ base64_encode data (zlen data) ++ quote ++ B ", "
           ++ q "$type" ++ B " : " ++ quote ++ toHexLower [subtype] 1 ++ quote ++ B " }")
  | VDate millis => print_date format pretty millis
  | VRegEx regex flags =>
      Ret (if decide (format = Strict) then
             B "{ " ++ q "$regex" ++ B " : " ++ quoted regex ++ B ", " ++ q "$options" ++ B " : "
             ++ quote ++ c_str flags ++ quote ++ B " }"
           else B "/" ++ escape regex true ++ B "/" ++ print_flags flags)
  | VTimestamp increment seconds =>
      Ret (if decide (format = TenGen) then
             B "Timestamp( " ++ print_int seconds ++ B ", " ++ print_int increment ++ B " )"
           else B "{ " ++ q "$timestamp" ++ B " : { " ++ q "t" ++ B " : " ++ print_int seconds ++ B ", "
                ++ q "i" ++ B " : " ++ print_int increment ++ B " } }")
  | VMinKey => Ret (B "{ " ++ q "$minKey" ++ B " : 1 }")
  | VMaxKey => Ret (B "{ " ++ q "$maxKey" ++ B " : 1 }")
  | VEOO | VObject _ | VArray _ | VCodeWScope _ _ => Throw (EMassert 10312)
  end.

Definition json_name (includeFieldNames : bool) (fieldName : bytes) : bytes :=
  if includeFieldNames then quote ++ escape fieldName false ++ quote ++ B " : " else [].

(** [BSONElement::jsonString]; the loops of [BSONObj::jsonString] and of the
    array case run over the elements.  [count] stands for the code's [int]; an
    index beyond its range would overflow it. *)
Fixpoint BSONElement_jsonString (format : JsonStringFormat) (includeFieldNames : bool) (pretty : Z)
    (fieldName : bytes) (v : bson_value) : M bytes :=
  let object_loop := fix object_loop (format : JsonStringFormat) (isArray : bool) (pretty : Z)
      (o : list (bytes * bson_value)) : M bytes :=
    match o with
    | [] => Ret []
    | (n, w) :: o' =>
        s ← BSONElement_jsonString format (negb isArray) (indent_next pretty) n w;
        rest ← object_loop format isArray pretty o';
        Ret (s ++ (if no_more o' then []
                   else B "," ++ if pretty =? 0 then B " " else newline_indent pretty) ++ rest)
    end in
  let object_text := fun format pretty (o : list (bytes * bson_value)) =>
    if no_more o then Ret (B "{}")
    else body ← object_loop format false pretty o; Ret (B "{ " ++ body ++ B " }") in
  let array_loop := fix array_loop (count : Z) (o : list (bytes * bson_value)) : M bytes :=
    match o with
    | [] => Ret []
    | (n, w) :: o' =>
        let gap := if pretty =? 0 then [] else newline_indent pretty in
        let index := fst (fst (strtol (c_str n))) in
        let missing := Z.max 0 (index - count) in
        (if index <? int_max int32 then Ret tt else Throw EUndefined);;
        s ← BSONElement_jsonString format false (indent_next pretty) n w;
        rest ← array_loop (count + missing + 1) o';
        Ret (flat_map (fun _ => gap ++ B "undefined, ") (seq 0 (Z.to_nat missing)) ++ gap ++ s ++
             (if no_more o' then [] else B ", ") ++ rest)
    end in
  s ← match v with
      | VObject o => object_text format pretty o
      | VArray o =>
          if no_more o then Ret (B "[]")
          else body ← array_loop 0 o; Ret (B "[ " ++ body ++ B " ]")
      | VCodeWScope code scope =>
          if no_more scope then Ret (quoted code)
          else
            sc ← object_text Strict 0 scope;
            Ret (B "{ " ++ q "$code" ++ B " : " ++ quoted code ++ B " , " ++ q "$scope" ++ B " : "
                 ++ sc ++ B " }")
      | v => json_scalar format pretty v
      end;
  Ret (json_name includeFieldNames fieldName ++ s).

(** [BSONObj::jsonString], and the loop of the array case by itself. *)
Fixpoint object_loop (format : JsonStringFormat) (isArray : bool) (pretty : Z) (o : BSONObj)
    : M bytes :=
  match o with
  | [] => Ret []
  | (n, w) :: o' =>
      s ← BSONElement_jsonString format (negb isArray) (indent_next pretty) n w;
      rest ← object_loop format isArray pretty o';
      Ret (s ++ (if no_more o' then []
                 else B "," ++ if pretty =? 0 then B " " else newline_indent pretty) ++ rest)
  end.
Fixpoint array_loop (format : JsonStringFormat) (pretty count : Z) (o : BSONObj) : M bytes :=
  match o with
  | [] => Ret []
  | (n, w) :: o' =>
      let gap := if pretty =? 0 then [] else newline_indent pretty in
      let index := fst (fst (strtol (c_str n))) in
      let missing := Z.max 0 (index - count) in
      (if index <? int_max int32 then Ret tt else Throw EUndefined);;
      s ← BSONElement_jsonString format false (indent_next pretty) n w;
      rest ← array_loop format pretty (count + missing + 1) o';
      Ret (flat_map (fun _ => gap ++ B "undefined, ") (seq 0 (Z.to_nat missing)) ++ gap ++ s ++
           (if no_more o' then [] else B ", ") ++ rest)
  end.
Definition BSONObj_jsonString (format : JsonStringFormat) (pretty : Z) (isArray : bool) (o : BSONObj)
    : M bytes :=
  if no_more o then Ret (if isArray then B "[]" else B "{}")
  else
    body ← object_loop format isArray pretty o;
    Ret ((if isArray then B "[ " else B "{ ") ++ body ++ (if isArray then B " ]" else B " }")).
(** [tojson] of an object and of an array. *)
Definition tojson (o : BSONObj) (format : JsonStringFormat) (pretty : bool) : M bytes :=
  BSONObj_jsonString format (if pretty then 1 else 0) false o.
Definition tojson_array (arr : BSONObj) (format : JsonStringFormat) (pretty : bool) : M bytes :=
  BSONObj_jsonString format (if pretty then 1 else 0) true arr.

(** ** The element's printer in terms of the object's *)

Lemma jsonString_name format incl pretty n v :
  BSONElement_jsonString format incl pretty n v =
  s ← BSONElement_jsonString format false pretty [] v; Ret (json_name incl n ++ s).
Proof.
  destruct v; cbn [BSONElement_jsonString];
    match goal with |- (?m ≫= _) = _ => by destruct m end.
Qed.
Lemma jsonString_object format pretty o :
  BSONElement_jsonString format false pretty [] (VObject o) = BSONObj_jsonString format pretty false o.
Proof.
  cbn [BSONElement_jsonString]. unfold BSONObj_jsonString, BSONElement.
  destruct (no_more o); [done|].
  match goal with |- ((?m ≫= _) ≫= _) = (?m' ≫= _) => assert (m = m') as ->; [|by destruct m'] end.
  induction o as [|[n w] o IH]; [done|]. cbn [object_loop]. by rewrite IH.
Qed.
Lemma jsonString_array format pretty o :
  BSONElement_jsonString format false pretty [] (VArray o) =
  if no_more o then Ret (B "[]")
  else body ← array_loop format pretty 0 o; Ret (B "[ " ++ body ++ B " ]").
Proof.
  cbn [BSONElement_jsonString]. unfold BSONElement. destruct (no_more o); [done|].
  match goal with |- ((?m ≫= _) ≫= _) = (?m' ≫= _) => assert (m = m') as ->; [|by destruct m'] end.
  match goal with |- ?F 0 o = _ => enough (forall k, F k o = array_loop format pretty k o) as H by apply H end.
  induction o as [|[n w] o IH]; intros k; [done|]. cbn [array_loop]. by rewrite IH.
Qed.
Lemma jsonString_scope format pretty code scope : scope <> [] ->
  BSONElement_jsonString format false pretty [] (VCodeWScope code scope) =
  s ← BSONObj_jsonString Strict 0 false scope;
  Ret (B "{ " ++ q "$code" ++ B " : " ++ quoted code ++ B " , " ++ q "$scope" ++ B " : " ++ s ++ B " }").
Proof.
  intros Hs. rewrite <-jsonString_object. cbn [BSONElement_jsonString].
  assert (no_more scope = false) as -> by (by destruct scope).
  match goal with |- ((((?m ≫= _) ≫= _)) ≫= _) = _ => by destruct m end.
Qed.
End Print.
