(* ===== verification/Json.v ===== *)
(** * Documents as JSON and back

    What [fromjson] makes of the text [jsonString] prints, in every format: the
    document with the changes [json_norm] describes (JSON has one kind of
    string; longs become the smallest sensible number; a DBRef becomes an object;
    a double is what its sixteen digits are read as). *)
From S2P Require Import Prelude StringData ParseNumber BsonTypes BufBuilder Bson BsonObj BsonBuilder.
From S2P Require Import Codec Oid TimeSupport BsonValidate CLib JsonParse JsonPrint.
Local Open Scope Z_scope.

(** ** What comes back *)

(** A double after it was printed with sixteen digits and read. *)
Definition double_text (bits : Z) : bytes :=
  match double_of_bits bits with
  | Finite u => print_double (Z.testbit bits 63) (Z.abs u) | _ => [] end.
(** The number a text stands for, when all of it is read. *)
Definition read_number (t : bytes) : bson_value :=
  let '(d, endptrd, _) := strtod t in
  let '(n, endptrll, erange) := strtoll t in
  if (zlen endptrd <? zlen endptrll) || erange then VNumberDouble d
  else if n =? wrap int32 n then VNumberInt n else VNumberLong n.
Definition json_double (bits : Z) : bson_value :=
  match double_of_bits bits with
  | NaN => VNumberDouble quiet_NaN
  | Infinity negative => VNumberDouble (sign_bit negative + inf_bits)
  | Finite _ => read_number (double_text bits)
  end.

Fixpoint json_norm (format : JsonStringFormat) (v : bson_value) : bson_value :=
  let norm_elements := fix norm_elements (format : JsonStringFormat) (o : list (bytes * bson_value))
      : list (bytes * bson_value) :=
    match o with [] => [] | (n, w) :: o' => (n, json_norm format w) :: norm_elements format o' end in
  match v with
  | VString s | VSymbol s | VCode s => VString s
  | VNumberLong n => number_value n
  | VNumberDouble bits => json_double bits
  | VBool b => bool_val (negb (ceq b nul))
  | VDBRef ns oid => VObject [(B "$ref", VString ns); (B "$id", VString (OID_toString oid))]
  | VRegEx regex flags =>
      VRegEx regex (if decide (format = Strict) then flags else print_flags flags)
  | VObject o => VObject (norm_elements format o)
  | VArray o => VArray (norm_elements format o)
  | VCodeWScope code scope =>
      match scope with
      | [] => VString code
      | _ => VObject [(B "$code", VString code); (B "$scope", VObject (norm_elements Strict scope))]
      end
  | v => v
  end.
Definition json_norm_obj (format : JsonStringFormat) (o : BSONObj) : BSONObj :=
  (fun e => (e.1, json_norm format e.2)) <$> o.

(** ** Which documents *)

(** Printed without escapes. *)
Definition plain (s : bytes) : Prop := Forall (fun c => escape_char false c = [c]) s.
Definition reserved : list bytes :=
  [B "$oid"; B "$binary"; B "$date"; B "$timestamp"; B "$regex"; B "$ref"; B "$undefined";
   B "$numberLong"; B "$minKey"; B "$maxKey"].
Definition first_ok (o : BSONObj) : Prop := match o with (n, _) :: _ => n ∉ reserved | [] => True end.

(** Dates in the strict format are a day away from the limits of the printer (a
    date beyond them is printed as an object the parser does not read to its
    end, see [date_object_unclosed]); the other formats are read when they are
    not pretty. *)
Definition date_ok (format : JsonStringFormat) (pretty millis : Z) : Prop :=
  if decide (format = Strict) then 86400000 <= millis < 32535215999000 - 86400000
  else in_range uint64 millis /\ pretty = 0.

Fixpoint json_ok (format : JsonStringFormat) (pretty : Z) (v : bson_value) : Prop :=
  let elements_ok := fix elements_ok (format : JsonStringFormat) (pretty : Z)
      (o : list (bytes * bson_value)) : Prop :=
    match o with
    | [] => True
    | (n, w) :: o' => nul ∉ n /\ json_ok format pretty w /\ elements_ok format pretty o' end in
  match v with
  | VEOO => False
  | VNumberInt n => in_range int32 n
  | VNumberLong n => in_range int64 n
  | VNumberDouble bits =>
      match double_of_bits bits with
      | Finite _ => exists d, strtod (double_text bits) = (d, [], false)
      | _ => True
      end
  | VDBRef ns oid => plain ns /\ length oid = 12%nat
  | VjstOID oid => length oid = 12%nat
  | VBinData _ data => zlen data <= 2 ^ 29
  | VDate millis => date_ok format pretty millis
  | VRegEx regex flags =>
      nul ∉ regex /\ if decide (format = Strict) then Forall (fun c => c ∈ JOPTIONS) flags else nul ∉ flags
  | VTimestamp increment seconds => in_range uint32 increment /\ in_range uint32 seconds
  | VObject o => first_ok o /\ elements_ok format (indent_next pretty) o
  | VArray o => o.*1 = (fun i => print_int (Z.of_nat i)) <$> seq 0 (length o) /\
      zlen o < int_max int32 /\ elements_ok format (indent_next pretty) o
  | VCodeWScope _ scope => first_ok scope /\ elements_ok Strict 0 scope
  | _ => True
  end.
Definition json_ok_obj (format : JsonStringFormat) (pretty : Z) (o : BSONObj) : Prop :=
  Forall (fun e => nul ∉ e.1 /\ json_ok format pretty e.2) o.

Lemma norm_elements_unfold format o :
  (fix norm_elements (format : JsonStringFormat) (o : list (bytes * bson_value))
      : list (bytes * bson_value) :=
    match o with [] => [] | (n, w) :: o' => (n, json_norm format w) :: norm_elements format o' end)
    format o = json_norm_obj format o.
Proof. induction o as [|[n w] o IH]; cbn; [done|]. by rewrite IH. Qed.
Lemma elements_ok_unfold format pretty o :
  (fix elements_ok (format : JsonStringFormat) (pretty : Z) (o : list (bytes * bson_value)) : Prop :=
    match o with
    | [] => True
    | (n, w) :: o' => nul ∉ n /\ json_ok format pretty w /\ elements_ok format pretty o' end)
    format pretty o <-> json_ok_obj format pretty o.
Proof.
  unfold json_ok_obj. induction o as [|[n w] o IH]; cbn.
  - split; [constructor|done].
  - rewrite Forall_cons, IH. cbn. tauto.
Qed.

(** ** Running the parser *)

Lemma jp_bind_run {A C} (m : JP A) (f : A -> JP C) s a s' :
  m s = Ret (Ret a, s') -> (m ≫= f) s = f a s'.
Proof. unfold mbind, JP_bind. by intros ->. Qed.
Lemma jp_if_run {A} (c : JP bool) (t e : JP A) s b s' :
  c s = Ret (Ret b, s') -> jp_if c t e s = if b then t s' else e s'.
Proof. unfold jp_if. intros ->. by destruct b. Qed.

(** A document that is no larger than a [BSONObj] may be fits in the buffer, and so
    do its parts. *)
Definition room (used : Z) (o : BSONObj) : Prop :=
  builder_used <= used /\ used + zlen (encode_elements o) <= BSONObjMaxInternalSize + 4.
Lemma room_nonneg used o : room used o -> 0 <= used <= BufferMaxSize.
Proof.
  unfold room, builder_used, holder_size. pose proof (zlen_nonneg (encode_elements o)).
  assert (BSONObjMaxInternalSize + 4 <= BufferMaxSize) by done. lia.
Qed.
Lemma room_left used o o' : room used (o ++ o') -> room used o.
Proof.
  unfold room. rewrite encode_elements_app, zlen_app. pose proof (zlen_nonneg (encode_elements o')). lia.
Qed.
Lemma room_right used o o' : room used (o ++ o') -> room (used_after used o) o'.
Proof.
  unfold room, used_after. rewrite encode_elements_app, zlen_app. pose proof (zlen_nonneg (encode_elements o)). lia.
Qed.
Lemma room_cons used e o : room used (e :: o) -> room used [e] /\ room (used_after used [e]) o.
Proof. change (e :: o) with ([e] ++ o). intros H. split; [by eapply room_left|by apply room_right]. Qed.
(** Inside the builder of a nested document. *)
Lemma room_inside used n w o : zlen (encode_value (w o)) = zlen (encode_elements o) + 5 ->
  room used [(n, w o)] -> room (used + (zlen n + 7)) o.
Proof.
  intros Hw [H1 H2]. cbn [encode_elements flat_map] in H2.
  rewrite app_nil_r, zlen_encode_element in H2. cbn [fst snd] in H2. rewrite Hw in H2.
  pose proof (zlen_nonneg n). split; lia.
Qed.

Lemma write_run used sizes : 0 <= used -> Forall (fun n => 0 <= n) sizes -> used + total sizes <= BufferMaxSize ->
  write used sizes = Ret (used + total sizes).
Proof.
  assert (BufferMaxSize = 67108864) as HM by done. rewrite HM.
  intros Hu Hs. revert used Hu. induction Hs as [|n sizes Hn Hs IH]; intros used Hu Ht; unfold total in *; cbn [write foldr] in *.
  { f_equal. lia. }
  assert (0 <= foldr Z.add 0 sizes) by (clear -Hs; induction Hs; cbn; lia).
  unfold grow. rewrite HM. rewrite int_result_ok by (unfold in_range; cbn; lia). cbn [mbind result_bind].
  rewrite int_result_ok by (unfold in_range; cbn; lia). cbn [mbind result_bind].
  replace (used + n <=? 67108864) with true by lia. cbn [mbind result_bind]. rewrite IH by lia. f_equal. lia.
Qed.
Lemma pieces v : Forall (fun n => 0 <= n) (value_sizes v) /\ total (value_sizes v) = zlen (encode_value v).
Proof.
  assert (forall n, n = zlen (encode_value v) -> Forall (fun n => 0 <= n) [n] /\ total [n] = zlen (encode_value v)) as H.
  { intros n ->. split; [by constructor; [apply zlen_nonneg|]|unfold total; cbn; lia]. }
  destruct v; try (by apply H); clear H; unfold total; cbn [value_sizes foldr encode_value];
    rewrite ?zlen_encode_string, ?zlen_app, ?zlen_cons, ?zlen_le4, ?zlen_app;
    repeat match goal with |- context [zlen ?l] => lazymatch goal with _ : 0 <= zlen l |- _ => fail | _ => pose proof (zlen_nonneg l) end end;
    (split; [repeat constructor; lia|]); change (zlen [nul]) with 1 in *; lia.
Qed.
Lemma write_element_run used n v : room used [(n, v)] -> exists u, write_element used n v = Ret u.
Proof.
  intros Hr. pose proof (room_nonneg _ _ Hr). destruct Hr as [H1 H2], (pieces v) as [Hp Ht]. pose proof (zlen_nonneg n).
  cbn [encode_elements flat_map] in H2. rewrite app_nil_r, zlen_encode_element in H2. cbn [fst snd] in H2.
  assert (BSONObjMaxInternalSize + 4 <= BufferMaxSize) by done.
  eexists. apply write_run; [lia|by repeat constructor; [lia|lia|]|].
  unfold total in *. cbn [foldr]. lia.
Qed.

Lemma append_run used n v s : nul ∉ n -> room used [(n, v)] -> append used n v s = Ret (Ret [(n, v)], s).
Proof.
  intros Hn Hr. destruct (write_element_run used n v Hr) as [u E]. unfold append, checkFieldName.
  rewrite (proj2 (Z.eqb_eq _ _) (find_char_notin n nul Hn)).
  unfold mbind, JP_bind, jp_throws. cbn [uassert guard_throw mbind result_bind]. by rewrite E.
Qed.
Lemma append_unchecked_run used n v s : room used [(n, v)] -> append_unchecked used n v s = Ret (Ret [(n, v)], s).
Proof.
  intros Hr. destruct (write_element_run used n v Hr) as [u E]. unfold append_unchecked.
  unfold mbind, JP_bind, jp_throws. by rewrite E.
Qed.
Lemma sub_builder_run used n w body s o s' : nul ∉ n ->
  (forall o, zlen (encode_value (w o)) = zlen (encode_elements o) + 5) ->
  room used [(n, w o)] -> (forall u, room u o -> body u s = Ret (Ret o, s')) ->
  sub_builder used n w body s = Ret (Ret [(n, w o)], s').
Proof.
  intros Hn Hw Hr Hb. pose proof (room_nonneg _ _ Hr) as Hu. pose proof (room_inside _ _ _ _ (Hw o) Hr) as Hin.
  pose proof (room_nonneg _ _ Hin) as Hu'. unfold sub_builder, checkFieldName.
  rewrite (proj2 (Z.eqb_eq _ _) (find_char_notin n nul Hn)).
  assert (write used [1; zlen n + 1; 4; 1] = Ret (used + (zlen n + 7))) as E.
  { pose proof (zlen_nonneg n). rewrite write_run; [f_equal; unfold total; cbn; lia|lia|by repeat constructor; lia|].
    unfold total. cbn [foldr]. lia. }
  unfold mbind, JP_bind, jp_throws. cbn [uassert guard_throw mbind result_bind]. rewrite E. by rewrite Hb.
Qed.
Lemma done_run used o s : room used o -> done_ o s = Ret (Ret tt, s).
Proof.
  unfold room, builder_used, holder_size. intros Hr. unfold done_, jp_throws, encode_obj. rewrite BSONObj_init_with.
  - replace (zlen (encode_obj_with (encode_elements o)) <=? BSONObjMaxInternalSize) with true; [done|].
    rewrite zlen_encode_obj_with. lia.
  - rewrite zlen_encode_obj_with. assert (BSONObjMaxInternalSize <= int_max int32) by done. lia.
Qed.

(** An escaped character is read back, in quotes or (with the slash escaped) in
    a regular expression. *)
Definition closes (t : char) (slash : bool) : Prop := t = chr 34 \/ (t = "/"%char /\ slash = true).
Lemma chars_escape_char t slash c x tail acc : closes t slash ->
  chars_loop [t] None (escape_char slash c ++ x :: tail) acc = chars_loop [t] None (x :: tail) (acc ++ [c]).
Proof.
  intros [-> | [-> ->]]; [destruct slash|];
    destruct c as [[] [] [] [] [] [] [] []]; reflexivity.
Qed.
Lemma chars_loop_escape t slash s rest acc : closes t slash ->
  chars_loop [t] None (escape s slash ++ t :: rest) acc = Ret (Ret (acc ++ s), Some (t :: rest)).
Proof.
  intros Ht. revert acc. induction s as [|c s IH]; intros acc.
  - cbn [escape flat_map app chars_loop]. rewrite app_nil_r.
    assert (match_ t [t] = true) as ->; [|done]. by destruct Ht as [-> | [-> _]].
  - cbn [escape flat_map]. rewrite <-app_assoc. fold (escape s slash).
    assert (exists x tail, escape s slash ++ t :: rest = x :: tail) as (x & tail & E).
    { destruct (escape s slash) as [|x l]; cbn; eauto. }
    rewrite E, chars_escape_char, <-E, IH, <-app_assoc by done. done.
Qed.
Lemma chars_run t slash s rest : closes t slash ->
  chars [t] None (escape s slash ++ t :: rest) = Ret (Ret s, t :: rest).
Proof. intros Ht. unfold chars. by rewrite (chars_loop_escape t slash). Qed.

Lemma quotedString_run s rest : quotedString (quoted s ++ rest) = Ret (Ret s, rest).
Proof.
  unfold quoted, quote. cbn [app]. rewrite <-app_assoc. cbn [app].
  unfold quotedString. erewrite jp_if_run by reflexivity. cbv iota.
  erewrite jp_bind_run by (apply (chars_run (chr 34) false); by left).
  by erewrite jp_bind_run by reflexivity.
Qed.
Lemma field_run s rest : field (quoted s ++ rest) = Ret (Ret s, rest).
Proof.
  unfold field. erewrite jp_if_run by reflexivity. cbv iota. apply quotedString_run.
Qed.

(** Text that needs no escapes. *)
Lemma plain_escape s : plain s -> escape s false = s.
Proof.
  induction 1 as [|c s Hc Hs IH]; [done|]. cbn. fold (escape s false). by rewrite IH, Hc.
Qed.
Lemma quoted_plain s : plain s -> quote ++ s ++ quote = quoted s.
Proof. intros Hs. unfold quoted. by rewrite plain_escape. Qed.
Lemma plain_app a b : plain a -> plain b -> plain (a ++ b).
Proof. apply Forall_app_2. Qed.
Lemma plain_cons c a : escape_char false c = [c] -> plain a -> plain (c :: a).
Proof. by constructor. Qed.
Lemma plain_check (f : char -> bool) s :
  forallb (fun c => implb (f c) (bool_decide (escape_char false c = [c]))) all_chars = true ->
  forallb f s = true -> plain s.
Proof.
  intros Hall Hs. apply Forall_forall. intros c Hc.
  rewrite forallb_forall in Hs. specialize (Hs c (proj1 (list_elem_of_In _ _) Hc)).
  pose proof (forall_chars _ Hall c) as H. cbv beta in H. rewrite Hs in H. by apply bool_decide_eq_true_1 in H.
Qed.

(** Leading white space makes no difference to what succeeds. *)
Definition spaceless {A} (m : JP A) : Prop := forall c s a s',
  isspace c = true -> m s = Ret (Ret a, s') -> m (c :: s) = Ret (Ret a, s').
Definition spaces (l : bytes) : Prop := Forall (fun c => isspace c = true) l.

Lemma spaceless_spaces {A} (m : JP A) l s a s' :
  spaceless m -> spaces l -> m s = Ret (Ret a, s') -> m (l ++ s) = Ret (Ret a, s').
Proof. intros Hm Hl Hs. induction Hl; [done|]. by apply Hm. Qed.
Lemma spaceless_bind {A C} (m : JP A) (f : A -> JP C) : spaceless m -> spaceless (m ≫= f).
Proof.
  intros Hm c s a s' Hc. unfold mbind, JP_bind.
  destruct (m s) as [[[x|x] s1]|x] eqn:E; try done. by rewrite (Hm c s x s1 Hc E).
Qed.
Lemma readTokenImpl_space token advance c s : isspace c = true ->
  readTokenImpl token advance (c :: s) =
  match readTokenImpl token advance s with
  | Ret (Ret true, s') => Ret (Ret true, if advance then s' else c :: s)
  | _ => Ret (Ret false, c :: s)
  end.
Proof.
  intros Hc. unfold readTokenImpl. cbn [skip_space]. rewrite Hc.
  by destruct (strip_prefix token (skip_space s)), advance.
Qed.
Lemma readTokenImpl_cases token advance s :
  readTokenImpl token advance s = Ret (Ret false, s) \/
  exists s', readTokenImpl token advance s = Ret (Ret true, s') /\ (advance = false -> s' = s).
Proof.
  unfold readTokenImpl. destruct (strip_prefix token (skip_space s)) as [r|]; [|by left].
  right. eexists. split; [done|]. by intros ->.
Qed.
Lemma spaceless_read {A} token (t e : JP A) : spaceless e -> spaceless (jp_if (readToken token) t e).
Proof.
  intros He c s a s' Hc. unfold jp_if, readToken. rewrite readTokenImpl_space by done.
  destruct (readTokenImpl_cases token true s) as [-> |(r & -> & _)]; [|done]. by apply He.
Qed.
Lemma spaceless_peek {A} token (t e : JP A) : spaceless t -> spaceless e ->
  spaceless (jp_if (peekToken token) t e).
Proof.
  intros Ht He c s a s' Hc. unfold jp_if, peekToken. rewrite readTokenImpl_space by done.
  destruct (readTokenImpl_cases token false s) as [-> |(r & -> & Hr)]; [by apply He|].
  rewrite Hr by done. by apply Ht.
Qed.
Lemma spaceless_error {A} msg : spaceless (@parseError A msg).
Proof. by intros c s a s'. Qed.
Lemma spaceless_expect token msg : spaceless (expect token msg).
Proof. unfold expect. apply spaceless_read, spaceless_error. Qed.
Lemma spaceless_quotedString : spaceless quotedString.
Proof. unfold quotedString. apply spaceless_read, spaceless_read, spaceless_error. Qed.
Lemma spaceless_unquoted : spaceless unquotedField.
Proof.
  intros c s a s' Hc. unfold unquotedField, mbind, JP_bind, jp_input, jp_move.
  cbn [skip_space]. by rewrite Hc.
Qed.
Lemma spaceless_field : spaceless field.
Proof.
  unfold field. apply spaceless_peek; [apply spaceless_quotedString|].
  apply spaceless_peek; [apply spaceless_quotedString|apply spaceless_unquoted].
Qed.
Lemma strtod_space c s : isspace c = true ->
  strtod (c :: s) = strtod s \/ (strtod s = (0, s, false) /\ strtod (c :: s) = (0, c :: s, false)).
Proof.
  intros Hc. unfold strtod. cbn [skip_space]. rewrite Hc.
  destruct (_extractSign (skip_space s)) as [neg s1].
  destruct (match scan_word s1 with Some _ => _ | None => _ end) as [[[? ?] ?]|]; auto.
Qed.
Lemma strto_space t c s : isspace c = true ->
  strto t (c :: s) = strto t s \/ (strto t s = (0, s, false) /\ strto t (c :: s) = (0, c :: s, false)).
Proof.
  intros Hc. unfold strto. cbn [skip_space]. rewrite Hc.
  destruct (_extractSign (skip_space s)) as [neg s1]. destruct (span isdigit s1) as [ds e].
  case_bool_decide; auto.
Qed.
Lemma append_safe used name v : exists r, forall s,
  append used name v s = match r with Ret o => Ret (Ret o, s) | Throw e => Throw e end.
Proof.
  unfold append. destruct (checkFieldName name;; write_element used name v) as [u|e];
    [by exists (Ret [(name, v)])|by exists (Throw e)].
Qed.
Lemma spaceless_number used name : spaceless (number used name).
Proof.
  intros c s o s' Hc. unfold number, mbind, JP_bind, jp_input.
  pose proof (strtod_length s) as Hl.
  destruct (strtod_space c s Hc) as [-> |[-> _]]; [|unfold jp_unless; by rewrite Z.eqb_refl].
  destruct (strtod s) as [[d e] er]. cbn [fst snd] in Hl.
  unfold jp_unless at 1. destruct (zlen e =? zlen s) eqn:El; [done|]. cbn [negb].
  unfold jp_unless at 3. assert (zlen e < zlen s) by (unfold zlen in *; lia).
  rewrite zlen_cons. replace (zlen e =? 1 + zlen s) with false by lia. cbn [negb].
  unfold jp_unless at 1 3. destruct (negb er); [|done]. unfold strtoll.
  destruct (strto_space int64 c s Hc) as [-> |[-> ->]].
  { destruct (strto int64 s) as [[v e2] er2].
    match goal with |- context [append used name ?v s] => destruct (append_safe used name v) as (r & Hr) end.
    rewrite !Hr. destruct r; [done|]. done. }
  rewrite zlen_cons. replace (zlen e <? zlen s) with true by lia.
  replace (zlen e <? 1 + zlen s) with true by lia. cbn [orb].
  destruct (append_safe used name (VNumberDouble d)) as (r & Hr). rewrite !Hr. by destruct r.
Qed.
Lemma jp_if_or {A} (c d : JP bool) (t e : JP A) s :
  jp_if (jp_if c (mret true) d) t e s = jp_if c t (jp_if d t e) s.
Proof. unfold jp_if. by destruct (c s) as [[[[]|?] ?]|?]. Qed.
Lemma spaceless_or {A} (c d : JP bool) (t e : JP A) :
  spaceless (jp_if c t (jp_if d t e)) -> spaceless (jp_if (jp_if c (mret true) d) t e).
Proof. intros H x s a s' Hx. rewrite (jp_if_or c d t e s), (jp_if_or c d t e (x :: s)). by apply H. Qed.
Lemma spaceless_value_body value used name : spaceless (value_body value used name).
Proof.
  unfold value_body. apply spaceless_peek.
  { unfold object. apply spaceless_bind, spaceless_expect. }
  apply spaceless_peek.
  { unfold array. apply spaceless_bind, spaceless_expect. }
  do 6 apply spaceless_read. apply spaceless_or. do 2 apply spaceless_read.
  apply spaceless_peek.
  { unfold regex. apply spaceless_bind, spaceless_expect. }
  apply spaceless_or.
  do 2 (apply spaceless_peek; [apply spaceless_bind, spaceless_quotedString|]).
  do 7 apply spaceless_read. apply spaceless_number.
Qed.
Lemma spaceless_value fuel used name : spaceless (value fuel used name).
Proof. destruct fuel; [by intros c s a s'|]. apply spaceless_value_body. Qed.

(** ** Numbers *)

(** What starts with a digit, or a minus and a digit, is a number. *)
Lemma value_body_number value used name (neg : bool) d l : 0 <= d < 10 ->
  value_body value used name ((if neg then B "-" else []) ++ chr (48 + d) :: l)
  = number used name ((if neg then B "-" else []) ++ chr (48 + d) :: l).
Proof.
  intros Hd.
  assert (d = 0 \/ d = 1 \/ d = 2 \/ d = 3 \/ d = 4 \/ d = 5 \/ d = 6 \/ d = 7 \/ d = 8 \/ d = 9)
    as H by lia.
  destruct neg; repeat destruct H as [-> |H]; try subst d; reflexivity.
Qed.
Lemma number_run t used name d c r : nul ∉ name -> room used [(name, read_number t)] -> t <> [] -> skip_space t = t ->
  strtod t = (d, [], false) -> delim c ->
  number used name (t ++ c :: r) = Ret (Ret [(name, read_number t)], c :: r).
Proof.
  intros Hn Hroom Ht Hs Hd Hc. unfold number. unfold read_number in *. rewrite Hd in *.
  unfold mbind at 1, JP_bind at 1, jp_input. rewrite strtod_local, Hd by done.
  unfold strtoll in *. rewrite strto_local by (done || by apply delim_not_digit). unfold add_suffix. cbn [fst snd app].
  revert Hroom. destruct (strto int64 t) as [[n e] er]. cbn [fst snd]. change (zlen []) with 0. intros Hroom.
  assert (0 < zlen t) by (destruct t; [done|rewrite zlen_cons; pose proof (zlen_nonneg t); lia]).
  pose proof (zlen_nonneg r). unfold jp_unless at 1. rewrite !zlen_app, !zlen_cons.
  replace (1 + zlen r =? zlen t + (1 + zlen r)) with false by lia. cbn [negb].
  unfold jp_unless at 1. cbn [negb].
  replace (1 + zlen r <? zlen e + (1 + zlen r)) with (0 <? zlen e) by lia.
  erewrite jp_bind_run by (by apply append_run). erewrite jp_bind_run by reflexivity.
  unfold jp_unless. by replace (0 <? 1 + zlen r) with true by lia.
Qed.

(** Texts that start like a number. *)
Definition numeral_text (t : bytes) : Prop :=
  exists (neg : bool) d l, t = (if neg then B "-" else []) ++ chr (48 + d) :: l /\ 0 <= d < 10.
Lemma numeral_text_skip t : numeral_text t -> t <> [] /\ skip_space t = t.
Proof.
  intros (neg & d & l & -> & Hd). destruct neg; [done|]. cbn. split; [done|].
  assert (isspace (chr (48 + d)) = false) as ->; [|done].
  unfold isspace. rewrite uchar_chr_small by lia. lia.
Qed.
Lemma value_number_run f t used name d c r : numeral_text t -> nul ∉ name -> room used [(name, read_number t)] ->
  strtod t = (d, [], false) -> delim c ->
  value_body f used name (t ++ c :: r) = Ret (Ret [(name, read_number t)], c :: r).
Proof.
  intros Ht Hn Hroom Hd Hc. destruct (numeral_text_skip t Ht) as [Ht1 Ht2].
  destruct Ht as (neg & x & l & -> & Hx). rewrite <-app_assoc. cbn [app].
  rewrite value_body_number by done.
  replace ((if neg then B "-" else []) ++ chr (48 + x) :: l ++ c :: r)
    with (((if neg then B "-" else []) ++ chr (48 + x) :: l) ++ c :: r) by (by rewrite <-app_assoc).
  by apply number_run with d.
Qed.
Lemma print_int_numeral z : numeral_text (print_int z).
Proof.
  unfold print_int. destruct (z <? 0) eqn:E;
    [destruct (print_nonneg_head (- z) ltac:(lia)) as (d & l & -> & Hd & _)
    |destruct (print_nonneg_head z ltac:(lia)) as (d & l & -> & Hd & _)];
    [by exists true, d, l|by exists false, d, l].
Qed.
Lemma read_number_int z : in_range int32 z -> read_number (print_int z) = VNumberInt z.
Proof.
  intros Hz. assert (Z.abs z < 2 ^ 53) as Hz2 by (unfold in_range in Hz; cbn in Hz; lia).
  destruct (strtod_print z Hz2) as [d Hd]. unfold read_number, strtoll.
  rewrite Hd, strto_print; [|unfold in_range in *; cbn in *; lia|by left].
  cbn [orb]. change (zlen [] <? zlen []) with false. cbn [orb].
  by rewrite wrap_id, Z.eqb_refl by (done || lia).
Qed.
(** The printed form of a finite double starts like a number. *)
Lemma take_succ_cons {A} n (x : A) l : (0 < n)%nat -> exists l', take n (x :: l) = x :: l'.
Proof. destruct n; [lia|]. cbn. eauto. Qed.
Lemma round_units_nonneg e num den : 0 < num -> 0 < den -> 0 <= round_units 10 e num den.
Proof.
  intros Hn Hd. unfold round_units, round_div.
  destruct (0 <=? e) eqn:E;
    [assert (0 < 10 ^ e) by (apply Z.pow_pos_nonneg; lia);
     pose proof (Z.div_pos num (den * 10 ^ e) ltac:(lia) ltac:(nia))
    |assert (0 < 10 ^ (- e)) by (apply Z.pow_pos_nonneg; lia);
     pose proof (Z.div_pos (num * 10 ^ (- e)) den ltac:(nia) ltac:(lia))];
    repeat case_match; lia.
Qed.
Lemma print_ratio_numeral num den : 0 < num -> 0 < den -> exists d l,
  print_ratio num den = chr (48 + d) :: l /\ 0 <= d < 10.
Proof.
  intros Hn Hd. unfold print_ratio. set (x := decimal_exponent num den).
  pose proof (round_units_nonneg (x - 15) num den Hn Hd) as Hq.
  destruct (if round_units 10 (x - 15) num den =? 10 ^ 16 then _ else _) as [k y] eqn:E.
  assert (0 <= k) as Hk by (destruct (_ =? _); injection E as <- <-; lia).
  destruct (print_nonneg_head k Hk) as (d & l & -> & Hd10 & _).
  destruct ((-4 <=? y) && (y <? 16)) eqn:Ey.
  - destruct (0 <=? y) eqn:E0.
    + destruct (take_succ_cons (Z.to_nat (y + 1)) (chr (48 + d)) l ltac:(lia)) as [l' ->].
      cbn [app]. by exists d, (l' ++ with_point (drop (Z.to_nat (y + 1)) (chr (48 + d) :: l))).
    + by exists 0; eexists.
  - cbn [take app]. by exists d; eexists.
Qed.
Lemma double_text_numeral bits u : double_of_bits bits = Finite u -> numeral_text (double_text bits).
Proof.
  intros Hb. unfold double_text. rewrite Hb. unfold print_double.
  destruct (Z.abs u =? 0) eqn:E; [by exists (Z.testbit bits 63), 0, []|].
  destruct (print_ratio_numeral (Z.abs u) one_units ltac:(lia) one_units_pos) as (d & l & -> & Hd).
  by exists (Z.testbit bits 63), d, l.
Qed.

(** ** Values without elements *)

(** A quoted text after white space. *)
Lemma quoted_text l s rest : spaces l -> plain s ->
  quotedString (l ++ quote ++ s ++ quote ++ rest) = Ret (Ret s, rest).
Proof.
  intros Hl Hs. apply spaceless_spaces; [apply spaceless_quotedString|done|].
  replace (quote ++ s ++ quote ++ rest) with (quoted s ++ rest); [apply quotedString_run|].
  rewrite <-quoted_plain by done. by rewrite <-!app_assoc.
Qed.
Lemma spaces_check l : forallb isspace l = true -> spaces l.
Proof.
  intros H. apply Forall_forall. intros c Hc. rewrite forallb_forall in H.
  by apply H, list_elem_of_In.
Qed.

(** The special object of a key: what follows the key is the parser's of that
    key. *)
Lemma special_run f used name key special t rest o :
  special_object f (B key) = Some special -> plain (B key) ->
  special used name t = Ret (Ret o, B " }" ++ rest) ->
  value_body f used name (B "{ " ++ q key ++ t) = Ret (Ret o, rest).
Proof.
  intros Hsp Hk Hs. unfold value_body. erewrite jp_if_run by reflexivity. cbv iota.
  unfold object. erewrite jp_bind_run by reflexivity. erewrite jp_if_run by reflexivity. cbv iota.
  erewrite jp_bind_run; [|apply (spaceless_spaces field (B " ")); [apply spaceless_field| |]].
  2: { repeat constructor. }
  2: { unfold q. rewrite quoted_plain by done. apply field_run. }
  rewrite Hsp. cbn [jp_unless]. erewrite jp_bind_run by exact Hs.
  by erewrite jp_bind_run by reflexivity.
Qed.

(** Hexadecimal text. *)
Lemma hexdigit_xdigit c : isxdigit (hexdigit hexchars_lower (Z.shiftr (Z.land (schar c) 0xF0) 4)) &&
  isxdigit (hexdigit hexchars_lower (Z.land (schar c) 0x0F)) = true.
Proof. revert c. apply forall_chars. by vm_compute. Qed.
Lemma toHexLower_hex s n : isHexString (toHexLower s n) = true.
Proof.
  unfold toHexLower, toHex_with, isHexString.
  induction (take (Z.to_nat n) s) as [|c l IH]; [done|]. cbn [flat_map]. rewrite forallb_app, IH.
  cbn [forallb]. pose proof (hexdigit_xdigit c). lia.
Qed.
Lemma hex_plain s : isHexString s = true -> plain s.
Proof. apply plain_check. by vm_compute. Qed.
Lemma hex_oid_run used name oid rest : nul ∉ name -> room used [(name, VjstOID oid)] -> length oid = 12%nat ->
  hex_oid used name (OID_toString oid) rest = Ret (Ret [(name, VjstOID oid)], rest).
Proof.
  intros Hn Hroom Ho. unfold hex_oid. assert (zlen (OID_toString oid) =? 24 = true) as ->.
  { unfold OID_toString, toHexLower, kOIDSize. rewrite toHex_length, take_ge by lia.
    unfold zlen. rewrite Ho. done. }
  unfold OID_toString. rewrite toHexLower_hex. cbn [jp_unless].
  erewrite jp_bind_run; [by apply append_run|]. unfold jp_throws.
  fold (OID_toString oid). by rewrite OID_text_roundtrip.
Qed.
Lemma OID_toString_plain oid : plain (OID_toString oid).
Proof. apply hex_plain, toHexLower_hex. Qed.

Lemma numeral_print_0 z : code_numeral (print_int z) 0 = Some z.
Proof.
  unfold code_numeral. rewrite extractSign_print.
  destruct (print_nonneg_value (Z.abs z) ltac:(lia)) as (Hne & _ & Hv).
  assert (_extractBase (print_nonneg (Z.abs z)) 0 = (print_nonneg (Z.abs z), 10)) as ->.
  { destruct (print_nonneg_head (Z.abs z) ltac:(lia)) as (d & l & -> & Hd & H0).
    destruct (decide (d = 0)) as [-> |Hd0]; [destruct (H0 eq_refl) as [_ ->]; by vm_compute|].
    assert (forall p, has_prefix (chr (48 + d) :: l) ("0"%char :: p) = false) as Hp.
    { intros p. apply bool_decide_eq_false_2. intros [k [= Hk _]].
      assert (uchar (chr (48 + d)) = 48) as Hu by (by rewrite Hk).
      rewrite uchar_chr_small in Hu by lia. lia. }
    unfold _extractBase. cbn [B String.list_ascii_of_string]. rewrite !Hp.
    cbn [orb]. by rewrite !andb_false_r. }
  rewrite empty_false, Hv by done. cbn. f_equal. destruct (z <? 0) eqn:E; lia.
Qed.
Lemma parse_print_0 z : in_range int64 z ->
  parseNumberFromStringWithBase int64 (print_int z) 0 = Ret z.
Proof.
  intros Hz. pose proof (parseNumber_spec_aux int64 (print_int z) 0) as H.
  rewrite numeral_print_0 in H. cbn [parse_spec] in H. rewrite decide_True in H by done.
  apply H; [unfold supported; set_solver|by left|by left].
Qed.
Lemma print_nonneg_plain z : 0 <= z -> plain (print_nonneg z).
Proof. intros Hz. apply (plain_check isdigit); [by vm_compute|by apply print_nonneg_digits]. Qed.
Lemma print_int_plain z : plain (print_int z).
Proof.
  unfold print_int. destruct (z <? 0) eqn:E; [|apply print_nonneg_plain; lia].
  apply plain_cons; [done|]. apply print_nonneg_plain. lia.
Qed.
Lemma quoted_long_run l z rest : spaces l -> in_range int64 z ->
  quoted_long (l ++ quote ++ print_int z ++ quote ++ rest) = Ret (Ret z, rest).
Proof.
  intros Hl Hz. unfold quoted_long.
  erewrite jp_bind_run by (apply quoted_text; [done|apply print_int_plain]).
  unfold jp_status. by rewrite parse_print_0.
Qed.

(** Integers inside the special forms. *)
Lemma wrap_signed z : in_range uint64 z -> wrap uint64 (wrap int64 z) = z /\ in_range int64 (wrap int64 z).
Proof.
  intros Hz. split; [|by apply wrap_range].
  assert (forall y, wrap uint64 y = y mod 2 ^ 64) as Hu by done.
  rewrite Hu. change 64 with (width int64). rewrite wrap_congr by done.
  apply Z.mod_small. unfold in_range in Hz. cbn in *. lia.
Qed.
Lemma strto_spaces ty l s v e er : spaces l -> strto ty s = (v, e, er) -> zlen e < zlen s ->
  strto ty (l ++ s) = (v, e, er).
Proof.
  intros Hl Hs He. induction Hl as [|c l Hc Hl IH]; [done|]. cbn [app].
  destruct (strto_space ty c (l ++ s) Hc) as [-> |[H _]]; [done|].
  rewrite IH in H. injection H as _ -> _. rewrite zlen_app in He. pose proof (zlen_nonneg l). lia.
Qed.
Section Integers.
Context (l : bytes) (c : char) (r : bytes) (Hl : spaces l) (Hc : isdigit c = false).

Lemma strto_text ty z : in_range ty z -> (is_signed ty = true \/ 0 <= z /\ 0 < width ty) ->
  strto ty (l ++ print_int z ++ c :: r) = (z, c :: r, false) /\
  (zlen (c :: r) =? zlen (l ++ print_int z ++ c :: r)) = false.
Proof.
  intros Hz Ht. destruct (print_int_skip z) as [Hne _].
  assert (0 < zlen (print_int z)) by (destruct (print_int z); [done|unfold zlen; cbn; lia]).
  pose proof (zlen_nonneg l). rewrite !zlen_app. split; [|lia].
  apply strto_spaces; [done|by apply strto_print_rest|]. rewrite zlen_app. lia.
Qed.
Lemma unsigned_run m1 m2 z : in_range uint32 z ->
  unsigned_number m1 m2 (l ++ print_int z ++ c :: r) = Ret (Ret z, c :: r).
Proof.
  intros Hz. assert (in_range uint64 z) as Hz' by (unfold in_range in *; cbn in *; lia).
  destruct (strto_text uint64 z Hz') as [E1 E2]; [right; unfold in_range in Hz; cbn in *; lia|].
  unfold unsigned_number, mbind, JP_bind, jp_input, strtoul. rewrite E1.
  unfold jp_unless. cbn [negb]. rewrite E2. cbn [negb jp_move].
  by rewrite wrap_id.
Qed.
Lemma signed_run t m1 m2 z : in_range int64 z -> 0 < width t -> in_range t z ->
  signed_number t m1 m2 (l ++ print_int z ++ c :: r) = Ret (Ret z, c :: r).
Proof.
  intros Hz Hw Ht. destruct (strto_text int64 z Hz) as [E1 E2]; [by left|].
  unfold signed_number, mbind, JP_bind, jp_input, strtol. rewrite E1.
  unfold jp_unless. cbn [negb]. rewrite E2. cbn [negb jp_move]. by rewrite wrap_id.
Qed.
Lemma date_number_run z : in_range uint64 z ->
  date_number (l ++ print_int (wrap int64 z) ++ c :: r) = Ret (Ret z, c :: r).
Proof.
  intros Hz. destruct (wrap_signed z Hz) as [Hw Hr].
  destruct (strto_text int64 (wrap int64 z) Hr) as [E1 E2]; [by left|].
  unfold date_number, mbind, JP_bind, jp_input, strtoll. rewrite E1.
  unfold jp_unless. rewrite E2. cbn [negb jp_move]. by rewrite Hw.
Qed.
End Integers.
(** No minus sign in front. *)
Lemma no_minus l z s : spaces l -> 0 <= z -> readToken (B "-") (l ++ print_int z ++ s) = Ret (Ret false, l ++ print_int z ++ s).
Proof.
  intros Hl Hz. unfold readToken, readTokenImpl.
  assert (skip_space (l ++ print_int z ++ s) = print_int z ++ s) as ->.
  { destruct (print_int_start z) as (x & k & -> & Hx).
    induction Hl as [|y l' Hy Hl' IH]; cbn [skip_space app]; [by rewrite Hx|rewrite Hy; by apply IH]. }
  unfold print_int. replace (z <? 0) with false by lia.
  destruct (print_nonneg_head z Hz) as (d & k & -> & Hd & _).
  assert (d = 0 \/ d = 1 \/ d = 2 \/ d = 3 \/ d = 4 \/ d = 5 \/ d = 6 \/ d = 7 \/ d = 8 \/ d = 9)
    as H by lia. by repeat destruct H as [-> |H]; subst.
Qed.

Lemma spaces_one : spaces (B " ").
Proof. repeat constructor. Qed.
#[local] Hint Resolve spaces_one Forall_nil_2 : core.

Lemma seconds_run check_i name seconds count mid c r :
  in_range uint32 seconds -> in_range uint32 count -> isdigit c = false ->
  check_i (B " " ++ mid) = Ret (Ret tt, B " " ++ print_int count ++ c :: r) ->
  seconds_and_increment check_i name (B " " ++ print_int seconds ++ B ", " ++ mid)
  = Ret (Ret (seconds, count), c :: r).
Proof.
  intros Hs Hi Hc Hm. pose proof spaces_one as H1. unfold seconds_and_increment.
  assert (0 <= seconds /\ 0 <= count) as [? ?] by (unfold in_range in *; cbn in *; lia).
  erewrite jp_if_run by (by apply (no_minus (B " "))). cbv iota.
  erewrite jp_bind_run by (by apply (unsigned_run (B " ") ","%char (B " " ++ mid))).
  erewrite jp_bind_run by reflexivity. erewrite jp_bind_run by exact Hm.
  erewrite jp_if_run by (by apply (no_minus (B " "))). cbv iota.
  by erewrite jp_bind_run by (by apply (unsigned_run (B " "))).
Qed.

(** Texts without a zero byte, which C strings can hold. *)
Definition no_nul (s : bytes) : bool := forallb (fun c => negb (ceq c nul)) s.
Lemma no_nul_spec s : no_nul s = true <-> nul ∉ s.
Proof.
  unfold no_nul. rewrite forallb_forall. split.
  - intros H Hin%list_elem_of_In. by specialize (H nul Hin).
  - intros H c Hc%list_elem_of_In. apply negb_true_iff, bool_decide_eq_false_2. by intros ->.
Qed.
Lemma no_nul_app a b : no_nul (a ++ b) = no_nul a && no_nul b.
Proof. apply forallb_app. Qed.
Lemma no_nul_cons c b : no_nul (c :: b) = negb (ceq c nul) && no_nul b.
Proof. done. Qed.
Lemma c_str_plain s : nul ∉ s -> c_str s = s.
Proof.
  intros Hs. unfold c_str. by rewrite span_all by (by apply no_nul_spec).
Qed.
Lemma plain_no_nul s : plain s -> nul ∉ s.
Proof.
  intros Hs Hn. pose proof (proj1 (Forall_forall _ _) Hs nul Hn) as H. by vm_compute in H.
Qed.
Lemma no_nul_plain s : plain s -> no_nul s = true.
Proof. intros H. by apply no_nul_spec, plain_no_nul. Qed.
Lemma no_nul_c_str s : no_nul (c_str s) = true.
Proof.
  unfold c_str. induction s as [|x s IH]; cbn [span]; [done|].
  destruct (negb (ceq x nul)) eqn:E; [|done].
  destruct (span _ s) as [a b]. cbn [fst] in *. by rewrite no_nul_cons, E, IH.
Qed.
Lemma no_nul_escape s slash : no_nul (escape s slash) = true.
Proof.
  induction s as [|c s IH]; [done|]. cbn [escape flat_map]. rewrite no_nul_app. fold (escape s slash).
  rewrite IH, andb_true_r. destruct slash; revert c; apply forall_chars; by vm_compute.
Qed.
Lemma no_nul_quoted s : no_nul (quoted s) = true.
Proof. unfold quoted. by rewrite !no_nul_app, no_nul_escape. Qed.
Lemma no_nul_flat_map {A} (f : A -> bytes) l : (forall x, no_nul (f x) = true) -> no_nul (flat_map f l) = true.
Proof. intros H. induction l as [|x l IH]; [done|]. cbn [flat_map]. by rewrite no_nul_app, H, IH. Qed.
Lemma no_nul_sub (a b : bytes) : a ⊆ b -> no_nul b = true -> no_nul a = true.
Proof. rewrite !no_nul_spec. intros H Hb Ha. by apply Hb, H. Qed.
Lemma no_nul_print_nonneg z : 0 <= z -> no_nul (print_nonneg z) = true.
Proof. intros Hz. by apply no_nul_plain, print_nonneg_plain. Qed.
Lemma drop_zeros_sub s : drop_zeros s ⊆ s.
Proof.
  induction s as [|c s IH]; [done|]. cbn [drop_zeros]. destruct (ceq c "0"%char); [|done].
  intros x Hx. right. by apply IH.
Qed.
Lemma no_nul_with_point s : no_nul s = true -> no_nul (with_point s) = true.
Proof.
  intros Hs. unfold with_point. case_bool_decide; [done|]. rewrite no_nul_cons. cbn [ceq].
  apply andb_true_intro. split; [done|]. apply (no_nul_sub _ s); [|done].
  intros x. unfold strip_zeros. rewrite elem_of_reverse. intros Hx%drop_zeros_sub.
  by rewrite elem_of_reverse in Hx.
Qed.
Lemma no_nul_take n s : no_nul s = true -> no_nul (take n s) = true.
Proof. apply no_nul_sub. intros x Hx. rewrite <-(take_drop n s). apply elem_of_app. by left. Qed.
Lemma no_nul_drop n s : no_nul s = true -> no_nul (drop n s) = true.
Proof. apply no_nul_sub. intros x Hx. rewrite <-(take_drop n s). apply elem_of_app. by right. Qed.
Lemma no_nul_zeros n : no_nul (replicate n "0"%char) = true.
Proof. by induction n. Qed.

Lemma no_nul_print_ratio num den : 0 < num -> 0 < den -> no_nul (print_ratio num den) = true.
Proof.
  intros Hn Hd. unfold print_ratio. set (x := decimal_exponent num den).
  pose proof (round_units_nonneg (x - 15) num den Hn Hd) as Hq.
  destruct (if round_units 10 (x - 15) num den =? 10 ^ 16 then _ else _) as [k y] eqn:E.
  assert (0 <= k) as Hk by (destruct (_ =? _); injection E as <- <-; lia).
  pose proof (no_nul_print_nonneg k Hk) as Hp.
  assert (forall n, no_nul (with_point (drop n (print_nonneg k))) = true) as Hw
    by (intros n; by apply no_nul_with_point, no_nul_drop).
  destruct ((-4 <=? y) && (y <? 16)); [destruct (0 <=? y)|];
    rewrite !no_nul_app, ?no_nul_take, ?Hw by done; cbn [andb].
  - done.
  - rewrite no_nul_with_point; [done|]. by rewrite no_nul_app, no_nul_zeros, Hp.
  - rewrite no_nul_print_nonneg by lia. by destruct (y <? 0), (Z.abs y <? 10).
Qed.
Lemma no_nul_print_double neg u : 0 <= u -> no_nul (print_double neg u) = true.
Proof.
  intros Hu. unfold print_double. rewrite no_nul_app. destruct (u =? 0) eqn:E; [by destruct neg|].
  rewrite no_nul_print_ratio by (pose proof one_units_pos; lia). by destruct neg.
Qed.
Lemma no_nul_base64 s : no_nul (base64_encode s (zlen s)) = true.
Proof.
  assert (base64_encode s (zlen s) = base64_text s) as ->.
  { unfold base64_encode, base64_text. by rewrite take_ge by (unfold zlen; lia). }
  apply no_nul_spec. intros Hin.
  pose proof (proj1 (Forall_forall _ _) (base64_text_chars s) nul Hin) as Hn0.
  by apply (bool_decide_eq_false_1 (nul ∈ base64_chars) ltac:(by vm_compute)) in Hn0.
Qed.
Ltac first_token := erewrite jp_if_run by reflexivity; cbv iota.
Ltac no_token := erewrite jp_if_run by reflexivity; cbv iota.

(** The options of a regular expression. *)
Lemma option_char c : c ∈ JOPTIONS ->
  negb (ceq c nul) = true /\ escape_char false c = [c] /\ match_ c JOPTIONS = true /\
  control c = false /\ ceq c backslash = false.
Proof.
  intros Hc. unfold JOPTIONS, B in Hc. cbn in Hc. rewrite !elem_of_cons in Hc.
  destruct Hc as [-> |[-> |[-> |[-> |[]%elem_of_nil]]]]; split_and!; by vm_compute.
Qed.
Lemma options_facts opt : Forall (fun c => c ∈ JOPTIONS) opt ->
  c_str opt = opt /\ plain opt /\ find (fun c => negb (match_ c JOPTIONS)) opt = None.
Proof.
  induction 1 as [|c opt Hc Ho (IH1 & IH2 & IH3)]; [split_and!; [done|apply Forall_nil_2|done]|].
  destruct (option_char c Hc) as (H1 & H2 & H3 & _). split_and!.
  - unfold c_str in *. cbn [span]. rewrite H1. destruct (span _ opt). cbn in *. by rewrite IH1.
  - by apply plain_cons.
  - cbn [find]. by rewrite H3.
Qed.
Lemma no_nul_options opt : Forall (fun c => c ∈ JOPTIONS) opt -> no_nul opt = true.
Proof. intros H. by apply no_nul_plain, options_facts. Qed.
Lemma chars_options opt c rest : Forall (fun c => c ∈ JOPTIONS) opt -> delim c ->
  chars [] (Some JOPTIONS) (opt ++ c :: rest) = Ret (Ret opt, c :: rest).
Proof.
  intros Ho Hc. unfold chars.
  assert (forall acc, chars_loop [] (Some JOPTIONS) (opt ++ c :: rest) acc
    = Ret (Ret (acc ++ opt), Some (c :: rest))) as H; [|by rewrite H].
  induction Ho as [|x opt Hx Ho IH]; intros acc.
  - rewrite app_nil_r. by destruct Hc as [-> | ->].
  - destruct (option_char x Hx) as (_ & _ & H3 & H4 & H5).
    cbn [app chars_loop]. change (match_ x []) with false. cbv iota. rewrite H3, H4, H5. cbn [negb].
    by rewrite IH, <-app_assoc.
Qed.
Lemma append_regex_run used name pat opt s : nul ∉ name -> nul ∉ pat -> room used [(name, VRegEx pat opt)] ->
  append_regex used name pat opt s = Ret (Ret [(name, VRegEx pat opt)], s).
Proof.
  intros Hn Hp Hr. destruct (write_element_run _ _ _ Hr) as [u E]. unfold append_regex, checkFieldName.
  rewrite (proj2 (Z.eqb_eq _ _) (find_char_notin name nul Hn)),
    (proj2 (Z.eqb_eq _ _) (find_char_notin pat nul Hp)).
  unfold mbind, JP_bind, jp_throws. cbn [uassert guard_throw mbind result_bind]. by rewrite E.
Qed.
Lemma digit_plain k : escape_char false (digit k) = [digit k].
Proof.
  assert (forallb (fun i => bool_decide (escape_char false (chr (48 + Z.of_nat i)) = [chr (48 + Z.of_nat i)]))
    (seq 0 10) = true) as H by (by vm_compute).
  unfold digit. pose proof (Z.mod_pos_bound k 10 ltac:(lia)).
  rewrite forallb_forall in H. specialize (H (Z.to_nat (k mod 10)) ltac:(apply in_seq; lia)).
  rewrite Z2Nat.id in H by lia. by apply bool_decide_eq_true_1 in H.
Qed.
Lemma iso_plain b ms west h m : plain (iso_string b ms (zone west h m)).
Proof.
  unfold iso_string, strftime_iso, zone, pad4, pad3, pad2. cbn [app].
  repeat (apply plain_cons; [first [apply digit_plain|by destruct west|done]|]). apply Forall_nil_2.
Qed.

Section Scalars.
Context (f : Z -> bytes -> JP BSONObj) (used : Z) (name : bytes) (Hn : nul ∉ name).

Lemma string_run s rest : room used [(name, VString s)] ->
  value_body f used name (quoted s ++ rest) = Ret (Ret [(name, VString s)], rest).
Proof.
  intros Hroom. unfold value_body. do 10 no_token. first_token.
  erewrite jp_bind_run by apply quotedString_run. by apply append_run.
Qed.
Lemma oid_run oid rest : length oid = 12%nat -> room used [(name, VjstOID oid)] ->
  value_body f used name (B "{ " ++ q "$oid" ++ B " : " ++ quote ++ OID_toString oid ++ quote ++ B " }" ++ rest)
  = Ret (Ret [(name, VjstOID oid)], rest).
Proof.
  intros Ho Hroom.
  apply (special_run f used name "$oid" objectIdObject); [reflexivity|repeat constructor|].
  unfold objectIdObject. erewrite jp_bind_run by reflexivity.
  erewrite jp_bind_run by (apply (quoted_text (B " ")); [done|apply OID_toString_plain]).
  by apply hex_oid_run.
Qed.
Lemma objectId_run oid rest : length oid = 12%nat -> room used [(name, VjstOID oid)] ->
  value_body f used name (B "ObjectId( " ++ quote ++ OID_toString oid ++ quote ++ B " )" ++ rest)
  = Ret (Ret [(name, VjstOID oid)], rest).
Proof.
  intros Ho Hroom. unfold value_body. do 5 no_token. first_token. unfold objectId.
  erewrite jp_bind_run by reflexivity.
  erewrite jp_bind_run by (apply (quoted_text (B " ")); [done|apply OID_toString_plain]).
  erewrite jp_bind_run by reflexivity. by apply hex_oid_run.
Qed.
Lemma binary_run subtype data rest : zlen data <= 2 ^ 29 -> room used [(name, VBinData subtype data)] ->
  value_body f used name (B "{ " ++ q "$binary" ++ B " : " ++ quote ++ base64_encode data (zlen data) ++ quote
    ++ B ", " ++ q "$type" ++ B " : " ++ quote ++ toHexLower [subtype] 1 ++ quote ++ B " }" ++ rest)
  = Ret (Ret [(name, VBinData subtype data)], rest).
Proof.
  intros Hd Hroom. apply (special_run f used name "$binary" binaryObject); [reflexivity|repeat constructor|].
  assert (base64_encode data (zlen data) = base64_text data) as ->.
  { unfold base64_encode, base64_text. by rewrite take_ge by (unfold zlen; lia). }
  assert (forallb (fun c => match_ c base64_chars) (base64_text data) = true) as Hm.
  { apply forallb_forall. intros c Hc%list_elem_of_In.
    pose proof (proj1 (Forall_forall _ _) (base64_text_chars data) c Hc) as Hin.
    unfold match_. rewrite bool_decide_eq_false_2 by done. apply bool_decide_eq_true_2.
    apply elem_of_app. by left. }
  assert (plain (base64_text data)) as Hp.
  { apply (plain_check (fun c => match_ c base64_chars && negb (ceq c nul))); [by vm_compute|].
    apply forallb_forall. intros c Hin. cbv beta. rewrite (proj1 (forallb_forall _ _) Hm c Hin). cbn [andb].
    apply list_elem_of_In in Hin. apply negb_true_iff, bool_decide_eq_false_2. intros ->.
    pose proof (proj1 (Forall_forall _ _) (base64_text_chars data) nul Hin) as Hn0.
    by apply (bool_decide_eq_false_1 (nul ∈ base64_chars) ltac:(by vm_compute)) in Hn0. }
  unfold binaryObject. erewrite jp_bind_run by reflexivity.
  erewrite jp_bind_run by (by apply (quoted_text (B " "))).
  rewrite base64_text_mod. unfold isBase64String. rewrite Hm.
  change (0 =? 0) with true. cbn [jp_unless].
  erewrite jp_bind_run by (unfold jp_throws; rewrite base64_decode_of_text by lia; reflexivity).
  do 3 (erewrite jp_bind_run by reflexivity).
  erewrite jp_bind_run by (apply (quoted_text (B " ")); [done|apply hex_plain, toHexLower_hex]).
  rewrite toHexLower_hex. change (zlen (toHexLower [subtype] 1) =? 2) with true. cbn [andb jp_unless].
  erewrite jp_bind_run; [by apply append_run|].
  unfold jp_throws. rewrite (fromHex_toHex hexchars_lower subtype (or_intror eq_refl) : fromHex_string (toHexLower [subtype] 1) = _). done.
Qed.
Lemma number_long_run n rest : in_range int64 n -> room used [(name, number_value n)] ->
  value_body f used name (number_long_object n ++ rest) = Ret (Ret [(name, number_value n)], rest).
Proof.
  intros Hr Hroom. unfold number_long_object. rewrite <-!app_assoc.
  apply (special_run f used name "$numberLong" numberLongObject); [reflexivity|repeat constructor|].
  unfold numberLongObject. erewrite jp_bind_run by reflexivity.
  erewrite jp_bind_run by (by apply (quoted_long_run (B " "))). by apply append_run.
Qed.
Lemma NumberLong_run n rest : in_range int64 n -> room used [(name, number_value n)] ->
  value_body f used name (B "NumberLong(" ++ print_int n ++ B ")" ++ rest)
  = Ret (Ret [(name, number_value n)], rest).
Proof.
  intros Hr Hroom. unfold value_body. do 6 no_token. first_token. unfold numberLong.
  erewrite jp_bind_run by reflexivity.
  erewrite jp_bind_run by (apply (signed_run [] ")"%char rest); [apply Forall_nil_2|done..]).
  erewrite jp_bind_run by reflexivity. by apply append_run.
Qed.
Lemma NumberInt_run n rest : in_range int32 n -> room used [(name, VNumberInt n)] ->
  value_body f used name (B "NumberInt(" ++ print_int n ++ B ")" ++ rest)
  = Ret (Ret [(name, VNumberInt n)], rest).
Proof.
  intros Hr Hroom. assert (in_range int64 n) by (unfold in_range in *; cbn in *; lia).
  unfold value_body. do 7 no_token. first_token. unfold numberInt.
  erewrite jp_bind_run by reflexivity.
  erewrite jp_bind_run by (apply (signed_run [] ")"%char rest); [apply Forall_nil_2|done..]).
  erewrite jp_bind_run by reflexivity. by apply append_run.
Qed.
Lemma timestamp_object_run seconds increment rest : in_range uint32 seconds -> in_range uint32 increment -> room used [(name, VTimestamp increment seconds)] ->
  value_body f used name (B "{ " ++ q "$timestamp" ++ B " : { " ++ q "t" ++ B " : " ++ print_int seconds
    ++ B ", " ++ q "i" ++ B " : " ++ print_int increment ++ B " } }" ++ rest)
  = Ret (Ret [(name, VTimestamp increment seconds)], rest).
Proof.
  intros Hs Hi Hroom. apply (special_run f used name "$timestamp" timestampObject); [reflexivity|repeat constructor|].
  unfold timestampObject. do 4 (erewrite jp_bind_run by reflexivity).
  erewrite jp_bind_run by (apply (seconds_run _ _ _ increment _ " "%char (B "} }" ++ rest)); done).
  cbv beta iota. erewrite jp_bind_run by reflexivity. by apply append_run.
Qed.
Lemma Timestamp_run seconds increment rest : in_range uint32 seconds -> in_range uint32 increment -> room used [(name, VTimestamp increment seconds)] ->
  value_body f used name (B "Timestamp( " ++ print_int seconds ++ B ", " ++ print_int increment ++ B " )" ++ rest)
  = Ret (Ret [(name, VTimestamp increment seconds)], rest).
Proof.
  intros Hs Hi Hroom. unfold value_body. do 4 no_token. first_token. unfold timestamp.
  erewrite jp_bind_run by reflexivity.
  erewrite jp_bind_run by (apply (seconds_run _ _ _ increment _ " "%char (B ")" ++ rest)); done).
  cbv beta iota. erewrite jp_bind_run by reflexivity. by apply append_run.
Qed.
Lemma Date_run d rest : in_range uint64 d -> room used [(name, VDate d)] ->
  value_body f used name (B "Date( " ++ print_int (wrap int64 d) ++ B " )" ++ rest)
  = Ret (Ret [(name, VDate d)], rest).
Proof.
  intros Hd Hroom. unfold value_body. do 3 no_token. first_token. unfold date.
  erewrite jp_bind_run by reflexivity.
  erewrite jp_bind_run by (by apply (date_number_run (B " ") " "%char (B ")" ++ rest))).
  erewrite jp_bind_run by reflexivity. by apply append_unchecked_run.
Qed.
Lemma date_string_run s d rest : plain s -> dateFromISOString s = Ret (Ret d) -> room used [(name, VDate d)] ->
  value_body f used name (B "{ " ++ q "$date" ++ B " : " ++ quote ++ s ++ quote ++ B " }" ++ rest)
  = Ret (Ret [(name, VDate d)], rest).
Proof.
  intros Hs Hd Hroom. apply (special_run f used name "$date" dateObject); [reflexivity|repeat constructor|].
  unfold dateObject. erewrite jp_bind_run by reflexivity.
  erewrite jp_bind_run; [by apply append_unchecked_run|]. erewrite jp_if_run by reflexivity. cbv iota.
  erewrite jp_bind_run by (by apply (quoted_text (B " "))).
  erewrite jp_bind_run by (unfold jp_throws; rewrite Hd; reflexivity). done.
Qed.
Lemma regex_object_run pat opt rest : nul ∉ pat -> Forall (fun c => c ∈ JOPTIONS) opt -> room used [(name, VRegEx pat opt)] ->
  value_body f used name (B "{ " ++ q "$regex" ++ B " : " ++ quoted pat ++ B ", " ++ q "$options" ++ B " : "
    ++ quote ++ c_str opt ++ quote ++ B " }" ++ rest)
  = Ret (Ret [(name, VRegEx pat opt)], rest).
Proof.
  intros Hp Ho Hroom. apply (special_run f used name "$regex" regexObject); [reflexivity|repeat constructor|].
  destruct (options_facts opt Ho) as (-> & Hplain & Hcheck).
  unfold regexObject. erewrite jp_bind_run by reflexivity.
  erewrite jp_bind_run.
  2: { apply (spaceless_spaces quotedString (B " ")); [apply spaceless_quotedString|done|].
       apply quotedString_run. }
  first_token. do 2 (erewrite jp_bind_run by reflexivity).
  erewrite jp_bind_run by (by apply (quoted_text (B " "))).
  unfold regexOptCheck. rewrite Hcheck. erewrite jp_bind_run by reflexivity. by apply append_regex_run.
Qed.
Lemma regex_run pat opt c rest : nul ∉ pat -> Forall (fun c => c ∈ JOPTIONS) opt -> delim c -> room used [(name, VRegEx pat opt)] ->
  value_body f used name (B "/" ++ escape pat true ++ B "/" ++ opt ++ c :: rest)
  = Ret (Ret [(name, VRegEx pat opt)], c :: rest).
Proof.
  intros Hp Ho Hc Hroom. unfold value_body. do 9 no_token. first_token. unfold regex.
  erewrite jp_bind_run by reflexivity.
  erewrite jp_bind_run by (apply (chars_run "/"%char true); by right).
  erewrite jp_bind_run by reflexivity.
  erewrite jp_bind_run by (by apply chars_options).
  destruct (options_facts opt Ho) as (_ & _ & Hcheck).
  unfold regexOptCheck. rewrite Hcheck. erewrite jp_bind_run by reflexivity. by apply append_regex_run.
Qed.
Lemma undefined_object_run rest : room used [(name, VUndefined)] ->
  value_body f used name (B "{ " ++ q "$undefined" ++ B " : true }" ++ rest) = Ret (Ret [(name, VUndefined)], rest).
Proof.
  intros Hroom. apply (special_run f used name "$undefined" undefinedObject); [reflexivity|repeat constructor|].
  unfold undefinedObject. do 2 (erewrite jp_bind_run by reflexivity). by apply append_unchecked_run.
Qed.
Lemma minKey_run rest : room used [(name, VMinKey)] ->
  value_body f used name (B "{ " ++ q "$minKey" ++ B " : 1 }" ++ rest) = Ret (Ret [(name, VMinKey)], rest).
Proof.
  intros Hroom. apply (special_run f used name "$minKey" minKeyObject); [reflexivity|repeat constructor|].
  unfold minKeyObject. do 2 (erewrite jp_bind_run by reflexivity). by apply append_run.
Qed.
Lemma maxKey_run rest : room used [(name, VMaxKey)] ->
  value_body f used name (B "{ " ++ q "$maxKey" ++ B " : 1 }" ++ rest) = Ret (Ret [(name, VMaxKey)], rest).
Proof.
  intros Hroom. apply (special_run f used name "$maxKey" maxKeyObject); [reflexivity|repeat constructor|].
  unfold maxKeyObject. do 2 (erewrite jp_bind_run by reflexivity). by apply append_run.
Qed.
(** The words, and the doubles that are no number. *)
Lemma word_run word v rest :
  (word, v) ∈ [("true"%string, bool_val true); ("false"%string, bool_val false);
    ("null"%string, VjstNULL); ("undefined"%string, VUndefined);
    ("NaN"%string, VNumberDouble quiet_NaN); ("Infinity"%string, VNumberDouble inf_bits);
    ("-Infinity"%string, VNumberDouble (sign_bit true + inf_bits))] -> room used [(name, v)] ->
  value_body f used name (B word ++ rest) = Ret (Ret [(name, v)], rest).
Proof.
  intros Hw Hroom. revert Hw. rewrite !elem_of_cons. unfold value_body.
  intros [[= -> ->]|[[= -> ->]|[[= -> ->]|[[= -> ->]|[[= -> ->]|[[= -> ->]|[[= -> ->]|[]%elem_of_nil]]]]]]];
    do 11 no_token;
    [do 0 no_token|do 1 no_token|do 2 no_token|do 3 no_token|do 4 no_token|do 5 no_token|do 6 no_token];
    first_token; first [by apply append_run|by apply append_unchecked_run].
Qed.
Lemma int_run n c rest : in_range int32 n -> delim c -> room used [(name, VNumberInt n)] ->
  value_body f used name (print_int_number n ++ c :: rest) = Ret (Ret [(name, VNumberInt n)], c :: rest).
Proof.
  intros Hr Hc Hroom. assert (-2147483648 <= n <= 2147483647) as Hb by (unfold in_range in Hr; cbn in Hr; lia).
  unfold print_int_number. rewrite print_double_int by lia.
  destruct (strtod_print n ltac:(lia)) as [d Hd].
  rewrite (value_number_run f (print_int n) used name d) by (done || apply print_int_numeral || by rewrite read_number_int).
  by rewrite read_number_int.
Qed.
End Scalars.

Lemma special_object_None f n : n ∉ reserved -> special_object f n = None.
Proof.
  intros Hn. unfold special_object, special_objects. cbn [find fst].
  unfold reserved in Hn. rewrite !not_elem_of_cons in Hn.
  rewrite !bool_decide_eq_false_2 by tauto. done.
Qed.
(** A date in a local zone. *)
Section LocalDate.
Context (localtime : Z -> tm) (strftime_z : tm -> bytes).
(** The zone at each instant is a whole number of minutes from Greenwich, less
    than a day, and not west of it by less than an hour. *)
Definition zones : Prop := forall t, 86400 <= t -> exists (west : bool) h m,
  0 <= h < 24 /\ 0 <= m < 60 /\ (west = true -> h <> 0) /\
  localtime t = gmtime (t + (if west then -1 else 1) * (h * 3600 + m * 60)) /\
  strftime_z (localtime t) = zone west h m.

Lemma local_date d : zones -> 86400000 <= d < 32535215999000 - 86400000 ->
  isFormatable d = true /\ exists s, dateToISOStringLocal localtime strftime_z d = Ret s /\
    plain s /\ dateFromISOString s = Ret (Ret d).
Proof.
  intros Hz Hd. split; [rewrite isFormatable_64; lia|].
  assert (86400 <= d / 1000 < 32535129599) as Ht.
  { split; [apply Z.div_le_lower_bound; lia|apply Z.div_lt_upper_bound; lia]. }
  destruct (Hz (d / 1000) ltac:(lia)) as (west & h & m & Hh & Hm & Hw & Hl & Hsz).
  set (off := (if west then -1 else 1) * (h * 3600 + m * 60)) in *.
  assert (-86400 < off < 86400) as Hoff by (unfold off; destruct west; lia).
  destruct (gmtime_spec (d / 1000 + off) ltac:(lia)) as (Hg & Hf).
  set (b := gmtime (d / 1000 + off)) in *.
  pose proof (Z.mod_pos_bound d 1000 ltac:(lia)) as Hms.
  assert (wrap int64 d = d) as Hwd.
  { apply wrap_id; [done|]. unfold in_range. cbn. lia. }
  exists (iso_string b (d mod 1000) (zone west h m)). split; [|split].
  - unfold dateToISOStringLocal, _dateToISOString, toTimeT. rewrite isFormatable_64.
    replace (d <? 32535215999000) with true by lia. cbn [invariant guard_throw mbind result_bind].
    rewrite Hwd. replace (0 <=? d) with true by lia. cbn [verify guard_throw mbind result_bind].
    rewrite Z.quot_div_nonneg, Z.rem_mod_nonneg by lia.
    assert (d / 1000 <? int_max int64 = true) as ->.
    { change (int_max int64) with 9223372036854775807. lia. }
    cbn [verify guard_throw mbind result_bind]. rewrite Hsz, Hl.
    change (take 5 (zone west h m)) with (zone west h m). unfold iso_string. by rewrite <-app_assoc.
  - apply iso_plain.
  - unfold zone.
    rewrite (dateFromISOString_iso b _ _ _ (tz_seconds (if west then - h else h) m)).
    + do 2 f_equal. rewrite Hg. pose proof (Z.div_mod d 1000 ltac:(lia)).
      unfold off, tz_seconds in *. destruct west.
      * specialize (Hw eq_refl). replace (- h <? 0) with true by lia. lia.
      * replace (h <? 0) with false by lia. lia.
    + done.
    + done.
    + by destruct west.
    + done.
    + by apply parse_zone.
    + rewrite Hg. lia.
    + rewrite Hg. unfold off, tz_seconds in *. destruct west.
      * specialize (Hw eq_refl). replace (- h <? 0) with true by lia. lia.
      * replace (h <? 0) with false by lia. lia.
Qed.

(** ** Every value *)

Section Reads.
Context (Hz : zones).

(** The text of a value does not start like the end of an array, and is read
    back in front of what may follow it. *)
Definition head_ok (t : bytes) : Prop := exists x l, t = x :: l /\ x <> "]"%char /\ isspace x = false.
Definition reads_text (t : bytes) (v : bson_value) : Prop :=
  head_ok t /\ no_nul t = true /\ forall fuel used name c r, (length t < fuel)%nat -> nul ∉ name ->
    room used [(name, v)] -> delim c ->
    value fuel used name (t ++ c :: r) = Ret (Ret [(name, v)], c :: r).
Definition reads (format : JsonStringFormat) (pretty : Z) (v : bson_value) : Prop :=
  exists t, BSONElement_jsonString localtime strftime_z format false pretty [] v = Ret t /\
    reads_text t (json_norm format v).

Definition scalar (v : bson_value) : bool :=
  match v with VObject _ | VArray _ | VCodeWScope _ _ => false | _ => true end.
Lemma jsonString_scalar format pretty v : scalar v = true ->
  BSONElement_jsonString localtime strftime_z format false pretty [] v =
  json_scalar localtime strftime_z format pretty v.
Proof.
  intros Hs. destruct v; try done; cbn [BSONElement_jsonString];
    match goal with |- (?m ≫= _) = _ => by destruct m end.
Qed.
Lemma reads_text_intro t v : head_ok t -> no_nul t = true ->
  (forall fuel used name c r, nul ∉ name -> room used [(name, v)] -> delim c ->
     value_body (value (S fuel)) used name (t ++ c :: r) = Ret (Ret [(name, v)], c :: r)) ->
  (1 < length t)%nat -> reads_text t v.
Proof.
  intros Hh H0 Hr Hl. split_and!; [done|done|]. intros fuel used name c r Hf Hn Hroom Hc.
  destruct fuel as [|[|fuel]]; [lia|lia|]. by apply Hr.
Qed.
(** One character, such as a digit, needs no inner values. *)
Lemma reads_text_any t v : head_ok t -> no_nul t = true ->
  (forall f used name c r, nul ∉ name -> room used [(name, v)] -> delim c ->
     value_body f used name (t ++ c :: r) = Ret (Ret [(name, v)], c :: r)) -> reads_text t v.
Proof.
  intros Hh H0 Hr. split_and!; [done|done|]. intros fuel used name c r Hf Hn Hroom Hc.
  destruct fuel as [|fuel]; [lia|]. by apply Hr.
Qed.
Lemma head_ok_app x l : negb (ceq x "]"%char) && negb (isspace x) = true -> head_ok (x :: l).
Proof.
  intros H%andb_prop. destruct H as [H1 H2]. exists x, l. split_and!; [done| |by apply negb_true_iff].
  intros ->. done.
Qed.
Lemma numeral_head t : numeral_text t -> head_ok t.
Proof.
  intros (neg & d & l & -> & Hd). destruct neg; [by apply head_ok_app|].
  apply head_ok_app.
  assert (d = 0 \/ d = 1 \/ d = 2 \/ d = 3 \/ d = 4 \/ d = 5 \/ d = 6 \/ d = 7 \/ d = 8 \/ d = 9)
    as H by lia. by repeat destruct H as [-> |H]; subst.
Qed.

Lemma string_plain_run f used name s rest : nul ∉ name -> room used [(name, VString s)] -> plain s ->
  value_body f used name (quote ++ s ++ quote ++ rest) = Ret (Ret [(name, VString s)], rest).
Proof.
  intros Hn Hroom Hs. pose proof (string_run f used name Hn s rest Hroom) as H. unfold quoted in H.
  rewrite plain_escape in H by done. by rewrite <-!app_assoc in H.
Qed.
(** What a DBRef is read as. *)
Definition dbref_doc (ns oid : bytes) : BSONObj := [(B "$ref", VString ns); (B "$id", VString (OID_toString oid))].
Lemma dbref_run fuel used name (Hn : nul ∉ name) ns oid rest : plain ns ->
  room used [(name, VObject (dbref_doc ns oid))] ->
  value_body (value (S fuel)) used name (B "{ " ++ q "$ref" ++ B " : " ++ quote ++ ns ++ quote ++ B ", "
    ++ q "$id" ++ B " : " ++ quote ++ OID_toString oid ++ quote ++ B " }" ++ rest)
  = Ret (Ret [(name, VObject (dbref_doc ns oid))], rest).
Proof.
  intros Hp Hroom.
  apply (special_run _ used name "$ref" (dbRefObject (value (S fuel)))); [reflexivity|repeat constructor|].
  unfold dbRefObject. apply sub_builder_run; [done|apply sub_object|done|]. intros u Hu.
  destruct (room_cons _ _ _ Hu) as [Hu1 Hu2].
  erewrite jp_bind_run by reflexivity.
  erewrite jp_bind_run by (by apply (quoted_text (B " "))).
  erewrite jp_bind_run by (apply append_run; [not_in|exact Hu1]).
  do 3 (erewrite jp_bind_run by reflexivity).
  erewrite jp_bind_run.
  2: { apply (spaceless_spaces (value (S fuel) _ (B "$id")) (B " ")); [apply spaceless_value|done|].
       apply string_plain_run; [not_in|exact Hu2|apply OID_toString_plain]. }
  erewrite jp_bind_run by (by first_token). by erewrite jp_bind_run by (by apply (done_run u)).
Qed.
Lemma Dbref_run fuel used name (Hn : nul ∉ name) ns oid rest : plain ns ->
  room used [(name, VObject (dbref_doc ns oid))] ->
  value_body (value (S fuel)) used name (B "Dbref( " ++ quote ++ ns ++ quote ++ B ", "
    ++ quote ++ OID_toString oid ++ quote ++ B " )" ++ rest)
  = Ret (Ret [(name, VObject (dbref_doc ns oid))], rest).
Proof.
  intros Hp Hroom. unfold value_body. do 8 no_token. first_token.
  unfold dbRef. apply sub_builder_run; [done|apply sub_object|done|]. intros u Hu.
  destruct (room_cons _ _ _ Hu) as [Hu1 Hu2].
  erewrite jp_bind_run by reflexivity.
  erewrite jp_bind_run by (by apply (quoted_text (B " "))).
  erewrite jp_bind_run by (apply append_run; [not_in|exact Hu1]).
  erewrite jp_bind_run by reflexivity.
  erewrite jp_bind_run.
  2: { apply (spaceless_spaces (value (S fuel) _ (B "$id")) (B " ")); [apply spaceless_value|done|].
       apply string_plain_run; [not_in|exact Hu2|apply OID_toString_plain]. }
  erewrite jp_bind_run; [|by first_token]. erewrite jp_bind_run by reflexivity.
  by erewrite jp_bind_run by (by apply (done_run u)).
Qed.

Lemma print_flags_options flags : Forall (fun c => c ∈ JOPTIONS) (print_flags flags).
Proof.
  apply Forall_forall. intros c [Hc _]%list_elem_of_filter. unfold JOPTIONS, B in *. cbn in *.
  rewrite !elem_of_cons in *. tauto.
Qed.

Ltac reads_scalar := eexists; split; [reflexivity|]; cbn [json_norm].
(** A text that starts with a known character. *)
Ltac no_nul :=
  rewrite ?no_nul_app, ?andb_true_iff; split_and?;
  first [reflexivity | apply no_nul_quoted | apply no_nul_escape
        | apply no_nul_plain; first [apply print_int_plain | apply OID_toString_plain
            | apply hex_plain, toHexLower_hex | assumption]
        | apply no_nul_base64 | apply no_nul_c_str | apply no_nul_options; apply print_flags_options | assumption].
Lemma no_nul_number_long n : no_nul (number_long_object n) = true.
Proof. unfold number_long_object. no_nul. Qed.
Ltac known_text :=
  apply reads_text_any; [by apply head_ok_app|try solve [no_nul]|
    intros f used name c r Hn Hroom Hc; rewrite <-?app_assoc].

Lemma double_reads format pretty bits : json_ok format pretty (VNumberDouble bits) ->
  exists t, print_number bits = Ret t /\ reads_text t (json_double bits).
Proof.
  cbn [json_ok]. unfold print_number, json_double.
  destruct (double_of_bits bits) as [|neg|u] eqn:Hb.
  - intros _. eexists. split; [done|]. known_text. apply (word_run f used name Hn "NaN"); [set_solver|done].
  - intros _. destruct neg; eexists; (split; [done|]); known_text.
    + apply (word_run f used name Hn "-Infinity"); [set_solver|done].
    + apply (word_run f used name Hn "Infinity"); [set_solver|done].
  - intros [d Hd]. pose proof (double_text_numeral bits u Hb) as Ht.
    eexists. split; [done|]. change (print_double _ _) with (print_double (Z.testbit bits 63) (Z.abs u)).
    assert (print_double (Z.testbit bits 63) (Z.abs u) = double_text bits) as ->
      by (unfold double_text; by rewrite Hb).
    apply reads_text_any; [by apply numeral_head| |intros f used name c r Hn Hroom Hc; by apply value_number_run with d].
    unfold double_text. rewrite Hb. apply no_nul_print_double. lia.
Qed.
Lemma date_reads format pretty d : date_ok format pretty d ->
  exists t, print_date localtime strftime_z format pretty d = Ret t /\ reads_text t (VDate d).
Proof.
  unfold date_ok, print_date. destruct (decide (format = Strict)).
  - intros Hd. destruct (local_date d Hz Hd) as (-> & s & -> & Hp & Hs).
    eexists. split; [reflexivity|]. known_text. rewrite <-?app_assoc. by apply date_string_run.
  - intros [Hd ->]. eexists. split; [reflexivity|]. known_text. by apply Date_run.
Qed.
Lemma scalar_reads format pretty v :
  scalar v = true -> json_ok format pretty v -> reads format pretty v.
Proof.
  intros Hs Hok. unfold reads. rewrite jsonString_scalar by done.
  destruct v; try discriminate Hs; cbn [json_ok] in Hok; try contradiction; cbn [json_scalar].
  - reads_scalar. known_text. by apply minKey_run.
  - case_decide; reads_scalar; known_text; [by apply undefined_object_run|].
    apply (word_run f used name Hn "undefined"); [set_solver|done].
  - reads_scalar. known_text. apply (word_run f used name Hn "null"); [set_solver|done].
  - reads_scalar. known_text. by apply maxKey_run.
  - by apply (double_reads format pretty).
  - reads_scalar. known_text. by apply string_run.
  - reads_scalar. known_text. by apply binary_run.
  - case_decide; reads_scalar; known_text; [by apply objectId_run|by apply oid_run].
  - unfold bool_val. destruct (ceq b nul) eqn:Eb; reads_scalar; known_text; rewrite Eb in *; cbn [negb] in *;
      [apply (word_run f used name Hn "false")|apply (word_run f used name Hn "true")]; done || set_solver.
  - by apply (date_reads format pretty).
  - destruct Hok as [Hr Hf]. destruct (decide (format = Strict)) as [E|E]; reads_scalar; known_text;
      first [rewrite decide_True in * by done|rewrite decide_False in * by done].
    + by apply regex_object_run.
    + apply regex_run; [done|done|apply print_flags_options|done|done].
  - destruct Hok as [Hp Ho]. rewrite c_str_plain by (by apply plain_no_nul).
    case_decide; reads_scalar; (apply reads_text_intro; [by apply head_ok_app|no_nul| |cbn [B String.list_ascii_of_string app length]; lia]);
      intros fuel used name c r Hn Hroom Hc; rewrite <-!app_assoc; [apply Dbref_run; assumption|apply dbref_run; assumption].
  - reads_scalar. known_text. by apply string_run.
  - reads_scalar. known_text. by apply string_run.
  - case_decide; reads_scalar; [known_text; by apply NumberInt_run|].
    apply reads_text_any; [| |intros; by apply int_run].
    2: { apply no_nul_print_double. pose proof one_units_pos. nia. }
    assert (-2147483648 <= n <= 2147483647) by (unfold in_range in Hok; cbn in Hok; lia).
    unfold print_int_number. rewrite print_double_int by lia. apply numeral_head, print_int_numeral.
  - destruct Hok. case_decide; reads_scalar; known_text; [by apply Timestamp_run|by apply timestamp_object_run].
  - case_decide; reads_scalar; known_text;
      [by apply NumberLong_run|apply no_nul_number_long|by apply number_long_run].
Qed.

(** ** Objects and arrays *)

Definition separator (pretty : Z) : bytes :=
  B "," ++ if pretty =? 0 then B " " else newline_indent pretty.
Lemma newline_indent_spaces pretty : spaces (newline_indent pretty).
Proof.
  constructor; [done|]. induction (seq 0 (Z.to_nat pretty)); [apply Forall_nil_2|].
  cbn. by repeat constructor.
Qed.
Lemma separator_spaces pretty : exists l, separator pretty = ","%char :: l /\ spaces l.
Proof.
  unfold separator. destruct (pretty =? 0); (eexists; split; [reflexivity|]);
    [done|apply newline_indent_spaces].
Qed.
Lemma no_nul_spaces l : spaces l -> no_nul l = true.
Proof.
  induction 1 as [|x l Hx Hl IH]; [done|]. rewrite no_nul_cons, IH, andb_true_r.
  rewrite (proj2 (ceq_false x nul)); [done|]. intros ->. discriminate Hx.
Qed.
Lemma no_nul_separator pretty : no_nul (separator pretty) = true.
Proof.
  unfold separator. rewrite no_nul_app. destruct (pretty =? 0); [done|].
  by rewrite (no_nul_spaces (newline_indent pretty)) by apply newline_indent_spaces.
Qed.
(** The text after a value inside an object or an array. *)
Definition continues (s : bytes) : Prop := exists c r, s = c :: r /\ delim c.

Section Elements.
Context (format : JsonStringFormat) (pretty : Z).
Definition element_reads (e : BSONElement) : Prop := nul ∉ e.1 /\ reads format (indent_next pretty) e.2.

(** [members_text o b]: the loop prints [b], which [members] reads back. *)
Lemma members_text o : Forall element_reads o ->
  exists b, object_loop localtime strftime_z format false pretty o = Ret b /\
  let tail := if no_more o then [] else separator pretty ++ b in
  match o with
  | [] => b = []
  | (n, _) :: _ => exists b', b = quoted n ++ b'
  end /\
  (length o <= length b)%nat /\ no_nul b = true /\
  (forall r, continues (tail ++ B " }" ++ r)) /\
  (forall fuel used mf acc r, (length b < fuel)%nat -> (length o < mf)%nat ->
     room used (acc ++ json_norm_obj format o) ->
     members (value fuel) mf used acc (tail ++ B " }" ++ r)
     = Ret (Ret (acc ++ json_norm_obj format o), B " }" ++ r)) /\
  match o with
  | [] => True
  | (n, w) :: o' => forall fuel used r, (length b < fuel)%nat -> room used (json_norm_obj format o) ->
      (expect (B ":") (B "Expecting ':'");; o1 ← value fuel used n; s ← jp_input; members (value fuel) (S (length s)) used o1)
        (drop (length (quoted n)) b ++ B " }" ++ r)
      = Ret (Ret (json_norm_obj format o), B " }" ++ r)
  end.
Proof.
  induction 1 as [|[n w] o [Hn (t & Ht & Hhead & H0 & Hread)] Ho (b & Hb & Hstart & Hlen & Hb0 & Hcont & Hrun & _)].
  { exists []. cbn [no_more object_loop]. split_and!; try done.
    - intros r. exists " "%char, (B "}" ++ r). split; [done|by left].
    - intros fuel used mf acc r _ Hmf _. destruct mf as [|mf]; [cbn in Hmf; lia|]. cbn [members app].
      no_token. unfold json_norm_obj. cbn. by rewrite app_nil_r. }
  cbn [fst snd] in *. set (tail := if no_more o then [] else separator pretty ++ b) in *.
  exists (quoted n ++ B " : " ++ t ++ tail).
  assert (object_loop localtime strftime_z format false pretty ((n, w) :: o)
    = Ret (quoted n ++ B " : " ++ t ++ tail)) as E.
  { cbn [object_loop negb]. rewrite jsonString_name, Ht. cbn [mbind result_bind].
    rewrite Hb. cbn [mbind result_bind]. unfold json_name, quoted, tail, separator.
    f_equal. rewrite <-!app_assoc. do 5 f_equal.
    destruct o as [|e o]; cbn [no_more]; [by rewrite Hstart|by rewrite <-app_assoc]. }
  assert (length t < length (quoted n ++ B " : " ++ t ++ tail))%nat as Hlt.
  { rewrite !length_app. unfold quoted, quote. rewrite !length_app. cbn. lia. }
  assert (length b <= length (quoted n ++ B " : " ++ t ++ tail))%nat as Hlb.
  { rewrite !length_app. unfold tail. destruct o as [|e o]; [subst b; cbn; lia|].
    cbn [no_more]. rewrite length_app. lia. }
  assert (forall fuel used acc k r, (length (quoted n ++ B " : " ++ t ++ tail) < fuel)%nat ->
    (length o < k)%nat -> room used (acc ++ json_norm_obj format ((n, w) :: o)) ->
    (o1 ← value fuel (used_after used acc) n; members (value fuel) k used (acc ++ o1)) (B " " ++ t ++ tail ++ B " }" ++ r)
    = Ret (Ret (acc ++ json_norm_obj format ((n, w) :: o)), B " }" ++ r)) as Hval.
  { intros fuel used acc k r Hf Hk Hroom. destruct (Hcont r) as (c & r' & Ec & Hc).
    destruct (room_cons _ _ _ (room_right _ _ _ Hroom)) as [Hr1 _].
    erewrite jp_bind_run.
    2: { apply (spaceless_spaces (value fuel _ n) (B " ")); [apply spaceless_value|done|].
         rewrite Ec. apply Hread; [lia|done|done|done]. }
    rewrite <-Ec. rewrite Hrun; [by rewrite <-app_assoc|lia|lia|by rewrite <-app_assoc]. }
  split; [exact E|]. cbn [no_more]. split_and!.
  - by exists (B " : " ++ t ++ tail).
  - rewrite !length_app. unfold tail. destruct o; cbn [no_more length] in *; [cbn; lia|].
    rewrite length_app. cbn. lia.
  - rewrite !no_nul_app, no_nul_quoted, H0. unfold tail.
    destruct (no_more o); [done|]. by rewrite no_nul_app, no_nul_separator, Hb0.
  - intros r. destruct (separator_spaces pretty) as (l & -> & _). exists ","%char. eexists.
    split; [reflexivity|by right].
  - intros fuel used mf acc r Hf Hmf Hroom. destruct mf as [|mf]; [cbn in Hmf; lia|]. cbn [members].
    destruct (separator_spaces pretty) as (l & -> & Hl). rewrite <-!app_assoc. cbn [app].
    first_token. erewrite jp_bind_run.
    2: { apply (spaceless_spaces field l); [apply spaceless_field|done|apply field_run]. }
    erewrite jp_bind_run by reflexivity. apply Hval; [done| |done]. cbn in Hmf. lia.
  - intros fuel used r Hf Hroom. rewrite drop_app_length. rewrite <-!app_assoc.
    erewrite jp_bind_run by reflexivity.
    destruct (Hcont r) as (c & r' & Ec & Hc). destruct (room_cons _ _ _ Hroom) as [Hr1 _].
    erewrite jp_bind_run.
    2: { apply (spaceless_spaces (value fuel _ n) (B " ")); [apply spaceless_value|done|].
         rewrite Ec. apply Hread; [lia|done|done|done]. }
    unfold mbind at 1, JP_bind at 1, jp_input. rewrite <-Ec.
    rewrite (Hrun fuel); [done|lia| |done]. rewrite length_app.
    unfold tail. destruct o; cbn [no_more length] in *; [lia|rewrite length_app; lia].
Qed.
Lemma object_run o : Forall element_reads o -> first_ok o ->
  exists t, BSONObj_jsonString localtime strftime_z format pretty false o = Ret t /\
    (exists t', t = "{"%char :: t' /\ (0 < length t')%nat) /\ no_nul t = true /\
    forall fuel used name (sub : bool) r, (length t <= fuel)%nat -> nul ∉ name ->
      (if sub then room used [(name, VObject (json_norm_obj format o))] else room used (json_norm_obj format o)) ->
      object (value fuel) used name sub (t ++ r)
      = Ret (Ret (if sub then [(name, VObject (json_norm_obj format o))] else json_norm_obj format o), r).
Proof.
  intros Ho Hfirst. unfold BSONObj_jsonString.
  destruct (members_text o Ho) as (b & -> & Hstart & _ & Hb0 & _ & _ & Hrun).
  destruct o as [|[n w] o]; cbn [no_more].
  { eexists. split; [reflexivity|]. split; [eexists; split; [reflexivity|cbn; lia]|]. split; [done|].
    intros fuel used name sub r _ Hn Hroom. unfold object. erewrite jp_bind_run by reflexivity. first_token.
    destruct sub; [|done]. erewrite sub_builder_run; [done|done|apply sub_object|exact Hroom|].
    intros u Hu. by erewrite jp_bind_run by (by apply (done_run u)). }
  destruct Hstart as [b' ->]. rewrite drop_app_length in Hrun.
  eexists. split; [reflexivity|]. split; [eexists; split; [reflexivity|cbn; lia]|].
  split; [by rewrite no_nul_app, (no_nul_app (_ ++ _)), Hb0|].
  intros fuel used name sub r Hf Hn Hroom. unfold object. rewrite <-!app_assoc.
  erewrite jp_bind_run by reflexivity. no_token.
  erewrite jp_bind_run.
  2: { apply (spaceless_spaces field (B " ")); [apply spaceless_field|done|apply field_run]. }
  rewrite special_object_None by exact Hfirst.
  assert (length (quoted n ++ b') < fuel)%nat as Hlt.
  { rewrite !length_app in Hf. rewrite length_app. change (length (B "{ ")) with 2%nat in Hf. lia. }
  pose proof (fun u => Hrun fuel u r Hlt) as Hrun'.
  destruct sub.
  - erewrite jp_bind_run by (by apply (sub_builder_run used name VObject); [done|apply sub_object|exact Hroom|]).
    by erewrite jp_bind_run by reflexivity.
  - erewrite jp_bind_run by (by apply Hrun'). by erewrite jp_bind_run by reflexivity.
Qed.
End Elements.

Section Items.
Context (format : JsonStringFormat) (pretty : Z).
Abbreviation gap := (if pretty =? 0 then [] else newline_indent pretty).
Lemma gap_spaces : spaces gap.
Proof. destruct (pretty =? 0); [apply Forall_nil_2|apply newline_indent_spaces]. Qed.
Lemma strtol_name i : 0 <= i < int_max int32 -> strtol (c_str (print_int i)) = (i, [], false).
Proof.
  intros Hi. rewrite c_str_plain by (apply plain_no_nul, print_int_plain).
  apply strto_print; [unfold in_range; cbn in *; lia|by left].
Qed.

(** [array_loop] from an index, read back by [items]. *)
Lemma items_text o i : 0 <= i -> i + zlen o < int_max int32 ->
  o.*1 = (fun k => print_int (i + Z.of_nat k)) <$> seq 0 (length o) ->
  Forall (fun e => reads format (indent_next pretty) e.2) o ->
  exists b, array_loop localtime strftime_z format pretty i o = Ret b /\
  (length o <= length b)%nat /\ no_nul b = true /\
  (o <> [] -> exists l t, b = l ++ t /\ spaces l /\ head_ok t) /\
  (o <> [] -> forall fuel used mf acc l r, (length b < fuel)%nat -> (length o < mf)%nat -> spaces l ->
     room used (acc ++ json_norm_obj format o) ->
     items (value fuel) mf used i acc (l ++ b ++ B " ]" ++ r)
     = Ret (Ret (acc ++ json_norm_obj format o), B " ]" ++ r)).
Proof.
  intros Hi Hb Hnames Ho. revert i Hi Hb Hnames.
  induction Ho as [|[n w] o (t & Ht & Hhead & H0 & Hread) Ho IH]; intros i Hi Hb Hnames.
  { by exists []. }
  cbn [fst snd] in *. rewrite zlen_cons in Hb. pose proof (zlen_nonneg o).
  cbn [fmap list_fmap length seq] in Hnames. rewrite Z.add_0_r in Hnames.
  injection Hnames as -> Hnames.
  destruct (IH (i + 1) ltac:(lia) ltac:(lia)) as (b & Eb & Hlen & Hb0 & Hfirst & Hrun).
  { rewrite Hnames, <-fmap_S_seq, <-list_fmap_compose. apply list_fmap_ext.
    intros ? x _. unfold compose. f_equal. lia. }
  set (rest := (if no_more o then [] else B ", ") ++ b).
  exists (gap ++ t ++ rest).
  assert (array_loop localtime strftime_z format pretty i ((print_int i, w) :: o) = Ret (gap ++ t ++ rest)) as E.
  { cbn [array_loop]. rewrite strtol_name by lia. cbn [fst].
    replace (i <? int_max int32) with true by lia. cbn [mbind result_bind].
    rewrite jsonString_name, Ht. cbn [mbind result_bind json_name app].
    replace (Z.max 0 (i - i)) with 0 by lia. rewrite Z.add_0_r, Eb. cbn [mbind result_bind].
    cbn [Z.to_nat seq flat_map app]. done. }
  destruct Hhead as (x & t' & -> & Hx1 & Hx2).
  split; [exact E|]. split_and!.
  - unfold rest. rewrite !length_app. cbn [length]. destruct o; cbn [no_more] in *; cbn in *; lia.
  - unfold rest. rewrite !no_nul_app, (no_nul_spaces gap gap_spaces), H0, Hb0. by destruct (no_more o).
  - intros _. exists gap, ((x :: t') ++ rest). split_and!; [done|apply gap_spaces|].
    by exists x, (t' ++ rest).
  - intros _ fuel used mf acc l r Hf Hmf Hl Hroom.
    destruct (room_cons _ _ _ (room_right _ _ _ Hroom)) as [Hr1 _]. destruct mf as [|mf]; [cbn in Hmf; lia|]. cbn [items].
    assert (exists c r', rest ++ B " ]" ++ r = c :: r' /\ delim c) as (c & r' & Ec & Hc).
    { unfold rest. destruct o as [|e o]; cbn [no_more]; [|by exists ","%char; eexists; split; [reflexivity|right]].
      cbn [array_loop] in Eb. injection Eb as <-. exists " "%char, (B "]" ++ r). split; [done|by left]. }
    erewrite jp_bind_run.
    2: { rewrite <-!app_assoc. apply spaceless_spaces; [apply spaceless_value|done|].
         apply spaceless_spaces; [apply spaceless_value|apply gap_spaces|].
         rewrite Ec. apply Hread; [|apply plain_no_nul, print_int_plain|done|done].
         rewrite !length_app in Hf. lia. }
    rewrite <-Ec. unfold rest. destruct o as [|e o]; cbn [no_more] in *.
    + cbn [array_loop] in Eb. injection Eb as <-. by no_token.
    + rewrite <-!app_assoc. first_token.
      assert (wrap uint32 (i + 1) = i + 1) as -> by (apply wrap_id; [done|unfold in_range; cbn in *; lia]).
      pose proof (Hrun ltac:(done) fuel used mf (acc ++ [(print_int i, json_norm format w)]) (B " ") r) as H1.
      unfold rest in Hf. rewrite !length_app in Hf. cbn [no_more length] in *.
      rewrite <-app_assoc in H1. apply H1; [lia|lia|done|done].
Qed.
Lemma no_bracket l x t s : spaces l -> x <> "]"%char -> isspace x = false ->
  peekToken (B "]") ((l ++ x :: t) ++ s) = Ret (Ret false, (l ++ x :: t) ++ s).
Proof.
  intros Hl Hx1 Hx2. unfold peekToken, readTokenImpl.
  assert (skip_space ((l ++ x :: t) ++ s) = x :: t ++ s) as ->.
  { induction Hl as [|y l Hy Hl IH]; cbn [app skip_space]; [by rewrite Hx2|by rewrite Hy]. }
  change (B "]") with ["]"%char]. cbn [strip_prefix].
  by rewrite (proj2 (ceq_false "]"%char x)) by congruence.
Qed.
Lemma array_reads o : o.*1 = (fun i => print_int (Z.of_nat i)) <$> seq 0 (length o) ->
  zlen o < int_max int32 -> Forall (fun e => reads format (indent_next pretty) e.2) o ->
  reads format pretty (VArray o).
Proof.
  intros Hn Hl Ho. unfold reads. rewrite jsonString_array. cbn [json_norm]. rewrite norm_elements_unfold.
  destruct o as [|e o].
  { eexists. split; [reflexivity|]. apply reads_text_any; [by apply head_ok_app|done|].
    intros f used name c r Hname Hroom _. unfold value_body. no_token. first_token. unfold array.
    erewrite jp_bind_run by reflexivity. cbv zeta.
    erewrite jp_bind_run.
    2: { apply (sub_builder_run used name VArray); [done|apply sub_array|exact Hroom|]. intros u Hu.
         erewrite jp_bind_run by (by first_token). by erewrite jp_bind_run by (by apply (done_run u)). }
    done. }
  cbn [no_more].
  destruct (items_text (e :: o) 0 ltac:(lia) ltac:(lia)) as (b & -> & Hlen & Hb0 & Hfirst & Hrun); [done|done|].
  eexists. split; [reflexivity|]. split; [by apply head_ok_app|].
  split; [by rewrite no_nul_app, (no_nul_app b), Hb0|].
  intros fuel used name c r Hf Hname Hroom _. destruct fuel as [|fuel]; [lia|]. cbn [value].
  unfold value_body. rewrite <-!app_assoc. no_token. first_token. unfold array.
  erewrite jp_bind_run by reflexivity. cbv zeta.
  destruct (Hfirst ltac:(done)) as (l & t & -> & Hsp & x & t' & -> & Hx1 & Hx2).
  erewrite jp_bind_run.
  2: { apply (sub_builder_run used name VArray); [done|apply sub_array|exact Hroom|]. intros u Hu.
       erewrite jp_bind_run; [by erewrite jp_bind_run by (by apply (done_run u))|].
       erewrite jp_if_run by (apply (no_bracket (B " " ++ l)); [by constructor|done|done]).
       cbv iota. unfold mbind, JP_bind, jp_input.
       apply (Hrun ltac:(done) fuel u _ [] (B " ") (c :: r)); [|rewrite !length_app in *; cbn in *; lia|done|done].
       rewrite !length_app in *. cbn in *. lia. }
  done.
Qed.
End Items.

(** ** Every value *)

Lemma object_reads format pretty o : Forall (element_reads format pretty) o -> first_ok o ->
  exists t, BSONObj_jsonString localtime strftime_z format pretty false o = Ret t /\
    reads_text t (VObject (json_norm_obj format o)).
Proof.
  intros Ho Hfirst. destruct (object_run format pretty o Ho Hfirst) as (t & Ht & (t' & -> & _) & H0 & Hrun).
  eexists. split; [exact Ht|]. split; [by apply head_ok_app|]. split; [done|].
  intros fuel used name c r Hf Hn Hroom Hc. destruct fuel as [|fuel]; [lia|]. cbn [value]. unfold value_body.
  first_token. specialize (Hrun fuel used name true (c :: r)). cbv iota in Hrun. apply Hrun; [lia|done|done].
Qed.
(** Code with its scope, read back as an object. *)
Lemma scope_reads format pretty code scope : scope <> [] ->
  Forall (element_reads Strict 0) scope -> first_ok scope ->
  reads format pretty (VCodeWScope code scope).
Proof.
  intros Hs Ho Hfirst. unfold reads. rewrite jsonString_scope by done.
  destruct (object_reads Strict 0 scope Ho Hfirst) as (t & -> & Hhead & H0 & Hread).
  eexists. split; [reflexivity|].
  assert (json_norm format (VCodeWScope code scope)
    = VObject [(B "$code", VString code); (B "$scope", VObject (json_norm_obj Strict scope))]) as ->.
  { cbn [json_norm]. rewrite norm_elements_unfold. by destruct scope. }
  split; [by apply head_ok_app|]. split; [by rewrite !no_nul_app, no_nul_quoted, H0|].
  intros fuel used name c r Hf Hn Hroom Hc. rewrite !length_app in Hf.
  destruct fuel as [|[|fuel]]; [lia|cbn in Hf; lia|].
  rewrite <-!app_assoc. set (n1 := S fuel) in *. cbn [value]. unfold value_body. first_token.
  unfold object. erewrite jp_bind_run by reflexivity. no_token.
  erewrite jp_bind_run.
  2: { apply (spaceless_spaces field (B " ")); [apply spaceless_field|by repeat constructor|].
       unfold q. rewrite quoted_plain by (by repeat constructor). apply field_run. }
  rewrite special_object_None by (apply (bool_decide_eq_false_1 (_ ∈ reserved)); by vm_compute).
  assert (forall (body : Z -> JP BSONObj) t o, room used [(name, VObject o)] ->
    (forall u, room u o -> body u t = Ret (Ret o, B " }" ++ c :: r)) ->
    (o1 ← sub_builder used name VObject body; expect (B "}") (B "Expecting '}' or ','");; mret o1) t
    = Ret (Ret [(name, VObject o)], c :: r)) as Hsub.
  { intros body t0 o Hr Hb. erewrite jp_bind_run by (by apply sub_builder_run; [|apply sub_object| |]).
    by erewrite jp_bind_run by reflexivity. }
  apply Hsub; [exact Hroom|]. clear Hsub. intros u Hu. destruct (room_cons _ _ _ Hu) as [Hu1 Hu2].
  erewrite jp_bind_run by reflexivity.
  erewrite jp_bind_run.
  2: { apply (spaceless_spaces (value n1 u (B "$code")) (B " ")); [apply spaceless_value|done|].
       apply string_run; [not_in|exact Hu1]. }
  unfold mbind at 1, JP_bind at 1, jp_input. cbn [app length members].
  first_token. erewrite jp_bind_run.
  2: { apply (spaceless_spaces field (B " ")); [apply spaceless_field|by repeat constructor|].
       unfold q. rewrite quoted_plain by (by repeat constructor). apply field_run. }
  erewrite jp_bind_run by reflexivity.
  erewrite jp_bind_run.
  2: { apply (spaceless_spaces (value n1 _ (B "$scope")) (B " ")); [apply spaceless_value|done|].
       apply (Hread n1 _ (B "$scope") " "%char (B "}" ++ c :: r));
         [change (length (B "{ ")) with 2%nat in Hf; lia|not_in|exact Hu2|by left]. }
  rewrite length_app. change (length (B " , ")) with 3%nat. cbn [Nat.add members]. by no_token.
Qed.

Lemma elements_ok_reads format pretty o :
  Forall (fun e => forall format pretty, json_ok format pretty e.2 -> reads format pretty e.2) o ->
  json_ok_obj format pretty o -> Forall (fun e => nul ∉ e.1 /\ reads format pretty e.2) o.
Proof.
  intros H Hok. unfold json_ok_obj in Hok. rewrite Forall_forall in *.
  intros e He. destruct (Hok e He). split; [done|]. by apply H.
Qed.
Lemma reads_all v format pretty : json_ok format pretty v -> reads format pretty v.
Proof.
  revert format pretty.
  induction v as [v Hv|o IH|o IH|code o IH] using bson_value_ind'; intros format pretty Hok.
  - apply scalar_reads; [by destruct v|done].
  - cbn [json_ok] in Hok. rewrite elements_ok_unfold in Hok. destruct Hok as [Hf Ho].
    unfold reads. rewrite jsonString_object. cbn [json_norm]. rewrite norm_elements_unfold.
    apply object_reads; [|done]. by apply elements_ok_reads.
  - cbn [json_ok] in Hok. rewrite elements_ok_unfold in Hok. destruct Hok as (Hn & Hl & Ho).
    apply array_reads; [done|done|].
    eapply Forall_impl; [by apply elements_ok_reads|]. by intros e [_ He].
  - cbn [json_ok] in Hok. rewrite elements_ok_unfold in Hok. destruct Hok as [Hf Ho].
    destruct o as [|e o].
    + unfold reads. cbn [json_norm BSONElement_jsonString no_more mbind result_bind].
      eexists. split; [reflexivity|]. cbn [json_name app]. known_text. by apply string_run.
    + apply scope_reads; [done| |done]. by apply elements_ok_reads.
Qed.
Lemma obj_reads format pretty o : json_ok_obj format (indent_next pretty) o ->
  Forall (element_reads format pretty) o.
Proof.
  intros H. apply elements_ok_reads; [|done]. apply Forall_forall. intros e _. apply reads_all.
Qed.
Lemma fromjson_of_object t o : (exists t', t = "{"%char :: t' /\ (0 < length t')%nat) -> no_nul t = true ->
  (forall fuel name r, (length t <= fuel)%nat -> nul ∉ name ->
     object (value fuel) builder_used name false (t ++ r) = Ret (Ret o, r)) ->
  fromjson_len t = Ret (o, zlen t) /\ fromjson t = Ret o.
Proof.
  intros (t' & -> & _) H0 Hrun.
  assert (fromjson_len ("{"%char :: t') = Ret (o, zlen ("{"%char :: t'))) as H.
  { unfold fromjson_len, parse. no_token.
    specialize (Hrun (S (length ("{"%char :: t'))) (B "UNUSED") [] ltac:(lia) ltac:(not_in)).
    rewrite app_nil_r in Hrun. rewrite Hrun. change (zlen []) with 0. by rewrite Z.sub_0_r. }
  split; [exact H|]. unfold fromjson. change ((span _ _).1) with (c_str ("{"%char :: t')).
  rewrite c_str_plain by (by apply no_nul_spec). by rewrite H.
Qed.
End Reads.
End LocalDate.

(** ** Properties *)

(** C5: the text [tojson] prints for a document, in each of the three formats
    and pretty or not, is read back by [fromjson] to its last byte, as the
    document with the changes of [json_norm_obj] -- under the conditions of
    [json_ok_obj] and [first_ok], outside which one of the two functions does
    something else.  The conditions: no name has a zero byte, and neither the
    document nor one inside it, nor a scope, starts with a name that the parser
    reserves; the names of an array are 0, 1, 2, ...; integers, times and OIDs are in the
    range of their types and the digits of a double are read without a range
    error; binary data has at most 2^29 bytes; the namespace of a DBRef has
    nothing to escape; a pattern has no zero byte, and in the strict format an option is
    one the parser knows; a date in the strict format, in which scopes are always
    printed, is at least a day after the start of 1970 and a day before the last date
    the printer formats, and in the other formats a document with dates is not printed
    pretty.  The zones of the local time are whole minutes, less than a day, and
    not west of Greenwich by less than an hour.  The document that is read is not
    larger than a [BSONObj] may be. *)
Theorem json_roundtrip localtime strftime_z (o : BSONObj) format (pretty : bool) :
  zones localtime strftime_z ->
  json_ok_obj format (indent_next (if pretty then 1 else 0)) o -> first_ok o ->
  zlen (encode_obj (json_norm_obj format o)) <= BSONObjMaxInternalSize ->
  exists t, tojson localtime strftime_z o format pretty = Ret t /\
    fromjson_len t = Ret (json_norm_obj format o, zlen t) /\
    fromjson t = Ret (json_norm_obj format o).
Proof.
  intros Hz Ho Hf Hsize. rewrite zlen_encode_obj in Hsize.
  pose proof (obj_reads localtime strftime_z Hz format _ o Ho) as Hr.
  destruct (object_run localtime strftime_z format _ o Hr Hf) as (t & Ht & Hhead & H0 & Hrun).
  exists t. split; [exact Ht|].
  apply fromjson_of_object; [done..|]. intros fuel name r Hl Hn. apply (Hrun fuel builder_used name false r); [done|done|].
  unfold room, builder_used, holder_size. lia.
Qed.
Lemma json_roundtrip_witness :
  let o := [(B "s", VString (B "a b")); (B "x", VNumberDouble (0x400921FB * 2 ^ 32 + 0x54442D18));
    (B "d", VArray [(B "0", VDate 1262304000000); (B "1", VNumberLong 5)]);
    (B "r", VObject [(B "re", VRegEx (B "/") (B "gi")); (B "t", VTimestamp 2 7)]);
    (B "c", VCodeWScope (B "f()") [(B "y", VNumberInt 1)])] in
  zones gmtime (fun _ => B "+0000") /\ exists t, tojson gmtime (fun _ => B "+0000") o Strict true = Ret t /\
    fromjson_len t = Ret (json_norm_obj Strict o, zlen t) /\ fromjson t = Ret (json_norm_obj Strict o).
Proof.
  intros o. assert (zones gmtime (fun _ => B "+0000")) as Hz.
  { intros t Ht. exists false, 0, 0. rewrite Z.add_0_r. split_and!; first [lia|done|reflexivity]. }
  split; [exact Hz|]. apply (json_roundtrip gmtime _ o Strict true Hz).
  - repeat constructor; cbn [fst snd]; try not_in; try (by vm_compute).
    eexists. vm_compute. reflexivity.
  - not_in.
  - by vm_compute.
Defined.

(** ** Where the two differ from what they mean to do *)

(** [dateObject] reads the opening brace of a date that is printed as an object,
    not its closing one: what follows the date is lost, without an error. *)
Lemma date_object_unclosed :
  fromjson (B "{ " ++ q "a" ++ B " : { " ++ q "$date" ++ B " : { " ++ q "$numberLong" ++ B " : "
    ++ quote ++ B "9223372036854775807" ++ quote ++ B " } }, " ++ q "b" ++ B " : 1 }")
  = Ret [(B "a", VDate 9223372036854775807)].
Proof. by vm_compute. Qed.
Lemma date_object_printed localtime strftime_z :
  BSONObj_jsonString localtime strftime_z Strict 0 false [(B "a", VDate 9223372036854775807); (B "b", VNumberInt 1)]
  = Ret (B "{ " ++ q "a" ++ B " : { " ++ q "$date" ++ B " : { " ++ q "$numberLong" ++ B " : "
    ++ quote ++ B "9223372036854775807" ++ quote ++ B " } }, " ++ q "b" ++ B " : 1 }").
Proof. by vm_compute. Qed.
(** [constructor] drops the error of the date it tries to read. *)
Lemma new_date_dropped : fromjson (B "{ a : new Date }") = Ret [].
Proof. by vm_compute. Qed.
(** An option check that uses [strchr] lets a NUL byte pass. *)
Lemma nul_option_accepted :
  fromjson (B "{ a : { $regex : 'x', $options : 'i\u0000g' } }")
  = Ret [(B "a", VRegEx (B "x") ("i"%char :: nul :: B "g"))].
Proof. by vm_compute. Qed.
(** A 32-bit number takes the low bits of what [strtol] and [strtoul] read. *)
Lemma NumberInt_truncates : fromjson (B "{ a : NumberInt(4294967297) }") = Ret [(B "a", VNumberInt 1)].
Proof. by vm_compute. Qed.
Lemma timestamp_truncates :
  fromjson (B "{ a : Timestamp(4294967296, 1) }") = Ret [(B "a", VTimestamp 1 0)].
Proof. by vm_compute. Qed.
(** A text of more than a gigabyte: the buffer doubles its size past the range of
    [int] before it could refuse it. *)
Lemma fromjson_overflow k : 2 ^ 30 <= Z.of_nat k ->
  fromjson_len (B "{ " ++ quoted (B "a") ++ B " :" ++ quoted (replicate k "x"%char) ++ B " }") = Throw EUndefined.
Proof.
  intros Hk. set (big := replicate k "x"%char). assert (zlen big = Z.of_nat k) as Hbig
    by (unfold big, zlen; by rewrite length_replicate).
  assert (append builder_used (B "a") (VString big) (B " }") = Throw EUndefined) as Ha.
  { unfold append, checkFieldName, mbind, JP_bind, jp_throws.
    cbn [B String.list_ascii_of_string]. change (uassert 0 _) with (Ret tt : M unit). cbn [result_bind].
    unfold write_element. cbn [value_sizes write]. change (grow builder_used 1) with (Ret 10 : M Z). cbn [mbind result_bind].
    change (grow 10 (zlen ["a"%char] + 1)) with (Ret 12 : M Z). cbn [mbind result_bind].
    change (grow 12 4) with (Ret 16 : M Z). cbn [mbind result_bind]. rewrite Hbig. unfold grow.
    destruct (int_result (Z.of_nat k + 1)) as [n|e] eqn:E1.
    2: { unfold int_result in E1. case_bool_decide; [done|]. by injection E1 as <-. }
    apply int_result_Ret in E1 as [-> _]. cbn [mbind result_bind].
    destruct (int_result (16 + (Z.of_nat k + 1))) as [n|e] eqn:E2.
    2: { unfold int_result in E2. case_bool_decide; [done|]. by injection E2 as <-. }
    apply int_result_Ret in E2 as [-> _]. cbn [mbind result_bind]. unfold BufferMaxSize.
    replace (16 + (Z.of_nat k + 1) <=? 64 * 1024 * 1024) with false by lia.
    by replace (16 + (Z.of_nat k + 1) <=? 2 ^ 30) with false by lia. }
  unfold fromjson_len. change (B "{ ") with ["{"%char; " "%char]. cbn [app].
  set (text := quoted (B "a") ++ _). unfold parse. no_token. unfold object.
  change ("{"%char :: " "%char :: text) with (B "{ " ++ text).
  erewrite jp_bind_run by reflexivity. unfold text. no_token.
  erewrite jp_bind_run.
  2: { apply (spaceless_spaces field (B " ")); [apply spaceless_field|by repeat constructor|apply field_run]. }
  rewrite special_object_None by (apply (bool_decide_eq_false_1 (_ ∈ reserved)); by vm_compute).
  assert (forall f, value (S f) builder_used (B "a") (quoted big ++ B " }") = Throw EUndefined) as Hv.
  { intros f. cbn [value]. unfold value_body. do 10 no_token. first_token.
    erewrite jp_bind_run by apply quotedString_run. exact Ha. }
  unfold mbind, JP_bind. cbn [app]. change (expect (B ":") _ _) with (Ret (Ret tt, quoted big ++ B " }") : M (StatusWith unit * bytes)).
  cbv beta iota. by rewrite Hv.
Qed.
