(* ===== verification/Message.v ===== *)
(** * Wire messages: util/net/message.h, util/net/message.cpp, db/dbmessage.h,
    db/dbmessage.cpp, and the requests built in client/dbclient.cpp and
    client/dbclientcursor.cpp

    A buffer is the list of its bytes, a pointer into it an offset from the start
    of the message.  A buffer may be longer than the message in it. *)
From S2P Require Import Prelude StringData ParseNumber BsonTypes BufBuilder Bson BsonValidate.
Local Open Scope Z_scope.

(** ** Operations *)

Definition opReply : Z := 1.
Definition dbMsg : Z := 1000.
Definition dbUpdate : Z := 2001.
Definition dbInsert : Z := 2002.
Definition dbQuery : Z := 2004.
Definition dbGetMore : Z := 2005.
Definition dbDelete : Z := 2006.
Definition dbKillCursors : Z := 2007.

Definition opToString (op : Z) : M bytes :=
  if op =? 0 then Ret (B "none")
  else if op =? opReply then Ret (B "reply")
  else if op =? dbMsg then Ret (B "msg")
  else if op =? dbUpdate then Ret (B "update")
  else if op =? dbInsert then Ret (B "insert")
  else if op =? dbQuery then Ret (B "query")
  else if op =? dbGetMore then Ret (B "getmore")
  else if op =? dbDelete then Ret (B "remove")
  else if op =? dbKillCursors then Ret (B "killcursors")
  else Throw (EMassert 16141).
Definition opIsWrite (op : Z) : M bool :=
  if bool_decide (op ∈ [0; opReply; dbMsg; dbQuery; dbGetMore; dbKillCursors]) then Ret false
  else if bool_decide (op ∈ [dbUpdate; dbInsert; dbDelete]) then Ret true
  else Throw EVerify.
Definition doesOpGetAResponse (op : Z) : bool := (op =? dbQuery) || (op =? dbGetMore).

(** ** The views of a message's bytes *)

(** [DataView(p + off).writeLE], and [memcpy] into a buffer. *)
Definition write_at (d : bytes) (off : Z) (src : bytes) : M bytes :=
  if (0 <=? off) && (off + zlen src <=? zlen d) then
    Ret (take (Z.to_nat off) d ++ src ++ drop (Z.to_nat (off + zlen src)) d)
  else Throw EUndefined.

(** [MSGHEADER::Layout] and the data behind it. *)
Definition MsgDataHeaderSize : Z := 16.
Definition getLen (d : bytes) : M Z := readLE int32 d 0.
Definition getId (d : bytes) : M Z := readLE uint32 d 4.
Definition getResponseTo (d : bytes) : M Z := readLE uint32 d 8.
Definition getOperation (d : bytes) : M Z := readLE int32 d 12.
Definition setLen (value : Z) (d : bytes) : M bytes := write_at d 0 (le4 value).
Definition setId (value : Z) (d : bytes) : M bytes := write_at d 4 (le4 value).
Definition setResponseTo (value : Z) (d : bytes) : M bytes := write_at d 8 (le4 value).
Definition setOperation (value : Z) (d : bytes) : M bytes := write_at d 12 (le4 value).
Definition dataLen (d : bytes) : M Z := n ← getLen d; int_result (n - MsgDataHeaderSize).

Definition MsgData_valid (d : bytes) : M bool :=
  len ← getLen d;
  if (len <=? 0) || (4 * BSONObjMaxInternalSize <? len) then Ret false
  else op ← getOperation d; Ret (negb ((op <? 0) || (30000 <? op))).
Definition getCursor (d : bytes) : M Z :=
  r ← getResponseTo d; verify (0 <? r);;
  op ← getOperation d; verify (op =? opReply);;
  readLE int64 d (16 + 4).

(** [QueryResult::Layout]. *)
Definition QueryResult_size : Z := 36.
Definition getResultFlags (d : bytes) : M Z := readLE int32 d 16.
Definition getCursorId (d : bytes) : M Z := readLE int64 d 20.
Definition getStartingFrom (d : bytes) : M Z := readLE int32 d 28.
Definition getNReturned (d : bytes) : M Z := readLE int32 d 32.
Definition setResultFlags (value : Z) (d : bytes) : M bytes := write_at d 16 (le4 value).
Definition setCursorId (value : Z) (d : bytes) : M bytes := write_at d 20 (le8 value).
Definition setStartingFrom (value : Z) (d : bytes) : M bytes := write_at d 28 (le4 value).
Definition setNReturned (value : Z) (d : bytes) : M bytes := write_at d 32 (le4 value).
Definition ResultFlag_CursorNotFound : Z := 1.
Definition ResultFlag_ErrSet : Z := 2.

(** ** Message

    One buffer, or a sequence of buffers with the number of bytes of each that
    belong to the message. *)

Record Message := mkMessage {
  msg_buf : option bytes; msg_data : list (bytes * Z); msg_freeIt : bool }.

Definition Message_ctor : Message := mkMessage None [] false.
Definition Message_setData_ (d : bytes) (freeIt : bool) (m : Message) : Message :=
  mkMessage (Some d) (msg_data m) freeIt.
Definition Message_of (d : bytes) (freeIt : bool) : Message := Message_setData_ d freeIt Message_ctor.
Definition Message_empty (m : Message) : bool :=
  match msg_buf m, msg_data m with None, [] => true | _, _ => false end.
Definition Message_header (m : Message) : M bytes :=
  match msg_buf m, msg_data m with
  | Some d, _ => Ret d
  | None, (d, _) :: _ => Ret d
  | None, [] => Throw EVerify
  end.
(** A change through the view [header()] returns. *)
Definition set_header (f : bytes -> M bytes) (m : Message) : M Message :=
  match msg_buf m, msg_data m with
  | Some d, l => d ← f d; Ret (mkMessage (Some d) l (msg_freeIt m))
  | None, (d, n) :: l => d ← f d; Ret (mkMessage None ((d, n) :: l) (msg_freeIt m))
  | None, [] => Throw EVerify
  end.
Definition Message_operation (m : Message) : M Z := d ← Message_header m; getOperation d.
Definition singleData (m : Message) : M bytes :=
  match msg_buf m with Some d => Ret d | None => Throw (EMassert 13273) end.
Definition Message_size (m : Message) : M Z :=
  match msg_buf m with
  | Some d => getLen d
  | None => foldl (fun res e => n ← res; int_result (n + e.2)) (Ret 0) (msg_data m)
  end.
Definition dataSize (m : Message) : M Z := n ← Message_size m; Ret (wrap int32 (size_wrap (n - 16))).
Definition Message_reset (m : Message) : Message := Message_ctor.
Definition Message_concat (m : Message) : M Message :=
  match msg_buf m, msg_data m with
  | Some _, _ | None, [] => Ret m
  | None, l =>
      verify (msg_freeIt m);;
      total ← foldl (fun res e => n ← res; int_result (n + e.2)) (Ret 0) l;
      parts ← mapM (fun e => read_bytes e.1 0 e.2) l;
      Ret (Message_of (concat parts) true)
  end.
(** [m = r]: both messages afterwards. *)
Definition Message_assign (m r : Message) : M (Message * Message) :=
  verify (Message_empty m);;
  verify (msg_freeIt r);;
  Ret (mkMessage (msg_buf r) (msg_data r) true,
       mkMessage None [] false).
Definition appendData (d : bytes) (size : Z) (m : Message) : M Message :=
  if size <=? 0 then Ret m
  else if Message_empty m then d ← setLen size d; Ret (Message_setData_ d true m)
  else
    verify (msg_freeIt m);;
    l ← match msg_buf m with
        | Some b => n ← getLen b; Ret (msg_data m ++ [(b, n)])
        | None => Ret (msg_data m)
        end;
    set_header (fun h => n ← getLen h; n ← int_result (n + size); setLen n h)
      (mkMessage None (l ++ [(d, size)]) (msg_freeIt m)).
Definition Message_setData (d : bytes) (freeIt : bool) (m : Message) : M Message :=
  verify (Message_empty m);; Ret (Message_setData_ d freeIt m).

(** What [send] hands to the socket: nothing, or bytes. *)
Definition Message_sent (m : Message) : M (option bytes) :=
  match msg_buf m, msg_data m with
  | None, [] => Ret None
  | Some d, _ => n ← getLen d; d ← read_bytes d 0 n; Ret (Some d)
  | None, l => parts ← mapM (fun e => read_bytes e.1 0 e.2) l; Ret (Some (concat parts))
  end.

(** ** Building messages *)

Section Malloc.
(** [malloc n]: the bytes found in fresh memory. *)
Context (malloc : Z -> bytes).

Definition Message_setData_op (operation : Z) (msgdata : bytes) (m : Message) : M Message :=
  verify (Message_empty m);;
  let n := size_wrap (zlen msgdata + MsgDataHeaderSize) in
  d ← write_at (malloc n) MsgDataHeaderSize msgdata;
  d ← setLen n d;
  d ← setOperation operation d;
  Ret (Message_setData_ d true m).

(** [assembleRequest] of client/dbclient.cpp, and the requests of a cursor. *)
Definition assembleRequest (ns query : bytes) (nToReturn nToSkip : Z) (fieldsToReturn : option bytes)
    (queryOptions : Z) (toSend : Message) : M Message :=
  let b := BufBuilder_ctor 512 in
  b ← BufBuilder_appendNum b int32 queryOptions;
  b ← BufBuilder_appendStr b ns true;
  b ← BufBuilder_appendNum b int32 nToSkip;
  b ← BufBuilder_appendNum b int32 nToReturn;
  b ← BufBuilder_appendBuf b query;
  b ← match fieldsToReturn with Some f => BufBuilder_appendBuf b f | None => Ret b end;
  Message_setData_op dbQuery (bb_data b) toSend.
Definition assembleGetMore (opts : Z) (ns : bytes) (nToReturn cursorId : Z) (toSend : Message)
    : M Message :=
  let b := BufBuilder_ctor 512 in
  b ← BufBuilder_appendNum b int32 opts;
  b ← BufBuilder_appendStr b ns true;
  b ← BufBuilder_appendNum b int32 nToReturn;
  b ← BufBuilder_appendNum b int64 cursorId;
  Message_setData_op dbGetMore (bb_data b) toSend.
Definition assembleKillCursors (cursorId : Z) (toSend : Message) : M Message :=
  let b := BufBuilder_ctor 512 in
  b ← BufBuilder_appendNum b int32 0;
  b ← BufBuilder_appendNum b int32 1;
  b ← BufBuilder_appendNum b int64 cursorId;
  Message_setData_op dbKillCursors (bb_data b) toSend.

(** The two builders of a reply; the caller of the first sends what it makes. *)
Definition replyToQuery_data (queryResultFlags : Z) (data : bytes)
    (nReturned startingFrom cursorId : Z) : M Message :=
  let b := BufBuilder_ctor 32768 in
  b ← BufBuilder_skip b QueryResult_size;
  b ← BufBuilder_appendBuf b data;
  qr ← setResultFlags queryResultFlags (bb_data b);
  qr ← setLen (BufBuilder_len b) qr;
  qr ← setOperation opReply qr;
  qr ← setCursorId cursorId qr;
  qr ← setStartingFrom startingFrom qr;
  qr ← setNReturned nReturned qr;
  Ret (Message_of qr true).
Definition replyToQuery (queryResultFlags : Z) (response : Message) (resultObj : bytes) : M Message :=
  let b := BufBuilder_ctor 512 in
  b ← BufBuilder_skip b QueryResult_size;
  b ← BufBuilder_appendBuf b resultObj;
  qr ← setResultFlags queryResultFlags (bb_data b);
  qr ← setLen (BufBuilder_len b) qr;
  qr ← setOperation opReply qr;
  qr ← setCursorId 0 qr;
  qr ← setStartingFrom 0 qr;
  qr ← setNReturned 1 qr;
  Message_setData qr true response.
End Malloc.

(** ** DbMessage

    A pointer is an offset from the start of the buffer, or null. *)

Record DbMessage := mkDbMessage {
  dm_msg : bytes; dm_reserved : Z; dm_nsStart : option Z; dm_nextjsobj : option Z;
  dm_theEnd : Z; dm_mark : option Z; dm_nsLen : Z }.

Definition set_next (p : option Z) (m : DbMessage) : DbMessage :=
  mkDbMessage (dm_msg m) (dm_reserved m) (dm_nsStart m) p (dm_theEnd m) (dm_mark m) (dm_nsLen m).

(** [_theEnd - start < static_cast<int>(sizeof(T) * count)]; a difference with the
    null pointer is undefined. *)
Definition checkRead (m : DbMessage) (size : Z) (start : option Z) (count : Z) : M Z :=
  match start with
  | None => Throw EUndefined
  | Some p => uassert 18634 (wrap int32 (size_wrap (size * count)) <=? dm_theEnd m - p);; Ret p
  end.
Definition dm_read (t : int_type) (m : DbMessage) : M Z :=
  p ← checkRead m (width t / 8) (dm_nextjsobj m) 1; readLE t (dm_msg m) p.
Definition readAndAdvance (t : int_type) (m : DbMessage) : M (Z * DbMessage) :=
  x ← dm_read t m;
  Ret (x, set_next ((fun p => p + width t / 8) <$> dm_nextjsobj m) m).

Definition messageShouldHaveNs (d : bytes) : M bool :=
  op ← getOperation d; Ret ((dbMsg <=? op) && (op <=? dbDelete)).
Definition DbMessage_ctor (msg : Message) : M DbMessage :=
  d ← singleData msg;
  n ← dataLen d;
  '(reserved, m) ← readAndAdvance int32
     (mkDbMessage d 0 None (Some MsgDataHeaderSize) (MsgDataHeaderSize + n) None 0);
  let m := mkDbMessage d reserved None (dm_nextjsobj m) (dm_theEnd m) None 0 in
  has_ns ← messageShouldHaveNs d;
  if (has_ns : bool) then
    let limit := size_wrap (n - 4) in
    let start := MsgDataHeaderSize + 4 in
    k ← strnlen (drop (Z.to_nat start) d) limit;
    let nsLen := wrap uint32 k in
    uassert 18633 (nsLen <? limit);;
    Ret (mkDbMessage d reserved (Some start) (Some (start + nsLen + 1)) (dm_theEnd m) None nsLen)
  else Ret m.

Definition getns (m : DbMessage) : M bytes :=
  has_ns ← messageShouldHaveNs (dm_msg m);
  verify has_ns;;
  match dm_nsStart m with
  | Some p => let s := drop (Z.to_nat p) (dm_msg m) in n ← strlen s; read_bytes s 0 n
  | None => Throw EUndefined
  end.
Definition getQueryNToReturn (m : DbMessage) : M Z :=
  has_ns ← messageShouldHaveNs (dm_msg m);
  verify has_ns;;
  p ← checkRead m 4 ((fun p => p + dm_nsLen m + 1) <$> dm_nsStart m) 2;
  readLE int32 (dm_msg m) (p + 4).
Definition pullInt : DbMessage -> M (Z * DbMessage) := readAndAdvance int32.
Definition pullInt64 : DbMessage -> M (Z * DbMessage) := readAndAdvance int64.
Definition getArray (m : DbMessage) (count : Z) : M Z := checkRead m 8 (dm_nextjsobj m) count.

Definition moreJSObjs (m : DbMessage) : bool := bool_decide (dm_nextjsobj m <> None).
(** The bytes of the next object; [validate] is [validateObjects()] of the
    client's options. *)
Definition nextJsObj (validate : bool) (m : DbMessage) : M (bytes * DbMessage) :=
  match dm_nextjsobj m with
  | None => Throw (EMassert 10304)
  | Some p =>
      let remaining := dm_theEnd m - p in
      massert 10304 (5 <=? remaining);;
      let here := drop (Z.to_nat p) (dm_msg m) in
      (if validate then
         s ← validateBSON (take (Z.to_nat remaining) here);
         massert 10307 (match s with Ret _ => true | Throw _ => false end)
       else Ret tt);;
      sz ← objsize here;
      massert 10334 ((0 <? sz) && (sz <=? BSONObjMaxInternalSize));;
      verify (5 <=? sz);;
      verify (sz <=? remaining);;
      o ← read_bytes here 0 sz;
      Ret (o, set_next (if dm_theEnd m <=? p + sz then None else Some (p + sz)) m)
  end.
Definition markGet (m : DbMessage) : option Z := dm_nextjsobj m.
Definition markSet (m : DbMessage) : DbMessage :=
  mkDbMessage (dm_msg m) (dm_reserved m) (dm_nsStart m) (dm_nextjsobj m) (dm_theEnd m)
    (dm_nextjsobj m) (dm_nsLen m).
Definition markReset (toMark : option Z) (m : DbMessage) : M DbMessage :=
  let toMark := match toMark with Some p => Some p | None => dm_mark m end in
  verify (bool_decide (toMark <> None));;
  Ret (set_next toMark m).

Record QueryMessage := mkQueryMessage {
  qm_ns : bytes; qm_ntoskip : Z; qm_ntoreturn : Z; qm_queryOptions : Z;
  qm_query : bytes; qm_fields : option bytes }.
Definition QueryMessage_ctor (validate : bool) (d : DbMessage) : M (QueryMessage * DbMessage) :=
  ns ← getns d;
  '(ntoskip, d) ← pullInt d;
  '(ntoreturn, d) ← pullInt d;
  '(query, d) ← nextJsObj validate d;
  '(fields, d) ← (if moreJSObjs d then '(f, d) ← nextJsObj validate d; mret (Some f, d)
                  else mret (None, d));
  queryOptions ← readLE int32 (dm_msg d) MsgDataHeaderSize;
  Ret (mkQueryMessage ns ntoskip ntoreturn queryOptions query fields, d).

(** ** Bytes in place *)

Lemma write_at_spec a x b src : zlen src = zlen x ->
  write_at (a ++ x ++ b) (zlen a) src = Ret (a ++ src ++ b).
Proof.
  intros Hs. unfold write_at. rewrite !zlen_app.
  pose proof (zlen_nonneg a). pose proof (zlen_nonneg b).
  destruct (_ && _) eqn:E; [|lia]. rewrite take_zlen. do 3 f_equal.
  rewrite Hs, <-zlen_app, app_assoc. apply drop_zlen.
Qed.
Lemma write_at_0 x b src : zlen src = zlen x -> write_at (x ++ b) 0 src = Ret (src ++ b).
Proof. apply (write_at_spec []). Qed.
(** A buffer of a known length, in parts. *)
Lemma split_buffer (g : bytes) n m : 0 <= n -> 0 <= m -> zlen g = n + m ->
  exists a b, g = a ++ b /\ zlen a = n /\ zlen b = m.
Proof.
  intros Hn Hm Hg. exists (take (Z.to_nat n) g), (drop (Z.to_nat n) g).
  unfold zlen in *. rewrite take_drop, length_take, length_drop. split_and!; [done|lia|lia].
Qed.

(** The message of these fields, with [mid] in the place of its two ids. *)
Definition message_bytes (mid : bytes) (op : Z) (body : bytes) : bytes :=
  le4 (zlen body + 16) ++ mid ++ le4 op ++ body.
Lemma zlen_message_bytes mid op body : zlen mid = 8 -> zlen (message_bytes mid op body) = zlen body + 16.
Proof. intros. unfold message_bytes. autorewrite with mongo. lia. Qed.

Lemma Message_setData_op_spec malloc op body :
  zlen (malloc (zlen body + 16)) = zlen body + 16 -> zlen body + 16 < 2 ^ 64 ->
  exists mid, zlen mid = 8 /\
    Message_setData_op malloc op body Message_ctor = Ret (Message_of (message_bytes mid op body) true).
Proof.
  intros Hm Hs. pose proof (zlen_nonneg body). unfold Message_setData_op, MsgDataHeaderSize.
  cbn [verify Message_empty Message_ctor msg_buf msg_data guard_throw mbind result_bind].
  assert (size_wrap (zlen body + 16) = zlen body + 16) as -> by (apply Z.mod_small; lia).
  destruct (split_buffer (malloc (zlen body + 16)) 16 (zlen body)) as (h & t & -> & Hh & Ht); [lia..|].
  destruct (split_buffer h 4 12) as (h1 & h' & -> & H1 & H'); [lia..|].
  destruct (split_buffer h' 8 4) as (mid & h3 & -> & H2 & H3); [lia..|].
  exists mid. split; [done|].
  pose proof (write_at_spec (h1 ++ mid ++ h3) t [] body (eq_sym Ht)) as E. rewrite !app_nil_r, Hh in E.
  rewrite E. clear E. cbn [mbind result_bind]. rewrite <-!app_assoc. unfold setLen.
  rewrite write_at_0 by (by autorewrite with mongo). cbn [mbind result_bind app].
  unfold setOperation.
  replace 12 with (zlen (le4 (zlen body + 16) ++ mid)) by (autorewrite with mongo; lia).
  rewrite (app_assoc (le4 _) mid).
  rewrite (write_at_spec (le4 (zlen body + 16) ++ mid) h3) by (by autorewrite with mongo).
  cbn [mbind result_bind]. unfold message_bytes. by rewrite <-!app_assoc.
Qed.

Lemma message_fields mid op body slack : zlen mid = 8 -> in_range int32 op ->
  zlen body + 16 <= int_max int32 ->
  getLen (message_bytes mid op body ++ slack) = Ret (zlen body + 16) /\
  dataLen (message_bytes mid op body ++ slack) = Ret (zlen body) /\
  getOperation (message_bytes mid op body ++ slack) = Ret op.
Proof.
  intros Hm Ho Hs. pose proof (zlen_nonneg body).
  assert (getLen (message_bytes mid op body ++ slack) = Ret (zlen body + 16)) as E.
  { unfold getLen, message_bytes. rewrite <-app_assoc. apply readLE_int32, uint_of_int. lia. }
  split_and!; [done| |].
  - unfold dataLen. rewrite E. cbn [mbind result_bind]. unfold MsgDataHeaderSize.
    rewrite int_result_ok; [f_equal; lia|]. apply uint_of_int. lia.
  - unfold getOperation, message_bytes. rewrite <-!app_assoc, (app_assoc (le4 _)).
    replace 12 with (zlen (le4 (zlen body + 16) ++ mid)) by (autorewrite with mongo; lia).
    apply (readLE_at int32 4); [done|lia|done].
Qed.

(** ** The pieces of a message, appended and read

    [parsing m pre post]: the message [m] is read up to the end of [pre]. *)

Record parsing (m : DbMessage) (pre post : bytes) : Prop := mkParsing {
  p_msg : exists slack, dm_msg m = pre ++ post ++ slack;
  p_next : dm_nextjsobj m = Some (zlen pre);
  p_end : dm_theEnd m = zlen pre + zlen post }.

Lemma zlen_le_bytes_width t k z : width t = 8 * Z.of_nat k -> zlen (le_bytes k z) = width t / 8.
Proof. intros ->. rewrite zlen_le_bytes, Z.mul_comm, Z.div_mul; lia. Qed.

Lemma readAndAdvance_spec t k z m pre post :
  width t = 8 * Z.of_nat k -> (0 < k < 16)%nat -> in_range t z -> parsing m pre (le_bytes k z ++ post) ->
  readAndAdvance t m = Ret (z, set_next (Some (zlen (pre ++ le_bytes k z))) m) /\
  parsing (set_next (Some (zlen (pre ++ le_bytes k z))) m) (pre ++ le_bytes k z) post.
Proof.
  intros Hw Hk Hz [[slack Hm] Hn He]. pose proof (zlen_le_bytes_width t k z Hw) as Hl.
  pose proof (zlen_nonneg post). rewrite zlen_le_bytes in Hl.
  assert (readAndAdvance t m = Ret (z, set_next (Some (zlen (pre ++ le_bytes k z))) m)) as E.
  { unfold readAndAdvance, dm_read, checkRead. rewrite Hn, He.
    rewrite Z.mul_1_r, <-Hl. autorewrite with mongo.
    assert (wrap int32 (size_wrap (Z.of_nat k)) = Z.of_nat k) as ->.
    { unfold size_wrap. rewrite Z.mod_small by lia. apply wrap_id; [done|]. unfold in_range. cbn. lia. }
    replace (Z.of_nat k <=? _) with true by lia. cbn [uassert guard_throw mbind result_bind].
    rewrite Hm, <-app_assoc, (readLE_at t k) by (done || lia). done. }
  split; [done|]. constructor; cbn [set_next dm_msg dm_nextjsobj dm_theEnd].
  - exists slack. by rewrite Hm, <-!app_assoc.
  - done.
  - rewrite He. autorewrite with mongo. lia.
Qed.
Lemma pullInt_spec z m pre post : in_range int32 z -> parsing m pre (le4 z ++ post) ->
  exists m', pullInt m = Ret (z, m') /\ parsing m' (pre ++ le4 z) post /\ dm_msg m' = dm_msg m.
Proof.
  intros Hz Hm. destruct (readAndAdvance_spec int32 4 z m pre post) as [E Hp]; [done|lia|done..|].
  eexists. split; [exact E|]. done.
Qed.

Definition object_sized (o : BSONObj) : Prop := zlen (encode_obj o) <= BSONObjMaxInternalSize.
Lemma object_sized_int o : object_sized o -> int_sized (encode_obj o).
Proof. unfold object_sized, int_sized, BSONObjMaxInternalSize. cbn. lia. Qed.

Lemma nextJsObj_spec validate o m pre post :
  wf_obj o -> object_sized o -> zlen (encode_obj o ++ post) <= int_max int32 ->
  parsing m pre (encode_obj o ++ post) ->
  exists m', nextJsObj validate m = Ret (encode_obj o, m') /\ dm_msg m' = dm_msg m /\
    (post <> [] -> parsing m' (pre ++ encode_obj o) post) /\
    (post = [] -> moreJSObjs m' = false).
Proof.
  intros Hw Hs Hmax [[slack Hm] Hn He]. pose proof (object_sized_int o Hs) as Hi.
  pose proof (zlen_nonneg post) as Hpost.
  pose proof (proj1 (objsize_encode o (post ++ slack) Hi)) as Hsz.
  pose proof (read_bytes_0 (encode_obj o) (post ++ slack)) as Hrb.
  assert (5 <= zlen (encode_obj o)) as H5.
  { rewrite zlen_encode_obj. pose proof (zlen_nonneg (encode_elements o)). lia. }
  assert (zlen (encode_obj o ++ post) = zlen (encode_obj o) + zlen post) as Hlen by apply zlen_app.
  pose proof (take_zlen (encode_obj o ++ post) slack) as Htake. rewrite <-app_assoc in Htake.
  pose proof (drop_zlen pre (encode_obj o ++ post ++ slack)) as Hdrop.
  rewrite <-app_assoc in Hm. rewrite <-Hm in Hdrop.
  assert (post = [] -> zlen post = 0) as Hnil by (by intros ->).
  assert (post <> [] -> 0 < zlen post) as Hcons
    by (destruct post; [done|]; rewrite zlen_cons; pose proof (zlen_nonneg post); lia).
  assert (validateBSON (encode_obj o ++ post) = Ret (Ret tt)) as Hval.
  { unfold validateBSON. rewrite Hlen. destruct (_ <? 5) eqn:E; [lia|].
    by rewrite (validate_accepts _ Hmax o post Hw eq_refl). }
  unfold nextJsObj, object_sized in *. rewrite Hn, He, Hlen in *.
  remember (zlen (encode_obj o)) as n eqn:En. clear Hi Hw.
  replace (zlen pre + (n + zlen post) - zlen pre) with (n + zlen post) by lia.
  destruct (5 <=? n + zlen post) eqn:E1; [|lia]. cbn [massert guard_throw mbind result_bind].
  rewrite Hdrop, Htake, Hval. unfold objsize.
  assert ((if validate then
       s ← Ret (E := exn) (Ret tt); massert 10307 (match (s : StatusWith unit) with Ret _ => true | Throw _ => false end)
      else Ret tt) = Ret tt) as -> by (by destruct validate).
  cbn [mbind result_bind]. rewrite Hsz, ret_bind. cbv beta.
  destruct ((0 <? n) && (n <=? BSONObjMaxInternalSize)) eqn:E2; [|lia].
  cbn [massert verify guard_throw mbind result_bind].
  destruct (5 <=? n) eqn:E3; [|lia]. cbn [verify guard_throw mbind result_bind].
  destruct (n <=? n + zlen post) eqn:E4; [|lia]. cbn [verify guard_throw mbind result_bind].
  rewrite Hrb. cbn [mbind result_bind].
  eexists. split; [reflexivity|]. split; [done|].
  destruct (zlen pre + (n + zlen post) <=? zlen pre + n) eqn:E5.
  - assert (~ post <> []) as Hp by (intros H%Hcons; lia). split; [done|]. done.
  - split; [intros _|intros H%Hnil; lia].
    constructor; cbn [set_next dm_msg dm_nextjsobj dm_theEnd].
    + exists slack. by rewrite Hm, <-!app_assoc.
    + by rewrite zlen_app, En.
    + rewrite He, zlen_app, <-En. lia.
Qed.

(** A message that names a collection, from its flags to what follows the name. *)
Lemma DbMessage_ctor_spec mid op flags ns body slack :
  zlen mid = 8 -> dbMsg <= op <= dbDelete -> in_range int32 flags -> nul ∉ ns ->
  zlen (le4 flags ++ ns ++ [nul] ++ body) + 16 <= int_max int32 ->
  exists m, DbMessage_ctor (Message_of (message_bytes mid op (le4 flags ++ ns ++ [nul] ++ body) ++ slack) true) = Ret m /\
    dm_reserved m = flags /\ getns m = Ret ns /\
    dm_msg m = message_bytes mid op (le4 flags ++ ns ++ [nul] ++ body) ++ slack /\
    exists pre, parsing m pre body.
Proof.
  intros Hm Ho Hf Hns Hs. set (b := le4 flags ++ ns ++ [nul] ++ body) in *.
  assert (in_range int32 op) as Hop by (unfold in_range, dbMsg, dbDelete in *; cbn; lia).
  destruct (message_fields mid op b slack Hm Hop Hs) as (_ & Hd & Hp).
  unfold DbMessage_ctor. cbn [singleData Message_of Message_setData_ msg_buf mbind result_bind].
  set (d := message_bytes mid op b ++ slack) in *. rewrite Hd. cbn [mbind result_bind].
  assert (zlen b = 4 + zlen ns + 1 + zlen body) as Hb
    by (unfold b; autorewrite with mongo; lia).
  assert (int_max int32 = 2147483647) as Hmax by done. zlen_simpl.
  set (h := le4 (zlen b + 16) ++ mid ++ le4 op).
  assert (zlen h = 16) as Hh by (unfold h; autorewrite with mongo; lia).
  set (m0 := mkDbMessage d 0 None (Some MsgDataHeaderSize) (MsgDataHeaderSize + zlen b) None 0).
  assert (d = h ++ b ++ slack) as Ed by (unfold d, h, message_bytes; by rewrite <-!app_assoc).
  assert (parsing m0 h b) as Hp0.
  { constructor; [by exists slack|by rewrite Hh|]. unfold m0, MsgDataHeaderSize. cbn [dm_theEnd]. lia. }
  destruct (readAndAdvance_spec int32 4 flags m0 h (ns ++ [nul] ++ body)) as [E _]; [done|lia|done..|].
  rewrite E. cbn [mbind result_bind]. unfold messageShouldHaveNs. rewrite Hp. cbn [mbind result_bind].
  replace ((dbMsg <=? op) && (op <=? dbDelete)) with true by lia.
  assert (size_wrap (zlen b - 4) = zlen b - 4) as -> by (apply Z.mod_small; lia).
  assert (drop (Z.to_nat (MsgDataHeaderSize + 4)) d = ns ++ nul :: (body ++ slack)) as Edrop.
  { rewrite Ed. unfold b. rewrite <-!app_assoc, (app_assoc h).
    replace (MsgDataHeaderSize + 4) with (zlen (h ++ le4 flags))
      by (unfold MsgDataHeaderSize; autorewrite with mongo; lia).
    by rewrite drop_zlen. }
  rewrite Edrop. unfold strnlen.
  assert (memchr (take (Z.to_nat (zlen b - 4)) (ns ++ nul :: body ++ slack)) nul = Some (length ns)) as ->.
  { replace (zlen b - 4) with (zlen (ns ++ nul :: body)) by (autorewrite with mongo; lia).
    rewrite app_comm_cons, app_assoc, take_zlen. by apply memchr_app_notin. }
  cbn [mbind result_bind]. change (Z.of_nat (length ns)) with (zlen ns).
  assert (wrap uint32 (zlen ns) = zlen ns) as -> by (apply wrap_id; [done|unfold in_range; cbn; lia]).
  replace (zlen ns <? zlen b - 4) with true by lia. cbn [uassert guard_throw mbind result_bind].
  eexists. split; [reflexivity|]. split; [done|]. split; [|split; [done|]].
  - unfold getns. cbn [dm_msg dm_nsStart]. unfold messageShouldHaveNs. rewrite Hp. cbn [mbind result_bind].
    replace ((dbMsg <=? op) && (op <=? dbDelete)) with true by lia.
    cbn [verify guard_throw mbind result_bind]. rewrite Edrop, strlen_cstr by done.
    cbn [mbind result_bind]. by rewrite read_bytes_0.
  - exists (h ++ le4 flags ++ ns ++ [nul]). constructor; cbn [dm_msg dm_nextjsobj dm_theEnd].
    + exists slack. rewrite Ed. unfold b. by rewrite <-!app_assoc.
    + f_equal. unfold MsgDataHeaderSize. autorewrite with mongo. lia.
    + cbn [set_next m0 dm_theEnd]. unfold m0. cbn [dm_theEnd]. rewrite Hb. unfold MsgDataHeaderSize. autorewrite with mongo. lia.
Qed.

Lemma setData_step malloc op data r :
  (forall n, 0 <= n -> zlen (malloc n) = n) -> 2 * zlen data <= BufferMaxSize ->
  (exists b, r = Ret b /\ bb_data b = data) ->
  exists mid, zlen mid = 8 /\
    (b ← r; Message_setData_op malloc op (bb_data b) Message_ctor) = Ret (Message_of (message_bytes mid op data) true).
Proof.
  intros Hmalloc Hs (b & -> & <-). pose proof (zlen_nonneg (bb_data b)). unfold BufferMaxSize in *.
  apply Message_setData_op_spec; [apply Hmalloc; lia|lia].
Qed.
(** What the data of a query is. *)
Definition query_body (ns : bytes) (query : BSONObj) (nToReturn nToSkip : Z) (fields : option BSONObj)
    (queryOptions : Z) : bytes :=
  le4 queryOptions ++ ns ++ [nul] ++ le4 nToSkip ++ le4 nToReturn ++ encode_obj query
  ++ match fields with Some f => encode_obj f | None => [] end.

Lemma appends_prefix (a b : bytes) n : 2 * zlen (a ++ b) <= n -> 2 * zlen a <= n.
Proof. rewrite zlen_app. pose proof (zlen_nonneg b). lia. Qed.
Lemma wf_ctor n : 0 <= n <= int_max int32 -> wf_buf (BufBuilder_ctor n).
Proof. intros. unfold wf_buf, BufBuilder_len. cbn [BufBuilder_ctor bb_data bb_size bb_reservedBytes]. change (zlen (@nil char)) with 0. lia. Qed.

(** Appending a list of pieces. *)
Fixpoint append_list (b : BufBuilder) (l : list bytes) : M BufBuilder :=
  match l with [] => Ret b | s :: l => b ← BufBuilder_appendBuf b s; append_list b l end.
Lemma append_list_ok l b : wf_buf b -> bb_reservedBytes b = 0 ->
  2 * zlen (bb_data b ++ concat l) <= BufferMaxSize ->
  exists b', append_list b l = Ret b' /\ bb_data b' = bb_data b ++ concat l.
Proof.
  revert b. induction l as [|s l IH]; intros b Hw Hr Hs; cbn [append_list concat] in *.
  { exists b. by rewrite app_nil_r. }
  rewrite app_assoc in Hs. pose proof (appends_prefix _ _ _ Hs) as Hs1.
  destruct (appendBuf_ok b s Hw) as (b' & -> & Hw' & Hd & Hr').
  { unfold BufBuilder_len. rewrite zlen_app in Hs1. lia. }
  rewrite <-Hd in Hs. cbn [mbind result_bind].
  destruct (IH b' Hw' ltac:(congruence) Hs) as (b2 & -> & Hd2).
  exists b2. by rewrite Hd2, Hd, <-app_assoc.
Qed.
Lemma append_list_ctor n l : 0 <= n <= int_max int32 -> 2 * zlen (concat l) <= BufferMaxSize ->
  exists b', append_list (BufBuilder_ctor n) l = Ret b' /\ bb_data b' = concat l.
Proof. intros. by apply (append_list_ok l (BufBuilder_ctor n)); [apply wf_ctor| |]. Qed.

Lemma assembleRequest_spec malloc ns query nToReturn nToSkip fields queryOptions :
  (forall n, 0 <= n -> zlen (malloc n) = n) ->
  2 * zlen (query_body ns query nToReturn nToSkip fields queryOptions) <= BufferMaxSize ->
  exists mid, zlen mid = 8 /\
    assembleRequest malloc ns (encode_obj query) nToReturn nToSkip (encode_obj <$> fields) queryOptions Message_ctor
    = Ret (Message_of (message_bytes mid dbQuery (query_body ns query nToReturn nToSkip fields queryOptions)) true).
Proof.
  intros Hmalloc Hs.
  set (l := [le4 queryOptions; ns ++ [nul]; le4 nToSkip; le4 nToReturn; encode_obj query]
    ++ match fields with Some f => [encode_obj f] | None => [] end).
  assert (concat l = query_body ns query nToReturn nToSkip fields queryOptions) as Hl.
  { unfold l, query_body. destruct fields; cbn [app concat]; by rewrite <-?app_assoc, ?app_nil_r. }
  rewrite <-Hl in *.
  destruct (setData_step malloc dbQuery (concat l) (append_list (BufBuilder_ctor 512) l)) as (mid & Hmid & E);
    [done|done|by apply append_list_ctor|].
  exists mid. split; [done|]. rewrite <-E. unfold assembleRequest, BufBuilder_appendNum, BufBuilder_appendStr.
  change (StringData_copyTo ns true) with (ns ++ [nul]).
  change (le_bytes (Z.to_nat (width int32 / 8))) with le4.
  unfold l. destruct fields; cbn [app append_list fmap option_fmap option_map];
  repeat (match goal with |- (BufBuilder_appendBuf ?b ?s ≫= _) = _ =>
    destruct (BufBuilder_appendBuf b s) as [?|?]; [rewrite !ret_bind|done] end); done.
Qed.

(** ** Properties *)

(** A query assembled by the client is read back by the receiver of its
    bytes, whatever fresh memory held and whatever follows the message in the
    receiver's buffer, with or without validation: the namespace, the numbers to
    skip and to return, the options, the query and the fields. *)
Theorem query_message_roundtrip malloc ns query nToReturn nToSkip fields queryOptions validate :
  (forall n, 0 <= n -> zlen (malloc n) = n) ->
  nul ∉ ns -> wf_obj query -> object_sized query ->
  (forall f, fields = Some f -> wf_obj f /\ object_sized f) ->
  in_range int32 nToReturn -> in_range int32 nToSkip -> in_range int32 queryOptions ->
  2 * zlen (query_body ns query nToReturn nToSkip fields queryOptions) <= BufferMaxSize ->
  exists d, assembleRequest malloc ns (encode_obj query) nToReturn nToSkip (encode_obj <$> fields)
      queryOptions Message_ctor = Ret (Message_of d true) /\
    getLen d = Ret (zlen d) /\ getOperation d = Ret dbQuery /\
    forall slack, exists m m', DbMessage_ctor (Message_of (d ++ slack) true) = Ret m /\
      QueryMessage_ctor validate m
      = Ret (mkQueryMessage ns nToSkip nToReturn queryOptions (encode_obj query) (encode_obj <$> fields), m').
Proof.
  intros Hmalloc Hns Hq Hqs Hf Hr Hsk Ho Hs.
  destruct (assembleRequest_spec malloc ns query nToReturn nToSkip fields queryOptions Hmalloc Hs)
    as (mid & Hmid & E).
  set (body := le4 nToSkip ++ le4 nToReturn ++ encode_obj query
    ++ match fields with Some f => encode_obj f | None => [] end).
  change (query_body _ _ _ _ _ _) with (le4 queryOptions ++ ns ++ [nul] ++ body) in *.
  assert (zlen (le4 queryOptions ++ ns ++ [nul] ++ body) + 16 <= int_max int32) as Hmax
    by (unfold BufferMaxSize in Hs; change (int_max int32) with 2147483647; lia).
  exists (message_bytes mid dbQuery (le4 queryOptions ++ ns ++ [nul] ++ body)). split; [exact E|].
  assert (in_range int32 dbQuery) as Hop by done.
  destruct (message_fields mid dbQuery _ [] Hmid Hop Hmax) as (H1 & _ & H2). rewrite app_nil_r in H1, H2.
  split; [by rewrite zlen_message_bytes|]. split; [done|]. intros slack.
  destruct (DbMessage_ctor_spec mid dbQuery queryOptions ns body slack) as (m & Hm & _ & Hgetns & Hd & pre & Hp);
    [done|done|done|done|done|].
  assert (readLE int32 (dm_msg m) MsgDataHeaderSize = Ret queryOptions) as Hopts.
  { rewrite Hd. unfold message_bytes. rewrite <-!app_assoc, (app_assoc (le4 _)), (app_assoc _ (le4 dbQuery)).
    replace MsgDataHeaderSize with (zlen ((le4 (zlen (le4 queryOptions ++ ns ++ [nul] ++ body) + 16) ++ mid) ++ le4 dbQuery))
      by (unfold MsgDataHeaderSize; autorewrite with mongo; lia).
    apply (readLE_at int32 4); [done|lia|done]. }
  destruct (pullInt_spec nToSkip m pre _ Hsk Hp) as (m1 & E1 & Hp1 & Hd1).
  destruct (pullInt_spec nToReturn m1 _ _ Hr Hp1) as (m2 & E2 & Hp2 & Hd2).
  assert (zlen (encode_obj query ++ match fields with Some f => encode_obj f | None => [] end) <= int_max int32) as Hrest.
  { unfold body in Hmax. rewrite !zlen_app in Hmax. rewrite zlen_app. zlen_simpl. lia. }
  destruct (nextJsObj_spec validate query m2 _ _ Hq Hqs Hrest Hp2) as (m3 & E3 & Hd3 & Hp3 & Hn3).
  assert (dm_msg m3 = dm_msg m) as Hd3' by congruence.
  exists m. unfold QueryMessage_ctor. rewrite Hgetns, ret_bind, E1, ret_bind, E2, ret_bind, E3, ret_bind.
  destruct fields as [f|].
  - destruct (Hf f eq_refl) as [Hwf Hfs].
    assert (encode_obj f <> []) as Hne.
    { intros Hz%(f_equal zlen). rewrite zlen_encode_obj in Hz. pose proof (zlen_nonneg (encode_elements f)).
      change (zlen (@nil char)) with 0 in Hz. lia. }
    specialize (Hp3 Hne). rewrite <-(app_nil_r (encode_obj f)) in Hp3.
    destruct (nextJsObj_spec validate f m3 (((pre ++ le4 nToSkip) ++ le4 nToReturn) ++ encode_obj query) [] Hwf Hfs) as (m4 & E4 & Hd4 & _); [|exact Hp3|].
    { rewrite app_nil_r. rewrite zlen_app in Hrest. pose proof (zlen_nonneg (encode_obj query)). lia. }
    exists m4. split; [exact Hm|]. unfold moreJSObjs.
    rewrite (p_next _ _ _ Hp3), bool_decide_eq_true_2 by done. rewrite E4, ret_bind.
    cbv beta iota. unfold mret, result_ret. rewrite ret_bind. cbv beta iota.
    rewrite Hd4, Hd3', Hopts, ret_bind. done.
  - exists m3. split; [exact Hm|]. rewrite (Hn3 eq_refl). cbv beta iota. unfold mret, result_ret.
    rewrite ret_bind. cbv beta iota. by rewrite Hd3', Hopts, ret_bind.
Qed.
Lemma query_message_roundtrip_witness :
  let malloc := fun n : Z => replicate (Z.to_nat n) "x"%char in
  let q := [(B "a", VNumberInt 1)] in let f := [(B "b", VNumberInt 1)] in
  2 * zlen (query_body (B "db.c") q 5 2 (Some f) 4) <= BufferMaxSize /\
  exists d, assembleRequest malloc (B "db.c") (encode_obj q) 5 2 (Some (encode_obj f)) 4 Message_ctor
      = Ret (Message_of d true) /\ getLen d = Ret (zlen d) /\ getOperation d = Ret dbQuery /\
    forall slack, exists m m', DbMessage_ctor (Message_of (d ++ slack) true) = Ret m /\
      QueryMessage_ctor true m = Ret (mkQueryMessage (B "db.c") 2 5 4 (encode_obj q) (Some (encode_obj f)), m').
Proof.
  intros malloc q f. split; [by vm_compute|].
  apply (query_message_roundtrip malloc (B "db.c") q 5 2 (Some f) 4 true).
  - intros n Hn. unfold malloc, zlen. rewrite length_replicate. lia.
  - not_in.
  - repeat constructor; not_in || done.
  - done.
  - intros ? [= <-]. split; [|done]. repeat constructor; not_in || done.
  - done.
  - done.
  - done.
  - by vm_compute.
Defined.

(** ** Reading inside the message *)

(** What a buffer that [MessagingPort::recv] filled guarantees. *)
Definition received (d : bytes) (n : Z) : Prop :=
  getLen d = Ret n /\ 16 <= n <= zlen d /\ n <= 48 * 1000 * 1000.

(** The calls of a user who does not pull a number once the objects have run
    out. *)
Inductive dm_call :=
  | CPullInt | CPullInt64 | CNextJsObj | CGetns | CGetQueryNToReturn | CMarkSet | CMarkReset.
Definition run_call (c : dm_call) (m : DbMessage) : M DbMessage :=
  match c with
  | CPullInt => if moreJSObjs m then snd <$> pullInt m else Ret m
  | CPullInt64 => if moreJSObjs m then snd <$> pullInt64 m else Ret m
  | CNextJsObj => snd <$> nextJsObj false m
  | CGetns => getns m;; Ret m
  | CGetQueryNToReturn => getQueryNToReturn m;; Ret m
  | CMarkSet => Ret (markSet m)
  | CMarkReset => markReset None m
  end.
Fixpoint run_calls (l : list dm_call) (m : DbMessage) : M DbMessage :=
  match l with [] => Ret m | c :: l => m ← run_call c m; run_calls l m end.

Definition defined {A} (m : M A) : Prop := m <> Throw EUndefined.
Lemma defined_bind {A C} (m : M A) (f : A -> M C) :
  defined m -> (forall a, m = Ret a -> defined (f a)) -> defined (m ≫= f).
Proof. intros Hm Hf. destruct m as [a|e]; [by apply Hf|]. intros [= ->]. by apply Hm. Qed.
Lemma defined_guard (b : bool) e : e <> EUndefined -> defined (guard_throw b e).
Proof. by destruct b; intros H [=]. Qed.

Definition inside (n : Z) (p : option Z) : Prop := match p with Some p => 16 <= p <= n | None => True end.
Record dm_inv (d : bytes) (n : Z) (m : DbMessage) : Prop := mkDmInv {
  i_msg : dm_msg m = d;
  i_end : dm_theEnd m = n;
  i_next : inside n (dm_nextjsobj m);
  i_mark : inside n (dm_mark m);
  i_ns : messageShouldHaveNs d = Ret true -> dm_nsStart m = Some 20 /\ 0 <= dm_nsLen m < n - 20 /\
    is_Ret (strlen (drop 20 d)) }.

Lemma readLE_defined t d p : 0 <= p -> p + width t / 8 <= zlen d -> is_Ret (readLE t d p).
Proof.
  intros H1 H2. unfold readLE. cbv zeta. apply Z.leb_le in H1, H2. rewrite H1, H2. by eexists.
Qed.
Lemma getOperation_defined d n : received d n -> is_Ret (getOperation d).
Proof. intros (_ & Hn & _). apply readLE_defined; [lia|change (12 + 4 <= zlen d); lia]. Qed.
Lemma messageShouldHaveNs_defined d n : received d n -> is_Ret (messageShouldHaveNs d).
Proof.
  intros H. unfold messageShouldHaveNs. destruct (getOperation_defined d n H) as [op ->].
  by eexists.
Qed.

Lemma readAndAdvance_inv d n m t p : received d n -> dm_inv d n m -> dm_nextjsobj m = Some p ->
  t = int32 \/ t = int64 ->
  defined (readAndAdvance t m) /\
  forall x m', readAndAdvance t m = Ret (x, m') -> dm_inv d n m'.
Proof.
  intros (_ & Hn & Hmax) Hi Hp Ht. destruct Hi as [Hm He Hx Hk Hns].
  rewrite Hp in Hx. cbn in Hx. unfold readAndAdvance, dm_read, checkRead. rewrite Hp, Hm, He.
  cbv beta iota.
  assert (wrap int32 (size_wrap (width t / 8 * 1)) = width t / 8 /\ 0 < width t / 8) as [-> Hpos]
    by (destruct Ht as [-> | ->]; split; by vm_compute).
  destruct (width t / 8 <=? n - p) eqn:E; [|by split].
  cbn [uassert guard_throw]. rewrite !ret_bind.
  destruct (readLE_defined t d p) as [x ->]; [lia|lia|].
  rewrite ret_bind. split; [done|].
  intros ? ? [= <- <-]. constructor; cbn; [done|done|lia|done|done].
Qed.
Lemma DbMessage_ctor_inv d n : received d n ->
  defined (DbMessage_ctor (Message_of d true)) /\
  forall m, DbMessage_ctor (Message_of d true) = Ret m -> dm_inv d n m.
Proof.
  intros H. pose proof H as (Hl & Hn & Hmax). unfold DbMessage_ctor.
  cbn [singleData Message_of Message_setData_ msg_buf]. rewrite ret_bind.
  unfold dataLen. rewrite Hl, ret_bind. unfold MsgDataHeaderSize.
  rewrite int_result_ok by (unfold in_range; cbn; lia). rewrite !ret_bind.
  replace (16 + (n - 16)) with n by lia.
  destruct (messageShouldHaveNs_defined d n H) as [has Hhas].
  set (m0 := mkDbMessage d 0 None (Some 16) n None 0).
  destruct (decide (has = true)) as [-> |Hfalse].
  - (* the invariant without the namespace *)
    unfold readAndAdvance, dm_read, checkRead. cbn [m0 dm_nextjsobj dm_theEnd dm_msg]. cbv beta iota.
    change (wrap int32 (size_wrap (width int32 / 8 * 1))) with 4.
    destruct (4 <=? n - 16) eqn:E4; [|by split]. cbn [uassert guard_throw]. rewrite !ret_bind.
    destruct (readLE_defined int32 d 16) as [reserved ->]; [lia|change (16 + 4 <= zlen d); lia|].
    rewrite !ret_bind. cbv beta iota. rewrite Hhas, ret_bind.
    assert (size_wrap (n - 16 - 4) = n - 20) as -> by (unfold size_wrap; rewrite Z.mod_small; lia).
    change (Z.to_nat (16 + 4)) with 20%nat.
    assert (zlen (drop 20 d) = zlen d - 20) as Hdrop by (unfold zlen in *; rewrite length_drop; lia).
    unfold strnlen. destruct (memchr (take (Z.to_nat (n - 20)) (drop 20 d)) nul) as [k|] eqn:Ek.
    + apply memchr_Some in Ek as (pre & post & Ek & <- & Hpre).
      assert (Z.of_nat (length pre) < n - 20) as Hk.
      { apply (f_equal length) in Ek. rewrite length_take, length_app in Ek. cbn [length] in Ek. lia. }
      rewrite ret_bind.
      assert (wrap uint32 (Z.of_nat (length pre)) = Z.of_nat (length pre)) as ->
        by (apply wrap_id; [done|unfold in_range; cbn; lia]).
      destruct (Z.of_nat (length pre) <? n - 20) eqn:E; [|by split].
      cbn [uassert guard_throw]. rewrite ret_bind. split; [done|]. intros m [= <-].
      constructor; cbn [dm_msg dm_theEnd dm_nextjsobj dm_mark dm_nsStart dm_nsLen inside]; try done; [lia|].
      intros _. split_and!; [done|lia|lia|].
      exists (zlen pre). rewrite <-(take_drop (Z.to_nat (n - 20)) (drop 20 d)), Ek, <-app_assoc.
      by apply strlen_cstr.
    + destruct (n - 20 <=? zlen (drop 20 d)) eqn:E; [|lia]. rewrite ret_bind.
      assert (wrap uint32 (n - 20) = n - 20) as -> by (apply wrap_id; [done|unfold in_range; cbn; lia]).
      destruct (n - 20 <? n - 20) eqn:E'; [lia|]. by split.
  - assert (dm_inv d n m0) as Hi0.
    { constructor; cbn; [done|done|lia|done|]. intros [= ->]%(eq_trans (eq_sym Hhas)). done. }
    destruct (readAndAdvance_inv d n m0 int32 16 H Hi0 eq_refl (or_introl eq_refl)) as [Hdef Hinv].
    destruct (readAndAdvance int32 m0) as [[reserved m1]|e] eqn:Er; [|split; [|done]].
    2: { intros [= ->]. by apply Hdef. }
    destruct (Hinv _ _ eq_refl) as [Hm He Hx Hk Hns]. rewrite ret_bind. cbv beta iota.
    rewrite Hhas, ret_bind. assert (has = false) as -> by (by destruct has).
    split; [done|]. intros m [= <-]. constructor; cbn; [done|done|done|done|].
    intros [=]%(eq_trans (eq_sym Hhas)).
Qed.
Lemma nextJsObj_inv d n m : received d n -> dm_inv d n m ->
  defined (nextJsObj false m) /\ forall o m', nextJsObj false m = Ret (o, m') -> dm_inv d n m'.
Proof.
  intros (_ & Hn & Hmax) [Hm He Hx Hk Hns]. unfold nextJsObj.
  destruct (dm_nextjsobj m) as [p|] eqn:Hp; [|by split]. cbn in Hx. rewrite Hm, He.
  destruct (5 <=? n - p) eqn:E5; [|by split]. cbn [massert guard_throw]. rewrite !ret_bind.
  assert (zlen (drop (Z.to_nat p) d) = zlen d - p) as Hdrop
    by (unfold zlen in *; rewrite length_drop; lia).
  unfold objsize. destruct (readLE_defined int32 (drop (Z.to_nat p) d) 0) as [sz ->];
    [lia|change (0 + 4 <= zlen (drop (Z.to_nat p) d)); lia|]. rewrite ret_bind. cbv beta.
  destruct ((0 <? sz) && (sz <=? BSONObjMaxInternalSize)); [|by split].
  cbn [massert guard_throw]. rewrite ret_bind.
  destruct (5 <=? sz) eqn:E1; [|by split]. cbn [verify guard_throw]. rewrite ret_bind.
  destruct (sz <=? n - p) eqn:E2; [|by split]. cbn [verify guard_throw]. rewrite ret_bind.
  assert (read_bytes (drop (Z.to_nat p) d) 0 sz = Ret (take (Z.to_nat sz) (drop (Z.to_nat 0) (drop (Z.to_nat p) d)))) as ->.
  { unfold read_bytes. destruct ((0 <=? 0) && (0 <=? sz) && (0 + sz <=? _)) eqn:E; [done|lia]. }
  rewrite ret_bind. split; [done|]. intros o m' [= _ <-].
  constructor; cbn [set_next dm_msg dm_theEnd dm_nextjsobj dm_mark dm_nsStart dm_nsLen]; try done.
  destruct (n <=? p + sz) eqn:E3; cbn; lia.
Qed.
Lemma run_call_inv d n c m : received d n -> dm_inv d n m ->
  defined (run_call c m) /\ forall m', run_call c m = Ret m' -> dm_inv d n m'.
Proof.
  intros H Hi. pose proof Hi as [Hm He Hx Hk Hns]. pose proof H as (_ & Hn & Hmax).
  destruct (messageShouldHaveNs_defined d n H) as [has Hhas].
  assert (forall t, t = int32 \/ t = int64 -> moreJSObjs m = true ->
    defined (snd <$> readAndAdvance t m) /\ forall m', snd <$> readAndAdvance t m = Ret m' -> dm_inv d n m') as Hpull.
  { intros t Ht [p Hp]%bool_decide_eq_true_1%not_eq_None_Some.
    destruct (readAndAdvance_inv d n m t p H Hi Hp Ht) as [Hd Hr].
    destruct (readAndAdvance t m) as [[x m1]|e]; cbn.
    - split; [done|]. intros m' [= <-]. by eapply Hr.
    - split; [|done]. intros [= ->]. by apply Hd. }
  destruct c; cbn [run_call].
  - destruct (moreJSObjs m) eqn:E; [by apply Hpull; [left|]|]. split; [done|]. by intros ? [= <-].
  - destruct (moreJSObjs m) eqn:E; [by apply Hpull; [right|]|]. split; [done|]. by intros ? [= <-].
  - destruct (nextJsObj_inv d n m H Hi) as [Hd Hr].
    destruct (nextJsObj false m) as [[o m1]|e]; cbn.
    + split; [done|]. intros m' [= <-]. by eapply Hr.
    + split; [|done]. intros [= ->]. by apply Hd.
  - unfold getns. rewrite Hm, Hhas, ret_bind. destruct has; [|by split].
    destruct (Hns Hhas) as (-> & Hlen & k & Hstr). cbn [verify guard_throw]. rewrite ret_bind. cbv beta iota zeta.
    change (Z.to_nat 20) with 20%nat. rewrite Hstr, ret_bind.
    assert (is_Ret (read_bytes (drop 20 d) 0 k)) as [s ->].
    { unfold strlen in Hstr. destruct (memchr (drop 20 d) nul) as [j|] eqn:Ej; [|done].
      injection Hstr as <-. apply memchr_Some in Ej as (pre & post & -> & <- & _).
      rewrite read_bytes_0. by eexists. }
    rewrite ret_bind. split; [done|]. by intros ? [= <-].
  - unfold getQueryNToReturn. rewrite Hm, Hhas, ret_bind. destruct has; [|by split].
    destruct (Hns Hhas) as (-> & Hlen & _). cbn [verify guard_throw]. rewrite ret_bind.
    unfold checkRead. cbn [fmap option_fmap option_map]. change (wrap int32 (size_wrap (4 * 2))) with 8.
    rewrite He. destruct (8 <=? _) eqn:E; [|by split]. cbn [uassert guard_throw]. rewrite !ret_bind.
    destruct (readLE_defined int32 d (20 + dm_nsLen m + 1 + 4)) as [x ->]; [lia| |].
    { change (20 + dm_nsLen m + 1 + 4 + 4 <= zlen d). lia. }
    rewrite ret_bind. split; [done|]. by intros ? [= <-].
  - split; [done|]. intros ? [= <-]. by constructor.
  - unfold markReset. destruct (dm_mark m) as [p|] eqn:Ep; cbn; [|by split].
    split; [done|]. intros ? [= <-]. constructor; cbn; by rewrite ?Ep.
Qed.

(** Parsing a received message never reads outside it: not while a
    [DbMessage] is set up, and not in any sequence of calls after that which
    pulls no number once the objects have run out; every such read is an
    exception instead. *)
Theorem DbMessage_safe d n l :
  received d n ->
  (m ← DbMessage_ctor (Message_of d true); run_calls l m) <> Throw EUndefined.
Proof.
  intros H. destruct (DbMessage_ctor_inv d n H) as [Hd Hi]. apply defined_bind; [done|].
  intros m Hm%Hi. clear Hd Hi. revert m Hm. induction l as [|c l IH]; intros m Hm; [done|].
  destruct (run_call_inv d n c m H Hm) as [Hd Hi]. cbn [run_calls].
  apply defined_bind; [done|]. intros m' Hm'. by apply IH, Hi.
Qed.
Lemma DbMessage_safe_witness :
  let d := message_bytes (le8 0) dbQuery (le4 0 ++ B "db.c" ++ [nul] ++ le4 0 ++ le4 1) in
  received d 33 /\
  (m ← DbMessage_ctor (Message_of d true); run_calls [CGetns; CPullInt; CPullInt64; CNextJsObj] m) <> Throw EUndefined.
Proof.
  intros d. assert (received d 33) as H by (unfold received; split_and!; [by vm_compute|vm_compute; discriminate..]).
  split; [exact H|]. exact (DbMessage_safe d 33 _ H).
Defined.

(** The number of bytes [checkRead] asks for is cut to an [int]: an array of 2 ^ 29
    elements of eight bytes passes for an empty one. *)
Lemma getArray_count_truncated :
  let d := message_bytes (le8 0) dbKillCursors (le4 0) in
  (m ← DbMessage_ctor (Message_of d true); getArray m (2 ^ 29)) = Ret 20.
Proof. by vm_compute. Qed.
(** Without objects left the position is the null pointer, and pulling a number is
    undefined. *)
Lemma pull_after_objects :
  let d := message_bytes (le8 0) dbInsert (le4 0 ++ B "c" ++ [nul] ++ encode_obj []) in
  (m ← DbMessage_ctor (Message_of d true); '(_, m) ← nextJsObj false m; pullInt m) = Throw EUndefined.
Proof. by vm_compute. Qed.
