(* ===== verification/MessagePort.v ===== *)
(** * A port: util/net/message_port.cpp, util/net/message_port.h

    A port's socket is the bytes the peer sends until the connection breaks, and
    the pieces that have been given to it to send; whether it accepts the next
    piece is a parameter.  The build is the one without SSL. *)
From S2P Require Import Prelude StringData ParseNumber BsonTypes BufBuilder Bson BsonValidate Message.
Local Open Scope Z_scope.

(** ** State *)

Record MessagingPort := mkPort {
  p_incoming : bytes;
  p_outgoing : list bytes;
  p_awaitingHandshake : bool;
  (** [piggyBackData]: null, or what lies between its [_buf] and [_cur]. *)
  p_piggy : option bytes;
  (** [NextMsgId]. *)
  p_nextMsgId : Z }.

Definition set_piggy (b : option bytes) (p : MessagingPort) : MessagingPort :=
  mkPort (p_incoming p) (p_outgoing p) (p_awaitingHandshake p) b (p_nextMsgId p).
Definition setHandshakeReceived (p : MessagingPort) : MessagingPort :=
  mkPort (p_incoming p) (p_outgoing p) false (p_piggy p) (p_nextMsgId p).

Section Port.
(** Whether the socket takes a piece after those it has taken; fresh memory. *)
Context (link : list bytes -> bytes -> bool) (malloc : Z -> bytes).
Implicit Types s : MessagingPort.

(** ** The socket *)

Definition psock_send (data : bytes) : ST MessagingPort unit := fun s =>
  if link (p_outgoing s) data then
    (mkPort (p_incoming s) (p_outgoing s ++ [data]) (p_awaitingHandshake s) (p_piggy s) (p_nextMsgId s), Ret tt)
  else (s, Throw ESocket).
(** Reads all the bytes asked for, or throws. *)
Definition psock_recv (n : Z) : ST MessagingPort bytes := fun s =>
  if n <=? zlen (p_incoming s) then
    (mkPort (drop (Z.to_nat n) (p_incoming s)) (p_outgoing s) (p_awaitingHandshake s) (p_piggy s) (p_nextMsgId s),
     Ret (take (Z.to_nat n) (p_incoming s)))
  else
    (mkPort [] (p_outgoing s) (p_awaitingHandshake s) (p_piggy s) (p_nextMsgId s), Throw ESocket).

Definition nextMessageId : ST MessagingPort Z := fun s =>
  (mkPort (p_incoming s) (p_outgoing s) (p_awaitingHandshake s) (p_piggy s)
     (wrap uint32 (p_nextMsgId s + 1)), Ret (p_nextMsgId s)).

(** ** PiggyBackData *)

Definition packet : Z := 1300.
Definition piggy_len (s : MessagingPort) : Z := zlen (default [] (p_piggy s)).
Definition piggy_flush : ST MessagingPort unit :=
  s ← st_get;
  if piggy_len s =? 0 then mret tt
  else
    psock_send (default [] (p_piggy s));;
    st_update (set_piggy (Some [])).
Definition piggy_append (m : Message) : ST MessagingPort unit :=
  d ← st_lift (Message_header m);
  n ← st_lift (getLen d);
  st_lift (verify (n <=? packet));;
  s ← st_get;
  (if piggy_len s + n >? packet then piggy_flush else mret tt);;
  d ← st_lift (singleData m);
  src ← st_lift (read_bytes d 0 n);
  st_update (fun s => set_piggy (Some (default [] (p_piggy s) ++ src)) s).

(** ** MessagingPort *)

Definition set_ids (responseTo : Z) (m : Message) : ST MessagingPort Message :=
  id ← nextMessageId;
  m ← st_lift (set_header (setId id) m);
  st_lift (set_header (setResponseTo responseTo) m).
(** [toSend.send], to this port. *)
Definition Message_send (m : Message) : ST MessagingPort unit :=
  d ← st_lift (Message_sent m);
  match d with Some d => psock_send d | None => mret tt end.

(** The message as [say] and [piggyBack] leave it. *)
Definition port_say (toSend : Message) (responseTo : Z) : ST MessagingPort Message :=
  st_lift (verify (negb (Message_empty toSend)));;
  toSend ← set_ids responseTo toSend;
  s ← st_get;
  if 0 <? piggy_len s then
    d ← st_lift (Message_header toSend);
    n ← st_lift (getLen d);
    if piggy_len s + n >? packet then
      piggy_flush;;
      Message_send toSend;;
      mret toSend
    else
      piggy_append toSend;;
      piggy_flush;;
      mret toSend
  else
    Message_send toSend;;
    mret toSend.
Definition port_piggyBack (toSend : Message) (responseTo : Z) : ST MessagingPort Message :=
  d ← st_lift (Message_header toSend);
  n ← st_lift (getLen d);
  if n >? packet then port_say toSend 0
  else
    toSend ← set_ids responseTo toSend;
    s ← st_get;
    st_update (set_piggy (Some (default [] (p_piggy s))));;
    piggy_append toSend;;
    mret toSend.
Definition port_reply (received response : Message) : ST MessagingPort Message :=
  d ← st_lift (Message_header received);
  id ← st_lift (getId d);
  port_say response id.

Definition MaxMessageSizeBytes : Z := 48 * 1000 * 1000.
Definition http_answer : bytes :=
  let msg := B "It looks like you are trying to access MongoDB over HTTP on the native driver port." ++ [chr 10] in
  let crlf := [chr 13; chr 10] in
  B "HTTP/1.0 200 OK" ++ crlf ++ B "Connection: close" ++ crlf ++ B "Content-Type: text/plain" ++ crlf ++
  B "Content-Length: " ++ print_int (zlen msg) ++ crlf ++ crlf ++ msg.

(** The parts of [recv] after the header has been read: the check that no SSL
    handshake is attempted, and the data. *)
Definition recv_handshake (header : bytes) : ST MessagingPort unit :=
  s ← st_get;
  if p_awaitingHandshake s then
    r ← st_lift (readLE int32 header 8);
    st_lift (uassert 17133 ((r =? 0) || (r =? -1)))
  else mret tt.
Definition recv_data (header : bytes) (len : Z) : ST MessagingPort bytes :=
  st_update setHandshakeReceived;;
  let z := wrap int32 (Z.land (len + 1023) 0xfffffc00) in
  st_lift (verify (len <=? z));;
  md ← st_lift (write_at (malloc z) 0 header);
  data ← psock_recv (len - 16);
  st_lift (write_at md 16 data).
(** The body of [recv]: the buffer with the message, or [None] for a refusal.
    Every turn consumes a header. *)
Fixpoint recv_body (fuel : nat) : ST MessagingPort (option bytes) :=
  match fuel with
  | O => st_lift (Throw EUndefined)
  | S fuel =>
      header ← psock_recv 16;
      len ← st_lift (getLen header);
      if len =? 542393671 then psock_send http_answer;; mret None
      else if len =? -1 then
        psock_send (le4 0x10203040);;
        st_update setHandshakeReceived;;
        recv_body fuel
      else
        recv_handshake header;;
        if (size_wrap len <? 16) || (MaxMessageSizeBytes <? size_wrap len) then mret None
        else md ← recv_data header len; mret (Some md)
  end.
Definition port_recv (m : Message) : ST MessagingPort (Message * bool) := fun s =>
  match recv_body (S (length (p_incoming s))) s with
  | (s, Ret (Some md)) =>
      match Message_setData md true m with Ret m => (s, Ret (m, true)) | Throw e => (s, Throw e) end
  | (s, Ret None) => (s, Ret (m, false))
  | (s, Throw ESocket) => (s, Ret (Message_reset m, false))
  | (s, Throw e) => (s, Throw e)
  end.

(** [recv(toSend, response)]: an answer to another message fails a [verify], so
    the loop runs once. *)
Definition port_recv_answer (toSend response : Message) : ST MessagingPort (Message * bool) :=
  '(response, ok) ← port_recv response;
  if negb ok then mret (response, false)
  else
    d ← st_lift (Message_header response);
    r ← st_lift (getResponseTo d);
    d ← st_lift (Message_header toSend);
    id ← st_lift (getId d);
    if r =? id then mret (response, true) else st_lift (Throw EVerify).
Definition port_call (toSend response : Message) : ST MessagingPort (Message * bool) :=
  toSend ← port_say toSend 0;
  port_recv_answer toSend response.
End Port.

(** ** The bytes of the wire *)

(** All that has been said: what the socket took, and what is kept back. *)
Definition wire (s : MessagingPort) : bytes := concat (p_outgoing s) ++ default [] (p_piggy s).

Section Port_lemmas.
Context (link : list bytes -> bytes -> bool) (malloc : Z -> bytes).
Implicit Types s : MessagingPort.

Lemma psock_send_Ret d s s' u : psock_send link d s = (s', Ret u) ->
  link (p_outgoing s) d = true /\
  s' = mkPort (p_incoming s) (p_outgoing s ++ [d]) (p_awaitingHandshake s) (p_piggy s) (p_nextMsgId s).
Proof. unfold psock_send. by destruct (link _ _); [intros [= <-]|]. Qed.

Lemma piggy_flush_Ret s s' u : piggy_flush link s = (s', Ret u) ->
  wire s' = wire s /\ piggy_len s' = 0 /\ default [] (p_piggy s') = [].
Proof.
  unfold piggy_flush. intros (s1 & ? & [= <- <-] & H)%st_bind_Ret.
  destruct (piggy_len s =? 0) eqn:E.
  - injection H as <-. split_and!; [done|lia|].
    unfold piggy_len in E. destruct (default [] (p_piggy s)) as [|c l]; [done|]. rewrite zlen_cons in E.
    pose proof (zlen_nonneg l). lia.
  - apply st_bind_Ret in H as (s2 & ? & [_ ->]%psock_send_Ret & [= <-]).
    unfold wire. cbn. by rewrite concat_app, app_nil_r; cbn; rewrite app_nil_r.
Qed.
Lemma piggy_append_Ret m s s' u : piggy_append link m s = (s', Ret u) -> piggy_len s <= packet ->
  exists b, Message_sent m = Ret (Some b) /\ wire s' = wire s ++ b /\ piggy_len s' <= packet.
Proof.
  unfold piggy_append. intros H Hp.
  apply st_bind_Ret in H as (? & d & [-> Hd]%st_lift_Ret & H).
  apply st_bind_Ret in H as (? & n & [-> Hn]%st_lift_Ret & H).
  apply st_bind_Ret in H as (? & ? & [-> Hv%guard_throw_Ret]%st_lift_Ret & H).
  apply st_bind_Ret in H as (? & ? & [= <- <-] & H).
  apply st_bind_Ret in H as (s1 & ? & Hf & H).
  apply st_bind_Ret in H as (? & d' & [-> Hd']%st_lift_Ret & H).
  apply st_bind_Ret in H as (? & src & [-> Hsrc]%st_lift_Ret & [= <-]).
  unfold singleData in Hd'. destruct (msg_buf m) as [d0|] eqn:Eb; [|done]. injection Hd' as ->.
  unfold Message_header in Hd. rewrite Eb in Hd. injection Hd as ->.
  assert (zlen src = n /\ 0 <= n) as [Hsn Hn0].
  { unfold read_bytes in Hsrc. destruct (_ && _) eqn:E; [|done]. injection Hsrc as <-.
    unfold zlen in *. rewrite length_take, length_drop. lia. }
  exists src. unfold Message_sent. rewrite Eb, Hn, ret_bind, Hsrc, ret_bind. split; [done|].
  assert (wire s1 = wire s /\ piggy_len s1 + n <= packet) as [Hw Hl].
  { destruct (piggy_len s + n >? packet) eqn:E.
    - destruct (piggy_flush_Ret _ _ _ Hf) as (? & -> & _). split; [done|]. lia.
    - injection Hf as <-. split; [done|]. lia. }
  unfold wire, piggy_len in *. cbn [set_piggy p_outgoing p_piggy default from_option id].
  rewrite app_assoc, Hw, zlen_app. split; [done|]. lia.
Qed.
Lemma set_ids_Ret r m s s' m' : set_ids r m s = (s', Ret m') ->
  p_outgoing s' = p_outgoing s /\ p_piggy s' = p_piggy s /\ Message_empty m' = Message_empty m.
Proof.
  assert (forall f m1 m2, set_header f m1 = Ret m2 -> Message_empty m2 = Message_empty m1) as Hh.
  { intros f [[d|] l fr] m2; cbn; [destruct (f d); [by intros [= <-]|done]|].
    destruct l as [|[d n] l]; [done|]. destruct (f d); [by intros [= <-]|done]. }
  unfold set_ids. intros H. apply st_bind_Ret in H as (s1 & id & [= <- <-] & H).
  apply st_bind_Ret in H as (? & m1 & [-> H1]%st_lift_Ret & [-> H2]%st_lift_Ret).
  split_and!; [done|done|]. by rewrite (Hh _ _ _ H2), (Hh _ _ _ H1).
Qed.
Lemma Message_send_Ret m s s' u : Message_send link m s = (s', Ret u) -> Message_empty m = false ->
  default [] (p_piggy s) = [] ->
  exists b, Message_sent m = Ret (Some b) /\ wire s' = wire s ++ b /\ default [] (p_piggy s') = [].
Proof.
  unfold Message_send. intros H He Hp. apply st_bind_Ret in H as (? & d & [-> Hd]%st_lift_Ret & H).
  destruct d as [d|].
  - apply psock_send_Ret in H as [_ ->]. exists d. unfold wire. cbn. rewrite Hp.
    split_and!; [done| |done]. rewrite concat_app. cbn. by rewrite !app_nil_r.
  - exfalso. unfold Message_sent, Message_empty in *.
    destruct (msg_buf m) as [b|]; [|destruct (msg_data m); [done|]].
    + destruct (getLen b) as [n|]; [|done]. cbn in Hd. by destruct (read_bytes b 0 n).
    + destruct (mapM _ _); done.
Qed.
Lemma port_say_Ret m r s s' m' : port_say link m r s = (s', Ret m') -> piggy_len s <= packet ->
  exists b, Message_sent m' = Ret (Some b) /\ wire s' = wire s ++ b /\ default [] (p_piggy s') = [].
Proof.
  unfold port_say. intros H Hp.
  apply st_bind_Ret in H as (? & ? & [-> Hv%guard_throw_Ret%negb_true_iff]%st_lift_Ret & H).
  apply st_bind_Ret in H as (s1 & m1 & Hi & H).
  destruct (set_ids_Ret _ _ _ _ _ Hi) as (Ho & Hpg & He). rewrite Hv in He.
  assert (wire s1 = wire s /\ piggy_len s1 = piggy_len s) as [Hw Hl]
    by (unfold wire, piggy_len; by rewrite Ho, Hpg).
  rewrite <-Hw. rewrite <-Hl in Hp. clear Hi Hw Hl Ho Hpg.
  apply st_bind_Ret in H as (? & ? & [= <- <-] & H).
  destruct (0 <? piggy_len s1) eqn:E0.
  - apply st_bind_Ret in H as (? & d & [-> Hd]%st_lift_Ret & H).
    apply st_bind_Ret in H as (? & n & [-> Hn]%st_lift_Ret & H).
    destruct (piggy_len s1 + n >? packet) eqn:E.
    + apply st_bind_Ret in H as (s2 & ? & (Hf & _ & Hnil)%piggy_flush_Ret & H).
      apply st_bind_Ret in H as (s3 & ? & H3 & [= <- <-]). rewrite <-Hf.
      by eapply Message_send_Ret.
    + apply st_bind_Ret in H as (s2 & ? & H2 & H).
      destruct (piggy_append_Ret _ _ _ _ H2 Hp) as (b & Hb & Hw & _).
      apply st_bind_Ret in H as (s3 & ? & (Hf & _ & Hnil)%piggy_flush_Ret & [= <- <-]).
      exists b. by rewrite Hf.
  - apply st_bind_Ret in H as (s2 & ? & H2 & [= <- <-]).
    eapply Message_send_Ret; [done|done|]. unfold piggy_len in E0.
    destruct (default [] (p_piggy s1)) as [|c l]; [done|]. rewrite zlen_cons in E0. pose proof (zlen_nonneg l). lia.
Qed.
Lemma port_piggyBack_Ret m r s s' m' : port_piggyBack link m r s = (s', Ret m') -> piggy_len s <= packet ->
  exists b, Message_sent m' = Ret (Some b) /\ wire s' = wire s ++ b /\ piggy_len s' <= packet.
Proof.
  unfold port_piggyBack. intros H Hp.
  apply st_bind_Ret in H as (? & d & [-> Hd]%st_lift_Ret & H).
  apply st_bind_Ret in H as (? & n & [-> Hn]%st_lift_Ret & H).
  destruct (n >? packet).
  - destruct (port_say_Ret _ _ _ _ _ H Hp) as (b & ? & ? & Hnil). exists b. split_and!; [done|done|].
    unfold piggy_len. by rewrite Hnil.
  - apply st_bind_Ret in H as (s1 & m1 & Hi & H).
    destruct (set_ids_Ret _ _ _ _ _ Hi) as (Ho & Hpg & _).
    apply st_bind_Ret in H as (? & ? & [= <- <-] & H).
    apply st_bind_Ret in H as (? & ? & [= <- _] & H).
    apply st_bind_Ret in H as (s2 & ? & H2 & [= <- <-]).
    destruct (piggy_append_Ret _ _ _ _ H2) as (b & ? & Hw & ?).
    { unfold piggy_len in *. cbn. by rewrite Hpg. }
    exists b. split_and!; [done| |done]. rewrite Hw. unfold wire. cbn. by rewrite Ho, Hpg.
Qed.
End Port_lemmas.

(** ** What is said, and that it returns *)

(** The message but for its two ids. *)
Definition same_buffer (d d' : bytes) : Prop :=
  zlen d' = zlen d /\ take 4 d' = take 4 d /\ drop 12 d' = drop 12 d.
Definition same_but_ids (m m' : Message) : Prop :=
  match msg_buf m, msg_data m, msg_buf m', msg_data m' with
  | Some d, _, Some d', _ => same_buffer d d'
  | None, (d, n) :: l, None, (d', n') :: l' => same_buffer d d' /\ n' = n /\ l' = l
  | _, _, _, _ => False
  end.
(** A message in one buffer that has room for it. *)
Definition whole (m : Message) : Prop := exists d n, msg_buf m = Some d /\ getLen d = Ret n /\ 16 <= n <= zlen d.

Lemma write_at_outside d off src d' : write_at d off src = Ret d' ->
  zlen d' = zlen d /\ take (Z.to_nat off) d' = take (Z.to_nat off) d /\
  drop (Z.to_nat (off + zlen src)) d' = drop (Z.to_nat (off + zlen src)) d.
Proof.
  unfold write_at. destruct (_ && _) eqn:E; [|done]. intros [= <-].
  pose proof (zlen_nonneg src).
  assert (length (take (Z.to_nat off) d) = Z.to_nat off) as Hl by (unfold zlen in *; rewrite length_take; lia).
  split_and!.
  - rewrite !zlen_app. unfold zlen in *. rewrite Hl, length_drop. lia.
  - by rewrite take_app_length'.
  - rewrite app_assoc, drop_app_length'; [done|]. rewrite length_app, Hl. unfold zlen in *. lia.
Qed.
Lemma take_min {A} n k (l l' : list A) : (n <= k)%nat -> take k l' = take k l -> take n l' = take n l.
Proof. intros Hn H. replace n with (n `min` k)%nat by lia. by rewrite <-!take_take, H. Qed.
Lemma drop_min {A} n k (l l' : list A) : (n <= k)%nat -> drop n l' = drop n l -> drop k l' = drop k l.
Proof.
  intros Hn H. replace k with (n + (k - n))%nat by lia. by rewrite <-!drop_drop, H.
Qed.
Lemma set_ids_buffer id r d d1 d2 : setId id d = Ret d1 -> setResponseTo r d1 = Ret d2 -> same_buffer d d2.
Proof.
  intros (H1 & T1 & D1)%write_at_outside (H2 & T2 & D2)%write_at_outside.
  rewrite zlen_le4 in D1, D2. change (Z.to_nat (8 + 4)) with 12%nat in D2. change (Z.to_nat (4 + 4)) with 8%nat in D1.
  change (Z.to_nat 8) with 8%nat in T2. change (Z.to_nat 4) with 4%nat in T1.
  split_and!; [congruence| |].
  - rewrite <-T1. by apply (take_min 4 8); [lia|].
  - rewrite D2. by apply (drop_min 8 12); [lia|].
Qed.

Section Returns.
Context (link : list bytes -> bytes -> bool).

Lemma set_ids_same r m s s' m' : set_ids r m s = (s', Ret m') -> same_but_ids m m'.
Proof.
  unfold set_ids. intros (s1 & id & [= <- <-] & H)%st_bind_Ret.
  apply st_bind_Ret in H as (? & m1 & [-> H1]%st_lift_Ret & [-> H2]%st_lift_Ret).
  unfold set_header in H1, H2. destruct m as [[d|] l fr]; cbn [msg_buf msg_data msg_freeIt] in *.
  - apply bind_Ret in H1 as (d1 & E1 & [= <-]). cbn [msg_buf msg_data] in H2.
    apply bind_Ret in H2 as (d2 & E2 & [= <-]). by apply (set_ids_buffer _ _ _ _ _ E1 E2).
  - destruct l as [|[d n] l]; [done|].
    apply bind_Ret in H1 as (d1 & E1 & [= <-]). cbn [msg_buf msg_data] in H2.
    apply bind_Ret in H2 as (d2 & E2 & [= <-]). cbn. split; [|done]. by apply (set_ids_buffer _ _ _ _ _ E1 E2).
Qed.
Lemma port_say_same m r s s' m' : port_say link m r s = (s', Ret m') -> same_but_ids m m'.
Proof.
  unfold port_say. intros H. apply st_bind_Ret in H as (? & ? & [-> _]%st_lift_Ret & H).
  apply st_bind_Ret in H as (s1 & m1 & Hi%set_ids_same & H).
  apply st_bind_Ret in H as (? & ? & [= <- <-] & H).
  destruct (0 <? piggy_len s1).
  - apply st_bind_Ret in H as (? & d & [-> Hd]%st_lift_Ret & H).
    apply st_bind_Ret in H as (? & n & [-> Hn]%st_lift_Ret & H).
    destruct (_ >? packet); apply st_bind_Ret in H as (? & ? & _ & H);
      apply st_bind_Ret in H as (? & ? & _ & [= _ <-]); done.
  - apply st_bind_Ret in H as (? & ? & _ & [= _ <-]); done.
Qed.
Lemma port_piggyBack_same m r s s' m' : port_piggyBack link m r s = (s', Ret m') -> same_but_ids m m'.
Proof.
  unfold port_piggyBack. intros H. apply st_bind_Ret in H as (? & d & [-> _]%st_lift_Ret & H).
  apply st_bind_Ret in H as (? & n & [-> _]%st_lift_Ret & H).
  destruct (n >? packet); [by apply port_say_same in H|].
  apply st_bind_Ret in H as (s1 & m1 & Hi%set_ids_same & H).
  apply st_bind_Ret in H as (? & ? & _ & H). apply st_bind_Ret in H as (? & ? & _ & H).
  by apply st_bind_Ret in H as (? & ? & _ & [= _ <-]).
Qed.

Context (Hlink : forall sent d, link sent d = true).
Lemma psock_send_returns d s : exists s', psock_send link d s = (s', Ret tt) /\ p_piggy s' = p_piggy s.
Proof. unfold psock_send. rewrite Hlink. by eexists. Qed.
Lemma piggy_flush_returns s : exists s', piggy_flush link s = (s', Ret tt).
Proof.
  unfold piggy_flush. rewrite (st_bind_run _ _ s s s) by done.
  destruct (_ =? 0); [by eexists|].
  destruct (psock_send_returns (default [] (p_piggy s)) s) as (s1 & E & _).
  rewrite (st_bind_run _ _ _ _ _ E). by eexists.
Qed.
Lemma write_at_returns d off src : 0 <= off -> off + zlen src <= zlen d -> is_Ret (write_at d off src).
Proof. intros H1 H2. unfold write_at. apply Z.leb_le in H1, H2. rewrite H1, H2. by eexists. Qed.
Lemma getLen_take d d' n : take 4 d' = take 4 d -> zlen d' = zlen d -> getLen d = Ret n -> getLen d' = Ret n.
Proof.
  unfold getLen, readLE. cbn [width int32]. change (Z.to_nat (32 / 8)) with 4%nat. change (Z.to_nat 0) with 0%nat.
  rewrite !drop_0. by intros -> ->.
Qed.
Lemma set_ids_returns r m s : whole m -> exists s' m', set_ids r m s = (s', Ret m') /\ whole m'.
Proof.
  intros (d & n & Hd & Hn & Hl). unfold set_ids.
  erewrite (st_bind_run nextMessageId) by reflexivity. unfold set_header. rewrite Hd.
  destruct (write_at_returns d 4 (le4 (p_nextMsgId s))) as [d1 E1]; [lia|rewrite zlen_le4; lia|].
  pose proof (write_at_outside _ _ _ _ E1) as (Z1 & _).
  destruct (write_at_returns d1 8 (le4 r)) as [d2 E2]; [lia|rewrite zlen_le4; lia|].
  destruct (set_ids_buffer _ _ _ _ _ E1 E2) as (Z2 & T2 & _).
  unfold setId. rewrite E1, ret_bind, st_bind_lift. cbn [msg_buf msg_data msg_freeIt].
  unfold setResponseTo. rewrite E2, ret_bind. eexists _, _. split; [reflexivity|].
  exists d2, n. cbn. split_and!; [done| |lia|lia]. by apply (getLen_take d).
Qed.
Lemma whole_sent m : whole m -> exists b, Message_sent m = Ret (Some b).
Proof.
  intros (d & n & Hd & Hn & Hl). unfold Message_sent. rewrite Hd, Hn, ret_bind.
  unfold read_bytes. destruct (_ && _) eqn:E; [|lia]. by eexists.
Qed.
Lemma whole_ne m : whole m -> Message_empty m = false.
Proof. intros (d & n & Hd & _). unfold Message_empty. by rewrite Hd. Qed.
Lemma whole_header m : whole m -> exists d n, Message_header m = Ret d /\ getLen d = Ret n /\
  singleData m = Ret d /\ is_Ret (read_bytes d 0 n).
Proof.
  intros (d & n & Hd & Hn & Hl). exists d, n. unfold Message_header, singleData. rewrite Hd.
  split_and!; try done. unfold read_bytes. destruct (_ && _) eqn:E; [|lia]. by eexists.
Qed.
Lemma Message_send_returns m s : whole m -> exists s', Message_send link m s = (s', Ret tt).
Proof.
  intros (b & Hb)%whole_sent. unfold Message_send. rewrite Hb, st_bind_lift.
  destruct (psock_send_returns b s) as (s' & E & _). by exists s'.
Qed.
Lemma piggy_append_returns m s d n : whole m -> Message_header m = Ret d -> getLen d = Ret n -> n <= packet ->
  exists s', piggy_append link m s = (s', Ret tt).
Proof.
  intros Hw Hd Hn Hle. destruct (whole_header m Hw) as (d' & n' & Hd' & Hn' & Hs & [src Hsrc]).
  assert (d' = d) as -> by congruence. assert (n' = n) as -> by congruence.
  unfold piggy_append. rewrite Hd, st_bind_lift, Hn, st_bind_lift.
  destruct (n <=? packet) eqn:E; [|lia]. cbn [verify guard_throw]. rewrite st_bind_lift.
  erewrite (st_bind_run st_get) by reflexivity.
  assert (exists s1, (if piggy_len s + n >? packet then piggy_flush link else mret tt) s = (s1, Ret tt)) as [s1 E1].
  { destruct (_ >? _); [apply piggy_flush_returns|by eexists]. }
  rewrite (st_bind_run _ _ _ _ _ E1), Hs, st_bind_lift, Hsrc, st_bind_lift. by eexists.
Qed.
Lemma port_say_returns m r s : whole m -> exists s' m', port_say link m r s = (s', Ret m').
Proof.
  intros Hw. unfold port_say. rewrite (whole_ne m Hw). cbn [negb verify guard_throw]. rewrite st_bind_lift.
  destruct (set_ids_returns r m s Hw) as (s1 & m1 & E1 & Hw1). rewrite (st_bind_run _ _ _ _ _ E1).
  erewrite (st_bind_run st_get) by reflexivity.
  destruct (0 <? piggy_len s1) eqn:E0.
  - destruct (whole_header m1 Hw1) as (d & n & Hd & Hn & _). rewrite Hd, st_bind_lift, Hn, st_bind_lift.
    destruct (piggy_len s1 + n >? packet) eqn:E.
    + destruct (piggy_flush_returns s1) as [s2 E2]. rewrite (st_bind_run _ _ _ _ _ E2).
      destruct (Message_send_returns m1 s2 Hw1) as [s3 E3]. rewrite (st_bind_run _ _ _ _ _ E3). by eexists _, _.
    + assert (n <= packet) as Hle by lia.
      destruct (piggy_append_returns m1 s1 d n Hw1 Hd Hn Hle) as [s2 E2]. rewrite (st_bind_run _ _ _ _ _ E2).
      destruct (piggy_flush_returns s2) as [s3 E3]. rewrite (st_bind_run _ _ _ _ _ E3). by eexists _, _.
  - destruct (Message_send_returns m1 s1 Hw1) as [s2 E2]. rewrite (st_bind_run _ _ _ _ _ E2). by eexists _, _.
Qed.
Lemma port_piggyBack_returns m r s : whole m -> exists s' m', port_piggyBack link m r s = (s', Ret m').
Proof.
  intros Hw. destruct (whole_header m Hw) as (d & n & Hd & Hn & _).
  unfold port_piggyBack. rewrite Hd, st_bind_lift, Hn, st_bind_lift.
  destruct (n >? packet) eqn:E; [by apply port_say_returns|].
  destruct (set_ids_returns r m s Hw) as (s1 & m1 & E1 & Hw1). rewrite (st_bind_run _ _ _ _ _ E1).
  erewrite (st_bind_run st_get) by reflexivity. erewrite (st_bind_run (st_update _)) by reflexivity.
  destruct (whole_header m1 Hw1) as (d1 & n1 & Hd1 & Hn1 & _).
  assert (n1 <= packet) as Hle.
  { pose proof (set_ids_same _ _ _ _ _ E1) as Hsame.
    destruct Hw as (d0 & n0 & Hb0 & Hn0 & _), Hw1 as (d2 & n2 & Hb2 & Hn2 & _).
    unfold Message_header in Hd, Hd1. rewrite Hb0 in Hd. rewrite Hb2 in Hd1.
    injection Hd as ->. injection Hd1 as ->. unfold same_but_ids in Hsame. rewrite Hb0, Hb2 in Hsame.
    destruct Hsame as (Hz & Ht & _). rewrite (getLen_take d d1 n Ht Hz Hn) in Hn1.
    injection Hn1 as <-. lia. }
  destruct (piggy_append_returns m1 (set_piggy (Some (default [] (p_piggy s1))) s1) d1 n1 Hw1 Hd1 Hn1 Hle) as [s2 E2].
  rewrite (st_bind_run _ _ _ _ _ E2). by eexists _, _.
Qed.
End Returns.

(** ** Property: what is said reaches the wire in order *)

(** A call of [say] or of [piggyBack]. *)
Inductive port_op := Say (m : Message) (responseTo : Z) | PiggyBack (m : Message) (responseTo : Z).
Definition op_message (o : port_op) : Message := match o with Say m _ | PiggyBack m _ => m end.
Definition run_op (link : list bytes -> bytes -> bool) (o : port_op) : ST MessagingPort Message :=
  match o with Say m r => port_say link m r | PiggyBack m r => port_piggyBack link m r end.
Fixpoint run_ops (link : list bytes -> bytes -> bool) (l : list port_op) : ST MessagingPort (list Message) :=
  match l with
  | [] => mret []
  | o :: l => m ← run_op link o; ms ← run_ops link l; mret (m :: ms)
  end.
Definition is_say (o : port_op) : bool := match o with Say _ _ => true | _ => false end.

Lemma run_op_Ret link o s s' m : run_op link o s = (s', Ret m) -> piggy_len s <= packet ->
  same_but_ids (op_message o) m /\ exists b, Message_sent m = Ret (Some b) /\
    wire s' = wire s ++ b /\ piggy_len s' <= packet /\ (is_say o = true -> default [] (p_piggy s') = []).
Proof.
  intros Ho Hp. destruct o as [m0 r|m0 r]; cbn [run_op op_message is_say] in *.
  - split; [by eapply port_say_same|]. destruct (port_say_Ret _ _ _ _ _ _ Ho Hp) as (b & Hb & Hw & Hnil).
    exists b. split_and!; [done|done| |done]. unfold piggy_len. by rewrite Hnil.
  - split; [by eapply port_piggyBack_same|].
    destruct (port_piggyBack_Ret _ _ _ _ _ _ Ho Hp) as (b & Hb & Hw & Hnil). by exists b.
Qed.
Lemma run_ops_Ret link l s s' ms : run_ops link l s = (s', Ret ms) -> piggy_len s <= packet ->
  Forall2 (fun o m => same_but_ids (op_message o) m) l ms /\
  (exists bs, Forall2 (fun m b => Message_sent m = Ret (Some b)) ms bs /\ wire s' = wire s ++ concat bs) /\
  piggy_len s' <= packet /\
  (is_say <$> last l = Some true -> wire s' = concat (p_outgoing s')).
Proof.
  revert s ms. induction l as [|o l IH]; intros s ms H Hp; cbn [run_ops] in H.
  { injection H as <- <-. split_and!; [constructor| |done|done]. exists []. by rewrite app_nil_r. }
  apply st_bind_Ret in H as (s1 & m & Ho & H). apply st_bind_Ret in H as (s2 & ms' & Hl & [= <- <-]).
  destruct (run_op_Ret _ _ _ _ _ Ho Hp) as (Hsame & b & Hb & Hw & Hp1 & Hlast).
  destruct (IH s1 _ Hl Hp1) as (Hsames & (bs & Hbs & Hws) & Hp2 & Hlasts).
  split_and!; [by constructor| |done|].
  - exists (b :: bs). split; [by constructor|]. rewrite Hws, Hw. cbn. by rewrite app_assoc.
  - destruct l as [|o' l]; [|done]. injection Hl as <- <-. cbn. intros [= Hs].
    unfold wire. by rewrite Hlast, app_nil_r.
Qed.
Lemma run_ops_returns link l s : (forall sent d, link sent d = true) ->
  Forall (fun o => whole (op_message o)) l -> exists s' ms, run_ops link l s = (s', Ret ms).
Proof.
  intros Hlink Hl. revert s. induction Hl as [|o l Ho Hl IH]; intros s; cbn [run_ops].
  { by eexists _, _. }
  assert (exists s1 m, run_op link o s = (s1, Ret m)) as (s1 & m & E).
  { destruct o; [by apply port_say_returns|by apply port_piggyBack_returns]. }
  rewrite (st_bind_run _ _ _ _ _ E). destruct (IH s1) as (s2 & ms & E2).
  rewrite (st_bind_run _ _ _ _ _ E2). by eexists _, _.
Qed.


(** ** What is received *)

Section Receive.
Context (link : list bytes -> bytes -> bool) (malloc : Z -> bytes).
Context (Hmalloc : forall n, 0 <= n -> zlen (malloc n) = n).
Implicit Types s : MessagingPort.

(** The header of a peer that asks for the byte order. *)
Definition endian_check (h : bytes) : Prop := zlen h = 16 /\ getLen h = Ret (-1).

Lemma round_up_1024 len : 16 <= len <= MaxMessageSizeBytes ->
  len <= wrap int32 (Z.land (len + 1023) 0xfffffc00).
Proof.
  intros H. change MaxMessageSizeBytes with 48000000 in H.
  change 0xfffffc00 with (Z.ldiff (Z.ones 32) (Z.ones 10)). rewrite Z.ldiff_land, Z.land_assoc, Z.land_ones by lia.
  rewrite Z.mod_small by lia. rewrite <-Z.ldiff_land, Z.ldiff_ones_r by lia.
  rewrite Z.shiftl_mul_pow2, Z.shiftr_div_pow2 by lia. change (2 ^ 10) with 1024.
  pose proof (Z.div_mod (len + 1023) 1024 ltac:(lia)) as Hd. pose proof (Z.mod_pos_bound (len + 1023) 1024 ltac:(lia)).
  rewrite wrap_id; [lia|done|]. unfold in_range. change (int_min int32) with (-2147483648).
  change (int_max int32) with 2147483647. lia.
Qed.

Lemma psock_recv_Ret n s : n <= zlen (p_incoming s) ->
  exists s', psock_recv n s = (s', Ret (take (Z.to_nat n) (p_incoming s))) /\
    p_incoming s' = drop (Z.to_nat n) (p_incoming s) /\ p_outgoing s' = p_outgoing s /\
    p_awaitingHandshake s' = p_awaitingHandshake s.
Proof. intros H%Z.leb_le. unfold psock_recv. rewrite H. by eexists. Qed.
Lemma psock_recv_short n s : zlen (p_incoming s) < n -> exists s', psock_recv n s = (s', Throw ESocket).
Proof. intros H. unfold psock_recv. destruct (n <=? _) eqn:E; [lia|]. by eexists. Qed.

Lemma write_at_run d off src : 0 <= off -> off + zlen src <= zlen d ->
  write_at d off src = Ret (take (Z.to_nat off) d ++ src ++ drop (Z.to_nat (off + zlen src)) d).
Proof. intros H1%Z.leb_le H2%Z.leb_le. unfold write_at. by rewrite H1, H2. Qed.
(** The buffer made of a header and the data that follows it. *)
Lemma frame_buffer z len header data :
  16 <= len <= z -> zlen header = 16 -> zlen data = len - 16 ->
  exists md, write_at (header ++ drop 16 (malloc z)) 16 data = Ret md /\
    zlen md = z /\ take (Z.to_nat len) md = header ++ data.
Proof.
  intros Hz Hh Hd. pose proof (Hmalloc z ltac:(lia)) as Hm.
  eexists.
  assert (zlen (header ++ drop 16 (malloc z)) = z) as H1.
  { rewrite zlen_app, Hh. unfold zlen in *. rewrite length_drop. lia. }
  assert (length header = 16%nat) as Hh' by (unfold zlen in *; lia).
  split; [apply write_at_run; lia|].
  change (Z.to_nat 16) with 16%nat. rewrite take_app_length' by done. rewrite app_assoc. split.
  - rewrite !zlen_app, Hh, Hd. unfold zlen in *. rewrite length_drop, length_app, length_drop. lia.
  - rewrite take_app_length'; [done|]. rewrite length_app. unfold zlen in *. lia.
Qed.

Lemma recv_handshake_run header s : zlen header = 16 ->
  recv_handshake header s = (s, Ret tt) \/
  recv_handshake header s = (s, Throw (EUassert 17133)) /\ p_awaitingHandshake s = true.
Proof.
  intros Hh. unfold recv_handshake. erewrite (st_bind_run st_get) by reflexivity.
  destruct (p_awaitingHandshake s); [|by left].
  destruct (readLE_defined int32 header 8) as [r ->]; [lia|change (8 + 4 <= zlen header); lia|]. rewrite st_bind_lift.
  destruct ((r =? 0) || (r =? -1)); [by left|by right].
Qed.
Lemma recv_handshake_passes header s : p_awaitingHandshake s = false \/ readLE int32 header 8 = Ret 0 ->
  recv_handshake header s = (s, Ret tt).
Proof.
  unfold recv_handshake. erewrite (st_bind_run st_get) by reflexivity. intros [->|H]; [done|].
  destruct (p_awaitingHandshake s); [|done]. by rewrite H.
Qed.
Lemma recv_data_run header len s : zlen header = 16 -> 16 <= len <= MaxMessageSizeBytes ->
  if len - 16 <=? zlen (p_incoming s) then
    exists s' md, recv_data malloc header len s = (s', Ret md) /\ len <= zlen md /\
      take (Z.to_nat len) md = header ++ take (Z.to_nat (len - 16)) (p_incoming s) /\
      p_incoming s' = drop (Z.to_nat (len - 16)) (p_incoming s) /\ p_outgoing s' = p_outgoing s /\
      p_awaitingHandshake s' = false
  else exists s', recv_data malloc header len s = (s', Throw ESocket).
Proof.
  intros Hh Hb. unfold recv_data. erewrite (st_bind_run (st_update _)) by reflexivity.
  pose proof (round_up_1024 len Hb) as Hz. set (z := wrap int32 (Z.land (len + 1023) 4294966272)) in *.
  apply Z.leb_le in Hz as Hz'. rewrite Hz'. cbn [verify guard_throw]. rewrite st_bind_lift.
  rewrite write_at_run by (rewrite ?Hh, ?Hmalloc; lia). rewrite st_bind_lift, Hh.
  change (Z.to_nat 0) with 0%nat. change (Z.to_nat (0 + 16)) with 16%nat. rewrite take_0, app_nil_l.
  destruct (len - 16 <=? zlen (p_incoming s)) eqn:E.
  - destruct (psock_recv_Ret (len - 16) (setHandshakeReceived s)) as (s2 & E2 & Hi2 & Ho2 & Hh2); [cbn; lia|].
    rewrite (st_bind_run _ _ _ _ _ E2). cbn [setHandshakeReceived p_incoming p_outgoing p_awaitingHandshake] in *.
    destruct (frame_buffer z len header (take (Z.to_nat (len - 16)) (p_incoming s)))
      as (md & Hmd & Hzl & Htake); [lia|done|unfold zlen in *; rewrite length_take; lia|].
    rewrite Hmd.
    exists s2, md. split; [done|]. split_and!; [lia|done|done|done|done].
  - destruct (psock_recv_short (len - 16) (setHandshakeReceived s)) as [s2 E2]; [cbn; lia|].
    rewrite (st_bind_throw _ _ _ _ _ E2). by eexists.
Qed.

(** ** Property: what [recv] makes of arbitrary bytes *)

Lemma split_header s : 16 <= zlen (p_incoming s) ->
  zlen (take 16 (p_incoming s)) = 16 /\ p_incoming s = take 16 (p_incoming s) ++ drop 16 (p_incoming s).
Proof. intros H. rewrite take_drop. unfold zlen in *. rewrite length_take. split; [lia|done]. Qed.
Lemma getLen_16 h b : zlen h = 16 -> getLen (h ++ b) = getLen h.
Proof.
  intros H. unfold getLen, readLE. cbv zeta. rewrite zlen_app, H. pose proof (zlen_nonneg b).
  change (width int32 / 8) with 4. change (Z.to_nat 0) with 0%nat. rewrite !drop_0.
  destruct ((0 <=? 0) && (0 + 4 <=? 16 + zlen b)) eqn:E; [|lia].
  rewrite take_app_le; [done|]. unfold zlen in *. change (Z.to_nat 4) with 4%nat. lia.
Qed.

Lemma readLE_range t d p z : 0 < width t -> readLE t d p = Ret z -> in_range t z.
Proof.
  intros Hw. unfold readLE. cbv zeta. destruct (_ && _); [|done]. intros [= <-]. by apply wrap_range.
Qed.
Lemma size_bounds len : in_range int32 len ->
  (size_wrap len <? 16) || (MaxMessageSizeBytes <? size_wrap len) = false -> 16 <= len <= MaxMessageSizeBytes.
Proof.
  unfold in_range, size_wrap. change (int_min int32) with (-2147483648). change (int_max int32) with 2147483647.
  change MaxMessageSizeBytes with 48000000. change (2 ^ 64) with 18446744073709551616.
  intros H E. destruct (decide (0 <= len)) as [H0|H0].
  - rewrite Z.mod_small in E by lia. lia.
  - rewrite <-(Z.mod_add len 1 18446744073709551616), Z.mod_small in E by lia. lia.
Qed.

(** A message has been taken from [s], leaving [s'], after headers that asked for
    the byte order and were answered. *)
Definition taken s (md : bytes) s' : Prop := exists checks n,
  received md n /\ Forall endian_check checks /\
  p_incoming s = concat checks ++ take (Z.to_nat n) md ++ p_incoming s' /\
  p_outgoing s' = p_outgoing s ++ replicate (length checks) (le4 0x10203040) /\
  p_awaitingHandshake s' = false.

Lemma psock_send_run d s :
  psock_send link d s =
    (mkPort (p_incoming s) (p_outgoing s ++ [d]) (p_awaitingHandshake s) (p_piggy s) (p_nextMsgId s), Ret tt) \/
  psock_send link d s = (s, Throw ESocket).
Proof. unfold psock_send. destruct (link _ _); [by left|by right]. Qed.
Lemma recv_body_spec fuel s : (length (p_incoming s) < fuel)%nat ->
  exists s' r, recv_body link malloc fuel s = (s', r) /\
    match r with
    | Ret (Some md) => taken s md s'
    | Ret None => True
    | Throw e => e = ESocket \/ e = EUassert 17133 /\ p_awaitingHandshake s = true
    end.
Proof.
  revert s. induction fuel as [|fuel IH]; intros s Hf; [lia|]. cbn [recv_body].
  destruct (decide (zlen (p_incoming s) < 16)) as [Hs|Hs].
  { destruct (psock_recv_short 16 s) as [s1 E1]; [lia|]. rewrite (st_bind_throw _ _ _ _ _ E1).
    eexists _, _. split; [done|by left]. }
  destruct (psock_recv_Ret 16 s) as (s1 & E1 & Hi1 & Ho1 & Hh1); [lia|]. rewrite (st_bind_run _ _ _ _ _ E1).
  change (Z.to_nat 16) with 16%nat in *. destruct (split_header s ltac:(lia)) as [H16 Hsplit].
  set (header := take 16 (p_incoming s)) in *. rewrite <-Hi1 in Hsplit.
  destruct (readLE_defined int32 header 0) as [len Hlen]; [lia|change (0 + 4 <= zlen header); lia|].
  unfold getLen. rewrite Hlen, st_bind_lift.
  destruct (len =? 542393671) eqn:Eh.
  { destruct (psock_send_run http_answer s1) as [E|E].
    - rewrite (st_bind_run _ _ _ _ _ E). by eexists _, _.
    - rewrite (st_bind_throw _ _ _ _ _ E). eexists _, _. split; [done|by left]. }
  destruct (len =? -1) eqn:Ec.
  { destruct (psock_send_run (le4 0x10203040) s1) as [E|E].
    - rewrite (st_bind_run _ _ _ _ _ E). erewrite (st_bind_run (st_update _)) by reflexivity.
      match goal with |- context [recv_body _ _ _ ?s] => set (s2 := s) end.
      destruct (IH s2) as (s' & r & -> & Hr).
      { cbn. apply (f_equal length) in Hsplit. rewrite length_app in Hsplit. unfold zlen in *. lia. }
      eexists _, _. split; [done|]. destruct r as [[md|]|e]; [|done|].
      + destruct Hr as (checks & n & Hrec & Hck & Hin & Hout & Hhs). cbn in Hin, Hout.
        exists (header :: checks), n. split_and!; [done| | | |done].
        * constructor; [|done]. split; [done|]. unfold getLen. rewrite Hlen. f_equal. lia.
        * rewrite Hsplit, Hin. cbn. by rewrite <-!app_assoc.
        * rewrite Hout, Ho1. cbn. by rewrite <-app_assoc.
      + destruct Hr as [?|[_ [=]]]. by left.
    - rewrite (st_bind_throw _ _ _ _ _ E). eexists _, _. split; [done|by left]. }
  destruct (recv_handshake_run header s1 H16) as [E2|[E2 Ha]].
  2: { rewrite (st_bind_throw _ _ _ _ _ E2). eexists _, _. split; [done|]. right. split; [done|]. by rewrite <-Hh1. }
  rewrite (st_bind_run _ _ _ _ _ E2).
  destruct (_ || _) eqn:Eb; [by eexists _, _|].
  pose proof (readLE_range _ _ _ _ (eq_refl : 0 < width int32) Hlen) as Hr.
  assert (16 <= len <= MaxMessageSizeBytes) as Hb by (by apply size_bounds).
  pose proof (recv_data_run header len s1 H16 Hb) as Hd. destruct (len - 16 <=? _).
  - destruct Hd as (s2 & md & E3 & Hz & Ht & Hi2 & Ho2 & Hh2). rewrite (st_bind_run _ _ _ _ _ E3).
    eexists _, _. split; [done|]. exists [], len. change MaxMessageSizeBytes with 48000000 in Hb.
    split; [|split; [done|split; [|split; [|done]]]].
    + split; [|change (48 * 1000 * 1000) with 48000000; lia]. rewrite <-(take_drop (Z.to_nat len) md), Ht, <-app_assoc. by rewrite getLen_16.
    + cbn. by rewrite Ht, Hi2, <-app_assoc, take_drop.
    + cbn. by rewrite app_nil_r, Ho2.
  - destruct Hd as (s2 & E3). rewrite (st_bind_throw _ _ _ _ _ E3). eexists _, _. split; [done|by left].
Qed.
End Receive.

(** The buffer of [piggyBack] only delays.  When calls of [say] and
    [piggyBack] return, what the socket has taken and what is kept back are, in
    the order of the calls, every message once, unchanged but for its ids; at
    most a packet is kept back, and nothing after a [say].  With a socket that
    takes everything the calls do return. *)
Theorem port_in_order link l s :
  piggy_len s <= packet ->
  (forall s' ms, run_ops link l s = (s', Ret ms) ->
    Forall2 (fun o m => same_but_ids (op_message o) m) l ms /\
    (exists bs, Forall2 (fun m b => Message_sent m = Ret (Some b)) ms bs /\ wire s' = wire s ++ concat bs) /\
    piggy_len s' <= packet /\
    (is_say <$> last l = Some true -> wire s' = concat (p_outgoing s'))) /\
  ((forall sent d, link sent d = true) -> Forall (fun o => whole (op_message o)) l ->
    exists s' ms, run_ops link l s = (s', Ret ms)).
Proof.
  intros Hp. split; [intros s' ms H; by apply (run_ops_Ret link)|apply run_ops_returns].
Qed.
Lemma port_in_order_witness :
  let m := Message_of (message_bytes (le8 0) dbKillCursors (le4 0 ++ le4 1 ++ le8 9)) true in
  let q := Message_of (message_bytes (le8 0) dbGetMore (le4 0 ++ B "db.c" ++ [nul] ++ le4 0 ++ le8 9)) true in
  let s := mkPort [] [] false None 7 in
  (exists s' ms, run_ops (fun _ _ => true) [PiggyBack m 0; PiggyBack m 0; Say q 0] s = (s', Ret ms) /\
    zlen (p_outgoing s') = 1 /\ wire s' = concat (p_outgoing s')).
Proof.
  intros m q s. destruct (port_in_order (fun _ _ => true) [PiggyBack m 0; PiggyBack m 0; Say q 0] s) as [H1 H2].
  { by vm_compute. }
  destruct H2 as (s' & ms & E); [done| |].
  { repeat constructor; eexists _, _; (split; [reflexivity|split; [by vm_compute|by vm_compute]]). }
  exists s', ms. split; [exact E|]. destruct (H1 _ _ E) as (_ & _ & _ & Hl). split; [|by apply Hl].
  vm_compute in E. injection E as <- _. reflexivity.
Defined.

(** C26: whatever bytes arrive, [recv] ends, and without reading or writing outside
    its buffer.  A message it returns is, in a buffer that has room for it, the
    bytes that came after any questions for the byte order, each of which has
    been answered; nothing beyond it has been read.  It throws only when a
    handshake is expected, and the header is not one of a first message. *)
Theorem port_recv_safe link malloc m s :
  (forall n, 0 <= n -> zlen (malloc n) = n) -> Message_empty m = true ->
  exists s' r, port_recv link malloc m s = (s', r) /\
    match r with
    | Ret (m', true) => exists md, msg_buf m' = Some md /\ taken s md s'
    | Ret (m', false) => Message_empty m' = true
    | Throw e => e = EUassert 17133 /\ p_awaitingHandshake s = true
    end.
Proof.
  intros Hmalloc Hm. unfold port_recv.
  destruct (recv_body_spec link malloc Hmalloc (S (length (p_incoming s))) s) as (s' & r & -> & Hr); [lia|].
  destruct r as [[md|]|e].
  - unfold Message_setData. rewrite Hm. cbn [verify guard_throw]. rewrite ret_bind.
    eexists _, _. split; [done|]. exists md. by split.
  - eexists _, _. by split.
  - destruct Hr as [->|[-> Ha]]; eexists _, _; by split.
Qed.
Lemma port_recv_safe_witness :
  let s := mkPort (message_bytes [] 0 [] ++ [chr 1; chr 2]) [] false None 0 in
  Message_empty Message_ctor = true /\
  exists s' r, port_recv (fun _ _ => true) (fun n => replicate (Z.to_nat n) nul) Message_ctor s = (s', r) /\
    match r with
    | Ret (m', true) => exists md, msg_buf m' = Some md /\ taken s md s'
    | Ret (m', false) => Message_empty m' = true
    | Throw e => e = EUassert 17133 /\ p_awaitingHandshake s = true
    end.
Proof.
  intros s. split; [reflexivity|]. apply port_recv_safe; [|reflexivity].
  intros n Hn. unfold zlen. rewrite length_replicate. lia.
Defined.

(** ** Property: one port receives what another one says *)

Fixpoint recv_all (link : list bytes -> bytes -> bool) (malloc : Z -> bytes) (n : nat) :
    ST MessagingPort (list (Message * bool)) :=
  match n with
  | O => mret []
  | S n => r ← port_recv link malloc Message_ctor; rs ← recv_all link malloc n; mret (r :: rs)
  end.

(** A message in one buffer that the other side accepts. *)
Definition acceptable (m : Message) : Prop :=
  exists d n, msg_buf m = Some d /\ getLen d = Ret n /\ 16 <= n <= zlen d /\ n <= MaxMessageSizeBytes.

(** The length is read from the first four bytes. *)
Lemma getLen_prefix b d n : take 4 d = take 4 b -> 4 <= zlen d -> getLen b = Ret n -> 4 <= zlen b -> getLen d = Ret n.
Proof.
  intros Ht Hd. unfold getLen, readLE. cbv zeta. change (width int32 / 8) with 4. intros H Hb. revert H.
  destruct ((0 <=? 0) && (0 + 4 <=? zlen b)) eqn:E1; [|lia].
  destruct ((0 <=? 0) && (0 + 4 <=? zlen d)) eqn:E2; [|lia].
  change (Z.to_nat 0) with 0%nat. change (Z.to_nat 4) with 4%nat. by rewrite !drop_0, Ht.
Qed.

Section Arrive.
Context (link : list bytes -> bytes -> bool) (malloc : Z -> bytes).
Context (Hmalloc : forall n, 0 <= n -> zlen (malloc n) = n).

Lemma recv_one b rest s : p_incoming s = b ++ rest -> getLen b = Ret (zlen b) ->
  16 <= zlen b <= MaxMessageSizeBytes -> p_awaitingHandshake s = false ->
  exists s' m, port_recv link malloc Message_ctor s = (s', Ret (m, true)) /\
    Message_sent m = Ret (Some b) /\ p_incoming s' = rest /\ p_awaitingHandshake s' = false.
Proof.
  intros Hin Hlen Hb Ha. unfold port_recv. cbn [recv_body].
  assert (zlen (p_incoming s) = zlen b + zlen rest) as Hz by (by rewrite Hin, zlen_app).
  pose proof (zlen_nonneg rest). change MaxMessageSizeBytes with 48000000 in Hb.
  destruct (psock_recv_Ret 16 s) as (s1 & E1 & Hi1 & Ho1 & Hh1); [lia|].
  rewrite (st_bind_run _ _ _ _ _ E1). change (Z.to_nat 16) with 16%nat in *.
  destruct (split_header s ltac:(lia)) as [H16 Hsplit].
  assert (getLen (take 16 (p_incoming s)) = Ret (zlen b)) as ->.
  { rewrite <-Hlen, <-(getLen_16 _ (drop 16 b)) by done. f_equal. rewrite Hin.
    rewrite take_app_le by (unfold zlen in *; lia). by rewrite take_drop. }
  rewrite st_bind_lift. destruct (zlen b =? 542393671) eqn:?; [lia|]. destruct (zlen b =? -1) eqn:?; [lia|].
  erewrite st_bind_run by (apply recv_handshake_passes; left; congruence).
  assert (size_wrap (zlen b) = zlen b) as -> by (unfold size_wrap; rewrite Z.mod_small; lia).
  destruct (_ || _) eqn:Eb; [change MaxMessageSizeBytes with 48000000 in Eb; lia|].
  pose proof (recv_data_run malloc Hmalloc _ (zlen b) s1 H16 Hb) as Hd.
  assert (zlen (p_incoming s1) = zlen b + zlen rest - 16) as Hz1.
  { rewrite Hi1. unfold zlen in *. rewrite length_drop. lia. }
  destruct (_ <=? _) eqn:E in Hd; [|lia]. destruct Hd as (s2 & md & E2 & Hl & Ht & Hi2 & Ho2 & Hh2).
  rewrite (st_bind_run _ _ _ _ _ E2). eexists _, _. split; [done|].
  assert (take (length b) md = b) as Htb.
  { unfold zlen in Ht. rewrite Nat2Z.id in Ht. rewrite Ht, Hi1, Hin.
    replace (Z.to_nat (Z.of_nat (length b) - 16)) with (length b - 16)%nat by lia.
    rewrite take_take_drop. replace (16 + (length b - 16))%nat with (length b) by (unfold zlen in *; lia).
    by rewrite take_app_length. }
  split_and!; [| |done].
  - unfold Message_sent. cbn [msg_buf Message_setData_].
    assert (getLen md = Ret (zlen b)) as ->.
    { apply (getLen_prefix b); [|lia|done|lia].
      rewrite <-Htb, take_take. f_equal. unfold zlen in *. lia. }
    rewrite ret_bind. unfold read_bytes. destruct (_ && _) eqn:?; [|lia]. rewrite ret_bind.
    change (Z.to_nat 0) with 0%nat. rewrite drop_0. unfold zlen. by rewrite Nat2Z.id, Htb.
  - rewrite Hi2, Hi1, drop_drop, Hin. rewrite drop_app_length'; [done|]. unfold zlen in *. lia.
Qed.
Lemma recv_many bs s : p_incoming s = concat bs -> p_awaitingHandshake s = false ->
  Forall (fun b => getLen b = Ret (zlen b) /\ 16 <= zlen b <= MaxMessageSizeBytes) bs ->
  exists s' rs, recv_all link malloc (length bs) s = (s', Ret rs) /\
    Forall2 (fun b r => Message_sent r.1 = Ret (Some b) /\ r.2 = true) bs rs /\ p_incoming s' = [].
Proof.
  intros Hin Ha Hbs. revert s Hin Ha. induction Hbs as [|b bs [Hb1 Hb2] Hbs IH]; intros s Hin Ha; cbn [length recv_all].
  { eexists _, _. by split. }
  destruct (recv_one b (concat bs) s Hin Hb1 Hb2 Ha) as (s1 & m & E & Hs & Hin1 & Ha1).
  rewrite (st_bind_run _ _ _ _ _ E). destruct (IH s1 Hin1 Ha1) as (s2 & rs & E2 & Hr & Hin2).
  rewrite (st_bind_run _ _ _ _ _ E2). eexists _, _. split; [done|]. split; [by constructor|done].
Qed.
Lemma acceptable_sent m m' b : acceptable m -> same_but_ids m m' -> Message_sent m' = Ret (Some b) ->
  getLen b = Ret (zlen b) /\ 16 <= zlen b <= MaxMessageSizeBytes.
Proof.
  intros (d & n & Hd & Hn & Hl & Hmax) Hsame Hs. unfold same_but_ids in Hsame. rewrite Hd in Hsame.
  destruct (msg_buf m') as [d'|] eqn:Hd'; [|done]. destruct Hsame as (Hz & Ht & _).
  assert (getLen d' = Ret n) as Hn' by (by apply (getLen_take d)).
  unfold Message_sent in Hs. rewrite Hd', Hn', ret_bind in Hs. unfold read_bytes in Hs.
  destruct (_ && _); [|done]. rewrite ret_bind in Hs. injection Hs as <-.
  change (Z.to_nat 0) with 0%nat. rewrite drop_0.
  assert (zlen (take (Z.to_nat n) d') = n) as E by (unfold zlen in *; rewrite length_take; lia).
  rewrite E. split; [|lia]. apply (getLen_prefix d'); [|lia|done|lia].
  rewrite take_take. f_equal. lia.
Qed.
End Arrive.

(** C27: messages said or kept back by one port, the last one said, arrive at a
    port that receives the bytes as they come: one for each call, in order, the
    message but for its ids; and nothing is left. *)
Theorem port_messages_arrive link malloc l a a' ms b :
  (forall n, 0 <= n -> zlen (malloc n) = n) ->
  p_outgoing a = [] -> default [] (p_piggy a) = [] ->
  Forall (fun o => acceptable (op_message o)) l -> is_say <$> last l = Some true ->
  run_ops link l a = (a', Ret ms) ->
  p_incoming b = concat (p_outgoing a') -> p_awaitingHandshake b = false ->
  exists b' rs, recv_all link malloc (length l) b = (b', Ret rs) /\
    Forall2 (fun o m => same_but_ids (op_message o) m) l ms /\
    Forall2 (fun m r => Message_sent r.1 = Message_sent m /\ r.2 = true) ms rs /\ p_incoming b' = [].
Proof.
  intros Hmalloc Hout Hpig Hacc Hlast H Hin Ha.
  destruct (run_ops_Ret link l a a' ms H) as (Hsame & (bs & Hbs & Hw) & _ & Hall).
  { unfold piggy_len. by rewrite Hpig. }
  rewrite Hall in Hw by done. unfold wire in Hw. rewrite Hout, Hpig in Hw. cbn in Hw. rewrite <-Hin in Hw.
  destruct (recv_many link malloc Hmalloc bs b Hw Ha) as (b' & rs & Hr & Hrs & Hin').
  { clear -Hacc Hsame Hbs. revert ms bs Hsame Hbs. induction Hacc as [|o l Ho Hl IH]; intros ms bs Hsame Hbs.
    - inversion Hsame; subst. inversion Hbs; subst. constructor.
    - inversion Hsame; subst. inversion Hbs; subst. constructor; [by eapply acceptable_sent|by eapply IH]. }
  assert (length l = length bs) as -> by (apply Forall2_length in Hsame, Hbs; congruence).
  exists b', rs. split_and!; [done|done| |done].
  clear -Hbs Hrs. revert rs Hrs. induction Hbs as [|m b ms bs Hb Hbs IH]; intros rs Hrs.
  - inversion Hrs; subst. constructor.
  - inversion Hrs as [|? r ? rs' [Hr1 Hr2] Hrs']; subst. constructor; [|by apply IH]. by rewrite Hr1, Hb.
Qed.
Lemma port_messages_arrive_witness :
  let m := Message_of (message_bytes (le8 0) dbKillCursors (le4 0 ++ le4 1 ++ le8 9)) true in
  let l := [PiggyBack m 0; PiggyBack m 0; Say m 0] in
  let r := run_ops (fun _ _ => true) l (mkPort [] [] false None 7) in
  exists ms b' rs, r.2 = Ret ms /\
    recv_all (fun _ _ => true) (fun n => replicate (Z.to_nat n) nul) 3 (mkPort (concat (p_outgoing r.1)) [] false None 7) = (b', Ret rs) /\
    Forall2 (fun m r => Message_sent r.1 = Message_sent m /\ r.2 = true) ms rs.
Proof.
  intros m l r.
  assert (exists ms, r = (r.1, Ret ms)) as [ms E] by (eexists; vm_compute; reflexivity).
  exists ms. destruct (port_messages_arrive (fun _ _ => true) (fun n => replicate (Z.to_nat n) nul) l
    (mkPort [] [] false None 7) r.1 ms (mkPort (concat (p_outgoing r.1)) [] false None 7)) as (b' & rs & H & _ & Hrs & _).
  - intros n Hn. unfold zlen. rewrite length_replicate. lia.
  - reflexivity.
  - reflexivity.
  - assert (acceptable m) as Hm.
    { exists (message_bytes (le8 0) dbKillCursors (le4 0 ++ le4 1 ++ le8 9)), 32. split_and!; [reflexivity|reflexivity|vm_compute; discriminate..]. }
    apply Forall_cons_2; [exact Hm|]. apply Forall_cons_2; [exact Hm|]. apply Forall_cons_2; [exact Hm|constructor].
  - reflexivity.
  - exact E.
  - reflexivity.
  - reflexivity.
  - exists b', rs. split; [by rewrite E|]. split; [exact H|exact Hrs].
Defined.

(** [piggyBack] of a message that is too long for its packet forgets which message
    it answers. *)
Lemma piggyBack_forgets_responseTo link m r s d n :
  Message_header m = Ret d -> getLen d = Ret n -> packet < n ->
  port_piggyBack link m r s = port_say link m 0 s.
Proof.
  intros Hd Hn Hlt. unfold port_piggyBack. rewrite Hd, st_bind_lift, Hn, st_bind_lift.
  destruct (n >? packet) eqn:E; [done|]. lia.
Qed.
