(* ===== verification/Socket.v ===== *)
(** * Sockets: util/net/sock.h, util/net/sock.cpp

    A socket over the system calls, which are the class [Kernel]; its laws are what POSIX
    says of them: a call transmits as much as it likes of what it is given, but something.
    Built without SSL; the fail points are part of the kernel.  [_timeout] is compared with 0
    only. *)
From S2P Require Import Prelude StringData Message MessagePort.
Local Open Scope Z_scope.

Inductive SocketException_Type := CLOSED | RECV_ERROR | SEND_ERROR | RECV_TIMEOUT | SEND_TIMEOUT | FAILED_STATE | CONNECT_ERROR.
(** What a function of a socket throws: a [SocketException]; [fassert]; and the end of the
    turns that were allowed for. *)
Inductive sock_exn := SocketException (t : SocketException_Type) | Fassert (code : Z) | NoTurns | BadPointer.
Inductive errno := EINTR | EAGAIN | ENETUNREACH | EOTHER (code : Z).
Global Instance errno_eq_dec : EqDecision errno.
Proof. solve_decision. Defined.
(** What [poll] reports of one descriptor. *)
Inductive poll_answer := NoEvents | PollFailed | PollEvents (revents : Z).
Inductive connect_answer := Connected | ConnectFailed (e : errno) | ConnectTimedOut.

Class Kernel (K : Type) := {
  throwSockExcep : K -> K * bool;
  notStillConnected : K -> K * bool;
  sys_send : bytes -> K -> K * (errno + Z);
  sys_sendmsg : list bytes -> K -> K * (errno + Z);
  sys_recv : Z -> K -> K * (errno + bytes);
  sys_poll : K -> K * poll_answer;
  sys_time : K -> K * Z;
  sys_socket : K -> K * option Z;
  (** [ConnectBG], for at most so many milliseconds. *)
  sys_connect : Z -> K -> K * connect_answer;
  sys_close : K -> K }.

Record Socket (K : Type) := mkSocket {
  _fd : Z; _timeout : Z; _bytesIn : Z; _bytesOut : Z; _lastValidityCheckAtSecs : Z; _awaitingHandshake : bool; kernel : K }.
Arguments mkSocket {K}. Arguments _fd {K}. Arguments _timeout {K}. Arguments _bytesIn {K}. Arguments _bytesOut {K}.
Arguments _lastValidityCheckAtSecs {K}. Arguments _awaitingHandshake {K}. Arguments kernel {K}.

Section Socket.
Context {K : Type} `{Kernel K}.
Implicit Types s : Socket K.
Definition set_kernel (k : K) s := mkSocket (_fd s) (_timeout s) (_bytesIn s) (_bytesOut s) (_lastValidityCheckAtSecs s) (_awaitingHandshake s) k.
Definition set_fd (fd : Z) s := mkSocket fd (_timeout s) (_bytesIn s) (_bytesOut s) (_lastValidityCheckAtSecs s) (_awaitingHandshake s) (kernel s).
Definition add_in (n : Z) s := mkSocket (_fd s) (_timeout s) (_bytesIn s + n) (_bytesOut s) (_lastValidityCheckAtSecs s) (_awaitingHandshake s) (kernel s).
Definition add_out (n : Z) s := mkSocket (_fd s) (_timeout s) (_bytesIn s) (_bytesOut s + n) (_lastValidityCheckAtSecs s) (_awaitingHandshake s) (kernel s).
Definition set_check (t : Z) s := mkSocket (_fd s) (_timeout s) (_bytesIn s) (_bytesOut s) t (_awaitingHandshake s) (kernel s).
Definition set_connected s := mkSocket (_fd s) (_timeout s) (_bytesIn s) (_bytesOut s) (_lastValidityCheckAtSecs s) false (kernel s).
Definition clearCounters s := mkSocket (_fd s) (_timeout s) 0 0 (_lastValidityCheckAtSecs s) (_awaitingHandshake s) (kernel s).
Definition on_kernel {A} (f : K -> K * A) s : Socket K * A := let '(k, a) := f (kernel s) in (set_kernel k s, a).
Definition Socket_ctor (timeout : Z) (k : K) : Socket K := let '(k, t) := sys_time k in mkSocket (-1) timeout 0 0 t true k.

(** ** Errors *)

Definition handleSendError (e : errno) s : sock_exn :=
  SocketException (if bool_decide (e = EAGAIN) && negb (_timeout s =? 0) then SEND_TIMEOUT else SEND_ERROR).
(** [None]: try again. *)
Definition handleRecvError (ret : Z) (e : errno) s : option sock_exn :=
  if ret =? 0 then Some (SocketException CLOSED)
  else if bool_decide (e = EINTR) then None
  else Some (SocketException (if bool_decide (e = EAGAIN) && (0 <? _timeout s) then RECV_TIMEOUT else RECV_ERROR)).

(** ** Sending *)

Definition Socket__send (data : bytes) s : Socket K * result sock_exn Z :=
  let '(s, ret) := on_kernel (sys_send data) s in
  match ret with inl e => (s, Throw (handleSendError e s)) | inr n => (s, Ret n) end.
Fixpoint Socket_send (fuel : nat) (data : bytes) s : Socket K * result sock_exn unit :=
  if bool_decide (data = []) then (s, Ret tt)
  else match fuel with
  | O => (s, Throw NoTurns)
  | S fuel =>
      let '(s, fail) := on_kernel throwSockExcep s in
      if (fail : bool) then (s, Throw (handleSendError ENETUNREACH s))
      else
        let '(s, ret) := Socket__send data s in
        match ret with
        | Throw e => (s, Throw e)
        | Ret n =>
            let s := add_out n s in
            if n <=? zlen data then Socket_send fuel (drop (Z.to_nat n) data) s else (s, Throw (Fassert 16507))
        end
  end.
(** The vector for [sendmsg]: the pieces that are not empty, and as many empty places as
    there are pieces left out; all pieces are counted as sent. *)
Definition make_iovec (data : list bytes) : list bytes :=
  let d := List.filter (fun p => 0 <? zlen p) data in d ++ replicate (length data - length d) [].
(** The pointer goes over what has been sent; past the vector it points at nothing. *)
Fixpoint consume_iovec (iov : list bytes) (ret : Z) : option (list bytes) :=
  if ret <=? 0 then Some iov
  else match iov with
  | [] => None
  | p :: iov => if ret <? zlen p then Some (drop (Z.to_nat ret) p :: iov) else consume_iovec iov (ret - zlen p)
  end.
Fixpoint sendmsg_loop (fuel : nat) (iov : list bytes) s : Socket K * result sock_exn unit :=
  match iov, fuel with
  | [], _ => (s, Ret tt)
  | _, O => (s, Throw NoTurns)
  | _, S fuel =>
      let '(s, fail) := on_kernel throwSockExcep s in
      let '(s, ret) := if (fail : bool) then (s, inl ENETUNREACH) else on_kernel (sys_sendmsg iov) s in
      match ret with
      | inl e => (s, Throw (SocketException (if negb (bool_decide (e = EAGAIN)) || (_timeout s =? 0) then SEND_ERROR else SEND_TIMEOUT)))
      | inr n => match consume_iovec iov n with None => (s, Throw BadPointer) | Some iov => sendmsg_loop fuel iov s end
      end
  end.
Definition Socket_send_vector (fuel : nat) (data : list bytes) s : Socket K * result sock_exn unit :=
  sendmsg_loop fuel (make_iovec data) (add_out (zlen (concat data)) s).

(** ** Receiving *)

Definition Socket__recv (max : Z) s : Socket K * result sock_exn bytes :=
  let '(s, ret) := on_kernel (sys_recv max) s in
  match ret with
  | inr [] => (s, match handleRecvError 0 (EOTHER 0) s with Some e => Throw e | None => Ret [] end)
  | inr b => (s, Ret b)
  | inl e => (s, match handleRecvError (-1) e s with Some e => Throw e | None => Ret [] end)
  end.
Definition unsafe_recv (max : Z) s : Socket K * result sock_exn bytes :=
  let '(s, r) := Socket__recv max s in
  match r with Ret b => (add_in (zlen b) s, Ret b) | Throw e => (s, Throw e) end.
(** The bytes received: what the code writes behind [buf]. *)
Fixpoint Socket_recv (fuel : nat) (len : Z) s : Socket K * result sock_exn bytes :=
  if len <=? 0 then (s, Ret [])
  else match fuel with
  | O => (s, Throw NoTurns)
  | S fuel =>
      let '(s, fail) := on_kernel throwSockExcep s in
      if (fail : bool) then
        match handleRecvError (-1) ENETUNREACH s with Some e => (s, Throw e) | None => Socket_recv fuel len s end
      else
        let '(s, r) := unsafe_recv len s in
        match r with
        | Throw e => (s, Throw e)
        | Ret b =>
            if zlen b <=? len then
              let '(s, r) := Socket_recv fuel (len - zlen b) s in
              (s, match r with Ret b' => Ret (b ++ b') | Throw e => Throw e end)
            else (s, Throw (Fassert 16508))
        end
  end.

(** ** The life of a socket *)

Definition Socket_close s : Socket K := if 0 <=? _fd s then set_fd (-1) (set_kernel (sys_close (kernel s)) s) else s.
Definition connectTimeoutMillis : Z := 5000.
Definition Socket_connect s : Socket K * bool :=
  let '(s, fd) := on_kernel sys_socket s in
  match fd with
  | None => (set_fd (-1) s, false)
  | Some fd =>
      let s := set_fd fd s in
      let '(s, answer) := on_kernel (sys_connect connectTimeoutMillis) s in
      match answer with
      | Connected => (set_connected s, true)
      | ConnectFailed _ | ConnectTimedOut => (Socket_close s, false)
      end
  end.
Definition errorPollIntervalSecs : Z := 5.
(** Whatever has happened on the socket, it is not connected any more; what [POLLIN]
    announced is read and thrown away. *)
Definition POLLIN : Z := 1.
Definition isStillConnected s : Socket K * bool :=
  let '(s, fail) := on_kernel notStillConnected s in
  if (fail : bool) then (s, false)
  else if _fd s =? -1 then (s, false)
  else
    let '(s, now) := on_kernel sys_time s in
    if now - _lastValidityCheckAtSecs s <? errorPollIntervalSecs then (s, true)
    else
      let s := set_check now s in
      let '(s, events) := on_kernel sys_poll s in
      match events with
      | NoEvents | PollFailed => (s, true)
      | PollEvents revents =>
          if negb (Z.land revents POLLIN =? 0) then let '(s, _) := on_kernel (sys_recv 1024) s in (s, false) else (s, false)
      end.
End Socket.

(** ** What is transmitted *)

(** [k_out] is what has been given to the peer, [k_in] what the peer sends until the
    connection breaks, [k_interrupts] how often a call is still interrupted. *)
Class KernelLaws (K : Type) `{Kernel K} := {
  k_out : K -> bytes; k_in : K -> bytes; k_interrupts : K -> nat;
  law_fail k : let k' := (throwSockExcep k).1 in k_out k' = k_out k /\ k_in k' = k_in k /\ (k_interrupts k' <= k_interrupts k)%nat;
  law_send d k : d <> [] -> let k' := (sys_send d k).1 in k_in k' = k_in k /\
    match (sys_send d k).2 with inr n => 0 < n <= zlen d /\ k_out k' = k_out k ++ take (Z.to_nat n) d | inl _ => k_out k' = k_out k end;
  law_sendmsg d k : let k' := (sys_sendmsg d k).1 in k_in k' = k_in k /\
    match (sys_sendmsg d k).2 with
    | inr n => 0 <= n <= zlen (concat d) /\ (concat d <> [] -> 0 < n) /\ k_out k' = k_out k ++ take (Z.to_nat n) (concat d)
    | inl _ => k_out k' = k_out k end;
  law_recv max k : 0 < max -> let k' := (sys_recv max k).1 in k_out k' = k_out k /\
    match (sys_recv max k).2 with
    | inr b => zlen b <= max /\ k_in k = b ++ k_in k' /\ (b = [] -> k_in k = []) /\ (k_interrupts k' <= k_interrupts k)%nat
    | inl e => k_in k' = k_in k /\ (k_interrupts k' <= k_interrupts k)%nat /\ (e = EINTR -> (k_interrupts k' < k_interrupts k)%nat)
    end }.

Section Transmission.
Context {K : Type} `{KernelLaws K}.
Implicit Types s : Socket K.
Abbreviation out s := (k_out (kernel s)).
Abbreviation inc s := (k_in (kernel s)).
Definition send_failed (e : sock_exn) : Prop := e = SocketException SEND_ERROR \/ e = SocketException SEND_TIMEOUT.
Lemma handleSendError_failed e s : send_failed (handleSendError e s).
Proof. unfold handleSendError. destruct (_ && _); [by right|by left]. Qed.
Lemma zlen_drop {A} (l : list A) n : 0 <= n <= zlen l -> zlen (drop (Z.to_nat n) l) = zlen l - n.
Proof. unfold zlen. rewrite length_drop. lia. Qed.
Lemma Socket_send_spec fuel : forall data s, (length data < fuel)%nat -> let '(s', r) := Socket_send fuel data s in
  inc s' = inc s /\ exists sent rest, data = sent ++ rest /\ out s' = out s ++ sent /\
    match r with Ret _ => rest = [] /\ _bytesOut s' = _bytesOut s + zlen data | Throw e => send_failed e end.
Proof.
  induction fuel as [|fuel IH]; intros data s Hf; [lia|]. cbn [Socket_send]. case_bool_decide as Hd.
  { subst. split; [reflexivity|]. exists [], []. split_and!; [reflexivity|by rewrite app_nil_r|reflexivity|]. change (zlen (@nil char)) with 0. lia. }
  unfold on_kernel at 1. pose proof (law_fail (kernel s)) as (Ho & Hi & _). destruct (throwSockExcep (kernel s)) as [k1 fail]. cbn [fst] in *.
  destruct fail.
  { cbn [kernel set_kernel]. split; [exact Hi|]. exists [], data. rewrite app_nil_r. split; [reflexivity|]. split; [exact Ho|apply handleSendError_failed]. }
  unfold Socket__send, on_kernel. cbn [kernel set_kernel]. pose proof (law_send data k1 Hd) as Hs.
  destruct (sys_send data k1) as [k2 [e|n]]; cbn [fst snd] in Hs.
  { cbn [kernel set_kernel]. destruct Hs as [Hi2 Ho2]. split; [by rewrite Hi2|]. exists [], data. rewrite app_nil_r. split; [reflexivity|].
    split; [by rewrite Ho2|apply handleSendError_failed]. }
  destruct Hs as [Hi2 [Hn Ho2]]. destruct (n <=? zlen data) eqn:En; [|lia].
  specialize (IH (drop (Z.to_nat n) data) (add_out n (set_kernel k2 (set_kernel k1 s))) ltac:(rewrite length_drop; unfold zlen in Hn; lia)).
  destruct (Socket_send fuel _ _) as [s' r]. cbn [kernel add_out set_kernel _bytesOut] in IH. destruct IH as (Hi3 & sent & rest & Hdr & Ho3 & Hr).
  split; [congruence|]. exists (take (Z.to_nat n) data ++ sent), rest. split; [by rewrite <-app_assoc, <-Hdr, take_drop|].
  split; [rewrite Ho3, Ho2, Ho; by rewrite <-app_assoc|]. destruct r; [|exact Hr]. destruct Hr as [-> Hb]. split; [reflexivity|].
  rewrite Hb, zlen_drop by lia. lia.
Qed.
(** ** [sendmsg] *)

Definition all_data (iov : list bytes) : Prop := Forall (fun p => p <> []) iov.
Lemma consume_iovec_spec iov : all_data iov -> forall n, 0 <= n <= zlen (concat iov) ->
  exists iov', consume_iovec iov n = Some iov' /\ concat iov' = drop (Z.to_nat n) (concat iov) /\ all_data iov' /\
    (0 < n -> (length (concat iov') < length (concat iov))%nat).
Proof.
  induction 1 as [|p iov Hp Hi IH]; intros n Hn; cbn [consume_iovec].
  - change (zlen (concat [])) with 0 in Hn. assert (n = 0) as -> by lia. exists []. repeat split; [constructor|lia].
  - destruct (n <=? 0) eqn:E0.
    { assert (n = 0) as -> by lia. exists (p :: iov). split; [reflexivity|]. split; [reflexivity|]. split; [by constructor|lia]. }
    cbn [concat] in *. rewrite zlen_app in Hn. destruct (n <? zlen p) eqn:E1.
    + eexists. split; [reflexivity|]. cbn [concat]. assert (Z.to_nat n < length p)%nat by (unfold zlen in E1; lia).
      split; [by rewrite drop_app_le by lia|]. split; [|intros _; rewrite !length_app, length_drop; lia].
      constructor; [|exact Hi]. intros E. apply (f_equal length) in E. rewrite length_drop in E. cbn in E. lia.
    + destruct (IH (n - zlen p)) as (iov' & E & Hc & Ha & Hl); [lia|]. exists iov'. split; [exact E|].
      assert (0 < length p)%nat by (destruct p; [by destruct Hp|cbn; lia]).
      split; [|split; [exact Ha|]].
      * rewrite Hc, drop_app_ge by (unfold zlen in E1; lia). f_equal. unfold zlen. lia.
      * intros _. rewrite length_app. rewrite Hc, length_drop. lia.
Qed.
Lemma sendmsg_loop_spec fuel : forall iov s, all_data iov -> (length (concat iov) < fuel)%nat -> let '(s', r) := sendmsg_loop fuel iov s in
  inc s' = inc s /\ exists sent rest, concat iov = sent ++ rest /\ out s' = out s ++ sent /\
    match r with Ret _ => rest = [] | Throw e => send_failed e end.
Proof.
  induction fuel as [|fuel IH]; intros iov s Ha Hf; [lia|]. cbn [sendmsg_loop]. destruct iov as [|p iov].
  { split; [reflexivity|]. exists [], []. split_and!; [reflexivity|by rewrite app_nil_r|reflexivity]. }
  set (d := p :: iov) in *. unfold on_kernel at 1. pose proof (law_fail (kernel s)) as (Ho & Hi & _).
  destruct (throwSockExcep (kernel s)) as [k1 fail]. cbn [fst] in *.
  assert (forall e (s0 : Socket K), send_failed (SocketException (if negb (bool_decide (e = EAGAIN)) || (_timeout s0 =? 0) then SEND_ERROR else SEND_TIMEOUT))) as Herr
    by (intros e s0; destruct (_ || _); [by left|by right]).
  destruct fail.
  { cbn [kernel set_kernel]. split; [exact Hi|]. exists [], (concat d). rewrite app_nil_r. split; [reflexivity|]. split; [exact Ho|apply Herr]. }
  unfold on_kernel. cbn [kernel set_kernel]. pose proof (law_sendmsg d k1) as Hs.
  destruct (sys_sendmsg d k1) as [k2 [e|n]]; cbn [fst snd] in Hs.
  { cbn [kernel set_kernel]. destruct Hs as [Hi2 Ho2]. split; [by rewrite Hi2|]. exists [], (concat d). rewrite app_nil_r. split; [reflexivity|].
    split; [by rewrite Ho2|apply Herr]. }
  destruct Hs as [Hi2 (Hn & Hpos & Ho2)]. destruct (consume_iovec_spec d Ha n Hn) as (iov' & -> & Hc & Ha' & Hl).
  assert (concat d <> []) as Hne.
  { unfold d. cbn [concat]. apply Forall_cons in Ha as [Hp _]. by destruct p. }
  specialize (Hl (Hpos Hne)). specialize (IH iov' (set_kernel k2 (set_kernel k1 s)) Ha' ltac:(lia)).
  destruct (sendmsg_loop fuel iov' _) as [s' r]. cbn [kernel set_kernel] in IH. destruct IH as (Hi3 & sent & rest & Hdr & Ho3 & Hr).
  split; [congruence|]. exists (take (Z.to_nat n) (concat d) ++ sent), rest. split; [by rewrite <-app_assoc, <-Hdr, Hc, take_drop|].
  split; [rewrite Ho3, Ho2, Ho; by rewrite <-app_assoc|exact Hr].
Qed.
Lemma make_iovec_all data : Forall (fun p => p <> []) data -> make_iovec data = data.
Proof.
  intros Hd. unfold make_iovec. assert (List.filter (fun p => 0 <? zlen p) data = data) as ->.
  { induction Hd as [|p data Hp Hd IH]; [reflexivity|]. cbn [List.filter]. rewrite IH. destruct p; [by destruct Hp|]. rewrite zlen_cons.
    pose proof (zlen_nonneg p). by replace (0 <? 1 + zlen p) with true by lia. }
  rewrite Nat.sub_diag. cbn [replicate]. by rewrite app_nil_r.
Qed.

(** ** Receiving *)

Definition recv_failed (e : sock_exn) (left : bytes) : Prop :=
  e = SocketException CLOSED /\ left = [] \/ e = SocketException RECV_ERROR \/ e = SocketException RECV_TIMEOUT.
Lemma handleRecvError_failed e s left : match handleRecvError (-1) e s with
  | Some er => recv_failed er left | None => e = EINTR end.
Proof.
  unfold handleRecvError. cbn [Z.eqb]. case_bool_decide; [done|]. right. destruct (_ && _); [by right|by left].
Qed.
Lemma unsafe_recv_spec len s : 0 < len -> let '(s', r) := unsafe_recv len s in
  out s' = out s /\ match r with
  | Ret b => zlen b <= len /\ inc s = b ++ inc s' /\ (k_interrupts (kernel s') <= k_interrupts (kernel s))%nat /\
      (b = [] -> (k_interrupts (kernel s') < k_interrupts (kernel s))%nat)
  | Throw e => inc s' = inc s /\ recv_failed e (inc s') end.
Proof.
  intros Hlen. unfold unsafe_recv, Socket__recv, on_kernel. pose proof (law_recv len (kernel s) Hlen) as Hs.
  destruct (sys_recv len (kernel s)) as [k2 [e|b]]; cbn [fst snd] in Hs; destruct Hs as [Ho Hs].
  - pose proof (handleRecvError_failed e (set_kernel k2 s) (k_in k2)) as He. destruct (handleRecvError (-1) e (set_kernel k2 s)) as [er|].
    + cbn [kernel set_kernel]. destruct Hs as (Hi & _). split; [exact Ho|]. split; [exact Hi|exact He].
    + cbn [kernel set_kernel add_in]. destruct Hs as (Hi & Hle & Hlt). split; [exact Ho|]. split; [change (zlen (@nil char)) with 0; lia|]. split; [by rewrite Hi|]. split; [exact Hle|].
      intros _. by apply Hlt.
  - destruct Hs as (Hb & Hi & Hnil & Hle). destruct b as [|c b].
    + cbn [handleRecvError Z.eqb kernel set_kernel]. split; [exact Ho|]. specialize (Hnil eq_refl). rewrite Hnil in Hi. destruct (app_eq_nil _ _ (eq_sym Hi)) as [_ Hk].
      split; [by rewrite Hk, Hnil|]. left. by rewrite Hk.
    + cbn [kernel set_kernel add_in]. split; [exact Ho|]. split; [exact Hb|]. split; [exact Hi|]. split; [exact Hle|]. discriminate.
Qed.
Lemma Socket_recv_spec fuel : forall len s, (Z.to_nat len + k_interrupts (kernel s) < fuel)%nat -> let '(s', r) := Socket_recv fuel len s in
  out s' = out s /\ exists got, inc s = got ++ inc s' /\
    match r with Ret d => d = got /\ zlen got = Z.max 0 len | Throw e => zlen got < len /\ recv_failed e (inc s') end.
Proof.
  induction fuel as [|fuel IH]; intros len s Hf; [lia|]. cbn [Socket_recv]. destruct (len <=? 0) eqn:El.
  { split; [reflexivity|]. exists []. split_and!; [reflexivity|reflexivity|]. change (zlen (@nil char)) with 0. lia. }
  unfold on_kernel at 1. pose proof (law_fail (kernel s)) as (Ho & Hi & Hle). destruct (throwSockExcep (kernel s)) as [k1 fail]. cbn [fst] in *.
  assert (zlen (@nil char) < len) as Hz by (change (zlen (@nil char)) with 0; lia).
  destruct fail.
  { change (handleRecvError (-1) ENETUNREACH (set_kernel k1 s)) with (Some (SocketException RECV_ERROR)). cbn [kernel set_kernel].
    split; [exact Ho|]. exists []. split; [by rewrite Hi|]. split; [exact Hz|]. right. by left. }
  pose proof (unsafe_recv_spec len (set_kernel k1 s) ltac:(lia)) as Hs. destruct (unsafe_recv len (set_kernel k1 s)) as [s2 [b|e]].
  2: { destruct Hs as (Ho2 & Hi2 & He). cbn [kernel set_kernel] in *. split; [congruence|]. exists []. split; [cbn; congruence|]. split; [exact Hz|exact He]. }
  destruct Hs as (Ho2 & Hb & Hi2 & Hle2 & Hlt). cbn [kernel set_kernel] in *. destruct (zlen b <=? len) eqn:Eb; [|lia].
  assert (Z.to_nat (len - zlen b) + k_interrupts (kernel s2) < fuel)%nat as Hf2.
  { destruct b as [|c b]; [specialize (Hlt eq_refl); change (zlen (@nil char)) with 0; lia|]. rewrite zlen_cons. pose proof (zlen_nonneg b). lia. }
  specialize (IH _ s2 Hf2). destruct (Socket_recv fuel (len - zlen b) s2) as [s3 r]. destruct IH as (Ho3 & got & Hi3 & Hr).
  split; [congruence|]. exists (b ++ got). rewrite <-app_assoc, <-Hi3, <-Hi2. split; [by rewrite Hi|]. rewrite zlen_app.
  destruct r as [d|e]; [|split; [lia|apply Hr]]. destruct Hr as [-> Hn]. split; [reflexivity|]. pose proof (zlen_nonneg b). lia.
Qed.
End Transmission.

(** C25: Whatever part of it each system call transmits: sending bytes, or pieces none of
    which is empty, gives the peer exactly those bytes in order, or throws SEND_ERROR or
    SEND_TIMEOUT after a prefix; receiving a number of bytes takes exactly so many off
    what the peer sends, or throws, CLOSED only when the peer's bytes are at their end;
    and both end.  A receipt is the one of the port above: [psock_recv] gives the same
    bytes and leaves the same, and fails where CLOSED is thrown. *)
Theorem socket_transmits {K : Type} `{KernelLaws K} (s : Socket K) :
  (forall fuel data, (length data < fuel)%nat -> exists s' r sent rest, Socket_send fuel data s = (s', r) /\
     data = sent ++ rest /\ k_out (kernel s') = k_out (kernel s) ++ sent /\ k_in (kernel s') = k_in (kernel s) /\
     match r with Ret _ => rest = [] | Throw e => send_failed e end) /\
  (forall fuel data, Forall (fun p => p <> []) data -> (length (concat data) < fuel)%nat -> exists s' r sent rest,
     Socket_send_vector fuel data s = (s', r) /\
     concat data = sent ++ rest /\ k_out (kernel s') = k_out (kernel s) ++ sent /\ k_in (kernel s') = k_in (kernel s) /\
     match r with Ret _ => rest = [] | Throw e => send_failed e end) /\
  (forall fuel len, (Z.to_nat len + k_interrupts (kernel s) < fuel)%nat -> exists s' r, Socket_recv fuel len s = (s', r) /\
     k_out (kernel s') = k_out (kernel s) /\
     (exists got, k_in (kernel s) = got ++ k_in (kernel s') /\
       match r with Ret d => d = got /\ zlen got = Z.max 0 len | Throw e => zlen got < len /\ recv_failed e (k_in (kernel s')) end) /\
     forall p, p_incoming p = k_in (kernel s) -> 0 <= len ->
       let left b := mkPort b (p_outgoing p) (MessagePort.p_awaitingHandshake p) (p_piggy p) (p_nextMsgId p) in
       match r with
       | Ret d => psock_recv len p = (left (k_in (kernel s')), Ret d)
       | Throw e => e = SocketException CLOSED -> psock_recv len p = (left (k_in (kernel s')), Throw ESocket)
       end).
Proof.
  split; [|split].
  - intros fuel data Hf. pose proof (Socket_send_spec fuel data s Hf) as Hs. destruct (Socket_send fuel data s) as [s' r].
    destruct Hs as (Hi & sent & rest & Hd & Ho & Hr). exists s', r, sent, rest. split_and!; [reflexivity|exact Hd|exact Ho|exact Hi|].
    destruct r; [apply Hr|exact Hr].
  - intros fuel data Ha Hf. unfold Socket_send_vector. rewrite make_iovec_all by exact Ha.
    pose proof (sendmsg_loop_spec fuel data (add_out (zlen (concat data)) s) Ha Hf) as Hs. destruct (sendmsg_loop fuel data _) as [s' r].
    destruct Hs as (Hi & sent & rest & Hd & Ho & Hr). by exists s', r, sent, rest.
  - intros fuel len Hf. pose proof (Socket_recv_spec fuel len s Hf) as Hs. destruct (Socket_recv fuel len s) as [s' r].
    destruct Hs as (Ho & got & Hi & Hr). exists s', r. split; [reflexivity|]. split; [exact Ho|]. split; [by exists got|].
    intros p Hp Hlen left. unfold psock_recv. rewrite Hp, Hi, zlen_app. pose proof (zlen_nonneg (k_in (kernel s'))). destruct r as [d|e].
    + destruct Hr as [-> Hn]. replace (len <=? _) with true by lia. replace (Z.to_nat len) with (length got) by (unfold zlen in Hn; lia).
      by rewrite take_app_length, drop_app_length.
    + intros ->. destruct Hr as [Hn Hr]. assert (k_in (kernel s') = []) as -> by (destruct Hr as [[_ ->]|[E|E]]; [reflexivity|discriminate E|discriminate E]).
      change (zlen (@nil char)) with 0. by replace (len <=? _) with false by lia.
Qed.

(** ** A kernel that transmits a few bytes at a time *)

(** The bytes given, the bytes to come, the interruptions to come, and the time. *)
Record Toy := mkToyKernel { tk_out : bytes; tk_in : bytes; tk_interrupts : nat; tk_now : Z; tk_hangup : bool }.
#[local] Instance toy_kernel : Kernel Toy := {|
  throwSockExcep k := (k, false); notStillConnected k := (k, false);
  sys_send d k := (mkToyKernel (tk_out k ++ take 2 d) (tk_in k) (tk_interrupts k) (tk_now k) (tk_hangup k), inr (Z.min 2 (zlen d)));
  sys_sendmsg d k := (mkToyKernel (tk_out k ++ take 2 (concat d)) (tk_in k) (tk_interrupts k) (tk_now k) (tk_hangup k), inr (Z.min 2 (zlen (concat d))));
  sys_recv max k :=
    match tk_interrupts k with
    | S n => (mkToyKernel (tk_out k) (tk_in k) n (tk_now k) (tk_hangup k), inl EINTR)
    | O => let n := Z.to_nat (Z.min 3 max) in
           (mkToyKernel (tk_out k) (drop n (tk_in k)) 0 (tk_now k) (tk_hangup k), inr (take n (tk_in k)))
    end;
  sys_poll k := (k, if tk_hangup k then PollEvents 16 else if bool_decide (tk_in k = []) then NoEvents else PollEvents POLLIN);
  sys_time k := (k, tk_now k); sys_socket k := (k, Some 3); sys_connect _ k := (k, Connected); sys_close k := k |}.
Lemma kernel_count (d : bytes) : 0 <= Z.min 2 (zlen d) <= zlen d /\ (d <> [] -> 0 < Z.min 2 (zlen d)) /\ take (Z.to_nat (Z.min 2 (zlen d))) d = take 2 d.
Proof.
  pose proof (zlen_nonneg d). split; [lia|]. split.
  - intros Hd. destruct d as [|c d]; [done|]. rewrite zlen_cons. pose proof (zlen_nonneg d). lia.
  - destruct (decide (2 <= length d)%nat); [f_equal; unfold zlen; lia|]. rewrite !take_ge by (unfold zlen; lia). done.
Qed.
#[local] Program Instance toy_kernel_laws : KernelLaws Toy := {| k_out := tk_out; k_in := tk_in; k_interrupts := tk_interrupts |}.
Next Obligation. intros k. done. Qed.
Next Obligation. intros d k Hd. destruct (kernel_count d) as (H1 & H2 & H3). split; [done|]. cbn [sys_send toy_kernel snd fst tk_out]. rewrite H3. specialize (H2 Hd). split; [lia|done]. Qed.
Next Obligation. intros d k. destruct (kernel_count (concat d)) as (H1 & H2 & H3). split; [done|]. cbn [sys_sendmsg toy_kernel snd fst tk_out]. by rewrite H3. Qed.
Next Obligation.
  intros max k Hm. cbn [sys_recv toy_kernel]. destruct (tk_interrupts k) as [|n] eqn:En; cbn [fst snd tk_out tk_in tk_interrupts]; [|split; [done|]; split; [done|]; split; [lia|intros _; lia]].
  split; [done|]. assert (length (take (Z.to_nat (3 `min` max)) (tk_in k)) <= Z.to_nat (3 `min` max))%nat as Hl by (rewrite length_take; lia).
  split; [unfold zlen; lia|]. split; [by rewrite take_drop|]. split; [|lia]. intros E. destruct (tk_in k) as [|c l]; [done|].
  destruct (Z.to_nat (3 `min` max)) eqn:Ez; [lia|discriminate E].
Qed.
Definition toy_socket (inc : bytes) (interrupts : nat) : Socket Toy := mkSocket 3 0 0 0 0 false (mkToyKernel [] inc interrupts 0 false).
Lemma socket_transmits_witness :
  exists s' r sent rest, Socket_send 6 (B "hello") (toy_socket [] 0) = (s', r) /\
    B "hello" = sent ++ rest /\ k_out (kernel s') = k_out (kernel (toy_socket [] 0)) ++ sent /\ k_in (kernel s') = k_in (kernel (toy_socket [] 0)) /\ match r with Ret _ => rest = [] | Throw e => send_failed e end.
Proof. apply (proj1 (socket_transmits (toy_socket [] 0)) 6%nat (B "hello")). cbn. lia. Defined.
Lemma socket_runs :
  (Socket_recv 9 5 (toy_socket (B "hello world") 2)).2 = Ret (B "hello") /\
  (Socket_recv 9 5 (toy_socket (B "hell") 0)).2 = Throw (SocketException CLOSED) /\
  tk_out (kernel (Socket_send_vector 9 [B "he"; B "llo"] (toy_socket [] 0)).1) = B "hello".
Proof. split; [|split]; vm_compute; reflexivity. Qed.

(** ** What modelling showed *)

(** An empty piece leaves an empty place at the end of the vector: [sendmsg] sends nothing
    of it and the loop does not end, whatever number of turns. *)
Lemma empty_piece_spins fuel : (Socket_send_vector (2 + fuel) [B "hi"; []] (toy_socket [] 0)).2 = Throw NoTurns.
Proof.
  unfold Socket_send_vector. change (make_iovec [B "hi"; []]) with [B "hi"; []].
  assert (forall n s, (sendmsg_loop n [[]] s).2 = Throw NoTurns) as Hspin.
  { induction n as [|n IH]; intros s; [reflexivity|]. destruct s as [fd t bi bo lc aw k]. cbn [sendmsg_loop on_kernel throwSockExcep sys_sendmsg toy_kernel kernel set_kernel].
    change (Z.min 2 (zlen (concat [[]]))) with 0. cbn [consume_iovec Z.leb Z.compare]. apply IH. }
  cbn [Nat.add sendmsg_loop on_kernel throwSockExcep sys_sendmsg toy_kernel kernel set_kernel add_out toy_socket].
  change (consume_iovec [B "hi"; []] (Z.min 2 (zlen (concat [B "hi"; []])))) with (Some [@nil char]). apply Hspin.
Qed.
(** What is not connected any more is connected again when asked within five seconds; and
    data that had arrived is thrown away by asking. *)
Lemma connected_again :
  let s := mkSocket 3 0 0 0 0 false (mkToyKernel [] [] 0 10 true) in
  let '(s1, b1) := isStillConnected s in let '(s2, b2) := isStillConnected s1 in b1 = false /\ b2 = true.
Proof. vm_compute. split; reflexivity. Qed.
Lemma data_thrown_away :
  let s := mkSocket 3 0 0 0 0 false (mkToyKernel [] (B "ok") 0 10 false) in
  let '(s1, b1) := isStillConnected s in b1 = false /\ tk_in (kernel s1) = [].
Proof. vm_compute. split; reflexivity. Qed.
