(* ===== verification/Cursor.v ===== *)
(** * Cursors: client/dbclientcursor.h, client/dbclientcursor.cpp, the shims of
    client/dbclientcursorshim*.cpp, and the queries of client/dbclient.cpp that
    make and drain a cursor

    A cursor calls the connection it was made by.  What it needs of one is the
    class [Client]; a batch is the reply it came in, and the place in that reply
    of the next document. *)
From S2P Require Import Prelude StringData ParseNumber BsonTypes BufBuilder Bson BsonCompare BsonObj BsonValidate Message MessagePort.
Local Open Scope Z_scope.

(** ** What a cursor needs of its connection

    [call] and [recv] leave a response, empty when nothing was received.
    [checkResponse] is given the documents of a reply and their number, and
    tells whether to retry, and the host. *)
Class Client (C : Type) := {
  client_call : Message -> ST C (Message * bool);
  client_recv : ST C (Message * bool);
  client_say : Message -> ST C unit;
  client_sayPiggyBack : Message -> ST C unit;
  client_checkResponse : bytes -> Z -> ST C (bool * bytes);
  client_runCommand : bytes -> bytes -> Z -> ST C (bool * bytes) }.

Definition QueryOption_CursorTailable : Z := 2.
Definition QueryOption_SlaveOk : Z := 4.
Definition QueryOption_NoCursorTimeout : Z := 16.
Definition QueryOption_Exhaust : Z := 64.
Definition has_option (opts option : Z) : bool := negb (Z.land opts option =? 0).

(** [nsGetDB] and [nsGetCollection]: what comes before the first dot, and after. *)
Definition nsGetDB (ns : bytes) : bytes :=
  match memchr ns dot with Some i => take i ns | None => ns end.
Definition nsGetCollection (ns : bytes) : bytes :=
  match memchr ns dot with Some i => drop (S i) ns | None => [] end.

(** ** State *)

(** [data] is an offset in the buffer of [m]. *)
Record Batch := mkBatch { b_m : Message; b_nReturned : Z; b_pos : Z; b_data : Z }.
Definition Batch_ctor : Batch := mkBatch Message_ctor 0 0 0.

(** The iterators of the shims hold the elements they have left. *)
Inductive Shim :=
  | ShimCursorID (iter : BSONObj) (in_first_batch : bool)
  | ShimArray (array_field : bytes) (iter : BSONObj) (has_array : bool)
  | ShimTransform (transformation : bytes -> bytes -> M (bool * bytes)) (nextDoc : bytes).

Record DBClientCursor := mkCursor {
  c_shim : option Shim;
  c_batch : Batch;
  c_ns : bytes;
  c_query : bytes;
  c_nToReturn : Z;
  c_nToSkip : Z;
  c_nReturned : Z;
  c_fieldsToReturn : option bytes;
  c_opts : Z;
  c_batchSize : Z;
  c_putBack : list bytes;
  c_resultFlags : Z;
  c_cursorId : Z;
  c_ownCursor : bool;
  c_wasError : bool }.

Definition set_shim (x : option Shim) (c : DBClientCursor) := mkCursor x (c_batch c) (c_ns c) (c_query c) (c_nToReturn c) (c_nToSkip c) (c_nReturned c) (c_fieldsToReturn c) (c_opts c) (c_batchSize c) (c_putBack c) (c_resultFlags c) (c_cursorId c) (c_ownCursor c) (c_wasError c).
Definition set_batch (x : Batch) (c : DBClientCursor) := mkCursor (c_shim c) x (c_ns c) (c_query c) (c_nToReturn c) (c_nToSkip c) (c_nReturned c) (c_fieldsToReturn c) (c_opts c) (c_batchSize c) (c_putBack c) (c_resultFlags c) (c_cursorId c) (c_ownCursor c) (c_wasError c).
Definition set_ns (x : bytes) (c : DBClientCursor) := mkCursor (c_shim c) (c_batch c) x (c_query c) (c_nToReturn c) (c_nToSkip c) (c_nReturned c) (c_fieldsToReturn c) (c_opts c) (c_batchSize c) (c_putBack c) (c_resultFlags c) (c_cursorId c) (c_ownCursor c) (c_wasError c).
Definition set_nToReturn (x : Z) (c : DBClientCursor) := mkCursor (c_shim c) (c_batch c) (c_ns c) (c_query c) x (c_nToSkip c) (c_nReturned c) (c_fieldsToReturn c) (c_opts c) (c_batchSize c) (c_putBack c) (c_resultFlags c) (c_cursorId c) (c_ownCursor c) (c_wasError c).
Definition set_nReturned (x : Z) (c : DBClientCursor) := mkCursor (c_shim c) (c_batch c) (c_ns c) (c_query c) (c_nToReturn c) (c_nToSkip c) x (c_fieldsToReturn c) (c_opts c) (c_batchSize c) (c_putBack c) (c_resultFlags c) (c_cursorId c) (c_ownCursor c) (c_wasError c).
Definition setBatchSize (x : Z) (c : DBClientCursor) := mkCursor (c_shim c) (c_batch c) (c_ns c) (c_query c) (c_nToReturn c) (c_nToSkip c) (c_nReturned c) (c_fieldsToReturn c) (c_opts c) x (c_putBack c) (c_resultFlags c) (c_cursorId c) (c_ownCursor c) (c_wasError c).
Definition set_putBack (x : list bytes) (c : DBClientCursor) := mkCursor (c_shim c) (c_batch c) (c_ns c) (c_query c) (c_nToReturn c) (c_nToSkip c) (c_nReturned c) (c_fieldsToReturn c) (c_opts c) (c_batchSize c) x (c_resultFlags c) (c_cursorId c) (c_ownCursor c) (c_wasError c).
Definition set_resultFlags (x : Z) (c : DBClientCursor) := mkCursor (c_shim c) (c_batch c) (c_ns c) (c_query c) (c_nToReturn c) (c_nToSkip c) (c_nReturned c) (c_fieldsToReturn c) (c_opts c) (c_batchSize c) (c_putBack c) x (c_cursorId c) (c_ownCursor c) (c_wasError c).
Definition set_cursorId (x : Z) (c : DBClientCursor) := mkCursor (c_shim c) (c_batch c) (c_ns c) (c_query c) (c_nToReturn c) (c_nToSkip c) (c_nReturned c) (c_fieldsToReturn c) (c_opts c) (c_batchSize c) (c_putBack c) (c_resultFlags c) x (c_ownCursor c) (c_wasError c).
Definition decouple (c : DBClientCursor) := mkCursor (c_shim c) (c_batch c) (c_ns c) (c_query c) (c_nToReturn c) (c_nToSkip c) (c_nReturned c) (c_fieldsToReturn c) (c_opts c) (c_batchSize c) (c_putBack c) (c_resultFlags c) (c_cursorId c) false (c_wasError c).
Definition set_wasError (x : bool) (c : DBClientCursor) := mkCursor (c_shim c) (c_batch c) (c_ns c) (c_query c) (c_nToReturn c) (c_nToSkip c) (c_nReturned c) (c_fieldsToReturn c) (c_opts c) (c_batchSize c) (c_putBack c) (c_resultFlags c) (c_cursorId c) (c_ownCursor c) x.

(** The two constructors. *)
Definition DBClientCursor_query (ns query : bytes) (nToReturn nToSkip : Z) (fieldsToReturn : option bytes)
    (queryOptions bs : Z) : DBClientCursor :=
  mkCursor None Batch_ctor ns query (if has_option queryOptions QueryOption_CursorTailable then 0 else nToReturn)
    nToSkip 0 fieldsToReturn queryOptions (if bs =? 1 then 2 else bs) [] 0 0 true false.
Definition empty_object : bytes := encode_obj [].
Definition DBClientCursor_more (ns : bytes) (cursorId nToReturn options bs : Z) : DBClientCursor :=
  mkCursor None Batch_ctor ns empty_object (if has_option options QueryOption_CursorTailable then 0 else nToReturn)
    0 0 None options (if bs =? 1 then 2 else bs) [] 0 cursorId true false.

Definition objsLeftInBatch (c : DBClientCursor) : Z :=
  wrap int32 (size_wrap (zlen (c_putBack c) + b_nReturned (c_batch c) - b_pos (c_batch c))).
Definition moreInCurrentBatch (c : DBClientCursor) : bool := 0 <? objsLeftInBatch c.
Definition isDead (c : DBClientCursor) : bool := c_cursorId c =? 0.
Definition tailable (c : DBClientCursor) : bool := has_option (c_opts c) QueryOption_CursorTailable.
Definition hasResultFlag (flag : Z) (c : DBClientCursor) : bool := negb (Z.land (c_resultFlags c) flag =? 0).
Definition putBack (o : bytes) (c : DBClientCursor) : DBClientCursor := set_putBack (o :: c_putBack c) c.

(** ** Objects in place *)

(** [BSONObj(p)] and the bytes it then covers. *)
Definition BSONObj_at (here : bytes) : M bytes :=
  sz ← objsize here;
  massert 10334 ((0 <? sz) && (sz <=? BSONObjMaxInternalSize));;
  read_bytes here 0 sz.
Definition firstElementFieldName (o : bytes) : M bytes :=
  t ← readLE int8 o 4;
  if t =? 0 then Ret [] else n ← strlen (drop 5 o); read_bytes o 5 n.
(** The elements of an object. *)
Definition parsed (o : bytes) : M BSONObj := read_object (S (length o)) o.
Definition getErrField (o : bytes) : M BSONElement := o ← parsed o; Ret (getField o (B "$err")).
Definition hasErrField (o : bytes) : M bool := e ← getErrField o; Ret (negb (eoo e)).

(** The accessors of an element that check its type. *)
Definition elem_Long (e : BSONElement) : M Z :=
  match e.2 with VNumberLong z => Ret z | _ => Throw (EMassert 13111) end.
Definition elem_String (e : BSONElement) : M bytes :=
  match e.2 with VString s => Ret s | _ => Throw (EMassert 13111) end.
(** [e[name]]: a member, of an object. *)
Definition elem_member (e : BSONElement) (name : bytes) : M BSONElement :=
  o ← Obj e; Ret (getField o name).

Section Cursor.
Context {C : Type} `{Client C} (malloc : Z -> bytes).
(** How many documents a transforming shim may discard in one call. *)
Context (turns : nat).
Implicit Types c : DBClientCursor.

Definition cur : ST (C * DBClientCursor) DBClientCursor := fun s => (s, Ret s.2).
Definition upd (f : DBClientCursor -> DBClientCursor) : ST (C * DBClientCursor) unit := fun s => ((s.1, f s.2), Ret tt).
Definition on_client {A} (m : ST C A) : ST (C * DBClientCursor) A := fun s =>
  let '(x, r) := m s.1 in ((x, s.2), r).

(** ** Requests and replies *)

Definition nextBatchSize c : M Z :=
  if negb (c_nToReturn c =? 0) then
    let remaining := wrap int32 (c_nToReturn c - c_nReturned c) in
    if negb (c_batchSize c =? 0) && (c_batchSize c <? remaining) then Ret (c_batchSize c)
    else int_result (- remaining)
  else Ret (c_batchSize c).
Definition _assembleInit c : M Message :=
  n ← nextBatchSize c;
  if c_cursorId c =? 0 then
    assembleRequest malloc (c_ns c) (c_query c) n (c_nToSkip c) (c_fieldsToReturn c) (c_opts c) Message_ctor
  else assembleGetMore malloc (c_opts c) (c_ns c) n (c_cursorId c) Message_ctor.

Definition dataReceived : ST (C * DBClientCursor) (bool * bytes) :=
  c ← cur;
  d ← st_lift (singleData (b_m (c_batch c)));
  flags ← st_lift (getResultFlags d);
  upd (set_resultFlags flags);;
  (if negb (Z.land flags ResultFlag_ErrSet =? 0) then upd (set_wasError true) else mret tt);;
  (if negb (Z.land flags ResultFlag_CursorNotFound =? 0) then
     id ← st_lift (getCursorId d);
     st_lift (verify (id =? 0));;
     upd (set_cursorId 0);;
     if negb (tailable c) then st_lift (Throw (EUassert 13127)) else mret tt
   else mret tt);;
  c ← cur;
  (if (c_cursorId c =? 0) || negb (tailable c) then
     id ← st_lift (getCursorId d); upd (set_cursorId id)
   else mret tt);;
  n ← st_lift (getNReturned d);
  upd (set_batch (mkBatch (b_m (c_batch c)) n 0 QueryResult_size));;
  on_client (client_checkResponse (drop (Z.to_nat QueryResult_size) d) n).

Definition set_batch_m (m : Message) c : DBClientCursor :=
  let b := c_batch c in set_batch (mkBatch m (b_nReturned b) (b_pos b) (b_data b)) c.
Definition init : ST (C * DBClientCursor) bool :=
  c ← cur;
  toSend ← st_lift (_assembleInit c);
  '(m, ok) ← on_client (client_call toSend);
  upd (set_batch_m m);;
  if negb ok then mret false
  else if Message_empty m then mret false
  else dataReceived;; mret true.
(** The two halves of a lazy query, for a connection that supports it and has no
    hooks; the second tells also whether to retry. *)
Definition initLazy : ST (C * DBClientCursor) unit :=
  c ← cur;
  toSend ← st_lift (_assembleInit c);
  on_client (client_say toSend).
Definition initLazyFinish : ST (C * DBClientCursor) (bool * bool) :=
  '(m, recvd) ← on_client client_recv;
  upd (set_batch_m m);;
  if negb recvd || Message_empty m then
    '(retry, _) ← on_client (client_checkResponse [] (-1));
    mret (false, retry)
  else '(retry, _) ← dataReceived; mret (negb retry, retry).
Definition initCommand : ST (C * DBClientCursor) bool :=
  c ← cur;
  '(ok, res) ← on_client (client_runCommand (nsGetDB (c_ns c)) (c_query c) (c_opts c));
  m ← st_lift (replyToQuery 0 (b_m (c_batch c)) res);
  upd (set_batch_m m);;
  dataReceived;;
  mret ok.
Definition requestMore : ST (C * DBClientCursor) unit :=
  c ← cur;
  let b := c_batch c in
  st_lift (verify (negb (c_cursorId c =? 0) && (b_pos b =? b_nReturned b)));;
  n ← st_lift (nextBatchSize c);
  toSend ← st_lift (assembleGetMore malloc (c_opts c) (c_ns c) n (c_cursorId c) Message_ctor);
  '(response, _) ← on_client (client_call toSend);
  upd (set_batch_m response);;
  dataReceived;; mret tt.
Definition exhaustReceiveMore : ST (C * DBClientCursor) unit :=
  c ← cur;
  let b := c_batch c in
  st_lift (verify (negb (c_cursorId c =? 0) && (b_pos b =? b_nReturned b)));;
  st_lift (verify (c_nToReturn c =? 0));;
  '(response, ok) ← on_client client_recv;
  st_lift (uassert 16465 ok);;
  upd (set_batch_m response);;
  dataReceived;; mret tt.

(** ** Documents *)

Definition in_batch c : bool := b_pos (c_batch c) <? b_nReturned (c_batch c).
Definition rawMore : ST (C * DBClientCursor) bool :=
  c ← cur;
  if negb (c_nToReturn c =? 0) && (c_nToReturn c <=? c_nReturned c) then mret false
  else if in_batch c then mret true
  else if c_cursorId c =? 0 then mret false
  else requestMore;; c ← cur; mret (in_batch c).
(** [pos] has moved even when there is no object in its place. *)
Definition rawNext : ST (C * DBClientCursor) bytes :=
  c ← cur;
  let b := c_batch c in
  st_lift (uassert 13422 (in_batch c));;
  upd (set_batch (mkBatch (b_m b) (b_nReturned b) (b_pos b + 1) (b_data b)));;
  d ← st_lift (singleData (b_m b));
  o ← st_lift (BSONObj_at (drop (Z.to_nat (b_data b)) d));
  upd (set_batch (mkBatch (b_m b) (b_nReturned b) (b_pos b + 1) (b_data b + zlen o)));;
  mret o.

(** [cursor_shim->get_cursor()]: the reply of a command. *)
Definition get_cursor : ST (C * DBClientCursor) bytes :=
  b ← rawNext;
  o ← st_lift (parsed b);
  let ele := getField o (B "cursor") in
  if eoo ele then mret b
  else
    id ← st_lift (e ← elem_member ele (B "id"); elem_Long e);
    upd (set_cursorId id);;
    ns ← st_lift (e ← elem_member ele (B "ns"); elem_String e);
    upd (set_ns ns);;
    first ← st_lift (elem_member ele (B "firstBatch"));
    if eoo first then mret b
    else
      iter ← st_lift (Obj first);
      upd (set_shim (Some (ShimCursorID iter true)));;
      mret b.

Fixpoint transform_more (fuel : nat) (f : bytes -> bytes -> M (bool * bytes)) (nextDoc : bytes)
    : ST (C * DBClientCursor) bool :=
  match fuel with
  | O => st_lift (Throw EUndefined)
  | S fuel =>
      more ← rawMore;
      if (more : bool) then
        o ← rawNext;
        '(ok, doc) ← st_lift (f o nextDoc);
        upd (set_shim (Some (ShimTransform f doc)));;
        if (ok : bool) then mret true else transform_more fuel f doc
      else mret false
  end.
Definition array_more (field : bytes) (iter : BSONObj) (has_array : bool) : ST (C * DBClientCursor) bool :=
  if negb has_array then
    more ← rawMore;
    r ← (if (more : bool) then
           val ← rawNext;
           val ← st_lift (parsed val);
           if hasField val field then
             arr ← st_lift (Obj (getField val field));
             if bool_decide (arr = []) then mret (iter, false) else mret (arr, true)
           else mret (iter, false)
         else mret (iter, false));
    upd (set_shim (Some (ShimArray field r.1 true)));;
    mret r.2
  else mret (bool_decide (iter <> [])).
Definition shim_more (s : Shim) : ST (C * DBClientCursor) bool :=
  match s with
  | ShimCursorID iter in_first_batch =>
      if in_first_batch then
        if bool_decide (iter <> []) then mret true
        else
          upd (set_shim (Some (ShimCursorID iter false)));;
          c ← cur;
          if c_cursorId c =? 0 then mret false else rawMore
      else rawMore
  | ShimArray field iter has_array => array_more field iter has_array
  | ShimTransform f nextDoc => transform_more turns f nextDoc
  end.
(** The next element of an iterator, which must be an object. *)
Definition iter_Obj (iter : BSONObj) : M (bytes * BSONObj) :=
  match iter with
  | [] => Throw EUndefined
  | e :: iter => o ← Obj e; Ret (encode_obj o, iter)
  end.
Definition shim_next (s : Shim) : ST (C * DBClientCursor) bytes :=
  match s with
  | ShimCursorID iter in_first_batch =>
      if in_first_batch && bool_decide (iter <> []) then
        '(o, iter) ← st_lift (iter_Obj iter);
        upd (set_shim (Some (ShimCursorID iter true)));;
        mret o
      else rawNext
  | ShimArray field iter has_array =>
      if negb has_array then
        more ← array_more field iter has_array;
        st_lift (uassert 0 more);;
        mret empty_object
      else
        '(o, iter) ← st_lift (iter_Obj iter);
        upd (set_shim (Some (ShimArray field iter true)));;
        mret o
  | ShimTransform f nextDoc => mret nextDoc
  end.

Definition more : ST (C * DBClientCursor) bool :=
  c ← cur;
  match c_putBack c, c_shim c with
  | _ :: _, _ => mret true
  | [], Some s => shim_more s
  | [], None => rawMore
  end.
Definition next : ST (C * DBClientCursor) bytes :=
  upd (fun c => set_nReturned (c_nReturned c + 1) c);;
  c ← cur;
  match c_putBack c, c_shim c with
  | o :: rest, _ => upd (set_putBack rest);; mret o
  | [], Some s => shim_next s
  | [], None => rawNext
  end.
Definition nextSafe : ST (C * DBClientCursor) bytes :=
  o ← next;
  c ← cur;
  if c_wasError c then
    name ← st_lift (firstElementFieldName o);
    st_lift (uassert 13106 (negb (strcmp name (B "$err") =? 0)));;
    mret o
  else mret o.

(** The documents from a place on, as many as there are or as asked for. *)
Fixpoint peek_loop (fuel : nat) (here : bytes) (m p n : Z) : M (list bytes) :=
  match fuel with
  | O => Throw EUndefined
  | S fuel =>
      if negb (m =? 0) && (p <? n) then
        o ← BSONObj_at here;
        m ← int_result (m - 1);
        l ← peek_loop fuel (drop (length o) here) m (p + 1) n;
        Ret (o :: l)
      else Ret []
  end.
Definition peek (atMost : Z) c : M (list bytes) :=
  let b := c_batch c in
  match msg_buf (b_m b) with
  | Some d => peek_loop (S (Z.to_nat (b_nReturned b - b_pos b))) (drop (Z.to_nat (b_data b)) d) atMost (b_pos b) (b_nReturned b)
  | None => Ret []
  end.
Definition peekFirst c : M bytes :=
  v ← peek 1 c; Ret (match v with o :: _ => o | [] => empty_object end).
Definition peekError c : M (option bytes) :=
  if negb (c_wasError c) then Ret None
  else
    v ← peek 1 c;
    match v with
    | [o] => e ← hasErrField o; verify e;; Ret (Some o)
    | _ => Throw EVerify
    end.

(** The destructor; [DESTRUCTOR_GUARD] keeps what it throws. *)
Definition destroy (lazyKillCursor : bool) : ST (C * DBClientCursor) unit := fun s =>
  let m : ST (C * DBClientCursor) unit :=
    c ← cur;
    if negb (c_cursorId c =? 0) && c_ownCursor c then
      m ← st_lift (assembleKillCursors malloc (c_cursorId c) Message_ctor);
      on_client (if lazyKillCursor then client_sayPiggyBack m else client_say m)
    else mret tt in
  ((m s).1, match (m s).2 with Throw EUndefined => Throw EUndefined | _ => Ret tt end).

(** ** Draining a cursor *)

(** [while (more()) next()], by the number of turns allowed for. *)
Fixpoint drain (fuel : nat) : ST (C * DBClientCursor) (list bytes) :=
  match fuel with
  | O => st_lift (Throw EUndefined)
  | S fuel =>
      m ← more;
      if (m : bool) then o ← next; l ← drain fuel; mret (o :: l) else mret []
  end.
Definition itcount (fuel : nat) : ST (C * DBClientCursor) Z := l ← drain fuel; mret (zlen l).

(** [query] of [DBClientBase]: no cursor when [init] fails. *)
Definition DBClientBase_query (ns query : bytes) (nToReturn nToSkip : Z) (fieldsToReturn : option bytes)
    (queryOptions batchSize : Z) : ST C (option DBClientCursor) := fun s =>
  match init (s, DBClientCursor_query ns query nToReturn nToSkip fieldsToReturn queryOptions batchSize) with
  | ((s, c), Ret true) => (s, Ret (Some c))
  | ((s, _), Ret false) => (s, Ret None)
  | ((s, _), Throw e) => (s, Throw e)
  end.
Definition DBClientBase_getMore (ns : bytes) (cursorId nToReturn options : Z) : ST C (option DBClientCursor) := fun s =>
  match init (s, DBClientCursor_more ns cursorId (if nToReturn <? 0 then Z.abs nToReturn else 0) options (Z.abs nToReturn)) with
  | ((s, c), Ret true) => (s, Ret (Some c))
  | ((s, _), Ret false) => (s, Ret None)
  | ((s, _), Throw e) => (s, Throw e)
  end.
(** The loop of [findN]. *)
Fixpoint findN_loop (n : nat) : ST (C * DBClientCursor) (list bytes) :=
  match n with
  | O => mret []
  | S n =>
      m ← more;
      if (m : bool) then o ← nextSafe; l ← findN_loop n; mret (o :: l) else mret []
  end.
(** A function of a cursor, which then ends. *)
Definition with_cursor {A} (lazyKillCursor : bool) (c : DBClientCursor) (f : ST (C * DBClientCursor) A) : ST C A := fun s =>
  let '(sc, r) := f (s, c) in
  let '(sc, _) := destroy lazyKillCursor sc in (sc.1, r).
(** [reserve] refuses what has wrapped around. *)
Definition findN (lazyKillCursor : bool) (ns query : bytes) (nToReturn nToSkip : Z) (fieldsToReturn : option bytes)
    (queryOptions batchSize : Z) : ST C (list bytes) :=
  st_lift (if Z.min batchSize nToReturn <? 0 then Throw EOutOfRange else Ret tt);;
  c ← DBClientBase_query ns query nToReturn nToSkip fieldsToReturn queryOptions batchSize;
  match c with
  | None => st_lift (Throw (EUassert 10276))
  | Some c => with_cursor lazyKillCursor c (findN_loop (Z.to_nat nToReturn))
  end.
Definition findOne (lazyKillCursor : bool) (ns query : bytes) (fieldsToReturn : option bytes) (queryOptions : Z)
    : ST C bytes :=
  v ← findN lazyKillCursor ns query 1 0 fieldsToReturn queryOptions 0;
  mret (match v with o :: _ => o | [] => empty_object end).
End Cursor.

(** ** A server that keeps the documented protocol

    [srv_result] is what a query selects, and [srv_open] the cursor the server
    holds for the client: its id, which is not 0, and the documents it has still to
    return.  A request is known by the bytes sent, a reply by the bytes received;
    of the ids in the two headers nothing is said, nor of what lies behind the
    reply in its buffer. *)

(** [k] documents of [docs] answer a request for [n], leaving the cursor [cid]. *)
Definition batch_answers (n : Z) (docs : list BSONObj) (k : nat) (cid : Z) : Prop :=
  if (n <? 0) || (n =? 1) then k = Nat.min (Z.to_nat (Z.abs n)) (length docs) /\ cid = 0
  else (k <= length docs)%nat /\ (n <> 0 -> Z.of_nat k <= n) /\
    (cid = 0 -> k = length docs) /\ (cid <> 0 -> (0 < k)%nat).

Definition sends (msg : Message) (op : Z) (body : bytes) : Prop :=
  zlen body + 16 <= int_max int32 /\
  exists mid, zlen mid = 8 /\ Message_sent msg = Ret (Some (message_bytes mid op body)).
Definition reply_to (msg : Message) (cid : Z) (docs : list BSONObj) : Prop :=
  exists mid flags sf slack, zlen mid = 8 /\ in_range int32 flags /\
    Z.land flags (Z.lor ResultFlag_ErrSet ResultFlag_CursorNotFound) = 0 /\
    msg = Message_of (message_bytes mid opReply
      (le4 flags ++ le8 cid ++ le4 sf ++ le4 (zlen docs) ++ concat (encode_obj <$> docs)) ++ slack) true.

Definition open_cursor (cid : Z) (rest : list BSONObj) : option (Z * list BSONObj) :=
  if cid =? 0 then None else Some (cid, rest).

Class Server (C : Type) `{Client C} := {
  srv_result : C -> bytes -> bytes -> Z -> option bytes -> list BSONObj;
  srv_open : C -> option (Z * list BSONObj);
  law_query s msg ns query skip n fields opts :
    sends msg dbQuery (le4 opts ++ ns ++ [nul] ++ le4 skip ++ le4 n ++ query ++ default [] fields) ->
    has_option opts QueryOption_CursorTailable = false -> has_option opts QueryOption_Exhaust = false ->
    nul ∉ ns -> in_range int32 opts -> in_range int32 skip -> in_range int32 n -> srv_open s = None ->
    exists s' k cid m, client_call msg s = (s', Ret (m, true)) /\
      let docs := srv_result s ns query skip fields in
      batch_answers n docs k cid /\ in_range int64 cid /\ reply_to m cid (take k docs) /\
      srv_open s' = open_cursor cid (drop k docs);
  law_more s msg ns n cid rest opts :
    sends msg dbGetMore (le4 opts ++ ns ++ [nul] ++ le4 n ++ le8 cid) ->
    nul ∉ ns -> in_range int32 opts -> in_range int32 n -> in_range int64 cid -> cid <> 0 ->
    srv_open s = Some (cid, rest) ->
    exists s' k cid' m, client_call msg s = (s', Ret (m, true)) /\
      batch_answers n rest k cid' /\ (cid' = 0 \/ cid' = cid) /\ reply_to m cid' (take k rest) /\
      srv_open s' = open_cursor cid' (drop k rest);
  law_kill s msg cid : sends msg dbKillCursors (le4 0 ++ le4 1 ++ le8 cid) -> in_range int64 cid ->
    (exists s', client_say msg s = (s', Ret tt) /\
      srv_open s' = match srv_open s with Some (id, rest) => if id =? cid then None else Some (id, rest) | None => None end) /\
    (exists s', client_sayPiggyBack msg s = (s', Ret tt) /\
      srv_open s' = match srv_open s with Some (id, rest) => if id =? cid then None else Some (id, rest) | None => None end);
  law_check s d n : exists s' r, client_checkResponse d n s = (s', Ret r) /\ srv_open s' = srv_open s }.

(** ** The requests of a cursor on the wire *)

Definition getMore_body (opts : Z) (ns : bytes) (n cid : Z) : bytes := le4 opts ++ ns ++ [nul] ++ le4 n ++ le8 cid.
Definition kill_body (cid : Z) : bytes := le4 0 ++ le4 1 ++ le8 cid.

Section Wire.
Context (malloc : Z -> bytes) (Hmalloc : forall n, 0 <= n -> zlen (malloc n) = n).

Lemma sends_message mid op body : zlen mid = 8 -> in_range int32 op -> 2 * zlen body <= BufferMaxSize ->
  sends (Message_of (message_bytes mid op body) true) op body.
Proof.
  intros Hm Ho Hs. pose proof (zlen_nonneg body). unfold BufferMaxSize in Hs.
  split; [change (int_max int32) with 2147483647; lia|]. exists mid. split; [done|].
  destruct (message_fields mid op body [] Hm Ho) as (Hl & _ & _); [change (int_max int32) with 2147483647; lia|].
  rewrite app_nil_r in Hl. unfold Message_sent. cbn [msg_buf Message_of Message_setData_]. rewrite Hl, ret_bind.
  rewrite <-(app_nil_r (message_bytes mid op body)), <-(zlen_message_bytes mid op body Hm), read_bytes_0.
  by rewrite ret_bind, app_nil_r.
Qed.
Ltac run_appends := repeat (match goal with |- (BufBuilder_appendBuf ?b ?s ≫= _) = _ =>
  destruct (BufBuilder_appendBuf b s) as [?|?]; [rewrite !ret_bind|done] end); done.
Lemma assembleGetMore_sends opts ns n cid : 2 * zlen (getMore_body opts ns n cid) <= BufferMaxSize ->
  exists msg, assembleGetMore malloc opts ns n cid Message_ctor = Ret msg /\ sends msg dbGetMore (getMore_body opts ns n cid).
Proof.
  intros Hs. set (l := [le4 opts; ns ++ [nul]; le4 n; le8 cid]).
  assert (concat l = getMore_body opts ns n cid) as Hl by (unfold l, getMore_body; cbn [concat]; by rewrite <-?app_assoc, app_nil_r).
  rewrite <-Hl in *.
  destruct (setData_step malloc dbGetMore (concat l) (append_list (BufBuilder_ctor 512) l)) as (mid & Hmid & E);
    [done|done|by apply append_list_ctor|].
  eexists. split; [|by apply (sends_message mid)]. rewrite <-E.
  unfold assembleGetMore, BufBuilder_appendNum, BufBuilder_appendStr. change (StringData_copyTo ns true) with (ns ++ [nul]).
  change (le_bytes (Z.to_nat (width int32 / 8))) with le4. change (le_bytes (Z.to_nat (width int64 / 8))) with le8.
  unfold l. cbn [append_list]. run_appends.
Qed.
Lemma assembleKillCursors_sends cid :
  exists msg, assembleKillCursors malloc cid Message_ctor = Ret msg /\ sends msg dbKillCursors (kill_body cid).
Proof.
  set (l := [le4 0; le4 1; le8 cid]).
  assert (concat l = kill_body cid) as Hl by (unfold l, kill_body; cbn [concat]; by rewrite app_nil_r).
  assert (2 * zlen (concat l) <= BufferMaxSize) as Hs.
  { rewrite Hl. unfold kill_body, BufferMaxSize. autorewrite with mongo. lia. }
  rewrite <-Hl in *.
  destruct (setData_step malloc dbKillCursors (concat l) (append_list (BufBuilder_ctor 512) l)) as (mid & Hmid & E);
    [done|done|by apply append_list_ctor|].
  eexists. split; [|by apply (sends_message mid)]. rewrite <-E.
  unfold assembleKillCursors, BufBuilder_appendNum.
  change (le_bytes (Z.to_nat (width int32 / 8))) with le4. change (le_bytes (Z.to_nat (width int64 / 8))) with le8.
  unfold l. cbn [append_list]. run_appends.
Qed.
End Wire.

(** ** A reply read back *)

Lemma reply_fields mid flags cid sf n data slack :
  zlen mid = 8 -> in_range int32 flags -> in_range int64 cid -> in_range int32 n ->
  let d := message_bytes mid opReply (le4 flags ++ le8 cid ++ le4 sf ++ le4 n ++ data) ++ slack in
  getResultFlags d = Ret flags /\ getCursorId d = Ret cid /\ getNReturned d = Ret n /\
  exists pre, zlen pre = QueryResult_size /\ d = pre ++ data ++ slack.
Proof.
  intros Hm Hf Hc Hn. cbv zeta.
  set (len := le4 (zlen (le4 flags ++ le8 cid ++ le4 sf ++ le4 n ++ data) + 16)).
  set (d := message_bytes _ _ _ ++ slack).
  assert (d = (len ++ mid ++ le4 opReply) ++ le4 flags ++ (le8 cid ++ le4 sf ++ le4 n ++ data ++ slack)) as E1.
  { unfold d, message_bytes. fold len. by rewrite <-!app_assoc. }
  assert (d = (len ++ mid ++ le4 opReply ++ le4 flags) ++ le8 cid ++ (le4 sf ++ le4 n ++ data ++ slack)) as E2.
  { rewrite E1. by rewrite <-!app_assoc. }
  assert (d = (len ++ mid ++ le4 opReply ++ le4 flags ++ le8 cid ++ le4 sf) ++ le4 n ++ (data ++ slack)) as E3.
  { rewrite E1. by rewrite <-!app_assoc. }
  assert (zlen (len ++ mid ++ le4 opReply) = 16) as H1 by (unfold len; autorewrite with mongo; lia).
  assert (zlen (len ++ mid ++ le4 opReply ++ le4 flags) = 20) as H2 by (unfold len; autorewrite with mongo; lia).
  assert (zlen (len ++ mid ++ le4 opReply ++ le4 flags ++ le8 cid ++ le4 sf) = 32) as H3
    by (unfold len; autorewrite with mongo; lia).
  split_and!.
  - unfold getResultFlags. rewrite E1, <-H1. apply (readLE_at int32 4); [done|lia|done].
  - unfold getCursorId. rewrite E2, <-H2. apply (readLE_at int64 8); [done|lia|done].
  - unfold getNReturned. rewrite E3, <-H3. apply (readLE_at int32 4); [done|lia|done].
  - exists ((len ++ mid ++ le4 opReply ++ le4 flags ++ le8 cid ++ le4 sf) ++ le4 n). split.
    + rewrite zlen_app, H3, zlen_le4. done.
    + by rewrite E3, <-!app_assoc.
Qed.

Lemma BSONObj_at_encode o b : object_sized o -> BSONObj_at (encode_obj o ++ b) = Ret (encode_obj o).
Proof.
  intros Hs. pose proof (object_sized_int o Hs) as Hi. unfold BSONObj_at, objsize.
  rewrite (proj1 (objsize_encode o b Hi)), ret_bind.
  assert (5 <= zlen (encode_obj o)) by (rewrite zlen_encode_obj; pose proof (zlen_nonneg (encode_elements o)); lia).
  unfold object_sized in Hs. destruct ((0 <? _) && (_ <=? BSONObjMaxInternalSize)) eqn:E; [|lia].
  cbn [massert guard_throw]. rewrite ret_bind. apply read_bytes_0.
Qed.

(** ** The state of a cursor of a server that keeps the protocol *)

Section Drain.
Context {C : Type} `{Server C} (malloc : Z -> bytes) (turns : nat).
Context (Hmalloc : forall n, 0 <= n -> zlen (malloc n) = n).
Implicit Types (s : C) (c : DBClientCursor).

(** What does not change while the cursor is drained. *)
Record plain_cursor (c : DBClientCursor) : Prop := mkPlain {
  pc_shim : c_shim c = None;
  pc_putBack : c_putBack c = [];
  pc_limit : 0 <= c_nToReturn c <= int_max int32;
  pc_batch : 0 <= c_batchSize c <= int_max int32 /\ c_batchSize c <> 1;
  pc_returned : 0 <= c_nReturned c;
  pc_opts : has_option (c_opts c) QueryOption_CursorTailable = false;
  pc_ns : 2 * (zlen (c_ns c) + 32) <= BufferMaxSize /\ nul ∉ c_ns c /\ in_range int32 (c_opts c) }.

(** The documents of [left] are at hand, and those of [rest] with the server. *)
Record holds (s : C) (c : DBClientCursor) (left rest : list BSONObj) : Prop := mkHolds {
  h_batch : exists pre slack, msg_buf (b_m (c_batch c)) = Some (pre ++ concat (encode_obj <$> left) ++ slack) /\
    b_data (c_batch c) = zlen pre /\ b_nReturned (c_batch c) = b_pos (c_batch c) + zlen left;
  h_open : srv_open s = open_cursor (c_cursorId c) rest;
  h_closed : c_cursorId c = 0 -> rest = [];
  h_id : in_range int64 (c_cursorId c);
  h_docs : Forall object_sized (left ++ rest) /\ zlen (left ++ rest) <= int_max int32;
  h_limit : c_nToReturn c <> 0 -> c_nReturned c + zlen left <= c_nToReturn c /\
    (c_cursorId c <> 0 -> c_nReturned c + zlen left < c_nToReturn c) }.

(** What the cursor has still to give of documents. *)
Definition wanted (c : DBClientCursor) (docs : list BSONObj) : list BSONObj :=
  if c_nToReturn c =? 0 then docs else take (Z.to_nat (c_nToReturn c - c_nReturned c)) docs.

Lemma nextBatchSize_plain c : plain_cursor c ->
  (c_nToReturn c <> 0 -> c_nReturned c < c_nToReturn c) ->
  exists n, nextBatchSize c = Ret n /\ in_range int32 n /\
    if c_nToReturn c =? 0 then n = c_batchSize c
    else n = c_batchSize c /\ 0 < n < c_nToReturn c - c_nReturned c \/ n = - (c_nToReturn c - c_nReturned c).
Proof.
  intros [] Hlt. unfold nextBatchSize, in_range in *.
  change (int_max int32) with 2147483647 in *. change (int_min int32) with (-2147483648) in *.
  destruct (c_nToReturn c =? 0) eqn:E; cbn [negb].
  { exists (c_batchSize c). split_and!; [done|lia|lia|done]. }
  rewrite wrap_id; [|done|unfold in_range; change (int_max int32) with 2147483647; change (int_min int32) with (-2147483648); lia].
  destruct (negb _ && _) eqn:E2.
  { exists (c_batchSize c). split_and!; [done|lia|lia|left; lia]. }
  rewrite int_result_ok by (unfold in_range; change (int_max int32) with 2147483647; change (int_min int32) with (-2147483648); lia).
  eexists. split_and!; [done|lia|lia|by right].
Qed.

(** A reply to the request for the next batch of [docs]. *)
Lemma batch_wanted c n docs k cid : plain_cursor c ->
  (c_nToReturn c <> 0 -> c_nReturned c < c_nToReturn c) ->
  (if c_nToReturn c =? 0 then n = c_batchSize c
   else n = c_batchSize c /\ 0 < n < c_nToReturn c - c_nReturned c \/ n = - (c_nToReturn c - c_nReturned c)) ->
  batch_answers n docs k cid ->
  let rest := if cid =? 0 then [] else drop k docs in
  wanted c (take k docs ++ rest) = wanted c docs /\ (take k docs = [] -> cid = 0) /\
  (c_nToReturn c <> 0 -> c_nReturned c + zlen (take k docs) <= c_nToReturn c /\
    (cid <> 0 -> c_nReturned c + zlen (take k docs) < c_nToReturn c)).
Proof.
  intros [] Hlt Hn Hk. cbv zeta. unfold wanted.
  assert (zlen (take k docs) = Z.of_nat (k `min` length docs)) as Hz by (unfold zlen; by rewrite length_take).
  assert (length (take k docs) = (k `min` length docs)%nat) as Hl by apply length_take.
  assert (take k docs = [] -> (k `min` length docs)%nat = 0%nat) as Hnil by (intros E; by rewrite E in Hl).
  unfold batch_answers in Hk.
  destruct (c_nToReturn c =? 0) eqn:E0.
  { destruct ((n <? 0) || (n =? 1)) eqn:E1; [lia|]. destruct Hk as (Hk1 & Hk2 & Hk3 & Hk4).
    split; [|split; [|lia]].
    - destruct (cid =? 0) eqn:Ec; [|by rewrite take_drop].
      rewrite Hk3 by lia. rewrite app_nil_r. by rewrite firstn_all.
    - intros E%Hnil. destruct (decide (cid = 0)); [done|]. specialize (Hk4 n0). lia. }
  specialize (Hlt ltac:(lia)).
  destruct ((n <? 0) || (n =? 1)) eqn:E1.
  - assert (n = - (c_nToReturn c - c_nReturned c)) as En by lia. destruct Hk as [-> ->]. cbn [Z.eqb].
    split; [|split; [done|lia]]. rewrite app_nil_r, take_take.
    replace (Z.to_nat (Z.abs n)) with (Z.to_nat (c_nToReturn c - c_nReturned c)) by lia.
    destruct (decide (Z.to_nat (c_nToReturn c - c_nReturned c) <= length docs)%nat).
    + f_equal. lia.
    + rewrite !take_ge by lia. done.
  - assert (n = c_batchSize c /\ 0 < n < c_nToReturn c - c_nReturned c) as [En Hn'] by lia.
    destruct Hk as (Hk1 & Hk2 & Hk3 & Hk4). specialize (Hk2 ltac:(lia)). split; [|split; [|lia]].
    + destruct (cid =? 0) eqn:Ec; [|by rewrite take_drop].
      rewrite Hk3 by lia. by rewrite app_nil_r, firstn_all.
    + intros E%Hnil. destruct (decide (cid = 0)) as [|Hc]; [done|]. specialize (Hk4 Hc). lia.
Qed.

(** ** The batch a reply brings *)

Definition with_reply (m : Message) (flags cid n : Z) (c : DBClientCursor) : DBClientCursor :=
  set_batch (mkBatch m n 0 QueryResult_size) (set_cursorId cid (set_resultFlags flags (set_batch_m m c))).

Lemma dataReceived_reply s c cid docs m :
  reply_to m cid docs -> in_range int64 cid -> zlen docs <= int_max int32 ->
  has_option (c_opts c) QueryOption_CursorTailable = false ->
  exists s' r flags, dataReceived (s, set_batch_m m c) = ((s', with_reply m flags cid (zlen docs) c), Ret r) /\
    srv_open s' = srv_open s /\
    exists pre slack, msg_buf m = Some (pre ++ concat (encode_obj <$> docs) ++ slack) /\ zlen pre = QueryResult_size.
Proof.
  intros (mid & flags & sf & slack & Hmid & Hf & Hfl & ->) Hcid Hn Ho.
  assert (in_range int32 (zlen docs)) as Hn'.
  { pose proof (zlen_nonneg docs). by apply uint_of_int. }
  destruct (reply_fields mid flags cid sf (zlen docs) (concat (encode_obj <$> docs)) slack Hmid Hf Hcid Hn')
    as (E1 & E2 & E3 & pre & Hpre & Ed).
  set (d := message_bytes _ _ _ ++ slack) in *.
  assert (Z.land flags ResultFlag_ErrSet = 0 /\ Z.land flags ResultFlag_CursorNotFound = 0) as [F1 F2].
  { rewrite Z.land_lor_distr_r in Hfl. by apply Z.lor_eq_0_iff in Hfl. }
  unfold dataReceived, tailable. erewrite (st_bind_run cur) by reflexivity. cbn [snd].
  change (singleData (b_m (c_batch (set_batch_m (Message_of d true) c)))) with (Ret (E := exn) d).
  rewrite st_bind_lift, E1, st_bind_lift. erewrite (st_bind_run (upd _)) by reflexivity. cbn [fst snd].
  rewrite F1, F2. cbn [Z.eqb negb].
  erewrite (st_bind_run (mret tt)) by reflexivity. erewrite (st_bind_run (mret tt)) by reflexivity.
  erewrite (st_bind_run cur) by reflexivity. cbn [snd].
  change (c_opts (set_resultFlags flags (set_batch_m (Message_of d true) c))) with (c_opts c).
  rewrite Ho. cbn [negb]. rewrite orb_true_r, E2, st_bind_lift.
  erewrite (st_bind_run (upd _)) by reflexivity. cbn [fst snd].
  rewrite E3, st_bind_lift. erewrite (st_bind_run (upd _)) by reflexivity. cbn [fst snd].
  destruct (law_check s (drop (Z.to_nat QueryResult_size) d) (zlen docs)) as (s' & r & E & Hs).
  unfold on_client. cbn [fst snd]. rewrite E. eexists _, _, flags. split; [reflexivity|]. split; [done|].
  exists pre, slack. split; [|done]. change (msg_buf (Message_of d true)) with (Some d). by rewrite Ed.
Qed.

Lemma plain_with_reply m flags cid n c : plain_cursor c -> plain_cursor (with_reply m flags cid n c).
Proof. by intros []. Qed.
Lemma take_sized k (docs : list BSONObj) :
  Forall object_sized docs /\ zlen docs <= int_max int32 ->
  Forall object_sized (take k docs) /\ zlen (take k docs) <= int_max int32.
Proof.
  intros [Hs Hl]. split; [by apply Forall_take|]. unfold zlen in *. rewrite length_take. lia.
Qed.
Lemma answers_sized (docs : list BSONObj) k cid :
  Forall object_sized docs /\ zlen docs <= int_max int32 ->
  let rest := if cid =? 0 then [] else drop k docs in
  Forall object_sized (take k docs ++ rest) /\ zlen (take k docs ++ rest) <= int_max int32.
Proof.
  intros Hd. cbv zeta. destruct (cid =? 0); [rewrite app_nil_r; by apply take_sized|]. by rewrite take_drop.
Qed.
Lemma open_cursor_rest cid docs k : open_cursor cid (drop k docs) = open_cursor cid (if cid =? 0 then [] else drop k docs).
Proof. unfold open_cursor. by destruct (cid =? 0). Qed.

(** The batch that has arrived, in the state of a cursor. *)
Lemma holds_reply s c n docs k cid m flags pre slack :
  plain_cursor c -> (c_nToReturn c <> 0 -> c_nReturned c < c_nToReturn c) ->
  (if c_nToReturn c =? 0 then n = c_batchSize c
   else n = c_batchSize c /\ 0 < n < c_nToReturn c - c_nReturned c \/ n = - (c_nToReturn c - c_nReturned c)) ->
  batch_answers n docs k cid -> in_range int64 cid ->
  Forall object_sized docs /\ zlen docs <= int_max int32 ->
  msg_buf m = Some (pre ++ concat (encode_obj <$> take k docs) ++ slack) -> zlen pre = QueryResult_size ->
  srv_open s = open_cursor cid (drop k docs) ->
  exists left rest, holds s (with_reply m flags cid (zlen (take k docs)) c) left rest /\
    wanted c (left ++ rest) = wanted c docs /\ (left = [] -> cid = 0).
Proof.
  intros Hp Hlt Hn Hk Hcid Hd Hb Hpre Hopen.
  destruct (batch_wanted c n docs k cid Hp Hlt Hn Hk) as (Hw & Hnil & Hlim).
  exists (take k docs), (if cid =? 0 then [] else drop k docs). split; [|done]. constructor.
  - exists pre, slack. by split_and!.
  - cbn. by rewrite <-open_cursor_rest.
  - cbn. intros ->. done.
  - done.
  - by apply answers_sized.
  - done.
Qed.
Lemma requestMore_holds s c rest : plain_cursor c -> holds s c [] rest -> c_cursorId c <> 0 ->
  exists s' c' left' rest', requestMore malloc (s, c) = ((s', c'), Ret tt) /\
    plain_cursor c' /\ holds s' c' left' rest' /\ (left' = [] -> c_cursorId c' = 0) /\
    c_nToReturn c' = c_nToReturn c /\ c_nReturned c' = c_nReturned c /\ wanted c (left' ++ rest') = wanted c rest.
Proof.
  intros Hp Hh Hid. pose proof Hh as [(pre & slack & Hb & Hdt & Hn) Hopen _ Hid64 Hdocs Hlim].
  change (zlen (@nil BSONObj)) with 0 in *. cbn [app] in Hdocs.
  assert (c_nToReturn c <> 0 -> c_nReturned c < c_nToReturn c) as Hlt by (intros Hz; destruct (Hlim Hz); lia).
  unfold requestMore. erewrite (st_bind_run cur) by reflexivity. cbn [snd].
  destruct (negb (c_cursorId c =? 0) && _) eqn:E; [|lia]. cbn [verify guard_throw]. rewrite st_bind_lift.
  destruct (nextBatchSize_plain c Hp Hlt) as (n & -> & Hn32 & Hnb). rewrite st_bind_lift.
  destruct (assembleGetMore_sends malloc Hmalloc (c_opts c) (c_ns c) n (c_cursorId c)) as (msg & -> & Hsend).
  { destruct Hp. unfold getMore_body. autorewrite with mongo. lia. }
  rewrite st_bind_lift. unfold open_cursor in Hopen. destruct (c_cursorId c =? 0) eqn:E0; [lia|].
  destruct (law_more s msg (c_ns c) n (c_cursorId c) rest (c_opts c) Hsend (proj1 (proj2 (pc_ns _ Hp))) (proj2 (proj2 (pc_ns _ Hp))) Hn32 Hid64 Hid Hopen)
    as (s1 & k & cid & m & Hcall & Hk & Hcid & Hrep & Hopen1).
  unfold on_client at 1. erewrite (st_bind_run _ _ (s, c)) by (cbn [fst snd]; rewrite Hcall; reflexivity).
  cbn [snd]. erewrite (st_bind_run (upd _)) by reflexivity. cbn [fst snd].
  assert (in_range int64 cid) as Hcid64 by (by destruct Hcid as [-> | ->]).
  destruct (dataReceived_reply s1 c cid (take k rest) m Hrep Hcid64) as (s2 & r & flags & Hd & Hs2 & pre' & slack' & Hm & Hpre');
    [by apply take_sized|apply Hp|].
  rewrite (st_bind_run _ _ _ _ _ Hd). rewrite <-Hs2 in Hopen1.
  destruct (holds_reply s2 c n rest k cid m flags pre' slack' Hp Hlt Hnb Hk Hcid64 Hdocs Hm Hpre' Hopen1)
    as (left' & rest' & Hh' & Hw & Hnil).
  eexists s2, _, left', rest'. split; [reflexivity|]. split; [by apply plain_with_reply|]. done.
Qed.

(** ** Asking for documents, one at a time *)

Lemma in_batch_holds s c left rest : holds s c left rest -> in_batch c = negb (bool_decide (left = [])).
Proof.
  intros [(? & ? & _ & _ & Hn) _ _ _ _ _]. unfold in_batch. rewrite Hn.
  destruct left as [|o left]; [change (zlen (@nil BSONObj)) with 0|rewrite zlen_cons; pose proof (zlen_nonneg left)].
  - rewrite bool_decide_eq_true_2 by done. cbn [negb]. lia.
  - rewrite bool_decide_eq_false_2 by done. cbn [negb]. lia.
Qed.
Lemma more_holds s c left rest : plain_cursor c -> holds s c left rest ->
  exists s' c' left' rest' b, more malloc turns (s, c) = ((s', c'), Ret b) /\
    plain_cursor c' /\ holds s' c' left' rest' /\
    c_nToReturn c' = c_nToReturn c /\ c_nReturned c' = c_nReturned c /\
    wanted c' (left' ++ rest') = wanted c (left ++ rest) /\
    if b then left' <> [] /\ (c_nToReturn c' <> 0 -> c_nReturned c' < c_nToReturn c')
    else wanted c (left ++ rest) = [] /\ c_cursorId c' = 0.
Proof.
  intros Hp Hh. pose proof Hp as [Hsh Hpb Hlim0 Hbat Hret Hopt Hns]. pose proof Hh as [Hbatch Hopen Hcl Hid64 Hdocs Hlim].
  unfold more. erewrite (st_bind_run cur) by reflexivity. cbn [snd]. rewrite Hpb, Hsh.
  unfold rawMore. erewrite (st_bind_run cur) by reflexivity. cbn [snd].
  destruct (negb (c_nToReturn c =? 0) && _) eqn:E0.
  { exists s, c, left, rest, false. split_and!; try done.
    - unfold wanted. destruct (c_nToReturn c =? 0) eqn:Ez; [done|]. rewrite Z2Nat.nonpos by lia. done.
    - destruct (decide (c_cursorId c = 0)) as [|Hne]; [done|]. destruct Hlim as [_ Hl]; [lia|]. specialize (Hl Hne).
      pose proof (zlen_nonneg left). lia. }
  assert (c_nToReturn c <> 0 -> c_nReturned c < c_nToReturn c) as Hlt by lia.
  rewrite (in_batch_holds s c left rest Hh). destruct left as [|o left].
  - rewrite bool_decide_eq_true_2 by done. cbn [negb]. destruct (c_cursorId c =? 0) eqn:E1.
    { exists s, c, [], rest, false. assert (c_cursorId c = 0) as Hz by lia. split_and!; try done.
      rewrite (Hcl Hz). unfold wanted. destruct (_ =? 0); [done|]. apply take_nil. }
    destruct (requestMore_holds s c rest Hp Hh) as (s' & c' & left' & rest' & E & Hp' & Hh' & Hnil & HN & HR & Hw); [lia|].
    rewrite (st_bind_run _ _ _ _ _ E). erewrite (st_bind_run cur) by reflexivity. cbn [snd].
    rewrite (in_batch_holds s' c' left' rest' Hh').
    exists s', c', left', rest', (negb (bool_decide (left' = []))). split; [done|]. split; [done|]. split; [done|].
    split; [done|]. split; [done|].
    assert (wanted c' (left' ++ rest') = wanted c rest) as Hw' by (unfold wanted in *; by rewrite HN, HR).
    split; [done|]. case_bool_decide as El; cbn [negb].
    + specialize (Hnil El). split; [|done]. change ([] ++ rest) with rest. rewrite <-Hw, El, (h_closed _ _ _ _ Hh' Hnil).
      unfold wanted. destruct (_ =? 0); [done|]. apply take_nil.
    + split; [done|]. rewrite HN, HR. done.
  - rewrite bool_decide_eq_false_2 by done. cbn [negb]. by exists s, c, (o :: left), rest, true.
Qed.
Lemma next_holds s c o left rest : plain_cursor c -> holds s c (o :: left) rest ->
  (c_nToReturn c <> 0 -> c_nReturned c < c_nToReturn c) ->
  exists c', next malloc (s, c) = ((s, c'), Ret (encode_obj o)) /\
    plain_cursor c' /\ holds s c' left rest /\ wanted c (o :: left ++ rest) = o :: wanted c' (left ++ rest).
Proof.
  intros Hp Hh Hlt. pose proof Hp as [Hsh Hpb Hlim0 Hbat Hret Hopt Hns].
  pose proof Hh as [(pre & slack & Hb & Hdt & Hn) Hopen Hcl Hid64 [Hsz Hlen] Hlim].
  unfold next. erewrite (st_bind_run (upd _)) by reflexivity. erewrite (st_bind_run cur) by reflexivity.
  cbn [fst snd set_nReturned c_putBack c_shim]. rewrite Hpb, Hsh. unfold rawNext.
  erewrite (st_bind_run cur) by reflexivity. cbn [snd].
  change (c_batch (set_nReturned _ c)) with (c_batch c).
  change (in_batch (set_nReturned _ c)) with (in_batch c). rewrite (in_batch_holds s c _ rest Hh).
  rewrite bool_decide_eq_false_2 by done. cbn [negb uassert guard_throw]. rewrite st_bind_lift.
  erewrite (st_bind_run (upd _)) by reflexivity. cbn [fst snd].
  assert (singleData (b_m (c_batch c)) = Ret (pre ++ concat (encode_obj <$> o :: left) ++ slack)) as ->
    by (unfold singleData; by rewrite Hb).
  rewrite st_bind_lift, Hdt, drop_zlen. cbn [fmap list_fmap concat]. rewrite <-app_assoc.
  apply Forall_cons in Hsz as [Ho Hsz]. rewrite BSONObj_at_encode by done. rewrite st_bind_lift.
  erewrite (st_bind_run (upd _)) by reflexivity. cbn [fst snd].
  eexists. split; [reflexivity|]. cbn [app] in Hlen. rewrite zlen_cons in *. split; [|split].
  - constructor; try done. cbn. lia.
  - constructor; cbn [c_batch b_m b_data b_nReturned b_pos c_cursorId c_nToReturn c_nReturned set_batch set_nReturned] in *; try done.
    + exists (pre ++ encode_obj o), slack. rewrite Hb. cbn [fmap list_fmap concat]. rewrite <-!app_assoc, zlen_app.
      split_and!; [done|done|lia].
    + split; [done|]. lia.
    + intros Hz. destruct (Hlim Hz) as [H1 H2]. split; [lia|]. intros H3. specialize (H2 H3). lia.
  - unfold wanted. cbn [c_nToReturn c_nReturned set_batch set_nReturned].
    destruct (c_nToReturn c =? 0) eqn:E; [done|]. specialize (Hlt ltac:(lia)).
    replace (Z.to_nat (c_nToReturn c - c_nReturned c)) with (S (Z.to_nat (c_nToReturn c - (c_nReturned c + 1)))) by lia.
    done.
Qed.
Lemma drain_holds fuel s c left rest : plain_cursor c -> holds s c left rest ->
  (length (wanted c (left ++ rest)) < fuel)%nat ->
  exists s' c', drain malloc turns fuel (s, c) = ((s', c'), Ret (encode_obj <$> wanted c (left ++ rest))) /\
    c_cursorId c' = 0 /\ srv_open s' = None.
Proof.
  revert s c left rest. induction fuel as [|fuel IH]; intros s c left rest Hp Hh Hf; [lia|]. cbn [drain].
  destruct (more_holds s c left rest Hp Hh) as (s1 & c1 & left1 & rest1 & b & E & Hp1 & Hh1 & HN & HR & Hw & Hb).
  rewrite (st_bind_run _ _ _ _ _ E). destruct b.
  - destruct Hb as [Hne Hlt]. destruct left1 as [|o left1]; [done|].
    destruct (next_holds s1 c1 o left1 rest1 Hp1 Hh1 Hlt) as (c2 & E2 & Hp2 & Hh2 & Hw2).
    rewrite (st_bind_run _ _ _ _ _ E2). rewrite <-Hw in Hf |- *. cbn [app] in Hf |- *. rewrite Hw2 in Hf |- *.
    destruct (IH s1 c2 left1 rest1 Hp2 Hh2) as (s3 & c3 & E3 & ? & ?); [cbn in Hf; lia|].
    rewrite (st_bind_run _ _ _ _ _ E3). by exists s3, c3.
  - destruct Hb as [-> Hid]. exists s1, c1. split_and!; [done|done|].
    rewrite (h_open _ _ _ _ Hh1). unfold open_cursor. by rewrite Hid.
Qed.
End Drain.

(** ** Properties *)

Section Query.
Context {C : Type} `{Server C} (malloc : Z -> bytes) (turns : nat).
Context (Hmalloc : forall n, 0 <= n -> zlen (malloc n) = n).
Context (ns : bytes) (query : BSONObj) (nToReturn nToSkip : Z) (fields : option BSONObj) (opts batchSize : Z).
Let ask : ST C (option DBClientCursor) :=
  DBClientBase_query malloc ns (encode_obj query) nToReturn nToSkip (encode_obj <$> fields) opts batchSize.

(** A query the driver and the server accept. *)
Record query_ok : Prop := mkQueryOk {
  q_ns : nul ∉ ns;
  q_ints : in_range int32 nToReturn /\ in_range int32 nToSkip /\ in_range int32 opts /\ in_range int32 batchSize;
  q_opts : has_option opts QueryOption_CursorTailable = false /\ has_option opts QueryOption_Exhaust = false;
  q_size : 2 * (zlen (query_body ns query 0 nToSkip fields opts) + 16) <= BufferMaxSize }.
(** The documents it selects. *)
Definition selected (s : C) : list BSONObj :=
  srv_result s ns (encode_obj query) nToSkip (encode_obj <$> fields).
Let c0 : DBClientCursor :=
  DBClientCursor_query ns (encode_obj query) nToReturn nToSkip (encode_obj <$> fields) opts batchSize.

Lemma query_body_split n : query_body ns query n nToSkip fields opts =
  le4 opts ++ ns ++ [nul] ++ le4 nToSkip ++ le4 n ++ encode_obj query ++ default [] (encode_obj <$> fields).
Proof. unfold query_body. by destruct fields. Qed.
Lemma zlen_query_body n : zlen (query_body ns query n nToSkip fields opts) = zlen (query_body ns query 0 nToSkip fields opts).
Proof. unfold query_body. autorewrite with mongo. lia. Qed.
Lemma ns_short : query_ok -> 2 * (zlen ns + 32) <= BufferMaxSize.
Proof.
  intros [_ _ _ Hs]. rewrite query_body_split in Hs. pose proof (zlen_nonneg (encode_obj query)).
  pose proof (zlen_nonneg (encode_elements query)).
  pose proof (zlen_nonneg (default [] (encode_obj <$> fields))). autorewrite with mongo in Hs.
  rewrite zlen_encode_obj in *. lia.
Qed.

Lemma ask_opens s n : query_ok -> srv_open s = None -> nextBatchSize c0 = Ret n -> in_range int32 n ->
  Forall object_sized (selected s) /\ zlen (selected s) <= int_max int32 ->
  exists s' k cid m flags pre slack,
    ask s = (s', Ret (Some (with_reply m flags cid (zlen (take k (selected s))) c0))) /\
    batch_answers n (selected s) k cid /\ in_range int64 cid /\
    msg_buf m = Some (pre ++ concat (encode_obj <$> take k (selected s)) ++ slack) /\ zlen pre = QueryResult_size /\
    srv_open s' = open_cursor cid (drop k (selected s)).
Proof.
  intros [Hns (HN & Hskip & Hopts & Hbs) [Ho1 Ho2] Hs] Hopen Hnb Hn Hdocs. unfold ask, DBClientBase_query. fold c0.
  destruct (assembleRequest_spec malloc ns query n nToSkip fields opts Hmalloc) as (mid & Hmid & E).
  { rewrite zlen_query_body. lia. }
  assert (sends (Message_of (message_bytes mid dbQuery (query_body ns query n nToSkip fields opts)) true) dbQuery
    (le4 opts ++ ns ++ [nul] ++ le4 nToSkip ++ le4 n ++ encode_obj query ++ default [] (encode_obj <$> fields))) as Hsend.
  { rewrite <-query_body_split. apply sends_message; [done|done|]. rewrite zlen_query_body. lia. }
  destruct (law_query s _ _ _ _ _ _ _ Hsend Ho1 Ho2 Hns Hopts Hskip Hn Hopen)
    as (s1 & k & cid & m & Hcall & Hk & Hcid & Hrep & Hopen1). fold (selected s) in Hk, Hrep, Hopen1.
  assert (_assembleInit malloc c0 = Ret (Message_of (message_bytes mid dbQuery (query_body ns query n nToSkip fields opts)) true)) as Ea.
  { unfold _assembleInit. rewrite Hnb, ret_bind. exact E. }
  unfold init. erewrite (st_bind_run cur) by reflexivity. cbn [snd]. rewrite Ea, st_bind_lift.
  unfold on_client at 1. erewrite (st_bind_run _ _ (s, c0)) by (cbn [fst snd]; rewrite Hcall; reflexivity). cbv beta iota. cbn [fst snd].
  erewrite (st_bind_run (upd _)) by reflexivity. cbn [fst snd negb].
  assert (Message_empty m = false) as -> by (by destruct Hrep as (? & ? & ? & ? & _ & _ & _ & ->)).
  destruct (dataReceived_reply s1 c0 cid (take k (selected s)) m Hrep Hcid) as (s2 & r & flags & Hd & Hs2 & pre & slack & Hm & Hpre);
    [by apply take_sized|exact Ho1|].
  rewrite (st_bind_run _ _ _ _ _ Hd). rewrite <-Hs2 in Hopen1.
  exists s2, k, cid, m, flags, pre, slack. done.
Qed.

Lemma plain_c0 : query_ok -> 0 <= nToReturn -> 0 <= batchSize -> plain_cursor c0.
Proof.
  intros Hq HN Hb. pose proof (ns_short Hq) as Hs. destruct Hq as [Hns (HN32 & Hskip & Hopts & Hbs) [Ho1 Ho2] _].
  unfold in_range in *. change (int_max int32) with 2147483647 in *.
  constructor; cbn [c0 DBClientCursor_query c_nToReturn c_batchSize]; try done.
  - unfold c0. cbn [DBClientCursor_query c_nToReturn]. rewrite Ho1. change (int_max int32) with 2147483647. lia.
  - unfold c0. cbn [DBClientCursor_query c_batchSize]. change (int_max int32) with 2147483647.
    destruct (batchSize =? 1) eqn:E; lia.
Qed.
End Query.

(** C7: asking a cursor for documents until there are no more gives the documents
    the query selects, the first [nToReturn] of them when that is not 0, each once
    and in order, whatever batch size is asked for and however many documents the
    server puts in a batch; it ends, and then the server holds no cursor. *)
Theorem cursor_returns_result {C : Type} `{Server C} malloc turns ns query nToReturn nToSkip fields opts batchSize (s : C) :
  (forall n, 0 <= n -> zlen (malloc n) = n) ->
  query_ok ns query nToReturn nToSkip fields opts batchSize -> 0 <= nToReturn -> 0 <= batchSize ->
  srv_open s = None ->
  let docs := selected ns query nToSkip fields s in
  Forall object_sized docs /\ zlen docs <= int_max int32 ->
  exists s1 c1 s2 c2,
    DBClientBase_query malloc ns (encode_obj query) nToReturn nToSkip (encode_obj <$> fields) opts batchSize s
      = (s1, Ret (Some c1)) /\
    drain malloc turns (S (length docs)) (s1, c1)
      = ((s2, c2), Ret (encode_obj <$> if nToReturn =? 0 then docs else take (Z.to_nat nToReturn) docs)) /\
    c_cursorId c2 = 0 /\ srv_open s2 = None.
Proof.
  intros Hmalloc Hq HN Hb Hopen docs Hdocs.
  set (c0 := DBClientCursor_query ns (encode_obj query) nToReturn nToSkip (encode_obj <$> fields) opts batchSize).
  assert (plain_cursor c0) as Hp by by eapply plain_c0.
  assert (c_nToReturn c0 = nToReturn /\ c_nReturned c0 = 0) as [EN ER].
  { split; [|done]. unfold c0. cbn. by rewrite (proj1 (q_opts _ _ _ _ _ _ _ Hq)). }
  destruct (nextBatchSize_plain c0 Hp) as (n & Hn & Hn32 & Hnb); [lia|].
  destruct (ask_opens malloc Hmalloc ns query nToReturn nToSkip fields opts batchSize s n Hq Hopen Hn Hn32 Hdocs)
    as (s1 & k & cid & m & flags & pre & slack & E & Hk & Hcid & Hm & Hpre & Hopen1). fold docs in E, Hk, Hm, Hopen1.
  fold c0 in E.
  destruct (holds_reply s1 c0 n docs k cid m flags pre slack Hp) as (left & rest & Hh & Hw & _);
    [lia|done|done|done|done|done|done|done|].
  set (c1 := with_reply m flags cid _ c0) in *.
  destruct (drain_holds malloc turns Hmalloc (S (length docs)) s1 c1 left rest) as (s2 & c2 & Ed & ? & ?).
  - by apply plain_with_reply.
  - done.
  - change (wanted c1 (left ++ rest)) with (wanted c0 (left ++ rest)). rewrite Hw. unfold wanted.
    destruct (_ =? 0); [lia|]. rewrite length_take. lia.
  - exists s1, c1, s2, c2. split; [done|]. split; [|done]. rewrite Ed.
    change (wanted c1 (left ++ rest)) with (wanted c0 (left ++ rest)). rewrite Hw. unfold wanted.
    rewrite EN, ER, Z.sub_0_r. done.
Qed.

(** ** Property: no cursor is left behind *)

(** What a user may do with a cursor, whatever is thrown on the way. *)
Inductive cursor_call :=
  | CursorMore | CursorNext | CursorNextSafe | CursorPutBack (o : bytes) | CursorSetBatchSize (n : Z)
  | CursorPeek (atMost : Z) | CursorPeekError.

Section Use.
Context {C : Type} `{Client C} (malloc : Z -> bytes) (turns : nat).
Definition run_cursor_call (call : cursor_call) (s : C * DBClientCursor) : C * DBClientCursor :=
  match call with
  | CursorMore => (more malloc turns s).1
  | CursorNext => (next malloc s).1
  | CursorNextSafe => (nextSafe malloc s).1
  | CursorPutBack o => (s.1, putBack o s.2)
  | CursorSetBatchSize n => (s.1, setBatchSize (wrap int32 n) s.2)
  | CursorPeek _ | CursorPeekError => s
  end.
Definition use (l : list cursor_call) (s : C * DBClientCursor) : C * DBClientCursor :=
  foldl (fun s call => run_cursor_call call s) s l.
End Use.

Section Kill.
Context {C : Type} `{Server C} (malloc : Z -> bytes) (turns : nat).
Context (Hmalloc : forall n, 0 <= n -> zlen (malloc n) = n).
Implicit Types (s : C) (c : DBClientCursor).

(** The server holds the cursor the client knows of, and no other. *)
Record linked (s : C) (c : DBClientCursor) : Prop := mkLinked {
  l_shim : c_shim c = None;
  l_own : c_ownCursor c = true;
  l_ints : in_range int32 (c_opts c) /\ in_range int32 (c_batchSize c) /\ in_range int64 (c_cursorId c);
  l_opts : has_option (c_opts c) QueryOption_CursorTailable = false;
  l_ns : 2 * (zlen (c_ns c) + 32) <= BufferMaxSize /\ nul ∉ c_ns c;
  l_open : exists rest, zlen rest <= int_max int32 /\ srv_open s = open_cursor (c_cursorId c) rest }.

(** Only documents, and how many there are, differ. *)
Definition same_cursor (c c' : DBClientCursor) : Prop :=
  c_shim c' = c_shim c /\ c_ownCursor c' = c_ownCursor c /\ c_opts c' = c_opts c /\
  c_batchSize c' = c_batchSize c /\ c_cursorId c' = c_cursorId c /\ c_ns c' = c_ns c.
Lemma linked_same s c c' : linked s c -> same_cursor c c' -> linked s c'.
Proof.
  intros [] (E1 & E2 & E3 & E4 & E5 & E6). constructor; by rewrite ?E1, ?E2, ?E3, ?E4, ?E5, ?E6.
Qed.
Lemma rawNext_same s c : exists c', (rawNext (s, c)).1 = (s, c') /\ same_cursor c c'.
Proof.
  unfold rawNext, mbind, ST_bind, cur, st_lift, upd. cbn [fst snd].
  destruct (uassert _ _); [|by exists c]. cbn [fst snd].
  destruct (singleData _); [|by eexists]. destruct (BSONObj_at _); by eexists.
Qed.
Lemma next_same s c : c_shim c = None -> exists c', (next malloc (s, c)).1 = (s, c') /\ same_cursor c c'.
Proof.
  intros Hs. unfold next. erewrite (st_bind_run (upd _)) by reflexivity. erewrite (st_bind_run cur) by reflexivity.
  cbn [fst snd set_nReturned c_putBack c_shim]. rewrite Hs. destruct (c_putBack c).
  - destruct (rawNext_same s (set_nReturned (c_nReturned c + 1) c)) as (c' & E & Hc). by exists c'.
  - by eexists.
Qed.
Lemma nextSafe_same s c : c_shim c = None -> exists c', (nextSafe malloc (s, c)).1 = (s, c') /\ same_cursor c c'.
Proof.
  intros Hs. destruct (next_same s c Hs) as (c' & E & Hc). exists c'. split; [|done].
  unfold nextSafe, mbind, ST_bind. destruct (next malloc (s, c)) as [s1 [o|e]]; cbn [fst snd] in *; [|done].
  subst s1. unfold cur. cbn [fst snd]. destruct (c_wasError c'); [|done].
  unfold st_lift. destruct (firstElementFieldName o); [|done]. by destruct (uassert _ _).
Qed.

Lemma nextBatchSize_int c : in_range int32 (c_batchSize c) -> match nextBatchSize c with Ret n => in_range int32 n | Throw _ => True end.
Proof.
  intros Hb. unfold nextBatchSize, int_result. destruct (negb _); [|done]. destruct (_ && _); [done|].
  by case_bool_decide.
Qed.
Lemma answers_rest n docs k cid : batch_answers n docs k cid -> zlen docs <= int_max int32 ->
  zlen (take k docs) <= int_max int32 /\ zlen (drop k docs) <= int_max int32.
Proof. intros _ Hl. unfold zlen in *. rewrite length_take, length_drop. lia. Qed.
Lemma requestMore_linked s c : linked s c -> exists s' c', (requestMore malloc (s, c)).1 = (s', c') /\ linked s' c'.
Proof.
  intros Hl. pose proof Hl as [Hsh Hown (Ho32 & Hb32 & Hid64) Hopt [Hns Hnul] (rest & Hlen & Hopen)].
  unfold requestMore. erewrite (st_bind_run cur) by reflexivity. cbn [snd].
  destruct (negb (c_cursorId c =? 0) && _) eqn:E; cbn [verify guard_throw].
  2: { erewrite (st_bind_throw (st_lift _)) by reflexivity. by eexists _, _. }
  rewrite st_bind_lift. pose proof (nextBatchSize_int c Hb32) as Hn32. destruct (nextBatchSize c) as [n|e].
  2: { erewrite (st_bind_throw (st_lift _)) by reflexivity. by eexists _, _. }
  rewrite st_bind_lift.
  destruct (assembleGetMore_sends malloc Hmalloc (c_opts c) (c_ns c) n (c_cursorId c)) as (msg & -> & Hsend).
  { unfold getMore_body. autorewrite with mongo. lia. }
  rewrite st_bind_lift. unfold open_cursor in Hopen. destruct (c_cursorId c =? 0) eqn:E0; [lia|].
  destruct (law_more s msg (c_ns c) n (c_cursorId c) rest (c_opts c) Hsend Hnul Ho32 Hn32 Hid64 ltac:(lia) Hopen)
    as (s1 & k & cid & m & Hcall & Hk & Hcid & Hrep & Hopen1).
  destruct (answers_rest n rest k cid Hk Hlen) as [Hl1 Hl2].
  unfold on_client at 1. erewrite (st_bind_run _ _ (s, c)) by (cbn [fst snd]; rewrite Hcall; reflexivity).
  cbv beta iota. cbn [snd]. erewrite (st_bind_run (upd _)) by reflexivity. cbn [fst snd].
  assert (in_range int64 cid) as Hcid64 by (by destruct Hcid as [-> | ->]).
  destruct (dataReceived_reply s1 c cid (take k rest) m Hrep Hcid64 Hl1 Hopt) as (s2 & r & flags & Hd & Hs2 & _).
  rewrite (st_bind_run _ _ _ _ _ Hd). eexists s2, _. split; [reflexivity|].
  constructor; try done. exists (drop k rest). by rewrite Hs2.
Qed.
Lemma more_linked s c : linked s c -> exists s' c', (more malloc turns (s, c)).1 = (s', c') /\ linked s' c'.
Proof.
  intros Hl. unfold more. erewrite (st_bind_run cur) by reflexivity. cbn [snd]. rewrite (l_shim _ _ Hl).
  destruct (c_putBack c); [|by eexists _, _]. unfold rawMore. erewrite (st_bind_run cur) by reflexivity. cbn [snd].
  destruct (_ && _); [by eexists _, _|]. destruct (in_batch c); [by eexists _, _|].
  destruct (c_cursorId c =? 0); [by eexists _, _|].
  destruct (requestMore_linked s c Hl) as (s' & c' & E & Hl'). exists s', c'. split; [|done].
  unfold mbind, ST_bind. destruct (requestMore malloc (s, c)) as [s1 [u|e]]; cbn [fst snd] in *; [|done].
  by subst s1.
Qed.
Lemma use_linked l s c : linked s c -> exists s' c', use malloc turns l (s, c) = (s', c') /\ linked s' c'.
Proof.
  revert s c. induction l as [|call l IH]; intros s c Hl; [by eexists _, _|]. unfold use. cbn [foldl].
  fold (use malloc turns l (run_cursor_call malloc turns call (s, c))).
  assert (exists s' c', run_cursor_call malloc turns call (s, c) = (s', c') /\ linked s' c') as (s' & c' & -> & Hl');
    [|by apply IH].
  destruct call; cbn [run_cursor_call fst snd].
  - by apply more_linked.
  - destruct (next_same s c (l_shim _ _ Hl)) as (c' & E & Hc). exists s, c'. split; [done|]. by eapply linked_same.
  - destruct (nextSafe_same s c (l_shim _ _ Hl)) as (c' & E & Hc). exists s, c'. split; [done|]. by eapply linked_same.
  - eexists _, _. split; [done|]. by eapply linked_same.
  - eexists _, _. split; [done|]. destruct Hl as [? ? (? & ? & ?) ? ? ?]. constructor; try done.
    split_and!; [done| |done]. by apply wrap_range.
  - by eexists _, _.
  - by eexists _, _.
Qed.
Lemma destroy_linked lazyKillCursor s c : linked s c ->
  (destroy malloc lazyKillCursor (s, c)).2 = Ret tt /\ srv_open (destroy malloc lazyKillCursor (s, c)).1.1 = None.
Proof.
  intros [_ Hown (_ & _ & Hid64) _ _ (rest & _ & Hopen)]. unfold destroy. cbv zeta.
  erewrite (st_bind_run cur) by reflexivity. cbn [snd]. rewrite Hown, andb_true_r. unfold open_cursor in Hopen.
  destruct (c_cursorId c =? 0) eqn:E; cbn [negb]; [done|].
  destruct (assembleKillCursors_sends malloc Hmalloc (c_cursorId c)) as (msg & -> & Hsend). rewrite st_bind_lift.
  destruct (law_kill s msg (c_cursorId c) Hsend Hid64) as [(s1 & E1 & H1) (s2 & E2 & H2)].
  rewrite Hopen, Z.eqb_refl in H1, H2. unfold on_client. destruct lazyKillCursor; cbn [fst snd].
  - by rewrite E2.
  - by rewrite E1.
Qed.
End Kill.

(** C9: whatever is done with the cursor of a query, and wherever its use stops,
    also with a negative limit or batch size and after any exception, the server
    holds no cursor once it has been destroyed. *)
Theorem cursor_not_leaked {C : Type} `{Server C} malloc turns ns query nToReturn nToSkip fields opts batchSize
    (s : C) calls lazyKillCursor n :
  (forall n, 0 <= n -> zlen (malloc n) = n) ->
  query_ok ns query nToReturn nToSkip fields opts batchSize ->
  nextBatchSize (DBClientCursor_query ns (encode_obj query) nToReturn nToSkip (encode_obj <$> fields) opts batchSize) = Ret n ->
  srv_open s = None ->
  let docs := selected ns query nToSkip fields s in
  Forall object_sized docs /\ zlen docs <= int_max int32 ->
  exists s1 c1,
    DBClientBase_query malloc ns (encode_obj query) nToReturn nToSkip (encode_obj <$> fields) opts batchSize s
      = (s1, Ret (Some c1)) /\
    let r := destroy malloc lazyKillCursor (use malloc turns calls (s1, c1)) in
    r.2 = Ret tt /\ srv_open r.1.1 = None.
Proof.
  intros Hmalloc Hq Hn Hopen docs Hdocs.
  set (c0 := DBClientCursor_query _ _ _ _ _ _ _) in *.
  assert (in_range int32 (c_batchSize c0)) as Hb.
  { unfold c0. cbn [DBClientCursor_query c_batchSize]. destruct (batchSize =? 1); [done|]. by destruct Hq as [_ (_ & _ & _ & ?)]. }
  pose proof (nextBatchSize_int c0 Hb) as Hn32. rewrite Hn in Hn32.
  destruct (ask_opens malloc Hmalloc ns query nToReturn nToSkip fields opts batchSize s n Hq Hopen Hn Hn32 Hdocs)
    as (s1 & k & cid & m & flags & pre & slack & E & Hk & Hcid & _ & _ & Hopen1). fold docs c0 in E, Hk, Hopen1.
  exists s1. eexists. split; [exact E|]. cbv zeta.
  match type of E with _ = (_, Ret (Some ?c)) => assert (linked s1 c) as Hl end.
  { destruct (answers_rest n docs k cid Hk (proj2 Hdocs)) as [_ Hl2].
    constructor; try done.
    - destruct Hq as [_ (_ & _ & ? & _) _ _]. done.
    - by destruct Hq as [_ _ [? _] _].
    - split; [by eapply ns_short|apply Hq].
    - by exists (drop k docs). }
  destruct (use_linked malloc turns Hmalloc calls _ _ Hl) as (s2 & c2 & -> & Hl2).
  by apply destroy_linked.
Qed.

(** ** A server that answers with the documents it has, two at a time

    It shows that the laws can hold, and reads requests as [DbMessage] does. *)

Record ToyServer := mkToy { toy_docs : list BSONObj; toy_open : option (Z * list BSONObj) }.
Definition toy_count (n : Z) (docs : list BSONObj) : nat :=
  if (n <? 0) || (n =? 1) then Nat.min (Z.to_nat (Z.abs n)) (length docs) else Nat.min 2 (length docs).
Definition toy_cid (id n : Z) (docs : list BSONObj) : Z :=
  if (n <? 0) || (n =? 1) then 0 else if (length docs <=? 2)%nat then 0 else id.
Definition toy_reply (id : Z) (docs : list BSONObj) (n : Z) (s : ToyServer) : ToyServer * M (Message * bool) :=
  let k := toy_count n docs in
  let cid := toy_cid id n docs in
  (mkToy (toy_docs s) (open_cursor cid (drop k docs)),
   Ret (Message_of (message_bytes (le8 0) opReply
     (le4 0 ++ le8 cid ++ le4 0 ++ le4 (zlen (take k docs)) ++ concat (encode_obj <$> take k docs)) ++ []) true, true)).
Definition toy_bytes (msg : Message) : M bytes :=
  d ← Message_sent msg; match d with Some d => Ret d | None => Throw EVerify end.
(** The number a query or a request for more asks for. *)
Definition toy_query (d : bytes) : M Z :=
  m ← DbMessage_ctor (Message_of d true); '(_, m) ← pullInt m; '(n, _) ← pullInt m; Ret n.
Definition toy_more (d : bytes) : M (Z * Z) :=
  m ← DbMessage_ctor (Message_of d true); '(n, m) ← pullInt m; '(cid, _) ← pullInt64 m; Ret (n, cid).
Definition toy_call (msg : Message) : ST ToyServer (Message * bool) := fun s =>
  match (d ← toy_bytes msg; op ← getOperation d; Ret (d, op)) with
  | Ret (d, op) =>
      if op =? dbQuery then
        match toy_query d with Ret n => toy_reply 7 (toy_docs s) n s | Throw e => (s, Throw e) end
      else
        match toy_more d, toy_open s with
        | Ret (n, _), Some (id, rest) => toy_reply id rest n s
        | _, _ => (s, Ret (Message_ctor, false))
        end
  | Throw e => (s, Throw e)
  end.
Definition toy_say (msg : Message) : ST ToyServer unit := fun s =>
  match (d ← toy_bytes msg; readLE int64 d 24) with
  | Ret cid =>
      (mkToy (toy_docs s)
        match toy_open s with Some (id, rest) => if id =? cid then None else Some (id, rest) | None => None end, Ret tt)
  | Throw e => (s, Throw e)
  end.
#[export] Instance toy_client : Client ToyServer := {
  client_call := toy_call;
  client_recv := fun s => (s, Ret (Message_ctor, false));
  client_say := toy_say;
  client_sayPiggyBack := toy_say;
  client_checkResponse := fun _ _ s => (s, Ret (false, []));
  client_runCommand := fun _ _ _ s => (s, Ret (false, empty_object)) }.

Lemma toy_answers id n docs : id <> 0 -> batch_answers n docs (toy_count n docs) (toy_cid id n docs).
Proof.
  intros Hid. unfold batch_answers, toy_count, toy_cid. destruct ((n <? 0) || (n =? 1)) eqn:E; [done|].
  destruct (length docs <=? 2)%nat eqn:E2.
  - apply Nat.leb_le in E2. split_and!; lia.
  - apply Nat.leb_gt in E2. split_and!; lia.
Qed.
Lemma toy_replies id docs n s : exists m, toy_reply id docs n s =
    (mkToy (toy_docs s) (open_cursor (toy_cid id n docs) (drop (toy_count n docs) docs)), Ret (m, true)) /\
  reply_to m (toy_cid id n docs) (take (toy_count n docs) docs).
Proof. eexists. split; [reflexivity|]. by exists (le8 0), 0, 0, []. Qed.
Lemma sends_bytes msg op body : sends msg op body -> exists mid, zlen mid = 8 /\
  zlen body + 16 <= int_max int32 /\ toy_bytes msg = Ret (message_bytes mid op body).
Proof. intros (Hs & mid & Hm & E). exists mid. unfold toy_bytes. by rewrite E. Qed.
Lemma toy_parses msg op opts ns x y b k : op = dbQuery \/ op = dbGetMore ->
  sends msg op (le4 opts ++ ns ++ [nul] ++ le4 x ++ le_bytes k y ++ b) ->
  nul ∉ ns -> in_range int32 opts -> in_range int32 x ->
  exists d, toy_bytes msg = Ret d /\ getOperation d = Ret op /\
    (k = 4%nat -> in_range int32 y -> toy_query d = Ret y) /\
    (k = 8%nat -> in_range int64 y -> toy_more d = Ret (x, y)).
Proof.
  intros Hop (mid & Hm & Hs & E)%sends_bytes Hns Ho Hx. set (body := le4 x ++ le_bytes k y ++ b) in *.
  change (le4 opts ++ ns ++ [nul] ++ le4 x ++ le_bytes k y ++ b) with (le4 opts ++ ns ++ [nul] ++ body) in *.
  assert (in_range int32 op) as Hop32 by (by destruct Hop as [-> | ->]).
  eexists. split; [exact E|].
  destruct (message_fields mid op _ [] Hm Hop32 Hs) as (_ & _ & Hp). rewrite app_nil_r in Hp. split; [done|].
  destruct (DbMessage_ctor_spec mid op opts ns body [] Hm) as (m & Em & _ & _ & _ & pre & Hparse); [|done|done|done|].
  { by destruct Hop as [-> | ->]. }
  rewrite app_nil_r in Em.
  destruct (pullInt_spec x m pre _ Hx Hparse) as (m1 & E1 & Hp1 & _).
  split; intros -> Hy.
  - destruct (pullInt_spec y m1 _ _ Hy Hp1) as (m2 & E2 & _). unfold toy_query. by rewrite Em, ret_bind, E1, ret_bind, E2.
  - destruct (readAndAdvance_spec int64 8 y m1 (pre ++ le4 x) b) as [E2 _]; [done|lia|done|exact Hp1|].
    unfold toy_more, pullInt64. by rewrite Em, ret_bind, E1, ret_bind, E2.
Qed.
Lemma toy_closes s msg cid : sends msg dbKillCursors (le4 0 ++ le4 1 ++ le8 cid) -> in_range int64 cid ->
  exists s', toy_say msg s = (s', Ret tt) /\
    toy_open s' = match toy_open s with Some (id, rest) => if id =? cid then None else Some (id, rest) | None => None end.
Proof.
  intros (mid & Hm & _ & E)%sends_bytes Hc. unfold toy_say. rewrite E, ret_bind.
  set (h := (le4 (zlen (le4 0 ++ le4 1 ++ le8 cid) + 16) ++ mid ++ le4 dbKillCursors) ++ le4 0 ++ le4 1).
  assert (message_bytes mid dbKillCursors (le4 0 ++ le4 1 ++ le8 cid) = h ++ le8 cid ++ []) as ->.
  { unfold h, message_bytes. by rewrite <-!app_assoc, app_nil_r. }
  assert (24 = zlen h) as -> by (unfold h; autorewrite with mongo; lia).
  rewrite (readLE_at int64 8); [|done|lia|done]. by eexists.
Qed.
#[export] Program Instance toy_server : Server ToyServer := {
  srv_result := fun s _ _ _ _ => toy_docs s;
  srv_open := toy_open }.
Next Obligation.
  intros s msg ns query skip n fields opts Hs _ _ Hns Ho Hsk Hn _.
  destruct (toy_parses msg dbQuery opts ns skip n _ 4 (or_introl eq_refl) Hs Hns Ho Hsk) as (d & Ed & Eop & Eq & _).
  destruct (toy_replies 7 (toy_docs s) n s) as (m & Er & Hr).
  exists (mkToy (toy_docs s) (open_cursor (toy_cid 7 n (toy_docs s)) (drop (toy_count n (toy_docs s)) (toy_docs s)))),
    (toy_count n (toy_docs s)), (toy_cid 7 n (toy_docs s)), m. cbn [client_call toy_client]. unfold toy_call.
  rewrite Ed, ret_bind, Eop, ret_bind. cbn [Z.eqb]. rewrite Eq by done. change (dbQuery =? dbQuery) with true. cbv iota.
  rewrite Er. split; [reflexivity|]. split_and!; [by apply toy_answers| |done|done].
  unfold toy_cid. destruct (_ || _); [done|]. by destruct (_ <=? _)%nat.
Qed.
Next Obligation.
  intros s msg ns n cid rest opts Hs Hns Ho Hn Hc Hid Hopen.
  rewrite <-(app_nil_r (le8 cid)) in Hs.
  destruct (toy_parses msg dbGetMore opts ns n cid [] 8 (or_intror eq_refl) Hs Hns Ho Hn) as (d & Ed & Eop & _ & Eq).
  destruct (toy_replies cid rest n s) as (m & Er & Hr).
  exists (mkToy (toy_docs s) (open_cursor (toy_cid cid n rest) (drop (toy_count n rest) rest))),
    (toy_count n rest), (toy_cid cid n rest), m. cbn [client_call toy_client]. unfold toy_call.
  rewrite Ed, ret_bind, Eop, ret_bind, Eq by done. change (dbGetMore =? dbQuery) with false. cbv iota.
  rewrite Hopen, Er. split; [reflexivity|]. split_and!; [by apply toy_answers| |done|done].
  unfold toy_cid. destruct (_ || _); [by left|]. destruct (_ <=? _)%nat; [by left|by right].
Qed.
Next Obligation.
  intros s msg cid Hs Hc. split; by apply toy_closes.
Qed.
Next Obligation. intros s d n. by eexists _, _. Qed.

(** ** The properties at work *)

Definition toy_doc (z : Z) : BSONObj := [(B "n", VNumberInt z)].
Definition toy_state : ToyServer := mkToy (toy_doc <$> [1; 2; 3; 4; 5; 6]) None.
Definition toy_malloc (n : Z) : bytes := replicate (Z.to_nat n) nul.
Lemma toy_malloc_len n : 0 <= n -> zlen (toy_malloc n) = n.
Proof. intros. unfold toy_malloc, zlen. rewrite length_replicate. lia. Qed.
Lemma toy_query_ok nToReturn batchSize : in_range int32 nToReturn -> in_range int32 batchSize ->
  query_ok (B "db.c") (toy_doc 0) nToReturn 0 None 0 batchSize.
Proof. intros HN Hb. constructor; [not_in|done|done|]. vm_compute. discriminate. Qed.
Lemma toy_sized : Forall object_sized (toy_docs toy_state) /\ zlen (toy_docs toy_state) <= int_max int32.
Proof.
  split; [|vm_compute; discriminate]. unfold toy_state, object_sized. cbn [toy_docs fmap list_fmap].
  repeat (apply Forall_cons_2; [vm_compute; discriminate|]). apply Forall_nil_2.
Qed.

Lemma cursor_returns_result_witness :
  exists s1 c1 s2 c2,
    DBClientBase_query toy_malloc (B "db.c") (encode_obj (toy_doc 0)) 5 0 None 0 3 toy_state = (s1, Ret (Some c1)) /\
    drain toy_malloc 0 7 (s1, c1) = ((s2, c2), Ret ((fun z => encode_obj (toy_doc z)) <$> [1; 2; 3; 4; 5])) /\
    c_cursorId c2 = 0 /\ srv_open s2 = None.
Proof.
  destruct (cursor_returns_result toy_malloc 0 (B "db.c") (toy_doc 0) 5 0 None 0 3 toy_state) as (s1 & c1 & s2 & c2 & E1 & E2 & E3);
    [apply toy_malloc_len|by apply toy_query_ok|lia|lia|reflexivity|exact toy_sized|].
  exists s1, c1, s2, c2. split; [exact E1|]. split; [exact E2|exact E3].
Defined.
Lemma cursor_not_leaked_witness :
  exists s1 c1,
    DBClientBase_query toy_malloc (B "db.c") (encode_obj (toy_doc 0)) 0 0 None 0 2 toy_state = (s1, Ret (Some c1)) /\
    let r := destroy toy_malloc true (use toy_malloc 0 [CursorMore; CursorNext] (s1, c1)) in
    r.2 = Ret tt /\ srv_open r.1.1 = None.
Proof.
  apply (cursor_not_leaked toy_malloc 0 (B "db.c") (toy_doc 0) 0 0 None 0 2 toy_state [CursorMore; CursorNext] true 2);
    [apply toy_malloc_len|by apply toy_query_ok|reflexivity|reflexivity|exact toy_sized].
Defined.

(** ** What modelling showed *)

(** What is made of the cursor of a query without a filter. *)
Definition toy_run {A} (docs : list BSONObj) (nToReturn batchSize : Z)
    (f : ST (ToyServer * DBClientCursor) A) : M A :=
  match DBClientBase_query toy_malloc (B "db.c") (encode_obj (toy_doc 0)) nToReturn 0 None 0 batchSize (mkToy docs None) with
  | (s, Ret (Some c)) => (f (s, c)).2
  | (_, Ret None) => Throw ESocket
  | (_, Throw e) => Throw e
  end.

(** A document that is put back is counted again when it is taken again: the limit
    is reached after fewer documents. *)
Lemma putBack_counts_twice :
  let docs := toy_doc <$> [1; 2; 3; 4; 5; 6] in
  toy_run docs 4 2 (drain toy_malloc 0 7) = Ret ((fun z => encode_obj (toy_doc z)) <$> [1; 2; 3; 4]) /\
  toy_run docs 4 2 (o ← next toy_malloc; upd (putBack o);; drain toy_malloc 0 7)
    = Ret ((fun z => encode_obj (toy_doc z)) <$> [1; 2; 3]).
Proof. split; vm_compute; reflexivity. Qed.

(** With a negative limit nothing is returned. *)
Lemma negative_limit_returns_nothing {C} `{Client C} malloc turns (s : C) c :
  c_nToReturn c < 0 -> 0 <= c_nReturned c -> c_putBack c = [] -> c_shim c = None ->
  more malloc turns (s, c) = ((s, c), Ret false).
Proof.
  intros HN HR Hp Hs. unfold more. erewrite (st_bind_run cur) by reflexivity. cbn [snd]. rewrite Hp, Hs.
  unfold rawMore. erewrite (st_bind_run cur) by reflexivity. cbn [snd].
  destruct (negb (c_nToReturn c =? 0) && _) eqn:E; [done|]. lia.
Qed.
Lemma findN_negative {C} `{Client C} malloc turns lazy ns query N skip fields opts bs (s : C) : N < 0 ->
  findN malloc turns lazy ns query N skip fields opts bs s = (s, Throw EOutOfRange).
Proof.
  intros HN. unfold findN. destruct (Z.min bs N <? 0) eqn:E; [|lia].
  by erewrite (st_bind_throw (st_lift _)) by reflexivity.
Qed.

(** The number of documents in a reply is believed: one that announces more than it
    has is read past its end. *)
Lemma next_reads_past_reply :
  let reply := Message_of (message_bytes (le8 0) opReply (le4 0 ++ le8 0 ++ le4 0 ++ le4 1)) true in
  let c := set_batch_m reply (DBClientCursor_query (B "db.c") empty_object 0 0 None 0 0) in
  ((_ ← dataReceived; next toy_malloc) (toy_state, c)).2 = Throw EUndefined.
Proof. vm_compute. reflexivity. Qed.

(** A reply that does not come is not noticed where it is asked for. *)
Lemma requestMore_ignores_failure :
  let c := set_cursorId 9 (DBClientCursor_query (B "db.c") empty_object 0 0 None 0 0) in
  (requestMore toy_malloc (mkToy [] None, c)).2 = Throw (EMassert 13273).
Proof. vm_compute. reflexivity. Qed.

(** The shim of a transformed cursor takes a document whenever it is asked whether
    there are more, and that of an array answers the first [next] with an empty
    document when nobody asked. *)
Lemma transform_more_skips :
  let docs := toy_doc <$> [1; 2; 3] in
  let shim := set_shim (Some (ShimTransform (fun o doc => Ret (true, o)) empty_object)) in
  toy_run docs 0 0 (upd shim;; _ ← more toy_malloc 9; next toy_malloc) = Ret (encode_obj (toy_doc 1)) /\
  toy_run docs 0 0 (upd shim;; _ ← more toy_malloc 9; _ ← more toy_malloc 9; next toy_malloc) = Ret (encode_obj (toy_doc 2)).
Proof. split; vm_compute; reflexivity. Qed.
Lemma array_next_without_more :
  let docs := [[(B "result", VArray [(B "0", VObject (toy_doc 1))])]] in
  let shim c := set_nToReturn 0 (set_shim (Some (ShimArray (B "result") [] false)) c) in
  toy_run docs 1 0 (upd shim;; next toy_malloc) = Ret empty_object /\
  toy_run docs 1 0 (upd shim;; _ ← more toy_malloc 9; next toy_malloc) = Ret (encode_obj (toy_doc 1)).
Proof. split; vm_compute; reflexivity. Qed.
