(* ===== verification/Query.v ===== *)
(** * Queries and the commands made of them: client/dbclient.cpp,
    client/dbclientinterface.h

    A query is a filter, or a document with the filter in its first field and
    modifiers after it.  Documents are lists of elements; a builder appends. *)
From S2P Require Import Prelude StringData ParseNumber HostAndPort BsonTypes BufBuilder Bson BsonCompare BsonObj Namespace HostSet RSState WriteResult.
Local Open Scope Z_scope.

(** ** Query *)

Definition Query : Type := BSONObj.

(** [isComplex], with [hasDollar]. *)
Definition isComplex (obj : BSONObj) : option bool :=
  if hasField obj (B "query") then Some false
  else if hasField obj (B "$query") then Some true
  else None.
Definition is_complex (obj : BSONObj) : bool := bool_decide (isComplex obj <> None).
Definition makeComplex (q : Query) : Query := if is_complex q then q else [(B "query", VObject q)].
Definition appendComplex (fieldName : bytes) (v : bson_value) (q : Query) : Query := makeComplex q ++ [(fieldName, v)].

Definition maxTimeMsField : bytes := B "$maxTimeMS".
Definition ReadPrefField : bytes := B "$readPreference".
Definition ReadPrefModeField : bytes := B "mode".
Definition ReadPrefTagsField : bytes := B "tags".

Definition query_sort (s : BSONObj) : Query -> Query := appendComplex (B "orderby") (VObject s).
Definition query_sort_field (field : bytes) (asc : Z) : Query -> Query := query_sort [(field, VNumberInt asc)].
Definition query_hint (keyPattern : BSONObj) : Query -> Query := appendComplex (B "$hint") (VObject keyPattern).
Definition query_hint_name (indexName : bytes) : Query -> Query := appendComplex (B "$hint") (VString indexName).
Definition query_maxTimeMs (millis : Z) : Query -> Query := appendComplex maxTimeMsField (VNumberInt millis).
Definition true_value : bson_value := VBool (chr 1).
Definition query_explain : Query -> Query := appendComplex (B "$explain") true_value.
Definition query_snapshot : Query -> Query := appendComplex (B "$snapshot") true_value.
Definition query_minKey (val : BSONObj) : Query -> Query := appendComplex (B "$min") (VObject val).
Definition query_maxKey (val : BSONObj) : Query -> Query := appendComplex (B "$max") (VObject val).
Definition query_where (jscode : bytes) (scope : BSONObj) (q : Query) : M Query :=
  verify (negb (is_complex q));; Ret (q ++ [(B "$where", VCodeWScope jscode scope)]).

Definition mode_name (p : ReadPreference) : bytes :=
  match p with
  | ReadPreference_PrimaryOnly => B "primary"
  | ReadPreference_PrimaryPreferred => B "primaryPreferred"
  | ReadPreference_SecondaryOnly => B "secondary"
  | ReadPreference_SecondaryPreferred => B "secondaryPreferred"
  | ReadPreference_Nearest => B "nearest"
  end.
Definition empty_obj (o : BSONObj) : bool := bool_decide (o = []).
Definition readPref_doc (p : ReadPreference) (tags : BSONObj) : BSONObj :=
  (ReadPrefModeField, VString (mode_name p)) ::
  (if empty_obj tags then [] else [(ReadPrefTagsField, VArray tags)]).
Definition query_readPref (p : ReadPreference) (tags : BSONObj) : Query -> Query :=
  appendComplex ReadPrefField (VObject (readPref_doc p tags)).

(** The names of a [std::set<string>], in order. *)
Fixpoint insert_name (n : bytes) (l : list bytes) : list bytes :=
  match l with
  | [] => [n]
  | m :: l' => if StringData_lt n m then n :: l else if bool_decide (n = m) then l else m :: insert_name n l'
  end.
Definition field_names (o : BSONObj) : list bytes := foldl (fun l e => insert_name e.1 l) [] o.
Definition getModifiers (q : Query) : BSONObj :=
  getField q <$> filter (fun n => StringData_find_char n dollar 0 = 0) (field_names q).

Definition hasReadPreference (queryObj : BSONObj) : bool :=
  let o := getField queryObj (B "$queryOptions") in
  let hasReadPrefOption := isABSONObj o && match o.2 with VObject x | VArray x => hasField x ReadPrefField | _ => false end in
  (is_complex queryObj && hasField queryObj ReadPrefField) || hasReadPrefOption.
Definition hasHint (q : Query) : bool := hasField q (B "$hint").
Definition hasMaxTimeMs (q : Query) : bool := hasField q maxTimeMsField.
Definition getFilter (q : Query) : BSONObj :=
  match isComplex q with
  | None => q
  | Some hasDollar => getObjectField q (if hasDollar then B "$query" else B "query")
  end.
Definition getSort (q : Query) : BSONObj :=
  if negb (is_complex q) then []
  else
    let ret := getObjectField q (B "orderby") in
    if empty_obj ret then getObjectField q (B "$orderby") else ret.
Definition getHint (q : Query) : BSONElement :=
  if negb (is_complex q) then eooElement else getField q (B "$hint").
Definition getReadPref (q : Query) : BSONObj := getObjectField q ReadPrefField.
Definition getMaxTimeMs (q : Query) : M Z := getIntField q maxTimeMsField.
Definition isExplain (q : Query) : bool := is_complex q && getBoolField q (B "$explain").

(** [QuerySpec]. *)
Record QuerySpec := mkQuerySpec {
  qs_ns : bytes; qs_ntoskip : Z; qs_ntoreturn : Z; qs_options : Z;
  qs_query : BSONObj; qs_fields : BSONObj; qs_queryObj : Query }.
Definition QuerySpec_ctor (ns : bytes) (query fields : BSONObj) (ntoskip ntoreturn options : Z) : QuerySpec :=
  mkQuerySpec ns ntoskip ntoreturn options query fields query.
Definition qs_isEmpty (s : QuerySpec) : bool := zlen (qs_ns s) =? 0.
Definition qs_isExplain (s : QuerySpec) : bool := isExplain (qs_queryObj s).
Definition qs_filter (s : QuerySpec) : BSONObj := getFilter (qs_queryObj s).
Definition qs_hint (s : QuerySpec) : BSONElement := getHint (qs_queryObj s).
Definition qs_sort (s : QuerySpec) : BSONObj := getSort (qs_queryObj s).
Definition qs_setFields (o : BSONObj) (s : QuerySpec) : QuerySpec :=
  mkQuerySpec (qs_ns s) (qs_ntoskip s) (qs_ntoreturn s) (qs_options s) (qs_query s) o (qs_queryObj s).

(** ** Commands *)

Definition isOk (o : BSONObj) : bool := trueValue (getField o (B "ok")).
(** [str::contains], of C strings. *)
Definition contains (s x : bytes) : bool := negb (StringData_find s x =? npos).
Definition isNotMasterErrorString (e : BSONElement) : bool :=
  match e.2 with VString s => contains (c_string s) (B "not master") | _ => false end.

(** [numberInt] and [numberLong] of an element; a double that has no such integer
    makes the conversion undefined. *)
Definition number_as (t : int_type) (e : BSONElement) : M Z :=
  match e.2 with
  | VNumberInt n => Ret n
  | VNumberLong n => Ret (wrap t n)
  | VNumberDouble bits =>
      match double_of_bits bits with
      | Finite v => let z := Z.quot v one_units in if decide (in_range t z) then Ret z else Throw EUndefined
      | _ => Throw EUndefined
      end
  | _ => Ret 0
  end.
Definition numberInt_of : BSONElement -> M Z := number_as int32.
Definition numberLong_of : BSONElement -> M Z := number_as int64.

(** [_countCmd]: the command for a count. *)
Definition count_hint (query : Query) : M BSONObj :=
  if hasHint query then
    let hint := getHint query in
    if isABSONObj hint then o ← Obj hint; Ret [(B "hint", VObject o)]
    else s ← String_checked hint; Ret [(B "hint", VString s)]
  else Ret [].
Definition _countCmd (myns : bytes) (query : Query) (limit skip : Z) : M BSONObj :=
  coll ← ns_coll (NamespaceString_of myns);
  more ← (if is_complex query then
            hint ← count_hint query; Ret (hint ++ removeField (getModifiers query) (B "$hint"))
          else Ret []);
  Ret ([(B "count", VString coll); (B "query", VObject (getFilter query))]
    ++ (if limit =? 0 then [] else [(B "limit", VNumberInt limit)])
    ++ (if skip =? 0 then [] else [(B "skip", VNumberInt skip)])
    ++ more).

Definition getLastError_cmd (fsync j : bool) (w wtimeout : Z) : BSONObj :=
  [(B "getlasterror", VNumberInt 1)]
  ++ (if fsync then [(B "fsync", VNumberInt 1)] else [])
  ++ (if j then [(B "j", VNumberInt 1)] else [])
  ++ (if 1 <=? w then [(B "w", VNumberInt w)] else if w =? -1 then [(B "w", VString (B "majority"))] else [])
  ++ (if 0 <? wtimeout then [(B "wtimeout", VNumberInt wtimeout)] else []).
(** [getLastErrorString]; the printing of an object, [print], is that of elements. *)
Definition getLastErrorString (print : BSONElement -> bytes) (info : BSONObj) : bytes :=
  let text prefix e :=
    if eoo e then [] else prefix ++ match e.2 with VObject _ => print e | _ => str e end in
  if trueValue (getField info (B "ok")) then text [] (getField info (B "err"))
  else text (B "getLastError command failed: ") (getField info (B "errmsg")).

(** [genIndexName]. *)
Definition index_part (e : BSONElement) : M bytes :=
  if isNumber e.2 then n ← numberInt_of e; Ret (e.1 ++ B "_" ++ print_int n)
  else Ret (e.1 ++ B "_" ++ str e).
Fixpoint genIndexName_loop (first : bool) (keys : BSONObj) : M bytes :=
  match keys with
  | [] => Ret []
  | e :: keys =>
      part ← index_part e;
      rest ← genIndexName_loop false keys;
      Ret ((if first then [] else B "_") ++ part ++ rest)
  end.
Definition genIndexName (keys : BSONObj) : M bytes := genIndexName_loop true keys.

Section Commands.
(** What [findOne] answers to a query on a namespace, with options. *)
Context {C : Type} (findOne : bytes -> BSONObj -> Z -> C -> C * M BSONObj).
(** The hooks: what the first appends to a command. *)
Context (runCommandHook : option (BSONObj -> BSONObj)).

Definition runCommand (dbname : bytes) (cmd : BSONObj) (options : Z) : ST C (bool * BSONObj) :=
  let ns := dbname ++ B ".$cmd" in
  info ← findOne ns (match runCommandHook with Some hook => hook cmd | None => cmd end) options;
  mret (isOk info, info).
Definition simpleCommand (dbname command : bytes) : ST C (bool * BSONObj) :=
  runCommand dbname [(command, VNumberInt 1)] 0.
Definition count (myns : bytes) (query : Query) (options limit skip : Z) : ST C Z :=
  cmd ← st_lift (_countCmd myns query limit skip);
  db ← st_lift (nsToDatabase myns);
  '(ok, res) ← runCommand db cmd options;
  st_lift (uassert 11010 ok);;
  st_lift (numberLong_of (getField res (B "n"))).
Definition getLastErrorDetailed (db : bytes) (fsync j : bool) (w wtimeout : Z) : ST C BSONObj :=
  '(_, info) ← runCommand db (getLastError_cmd fsync j w wtimeout) 0; mret info.
Definition getLastError (print : BSONElement -> bytes) (db : bytes) (fsync j : bool) (w wtimeout : Z) : ST C bytes :=
  info ← getLastErrorDetailed db fsync j w wtimeout; mret (getLastErrorString print info).
End Commands.

(** ** The shape of a query *)

(** The modifiers, each with the type of its value. *)
Inductive modifier : BSONElement -> Prop :=
  | mod_sort s : modifier (B "orderby", VObject s)
  | mod_hint k : modifier (B "$hint", VObject k)
  | mod_hint_name n : modifier (B "$hint", VString n)
  | mod_maxTime ms : in_range int32 ms -> modifier (maxTimeMsField, VNumberInt ms)
  | mod_explain : modifier (B "$explain", true_value)
  | mod_snapshot : modifier (B "$snapshot", true_value)
  | mod_min v : modifier (B "$min", VObject v)
  | mod_max v : modifier (B "$max", VObject v)
  | mod_readPref p tags : modifier (ReadPrefField, VObject (readPref_doc p tags)).

(** A filter that is not taken for more than that. *)
Definition simple (f : BSONObj) : Prop := isComplex f = None.
(** A query of the filter [f]: the filter alone, or first and under its name. *)
Inductive well_typed (f : BSONObj) : Query -> Prop :=
  | wt_simple : well_typed f f
  | wt_complex mods : Forall modifier mods -> well_typed f ((B "query", VObject f) :: mods).

(** The calls that build a query. *)
Inductive query_call :=
  | QSort (s : BSONObj) | QHint (k : BSONObj) | QHintName (n : bytes) | QMaxTimeMs (ms : Z)
  | QExplain | QSnapshot | QMinKey (v : BSONObj) | QMaxKey (v : BSONObj)
  | QReadPref (p : ReadPreference) (tags : BSONObj) | QWhere (code : bytes) (scope : BSONObj).
Definition run_query_call (c : query_call) (q : Query) : M Query :=
  match c with
  | QSort s => Ret (query_sort s q)
  | QHint k => Ret (query_hint k q)
  | QHintName n => Ret (query_hint_name n q)
  | QMaxTimeMs ms => Ret (query_maxTimeMs ms q)
  | QExplain => Ret (query_explain q)
  | QSnapshot => Ret (query_snapshot q)
  | QMinKey v => Ret (query_minKey v q)
  | QMaxKey v => Ret (query_maxKey v q)
  | QReadPref p tags => Ret (query_readPref p tags q)
  | QWhere code scope => query_where code scope q
  end.
Fixpoint run_query_calls (l : list query_call) (q : Query) : M Query :=
  match l with [] => Ret q | c :: l => q ← run_query_call c q; run_query_calls l q end.
(** The modifier a call appends; [where] changes the filter instead. *)
Definition modifier_of (c : query_call) : option BSONElement :=
  match c with
  | QSort s => Some (B "orderby", VObject s)
  | QHint k => Some (B "$hint", VObject k)
  | QHintName n => Some (B "$hint", VString n)
  | QMaxTimeMs ms => Some (maxTimeMsField, VNumberInt ms)
  | QExplain => Some (B "$explain", true_value)
  | QSnapshot => Some (B "$snapshot", true_value)
  | QMinKey v => Some (B "$min", VObject v)
  | QMaxKey v => Some (B "$max", VObject v)
  | QReadPref p tags => Some (ReadPrefField, VObject (readPref_doc p tags))
  | QWhere _ _ => None
  end.
Definition call_ok (c : query_call) : Prop := match c with QMaxTimeMs ms => in_range int32 ms | _ => True end.
Definition where_of (c : query_call) : BSONObj :=
  match c with QWhere code scope => [(B "$where", VCodeWScope code scope)] | _ => [] end.

Lemma modifier_of_typed c e : call_ok c -> modifier_of c = Some e -> modifier e.
Proof. destruct c; intros Hc [= <-]; by constructor. Qed.
Lemma run_modifier c e q : modifier_of c = Some e -> run_query_call c q = Ret (makeComplex q ++ [e]).
Proof. by destruct c; intros [= <-]. Qed.

Lemma isComplex_head f mods : isComplex ((B "query", VObject f) :: mods) = Some false.
Proof. reflexivity. Qed.
Lemma getField_app_None o e name : eoo (getField o name) = true -> e.1 <> name -> eoo (getField (o ++ [e]) name) = true.
Proof.
  induction o as [|[n v] o IH]; cbn [app getField]; intros H Hn.
  - destruct (StringData_eq name e.1) eqn:E; [by apply StringData_eq_spec in E|done].
  - cbn [fst] in *. destruct (StringData_eq name n); [done|]. by apply IH.
Qed.
Lemma simple_where f code scope : simple f -> simple (f ++ [(B "$where", VCodeWScope code scope)]).
Proof.
  unfold simple, isComplex, hasField. intros H.
  destruct (eoo (getField f (B "query"))) eqn:E1; [|done]. destruct (eoo (getField f (B "$query"))) eqn:E2; [|done].
  by rewrite !getField_app_None.
Qed.
Lemma simple_not_complex f : simple f -> is_complex f = false.
Proof. unfold simple, is_complex. by intros ->. Qed.

(** The filter and the modifiers that a sequence of calls makes. *)
Definition wheres (l : list query_call) : BSONObj := concat (where_of <$> l).
Definition modifiers (l : list query_call) : BSONObj := omap modifier_of l.
Definition built (f : BSONObj) (mods : BSONObj) : Query :=
  match mods with [] => f | _ => (B "query", VObject f) :: mods end.

Lemma modifiers_app l l' : modifiers (l ++ l') = modifiers l ++ modifiers l'.
Proof. apply omap_app. Qed.
Lemma modifiers_typed l : Forall call_ok l -> Forall modifier (modifiers l).
Proof.
  induction 1 as [|c l Hc Hl IH]; [constructor|]. unfold modifiers. cbn [omap list_omap].
  destruct (modifier_of c) as [e|] eqn:E; [|exact IH]. constructor; [by eapply modifier_of_typed|exact IH].
Qed.
Lemma built_typed f mods : Forall modifier mods -> well_typed f (built f mods).
Proof. destruct mods; constructor. done. Qed.
Lemma makeComplex_built f mods : simple f -> makeComplex (built f mods) = (B "query", VObject f) :: mods.
Proof.
  intros Hf. unfold makeComplex. destruct mods as [|e mods]; [|done]. cbn [built]. by rewrite simple_not_complex.
Qed.
Lemma getFilter_built f mods : simple f -> getFilter (built f mods) = f.
Proof. intros Hf. unfold getFilter. destruct mods as [|e mods]; [|done]. cbn [built]. by rewrite Hf. Qed.

(** A [where] after a modifier. *)
Definition late_where (mods : BSONObj) (l : list query_call) : Prop :=
  exists l1 code scope l2, l = l1 ++ QWhere code scope :: l2 /\ mods ++ modifiers l1 <> [].
Lemma run_calls_built l f mods : simple f ->
  match run_query_calls l (built f mods) with
  | Ret q => q = built (f ++ wheres l) (mods ++ modifiers l) /\ simple (f ++ wheres l)
  | Throw e => e = EVerify /\ late_where mods l
  end.
Proof.
  revert f mods. induction l as [|c l IH]; intros f mods Hf; cbn [run_query_calls].
  { cbn. by rewrite !app_nil_r. }
  destruct (modifier_of c) as [e|] eqn:Em.
  - rewrite (run_modifier c e _ Em), ret_bind, makeComplex_built by done.
    assert (wheres (c :: l) = wheres l) as -> by (by destruct c).
    assert (modifiers (c :: l) = e :: modifiers l) as -> by (unfold modifiers; cbn; by rewrite Em).
    match goal with |- context [run_query_calls l ?q] =>
      assert (q = built f (mods ++ [e])) as -> by (by destruct mods) end.
    specialize (IH f (mods ++ [e]) Hf). destruct (run_query_calls l _) as [q|x].
    + by rewrite <-app_assoc in IH.
    + destruct IH as [-> (l1 & code & scope & l2 & -> & _)]. split; [done|]. exists (c :: l1), code, scope, l2.
      split; [done|]. unfold modifiers. cbn. rewrite Em. by destruct mods.
  - destruct c as [| | | | | | | | |code scope]; try done. cbn [run_query_call]. unfold query_where.
    destruct mods as [|e mods].
    + cbn [built]. rewrite simple_not_complex by done. cbn [negb verify guard_throw]. rewrite !ret_bind.
      specialize (IH _ [] (simple_where f code scope Hf)). rewrite <-app_assoc in IH. cbn [built] in IH.
      destruct (run_query_calls l _) as [q|x]; [exact IH|].
      destruct IH as [-> (l1 & code' & scope' & l2 & -> & Hm)]. split; [done|].
      exists (QWhere code scope :: l1), code', scope', l2. by split.
    + cbn [built is_complex bool_decide]. split; [done|]. exists [], code, scope, l. by split.
Qed.

(** C16: a query built from a filter is always well typed.  Whatever calls are made
    on it, either they answer with the filter, to which every [where] has been
    added, alone or in the field "query" with all modifiers behind it, in the order
    of the calls and each with a value of its type, and [getFilter] gives that
    filter; or a [where] came after a modifier, and its assertion failed. *)
Theorem query_typed f l : simple f -> Forall call_ok l ->
  match run_query_calls l f with
  | Ret q => well_typed (f ++ wheres l) q /\ q = built (f ++ wheres l) (modifiers l) /\ getFilter q = f ++ wheres l
  | Throw e => e = EVerify /\ late_where [] l
  end.
Proof.
  intros Hf Hl. pose proof (run_calls_built l f [] Hf) as H. cbn [built] in H.
  destruct (run_query_calls l f) as [q|e]; [|exact H]. destruct H as [-> Hs]. split_and!.
  - by apply built_typed, modifiers_typed.
  - done.
  - by apply getFilter_built.
Qed.
Lemma query_typed_witness :
  let f := [(B "a", VNumberInt 1)] in let l := [QWhere (B "true") []; QSort f; QMaxTimeMs 5] in
  exists q, run_query_calls l f = Ret q /\ well_typed (f ++ wheres l) q /\
    getFilter q = f ++ wheres l.
Proof.
  intros f l. pose proof (query_typed f l) as H.
  assert (simple f) as Hf by (by vm_compute).
  assert (Forall call_ok l) as Hl by (apply Forall_cons_2; [exact I|]; apply Forall_cons_2; [exact I|];
    apply Forall_cons_2; [by vm_compute|]; apply Forall_nil_2).
  specialize (H Hf Hl). eexists. split; [reflexivity|]. split; [exact (proj1 H)|exact (proj2 (proj2 H))].
Defined.

(** ** What the accessors find *)

Definition first_of {A} (sel : query_call -> option A) (l : list query_call) : option A := head (omap sel l).
Definition sort_of (c : query_call) : option BSONObj := match c with QSort s => Some s | _ => None end.
Definition hint_of (c : query_call) : option BSONElement :=
  match c with QHint k => Some (B "$hint", VObject k) | QHintName n => Some (B "$hint", VString n) | _ => None end.
Definition maxTime_of (c : query_call) : option Z := match c with QMaxTimeMs ms => Some ms | _ => None end.
Definition explain_of (c : query_call) : option unit := match c with QExplain => Some tt | _ => None end.
Definition readPref_of (c : query_call) : option BSONObj :=
  match c with QReadPref p tags => Some (readPref_doc p tags) | _ => None end.

(** The first modifier of a name is that of the first call that makes one. *)
Lemma getField_modifiers {A} (name : bytes) (mk : A -> BSONElement) (sel : query_call -> option A) l :
  (forall c, match sel c with
             | Some a => modifier_of c = Some (mk a) /\ (mk a).1 = name
             | None => forall e, modifier_of c = Some e -> e.1 <> name end) ->
  getField (modifiers l) name = match first_of sel l with Some a => mk a | None => eooElement end.
Proof.
  intros Hsel. induction l as [|c l IH]; [done|]. unfold modifiers, first_of in *. cbn [omap list_omap].
  specialize (Hsel c). destruct (sel c) as [a|].
  - destruct Hsel as [-> Hn]. cbn [getField head]. destruct (StringData_eq name (mk a).1) eqn:E; [done|].
    rewrite Hn in E. by rewrite (proj2 (StringData_eq_spec _ _)) in E.
  - destruct (modifier_of c) as [e|]; [|exact IH]. cbn [getField].
    destruct (StringData_eq name e.1) eqn:E; [|exact IH]. apply StringData_eq_spec in E. by destruct (Hsel e eq_refl).
Qed.
Lemma getField_complex f l name : name <> B "query" ->
  getField ((B "query", VObject f) :: modifiers l) name = getField (modifiers l) name.
Proof.
  intros Hn. cbn [getField fst]. destruct (StringData_eq name (B "query")) eqn:E; [|done].
  by apply StringData_eq_spec in E.
Qed.
Ltac by_calls := intros c; destruct c; cbn; first [by split|by intros ? [= <-]|done].
Lemma first_of_nothing l : first_of (fun _ : query_call => @None Empty_set) l = None.
Proof. unfold first_of. induction l; [done|]. cbn. exact IHl. Qed.
(** A name that is none of a modifier. *)
Lemma getField_absent name l : (forall c e, modifier_of c = Some e -> e.1 <> name) ->
  getField (modifiers l) name = eooElement.
Proof.
  intros H. rewrite (getField_modifiers name (fun _ : Empty_set => eooElement) (fun _ => None)) by (intros c; apply H).
  by rewrite first_of_nothing.
Qed.
Lemma complex_built f l : modifiers l <> [] ->
  built f (modifiers l) = (B "query", VObject f) :: modifiers l.
Proof. by destruct (modifiers l). Qed.

(** The accessors of a query give what the first call of each kind gave it: a
    second sort, hint or limit of time on the same query has no effect. *)
Theorem query_accessors f l q : simple f -> run_query_calls l f = Ret q -> modifiers l <> [] ->
  getSort q = default [] (first_of sort_of l) /\
  getHint q = default eooElement (first_of hint_of l) /\
  getMaxTimeMs q = Ret (default (int_min int32) (first_of maxTime_of l)) /\
  isExplain q = bool_decide (is_Some (first_of explain_of l)) /\
  getReadPref q = default [] (first_of readPref_of l) /\
  hasReadPreference q = bool_decide (is_Some (first_of readPref_of l)).
Proof.
  intros Hf Hrun Hl. pose proof (run_calls_built l f [] Hf) as H. cbn [built] in H. rewrite Hrun in H.
  destruct H as [-> _]. cbn [app]. rewrite complex_built by done. set (g := f ++ wheres l).
  assert (is_complex ((B "query", VObject g) :: modifiers l) = true) as Hc by done.
  split_and!.
  - unfold getSort. rewrite Hc. cbn [negb]. unfold getObjectField.
    rewrite (getField_complex g l (B "orderby")), (getField_complex g l (B "$orderby")) by done.
    rewrite (getField_modifiers (B "orderby") (fun s : BSONObj => (B "orderby", VObject s)) sort_of)
      by by_calls.
    rewrite (getField_absent (B "$orderby")) by (intros c; destruct c; cbn; by intros ? [= <-]).
    destruct (first_of sort_of l) as [s|]; cbn; [|by destruct (empty_obj [])]. unfold empty_obj. by case_bool_decide as Es; [rewrite Es|].
  - unfold getHint. rewrite Hc. cbn [negb]. rewrite getField_complex by done.
    rewrite (getField_modifiers (B "$hint") id hint_of)
      by by_calls.
    by destruct (first_of hint_of l).
  - unfold getMaxTimeMs, getIntField. rewrite getField_complex by done.
    rewrite (getField_modifiers maxTimeMsField (fun ms => (maxTimeMsField, VNumberInt ms)) maxTime_of)
      by by_calls.
    by destruct (first_of maxTime_of l).
  - unfold isExplain, getBoolField. rewrite Hc, getField_complex by done.
    rewrite (getField_modifiers (B "$explain") (fun _ : unit => (B "$explain", true_value)) explain_of)
      by by_calls.
    destruct (first_of explain_of l) as [[]|]; [|done]. rewrite bool_decide_eq_true_2; [done|by eexists].
  - unfold getReadPref, getObjectField. rewrite getField_complex by done.
    rewrite (getField_modifiers ReadPrefField (fun d : BSONObj => (ReadPrefField, VObject d)) readPref_of)
      by by_calls.
    by destruct (first_of readPref_of l).
  - unfold hasReadPreference, hasField. rewrite Hc, !getField_complex by done.
    rewrite (getField_modifiers ReadPrefField (fun d : BSONObj => (ReadPrefField, VObject d)) readPref_of)
      by by_calls.
    rewrite (getField_absent (B "$queryOptions")) by (intros c; destruct c; cbn; by intros ? [= <-]).
    destruct (first_of readPref_of l) as [d|]; [|done]. rewrite bool_decide_eq_true_2; [done|by eexists].
Qed.
Lemma query_accessors_witness :
  let f := [(B "a", VNumberInt 1)] in
  let l := [QSort f; QReadPref ReadPreference_Nearest []; QMaxTimeMs 5; QSort []] in
  exists q, run_query_calls l f = Ret q /\ getSort q = f /\ getMaxTimeMs q = Ret 5 /\ hasReadPreference q = true.
Proof.
  intros f l. eexists. split; [reflexivity|].
  destruct (query_accessors f l _ eq_refl eq_refl ltac:(discriminate)) as (E1 & _ & E2 & _ & _ & E3).
  split; [exact E1|]. split; [exact E2|exact E3].
Defined.

(** A filter with a field of its own named "query" is taken for a query with
    modifiers: the filter is lost. *)
Lemma filter_named_query : getFilter [(B "query", VString (B "x")); (B "a", VNumberInt 1)] = [].
Proof. reflexivity. Qed.
(** The modifiers of a query whose filter is under "$query" include the filter, and
    a count sends them with the command. *)
Lemma count_sends_filter_twice :
  let q := [(B "$query", VObject [(B "a", VNumberInt 1)])] in
  _countCmd (B "db.c") q 0 0 = Ret [(B "count", VString (B "c")); (B "query", VObject [(B "a", VNumberInt 1)]);
    (B "$query", VObject [(B "a", VNumberInt 1)])].
Proof. vm_compute. reflexivity. Qed.
