(* ===== verification/ConnString.v ===== *)
(** * Connection strings: the part of client/dbclient.cpp and
    client/dbclientinterface.h that parses them

    A URL is matched against a regular expression of the Boost library.  The pattern
    is the source's; what Boost does with it is a parameter, with Perl's rules as its
    law: choices are tried in order, repetitions take as much as they can, and the
    first way to match the whole text gives the captures. *)
From S2P Require Import Prelude StringData ParseNumber HostAndPort BsonTypes BufBuilder Bson BsonObj Codec RSState.
Local Open Scope Z_scope.

(** ** Regular expressions *)

Inductive re :=
  | Eps
  | Chr (f : char -> bool)
  | Seq (a b : re) | Alt (a b : re) | Star (a : re) | Cap (i : nat) (a : re).
Definition Lit (s : bytes) : re := foldr (fun c r => Seq (Chr (ceq c)) r) Eps s.
Definition Plus (a : re) : re := Seq a (Star a).
Definition Opt (a : re) : re := Alt a Eps.
Definition not_among (l : bytes) (c : char) : bool := negb (existsb (ceq c) l).
Definition any_char (_ : char) : bool := true.

Definition captures : Type := gmap nat bytes.
(** Perl's order: [k] is what has to match the rest of the text.  A repetition stops
    when its body takes nothing. *)
Fixpoint re_match (r : re) (s : bytes) (m : captures) (k : bytes -> captures -> option captures) : option captures :=
  match r with
  | Eps => k s m
  | Chr f => match s with c :: s' => if f c then k s' m else None | [] => None end
  | Seq a b => re_match a s m (fun s m => re_match b s m k)
  | Alt a b => match re_match a s m k with Some x => Some x | None => re_match b s m k end
  | Cap i a => re_match a s m (fun s' m => k s' (<[i := take (length s - length s') s]> m))
  | Star a =>
      (fix loop (n : nat) (s : bytes) (m : captures) : option captures :=
         match n with
         | O => k s m
         | S n =>
             match re_match a s m (fun s' m => if (length s' <? length s)%nat then loop n s' m else None) with
             | Some x => Some x
             | None => k s m
             end
         end) (length s) s m
  end.
Definition perl_match (r : re) (s : bytes) : option captures :=
  re_match r s ∅ (fun rest m => match rest with [] => Some m | _ => None end).

(** [boost::algorithm::split] at every character of a set. *)
Fixpoint split_at_any (seps : bytes) (s : bytes) : list bytes :=
  match s with
  | [] => [[]]
  | c :: s' =>
      if existsb (ceq c) seps then [] :: split_at_any seps s'
      else match split_at_any seps s' with t :: ts => (c :: t) :: ts | [] => [[c]] end
  end.

(** What the code uses of Boost. *)
Class Boost := {
  regex_match : re -> bytes -> option captures;
  split_any : bytes -> bytes -> list bytes;
  to_upper_copy : bytes -> bytes;
  starts_with : bytes -> bytes -> bool }.
Class BoostLaws `{Boost} : Prop := {
  regex_match_perl r s : regex_match r s = perl_match r s;
  split_any_spec seps s : split_any seps s = split_at_any seps s;
  to_upper_spec s : to_upper_copy s = toupper <$> s;
  starts_with_spec s p : starts_with s p = has_prefix s p }.
Definition boost_reference : Boost := {|
  regex_match := perl_match; split_any := split_at_any; to_upper_copy s := toupper <$> s; starts_with := has_prefix |}.
Lemma boost_reference_laws : @BoostLaws boost_reference.
Proof. by split. Qed.

(** ** The URL *)

Definition url_credentials : re :=
  Opt (Seq (Cap 1 (Plus (Chr (not_among (B ":"))))) (Seq (Opt (Seq (Lit (B ":")) (Cap 2 (Plus (Chr (not_among (B "@"))))))) (Lit (B "@")))).
Definition url_socket : re :=
  Seq (Lit (B "/")) (Seq (Plus (Chr any_char)) (Seq (Chr any_char) (Seq (Lit (B "soc")) (Opt (Lit (B "k")))))).
Definition url_servers : re :=
  Cap 3 (Plus (Seq (Alt (Plus (Chr (not_among (B "/")))) url_socket) (Opt (Lit (B ","))))).
Definition db_excluded : bytes := B "/. *<>:|?" ++ [chr 34].
Definition url_database : re := Opt (Seq (Lit (B "/")) (Cap 4 (Star (Chr (not_among db_excluded))))).
Definition url_options : re :=
  Star (Seq (Lit (B "?"))
    (Plus (Seq (Cap 5 (Seq (Plus (Chr any_char)) (Seq (Lit (B "=")) (Plus (Chr any_char))))) (Opt (Lit (B "&")))))).
Definition kMongoDBURL : re :=
  Seq (Lit (B "mongodb://")) (Seq url_credentials (Seq url_servers (Seq url_database url_options))).

(** ** Connection strings *)

Inductive ConnectionType := INVALID | MASTER | PAIR | SET_ | CUSTOM.
Global Instance ConnectionType_dec : EqDecision ConnectionType.
Proof. solve_decision. Defined.
Record ConnectionString := mkConnectionString {
  cs_type : ConnectionType;
  cs_servers : list HostAndPort;
  cs_string : bytes;
  cs_setName : bytes;
  cs_user : bytes;
  cs_password : bytes;
  cs_database : bytes;
  cs_options : BSONObj }.
Definition ConnectionString_ctor : ConnectionString := mkConnectionString INVALID [] [] [] [] [] [] [].

Definition dollar_first (s : bytes) : bool := StringData_find_char s dollar 0 =? 0.
(** The text between commas. *)
Fixpoint server_loop (fuel : nat) (s : bytes) : M (list HostAndPort) :=
  let idx := StringData_find_char s ","%char 0 in
  if idx =? npos then h ← HostAndPort_ctor s; Ret [h]
  else
    match fuel with
    | O => Throw EUndefined
    | S fuel =>
        first ← StringData_substr s 0 idx;
        h ← HostAndPort_ctor first;
        rest ← StringData_substr s (size_wrap (idx + 1)) npos;
        hs ← server_loop fuel rest;
        Ret (h :: hs)
    end.
(** The type, the name of the set and the servers. *)
Definition _fillServers (s : bytes) (legacy : bool) (cs : ConnectionString) : M ConnectionString :=
  let type := if dollar_first s then CUSTOM else cs_type cs in
  let idx := StringData_find_char s "/"%char 0 in
  '(type, setName, s) ← (if legacy && negb (idx =? npos) && negb (idx =? 0) then
                           setName ← StringData_substr s 0 idx;
                           rest ← StringData_substr s (size_wrap (idx + 1)) npos;
                           Ret (if bool_decide (type = CUSTOM) then CUSTOM else SET_, setName, rest)
                         else Ret (type, cs_setName cs, s));
  hs ← server_loop (length s) s;
  Ret (mkConnectionString type (cs_servers cs ++ hs) (cs_string cs) setName (cs_user cs) (cs_password cs) (cs_database cs) (cs_options cs)).
Definition join_servers (l : list HostAndPort) : bytes :=
  match l with
  | [] => []
  | h :: l => HostAndPort_toString h ++ concat ((fun h => B "," ++ HostAndPort_toString h) <$> l)
  end.
Definition _finishInit (cs : ConnectionString) : ConnectionString :=
  let type := match cs_type cs, cs_servers cs with
              | MASTER, h :: _ => if dollar_first (_host h) then CUSTOM else MASTER
              | t, _ => t end in
  mkConnectionString type (cs_servers cs)
    ((match type with SET_ => cs_setName cs ++ B "/" | _ => [] end) ++ join_servers (cs_servers cs))
    (cs_setName cs) (cs_user cs) (cs_password cs) (cs_database cs) (cs_options cs).
Definition check_type (cs : ConnectionString) : M unit :=
  match cs_type cs with
  | MASTER => verify (zlen (cs_servers cs) =? 1)
  | SET_ => verify (negb (zlen (cs_setName cs) =? 0));; verify (1 <=? zlen (cs_servers cs))
  | PAIR => verify (zlen (cs_servers cs) =? 2)
  | _ => verify (0 <? zlen (cs_servers cs))
  end.
Definition ConnectionString_server (server : HostAndPort) : ConnectionString :=
  _finishInit (mkConnectionString MASTER [server] [] [] [] [] [] []).
Definition ConnectionString_typed (type : ConnectionType) (s setName : bytes) : M ConnectionString :=
  cs ← _fillServers s true (mkConnectionString type [] [] setName [] [] [] []);
  check_type cs;;
  Ret (_finishInit cs).
Definition ConnectionString_favored (s : bytes) (favoredMultipleType : ConnectionType) : M ConnectionString :=
  cs ← _fillServers s true ConnectionString_ctor;
  let with_type t := mkConnectionString t (cs_servers cs) (cs_string cs) (cs_setName cs) (cs_user cs) (cs_password cs) (cs_database cs) (cs_options cs) in
  if negb (bool_decide (cs_type cs = INVALID)) then Ret (_finishInit cs)
  else if zlen (cs_servers cs) =? 1 then Ret (_finishInit (with_type MASTER))
  else verify (bool_decide (favoredMultipleType = SET_));; Ret (_finishInit (with_type favoredMultipleType)).
Definition ConnectionString_url (type : ConnectionType) (user password servers database setName : bytes) (options : BSONObj) : M ConnectionString :=
  cs ← _fillServers servers false (mkConnectionString type [] [] setName user password database options);
  check_type cs;;
  Ret (_finishInit cs).
Definition cs_isValid (cs : ConnectionString) : bool := negb (bool_decide (cs_type cs = INVALID)).
Definition cs_lt (a b : ConnectionString) : bool := StringData_lt (cs_string a) (cs_string b).
Definition ConnectionString_mock (server : HostAndPort) : ConnectionString :=
  mkConnectionString INVALID [server] (HostAndPort_toString server) [] [] [] [] [].

Definition server_at (cs : ConnectionString) (i : nat) : M HostAndPort :=
  match cs_servers cs !! i with Some h => Ret h | None => Throw EUndefined end.
Definition same_server (a : ConnectionString) (i : nat) (b : ConnectionString) (j : nat) : M bool :=
  x ← server_at a i; y ← server_at b j; Ret (HostAndPort_eq x y).
Definition sameLogicalEndpoint (a b : ConnectionString) : M bool :=
  if negb (bool_decide (cs_type a = cs_type b)) then Ret false
  else
    match cs_type a with
    | INVALID => Ret true
    | MASTER => same_server a 0 b 0
    | PAIR =>
        first ← same_server a 0 b 0;
        if (first : bool) then same_server a 1 b 1
        else cross ← same_server a 0 b 1; if (cross : bool) then same_server a 1 b 0 else Ret false
    | SET_ => Ret (StringData_eq (cs_setName a) (cs_setName b))
    | CUSTOM => Ret (StringData_eq (cs_string a) (cs_string b))
    end.
Definition typeToString (t : ConnectionType) : bytes :=
  match t with INVALID => B "invalid" | MASTER => B "master" | PAIR => B "pair" | SET_ => B "set" | CUSTOM => B "custom" end.

(** ** Parsing *)

Section Parse.
Context `{Boost}.
(** [client::Options::current().SSLEnabled()]. *)
Context (SSLEnabled : bool).

(** A result is a connection string and what is assigned to [errmsg]. *)
Definition invalid (errmsg : bytes) : ConnectionString * option bytes := (ConnectionString_ctor, Some errmsg).
Fixpoint assign_options (tokens : list bytes) (options : list (bytes * bytes)) : list (bytes * bytes) :=
  match tokens with
  | k :: v :: tokens => assign_options tokens (map_assign k v options)
  | _ => options
  end.
Definition matched (m : captures) (i : nat) : bytes := default [] (m !! i).
Definition _parseURL (url : bytes) : M (ConnectionString * option bytes) :=
  match regex_match kMongoDBURL url with
  | None => Ret (invalid (B "Failed to parse mongodb:// URL: " ++ url))
  | Some m =>
      match m !! 3%nat with
      | None => Ret (invalid (B "No server(s) specified"))
      | Some servers =>
          let optionsTokens := match m !! 5%nat with Some o => split_any (B "=&") o | None => [] end in
          if negb (zlen optionsTokens mod 2 =? 0) then
            Ret (invalid (B "Missing a key or value in the options for mongodb:// URL: " ++ url))
          else
            let options := assign_options optionsTokens [] in
            let haveSetName := bool_decide (map_find (B "replicaSet") options <> None) in
            let setName := default [] (map_find (B "replicaSet") options) in
            if match map_find (B "ssl") options with
               | Some v => negb (bool_decide (v = if SSLEnabled then B "true" else B "false"))
               | None => false end
            then Ret (invalid (B "Cannot override global driver SSL state in connection URL"))
            else
              let optionsBob : BSONObj := (fun o => (o.1, VString o.2)) <$> options in
              let direct := negb haveSetName && (StringData_find_char servers ","%char 0 =? npos) in
              if negb direct && bool_decide (setName = []) then
                Ret (invalid (B "Cannot list multiple servers in URL without 'replicaSet' option"))
              else
                cs ← ConnectionString_url (if direct then MASTER else SET_) (matched m 1) (matched m 2) servers
                       (matched m 4) setName optionsBob;
                Ret (cs, None)
      end
  end.
Definition ConnectionString_parse (url : bytes) : M (ConnectionString * option bytes) :=
  if starts_with url (B "mongodb://") then _parseURL url
  else Ret (invalid (B "invalid connection string [" ++ url ++ B "]")).
Definition count_char (s : bytes) (c : char) : Z := zlen (filter (fun x => x = c) s).
Definition parseDeprecated (address : bytes) : M (ConnectionString * option bytes) :=
  let i := StringData_find_char address "/"%char 0 in
  if negb (i =? npos) && negb (i =? 0) then
    rest ← StringData_substr address (size_wrap (i + 1)) npos;
    setName ← StringData_substr address 0 i;
    cs ← ConnectionString_typed SET_ rest setName;
    Ret (cs, None)
  else
    let numCommas := count_char address ","%char in
    if numCommas =? 0 then h ← HostAndPort_ctor address; Ret (ConnectionString_server h, None)
    else if numCommas =? 1 then cs ← ConnectionString_typed PAIR address []; Ret (cs, None)
    else Ret (invalid (B "invalid connection string [" ++ address ++ B "]")).

(** ** Credentials *)

Definition kAuthServiceName : bytes := B "SERVICE_NAME".
Definition kAuthServiceRealm : bytes := B "SERVICE_REALM".
Fixpoint mechanism_properties (props : list bytes) : M BSONObj :=
  match props with
  | [] => Ret []
  | p :: rest =>
      let prop := to_upper_copy p in
      uassert 9 (bool_decide (prop ∈ [kAuthServiceName; kAuthServiceRealm]));;
      match rest with
      | [] => Throw (EUassert 9)
      | value :: rest => o ← mechanism_properties rest; Ret ((prop, VString value) :: o)
      end
  end.
Definition parseAuthMechanismProperties (propStr : bytes) : M BSONObj := mechanism_properties (split_any (B ",:") propStr).
Definition append_as (e : BSONElement) (name : bytes) : BSONObj := if eoo e then [] else [(name, e.2)].
Definition _makeAuthObjFromOptions (maxWireVersion : Z) (cs : ConnectionString) : M BSONObj :=
  invariant (negb (bool_decide (cs_user cs = [])));;
  let pwd : BSONObj := if bool_decide (cs_password cs = []) then [] else [(B "pwd", VString (cs_password cs))] in
  let authSource := getField (cs_options cs) (B "authSource") in
  let db : BSONObj :=
    if negb (eoo authSource) then append_as authSource (B "db")
    else if negb (bool_decide (cs_database cs = [])) then [(B "db", VString (cs_database cs))]
    else [(B "db", VString (B "admin"))] in
  let authMechanism := getField (cs_options cs) (B "authMechanism") in
  let mechanism : BSONObj :=
    if negb (eoo authMechanism) then append_as authMechanism (B "mechanism")
    else [(B "mechanism", VString (if 3 <=? maxWireVersion then B "SCRAM-SHA-1" else B "MONGODB-CR"))] in
  let authProperties := getField (cs_options cs) (B "authMechanismProperties") in
  '(properties, username) ←
    (if eoo authProperties then Ret ([] : BSONObj, cs_user cs)
     else
       text ← String_checked authProperties;
       parsed ← parseAuthMechanismProperties text;
       let hasNameProp := hasField parsed kAuthServiceName in
       uassert 9 (negb (hasNameProp && hasField (cs_options cs) (B "gssapiServiceName")));;
       service ← (if hasNameProp then s ← String_checked (getField parsed kAuthServiceName); Ret [(B "serviceName", VString s)] else Ret []);
       realm ← (if hasField parsed kAuthServiceRealm then s ← String_checked (getField parsed kAuthServiceRealm); Ret (B "@" ++ s) else Ret []);
       Ret ((B "mechanism_properties", VObject parsed) :: service, cs_user cs ++ realm));
  Ret (pwd ++ db ++ mechanism ++ properties ++ append_as (getField (cs_options cs) (B "gssapiServiceName")) (B "serviceName")
       ++ [(B "user", VString username)]).
End Parse.

(** ** Tests *)

Local Definition p (url : string) := @ConnectionString_parse boost_reference false (B url).
Local Definition parts (r : M (ConnectionString * option bytes)) :=
  match r with
  | Ret (cs, None) => Some (cs_string cs, cs_user cs, cs_password cs, cs_database cs, cs_options cs)
  | _ => None
  end.
Example parse_full :
  parts (p "mongodb://u:pw@h1:1,h2/db?replicaSet=s&a=b") =
  Some (B "s/h1:1,h2:27017", B "u", B "pw", B "db", [(B "a", VString (B "b")); (B "replicaSet", VString (B "s"))]).
Proof. vm_compute. reflexivity. Qed.
Example parse_plain : parts (p "mongodb://h") = Some (B "h:27017", [], [], [], []).
Proof. vm_compute. reflexivity. Qed.
Example parse_user : parts (p "mongodb://u@h:1/") = Some (B "h:1", B "u", [], [], []).
Proof. vm_compute. reflexivity. Qed.
(** A database whose name has "soc" in it, after at least two characters, is taken
    for the socket of a server. *)
Example database_taken_for_socket :
  parts (p "mongodb://h/associations") = Some (B "h/associations:27017", [], [], [], []) /\
  parts (p "mongodb://h/assets") = Some (B "h:27017", [], [], B "assets", []).
Proof. vm_compute. by split. Qed.
(** Options with no slash before them are taken for a part of the host. *)
Example options_without_slash : parts (p "mongodb://h?a=b") = Some (B "h?a=b:27017", [], [], [], []).
Proof. vm_compute. reflexivity. Qed.

(** ** What the matcher finds *)

Inductive lang : re -> bytes -> Prop :=
  | L_Eps : lang Eps []
  | L_Chr f c : f c = true -> lang (Chr f) [c]
  | L_Seq a b s t : lang a s -> lang b t -> lang (Seq a b) (s ++ t)
  | L_Alt_l a b s : lang a s -> lang (Alt a b) s
  | L_Alt_r a b s : lang b s -> lang (Alt a b) s
  | L_Star_nil a : lang (Star a) []
  | L_Star_cons a s t : lang a s -> lang (Star a) t -> lang (Star a) (s ++ t)
  | L_Cap i a s : lang a s -> lang (Cap i a) s.

Definition star_loop (body : bytes -> captures -> (bytes -> captures -> option captures) -> option captures)
    (k : bytes -> captures -> option captures) : nat -> bytes -> captures -> option captures :=
  fix loop n s m :=
    match n with
    | O => k s m
    | S n =>
        match body s m (fun s' m => if (length s' <? length s)%nat then loop n s' m else None) with
        | Some x => Some x
        | None => k s m
        end
    end.
Lemma re_match_Star a s m k : re_match (Star a) s m k = star_loop (re_match a) k (length s) s m.
Proof. reflexivity. Qed.

(** What matches is a word of the language, and the rest is what the continuation
    took. *)
Lemma re_match_sound r s m k x : re_match r s m k = Some x ->
  exists s1 s2 m', s = s1 ++ s2 /\ lang r s1 /\ k s2 m' = Some x.
Proof.
  revert s m k x. induction r as [|f|a IHa b IHb|a IHa b IHb|a IHa|i a IHa]; intros s m k x Hm.
  - exists [], s, m. split; [done|]. split; [constructor|done].
  - cbn in Hm. destruct s as [|c s]; [done|]. destruct (f c) eqn:Ef; [|done].
    exists [c], s, m. split; [done|]. split; [by constructor|done].
  - cbn in Hm. apply IHa in Hm as (s1 & s2 & m1 & -> & Ha & Hm). apply IHb in Hm as (s3 & s4 & m2 & -> & Hb & Hm).
    exists (s1 ++ s3), s4, m2. split; [by rewrite app_assoc|]. split; [by constructor|done].
  - cbn in Hm. destruct (re_match a s m k) as [y|] eqn:E.
    + injection Hm as <-. apply IHa in E as (s1 & s2 & m1 & -> & Ha & E). exists s1, s2, m1. split; [done|]. split; [by constructor|done].
    + apply IHb in Hm as (s1 & s2 & m1 & -> & Hb & Hm). exists s1, s2, m1. split; [done|]. split; [by apply L_Alt_r|done].
  - rewrite re_match_Star in Hm. remember (length s) as n eqn:En. clear En. revert s m Hm.
    induction n as [|n IH]; intros s m Hm; cbn in Hm.
    { exists [], s, m. split; [done|]. split; [constructor|done]. }
    destruct (re_match a s m _) as [y|] eqn:E.
    + injection Hm as <-. apply IHa in E as (s1 & s2 & m1 & -> & Ha & E).
      match type of E with (if ?b then _ else _) = _ => destruct b; [|done] end.
      apply IH in E as (s3 & s4 & m2 & -> & Hs & E). exists (s1 ++ s3), s4, m2. split; [by rewrite app_assoc|]. split; [by constructor|done].
    + exists [], s, m. split; [done|]. split; [constructor|done].
  - cbn in Hm. apply IHa in Hm as (s1 & s2 & m1 & -> & Ha & Hm). exists s1, s2, (<[i:=take (length (s1 ++ s2) - length s2) (s1 ++ s2)]> m1).
    split; [done|]. split; [by constructor|done].
Qed.
Lemma re_match_fails r s m k : (forall s1 s2 m', s = s1 ++ s2 -> lang r s1 -> k s2 m' = None) -> re_match r s m k = None.
Proof.
  intros Hk. destruct (re_match r s m k) as [x|] eqn:E; [|done].
  apply re_match_sound in E as (s1 & s2 & m' & -> & Hl & E). by rewrite (Hk s1 s2 m' eq_refl Hl) in E.
Qed.

Lemma lang_Seq_inv a b s : lang (Seq a b) s -> exists s1 s2, s = s1 ++ s2 /\ lang a s1 /\ lang b s2.
Proof. intros Hs. inversion Hs; subst; eauto. Qed.
Lemma lang_Alt_inv a b s : lang (Alt a b) s -> lang a s \/ lang b s.
Proof. intros Hs. inversion Hs; subst; auto. Qed.
Lemma lang_Cap_inv i a s : lang (Cap i a) s -> lang a s.
Proof. intros Hs. by inversion Hs. Qed.
Lemma lang_Chr_inv f s : lang (Chr f) s -> exists c, s = [c] /\ f c = true.
Proof. intros Hs. inversion Hs; subst; eauto. Qed.
Lemma lang_Eps_inv s : lang Eps s -> s = [].
Proof. intros Hs. by inversion Hs. Qed.
Lemma lang_Lit w s : lang (Lit w) s -> s = w.
Proof.
  revert s. induction w as [|c w IH]; intros s Hs; cbn in Hs; [by apply lang_Eps_inv|].
  apply lang_Seq_inv in Hs as (s1 & s2 & -> & (d & -> & Hd)%lang_Chr_inv & Hs). apply ceq_true in Hd as ->.
  cbn. f_equal. by apply IH.
Qed.
Lemma lang_Plus_ne f s : lang (Plus (Chr f)) s -> s <> [].
Proof. by intros (s1 & s2 & -> & (c & -> & _)%lang_Chr_inv & _)%lang_Seq_inv. Qed.

Lemma match_Lit w s m k : re_match (Lit w) (w ++ s) m k = k s m.
Proof. induction w as [|c w IH]; [done|]. cbn. by rewrite ceq_refl. Qed.
Lemma match_Lit_no w s m k : ~ w `prefix_of` s -> re_match (Lit w) s m k = None.
Proof. intros Hn. apply re_match_fails. intros s1 s2 m' -> ->%lang_Lit. destruct Hn. by eexists. Qed.
Lemma match_Opt_no r s m k : (forall k, re_match r s m k = None) -> re_match (Opt r) s m k = k s m.
Proof. intros Hr. cbn. by rewrite Hr. Qed.
Lemma match_Opt_yes r s m k x : re_match r s m k = Some x -> re_match (Opt r) s m k = Some x.
Proof. intros Hr. cbn. by rewrite Hr. Qed.
Lemma match_Seq a b s m k : re_match (Seq a b) s m k = re_match a s m (fun s m => re_match b s m k).
Proof. reflexivity. Qed.
Lemma match_Alt a b s m k :
  re_match (Alt a b) s m k = match re_match a s m k with Some x => Some x | None => re_match b s m k end.
Proof. reflexivity. Qed.
Lemma match_Cap i a s rest m k x :
  re_match a (s ++ rest) m (fun s' m => k s' (<[i := take (length (s ++ rest) - length s') (s ++ rest)]> m)) = Some x ->
  re_match (Cap i a) (s ++ rest) m k = Some x.
Proof. done. Qed.
Lemma capture_of (s rest : bytes) : take (length (s ++ rest) - length rest) (s ++ rest) = s.
Proof. rewrite length_app, Nat.add_sub. by rewrite take_app_length. Qed.

(** A repetition of characters takes the longest run after which the rest matches. *)
Definition ends_run (f : char -> bool) (s : bytes) : Prop := match s with c :: _ => f c = false | [] => True end.
Lemma star_chr_nil f m k : re_match (Star (Chr f)) [] m k = k [] m.
Proof. reflexivity. Qed.
Lemma star_chr_cons f c s m k :
  re_match (Star (Chr f)) (c :: s) m k =
  (if f c then match re_match (Star (Chr f)) s m k with Some x => Some x | None => k (c :: s) m end else k (c :: s) m).
Proof.
  rewrite !re_match_Star. cbn [star_loop length re_match]. destruct (f c); [|done].
  by rewrite (proj2 (Nat.ltb_lt (length s) (S (length s)))) by lia.
Qed.
Lemma star_chr_end f s m k : ends_run f s -> re_match (Star (Chr f)) s m k = k s m.
Proof. destruct s as [|c s]; [done|]. intros Hf. rewrite star_chr_cons. cbn in Hf. by rewrite Hf. Qed.
Lemma star_class f a b rest m k x :
  Forall (fun c => f c = true) (a ++ b) -> ends_run f rest ->
  (forall b1 b2, b = b1 ++ b2 -> b1 <> [] -> k (b2 ++ rest) m = None) ->
  k (b ++ rest) m = Some x ->
  re_match (Star (Chr f)) (a ++ b ++ rest) m k = Some x.
Proof.
  intros Hf He Hno Hk. induction a as [|c a IH]; cbn [app] in *.
  - destruct b as [|c b]; cbn [app].
    + by rewrite star_chr_end.
    + apply Forall_cons in Hf as [Hc Hf]. rewrite star_chr_cons, Hc.
      assert (re_match (Star (Chr f)) (b ++ rest) m k = None) as ->; [|done].
      assert (forall b1 b2, b = b1 ++ b2 -> k (b2 ++ rest) m = None) as Hno'.
      { intros b1 b2 ->. by apply (Hno (c :: b1) b2). }
      clear Hno Hk. induction b as [|d b IHb]; cbn [app].
      * rewrite star_chr_end by done. by apply (Hno' [] []).
      * apply Forall_cons in Hf as [Hd Hf]. rewrite star_chr_cons, Hd, IHb; [by apply (Hno' [] (d :: b))|done|].
        intros b1 b2 ->. by apply (Hno' (d :: b1) b2).
  - apply Forall_cons in Hf as [Hc Hf]. rewrite star_chr_cons, Hc. by rewrite IH.
Qed.
Lemma plus_class f a b rest m k x :
  a <> [] -> Forall (fun c => f c = true) (a ++ b) -> ends_run f rest ->
  (forall b1 b2, b = b1 ++ b2 -> b1 <> [] -> k (b2 ++ rest) m = None) ->
  k (b ++ rest) m = Some x ->
  re_match (Plus (Chr f)) (a ++ b ++ rest) m k = Some x.
Proof.
  intros Ha Hf He Hno Hk. destruct a as [|c a]; [done|]. cbn [app] in *. apply Forall_cons in Hf as [Hc Hf].
  unfold Plus. rewrite match_Seq. cbn [re_match]. rewrite Hc. by apply (star_class f a b).
Qed.
Lemma plus_run f a rest m k x : a <> [] -> Forall (fun c => f c = true) a -> ends_run f rest -> k rest m = Some x ->
  re_match (Plus (Chr f)) (a ++ rest) m k = Some x.
Proof.
  intros Ha Hf He Hk. apply (plus_class f a [] rest m k x Ha); [by rewrite app_nil_r|done| |done].
  intros b1 b2 E Hb. by destruct b1.
Qed.
Lemma not_among_true l c : not_among l c = true <-> c ∉ l.
Proof.
  unfold not_among. rewrite negb_true_iff, <-not_true_iff_false, existsb_exists. split.
  - intros Hn Hc. apply Hn. exists c. split; [by apply list_elem_of_In|apply ceq_refl].
  - intros Hc (d & Hd & ->%ceq_true). by apply Hc, list_elem_of_In.
Qed.
Lemma plus_fails f s m k : ends_run f s -> re_match (Plus (Chr f)) s m k = None.
Proof. destruct s as [|c s]; [done|]. cbn. by intros ->. Qed.
Lemma star_take a s m k x : s <> [] ->
  re_match a s m (fun s' m => if (length s' <? length s)%nat then star_loop (re_match a) k (pred (length s)) s' m else None) = Some x ->
  re_match (Star a) s m k = Some x.
Proof. intros Hs Hm. rewrite re_match_Star. destruct s as [|c s]; [done|]. cbn [length star_loop pred] in *. by rewrite Hm. Qed.
Lemma star_stop a k n s m : (forall k, re_match a s m k = None) -> star_loop (re_match a) k n s m = k s m.
Proof. intros Ha. destruct n; [done|]. cbn. by rewrite Ha. Qed.

(** ** The parts of a URL *)

Lemma run_not_among l a : (forall c, c ∈ l -> c ∉ a) -> Forall (fun c => not_among l c = true) a.
Proof. intros Hl. apply Forall_forall. intros c Hc. apply not_among_true. intros Hcl. by apply (Hl c). Qed.
Lemma ends_not_among l c s : c ∈ l -> ends_run (not_among l) (c :: s).
Proof. intros Hc. cbn. apply not_true_iff_false. rewrite not_among_true. tauto. Qed.
Lemma one_run l s c : l = [c] -> c ∉ s -> Forall (fun d => not_among l d = true) s.
Proof. intros -> Hc. apply run_not_among. by intros d ->%list_elem_of_singleton. Qed.

Lemma lang_credentials s : lang url_credentials s -> s = [] \/ "@"%char ∈ s.
Proof.
  intros [(s1 & s2 & -> & _ & (s3 & s4 & -> & _ & ->%lang_Lit)%lang_Seq_inv)%lang_Seq_inv| ->%lang_Eps_inv]%lang_Alt_inv; [right|by left].
  rewrite !elem_of_app. right. right. by left.
Qed.
(** No credentials. *)
Lemma credentials_none s m k : "@"%char ∉ s -> re_match url_credentials s m k = k s m.
Proof.
  intros Hs. apply match_Opt_no. intros k'. apply re_match_fails. intros s1 s2 m' -> Hl. exfalso. apply Hs.
  destruct (lang_credentials s1 (L_Alt_l _ _ _ Hl)) as [->|Hin]; [|by rewrite elem_of_app; left].
  apply lang_Seq_inv in Hl as (t1 & t2 & E & H1%lang_Cap_inv%lang_Plus_ne & _). by destruct t1.
Qed.
(** After the user, as far as the sign. *)
Definition after_user : re := Seq (Opt (Seq (Lit (B ":")) (Cap 2 (Plus (Chr (not_among (B "@"))))))) (Lit (B "@")).
Lemma after_user_no s m k : "@"%char ∉ s -> re_match after_user s m k = None.
Proof.
  intros Hs. apply re_match_fails. intros s1 s2 m' -> Hl. exfalso. apply Hs.
  apply lang_Seq_inv in Hl as (t1 & t2 & -> & _ & ->%lang_Lit). rewrite !elem_of_app. left. right. by left.
Qed.
Lemma until (c : char) (s : bytes) : exists a b, s = a ++ b /\ c ∉ a /\ ends_run (not_among [c]) b.
Proof.
  induction s as [|d s (a & b & -> & Ha & Hb)]; [exists [], []; split; [done|]; split; [not_in|done]|].
  destruct (decide (d = c)) as [->|Hd].
  - exists [], (c :: a ++ b). split; [done|]. split; [not_in|]. apply ends_not_among. by left.
  - exists (d :: a), b. split; [done|]. split; [not_in|done].
Qed.
Lemma credentials_user user rest m k x :
  user <> [] -> ":"%char ∉ user -> "@"%char ∉ user -> "@"%char ∉ rest ->
  k rest (<[1%nat := user]> m) = Some x ->
  re_match url_credentials (user ++ B "@" ++ rest) m k = Some x.
Proof.
  intros Hne Hc Ha Hrest Hk. apply match_Opt_yes. rewrite match_Seq. apply match_Cap.
  destruct (until ":" rest) as (pre & post & -> & Hpre & Hpost).
  rewrite (app_assoc (B "@") pre post). apply (plus_class _ user (B "@" ++ pre) post); [done| |exact Hpost| |].
  - apply (one_run _ _ ":"%char); [done|]. not_in.
  - intros b1 b2 E Hb. apply after_user_no. destruct b1 as [|c b1]; [done|]. injection E as <- E.
    change (pre = b1 ++ b2) in E. rewrite E, <-app_assoc, elem_of_app in Hrest. tauto.
  - rewrite <-(app_assoc (B "@")). rewrite capture_of. unfold after_user. 
    rewrite match_Seq, match_Opt_no; [by rewrite match_Lit|]. intros k'. rewrite match_Seq. apply match_Lit_no.
    intros [t E]. by injection E.
Qed.
Lemma credentials_password user pwd rest m k x :
  user <> [] -> ":"%char ∉ user -> pwd <> [] -> "@"%char ∉ pwd ->
  k rest (<[2%nat := pwd]> (<[1%nat := user]> m)) = Some x ->
  re_match url_credentials (user ++ B ":" ++ pwd ++ B "@" ++ rest) m k = Some x.
Proof.
  intros Hne Hc Hpne Hp Hk. apply match_Opt_yes. rewrite match_Seq. apply match_Cap.
  apply plus_run; [done|by apply (one_run _ _ ":"%char)|apply ends_not_among; by left|]. rewrite capture_of.
  rewrite match_Seq. apply match_Opt_yes. rewrite match_Seq, match_Lit. apply match_Cap.
  apply plus_run; [done|by apply (one_run _ _ "@"%char)|apply ends_not_among; by left|]. rewrite capture_of. by rewrite match_Lit.
Qed.

(** A tail in which no socket is seen. *)
Definition no_socket (tail : bytes) : Prop := forall pre post, tail = pre ++ B "soc" ++ post -> (length pre < 3)%nat.
Lemma lang_socket s : lang url_socket s -> exists pre post, s = pre ++ B "soc" ++ post /\ (3 <= length pre)%nat.
Proof.
  intros (s1 & s2 & -> & ->%lang_Lit & (s3 & s4 & -> & H3%lang_Plus_ne & (s5 & s6 & -> & (c & -> & _)%lang_Chr_inv &
    (s7 & s8 & -> & ->%lang_Lit & _)%lang_Seq_inv)%lang_Seq_inv)%lang_Seq_inv)%lang_Seq_inv.
  exists (B "/" ++ s3 ++ [c]), s8. split; [by rewrite <-!app_assoc|].
  destruct s3; [done|]. rewrite !length_app. cbn. lia.
Qed.
Lemma socket_no tail m k : no_socket tail -> re_match url_socket tail m k = None.
Proof.
  intros Hn. apply re_match_fails. intros s1 s2 m' -> Hl. apply lang_socket in Hl as (pre & post & -> & Hlen).
  assert (length pre < 3)%nat; [|lia]. apply (Hn pre (post ++ s2)). by rewrite <-!app_assoc.
Qed.
Lemma servers_match hosts tail m k x :
  hosts <> [] -> "/"%char ∉ hosts -> ends_run (not_among (B "/")) tail -> no_socket tail ->
  k tail (<[3%nat := hosts]> m) = Some x ->
  re_match url_servers (hosts ++ tail) m k = Some x.
Proof.
  intros Hne Hh Ht Hn Hk. apply match_Cap. unfold Plus at 1. rewrite match_Seq, match_Seq.
  assert (forall s m k, ends_run (not_among (B "/")) s -> no_socket s ->
    re_match (Seq (Alt (Plus (Chr (not_among (B "/")))) url_socket) (Opt (Lit (B ",")))) s m k = None) as Hbody.
  { clear. intros s m k Hs Hn. rewrite match_Seq, match_Alt, plus_fails by done. by apply socket_no. }
  assert (forall k' : bytes -> captures -> option captures, k' tail m = Some x ->
    re_match (Alt (Plus (Chr (not_among (B "/")))) url_socket) (hosts ++ tail) m k' = Some x) as Halt.
  { intros k' Hk'. rewrite match_Alt. by rewrite (plus_run (not_among (B "/")) hosts tail m k' x Hne (one_run _ _ "/"%char eq_refl Hh) Ht Hk'). }
  apply Halt. rewrite match_Opt_no.
  - rewrite re_match_Star. destruct (length tail); cbn [star_loop]; [by rewrite capture_of|]. rewrite Hbody by done. by rewrite capture_of.
  - intros k'. apply match_Lit_no. intros [t E]. destruct tail as [|c tail]; [done|]. injection E as -> _. by vm_compute in Ht.
Qed.
Lemma database_match db rest m k x :
  (forall c, c ∈ db_excluded -> c ∉ db) -> ends_run (not_among db_excluded) rest ->
  k rest (<[4%nat := db]> m) = Some x ->
  re_match url_database (B "/" ++ db ++ rest) m k = Some x.
Proof.
  intros Hdb Hr Hk. apply match_Opt_yes. rewrite match_Seq, match_Lit. apply match_Cap.
  pose proof (star_class (not_among db_excluded) db [] rest m
    (fun s' m => k s' (<[4%nat:=take (length (db ++ rest) - length s') (db ++ rest)]> m)) x) as Hs.
  apply Hs; [rewrite app_nil_r; by apply run_not_among|done|intros b1 b2 E Hb; by destruct b1|]. by rewrite capture_of.
Qed.
Lemma options_match a v m k x : a <> [] -> v <> [] -> "="%char ∉ v ->
  k [] (<[5%nat := a ++ B "=" ++ v]> m) = Some x ->
  re_match url_options (B "?" ++ a ++ B "=" ++ v) m k = Some x.
Proof.
  intros Ha Hv He Hk. set (o := a ++ B "=" ++ v) in *. apply star_take; [done|]. rewrite match_Seq, match_Lit.
  set (option := Seq (Cap 5 (Seq (Plus (Chr any_char)) (Seq (Lit (B "=")) (Plus (Chr any_char))))) (Opt (Lit (B "&")))).
  assert (forall m' k', re_match option [] m' k' = None) as Hno by done.
  unfold Plus at 1. rewrite match_Seq. unfold option at 1. rewrite match_Seq.
  replace o with (o ++ []) at 1 by apply app_nil_r. apply match_Cap. rewrite match_Seq.
  assert (a ++ (B "=" ++ v) ++ [] = o ++ []) as Eo by (unfold o; by rewrite !app_assoc).
  match goal with |- re_match ?r _ ?m ?k' = ?y => enough (re_match r (a ++ (B "=" ++ v) ++ []) m k' = y) as HH by (by rewrite Eo in HH) end.
  apply plus_class; [done|by apply Forall_forall|done| |].
  - intros b1 b2 E Hb. apply re_match_fails. intros s1 s2 m' E' (t1 & t2 & -> & ->%lang_Lit & _)%lang_Seq_inv. exfalso.
    destruct b1 as [|c b1]; [done|]. injection E as <- E. apply He. change (v = b1 ++ b2) in E. rewrite E, elem_of_app. right.
    rewrite app_nil_r in E'. rewrite E'. by left.
  - rewrite match_Seq, <-app_assoc, match_Lit. apply plus_run; [done|by apply Forall_forall|done|].
    change (length (@nil char)) with 0%nat. rewrite Nat.sub_0_r, app_nil_r, firstn_all.
    rewrite match_Opt_no by done. rewrite re_match_Star. cbn [length star_loop]. 
    rewrite (proj2 (Nat.ltb_lt _ _)) by (rewrite length_app; cbn; lia). by rewrite star_stop.
Qed.

(** ** URLs and what they stand for *)

Fixpoint join (sep : bytes) (l : list bytes) : bytes :=
  match l with [] => [] | [x] => x | x :: l => x ++ sep ++ join sep l end.
Record Url := mkUrl {
  ul_user : option (bytes * option bytes);
  ul_hosts : list bytes;
  ul_tail : option (bytes * list (bytes * bytes)) }.
Definition option_text (o : bytes * bytes) : bytes := o.1 ++ B "=" ++ o.2.
Definition print_options (l : list (bytes * bytes)) : bytes :=
  match l with [] => [] | _ => B "?" ++ join (B "&") (option_text <$> l) end.
Definition print_tail (t : option (bytes * list (bytes * bytes))) : bytes :=
  match t with None => [] | Some (db, options) => B "/" ++ db ++ print_options options end.
Definition print_user (u : option (bytes * option bytes)) : bytes :=
  match u with
  | None => []
  | Some (user, None) => user ++ B "@"
  | Some (user, Some password) => user ++ B ":" ++ password ++ B "@"
  end.
Definition print_url (u : Url) : bytes :=
  B "mongodb://" ++ print_user (ul_user u) ++ join (B ",") (ul_hosts u) ++ print_tail (ul_tail u).
(** The marks of a URL do not occur in its parts. *)
Definition user_ok (u : Url) : Prop :=
  match ul_user u with
  | None => "@"%char ∉ join (B ",") (ul_hosts u) ++ print_tail (ul_tail u)
  | Some (user, None) =>
      user <> [] /\ ":"%char ∉ user /\ "@"%char ∉ user /\ "@"%char ∉ join (B ",") (ul_hosts u) ++ print_tail (ul_tail u)
  | Some (user, Some password) => user <> [] /\ ":"%char ∉ user /\ password <> [] /\ "@"%char ∉ password
  end.
Definition host_ok (h : bytes) : Prop := h <> [] /\ "/"%char ∉ h /\ ","%char ∉ h.
Definition option_ok (o : bytes * bytes) : Prop :=
  o.1 <> [] /\ o.2 <> [] /\ "="%char ∉ o.1 ++ o.2 /\ "&"%char ∉ o.1 ++ o.2.
Definition tail_ok (t : option (bytes * list (bytes * bytes))) : Prop :=
  match t with
  | None => True
  | Some (db, options) => (forall c, c ∈ db_excluded -> c ∉ db) /\ Forall option_ok options
  end.
Definition url_ok (u : Url) : Prop :=
  user_ok u /\ ul_hosts u <> [] /\ Forall host_ok (ul_hosts u) /\ tail_ok (ul_tail u) /\ no_socket (print_tail (ul_tail u)).

Definition url_captures (u : Url) : captures :=
  let m : captures := match ul_user u with None => ∅ | Some (user, None) => <[1%nat := user]> ∅
                      | Some (user, Some password) => <[2%nat := password]> (<[1%nat := user]> ∅) end in
  let m := <[3%nat := join (B ",") (ul_hosts u)]> m in
  match ul_tail u with
  | None => m
  | Some (db, []) => <[4%nat := db]> m
  | Some (db, options) => <[5%nat := join (B "&") (option_text <$> options)]> (<[4%nat := db]> m)
  end.

Lemma join_cons sep x l : l <> [] -> join sep (x :: l) = x ++ sep ++ join sep l.
Proof. by destruct l. Qed.
Lemma join_ne sep x l : x <> [] -> join sep (x :: l) <> [].
Proof. destruct l; cbn; [done|]. by destruct x. Qed.
Lemma join_notin c sep l : c ∉ sep -> Forall (fun x : bytes => c ∉ x) l -> c ∉ join sep l.
Proof.
  intros Hs. induction 1 as [|x l Hx Hl IH]; [not_in|]. destruct (decide (l = [])) as [->|Hne]; [done|].
  rewrite join_cons by done. not_in.
Qed.
(** The last option of a list of options. *)
Lemma options_shape l : l <> [] -> Forall option_ok l ->
  exists a v, join (B "&") (option_text <$> l) = a ++ B "=" ++ v /\ a <> [] /\ v <> [] /\ "="%char ∉ v.
Proof.
  intros Hne. induction 1 as [|[k v] l (Hk & Hv & He & _) Hl IH]; [done|]. cbn [fst snd] in *.
  destruct l as [|o l].
  - exists k, v. split; [done|]. split; [done|]. split; [done|]. rewrite not_elem_of_app in He. tauto.
  - destruct (IH ltac:(done)) as (a & w & E & Ha & Hw & Hw'). exists (option_text (k, v) ++ B "&" ++ a), w.
    change (option_text <$> (k, v) :: o :: l) with (option_text (k, v) :: (option_text <$> o :: l)).
    rewrite join_cons by done. rewrite E, <-!app_assoc. split_and!; try done. by destruct k.
Qed.
Lemma print_options_ends l : ends_run (not_among db_excluded) (print_options l).
Proof. destruct l; [done|]. apply ends_not_among. by apply list_elem_of_In; vm_compute; tauto. Qed.

Lemma tail_match t m : tail_ok t ->
  re_match url_database (print_tail t) m
    (fun s m => re_match url_options s m (fun rest m => match rest with [] => Some m | _ => None end)) =
  Some match t with
       | None => m
       | Some (db, []) => <[4%nat := db]> m
       | Some (db, options) => <[5%nat := join (B "&") (option_text <$> options)]> (<[4%nat := db]> m)
       end.
Proof.
  intros Ht. destruct t as [[db options]|].
  - destruct Ht as [Hdb Ho]. cbn [print_tail]. apply database_match; [done|apply print_options_ends|].
    destruct options as [|o options]; [done|].
    destruct (options_shape (o :: options) ltac:(done) Ho) as (a & v & E & Ha & Hv & He).
    unfold print_options. rewrite E. by apply options_match.
  - done.
Qed.
Lemma url_matches u : url_ok u -> perl_match kMongoDBURL (print_url u) = Some (url_captures u).
Proof.
  intros (Hu & Hne & Hh & Ht & Hs). unfold perl_match, kMongoDBURL, print_url. rewrite match_Seq, match_Lit, match_Seq.
  assert (forall m, re_match (Seq url_servers (Seq url_database url_options)) (join (B ",") (ul_hosts u) ++ print_tail (ul_tail u)) m
    (fun rest m => match rest with [] => Some m | _ => None end) =
    Some (let m := <[3%nat := join (B ",") (ul_hosts u)]> m in
      match ul_tail u with
      | None => m
      | Some (db, []) => <[4%nat := db]> m
      | Some (db, options) => <[5%nat := join (B "&") (option_text <$> options)]> (<[4%nat := db]> m)
      end)) as Hrest.
  { intros m. rewrite match_Seq. apply servers_match; [| | |done|].
    - destruct (ul_hosts u) as [|h hs]; [done|]. apply Forall_cons in Hh as [[Hh _] _]. by apply join_ne.
    - apply join_notin; [not_in|]. eapply Forall_impl; [exact Hh|]. by intros x (_ & ? & _).
    - destruct (ul_tail u) as [[db o]|]; [|done]. apply ends_not_among. by left.
    - rewrite match_Seq. by apply tail_match. }
  unfold user_ok in Hu. unfold url_captures. destruct (ul_user u) as [[user [pwd|]]|]; cbn [print_user].
  - destruct Hu as (? & ? & ? & ?). rewrite <-!app_assoc. apply credentials_password; [done..|apply Hrest].
  - destruct Hu as (? & ? & ? & ?). rewrite <-!app_assoc. apply credentials_user; [done..|apply Hrest].
  - rewrite credentials_none by done. apply Hrest.
Qed.

Lemma split_run seps w s c : Forall (fun d => existsb (ceq d) seps = false) w -> existsb (ceq c) seps = true ->
  split_at_any seps (w ++ c :: s) = w :: split_at_any seps s.
Proof. intros Hw Hc. induction Hw as [|d w Hd Hw IH]; cbn [app split_at_any]; [by rewrite Hc|]. by rewrite Hd, IH. Qed.
Lemma split_last seps w : Forall (fun d => existsb (ceq d) seps = false) w -> split_at_any seps w = [w].
Proof. intros Hw. induction Hw as [|d w Hd Hw IH]; cbn [split_at_any]; [done|]. by rewrite Hd, IH. Qed.
Lemma free_of seps (w : bytes) : (forall c, c ∈ seps -> c ∉ w) -> Forall (fun d => existsb (ceq d) seps = false) w.
Proof.
  intros Hs. apply Forall_forall. intros d Hd. apply not_true_iff_false. rewrite existsb_exists.
  intros (c & Hc & ->%ceq_true). apply (Hs c); [by apply list_elem_of_In|done].
Qed.
Definition option_tokens (l : list (bytes * bytes)) : list bytes := concat ((fun o => [o.1; o.2]) <$> l).
Lemma split_options l : l <> [] -> Forall option_ok l ->
  split_at_any (B "=&") (join (B "&") (option_text <$> l)) = option_tokens l.
Proof.
  intros Hne. induction 1 as [|[k v] l (_ & _ & He & Ha) Hl IH]; [done|]. cbn [fst snd] in *.
  rewrite not_elem_of_app in He, Ha. destruct He as [Hek Hev], Ha as [Hak Hav].
  assert (forall w, "="%char ∉ w -> "&"%char ∉ w -> Forall (fun d => existsb (ceq d) (B "=&") = false) w) as Hfree.
  { intros w H1 H2. apply free_of. intros c [->|[->|[]%elem_of_nil]%elem_of_cons]%elem_of_cons; done. }
  assert (option_text (k, v) = k ++ "="%char :: v) as Eo by done.
  destruct l as [|o l].
  - cbn [fmap list_fmap join]. rewrite Eo, split_run, split_last; auto.
  - change (option_text <$> (k, v) :: o :: l) with (option_text (k, v) :: (option_text <$> o :: l)).
    rewrite join_cons by done. rewrite Eo, <-app_assoc.
    change (split_at_any (B "=&") (k ++ "="%char :: v ++ "&"%char :: join (B "&") (option_text <$> o :: l)) = k :: v :: option_tokens (o :: l)).
    rewrite split_run, split_run by auto. by rewrite IH.
Qed.
Lemma assign_tokens l m : assign_options (option_tokens l) m = foldl (fun m (o : bytes * bytes) => map_assign o.1 o.2 m) m l.
Proof. revert m. induction l as [|[k v] l IH]; intros m; [done|]. cbn. apply IH. Qed.
Lemma tokens_even l : zlen (option_tokens l) mod 2 = 0.
Proof.
  assert (zlen (option_tokens l) = zlen l * 2) as ->; [|apply Z_mod_mult].
  induction l as [|o l IH]; [done|]. change (option_tokens (o :: l)) with (o.1 :: o.2 :: option_tokens l).
  rewrite !zlen_cons, IH. lia.
Qed.
Lemma map_find_in {A} k (m : list (bytes * A)) v : map_find k m = Some v -> exists k', (k', v) ∈ m.
Proof.
  induction m as [|[k' v'] m IH]; cbn; [done|]. case_bool_decide; [intros [= ->]; exists k'; by left|].
  intros (k2 & Hk)%IH. exists k2. by right.
Qed.
Lemma map_assign_in {A} k (v : A) m o : o ∈ map_assign k v m -> o = (k, v) \/ o ∈ m.
Proof.
  induction m as [|[k' v'] m IH]; cbn; [rewrite list_elem_of_singleton; auto|].
  destruct (StringData_lt k k'); [rewrite elem_of_cons; tauto|].
  case_bool_decide; rewrite !elem_of_cons; [tauto|]. intros [->|Ho]; [auto|]. destruct (IH Ho); auto.
Qed.
Lemma assigned_in (l m : list (bytes * bytes)) o : o ∈ foldl (fun m (o : bytes * bytes) => map_assign o.1 o.2 m) m l -> o ∈ m \/ o ∈ l.
Proof.
  revert m. induction l as [|[k v] l IH]; intros m; cbn; [auto|]. intros [Ho|Ho]%IH; [|by right; right].
  apply map_assign_in in Ho as [->|Ho]; [|auto]. right. by left.
Qed.

Lemma server_loop_join fuel ts hs : ts <> [] -> Forall host_ok ts ->
  Forall2 (fun t h => HostAndPort_ctor t = Ret h) ts hs -> sized (join (B ",") ts) ->
  (length ts <= S fuel)%nat -> server_loop fuel (join (B ",") ts) = Ret hs.
Proof.
  intros Hne Hok H2. revert fuel. induction H2 as [|t h ts hs Ht H2 IH]; [done|]. intros fuel Hs Hf.
  apply Forall_cons in Hok as [(_ & _ & Hc) Hok]. destruct ts as [|t' ts].
  - inversion H2; subst. cbn [join]. destruct fuel; cbn [server_loop]; rewrite find_char_notin, Z.eqb_refl, Ht, ret_bind by done; done.
  - rewrite join_cons in Hs |- * by done. change (t ++ B "," ++ join (B ",") (t' :: ts)) with (t ++ ","%char :: join (B ",") (t' :: ts)) in *.
    destruct fuel as [|fuel]; [cbn in Hf; lia|]. cbn [server_loop].
    rewrite find_char_first by done. rewrite (zlen_ne_npos _ _ _ Hs), substr_app_0, ret_bind, Ht, ret_bind.
    rewrite substr_after by done. rewrite ret_bind, IH; [done|done|done| |cbn in *; lia].
    apply sized_app_cons in Hs. pose proof (zlen_nonneg t). unfold sized. unfold zlen in *. lia.
Qed.

Definition url_option_map (u : Url) : list (bytes * bytes) :=
  match ul_tail u with None => [] | Some (_, l) => foldl (fun m (o : bytes * bytes) => map_assign o.1 o.2 m) [] l end.
(** The connection string that a URL stands for. *)
Definition url_stands_for (u : Url) (hs : list HostAndPort) : ConnectionString :=
  let options := url_option_map u in
  let set := map_find (B "replicaSet") options in
  mkConnectionString (match set with Some _ => SET_ | None => MASTER end) hs
    (match set with Some s => s ++ B "/" | None => [] end ++ join_servers hs)
    (default [] set)
    (match ul_user u with Some (user, _) => user | None => [] end)
    (match ul_user u with Some (_, Some password) => password | _ => [] end)
    (match ul_tail u with Some (db, _) => db | None => [] end)
    ((fun o => (o.1, VString o.2)) <$> options).

Lemma matched_captures u :
  matched (url_captures u) 1 = match ul_user u with Some (user, _) => user | None => [] end /\
  matched (url_captures u) 2 = match ul_user u with Some (_, Some password) => password | _ => [] end /\
  url_captures u !! 3%nat = Some (join (B ",") (ul_hosts u)) /\
  matched (url_captures u) 4 = match ul_tail u with Some (db, _) => db | None => [] end /\
  url_captures u !! 5%nat = match ul_tail u with Some (_, o :: l) => Some (join (B "&") (option_text <$> o :: l)) | _ => None end.
Proof.
  unfold matched, url_captures. destruct (ul_user u) as [[user [pwd|]]|], (ul_tail u) as [[db [|o l]]|]; cbv zeta; by simplify_map_eq.
Qed.
Lemma finishInit_plain t hs str set user pwd db o : (forall h, head hs = Some h -> dollar_first (_host h) = false) ->
  _finishInit (mkConnectionString t hs str set user pwd db o) =
  mkConnectionString t hs ((match t with SET_ => set ++ B "/" | _ => [] end) ++ join_servers hs) set user pwd db o.
Proof. intros Hd. unfold _finishInit. cbn. destruct t; try done. destruct hs as [|h hs]; [done|]. by rewrite (Hd h). Qed.
Lemma ConnectionString_url_spec t user pwd db set options ts hs :
  (t = SET_ /\ set <> [] \/ t = MASTER /\ set = [] /\ length hs = 1%nat) ->
  ts <> [] -> Forall host_ok ts -> Forall2 (fun t h => HostAndPort_ctor t = Ret h) ts hs -> sized (join (B ",") ts) ->
  dollar_first (join (B ",") ts) = false -> (forall h, head hs = Some h -> dollar_first (_host h) = false) ->
  ConnectionString_url t user pwd (join (B ",") ts) db set options =
  Ret (mkConnectionString t hs ((match t with SET_ => set ++ B "/" | _ => [] end) ++ join_servers hs) set user pwd db options).
Proof.
  intros Ht Hne Hok H2 Hs Hd Hh. unfold ConnectionString_url, _fillServers. rewrite Hd. cbn [andb cs_type cs_setName]. rewrite ret_bind.
  assert (length ts <= S (length (join (B ",") ts)))%nat as Hlen.
  { clear -Hok. induction Hok as [|x l (Hx & _) Hl IH]; [cbn; lia|]. destruct (decide (l = [])) as [->|Hne]; [cbn; lia|].
    rewrite join_cons by done. rewrite !length_app. destruct x; [done|]. cbn in *. lia. }
  rewrite (server_loop_join _ ts hs) by done. rewrite !ret_bind. cbn [cs_servers app].
  assert (zlen hs >= 1) as Hpos.
  { apply Forall2_length in H2. destruct ts; [done|]. destruct hs; [done|]. rewrite zlen_cons. pose proof (zlen_nonneg hs). lia. }
  match goal with |- (check_type ?c ≫= _) = _ => assert (check_type c = Ret tt) as -> end.
  { unfold check_type. cbn. destruct Ht as [[-> Hset]|(-> & -> & Hl)].
    - destruct set; [done|]. rewrite zlen_cons. pose proof (zlen_nonneg set).
      rewrite (proj2 (Z.eqb_neq _ _)) by lia. rewrite (proj2 (Z.leb_le _ _)) by lia. done.
    - unfold zlen. rewrite Hl. done. }
  rewrite ret_bind. by rewrite finishInit_plain.
Qed.

(** C14: a URL is parsed into its parts.  Whatever user, password, servers, database
    and options a URL is written with, as long as no part holds a mark that ends it
    and the database does not look like a socket, the connection string has the type
    the option replicaSet asks for, the servers in order, the user, the password,
    the database, and the options in the order of their names, the last of those
    given twice; and its text names the set and the servers. *)
Theorem parse_print_url `{BoostLaws} (SSLEnabled : bool) u hs :
  url_ok u -> sized (print_url u) -> Forall2 (fun t h => HostAndPort_ctor t = Ret h) (ul_hosts u) hs ->
  dollar_first (join (B ",") (ul_hosts u)) = false -> (forall h, head hs = Some h -> dollar_first (_host h) = false) ->
  (forall v, map_find (B "ssl") (url_option_map u) = Some v -> v = if SSLEnabled then B "true" else B "false") ->
  (map_find (B "replicaSet") (url_option_map u) = None -> length hs = 1%nat) ->
  ConnectionString_parse SSLEnabled (print_url u) = Ret (url_stands_for u hs, None).
Proof.
  intros Hu Hs H2 Hd Hh Hssl Hset. unfold ConnectionString_parse. rewrite starts_with_spec.
  assert (has_prefix (print_url u) (B "mongodb://") = true) as -> by (apply bool_decide_eq_true; by eexists).
  unfold _parseURL. rewrite regex_match_perl, url_matches by done.
  destruct (matched_captures u) as (-> & -> & -> & -> & ->).
  match goal with |- context [zlen ?t mod 2] => assert (exists l, t = option_tokens l /\ url_option_map u = foldl (fun m (o : bytes * bytes) => map_assign o.1 o.2 m) [] l
    /\ Forall option_ok l) as (l & -> & Em & Hl) end.
  { destruct Hu as (_ & _ & _ & Ht & _). unfold url_option_map. destruct (ul_tail u) as [[db [|o l]]|]; [by exists []| |by exists []].
    exists (o :: l). split; [|by destruct Ht]. rewrite split_any_spec. apply split_options; [done|apply Ht]. }
  rewrite tokens_even, Z.eqb_refl. cbn [negb]. cbv zeta. rewrite assign_tokens, <-Em.
  assert (match map_find (B "ssl") (url_option_map u) with
    Some v => negb (bool_decide (v = (if SSLEnabled then B "true" else B "false"))) | None => false end = false) as ->.
  { destruct (map_find (B "ssl") _) as [v|]; [|done]. rewrite (Hssl v eq_refl). by rewrite bool_decide_eq_true_2. }
  assert (sized (join (B ",") (ul_hosts u))) as Hsz.
  { unfold sized, print_url in *. rewrite !length_app in Hs. lia. }
  destruct Hu as (_ & Hne & Hok & _ & _). unfold url_stands_for.
  destruct (map_find (B "replicaSet") (url_option_map u)) as [set|] eqn:Eset.
  - assert (set <> []) as Hsn.
    { apply map_find_in in Eset as (k & Hk). rewrite Em in Hk. apply assigned_in in Hk as [[]%elem_of_nil|Hk].
      rewrite Forall_forall in Hl. by apply (Hl (k, set)). }
    rewrite (bool_decide_eq_true_2 (Some set <> None)) by done. cbn [negb andb default].
    rewrite (bool_decide_eq_false_2 (id set = [])) by done.
    rewrite (ConnectionString_url_spec SET_ _ _ _ _ _ (ul_hosts u) hs); [by rewrite ret_bind|by left|done..].
  - rewrite (bool_decide_eq_false_2 (@None bytes <> None)) by tauto. cbn [negb andb default].
    assert (exists t, ul_hosts u = [t]) as [t Et].
    { pose proof (Forall2_length _ _ _ H2) as Hlen. rewrite (Hset eq_refl) in Hlen. destruct (ul_hosts u) as [|t [|]]; try done. by exists t. }
    assert (StringData_find_char (join (B ",") (ul_hosts u)) ","%char 0 = npos) as ->.
    { rewrite Et in Hok |- *. apply find_char_notin. by apply Forall_singleton in Hok as (_ & _ & Hcomma). }
    rewrite Z.eqb_refl. cbn [negb andb].
    rewrite (ConnectionString_url_spec MASTER _ _ _ _ _ (ul_hosts u) hs); [by rewrite ret_bind| |done..].
    right. by split_and!; [| |apply Hset].
Qed.

(** A check for sockets in a tail that computes. *)
Definition socket_free (tail : bytes) : bool := forallb (fun i => negb (has_prefix (drop i tail) (B "soc"))) (seq 3 (length tail)).
Lemma socket_free_spec tail : socket_free tail = true -> no_socket tail.
Proof.
  unfold socket_free. rewrite forallb_forall. intros Hf pre post E. destruct (decide (length pre < 3)%nat) as [|Hlt]; [done|exfalso].
  specialize (Hf (length pre)). rewrite in_seq in Hf.
  assert (has_prefix (drop (length pre) tail) (B "soc") = true) as Hp.
  { apply bool_decide_eq_true. rewrite E, drop_app_length. by eexists. }
  rewrite Hp in Hf. cbn in Hf. discriminate Hf. rewrite E, length_app, length_app. cbn. lia.
Qed.
Lemma parse_print_url_witness :
  let u := mkUrl (Some (B "u", Some (B "pw"))) [B "h1:1"; B "h2"] (Some (B "db", [(B "replicaSet", B "s"); (B "a", B "b"); (B "a", B "c")])) in
  let hs := [mkHostAndPort (B "h1") 1; mkHostAndPort (B "h2") (-1)] in
  print_url u = B "mongodb://u:pw@h1:1,h2/db?replicaSet=s&a=b&a=c" /\
  @ConnectionString_parse boost_reference false (print_url u) =
  Ret (mkConnectionString SET_ hs (B "s/h1:1,h2:27017") (B "s") (B "u") (B "pw") (B "db") [(B "a", VString (B "c")); (B "replicaSet", VString (B "s"))], None).
Proof.
  intros u hs. split; [reflexivity|].
  apply (@parse_print_url boost_reference boost_reference_laws false u hs).
  - split_and!; try done.
    + split_and!; try done; by not_in.
    + apply Forall_cons_2; [split_and!; [done|by not_in|by not_in]|]. apply Forall_cons_2; [split_and!; [done|by not_in|by not_in]|apply Forall_nil_2].
    + split.
      * intros c Hc Hdb. assert (existsb (ceq c) db_excluded = true) as Hx by (rewrite existsb_exists; exists c; split; [by apply list_elem_of_In|apply ceq_refl]).
        apply elem_of_cons in Hdb as [->|[->|[]%elem_of_nil]%elem_of_cons]; by vm_compute in Hx.
      * repeat (apply Forall_cons_2; [split_and!; [done|done|by not_in|by not_in]|]). apply Forall_nil_2.
    + apply socket_free_spec. by vm_compute.
  - by vm_compute.
  - repeat (apply Forall2_cons; split; [by vm_compute|]). apply Forall2_nil_2.
  - by vm_compute.
  - by intros h [= <-].
  - intros v Hv. by vm_compute in Hv.
  - intros Hv. by vm_compute in Hv.
Defined.

(** ** The same endpoint *)

(** Every connection string comes from one of the constructors. *)
Inductive made : ConnectionString -> Prop :=
  | made_default : made ConnectionString_ctor
  | made_mock h : made (ConnectionString_mock h)
  | made_server h : made (ConnectionString_server h)
  | made_typed t s set cs : ConnectionString_typed t s set = Ret cs -> made cs
  | made_favored s t cs : ConnectionString_favored s t = Ret cs -> made cs
  | made_url t user pwd servers db set o cs : ConnectionString_url t user pwd servers db set o = Ret cs -> made cs.
Definition cs_wf (cs : ConnectionString) : Prop :=
  match cs_type cs with
  | MASTER => length (cs_servers cs) = 1%nat
  | PAIR => length (cs_servers cs) = 2%nat
  | _ => True
  end.
(** The servers of a pair count in either order. *)
Definition same_endpoint (a b : ConnectionString) : Prop :=
  cs_type a = cs_type b /\
  match cs_type a with
  | INVALID => True
  | MASTER | PAIR => hp_key <$> cs_servers a ≡ₚ hp_key <$> cs_servers b
  | SET_ => cs_setName a = cs_setName b
  | CUSTOM => cs_string a = cs_string b
  end.
Global Instance same_endpoint_equivalence : Equivalence same_endpoint.
Proof.
  unfold same_endpoint. split.
  - intros a. split; [done|]. by destruct (cs_type a).
  - intros a b [<- Hab]. split; [done|]. destruct (cs_type a); congruence || by symmetry.
  - intros a b c [E Hab] [E' Hbc]. rewrite <-E in *. split; [done|]. destruct (cs_type a); try congruence; by etrans.
Qed.
Lemma finishInit_wf cs : check_type cs = Ret tt -> cs_wf (_finishInit cs).
Proof.
  unfold cs_wf, _finishInit, check_type. cbn. destruct (cs_type cs); intros Hc; try done.
  - unfold verify in Hc. apply guard_throw_Ret in Hc. apply Z.eqb_eq in Hc. unfold zlen in Hc.
    destruct (cs_servers cs) as [|h l]; [done|]. destruct (dollar_first _); [done|]. cbn in *. lia.
  - unfold verify in Hc. apply guard_throw_Ret in Hc. apply Z.eqb_eq in Hc. unfold zlen in Hc. destruct (cs_servers cs); cbn in *; lia.
Qed.
Lemma fillServers_type s legacy cs cs' : _fillServers s legacy cs = Ret cs' ->
  cs_type cs' = CUSTOM \/ cs_type cs' = SET_ \/ cs_type cs' = cs_type cs.
Proof.
  unfold _fillServers. intros (((t & n) & s') & Ht & (hs & _ & [= <-])%bind_Ret)%bind_Ret. cbn [cs_type].
  match type of Ht with (if ?b then _ else _) = _ => destruct b end.
  - apply bind_Ret in Ht as (? & _ & Ht). apply bind_Ret in Ht as (? & _ & [= <- _ _]). case_bool_decide; auto.
  - injection Ht as <- _ _. destruct (dollar_first s); auto.
Qed.
Lemma made_wf cs : made cs -> cs_wf cs.
Proof.
  intros Hm. destruct Hm as [|h|h|t s set cs Hm|s t cs Hm|t user pwd servers db set o cs Hm]; try done.
  - apply finishInit_wf. by vm_compute.
  - apply bind_Ret in Hm as (x & _ & Hm). apply bind_Ret in Hm as ([] & Hc & [= <-]). by apply finishInit_wf.
  - unfold ConnectionString_favored in Hm. apply bind_Ret in Hm as (x & Hx & Hm). apply fillServers_type in Hx.
    case_bool_decide as Ht; cbn [negb] in Hm.
    + destruct (zlen (cs_servers x) =? 1) eqn:El.
      * injection Hm as <-. apply finishInit_wf. unfold check_type. cbn. by rewrite El.
      * apply bind_Ret in Hm as ([] & Hv & [= <-]). unfold verify in Hv. apply guard_throw_Ret, bool_decide_eq_true in Hv as ->. done.
    + injection Hm as <-. cbn in Hx. unfold cs_wf, _finishInit. cbn. by destruct Hx as [->|[->| ->]].
  - apply bind_Ret in Hm as (x & _ & Hm). apply bind_Ret in Hm as ([] & Hc & [= <-]). by apply finishInit_wf.
Qed.

Lemma pair_perm {A} (a b c d : A) : [a; b] ≡ₚ [c; d] <-> (a = c /\ b = d) \/ (a = d /\ b = c).
Proof.
  split.
  - intros Hp. assert (a ∈ [c; d]) as Ha by (rewrite <-Hp; by left).
    apply elem_of_cons in Ha as [->|[->|[]%elem_of_nil]%elem_of_cons].
    + left. split; [done|]. apply Permutation_cons_inv, Permutation_singleton_inj in Hp. done.
    + right. split; [done|]. assert ([d; b] ≡ₚ [d; c]) as Hq by (etrans; [exact Hp|apply Permutation_swap]).
      by apply Permutation_cons_inv, Permutation_singleton_inj in Hq.
  - intros [[-> ->]|[-> ->]]; [done|]. apply Permutation_swap.
Qed.
(** [sameLogicalEndpoint] is an equivalence: of connection strings that come from
    a constructor it never reads a server that is not there, and answers whether
    they have the same type and, by type, the same server, the same two servers in
    either order, the same name of the set, or the same text. *)
Theorem sameLogicalEndpoint_spec a b : made a -> made b ->
  Equivalence same_endpoint /\
  exists r, sameLogicalEndpoint a b = Ret r /\ (r = true <-> same_endpoint a b).
Proof.
  intros Ha%made_wf Hb%made_wf. split; [apply _|]. unfold sameLogicalEndpoint, same_endpoint.
  case_bool_decide as Et; cbn [negb]; [|exists false; split; [done|]; split; [done|]; by intros []].
  unfold cs_wf in Ha, Hb. rewrite <-Et in Hb. unfold same_server, server_at. destruct (cs_type a).
  - by exists true.
  - destruct (cs_servers a) as [|x [|]]; try done. destruct (cs_servers b) as [|y [|]]; try done. cbn [lookup list_lookup].
    rewrite !ret_bind. eexists. split; [done|]. rewrite HostAndPort_eq_key. cbn [fmap list_fmap]. split.
    + intros ->. done.
    + intros [_ Hp]. by apply Permutation_singleton_inj in Hp.
  - destruct (cs_servers a) as [|x [|x' [|]]]; try done. destruct (cs_servers b) as [|y [|y' [|]]]; try done. cbn [lookup list_lookup].
    rewrite !ret_bind. cbn [fmap list_fmap].
    pose proof (HostAndPort_eq_key x y) as E1. pose proof (HostAndPort_eq_key x' y') as E2.
    pose proof (HostAndPort_eq_key x y') as E3. pose proof (HostAndPort_eq_key x' y) as E4. setoid_rewrite pair_perm.
    destruct (HostAndPort_eq x y) eqn:B1.
    + eexists. split; [done|]. rewrite E2. split; [intros ->; tauto|].
      intros [_ [[_ ?]|[H1 H2]]]; [done|]. rewrite H2, <-H1. symmetry. by apply E1.
    + destruct (HostAndPort_eq x y') eqn:B3.
      * eexists. split; [done|]. rewrite E4. split; [intros ->; tauto|]. intros [_ [[H1 _]|[_ ?]]]; [|done]. by apply E1 in H1.
      * exists false. split; [done|]. split; [done|]. intros [_ [[H1 _]|[H1 _]]]; [by apply E1 in H1|by apply E3 in H1].
  - eexists. split; [done|]. rewrite StringData_eq_spec. tauto.
  - eexists. split; [done|]. rewrite StringData_eq_spec. tauto.
Qed.
Lemma sameLogicalEndpoint_witness :
  exists a b, ConnectionString_typed PAIR (B "x:1,y") [] = Ret a /\ ConnectionString_typed PAIR (B "y:27017,x:1") [] = Ret b /\
  exists r, sameLogicalEndpoint a b = Ret r /\ (r = true <-> same_endpoint a b).
Proof.
  eexists _, _. split; [by vm_compute|]. split; [by vm_compute|].
  refine (proj2 (sameLogicalEndpoint_spec _ _ _ _)); [apply (made_typed PAIR (B "x:1,y") [])|apply (made_typed PAIR (B "y:27017,x:1") [])]; by vm_compute.
Defined.
