(* ===== verification/RSClient.v ===== *)
(** * The client of a replica set: client/dbclient_rs.h, client/dbclient_rs.cpp

    A [DBClientReplicaSet] owns at most two connections: one to the primary, and
    the one it read from last, which may be the same object.  Connections are
    objects of a heap; a call of one that has been deleted is undefined, as is a
    second deletion. *)
From S2P Require Import Prelude StringData ParseNumber HostAndPort BsonTypes BufBuilder Bson BsonCompare BsonObj Namespace HostSet RSState WriteResult Message Query.
Local Open Scope Z_scope.

(** ** Where a query goes *)

Definition secOkCmdList : list bytes :=
  [B "aggregate"; B "collStats"; B "count"; B "distinct"; B "dbStats"; B "explain"; B "find"; B "geoNear";
   B "geoSearch"; B "geoWalk"; B "group"; B "text"; B "parallelCollectionScan"].
(** [TagSet()] holds one tag document, which any node matches. *)
Definition tagsMatchesAll : BSONObj := [(B "0", VObject [])].
Definition slaveOk : Z := 4.

Definition mode_of_name (mode : bytes) : option ReadPreference :=
  if bool_decide (mode = B "primary") then Some ReadPreference_PrimaryOnly
  else if bool_decide (mode = B "primaryPreferred") then Some ReadPreference_PrimaryPreferred
  else if bool_decide (mode = B "secondary") then Some ReadPreference_SecondaryOnly
  else if bool_decide (mode = B "secondaryPreferred") then Some ReadPreference_SecondaryPreferred
  else if bool_decide (mode = B "nearest") then Some ReadPreference_Nearest
  else None.
Definition _extractReadPref (query : BSONObj) (queryOptions : Z) : M ReadPreferenceSetting :=
  if hasReadPreference query then
    readPrefElement ← (if hasField query ReadPrefField then Ret (getField query ReadPrefField)
                       else o ← Obj (getField query (B "$queryOptions")); Ret (getField o ReadPrefField));
    uassert 16381 (isABSONObj readPrefElement);;
    prefDoc ← Obj readPrefElement;
    uassert 16382 (hasField prefDoc ReadPrefModeField);;
    mode ← String_checked (getField prefDoc ReadPrefModeField);
    match mode_of_name mode with
    | None => Throw (EUassert 16383)
    | Some pref =>
        if hasField prefDoc ReadPrefTagsField then
          match (getField prefDoc ReadPrefTagsField).2 with
          | VArray tags =>
              (if bool_decide (pref = ReadPreference_PrimaryOnly) && negb (empty_obj tags) then
                 o ← Obj (default eooElement (head tags)); uassert 16384 (empty_obj o)
               else Ret tt);;
              Ret (mkReadPreferenceSetting pref tags)
          | _ => Throw (EUassert 16385)
          end
        else Ret (mkReadPreferenceSetting pref tagsMatchesAll)
    end
  else
    Ret (mkReadPreferenceSetting
      (if Z.land queryOptions slaveOk =? 0 then ReadPreference_PrimaryOnly else ReadPreference_SecondaryPreferred)
      tagsMatchesAll).

Definition first_name (o : BSONObj) : bytes := match o with e :: _ => e.1 | [] => [] end.
Definition _isSecondaryQuery (ns : bytes) (queryObj : BSONObj) (readPref : ReadPreferenceSetting) : M bool :=
  if bool_decide (pref readPref = ReadPreference_PrimaryOnly) then Ret false
  else if negb (contains ns (B ".$cmd")) then Ret true
  else
    actualQueryObj ← (if bool_decide (first_name queryObj = B "query") then
                        let e := getField queryObj (B "query") in verify (isABSONObj e);; Obj e
                      else Ret queryObj);
    let cmdName := first_name actualQueryObj in
    if bool_decide (cmdName ∈ secOkCmdList) then Ret true
    else if bool_decide (cmdName = B "mapReduce") || bool_decide (cmdName = B "mapreduce") then
      if negb (hasField actualQueryObj (B "out")) then Ret false
      else
        let outElem := getField actualQueryObj (B "out") in
        if isABSONObj outElem then o ← Obj outElem; Ret (trueValue (getField o (B "inline"))) else Ret false
    else Ret false.
Definition isSecondaryQuery (ns : bytes) (queryObj : BSONObj) (queryOptions : Z) : M bool :=
  readPref ← _extractReadPref queryObj queryOptions; _isSecondaryQuery ns queryObj readPref.

Definition readPref_equals (a b : ReadPreferenceSetting) : M bool :=
  if bool_decide (pref a = pref b) then c ← BSONObj_woCompare true (tags a) (tags b) []; Ret (c =? 0) else Ret false.
Definition readPrefToString (p : ReadPreference) : bytes :=
  match p with
  | ReadPreference_PrimaryOnly => B "primary only"
  | ReadPreference_PrimaryPreferred => B "primary pref"
  | ReadPreference_SecondaryOnly => B "secondary only"
  | ReadPreference_SecondaryPreferred => B "secondary pref"
  | ReadPreference_Nearest => B "nearest"
  end.
Definition ReadPreferenceSetting_toBSON (r : ReadPreferenceSetting) : BSONObj :=
  [(B "pref", VString (readPrefToString (pref r))); (B "tags", VArray (tags r))].

(** ** The monitor and the network

    What an operation on a connection does: its result, whether the connection
    counts as failed afterwards, and whether it has seen an answer that its host
    is not master, which it tells the client of the set before it returns. *)

Record Outcome (A : Type) := mkOutcome { o_value : M A; o_failed : bool; o_notMaster : bool }.
Arguments mkOutcome {A}.
Arguments o_value {A}.
Arguments o_failed {A}.
Arguments o_notMaster {A}.

Inductive Request :=
  | RQuery (ns : bytes) (query : BSONObj) (queryOptions : Z)
  | RFindOne (ns : bytes) (query : BSONObj) (queryOptions : Z)
  | RCall (toSend : Message) | RSay (toSend : Message) | RRecv
  | RWrite.
(** What comes back: whether there is a cursor or a response; the first document
    of it, the number it announces, and whether the error flag is set. *)
Record Reply := mkReply { r_some : bool; r_first : option BSONObj; r_count : Z; r_wasError : bool }.

Class World (W : Type) := {
  w_hasMonitor : W -> W * bool;
  w_getMasterOrUassert : ST W HostAndPort;
  w_failedHost : HostAndPort -> W -> W;
  w_isHostUp : HostAndPort -> W -> W * bool;
  w_isPrimary : HostAndPort -> W -> W * bool;
  w_getHostOrRefresh : ReadPreferenceSetting -> ST W HostAndPort;
  (* [ConnectionString(h).connect(errmsg)]: whether there is a connection, and [errmsg] *)
  w_connect : HostAndPort -> ST W (bool * bytes);
  (* [conn->connect(h, errmsg)] *)
  w_reconnect : HostAndPort -> W -> W * Outcome bool;
  w_auth : HostAndPort -> BSONObj -> W -> W * Outcome unit;
  w_logout : HostAndPort -> bytes -> W -> W * Outcome unit;
  w_isStillConnected : HostAndPort -> W -> W * bool;
  w_op : HostAndPort -> Request -> W -> W * Outcome Reply }.

(** ** State *)

Record Conn := mkConn { k_host : HostAndPort; k_failed : bool }.
Record LazyState := mkLazyState {
  z_lastClient : option nat; z_lastOp : Z; z_secondaryQueryOk : bool; z_retries : Z }.
Definition LazyState_ctor : LazyState := mkLazyState None (-1) false 0.
Record DBClientReplicaSet := mkRSClient {
  rc_conns : gmap nat Conn;
  rc_fresh : nat;
  rc_masterHost : HostAndPort;
  rc_master : option nat;
  rc_lastSlaveOkHost : HostAndPort;
  rc_lastSlaveOkConn : option nat;
  rc_lastReadPref : option ReadPreferenceSetting;
  rc_auths : list (bytes * BSONObj);
  rc_lazy : LazyState }.
Definition DBClientReplicaSet_ctor : DBClientReplicaSet :=
  mkRSClient ∅ 0 HostAndPort_default None HostAndPort_default None None [] LazyState_ctor.

Definition set_conns (x : gmap nat Conn) (s : DBClientReplicaSet) := mkRSClient x (rc_fresh s) (rc_masterHost s) (rc_master s) (rc_lastSlaveOkHost s) (rc_lastSlaveOkConn s) (rc_lastReadPref s) (rc_auths s) (rc_lazy s).
Definition set_fresh (x : nat) (s : DBClientReplicaSet) := mkRSClient (rc_conns s) x (rc_masterHost s) (rc_master s) (rc_lastSlaveOkHost s) (rc_lastSlaveOkConn s) (rc_lastReadPref s) (rc_auths s) (rc_lazy s).
Definition set_masterHost (x : HostAndPort) (s : DBClientReplicaSet) := mkRSClient (rc_conns s) (rc_fresh s) x (rc_master s) (rc_lastSlaveOkHost s) (rc_lastSlaveOkConn s) (rc_lastReadPref s) (rc_auths s) (rc_lazy s).
Definition set_master (x : option nat) (s : DBClientReplicaSet) := mkRSClient (rc_conns s) (rc_fresh s) (rc_masterHost s) x (rc_lastSlaveOkHost s) (rc_lastSlaveOkConn s) (rc_lastReadPref s) (rc_auths s) (rc_lazy s).
Definition set_slaveHost (x : HostAndPort) (s : DBClientReplicaSet) := mkRSClient (rc_conns s) (rc_fresh s) (rc_masterHost s) (rc_master s) x (rc_lastSlaveOkConn s) (rc_lastReadPref s) (rc_auths s) (rc_lazy s).
Definition set_slave (x : option nat) (s : DBClientReplicaSet) := mkRSClient (rc_conns s) (rc_fresh s) (rc_masterHost s) (rc_master s) (rc_lastSlaveOkHost s) x (rc_lastReadPref s) (rc_auths s) (rc_lazy s).
Definition set_lastReadPref (x : option ReadPreferenceSetting) (s : DBClientReplicaSet) := mkRSClient (rc_conns s) (rc_fresh s) (rc_masterHost s) (rc_master s) (rc_lastSlaveOkHost s) (rc_lastSlaveOkConn s) x (rc_auths s) (rc_lazy s).
Definition set_auths (x : list (bytes * BSONObj)) (s : DBClientReplicaSet) := mkRSClient (rc_conns s) (rc_fresh s) (rc_masterHost s) (rc_master s) (rc_lastSlaveOkHost s) (rc_lastSlaveOkConn s) (rc_lastReadPref s) x (rc_lazy s).
Definition set_lazy (x : LazyState) (s : DBClientReplicaSet) := mkRSClient (rc_conns s) (rc_fresh s) (rc_masterHost s) (rc_master s) (rc_lastSlaveOkHost s) (rc_lastSlaveOkConn s) (rc_lastReadPref s) (rc_auths s) x.

Section Client.
Context {W : Type} `{World W}.
(** [_authPooledSecondaryConn]. *)
Context (authPooled : bool).
Local Abbreviation RS A := (ST (W * DBClientReplicaSet) A).

Definition rs_get : RS DBClientReplicaSet := fun s => (s, Ret s.2).
Definition rs_upd (f : DBClientReplicaSet -> DBClientReplicaSet) : RS unit := fun s => ((s.1, f s.2), Ret tt).
Definition rs_world {A} (m : ST W A) : RS A := fun s => let '(w, r) := m s.1 in ((w, s.2), r).
Definition rs_ask {A} (f : W -> W * A) : RS A := fun s => let '(w, a) := f s.1 in ((w, s.2), Ret a).
Definition rs_tell (f : W -> W) : RS unit := fun s => ((f s.1, s.2), Ret tt).
(** [try { m } catch (e) { handler }] for what [caught] selects.  [DBException]
    catches no exception of the standard library, and nothing catches a failed
    invariant or undefined behaviour. *)
Definition rs_catch {A} (caught : exn -> bool) (m : RS A) (handler : exn -> RS A) : RS A := fun s =>
  match m s with
  | (s, Throw e) => if caught e then handler e s else (s, Throw e)
  | r => r
  end.
Definition DBException (e : exn) : bool :=
  match e with EUassert _ | EMassert _ | EVerify | ESocket | EStatus _ => true | _ => false end.
Definition UserException (e : exn) : bool := match e with EUassert _ | EStatus _ => true | _ => false end.
Definition AssertionException (e : exn) : bool := match e with EUassert _ | EMassert _ | EVerify | EStatus _ => true | _ => false end.

(** ** Connections as objects *)

Definition conn_of (id : nat) : RS Conn :=
  s ← rs_get; match rc_conns s !! id with Some c => mret c | None => st_lift (Throw EUndefined) end.
Definition conn_delete (id : option nat) : RS unit :=
  match id with
  | None => mret tt
  | Some id => conn_of id;; rs_upd (fun s => set_conns (delete id (rc_conns s)) s)
  end.
Definition conn_new (h : HostAndPort) : RS nat :=
  s ← rs_get;
  let id := rc_fresh s in
  rs_upd (fun s => set_fresh (S id) (set_conns (<[id := mkConn h false]> (rc_conns s)) s));;
  mret id.
Definition conn_fail (id : nat) (failed : bool) : RS unit :=
  c ← conn_of id; rs_upd (fun s => set_conns (<[id := mkConn (k_host c) failed]> (rc_conns s)) s).

Definition _getMonitor : RS unit := ok ← rs_ask w_hasMonitor; st_lift (uassert 16340 ok).

Definition resetMaster : RS unit :=
  s ← rs_get;
  (if bool_decide (rc_master s = rc_lastSlaveOkConn s) then
     rs_upd (fun s => set_slaveHost HostAndPort_default (set_slave None s))
   else mret tt);;
  conn_delete (rc_master s);;
  rs_upd (fun s => set_masterHost HostAndPort_default (set_master None s)).
Definition isntMaster : RS unit :=
  ok ← rs_ask w_hasMonitor;
  s ← rs_get;
  (if (ok : bool) then rs_tell (w_failedHost (rc_masterHost s)) else mret tt);;
  resetMaster.
(** A call of a connection: what it reports reaches this client before it
    returns. *)
Definition conn_call {A} (id : nat) (f : HostAndPort -> W -> W * Outcome A) : RS A :=
  c ← conn_of id;
  o ← rs_ask (f (k_host c));
  conn_fail id (o_failed o);;
  (if o_notMaster o then isntMaster else mret tt);;
  st_lift (o_value o).

Fixpoint _auth_loop (auths : list (bytes * BSONObj)) (id : nat) : RS unit :=
  match auths with
  | [] => mret tt
  | (_, params) :: auths =>
      rs_catch UserException (conn_call id (fun h => w_auth h params)) (fun _ => mret tt);;
      _auth_loop auths id
  end.
Definition _auth (id : nat) : RS unit := s ← rs_get; _auth_loop (rc_auths s) id.
Fixpoint logoutAll_loop (auths : list (bytes * BSONObj)) (id : nat) : RS unit :=
  match auths with
  | [] => mret tt
  | (db, _) :: auths =>
      rs_catch UserException (conn_call id (fun h => w_logout h db)) (fun _ => mret tt);;
      logoutAll_loop auths id
  end.
Definition logoutAll (id : nat) : RS unit := s ← rs_get; logoutAll_loop (rc_auths s) id.

Definition resetSlaveOkConn : RS unit :=
  s ← rs_get;
  (if bool_decide (rc_lastSlaveOkConn s = rc_master s) then rs_upd (set_slave None)
   else match rc_lastSlaveOkConn s with
        | Some id =>
            (if authPooled then logoutAll id else mret tt);;
            s ← rs_get;
            conn_delete (rc_lastSlaveOkConn s);;
            rs_upd (set_slave None)
        | None => mret tt
        end);;
  rs_upd (set_slaveHost HostAndPort_default).
Definition invalidateLastSlaveOkCache : RS unit :=
  _getMonitor;;
  s ← rs_get;
  rs_tell (w_failedHost (rc_lastSlaveOkHost s));;
  resetSlaveOkConn.
Definition isntSecondary : RS unit := invalidateLastSlaveOkCache.
Definition rs_reset : RS unit :=
  resetSlaveOkConn;;
  rs_upd (fun s => set_lastReadPref None (set_lazy (mkLazyState None (z_lastOp (rc_lazy s)) (z_secondaryQueryOk (rc_lazy s)) (z_retries (rc_lazy s))) s)).

(** ** The primary *)

(** [connStr.connect] where an assertion becomes an error message. *)
Definition connect_checked (h : HostAndPort) : RS (bool * bytes) :=
  rs_catch AssertionException (rs_world (w_connect h)) (fun _ => mret (false, B "error")).
Definition connect_master (h : HostAndPort) : RS (option nat) :=
  rs_upd (set_masterHost h);;
  '(made, errmsg) ← connect_checked h;
  newConn ← (if (made : bool) then id ← conn_new h; mret (Some id) else mret None);
  match newConn with
  | Some id =>
      if bool_decide (errmsg = []) then
        resetMaster;;
        rs_upd (fun s => set_masterHost h (set_master (Some id) s));;
        _auth id;;
        s ← rs_get; mret (rc_master s)
      else
        s ← rs_get; rs_tell (w_failedHost (rc_masterHost s));; st_lift (Throw (EUassert 13639))
  | None => s ← rs_get; rs_tell (w_failedHost (rc_masterHost s));; st_lift (Throw (EUassert 13639))
  end.
(** The pointer it returns is null when authentication lost the connection. *)
Definition checkMaster : RS (option nat) :=
  _getMonitor;;
  h ← rs_world w_getMasterOrUassert;
  s ← rs_get;
  match rc_master s with
  | Some id =>
      if HostAndPort_eq h (rc_masterHost s) then
        c ← conn_of id;
        if negb (k_failed c) then mret (Some id)
        else
          rs_tell (w_failedHost (rc_masterHost s));;
          h ← rs_world w_getMasterOrUassert;
          connect_master h
      else connect_master h
  | None => connect_master h
  end.
(** A member function called through the pointer. *)
Definition deref (p : option nat) : RS nat :=
  match p with Some id => mret id | None => st_lift (Throw EUndefined) end.

(** ** The node to read from *)

Definition checkLastHost (readPref : ReadPreferenceSetting) : RS bool :=
  s ← rs_get;
  match rc_lastSlaveOkConn s, rc_lastReadPref s with
  | None, _ => mret false
  | Some id, last =>
      if HostAndPort_empty (rc_lastSlaveOkHost s) then mret false
      else
        same ← st_lift (match last with Some p => readPref_equals p readPref | None => Ret false end);
        if negb same then mret false
        else
          c ← conn_of id;
          up ← (if k_failed c then mret false
                else _getMonitor;; rs_ask (w_isHostUp (rc_lastSlaveOkHost s)));
          if negb up then invalidateLastSlaveOkCache;; mret false else mret true
  end.
(** [_lastSlaveOkConn.reset(p)]. *)
Definition slave_reset (p : option nat) : RS unit :=
  s ← rs_get;
  (if bool_decide (rc_lastSlaveOkConn s = p) then mret tt else conn_delete (rc_lastSlaveOkConn s));;
  rs_upd (set_slave p).
Definition selectNodeUsingTags (readPref : ReadPreferenceSetting) : RS (option nat) :=
  last ← checkLastHost readPref;
  if (last : bool) then s ← rs_get; mret (rc_lastSlaveOkConn s)
  else
    _getMonitor;;
    selectedNode ← rs_world (w_getHostOrRefresh readPref);
    if HostAndPort_empty selectedNode then mret None
    else
      resetSlaveOkConn;;
      rs_upd (fun s => set_slaveHost selectedNode (set_lastReadPref (Some readPref) s));;
      primary ← rs_ask (w_isPrimary selectedNode);
      if (primary : bool) then
        checkMaster;;
        s ← rs_get;
        slave_reset (rc_master s);;
        s ← rs_get; mret (rc_master s)
      else
        s ← rs_get;
        '(made, _) ← rs_world (w_connect (rc_lastSlaveOkHost s));
        newConn ← (if (made : bool) then id ← conn_new (rc_lastSlaveOkHost s); mret (Some id) else mret None);
        slave_reset newConn;;
        st_lift (uassert 0 (bool_decide (newConn <> None)));;
        id ← deref newConn;
        o ← rs_ask (w_reconnect (rc_lastSlaveOkHost s));
        conn_fail id (o_failed o);;
        connected ← st_lift (o_value o);
        st_lift (uassert 0 connected);;
        (if authPooled then _auth id else mret tt);;
        s ← rs_get; mret (rc_lastSlaveOkConn s).

(** ** Operations *)

Definition MAX_RETRY : nat := 3.
Definition NotMasterNoSlaveOkCode : Z := 13435.
Definition NotMasterOrSecondaryCode : Z := 13436.
Definition AuthenticationFailed : Z := 18.
Definition NodeNotFound : Z := 74.
Definition UnknownError : Z := 8.

Definition err_field (o : BSONObj) : BSONElement := getField o (B "$err").
Definition elem_Int (e : BSONElement) : M Z := match e.2 with VNumberInt z => Ret z | _ => Throw (EMassert 13111) end.
Definition checkSlaveQueryResult (result : Reply) : RS Reply :=
  if negb (r_some result) then mret result
  else if negb (r_wasError result) then mret result
  else
    error ← st_lift (match r_first result with
                     | Some o => verify (negb (eoo (err_field o)));; Ret o
                     | None => Throw EVerify end);
    let code := getField error (B "code") in
    c ← (if isNumber code.2 then st_lift (elem_Int code) else mret 0);
    if isNumber code.2 && (c =? NotMasterOrSecondaryCode) then
      isntSecondary;; st_lift (Throw (EUassert 14812))
    else mret result.

(** The loop over nodes to read from: no node, and no node that answered. *)
Fixpoint read_loop (n : nat) (readPref : ReadPreferenceSetting) (body : nat -> RS Reply)
    (none exhausted : RS Reply) : RS Reply :=
  match n with
  | O => exhausted
  | S n =>
      x ← rs_catch DBException
        (conn ← selectNodeUsingTags readPref;
         match conn with
         | None => mret (Some None)
         | Some id => r ← body id; mret (Some (Some r))
         end)
        (fun _ => invalidateLastSlaveOkCache;; mret None);
      match x with
      | Some (Some r) => mret r
      | Some None => none
      | None => read_loop n readPref body none exhausted
      end
  end.
(** The assertion that no node answered; its message names the set. *)
Definition no_good_nodes {A} (code : Z) : RS A := _getMonitor;; st_lift (Throw (EUassert code)).
Definition primary_op (r : Request) : RS Reply :=
  m ← checkMaster; id ← deref m; conn_call id (fun h => w_op h r).

Definition rs_query (ns : bytes) (query : BSONObj) (queryOptions : Z) : RS Reply :=
  let r := RQuery ns query queryOptions in
  readPref ← st_lift (_extractReadPref query queryOptions);
  secondary ← st_lift (_isSecondaryQuery ns query readPref);
  if (secondary : bool) then
    read_loop MAX_RETRY readPref
      (fun id => cursor ← conn_call id (fun h => w_op h r); checkSlaveQueryResult cursor)
      (no_good_nodes 16370) (no_good_nodes 16370)
  else primary_op r.
Definition rs_findOne (ns : bytes) (query : BSONObj) (queryOptions : Z) : RS Reply :=
  let r := RFindOne ns query queryOptions in
  readPref ← st_lift (_extractReadPref query queryOptions);
  secondary ← st_lift (_isSecondaryQuery ns query readPref);
  if (secondary : bool) then
    read_loop MAX_RETRY readPref (fun id => conn_call id (fun h => w_op h r))
      (no_good_nodes 16379) (no_good_nodes 16379)
  else primary_op r.
(** [insert], [remove] and [update]. *)
Definition rs_write : RS Reply := primary_op RWrite.

(** What [say] and [call] read of a message that is a query. *)
Definition message_query (toSend : Message) : M (option (bytes * BSONObj * Z)) :=
  op ← Message_operation toSend;
  if op =? dbQuery then
    dm ← DbMessage_ctor toSend;
    '(qm, _) ← QueryMessage_ctor false dm;
    q ← read_object (S (length (qm_query qm))) (qm_query qm);
    Ret (Some (qm_ns qm, q, qm_queryOptions qm))
  else Ret None.
Definition no_response : Reply := mkReply false None 0 false.
Definition rs_call (toSend : Message) : RS Reply :=
  q ← st_lift (message_query toSend);
  route ← st_lift (match q with
                   | Some (ns, query, opts) =>
                       readPref ← _extractReadPref query opts;
                       secondary ← _isSecondaryQuery ns query readPref;
                       Ret (if (secondary : bool) then Some readPref else None)
                   | None => Ret None end);
  match route with
  | Some readPref =>
      read_loop MAX_RETRY readPref (fun id => conn_call id (fun h => w_op h (RCall toSend)))
        (mret no_response) (mret no_response)
  | None =>
      r ← primary_op (RCall toSend);
      if negb (r_some r) then mret r
      else
        match q, r_first r with
        | Some (ns, _, _), Some x =>
            if r_count r =? 1 then
              (if isNotMasterErrorString (if contains ns (B "$cmd") then getField x (B "errmsg") else err_field x)
               then isntMaster else mret tt);;
              mret r
            else mret r
        | _, _ => mret r
        end
  end.

(** ** Lazy calls *)

Definition set_lazy_retries (n : Z) (s : DBClientReplicaSet) : DBClientReplicaSet :=
  let z := rc_lazy s in set_lazy (mkLazyState (z_lastClient z) (z_lastOp z) (z_secondaryQueryOk z) n) s.
Fixpoint say_loop (n : nat) (retry : Z) (readPref : ReadPreferenceSetting) (lastOp : Z) (toSend : Message) : RS unit :=
  match n with
  | O => no_good_nodes 16380
  | S n =>
      rs_upd (set_lazy_retries retry);;
      x ← rs_catch DBException
        (conn ← selectNodeUsingTags readPref;
         match conn with
         | None => mret (Some false)
         | Some id =>
             conn_call id (fun h => w_op h (RSay toSend));;
             rs_upd (fun s => set_lazy (mkLazyState (Some id) lastOp true (z_retries (rc_lazy s))) s);;
             mret (Some true)
         end)
        (fun _ => invalidateLastSlaveOkCache;; mret None);
      match x with
      | Some true => mret tt
      | Some false => no_good_nodes 16380
      | None => say_loop n (retry + 1) readPref lastOp toSend
      end
  end.
Definition rs_say (toSend : Message) (isRetry : bool) : RS unit :=
  (if isRetry then mret tt else rs_upd (set_lazy LazyState_ctor));;
  lastOp ← st_lift (Message_operation toSend);
  q ← st_lift (message_query toSend);
  route ← st_lift (match q with
                   | Some (ns, query, opts) =>
                       readPref ← _extractReadPref query opts;
                       secondary ← _isSecondaryQuery ns query readPref;
                       Ret (if (secondary : bool) then Some readPref else None)
                   | None => Ret None end);
  match route with
  | Some readPref => say_loop MAX_RETRY 0 readPref lastOp toSend
  | None =>
      m ← checkMaster;
      id ← deref m;
      rs_upd (set_lazy (mkLazyState (Some id) lastOp false (Z.of_nat MAX_RETRY)));;
      conn_call id (fun h => w_op h (RSay toSend));;
      mret tt
  end.
Definition rs_recv : RS Reply :=
  s ← rs_get;
  match z_lastClient (rc_lazy s) with
  | None => st_lift (Throw EVerify)
  | Some id => rs_catch DBException (conn_call id (fun h => w_op h RRecv)) (fun _ => mret no_response)
  end.
(** No data, or an error with the code. *)
Definition response_code_is (nReturned : Z) (dataObj : BSONObj) (c : Z) : M bool :=
  let code := getField dataObj (B "code") in
  if nReturned =? -1 then Ret true
  else if negb (eoo (err_field dataObj)) && negb (eoo code) then x ← elem_Int code; Ret (x =? c)
  else Ret false.
(** [checkResponse] with a place for its answer: whether to retry.  [nReturned] is
    -1 for no data. *)
Definition rs_checkResponse (data : option BSONObj) (nReturned : Z) : RS bool :=
  s ← rs_get;
  let z := rc_lazy s in
  match z_lastClient z with
  | None => mret false
  | Some id =>
      conn_of id;;
      if negb (nReturned =? 1) && negb (nReturned =? -1) then mret false
      else
        let dataObj := if nReturned =? 1 then default [] data else [] in
        if negb (z_lastOp z =? dbQuery) then mret false
        else if z_secondaryQueryOk z then
          failed ← st_lift (response_code_is nReturned dataObj NotMasterOrSecondaryCode);
          if negb failed then mret false
          else
            (if bool_decide (Some id = rc_lastSlaveOkConn s) then isntSecondary
             else if bool_decide (Some id = rc_master s) then isntMaster else mret tt);;
            if z_retries z <? Z.of_nat MAX_RETRY then rs_upd (set_lazy_retries (z_retries z + 1));; mret true
            else mret false
        else
          failed ← st_lift (response_code_is nReturned dataObj NotMasterNoSlaveOkCode);
          (if (failed : bool) && bool_decide (Some id = rc_master s) then isntMaster else mret tt);;
          mret false
  end.

(** [DBClientCursor::initLazy] and [initLazyFinish]: whether to retry. *)
Definition lazy_exchange (toSend : Message) (isRetry : bool) : RS bool :=
  rs_say toSend isRetry;;
  r ← rs_recv;
  rs_checkResponse (r_first r) (if r_some r then r_count r else -1).

(** ** The rest of the interface *)

Definition masterConn : RS nat := m ← checkMaster; deref m.
Definition slaveConn : RS nat :=
  conn ← selectNodeUsingTags (mkReadPreferenceSetting ReadPreference_SecondaryPreferred tagsMatchesAll);
  match conn with
  | Some id => mret id
  | None => no_good_nodes 16369
  end.
Definition rs_connect : RS bool :=
  _getMonitor;;
  h ← rs_world (w_getHostOrRefresh (mkReadPreferenceSetting ReadPreference_Nearest tagsMatchesAll));
  mret (negb (HostAndPort_empty h)).
Definition rs_isStillConnected : RS bool :=
  s ← rs_get;
  (match rc_master s with
   | Some id => c ← conn_of id; up ← rs_ask (w_isStillConnected (k_host c)); if (up : bool) then mret tt else resetMaster
   | None => mret tt end);;
  s ← rs_get;
  (match rc_lastSlaveOkConn s with
   | Some id => c ← conn_of id; up ← rs_ask (w_isStillConnected (k_host c)); if (up : bool) then mret tt else resetSlaveOkConn
   | None => mret tt end);;
  mret true.
Definition rs_logout (dbname : bytes) : RS unit :=
  m ← checkMaster;
  priConn ← deref m;
  conn_call priConn (fun h => w_logout h dbname);;
  rs_upd (fun s => set_auths (filter (fun a => a.1 <> dbname) (rc_auths s)) s);;
  s ← rs_get;
  match rc_lastSlaveOkConn s with
  | None => mret tt
  | Some id =>
      c ← conn_of id;
      if k_failed c then mret tt
      else
        rs_catch DBException (conn_call id (fun h => w_logout h dbname))
          (fun _ => s ← rs_get; id ← deref (rc_lastSlaveOkConn s); c ← conn_of id; st_lift (verify (k_failed c)))
  end.
Definition userDB (params : BSONObj) : bytes := str (getField params (B "db")).
Definition exception_code (e : exn) : Z :=
  match e with EUassert c | EMassert c => c | ESocket => 9001 | EStatus (Err c _) => status_code c | _ => 0 end.
(** The code of the status that stands for the last exception; [None] is
    [Status::OK()]. *)
Definition convertExceptionCode (exCode : Z) : Z := if exCode =? 0 then UnknownError else exCode.
Definition auth_failed {A} (lastNodeStatus : option Z) : RS A :=
  match lastNodeStatus with
  | None => no_good_nodes NodeNotFound
  | Some code => st_lift (Throw (EUassert code))
  end.
Fixpoint rs_auth_loop (n : nat) (params : BSONObj) (lastNodeStatus : option Z) : RS unit :=
  match n with
  | O => auth_failed lastNodeStatus
  | S n =>
      x ← rs_catch (fun e => DBException e && negb (exception_code e =? AuthenticationFailed))
        (conn ← selectNodeUsingTags (mkReadPreferenceSetting ReadPreference_PrimaryPreferred tagsMatchesAll);
         match conn with
         | None => mret None
         | Some id =>
             conn_call id (fun h => w_auth h params);;
             rs_upd (fun s => set_auths (map_assign (userDB params) params (rc_auths s)) s);;
             s ← rs_get;
             (if bool_decide (Some id = rc_lastSlaveOkConn s) then mret tt else resetSlaveOkConn);;
             s ← rs_get;
             (if bool_decide (Some id = rc_master s) then mret tt else resetMaster);;
             mret (Some None)
         end)
        (fun e => invalidateLastSlaveOkCache;; mret (Some (Some (convertExceptionCode (exception_code e)))));
      match x with
      | Some None => mret tt
      | None => auth_failed lastNodeStatus
      | Some (Some code) => rs_auth_loop n params (Some code)
      end
  end.
Definition rs_auth (params : BSONObj) : RS unit := rs_auth_loop (S MAX_RETRY) params None.
Definition rs_isFailed : RS bool :=
  s ← rs_get; match rc_master s with None => mret true | Some id => c ← conn_of id; mret (k_failed c) end.
Definition rs_killCursor : RS unit := st_lift (verify false).
Definition rs_sayPiggyBack (toSend : Message) : RS Reply := primary_op (RSay toSend).
Definition rs_callRead (toSend : Message) : RS Reply := primary_op (RCall toSend).
(** The destructor, and those of the members. *)
Definition rs_destroy : RS unit :=
  s ← rs_get;
  (if bool_decide (rc_lastSlaveOkConn s = rc_master s) then rs_upd (set_slave None) else mret tt);;
  s ← rs_get;
  conn_delete (rc_lastSlaveOkConn s);;
  rs_upd (set_slave None);;
  conn_delete (rc_master s);;
  rs_upd (set_master None).
End Client.

(** ** What a message or a query asks for *)

Lemma defined_uassert c b : defined (uassert c b).
Proof. by destruct b. Qed.
Lemma defined_verify b : defined (verify b).
Proof. by destruct b. Qed.
Lemma defined_Obj e : defined (Obj e).
Proof. unfold Obj. by destruct e.2. Qed.
Lemma defined_String_checked e : defined (String_checked e).
Proof. unfold String_checked. by destruct e.2. Qed.
Lemma defined_elem_Int e : defined (elem_Int e).
Proof. unfold elem_Int. by destruct e.2. Qed.
Lemma defined_Ret {A} (a : A) : defined (Ret a).
Proof. done. Qed.
Local Hint Resolve defined_uassert defined_verify defined_Obj defined_String_checked defined_elem_Int defined_Ret : mongo.
Ltac defined_step :=
  match goal with
  | |- defined (_ ≫= _) => apply defined_bind; [|intros ? ?]
  | |- defined (if ?b then _ else _) => destruct b
  | |- defined (match ?x with _ => _ end) => destruct x
  | |- defined (Throw _) => done
  end.

Lemma wf_getField_array o name l : wf_obj o -> (getField o name).2 = VArray l -> wf_obj l.
Proof.
  intros Ho E. apply wf_VArray. rewrite <-E. destruct (getField_wf o name Ho) as [Ee|[_ He]]; [by rewrite Ee in E|done].
Qed.
Lemma wf_getField_Obj o name l : wf_obj o -> Obj (getField o name) = Ret l -> wf_obj l.
Proof.
  intros Ho E. destruct (getField_wf o name Ho) as [Ee|[_ Hw]]; [by rewrite Ee in E|].
  unfold Obj in E. destruct (getField o name).2; try done; injection E as <-; [by apply wf_VObject|by apply wf_VArray].
Qed.
Lemma wf_tagsMatchesAll : wf_obj tagsMatchesAll.
Proof. apply Forall_cons_2; [|by apply Forall_nil_2]. split; [by not_in|]. by apply wf_VObject, Forall_nil_2. Qed.

Lemma extractReadPref_defined query opts : defined (_extractReadPref query opts).
Proof. unfold _extractReadPref. repeat (cbv zeta; first [by auto with mongo|defined_step]). Qed.
Lemma extractReadPref_wf query opts p : wf_obj query -> _extractReadPref query opts = Ret p -> wf_obj (tags p).
Proof.
  intros Hq. unfold _extractReadPref. destruct (hasReadPreference query); [|intros [= <-]; apply wf_tagsMatchesAll].
  intros (e & He & E)%bind_Ret.
  assert (forall o, Obj e = Ret o -> wf_obj o) as Hwe.
  { destruct (hasField query ReadPrefField).
    - injection He as <-. intros o. by apply wf_getField_Obj.
    - apply bind_Ret in He as (o & Ho & [= <-]). intros o'. apply wf_getField_Obj. by eapply wf_getField_Obj. }
  apply bind_Ret in E as (? & _ & E). apply bind_Ret in E as (doc & Hd & E). apply bind_Ret in E as (? & _ & E).
  apply bind_Ret in E as (mode & _ & E). destruct (mode_of_name mode) as [pf|]; [|done].
  destruct (hasField doc ReadPrefTagsField); [|injection E as <-; apply wf_tagsMatchesAll].
  destruct (getField doc ReadPrefTagsField).2 eqn:Et; try done.
  apply bind_Ret in E as (? & _ & [= <-]). cbn. by eapply (wf_getField_array doc), Et; apply Hwe.
Qed.
Lemma isSecondaryQuery_defined ns query p : defined (_isSecondaryQuery ns query p).
Proof. unfold _isSecondaryQuery. repeat (cbv zeta; first [by auto with mongo|defined_step]). Qed.

(** ** What a sequence of calls keeps

    The client owns exactly the connections its two pointers name; a connection
    under construction is owned by the call that made it. *)

Class WorldLaws (W : Type) `{World W} : Prop := {
  l_master (w : W) : (w_getMasterOrUassert w).2 <> Throw EUndefined;
  l_select p (w : W) : (w_getHostOrRefresh p w).2 <> Throw EUndefined;
  l_connect h (w : W) : (w_connect h w).2 <> Throw EUndefined;
  l_connect_errmsg h (w : W) errmsg : (w_connect h w).2 = Ret (true, errmsg) -> errmsg = [];
  l_reconnect h (w : W) : o_value (w_reconnect h w).2 <> Throw EUndefined;
  l_auth h params (w : W) : o_value (w_auth h params w).2 <> Throw EUndefined;
  l_logout h db (w : W) : o_value (w_logout h db w).2 <> Throw EUndefined;
  l_op h r (w : W) : o_value (w_op h r w).2 <> Throw EUndefined;
  l_op_lazy h r (w : W) : (r = RRecv \/ exists m, r = RSay m) -> o_notMaster (w_op h r w).2 = false }.

(** Logging in and out never meets the answer that the host is not master. *)
Definition logins_quiet (W : Type) `{World W} : Prop :=
  (forall h params (w : W), o_notMaster (w_auth h params w).2 = false) /\
  (forall h db (w : W), o_notMaster (w_logout h db w).2 = false).

Section Safety.
Context {W : Type} `{WorldLaws W} (authPooled : bool).
Local Abbreviation RS A := (ST (W * DBClientReplicaSet) A).

(** [{P} m {Q; E}]: from [P], [m] is defined, ends in [Q] when it returns and in [E]
    when it throws. *)
Definition triple {A} (P : DBClientReplicaSet -> Prop) (m : RS A) (Q : A -> DBClientReplicaSet -> Prop)
    (E : DBClientReplicaSet -> Prop) : Prop :=
  forall w s, P s ->
    match m (w, s) with
    | (s', Ret a) => Q a s'.2
    | (s', Throw e) => e <> EUndefined /\ E s'.2
    end.

Lemma triple_ret {A} (a : A) (P : _ -> Prop) (Q : A -> _ -> Prop) E : (forall s, P s -> Q a s) -> triple P (mret a) Q E.
Proof. intros HQ w s HP. cbn. by apply HQ. Qed.
Lemma triple_throw {A} e (P : _ -> Prop) (Q : A -> _ -> Prop) (E : _ -> Prop) :
  e <> EUndefined -> (forall s, P s -> E s) -> triple P (st_lift (Throw e)) Q E.
Proof. intros He HE w s HP. cbn. auto. Qed.
Lemma triple_lift {A} (r : M A) (P : _ -> Prop) (Q : A -> _ -> Prop) (E : _ -> Prop) :
  r <> Throw EUndefined -> (forall s a, P s -> r = Ret a -> Q a s) -> (forall s, P s -> E s) -> triple P (st_lift r) Q E.
Proof. intros Hd HQ HE w s HP. cbn. destruct r; [by apply HQ|]. split; [congruence|by apply HE]. Qed.
Lemma triple_bind {A C} (m : RS A) (f : A -> RS C) P Q R E :
  triple P m Q E -> (forall a, triple (Q a) (f a) R E) -> triple P (m ≫= f) R E.
Proof.
  intros Hm Hf w s HP. specialize (Hm w s HP). unfold mbind, ST_bind.
  destruct (m (w, s)) as [[w' s'] [a|e]]; [|done]. by apply Hf.
Qed.
Lemma triple_get {C} (f : DBClientReplicaSet -> RS C) (P : _ -> Prop) R E :
  (forall s, P s -> triple (fun s' => s' = s) (f s) R E) -> triple P (rs_get ≫= f) R E.
Proof. intros Hf w s HP. by apply Hf. Qed.
(** As [triple_get], when what matters is not which state was read. *)
Lemma triple_read {C} (f : DBClientReplicaSet -> RS C) (P : _ -> Prop) R E :
  (forall s, P s -> triple P (f s) R E) -> triple P (rs_get ≫= f) R E.
Proof. intros Hf w s HP. by apply (Hf s HP w s HP). Qed.
Lemma triple_upd f (P : _ -> Prop) (Q : unit -> _ -> Prop) E :
  (forall s, P s -> Q tt (f s)) -> triple P (rs_upd f) Q E.
Proof. intros HQ w s HP. by apply HQ. Qed.
Lemma triple_tell f (P : _ -> Prop) (Q : unit -> _ -> Prop) E :
  (forall s, P s -> Q tt s) -> triple P (rs_tell f) Q E.
Proof. intros HQ w s HP. by apply HQ. Qed.
Lemma triple_ask {A} (f : W -> W * A) (P : _ -> Prop) (Q : A -> _ -> Prop) E :
  (forall s w, P s -> Q (f w).2 s) -> triple P (rs_ask f) Q E.
Proof. intros HQ w s HP. unfold rs_ask. cbn. specialize (HQ s w HP). by destruct (f w). Qed.
Lemma triple_world {A} (m : ST W A) (P : _ -> Prop) (Q : A -> _ -> Prop) (E : _ -> Prop) :
  (forall w, (m w).2 <> Throw EUndefined) -> (forall s a w, P s -> (m w).2 = Ret a -> Q a s) -> (forall s, P s -> E s) ->
  triple P (rs_world m) Q E.
Proof.
  intros Hd HQ HE w s HP. unfold rs_world. cbn. specialize (Hd w). specialize (HQ s). destruct (m w) as [w' [a|e]] eqn:Em; cbn.
  - apply (HQ a w HP). by rewrite Em.
  - split; [cbn in Hd; congruence|by apply HE].
Qed.
Lemma triple_conseq {A} (m : RS A) (P P' : _ -> Prop) (Q Q' : A -> _ -> Prop) (E E' : _ -> Prop) :
  triple P' m Q' E' -> (forall s, P s -> P' s) -> (forall a s, Q' a s -> Q a s) -> (forall s, E' s -> E s) -> triple P m Q E.
Proof.
  intros Hm HP HQ HE w s Hs. specialize (Hm w s (HP s Hs)).
  destruct (m (w, s)) as [s' [a|e]]; [by apply HQ|]. destruct Hm. auto.
Qed.
Lemma triple_catch {A} caught (m : RS A) handler P Q E E' :
  triple P m Q E' -> (forall s, E' s -> E s) -> (forall e, triple E' (handler e) Q E) -> triple P (rs_catch caught m handler) Q E.
Proof.
  intros Hm HE Hh w s HP. specialize (Hm w s HP). unfold rs_catch.
  destruct (m (w, s)) as [[w' s'] [a|e]]; [done|].
  destruct Hm. destruct (caught e); [by apply Hh|]. auto.
Qed.
Lemma triple_pure {A} (X : Prop) (m : RS A) P Q E :
  (X -> triple P m Q E) -> triple (fun s => X /\ P s) m Q E.
Proof. intros Hm w s [HX HP]. by apply Hm. Qed.
Lemma triple_exists {A T} (m : RS A) (P : T -> _ -> Prop) Q E :
  (forall t, triple (P t) m Q E) -> triple (fun s => exists t, P t s) m Q E.
Proof. intros Hm w s [t HP]. by apply (Hm t). Qed.

(** ** Ownership *)

(** The state by its pointers: the connection under construction, the primary, the
    node read from, and the connection of the lazy call; the logins it will repeat are
    none unless they are quiet. *)
Record Sx (x m k l : option nat) (s : DBClientReplicaSet) : Prop := mkSx {
  sx_conns id : is_Some (rc_conns s !! id) <-> m = Some id \/ k = Some id \/ x = Some id;
  sx_fresh id : is_Some (rc_conns s !! id) -> (id < rc_fresh s)%nat;
  sx_tags p : rc_lastReadPref s = Some p -> wf_obj (tags p);
  sx_new : x = None \/ x <> m /\ x <> k;
  sx_master : rc_master s = m;
  sx_slave : rc_lastSlaveOkConn s = k;
  sx_lazy : z_lastClient (rc_lazy s) = l;
  sx_auths : logins_quiet W \/ rc_auths s = [] }.
Local Abbreviation St := (Sx None).
(** What a call expects, and keeps when it throws: the connections are those of the
    two pointers. *)
Definition Inv (s : DBClientReplicaSet) : Prop := exists m k l, St m k l s.

Lemma triple_Inv {A} (mm : RS A) Q E :
  (forall m k l, triple (St m k l) mm Q E) -> triple Inv mm Q E.
Proof. intros Hm w s (m & k & l & Hs). apply (Hm m k l w s Hs). Qed.
Lemma St_Inv m k l s : St m k l s -> Inv s.
Proof. intros Hs. by exists m, k, l. Qed.

Lemma conn_of_triple {C} id (f : Conn -> RS C) (P : _ -> Prop) Q E :
  (forall s, P s -> is_Some (rc_conns s !! id)) -> (forall c, triple P (f c) Q E) -> triple P (conn_of id ≫= f) Q E.
Proof.
  intros Hid Hf w s HP. destruct (Hid s HP) as [c Hc].
  unfold conn_of, mbind, ST_bind, rs_get. cbn. rewrite Hc. cbn. by apply Hf.
Qed.
Lemma conn_fail_triple id b x m k l E :
  m = Some id \/ k = Some id \/ x = Some id -> triple (Sx x m k l) (conn_fail id b) (fun _ => Sx x m k l) E.
Proof.
  intros Hid. unfold conn_fail. apply conn_of_triple; [intros s Hs; by apply (sx_conns _ _ _ _ _ Hs)|].
  intros c. apply triple_upd. intros s [Ho Hf Hp Hn Hm Hk Hl Hau]. pose proof (proj2 (Ho id) Hid) as Ha.
  split; cbn; try done.
  - intros id'. rewrite <-Ho, lookup_insert_is_Some. split; [by intros [<-|[_ ?]]|]. intros ?. destruct (decide (id = id')); auto.
  - intros id' [<-|[_ ?]]%lookup_insert_is_Some; by apply Hf.
Qed.
Lemma conn_new_triple h m k l E :
  triple (St m k l) (conn_new h) (fun id => Sx (Some id) m k l) E.
Proof.
  unfold conn_new. apply triple_get. intros s0 [Ho Hf Hp Hn Hm Hk Hl Hau].
  apply (triple_bind _ _ _ (fun _ s => Sx (Some (rc_fresh s0)) m k l s)); [|intros []; by apply triple_ret].
  apply triple_upd. intros s ->. split; cbn; try done.
  - intros id. rewrite lookup_insert_is_Some, Ho.
    assert (forall id, m = Some id \/ k = Some id -> rc_fresh s0 <> id) as Hlt.
    { intros id' Hid ?. assert (id' < rc_fresh s0)%nat; [|lia]. apply Hf, Ho. tauto. }
    specialize (Hlt id). destruct (decide (rc_fresh s0 = id)) as [->|]; [naive_solver|].
    split; [intros [?|[_ ?]]; naive_solver|]. intros [?|[?|?]]; naive_solver.
  - intros id [<-|[_ ?%Hf]]%lookup_insert_is_Some; lia.
  - right. split; intros <-; assert (rc_fresh s0 < rc_fresh s0)%nat; try lia; apply Hf, Ho; tauto.
Qed.
Lemma conn_delete_triple id (P : _ -> Prop) (Q : unit -> _ -> Prop) E :
  (forall s i, P s -> id = Some i -> is_Some (rc_conns s !! i)) ->
  (forall s, P s -> Q tt (match id with Some i => set_conns (delete i (rc_conns s)) s | None => s end)) ->
  triple P (conn_delete id) Q E.
Proof.
  intros Hid HQ. unfold conn_delete. destruct id as [i|]; [|by apply triple_ret].
  apply conn_of_triple; [intros s Hs; by apply (Hid s)|]. intros _. by apply triple_upd.
Qed.

(** Deletion in the middle of steps that only read and write the client. *)
Lemma delete_run id s (w : W) : is_Some (rc_conns s !! id) ->
  conn_delete (Some id) (w, s) = ((w, set_conns (delete id (rc_conns s)) s), Ret tt).
Proof. intros [c Hc]. unfold conn_delete, conn_of, rs_get, rs_upd, mbind, ST_bind. cbn. by rewrite Hc. Qed.

(** The primary's connection goes, and the other pointer when it named it. *)
Lemma resetMaster_triple x m k l E :
  triple (Sx x m k l) resetMaster (fun _ => Sx x None (if bool_decide (m = k) then None else k) l) E.
Proof.
  intros w s [Ho Hf Hp Hn Hm Hk Hl Hau]. unfold resetMaster.
  erewrite (st_bind_run rs_get) by reflexivity. cbn [snd]. rewrite Hk, Hm.
  erewrite (st_bind_run (if bool_decide (m = k) then _ else _) _ _
    (w, if bool_decide (m = k) then set_slaveHost HostAndPort_default (set_slave None s) else s)) by by case_bool_decide.
  erewrite (st_bind_run (conn_delete m) _ _
    (w, set_conns (match m with Some i => delete i (rc_conns s) | None => rc_conns s end)
          (if bool_decide (m = k) then set_slaveHost HostAndPort_default (set_slave None s) else s))).
  2: { destruct m as [i|]; [|by destruct (bool_decide _), s]. rewrite delete_run; [by case_bool_decide|].
       destruct (bool_decide _); apply Ho; auto. }
  cbn. assert (forall id, is_Some (match m with Some i => delete i (rc_conns s) | None => rc_conns s end !! id) <->
    m <> Some id /\ is_Some (rc_conns s !! id)) as Hd.
  { intros id. destruct m as [i|]; [|naive_solver]. rewrite lookup_delete_is_Some. naive_solver. }
  case_bool_decide as Hmk; cbn; (split; cbn; [|intros id [_ ?]%Hd; by apply Hf|done|
    destruct x; [right; destruct Hn as [|[??]]; by split|by left]|done|try done|try done|try done]);
    intros id; rewrite Hd, Ho; (destruct Hn as [->|[??]];
    (split; [intros [? [?|[?|?]]]; first [by auto|congruence]
            |intros [?|[?|?]]; first [congruence|split; [congruence|by auto]]])).
Qed.
Lemma isntMaster_triple m k l E :
  triple (St m k l) isntMaster (fun _ => St None (if bool_decide (m = k) then None else k) l) E.
Proof.
  unfold isntMaster. apply (triple_bind _ _ _ (fun _ => St m k l)); [by apply triple_ask|].
  intros ok. apply triple_get. intros s0 Hs0.
  apply (triple_bind _ _ _ (fun _ => St m k l)); [destruct ok; [apply triple_tell|apply triple_ret]; by intros s ->|].
  intros _. apply resetMaster_triple.
Qed.

Lemma conn_call_start {A} id (f : HostAndPort -> W -> W * Outcome A) (good : Outcome A -> Prop) m k l Q E :
  (forall h w, good (f h w).2) -> m = Some id \/ k = Some id ->
  (forall o, good o -> triple (St m k l) ((if o_notMaster o then isntMaster else mret tt);; st_lift (o_value o)) Q E) ->
  triple (St m k l) (conn_call id f) Q E.
Proof.
  intros Hg Hid Hk. unfold conn_call. apply conn_of_triple; [intros s Hs; apply (sx_conns _ _ _ _ _ Hs); tauto|]. intros c.
  apply (triple_bind _ _ _ (fun o s => good o /\ St m k l s)); [apply triple_ask; intros s w Hs; split; [apply Hg|done]|].
  intros o. apply triple_pure. intros Ho.
  apply (triple_bind _ _ _ (fun _ => St m k l)); [apply conn_fail_triple; tauto|]. intros _. by apply Hk.
Qed.
Lemma conn_call_quiet {A} id (f : HostAndPort -> W -> W * Outcome A) m k l :
  (forall h w, o_value (f h w).2 <> Throw EUndefined /\ o_notMaster (f h w).2 = false) -> m = Some id \/ k = Some id ->
  triple (St m k l) (conn_call id f) (fun _ => St m k l) (St m k l).
Proof.
  intros Hf Hid. apply (conn_call_start id f (fun o => o_value o <> Throw EUndefined /\ o_notMaster o = false) m k l _ _ Hf Hid).
  intros o [Ho ->].
  apply (triple_bind _ _ _ (fun _ => St m k l)); [by apply triple_ret|]. intros _. by apply triple_lift.
Qed.
Lemma conn_call_triple {A} id (f : HostAndPort -> W -> W * Outcome A) m k l :
  (forall h w, o_value (f h w).2 <> Throw EUndefined) -> m = Some id \/ k = Some id ->
  triple (St m k l) (conn_call id f) (fun _ => Inv) Inv.
Proof.
  intros Hf Hid. apply (conn_call_start id f (fun o => o_value o <> Throw EUndefined) m k l _ _ Hf Hid). intros o Ho.
  apply (triple_bind _ _ _ (fun _ => Inv)).
  - destruct (o_notMaster o); [|apply triple_ret; by eapply St_Inv].
    eapply triple_conseq; [apply (isntMaster_triple m k l Inv)|done|intros [] s Hs; by eapply St_Inv|done].
  - intros _. by apply triple_lift.
Qed.

Lemma quiet_loop auths id m k l (step : bytes * BSONObj -> HostAndPort -> W -> W * Outcome unit) (loop : list (bytes * BSONObj) -> RS unit) :
  loop [] = mret tt ->
  (forall a auths, loop (a :: auths) = (rs_catch UserException (conn_call id (step a)) (fun _ => mret tt);; loop auths)) ->
  (forall a h w, o_value (step a h w).2 <> Throw EUndefined /\ o_notMaster (step a h w).2 = false) -> m = Some id \/ k = Some id ->
  triple (St m k l) (loop auths) (fun _ => St m k l) (St m k l).
Proof.
  intros Hnil Hcons Hf Hid. induction auths as [|a auths IH]; [rewrite Hnil; by apply triple_ret|].
  rewrite Hcons. apply (triple_bind _ _ _ (fun _ => St m k l)); [|by intros []].
  eapply triple_catch; [by apply conn_call_quiet|done|]. intros e. by apply triple_ret.
Qed.
Lemma triple_auth id m k l : m = Some id \/ k = Some id -> triple (St m k l) (_auth id) (fun _ => St m k l) (St m k l).
Proof.
  intros Hid. unfold _auth. apply triple_get. intros s0 Hs0. intros w s ->.
  destruct (sx_auths _ _ _ _ _ Hs0) as [[Hq _]|Hno]; [|by rewrite Hno].
  refine (quiet_loop _ id m k l (fun a h => w_auth h a.2) (fun auths => _auth_loop auths id) eq_refl _ _ Hid w s0 Hs0).
  - by intros [].
  - intros a h w'. split; [apply l_auth|apply Hq].
Qed.
Lemma triple_logoutAll id m k l : m = Some id \/ k = Some id -> triple (St m k l) (logoutAll id) (fun _ => St m k l) (St m k l).
Proof.
  intros Hid. unfold logoutAll. apply triple_get. intros s0 Hs0. intros w s ->.
  destruct (sx_auths _ _ _ _ _ Hs0) as [[_ Hq]|Hno]; [|by rewrite Hno].
  refine (quiet_loop _ id m k l (fun a h => w_logout h a.1) (fun auths => logoutAll_loop auths id) eq_refl _ _ Hid w s0 Hs0).
  - by intros [].
  - intros a h w'. split; [apply l_logout|apply Hq].
Qed.

Lemma resetSlaveOkConn_triple m k l : triple (St m k l) (resetSlaveOkConn authPooled) (fun _ => St m None l) Inv.
Proof.
  unfold resetSlaveOkConn. apply triple_get. intros s0 Hs0. rewrite (sx_slave _ _ _ _ _ Hs0), (sx_master _ _ _ _ _ Hs0).
  apply (triple_bind _ _ _ (fun _ => St m None l)); [|intros []; apply triple_upd; by intros s []].
  case_bool_decide as Hkm.
  - apply triple_upd. intros s ->. destruct Hs0 as [Ho Hf Hp Hn Hm Hk Hl Hau]. split; cbn; try done; [|by left].
    intros id. rewrite Ho. rewrite Hkm. naive_solver.
  - destruct k as [id|]; [|apply triple_ret; by intros s ->].
    apply (triple_bind _ _ _ (fun _ => St m (Some id) l)).
    { destruct authPooled; [|apply triple_ret; by intros s ->].
      eapply triple_conseq; [apply (triple_logoutAll id m (Some id) l); by right|by intros s ->|done|]. intros s Hs. by eapply St_Inv. }
    intros []. apply triple_get. intros s1 [Ho Hf Hp Hn Hm Hk Hl Hau]. rewrite Hk.
    apply (triple_bind _ _ _ (fun _ s => s = set_conns (delete id (rc_conns s1)) s1)).
    { apply conn_delete_triple; [intros s i -> [= <-]; apply Ho; auto|by intros s ->]. }
    intros []. apply triple_upd. intros s ->. split; cbn; try done; [| |by left].
    + intros id'. rewrite lookup_delete_is_Some, Ho. split; [naive_solver|]. intros [->|[?|?]]; try done. split; [congruence|auto].
    + intros id' [_ ?]%lookup_delete_is_Some. by apply Hf.
Qed.
Lemma getMonitor_triple P : triple P _getMonitor (fun _ => P) P.
Proof.
  unfold _getMonitor. apply (triple_bind _ _ _ (fun _ => P)); [by apply triple_ask|]. intros b.
  apply triple_lift; [by destruct b|done|done].
Qed.
Lemma invalidate_triple m k l : triple (St m k l) (invalidateLastSlaveOkCache authPooled) (fun _ => St m None l) Inv.
Proof.
  unfold invalidateLastSlaveOkCache. apply (triple_bind _ _ _ (fun _ => St m k l)).
  { eapply triple_conseq; [apply getMonitor_triple|done|done|]. intros s Hs. by eapply St_Inv. }
  intros []. apply triple_get. intros s0 Hs0.
  apply (triple_bind _ _ _ (fun _ => St m k l)); [apply triple_tell; by intros s ->|]. intros []. apply resetSlaveOkConn_triple.
Qed.

Lemma connect_checked_triple h m k l :
  triple (St m k l) (connect_checked h) (fun r s => (r.1 = true -> r.2 = []) /\ St m k l s) Inv.
Proof.
  unfold connect_checked. apply (triple_catch _ _ _ _ _ _ (St m k l)).
  - apply triple_world; [apply l_connect| |done]. intros s [b e] w Hs Er. split; [|done]. cbn. intros ->.
    by apply (l_connect_errmsg h w).
  - intros s. apply St_Inv.
  - intros e. by apply triple_ret.
Qed.
Lemma connect_new_triple h (made : bool) m k l E :
  triple (St m k l) (if made then id ← conn_new h; mret (Some id) else mret None)
    (fun r s => (is_Some r -> made = true) /\ Sx r m k l s) E.
Proof.
  destruct made; [|apply triple_ret; intros s Hs; split; [by intros []|done]].
  apply (triple_bind _ _ _ (fun id => Sx (Some id) m k l)); [apply conn_new_triple|]. intros id. by apply triple_ret.
Qed.
Lemma connect_master_triple h m k l :
  triple (St m k l) (connect_master h)
    (fun r s => exists id, r = Some id /\ St (Some id) (if bool_decide (m = k) then None else k) l s) Inv.
Proof.
  unfold connect_master. apply (triple_bind _ _ _ (fun _ => St m k l)); [apply triple_upd; by intros s []|]. intros [].
  apply (triple_bind _ _ _ (fun r s => (r.1 = true -> r.2 = []) /\ St m k l s)); [apply connect_checked_triple|].
  intros [made errmsg]. apply triple_pure. cbn [fst snd]. intros Hmade.
  apply (triple_bind _ _ _ (fun r s => (is_Some r -> made = true) /\ Sx r m k l s)); [by apply connect_new_triple|].
  intros r. apply triple_pure. intros Hr.
  assert (forall {A} (Q : A -> _ -> Prop), triple (St m k l) (s ← rs_get; rs_tell (w_failedHost (rc_masterHost s));; st_lift (Throw (EUassert 13639))) Q Inv) as Hfail.
  { intros A Q. apply triple_get. intros s0 Hs0. apply (triple_bind _ _ _ (fun _ => St m k l)); [apply triple_tell; by intros s ->|].
    intros []. apply triple_throw; [done|]. intros s. apply St_Inv. }
  destruct r as [id|]; [|apply Hfail].
  rewrite (Hmade (Hr ltac:(done))), bool_decide_eq_true_2 by done.
  apply (triple_bind _ _ _ (fun _ => Sx (Some id) None (if bool_decide (m = k) then None else k) l)); [apply resetMaster_triple|].
  intros []. apply (triple_bind _ _ _ (fun _ => St (Some id) (if bool_decide (m = k) then None else k) l)).
  { apply triple_upd. intros s [Ho Hf Hp Hn Hm Hk Hl Hau]. split; cbn; try done; [|by left]. intros id'. rewrite Ho. naive_solver. }
  intros []. apply (triple_bind _ _ _ (fun _ => St (Some id) (if bool_decide (m = k) then None else k) l)).
  { eapply triple_conseq; [apply triple_auth; by left|done|done|]. intros s. apply St_Inv. }
  intros []. apply triple_get. intros s0 Hs0. apply triple_ret. intros s ->. exists id. split; [apply (sx_master _ _ _ _ _ Hs0)|done].
Qed.
(** What is left of the pointer to the node read from when the primary's
    connection is replaced. *)
Definition kept (k k' : option nat) : Prop := k' = k \/ k' = None.
Lemma kept_if (m k : option nat) : kept k (if bool_decide (m = k) then None else k).
Proof. destruct (bool_decide _); [by right|by left]. Qed.
Lemma checkMaster_triple m k l :
  triple (St m k l) checkMaster (fun r s => exists id k', kept k k' /\ r = Some id /\ St (Some id) k' l s) Inv.
Proof.
  assert (forall h, triple (St m k l) (connect_master h) (fun r s => exists id k', kept k k' /\ r = Some id /\ St (Some id) k' l s) Inv) as Hc.
  { intros h. eapply triple_conseq; [apply connect_master_triple|done| |done].
    intros r s (id & -> & Hs). eexists id, _. split; [apply (kept_if m)|done]. }
  assert (triple (St m k l) (rs_world w_getMasterOrUassert) (fun _ => St m k l) Inv) as Hh.
  { apply triple_world; [apply l_master|done|]. intros s. apply St_Inv. }
  unfold checkMaster. apply (triple_bind _ _ _ (fun _ => St m k l)).
  { eapply triple_conseq; [apply getMonitor_triple|done|done|]. intros s. apply St_Inv. }
  intros []. apply (triple_bind _ _ _ (fun _ => St m k l)); [done|].
  intros h. apply triple_read. intros s0 Hs0. rewrite (sx_master _ _ _ _ _ Hs0). generalize (rc_masterHost s0) as hh.
  intros hh. destruct m as [id|]; [|done]. destruct (HostAndPort_eq h hh); [|done].
  apply conn_of_triple; [intros s Hs; apply (sx_conns _ _ _ _ _ Hs); auto|]. intros c. destruct (k_failed c); cbn [negb].
  - apply (triple_bind _ _ _ (fun _ => St (Some id) k l)); [by apply triple_tell|]. intros [].
    by apply (triple_bind _ _ _ (fun _ => St (Some id) k l)).
  - apply triple_ret. intros s Hs. exists id, k. split; [by left|done].
Qed.

Lemma readPref_equals_defined a b : wf_obj (tags a) -> wf_obj (tags b) -> readPref_equals a b <> Throw EUndefined.
Proof.
  intros Ha Hb. unfold readPref_equals. case_bool_decide; [|done].
  destruct (obj_cmp_all true _ _ Ha Hb) as (n & -> & _). by rewrite ret_bind.
Qed.
Lemma checkLastHost_triple readPref m k l : wf_obj (tags readPref) ->
  triple (St m k l) (checkLastHost authPooled readPref)
    (fun b s => if b : bool then is_Some k /\ St m k l s else exists k', kept k k' /\ St m k' l s) Inv.
Proof.
  intros Hwf. assert (forall k' s, kept k k' -> St m k' l s -> exists k', kept k k' /\ St m k' l s) as Hno by (intros; eauto).
  assert (kept k k) as Hkk by by left.
  unfold checkLastHost. apply triple_read. intros s0 Hs0. rewrite (sx_slave _ _ _ _ _ Hs0).
  destruct k as [id|]; [|apply triple_ret; eauto]. destruct (HostAndPort_empty _); [apply triple_ret; eauto|].
  apply (triple_bind _ _ _ (fun _ => St m (Some id) l)).
  { apply triple_lift; [|done|intros s; apply St_Inv]. destruct (rc_lastReadPref s0) as [p|] eqn:Ep; [|done].
    apply readPref_equals_defined; [|done]. by apply (sx_tags _ _ _ _ _ Hs0). }
  intros []; cbn [negb]; [|apply triple_ret; eauto].
  apply conn_of_triple; [intros s Hs; apply (sx_conns _ _ _ _ _ Hs); auto|]. intros c.
  apply (triple_bind _ _ _ (fun _ => St m (Some id) l)).
  { destruct (k_failed c); [by apply triple_ret|]. apply (triple_bind _ _ _ (fun _ => St m (Some id) l)); [|intros []; by apply triple_ask].
    eapply triple_conseq; [apply getMonitor_triple|done|done|]. intros s. apply St_Inv. }
  intros []; cbn [negb].
  - apply triple_ret. intros s Hs. split; [by eexists|done].
  - apply (triple_bind _ _ _ (fun _ => St m None l)); [apply invalidate_triple|]. intros []. apply triple_ret.
    intros s Hs. apply (Hno None); [by right|done].
Qed.
Lemma slave_reset_triple x m l : (x = None \/ x <> m) ->
  triple (Sx x m None l) (slave_reset x) (fun _ => St m x l) Inv.
Proof.
  intros _. unfold slave_reset. apply triple_read. intros s0 Hs0. rewrite (sx_slave _ _ _ _ _ Hs0).
  apply (triple_bind _ _ _ (fun _ => Sx x m None l)); [case_bool_decide; by apply triple_ret|].
  intros []. apply triple_upd. intros s [Ho Hf Hp Hn Hm Hk Hl Hau]. split; cbn; try done; [|by left].
  intros id. rewrite Ho. naive_solver.
Qed.
(** The primary's connection is shared: it is not deleted for being named again. *)
Lemma slave_share_triple m l k : kept None k ->
  triple (St m k l) (slave_reset m) (fun _ => St m m l) Inv.
Proof.
  intros Hk. assert (k = None) as -> by by destruct Hk. unfold slave_reset. apply triple_read. intros s0 Hs0.
  rewrite (sx_slave _ _ _ _ _ Hs0).
  apply (triple_bind _ _ _ (fun _ => St m None l)); [case_bool_decide; by apply triple_ret|].
  intros []. apply triple_upd. intros s [Ho Hf Hp Hn Hm Hk' Hl Hau]. split; cbn; try done; [|by left].
  intros id. rewrite Ho. naive_solver.
Qed.

(** The node selected is the one the pointer names. *)
Lemma selectNode_triple readPref m k l : wf_obj (tags readPref) ->
  triple (St m k l) (selectNodeUsingTags authPooled readPref)
    (fun r s => exists m' k', (is_Some r -> r = k') /\ St m' k' l s) Inv.
Proof.
  intros Hwf. unfold selectNodeUsingTags.
  eapply triple_bind; [by apply checkLastHost_triple|].
  intros []; cbn beta iota.
  { apply triple_pure. intros _. apply triple_read. intros s0 Hs0. rewrite (sx_slave _ _ _ _ _ Hs0).
    apply triple_ret. intros s Hs. exists m, k. split; [|done]. by destruct k. }
  apply triple_exists. intros k1. apply triple_pure. intros Hk1.
  apply (triple_bind _ _ _ (fun _ => St m k1 l)).
  { eapply triple_conseq; [apply getMonitor_triple|done|done|]. intros s. apply St_Inv. }
  intros []. apply (triple_bind _ _ _ (fun _ => St m k1 l)).
  { apply triple_world; [apply l_select|done|]. intros s. apply St_Inv. }
  intros h. destruct (HostAndPort_empty h).
  { apply triple_ret. intros s Hs. exists m, k1. split; [by intros []|done]. }
  apply (triple_bind _ _ _ (fun _ => St m None l)); [apply resetSlaveOkConn_triple|]. intros [].
  apply (triple_bind _ _ _ (fun _ => St m None l)).
  { apply triple_upd. intros s [Ho Hf Hp Hn Hm Hk Hl Hau]. split; try done. cbn. by intros p [= <-]. }
  intros []. apply (triple_bind _ _ _ (fun _ => St m None l)); [by apply triple_ask|]. intros [].
  - eapply triple_bind; [apply checkMaster_triple|]. intros r. cbn beta. apply triple_exists. intros id. apply triple_exists. intros k2.
    apply triple_pure. intros Hk2. apply triple_pure. intros _. apply triple_read. intros s0 Hs0. rewrite (sx_master _ _ _ _ _ Hs0).
    apply (triple_bind _ _ _ (fun _ => St (Some id) (Some id) l)); [by apply (slave_share_triple (Some id) l k2)|].
    intros []. apply triple_read. intros s1 Hs1. rewrite (sx_master _ _ _ _ _ Hs1). apply triple_ret. intros s Hs.
    by exists (Some id), (Some id).
  - apply triple_read. intros s0 Hs0. apply (triple_bind _ _ _ (fun _ => St m None l)).
    { apply triple_world; [apply l_connect|done|]. intros s. apply St_Inv. }
    intros [made errmsg]. apply (triple_bind _ _ _ (fun r s => (is_Some r -> made = true) /\ Sx r m None l s)); [apply connect_new_triple|].
    intros r. apply triple_pure. intros _. apply (triple_bind _ _ _ (fun _ => St m r l)).
    { intros w s Hs. refine (slave_reset_triple r m l _ w s Hs). destruct (sx_new _ _ _ _ _ Hs) as [|[? _]]; auto. }
    intros []. destruct r as [id|]; cbn [deref].
    2: { apply (triple_bind _ _ _ (fun _ _ => False)); [apply triple_lift; [done|done|intros s; apply St_Inv]|]. intros a w s []. }
    apply (triple_bind _ _ _ (fun _ => St m (Some id) l)); [by apply triple_lift; [done|done|intros s; apply St_Inv]|]. intros [].
    apply (triple_bind _ _ _ (fun i s => i = id /\ St m (Some id) l s)); [by apply triple_ret|]. intros i. apply triple_pure. intros ->.
    apply (triple_bind _ _ _ (fun o s => o_value o <> Throw EUndefined /\ St m (Some id) l s)).
    { apply triple_ask. intros s w Hs. split; [apply l_reconnect|done]. }
    intros o. apply triple_pure. intros Ho.
    apply (triple_bind _ _ _ (fun _ => St m (Some id) l)); [apply conn_fail_triple; auto|]. intros [].
    apply (triple_bind _ _ _ (fun _ => St m (Some id) l)); [apply triple_lift; [done|done|intros s; apply St_Inv]|]. intros connected.
    apply (triple_bind _ _ _ (fun _ => St m (Some id) l)); [apply triple_lift; [by destruct connected|done|intros s; apply St_Inv]|]. intros [].
    apply (triple_bind _ _ _ (fun _ => St m (Some id) l)).
    { destruct authPooled; [|by apply triple_ret]. eapply triple_conseq; [apply triple_auth; by right|done|done|]. intros s. apply St_Inv. }
    intros []. apply triple_read. intros s1 Hs1. rewrite (sx_slave _ _ _ _ _ Hs1). apply triple_ret. intros s Hs. by exists m, (Some id).
Qed.
(** ** Operations *)

Definition preserves {A} (m : RS A) : Prop := triple Inv m (fun _ => Inv) Inv.
Lemma preserves_ret {A} (a : A) : preserves (mret a).
Proof. by apply triple_ret. Qed.
Lemma preserves_throw {A} c : preserves (st_lift (Throw (EUassert c)) : RS A).
Proof. by apply triple_throw. Qed.
Lemma preserves_lift {A} (r : M A) : defined r -> preserves (st_lift r).
Proof. intros Hr. by apply triple_lift. Qed.
Lemma preserves_bind {A C} (m : RS A) (f : A -> RS C) : preserves m -> (forall a, preserves (f a)) -> preserves (m ≫= f).
Proof. intros Hm Hf. by apply (triple_bind _ _ _ (fun _ => Inv)). Qed.
(** The value of a pure step is at hand for what follows. *)
Lemma preserves_lift_bind {A C} (r : M A) (f : A -> RS C) :
  defined r -> (forall a, r = Ret a -> preserves (f a)) -> preserves (st_lift r ≫= f).
Proof. intros Hr Hf. destruct r as [a|e]; [rewrite st_bind_lift; by apply Hf|]. intros w s Hs. cbn. split; [congruence|done]. Qed.
Lemma preserves_St {A} (m : RS A) Q : (forall mm k l, triple (St mm k l) m (fun _ => Q mm k l) Inv) ->
  (forall mm k l s, Q mm k l s -> Inv s) -> preserves m.
Proof. intros Hm HQ. apply triple_Inv. intros mm k l. eapply triple_conseq; [apply Hm|done|intros a s Hs; exact (HQ mm k l s Hs)|done]. Qed.
Lemma preserves_getMonitor : preserves _getMonitor.
Proof. apply getMonitor_triple. Qed.
Lemma preserves_no_good_nodes {A} c : preserves (no_good_nodes c : RS A).
Proof. apply preserves_bind; [apply preserves_getMonitor|]. intros []. apply preserves_throw. Qed.
Lemma preserves_invalidate : preserves (invalidateLastSlaveOkCache authPooled).
Proof. apply (preserves_St _ (fun m k l => St m None l)); [apply invalidate_triple|]. intros m k l s. apply St_Inv. Qed.
Lemma preserves_resetSlaveOkConn : preserves (resetSlaveOkConn authPooled).
Proof. apply (preserves_St _ (fun m k l => St m None l)); [apply resetSlaveOkConn_triple|]. intros m k l s. apply St_Inv. Qed.
Lemma preserves_resetMaster : preserves resetMaster.
Proof. apply (preserves_St _ (fun m k l => St None (if bool_decide (m = k) then None else k) l)); [intros; apply resetMaster_triple|]. intros m k l s. apply St_Inv. Qed.
Lemma preserves_isntMaster : preserves isntMaster.
Proof. apply (preserves_St _ (fun m k l => St None (if bool_decide (m = k) then None else k) l)); [intros; apply isntMaster_triple|]. intros m k l s. apply St_Inv. Qed.
Lemma preserves_catch {A} caught (m : RS A) handler :
  preserves m -> (forall e, preserves (handler e)) -> preserves (rs_catch caught m handler).
Proof. intros Hm Hh. by apply (triple_catch _ _ _ _ _ _ Inv). Qed.

(** A connection at hand: what [checkMaster] and [selectNodeUsingTags] give. *)
Lemma with_master {A} (body : nat -> RS A) Q :
  (forall m k l id, m = Some id -> triple (St m k l) (body id) Q Inv) ->
  triple Inv (m ← checkMaster; id ← deref m; body id) Q Inv.
Proof.
  intros Hb. apply triple_Inv. intros m k l. eapply triple_bind; [apply checkMaster_triple|]. intros r. cbn beta.
  apply triple_exists. intros id. apply triple_exists. intros k'. apply triple_pure. intros _. apply triple_pure. intros ->.
  intros w s Hs. by apply (Hb (Some id) k' l id eq_refl w s).
Qed.
Lemma with_node {A} readPref (none : RS A) (body : nat -> RS A) Q : wf_obj (tags readPref) ->
  triple Inv none Q Inv -> (forall m k l id, k = Some id -> triple (St m k l) (body id) Q Inv) ->
  triple Inv (conn ← selectNodeUsingTags authPooled readPref; match conn with None => none | Some id => body id end) Q Inv.
Proof.
  intros Hwf Hn Hb. apply triple_Inv. intros m k l. eapply triple_bind; [by apply selectNode_triple|]. intros r. cbn beta.
  apply triple_exists. intros m'. apply triple_exists. intros k'. apply triple_pure. intros Hk.
  destruct r as [id|]; [apply Hb; symmetry; apply Hk; by eexists|].
  eapply triple_conseq; [exact Hn| |done|done]. intros s. apply St_Inv.
Qed.

Lemma checkSlaveQueryResult_preserves r : preserves (checkSlaveQueryResult authPooled r).
Proof.
  unfold checkSlaveQueryResult. destruct (negb (r_some r)); [apply preserves_ret|]. destruct (negb (r_wasError r)); [apply preserves_ret|].
  apply preserves_bind.
  { apply preserves_lift. destruct (r_first r); [|done]. apply defined_bind; [apply defined_verify|done]. }
  intros error. cbv zeta. apply preserves_bind; [destruct (isNumber _); [apply preserves_lift, defined_elem_Int|apply preserves_ret]|].
  intros c. destruct (_ && _); [|apply preserves_ret].
  apply preserves_bind; [apply preserves_invalidate|]. intros []. apply preserves_throw.
Qed.
Lemma read_loop_preserves n readPref body none exhausted :
  wf_obj (tags readPref) -> preserves none -> preserves exhausted ->
  (forall m k l id, k = Some id -> triple (St m k l) (body id) (fun _ => Inv) Inv) ->
  preserves (read_loop authPooled n readPref body none exhausted).
Proof.
  intros Hwf Hn He Hb. induction n as [|n IH]; [done|]. cbn [read_loop]. apply preserves_bind.
  - apply preserves_catch.
    + apply with_node; [done|apply preserves_ret|]. intros m k l id Hid. apply (triple_bind _ _ _ (fun _ => Inv)); [by apply (Hb m k l id)|].
      intros r. apply preserves_ret.
    + intros _. apply preserves_bind; [apply preserves_invalidate|]. intros []. apply preserves_ret.
  - intros [[r|]|]; [apply preserves_ret|done|done].
Qed.
Lemma op_triple id r m k l : m = Some id \/ k = Some id ->
  triple (St m k l) (conn_call id (fun h => w_op h r)) (fun _ => Inv) Inv.
Proof. intros Hid. apply conn_call_triple; [|done]. intros h w. apply l_op. Qed.
Lemma primary_op_preserves r : preserves (primary_op r).
Proof. apply with_master. intros m k l id Hid. apply op_triple. by left. Qed.
Lemma rs_query_preserves ns query opts : wf_obj query -> preserves (rs_query authPooled ns query opts).
Proof.
  intros Hq. unfold rs_query. cbv zeta. apply preserves_lift_bind; [apply extractReadPref_defined|]. intros p Hp.
  apply preserves_bind; [apply preserves_lift, isSecondaryQuery_defined|]. intros []; [|apply primary_op_preserves].
  apply read_loop_preserves; [by eapply extractReadPref_wf|apply preserves_no_good_nodes|apply preserves_no_good_nodes|].
  intros m k l id Hid. apply (triple_bind _ _ _ (fun _ => Inv)); [apply op_triple; by right|]. apply checkSlaveQueryResult_preserves.
Qed.
Lemma rs_findOne_preserves ns query opts : wf_obj query -> preserves (rs_findOne authPooled ns query opts).
Proof.
  intros Hq. unfold rs_findOne. cbv zeta. apply preserves_lift_bind; [apply extractReadPref_defined|]. intros p Hp.
  apply preserves_bind; [apply preserves_lift, isSecondaryQuery_defined|]. intros []; [|apply primary_op_preserves].
  apply read_loop_preserves; [by eapply extractReadPref_wf|apply preserves_no_good_nodes|apply preserves_no_good_nodes|].
  intros m k l id Hid. apply op_triple. by right.
Qed.

(** A message that can be read: the query in it, if it is one, has well-formed
    documents. *)
Definition readable (toSend : Message) : Prop :=
  defined (Message_operation toSend) /\
  match message_query toSend with
  | Throw e => e <> EUndefined
  | Ret (Some (_, q, _)) => wf_obj q
  | Ret None => True
  end.
Lemma readable_query toSend : readable toSend -> defined (message_query toSend).
Proof. intros [_ Hq] E. by rewrite E in Hq. Qed.
(** How [say] and [call] route what they read. *)
Lemma with_route {C} toSend (f : option (bytes * BSONObj * Z) -> option ReadPreferenceSetting -> RS C) Q :
  readable toSend ->
  (forall q p, wf_obj (tags p) -> triple Inv (f q (Some p)) Q Inv) -> (forall q, triple Inv (f q None) Q Inv) ->
  triple Inv (q ← st_lift (message_query toSend);
    route ← st_lift (match q with
      | Some (ns, query, opts) =>
          readPref ← _extractReadPref query opts;
          secondary ← _isSecondaryQuery ns query readPref;
          Ret (if (secondary : bool) then Some readPref else None)
      | None => Ret None end);
    f q route) Q Inv.
Proof.
  intros [_ Hr] Hs Hp.
  assert (forall e (g : option (bytes * BSONObj * Z) -> RS C), e <> EUndefined -> triple Inv (st_lift (Throw e) ≫= g) Q Inv) as Ht.
  { intros e g He w s Hi. by cbn. }
  destruct (message_query toSend) as [q|e]; [|by apply Ht]. rewrite st_bind_lift.
  destruct q as [[[ns query] opts]|]; [|rewrite st_bind_lift; apply Hp].
  pose proof (extractReadPref_defined query opts) as Hd. destruct (_extractReadPref query opts) as [p|e] eqn:Ep.
  2: { intros w s Hi. cbn. split; [intros ->; by apply Hd|done]. }
  rewrite ret_bind. pose proof (isSecondaryQuery_defined ns query p) as Hd2.
  destruct (_isSecondaryQuery ns query p) as [sec|e].
  2: { intros w s Hi. cbn. split; [intros ->; by apply Hd2|done]. }
  rewrite ret_bind, st_bind_lift. destruct sec; [|apply Hp]. apply Hs. by eapply extractReadPref_wf.
Qed.
Lemma rs_call_preserves toSend : readable toSend -> preserves (rs_call authPooled toSend).
Proof.
  intros Hr. unfold rs_call. apply with_route; [done| |].
  - intros q p Hp. apply read_loop_preserves; [done|apply preserves_ret|apply preserves_ret|].
    intros m k l id Hid. apply op_triple. by right.
  - intros q. apply preserves_bind; [apply primary_op_preserves|]. intros r.
    destruct (negb (r_some r)); [apply preserves_ret|]. destruct q as [[[ns query] opts]|]; [|apply preserves_ret].
    destruct (r_first r) as [x|]; [|apply preserves_ret]. destruct (r_count r =? 1); [|apply preserves_ret].
    apply preserves_bind; [|intros; apply preserves_ret]. destruct (isNotMasterErrorString _); [apply preserves_isntMaster|apply preserves_ret].
Qed.

(** The connection of a lazy call is there until its answer has been checked. *)
Definition lazy_ready (s : DBClientReplicaSet) : Prop :=
  exists m k id, (m = Some id \/ k = Some id) /\ St m k (Some id) s.
Lemma lazy_triple {A} id (f : HostAndPort -> W -> W * Outcome A) m k l :
  (forall h w, o_value (f h w).2 <> Throw EUndefined /\ o_notMaster (f h w).2 = false) -> m = Some id \/ k = Some id ->
  triple (St m k l) (conn_call id f) (fun _ => St m k l) Inv.
Proof. intros Hf Hid. eapply triple_conseq; [by apply conn_call_quiet|done|done|]. intros s. apply St_Inv. Qed.
Lemma say_quiet toSend h w : o_value (w_op h (RSay toSend) w).2 <> Throw EUndefined /\ o_notMaster (w_op h (RSay toSend) w).2 = false.
Proof. split; [apply l_op|apply l_op_lazy; eauto]. Qed.
Lemma recv_quiet h w : o_value (w_op h RRecv w).2 <> Throw EUndefined /\ o_notMaster (w_op h RRecv w).2 = false.
Proof. split; [apply l_op|apply l_op_lazy; eauto]. Qed.
Lemma set_lazy_St m k l z s : St m k l s -> St m k (z_lastClient z) (set_lazy z s).
Proof. by intros []. Qed.

Lemma say_loop_triple n retry readPref lastOp toSend : wf_obj (tags readPref) ->
  triple Inv (say_loop authPooled n retry readPref lastOp toSend) (fun _ => lazy_ready) Inv.
Proof.
  intros Hwf. revert retry. induction n as [|n IH]; intros retry; cbn [say_loop].
  { eapply triple_conseq; [apply (triple_bind _ _ _ (fun _ => Inv) (fun _ => lazy_ready)); [apply preserves_getMonitor|]|done|done|done].
    intros []. by apply triple_throw. }
  apply (triple_bind _ _ _ (fun _ => Inv)).
  { apply triple_upd. intros s (m & k & l & Hs). exists m, k, l. by destruct Hs. }
  intros []. apply (triple_bind _ _ _ (fun x => if bool_decide (x = Some true) then lazy_ready else Inv)).
  - apply (triple_catch _ _ _ _ _ _ Inv); [|done|].
    + apply with_node; [done|by apply triple_ret|]. intros m k l id Hid.
      apply (triple_bind _ _ _ (fun _ => St m k l)); [apply lazy_triple; [apply say_quiet|by right]|]. intros _.
      apply (triple_bind _ _ _ (fun _ => lazy_ready)); [|intros []; by apply triple_ret].
      apply triple_upd. intros s Hs. exists m, k, id. split; [by right|]. exact (set_lazy_St m k l (mkLazyState (Some id) lastOp true (z_retries (rc_lazy s))) s Hs).
    + intros e. apply (triple_bind _ _ _ (fun _ => Inv)); [apply preserves_invalidate|]. intros []. by apply triple_ret.
  - intros [[|]|]; [by apply triple_ret| |apply IH].
    apply (triple_bind _ _ _ (fun _ => Inv)); [apply preserves_getMonitor|]. intros []. by apply triple_throw.
Qed.
Lemma rs_say_triple toSend isRetry : readable toSend ->
  triple Inv (rs_say authPooled toSend isRetry) (fun _ => lazy_ready) Inv.
Proof.
  intros Hr. unfold rs_say. apply (triple_bind _ _ _ (fun _ => Inv)).
  { destruct isRetry; [by apply triple_ret|]. apply triple_upd. intros s (m & k & l & Hs). exists m, k, None. exact (set_lazy_St m k l LazyState_ctor s Hs). }
  intros []. apply (triple_bind _ _ _ (fun _ => Inv)); [apply triple_lift; [apply Hr|done|done]|]. intros lastOp.
  apply with_route; [done|intros q p Hp; by apply say_loop_triple|]. intros q. apply with_master. intros m k l id Hid.
  apply (triple_bind _ _ _ (fun _ => St m k (Some id))); [apply triple_upd; intros s Hs; exact (set_lazy_St m k l (mkLazyState (Some id) lastOp false (Z.of_nat MAX_RETRY)) s Hs)|]. intros [].
  apply (triple_bind _ _ _ (fun _ => St m k (Some id))); [apply lazy_triple; [apply say_quiet|by left]|]. intros _.
  apply triple_ret. intros s Hs. exists m, k, id. auto.
Qed.
Lemma triple_ready {A} (mm : RS A) Q E :
  (forall m k id, m = Some id \/ k = Some id -> triple (St m k (Some id)) mm Q E) -> triple lazy_ready mm Q E.
Proof. intros Hm w s (m & k & id & Hid & Hs). by apply (Hm m k id Hid w s). Qed.
Lemma rs_recv_triple : triple lazy_ready rs_recv (fun _ => lazy_ready) Inv.
Proof.
  apply triple_ready. intros m k id Hid. unfold rs_recv. apply triple_read. intros s0 Hs0. rewrite (sx_lazy _ _ _ _ _ Hs0).
  assert (forall s, St m k (Some id) s -> lazy_ready s) as Hl by (intros s Hs; by exists m, k, id).
  apply (triple_catch _ _ _ _ _ _ (St m k (Some id))).
  - eapply triple_conseq; [apply (conn_call_quiet id _ m k (Some id)); [apply recv_quiet|done]|done|intros ?; apply Hl|done].
  - intros s. apply St_Inv.
  - intros e. apply triple_ret. apply Hl.
Qed.
Lemma rs_checkResponse_triple data n : triple lazy_ready (rs_checkResponse authPooled data n) (fun _ => Inv) Inv.
Proof.
  apply triple_ready. intros m k id Hid. unfold rs_checkResponse. apply triple_read. intros s0 Hs0. rewrite (sx_lazy _ _ _ _ _ Hs0).
  apply conn_of_triple; [intros s Hs; apply (sx_conns _ _ _ _ _ Hs); tauto|]. intros _.
  eapply (triple_conseq _ _ Inv _ (fun _ => Inv) _ Inv); [|intros s; apply St_Inv|done|done].
  match goal with |- triple _ ?mm _ _ => change (preserves mm) end.
  destruct (_ && _); [apply preserves_ret|]. cbv zeta.
  assert (forall d c, defined (response_code_is n d c)) as Hc.
  { intros d c. unfold response_code_is. cbv zeta. destruct (n =? -1); [done|]. destruct (_ && _); [|done]. apply defined_bind; [apply defined_elem_Int|done]. }
  destruct (negb _); [apply preserves_ret|]. destruct (z_secondaryQueryOk _); (apply preserves_bind; [apply preserves_lift, Hc|]); intros failed.
  - destruct (negb failed); [apply preserves_ret|]. apply preserves_bind.
    + destruct (bool_decide _); [apply preserves_invalidate|]. destruct (bool_decide _); [apply preserves_isntMaster|apply preserves_ret].
    + intros []. destruct (_ <? _); [|apply preserves_ret]. apply preserves_bind; [|intros; apply preserves_ret].
      apply triple_upd. intros s (m' & k' & l' & Hs). exists m', k', l'. by destruct Hs.
  - apply preserves_bind; [destruct (_ && _); [apply preserves_isntMaster|apply preserves_ret]|]. intros []. apply preserves_ret.
Qed.
Lemma lazy_exchange_preserves toSend isRetry : readable toSend -> preserves (lazy_exchange authPooled toSend isRetry).
Proof.
  intros Hr. unfold lazy_exchange. apply (triple_bind _ _ _ (fun _ => lazy_ready)); [by apply rs_say_triple|]. intros [].
  apply (triple_bind _ _ _ (fun _ => lazy_ready)); [apply rs_recv_triple|]. intros r. apply rs_checkResponse_triple.
Qed.

Lemma masterConn_preserves : preserves masterConn.
Proof.
  apply triple_Inv. intros m k l. unfold masterConn. eapply triple_bind; [apply checkMaster_triple|]. intros r. cbn beta.
  apply triple_exists. intros id. apply triple_exists. intros k'. apply triple_pure. intros _. apply triple_pure. intros ->.
  apply triple_ret. intros s. apply St_Inv.
Qed.
Lemma slaveConn_preserves : preserves (slaveConn authPooled).
Proof.
  unfold slaveConn. apply with_node; [apply wf_tagsMatchesAll|apply preserves_no_good_nodes|].
  intros m k l id _. apply triple_ret. intros s. apply St_Inv.
Qed.
Lemma rs_connect_preserves : preserves rs_connect.
Proof.
  apply preserves_bind; [apply preserves_getMonitor|]. intros []. apply preserves_bind; [|intros; apply preserves_ret].
  apply triple_world; [apply l_select|done|done].
Qed.
Lemma rs_isFailed_preserves : preserves rs_isFailed.
Proof.
  apply triple_Inv. intros m k l. unfold rs_isFailed. apply triple_read. intros s0 Hs0. rewrite (sx_master _ _ _ _ _ Hs0).
  destruct m as [id|]; [|apply triple_ret; intros s; apply St_Inv].
  apply conn_of_triple; [intros s Hs; apply (sx_conns _ _ _ _ _ Hs); auto|]. intros c. apply triple_ret. intros s. apply St_Inv.
Qed.
Lemma rs_reset_preserves : preserves (rs_reset authPooled).
Proof.
  apply preserves_bind; [apply preserves_resetSlaveOkConn|]. intros []. apply triple_upd.
  intros s (m & k & l & Hs). exists m, k, None. by destruct Hs.
Qed.
Lemma still_connected (p : option nat) (reset : RS unit) m k l Q :
  (p = None \/ p = m \/ p = k) -> triple (St m k l) reset Q Inv -> (forall s, St m k l s -> Q tt s) ->
  triple (St m k l) (match p with
   | Some id => c ← conn_of id; up ← rs_ask (w_isStillConnected (k_host c)); if (up : bool) then mret tt else reset
   | None => mret tt end) Q Inv.
Proof.
  intros Hp Hr HQ. destruct p as [id|]; [|by apply triple_ret].
  apply conn_of_triple; [intros s Hs; apply (sx_conns _ _ _ _ _ Hs); naive_solver|]. intros c.
  apply (triple_bind _ _ _ (fun _ => St m k l)); [by apply triple_ask|]. intros []; [by apply triple_ret|done].
Qed.
Lemma rs_isStillConnected_preserves : preserves (rs_isStillConnected authPooled).
Proof.
  apply triple_Inv. intros m k l. unfold rs_isStillConnected. apply triple_read. intros s0 Hs0.
  apply (triple_bind _ _ _ (fun _ => Inv)).
  - rewrite (sx_master _ _ _ _ _ Hs0). apply still_connected; [auto| |intros s; apply St_Inv].
    eapply triple_conseq; [apply (resetMaster_triple None m k l)|done|intros [] s; apply St_Inv|done].
  - intros []. apply triple_Inv. intros m1 k1 l1. apply triple_read. intros s1 Hs1.
    apply (triple_bind _ _ _ (fun _ => Inv)); [|intros []; apply preserves_ret].
    rewrite (sx_slave _ _ _ _ _ Hs1). apply still_connected; [auto| |intros s; apply St_Inv].
    eapply triple_conseq; [apply resetSlaveOkConn_triple|done|intros [] s; apply St_Inv|done].
Qed.
Lemma rs_logout_preserves dbname : logins_quiet W -> preserves (rs_logout dbname).
Proof.
  intros Hq. unfold rs_logout. apply with_master. intros m k l id Hid.
  assert (forall i, m = Some i \/ k = Some i ->
    triple (St m k l) (conn_call i (fun h => w_logout h dbname)) (fun _ => St m k l) (St m k l)) as Hout.
  { intros i Hi. apply conn_call_quiet; [|done]. intros h w. split; [apply l_logout|apply Hq]. }
  apply (triple_bind _ _ _ (fun _ => St m k l)); [apply lazy_triple; [intros h w; split; [apply l_logout|apply Hq]|by left]|]. intros [].
  apply (triple_bind _ _ _ (fun _ => St m k l)); [apply triple_upd; intros s []; by split; try by left|]. intros [].
  apply triple_read. intros s0 Hs0. rewrite (sx_slave _ _ _ _ _ Hs0).
  destruct k as [i|]; [|apply triple_ret; intros s; apply St_Inv].
  apply conn_of_triple; [intros s Hs; apply (sx_conns _ _ _ _ _ Hs); auto|]. intros c.
  destruct (k_failed c); [apply triple_ret; intros s; apply St_Inv|].
  apply (triple_catch _ _ _ _ _ _ (St m (Some i) l)).
  - eapply triple_conseq; [apply Hout; by right|done|intros [] s; apply St_Inv|done].
  - intros s. apply St_Inv.
  - intros e. apply triple_read. intros s1 Hs1. rewrite (sx_slave _ _ _ _ _ Hs1).
    intros w s Hs. refine (conn_of_triple i _ (St m (Some i) l) (fun _ => Inv) Inv _ _ w s Hs).
    + intros s' Hs'. apply (sx_conns _ _ _ _ _ Hs'). auto.
    + intros c'. apply triple_lift; [apply defined_verify|intros s' [] Hs' _; by eapply St_Inv|intros s'; apply St_Inv].
Qed.
Lemma auth_failed_preserves {A} st : preserves (auth_failed st : RS A).
Proof. destruct st; [apply preserves_throw|apply preserves_no_good_nodes]. Qed.
Lemma rs_auth_loop_preserves n params st : logins_quiet W -> preserves (rs_auth_loop authPooled n params st).
Proof.
  intros Hq. revert st. induction n as [|n IH]; intros st; cbn [rs_auth_loop]; [apply auth_failed_preserves|].
  apply preserves_bind.
  - apply preserves_catch.
    + apply with_node; [apply wf_tagsMatchesAll|apply preserves_ret|]. intros m k l id Hid.
      apply (triple_bind _ _ _ (fun _ => Inv)).
      { eapply triple_conseq; [apply lazy_triple; [intros h w; split; [apply l_auth|apply Hq]|by right]|done|intros [] s; apply St_Inv|done]. }
      intros []. apply preserves_bind; [apply triple_upd; intros s (m1 & k1 & l1 & Hs); exists m1, k1, l1; destruct Hs; by split; try by left|].
      intros []. apply triple_read. intros s1 _.
      apply preserves_bind; [case_bool_decide; [apply preserves_ret|apply preserves_resetSlaveOkConn]|]. intros [].
      apply triple_read. intros s2 _.
      apply preserves_bind; [case_bool_decide; [apply preserves_ret|apply preserves_resetMaster]|]. intros []. apply preserves_ret.
    + intros e. apply preserves_bind; [apply preserves_invalidate|]. intros []. apply preserves_ret.
  - intros [[code|]|]; [apply IH|apply preserves_ret|apply auth_failed_preserves].
Qed.
(** The destructor leaves no connection. *)
Lemma rs_destroy_triple E : triple Inv rs_destroy (fun _ s => rc_conns s = ∅) E.
Proof.
  apply triple_Inv. intros m k l. unfold rs_destroy. apply triple_read. intros s0 Hs0.
  rewrite (sx_slave _ _ _ _ _ Hs0), (sx_master _ _ _ _ _ Hs0).
  apply (triple_bind _ _ _ (fun _ s => exists k', (k' = None \/ k' <> m) /\ St m k' l s)).
  { case_bool_decide as Hkm; [|apply triple_ret; intros s Hs; exists k; auto].
    apply triple_upd. intros s [Ho Hf Hp Hn Hm Hk Hl Hau]. exists None. split; [by left|]. split; cbn; try done; [|by left].
    intros id. rewrite Ho, Hkm. naive_solver. }
  intros []. apply triple_exists. intros k'. apply triple_pure. intros Hk'. apply triple_read. intros s1 Hs1.
  rewrite (sx_slave _ _ _ _ _ Hs1), (sx_master _ _ _ _ _ Hs1).
  set (Master := fun s => forall id, is_Some (rc_conns s !! id) <-> m = Some id).
  apply (triple_bind _ _ _ (fun _ => Master)).
  { apply conn_delete_triple.
    - intros s i Hs Hi. apply (sx_conns _ _ _ _ _ Hs). auto.
    - intros s [Ho _ _ _ _ _ _ _]. intros id. destruct k' as [i|]; [|rewrite Ho; naive_solver].
      cbn. rewrite lookup_delete_is_Some, Ho. destruct Hk' as [|Hk']; [done|]. split; [naive_solver|]. intros ->. split; [congruence|auto]. }
  intros []. apply (triple_bind _ _ _ (fun _ => Master)); [by apply triple_upd|]. intros [].
  apply (triple_bind _ _ _ (fun _ s => rc_conns s = ∅)); [|intros []; by apply triple_upd].
  apply conn_delete_triple; [intros s i Hs Hi; by apply Hs|]. intros s Hs. apply map_eq. intros j.
  rewrite lookup_empty. apply eq_None_not_Some. destruct m as [i|]; cbn.
  - intros [? Hj%Hs]%lookup_delete_is_Some. congruence.
  - intros Hj%Hs. done.
Qed.

(** ** Whole sequences of calls *)

Inductive RSOp :=
  | OpQuery (ns : bytes) (query : BSONObj) (queryOptions : Z)
  | OpFindOne (ns : bytes) (query : BSONObj) (queryOptions : Z)
  | OpWrite | OpCall (toSend : Message) | OpLazy (toSend : Message) (isRetry : bool)
  | OpSayPiggyBack (toSend : Message) | OpCallRead (toSend : Message)
  | OpMasterConn | OpSlaveConn | OpConnect | OpIsFailed | OpReset | OpIsntMaster | OpIsStillConnected
  | OpAuth (params : BSONObj) | OpLogout (dbname : bytes) | OpKillCursor.
Definition run_op (o : RSOp) : RS unit :=
  match o with
  | OpQuery ns q opts => rs_query authPooled ns q opts;; mret tt
  | OpFindOne ns q opts => rs_findOne authPooled ns q opts;; mret tt
  | OpWrite => rs_write;; mret tt
  | OpCall m => rs_call authPooled m;; mret tt
  | OpLazy m isRetry => lazy_exchange authPooled m isRetry;; mret tt
  | OpSayPiggyBack m => rs_sayPiggyBack m;; mret tt
  | OpCallRead m => rs_callRead m;; mret tt
  | OpMasterConn => masterConn;; mret tt
  | OpSlaveConn => slaveConn authPooled;; mret tt
  | OpConnect => rs_connect;; mret tt
  | OpIsFailed => rs_isFailed;; mret tt
  | OpReset => rs_reset authPooled
  | OpIsntMaster => isntMaster
  | OpIsStillConnected => rs_isStillConnected authPooled;; mret tt
  | OpAuth params => rs_auth authPooled params
  | OpLogout db => rs_logout db
  | OpKillCursor => rs_killCursor
  end.
Definition op_ok (o : RSOp) : Prop :=
  match o with
  | OpQuery _ q _ | OpFindOne _ q _ => wf_obj q
  | OpCall m | OpLazy m _ => readable m
  | _ => True
  end.
Definition no_login (o : RSOp) : Prop := match o with OpAuth _ | OpLogout _ => False | _ => True end.
(** One call after the other: the caller sees what each throws and goes on. *)
Fixpoint run_ops (l : list RSOp) (s : W * DBClientReplicaSet) : (W * DBClientReplicaSet) * list (M unit) :=
  match l with
  | [] => (s, [])
  | o :: l => let '(s, r) := run_op o s in let '(s, rs) := run_ops l s in (s, r :: rs)
  end.

Lemma run_op_preserves o : op_ok o -> logins_quiet W \/ no_login o -> preserves (run_op o).
Proof.
  intros Ho Hlog. assert (forall {A} (mm : RS A), preserves mm -> preserves (mm;; mret tt)) as Hu.
  { intros A mm Hm. apply preserves_bind; [done|]. intros _. apply preserves_ret. }
  destruct o; cbn [run_op]; cbn in Ho; try apply Hu.
  - by apply rs_query_preserves.
  - by apply rs_findOne_preserves.
  - apply primary_op_preserves.
  - by apply rs_call_preserves.
  - by apply lazy_exchange_preserves.
  - apply primary_op_preserves.
  - apply primary_op_preserves.
  - apply masterConn_preserves.
  - apply slaveConn_preserves.
  - apply rs_connect_preserves.
  - apply rs_isFailed_preserves.
  - apply rs_reset_preserves.
  - apply preserves_isntMaster.
  - apply rs_isStillConnected_preserves.
  - destruct Hlog as [Hq|[]]. by apply rs_auth_loop_preserves.
  - destruct Hlog as [Hq|[]]. by apply rs_logout_preserves.
  - apply preserves_lift, defined_verify.
Qed.
Lemma run_ops_Inv l w s : Forall op_ok l -> logins_quiet W \/ Forall no_login l -> Inv s ->
  Inv (run_ops l (w, s)).1.2 /\ Forall defined (run_ops l (w, s)).2.
Proof.
  revert w s. induction l as [|o l IH]; intros w s Hl Hlog Hs; [done|]. apply Forall_cons in Hl as [Ho Hl]. cbn.
  rewrite Forall_cons in Hlog.
  pose proof (run_op_preserves o Ho ltac:(tauto) w s Hs) as Hr. destruct (run_op o (w, s)) as [[w1 s1] r].
  assert (Inv s1 /\ defined r) as [Hs1 Hd] by (destruct r; [done|destruct Hr; split; [done|unfold defined; congruence]]).
  specialize (IH w1 s1 Hl ltac:(tauto) Hs1). destruct (run_ops l (w1, s1)) as [[w2 s2] rs]. cbn in *. destruct IH; split; [done|by apply Forall_cons].
Qed.
Lemma Inv_ctor : Inv DBClientReplicaSet_ctor.
Proof.
  assert (forall id, ~ is_Some ((∅ : gmap nat Conn) !! id)) as He by (intros id; rewrite lookup_empty; by intros []).
  exists None, None, None. split; cbn; try done; [| |by left|by right]; intros id; specialize (He id); naive_solver.
Qed.
Lemma Inv_size s : Inv s -> (size (rc_conns s) <= 2)%nat.
Proof.
  intros (m & k & l & Hs). rewrite <-size_dom.
  assert (dom (rc_conns s) ⊆ (from_option singleton ∅ m : gset nat) ∪ from_option singleton ∅ k) as Hsub.
  { intros id Hid%elem_of_dom%(sx_conns _ _ _ _ _ Hs). destruct Hid as [->|[->|?]]; [set_solver..|done]. }
  apply subseteq_size in Hsub. etransitivity; [exact Hsub|]. rewrite size_union_alt.
  assert (forall p : option nat, (size (from_option singleton ∅ p : gset nat) <= 1)%nat) as H1.
  { intros [i|]; cbn; [by rewrite size_singleton|]. rewrite size_empty. lia. }
  pose proof (subseteq_size ((from_option singleton ∅ k : gset nat) ∖ from_option singleton ∅ m) (from_option singleton ∅ k) ltac:(set_solver)).
  pose proof (H1 m). pose proof (H1 k). lia.
Qed.

(** C11: the client of a replica set never uses a connection it has deleted, never
    deletes one twice, and leaks none.  After any sequence of calls from a fresh
    client, whatever the hosts and the monitor answer and whichever calls throw, no
    call was undefined, at most two connections are open, they are exactly those of
    the two pointers, and the destructor, which is defined too, leaves none.  What it
    takes: a client that logs in or out never meets there the answer that the host is not
    master, since the code does use the connection that this answer deletes
    ([auth_loses_master]), where one that does neither may meet it anywhere; a lazy call,
    its answer and the check of it follow each other without another call between, which
    could delete the connection ([lazy_client_dangles]); and a connection made comes with
    no error message. *)
Theorem client_owns_connections l w : Forall op_ok l -> logins_quiet W \/ Forall no_login l ->
  let '((w', s'), outcomes) := run_ops l (w, DBClientReplicaSet_ctor) in
  Forall defined outcomes /\
  (size (rc_conns s') <= 2)%nat /\
  (forall id, is_Some (rc_conns s' !! id) <-> rc_master s' = Some id \/ rc_lastSlaveOkConn s' = Some id) /\
  (let '((_, s''), r) := rs_destroy (w', s') in r = Ret tt /\ rc_conns s'' = ∅).
Proof.
  intros Hl Hlog. pose proof (run_ops_Inv l w DBClientReplicaSet_ctor Hl Hlog Inv_ctor) as [Hs Hd].
  destruct (run_ops l (w, DBClientReplicaSet_ctor)) as [[w' s'] rs]. cbn in Hs, Hd.
  split_and!; [done|by apply Inv_size| |].
  - intros id. destruct Hs as (m & k & l' & Hs). rewrite (sx_conns _ _ _ _ _ Hs), (sx_master _ _ _ _ _ Hs), (sx_slave _ _ _ _ _ Hs). naive_solver.
  - pose proof (rs_destroy_triple (fun _ => False) w' s' Hs) as Hx. destruct (rs_destroy (w', s')) as [[w2 s2] [[]|e]]; [done|by destruct Hx].
Qed.
End Safety.

(** ** Reading preferences of queries *)

Definition readPref_args (c : query_call) : option (ReadPreference * BSONObj) :=
  match c with QReadPref p tags => Some (p, tags) | _ => None end.
(** The preference that counts: that of the first call, or the default. *)
Definition effective (l : list query_call) (queryOptions : Z) : ReadPreferenceSetting :=
  match first_of readPref_args l with
  | Some (p, tags) => mkReadPreferenceSetting p (if empty_obj tags then tagsMatchesAll else tags)
  | None => mkReadPreferenceSetting
      (if Z.land queryOptions slaveOk =? 0 then ReadPreference_PrimaryOnly else ReadPreference_SecondaryPreferred) tagsMatchesAll
  end.
Definition tag_documents (l : list query_call) : Prop :=
  forall p tags, first_of readPref_args l = Some (p, tags) -> Forall (fun e : BSONElement => exists o, e.2 = VObject o) tags.
(** The primary does not go with a first tag document that asks for something. *)
Definition contradicts (r : ReadPreferenceSetting) : bool :=
  bool_decide (pref r = ReadPreference_PrimaryOnly) &&
  match tags r with (_, VObject o) :: _ => negb (empty_obj o) | _ => false end.
(** A command that reads: one of the list, or a map-reduce whose output comes back
    in the answer. *)
Definition command_reads (c : BSONObj) : bool :=
  bool_decide (first_name c ∈ secOkCmdList) ||
  (bool_decide (first_name c = B "mapReduce" \/ first_name c = B "mapreduce") &&
   match (getField c (B "out")).2 with VObject o | VArray o => trueValue (getField o (B "inline")) | _ => false end).

Lemma mode_of_name_name p : mode_of_name (mode_name p) = Some p.
Proof. by destruct p. Qed.
Lemma first_of_readPref l :
  first_of readPref_of l = (fun pt => readPref_doc pt.1 pt.2) <$> first_of readPref_args l.
Proof. unfold first_of. induction l as [|c l IH]; [done|]. by destruct c. Qed.
Lemma extract_doc p tgs :
  Forall (fun e : BSONElement => exists o, e.2 = VObject o) tgs ->
  let r := mkReadPreferenceSetting p (if empty_obj tgs then tagsMatchesAll else tgs) in
  (let prefDoc := readPref_doc p tgs in
   uassert 16382 (hasField prefDoc ReadPrefModeField);;
   mode ← String_checked (getField prefDoc ReadPrefModeField);
   match mode_of_name mode with
   | None => Throw (EUassert 16383)
   | Some pf =>
       if hasField prefDoc ReadPrefTagsField then
         match (getField prefDoc ReadPrefTagsField).2 with
         | VArray tags =>
             (if bool_decide (pf = ReadPreference_PrimaryOnly) && negb (empty_obj tags) then
                o ← Obj (default eooElement (head tags)); uassert 16384 (empty_obj o)
              else Ret tt);;
             Ret (mkReadPreferenceSetting pf tags)
         | _ => Throw (EUassert 16385)
         end
       else Ret (mkReadPreferenceSetting pf tagsMatchesAll)
   end) = (if contradicts r then Throw (EUassert 16384) else Ret r).
Proof.
  intros Ht r. cbv zeta.
  change (hasField (readPref_doc p tgs) ReadPrefModeField) with true.
  change (String_checked (getField (readPref_doc p tgs) ReadPrefModeField)) with (Ret (mode_name p) : M bytes).
  change (uassert 16382 true) with (Ret tt : M unit). rewrite !ret_bind, mode_of_name_name. unfold r.
  destruct (decide (tgs = [])) as [->|Etags].
  { change (hasField (readPref_doc p []) ReadPrefTagsField) with false. by destruct p. }
  assert (getField (readPref_doc p tgs) ReadPrefTagsField = (ReadPrefTagsField, VArray tgs)) as Htags.
  { unfold readPref_doc, empty_obj. by rewrite bool_decide_eq_false_2. }
  unfold hasField. rewrite Htags. change (negb (eoo (ReadPrefTagsField, VArray tgs))) with true. cbn [snd].
  unfold contradicts, empty_obj. rewrite (bool_decide_eq_false_2 (tgs = [])) by done. cbn [pref tags negb].
  destruct tgs as [|[n v] tgs]; [done|]. apply Forall_cons in Ht as [[o Ho] _]. cbn in Ho. subst v.
  rewrite andb_true_r. case_bool_decide; cbn [andb]; [|by rewrite ret_bind].
  unfold Obj. cbn [snd head default id]. rewrite ret_bind. by case_bool_decide.
Qed.
(** Where the preference is read from: the modifier of the first call that made
    one. *)
Lemma extract_built f l q opts : simple f -> getField f (B "$queryOptions") = eooElement -> tag_documents l ->
  run_query_calls l f = Ret q ->
  _extractReadPref q opts = (let r := effective l opts in if contradicts r then Throw (EUassert 16384) else Ret r).
Proof.
  intros Hf Hopt Htags Hrun. pose proof (run_calls_built l f [] Hf) as Hb. cbn [built] in Hb. rewrite Hrun in Hb.
  destruct Hb as [-> Hs]. cbn [app].
  assert (forall r : ReadPreferenceSetting, tags r = tagsMatchesAll -> contradicts r = false) as Hno.
  { intros [p t] E. cbn in E. subst t. unfold contradicts. cbn. by rewrite andb_false_r. }
  assert (eoo (getField (f ++ wheres l) (B "$queryOptions")) = true) as Ho.
  { clear -Hopt. assert (eoo (getField f (B "$queryOptions")) = true) as Hf by (by rewrite Hopt).
    clear Hopt. revert f Hf. induction l as [|c l IH]; intros f Hf; [by rewrite app_nil_r|].
    unfold wheres. cbn [fmap list_fmap concat]. fold (wheres l). rewrite app_assoc. apply IH.
    destruct c; cbn [where_of]; rewrite ?app_nil_r; try done. by apply getField_app_None. }
  set (g := f ++ wheres l) in *. unfold effective.
  pose proof (getField_modifiers ReadPrefField (fun d : BSONObj => (ReadPrefField, VObject d)) readPref_of l ltac:(by_calls)) as Hrp.
  rewrite first_of_readPref in Hrp.
  pose proof (getField_absent (B "$queryOptions") l ltac:(intros c; destruct c; cbn; by intros ? [= <-])) as Habs.
  destruct (first_of readPref_args l) as [[p tgs]|] eqn:Ep; cbn [fmap option_fmap option_map fst snd] in Hrp.
  - assert (modifiers l <> []) as Hl by (intros E; by rewrite E in Hrp).
    rewrite complex_built by done. set (q := (B "query", VObject g) :: modifiers l).
    assert (getField q ReadPrefField = (ReadPrefField, VObject (readPref_doc p tgs))) as Eg by (unfold q; by rewrite getField_complex).
    assert (hasField q ReadPrefField = true) as Eh by (unfold hasField; by rewrite Eg).
    assert (hasReadPreference q = true) as Er by (unfold hasReadPreference; by rewrite Eh).
    unfold _extractReadPref. rewrite Er, Eh, Eg, ret_bind.
    change (Obj (ReadPrefField, VObject (readPref_doc p tgs))) with (Ret (readPref_doc p tgs) : M BSONObj).
    change (uassert 16381 (isABSONObj (ReadPrefField, VObject (readPref_doc p tgs)))) with (Ret tt : M unit).
    rewrite !ret_bind. exact (extract_doc p tgs (Htags p tgs Ep)).
  - cbv zeta. rewrite Hno by done. unfold _extractReadPref.
    assert (hasReadPreference (built g (modifiers l)) = false) as ->; [|done].
    unfold hasReadPreference. destruct (decide (modifiers l = [])) as [->|Hl].
    + cbn [built]. rewrite simple_not_complex by done. cbn [andb orb]. destruct (getField g (B "$queryOptions")) as [n v]. by destruct v.
    + rewrite complex_built by done. unfold hasField. rewrite !getField_complex, Hrp, Habs by done. done.
Qed.
Lemma first_name_simple f l : simple f -> wf_obj f -> first_name (f ++ wheres l) <> B "query".
Proof.
  intros Hf Hwf. destruct f as [|[n v] f]; cbn [app first_name fst].
  - clear. induction l as [|c l IH]; [done|]. by destruct c.
  - intros ->. apply Forall_cons in Hwf as [[_ Hv] _]. unfold simple, isComplex, hasField in Hf.
    cbn [getField fst] in Hf. rewrite (proj2 (StringData_eq_spec _ _) eq_refl), eoo_false in Hf; done.
Qed.
Lemma isSecondary_built f l q ns r : simple f -> wf_obj f -> run_query_calls l f = Ret q ->
  _isSecondaryQuery ns q r =
  Ret (bool_decide (pref r <> ReadPreference_PrimaryOnly) && (negb (contains ns (B ".$cmd")) || command_reads (f ++ wheres l))).
Proof.
  intros Hf Hwf Hrun. pose proof (run_calls_built l f [] Hf) as Hb. cbn [built] in Hb. rewrite Hrun in Hb.
  destruct Hb as [-> Hs]. cbn [app]. pose proof (first_name_simple f l Hf Hwf) as Hq.
  set (g := f ++ wheres l) in *. unfold _isSecondaryQuery.
  destruct (decide (pref r = ReadPreference_PrimaryOnly)) as [E|E].
  { rewrite (bool_decide_eq_true_2 _ E), bool_decide_eq_false_2; [done|tauto]. }
  rewrite (bool_decide_eq_false_2 _ E), (bool_decide_eq_true_2 (_ <> _)) by done. cbn [andb].
  destruct (contains ns (B ".$cmd")); [|done]. cbn [negb orb].
  match goal with |- (?x ≫= _) = _ => assert (x = Ret g) as -> end.
  { destruct (modifiers l) as [|e mods]; [|done]. cbn [built]. by rewrite bool_decide_eq_false_2. }
  rewrite ret_bind. unfold command_reads. case_bool_decide; [done|]. cbn [orb].
  rewrite bool_decide_or.
  destruct (_ || _); [|done]. cbn [andb]. unfold hasField, isABSONObj, Obj.
  destruct (getField g (B "out")) as [n v]. by destruct v.
Qed.

(** C13: a read preference asked of a query is the one its call obeys.  Whatever
    calls build a query from a simple filter, the client extracts the preference and
    the tags of the first call that gave one, or else the default, which is the
    primary unless the option [SlaveOk] is set; the assertion 16384 rejects tags with
    the primary.  The query then goes to the node the preference selects, instead of
    to the primary, exactly when the preference is not the primary and the query is
    no command or one that only reads. *)
Theorem readPref_routes f l q ns queryOptions :
  simple f -> wf_obj f -> getField f (B "$queryOptions") = eooElement -> tag_documents l -> run_query_calls l f = Ret q ->
  let r := effective l queryOptions in
  if contradicts r then isSecondaryQuery ns q queryOptions = Throw (EUassert 16384)
  else
    _extractReadPref q queryOptions = Ret r /\
    isSecondaryQuery ns q queryOptions =
      Ret (bool_decide (pref r <> ReadPreference_PrimaryOnly) && (negb (contains ns (B ".$cmd")) || command_reads (f ++ wheres l))).
Proof.
  intros Hf Hwf Hopt Htags Hrun r. pose proof (extract_built f l q queryOptions Hf Hopt Htags Hrun) as He. cbv zeta in He. fold r in He.
  unfold isSecondaryQuery. rewrite He. destruct (contradicts r); [done|]. split; [done|]. rewrite ret_bind. by apply isSecondary_built.
Qed.
Lemma readPref_routes_witness :
  let f := [(B "count", VString (B "c"))] in
  let l := [QReadPref ReadPreference_SecondaryOnly [(B "0", VObject [(B "dc", VString (B "ny"))])]; QReadPref ReadPreference_PrimaryOnly []] in
  exists q, run_query_calls l f = Ret q /\ isSecondaryQuery (B "d.$cmd") q 0 = Ret true /\ isSecondaryQuery (B "d.c") q 0 = Ret true.
Proof.
  intros f l. eexists. split; [reflexivity|].
  assert (simple f) as Hf by reflexivity.
  assert (wf_obj f) as Hwf by (apply Forall_cons_2; [split; [by not_in|exact I]|apply Forall_nil_2]).
  assert (tag_documents l) as Ht.
  { intros p tags [= <- <-]. apply Forall_cons_2; [by eexists|apply Forall_nil_2]. }
  split.
  - exact (proj2 (readPref_routes f l _ (B "d.$cmd") 0 Hf Hwf eq_refl Ht eq_refl)).
  - exact (proj2 (readPref_routes f l _ (B "d.c") 0 Hf Hwf eq_refl Ht eq_refl)).
Defined.

(** ** A set of two hosts *)

Inductive ToyEvent := ToyOp (h : HostAndPort) | ToyFailed (h : HostAndPort).
Record ToyAnswers := mkToyAnswers {
  ta_auth_notMaster : bool;
  ta_op : HostAndPort -> Outcome Reply;
  ta_connected : bool }.
Definition toy_primary : HostAndPort := mkHostAndPort (B "p") 27017.
Definition toy_secondary : HostAndPort := mkHostAndPort (B "s") 27017.
Definition toy_world (a : ToyAnswers) : World (list ToyEvent) := {|
  w_hasMonitor w := (w, true);
  w_getMasterOrUassert w := (w, Ret toy_primary);
  w_failedHost h w := w ++ [ToyFailed h];
  w_isHostUp _ w := (w, true);
  w_isPrimary h w := (w, HostAndPort_eq h toy_primary);
  w_getHostOrRefresh p w :=
    (w, Ret match pref p with ReadPreference_PrimaryOnly | ReadPreference_PrimaryPreferred => toy_primary | _ => toy_secondary end);
  w_connect _ w := (w, Ret (true, []));
  w_reconnect _ w := (w, mkOutcome (Ret true) false false);
  w_auth _ _ w := (w, mkOutcome (Ret tt) false (ta_auth_notMaster a));
  w_logout _ _ w := (w, mkOutcome (Ret tt) false false);
  w_isStillConnected _ w := (w, ta_connected a);
  w_op h r w := (w ++ [ToyOp h], match r with RSay _ => mkOutcome (Ret no_response) false false | _ => ta_op a h end) |}.
Definition toy_reply (h : HostAndPort) : Outcome Reply := mkOutcome (Ret (mkReply true (Some []) 1 false)) false false.
(** Every host answers that it is not master. *)
Definition toy_notMaster (h : HostAndPort) : Outcome Reply := mkOutcome (Ret (mkReply true (Some [(B "$err", VString (B "not master"))]) 1 true)) false true.
Definition toy_silent (h : HostAndPort) : Outcome Reply := mkOutcome (Ret no_response) false false.
Definition toy_good : World (list ToyEvent) := toy_world (mkToyAnswers false toy_reply true).
(** The same, but a login is answered that the host is not master. *)
Definition toy_login_not_master : World (list ToyEvent) := toy_world (mkToyAnswers true toy_reply true).
Lemma toy_laws b : @WorldLaws (list ToyEvent) (toy_world (mkToyAnswers b toy_reply true)).
Proof. split; try done; [by intros h w errmsg [= <-]|by intros h [] w|by intros h [] w]. Qed.

Definition read_from (p : ReadPreference) : Query := query_readPref p [] [(B "a", VNumberInt 1)].
Definition toy_ops : list RSOp :=
  [OpQuery (B "d.c") (read_from ReadPreference_SecondaryOnly) 0; OpWrite; OpQuery (B "d.c") (read_from ReadPreference_Nearest) 0;
   OpFindOne (B "d.c") (read_from ReadPreference_PrimaryPreferred) 0; OpAuth [(B "db", VString (B "admin"))];
   OpWrite; OpIsntMaster; OpLogout (B "admin"); OpKillCursor].
Lemma read_from_wf p : wf_obj (read_from p).
Proof.
  apply Forall_cons_2; [split; [by not_in|]|apply Forall_cons_2; [split; [by not_in|]|apply Forall_nil_2]].
  - apply wf_VObject, Forall_cons_2; [split; [by not_in|by vm_compute]|apply Forall_nil_2].
  - apply wf_VObject, Forall_cons_2; [split; [by not_in|exact I]|apply Forall_nil_2].
Qed.
Lemma toy_ops_ok : Forall op_ok toy_ops.
Proof. repeat (apply Forall_cons_2; [try exact I; apply read_from_wf|]). apply Forall_nil_2. Qed.
Lemma toy_run :
  (@run_ops _ toy_good true toy_ops ([], DBClientReplicaSet_ctor)).1.1 =
  [ToyOp toy_secondary; ToyOp toy_primary; ToyOp toy_secondary; ToyOp toy_primary; ToyOp toy_primary; ToyFailed toy_primary].
Proof. vm_compute. reflexivity. Qed.
Lemma client_owns_connections_witness :
  Forall op_ok toy_ops /\
  (let '((w', s'), outcomes) := @run_ops _ toy_good true toy_ops ([], DBClientReplicaSet_ctor) in
   Forall defined outcomes /\ length outcomes = 9%nat) /\
  Forall defined (@run_ops _ toy_login_not_master true (take 4 toy_ops) ([], DBClientReplicaSet_ctor)).2.
Proof.
  split; [exact toy_ops_ok|]. split.
  - pose proof (@client_owns_connections _ toy_good (toy_laws false) true toy_ops [] toy_ops_ok (or_introl (conj (fun _ _ _ => eq_refl) (fun _ _ _ => eq_refl)))) as H.
    assert (length (@run_ops _ toy_good true toy_ops ([], DBClientReplicaSet_ctor)).2 = 9%nat) as Hn by (vm_compute; reflexivity).
    destruct (@run_ops _ toy_good true toy_ops ([], DBClientReplicaSet_ctor)) as [[w' s'] rs]. split; [apply H|exact Hn].
  - pose proof (@client_owns_connections _ toy_login_not_master (toy_laws true) true (take 4 toy_ops) []) as H.
    destruct (@run_ops _ toy_login_not_master true (take 4 toy_ops) ([], DBClientReplicaSet_ctor)) as [[w' s'] rs].
    apply H; [by apply Forall_take, toy_ops_ok|right; by repeat constructor].
Defined.

(** ** What the client does not do *)

(** The first node it selects is a primary: the host it remembers for that node is
    the empty one, since the pointers were equal, both null, when the primary's
    connection was made; when the node fails, the monitor hears of that host. *)
Lemma first_primary_clears_host :
  let '((w, s), r) := @selectNodeUsingTags _ toy_good true (mkReadPreferenceSetting ReadPreference_PrimaryPreferred tagsMatchesAll) ([], DBClientReplicaSet_ctor) in
  r = Ret (Some 0%nat) /\ rc_lastSlaveOkConn s = Some 0%nat /\ rc_lastSlaveOkHost s = HostAndPort_default /\
  (@invalidateLastSlaveOkCache _ toy_good true (w, s)).1.1 = [ToyFailed HostAndPort_default].
Proof. vm_compute. repeat split. Qed.
(** A primary that answers to a cached login that it is not master: its connection
    goes while it is in use. *)
Lemma auth_loses_master :
  (@rs_write _ (toy_world (mkToyAnswers true toy_reply true))
    ([], set_auths [(B "a", []); (B "b", [])] DBClientReplicaSet_ctor)).2 = Throw EUndefined.
Proof. vm_compute. reflexivity. Qed.
Lemma auth_returns_null_master :
  (@checkMaster _ (toy_world (mkToyAnswers true toy_reply true)) ([], set_auths [(B "a", [])] DBClientReplicaSet_ctor)).2 = Ret None.
Proof. vm_compute. reflexivity. Qed.
(** A secondary that answers that it is not master: the primary is reported, and its
    connection dropped. *)
Lemma secondary_blames_primary :
  let '((w, s), r) := @run_ops _ toy_good true [OpWrite; OpQuery (B "d.c") (read_from ReadPreference_SecondaryOnly) 0] ([], DBClientReplicaSet_ctor) in
  rc_masterHost s = toy_primary /\
  let '((w', s'), r') := @rs_query _ (toy_world (mkToyAnswers false toy_notMaster true)) true (B "d.c") (read_from ReadPreference_SecondaryOnly) 0 ([], s) in
  w' = [ToyOp toy_secondary; ToyFailed toy_primary] /\ rc_master s' = None.
Proof. vm_compute. repeat split. Qed.
(** A command under "$query", which [Query] takes for a query with modifiers as
    well, goes to the primary whatever the preference. *)
Lemma dollar_query_not_routed :
  let c (name : bytes) : BSONObj := [(name, VObject [(B "count", VString (B "c"))]); (ReadPrefField, VObject (readPref_doc ReadPreference_SecondaryOnly []))] in
  isSecondaryQuery (B "d.$cmd") (c (B "query")) 0 = Ret true /\ isSecondaryQuery (B "d.$cmd") (c (B "$query")) 0 = Ret false.
Proof. vm_compute. by split. Qed.
(** Each [say] starts to count again, so a lazy call to a node that stays silent is
    retried without end. *)
Definition toy_query : Message :=
  match assembleRequest (fun n => replicate (Z.to_nat n) "x"%char) (B "d.c") (encode_obj (read_from ReadPreference_SecondaryOnly))
          0 0 None 0 Message_ctor with
  | Ret m => m | Throw _ => Message_ctor
  end.
Lemma lazy_retries_without_end :
  let w := toy_world (mkToyAnswers false toy_silent true) in
  let go := fix go (n : nat) (isRetry : bool) s : bool * Z :=
    match n with
    | O => (true, z_retries (rc_lazy s.2))
    | S n => match @lazy_exchange _ w true toy_query isRetry s with (s, Ret true) => go n true s | _ => (false, 0) end
    end in
  go 20%nat false ([], DBClientReplicaSet_ctor) = (true, 1).
Proof. vm_compute. reflexivity. Qed.
(** The connection of a lazy call is used after a call that dropped it. *)
Lemma lazy_client_dangles :
  let w := toy_world (mkToyAnswers false toy_reply false) in
  let '(s, r) := @rs_say _ w true toy_query false ([], DBClientReplicaSet_ctor) in
  r = Ret tt /\
  let '(s, r) := @rs_isStillConnected _ w true s in
  r = Ret true /\ (@rs_recv _ w s).2 = Throw EUndefined.
Proof. vm_compute. repeat split. Qed.
