(* ===== verification/IndexSpec.v ===== *)
(** * The description of an index: client/index_spec.cpp

    An [IndexSpec] is the object, its two builders being the lists of what has been
    appended to them.  A member function that throws leaves the object as it was at
    that point, so each is a computation on the object. *)
From S2P Require Import Prelude StringData BsonTypes Bson BsonBuilder BsonObj Query.
Local Open Scope Z_scope.

(** ** The class *)

Inductive IndexType :=
  | kIndexTypeAscending | kIndexTypeDescending | kIndexTypeText | kIndexTypeGeo2D
  | kIndexTypeGeoHaystack | kIndexTypeGeo2DSphere | kIndexTypeHashed.

(** The value of a type: [kIndexTypeNumbers] and [kIndexTypeStrings]. *)
Definition index_value (type : IndexType) : bson_value :=
  match type with
  | kIndexTypeAscending => VNumberInt 1
  | kIndexTypeDescending => VNumberInt (-1)
  | kIndexTypeText => VString (B "text")
  | kIndexTypeGeo2D => VString (B "2d")
  | kIndexTypeGeoHaystack => VString (B "geoHaystack")
  | kIndexTypeGeo2DSphere => VString (B "2dsphere")
  | kIndexTypeHashed => VString (B "hashed")
  end.

Record IndexSpec := mkIndexSpec {
  is_name : bytes; is_dynamicName : bool; is_keys : BSONObj; is_options : BSONObj }.
Definition IndexSpec_ctor : IndexSpec := mkIndexSpec [] true [] [].
Definition set_is_name (n : bytes) (s : IndexSpec) : IndexSpec :=
  mkIndexSpec n (is_dynamicName s) (is_keys s) (is_options s).
Definition set_is_keys (o : BSONObj) (s : IndexSpec) : IndexSpec :=
  mkIndexSpec (is_name s) (is_dynamicName s) o (is_options s).
Definition set_is_options (o : BSONObj) (s : IndexSpec) : IndexSpec :=
  mkIndexSpec (is_name s) (is_dynamicName s) (is_keys s) o.

(** [BSONObjBuilder::append], of an element. *)
Definition builder_append (e : BSONElement) (o : BSONObj) : M BSONObj :=
  checkFieldName e.1;; verify (negb (eoo e));; Ret (o ++ [e]).

Definition _rename : ST IndexSpec unit :=
  s ← st_get;
  if is_dynamicName s then n ← st_lift (genIndexName (is_keys s)); st_update (set_is_name n) else mret tt.
Definition append_key (e : BSONElement) : ST IndexSpec unit :=
  s ← st_get;
  st_lift (uassert 0 (negb (hasField (is_keys s) e.1)));;
  o ← st_lift (builder_append e (is_keys s));
  st_update (set_is_keys o);;
  _rename.
Definition addKey (field : bytes) (type : IndexType) : ST IndexSpec unit := append_key (field, index_value type).
Definition addKey_element (fieldAndType : BSONElement) : ST IndexSpec unit := append_key fieldAndType.
Fixpoint addKeys_vector (keys : list (bytes * IndexType)) : ST IndexSpec unit :=
  match keys with [] => mret tt | (field, type) :: keys => addKey field type;; addKeys_vector keys end.
Fixpoint addKeys (keys : BSONObj) : ST IndexSpec unit :=
  match keys with [] => mret tt | e :: keys => addKey_element e;; addKeys keys end.

Definition append_option (e : BSONElement) : ST IndexSpec unit :=
  s ← st_get;
  st_lift (uassert 0 (negb (hasField (is_options s) e.1)));;
  o ← st_lift (builder_append e (is_options s));
  st_update (set_is_options o).
Definition bool_value (b : bool) : bson_value := VBool (chr (if b then 1 else 0)).
Definition index_background (value : bool) := append_option (B "background", bool_value value).
Definition index_unique (value : bool) := append_option (B "unique", bool_value value).
Definition dropDuplicatesDeprecated (value : bool) := append_option (B "dropDups", bool_value value).
Definition dropDuplicates (value : bool) := dropDuplicatesDeprecated value.
Definition index_sparse (value : bool) := append_option (B "sparse", bool_value value).
Definition expireAfterSeconds (value : Z) := append_option (B "expireAfterSeconds", VNumberInt value).
Definition index_version (value : Z) := append_option (B "v", VNumberInt value).
Definition textWeights (value : BSONObj) := append_option (B "weights", VObject value).
Definition textDefaultLanguage (value : bytes) := append_option (B "default_language", VString value).
Definition textLanguageOverride (value : bytes) := append_option (B "language_override", VString value).
Definition textIndexVersion (value : Z) := append_option (B "textIndexVersion", VNumberInt value).
Definition geo2DSphereIndexVersion (value : Z) := append_option (B "2dsphereIndexVersion", VNumberInt value).
Definition geo2DBits (value : Z) := append_option (B "bits", VNumberInt value).
Definition geo2DMin (bits : Z) := append_option (B "min", VNumberDouble bits).
Definition geo2DMax (bits : Z) := append_option (B "max", VNumberDouble bits).
Definition geoHaystackBucketSize (bits : Z) := append_option (B "bucketSize", VNumberDouble bits).
Definition addOption (option : BSONElement) := append_option option.
Fixpoint addOptions (options : BSONObj) : ST IndexSpec unit :=
  match options with [] => mret tt | e :: options => addOption e;; addOptions options end.

Definition index_set_name (value : bytes) : ST IndexSpec unit :=
  st_update (fun s => mkIndexSpec value false (is_keys s) (is_options s)).
Definition index_name (s : IndexSpec) : bytes := is_name s.
Definition IndexSpec_toBSON (s : IndexSpec) : BSONObj :=
  [(B "name", VString (index_name s)); (B "key", VObject (is_keys s))] ++ is_options s.

(** ** What a sequence of calls makes *)

Inductive index_call :=
  | CKey (field : bytes) (type : IndexType) | CKeyElement (e : BSONElement)
  | CKeyVector (keys : list (bytes * IndexType)) | CKeys (keys : BSONObj)
  | CBackground (b : bool) | CUnique (b : bool) | CDropDuplicates (b : bool) | CSparse (b : bool)
  | CExpire (n : Z) | CVersion (n : Z) | CWeights (o : BSONObj) | CDefaultLanguage (s : bytes)
  | CLanguageOverride (s : bytes) | CTextVersion (n : Z) | CSphereVersion (n : Z) | CBits (n : Z)
  | CMin (bits : Z) | CMax (bits : Z) | CBucketSize (bits : Z)
  | COption (e : BSONElement) | COptions (o : BSONObj) | CName (n : bytes).
Definition run_index_call (c : index_call) : ST IndexSpec unit :=
  match c with
  | CKey f t => addKey f t | CKeyElement e => addKey_element e
  | CKeyVector l => addKeys_vector l | CKeys o => addKeys o
  | CBackground b => index_background b | CUnique b => index_unique b
  | CDropDuplicates b => dropDuplicates b | CSparse b => index_sparse b
  | CExpire n => expireAfterSeconds n | CVersion n => index_version n
  | CWeights o => textWeights o | CDefaultLanguage s => textDefaultLanguage s
  | CLanguageOverride s => textLanguageOverride s | CTextVersion n => textIndexVersion n
  | CSphereVersion n => geo2DSphereIndexVersion n | CBits n => geo2DBits n
  | CMin d => geo2DMin d | CMax d => geo2DMax d | CBucketSize d => geoHaystackBucketSize d
  | COption e => addOption e | COptions o => addOptions o | CName n => index_set_name n
  end.
Fixpoint run_index_calls (l : list index_call) : ST IndexSpec unit :=
  match l with [] => mret tt | c :: l => run_index_call c;; run_index_calls l end.

(** Every call is a sequence of steps of three kinds. *)
Inductive index_step := SKey (e : BSONElement) | SOption (e : BSONElement) | SName (n : bytes).
Definition run_index_step (a : index_step) : ST IndexSpec unit :=
  match a with SKey e => append_key e | SOption e => append_option e | SName n => index_set_name n end.
Fixpoint run_index_steps (l : list index_step) : ST IndexSpec unit :=
  match l with [] => mret tt | a :: l => run_index_step a;; run_index_steps l end.
Definition steps_of (c : index_call) : list index_step :=
  match c with
  | CKey f t => [SKey (f, index_value t)] | CKeyElement e => [SKey e]
  | CKeyVector l => (fun '(f, t) => SKey (f, index_value t)) <$> l | CKeys o => SKey <$> o
  | CBackground b => [SOption (B "background", bool_value b)] | CUnique b => [SOption (B "unique", bool_value b)]
  | CDropDuplicates b => [SOption (B "dropDups", bool_value b)] | CSparse b => [SOption (B "sparse", bool_value b)]
  | CExpire n => [SOption (B "expireAfterSeconds", VNumberInt n)] | CVersion n => [SOption (B "v", VNumberInt n)]
  | CWeights o => [SOption (B "weights", VObject o)]
  | CDefaultLanguage s => [SOption (B "default_language", VString s)]
  | CLanguageOverride s => [SOption (B "language_override", VString s)]
  | CTextVersion n => [SOption (B "textIndexVersion", VNumberInt n)]
  | CSphereVersion n => [SOption (B "2dsphereIndexVersion", VNumberInt n)]
  | CBits n => [SOption (B "bits", VNumberInt n)] | CMin d => [SOption (B "min", VNumberDouble d)]
  | CMax d => [SOption (B "max", VNumberDouble d)] | CBucketSize d => [SOption (B "bucketSize", VNumberDouble d)]
  | COption e => [SOption e] | COptions o => SOption <$> o | CName n => [SName n]
  end.
Definition step_key (a : index_step) : option BSONElement := match a with SKey e => Some e | _ => None end.
Definition step_option (a : index_step) : option BSONElement := match a with SOption e => Some e | _ => None end.
Definition step_name (a : index_step) : option bytes := match a with SName n => Some n | _ => None end.
Definition all_steps (l : list index_call) : list index_step := concat (steps_of <$> l).

(** What the calls ask for: the keys, the options, and the last name. *)
Definition keys_of (l : list index_call) : BSONObj := omap step_key (all_steps l).
Definition options_of (l : list index_call) : BSONObj := omap step_option (all_steps l).
Definition name_of (l : list index_call) : option bytes := last (omap step_name (all_steps l)).

(** An element a builder accepts, and a key whose direction can be read. *)
Definition appendable (e : BSONElement) : Prop := nul ∉ e.1 /\ eoo e = false.
Definition named_key (e : BSONElement) : Prop := appendable e /\ is_Ret (index_part e).

Lemma st_assoc {S A C D} (m : ST S A) (f : A -> ST S C) (g : C -> ST S D) s :
  ((m ≫= f) ≫= g) s = (m ≫= (fun a => f a ≫= g)) s.
Proof. unfold mbind, ST_bind. destruct (m s) as [s1 [a|e]]; reflexivity. Qed.
Lemma run_steps_app l l' s : run_index_steps (l ++ l') s = (run_index_steps l;; run_index_steps l') s.
Proof.
  revert s. induction l as [|a l IH]; intros s; [done|]. cbn [app run_index_steps]. rewrite st_assoc.
  unfold mbind, ST_bind. destruct (run_index_step a s) as [s1 [[]|e]]; [apply IH|done].
Qed.
Lemma run_steps_one a s : run_index_steps [a] s = run_index_step a s.
Proof. cbn. unfold mbind, ST_bind. by destruct (run_index_step a s) as [s1 [[]|e]]. Qed.
Lemma run_call_steps c s : run_index_call c s = run_index_steps (steps_of c) s.
Proof.
  destruct c; cbn [steps_of run_index_call]; try (by rewrite run_steps_one).
  - revert s. induction keys as [|[f t] keys IH]; intros s; [done|]. cbn. unfold mbind, ST_bind, addKey.
    destruct (append_key _ s) as [s1 [[]|e]]; [apply IH|done].
  - revert s. induction keys as [|e keys IH]; intros s; [done|]. cbn. unfold mbind, ST_bind, addKey_element.
    destruct (append_key _ s) as [s1 [[]|x]]; [apply IH|done].
  - revert s. induction o as [|e o IH]; intros s; [done|]. cbn. unfold mbind, ST_bind, addOption.
    destruct (append_option _ s) as [s1 [[]|x]]; [apply IH|done].
Qed.
Lemma run_calls_steps l s : run_index_calls l s = run_index_steps (all_steps l) s.
Proof.
  revert s. induction l as [|c l IH]; intros s; [done|]. unfold all_steps. cbn [fmap list_fmap concat run_index_calls].
  rewrite run_steps_app. unfold mbind, ST_bind. rewrite run_call_steps.
  destruct (run_index_steps (steps_of c) s) as [s1 [[]|e]]; [apply IH|done].
Qed.

Lemma genIndexName_loop_Ret first keys : Forall (fun e => is_Ret (index_part e)) keys ->
  is_Ret (genIndexName_loop first keys).
Proof.
  intros H. revert first. induction H as [|e keys [p Hp] _ IH]; intros first; cbn; [by eexists|].
  rewrite Hp, ret_bind. destruct (IH false) as [r ->]. by eexists.
Qed.
Lemma hasField_names o name : Forall appendable o -> hasField o name = bool_decide (name ∈ o.*1).
Proof.
  intros Ho. unfold hasField. induction Ho as [|[n v] o [_ He] _ IH]; [done|]. cbn [getField fst fmap list_fmap].
  destruct (StringData_eq name n) eqn:E.
  - apply StringData_eq_spec in E as ->. rewrite He. cbn. by rewrite bool_decide_eq_true_2 by left.
  - rewrite IH. apply bool_decide_ext. rewrite elem_of_cons. split; [by right|].
    intros [->|H]; [|done]. by rewrite (proj2 (StringData_eq_spec n n) eq_refl) in E.
Qed.
Lemma builder_append_ok e o : appendable e -> builder_append e o = Ret (o ++ [e]).
Proof. intros [Hn He]. unfold builder_append. by rewrite checkFieldName_ok, He by done. Qed.

(** The state before a step: its fields are those a builder accepts, and the name is
    generated from the keys unless one was given. *)
Record index_ok (s : IndexSpec) : Prop := mkIndexOk {
  ok_keys : Forall named_key (is_keys s);
  ok_options : Forall appendable (is_options s);
  ok_generated : is_dynamicName s = true -> genIndexName (is_keys s) = Ret (is_name s) }.

Definition with_key (e : BSONElement) (n : bytes) (s : IndexSpec) : IndexSpec :=
  mkIndexSpec (if is_dynamicName s then n else is_name s) (is_dynamicName s) (is_keys s ++ [e]) (is_options s).
Lemma append_key_run e s : index_ok s -> named_key e ->
  if decide (e.1 ∈ (is_keys s).*1) then append_key e s = (s, Throw (EUassert 0))
  else exists n, append_key e s = (with_key e n s, Ret tt) /\ index_ok (with_key e n s).
Proof.
  intros [Hk Ho Hn] He. assert (Forall named_key (is_keys s ++ [e])) as Hk'
    by (apply Forall_app; split; [done|by constructor]).
  destruct (genIndexName_loop_Ret true (is_keys s ++ [e])) as [n Hg].
  { eapply Forall_impl; [exact Hk'|]. by intros x []. }
  unfold append_key, mbind, ST_bind, st_get, st_lift, st_update, uassert.
  rewrite hasField_names by (eapply Forall_impl; [exact Hk|]; by intros x []).
  case_decide as Hd.
  - by rewrite bool_decide_eq_true_2 by done.
  - rewrite bool_decide_eq_false_2 by done. cbn [negb guard_throw].
    rewrite builder_append_ok by apply He. exists n. unfold _rename, mbind, ST_bind, st_get, st_lift, st_update.
    cbn [is_dynamicName set_is_keys is_keys]. unfold genIndexName. split.
    + unfold with_key, set_is_keys. destruct (is_dynamicName s) eqn:Ed; cbn; [by rewrite Hg|done].
    + unfold with_key. split; cbn; [done|done|]. by intros ->.
Qed.
Lemma append_option_run e s : index_ok s -> appendable e ->
  if decide (e.1 ∈ (is_options s).*1) then append_option e s = (s, Throw (EUassert 0))
  else append_option e s = (set_is_options (is_options s ++ [e]) s, Ret tt) /\
       index_ok (set_is_options (is_options s ++ [e]) s).
Proof.
  intros [Hk Ho Hn] He. unfold append_option, mbind, ST_bind, st_get, st_lift, st_update, uassert.
  rewrite hasField_names by done. case_decide as Hd.
  - by rewrite bool_decide_eq_true_2 by done.
  - rewrite bool_decide_eq_false_2 by done. cbn [negb guard_throw].
    rewrite builder_append_ok by done. split; [done|]. split; cbn; [done| |done].
    apply Forall_app; split; [done|by constructor].
Qed.

Definition step_fine (a : index_step) : Prop :=
  match a with SKey e => named_key e | SOption e => appendable e | SName _ => True end.
Definition final_name (s : IndexSpec) (names : list bytes) (keys : BSONObj) (n : bytes) : Prop :=
  match last names with
  | Some m => n = m
  | None => if is_dynamicName s then genIndexName keys = Ret n else n = is_name s
  end.
Definition no_duplicates (s : IndexSpec) (l : list index_step) : Prop :=
  NoDup (is_keys s ++ omap step_key l).*1 /\ NoDup (is_options s ++ omap step_option l).*1.
Lemma NoDup_names_snoc (o : BSONObj) e : NoDup o.*1 -> e.1 ∉ o.*1 -> NoDup (o ++ [e]).*1.
Proof.
  intros Ho He. rewrite fmap_app. apply NoDup_app. split; [done|]. split; [|apply NoDup_singleton].
  intros x Hx Hin. apply list_elem_of_singleton in Hin as ->. done.
Qed.
Lemma last_cons_ne {A} (x : A) l : last (x :: l) = Some (default x (last l)).
Proof. rewrite last_cons. by destruct (last l). Qed.

Lemma run_steps_spec l s : index_ok s -> NoDup (is_keys s).*1 -> NoDup (is_options s).*1 -> Forall step_fine l ->
  match run_index_steps l s with
  | (s', Ret tt) => no_duplicates s l /\ is_keys s' = is_keys s ++ omap step_key l /\
      is_options s' = is_options s ++ omap step_option l /\
      final_name s (omap step_name l) (is_keys s') (is_name s')
  | (_, Throw e) => ~ no_duplicates s l /\ e = EUassert 0
  end.
Proof.
  intros Hok Hnk Hno Hl. revert s Hok Hnk Hno. induction Hl as [|a l Ha Hl IH]; intros s Hok Hnk Hno.
  { cbn. unfold no_duplicates, final_name. rewrite !app_nil_r. split_and!; try done.
    cbn. destruct (is_dynamicName s) eqn:E; [by apply Hok|done]. }
  cbn [run_index_steps]. unfold mbind, ST_bind, no_duplicates, final_name.
  destruct a as [e|e|n]; cbn [omap list_omap step_key step_option step_name run_index_step] in *.
  - pose proof (append_key_run e s Hok Ha) as H. case_decide as Hd.
    + rewrite H. split; [|done]. intros [H1 _]. rewrite fmap_app in H1. cbn in H1.
      apply NoDup_app in H1 as (_ & H1 & _). apply (H1 _ Hd). by left.
    + destruct H as (n & -> & Hok'). specialize (IH _ Hok').
      unfold no_duplicates, final_name, with_key in *. cbn [is_keys is_options is_dynamicName is_name] in *.
      rewrite <-!app_assoc in IH. cbn [app] in IH. specialize (IH (NoDup_names_snoc _ _ Hnk Hd) Hno).
      destruct (run_index_steps l _) as [s' [[]|x]]; [|exact IH].
      destruct IH as (H1 & H2 & H3 & H4). split; [done|]. split_and!; [done..|]. by destruct (last _), (is_dynamicName s).
  - pose proof (append_option_run e s Hok Ha) as H. case_decide as Hd.
    + rewrite H. split; [|done]. intros [_ H1]. rewrite fmap_app in H1. cbn in H1.
      apply NoDup_app in H1 as (_ & H1 & _). apply (H1 _ Hd). by left.
    + destruct H as (-> & Hok'). specialize (IH _ Hok').
      unfold no_duplicates, final_name, set_is_options in *. cbn [is_keys is_options is_dynamicName is_name] in *.
      rewrite <-!app_assoc in IH. cbn [app] in IH. specialize (IH Hnk (NoDup_names_snoc _ _ Hno Hd)).
      by destruct (run_index_steps l _) as [s' [[]|x]].
  - unfold index_set_name, st_update. specialize (IH (mkIndexSpec n false (is_keys s) (is_options s))).
    unfold no_duplicates, final_name in *. cbn [is_keys is_options is_dynamicName is_name] in *.
    destruct Hok as [H1 H2 H3]. specialize (IH ltac:(by split) Hnk Hno).
    destruct (run_index_steps l _) as [s' [[]|x]]; [|exact IH].
    destruct IH as (H4 & H5 & H6 & H7). split; [done|]. split_and!; [done..|]. rewrite last_cons_ne.
    by destruct (last (omap step_name l)).
Qed.
Lemma steps_fine_of l : Forall named_key (omap step_key l) -> Forall appendable (omap step_option l) ->
  Forall step_fine l.
Proof.
  induction l as [|a l IH]; intros Hk Ho; [constructor|].
  destruct a; cbn in *; [apply Forall_cons in Hk as [? Hk]|apply Forall_cons in Ho as [? Ho]|];
    (constructor; [done|by apply IH]).
Qed.

(** An index description is made of what its calls asked for, or they fail.  For
    keys and options that a builder accepts: if no key and no option is asked for
    twice, the calls return, and the document has the name, which is the last one
    given or else is generated from all the keys, then the keys and the options, each
    in the order of the calls.  If one is asked for twice, in whatever way it is
    written, the calls end with the error of the second. *)
Theorem IndexSpec_spec l : Forall named_key (keys_of l) -> Forall appendable (options_of l) ->
  match run_index_calls l IndexSpec_ctor with
  | (s, Ret tt) => NoDup (keys_of l).*1 /\ NoDup (options_of l).*1 /\
      exists n, match name_of l with Some m => n = m | None => genIndexName (keys_of l) = Ret n end /\
        IndexSpec_toBSON s = [(B "name", VString n); (B "key", VObject (keys_of l))] ++ options_of l
  | (_, Throw e) => ~ (NoDup (keys_of l).*1 /\ NoDup (options_of l).*1) /\ e = EUassert 0
  end.
Proof.
  intros Hk Ho. rewrite run_calls_steps.
  pose proof (run_steps_spec (all_steps l) IndexSpec_ctor) as H.
  specialize (H ltac:(by split; cbn) (NoDup_nil_2) (NoDup_nil_2) (steps_fine_of _ Hk Ho)).
  destruct (run_index_steps _ _) as [s [[]|e]]; [|exact H]. destruct H as ((H1 & H2) & H3 & H4 & H5).
  split_and!; [done|done|]. exists (is_name s). unfold final_name in H5. cbn in *. split.
  - unfold name_of, keys_of. rewrite H3 in H5. by destruct (last _).
  - unfold IndexSpec_toBSON. by rewrite H3, H4.
Qed.
Lemma IndexSpec_spec_witness :
  let l := [CKey (B "a") kIndexTypeAscending; CUnique true; CKeys [(B "b", VString (B "2d"))]] in
  Forall named_key (keys_of l) /\ Forall appendable (options_of l) /\
  match run_index_calls l IndexSpec_ctor with
  | (s, Ret tt) => IndexSpec_toBSON s = [(B "name", VString (B "a_1_b_2d"));
      (B "key", VObject [(B "a", VNumberInt 1); (B "b", VString (B "2d"))]); (B "unique", true_value)]
  | _ => False
  end.
Proof.
  intros l.
  assert (Forall named_key (keys_of l)) as Hk.
  { repeat constructor; try by not_in; by eexists. }
  assert (Forall appendable (options_of l)) as Ho by (repeat constructor; not_in).
  split; [done|]. split; [done|]. pose proof (IndexSpec_spec l Hk Ho) as H.
  destruct (run_index_calls l IndexSpec_ctor) as [s [[]|e]] eqn:E; [|by vm_compute in E].
  destruct H as (_ & _ & n & Hn & ->). vm_compute in Hn. injection Hn as <-. reflexivity.
Defined.

(** An option may have the name of a field of the document itself: the index then has
    two names. *)
Lemma option_named_name :
  let '(s, r) := run_index_calls [CKey (B "a") kIndexTypeText; COption (B "name", VString (B "x"))] IndexSpec_ctor in
  (r, IndexSpec_toBSON s) = (Ret tt, [(B "name", VString (B "a_text")); (B "key", VObject [(B "a", VString (B "text"))]);
    (B "name", VString (B "x"))]).
Proof. vm_compute. reflexivity. Qed.
