(* ===== verification/Commands.v ===== *)
(** * The helpers that run commands: client/dbclient.cpp, client/dbclientinterface.h

    Each helper is a computation on the client, which the class [DBOps] gives by its
    virtual functions.  The output parameter [info] is part of the result. *)
From S2P Require Import Prelude StringData BsonTypes Bson BsonCompare BsonBuilder BsonObj Namespace HostSet RSState WriteResult Message MessagePort Cursor Query IndexSpec.
Local Open Scope Z_scope.

(** The functions of a client that the helpers call: [runCommand] with its options,
    [insert], [update] with its two flags, [remove] of all that matches, and
    [findOne]. *)
Class DBOps (C : Type) := {
  run_command : bytes -> BSONObj -> Z -> SE C (bool * BSONObj);
  db_insert : bytes -> BSONObj -> SE C unit;
  db_update : bytes -> BSONObj -> BSONObj -> bool -> bool -> SE C unit;
  db_remove : bytes -> BSONObj -> SE C unit;
  db_findOne : bytes -> BSONObj -> Z -> SE C BSONObj }.

(** [valuestr]: the text of a string.  In an element of another type it is whatever
    comes after the fourth byte of the value. *)
Definition valuestr (e : BSONElement) : M bytes :=
  match e.2 with VString s | VCode s | VSymbol s => Ret (c_string s) | _ => Throw EUndefined end.
Definition valuestrsafe (e : BSONElement) : bytes := match e.2 with VString s => c_string s | _ => [] end.

Definition CommandNotFound : Z := 59.

Section Commands.
Context {C : Type} `{DBOps C}.

Definition throw_operation {A} (result : BSONObj) : SE C A := fun s => (s, Throw (OperationException result)).
(** A command that must work: its reply. *)
Definition checked_command (db : bytes) (cmd : BSONObj) : SE C BSONObj :=
  '(ok, result) ← run_command db cmd 0;
  if (ok : bool) then mret result else throw_operation result.
(** A command that is [{name: 1}]. *)
Definition simple_command (db name : bytes) : SE C (bool * BSONObj) := run_command db [(name, VNumberInt 1)] 0.

Definition getPrevError : SE C BSONObj :=
  '(_, info) ← run_command (B "admin") [(B "getpreverror", VNumberInt 1)] 0; mret info.
Definition resetError : SE C bool := '(ok, _) ← simple_command (B "admin") (B "reseterror"); mret ok.
Definition logout (dbname : bytes) : SE C BSONObj :=
  '(_, info) ← run_command dbname [(B "logout", VNumberInt 1)] 0; mret info.
(** Whether the command worked, whether the server is the master, and the reply. *)
Definition isMaster : SE C (bool * bool * BSONObj) :=
  '(ok, info) ← run_command (B "admin") [(B "ismaster", VNumberInt 1)] 0;
  mret (ok, trueValue (getField info (B "ismaster")), info).

(** ** Databases and collections *)

(** The name of the collection is read behind the database and one more character:
    past the end when the namespace has no dot. *)
Definition after_database (ns db : bytes) : M bytes :=
  if zlen db + 1 <=? zlen ns then Ret (c_string (drop (length db + 1) ns)) else Throw EUndefined.
Definition createCollectionWithOptions (ns : bytes) (size : Z) (capped : bool) (max : Z) (extra : BSONObj)
    : SE C (bool * BSONObj) :=
  lift (verify (negb capped || negb (size =? 0)));;
  db ← lift (nsToDatabase ns);
  coll ← lift (after_database ns db);
  run_command (c_string db) ([(B "create", VString coll)]
    ++ (if size =? 0 then [] else [(B "size", VNumberLong size)])
    ++ (if capped then [(B "capped", true_value)] else [])
    ++ (if max =? 0 then [] else [(B "max", VNumberInt max)])
    ++ extra) 0.
Definition createCollection (ns : bytes) (size : Z) (capped : bool) (max : Z) : SE C (bool * BSONObj) :=
  createCollectionWithOptions ns size capped max [].
Definition dropCollection (ns : bytes) : SE C (bool * BSONObj) :=
  let coll := nsGetCollection ns in
  lift (uassert 10011 (negb (zlen coll =? 0)));;
  run_command (c_string (nsGetDB ns)) [(B "drop", VString coll)] 0.
Definition dropDatabase (dbname : bytes) : SE C (bool * BSONObj) := simple_command dbname (B "dropDatabase").
Definition repairDatabase (dbname : bytes) : SE C (bool * BSONObj) := simple_command dbname (B "repairDatabase").
Definition validate (ns : bytes) (scandata : bool) : SE C bool :=
  '(ok, _) ← run_command (c_string (nsGetDB ns))
    [(B "validate", VString (nsGetCollection ns)); (B "scandata", bool_value scandata)] 0; mret ok.

Inductive ProfilingLevel := ProfileOff | ProfileSlow | ProfileAll.
Definition level_value (l : ProfilingLevel) : Z := match l with ProfileOff => 0 | ProfileSlow => 1 | ProfileAll => 2 end.
Definition setDbProfilingLevel (dbname : bytes) (level : ProfilingLevel) : SE C (bool * BSONObj) :=
  (if level_value level =? 0 then mret tt
   else createCollection (c_string (dbname ++ B ".system.profile")) (1024 * 1024) true 0;; mret tt);;
  run_command dbname [(B "profile", VNumberInt (level_value level))] 0.
(** The level is what the reply says, a value of the enumeration or not. *)
Definition getDbProfilingLevel (dbname : bytes) : SE C (option Z * BSONObj) :=
  '(ok, info) ← run_command dbname [(B "profile", VNumberInt (-1))] 0;
  if (ok : bool) then was ← lift (getIntField info (B "was")); mret (Some was, info) else mret (None, info).

(** The names of the documents in an array. *)
Fixpoint database_names (o : BSONObj) : M (list bytes) :=
  match o with
  | [] => Ret []
  | e :: o => d ← Obj e; n ← valuestr (getField d (B "name")); l ← database_names o; Ret (n :: l)
  end.
Definition getDatabaseNames : SE C (list bytes) :=
  '(ok, info) ← run_command (B "admin") [(B "listDatabases", VNumberInt 1)] QueryOption_SlaveOk;
  lift (uassert 10005 ok);;
  lift (uassert 10006 (bool_decide (element_type (getField info (B "databases")) = Array_)));;
  lift (o ← Obj (getField info (B "databases")); database_names o).

(** ** Aggregation *)

Definition query_part (name : bytes) (query : Query) : BSONObj :=
  if empty_obj query then [] else [(name, VObject (getFilter query))].
Definition modifiers_part (query : Query) : BSONObj := if is_complex query then getModifiers query else [].

(** [MROutput], of the name of a collection; and the one for results in the reply. *)
Definition MROutput_collection (collection : bytes) : BSONObj := [(B "replace", VString collection)].
Definition MRInline : BSONObj := [(B "inline", VNumberInt 1)].
Definition mapreduce (ns jsmapf jsreducef : bytes) (query : Query) (output : BSONObj) : SE C BSONObj :=
  '(_, info) ← run_command (nsGetDB ns)
    ([(B "mapreduce", VString (nsGetCollection ns)); (B "map", VCode jsmapf); (B "reduce", VCode jsreducef)]
     ++ query_part (B "query") query ++ modifiers_part query ++ [(B "out", VObject output)]) 0;
  mret info.

Definition _buildGroupObj (ns jsreduce : bytes) (initial : BSONObj) (query : Query) (finalize : bytes) : BSONObj :=
  [(B "ns", VString (nsGetCollection ns)); (B "$reduce", VCode jsreduce); (B "initial", VObject initial)]
  ++ query_part (B "cond") query
  ++ (if zlen finalize =? 0 then [] else [(B "finalize", VString finalize)]).
Fixpoint all_objects (o : BSONObj) : M (list BSONObj) :=
  match o with [] => Ret [] | e :: o => x ← Obj e; l ← all_objects o; Ret (x :: l) end.
Definition _runGroup (ns : bytes) (group : BSONObj) (query : Query) : SE C (list BSONObj) :=
  result ← checked_command (nsGetDB ns) ((B "group", VObject group) :: modifiers_part query);
  lift (o ← Obj (getField result (B "retval")); all_objects o).
Definition group (ns jsreduce : bytes) (initial : BSONObj) (query : Query) (key : BSONObj) (finalize : bytes)
    : SE C (list BSONObj) :=
  _runGroup ns (_buildGroupObj ns jsreduce initial query finalize
    ++ (if empty_obj key then [] else [(B "key", VObject key)])) query.
Definition groupWithKeyFunction (ns jsreduce : bytes) (initial : BSONObj) (query : Query) (jskey finalize : bytes)
    : SE C (list BSONObj) :=
  _runGroup ns (_buildGroupObj ns jsreduce initial query finalize
    ++ (if zlen jskey =? 0 then [] else [(B "$keyf", VString jskey)])) query.
Definition distinct (ns field : bytes) (query : Query) : SE C BSONObj :=
  result ← checked_command (nsGetDB ns)
    ([(B "distinct", VString (nsGetCollection ns)); (B "key", VString field); (B "query", VObject (getFilter query))]
     ++ modifiers_part query);
  lift (Obj (getField result (B "values"))).

Definition optional_object (name : bytes) (o : BSONObj) : BSONObj := if empty_obj o then [] else [(name, VObject o)].
Definition _findAndModify (ns : bytes) (query update sort : BSONObj) (returnNew upsert : bool) (fields : BSONObj)
    : SE C BSONObj :=
  result ← checked_command (nsGetDB ns)
    ([(B "findAndModify", VString (nsGetCollection ns))]
     ++ (if empty_obj update then [(B "remove", true_value)] else [(B "update", VObject update)])
     ++ optional_object (B "query") query ++ optional_object (B "sort") sort ++ optional_object (B "fields") fields
     ++ [(B "new", bool_value returnNew); (B "upsert", bool_value upsert)]);
  mret (getObjectField result (B "value")).
Definition findAndModify (ns : bytes) (query update : BSONObj) (upsert returnNew : bool) (sort fields : BSONObj)
    : SE C BSONObj := _findAndModify ns query update sort returnNew upsert fields.
Definition findAndRemove (ns : bytes) (query sort fields : BSONObj) : SE C BSONObj :=
  _findAndModify ns query [] sort false false fields.

(** Whether it worked, the reply, and the value when it did. *)
Definition eval (dbname jscode : bytes) (args : option BSONObj) (nolock : bool) : SE C (bool * BSONObj * BSONElement) :=
  '(ok, info) ← run_command dbname ([(B "$eval", VCode jscode)]
    ++ match args with Some a => [(B "args", VArray a)] | None => [] end
    ++ (if nolock then [(B "nolock", true_value)] else [])) 0;
  mret (ok, info, if (ok : bool) then getField info (B "retval") else eooElement).
Definition eval_quiet (dbname jscode : bytes) : SE C bool :=
  '(ok, _, _) ← eval dbname jscode None false; mret ok.

(** [save]; the namespace is passed on as a C string. *)
Definition save (ns : bytes) (toSave : BSONObj) : SE C unit :=
  if negb (hasField toSave (B "_id")) then db_insert (c_string ns) toSave
  else db_update (c_string ns) [(B "_id", (getField toSave (B "_id")).2)] toSave true false.

(** ** Indexes *)

Definition index_command (ns indexName : bytes) : M (bytes * BSONObj) :=
  db ← nsToDatabase ns;
  coll ← nsToCollectionSubstring ns;
  Ret (db, [(B "deleteIndexes", VString coll); (B "index", VString indexName)]).
Definition dropIndex (ns indexName : bytes) : SE C unit :=
  '(db, cmd) ← lift (index_command ns indexName);
  '(ok, _) ← run_command db cmd 0;
  lift (uassert 10007 ok).
Definition dropIndex_keys (ns : bytes) (keys : BSONObj) : SE C unit :=
  n ← lift (genIndexName keys); dropIndex ns n.
Definition dropIndexes (ns : bytes) : SE C unit :=
  '(db, cmd) ← lift (index_command ns (B "*"));
  '(ok, _) ← run_command db cmd 0;
  lift (uassert 10008 ok).
Definition reIndex (ns : bytes) : SE C unit :=
  db ← lift (nsToDatabase ns);
  coll ← lift (nsToCollectionSubstring ns);
  '(ok, _) ← run_command db [(B "reIndex", VString coll)] 0;
  lift (uassert 0 ok).

(** A server without the command: the description is inserted. *)
Definition createIndex (ns : bytes) (descriptor : IndexSpec) : SE C unit :=
  let descriptorObj := IndexSpec_toBSON descriptor in
  coll ← lift (nsToCollectionSubstring ns);
  db ← lift (nsToDatabase ns);
  '(ok, infoObj) ← run_command db
    [(B "createIndexes", VString coll); (B "indexes", VArray [(B "0", VObject descriptorObj)])] 0;
  if (ok : bool) then mret tt
  else
    no_command ← (if negb (hasField infoObj (B "code")) then mret true
                  else code ← lift (numberInt_of (getField infoObj (B "code"))); mret (code =? CommandNotFound));
    if (no_command : bool) then db_insert (db ++ B ".system.indexes") ((B "ns", VString ns) :: descriptorObj)
    else throw_operation infoObj.
Definition createIndex_keys (ns : bytes) (keys : BSONObj) : SE C unit :=
  '(spec, r) ← mret (addKeys keys IndexSpec_ctor);
  lift r;;
  createIndex ns spec.
End Commands.
