(* ===== verification/DoubleArith.v ===== *)
(** * Arithmetic on doubles

    Conversion, division, [ceil], as IEEE 754 and the C library define them, each
    result rounded to the nearest double.  The file ends with the quotient of two
    integers, whose ceiling is exact. *)
From S2P Require Import Prelude BsonTypes Bson CLib.
Local Open Scope Z_scope.

Definition double_neg (d : double) : double :=
  match d with NaN => NaN | Infinity n => Infinity (negb n) | Finite v => Finite (- v) end.
(** The double nearest to the quotient of two positive integers. *)
Definition round_ratio (num den : Z) : double := double_of_bits (double_nearest num den).1.
Definition with_sign (neg : bool) (d : double) : double := if neg then double_neg d else d.
(** [(double) n]. *)
Definition to_double (n : Z) : double :=
  if n =? 0 then Finite 0 else with_sign (n <? 0) (round_ratio (Z.abs n) 1).
(** [x / y], without the sign of a zero [y]: only one that is not negative occurs. *)
Definition double_div (x y : double) : double :=
  match x, y with
  | NaN, _ | _, NaN | Infinity _, Infinity _ => NaN
  | Infinity n, Finite y => Infinity (xorb n (y <? 0))
  | Finite _, Infinity _ => Finite 0
  | Finite x, Finite y =>
      if y =? 0 then if x =? 0 then NaN else Infinity (x <? 0)
      else if x =? 0 then Finite 0
      else with_sign (xorb (x <? 0) (y <? 0)) (round_ratio (Z.abs x) (Z.abs y))
  end.
Definition double_ceil (d : double) : double :=
  match d with Finite v => Finite (- ((- v) / one_units) * one_units) | _ => d end.
(** A conversion to an integer type, undefined when the type cannot hold the result. *)
Definition double_to_int (t : int_type) (d : double) : M Z :=
  match d with
  | Finite v => let z := Z.quot v one_units in if decide (in_range t z) then Ret z else Throw EUndefined
  | _ => Throw EUndefined
  end.
(** [number()] of an element. *)
Definition element_number (e : BSONElement) : double :=
  match e.2 with
  | VNumberDouble bits => double_of_bits bits
  | VNumberInt n | VNumberLong n => to_double n
  | _ => Finite 0
  end.

(** ** Rounding *)

#[local] Transparent one_units.

Lemma round_div_bounds x d : 0 <= x -> 0 < d -> 2 * x - d <= 2 * round_div x d * d <= 2 * x + d.
Proof.
  intros Hx Hd. unfold round_div. pose proof (Z.div_mod x d ltac:(lia)). pose proof (Z.mod_pos_bound x d Hd).
  destruct (2 * (x mod d) <? d) eqn:E1; [nia|]. destruct (d <? 2 * (x mod d)) eqn:E2; [nia|].
  destruct (Z.even (x / d)); nia.
Qed.

(** The bits of a normal double give back its significand and exponent. *)
Lemma double_of_normal_bits u q : -1074 <= u <= 970 -> 2 ^ 52 <= q <= 2 ^ 53 ->
  double_of_bits ((u + 1074) * 2 ^ 52 + q) = Finite (q * 2 ^ (u + 1074)).
Proof.
  intros Hu Hq. assert (exists x f, (u + 1074) * 2 ^ 52 + q = x * 2 ^ 52 + f /\ 1 <= x < 2047 /\ 0 <= f < 2 ^ 52 /\
    (2 ^ 52 + f) * 2 ^ (x - 1) = q * 2 ^ (u + 1074)) as (x & f & -> & Hx & Hf & Hv).
  { destruct (decide (q = 2 ^ 53)) as [-> |Hne].
    - exists (u + 1076), 0. split_and!; try lia. replace (u + 1076 - 1) with (Z.succ (u + 1074)) by lia.
      rewrite Z.pow_succ_r by lia. lia.
    - exists (u + 1075), (q - 2 ^ 52). split_and!; try lia. f_equal; [lia|]. f_equal. lia. }
  unfold double_of_bits.
  assert (Z.shiftr (x * 2 ^ 52 + f) 52 = x) as Hs.
  { rewrite Z.shiftr_div_pow2 by lia. rewrite Z.div_add_l by lia. rewrite Z.div_small by lia. lia. }
  assert (Z.land (x * 2 ^ 52 + f) (2 ^ 52 - 1) = f) as Hl.
  { replace (2 ^ 52 - 1) with (Z.ones 52) by reflexivity. rewrite Z.land_ones by lia.
    rewrite Z.add_comm, Z.mod_add by lia. apply Z.mod_small. lia. }
  rewrite Hs, Hl. replace (Z.land x 2047) with x.
  2:{ change 2047 with (Z.ones 11). rewrite Z.land_ones by lia. symmetry. apply Z.mod_small. lia. }
  replace (x =? 2047) with false by lia. replace (x =? 0) with false by lia.
  replace (Z.testbit (x * 2 ^ 52 + f) 63) with false; [by rewrite Hv|].
  symmetry. rewrite Z.testbit_false by lia. rewrite Z.div_small; [done|]. lia.
Qed.

(** The exponent of a quotient. *)
Lemma pow_le_52 k num den : k <= 52 -> 0 < den ->
  pow_le 2 k num den = true <-> den * 2 ^ 52 <= num * 2 ^ (52 - k).
Proof.
  intros Hk Hd. unfold pow_le. destruct (0 <=? k) eqn:E.
  - replace (2 ^ 52) with (2 ^ k * 2 ^ (52 - k)) by (rewrite <-Z.pow_add_r by lia; f_equal; lia).
    assert (0 < 2 ^ (52 - k)) by (apply Z.pow_pos_nonneg; lia). rewrite Z.leb_le. nia.
  - replace (2 ^ (52 - k)) with (2 ^ (- k) * 2 ^ 52) by (rewrite <-Z.pow_add_r by lia; f_equal; lia).
    rewrite Z.leb_le. nia.
Qed.
Definition ratio_exponent (num den : Z) : Z :=
  let k := Z.log2 num - Z.log2 den in if pow_le 2 k num den then k else k - 1.
Lemma ratio_exponent_spec num den : 0 < num < 2 ^ 53 -> 0 < den ->
  let s := 52 - ratio_exponent num den in
  0 <= s <= 53 + Z.log2 den /\ den * 2 ^ 52 <= num * 2 ^ s < den * 2 ^ 53.
Proof.
  intros Hn Hd. unfold ratio_exponent. pose proof (Z.log2_spec num ltac:(lia)) as Hln.
  pose proof (Z.log2_spec den Hd) as Hld. pose proof (Z.log2_nonneg num). pose proof (Z.log2_nonneg den).
  assert (Z.log2 num < 53) by (apply Z.log2_lt_pow2; lia).
  set (ln := Z.log2 num) in *. set (ld := Z.log2 den) in *. rewrite !Z.pow_succ_r in * by lia.
  assert (2 ^ ln * 2 ^ (52 - (ln - ld)) = 2 ^ 52 * 2 ^ ld) as Hp
    by (rewrite <-!Z.pow_add_r by lia; f_equal; lia).
  assert (0 < 2 ^ (52 - (ln - ld))) by (apply Z.pow_pos_nonneg; lia).
  assert (0 < 2 ^ ld) by (apply Z.pow_pos_nonneg; lia).
  pose proof (pow_le_52 (ln - ld) num den ltac:(lia) Hd) as Hpow.
  destruct (pow_le 2 (ln - ld) num den).
  - split; [lia|]. split; [by apply Hpow|]. nia.
  - assert (~ den * 2 ^ 52 <= num * 2 ^ (52 - (ln - ld))) as Hlt by (by rewrite <-Hpow).
    replace (52 - (ln - ld - 1)) with (Z.succ (52 - (ln - ld))) by lia. rewrite Z.pow_succ_r by lia.
    split; [lia|]. nia.
Qed.

(** The double nearest to a quotient, in units of the last place. *)
Lemma round_ratio_value num den : 0 < num < 2 ^ 53 -> 0 < den < 2 ^ 900 ->
  let s := 52 - ratio_exponent num den in
  round_ratio num den = Finite (round_div (num * 2 ^ s) den * 2 ^ (1074 - s)).
Proof.
  intros Hn Hd s. pose proof (ratio_exponent_spec num den Hn ltac:(lia)) as [Hs Hq]. fold s in Hs, Hq.
  assert (Z.log2 den < 900) by (apply Z.log2_lt_pow2; lia).
  unfold round_ratio, double_nearest. fold (ratio_exponent num den).
  replace (Z.max (ratio_exponent num den - 52) (-1074)) with (- s) by lia.
  assert (0 < 2 ^ s) by (apply Z.pow_pos_nonneg; lia).
  assert (round_units 2 (- s) num den = round_div (num * 2 ^ s) den) as ->.
  { unfold round_units. destruct (0 <=? - s) eqn:E.
    - replace s with 0 by lia. change (2 ^ (-0)) with 1. change (2 ^ 0) with 1. by rewrite !Z.mul_1_r.
    - by rewrite Z.opp_involutive. }
  pose proof (round_div_bounds (num * 2 ^ s) den ltac:(nia) ltac:(lia)) as Hr.
  set (q := round_div _ _) in *. assert (2 ^ 52 <= q <= 2 ^ 53) as Hqb by nia.
  unfold inf_bits. replace (2047 * 2 ^ 52 <=? (- s + 1074) * 2 ^ 52 + q) with false by lia. cbn [fst].
  rewrite double_of_normal_bits by lia. do 3 f_equal. lia.
Qed.

(** Integers below 2^53 are doubles. *)
Lemma to_double_exact n : 0 <= n < 2 ^ 53 -> to_double n = Finite (n * one_units).
Proof.
  intros Hn. unfold to_double. destruct (n =? 0) eqn:E; [by replace n with 0 by lia|].
  replace (n <? 0) with false by lia. cbn [with_sign]. rewrite Z.abs_eq by lia.
  pose proof (ratio_exponent_spec n 1 ltac:(lia) ltac:(lia)) as [Hs _]. change (Z.log2 1) with 0 in Hs.
  rewrite (round_ratio_value n 1 ltac:(lia) ltac:(by vm_compute)). set (s := 52 - _) in *.
  rewrite round_div_1. unfold one_units. f_equal. rewrite <-Z.mul_assoc, <-Z.pow_add_r by lia. do 2 f_equal. lia.
Qed.

(** The ceiling of the quotient of two integers, rounded to a double, is that of the
    quotient. *)
Lemma ceil_ratio num den : 0 < num < 2 ^ 53 -> 0 < den < 2 ^ 900 ->
  double_ceil (round_ratio num den) = Finite (- (- num / den) * one_units).
Proof.
  intros Hn Hd. rewrite round_ratio_value by done.
  pose proof (ratio_exponent_spec num den Hn ltac:(lia)) as [Hs Hq]. set (s := 52 - _) in *.
  assert (Z.log2 den < 900) by (apply Z.log2_lt_pow2; lia).
  assert (0 < 2 ^ s) as Hp by (apply Z.pow_pos_nonneg; lia).
  pose proof (round_div_bounds (num * 2 ^ s) den ltac:(nia) ltac:(lia)) as Hr.
  set (q := round_div _ _) in *. cbn [double_ceil]. f_equal. f_equal.
  assert (one_units = 2 ^ s * 2 ^ (1074 - s)) as -> by (unfold one_units; rewrite <-Z.pow_add_r by lia; f_equal; lia).
  assert (0 < 2 ^ (1074 - s)) by (apply Z.pow_pos_nonneg; lia).
  rewrite <-Z.mul_opp_l, Z.div_mul_cancel_r by lia. f_equal.
  set (m := - (- num / den)). assert (- num / den = - m) as -> by lia.
  assert (num <= m * den < num + den) as Hm.
  { pose proof (Z.div_mod (- num) den ltac:(lia)). pose proof (Z.mod_pos_bound (- num) den ltac:(lia)). unfold m. nia. }
  symmetry. apply (Z.div_unique_pos _ _ (- m) (m * 2 ^ s - q)); [|lia].
  assert (2 * q * den <= 2 * (m * den) * 2 ^ s + den) by nia.
  assert (q <= m * 2 ^ s) by nia.
  assert ((m - 1) * 2 ^ s < q); [|lia].
  assert (num - (m - 1) * den >= 1) by lia.
  assert (num * 2 ^ s >= (m - 1) * den * 2 ^ s + 2 ^ s) by nia.
  destruct (decide (den < 2 * 2 ^ s)) as [Hlt|Hge]; [nia|].
  exfalso. assert (num * 2 ^ s < 2 ^ 53 * 2 ^ s) by nia.
  assert (2 ^ 53 * 2 ^ s = 2 ^ 52 * (2 * 2 ^ s)) by (change (2 ^ 53) with (2 * 2 ^ 52); lia).
  lia.
Qed.

(** ** Quotients of doubles that are integers *)

Lemma round_div_scale x d u : 0 < d -> 0 < u -> round_div (x * u) (d * u) = round_div x d.
Proof.
  intros Hd Hu. unfold round_div. rewrite Z.div_mul_cancel_r, Z.mul_mod_distr_r by lia.
  replace (2 * (x mod d * u) <? d * u) with (2 * (x mod d) <? d).
  2:{ destruct (2 * (x mod d) <? d) eqn:E; symmetry; [apply Z.ltb_lt|apply Z.ltb_ge]; nia. }
  replace (d * u <? 2 * (x mod d * u)) with (d <? 2 * (x mod d)); [done|].
  destruct (d <? 2 * (x mod d)) eqn:E; symmetry; [apply Z.ltb_lt|apply Z.ltb_ge]; nia.
Qed.
Lemma leb_scale a b u : 0 < u -> (a * u <=? b * u) = (a <=? b).
Proof. intros Hu. destruct (a <=? b) eqn:E; [apply Z.leb_le|apply Z.leb_gt]; nia. Qed.
Lemma round_ratio_scale num den k : 0 < num -> 0 < den -> 0 <= k ->
  round_ratio (num * 2 ^ k) (den * 2 ^ k) = round_ratio num den.
Proof.
  intros Hn Hd Hk. assert (0 < 2 ^ k) as Hp by (apply Z.pow_pos_nonneg; lia). unfold round_ratio. f_equal.
  assert (forall e, pow_le 2 e (num * 2 ^ k) (den * 2 ^ k) = pow_le 2 e num den) as Hle.
  { intros e. unfold pow_le. destruct (0 <=? e).
    - rewrite <-(leb_scale (den * 2 ^ e) num (2 ^ k) Hp). f_equal. lia.
    - rewrite <-(leb_scale den (num * 2 ^ (- e)) (2 ^ k) Hp). f_equal. lia. }
  assert (forall e, round_units 2 e (num * 2 ^ k) (den * 2 ^ k) = round_units 2 e num den) as Hru.
  { intros e. unfold round_units. destruct (0 <=? e) eqn:E.
    - assert (0 < 2 ^ e) by (apply Z.pow_pos_nonneg; lia).
      rewrite <-(round_div_scale num (den * 2 ^ e) (2 ^ k)) by nia. f_equal; lia.
    - rewrite <-(round_div_scale (num * 2 ^ (- e)) den (2 ^ k)) by lia. f_equal; lia. }
  unfold double_nearest. rewrite !Z.log2_mul_pow2 by lia. rewrite Hle, Hru.
  replace (k + Z.log2 num - (k + Z.log2 den)) with (Z.log2 num - Z.log2 den) by lia.
  by destruct (inf_bits <=? _).
Qed.
Lemma double_div_int a b : 0 < a -> 0 < b ->
  double_div (Finite (a * one_units)) (Finite (b * one_units)) = round_ratio a b.
Proof.
  intros Ha Hb. assert (0 < one_units) by (by vm_compute). unfold double_div.
  replace (b * one_units =? 0) with false by nia. replace (a * one_units =? 0) with false by nia.
  replace (a * one_units <? 0) with false by nia. replace (b * one_units <? 0) with false by nia.
  cbn [xorb with_sign]. rewrite !Z.abs_eq by nia. unfold one_units. apply round_ratio_scale; lia.
Qed.
Lemma quot_units z : Z.quot (z * one_units) one_units = z.
Proof. apply Z.quot_mul. by vm_compute. Qed.
Lemma double_to_int_exact t z : in_range t z -> double_to_int t (Finite (z * one_units)) = Ret z.
Proof. intros Hz. unfold double_to_int. rewrite quot_units. by rewrite decide_True by done. Qed.
