(* ===== verification/Grid.v ===== *)
(** * Files stored in a database: client/gridfs.cpp, client/gridfs.h

    A computation of [GridFS] has a client and the generator of identifiers as its
    state.  Pointers into the data to store are the bytes that are left; an [ostream]
    is the bytes written to it; a [FILE] is the bytes that are left and its flag for
    the end. *)
From S2P Require Import Prelude StringData BsonTypes BufBuilder Bson BsonCompare BsonBuilder BsonObj Oid HostSet RSState WriteOps WriteResult Message MessagePort Cursor Query IndexSpec Commands CLib DoubleArith.
Local Open Scope Z_scope.

(** ** Chunks *)

(** The document of a chunk; a buffer holds no more than [BufferMaxSize] bytes. *)
Definition GridFSChunk (fileObject : BSONObj) (chunkNumber : Z) (data : bytes) (len : Z) : M BSONObj :=
  let id := getField fileObject (B "_id") in
  verify (negb (eoo id));;
  d ← read_bytes data 0 len;
  let o := [(B "files_id", id.2); (B "n", VNumberInt chunkNumber); (B "data", VBinData (chr 0) d)] in
  massert 13548 (obj_size o <=? BufferMaxSize);;
  Ret o.
Definition ByteArrayDeprecated : char := chr 2.
(** [data(len)], by [binDataClean]: the old subtype of binary data has its length once
    more in front. *)
Definition chunk_data (chunk : BSONObj) : M bytes :=
  match (getField chunk (B "data")).2 with
  | VBinData subtype d =>
      if ceq subtype ByteArrayDeprecated then
        if zlen d <? 4 then Throw EUndefined else Ret (drop 4 d)
      else Ret d
  | _ => Throw EVerify
  end.
Definition chunk_len (chunk : BSONObj) : M Z := d ← chunk_data chunk; Ret (zlen d).

(** ** GridFS *)

Record GridFS := mkGridFS {
  _dbName : bytes; _prefix : bytes; _filesNS : bytes; _chunksNS : bytes; _chunkSize : Z }.
Definition DEFAULT_CHUNK_SIZE : Z := 255 * 1024.
Definition setChunkSize (size : Z) (g : GridFS) : M GridFS :=
  massert 13296 (negb (size =? 0));;
  Ret (mkGridFS (_dbName g) (_prefix g) (_filesNS g) (_chunksNS g) size).
Definition getChunkSize (g : GridFS) : Z := _chunkSize g.

(** What a client has besides [DBOps]: cursors, the time in seconds and in
    milliseconds, and the files of the machine. *)
Class GridOps (C : Type) `{DBOps C} := {
  Cur : Type;
  db_query : bytes -> BSONObj -> SE C (option Cur);
  cur_more : Cur -> SE C (Cur * bool);
  cur_next : Cur -> SE C (Cur * BSONObj);
  time_now : SE C Z;
  DATENOW : SE C Z }.

(** A file that is read: what is left, and [feof]. *)
Record FILE := mkFILE { f_left : bytes; f_eof : bool }.
Definition fread (n : Z) (fd : FILE) : bytes * FILE :=
  let d := take (Z.to_nat n) (f_left fd) in
  (d, mkFILE (drop (Z.to_nat n) (f_left fd)) (f_eof fd || (zlen (f_left fd) <? n))).

Section Grid.
Context {C : Type} `{GridOps C}.
Implicit Types g : GridFS.

Definition on_db {A} (m : SE C A) : SE (C * generator) A := fun s =>
  let '(c, r) := m s.1 in ((c, s.2), r).
(** [OID id; id.init();] *)
Definition oid_at (now : Z) : SE (C * generator) OID := fun s =>
  let '(id, g) := OID_init OID_ctor s.2 now in ((s.1, g), Ret id).
Definition new_oid : SE (C * generator) OID := now ← on_db time_now; oid_at now.

Definition GridFS_ctor (dbName prefix : bytes) : SE C GridFS :=
  let filesNS := dbName ++ B "." ++ prefix ++ B ".files" in
  let chunksNS := dbName ++ B "." ++ prefix ++ B ".chunks" in
  createIndex_keys filesNS [(B "filename", VNumberInt 1)];;
  let '(spec, r) := (addKeys [(B "files_id", VNumberInt 1); (B "n", VNumberInt 1)];; index_unique true) IndexSpec_ctor in
  lift r;;
  createIndex chunksNS spec;;
  mret (mkGridFS dbName prefix filesNS chunksNS DEFAULT_CHUNK_SIZE).

(** [c_str]: the namespaces that are passed on as C strings. *)
Definition _insertChunk g (chunk : BSONObj) : SE C unit := db_insert (c_string (_chunksNS g)) chunk.

Definition insertFile (print : BSONElement -> bytes) g (name : bytes) (id : OID) (length : Z) (contentType : bytes)
    : SE C BSONObj :=
  '(_, errObj) ← run_command (B "admin") (getLastError_cmd false false 0 0) 0;
  lift (uassert 16428 (bool_decide (getLastErrorString print errObj = [])));;
  '(ok, res) ← run_command (c_string (_dbName g)) [(B "filemd5", VjstOID id); (B "root", VString (_prefix g))] 0;
  lift (uassert 9008 ok);;
  date ← DATENOW;
  let md5 := getField res (B "md5") in
  lift (verify (negb (eoo md5)));;
  let ret :=
    [(B "_id", VjstOID id); (B "filename", VString name); (B "chunkSize", VNumberInt (wrap int32 (_chunkSize g)));
     (B "uploadDate", VDate date); (B "md5", md5.2);
     (B "length", if length <? 1024 * 1024 * 1024 then VNumberInt length else VNumberLong (wrap int64 length))]
    ++ (if zlen contentType =? 0 then [] else [(B "contentType", VString contentType)]) in
  db_insert (c_string (_filesNS g)) ret;;
  mret ret.

(** One turn of the loop: a chunk of [chunkLen] bytes, an [int]. *)
Definition chunk_length g (left : Z) : Z := wrap int32 (Z.min (_chunkSize g) (wrap uint32 left)).
Fixpoint store_chunks (fuel : nat) g (idObj : BSONObj) (chunkNumber : Z) (data : bytes) : SE C unit :=
  match data with
  | [] => mret tt
  | _ =>
      match fuel with
      | O => lift (Throw EUndefined)
      | S fuel =>
          let chunkLen := chunk_length g (zlen data) in
          c ← lift (GridFSChunk idObj chunkNumber data chunkLen);
          db_insert (c_string (_chunksNS g)) c;;
          next ← lift (int_result (chunkNumber + 1));
          store_chunks fuel g idObj next (drop (Z.to_nat chunkLen) data)
      end
  end.
Definition storeFile (print : BSONElement -> bytes) g (data remoteName contentType : bytes) : SE (C * generator) BSONObj :=
  id ← new_oid;
  on_db (store_chunks (length data) g [(B "_id", VjstOID id)] 0 data;;
         insertFile print g remoteName id (zlen data) contentType).

(** From a file: [open_file] gives its bytes.  The buffer has [_chunkSize + 1] bytes,
    an [unsigned]. *)
Fixpoint read_chunk (fuel : nat) (chunkSize : Z) (buf : bytes) (fd : FILE) : M (bytes * FILE) :=
  if (zlen buf =? chunkSize) || f_eof fd then Ret (buf, fd)
  else match fuel with
       | O => Throw EUndefined
       | S fuel =>
           let '(d, fd) := fread (chunkSize - zlen buf) fd in
           verify (zlen (buf ++ d) <=? chunkSize);;
           read_chunk fuel chunkSize (buf ++ d) fd
       end.
Fixpoint store_file_chunks (fuel : nat) g (idObj : BSONObj) (chunkNumber : Z) (len : Z) (fd : FILE) : SE C Z :=
  if f_eof fd then mret len
  else match fuel with
       | O => lift (Throw EUndefined)
       | S fuel =>
           '(buf, fd) ← lift (read_chunk 2 (_chunkSize g) [] fd);
           lift (if zlen buf <=? wrap uint32 (_chunkSize g + 1) then Ret tt else Throw EUndefined);;
           c ← lift (GridFSChunk idObj chunkNumber buf (wrap int32 (zlen buf)));
           db_insert (c_string (_chunksNS g)) c;;
           next ← lift (int_result (chunkNumber + 1));
           store_file_chunks fuel g idObj next (len + zlen buf) fd
       end.
Definition storeFile_file (print : BSONElement -> bytes) (open_file : bytes -> option bytes) g
    (fileName remoteName contentType : bytes) : SE (C * generator) BSONObj :=
  fd ← lift (match open_file fileName with Some d => Ret (mkFILE d false) | None => Throw (EUassert 10013) end);
  id ← new_oid;
  on_db (len ← store_file_chunks (S (length (f_left fd))) g [(B "_id", VjstOID id)] 0 0 fd;
         insertFile print g (if zlen remoteName =? 0 then fileName else remoteName) id len contentType).

Fixpoint removeFile_loop (fuel : nat) g (files : Cur) : SE C unit :=
  match fuel with
  | O => lift (Throw EUndefined)
  | S fuel =>
      '(files, m) ← cur_more files;
      if (m : bool) then
        '(files, file) ← cur_next files;
        let id := getField file (B "_id") in
        lift (verify (negb (eoo id)));;
        db_remove (c_string (_filesNS g)) [(B "_id", id.2)];;
        db_remove (c_string (_chunksNS g)) [(B "files_id", id.2)];;
        removeFile_loop fuel g files
      else mret tt
  end.
Definition removeFile (fuel : nat) g (fileName : bytes) : SE C unit :=
  files ← db_query (_filesNS g) [(B "filename", VString fileName)];
  match files with Some files => removeFile_loop fuel g files | None => mret tt end.

(** ** GridFile: a file is its document *)

Definition GridFile_exists (f : BSONObj) : bool := negb (empty_obj f).
Definition getFilename (f : BSONObj) : bytes := str (getField f (B "filename")).
Definition file_chunkSize (f : BSONObj) : M Z := double_to_int int32 (element_number (getField f (B "chunkSize"))).
Definition getContentLength (f : BSONObj) : M Z := double_to_int uint64 (element_number (getField f (B "length"))).
Definition getContentType (f : BSONObj) : M bytes := valuestr (getField f (B "contentType")).
Definition getUploadDate (f : BSONObj) : M Z :=
  match (getField f (B "uploadDate")).2 with VDate d => Ret (wrap uint64 d) | _ => Throw EUndefined end.
Definition getMD5 (f : BSONObj) : bytes := str (getField f (B "md5")).
Definition getFileField (f : BSONObj) (name : bytes) : BSONElement := getField f name.
Definition getMetadata (f : BSONObj) : M BSONObj :=
  let meta_element := getField f (B "metadata") in
  if eoo meta_element then Ret []
  else match meta_element.2 with VObject o | VArray o => Ret o | _ => Throw EVerify end.
Definition getNumChunks (f : BSONObj) : M Z :=
  len ← getContentLength f; size ← file_chunkSize f;
  double_to_int int32 (double_ceil (double_div (to_double len) (to_double size))).

Definition findFile g (query : Query) : SE C BSONObj :=
  db_findOne (c_string (_filesNS g)) (query_sort [(B "uploadDate", VNumberInt (-1))] query) 0.
Definition findFileByName g (fileName : bytes) : SE C BSONObj := findFile g [(B "filename", VString fileName)].
Definition grid_list g (o : BSONObj) : SE C (option Cur) := db_query (c_string (_filesNS g)) o.

Definition getChunk g (f : BSONObj) (n : Z) : SE C BSONObj :=
  lift (uassert 10015 (GridFile_exists f));;
  let id := getField f (B "_id") in
  lift (verify (negb (eoo id)));;
  o ← db_findOne (c_string (_chunksNS g)) [(B "files_id", id.2); (B "n", VNumberInt n)] 0;
  lift (uassert 10014 (negb (empty_obj o)));;
  mret o.
(** The bytes written, from chunk [i] on, of [k] chunks. *)
Fixpoint write_chunks g (f : BSONObj) (i : Z) (k : nat) : SE C bytes :=
  match k with
  | O => mret []
  | S k => c ← getChunk g f i; d ← lift (chunk_data c); rest ← write_chunks g f (i + 1) k; mret (d ++ rest)
  end.
(** What is written, and the length that is returned. *)
Definition GridFile_write g (f : BSONObj) : SE C (bytes * Z) :=
  lift (uassert 10015 (GridFile_exists f));;
  num ← lift (getNumChunks f);
  d ← write_chunks g f 0 (Z.to_nat num);
  len ← lift (getContentLength f);
  mret (d, len).
(** To a file, which can be opened or not; ["-"] is the standard output. *)
Definition GridFile_write_to (open_out : bytes -> bool) g (f : BSONObj) (where_ : bytes) : SE C (bytes * Z) :=
  if bool_decide (where_ = B "-") then GridFile_write g f
  else lift (uassert 13325 (open_out where_));; GridFile_write g f.

(** ** GridFileBuilder *)

(** [_pendingData] is the bytes below [_pendingDataSize]. *)
Record GridFileBuilder := mkBuilder {
  fb_chunkSize : Z; fb_currentChunk : Z; fb_fileId : OID; fb_pending : bytes; fb_fileLength : Z }.
Definition Building : Type := C * generator * GridFileBuilder.
Definition fb_get : SE Building GridFileBuilder := fun s => (s, Ret s.2).
Definition fb_put (b : GridFileBuilder) : SE Building unit := fun s => ((s.1, b), Ret tt).
Definition fb_set_pending (d : bytes) : SE Building unit :=
  b ← fb_get; fb_put (mkBuilder (fb_chunkSize b) (fb_currentChunk b) (fb_fileId b) d (fb_fileLength b)).
Definition on_grid {A} (m : SE (C * generator) A) : SE Building A := fun s =>
  let '(c, r) := m s.1 in ((c, s.2), r).

Definition GridFileBuilder_ctor g : SE (C * generator) GridFileBuilder :=
  id ← new_oid; mret (mkBuilder (getChunkSize g) 0 id [] 0).

(** What is left of the data. *)
Fixpoint _appendChunk (fuel : nat) g (data : bytes) (forcePendingInsert : bool) : SE Building bytes :=
  match data with
  | [] => mret []
  | _ =>
      match fuel with
      | O => lift (Throw EUndefined)
      | S fuel =>
          b ← fb_get;
          let chunkLen := Z.min (fb_chunkSize b) (zlen data) in
          if (chunkLen <? fb_chunkSize b) && negb forcePendingInsert then mret data
          else
            chunk ← lift (GridFSChunk [(B "_id", VjstOID (fb_fileId b))] (wrap int32 (fb_currentChunk b)) data (wrap int32 chunkLen));
            on_grid (on_db (_insertChunk g chunk));;
            fb_put (mkBuilder (fb_chunkSize b) (wrap uint32 (fb_currentChunk b + 1)) (fb_fileId b) (fb_pending b)
                      (wrap uint64 (fb_fileLength b + chunkLen)));;
            _appendChunk fuel g (drop (Z.to_nat chunkLen) data) forcePendingInsert
      end
  end.
Definition _appendPendingData g : SE Building unit :=
  b ← fb_get;
  if 0 <? zlen (fb_pending b) then
    _appendChunk (length (fb_pending b)) g (fb_pending b) true;;
    fb_set_pending []
  else mret tt.
Definition appendChunk g (data : bytes) : SE Building unit :=
  if zlen data =? 0 then mret tt
  else
    b ← fb_get;
    if 0 <? zlen (fb_pending b) then
      let totalSize := size_wrap (zlen (fb_pending b) + zlen data) in
      let size := Z.min (fb_chunkSize b) totalSize - zlen (fb_pending b) in
      d ← lift (read_bytes data 0 size);
      let pending := fb_pending b ++ d in
      fb_set_pending pending;;
      lift (invariant (zlen pending <=? fb_chunkSize b));;
      if zlen pending =? fb_chunkSize b then
        _appendPendingData g;;
        _appendChunk (length data) g (drop (Z.to_nat size) data) false;;
        mret tt
      else mret tt
    else
      rest ← _appendChunk (length data) g data false;
      if zlen rest =? 0 then mret tt
      else b ← fb_get; fb_set_pending (fb_pending b ++ rest).
Definition buildFile (print : BSONElement -> bytes) g (remoteName contentType : bytes) : SE Building BSONObj :=
  _appendPendingData g;;
  b ← fb_get;
  ret ← on_grid (on_db (insertFile print g remoteName (fb_fileId b) (fb_fileLength b) contentType));
  id ← on_grid new_oid;
  fb_put (mkBuilder (fb_chunkSize b) 0 id [] 0);;
  mret ret.
End Grid.

(** ** A server that keeps what it is given

    [gs_docs] is what each namespace holds.  An insertion adds the document, with an
    [_id] in front when it has none; the commands that end the storing of a file
    succeed; a query for a chunk, among chunks, finds the first that matches. *)
Definition chunk_of (id : OID) (n : Z) (d : BSONObj) : Prop :=
  getField d (B "files_id") = (B "files_id", VjstOID id) /\ getField d (B "n") = (B "n", VNumberInt n).
Definition is_chunk (d : BSONObj) : Prop := exists id n, chunk_of id n d.
Global Instance chunk_of_dec id n d : Decision (chunk_of id n d).
Proof.
  unfold chunk_of. apply and_dec.
  - destruct (getField d (B "files_id")) as [x v]. destruct (decide (x = B "files_id")) as [-> |Hx]; [|right; congruence].
    destruct v; try (right; congruence). destruct (decide (oid = id)) as [-> |Hi]; [by left|right; congruence].
  - destruct (getField d (B "n")) as [x v]. destruct (decide (x = B "n")) as [-> |Hx]; [|right; congruence].
    destruct v as [| | | | | | | | | | | | | | | | | |m| |]; try (right; congruence). destruct (decide (m = n)) as [-> |Hi]; [by left|right; congruence].
Defined.
Definition with_id (o o' : BSONObj) : Prop := o' = o \/ hasField o (B "_id") = false /\ exists id, o' = (B "_id", id) :: o.
Definition maxDocument : Z := 16 * 1024 * 1024.

Class GridServer (C : Type) `{GridOps C} := {
  gs_docs : C -> bytes -> list BSONObj;
  gs_insert ns o s : obj_size o <= maxDocument -> exists s' o', db_insert ns o s = (s', Ret tt) /\ with_id o o' /\
    forall ns', gs_docs s' ns' = if decide (ns' = ns) then gs_docs s ns' ++ [o'] else gs_docs s ns';
  gs_lastError s : exists s' info, run_command (B "admin") (getLastError_cmd false false 0 0) 0 s = (s', Ret (true, info)) /\
    trueValue (getField info (B "ok")) = true /\ (getField info (B "err")).2 = VjstNULL /\ gs_docs s' = gs_docs s;
  gs_filemd5 db id root s : exists s' info md5, run_command db [(B "filemd5", VjstOID id); (B "root", VString root)] 0 s
      = (s', Ret (true, info)) /\ getField info (B "md5") = (B "md5", VString md5) /\ zlen md5 = 32 /\ gs_docs s' = gs_docs s;
  gs_time s : exists s' t, time_now s = (s', Ret t) /\ gs_docs s' = gs_docs s;
  gs_date s : exists s' t, DATENOW s = (s', Ret t) /\ gs_docs s' = gs_docs s;
  gs_findChunk ns id n s : Forall is_chunk (gs_docs s ns) -> exists s',
    db_findOne ns [(B "files_id", VjstOID id); (B "n", VNumberInt n)] 0 s =
      (s', Ret (default [] (head (filter (chunk_of id n) (gs_docs s ns))))) /\ gs_docs s' = gs_docs s }.

(** ** The chunks of a file *)

(** The chunks from number [k] on of a file that has [data] left. *)
Inductive stored (cs : nat) (id : OID) : Z -> bytes -> list BSONObj -> Prop :=
  | stored_nil k : stored cs id k [] []
  | stored_cons k data c l : data <> [] -> chunk_of id k c -> chunk_data c = Ret (take cs data) ->
      stored cs id (k + 1) (drop cs data) l -> stored cs id k data (c :: l).

Lemma stored_app cs id k d1 l1 d2 l2 : stored cs id k d1 l1 -> length d1 = (cs * length l1)%nat ->
  stored cs id (k + zlen l1) d2 l2 -> stored cs id k (d1 ++ d2) (l1 ++ l2).
Proof.
  induction 1 as [k|k d1 c l1 Hn Hc Hd Hs IH]; intros Hlen H2.
  - cbn. by rewrite zlen_nil, Z.add_0_r in H2.
  - cbn [length app] in *. assert (cs <= length d1)%nat as Hcs by nia. constructor.
    + by destruct d1.
    + done.
    + by rewrite take_app_le.
    + rewrite drop_app_le by done. apply IH; [rewrite length_drop; lia|].
      rewrite zlen_cons in H2. by replace (k + 1 + zlen l1) with (k + (1 + zlen l1)) by lia.
Qed.
Lemma stored_chunks cs id k data l : stored cs id k data l -> Forall (fun d => is_chunk d /\ forall n, n < k -> ~ chunk_of id n d) l.
Proof.
  induction 1 as [|k data c l Hn Hc Hd Hs IH]; constructor.
  - split; [by exists id, k|]. intros n Hlt [_ E]. destruct Hc as [_ E']. rewrite E' in E. injection E. lia.
  - eapply Forall_impl; [exact IH|]. intros d [H1 H2]. split; [done|]. intros n Hlt. apply H2. lia.
Qed.
(** Each chunk is the first that a query for its number finds. *)
Lemma stored_lookup cs id k data l i c : stored cs id k data l -> l !! i = Some c ->
  head (filter (chunk_of id (k + Z.of_nat i)) l) = Some c.
Proof.
  intros H. revert i. induction H as [|k data c0 l Hn Hc Hd Hs IH]; intros [|i] Hl; try done.
  - injection Hl as ->. rewrite Z.add_0_r. by rewrite filter_cons_True by done.
  - rewrite filter_cons_False.
    + replace (k + Z.of_nat (S i)) with (k + 1 + Z.of_nat i) by lia. by apply IH.
    + intros [_ E]. destruct Hc as [_ E']. rewrite E' in E. injection E. lia.
Qed.
Lemma stored_length cs id k data l : (0 < cs)%nat -> stored cs id k data l ->
  zlen l = - (- zlen data / Z.of_nat cs).
Proof.
  intros Hcs. induction 1 as [|k data c l Hn Hc Hd Hs IH]; [by rewrite zlen_nil|].
  rewrite zlen_cons, IH. unfold zlen. rewrite length_drop. destruct data as [|x data]; [done|].
  destruct (decide (length (x :: data) <= cs)%nat) as [Hle|Hgt].
  - replace (length (x :: data) - cs)%nat with O by lia. rewrite Z.div_0_l by lia.
    assert (- Z.of_nat (length (x :: data)) / Z.of_nat cs = -1); [|lia].
    symmetry. apply (Z.div_unique_pos _ _ _ (Z.of_nat cs - Z.of_nat (length (x :: data)))); cbn [length] in *; lia.
  - rewrite Nat2Z.inj_sub by lia.
    replace (- (Z.of_nat (length (x :: data)) - Z.of_nat cs)) with (- Z.of_nat (length (x :: data)) + 1 * Z.of_nat cs) by lia.
    rewrite Z.div_add by lia. lia.
Qed.

Lemma GridFSChunk_run id k data len fo : getField fo (B "_id") = (B "_id", VjstOID id) -> length id = 12%nat ->
  0 <= len <= zlen data -> len <= 16000000 ->
  exists c, GridFSChunk fo k data len = Ret c /\ chunk_of id k c /\ chunk_data c = Ret (take (Z.to_nat len) data) /\
    obj_size c <= maxDocument.
Proof.
  intros Hid Hl Hlen Hmax. unfold GridFSChunk. rewrite Hid.
  change (verify (negb (eoo (B "_id", VjstOID id)))) with (@Ret exn unit tt). rewrite ret_bind. unfold read_bytes.
  replace ((0 <=? 0) && (0 <=? len) && (0 + len <=? zlen data)) with true by lia. rewrite ret_bind.
  change (Z.to_nat 0) with O. rewrite drop_0.
  set (c := [_; _; _]).
  assert (obj_size c <= 16000100) as Hc.
  { unfold obj_size. rewrite zlen_encode_obj. unfold c, encode_elements. cbn [flat_map].
    rewrite app_nil_r, !zlen_app, !zlen_encode_element. cbn [fst snd encode_value].
    rewrite zlen_le4, zlen_app, zlen_le4, zlen_cons. unfold zlen in *. rewrite length_take, Hl. cbn. lia. }
  assert (obj_size c <=? BufferMaxSize = true) as -> by (unfold BufferMaxSize; lia).
  exists c. split_and!; [done|by split|done|unfold maxDocument; lia].
Qed.

Lemma getField_with_id o o' name : with_id o o' -> name <> B "_id" -> getField o' name = getField o name.
Proof.
  intros [-> |(_ & v & ->)] Hn; [done|]. cbn [getField fst].
  destruct (StringData_eq name (B "_id")) eqn:E; [by apply StringData_eq_spec in E|done].
Qed.

Section Storing.
Context {C : Type} `{GridServer C}.
Implicit Types s : C.

(** A namespace got documents, the others did not change. *)
Definition adds s s' (ns : bytes) (l : list BSONObj) : Prop :=
  forall ns', gs_docs s' ns' = if decide (ns' = ns) then gs_docs s ns' ++ l else gs_docs s ns'.
Lemma adds_nil s ns : adds s s ns [].
Proof. intros ns'. case_decide; by rewrite ?app_nil_r. Qed.
Lemma adds_app s s1 s2 ns l l' : adds s s1 ns l -> adds s1 s2 ns l' -> adds s s2 ns (l ++ l').
Proof. intros Ha Hb ns'. rewrite Hb, Ha. case_decide; by rewrite ?app_assoc. Qed.
Lemma adds_same s s1 s2 ns l : gs_docs s1 = gs_docs s -> adds s1 s2 ns l -> adds s s2 ns l.
Proof. intros E Ha ns'. by rewrite Ha, E. Qed.

Lemma insert_chunk ns k id data len fo s : getField fo (B "_id") = (B "_id", VjstOID id) -> length id = 12%nat ->
  0 <= len <= zlen data -> len <= 16000000 ->
  exists c s' c', GridFSChunk fo k data len = Ret c /\ db_insert ns c s = (s', Ret tt) /\ adds s s' ns [c'] /\
    chunk_of id k c' /\ chunk_data c' = Ret (take (Z.to_nat len) data).
Proof.
  intros Hid Hl Hlen Hmax. destruct (GridFSChunk_run id k data len fo Hid Hl Hlen Hmax) as (c & Hc & [Hk1 Hk2] & Hd & Hm).
  destruct (gs_insert ns c s Hm) as (s' & c' & Hi & Hw & Hs). exists c, s', c'. split_and!; try done.
  - split; by rewrite (getField_with_id c c' _ Hw) by done.
  - unfold chunk_data in *. by rewrite (getField_with_id c c' _ Hw) by done.
Qed.

Definition sized_for (cs : Z) (k : Z) (data : bytes) : Prop :=
  0 < cs <= 16000000 /\ 0 <= k /\ zlen data <= (int_max int32 - k) * cs.

(** Storing what is in memory. *)
Lemma store_chunks_run fuel g id k data s : sized_for (_chunkSize g) k data -> zlen data < 2 ^ 32 ->
  (length data <= fuel)%nat -> length id = 12%nat ->
  exists s' l, store_chunks fuel g [(B "_id", VjstOID id)] k data s = (s', Ret tt) /\
    adds s s' (c_string (_chunksNS g)) l /\ stored (Z.to_nat (_chunkSize g)) id k data l.
Proof.
  revert k data s. induction fuel as [|fuel IH]; intros k data s (Hcs & Hk & Hsz) Hlen Hf Hid.
  { destruct data; [|cbn in Hf; lia]. exists s, []. split_and!; [done|apply adds_nil|constructor]. }
  destruct data as [|x data']; [exists s, []; split_and!; [done|apply adds_nil|constructor]|].
  set (data := x :: data') in *. cbn [store_chunks].
  change (match data with [] => _ | _ :: _ => ?e end) with e. unfold chunk_length.
  pose proof (zlen_nonneg data). assert (0 < zlen data) by (unfold data; rewrite zlen_cons; pose proof (zlen_nonneg data'); lia).
  rewrite (wrap_id uint32 (zlen data)) by (done || split; cbn; lia).
  set (len := Z.min _ _). rewrite (wrap_id int32 len) by (done || split; cbn; lia).
  destruct (insert_chunk (c_string (_chunksNS g)) k id data len [(B "_id", VjstOID id)] s eq_refl Hid ltac:(lia) ltac:(lia))
    as (c & s1 & c' & Hc & Hi & Ha & Hkc & Hd).
  rewrite Hc. rewrite bind_lift_Ret. rewrite (bind_run _ _ _ _ _ Hi).
  assert (k < int_max int32) by nia.
  unfold int_result. rewrite bool_decide_eq_true_2 by (split; cbn in *; lia). rewrite bind_lift_Ret.
  assert (drop (Z.to_nat len) data = drop (Z.to_nat (_chunkSize g)) data) as Hdr.
  { destruct (decide (_chunkSize g <= zlen data)); [do 2 f_equal; lia|].
    rewrite !drop_ge by (unfold zlen in *; lia). done. }
  assert (take (Z.to_nat len) data = take (Z.to_nat (_chunkSize g)) data) as Htk.
  { destruct (decide (_chunkSize g <= zlen data)); [do 2 f_equal; lia|].
    rewrite !take_ge by (unfold zlen in *; lia). done. }
  rewrite Hdr. edestruct (IH (k + 1) (drop (Z.to_nat (_chunkSize g)) data) s1) as (s2 & l & Hr & Ha2 & Hst).
  - split_and!; [lia|lia|lia|]. unfold zlen in *. rewrite length_drop. nia.
  - unfold zlen in *. rewrite length_drop. lia.
  - rewrite length_drop. unfold zlen in *. cbn [length data] in *. lia.
  - done.
  - exists s2, (c' :: l). split_and!; [done|by apply (adds_app _ s1 _ _ [c'])|].
    constructor; [done|done|by rewrite Hd, Htk|done].
Qed.

(** ** Reading *)

Definition chunks_found s (ns : bytes) (id : OID) (k : Z) (l : list BSONObj) : Prop :=
  Forall is_chunk (gs_docs s ns) /\
  forall i c, l !! i = Some c -> head (filter (chunk_of id (k + Z.of_nat i)) (gs_docs s ns)) = Some c.
Lemma chunks_found_tail s s' ns id k c l : gs_docs s' = gs_docs s -> chunks_found s ns id k (c :: l) ->
  chunks_found s' ns id (k + 1) l.
Proof.
  intros E [Hx Hy]. split; [by rewrite E|]. intros i c' Hl. rewrite E.
  replace (k + 1 + Z.of_nat i) with (k + Z.of_nat (S i)) by lia. by apply Hy.
Qed.
Lemma write_chunks_run g f cs id k data l s : GridFile_exists f = true -> getField f (B "_id") = (B "_id", VjstOID id) ->
  stored cs id k data l -> chunks_found s (c_string (_chunksNS g)) id k l ->
  exists s', write_chunks g f k (length l) s = (s', Ret data) /\ gs_docs s' = gs_docs s.
Proof.
  intros Hf Hid Hst. revert s. induction Hst as [k|k data c l Hn Hc Hd Hst IH]; intros s Hfound; [by exists s|].
  cbn [length write_chunks]. destruct Hfound as [Hch Hfind].
  destruct (gs_findChunk (c_string (_chunksNS g)) id k s Hch) as (s1 & Hq & Hs1).
  pose proof (Hfind 0%nat c eq_refl) as Hc0. rewrite Z.add_0_r in Hc0. rewrite Hc0 in Hq. change (default [] (Some c)) with c in Hq.
  assert (getChunk g f k s = (s1, Ret c)) as Hg.
  { unfold getChunk. rewrite Hf, Hid. change (lift (uassert 10015 true)) with (lift (S := C) (@Ret exn unit tt)).
    rewrite bind_lift_Ret. change (lift (verify _)) with (lift (S := C) (@Ret exn unit tt)). rewrite bind_lift_Ret.
    cbn [snd]. rewrite (bind_run _ _ _ _ _ Hq). cbv beta. assert (empty_obj c = false) as ->.
    { destruct c as [|e c]; [by destruct Hc as [? _]|done]. }
    change (lift (uassert 10014 (negb false))) with (lift (S := C) (@Ret exn unit tt)). by rewrite bind_lift_Ret. }
  rewrite (bind_run _ _ _ _ _ Hg), Hd, bind_lift_Ret.
  destruct (IH s1) as (s2 & Hw & Hs2).
  { apply (chunks_found_tail s s1 _ id k c l Hs1). by split. }
  rewrite (bind_run _ _ _ _ _ Hw). exists s2. split; [|by rewrite Hs2]. by rewrite take_drop.
Qed.
End Storing.

(** ** The document of a file *)

(** What reading a file needs of its document. *)
Record file_of (f : BSONObj) (id : OID) (cs len : Z) (name : bytes) : Prop := mkFileOf {
  fo_exists : GridFile_exists f = true;
  fo_id : getField f (B "_id") = (B "_id", VjstOID id);
  fo_chunkSize : file_chunkSize f = Ret cs;
  fo_length : getContentLength f = Ret len;
  fo_name : getFilename f = name }.

Lemma getNumChunks_ceil f id cs len name : file_of f id cs len name -> 0 < cs <= int_max int32 -> 0 <= len < 2 ^ 53 ->
  - (- len / cs) <= int_max int32 -> getNumChunks f = Ret (- (- len / cs)).
Proof.
  intros [_ _ Hc Hl _] Hcs Hlen Hn. unfold getNumChunks. rewrite Hl, Hc, !ret_bind.
  rewrite (to_double_exact len) by lia. rewrite (to_double_exact cs) by (cbn in *; lia).
  assert (0 <= - (- len / cs)) by (pose proof (Z.div_le_upper_bound (- len) cs 0); lia).
  destruct (decide (len = 0)) as [-> |Hne].
  - change (- 0) with 0. rewrite (Z.div_0_l cs) by lia. unfold double_div. rewrite (proj2 (Z.eqb_neq _ 0)); [reflexivity|].
    assert (0 < one_units) by (by vm_compute). nia.
  - rewrite double_div_int by lia. rewrite ceil_ratio.
    + apply double_to_int_exact. split; [cbn; lia|done].
    + lia.
    + split; [lia|]. apply Z.le_lt_trans with (int_max int32); [lia|]. by vm_compute.
Qed.
Lemma element_length len : 0 <= len < 2 ^ 53 ->
  double_to_int uint64 (element_number ([], if len <? 1024 * 1024 * 1024 then VNumberInt len else VNumberLong (wrap int64 len)))
  = Ret len.
Proof.
  intros Hl. assert (element_number ([], if len <? 1024 * 1024 * 1024 then VNumberInt len else VNumberLong (wrap int64 len))
    = to_double len) as ->.
  { destruct (len <? _); [done|]. rewrite wrap_id by (done || split; cbn; lia). done. }
  rewrite to_double_exact by done. apply double_to_int_exact. split; cbn; lia.
Qed.

Section Files.
Context {C : Type} `{GridServer C}.
Implicit Types s : C.

Definition short (name contentType : bytes) : Prop := zlen name + zlen contentType <= 1000000.
Definition grid_ok (g : GridFS) : Prop :=
  0 < _chunkSize g <= 16000000 /\ c_string (_chunksNS g) <> c_string (_filesNS g).

Lemma insertFile_run print g name id len contentType s : grid_ok g -> short name contentType -> length id = 12%nat ->
  0 <= len < 2 ^ 53 -> exists s' f f', insertFile print g name id len contentType s = (s', Ret f) /\
    file_of f id (_chunkSize g) len name /\ adds s s' (c_string (_filesNS g)) [f'].
Proof.
  intros [Hcs _] Hshort Hid Hlen. unfold insertFile.
  destruct (gs_lastError s) as (s1 & info & Hr & Hok & Herr & E1). rewrite (bind_run _ _ _ _ _ Hr). cbv beta iota.
  assert (getLastErrorString print info = []) as ->.
  { unfold getLastErrorString. rewrite Hok. unfold str. rewrite Herr. by destruct (eoo _). }
  rewrite bool_decide_eq_true_2 by done. change (lift (uassert 16428 true)) with (lift (S := C) (@Ret exn unit tt)).
  rewrite bind_lift_Ret.
  destruct (gs_filemd5 (c_string (_dbName g)) id (_prefix g) s1) as (s2 & res & md5 & Hr2 & Hmd5 & Hm & E2).
  rewrite (bind_run _ _ _ _ _ Hr2). cbv beta iota. change (lift (uassert 9008 true)) with (lift (S := C) (@Ret exn unit tt)).
  rewrite bind_lift_Ret. destruct (gs_date s2) as (s3 & date & Hr3 & E3). rewrite (bind_run _ _ _ _ _ Hr3). cbv beta zeta.
  rewrite Hmd5. change (lift (verify _)) with (lift (S := C) (@Ret exn unit tt)). rewrite bind_lift_Ret. cbn [snd].
  rewrite (wrap_id int32) by (done || split; cbn; lia).
  set (f := [_; _; _; _; _; _] ++ _).
  assert (obj_size f <= maxDocument) as Hsz.
  { assert (zlen (encode_value (if len <? 1024 * 1024 * 1024 then VNumberInt len else VNumberLong (wrap int64 len))) <= 8) as Hlv.
    { destruct (len <? _); cbn [encode_value]; [rewrite zlen_le4|rewrite zlen_le8]; lia. }
    unfold obj_size, maxDocument. rewrite zlen_encode_obj. unfold f, encode_elements. clear f. unfold short in Hshort.
    pose proof (zlen_nonneg contentType). assert (zlen id = 12) as Hz by (unfold zlen; lia).
    destruct (zlen contentType =? 0); cbn [flat_map app]; rewrite app_nil_r, !zlen_app, !zlen_encode_element;
      cbn [fst snd]; generalize dependent (encode_value (if len <? 1024 * 1024 * 1024 then VNumberInt len else VNumberLong (wrap int64 len)));
      intros lv Hlv; cbn [encode_value]; rewrite !zlen_encode_string, !zlen_le4, !zlen_le8, Hz;
      repeat match goal with |- context [zlen (B ?t)] => let n := eval vm_compute in (zlen (B t)) in change (zlen (B t)) with n end; lia. }
  destruct (gs_insert (c_string (_filesNS g)) f s3 Hsz) as (s4 & f' & Hi & _ & Ha).
  rewrite (bind_run _ _ _ _ _ Hi). exists s4, f, f'. split; [done|]. split.
  - split; [done|done| | |done].
    + unfold file_chunkSize. change (getField f (B "chunkSize")) with (B "chunkSize", VNumberInt (_chunkSize g)).
      unfold element_number. cbn [snd]. rewrite to_double_exact by lia. apply double_to_int_exact. split; cbn; lia.
    + unfold getContentLength. etrans; [|apply (element_length len Hlen)]. done.
  - apply (adds_same _ s3); [by rewrite E3, E2, E1|]. exact Ha.
Qed.

(** A new identifier, and that no chunk has it. *)
Definition next_id s (gen : generator) : OID := (OID_init OID_ctor gen (match time_now s with (_, Ret t) => t | _ => 0 end)).1.
Definition unused s (ns : bytes) (id : OID) : Prop :=
  Forall is_chunk (gs_docs s ns) /\ forall n, filter (chunk_of id n) (gs_docs s ns) = [].
Lemma new_oid_run s gen : length (instanceUnique gen) = 5%nat ->
  exists s' gen', new_oid (s, gen) = ((s', gen'), Ret (next_id s gen)) /\ gs_docs s' = gs_docs s /\ length (next_id s gen) = 12%nat /\
    length (instanceUnique gen') = 5%nat.
Proof.
  intros Hg. destruct (gs_time s) as (s1 & t & Ht & E). unfold new_oid, next_id.
  assert (on_db time_now (s, gen) = ((s1, gen), Ret t)) as Ho by (unfold on_db; cbn [fst snd]; by rewrite Ht).
  rewrite (bind_run _ _ _ _ _ Ho), Ht. unfold oid_at. cbn [fst snd].
  rewrite OID_init_layout by done. exists s1, (Generator (wrap uint32 (counter gen + 1)) (instanceUnique gen)).
  split_and!; [done|done| |done]. cbn [fst]. unfold layout. rewrite !length_app, !be_bytes_length, Hg. done.
Qed.

(** What is stored is what is read. *)
Lemma read_back g f id name data l s : grid_ok g -> file_of f id (_chunkSize g) (zlen data) name ->
  stored (Z.to_nat (_chunkSize g)) id 0 data l -> zlen data < 2 ^ 53 -> zlen data <= int_max int32 * _chunkSize g ->
  chunks_found s (c_string (_chunksNS g)) id 0 l ->
  exists s', GridFile_write g f s = (s', Ret (data, zlen data)) /\ gs_docs s' = gs_docs s.
Proof.
  intros [Hcs _] Hf Hst Hl Hn Hfound. unfold GridFile_write. pose proof (zlen_nonneg data).
  pose proof (stored_length (Z.to_nat (_chunkSize g)) id 0 data l ltac:(lia) Hst) as Hlen. rewrite Z2Nat.id in Hlen by lia.
  assert (- (- zlen data / _chunkSize g) <= int_max int32) as Hmax.
  { change (int_max int32) with 2147483647 in *. assert (-2147483647 <= - zlen data / _chunkSize g); [|lia].
    apply Z.div_le_lower_bound; lia. }
  rewrite (fo_exists _ _ _ _ _ Hf). change (lift (uassert 10015 true)) with (lift (S := C) (@Ret exn unit tt)).
  rewrite bind_lift_Ret. rewrite (getNumChunks_ceil f id (_chunkSize g) (zlen data) name Hf) by (cbn in *; lia).
  rewrite bind_lift_Ret, <-Hlen. unfold zlen at 1. rewrite Nat2Z.id.
  destruct (write_chunks_run g f _ id 0 data l s (fo_exists _ _ _ _ _ Hf) (fo_id _ _ _ _ _ Hf) Hst Hfound) as (s' & Hw & E).
  rewrite (bind_run _ _ _ _ _ Hw), (fo_length _ _ _ _ _ Hf), bind_lift_Ret. by exists s'.
Qed.
Lemma found_after s s' s'' (g : GridFS) id cs data l f : grid_ok g -> unused s (c_string (_chunksNS g)) id ->
  stored cs id 0 data l -> adds s s' (c_string (_chunksNS g)) l -> adds s' s'' (c_string (_filesNS g)) f ->
  chunks_found s'' (c_string (_chunksNS g)) id 0 l.
Proof.
  intros [_ Hne] [Hu1 Hu2] Hst Ha Hb. pose proof (stored_chunks _ _ _ _ _ Hst) as Hch.
  assert (gs_docs s'' (c_string (_chunksNS g)) = gs_docs s (c_string (_chunksNS g)) ++ l) as E.
  { rewrite Hb, decide_False by done. by rewrite Ha, decide_True by done. }
  split.
  - rewrite E. apply Forall_app. split; [done|]. eapply Forall_impl; [exact Hch|]. by intros d [].
  - intros i c Hl. rewrite E, filter_app, Hu2. cbn [app]. by apply (stored_lookup _ _ _ _ _ _ _ Hst).
Qed.

(** C15: a file that has been stored is read back whole: from a server that keeps what
    it is given, for every chunk size that fits a document and every length below
    2^32 with a number of chunks that is an [int], [storeFile] returns the document of
    the file, and from that document [write] gives the data and its length, the
    number of chunks being computed in doubles. *)
Theorem storeFile_write print g data name contentType s gen :
  grid_ok g -> short name contentType -> length (instanceUnique gen) = 5%nat ->
  zlen data < 2 ^ 32 -> zlen data <= int_max int32 * _chunkSize g ->
  unused s (c_string (_chunksNS g)) (next_id s gen) ->
  exists s' gen' f, storeFile print g data name contentType (s, gen) = ((s', gen'), Ret f) /\ getFilename f = name /\
    exists s'', GridFile_write g f s' = (s'', Ret (data, zlen data)).
Proof.
  intros Hg Hshort Hgen Hlen Hnum Hun. unfold storeFile. destruct (new_oid_run s gen Hgen) as (s1 & gen' & Hid & E1 & Hidl & _).
  set (id := next_id s gen) in *. rewrite (bind_run _ _ _ _ _ Hid). pose proof (zlen_nonneg data).
  destruct (store_chunks_run (length data) g id 0 data s1) as (s2 & l & Hr & Ha & Hst).
  { destruct Hg. split_and!; [lia|lia|lia|]. by rewrite Z.sub_0_r. }
  { done. } { done. } { done. }
  destruct (insertFile_run print g name id (zlen data) contentType s2 Hg Hshort Hidl ltac:(lia)) as (s3 & f & f' & Hi & Hf & Hb).
  unfold on_db at 1. cbn [fst snd]. rewrite (bind_run _ _ _ _ _ Hr), Hi. exists s3, gen', f.
  split; [done|]. split; [apply Hf|].
  destruct (read_back g f id name data l s3 Hg Hf Hst ltac:(lia) Hnum) as (s4 & Hw & _); [|by exists s4].
  apply (found_after s s2 s3 g id _ data l [f'] Hg Hun Hst); [by apply (adds_same _ s1)|done].
Qed.

(** ** What a builder stores *)

(** The state of a builder: the chunks [l] of [d] are stored, [b_pending] is not. *)
Record built (s0 s : C) (g : GridFS) (b : GridFileBuilder) (id : OID) (d : bytes) (l : list BSONObj) : Prop := mkBuilt {
  bt_chunkSize : fb_chunkSize b = _chunkSize g;
  bt_id : fb_fileId b = id;
  bt_current : fb_currentChunk b = zlen l;
  bt_length : fb_fileLength b = zlen d;
  bt_full : zlen d = _chunkSize g * zlen l;
  bt_stored : stored (Z.to_nat (_chunkSize g)) id 0 d l;
  bt_adds : adds s0 s (c_string (_chunksNS g)) l }.
Definition room (g : GridFS) (n : Z) : Prop := n < 2 ^ 53 /\ n <= int_max int32 * _chunkSize g.
Definition after_chunk (b : GridFileBuilder) (n : Z) : GridFileBuilder :=
  mkBuilder (fb_chunkSize b) (fb_currentChunk b + 1) (fb_fileId b) (fb_pending b) (fb_fileLength b + n).

(** One chunk. *)
Lemma one_chunk fuel g s0 s gen b id d l data force : grid_ok g -> length id = 12%nat -> built s0 s g b id d l ->
  data <> [] -> room g (zlen d + zlen data) -> let n := Z.min (_chunkSize g) (zlen data) in
  (n = _chunkSize g \/ force = true) ->
  exists s' c, _appendChunk (S fuel) g data force ((s, gen), b) =
      _appendChunk fuel g (drop (Z.to_nat n) data) force ((s', gen), after_chunk b n) /\
    stored (Z.to_nat (_chunkSize g)) id 0 (d ++ take (Z.to_nat n) data) (l ++ [c]) /\
    adds s0 s' (c_string (_chunksNS g)) (l ++ [c]).
Proof.
  intros [Hcs _] Hidl [Hb1 Hb2 Hb3 Hb4 Hfull Hst Ha] Hdata [Hr1 Hr2] n Hn.
  assert (0 < zlen data) as Hpos by (destruct data; [done|rewrite zlen_cons; pose proof (zlen_nonneg data); lia]).
  pose proof (zlen_nonneg d). pose proof (zlen_nonneg l). assert (zlen l < int_max int32) as Hl by nia.
  destruct data as [|x data']; [done|]. set (data := x :: data') in *. cbn [_appendChunk].
  change (match data with [] => _ | _ :: _ => ?e end) with e. clearbody data. clear x data'.
  rewrite (bind_run _ _ _ _ _ (eq_refl : fb_get ((s, gen), b) = (((s, gen), b), Ret b))). cbv beta zeta.
  rewrite Hb1. fold n. replace ((n <? _chunkSize g) && negb force) with false.
  2:{ destruct Hn as [-> | ->]; [by rewrite Z.ltb_irrefl|by rewrite andb_false_r]. }
  rewrite Hb2, Hb3. change (int_max int32) with 2147483647 in *.
  rewrite (wrap_id int32 (zlen l)) by (done || split; cbn; lia). rewrite (wrap_id int32 n) by (done || split; cbn; lia).
  destruct (insert_chunk (c_string (_chunksNS g)) (zlen l) id data n [(B "_id", VjstOID id)] s eq_refl Hidl ltac:(lia) ltac:(lia))
    as (c & s' & c' & Hc & Hi & Hadd & Hkc & Hd). rewrite Hc, bind_lift_Ret.
  assert (on_grid (on_db (_insertChunk g c)) ((s, gen), b) = (((s', gen), b), Ret tt)) as Hins
    by (unfold on_grid, on_db, _insertChunk; cbn [fst snd]; by rewrite Hi).
  rewrite (bind_run _ _ _ _ _ Hins). rewrite (wrap_id uint32), (wrap_id uint64) by (done || split; cbn; lia).
  rewrite Hb4. unfold after_chunk. rewrite Hb1, Hb2, Hb3, Hb4. exists s', c'. split; [reflexivity|].
  assert (take (Z.to_nat n) data = take (Z.to_nat (_chunkSize g)) data) as Htk.
  { destruct (decide (_chunkSize g <= zlen data)); [do 2 f_equal; lia|].
    rewrite !take_ge by (unfold zlen in *; lia). done. }
  split; [|by apply (adds_app _ s)].
  apply stored_app; [done|unfold zlen in *; nia|]. rewrite Z.add_0_l. constructor.
  - intros E. apply (f_equal length) in E. rewrite length_take in E. unfold zlen in *. cbn in E. lia.
  - done.
  - rewrite Hd, Htk, take_take. do 2 f_equal. lia.
  - rewrite drop_ge; [constructor|]. rewrite length_take. unfold zlen in *. lia.
Qed.

(** The full chunks of some data, and what is left. *)
Lemma full_chunks fuel g s0 s gen b id d l data : grid_ok g -> length id = 12%nat -> built s0 s g b id d l ->
  room g (zlen d + zlen data) -> (length data <= fuel)%nat ->
  exists s' b' d1 rest l', _appendChunk fuel g data false ((s, gen), b) = (((s', gen), b'), Ret rest) /\ data = d1 ++ rest /\
    zlen rest < _chunkSize g /\ built s0 s' g b' id (d ++ d1) l' /\ fb_pending b' = fb_pending b.
Proof.
  intros Hg Hidl. revert s b d l data. induction fuel as [|fuel IH]; intros s b d l data Hb Hroom Hf.
  { destruct data; [|cbn in Hf; lia]. exists s, b, [], [], l. destruct Hg. split_and!; [done|done|rewrite zlen_nil; lia| |done].
    by rewrite app_nil_r. }
  destruct (decide (_chunkSize g <= zlen data)) as [Hle|Hlt].
  - assert (data <> []) as Hdata by (intros ->; rewrite zlen_nil in Hle; destruct Hg; lia).
    destruct (one_chunk fuel g s0 s gen b id d l data false Hg Hidl Hb Hdata Hroom ltac:(left; lia))
      as (s1 & c & -> & Hst & Ha).
    replace (Z.min (_chunkSize g) (zlen data)) with (_chunkSize g) in * by lia. set (n := _chunkSize g) in *.
    assert (zlen (take (Z.to_nat n) data) = n) as Hn
      by (destruct Hg; unfold zlen in *; rewrite length_take; lia).
    destruct (IH s1 (after_chunk b n) (d ++ take (Z.to_nat n) data) (l ++ [c]) (drop (Z.to_nat n) data))
      as (s2 & b' & d1 & rest & l' & Hr & Hdr & Hrest & Hb' & Hp).
    + destruct Hb as [H1b H2b H3b H4b Hfull _ _]. split; cbn [after_chunk fb_chunkSize fb_fileId fb_currentChunk fb_fileLength]; try done.
      * rewrite zlen_app, zlen_cons, zlen_nil. lia.
      * rewrite zlen_app, Hn. lia.
      * rewrite !zlen_app, zlen_cons, zlen_nil, Hn. fold n. nia.
    + destruct Hroom as [Hr1 Hr2]. rewrite zlen_app, Hn. destruct Hg as [Hg _].
      assert (zlen (drop (Z.to_nat n) data) = zlen data - n) as -> by (unfold zlen in *; rewrite length_drop; lia).
      split; [lia|]. fold n. lia.
    + destruct Hg. rewrite length_drop. unfold zlen in *. lia.
    + exists s2, b', (take (Z.to_nat n) data ++ d1), rest, l'. split_and!; [done| |done| |done].
      * rewrite <-app_assoc, <-Hdr. by rewrite take_drop.
      * by rewrite app_assoc.
  - exists s, b, [], data, l. destruct Hg. split_and!; [|done|lia|by rewrite app_nil_r|done].
    destruct data as [|x data']; [done|]. cbn [_appendChunk].
    rewrite (bind_run _ _ _ _ _ (eq_refl : fb_get ((s, gen), b) = (((s, gen), b), Ret b))). cbv beta zeta.
    destruct Hb as [-> _ _ _ _ _ _]. replace (Z.min _ _ <? _chunkSize g) with true by lia. done.
Qed.

Definition set_pending (d : bytes) (b : GridFileBuilder) : GridFileBuilder :=
  mkBuilder (fb_chunkSize b) (fb_currentChunk b) (fb_fileId b) d (fb_fileLength b).
Lemma built_set_pending s0 s g b id d l p : built s0 s g b id d l -> built s0 s g (set_pending p b) id d l.
Proof. by intros []. Qed.
Lemma fb_set_pending_run (sg : C * generator) b p : fb_set_pending p (sg, b) = ((sg, set_pending p b), Ret tt).
Proof. reflexivity. Qed.
Lemma fb_get_run {A} (sg : C * generator) b (f : GridFileBuilder -> SE Building A) : (fb_get ≫= f) (sg, b) = f b (sg, b).
Proof. reflexivity. Qed.
Lemma appendChunk_nil fuel g force (sgb : Building) : _appendChunk fuel g [] force sgb = (sgb, Ret []).
Proof. by destruct fuel. Qed.

(** A block of pending data: it becomes a chunk, the last one unless it is full. *)
Lemma append_pending g s0 s gen b id d l : grid_ok g -> length id = 12%nat -> built s0 s g b id d l ->
  0 < zlen (fb_pending b) <= _chunkSize g -> room g (zlen d + zlen (fb_pending b)) ->
  exists s' c, _appendPendingData g ((s, gen), b) =
      (((s', gen), set_pending [] (after_chunk b (zlen (fb_pending b)))), Ret tt) /\
    stored (Z.to_nat (_chunkSize g)) id 0 (d ++ fb_pending b) (l ++ [c]) /\ adds s0 s' (c_string (_chunksNS g)) (l ++ [c]).
Proof.
  intros Hg Hidl Hb Hp Hroom. unfold _appendPendingData. rewrite fb_get_run.
  replace (0 <? zlen (fb_pending b)) with true by lia.
  assert (fb_pending b <> []) as Hne by (intros E; rewrite E in Hp; unfold zlen in Hp; cbn in Hp; lia).
  destruct (length (fb_pending b)) as [|fuel] eqn:El; [unfold zlen in Hp; lia|].
  destruct (one_chunk fuel g s0 s gen b id d l (fb_pending b) true Hg Hidl Hb Hne Hroom ltac:(by right))
    as (s' & c & Hr & Hst & Ha).
  replace (Z.min (_chunkSize g) (zlen (fb_pending b))) with (zlen (fb_pending b)) in * by lia.
  assert (take (Z.to_nat (zlen (fb_pending b))) (fb_pending b) = fb_pending b) as Htk by (rewrite take_ge; [done|unfold zlen; lia]).
  assert (drop (Z.to_nat (zlen (fb_pending b))) (fb_pending b) = []) as Hdr by (rewrite drop_ge; [done|unfold zlen; lia]).
  rewrite Hdr, appendChunk_nil in Hr. rewrite Htk in Hst. rewrite (bind_run _ _ _ _ _ Hr), fb_set_pending_run. by exists s', c.
Qed.

(** What is kept of a block of [n] bytes when [p] bytes are pending: everything, unless
    it fills the block that is pending. *)
Definition kept_of (cs p : Z) (data : bytes) : bytes :=
  if (0 <? p) && (cs <=? p + zlen data) then take (Z.to_nat (cs * ((p + zlen data) / cs) - p)) data else data.
Lemma kept_of_nil cs p : kept_of cs p [] = [].
Proof. unfold kept_of. destruct (_ && _); [apply take_nil|done]. Qed.

Lemma append_block_run g s0 s gen b id d l data : grid_ok g -> length id = 12%nat -> built s0 s g b id d l ->
  zlen (fb_pending b) < _chunkSize g -> room g (zlen d + zlen (fb_pending b) + zlen data) ->
  exists s' b' d' l', appendChunk g data ((s, gen), b) = (((s', gen), b'), Ret tt) /\ built s0 s' g b' id d' l' /\
    zlen (fb_pending b') < _chunkSize g /\
    d' ++ fb_pending b' = d ++ fb_pending b ++ kept_of (_chunkSize g) (zlen (fb_pending b)) data.
Proof.
  intros Hg Hidl Hb Hp Hroom. pose proof Hg as [Hcs _]. pose proof Hroom as [Hr1 Hr2]. unfold appendChunk.
  pose proof (zlen_nonneg d). pose proof (zlen_nonneg data). pose proof (zlen_nonneg (fb_pending b)).
  destruct (zlen data =? 0) eqn:Ed.
  { destruct data; [|rewrite zlen_cons in Ed; pose proof (zlen_nonneg data); lia].
    exists s, b, d, l. rewrite kept_of_nil, app_nil_r. done. }
  rewrite fb_get_run. destruct (0 <? zlen (fb_pending b)) eqn:Epos.
  - unfold size_wrap. rewrite Z.mod_small by lia. rewrite (bt_chunkSize _ _ _ _ _ _ _ Hb).
    set (p := zlen (fb_pending b)) in *. set (n := zlen data) in *. set (cs := _chunkSize g) in *.
    set (size := Z.min cs (p + n) - p). unfold read_bytes. fold n.
    replace ((0 <=? 0) && (0 <=? size) && (0 + size <=? n)) with true by lia. rewrite bind_lift_Ret.
    change (Z.to_nat 0) with O. rewrite drop_0. rewrite (bind_run _ _ _ _ _ (fb_set_pending_run _ _ _)).
    assert (zlen (take (Z.to_nat size) data) = size) as Hts by (unfold n, zlen in *; rewrite length_take; lia).
    assert (zlen (fb_pending b ++ take (Z.to_nat size) data) = p + size) as -> by (rewrite zlen_app, Hts; done).
    replace (p + size <=? cs) with true by lia. change (lift (invariant true)) with (lift (S := C * generator * GridFileBuilder) (@Ret exn unit tt)).
    rewrite bind_lift_Ret. unfold kept_of. fold n. rewrite Epos. cbn [andb].
    destruct (p + size =? cs) eqn:Efull.
    + replace (cs <=? p + n) with true by lia. set (b1 := set_pending _ b).
      assert (zlen (fb_pending b1) = cs) as Hb1p by (cbn [b1 set_pending fb_pending]; rewrite zlen_app, Hts; fold p; lia).
      destruct (append_pending g s0 s gen b1 id d l Hg Hidl (built_set_pending _ _ _ _ _ _ _ _ Hb) ltac:(fold cs; lia)) as (s1 & c & Hr & Hst & Ha).
      { split; fold cs; lia. }
      rewrite (bind_run _ _ _ _ _ Hr). rewrite Hb1p in *. set (b2 := set_pending [] _).
      assert (built s0 s1 g b2 id (d ++ fb_pending b1) (l ++ [c])) as Hb2.
      { destruct Hb as [H1b H2b H3b H4b Hfull _ _]. split; try done; cbn [b2 b1 set_pending after_chunk fb_currentChunk fb_fileLength].
        - rewrite zlen_app, zlen_cons, zlen_nil. lia.
        - rewrite zlen_app, Hb1p. lia.
        - rewrite !zlen_app, Hb1p, zlen_cons, zlen_nil, Hfull. fold cs. lia. }
      assert (zlen (drop (Z.to_nat size) data) = n - size) as Hdl by (unfold n, zlen in *; rewrite length_drop; lia).
      destruct (full_chunks (length data) g s0 s1 gen b2 id _ _ (drop (Z.to_nat size) data) Hg Hidl Hb2)
        as (s2 & b3 & d1 & rest & l' & Hr2' & Hdr & Hrest & Hb3 & Hp3).
      { rewrite zlen_app, Hb1p, Hdl. apply Z.eqb_eq in Efull.
        replace (zlen d + cs + (n - size)) with (zlen d + p + n) by lia. done. } { rewrite length_drop. lia. }
      rewrite (bind_run _ _ _ _ _ Hr2'). exists s2, b3, ((d ++ fb_pending b1) ++ d1), l'. rewrite Hp3.
      split_and!; [done|done|change (zlen (fb_pending b2)) with 0; lia|]. cbn [b2 set_pending fb_pending]. rewrite app_nil_r, <-!app_assoc.
      cbn [b1 set_pending fb_pending]. rewrite <-app_assoc. do 2 f_equal.
      assert (zlen d1 + zlen rest = n - size) as Hd1 by (rewrite <-zlen_app, <-Hdr; done).
      pose proof (bt_full _ _ _ _ _ _ _ Hb3) as Hmul. rewrite !zlen_app, Hb1p, (bt_full _ _ _ _ _ _ _ Hb) in Hmul. fold cs in Hmul, Hrest.
      pose proof (zlen_nonneg rest).
      assert ((p + n) / cs = zlen l' - zlen l) as ->.
      { symmetry. apply (Z.div_unique_pos _ _ _ (zlen rest)); lia. }
      replace (Z.to_nat (cs * (zlen l' - zlen l) - p)) with (Z.to_nat size + length d1)%nat by (unfold zlen in *; lia).
      rewrite <-(take_drop (Z.to_nat size) data) at 2. rewrite take_app_ge by (rewrite length_take; unfold n, zlen in *; lia).
      f_equal. rewrite Hdr. rewrite take_app_le by (rewrite length_take; unfold n, zlen in *; lia).
      rewrite take_ge; [done|]. rewrite length_take. unfold n, zlen in *. lia.
    + replace (cs <=? p + n) with false by lia. exists s, (set_pending (fb_pending b ++ take (Z.to_nat size) data) b), d, l.
      split; [done|]. split; [by apply built_set_pending|]. cbn [set_pending fb_pending].
      rewrite zlen_app, Hts. split; [fold p; lia|]. do 2 f_equal. apply take_ge. unfold n, zlen in *. lia.
  - assert (fb_pending b = []) as Ep by (destruct (fb_pending b); [done|rewrite zlen_cons in Epos; pose proof (zlen_nonneg l0); lia]).
    rewrite Ep in *. rewrite zlen_nil in *.
    destruct (full_chunks (length data) g s0 s gen b id d l data Hg Hidl Hb ltac:(split; lia) ltac:(lia))
      as (s1 & b1 & d1 & rest & l' & Hr & Hdr & Hrest & Hb1 & Hp1).
    rewrite (bind_run _ _ _ _ _ Hr). rewrite Ep in Hp1. pose proof (zlen_nonneg rest). unfold kept_of. cbn [Z.ltb Z.compare andb app].
    destruct (zlen rest =? 0) eqn:Er.
    + destruct rest; [|rewrite zlen_cons in Er; pose proof (zlen_nonneg rest); lia].
      exists s1, b1, (d ++ d1), l'. rewrite Hp1, zlen_nil. split_and!; [done|done|lia|]. rewrite Hdr. by rewrite <-!app_assoc.
    + rewrite fb_get_run. exists s1, (set_pending (fb_pending b1 ++ rest) b1), (d ++ d1), l'. split; [done|].
      split; [by apply built_set_pending|]. cbn [set_pending fb_pending]. rewrite Hp1. cbn [app]. split; [done|].
      rewrite Hdr. by rewrite <-app_assoc.
Qed.

(** A file made of blocks: a new builder, the blocks, [buildFile]. *)
Fixpoint appendChunks g (blocks : list bytes) : SE Building unit :=
  match blocks with [] => mret tt | d :: blocks => appendChunk g d;; appendChunks g blocks end.
Definition with_builder {A} (m : SE Building A) (b : GridFileBuilder) : SE (C * generator) A := fun sg =>
  let '((sg, _), r) := m (sg, b) in (sg, r).
Definition build_file print g (blocks : list bytes) (name contentType : bytes) : SE (C * generator) BSONObj :=
  b ← GridFileBuilder_ctor g; with_builder (appendChunks g blocks;; buildFile print g name contentType) b.

(** What is kept of the blocks when [p] bytes are pending. *)
Fixpoint kept (cs p : Z) (blocks : list bytes) : bytes :=
  match blocks with
  | [] => []
  | d :: blocks => let d' := kept_of cs p d in d' ++ kept cs ((p + zlen d') mod cs) blocks
  end.
Lemma kept_of_length cs p d : 0 < cs -> zlen (kept_of cs p d) <= zlen d.
Proof. intros. unfold kept_of, zlen. destruct (_ && _); [rewrite length_take; lia|lia]. Qed.

Lemma appendChunks_run g s0 blocks : grid_ok g -> forall s gen b id d l, length id = 12%nat -> built s0 s g b id d l ->
  zlen (fb_pending b) < _chunkSize g -> room g (zlen d + zlen (fb_pending b) + zlen (concat blocks)) ->
  exists s' b' d' l', appendChunks g blocks ((s, gen), b) = (((s', gen), b'), Ret tt) /\ built s0 s' g b' id d' l' /\
    zlen (fb_pending b') < _chunkSize g /\
    d' ++ fb_pending b' = d ++ fb_pending b ++ kept (_chunkSize g) (zlen (fb_pending b)) blocks.
Proof.
  intros Hg. induction blocks as [|x blocks IH]; intros s gen b id d l Hidl Hb Hp Hroom.
  { exists s, b, d, l. cbn [kept]. by rewrite app_nil_r. }
  cbn [concat] in Hroom. rewrite zlen_app in Hroom. pose proof (zlen_nonneg (concat blocks)).
  destruct (append_block_run g s0 s gen b id d l x Hg Hidl Hb Hp) as (s1 & b1 & d1 & l1 & Hr & Hb1 & Hp1 & Hd1).
  { destruct Hroom. split; lia. }
  assert (zlen d1 + zlen (fb_pending b1) =
    zlen d + zlen (fb_pending b) + zlen (kept_of (_chunkSize g) (zlen (fb_pending b)) x)) as Hlen
    by (rewrite <-!zlen_app, Hd1, !zlen_app; lia).
  pose proof (kept_of_length (_chunkSize g) (zlen (fb_pending b)) x ltac:(destruct Hg; lia)).
  destruct (IH s1 gen b1 id d1 l1 Hidl Hb1 Hp1) as (s2 & b2 & d2 & l2 & Hr2 & Hb2 & Hp2 & Hd2).
  { destruct Hroom. split; lia. }
  exists s2, b2, d2, l2. cbn [appendChunks kept]. rewrite (bind_run _ _ _ _ _ Hr). split_and!; [done|done|done|].
  rewrite Hd2, app_assoc, Hd1, <-!app_assoc. do 4 f_equal.
  pose proof (bt_full _ _ _ _ _ _ _ Hb) as Hf. pose proof (bt_full _ _ _ _ _ _ _ Hb1) as Hf1. pose proof (zlen_nonneg (fb_pending b1)).
  apply (Z.mod_unique_pos _ _ (zlen l1 - zlen l)); lia.
Qed.

(** A file built block by block has what [kept] says, and no more is lost: the bytes
    of a block that come after the pending data has filled a chunk, and after the full
    chunks that follow it, are dropped.  Reading the file gives the bytes that were
    kept and their number; they are all the bytes when each block that fills the
    pending data ends a chunk. *)
Theorem GridFileBuilder_stores print g blocks name contentType s gen :
  grid_ok g -> short name contentType -> length (instanceUnique gen) = 5%nat ->
  room g (zlen (concat blocks)) -> unused s (c_string (_chunksNS g)) (next_id s gen) ->
  exists s' gen' f, build_file print g blocks name contentType (s, gen) = ((s', gen'), Ret f) /\ getFilename f = name /\
    let data := kept (_chunkSize g) 0 blocks in
    exists s'', GridFile_write g f s' = (s'', Ret (data, zlen data)).
Proof.
  intros Hg Hshort Hgen Hroom Hun. unfold build_file, GridFileBuilder_ctor.
  destruct (new_oid_run s gen Hgen) as (s1 & gen1 & Hid & E1 & Hidl & Hgen1). set (id := next_id s gen) in *.
  pose proof Hg as [Hcs _]. set (b0 := mkBuilder (getChunkSize g) 0 id [] 0).
  assert ((x ← new_oid; mret (mkBuilder (getChunkSize g) 0 x [] 0)) (s, gen) = ((s1, gen1), Ret b0)) as Hctor
    by (by rewrite (bind_run _ _ _ _ _ Hid)).
  rewrite (bind_run _ _ _ _ _ Hctor). unfold with_builder.
  assert (built s s1 g b0 id [] []) as Hb0.
  { split; try done; [unfold zlen; cbn; lia|constructor|]. intros ns. rewrite E1. case_decide; by rewrite ?app_nil_r. }
  destruct (appendChunks_run g s blocks Hg s1 gen1 b0 id [] [] Hidl Hb0) as (s2 & b2 & d2 & l2 & Hr & Hb2 & Hp2 & Hd2).
  { change (zlen (fb_pending b0)) with 0. lia. } { exact Hroom. }
  change (zlen (fb_pending b0)) with 0 in Hd2. cbn [app b0 fb_pending] in Hd2. set (data := kept _ 0 blocks) in *.
  rewrite (bind_run _ _ _ _ _ Hr).
  assert (zlen data <= zlen (concat blocks)) as Hle.
  { unfold data. clear -Hcs. generalize 0. induction blocks as [|x blocks IH]; intros p; [done|]. cbn [kept concat].
    rewrite !zlen_app. specialize (IH ((p + zlen (kept_of (_chunkSize g) p x)) mod _chunkSize g)).
    pose proof (kept_of_length (_chunkSize g) p x ltac:(lia)). lia. }
  assert (zlen d2 + zlen (fb_pending b2) = zlen data) as Hlen by (by rewrite <-zlen_app, Hd2).
  assert (exists s3 b3 l3, _appendPendingData g ((s2, gen1), b2) = (((s3, gen1), b3), Ret tt) /\
    stored (Z.to_nat (_chunkSize g)) id 0 data l3 /\ adds s s3 (c_string (_chunksNS g)) l3 /\
    fb_fileId b3 = id /\ fb_fileLength b3 = zlen data) as (s3 & b3 & l3 & Hap & Hst & Ha & Hi3 & Hl3).
  { destruct Hroom as [Hr1 Hr2]. pose proof (zlen_nonneg (fb_pending b2)). destruct (decide (zlen (fb_pending b2) = 0)) as [E0|Hne].
    - exists s2, b2, l2. unfold _appendPendingData. rewrite fb_get_run, E0.
      assert (fb_pending b2 = []) as Ep by (apply nil_length_inv; unfold zlen in E0; lia).
      rewrite Ep, app_nil_r in Hd2. rewrite <-Hd2. by destruct Hb2.
    - destruct (append_pending g s s2 gen1 b2 id d2 l2 Hg Hidl Hb2 ltac:(lia)) as (s3 & c & Hap & Hst & Ha).
      { split; lia. }
      eexists s3, _, (l2 ++ [c]). split; [exact Hap|]. rewrite Hd2 in Hst. split_and!; [done|done|apply Hb2|].
      cbn [set_pending after_chunk fb_fileLength]. rewrite (bt_length _ _ _ _ _ _ _ Hb2). done. }
  unfold buildFile. rewrite (bind_run _ _ _ _ _ Hap), fb_get_run, Hi3, Hl3. pose proof (zlen_nonneg data). destruct Hroom as [Hr1 Hr2].
  destruct (insertFile_run print g name id (zlen data) contentType s3 Hg Hshort Hidl ltac:(lia)) as (s4 & f & f' & Hi & Hf & Hb).
  assert (on_grid (on_db (insertFile print g name id (zlen data) contentType)) ((s3, gen1), b3) = (((s4, gen1), b3), Ret f)) as Hi'
    by (unfold on_grid, on_db; cbn [fst snd]; by rewrite Hi).
  rewrite (bind_run _ _ _ _ _ Hi'). destruct (new_oid_run s4 gen1 Hgen1) as (s5 & gen5 & Hid5 & E5 & _).
  assert (on_grid new_oid ((s4, gen1), b3) = (((s5, gen5), b3), Ret (next_id s4 gen1))) as Hid5'
    by (unfold on_grid; cbn [fst snd]; by rewrite Hid5).
  rewrite (bind_run _ _ _ _ _ Hid5'). exists s5, gen5, f. split; [reflexivity|]. split; [apply Hf|]. cbv zeta.
  destruct (read_back g f id name data l3 s5 Hg Hf Hst ltac:(lia) ltac:(lia)) as (s6 & Hw & _); [|by exists s6].
  apply (found_after s s3 s5 g id _ data l3 [f'] Hg Hun Hst Ha). intros ns. rewrite E5. apply Hb.
Qed.
End Files.

(** Nothing is lost when the sizes of the blocks allow it. *)
Fixpoint lossless (cs p : Z) (blocks : list bytes) : bool :=
  match blocks with
  | [] => true
  | d :: blocks =>
      negb ((0 <? p) && (cs <=? p + zlen d) && negb ((p + zlen d) mod cs =? 0)) && lossless cs ((p + zlen d) mod cs) blocks
  end.
Lemma kept_lossless cs p blocks : 0 < cs -> 0 <= p < cs -> lossless cs p blocks = true -> kept cs p blocks = concat blocks.
Proof.
  intros Hcs. revert p. induction blocks as [|d blocks IH]; intros p Hp Hl; [done|]. cbn [lossless kept concat] in *.
  apply andb_true_iff in Hl as [H1 H2].
  assert (kept_of cs p d = d) as ->.
  { unfold kept_of. destruct ((0 <? p) && (cs <=? p + zlen d)); [|done]. cbn [andb] in H1.
    apply negb_true_iff, negb_false_iff, Z.eqb_eq in H1. pose proof (Z.div_mod (p + zlen d) cs ltac:(lia)).
    apply take_ge. unfold zlen in *. lia. }
  f_equal. apply IH; [|done]. apply Z.mod_pos_bound. lia.
Qed.

(** ** A server that keeps documents *)

Definition ToyDB : Type := list (bytes * BSONObj).
Definition toy_docs (s : list (bytes * BSONObj)) (ns : bytes) : list BSONObj := snd <$> filter (fun x => x.1 = ns) s.
Definition toy_ok : BSONObj :=
  [(B "ok", VNumberInt 1); (B "err", VjstNULL); (B "md5", VString (replicate 32 "0"%char))].
Definition toy_find (ns : bytes) (q : BSONObj) (s : ToyDB) : BSONObj :=
  match q with
  | [(_, VjstOID id); (_, VNumberInt n)] => default [] (head (filter (chunk_of id n) (toy_docs s ns)))
  | _ => default [] (last (toy_docs s ns))
  end.
Global Instance toy_db : DBOps ToyDB := {
  run_command _ _ _ := fun s => (s, Ret (true, toy_ok));
  db_insert ns o := fun s => (s ++ [(ns, o)], Ret tt);
  db_update _ _ _ _ _ := fun s => (s, Ret tt);
  db_remove _ _ := fun s => (s, Ret tt);
  db_findOne ns q _ := fun s => (s, Ret (toy_find ns q s)) }.
Global Instance toy_grid : GridOps ToyDB := {
  Cur := list BSONObj;
  db_query ns _ := fun s => (s, Ret (Some (toy_docs s ns)));
  cur_more l := fun s => (s, Ret (l, bool_decide (l <> [])));
  cur_next l := fun s => (s, Ret (tail l, default [] (head l)));
  time_now := fun s => (s, Ret 1400000000);
  DATENOW := fun s => (s, Ret 1400000000000) }.
Lemma toy_insert ns o s : obj_size o <= maxDocument -> exists s' o', db_insert ns o s = (s', Ret tt) /\ with_id o o' /\
  forall ns', toy_docs s' ns' = if decide (ns' = ns) then toy_docs s ns' ++ [o'] else toy_docs s ns'.
Proof.
  intros _. exists (s ++ [(ns, o)]), o. split; [done|]. split; [by left|]. intros ns'. unfold toy_docs.
  rewrite (filter_app (fun x : bytes * BSONObj => x.1 = ns') s), fmap_app. case_decide as E.
  - subst. by rewrite filter_cons_True.
  - by rewrite filter_cons_False, filter_nil, app_nil_r by (cbn; congruence).
Qed.
Global Instance toy_server : GridServer ToyDB := {
  gs_docs := toy_docs;
  gs_insert := toy_insert;
  gs_lastError s := ex_intro _ s (ex_intro _ toy_ok (conj eq_refl (conj eq_refl (conj eq_refl eq_refl))));
  gs_filemd5 db id root s :=
    ex_intro _ s (ex_intro _ toy_ok (ex_intro _ (replicate 32 "0"%char) (conj eq_refl (conj eq_refl (conj eq_refl eq_refl)))));
  gs_time s := ex_intro _ s (ex_intro _ _ (conj eq_refl eq_refl));
  gs_date s := ex_intro _ s (ex_intro _ _ (conj eq_refl eq_refl));
  gs_findChunk ns id n s _ := ex_intro _ s (conj eq_refl eq_refl) }.

Definition toy_fs (cs : Z) : GridFS := mkGridFS (B "db") (B "fs") (B "db.fs.files") (B "db.fs.chunks") cs.
Definition toy_gen : generator := Generator 7 (B "abcde").
Lemma toy_unused cs : unused (@nil (bytes * BSONObj)) (c_string (_chunksNS (toy_fs cs))) (next_id (@nil (bytes * BSONObj)) toy_gen).
Proof. split; [constructor|done]. Qed.
Lemma toy_fs_ok cs : 0 < cs <= 16000000 -> grid_ok (toy_fs cs).
Proof. intros. split; [done|]. intros E. vm_compute in E. discriminate E. Qed.

Lemma storeFile_write_witness :
  exists s' gen' f, storeFile (fun _ => []) (toy_fs 4) (B "0123456789") (B "a") [] ([] : ToyDB, toy_gen) = ((s', gen'), Ret f) /\
    getFilename f = B "a" /\ exists s'', GridFile_write (toy_fs 4) f s' = (s'', Ret (B "0123456789", 10)).
Proof.
  apply (storeFile_write (fun _ => []) (toy_fs 4) (B "0123456789") (B "a") [] ([] : ToyDB) toy_gen).
  - apply toy_fs_ok. lia.
  - by vm_compute.
  - reflexivity.
  - by vm_compute.
  - by vm_compute.
  - apply toy_unused.
Defined.
Lemma GridFileBuilder_stores_witness :
  exists s' gen' f, build_file (fun _ => []) (toy_fs 4) [B "012"; B "3"; B "456789"] (B "a") [] ([] : ToyDB, toy_gen) = ((s', gen'), Ret f) /\
    getFilename f = B "a" /\ exists s'', GridFile_write (toy_fs 4) f s' = (s'', Ret (B "0123456789", 10)).
Proof.
  apply (GridFileBuilder_stores (fun _ => []) (toy_fs 4) [B "012"; B "3"; B "456789"] (B "a") [] ([] : ToyDB) toy_gen).
  - apply toy_fs_ok. lia.
  - by vm_compute.
  - reflexivity.
  - by split; vm_compute.
  - apply toy_unused.
Defined.

(** The end of a block that fills the pending data is lost: of ten bytes in blocks of
    three and seven, with chunks of four, eight are stored. *)
Lemma builder_loses_data : kept 4 0 [B "012"; B "3456789"] = B "01234567".
Proof. reflexivity. Qed.
(** A file whose length is a multiple of the chunk size gets an empty chunk more when it
    is stored from a file. *)
Lemma file_has_empty_chunk :
  let '((s, _), _) := storeFile_file (fun _ => []) (fun _ => Some (B "01234567")) (toy_fs 4) (B "f") [] []
                        ([] : ToyDB, toy_gen) in
  chunk_data <$> toy_docs s (B "db.fs.chunks") = [Ret (B "0123"); Ret (B "4567"); Ret []].
Proof. vm_compute. reflexivity. Qed.
(** A length that is a multiple of 2^32 has a chunk of no bytes next, for ever. *)
Lemma chunk_of_nothing cs : 0 < cs -> chunk_length (toy_fs cs) (2 ^ 32) = 0.
Proof. intros. unfold chunk_length. change (wrap uint32 (2 ^ 32)) with 0. cbn [_chunkSize toy_fs]. by rewrite Z.min_r by lia. Qed.
(** The type of the contents of a file that has none is read where there is no string. *)
Lemma no_content_type :
  let '((_, _), r) := storeFile (fun _ => []) (toy_fs 4) (B "x") (B "f") [] ([] : ToyDB, toy_gen) in
  match r with Ret f => getContentType f = Throw EUndefined | _ => False end.
Proof. vm_compute. reflexivity. Qed.
