(* ===== verification/Md5.v ===== *)
(** * MD5: util/md5.cpp, util/md5.hpp, util/password_digest.cpp

    Words are numbers reduced to 32 bits.  The state is what has been hashed so far: a
    count of bits in two words, the registers, and the buffer, of which the bytes below
    the count matter.  At the end the streaming interface is compared with a reference:
    the whole message, padded, a block after the other. *)
From S2P Require Import Prelude StringData BsonTypes BufBuilder Bson Oid.
Local Open Scope Z_scope.

Definition word (z : Z) : Z := wrap uint32 z.
Definition word_not (x : Z) : Z := Z.lxor x (2 ^ 32 - 1).

(** ** One block *)

Record Regs := mkRegs { ra : Z; rb : Z; rc : Z; rd : Z }.

Definition ROTATE_LEFT (x n : Z) : Z := Z.lor (word (Z.shiftl x n)) (Z.shiftr x (32 - n)).
Definition md5_F (x y z : Z) : Z := Z.lor (Z.land x y) (Z.land (word_not x) z).
Definition md5_G (x y z : Z) : Z := Z.lor (Z.land x z) (Z.land y (word_not z)).
Definition md5_H (x y z : Z) : Z := Z.lxor (Z.lxor x y) z.
Definition md5_I (x y z : Z) : Z := Z.lxor y (Z.lor x (word_not z)).

(** [SET(a, b, c, d, k, s, Ti)]: the new value of the first register. *)
Definition md5_SET (f : Z -> Z -> Z -> Z) (X : list Z) (a b c d : Z) (k : nat) (s Ti : Z) : Z :=
  let t := word (a + f b c d + nth k X 0 + Ti) in word (ROTATE_LEFT t s + b).
(** One operation: the registers are renamed by the calls [SET(a, b, c, d, ..)],
    [SET(d, a, b, c, ..)], [SET(c, d, a, b, ..)] and [SET(b, c, d, a, ..)]. *)
Definition md5_op (f : Z -> Z -> Z -> Z) (X : list Z) (i : nat) (r : Regs) (op : nat * Z * Z) : Regs :=
  let '(k, s, Ti) := op in
  match (i mod 4)%nat with
  | 0%nat => mkRegs (md5_SET f X (ra r) (rb r) (rc r) (rd r) k s Ti) (rb r) (rc r) (rd r)
  | 1%nat => mkRegs (ra r) (rb r) (rc r) (md5_SET f X (rd r) (ra r) (rb r) (rc r) k s Ti)
  | 2%nat => mkRegs (ra r) (rb r) (md5_SET f X (rc r) (rd r) (ra r) (rb r) k s Ti) (rd r)
  | _ => mkRegs (ra r) (md5_SET f X (rb r) (rc r) (rd r) (ra r) k s Ti) (rc r) (rd r)
  end.
Fixpoint md5_round (f : Z -> Z -> Z -> Z) (X : list Z) (i : nat) (ops : list (nat * Z * Z)) (r : Regs) : Regs :=
  match ops with [] => r | op :: ops => md5_round f X (S i) ops (md5_op f X i r op) end.

(** The constants [T1] to [T64]: those with the highest bit set are written as the
    complement of a smaller one. *)
Definition T_MASK : Z := 0xffffffff.
Definition md5_T1 : list Z :=
  [Z.lxor T_MASK 0x28955b87; Z.lxor T_MASK 0x173848a9; 0x242070db; Z.lxor T_MASK 0x3e423111;
   Z.lxor T_MASK 0x0a83f050; 0x4787c62a; Z.lxor T_MASK 0x57cfb9ec; Z.lxor T_MASK 0x02b96afe;
   0x698098d8; Z.lxor T_MASK 0x74bb0850; Z.lxor T_MASK 0x0000a44e; Z.lxor T_MASK 0x76a32841;
   0x6b901122; Z.lxor T_MASK 0x02678e6c; Z.lxor T_MASK 0x5986bc71; 0x49b40821].
Definition md5_T2 : list Z :=
  [Z.lxor T_MASK 0x09e1da9d; Z.lxor T_MASK 0x3fbf4cbf; 0x265e5a51; Z.lxor T_MASK 0x16493855;
   Z.lxor T_MASK 0x29d0efa2; 0x02441453; Z.lxor T_MASK 0x275e197e; Z.lxor T_MASK 0x182c0437;
   0x21e1cde6; Z.lxor T_MASK 0x3cc8f829; Z.lxor T_MASK 0x0b2af278; 0x455a14ed;
   Z.lxor T_MASK 0x561c16fa; Z.lxor T_MASK 0x03105c07; 0x676f02d9; Z.lxor T_MASK 0x72d5b375].
Definition md5_T3 : list Z :=
  [Z.lxor T_MASK 0x0005c6bd; Z.lxor T_MASK 0x788e097e; 0x6d9d6122; Z.lxor T_MASK 0x021ac7f3;
   Z.lxor T_MASK 0x5b4115bb; 0x4bdecfa9; Z.lxor T_MASK 0x0944b49f; Z.lxor T_MASK 0x4140438f;
   0x289b7ec6; Z.lxor T_MASK 0x155ed805; Z.lxor T_MASK 0x2b10cf7a; 0x04881d05;
   Z.lxor T_MASK 0x262b2fc6; Z.lxor T_MASK 0x1924661a; 0x1fa27cf8; Z.lxor T_MASK 0x3b53a99a].
Definition md5_T4 : list Z :=
  [Z.lxor T_MASK 0x0bd6ddbb; 0x432aff97; Z.lxor T_MASK 0x546bdc58; Z.lxor T_MASK 0x036c5fc6;
   0x655b59c3; Z.lxor T_MASK 0x70f3336d; Z.lxor T_MASK 0x00100b82; Z.lxor T_MASK 0x7a7ba22e;
   0x6fa87e4f; Z.lxor T_MASK 0x01d3191f; Z.lxor T_MASK 0x5cfebceb; 0x4e0811a1;
   Z.lxor T_MASK 0x08ac817d; Z.lxor T_MASK 0x42c50dca; 0x2ad7d2bb; Z.lxor T_MASK 0x14792c6e].
Definition md5_ops (ks : list nat) (ss : list Z) (Ts : list Z) : list (nat * Z * Z) :=
  (fun '(k, s, t) => (k, s, t)) <$> zip (zip ks ss) Ts.
Definition repeat4 (l : list Z) : list Z := l ++ l ++ l ++ l.
Definition md5_ops1 := md5_ops [0; 1; 2; 3; 4; 5; 6; 7; 8; 9; 10; 11; 12; 13; 14; 15]%nat (repeat4 [7; 12; 17; 22]) md5_T1.
Definition md5_ops2 := md5_ops [1; 6; 11; 0; 5; 10; 15; 4; 9; 14; 3; 8; 13; 2; 7; 12]%nat (repeat4 [5; 9; 14; 20]) md5_T2.
Definition md5_ops3 := md5_ops [5; 8; 11; 14; 1; 4; 7; 10; 13; 0; 3; 6; 9; 12; 15; 2]%nat (repeat4 [4; 11; 16; 23]) md5_T3.
Definition md5_ops4 := md5_ops [0; 7; 14; 5; 12; 3; 10; 1; 8; 15; 6; 13; 4; 11; 2; 9]%nat (repeat4 [6; 10; 15; 21]) md5_T4.

(** The words of a block, little endian. *)
Fixpoint block_words (n : nat) (data : bytes) : list Z :=
  match n with O => [] | S n => le_value (take 4 data) :: block_words n (drop 4 data) end.
(** [md5_process], of the 64 bytes at [data]. *)
Definition md5_process (abcd : Regs) (data : bytes) : Regs :=
  let X := block_words 16 data in
  let r := md5_round md5_F X 0 md5_ops1 abcd in
  let r := md5_round md5_G X 0 md5_ops2 r in
  let r := md5_round md5_H X 0 md5_ops3 r in
  let r := md5_round md5_I X 0 md5_ops4 r in
  mkRegs (word (ra abcd + ra r)) (word (rb abcd + rb r)) (word (rc abcd + rc r)) (word (rd abcd + rd r)).

(** ** The stream *)

(** [count[0]] is the low word.  The buffer has 64 bytes. *)
Record md5_state := mkMd5 { count0 : Z; count1 : Z; abcd : Regs; buf : bytes }.
Definition md5_init_regs : Regs :=
  mkRegs 0x67452301 (Z.lxor T_MASK 0x10325476) (Z.lxor T_MASK 0x67452301) 0x10325476.
(** The bytes of the buffer are what the stack held. *)
Definition md5_init (garbage : bytes) : md5_state := mkMd5 0 0 md5_init_regs garbage.

Definition put_at (dst : bytes) (off : nat) (src : bytes) : bytes := take off dst ++ src ++ drop (off + length src) dst.
(** The full blocks of the data, and what is left. *)
Fixpoint md5_blocks (fuel : nat) (r : Regs) (p : bytes) : Regs * bytes :=
  match fuel with
  | O => (r, p)
  | S fuel => if 64 <=? zlen p then md5_blocks fuel (md5_process r (take 64 p)) (drop 64 p) else (r, p)
  end.
(** [md5_append]; [nbytes << 3] is undefined when an [int] cannot hold it. *)
Definition md5_append (pms : md5_state) (data : bytes) : M md5_state :=
  let nbytes := zlen data in
  let offset := Z.land (Z.shiftr (count0 pms) 3) 63 in
  nbits ← int_result (nbytes * 8);
  if nbytes <=? 0 then Ret pms
  else
    let c1 := word (count1 pms + Z.shiftr nbytes 29) in
    let c0 := word (count0 pms + nbits) in
    let c1 := if c0 <? nbits then word (c1 + 1) else c1 in
    let full := md5_blocks (length data) in
    if negb (offset =? 0) then
      let copy := if 64 <? offset + nbytes then 64 - offset else nbytes in
      let b := put_at (buf pms) (Z.to_nat offset) (take (Z.to_nat copy) data) in
      if offset + copy <? 64 then Ret (mkMd5 c0 c1 (abcd pms) b)
      else
        let '(r, rest) := full (md5_process (abcd pms) b) (drop (Z.to_nat copy) data) in
        Ret (mkMd5 c0 c1 r (put_at b 0 rest))
    else
      let '(r, rest) := full (abcd pms) data in
      Ret (mkMd5 c0 c1 r (put_at (buf pms) 0 rest)).

Definition md5_pad : bytes := chr 0x80 :: replicate 63 (chr 0).
(** The bytes of a word, low first. *)
Definition word_bytes (w : Z) : bytes := (fun i => chr (Z.shiftr w (8 * i))) <$> [0; 1; 2; 3].
Definition md5_finish (pms : md5_state) : M bytes :=
  let data := word_bytes (count0 pms) ++ word_bytes (count1 pms) in
  let n := Z.land (55 - Z.shiftr (count0 pms) 3) 63 + 1 in
  pms ← md5_append pms (take (Z.to_nat n) md5_pad);
  pms ← md5_append pms data;
  let r := abcd pms in
  Ret (word_bytes (ra r) ++ word_bytes (rb r) ++ word_bytes (rc r) ++ word_bytes (rd r)).

(** [md5] of a buffer, and the digest as text.  [stack] is what the buffer of the
    state held before. *)
Section Digest.
Context (stack : bytes).
Definition md5 (d : bytes) : M bytes := st ← md5_append (md5_init stack) d; md5_finish st.
Definition hex_letter (n : Z) : char := nth (Z.to_nat n) (B "0123456789abcdef") (chr 0).
Definition digestToString (digest : bytes) : bytes :=
  flat_map (fun c => [hex_letter (Z.land (Z.shiftr (uchar c) 4) 15); hex_letter (Z.land (uchar c) 15)]) digest.
Definition md5simpledigest (d : bytes) : M bytes := x ← md5 d; Ret (digestToString x).
Definition createPasswordDigest (username clearTextPassword : bytes) : M bytes :=
  st ← md5_append (md5_init stack) username;
  st ← md5_append st (B ":mongo:");
  st ← md5_append st clearTextPassword;
  d ← md5_finish st;
  Ret (digestToString d).
End Digest.

(** ** The reference: the padded message, block by block *)

(** The full blocks from the registers [r]; [md5_blocks] also gives the rest. *)
Definition md5_bits (m : bytes) : Z := (8 * zlen m) mod 2 ^ 64.
Definition md5_padded (m : bytes) : bytes :=
  m ++ chr 0x80 :: replicate (Z.to_nat ((55 - zlen m) mod 64)) (chr 0) ++ le_bytes 8 (md5_bits m).
Fixpoint cut_blocks (n : nat) (m : bytes) : list bytes :=
  match n with O => [] | S n => take 64 m :: cut_blocks n (drop 64 m) end.
Definition regs_bytes (r : Regs) : bytes := le_bytes 4 (ra r) ++ le_bytes 4 (rb r) ++ le_bytes 4 (rc r) ++ le_bytes 4 (rd r).
Definition md5_reference (m : bytes) : bytes :=
  let p := md5_padded m in regs_bytes (foldl md5_process md5_init_regs (cut_blocks (length p / 64) p)).

Lemma md5_blocks_fuel f g r p : (length p <= f)%nat -> (length p <= g)%nat -> md5_blocks f r p = md5_blocks g r p.
Proof.
  revert g r p. induction f as [|f IH]; intros [|g] r p Hf Hg; try done; cbn [md5_blocks].
  - destruct p; [done|cbn in Hf; lia].
  - destruct p; [done|cbn in Hg; lia].
  - destruct (64 <=? zlen p) eqn:E; [|done]. apply IH; rewrite length_drop; unfold zlen in E; lia.
Qed.
Definition full_blocks (r : Regs) (p : bytes) : Regs * bytes := md5_blocks (length p) r p.
Lemma full_blocks_step r p : 64 <= zlen p -> full_blocks r p = full_blocks (md5_process r (take 64 p)) (drop 64 p).
Proof.
  intros H. unfold full_blocks. destruct (length p) as [|n] eqn:E; [unfold zlen in H; lia|].
  cbn [md5_blocks]. replace (64 <=? zlen p) with true by lia. apply md5_blocks_fuel; rewrite length_drop; lia.
Qed.
Lemma full_blocks_small r p : zlen p < 64 -> full_blocks r p = (r, p).
Proof.
  intros H. unfold full_blocks. destruct (length p) as [|n] eqn:E; [done|]. cbn [md5_blocks].
  by replace (64 <=? zlen p) with false by lia.
Qed.
Lemma full_blocks_ind (P : Regs -> bytes -> Prop) :
  (forall r p, zlen p < 64 -> P r p) ->
  (forall r p, 64 <= zlen p -> P (md5_process r (take 64 p)) (drop 64 p) -> P r p) -> forall r p, P r p.
Proof.
  intros H1 H2 r p. remember (length p) as n eqn:E. revert r p E.
  induction n as [n IH] using lt_wf_ind. intros r p ->. destruct (decide (zlen p < 64)); [by apply H1|].
  apply H2; [lia|]. eapply IH; [|reflexivity]. rewrite length_drop. unfold zlen in *. lia.
Qed.
Lemma full_blocks_app d r m : full_blocks r (m ++ d) = let '(r', rest) := full_blocks r m in full_blocks r' (rest ++ d).
Proof.
  revert r m. apply (full_blocks_ind (fun r m => full_blocks r (m ++ d) = let '(r', rest) := full_blocks r m in full_blocks r' (rest ++ d))).
  - intros r m H. by rewrite (full_blocks_small r m).
  - intros r m H IH. rewrite (full_blocks_step r m) by done. rewrite <-IH.
    rewrite full_blocks_step by (rewrite zlen_app; pose proof (zlen_nonneg d); lia).
    rewrite take_app_le, drop_app_le by (unfold zlen in H; lia). done.
Qed.
Lemma full_blocks_rest r m : zlen (full_blocks r m).2 = zlen m mod 64.
Proof.
  revert r m. apply (full_blocks_ind (fun r m => zlen (full_blocks r m).2 = zlen m mod 64)).
  - intros r m H. rewrite full_blocks_small by done. cbn. rewrite Z.mod_small; [done|]. pose proof (zlen_nonneg m). lia.
  - intros r m H IH. rewrite full_blocks_step by done. rewrite IH.
    assert (zlen (drop 64 m) = zlen m + -1 * 64) as -> by (unfold zlen in *; rewrite length_drop; lia).
    apply Z.mod_add. lia.
Qed.
Lemma full_blocks_cut n r m : length m = (64 * n)%nat -> full_blocks r m = (foldl md5_process r (cut_blocks n m), []).
Proof.
  revert r m. induction n as [|n IH]; intros r m H.
  - destruct m; [done|cbn in H; lia].
  - rewrite full_blocks_step by (unfold zlen; lia). cbn [cut_blocks foldl]. apply IH. rewrite length_drop. lia.
Qed.

(** ** What a state has absorbed *)

Record absorbed (st : md5_state) (m : bytes) : Prop := mkAbsorbed {
  ab_count0 : count0 st = (8 * zlen m) mod 2 ^ 32;
  ab_count1 : count1 st = (8 * zlen m / 2 ^ 32) mod 2 ^ 32;
  ab_blocks : full_blocks md5_init_regs m = (abcd st, take (Z.to_nat (zlen m mod 64)) (buf st));
  ab_buf : length (buf st) = 64%nat }.
Lemma absorbed_init stack : length stack = 64%nat -> absorbed (md5_init stack) [].
Proof. by split. Qed.

Lemma put_at_0 b x : (length x <= length b)%nat -> take (length x) (put_at b 0 x) = x /\ length (put_at b 0 x) = length b.
Proof.
  intros H. unfold put_at. rewrite take_0. cbn [app Nat.add]. split; [by apply take_app_length|].
  rewrite length_app, length_drop. lia.
Qed.
Lemma put_at_after b off x : (off + length x <= length b)%nat ->
  take (off + length x) (put_at b off x) = take off b ++ x /\ length (put_at b off x) = length b.
Proof.
  intros H. unfold put_at. split.
  - rewrite app_assoc, take_app_le by (rewrite length_app, length_take; lia). apply take_ge. rewrite length_app, length_take. lia.
  - rewrite !length_app, length_take, length_drop. lia.
Qed.

Lemma counts_add T n c0 c1 : 0 <= T -> 0 <= n < 2 ^ 32 -> c0 = T mod 2 ^ 32 -> c1 = (T / 2 ^ 32) mod 2 ^ 32 ->
  let c0' := word (c0 + n) in c0' = (T + n) mod 2 ^ 32 /\
  (if c0' <? n then word (word c1 + 1) else word c1) = ((T + n) / 2 ^ 32) mod 2 ^ 32.
Proof.
  intros HT Hn -> ->. unfold word, wrap. cbn [is_signed width uint32 andb]. set (W := 2 ^ 32) in *.
  assert (0 < W) by (by vm_compute). pose proof (Z.mod_pos_bound T W ltac:(lia)). pose proof (Z.div_mod T W ltac:(lia)) as HTd.
  split; [by rewrite Zplus_mod_idemp_l|]. rewrite Zmod_mod.
  destruct (decide (T mod W + n < W)) as [Hs|Hs].
  - rewrite (Z.mod_small (T mod W + n)) by lia. replace (T mod W + n <? n) with false by lia. f_equal.
    apply (Z.div_unique_pos _ _ _ (T mod W + n)); lia.
  - assert ((T mod W + n) mod W = T mod W + n - W) as -> by (symmetry; apply (Z.mod_unique_pos _ _ 1); lia).
    replace (T mod W + n - W <? n) with true by lia. rewrite Zplus_mod_idemp_l. f_equal.
    apply (Z.div_unique_pos _ _ _ (T mod W + n - W)); lia.
Qed.

(** The offset in the buffer is what the count says. *)
Lemma md5_offset n c : 0 <= n -> c = (8 * n) mod 2 ^ 32 -> Z.land (Z.shiftr c 3) 63 = n mod 64.
Proof.
  intros Hn ->. change 63 with (Z.ones 6). rewrite Z.land_ones, Z.shiftr_div_pow2 by lia.
  change (2 ^ 3) with 8. change (2 ^ 6) with 64.
  change (2 ^ 32) with (8 * 2 ^ 29). rewrite Z.mul_mod_distr_l, Z.mul_comm, Z.div_mul by lia.
  change (2 ^ 29) with (64 * 2 ^ 23). rewrite Z.rem_mul_r by lia. rewrite Z.mul_comm, Z.mod_add by lia. by rewrite Zmod_mod.
Qed.
(** The counts of the longer message, its full blocks processed and the rest kept: the
    state has absorbed it. *)
Lemma absorbed_rest c0 c1 r rest b m : length b = 64%nat ->
  c0 = (8 * zlen m) mod 2 ^ 32 -> c1 = (8 * zlen m / 2 ^ 32) mod 2 ^ 32 ->
  full_blocks md5_init_regs m = (r, rest) -> absorbed (mkMd5 c0 c1 r (put_at b 0 rest)) m.
Proof.
  intros Hb H0 H1 Hf. pose proof (full_blocks_rest md5_init_regs m) as Hrest. rewrite Hf in Hrest. cbn [snd] in Hrest.
  pose proof (Z.mod_pos_bound (zlen m) 64 ltac:(lia)).
  destruct (put_at_0 b rest) as [Hp1 Hp2]; [unfold zlen in *; lia|].
  split; cbn [count0 count1 abcd buf]; [done|done| |lia]. rewrite Hf, <-Hrest. unfold zlen at 1. by rewrite Nat2Z.id, Hp1.
Qed.
(** The data fits behind what the buffer has. *)
Lemma absorbed_short st c0 c1 m d (o := zlen m mod 64) : absorbed st m -> o + zlen d < 64 ->
  c0 = (8 * zlen (m ++ d)) mod 2 ^ 32 -> c1 = (8 * zlen (m ++ d) / 2 ^ 32) mod 2 ^ 32 ->
  absorbed (mkMd5 c0 c1 (abcd st) (put_at (buf st) (Z.to_nat o) d)) (m ++ d).
Proof.
  intros [_ _ Hb Hl] Ho H0 H1. pose proof (Z.mod_pos_bound (zlen m) 64 ltac:(lia)). fold o in H. pose proof (zlen_nonneg d).
  assert (zlen (m ++ d) mod 64 = o + zlen d) as Hm.
  { rewrite zlen_app. symmetry. apply (Z.mod_unique_pos _ _ (zlen m / 64)); [lia|].
    pose proof (Z.div_mod (zlen m) 64 ltac:(lia)). unfold o. lia. }
  destruct (put_at_after (buf st) (Z.to_nat o) d) as [Hp1 Hp2]; [unfold zlen in *; lia|].
  split; cbn [count0 count1 abcd buf]; [done|done| |lia]. rewrite full_blocks_app, Hb, Hm. fold o. rewrite full_blocks_small.
  - f_equal. rewrite <-Hp1. f_equal. unfold zlen. lia.
  - rewrite zlen_app. unfold zlen at 1. rewrite length_take. lia.
Qed.
(** The data fills the buffer: the block is processed with what the buffer has. *)
Lemma full_blocks_fill st m d b (o := zlen m mod 64) (k := Z.to_nat (64 - o)) : absorbed st m -> 64 <= o + zlen d ->
  b = put_at (buf st) (Z.to_nat o) (take k d) ->
  length b = 64%nat /\ full_blocks md5_init_regs (m ++ d) = full_blocks (md5_process (abcd st) b) (drop k d).
Proof.
  intros [_ _ Hb Hl] Ho ->. pose proof (Z.mod_pos_bound (zlen m) 64 ltac:(lia)). fold o in H, Hb.
  assert (length (take k d) = k) as Hlt by (rewrite length_take; unfold zlen, k in *; lia).
  destruct (put_at_after (buf st) (Z.to_nat o) (take k d)) as [Hp1 Hp2]; [unfold k in *; lia|]. rewrite Hlt in Hp1.
  set (b := put_at _ _ _) in *. split; [lia|].
  assert (b = take (Z.to_nat o) (buf st) ++ take k d) as Hbe by (rewrite <-Hp1; symmetry; apply take_ge; unfold k; lia).
  rewrite full_blocks_app, Hb. rewrite <-(take_drop k d) at 1. rewrite app_assoc, <-Hbe.
  rewrite full_blocks_step by (rewrite zlen_app; unfold zlen at 1; pose proof (zlen_nonneg (drop k d)); lia).
  rewrite take_app_le, drop_app_le by lia. by rewrite take_ge, drop_ge by lia.
Qed.

Lemma md5_append_absorbs st m d : absorbed st m -> zlen d < 2 ^ 28 ->
  exists st', md5_append st d = Ret st' /\ absorbed st' (m ++ d).
Proof.
  intros Hab Hd. pose proof Hab as [H0 H1 Hb Hl]. pose proof (zlen_nonneg d). pose proof (zlen_nonneg m). unfold md5_append.
  unfold int_result. rewrite bool_decide_eq_true_2 by (split; cbn; lia). rewrite ret_bind.
  destruct (zlen d <=? 0) eqn:E0.
  { assert (d = []) as -> by (apply nil_length_inv; unfold zlen in *; lia). exists st. by rewrite app_nil_r. }
  rewrite (Z.shiftr_div_pow2 (zlen d) 29), (Z.div_small (zlen d)) by lia. rewrite Z.add_0_r.
  destruct (counts_add (8 * zlen m) (zlen d * 8) (count0 st) (count1 st) ltac:(lia) ltac:(lia) H0 H1) as [Hc0 Hc1].
  cbv zeta in Hc1. assert (8 * zlen m + zlen d * 8 = 8 * zlen (m ++ d)) as Hlen by (rewrite zlen_app; lia). rewrite Hlen in Hc0, Hc1.
  rewrite (md5_offset (zlen m)) by done. pose proof (Z.mod_pos_bound (zlen m) 64 ltac:(lia)) as Ho.
  destruct (zlen m mod 64 =? 0) eqn:Eo; cbn [negb].
  - assert (full_blocks md5_init_regs (m ++ d) = full_blocks (abcd st) d) as Hf.
    { rewrite full_blocks_app, Hb. replace (zlen m mod 64) with 0 by lia. change (Z.to_nat 0) with O. by rewrite take_0. }
    unfold full_blocks in Hf at 2. destruct (md5_blocks (length d) (abcd st) d) as [r rest].
    eexists. split; [reflexivity|]. by apply absorbed_rest.
  - destruct (64 <? zlen m mod 64 + zlen d) eqn:E64; cbv zeta.
    + replace (zlen m mod 64 + (64 - zlen m mod 64) <? 64) with false by lia.
      destruct (full_blocks_fill st m d _ Hab ltac:(lia) eq_refl) as [Hb64 Hf].
      rewrite (md5_blocks_fuel (length d) (length (drop (Z.to_nat (64 - zlen m mod 64)) d))) by (rewrite length_drop; lia).
      fold (full_blocks (md5_process (abcd st) (put_at (buf st) (Z.to_nat (zlen m mod 64)) (take (Z.to_nat (64 - zlen m mod 64)) d)))
        (drop (Z.to_nat (64 - zlen m mod 64)) d)). rewrite <-Hf.
      destruct (full_blocks md5_init_regs (m ++ d)) as [r rest] eqn:Efb. eexists. split; [reflexivity|]. by apply absorbed_rest.
    + assert (take (Z.to_nat (zlen d)) d = d) as Htd by (apply take_ge; unfold zlen; lia). rewrite Htd.
      destruct (zlen m mod 64 + zlen d <? 64) eqn:E; [eexists; split; [reflexivity|]; apply absorbed_short; done || lia|].
      assert (zlen d = 64 - zlen m mod 64) as Hk by lia.
      destruct (full_blocks_fill st m d (put_at (buf st) (Z.to_nat (zlen m mod 64)) d) Hab ltac:(lia)) as [Hb64 Hf]; [by rewrite <-Hk, Htd|].
      rewrite <-Hk in Hf. rewrite (md5_blocks_fuel (length d) (length (drop (Z.to_nat (zlen d)) d))) by (rewrite length_drop; lia).
      fold (full_blocks (md5_process (abcd st) (put_at (buf st) (Z.to_nat (zlen m mod 64)) d)) (drop (Z.to_nat (zlen d)) d)). rewrite <-Hf.
      destruct (full_blocks md5_init_regs (m ++ d)) as [r rest] eqn:Efb. eexists. split; [reflexivity|]. by apply absorbed_rest.
Qed.

(** ** The end *)

Lemma word_bytes_le w : word_bytes w = le_bytes 4 w.
Proof.
  unfold word_bytes. cbn [fmap list_fmap le_bytes].
  change (8 * 0) with 0. change (8 * 1) with 8. change (8 * 2) with 16. change (8 * 3) with 24.
  rewrite !Z.shiftr_div_pow2 by lia. rewrite !Z.div_div by lia. change (2 ^ 0) with 1. rewrite Z.div_1_r. reflexivity.
Qed.
Lemma le_bytes_app a b z : le_bytes (a + b) z = le_bytes a z ++ le_bytes b (z / 256 ^ Z.of_nat a).
Proof.
  revert z. induction a as [|a IH]; intros z; cbn [Nat.add le_bytes app].
  - change (256 ^ Z.of_nat 0) with 1. by rewrite Z.div_1_r.
  - rewrite IH. do 3 f_equal. rewrite Nat2Z.inj_succ, Z.pow_succ_r by lia.
    by rewrite Z.div_div by (try lia; apply Z.pow_pos_nonneg; lia).
Qed.
Lemma count_bytes T : 0 <= T ->
  word_bytes (T mod 2 ^ 32) ++ word_bytes ((T / 2 ^ 32) mod 2 ^ 32) = le_bytes 8 (T mod 2 ^ 64).
Proof.
  intros HT. rewrite !word_bytes_le. change 8%nat with (4 + 4)%nat. rewrite le_bytes_app. f_equal; apply le_bytes_congr.
  - change (256 ^ Z.of_nat 4) with (2 ^ 32). change (2 ^ 64) with (2 ^ 32 * 2 ^ 32).
    rewrite Zmod_mod, Z.rem_mul_r by lia. by rewrite Z.mul_comm, Z.mod_add, Zmod_mod by lia.
  - change (256 ^ Z.of_nat 4) with (2 ^ 32). change (2 ^ 64) with (2 ^ 32 * 2 ^ 32).
    rewrite Zmod_mod, Z.rem_mul_r by lia. rewrite Z.add_comm, Z.mul_comm, Z.div_add_l by lia.
    rewrite (Z.div_small (T mod 2 ^ 32)) by (apply Z.mod_pos_bound; lia). by rewrite Z.add_0_r, Zmod_mod.
Qed.

Lemma md5_padded_blocks m : length (md5_padded m) = (64 * (length (md5_padded m) / 64))%nat.
Proof.
  apply Nat2Z.inj. rewrite Nat2Z.inj_mul, Nat2Z.inj_div. change (Z.of_nat 64) with 64.
  pose proof (Z.div_mod (zlen (md5_padded m)) 64 ltac:(lia)) as Hd. unfold zlen in Hd.
  assert (zlen (md5_padded m) mod 64 = 0) as Hm; [|unfold zlen in Hm; lia].
  unfold md5_padded. rewrite zlen_app, zlen_cons, zlen_app, zlen_le_bytes.
  pose proof (Z.mod_pos_bound (55 - zlen m) 64 ltac:(lia)).
  assert (zlen (replicate (Z.to_nat ((55 - zlen m) mod 64)) (chr 0)) = (55 - zlen m) mod 64) as ->
    by (unfold zlen at 1; rewrite length_replicate; lia).
  pose proof (Z.div_mod (55 - zlen m) 64 ltac:(lia)).
  symmetry. apply (Z.mod_unique_pos _ _ (1 - (55 - zlen m) / 64)); lia.
Qed.

Lemma md5_finish_reference st m : absorbed st m -> md5_finish st = Ret (md5_reference m).
Proof.
  intros Hab. pose proof Hab as [H0 H1 _ _]. unfold md5_finish. pose proof (zlen_nonneg m).
  rewrite H0, H1, count_bytes by lia. set (n := Z.land _ 63 + 1).
  assert (n = (55 - zlen m) mod 64 + 1) as Hn.
  { unfold n. f_equal. change 63 with (Z.ones 6). rewrite Z.land_ones, Z.shiftr_div_pow2 by lia.
    change (2 ^ 3) with 8. change (2 ^ 6) with 64. change (2 ^ 32) with (8 * 2 ^ 29).
    rewrite Z.mul_mod_distr_l, Z.mul_comm, Z.div_mul by lia. change (2 ^ 29) with (64 * 2 ^ 23).
    rewrite Z.rem_mul_r by lia. rewrite Zminus_mod. rewrite (Z.mul_comm 64), Z.mod_add by lia. rewrite Zmod_mod.
    by rewrite <-Zminus_mod. }
  pose proof (Z.mod_pos_bound (55 - zlen m) 64 ltac:(lia)).
  assert (take (Z.to_nat n) md5_pad = chr 0x80 :: replicate (Z.to_nat ((55 - zlen m) mod 64)) (chr 0)) as ->.
  { unfold md5_pad. replace (Z.to_nat n) with (S (Z.to_nat ((55 - zlen m) mod 64))) by lia. cbn [firstn].
    f_equal. rewrite take_replicate. f_equal. lia. }
  set (pad := chr 0x80 :: _).
  assert (zlen pad < 2 ^ 28) as Hpad.
  { unfold pad. rewrite zlen_cons. unfold zlen at 1. rewrite length_replicate. lia. }
  destruct (md5_append_absorbs st m pad Hab Hpad) as (st1 & E1 & Hab1). rewrite E1, ret_bind.
  destruct (md5_append_absorbs st1 _ (le_bytes 8 ((8 * zlen m) mod 2 ^ 64)) Hab1) as (st2 & E2 & Hab2).
  { by rewrite zlen_le_bytes. }
  rewrite E2, ret_bind. rewrite <-app_assoc in Hab2. change (pad ++ le_bytes 8 ((8 * zlen m) mod 2 ^ 64))
    with (chr 0x80 :: replicate (Z.to_nat ((55 - zlen m) mod 64)) (chr 0) ++ le_bytes 8 (md5_bits m)) in Hab2.
  fold (md5_padded m) in Hab2. pose proof (ab_blocks _ _ Hab2) as Hb.
  rewrite (full_blocks_cut (length (md5_padded m) / 64)) in Hb by apply md5_padded_blocks. pose proof (f_equal fst Hb) as Hr. cbn [fst] in Hr.
  unfold md5_reference, regs_bytes. rewrite Hr. by rewrite !word_bytes_le.
Qed.

(** A message in pieces. *)
Fixpoint md5_append_all (st : md5_state) (pieces : list bytes) : M md5_state :=
  match pieces with [] => Ret st | d :: pieces => st ← md5_append st d; md5_append_all st pieces end.
Lemma md5_append_all_absorbs st m pieces : absorbed st m -> Forall (fun d => zlen d < 2 ^ 28) pieces ->
  exists st', md5_append_all st pieces = Ret st' /\ absorbed st' (m ++ concat pieces).
Proof.
  intros Hab Hp. revert st m Hab. induction Hp as [|d pieces Hd _ IH]; intros st m Hab; cbn [md5_append_all concat].
  - exists st. by rewrite app_nil_r.
  - destruct (md5_append_absorbs st m d Hab Hd) as (st1 & -> & Hab1). rewrite ret_bind, app_assoc. by apply IH.
Qed.

(** C31: the digest of a message that comes in pieces is that of the standard: for every
    way to cut a message into pieces of less than 2^28 bytes, and whatever the buffer
    of the state held before, [md5_init], [md5_append] of each piece and [md5_finish]
    give the digest of the padded message, hashed block by block. *)
Theorem md5_stream stack pieces : length stack = 64%nat -> Forall (fun d => zlen d < 2 ^ 28) pieces ->
  (st ← md5_append_all (md5_init stack) pieces; md5_finish st) = Ret (md5_reference (concat pieces)).
Proof.
  intros Hs Hp. destruct (md5_append_all_absorbs (md5_init stack) [] pieces (absorbed_init stack Hs) Hp) as (st & -> & Hab).
  rewrite ret_bind. by apply md5_finish_reference.
Qed.
Lemma md5_stream_witness :
  (st ← md5_append_all (md5_init (replicate 64 (chr 0))) [B "message "; B "digest"]; md5_finish st) =
  Ret (md5_reference (B "message digest")).
Proof.
  apply (md5_stream (replicate 64 (chr 0)) [B "message "; B "digest"]); [reflexivity|].
  apply Forall_cons_2; [by vm_compute|]. apply Forall_cons_2; [by vm_compute|]. apply Forall_nil_2.
Defined.

(** The digest of a password is that of the text that joins name and password. *)
Lemma createPasswordDigest_reference stack username password : length stack = 64%nat ->
  zlen username < 2 ^ 28 -> zlen password < 2 ^ 28 ->
  createPasswordDigest stack username password = Ret (digestToString (md5_reference (username ++ B ":mongo:" ++ password))).
Proof.
  intros Hs Hu Hp. unfold createPasswordDigest.
  destruct (md5_append_absorbs _ [] username (absorbed_init stack Hs) Hu) as (s1 & -> & H1). rewrite ret_bind.
  destruct (md5_append_absorbs s1 _ (B ":mongo:") H1) as (s2 & -> & H2); [by vm_compute|]. rewrite ret_bind.
  destruct (md5_append_absorbs s2 _ password H2 Hp) as (s3 & -> & H3). rewrite ret_bind.
  rewrite (md5_finish_reference s3 _ H3), ret_bind. cbn [app]. by rewrite <-app_assoc.
Qed.

(** The test suite of RFC 1321. *)
Definition md5_hex (s : string) : M bytes := md5simpledigest (replicate 64 (chr 0)) (B s).
Lemma md5_test_suite :
  md5simpledigest (replicate 64 (chr 0)) [] = Ret (B "d41d8cd98f00b204e9800998ecf8427e") /\
  md5_hex "a" = Ret (B "0cc175b9c0f1b6a831c399e269772661") /\
  md5_hex "abc" = Ret (B "900150983cd24fb0d6963f7d28e17f72") /\
  md5_hex "message digest" = Ret (B "f96b697d7cb7938d525a2f31aaf161d0") /\
  md5_hex "abcdefghijklmnopqrstuvwxyz" = Ret (B "c3fcd3d76192e4007dfb496cca67e13b") /\
  md5_hex "ABCDEFGHIJKLMNOPQRSTUVWXYZabcdefghijklmnopqrstuvwxyz0123456789" = Ret (B "d174ab98d277d9f5a5611c2c9f419d9f") /\
  md5_hex "12345678901234567890123456789012345678901234567890123456789012345678901234567890"
    = Ret (B "57edf4a22be3c955ac49da2e2107b67a").
Proof. vm_compute. repeat split. Qed.
