(* ===== verification/Text.v ===== *)
(** * Text: util/text.cpp, util/stringutils.cpp, util/mongoutils/str.h

    A [const char*] is the text up to the first zero byte ([c_string]); a pointer into it
    is the rest of the text.  [isdigit] and [tolower] answer for the bytes above 127 as
    the C locale does. *)
From S2P Require Import Prelude StringData ParseNumber BsonTypes BufBuilder Bson BsonObj CLib.
Local Open Scope Z_scope.

(** [strstr]: the text from the first occurrence. *)
Fixpoint strstr (s x : bytes) : option bytes :=
  if has_prefix s x then Some s else match s with [] => None | _ :: s' => strstr s' x end.
(** [strchr], as a distance: the zero byte at the end is found too. *)
Definition strchr (s : bytes) (c : char) : option nat := memchr (s ++ [nul]) c.
(** The text behind a position, undefined behind the zero byte. *)
Definition text_after (s : bytes) (k : nat) : M bytes := if (k <? length s)%nat then Ret (drop (S k) s) else Throw EUndefined.
(** What is before the place a pointer points at. *)
Definition up_to (s p : bytes) : bytes := take (length s - length p) s.

(** ** StringSplitter *)

(** One byte forward as long as the splitter starts there. *)
Fixpoint skip_splitters (splitter big : bytes) : bytes :=
  match big with [] => [] | _ :: big' => if has_prefix big splitter then skip_splitters splitter big' else big end.
(** The fragment, and where [_big] points then. *)
Definition StringSplitter_next (splitter big : bytes) : bytes * bytes :=
  match strstr big splitter with
  | Some foo => (up_to big foo, skip_splitters splitter (drop (length splitter) foo))
  | None => (big, [])
  end.
Definition StringSplitter_more (big : bytes) : bool := match big with [] => false | _ => true end.
Fixpoint StringSplitter_loop (fuel : nat) (splitter big : bytes) (l : list bytes) : list bytes :=
  match fuel with
  | O => l
  | S fuel =>
      if StringSplitter_more big then
        let '(s, big) := StringSplitter_next splitter big in StringSplitter_loop fuel splitter big (l ++ [s])
      else l
  end.
Definition StringSplitter_split (big splitter : bytes) : list bytes :=
  StringSplitter_loop (length (c_string big)) (c_string splitter) (c_string big) [].
(** With a separator between two: the loop over the indexes. *)
Fixpoint join_from (i : nat) (l : list bytes) (sep : bytes) : bytes :=
  match l with [] => [] | s :: l => (if (0 <? i)%nat then sep else []) ++ s ++ join_from (S i) l sep end.
Definition StringSplitter_join (l : list bytes) (split : bytes) : bytes := join_from 0 l split.

(** ** UTF-8 *)

(** The table has a value for each byte from 0x80 on. *)
Definition _leadingOnes : list Z :=
  replicate 64 1 ++ replicate 32 2 ++ replicate 16 3 ++ replicate 8 4 ++ replicate 4 5 ++ replicate 2 6 ++ [7; 8].
Definition leadingOnes (c : char) : Z :=
  if uchar c <? 0x80 then 0 else nth (Z.to_nat (Z.land (uchar c) 0x7f)) _leadingOnes 0.
Fixpoint utf8_loop (left_ : Z) (s : bytes) : bool :=
  match s with
  | [] => left_ =? 0
  | c :: s =>
      let ones := leadingOnes c in
      if negb (left_ =? 0) then if negb (ones =? 1) then false else utf8_loop (left_ - 1) s
      else if ones =? 0 then utf8_loop left_ s
      else if ones =? 1 then false
      else if 0xF4 <? uchar c then false
      else if (uchar c =? 0xC0) || (uchar c =? 0xC1) then false
      else utf8_loop (ones - 1) s
  end.
Definition isValidUTF8 (s : bytes) : bool := utf8_loop 0 (c_string s).

Definition parseLL (n : bytes) : M Z :=
  let n := c_string n in
  uassert 13307 (negb (bool_decide (n = [])));;
  let '(ret, endPtr, erange) := strtoll n in
  uassert 13305 (bool_decide (endPtr = []) && negb erange);;
  Ret ret.

(** ** stringutils *)

Fixpoint split_loop (fuel : nat) (delim : char) (rest : bytes) (res : list bytes) : list bytes :=
  match fuel, memchr rest delim with
  | S fuel, Some n => split_loop fuel delim (drop (S n) rest) (res ++ [take n rest])
  | _, _ => res ++ [rest]
  end.
Definition splitStringDelim (str : bytes) (res : list bytes) (delim : char) : list bytes :=
  if bool_decide (str = []) then res else split_loop (length str) delim str res.
Fixpoint join_delim (first : bool) (strs : list bytes) (delim : char) (res : bytes) : bytes :=
  match strs with
  | [] => res
  | s :: strs => join_delim false strs delim ((if first then res else res ++ [delim]) ++ s)
  end.
Definition joinStringDelim (strs : list bytes) (res : bytes) (delim : char) : bytes := join_delim true strs delim res.
(** The copy is made into a string up to its first zero byte. *)
Definition tolowerString (input : bytes) : bytes := c_string (tolower <$> input).

Fixpoint skip_zeros (s : bytes) : bytes :=
  match s with c :: s' => if ceq c "0"%char then skip_zeros s' else s | [] => [] end.
(** The loop of [LexNumCmp::cmp], on what is left of the two texts. *)
Fixpoint cmp_loop (fuel : nat) (startWord lexOnly : bool) (a b : bytes) : Z :=
  match fuel, a, b with
  | S fuel, x :: a', y :: b' =>
      let d1 := ceq x "."%char in let d2 := ceq y "."%char in
      if d1 && negb d2 then -1 else if d2 && negb d1 then 1
      else if d1 && d2 then cmp_loop fuel true lexOnly a' b'
      else
        let p1 := ceq x (chr 255) in let p2 := ceq y (chr 255) in
        if p1 && negb p2 then 1 else if p2 && negb p1 then -1
        else
          let n1 := negb lexOnly && isdigit x in let n2 := negb lexOnly && isdigit y in
          if n1 && n2 then
            let '(da, ra) := span isdigit (if startWord then skip_zeros a else a) in
            let '(db, rb) := span isdigit (if startWord then skip_zeros b else b) in
            if zlen db <? zlen da then 1 else if zlen da <? zlen db then -1
            else
              let result := memcmp da db in
              if negb (result =? 0) then if 0 <? result then 1 else -1
              else cmp_loop fuel false lexOnly ra rb
          else if n1 then 1 else if n2 then -1
          else if schar y <? schar x then 1 else if schar x <? schar y then -1
          else cmp_loop fuel false lexOnly a' b'
  | _, x :: _, _ => if negb (ceq x nul) then 1 else match b with y :: _ => if negb (ceq y nul) then -1 else 0 | [] => 0 end
  | _, [], y :: _ => if negb (ceq y nul) then -1 else 0
  | _, [], [] => 0
  end.
Definition LexNumCmp_cmp (sd1 sd2 : bytes) (lexOnly : bool) : Z := cmp_loop (length sd1) true lexOnly sd1 sd2.
Definition LexNumCmp_less (lexOnly : bool) (s1 s2 : bytes) : bool := LexNumCmp_cmp s1 s2 lexOnly <? 0.
(** [strncmp(a, b, n) == 0] for texts of at least [n] bytes. *)
Definition strncmp_eq (a b : bytes) (n : nat) : bool := bool_decide (c_string (take n a) = c_string (take n b)).
Definition versionCmp (rhs lhs : bytes) : Z :=
  if StringData_eq rhs lhs then 0
  else if (zlen rhs <? zlen lhs) && strncmp_eq rhs lhs (length rhs) && ceq (nth (length rhs) lhs nul) "-"%char then 1
  else if (zlen lhs <? zlen rhs) && strncmp_eq rhs lhs (length lhs) && ceq (nth (length lhs) rhs nul) "-"%char then -1
  else LexNumCmp_cmp rhs lhs false.

(** ** mongoutils::str *)

Definition str_startsWith (str prefix : bytes) : bool := has_prefix (c_string str) (c_string prefix).
Definition str_startsWith_char (p : bytes) (ch : char) : bool := ceq (nth 0 (c_string p) nul) ch.
(** The lengths are [int]s; a text is shorter than 2^31 here. *)
Definition str_endsWith (s p : bytes) : bool :=
  if (length s <? length p)%nat then false else strncmp_eq (drop (length s - length p) s) p (length p).
Definition str_endsWith_char (s : bytes) (p : char) : bool :=
  let s := c_string s in negb (bool_decide (s = [])) && ceq (nth (length s - 1) s nul) p.
Definition str_endsWith_cstr (p suffix : bytes) : bool :=
  let p := c_string p in let suffix := c_string suffix in
  if (length p <? length suffix)%nat then false else bool_decide (drop (length p - length suffix) p = suffix).
Definition str_after_char (s : bytes) (x : char) : M bytes :=
  match strchr (c_string s) x with Some k => text_after (c_string s) k | None => Ret [] end.
Definition str_after (s x : bytes) : bytes :=
  match strstr (c_string s) (c_string x) with Some p => drop (length (c_string x)) p | None => [] end.
Definition str_contains (s x : bytes) : bool := match strstr (c_string s) (c_string x) with Some _ => true | None => false end.
Definition str_contains_char (s : bytes) (x : char) : M bool :=
  verify (negb (ceq x nul));; Ret (match strchr (c_string s) x with Some _ => true | None => false end).
Definition str_before_char (s : bytes) (x : char) : bytes :=
  match strchr (c_string s) x with Some k => take k s | None => s end.
Definition str_before (s x : bytes) : bytes :=
  match strstr (c_string s) (c_string x) with Some p => up_to (c_string s) p | None => s end.
Fixpoint common_prefix (p q : bytes) : Z :=
  match p, q with x :: p, y :: q => if ceq x y then 1 + common_prefix p q else 0 | _, _ => 0 end.
Definition shareCommonPrefix (p q : bytes) : Z := common_prefix (c_string p) (c_string q).
Fixpoint unsigned_loop (x : Z) (p : bytes) : Z :=
  match p with c :: p => if isdigit c then unsigned_loop (wrap uint32 (x * 10 + (uchar c - 48))) p else x | [] => x end.
Definition toUnsigned (a : bytes) : Z := unsigned_loop 0 (c_string a).
(** Whether the character is there, [L] and [R]. *)
Definition splitOn (s : bytes) (c : char) : M (bool * bytes * bytes) :=
  match strchr (c_string s) c with
  | Some k => r ← text_after (c_string s) k; Ret (true, take k (c_string s), r)
  | None => Ret (false, s, [])
  end.
Fixpoint memrchr (s : bytes) (c : char) : option nat :=
  match s with
  | [] => None
  | x :: s' => match memrchr s' c with Some k => Some (S k) | None => if ceq x c then Some O else None end
  end.
Definition rSplitOn (s : bytes) (c : char) : M (bool * bytes * bytes) :=
  match memrchr (c_string s ++ [nul]) c with
  | Some k => r ← text_after (c_string s) k; Ret (true, take k (c_string s), r)
  | None => Ret (false, s, [])
  end.
Definition str_count (s : bytes) (c : char) : Z := zlen (filter (fun x => ceq x c = true) s).
Fixpoint skip_blanks (s : bytes) : bytes :=
  match s with c :: s' => if ceq c " "%char then skip_blanks s' else s | [] => [] end.
Definition ltrim (s : bytes) : bytes := skip_blanks (c_string s).
(** [done] is the text in front of the iterator [to]. *)
Fixpoint strip_loop (chars rest done : bytes) : M bytes :=
  match rest with
  | [] => Ret done
  | c :: rest => found ← str_contains_char chars c; strip_loop chars rest (if found : bool then done else done ++ [c])
  end.
Definition stripTrailing (s chars : bytes) : M bytes := strip_loop chars s [].

(** ** What holds of them by computation *)

Lemma versions : versionCmp (B "1.2.3") (B "1.2.4") = -1 /\ versionCmp (B "1.20.3") (B "1.2.4") = 1 /\
  versionCmp (B "2.0.0-rc0") (B "2.0.0") = -1 /\ versionCmp (B "1.2.3-") (B "1.2.3-pre") = -1.
Proof. by vm_compute. Qed.
(** A version with one more number is behind a pre-release, which is in front of the
    version itself: the comparison has a cycle. *)
Lemma versionCmp_cycle : versionCmp (B "1.2") (B "1.2.0") = -1 /\ versionCmp (B "1.2.0") (B "1.2-pre") = -1 /\
  versionCmp (B "1.2-pre") (B "1.2") = -1.
Proof. by vm_compute. Qed.
(** Behind a splitter of two bytes one byte is skipped at a time. *)
Lemma splitter_half : StringSplitter_split (B "a::::b") (B "::") = [B "a"; B ":b"].
Proof. by vm_compute. Qed.
(** Characters are removed everywhere, not only at the end. *)
Lemma stripTrailing_everywhere : stripTrailing (B "a b c ") (B " ") = Ret (B "abc").
Proof. by vm_compute. Qed.
(** Numbers behind letters keep their zeros. *)
Lemma zeros_inside : LexNumCmp_cmp (B "a01") (B "a1") false = 1 /\ LexNumCmp_cmp (B "01") (B "1") false = 0.
Proof. by vm_compute. Qed.
(** A string is only tested up to its first zero byte; long forms of short characters,
    surrogates and numbers above 0x10FFFF are accepted. *)
Lemma utf8_accepted : isValidUTF8 [nul; chr 0xFF] = true /\ isValidUTF8 (chr <$> [0xE0; 0x80; 0x80]) = true /\
  isValidUTF8 (chr <$> [0xED; 0xA0; 0x80]) = true /\ isValidUTF8 (chr <$> [0xF4; 0x90; 0x80; 0x80]) = true.
Proof. by vm_compute. Qed.

(** ** Pieces between separators *)

Section Pieces.
Context (c : char).
(** The pieces of a text, one more than it has separators. *)
Fixpoint pieces (s : bytes) : list bytes :=
  match s with
  | [] => [[]]
  | x :: s =>
      match pieces s with
      | p :: ps => if ceq x c then [] :: p :: ps else (x :: p) :: ps
      | [] => []
      end
  end.
Lemma pieces_cons s : exists p ps, pieces s = p :: ps.
Proof.
  induction s as [|x s (p & ps & IH)]; cbn; [by eexists _, _|]. rewrite IH. destruct (ceq x c); by eexists _, _.
Qed.
Lemma pieces_free s : c ∉ s -> pieces s = [s].
Proof.
  induction s as [|x s IH]; intros H; [done|]. apply not_elem_of_cons in H as [Hx H]. cbn. rewrite IH by done.
  unfold ceq. rewrite bool_decide_eq_false_2 by congruence. done.
Qed.
Lemma pieces_sep p s : c ∉ p -> pieces (p ++ c :: s) = p :: pieces s.
Proof.
  induction p as [|x p IH]; intros H; cbn.
  - destruct (pieces_cons s) as (q & qs & E). rewrite E. unfold ceq. by rewrite bool_decide_eq_true_2.
  - apply not_elem_of_cons in H as [Hx H]. rewrite IH by done. unfold ceq. by rewrite bool_decide_eq_false_2 by congruence.
Qed.
Lemma pieces_clean s : Forall (fun p => c ∉ p) (pieces s).
Proof.
  induction s as [|x s IH]; cbn; [constructor; [apply not_elem_of_nil|done]|].
  destruct (pieces s) as [|p ps]; [done|]. apply Forall_cons in IH as [Hp Hps]. unfold ceq.
  case_bool_decide; repeat constructor; try done; [apply not_elem_of_nil|].
  apply not_elem_of_cons. split; [congruence|done].
Qed.
Lemma pieces_ind (P : bytes -> Prop) : (forall s, c ∉ s -> P s) -> (forall p s, c ∉ p -> P s -> P (p ++ c :: s)) -> forall s, P s.
Proof.
  intros H1 H2 s. remember (length s) as n eqn:E. revert s E. induction n as [n IH] using lt_wf_ind. intros s ->.
  destruct (memchr s c) as [k|] eqn:Ek; [|apply H1; by apply memchr_None].
  apply memchr_Some in Ek as (pre & post & -> & Hk & Hc). apply H2; [done|]. eapply IH; [|reflexivity].
  rewrite length_app. cbn. lia.
Qed.

(** *** splitStringDelim and joinStringDelim *)

Fixpoint glue (l : list bytes) : bytes :=
  match l with [] => [] | [p] => p | p :: l => p ++ c :: glue l end.
Lemma glue_pieces s : glue (pieces s) = s.
Proof.
  revert s. apply pieces_ind; intros.
  - by rewrite pieces_free.
  - rewrite pieces_sep by done. destruct (pieces_cons s) as (q & qs & E). rewrite E in *. cbn [glue] in *. by rewrite H0.
Qed.
Lemma pieces_glue l : l <> [] -> Forall (fun p => c ∉ p) l -> pieces (glue l) = l.
Proof.
  intros Hl H. induction H as [|p l Hp H IH]; [done|]. destruct l as [|q l]; [by apply pieces_free|].
  cbn [glue]. rewrite pieces_sep by done. f_equal. by apply IH.
Qed.
Lemma split_loop_pieces s : forall fuel res, (length s <= fuel)%nat -> split_loop fuel c s res = res ++ pieces s.
Proof.
  revert s. apply (pieces_ind (fun s => forall fuel res, (length s <= fuel)%nat -> split_loop fuel c s res = res ++ pieces s)).
  - intros s H fuel res _. rewrite pieces_free by done. apply memchr_None in H.
    destruct fuel; cbn [split_loop]; [done|]. by rewrite H.
  - intros p s H IH fuel res Hf. rewrite length_app in Hf. cbn in Hf. destruct fuel as [|fuel]; [lia|]. cbn [split_loop].
    assert (memchr (p ++ c :: s) c = Some (length p)) as -> by (rewrite memchr_app_notin by done; done || (cbn; unfold ceq; rewrite bool_decide_eq_true_2 by done; cbn; f_equal; lia)).
    rewrite take_app_length.
    assert (drop (S (length p)) (p ++ c :: s) = s) as -> by (rewrite drop_app_ge by lia; by replace (S (length p) - length p)%nat with 1%nat by lia).
    rewrite IH by lia. rewrite pieces_sep by done. by rewrite <-app_assoc.
Qed.
Lemma splitStringDelim_pieces s res : splitStringDelim s res c = res ++ (if bool_decide (s = []) then [] else pieces s).
Proof.
  unfold splitStringDelim. case_bool_decide; [by rewrite app_nil_r|]. by apply split_loop_pieces.
Qed.
Lemma join_delim_rest l res : join_delim false l c res = res ++ (if bool_decide (l = []) then [] else c :: glue l).
Proof.
  revert res. induction l as [|s l IH]; intros res; cbn [join_delim]; [by rewrite app_nil_r|]. rewrite IH.
  rewrite <-!app_assoc. f_equal. rewrite (bool_decide_eq_false_2 (s :: l = [])) by done.
  destruct l as [|q l]; cbn [glue]; [by rewrite app_nil_r|]. done.
Qed.
Lemma joinStringDelim_glue l res : joinStringDelim l res c = res ++ glue l.
Proof.
  unfold joinStringDelim. destruct l as [|s l]; cbn [join_delim glue]; [by rewrite app_nil_r|]. rewrite join_delim_rest, <-app_assoc. f_equal.
  destruct l as [|q l]; [by rewrite app_nil_r|]. done.
Qed.

(** *** StringSplitter with a splitter of one byte *)

Fixpoint drop_seps (s : bytes) : bytes := match s with x :: s' => if ceq x c then drop_seps s' else s | [] => [] end.
Lemma has_prefix_one s : has_prefix s [c] = match s with x :: _ => ceq x c | [] => false end.
Proof.
  unfold has_prefix, ceq. destruct s as [|x s]; [apply bool_decide_eq_false; by intros ?%prefix_nil_inv|].
  apply bool_decide_ext. split; [by intros ?%prefix_cons_inv_1|]. intros ->. exists s. done.
Qed.
Lemma skip_splitters_one s : skip_splitters [c] s = drop_seps s.
Proof. induction s as [|x s IH]; [done|]. cbn [skip_splitters drop_seps]. by rewrite has_prefix_one, IH. Qed.
Lemma strstr_free s : c ∉ s -> strstr s [c] = None.
Proof.
  induction s as [|x s IH]; intros H; cbn [strstr]; rewrite has_prefix_one; [done|].
  apply not_elem_of_cons in H as [Hx H]. unfold ceq. by rewrite bool_decide_eq_false_2 by congruence; apply IH.
Qed.
Lemma strstr_sep p s : c ∉ p -> strstr (p ++ c :: s) [c] = Some (c :: s).
Proof.
  induction p as [|x p IH]; intros H; cbn [strstr app]; rewrite has_prefix_one; unfold ceq; [by rewrite bool_decide_eq_true_2|].
  apply not_elem_of_cons in H as [Hx H]. by rewrite bool_decide_eq_false_2 by congruence; apply IH.
Qed.
Definition nonempty (p : bytes) : bool := negb (bool_decide (p = [])).
Definition full_pieces (s : bytes) : list bytes := filter (fun p => nonempty p = true) (pieces s).
Lemma next_free s : c ∉ s -> StringSplitter_next [c] s = (s, []).
Proof. intros H. unfold StringSplitter_next. by rewrite strstr_free. Qed.
Lemma next_sep p s : c ∉ p -> StringSplitter_next [c] (p ++ c :: s) = (p, drop_seps s).
Proof.
  intros H. unfold StringSplitter_next. rewrite strstr_sep by done. cbn [length]. rewrite skip_splitters_one. cbn [drop].
  f_equal. unfold up_to. rewrite length_app. replace (length p + length (c :: s) - length (c :: s))%nat with (length p) by lia.
  by rewrite take_app_length.
Qed.
Lemma full_drop s : full_pieces (drop_seps s) = full_pieces s /\ (length (drop_seps s) <= length s)%nat /\
  (drop_seps s = [] \/ exists x s', drop_seps s = x :: s' /\ x <> c).
Proof.
  induction s as [|x s (IH1 & IH2 & IH3)]; cbn [drop_seps]; [by repeat split; try left|]. unfold ceq. case_bool_decide as E.
  - subst. split; [|split; [cbn; lia|done]]. rewrite IH1. unfold full_pieces. cbn [pieces].
    destruct (pieces_cons s) as (p & ps & Ep). rewrite Ep. unfold ceq. by rewrite bool_decide_eq_true_2.
  - repeat split; [done|]. right. by eexists _, _.
Qed.
Lemma split_more s : forall fuel l, (length s <= fuel)%nat ->
  (s = [] \/ exists x s', s = x :: s' /\ x <> c) -> StringSplitter_loop fuel [c] s l = l ++ full_pieces s.
Proof.
  remember (length s) as n eqn:E. revert s E. induction n as [n IH] using lt_wf_ind. intros s -> fuel l Hf Hs.
  destruct Hs as [->|(x & s' & -> & Hx)]; [destruct fuel; cbn; by rewrite app_nil_r|].
  destruct fuel as [|fuel]; [cbn in Hf; lia|]. cbn [StringSplitter_loop StringSplitter_more].
  destruct (memchr (x :: s') c) as [k|] eqn:Ek.
  - apply memchr_Some in Ek as (pre & post & Heq & _ & Hc). rewrite Heq, next_sep by done.
    destruct (full_drop post) as (H1 & H2 & H3).
    assert (length (x :: s') = (length pre + S (length post))%nat) as Hlen by (rewrite Heq, length_app; done).
    rewrite (IH (length (drop_seps post))) by (done || lia). rewrite H1, <-app_assoc. f_equal.
    unfold full_pieces at 2. rewrite pieces_sep by done. destruct pre as [|y pre]; [injection Heq as -> _; done|]. done.
  - apply memchr_None in Ek. rewrite next_free by done. unfold full_pieces. rewrite pieces_free by done.
    destruct fuel; done.
Qed.
End Pieces.

(** A text split at one character: the first piece, and the other ones that are not
    empty. *)
Lemma StringSplitter_split_one s c : c <> nul -> c_string s = s -> s <> [] ->
  StringSplitter_split s [c] = match pieces c s with p :: ps => p :: filter (fun p => nonempty p = true) ps | [] => [] end.
Proof.
  intros Hc Hs Hne. unfold StringSplitter_split. rewrite Hs.
  assert (c_string [c] = [c]) as -> by (unfold c_string; cbn; unfold ceq; by rewrite bool_decide_eq_false_2).
  destruct s as [|x s]; [done|]. cbn [length StringSplitter_loop StringSplitter_more].
  destruct (memchr (x :: s) c) as [k|] eqn:Ek.
  - apply memchr_Some in Ek as (pre & post & Heq & _ & Hp). rewrite Heq, next_sep, pieces_sep by done.
    destruct (full_drop c post) as (H1 & H2 & H3). rewrite split_more.
    + cbn [app]. f_equal. by rewrite H1.
    + assert (length (x :: s) = (length pre + S (length post))%nat) by (rewrite Heq, length_app; done). cbn in *. lia.
    + done.
  - apply memchr_None in Ek. rewrite next_free, pieces_free by done. by destruct s.
Qed.

(** ** UTF-8: the bytes that are accepted *)

Definition is_cont (c : char) : bool := leadingOnes c =? 1.
(** A text is characters: one byte, or a leading byte and the bytes it announces. *)
Inductive utf8_text : bytes -> Prop :=
  | utf8_nil : utf8_text []
  | utf8_ascii c s : uchar c < 0x80 -> utf8_text s -> utf8_text (c :: s)
  | utf8_char c conts s : 0xC2 <= uchar c <= 0xF4 -> zlen conts = leadingOnes c - 1 -> Forall (fun k => is_cont k = true) conts ->
      utf8_text s -> utf8_text (c :: conts ++ s).
(** The table has the number of leading one bits. *)
Definition leading_bits (z : Z) : Z :=
  let bit n := Z.testbit z n in
  if negb (bit 7) then 0 else if negb (bit 6) then 1 else if negb (bit 5) then 2 else if negb (bit 4) then 3
  else if negb (bit 3) then 4 else if negb (bit 2) then 5 else if negb (bit 1) then 6 else if negb (bit 0) then 7 else 8.
Lemma leadingOnes_bits c : leadingOnes c = leading_bits (uchar c).
Proof. apply Z.eqb_eq. revert c. apply forall_chars. by vm_compute. Qed.
Lemma leadingOnes_classes c :
  (leadingOnes c = 0 <-> uchar c < 0x80) /\ (leadingOnes c = 1 <-> 0x80 <= uchar c < 0xC0) /\ (0xC0 <= uchar c -> 2 <= leadingOnes c).
Proof.
  assert (Bool.eqb (leadingOnes c =? 0) (uchar c <? 0x80) && Bool.eqb (leadingOnes c =? 1) ((0x80 <=? uchar c) && (uchar c <? 0xC0)) &&
    ((uchar c <? 0xC0) || (2 <=? leadingOnes c)) = true) as H by (revert c; apply forall_chars; by vm_compute).
  apply andb_prop in H as [H H3]. apply andb_prop in H as [H1 H2]. apply Bool.eqb_prop in H1, H2. apply orb_prop in H3. lia.
Qed.
(** [left_] bytes of a character are still to come. *)
Definition utf8_rest (left_ : Z) (s : bytes) : Prop :=
  exists conts rest, s = conts ++ rest /\ zlen conts = left_ /\ Forall (fun k => is_cont k = true) conts /\ utf8_text rest.
Lemma utf8_rest_0 s : utf8_rest 0 s <-> utf8_text s.
Proof.
  split; [|intros H; by exists [], s]. intros (conts & rest & -> & Hl & _ & H). by destruct conts; [|unfold zlen in Hl; cbn in Hl; lia].
Qed.
Lemma utf8_rest_cons l c s : 0 < l -> utf8_rest l (c :: s) <-> leadingOnes c = 1 /\ utf8_rest (l - 1) s.
Proof.
  intros Hl. split.
  - intros ([|k conts] & rest & Heq & Hlen & Hc & Ht); [unfold zlen in Hlen; cbn in Hlen; lia|]. injection Heq as <- ->.
    apply Forall_cons in Hc as [Hk Hc]. rewrite zlen_cons in Hlen. unfold is_cont in Hk. split; [lia|].
    exists conts, rest. repeat split; [lia|done|done].
  - intros (Hc & conts & rest & -> & Hlen & Hf & Ht). exists (c :: conts), rest. rewrite zlen_cons. repeat split; [lia| |done].
    constructor; [unfold is_cont; lia|done].
Qed.
Lemma utf8_text_cons c s : utf8_text (c :: s) <->
  uchar c < 0x80 /\ utf8_text s \/ 0xC2 <= uchar c <= 0xF4 /\ utf8_rest (leadingOnes c - 1) s.
Proof.
  split.
  - intros H. inversion H; subst; [by left|]. right. split; [done|]. by exists conts, s0.
  - intros [[H Hs]|(H & conts & rest & -> & Hl & Hf & Ht)]; [by constructor|by constructor].
Qed.
Lemma utf8_loop_rest s : forall l, 0 <= l -> utf8_loop l s = true <-> utf8_rest l s.
Proof.
  induction s as [|c s IH]; intros l Hl; cbn [utf8_loop].
  - rewrite Z.eqb_eq. split; [intros ->; apply utf8_rest_0; constructor|].
    intros ([|] & rest & Heq & <- & _); [done|discriminate Heq].
  - destruct (leadingOnes_classes c) as (C0 & C1 & C2). destruct (l =? 0) eqn:El; cbn [negb].
    + assert (l = 0) as -> by lia. rewrite utf8_rest_0, utf8_text_cons.
      destruct (leadingOnes c =? 0) eqn:E0; [rewrite (IH 0), utf8_rest_0 by lia; intuition lia|].
      destruct (leadingOnes c =? 1) eqn:E1; [intuition (try lia; try done)|].
      destruct (0xF4 <? uchar c) eqn:E4; [intuition (try lia; try done)|].
      destruct ((uchar c =? 0xC0) || (uchar c =? 0xC1)) eqn:EC; [intuition (try lia; try done)|].
      rewrite IH by lia. intuition lia.
    + rewrite utf8_rest_cons by lia. destruct (leadingOnes c =? 1) eqn:E1; cbn [negb]; [rewrite IH by lia; intuition lia|].
      intuition (try lia; try done).
Qed.
(** A string is accepted exactly when what is in front of its first zero byte is
    characters. *)
Lemma isValidUTF8_grammar s : isValidUTF8 s = true <-> utf8_text (c_string s).
Proof. unfold isValidUTF8. rewrite utf8_loop_rest by done. apply utf8_rest_0. Qed.

(** ** LexNumCmp: the keys it compares *)

Inductive token := TDot | TChar (c : char) | TNumber (digits : bytes) | TLast.
Definition token_class (t : token) : Z := match t with TDot => 0 | TChar _ => 1 | TNumber _ => 2 | TLast => 3 end.
Definition number_cmp (a b : bytes) : Z := if zlen a =? zlen b then Z.sgn (memcmp a b) else Z.sgn (zlen a - zlen b).
Definition token_cmp (t u : token) : Z :=
  match t, u with
  | TChar c, TChar d => Z.sgn (schar c - schar d)
  | TNumber a, TNumber b => number_cmp a b
  | _, _ => Z.sgn (token_class t - token_class u)
  end.
Fixpoint tokens_cmp (l k : list token) : Z :=
  match l, k with
  | [], [] => 0
  | [], _ :: _ => -1
  | _ :: _, [] => 1
  | t :: l, u :: k => if token_cmp t u =? 0 then tokens_cmp l k else token_cmp t u
  end.
(** The key of a text.  The number at the start of a word has no leading zeros. *)
Fixpoint tokens (fuel : nat) (startWord lexOnly : bool) (s : bytes) : list token :=
  match fuel, s with
  | S fuel, x :: s' =>
      if ceq x "."%char then TDot :: tokens fuel true lexOnly s'
      else if ceq x (chr 255) then TLast :: tokens fuel false lexOnly s'
      else if negb lexOnly && isdigit x then
        let '(d, r) := span isdigit (if startWord then skip_zeros s else s) in TNumber d :: tokens fuel false lexOnly r
      else TChar x :: tokens fuel false lexOnly s'
  | _, _ => []
  end.
Definition version_key (lexOnly : bool) (s : bytes) : list token := tokens (length s) true lexOnly s.

Lemma skip_zeros_length s : (length (skip_zeros s) <= length s)%nat.
Proof. induction s as [|c s IH]; cbn [skip_zeros]; [done|]. destruct (ceq c _); cbn; lia. Qed.
Lemma span_rest_length p s : (length (span p s).2 <= length s)%nat.
Proof. induction s as [|c s IH]; cbn [span]; [done|]. destruct (p c); [|done]. destruct (span p s). cbn in *. lia. Qed.
Lemma number_length (st : bool) x s : isdigit x = true ->
  (length (span isdigit (if st then skip_zeros (x :: s) else x :: s)).2 <= length s)%nat.
Proof.
  intros Hx. destruct st; cbn [skip_zeros].
  - destruct (ceq x "0"%char).
    + etrans; [apply span_rest_length|apply skip_zeros_length].
    + cbn [span]. rewrite Hx. pose proof (span_rest_length isdigit s). by destruct (span isdigit s).
  - cbn [span]. rewrite Hx. pose proof (span_rest_length isdigit s). by destruct (span isdigit s).
Qed.
Lemma tokens_fuel f g st lex_ s : (length s <= f)%nat -> (length s <= g)%nat -> tokens f st lex_ s = tokens g st lex_ s.
Proof.
  revert g st s. induction f as [|f IH]; intros [|g] st [|x s] Hf Hg; try done; try (cbn in *; lia). cbn in Hf, Hg. cbn [tokens].
  destruct (ceq x "."%char); [f_equal; apply IH; lia|]. destruct (ceq x (chr 255)); [f_equal; apply IH; lia|].
  destruct (negb lex_ && isdigit x) eqn:En; [|f_equal; apply IH; lia].
  apply andb_prop in En as [_ Hx]. pose proof (number_length st x s Hx) as Hn.
  destruct (span isdigit _) as [d r]. cbn in Hn. f_equal. apply IH; lia.
Qed.
Lemma no_nul_span p s : nul ∉ s -> nul ∉ (span p s).2.
Proof.
  induction s as [|c s IH]; intros H; cbn [span]; [done|]. destruct (p c); [|done].
  apply not_elem_of_cons in H as [_ H]. specialize (IH H). by destruct (span p s).
Qed.
Lemma no_nul_skip_zeros s : nul ∉ s -> nul ∉ skip_zeros s.
Proof. induction s as [|c s IH]; intros H; cbn [skip_zeros]; [done|]. destruct (ceq c _); [|done]. apply not_elem_of_cons in H as [_ H]. by apply IH. Qed.

Lemma memcmp_sign a b : (if 0 <? memcmp a b then 1 else -1) = Z.sgn (memcmp a b) \/ memcmp a b = 0.
Proof. destruct (0 <? memcmp a b) eqn:E; lia. Qed.
Lemma cmp_loop_tokens lex_ : forall f st a b, (length a <= f)%nat -> nul ∉ a -> nul ∉ b ->
  cmp_loop f st lex_ a b = tokens_cmp (tokens f st lex_ a) (tokens (length b) st lex_ b).
Proof.
  assert (forall y t, nul ∉ y :: t -> negb (ceq y nul) = true) as Hnn.
  { intros y t H. apply not_elem_of_cons in H as [H _]. unfold ceq. by rewrite bool_decide_eq_false_2. }
  assert (forall x s st, exists t ts, tokens (length (x :: s)) st lex_ (x :: s) = t :: ts) as Hone.
  { intros x s st. cbn [length tokens]. destruct (ceq x _); [by eexists _, _|]. destruct (ceq x _); [by eexists _, _|].
    destruct (negb lex_ && isdigit x); [|by eexists _, _]. destruct (span _ _). by eexists _, _. }
  induction f as [|f IH]; intros st [|x a] [|y b] Hf Ha Hb; try (cbn in Hf; lia); try done.
  - cbn [cmp_loop]. rewrite (Hnn _ _ Hb). destruct (Hone y b st) as (t & ts & ->). done.
  - cbn [cmp_loop]. rewrite (Hnn _ _ Hb). destruct (Hone y b st) as (t & ts & ->). done.
  - cbn [cmp_loop]. rewrite (Hnn _ _ Ha). destruct (Hone x a st) as (t & ts & E).
    rewrite (tokens_fuel (S f) (length (x :: a))), E by done. done.
  - cbn in Hf. assert (nul ∉ a /\ nul ∉ b) as [Ha' Hb'] by (apply not_elem_of_cons in Ha, Hb; tauto).
    cbn [cmp_loop tokens length].
    destruct (ceq x "."%char) eqn:Dx, (ceq y "."%char) eqn:Dy; cbn [andb negb].
    1: { cbn. apply IH; done || lia. }
    1: { destruct (ceq y (chr 255)), (negb lex_ && isdigit y); try done; by destruct (span _ _). }
    1: { destruct (ceq x (chr 255)), (negb lex_ && isdigit x); try done; by destruct (span _ _). }
    destruct (ceq x (chr 255)) eqn:Px, (ceq y (chr 255)) eqn:Py; cbn [andb negb].
    1: { assert (x = y) as -> by (unfold ceq in *; boolify; congruence). rewrite Z.ltb_irrefl.
         assert (isdigit y = false) as -> by (unfold ceq in Px; boolify; subst; by vm_compute). rewrite andb_false_r. cbn. apply IH; done || lia. }
    1: { destruct (negb lex_ && isdigit y); try done; by destruct (span _ _). }
    1: { destruct (negb lex_ && isdigit x); try done; by destruct (span _ _). }
    destruct (negb lex_ && isdigit x) eqn:Nx, (negb lex_ && isdigit y) eqn:Ny; cbn [andb negb].
    + apply andb_prop in Nx as [_ Nx], Ny as [_ Ny].
      pose proof (number_length st x a Nx) as Lx. pose proof (number_length st y b Ny) as Ly.
      assert (nul ∉ (span isdigit (if st then skip_zeros (x :: a) else x :: a)).2) as Zx by (apply no_nul_span; destruct st; [by apply no_nul_skip_zeros|done]).
      assert (nul ∉ (span isdigit (if st then skip_zeros (y :: b) else y :: b)).2) as Zy by (apply no_nul_span; destruct st; [by apply no_nul_skip_zeros|done]).
      destruct (span isdigit (if st then skip_zeros (x :: a) else x :: a)) as [da ra].
      destruct (span isdigit (if st then skip_zeros (y :: b) else y :: b)) as [db rb]. cbn [snd] in *.
      cbn [tokens_cmp token_cmp]. unfold number_cmp.
      destruct (zlen db <? zlen da) eqn:E1; [replace (zlen da =? zlen db) with false by lia; rewrite Z.sgn_pos by lia; done|].
      destruct (zlen da <? zlen db) eqn:E2; [replace (zlen da =? zlen db) with false by lia; rewrite Z.sgn_neg by lia; done|].
      replace (zlen da =? zlen db) with true by lia.
      destruct (memcmp da db =? 0) eqn:E3; cbn [negb].
      * replace (Z.sgn (memcmp da db) =? 0) with true by (apply Z.eqb_eq in E3; by rewrite E3).
        rewrite IH by (done || lia). f_equal. by apply tokens_fuel.
      * destruct (memcmp_sign da db) as [E|E]; [|lia]. rewrite E. replace (Z.sgn (memcmp da db) =? 0) with false by lia. done.
    + destruct (span _ _). done.
    + destruct (span _ _). done.
    + cbn [tokens_cmp token_cmp].
      destruct (schar y <? schar x) eqn:E1; [rewrite Z.sgn_pos by lia; done|].
      destruct (schar x <? schar y) eqn:E2; [rewrite Z.sgn_neg by lia; done|].
      replace (schar x - schar y) with 0 by lia. cbn. apply IH; done || lia.
Qed.

(** The comparison of keys is a total preorder. *)
Lemma memcmp_sym a b : zlen a = zlen b -> memcmp b a = - memcmp a b.
Proof.
  revert b. induction a as [|x a IH]; intros [|y b] H; unfold zlen in *; cbn in *; try lia.
  unfold ceq. destruct (decide (x = y)) as [->|E].
  - rewrite !bool_decide_eq_true_2 by done. apply IH. lia.
  - rewrite !bool_decide_eq_false_2 by congruence. lia.
Qed.
Lemma memcmp_trans a b c : zlen a = zlen b -> zlen b = zlen c -> memcmp a b <= 0 -> memcmp b c <= 0 ->
  memcmp a c <= 0 /\ (memcmp a c = 0 -> memcmp a b = 0 /\ memcmp b c = 0).
Proof.
  revert b c. induction a as [|x a IH]; intros [|y b] [|z c] H1 H2; unfold zlen in *; cbn in *; try lia. unfold ceq.
  assert (forall u v : char, u <> v -> uchar u <> uchar v) as Hinj by (intros u v Huv E; by apply (inj uchar) in E).
  destruct (decide (x = y)) as [->|Exy], (decide (y = z)) as [->|Eyz]; intros.
  - rewrite !bool_decide_eq_true_2 in * by done. apply IH; lia.
  - rewrite (bool_decide_eq_false_2 (y = z)) in * by done. rewrite (bool_decide_eq_true_2 (y = y)) in * by done. pose proof (Hinj _ _ Eyz). lia.
  - rewrite (bool_decide_eq_false_2 (x = z)) in * by done. rewrite (bool_decide_eq_true_2 (z = z)) in * by done. pose proof (Hinj _ _ Exy). lia.
  - rewrite (bool_decide_eq_false_2 (x = y)), (bool_decide_eq_false_2 (y = z)) in * by done.
    pose proof (Hinj _ _ Exy). pose proof (Hinj _ _ Eyz). rewrite bool_decide_eq_false_2 by (intros ->; lia). lia.
Qed.
Lemma token_cmp_sym t u : token_cmp u t = - token_cmp t u.
Proof.
  destruct t, u; cbn; try lia. unfold number_cmp. rewrite (Z.eqb_sym (zlen digits0)).
  destruct (zlen digits =? zlen digits0) eqn:E; [rewrite (memcmp_sym digits) by lia|]; lia.
Qed.
Definition below (x y z : Z) : Prop := x <= 0 -> y <= 0 -> z <= 0 /\ (z = 0 -> x = 0 /\ y = 0).
Lemma number_cmp_trans a b c : below (number_cmp a b) (number_cmp b c) (number_cmp a c).
Proof.
  unfold below, number_cmp.
  destruct (zlen a =? zlen b) eqn:E1, (zlen b =? zlen c) eqn:E2; intros H1 H2.
  - replace (zlen a =? zlen c) with true by lia.
    destruct (memcmp_trans a b c) as [H3 H4]; [lia..|]. split; [lia|]. intros H. destruct H4; lia.
  - replace (zlen a =? zlen c) with false by lia. lia.
  - replace (zlen a =? zlen c) with false by lia. lia.
  - destruct (zlen a =? zlen c) eqn:E3; lia.
Qed.
Lemma token_cmp_trans t u v : below (token_cmp t u) (token_cmp u v) (token_cmp t v).
Proof. destruct t, u, v; try apply number_cmp_trans; unfold below; cbn; intros; split; lia. Qed.
Lemma tokens_cmp_sym l k : tokens_cmp k l = - tokens_cmp l k.
Proof.
  revert k. induction l as [|t l IH]; intros [|u k]; try done. cbn. rewrite (token_cmp_sym t u), IH.
  destruct (token_cmp t u =? 0) eqn:E; [|by replace (- token_cmp t u =? 0) with false by lia].
  by replace (- token_cmp t u =? 0) with true by lia.
Qed.
Lemma tokens_cmp_trans l k m : below (tokens_cmp l k) (tokens_cmp k m) (tokens_cmp l m).
Proof.
  revert k m. induction l as [|t l IH]; intros [|u k] [|v m]; unfold below; cbn; try lia.
  pose proof (token_cmp_trans t u v) as Ht. specialize (IH k m). unfold below in *. intros H1 H2.
  destruct (token_cmp t u =? 0) eqn:E1, (token_cmp u v =? 0) eqn:E2, (token_cmp t v =? 0) eqn:E3; lia.
Qed.
Lemma LexNumCmp_key lex_ a b : nul ∉ a -> nul ∉ b -> LexNumCmp_cmp a b lex_ = tokens_cmp (version_key lex_ a) (version_key lex_ b).
Proof. intros Ha Hb. unfold LexNumCmp_cmp, version_key. by rewrite cmp_loop_tokens. Qed.

(** A number without a leading zero is compared by its value. *)
Definition digits (s : bytes) : Prop := Forall (fun c => isdigit c = true) s.
Lemma digit_value c : isdigit c = true -> _digitValue c = uchar c - 48 /\ 0 <= uchar c - 48 < 10.
Proof.
  intros Hc. assert (implb (isdigit c) (_digitValue c =? uchar c - 48) = true) as H1 by (clear; revert c; apply forall_chars; by vm_compute).
  rewrite Hc in H1. cbn [implb] in H1. unfold isdigit in Hc. lia.
Qed.
Lemma digits_value_step c s acc : isdigit c = true -> digits_value 10 (c :: s) acc = digits_value 10 s (acc * 10 + (uchar c - 48)).
Proof. intros Hc. cbn [digits_value]. destruct (digit_value c Hc) as [-> H]. by replace (uchar c - 48 <? 10) with true by lia. Qed.
Lemma digits_value_bounds s : digits s -> forall acc, 0 <= acc -> exists v, digits_value 10 s acc = Some v /\
  acc * 10 ^ zlen s <= v < (acc + 1) * 10 ^ zlen s.
Proof.
  induction 1 as [|c s Hc Hs IH]; intros acc Ha.
  - exists acc. rewrite zlen_nil. change (10 ^ 0) with 1. split; [done|lia].
  - rewrite digits_value_step by done. destruct (digit_value c Hc) as [_ H].
    destruct (IH (acc * 10 + (uchar c - 48)) ltac:(lia)) as (v & Hv & Hb). exists v. split; [done|].
    rewrite zlen_cons, Z.pow_add_r by (pose proof (zlen_nonneg s); lia). pose proof (Z.pow_pos_nonneg 10 (zlen s) ltac:(lia) (zlen_nonneg s)). nia.
Qed.
Lemma memcmp_value a b acc va vb : digits a -> digits b -> zlen a = zlen b -> 0 <= acc ->
  digits_value 10 a acc = Some va -> digits_value 10 b acc = Some vb -> Z.sgn (memcmp a b) = Z.sgn (va - vb).
Proof.
  intros Ha. revert b acc va vb. induction Ha as [|x a Hx Ha IH]; intros [|y b] acc va vb Hb Hl Hacc Va Vb; try (unfold zlen in Hl; cbn in Hl; lia).
  - cbn in *. injection Va as <-. injection Vb as <-. by rewrite Z.sub_diag.
  - apply Forall_cons in Hb as [Hy Hb]. rewrite !zlen_cons in Hl. rewrite digits_value_step in Va, Vb by done.
    destruct (digit_value x Hx) as [_ Rx], (digit_value y Hy) as [_ Ry]. cbn [memcmp]. unfold ceq. case_bool_decide as E.
    + subst y. eapply (IH b); [done|lia| |exact Va|exact Vb]; lia.
    + assert (uchar x <> uchar y) by (intros F; by apply (inj uchar) in F).
      destruct (digits_value_bounds a Ha (acc * 10 + (uchar x - 48)) ltac:(lia)) as (wa & Wa & Ba).
      destruct (digits_value_bounds b Hb (acc * 10 + (uchar y - 48)) ltac:(lia)) as (wb & Wb & Bb).
      rewrite Va in Wa. injection Wa as <-. rewrite Vb in Wb. injection Wb as <-.
      assert (zlen a = zlen b) as Hab by lia. rewrite Hab in Ba. pose proof (Z.pow_pos_nonneg 10 (zlen b) ltac:(lia) (zlen_nonneg b)).
      destruct (Z.lt_total (uchar x) (uchar y)) as [L|[L|L]]; [|done|].
      * rewrite (Z.sgn_neg (va - vb)) by nia. lia.
      * rewrite (Z.sgn_pos (va - vb)) by nia. lia.
Qed.
Definition no_leading_zero (s : bytes) : Prop := match s with c :: _ => c <> "0"%char | [] => True end.
Lemma leading_value s v : digits s -> no_leading_zero s -> digits_value 10 s 0 = Some v ->
  v < 10 ^ zlen s /\ (0 < zlen s -> 10 ^ (zlen s - 1) <= v).
Proof.
  intros Hs Hz Hv. destruct (digits_value_bounds s Hs 0 ltac:(lia)) as (w & Hw & Hb). rewrite Hv in Hw. injection Hw as <-. split; [lia|].
  intros Hl. destruct s as [|c s]; [unfold zlen in Hl; cbn in Hl; lia|]. apply Forall_cons in Hs as [Hc Hs].
  rewrite digits_value_step in Hv by done. destruct (digit_value c Hc) as [_ R].
  assert (uchar c <> 48) by (intros E; apply Hz; apply (inj uchar); by rewrite E).
  destruct (digits_value_bounds s Hs (0 * 10 + (uchar c - 48)) ltac:(lia)) as (w & Hw & Hb'). rewrite Hv in Hw. injection Hw as <-.
  rewrite zlen_cons. replace (1 + zlen s - 1) with (zlen s) by lia. pose proof (Z.pow_pos_nonneg 10 (zlen s) ltac:(lia) (zlen_nonneg s)). nia.
Qed.
Lemma number_cmp_value a b va vb : digits a -> digits b -> no_leading_zero a -> no_leading_zero b ->
  digits_value 10 a 0 = Some va -> digits_value 10 b 0 = Some vb -> number_cmp a b = Z.sgn (va - vb).
Proof.
  intros Ha Hb Za Zb Va Vb. unfold number_cmp. destruct (zlen a =? zlen b) eqn:E; [by apply (memcmp_value a b 0); try done; lia|].
  destruct (leading_value a va) as [La Ga]; try done. destruct (leading_value b vb) as [Lb Gb]; try done.
  pose proof (zlen_nonneg a). pose proof (zlen_nonneg b). destruct (Z.lt_total (zlen a) (zlen b)) as [L|[L|L]]; [|lia|].
  - pose proof (Z.pow_le_mono_r 10 (zlen a) (zlen b - 1) ltac:(lia) ltac:(lia)). rewrite !Z.sgn_neg by lia. done.
  - pose proof (Z.pow_le_mono_r 10 (zlen b) (zlen a - 1) ltac:(lia) ltac:(lia)). rewrite !Z.sgn_pos by lia. done.
Qed.
Lemma skip_zeros_no_zero s : no_leading_zero (skip_zeros s).
Proof. induction s as [|c s IH]; cbn [skip_zeros]; [done|]. unfold ceq. by case_bool_decide. Qed.
Lemma span_digits s : digits (span isdigit s).1 /\ (no_leading_zero s -> no_leading_zero (span isdigit s).1).
Proof.
  induction s as [|c s [IH _]]; cbn [span]; [by repeat constructor|]. destruct (isdigit c) eqn:E; [|by repeat constructor].
  destruct (span isdigit s). split; [by constructor|done].
Qed.

(** ** The theorems *)

(** [LexNumCmp::cmp] compares keys.  The key of a text is its dots, its numbers, its
    other characters and the character 255; a dot is below a character, a character
    below a number, a number below 255, and the end of the text below everything; at the
    start of a word leading zeros do not count, and numbers that have none are in the
    order of their values.  So for texts without a zero byte the comparison is a total
    preorder: reversing the arguments reverses the result, and it is transitive. *)
Theorem LexNumCmp_order (lexOnly : bool) (a b c : bytes) : nul ∉ a -> nul ∉ b -> nul ∉ c ->
  LexNumCmp_cmp a b lexOnly = tokens_cmp (version_key lexOnly a) (version_key lexOnly b) /\
  LexNumCmp_cmp b a lexOnly = - LexNumCmp_cmp a b lexOnly /\
  (LexNumCmp_cmp a b lexOnly <= 0 -> LexNumCmp_cmp b c lexOnly <= 0 -> LexNumCmp_cmp a c lexOnly <= 0) /\
  (forall m n vm vn, digits m -> digits n -> no_leading_zero m -> no_leading_zero n ->
    digits_value 10 m 0 = Some vm -> digits_value 10 n 0 = Some vn -> token_cmp (TNumber m) (TNumber n) = Z.sgn (vm - vn)).
Proof.
  intros Ha Hb Hc. rewrite !LexNumCmp_key by done. repeat split.
  - apply tokens_cmp_sym.
  - intros H1 H2. by destruct (tokens_cmp_trans (version_key lexOnly a) (version_key lexOnly b) (version_key lexOnly c)).
  - intros m n vm vn. apply number_cmp_value.
Qed.
Lemma LexNumCmp_order_witness : LexNumCmp_cmp (B "a.9.x") (B "a.10.b") false = -1 /\
  (LexNumCmp_cmp (B "a.9.x") (B "a.10.b") false <= 0 -> LexNumCmp_cmp (B "a.10.b") (B "a.10.c") false <= 0 ->
   LexNumCmp_cmp (B "a.9.x") (B "a.10.c") false <= 0).
Proof.
  split; [by vm_compute|].
  refine (proj1 (proj2 (proj2 (LexNumCmp_order false (B "a.9.x") (B "a.10.b") (B "a.10.c") _ _ _)))); vm_compute; not_in.
Defined.

(** Splitting at a character and joining are inverse: what [splitStringDelim] takes
    apart, [joinStringDelim] puts together, and pieces without the separator that have
    been joined are found again (a single empty piece excepted).  [StringSplitter] with a
    splitter of one byte gives the first of these pieces and, of the others, those that
    are not empty. *)
Theorem split_join_roundtrip (c : char) (s : bytes) (l : list bytes) :
  joinStringDelim (splitStringDelim s [] c) [] c = s /\
  (Forall (fun p => c ∉ p) l -> l <> [[]] -> splitStringDelim (joinStringDelim l [] c) [] c = l) /\
  (c <> nul -> nul ∉ s -> StringSplitter_split s [c] =
    match splitStringDelim s [] c with p :: ps => p :: filter (fun p => nonempty p = true) ps | [] => [] end).
Proof.
  repeat split.
  - rewrite splitStringDelim_pieces, joinStringDelim_glue. cbn. case_bool_decide; [by subst|]. apply glue_pieces.
  - intros Hl Hne. rewrite splitStringDelim_pieces, joinStringDelim_glue. cbn. case_bool_decide as E.
    + destruct l as [|p [|q l]]; [done| |]; cbn in E; [by subst|]. by destruct p.
    + apply pieces_glue; [by intros ->|done].
  - intros Hc Hs. rewrite splitStringDelim_pieces. case_bool_decide as E; [by subst|]. cbn [app].
    apply StringSplitter_split_one; [done| |done]. unfold c_string. by apply memchr_None in Hs as ->.
Qed.
Lemma split_join_roundtrip_witness : splitStringDelim (joinStringDelim [B "a"; []; B "b"] [] ","%char) [] ","%char = [B "a"; []; B "b"] /\
  StringSplitter_split (B "a,,b") (B ",") = [B "a"; B "b"].
Proof.
  split.
  - refine (proj1 (proj2 (split_join_roundtrip ","%char [] [B "a"; []; B "b"])) _ _); [repeat constructor; vm_compute; not_in|done].
  - change (B ",") with [","%char]. rewrite (proj2 (proj2 (split_join_roundtrip ","%char (B "a,,b") []))); [by vm_compute|by vm_compute|vm_compute; not_in].
Defined.
