(* ===== verification/BsonExtract.v ===== *)
(** * Fields with a type: bson/util/bson_extract.cpp

    A function with an output parameter maps what the parameter refers to before the call
    to the status and what it refers to afterwards.  The text of the value that ends one
    of the messages is left out. *)
From S2P Require Import Prelude StringData ParseNumber BsonTypes BufBuilder Bson BsonCompare BsonObj RSState CLib DoubleArith.
Local Open Scope Z_scope.

(** ** Accessors of an element *)

Definition isBoolean (e : BSONElement) : bool := bool_decide (element_type e = Bool_).
Definition boolean (e : BSONElement) : bool := match e.2 with VBool b => negb (ceq b nul) | _ => false end.
Definition element_OID (e : BSONElement) : bytes := match e.2 with VjstOID o => o | _ => [] end.
(** A double is converted as the language defines it: undefined when the type cannot
    hold it. *)
Definition numberLong (e : BSONElement) : M Z :=
  match e.2 with
  | VNumberDouble bits => double_to_int int64 (double_of_bits bits)
  | VNumberInt n | VNumberLong n => Ret n
  | _ => Ret 0
  end.
Definition safeNumberLong (e : BSONElement) : M Z :=
  match e.2 with
  | VNumberDouble bits =>
      let d := double_of_bits bits in
      if isNaN d then Ret 0
      else if double_lt (to_double (int_max int64)) d then Ret (int_max int64)
      else if double_lt d (to_double (int_min int64)) then Ret (int_min int64)
      else numberLong e
  | _ => numberLong e
  end.

(** ** The functions *)

Definition quoted (s : bytes) : bytes := dquote ++ s ++ dquote.
Definition element_typeName (e : BSONElement) : bytes := typeName (BSONType_value (element_type e)).
Definition bsonExtractField (object : BSONObj) (fieldName : bytes) (outElement : BSONElement) : Status * BSONElement :=
  let element := getField object fieldName in
  if eoo element then (Err NoSuchKey (B "Missing expected field " ++ quoted fieldName), outElement) else (OK, element).
Definition bsonExtractTypedField (object : BSONObj) (fieldName : bytes) (type : BSONType) (outElement : BSONElement) : Status * BSONElement :=
  let '(status, outElement) := bsonExtractField object fieldName outElement in
  if negb (isOK status) then (status, outElement)
  else if negb (bool_decide (type = element_type outElement)) then
    (Err TypeMismatch (quoted fieldName ++ B " had the wrong type. Expected " ++ typeName (BSONType_value type)
       ++ B ", found " ++ element_typeName outElement), outElement)
  else (OK, outElement).
Definition bsonExtractBooleanField (object : BSONObj) (fieldName : bytes) (out : bool) : Status * bool :=
  let '(status, element) := bsonExtractTypedField object fieldName Bool_ eooElement in
  if negb (isOK status) then (status, out) else (OK, boolean element).
Definition is_NoSuchKey (s : Status) : bool := match s with Err NoSuchKey _ => true | _ => false end.
Definition bsonExtractBooleanFieldWithDefault (object : BSONObj) (fieldName : bytes) (defaultValue out : bool) : Status * bool :=
  let '(status, value) := bsonExtractField object fieldName eooElement in
  if is_NoSuchKey status then (OK, defaultValue)
  else if negb (isOK status) then (status, out)
  else if negb (isNumber value.2) && negb (isBoolean value) then
    (Err TypeMismatch (B "Expected boolean or number type for field " ++ quoted fieldName ++ B ", found " ++ element_typeName value), out)
  else (OK, trueValue value).
Definition bsonExtractStringField (object : BSONObj) (fieldName out : bytes) : Status * bytes :=
  let '(status, element) := bsonExtractTypedField object fieldName String_ eooElement in
  if negb (isOK status) then (status, out) else (OK, str element).
Definition bsonExtractOIDField (object : BSONObj) (fieldName out : bytes) : Status * bytes :=
  let '(status, element) := bsonExtractTypedField object fieldName jstOID eooElement in
  if negb (isOK status) then (status, out) else (OK, element_OID element).
Definition bsonExtractOIDFieldWithDefault (object : BSONObj) (fieldName defaultValue out : bytes) : Status * bytes :=
  let '(status, out) := bsonExtractOIDField object fieldName out in
  if is_NoSuchKey status then (OK, defaultValue) else if negb (isOK status) then (status, out) else (OK, out).
Definition bsonExtractStringFieldWithDefault (object : BSONObj) (fieldName defaultValue out : bytes) : Status * bytes :=
  let '(status, out) := bsonExtractStringField object fieldName out in
  if is_NoSuchKey status then (OK, defaultValue) else if negb (isOK status) then (status, out) else (OK, out).
Definition bsonExtractIntegerField (object : BSONObj) (fieldName : bytes) (out : Z) : M (Status * Z) :=
  let '(status, value) := bsonExtractField object fieldName eooElement in
  if negb (isOK status) then Ret (status, out)
  else if negb (isNumber value.2) then
    Ret (Err TypeMismatch (B "Expected field " ++ quoted fieldName ++ B " to have numeric type, but found " ++ element_typeName value), out)
  else
    result ← safeNumberLong value;
    if negb (double_eq (to_double result) (element_number value)) then
      Ret (Err BadValue (B "Expected field " ++ quoted fieldName ++ B " to have a value exactly representable as a 64-bit integer, but found "), out)
    else Ret (OK, result).
Definition bsonExtractIntegerFieldWithDefault (object : BSONObj) (fieldName : bytes) (defaultValue out : Z) : M (Status * Z) :=
  '(status, out) ← bsonExtractIntegerField object fieldName out;
  if is_NoSuchKey status then Ret (OK, defaultValue) else Ret (status, out).

(** ** Integers that a double holds *)

#[local] Transparent one_units.

Lemma double_of_bits_small b : 0 <= b <= inf_bits -> double_of_bits b <> NaN.
Proof.
  intros Hb. unfold double_of_bits. unfold inf_bits in Hb.
  assert (Z.land (Z.shiftr b 52) 2047 = b / 2 ^ 52) as ->.
  { change 2047 with (Z.ones 11). rewrite Z.land_ones, Z.shiftr_div_pow2 by lia. apply Z.mod_small. split; [apply Z.div_pos; lia|].
    apply Z.div_lt_upper_bound; lia. }
  destruct (b / 2 ^ 52 =? 2047) eqn:E; [|done].
  assert (b = inf_bits) as -> by (pose proof (Z.mul_div_le b (2 ^ 52) ltac:(lia)); unfold inf_bits; lia). done.
Qed.
Lemma round_div_nonneg x d : 0 <= x -> 0 < d -> 0 <= round_div x d.
Proof.
  intros Hx Hd. unfold round_div. pose proof (Z.div_pos x d Hx Hd).
  destruct (_ <? _); [done|]. destruct (_ <? _); [lia|]. destruct (Z.even _); lia.
Qed.
Lemma round_ratio_not_nan num den : 0 < num -> 0 < den -> round_ratio num den <> NaN.
Proof.
  intros Hn Hd. unfold round_ratio, double_nearest. set (k := Z.log2 num - Z.log2 den). set (k' := if pow_le 2 k num den then k else k - 1).
  set (u := Z.max (k' - 52) (-1074)). set (q := round_units 2 u num den). destruct (inf_bits <=? _) eqn:E; [done|].
  cbn [fst]. apply double_of_bits_small. split; [|lia].
  assert (0 <= q).
  { unfold q, round_units. destruct (0 <=? u) eqn:Eu.
    - assert (0 < 2 ^ u) by (apply Z.pow_pos_nonneg; lia). apply round_div_nonneg; nia.
    - assert (0 < 2 ^ (- u)) by (apply Z.pow_pos_nonneg; lia). apply round_div_nonneg; nia. }
  assert (-1074 <= u) by (unfold u; lia). nia.
Qed.
Lemma to_double_eq n : double_eq (to_double n) (to_double n) = true.
Proof.
  unfold to_double. destruct (n =? 0) eqn:E; [done|].
  pose proof (round_ratio_not_nan (Z.abs n) 1 ltac:(lia) ltac:(lia)).
  destruct (round_ratio (Z.abs n) 1) as [|[]|v], (n <? 0); try done; cbn; by rewrite Z.eqb_refl.
Qed.
Lemma round_div_exact q d : 0 < d -> round_div (q * d) d = q.
Proof.
  intros Hd. unfold round_div. rewrite Z.mod_mul, Z.div_mul by lia. by replace (2 * 0 <? d) with true by lia.
Qed.
(** A significand of 53 bits, scaled up. *)
Lemma round_ratio_scaled m e : 2 ^ 52 <= m < 2 ^ 53 -> 0 <= e <= 900 -> round_ratio (m * 2 ^ e) 1 = Finite (m * 2 ^ (e + 1074)).
Proof.
  intros Hm He. unfold round_ratio, double_nearest. assert (0 < 2 ^ e) by (apply Z.pow_pos_nonneg; lia).
  assert (Z.log2 m = 52) as Hl by (apply Z.log2_unique; lia).
  rewrite Z.log2_mul_pow2, Hl by lia. change (Z.log2 1) with 0. rewrite Z.sub_0_r.
  assert (pow_le 2 (e + 52) (m * 2 ^ e) 1 = true) as ->.
  { unfold pow_le. replace (0 <=? e + 52) with true by lia. rewrite Z.pow_add_r by lia. apply Z.leb_le. nia. }
  replace (Z.max (e + 52 - 52) (-1074)) with e by lia. unfold round_units. replace (0 <=? e) with true by lia.
  rewrite Z.mul_1_l, round_div_exact by done.
  assert ((e + 1074) * 2 ^ 52 + m < inf_bits) by (unfold inf_bits; lia).
  replace (inf_bits <=? (e + 1074) * 2 ^ 52 + m) with false by lia. apply double_of_normal_bits; lia.
Qed.
Lemma to_double_neg n : to_double (- n) = double_neg (to_double n).
Proof.
  unfold to_double. destruct (n =? 0) eqn:E; [by replace (- n =? 0) with true by lia|].
  replace (- n =? 0) with false by lia. rewrite Z.abs_opp.
  destruct (n <? 0) eqn:En; [replace (- n <? 0) with false by lia|replace (- n <? 0) with true by lia]; cbn [with_sign]; [|done].
  destruct (round_ratio (Z.abs n) 1) as [|b|v]; cbn; [done|by rewrite negb_involutive|by rewrite Z.opp_involutive].
Qed.
Lemma to_double_small n : Z.abs n < 2 ^ 53 -> to_double n = Finite (n * one_units).
Proof.
  intros H. destruct (decide (0 <= n)); [apply to_double_exact; lia|].
  rewrite <-(Z.opp_involutive n), to_double_neg, to_double_exact by lia. cbn. f_equal. lia.
Qed.
(** What a double is made of. *)
Lemma double_parts b v : double_of_bits b = Finite v -> exists m x, 0 <= m < 2 ^ 53 /\ 0 <= x /\ (x = 0 \/ 2 ^ 52 <= m) /\ Z.abs v = m * 2 ^ x.
Proof.
  unfold double_of_bits. set (frac := Z.land b (2 ^ 52 - 1)). set (ex := Z.land (Z.shiftr b 52) 2047).
  assert (0 <= frac < 2 ^ 52) as Hf.
  { unfold frac. change (2 ^ 52 - 1) with (Z.ones 52). rewrite Z.land_ones by lia. apply Z.mod_pos_bound. lia. }
  assert (0 <= ex) as He by (apply Z.land_nonneg; lia). clearbody frac ex. generalize (Z.testbit b 63). intros sg.
  destruct (ex =? 2047); [by destruct (frac =? 0)|]. intros H. injection H as <-.
  destruct (ex =? 0) eqn:E0.
  - exists frac, 0. split_and!; try lia. rewrite Z.pow_0_r. destruct sg; lia.
  - exists (2 ^ 52 + frac), (ex - 1). split_and!; [lia|lia|lia|right; lia|]. assert (0 < 2 ^ (ex - 1)) by (apply Z.pow_pos_nonneg; lia).
    destruct sg; nia.
Qed.
(** An integer that a double holds is converted to that double. *)
Lemma to_double_of_bits b n : double_of_bits b = Finite (n * one_units) -> Z.abs n <= 2 ^ 63 -> to_double n = Finite (n * one_units).
Proof.
  intros Hb Hn. destruct (decide (Z.abs n < 2 ^ 53)) as [|Hbig]; [by apply to_double_small|].
  destruct (double_parts _ _ Hb) as (m & x & Hm & Hx & Hcase & Habs). rewrite Z.abs_mul in Habs.
  change (Z.abs one_units) with (2 ^ 1074) in Habs.
  assert (1074 <= x) as Hx'.
  { apply Z.nlt_ge. intros Hlt. assert (2 ^ x <= 2 ^ 1074) by (apply Z.pow_le_mono_r; lia).
    assert (0 < 2 ^ x) by (apply Z.pow_pos_nonneg; lia). nia. }
  set (e := x - 1074) in *. assert (Z.abs n = m * 2 ^ e) as He.
  { apply (Z.mul_reg_r _ _ (2 ^ 1074)); [by vm_compute|]. rewrite Habs, <-Z.mul_assoc, <-Z.pow_add_r by lia. do 2 f_equal. lia. }
  assert (e <= 900).
  { apply Z.nlt_ge. intros Hlt. assert (2 ^ 900 <= 2 ^ e) by (apply Z.pow_le_mono_r; lia).
    assert (2 ^ 63 < 2 ^ 900) by (by vm_compute). nia. }
  assert (to_double (Z.abs n) = Finite (Z.abs n * one_units)) as Ht.
  { unfold to_double. replace (Z.abs n =? 0) with false by lia. replace (Z.abs n <? 0) with false by lia. cbn [with_sign].
    rewrite Z.abs_idemp, He, round_ratio_scaled by lia. f_equal. rewrite <-Z.mul_assoc. f_equal. unfold one_units. by rewrite <-Z.pow_add_r by lia. }
  destruct (decide (0 <= n)); [by rewrite Z.abs_eq in Ht by lia|].
  rewrite <-(Z.opp_involutive n), to_double_neg. rewrite Z.abs_neq in Ht by lia. rewrite Ht. cbn. f_equal. lia.
Qed.

(** ** The integers that are extracted *)

#[local] Opaque one_units.

Lemma safeNumberLong_double name bits v : double_of_bits bits = Finite v ->
  safeNumberLong (name, VNumberDouble bits) =
  if 2 ^ 63 * one_units <? v then Ret (int_max int64) else if v <? - 2 ^ 63 * one_units then Ret (int_min int64)
  else if v =? 2 ^ 63 * one_units then Throw EUndefined else Ret (Z.quot v one_units).
Proof.
  intros Hv. unfold safeNumberLong, numberLong. cbn [snd]. rewrite Hv.
  assert (to_double (int_max int64) = Finite (2 ^ 63 * one_units)) as -> by (by vm_compute).
  assert (to_double (int_min int64) = Finite (- 2 ^ 63 * one_units)) as -> by (by vm_compute). cbn [isNaN double_lt double_to_int].
  destruct (2 ^ 63 * one_units <? v) eqn:E1; [done|]. destruct (v <? - 2 ^ 63 * one_units) eqn:E2; [done|].
  pose proof one_units_pos as Hu. pose proof (Z.quot_rem' v one_units) as Hq.
  destruct (v =? 2 ^ 63 * one_units) eqn:E3.
  - assert (v = 2 ^ 63 * one_units) as -> by lia. rewrite Z.quot_mul by lia. rewrite decide_False; [done|].
    unfold in_range. change (int_max int64) with (2 ^ 63 - 1). lia.
  - rewrite decide_True; [done|]. unfold in_range. change (int_min int64) with (- 2 ^ 63). change (int_max int64) with (2 ^ 63 - 1).
    clear Hq. rewrite <-(Z.quot_mul (- 2 ^ 63) one_units) by lia. split; [apply Z.quot_le_mono; lia|].
    destruct (decide (v < 0)); [pose proof (Z.quot_le_mono v 0 one_units ltac:(lia) ltac:(lia)) as H; rewrite Z.quot_0_l in H by lia; lia|].
    apply Z.lt_le_pred. apply Z.quot_lt_upper_bound; lia.
Qed.

(** What is extracted from a value: nothing when it is no integer; [None] when the
    conversion is undefined. *)
Definition integer_value (v : bson_value) : option (option Z) :=
  match v with
  | VNumberInt n | VNumberLong n => Some (Some n)
  | VNumberDouble bits =>
      match double_of_bits bits with
      | Finite x =>
          if x =? 2 ^ 63 * one_units then None
          else if (x mod one_units =? 0) && (Z.abs x <=? 2 ^ 63 * one_units) then Some (Some (x / one_units)) else Some None
      | _ => Some None
      end
  | _ => Some None
  end.
Lemma quot_integer x u : 0 < u -> x mod u = 0 -> Z.quot x u = x / u /\ x / u * u = x.
Proof.
  intros Hu Hm. pose proof (Z.div_mod x u ltac:(lia)). split; [|lia]. replace x with (x / u * u) at 1 by lia. apply Z.quot_mul. lia.
Qed.

Lemma quot_below x u : 0 < u -> Z.abs x <= 2 ^ 63 * u -> Z.abs (Z.quot x u) <= 2 ^ 63 /\ Z.abs (Z.quot x u) * u <= Z.abs x.
Proof.
  intros Hu Hx. rewrite <-Z.quot_abs, (Z.abs_eq u) by lia. rewrite Z.quot_div_nonneg by lia. split.
  - apply Z.div_le_upper_bound; lia.
  - pose proof (Z.mul_div_le (Z.abs x) u Hu). lia.
Qed.

Section Double.
Context (name : bytes) (bits : Z).
Let e : BSONElement := (name, VNumberDouble bits).
(** The double is an integer of the type. *)
Lemma integer_double n : integer_value (VNumberDouble bits) = Some (Some n) ->
  safeNumberLong e = Ret n /\ element_number e = to_double n.
Proof.
  cbn [integer_value]. destruct (double_of_bits bits) as [|b|x] eqn:Eb; [discriminate|discriminate|].
  destruct (x =? 2 ^ 63 * one_units) eqn:E0; [discriminate|].
  destruct ((x mod one_units =? 0) && (Z.abs x <=? 2 ^ 63 * one_units)) eqn:E; [|discriminate]. intros H. injection H as <-.
  pose proof one_units_pos as Hu. destruct (quot_integer x one_units ltac:(lia) ltac:(lia)) as [Hq Hx]. split.
  - unfold e. rewrite (safeNumberLong_double _ _ _ Eb), E0.
    replace (2 ^ 63 * one_units <? x) with false by lia. replace (x <? - 2 ^ 63 * one_units) with false by lia. by rewrite Hq.
  - unfold e, element_number. cbn [snd]. rewrite <-Hx in Eb. rewrite Eb. symmetry. apply (to_double_of_bits bits); [exact Eb|].
    pose proof (Z.abs_mul (x / one_units) one_units) as Ha. rewrite Hx, (Z.abs_eq one_units) in Ha by lia. nia.
Qed.
Lemma undefined_double : integer_value (VNumberDouble bits) = None -> safeNumberLong e = Throw EUndefined.
Proof.
  cbn [integer_value]. destruct (double_of_bits bits) as [|b|x] eqn:Eb; [discriminate|discriminate|].
  destruct (x =? 2 ^ 63 * one_units) eqn:E0; [|by destruct (_ && _)]. intros _. unfold e. rewrite (safeNumberLong_double _ _ _ Eb), E0.
  pose proof one_units_pos as Hu. replace (2 ^ 63 * one_units <? x) with false by lia. by replace (x <? - 2 ^ 63 * one_units) with false by lia.
Qed.
(** What the conversion gives is another number than the double. *)
Lemma other_double z x : double_of_bits bits = Finite x -> Z.abs z <= 2 ^ 63 ->
  z = 2 ^ 63 - 1 /\ 2 ^ 63 * one_units < x \/ z * one_units <> x /\ (Z.abs z < 2 ^ 53 \/ z = - 2 ^ 63) ->
  double_eq (to_double z) (element_number e) = false.
Proof.
  intros Eb Hz H. unfold e, element_number. cbn [snd]. rewrite Eb. destruct H as [[-> Hx]|[Hx [Hs| ->]]].
  - assert (to_double (2 ^ 63 - 1) = Finite (2 ^ 63 * one_units)) as -> by (by vm_compute). cbn [double_eq]. lia.
  - rewrite to_double_small by done. cbn [double_eq]. lia.
  - assert (to_double (- 2 ^ 63) = Finite (- 2 ^ 63 * one_units)) as -> by (by vm_compute). cbn [double_eq]. lia.
Qed.
Lemma fractional_double : integer_value (VNumberDouble bits) = Some None ->
  exists r, safeNumberLong e = Ret r /\ double_eq (to_double r) (element_number e) = false.
Proof.
  cbn [integer_value]. pose proof one_units_pos as Hu. destruct (double_of_bits bits) as [|b|x] eqn:Eb.
  1: intros _; exists 0; unfold e, safeNumberLong, element_number; cbn [snd]; rewrite Eb; split; vm_compute; reflexivity.
  1: intros _; exists (if b then int_min int64 else int_max int64); unfold e, safeNumberLong, element_number; cbn [snd]; rewrite Eb;
    destruct b; split; vm_compute; reflexivity.
  destruct (x =? 2 ^ 63 * one_units) eqn:E0; [discriminate|].
  destruct ((x mod one_units =? 0) && (Z.abs x <=? 2 ^ 63 * one_units)) eqn:E; [discriminate|]. intros _.
  unfold e at 1. rewrite (safeNumberLong_double _ _ _ Eb), E0.
  destruct (2 ^ 63 * one_units <? x) eqn:E1.
  { eexists. split; [reflexivity|]. apply (other_double _ _ Eb); [by vm_compute|]. left. split; [reflexivity|lia]. }
  destruct (x <? - 2 ^ 63 * one_units) eqn:E2.
  { eexists. split; [reflexivity|]. apply (other_double _ _ Eb); [by vm_compute|]. right. change (int_min int64) with (- 2 ^ 63). split; [lia|by right]. }
  destruct (quot_below x one_units ltac:(lia) ltac:(lia)) as [Hq1 Hq2].
  eexists. split; [reflexivity|]. apply (other_double _ _ Eb); [done|]. right.
  assert (x mod one_units <> 0) as Hm by lia. pose proof (Z.quot_rem' x one_units). split.
  - intros Heq. apply Hm. rewrite <-Heq. apply Z.mod_mul. lia.
  - left. apply Z.nle_gt. intros Hbig. pose proof (double_of_bits_wf bits) as Hwf. rewrite Eb in Hwf. cbn [wf_double] in Hwf.
    unfold kEndOfPreciseDoubles in Hwf. apply Hm, Z.mod_divide; [lia|]. apply Hwf. nia.
Qed.
End Double.

(** C32: An integer is extracted from a field exactly when its value is one: an int, a
    long, or a double without a fraction that a long can hold.  A field that is missing,
    has another type, or is a double of another value gives NoSuchKey, TypeMismatch or
    BadValue and leaves the output alone; with a default, a missing field gives the
    default.  One double is not safe: at 2^63 the conversion is undefined. *)
Theorem bsonExtractIntegerField_spec (o : BSONObj) (name : bytes) (default_ out : Z) :
  (eoo (getField o name) = true ->
    (exists reason, bsonExtractIntegerField o name out = Ret (Err NoSuchKey reason, out)) /\
    bsonExtractIntegerFieldWithDefault o name default_ out = Ret (OK, default_)) /\
  (eoo (getField o name) = false ->
    bsonExtractIntegerFieldWithDefault o name default_ out = bsonExtractIntegerField o name out /\
    (isNumber (getField o name).2 = false -> exists reason, bsonExtractIntegerField o name out = Ret (Err TypeMismatch reason, out)) /\
    (isNumber (getField o name).2 = true ->
      match integer_value (getField o name).2 with
      | Some (Some n) => bsonExtractIntegerField o name out = Ret (OK, n)
      | Some None => exists reason, bsonExtractIntegerField o name out = Ret (Err BadValue reason, out)
      | None => bsonExtractIntegerField o name out = Throw EUndefined
      end)).
Proof.
  unfold bsonExtractIntegerFieldWithDefault, bsonExtractIntegerField, bsonExtractField.
  destruct (getField o name) as [fname v] eqn:Ef. split; intros Heoo; rewrite Heoo; [split; [by eexists|reflexivity]|].
  cbn [isOK negb fst snd].
  split.
  { destruct (isNumber v); cbn [negb]; [|reflexivity]. destruct (safeNumberLong (fname, v)); [|reflexivity]. rewrite ret_bind.
    by destruct (negb _). }
  split; intros Hn; rewrite Hn; cbn [negb]; [by eexists|].
  destruct v; try discriminate Hn.
  - destruct (integer_value (VNumberDouble bits)) as [[n|]|] eqn:Ei.
    + destruct (integer_double fname bits n Ei) as [-> ->]. by rewrite ret_bind, to_double_eq.
    + destruct (fractional_double fname bits Ei) as (r & -> & E). rewrite ret_bind, E. by eexists.
    + by rewrite (undefined_double fname bits Ei).
  - cbn [integer_value safeNumberLong numberLong snd]. rewrite ret_bind. unfold element_number. cbn [snd]. by rewrite to_double_eq.
  - cbn [integer_value safeNumberLong numberLong snd]. rewrite ret_bind. unfold element_number. cbn [snd]. by rewrite to_double_eq.
Qed.
(** The document holds 2.5, and 3 as a double. *)
Definition two_and_a_half : Z := 0x4004000000000000.
Definition three : Z := 0x4008000000000000.
Lemma bsonExtractIntegerField_spec_witness :
  let o := [(B "a", VNumberDouble two_and_a_half); (B "b", VNumberDouble three); (B "c", VString (B "x"))] in
  (exists reason, bsonExtractIntegerField o (B "a") 7 = Ret (Err BadValue reason, 7)) /\
  bsonExtractIntegerField o (B "b") 7 = Ret (OK, 3) /\
  (exists reason, bsonExtractIntegerField o (B "c") 7 = Ret (Err TypeMismatch reason, 7)) /\
  bsonExtractIntegerFieldWithDefault o (B "d") 5 7 = Ret (OK, 5).
Proof.
  intros o. split_and!.
  - exact (proj2 (proj2 (proj2 (bsonExtractIntegerField_spec o (B "a") 5 7) eq_refl)) eq_refl).
  - exact (proj2 (proj2 (proj2 (bsonExtractIntegerField_spec o (B "b") 5 7) eq_refl)) eq_refl).
  - exact (proj1 (proj2 (proj2 (bsonExtractIntegerField_spec o (B "c") 5 7) eq_refl)) eq_refl).
  - exact (proj2 (proj1 (bsonExtractIntegerField_spec o (B "d") 5 7) eq_refl)).
Defined.
(** 2^63, the bound the code compares with, is not a long. *)
Lemma safeNumberLong_bound : safeNumberLong (B "a", VNumberDouble 0x43E0000000000000) = Throw EUndefined.
Proof. by vm_compute. Qed.
