(* ===== verification/Sasl.v ===== *)
(** * Authentication: client/sasl_client_session.cpp, native_sasl_client_session.cpp,
    sasl_plain_client_conversation.cpp, sasl_scramsha1_client_conversation.cpp,
    sasl_client_authenticate.cpp, sasl_client_authenticate_impl.cpp and
    crypto/mechanism_scram.cpp

    The hash is that of a library: the class [Crypto].  The three numbers a conversation
    takes from the random device are a parameter.  At the end are the server of RFC 5802,
    with which the client agrees, and what the driver's success means. *)
From S2P Require Import Prelude StringData HostAndPort ParseNumber Codec BsonTypes BufBuilder Bson BsonCompare BsonObj RSState WriteResult.
From S2P Require Import Query Md5 Text BsonExtract Commands.
Local Open Scope Z_scope.

Definition hashSize : Z := 20.
(** [HMAC] with SHA-1, of a key and data, and [SHA1]: 20 bytes, or a null pointer. *)
Class Crypto := {
  HMAC_SHA1 : bytes -> bytes -> option bytes;
  SHA1 : bytes -> option bytes;
  HMAC_length : forall k d h, HMAC_SHA1 k d = Some h -> zlen h = hashSize;
  SHA1_length : forall d h, SHA1 d = Some h -> zlen h = hashSize }.

Section Scram.
Context `{Crypto}.

(** ** crypto/crypto_openssl.cpp, crypto/mechanism_scram.cpp *)

(** Each call is in a [fassert] with its number. *)
Definition hmacSha1 (code : Z) (key input : bytes) : M bytes :=
  match HMAC_SHA1 key input with Some h => Ret h | None => Throw (EFassert code) end.
Definition sha1 (code : Z) (input : bytes) : M bytes :=
  match SHA1 input with Some h => Ret h | None => Throw (EFassert code) end.
Definition xor_char (a b : char) : char := chr (Z.lxor (uchar a) (uchar b)).
Definition xor_bytes (a b : bytes) : bytes := zip_with xor_char a b.
Definition serverKeyConst : bytes := B "Server Key".
Definition clientKeyConst : bytes := B "Client Key".

(** The loop from 2 to [iterationCount]. *)
Fixpoint hi_loop (n : nat) (input intermediateDigest output : bytes) : M bytes :=
  match n with
  | O => Ret output
  | S n => d ← hmacSha1 17495 input intermediateDigest; hi_loop n input d (xor_bytes output d)
  end.
(** [iterationCount] is converted to unsigned. *)
Definition HMACIteration (input salt : bytes) (iterationCount : Z) : M bytes :=
  uassert 17450 (zlen salt + 4 =? hashSize);;
  output ← hmacSha1 17494 input (salt ++ [chr 0; chr 0; chr 0; chr 1]);
  hi_loop (Z.to_nat (wrap uint32 iterationCount - 1)) input output output.
Definition generateSaltedPassword (hashedPassword salt : bytes) (iterationCount : Z) : M bytes :=
  HMACIteration hashedPassword salt iterationCount.
(** [storedKey] and [serverKey]. *)
Definition generateSecrets (hashedPassword salt : bytes) (iterationCount : Z) : M (bytes * bytes) :=
  saltedPassword ← generateSaltedPassword hashedPassword salt iterationCount;
  clientKey ← hmacSha1 17498 saltedPassword clientKeyConst;
  storedKey ← sha1 17499 clientKey;
  serverKey ← hmacSha1 17500 saltedPassword serverKeyConst;
  Ret (storedKey, serverKey).
(** The two numbers are those of the random device. *)
Definition generateCredentials (r0 r1 : Z) (hashedPassword : bytes) (iterationCount : Z) : M BSONObj :=
  let userSalt := le_bytes 8 r0 ++ le_bytes 8 r1 in
  '(storedKey, serverKey) ← generateSecrets hashedPassword userSalt iterationCount;
  Ret [(B "iterationCount", VNumberInt iterationCount); (B "salt", VString (base64_encode userSalt 16));
       (B "storedKey", VString (base64_encode storedKey hashSize)); (B "serverKey", VString (base64_encode serverKey hashSize))].
Definition generateClientProof (saltedPassword authMessage : bytes) : M bytes :=
  clientKey ← hmacSha1 18689 saltedPassword clientKeyConst;
  storedKey ← sha1 18701 clientKey;
  clientSignature ← hmacSha1 18702 storedKey authMessage;
  Ret (base64_encode (xor_bytes clientKey clientSignature) hashSize).
Definition verifyServerSignature (saltedPassword authMessage receivedServerSignature : bytes) : M bool :=
  serverKey ← hmacSha1 18703 saltedPassword serverKeyConst;
  serverSignature ← hmacSha1 18704 serverKey authMessage;
  Ret (bool_decide (receivedServerSignature = base64_encode serverSignature hashSize)).

(** ** client/sasl_client_session.cpp *)

Inductive Parameter_id := parameterServiceName | parameterServiceHostname | parameterMechanism | parameterUser | parameterPassword.
Global Instance Parameter_eq_dec : EqDecision Parameter_id.
Proof. solve_decision. Defined.
Definition Parameters : Type := Parameter_id -> option bytes.
Definition no_parameters : Parameters := fun _ => None.
Definition setParameter (id : Parameter_id) (value : bytes) (p : Parameters) : Parameters :=
  fun i => if decide (i = id) then Some value else p i.
Definition hasParameter (p : Parameters) (id : Parameter_id) : bool := match p id with Some _ => true | None => false end.
Definition getParameter (p : Parameters) (id : Parameter_id) : bytes := default [] (p id).

(** ** The conversations: a step gives the new state, the output, and whether the
    conversation is over *)

Definition PLAIN_step (p : Parameters) : bytes :=
  getParameter p parameterUser ++ [nul] ++ getParameter p parameterUser ++ [nul] ++ getParameter p parameterPassword.

Record ScramConversation := mkScram { sc_step : Z; sc_authMessage : bytes; sc_saltedPassword : bytes; sc_clientNonce : bytes }.
(** The salted password is not initialised. *)
Definition ScramConversation_ctor (garbage : bytes) : ScramConversation := mkScram 0 [] garbage [].
Definition sc_add (m : bytes) (c : ScramConversation) : ScramConversation :=
  mkScram (sc_step c) (sc_authMessage c ++ m) (sc_saltedPassword c) (sc_clientNonce c).
Definition replace_char (c : char) (by_ s : bytes) : bytes := flat_map (fun x => if ceq x c then by_ else [x]) s.
Definition encodeSCRAMUsername (user : bytes) : bytes := replace_char ","%char (B "=2C") (replace_char "="%char (B "=3D") user).
Definition StepResult : Type := ScramConversation * bytes * StatusWith bool.
Definition step_error (c : ScramConversation) (out : bytes) (code : ErrorCode) (reason : bytes) : M StepResult :=
  Ret (c, out, Throw (code, reason)).

Section Conversation.
Context (params : Parameters) (sr : Z * Z * Z).
(** The member [_clientNonce] is not assigned. *)
Definition _firstStep (c : ScramConversation) : M StepResult :=
  let '(r0, r1, r2) := sr in
  let binaryNonce := le_bytes 8 r0 ++ le_bytes 8 r1 ++ le_bytes 8 r2 in
  let user := encodeSCRAMUsername (getParameter params parameterUser) in
  let clientNonce := base64_encode binaryNonce 24 in
  let auth := B "n=" ++ user ++ B ",r=" ++ clientNonce ++ B "," in
  Ret (mkScram (sc_step c) auth (sc_saltedPassword c) (sc_clientNonce c), B "n,,n=" ++ user ++ B ",r=" ++ clientNonce, Ret false).
(** The status of an exception of [base64::decode]. *)
Definition toStatus (e : exn) : ErrorCode * bytes :=
  match e with EUassert code | EMassert code => (OtherCode code, B "invalid base64") | _ => (UnknownError, []) end.
Definition _secondStep (c : ScramConversation) (input : list bytes) (out : bytes) : M StepResult :=
  match input with
  | [i0; i1; i2] =>
      if negb (str_startsWith i0 (B "r=")) || (zlen i0 <? 2) then
        step_error c out BadValue (B "Incorrect SCRAM-SHA-1 client|server nonce: " ++ i0)
      else if negb (str_startsWith i1 (B "s=")) || (zlen i1 <? 6) then
        step_error c out BadValue (B "Incorrect SCRAM-SHA-1 salt: " ++ i1)
      else if negb (str_startsWith i2 (B "i=")) || (zlen i2 <? 3) then
        step_error c out BadValue (B "Incorrect SCRAM-SHA-1 iteration count: " ++ i2)
      else
        let nonce := drop 2 i0 in
        if negb (str_startsWith nonce (sc_clientNonce c)) then
          step_error c out BadValue (B "Server SCRAM-SHA-1 nonce does not match client nonce" ++ i2)
        else
          match parseNumberFromStringWithBase int32 (drop 2 i2) 10 with
          | Throw _ => step_error c out BadValue (B "Failed to parse SCRAM-SHA-1 iteration count: " ++ i2)
          | Ret iterationCount =>
              let c := sc_add (B "c=biws,r=" ++ nonce) c in
              match base64_decode (drop 2 i1) with
              | Throw e => let '(code, reason) := toStatus e in step_error c out code reason
              | Ret decodedSalt =>
                  salted ← generateSaltedPassword (getParameter params parameterPassword) decodedSalt iterationCount;
                  clientProof ← generateClientProof salted (sc_authMessage c);
                  Ret (mkScram (sc_step c) (sc_authMessage c) salted (sc_clientNonce c),
                       B "c=biws,r=" ++ nonce ++ B ",p=" ++ clientProof, Ret false)
              end
          end
  | _ => step_error c out BadValue (B "Incorrect number of arguments for first SCRAM-SHA-1 server message, got "
           ++ print_int (zlen input) ++ B " expected 3")
  end.
Definition _thirdStep (c : ScramConversation) (input : list bytes) (out : bytes) : M StepResult :=
  match input with
  | [i0] =>
      if zlen i0 <? 3 then step_error c out BadValue (B "Incorrect SCRAM-SHA-1 server message length: " ++ i0)
      else if str_startsWith i0 (B "e=") then
        step_error c out AuthenticationFailed (B "SCRAM-SHA-1 authentication failure: " ++ drop 2 i0)
      else if negb (str_startsWith i0 (B "v=")) then step_error c out BadValue (B "Incorrect SCRAM-SHA-1 ServerSignature: " ++ i0)
      else
        valid ← verifyServerSignature (sc_saltedPassword c) (sc_authMessage c) (drop 2 i0);
        if negb valid then
          step_error c (B "e=Invalid server signature") BadValue
            (B "Client failed to verify SCRAM-SHA-1 ServerSignature, received " ++ drop 2 i0)
        else Ret (c, [], Ret true)
  | _ => step_error c out BadValue (B "Incorrect number of arguments for final SCRAM-SHA-1 server message, got "
           ++ print_int (zlen input) ++ B " expected 1")
  end.
Definition scram_step (c : ScramConversation) (inputData out : bytes) : M StepResult :=
  let input := StringSplitter_split inputData (B ",") in
  let c := mkScram (sc_step c + 1) (sc_authMessage c) (sc_saltedPassword c) (sc_clientNonce c) in
  if sc_step c =? 1 then _firstStep c
  else if sc_step c =? 2 then _secondStep (sc_add (inputData ++ B ",") c) input out
  else if sc_step c =? 3 then _thirdStep c input out
  else step_error c out AuthenticationFailed (B "Invalid SCRAM-SHA-1 authentication step: " ++ print_int (sc_step c)).
End Conversation.

(** ** client/native_sasl_client_session.cpp *)

Inductive Conversation := PLAIN | SCRAM (c : ScramConversation).
Record Session := mkSession { s_parameters : Parameters; s_done : bool; s_conversation : option Conversation }.
Definition NativeSaslClientSession_ctor : Session := mkSession no_parameters false None.
Definition session_set (id : Parameter_id) (value : bytes) (s : Session) : Session :=
  mkSession (setParameter id value (s_parameters s)) (s_done s) (s_conversation s).
Definition session_initialize (garbage : bytes) (s : Session) : Session * Status :=
  match s_conversation s with
  | Some _ => (s, Err AlreadyInitialized (B "Cannot reinitialize NativeSaslClientSession."))
  | None =>
      let mechanism := getParameter (s_parameters s) parameterMechanism in
      let with_ c := (mkSession (s_parameters s) (s_done s) (Some c), OK) in
      if bool_decide (mechanism = B "PLAIN") then with_ PLAIN
      else if bool_decide (mechanism = B "SCRAM-SHA-1") then with_ (SCRAM (ScramConversation_ctor garbage))
      else (s, Err BadValue (B "SASL mechanism " ++ mechanism ++ B " is not supported"))
  end.
Definition session_step (sr : Z * Z * Z) (s : Session) (inputData out : bytes) : M (Session * bytes * Status) :=
  match s_conversation s with
  | None => Ret (s, out, Err BadValue (B "The client authentication session has not been properly initialized"))
  | Some PLAIN => Ret (mkSession (s_parameters s) true (Some PLAIN), PLAIN_step (s_parameters s), OK)
  | Some (SCRAM c) =>
      '(c, out, status) ← scram_step (s_parameters s) sr c inputData out;
      match status with
      | Ret done => Ret (mkSession (s_parameters s) done (Some (SCRAM c)), out, OK)
      | Throw (code, reason) => Ret (mkSession (s_parameters s) (s_done s) (Some (SCRAM c)), out, Err code reason)
      end
  end.
End Scram.

(** ** client/sasl_client_authenticate.cpp *)

(** The status, the payload and the type; the text of a value of another type is left
    out of the message. *)
Definition saslExtractPayload (cmdObj : BSONObj) (payload : bytes) (type : BSONType) : Status * bytes * BSONType :=
  let '(status, e) := bsonExtractField cmdObj (B "payload") eooElement in
  if negb (isOK status) then (status, payload, type)
  else
    let type := element_type e in
    match e.2 with
    | VBinData _ data => (OK, data, type)
    | VString s => match base64_decode s with Ret d => (OK, d, type) | Throw e => (Err FailedToParse (toStatus e).2, payload, type) end
    | _ => (Err TypeMismatch (B "Wrong type for field; expected BinData or String for "), payload, type)
    end.
(** [ErrorCodes::fromInt]: the value of the enumeration with this number. *)
Definition named_codes : list ErrorCode :=
  [BadValue; FailedToParse; InvalidBSON; DuplicateKey; GraphContainsCycle; DollarPrefixedFieldName; DottedFieldName; InvalidIdField;
   InternalError; AlreadyInitialized; ExceededTimeLimit; NoSuchKey; TypeMismatch; UnknownError; InvalidLength; ProtocolError; AuthenticationFailed].
Definition ErrorCode_fromInt (code : Z) : ErrorCode :=
  default (OtherCode code) (head (filter (fun c => status_code c = code) named_codes)).

(** ** client/sasl_client_authenticate_impl.cpp *)

Section Driver.
Context {C : Type} `{DBOps C} `{Crypto}.
(** The bytes of uninitialised buffers, the numbers of the random device, the address of
    the client's server. *)
Context (stack garbage : bytes) (sr : Z * Z * Z) (serverAddress : bytes).

Definition extractPassword (saslParameters : BSONObj) (digestPassword : bool) (outPassword : bytes) : M (Status * bytes) :=
  let '(status, rawPassword) := bsonExtractStringField saslParameters (B "pwd") [] in
  if negb (isOK status) then Ret (status, outPassword)
  else if digestPassword then
    let '(status, user) := bsonExtractStringField saslParameters (B "user") [] in
    if negb (isOK status) then Ret (status, outPassword)
    else d ← createPasswordDigest stack user rawPassword; Ret (OK, d)
  else Ret (OK, rawPassword).
Definition is_external (targetDatabase mechanism : bytes) (m : bytes) : bool :=
  bool_decide (targetDatabase = B "$external") && bool_decide (mechanism = m).
Definition configureSession (session : Session) (targetDatabase : bytes) (saslParameters : BSONObj) : M (Session * Status) :=
  let '(status, mechanism) := bsonExtractStringField saslParameters (B "mechanism") [] in
  if negb (isOK status) then Ret (session, status) else
  let session := session_set parameterMechanism mechanism session in
  let '(status, value) := bsonExtractStringFieldWithDefault saslParameters (B "serviceName") (B "mongodb") [] in
  if negb (isOK status) then Ret (session, status) else
  let session := session_set parameterServiceName value session in
  h ← HostAndPort_ctor serverAddress;
  let '(status, value) := bsonExtractStringFieldWithDefault saslParameters (B "serviceHostname") (_host h) value in
  if negb (isOK status) then Ret (session, status) else
  let session := session_set parameterServiceHostname value session in
  let '(status, value) := bsonExtractStringField saslParameters (B "user") value in
  if negb (isOK status) then Ret (session, status) else
  let session := session_set parameterUser value session in
  let digestPasswordDefault := negb (is_external targetDatabase mechanism (B "PLAIN")) && negb (is_external targetDatabase mechanism (B "GSSAPI")) in
  let '(status, digestPassword) := bsonExtractBooleanFieldWithDefault saslParameters (B "digestPassword") digestPasswordDefault false in
  if negb (isOK status) then Ret (session, status) else
  '(status, value) ← extractPassword saslParameters digestPassword value;
  if isOK status then Ret (session_initialize garbage (session_set parameterPassword value session))
  else if negb (is_NoSuchKey status) then Ret (session, status)
  else Ret (session_initialize garbage session).

(** One turn of the loop: the status it returns with, or the session, the reply and
    whether the server is done. *)
Definition sasl_turn (targetDatabase : bytes) (session : Session) (saslCommandPrefix inputObj : BSONObj)
    : SE C (Status + Session * BSONObj * bool) :=
  let '(status, payload, _) := saslExtractPayload inputObj [] EOO in
  if negb (isOK status) then mret (inl status)
  else
    '(session, responsePayload, status) ← lift (session_step sr session payload []);
    if negb (isOK status) then mret (inl status)
    else
      let conversationId := getField inputObj (B "conversationId") in
      '(ok, inputObj) ← run_command targetDatabase (saslCommandPrefix ++ [(B "payload", VBinData (chr 0) responsePayload)]
          ++ (if eoo conversationId then [] else [conversationId])) 0;
      n ← lift (numberInt_of (getField inputObj (B "code")));
      if negb ok || negb (n =? 0) then
        mret (inl (Err (if n =? 0 then UnknownError else ErrorCode_fromInt n) (str (getField inputObj (B "errmsg")))))
      else mret (inr (session, inputObj, trueValue (getField inputObj (B "done")))).
(** [None] is a loop that has not ended after [fuel] turns. *)
Fixpoint sasl_loop (fuel : nat) (targetDatabase : bytes) (session : Session) (prefix_ inputObj : BSONObj) (isServerDone : bool)
    : SE C (option Status) :=
  if s_done session then
    mret (Some (if negb isServerDone then Err ProtocolError (B "Client finished before server.") else OK))
  else
    match fuel with
    | O => mret None
    | S fuel =>
        x ← sasl_turn targetDatabase session prefix_ inputObj;
        match x with
        | inl status => mret (Some status)
        | inr (session, inputObj, isServerDone) =>
            sasl_loop fuel targetDatabase session [(B "saslContinue", VNumberInt 1)] inputObj isServerDone
        end
    end.
Definition saslClientAuthenticateImpl (fuel : nat) (saslParameters : BSONObj) : SE C (option Status) :=
  let '(status, targetDatabase) := bsonExtractStringFieldWithDefault saslParameters (B "db") (B "$external") [] in
  if negb (isOK status) then mret (Some status) else
  let '(status, mechanism) := bsonExtractStringField saslParameters (B "mechanism") [] in
  if negb (isOK status) then mret (Some status) else
  '(session, status) ← lift (configureSession NativeSaslClientSession_ctor targetDatabase saslParameters);
  if negb (isOK status) then mret (Some status) else
  sasl_loop fuel targetDatabase session
    [(B "saslStart", VNumberInt 1); (B "mechanism", VString (getParameter (s_parameters session) parameterMechanism))]
    [(B "payload", VString [])] false.
End Driver.

(** ** The server of RFC 5802 *)

Section Rfc.
Context `{Crypto}.
Record Rfc_server := mkRfc { sv_storedKey : bytes; sv_serverKey : bytes; sv_salt : bytes; sv_count : Z; sv_nonce : bytes }.
(** client-first-message-bare, the nonce of both, and server-first-message. *)
Definition rfc_first (sv : Rfc_server) (m : bytes) : option (bytes * bytes * bytes) :=
  if has_prefix m (B "n,,") then
    let bare := drop 3 m in
    p ← strstr bare (B ",r=");
    let nonce := drop 3 p ++ sv_nonce sv in
    Some (bare, nonce, B "r=" ++ nonce ++ B ",s=" ++ base64_text (sv_salt sv) ++ B ",i=" ++ print_int (sv_count sv))
  else None.
Definition rfc_auth_message (bare first nonce : bytes) : bytes := bare ++ B "," ++ first ++ B "," ++ B "c=biws,r=" ++ nonce.
(** server-final-message, when the nonce is the right one and the hash of the client's
    key is the stored one. *)
Definition rfc_final (sv : Rfc_server) (bare nonce first m : bytes) : option bytes :=
  p ← strstr m (B ",p=");
  if decide (up_to m p = B "c=biws,r=" ++ nonce) then
    let auth := rfc_auth_message bare first nonce in
    match base64_decode (drop 3 p) with
    | Throw _ => None
    | Ret proof =>
        sig ← HMAC_SHA1 (sv_storedKey sv) auth;
        h ← SHA1 (xor_bytes proof sig);
        if decide (h = sv_storedKey sv) then s ← HMAC_SHA1 (sv_serverKey sv) auth; Some (B "v=" ++ base64_text s) else None
    end
  else None.

(** ** Lemmas on the texts *)

Lemma hash_encode h n : zlen h = n -> base64_encode h n = base64_text h.
Proof. intros <-. unfold base64_encode, base64_text. by rewrite take_ge by (unfold zlen; lia). Qed.
Lemma not_in_text c s : c ∉ base64_chars -> c ∉ base64_text s.
Proof. intros Hc Hin. pose proof (base64_text_chars s) as Hf. rewrite Forall_forall in Hf. by apply Hc, Hf. Qed.
Lemma not_in_print c z : isdigit c = false -> 0 <= z -> c ∉ print_int z.
Proof.
  intros Hc Hz Hin. unfold print_int in Hin. replace (z <? 0) with false in Hin by lia.
  destruct (print_nonneg_value z Hz) as (_ & Hd & _). apply Hd in Hin. congruence.
Qed.
Lemma no_comma_user u : ","%char ∉ encodeSCRAMUsername u.
Proof.
  unfold encodeSCRAMUsername. generalize (replace_char "="%char (B "=3D") u). intros s. unfold replace_char.
  intros Hin. apply list_elem_of_In, in_flat_map in Hin as (x & _ & Hin). revert Hin. unfold ceq. case_bool_decide as E; cbn.
  - intros [F|[F|[F|[]]]]; discriminate F.
  - intros [F|[]]. congruence.
Qed.
Lemma has_prefix_cons x s y t : has_prefix (x :: s) (y :: t) = ceq x y && has_prefix s t.
Proof.
  unfold has_prefix, ceq. rewrite <-bool_decide_and. apply bool_decide_ext. split.
  - intros Hp. split; [symmetry; by eapply prefix_cons_inv_1|by eapply prefix_cons_inv_2].
  - intros [-> Hp]. by apply prefix_cons.
Qed.
Lemma strstr_cons x s t : strstr (x :: s) t = if has_prefix (x :: s) t then Some (x :: s) else strstr s t.
Proof. reflexivity. Qed.
(** The text is found where its first character is first. *)
Lemma strstr_first c t s r : c ∉ s -> strstr (s ++ c :: t ++ r) (c :: t) = Some (c :: t ++ r).
Proof.
  induction s as [|x s IH]; intros Hs; cbn [app]; rewrite strstr_cons.
  - unfold has_prefix. by rewrite bool_decide_eq_true_2 by (by eexists).
  - apply not_elem_of_cons in Hs as [Hx Hs]. rewrite has_prefix_cons. unfold ceq. rewrite bool_decide_eq_false_2 by congruence. by apply IH.
Qed.
Lemma up_to_app s r : up_to (s ++ r) r = s.
Proof. unfold up_to. rewrite length_app. replace (length s + length r - length r)%nat with (length s) by lia. apply take_app_length. Qed.
Lemma xor_char_back a b : xor_char (xor_char a b) b = a.
Proof.
  unfold xor_char. assert (0 <= Z.lxor (uchar a) (uchar b) < 256) as Hr.
  { pose proof (uchar_range a). pose proof (uchar_range b). split; [apply Z.lxor_nonneg; lia|].
    destruct (decide (Z.lxor (uchar a) (uchar b) = 0)) as [->|]; [lia|].
    apply Z.log2_lt_cancel. change (Z.log2 256) with 8. eapply Z.le_lt_trans; [apply Z.log2_lxor; lia|].
    assert (forall x, 0 <= x < 256 -> Z.log2 x < 8) as Hl by (intros x Hx; destruct (decide (x = 0)) as [->|]; [done|apply Z.log2_lt_pow2; lia]).
    pose proof (Hl _ (uchar_range a)). pose proof (Hl _ (uchar_range b)). lia. }
  rewrite uchar_chr_small by done. rewrite Z.lxor_assoc, Z.lxor_nilpotent, Z.lxor_0_r. apply chr_uchar.
Qed.
Lemma xor_bytes_back a b : length a = length b -> xor_bytes (xor_bytes a b) b = a.
Proof.
  revert b. induction a as [|x a IH]; intros [|y b] Hl; try done. unfold xor_bytes in *. cbn. rewrite xor_char_back. f_equal. apply IH. by injection Hl.
Qed.
Lemma zlen_xor a b : zlen a = zlen b -> zlen (xor_bytes a b) = zlen a.
Proof. intros Hl. unfold zlen, xor_bytes in *. rewrite length_zip_with. lia. Qed.

Lemma split_comma s : nul ∉ s -> s <> [] -> StringSplitter_split s (B ",") =
  match pieces ","%char s with p :: ps => p :: filter (fun p => nonempty p = true) ps | [] => [] end.
Proof.
  intros Hn Hs. apply (StringSplitter_split_one s ","%char); [done| |done]. unfold c_string. by apply memchr_None in Hn as ->.
Qed.
Lemma split_three a b c : ","%char ∉ a -> ","%char ∉ b -> ","%char ∉ c -> nul ∉ a -> nul ∉ b -> nul ∉ c -> a <> [] -> b <> [] -> c <> [] ->
  StringSplitter_split (a ++ B "," ++ b ++ B "," ++ c) (B ",") = [a; b; c].
Proof.
  intros Ca Cb Cc Na Nb Nc Ha Hb Hc. rewrite split_comma.
  - change (B ",") with [","%char]. cbn [app]. rewrite !pieces_sep, pieces_free by done. by destruct b, c.
  - change (B ",") with [","%char]. not_in.
  - by destruct a.
Qed.
Lemma split_single a : ","%char ∉ a -> nul ∉ a -> a <> [] -> StringSplitter_split a (B ",") = [a].
Proof. intros Ca Na Ha. rewrite split_comma by done. by rewrite pieces_free. Qed.
Lemma startsWith_app p s : nul ∉ p -> nul ∉ s -> str_startsWith (p ++ s) p = true.
Proof.
  intros Hp Hs. unfold str_startsWith, has_prefix, c_string.
  assert (nul ∉ p ++ s) as Hps by (apply not_elem_of_app; done). apply memchr_None in Hps as ->, Hp as ->.
  apply bool_decide_eq_true. by exists s.
Qed.
Lemma startsWith_nil s : str_startsWith s [] = true.
Proof. unfold str_startsWith, has_prefix. apply bool_decide_eq_true, prefix_nil. Qed.
End Rfc.

(** ** The client and the server agree *)

Section Agreement.
Context `{Crypto} (params : Parameters) (sr : Z * Z * Z) (garbage out : bytes) (sv : Rfc_server).
Definition crypto_works : Prop := (forall k d, HMAC_SHA1 k d <> None) /\ (forall d, SHA1 d <> None).
Definition client_nonce : bytes := base64_text (let '(r0, r1, r2) := sr in le_bytes 8 r0 ++ le_bytes 8 r1 ++ le_bytes 8 r2).
Definition client_bare : bytes := B "n=" ++ encodeSCRAMUsername (getParameter params parameterUser) ++ B ",r=" ++ client_nonce.
Definition full_nonce : bytes := client_nonce ++ sv_nonce sv.
Definition server_first : bytes := B "r=" ++ full_nonce ++ B "," ++ (B "s=" ++ base64_text (sv_salt sv)) ++ B "," ++ B "i=" ++ print_int (sv_count sv).
Definition auth_text : bytes := rfc_auth_message client_bare server_first full_nonce.

Lemma first_message : scram_step params sr (ScramConversation_ctor garbage) [] out =
  Ret (mkScram 1 (client_bare ++ B ",") garbage [], B "n,," ++ client_bare, Ret false).
Proof.
  unfold client_bare, client_nonce, scram_step, _firstStep. destruct sr as [[r0 r1] r2]. cbn [sc_step ScramConversation_ctor].
  rewrite (hash_encode _ 24) by (unfold zlen; rewrite !length_app, !le_bytes_length; done).
  change (0 + 1 =? 1) with true. cbv iota. cbn [sc_saltedPassword sc_clientNonce sc_step]. by rewrite <-!app_assoc.
Qed.
Lemma rfc_first_message : rfc_first sv (B "n,," ++ client_bare) = Some (client_bare, full_nonce, server_first).
Proof.
  unfold rfc_first. unfold has_prefix at 1. rewrite bool_decide_eq_true_2 by (by eexists).
  change (drop 3 (B "n,," ++ client_bare)) with client_bare.
  assert (strstr client_bare (B ",r=") = Some (B ",r=" ++ client_nonce)) as ->.
  { unfold client_bare. rewrite app_assoc. change (B ",r=" ++ client_nonce) with (","%char :: B "r=" ++ client_nonce).
    apply strstr_first. pose proof (no_comma_user (getParameter params parameterUser)). not_in. }
  cbn [mbind option_bind]. change (drop 3 (B ",r=" ++ client_nonce)) with client_nonce.
  unfold server_first, full_nonce. by rewrite <-!app_assoc.
Qed.

(** The keys the server has are those of the password. *)
Context (salted clientKey : bytes).
Hypothesis Hcrypto : crypto_works.
Hypothesis Hsalt : zlen (sv_salt sv) = 16.
Hypothesis Hcount : 0 < sv_count sv <= int_max int32.
Hypothesis Hnonce : (","%char ∉ sv_nonce sv) /\ (nul ∉ sv_nonce sv).
Hypothesis Hsalted : generateSaltedPassword (getParameter params parameterPassword) (sv_salt sv) (sv_count sv) = Ret salted.
Hypothesis HclientKey : HMAC_SHA1 salted clientKeyConst = Some clientKey.
Hypothesis HstoredKey : SHA1 clientKey = Some (sv_storedKey sv).
Hypothesis HserverKey : HMAC_SHA1 salted serverKeyConst = Some (sv_serverKey sv).

Lemma nonce_clean : ","%char ∉ full_nonce /\ nul ∉ full_nonce.
Proof.
  unfold full_nonce, client_nonce. destruct Hnonce. split; apply not_elem_of_app; (split; [|done]); apply not_in_text; vm_compute; not_in.
Qed.
Lemma server_first_pieces : StringSplitter_split server_first (B ",") =
  [B "r=" ++ full_nonce; B "s=" ++ base64_text (sv_salt sv); B "i=" ++ print_int (sv_count sv)].
Proof.
  unfold server_first. rewrite app_assoc. destruct nonce_clean as [Hc Hn].
  assert (forall c, c ∉ base64_chars -> c ∉ base64_text (sv_salt sv)) as Ht by (intros; by apply not_in_text).
  assert (forall c, isdigit c = false -> c ∉ print_int (sv_count sv)) as Hp by (intros; apply not_in_print; [done|lia]).
  pose proof (Ht ","%char ltac:(vm_compute; not_in)). pose proof (Ht nul ltac:(vm_compute; not_in)).
  pose proof (Hp ","%char eq_refl). pose proof (Hp nul eq_refl).
  apply split_three; try (not_in; fail); done.
Qed.
Definition client_final (proof_ : bytes) : bytes := B "c=biws,r=" ++ full_nonce ++ B ",p=" ++ base64_text proof_.
Lemma second_message sig : HMAC_SHA1 (sv_storedKey sv) auth_text = Some sig ->
  scram_step params sr (mkScram 1 (client_bare ++ B ",") garbage []) server_first out =
  Ret (mkScram 2 auth_text salted [], client_final (xor_bytes clientKey sig), Ret false).
Proof.
  intros Hsig. unfold scram_step. cbn [sc_step]. change (1 + 1 =? 1) with false. change (1 + 1 =? 2) with true. cbv iota.
  rewrite server_first_pieces. unfold _secondStep. destruct nonce_clean as [_ Hn].
  assert (nul ∉ base64_text (sv_salt sv)) as Hs by (apply not_in_text; vm_compute; not_in).
  assert (nul ∉ print_int (sv_count sv)) as Hp by (apply not_in_print; [done|lia]).
  rewrite !startsWith_app, startsWith_nil by (done || (vm_compute; not_in)). cbn [negb orb].
  assert (zlen (base64_text (sv_salt sv)) = 24) as Hl by (by rewrite base64_text_length, Hsalt).
  assert (0 < zlen (print_int (sv_count sv))) as Hlp.
  { unfold print_int. replace (sv_count sv <? 0) with false by lia. destruct (print_nonneg_value (sv_count sv) ltac:(lia)) as (Hne & _).
    destruct (print_nonneg (sv_count sv)); [done|]. rewrite zlen_cons. pose proof (zlen_nonneg l). lia. }
  pose proof (zlen_nonneg full_nonce).
  rewrite !(zlen_app (B _)). change (zlen (B "r=")) with 2. change (zlen (B "s=")) with 2. change (zlen (B "i=")) with 2.
  replace (2 + zlen full_nonce <? 2) with false by lia. replace (2 + zlen (base64_text (sv_salt sv)) <? 6) with false by lia.
  replace (2 + zlen (print_int (sv_count sv)) <? 3) with false by lia. cbn [orb].
  change (drop 2 (B "r=" ++ full_nonce)) with full_nonce. change (drop 2 (B "s=" ++ base64_text (sv_salt sv))) with (base64_text (sv_salt sv)).
  change (drop 2 (B "i=" ++ print_int (sv_count sv))) with (print_int (sv_count sv)). cbn [sc_clientNonce sc_add]. rewrite ?startsWith_nil. cbn [negb].
  rewrite (parse_print_aux int32); [|unfold supported; set_solver|unfold in_range; change (int_min int32) with (- 2 ^ 31); lia].
  rewrite base64_decode_of_text by lia. rewrite Hsalted, ret_bind. unfold sc_add. cbn [sc_authMessage sc_step sc_clientNonce].
  assert ((client_bare ++ B ",") ++ server_first ++ B "," = client_bare ++ B "," ++ server_first ++ B ",") as Ha by (by rewrite <-!app_assoc).
  assert (((client_bare ++ B ",") ++ server_first ++ B ",") ++ B "c=biws,r=" ++ full_nonce = auth_text) as ->.
  { unfold auth_text, rfc_auth_message. by rewrite <-!app_assoc. }
  unfold generateClientProof, hmacSha1, sha1. rewrite HclientKey, ret_bind, HstoredKey, ret_bind, Hsig, !ret_bind.
  rewrite (hash_encode _ hashSize); [done|]. rewrite zlen_xor; [by eapply HMAC_length|].
  transitivity hashSize; [by eapply HMAC_length|symmetry; by eapply HMAC_length].
Qed.
Lemma rfc_final_message sig s : HMAC_SHA1 (sv_storedKey sv) auth_text = Some sig -> HMAC_SHA1 (sv_serverKey sv) auth_text = Some s ->
  rfc_final sv client_bare full_nonce server_first (client_final (xor_bytes clientKey sig)) = Some (B "v=" ++ base64_text s).
Proof.
  intros Hsig Hs. unfold rfc_final, client_final. destruct nonce_clean as [Hc _].
  assert (strstr (B "c=biws,r=" ++ full_nonce ++ B ",p=" ++ base64_text (xor_bytes clientKey sig)) (B ",p=") =
    Some (B ",p=" ++ base64_text (xor_bytes clientKey sig))) as ->.
  { change (B "c=biws,r=" ++ ?x) with (B "c=biws" ++ ","%char :: B "r=" ++ x).
    cbn [B app String.list_ascii_of_string].
    do 7 (rewrite strstr_cons, !has_prefix_cons; cbn [ceq bool_decide andb]; try (vm_compute (ceq _ _); cbn [andb])).
    do 2 (rewrite strstr_cons, !has_prefix_cons; vm_compute (ceq _ _); cbn [andb]).
    by apply (strstr_first ","%char (B "p=")). }
  cbn [mbind option_bind]. rewrite app_assoc, up_to_app, decide_True by done.
  fold auth_text. change (drop 3 (B ",p=" ++ ?x)) with x. rewrite base64_decode_of_text.
  - rewrite Hsig. cbn [mbind option_bind]. rewrite xor_bytes_back.
    + rewrite HstoredKey. cbn [mbind option_bind]. rewrite decide_True by done. by rewrite Hs.
    + apply Nat2Z.inj. change (zlen clientKey = zlen sig). transitivity hashSize; [by eapply HMAC_length|symmetry; by eapply HMAC_length].
  - rewrite zlen_xor; [erewrite HMAC_length by done; by vm_compute|].
    transitivity hashSize; [by eapply HMAC_length|symmetry; by eapply HMAC_length].
Qed.
Lemma third_message s : HMAC_SHA1 (sv_serverKey sv) auth_text = Some s ->
  scram_step params sr (mkScram 2 auth_text salted []) (B "v=" ++ base64_text s) out = Ret (mkScram 3 auth_text salted [], [], Ret true).
Proof.
  intros Hs. unfold scram_step. cbn [sc_step]. change (2 + 1 =? 1) with false. change (2 + 1 =? 2) with false. change (2 + 1 =? 3) with true. cbv iota.
  assert (forall c, c ∉ base64_chars -> c ∉ base64_text s) as Ht by (intros; by apply not_in_text).
  pose proof (Ht ","%char ltac:(vm_compute; not_in)). pose proof (Ht nul ltac:(vm_compute; not_in)).
  rewrite split_single by (done || not_in). unfold _thirdStep. rewrite zlen_app. change (zlen (B "v=")) with 2.
  assert (zlen (base64_text s) = 28) as -> by (rewrite base64_text_length; erewrite HMAC_length by done; done). change (2 + 28 <? 3) with false. cbv iota.
  assert (str_startsWith (B "v=" ++ base64_text s) (B "e=") = false) as ->.
  { unfold str_startsWith. unfold c_string at 1. assert (nul ∉ B "v=" ++ base64_text s) as Hn by not_in. apply memchr_None in Hn as ->.
    change (c_string (B "e=")) with (B "e="). by vm_compute (has_prefix _ _). }
  rewrite startsWith_app by (done || (vm_compute; not_in)). cbn [negb]. change (drop 2 (B "v=" ++ base64_text s)) with (base64_text s).
  unfold verifyServerSignature, hmacSha1. cbn [sc_saltedPassword sc_authMessage]. rewrite HserverKey, ret_bind, Hs, ret_bind.
  rewrite (hash_encode _ hashSize) by (by eapply HMAC_length). rewrite bool_decide_eq_true_2 by done. done.
Qed.
End Agreement.

(** ** What the driver's success means *)

Lemma extract_secrets `{Crypto} pw salt n k s : generateSecrets pw salt n = Ret (k, s) ->
  exists salted ck, generateSaltedPassword pw salt n = Ret salted /\ HMAC_SHA1 salted clientKeyConst = Some ck /\
    SHA1 ck = Some k /\ HMAC_SHA1 salted serverKeyConst = Some s.
Proof.
  unfold generateSecrets, hmacSha1, sha1. intros Hs. apply bind_Ret in Hs as (salted & Hp & Hs). exists salted.
  destruct (HMAC_SHA1 salted clientKeyConst) as [ck|] eqn:E1; [|done]. rewrite ret_bind in Hs. exists ck.
  destruct (SHA1 ck) as [k'|] eqn:E2; [|done]. rewrite ret_bind in Hs.
  destruct (HMAC_SHA1 salted serverKeyConst) as [s'|]; [|done]. rewrite ret_bind in Hs. by injection Hs as -> ->.
Qed.
Lemma startsWith_inv s p : nul ∉ p -> str_startsWith s p = true -> s = p ++ drop (length p) s.
Proof.
  intros Hp Hs. unfold str_startsWith, has_prefix in Hs. apply bool_decide_eq_true in Hs.
  assert (c_string p = p) as E by (unfold c_string; by apply memchr_None in Hp as ->). rewrite E in Hs.
  assert (c_string s `prefix_of` s) as Hc by (unfold c_string; destruct (memchr s nul); [apply prefix_take|done]).
  assert (p `prefix_of` s) as [r ->] by (by etrans). by rewrite drop_app_length.
Qed.

Section Sound.
Context {C : Type} `{DBOps C} `{Crypto} (sr : Z * Z * Z) (db : bytes) (params : Parameters).
(** A reply of the server, to a command of whatever kind, and a payload in one. *)
Definition said (reply : BSONObj) : Prop := exists cmd (s s' : C), run_command db cmd 0 s = (s', Ret (true, reply)).
Definition payload_of (reply : BSONObj) (p : bytes) : Prop := exists type, saslExtractPayload reply [] EOO = (OK, p, type).
Definition answered (p : bytes) : Prop := exists reply, said reply /\ payload_of reply p.
Definition bare : bytes := client_bare params sr.
(** The salted password from the server's first message, and the text both sign. *)
Definition salted_by (p1 salted auth : bytes) : Prop :=
  exists nonce salt64 salt count n,
    StringSplitter_split p1 (B ",") = [B "r=" ++ nonce; B "s=" ++ salt64; B "i=" ++ count] /\
    base64_decode salt64 = Ret salt /\ parseNumberFromStringWithBase int32 count 10 = Ret n /\
    generateSaltedPassword (getParameter params parameterPassword) salt n = Ret salted /\
    auth = rfc_auth_message bare p1 nonce.
(** The server has shown that it has the key: it has signed the text. *)
Definition server_proved : Prop :=
  exists p1 p2 salted auth serverKey sig, answered p1 /\ answered p2 /\ salted_by p1 salted auth /\
    HMAC_SHA1 salted serverKeyConst = Some serverKey /\ HMAC_SHA1 serverKey auth = Some sig /\
    StringSplitter_split p2 (B ",") = [B "v=" ++ base64_text sig].
(** What holds before a turn, by the steps that have been made. *)
Definition scram_ready (c : ScramConversation) (i : BSONObj) : Prop :=
  sc_step c = 0 \/
  said i /\ (sc_step c = 1 /\ sc_authMessage c = bare ++ B "," \/
             sc_step c = 2 /\ exists p1, answered p1 /\ salted_by p1 (sc_saltedPassword c) (sc_authMessage c)).
Definition scram_turns (c : ScramConversation) : nat := Z.to_nat (4 - sc_step c).

Lemma first_step_ok c p out c' out' d : sc_step c = 0 -> scram_step params sr c p out = Ret (c', out', Ret d) ->
  d = false /\ sc_step c' = 1 /\ sc_authMessage c' = bare ++ B ",".
Proof.
  intros Hc. unfold scram_step. cbn [sc_step]. rewrite Hc. change (0 + 1 =? 1) with true. cbv iota. unfold _firstStep.
  unfold bare, client_bare, client_nonce. destruct sr as [[r0 r1] r2].
  rewrite (hash_encode _ 24) by (unfold zlen; rewrite !length_app, !le_bytes_length; done).
  intros E. injection E as <- _ <-. cbn [sc_step sc_authMessage]. split_and!; [done|done|]. by rewrite <-!app_assoc.
Qed.
Lemma second_step_ok c p out c' out' d : sc_step c = 1 -> sc_authMessage c = bare ++ B "," -> scram_step params sr c p out = Ret (c', out', Ret d) ->
  d = false /\ sc_step c' = 2 /\ salted_by p (sc_saltedPassword c') (sc_authMessage c').
Proof.
  intros Hc Ha. unfold scram_step. cbn [sc_step]. rewrite Hc. change (1 + 1 =? 1) with false. change (1 + 1 =? 2) with true. cbv iota.
  unfold _secondStep, step_error. destruct (StringSplitter_split p (B ",")) as [|i0 [|i1 [|i2 [|]]]] eqn:Ep; try discriminate.
  destruct (negb (str_startsWith i0 _) || _) eqn:E0; [discriminate|]. destruct (negb (str_startsWith i1 _) || _) eqn:E1; [discriminate|].
  destruct (negb (str_startsWith i2 _) || _) eqn:E2; [discriminate|]. destruct (negb (str_startsWith _ (sc_clientNonce _))); [discriminate|].
  destruct (parseNumberFromStringWithBase int32 (drop 2 i2) 10) as [n|] eqn:En; [|discriminate].
  destruct (base64_decode (drop 2 i1)) as [salt|e] eqn:Es; [|by destruct (toStatus e)].
  intros E. apply bind_Ret in E as (salted & Hs & E). apply bind_Ret in E as (prf & Hp & E). injection E as <- _ <-.
  apply orb_false_elim in E0 as [E0 _], E1 as [E1 _], E2 as [E2 _]. apply negb_false_iff in E0, E1, E2.
  apply startsWith_inv in E0; [|vm_compute; not_in]. apply startsWith_inv in E1; [|vm_compute; not_in].
  apply startsWith_inv in E2; [|vm_compute; not_in]. cbn [sc_step sc_add sc_saltedPassword sc_authMessage].
  split; [reflexivity|]. split; [reflexivity|]. exists (drop 2 i0), (drop 2 i1), salt, (drop 2 i2), n.
  split; [|split; [exact Es|split; [exact En|split; [exact Hs|]]]].
  - change (length (B "r=")) with 2%nat in E0. change (length (B "s=")) with 2%nat in E1. change (length (B "i=")) with 2%nat in E2.
    by rewrite <-E0, <-E1, <-E2.
  - rewrite Ha. unfold rfc_auth_message. by rewrite <-!app_assoc.
Qed.
Lemma third_step_ok c p out c' out' d : sc_step c = 2 -> scram_step params sr c p out = Ret (c', out', Ret d) ->
  d = true /\ exists serverKey sig, HMAC_SHA1 (sc_saltedPassword c) serverKeyConst = Some serverKey /\
    HMAC_SHA1 serverKey (sc_authMessage c) = Some sig /\ StringSplitter_split p (B ",") = [B "v=" ++ base64_text sig].
Proof.
  intros Hc. unfold scram_step. cbn [sc_step]. rewrite Hc. change (2 + 1 =? 1) with false. change (2 + 1 =? 2) with false.
  change (2 + 1 =? 3) with true. cbv iota.
  unfold _thirdStep, step_error, verifyServerSignature, hmacSha1. cbn [sc_saltedPassword sc_authMessage].
  destruct (StringSplitter_split p (B ",")) as [|i0 [|]] eqn:Ep; try discriminate.
  destruct (zlen i0 <? 3); [discriminate|]. destruct (str_startsWith i0 (B "e=")); [discriminate|].
  destruct (negb (str_startsWith i0 (B "v="))) eqn:E0; [discriminate|]. apply negb_false_iff, startsWith_inv in E0; [|vm_compute; not_in].
  destruct (HMAC_SHA1 (sc_saltedPassword c) serverKeyConst) as [k|] eqn:Ek; [|discriminate]. rewrite ret_bind.
  destruct (HMAC_SHA1 k (sc_authMessage c)) as [sig|] eqn:Es; [|discriminate]. rewrite !ret_bind.
  case_bool_decide as E; [|discriminate]. cbn [negb]. intros F. injection F as _ _ <-. split; [done|]. exists k, sig. split_and!; [done|done|].
  rewrite E0. change (drop (length (B "v=")) i0) with (drop 2 i0). rewrite E, (hash_encode _ hashSize) by (by eapply HMAC_length). done.
Qed.
Lemma later_step c p out : 3 <= sc_step c -> exists c' out' e, scram_step params sr c p out = Ret (c', out', Throw e).
Proof.
  intros Hc. unfold scram_step. cbn [sc_step]. replace (sc_step c + 1 =? 1) with false by lia. replace (sc_step c + 1 =? 2) with false by lia.
  replace (sc_step c + 1 =? 3) with false by lia. unfold step_error. by eexists _, _, _.
Qed.

(** A turn ends the loop with an error, or the server has answered what it was sent. *)
Lemma turn_cases s prefix_ i (c : C) :
  (exists e, (sasl_turn sr db s prefix_ i c).2 = Throw e) \/
  (exists st, (sasl_turn sr db s prefix_ i c).2 = Ret (inl st) /\ st <> OK) \/
  exists p s' out reply c', payload_of i p /\ session_step sr s p [] = Ret (s', out, OK) /\ said reply /\
    sasl_turn sr db s prefix_ i c = (c', Ret (inr (s', reply, trueValue (getField reply (B "done"))))).
Proof.
  unfold sasl_turn. destruct (saslExtractPayload i [] EOO) as [[st p] type] eqn:Ei.
  destruct st as [|code reason]; cbn [isOK negb]; [|right; left; by eexists].
  destruct (session_step sr s p []) as [[[s' out] st]|e] eqn:Es; [|left; by eexists]. rewrite bind_lift_Ret.
  destruct st as [|code reason]; cbn [isOK negb]; [|right; left; by eexists].
  match goal with |- context [run_command db ?cmd 0] => destruct (run_command db cmd 0 c) as [c1 [[ok reply]|e]] eqn:Er end.
  2: { left. exists e. unfold mbind, SE_bind. by rewrite Er. }
  rewrite (bind_run _ _ _ _ _ Er). cbv beta iota. destruct (numberInt_of (getField reply (B "code"))) as [n|e]; [|left; by eexists].
  rewrite bind_lift_Ret. destruct ok; cbn [negb orb]; [|right; left; by eexists].
  destruct (n =? 0); cbn [negb]; [|right; left; by eexists].
  right; right. exists p, s', out, reply, c1. split_and!; [by exists type|done|by eexists _, _, _|done].
Qed.

Definition server_done : Prop := exists reply, said reply /\ trueValue (getField reply (B "done")) = true.
(** The session's conversation, with the turns it can still make. *)
Definition ready (s : Session) (i : BSONObj) (fuel : nat) : Prop :=
  s_parameters s = params /\
  match s_conversation s with
  | Some PLAIN => s_done s = true \/ (1 <= fuel)%nat
  | Some (SCRAM c) => s_done s = false /\ 0 <= sc_step c /\ (scram_turns c <= fuel)%nat /\ scram_ready c i \/ s_done s = true /\ server_proved
  | None => False
  end.
Definition accepted (s : Session) : Prop := s_conversation s = Some PLAIN \/ server_proved.
Lemma turn_ready s prefix_ i c fuel : ready s i (S fuel) -> s_done s = false ->
  (exists e, (sasl_turn sr db s prefix_ i c).2 = Throw e) \/
  (exists st, (sasl_turn sr db s prefix_ i c).2 = Ret (inl st) /\ st <> OK) \/
  exists s' reply c', said reply /\ ready s' reply fuel /\ (accepted s' -> accepted s) /\
    sasl_turn sr db s prefix_ i c = (c', Ret (inr (s', reply, trueValue (getField reply (B "done"))))).
Proof.
  intros [Hp Hr] Hd. destruct (turn_cases s prefix_ i c) as [?|[?|(p & s' & out & reply & c' & Hpay & Hs & Hsaid & Ht)]]; [by left|by right; left|].
  right; right. exists s', reply, c'. split; [done|]. enough (ready s' reply fuel /\ (accepted s' -> accepted s)) as [G1 G2] by done.
  unfold session_step in Hs. destruct (s_conversation s) as [[|sc]|] eqn:Ec; [| |done].
  { injection Hs as <- _. unfold ready, accepted. cbn. rewrite Ec. split; [|done]. split; [done|by left]. }
  destruct Hr as [(_ & Hpos & Hturns & Hready)|[Hd' _]]; [|congruence]. rewrite Hp in Hs.
  apply bind_Ret in Hs as ([[c1 out1] status] & Hstep & Hs). destruct status as [d|[code reason]]; [|discriminate Hs].
  injection Hs as <- _. unfold ready, accepted. cbn [s_parameters s_conversation s_done].
  assert (sc_step sc < 3) as Hlt.
  { apply Z.nle_gt. intros Hge. destruct (later_step sc p [] Hge) as (? & ? & ? & E). congruence. }
  unfold scram_turns in *. destruct Hready as [K0|[Hi [[K1 Ha]|(K2 & p1 & Hp1 & Hsb)]]].
  - destruct (first_step_ok _ _ _ _ _ _ K0 Hstep) as (-> & Hk & Hau). split; [|by intros [?|?]; [discriminate|right]]. split; [done|]. left.
    split_and!; [done|lia|lia|]. right. split; [done|]. by left.
  - destruct (second_step_ok _ _ _ _ _ _ K1 Ha Hstep) as (-> & Hk & Hsb). split; [|by intros [?|?]; [discriminate|right]]. split; [done|]. left.
    split_and!; [done|lia|lia|]. right. split; [done|]. right. split; [done|]. exists p. split; [|done]. by exists i.
  - destruct (third_step_ok _ _ _ _ _ _ K2 Hstep) as (-> & k & sig & Hk & Hsig & Hsplit). split; [|by intros [?|?]; [discriminate|right]].
    split; [done|]. right. split; [done|]. exists p1, p, (sc_saltedPassword sc), (sc_authMessage sc), k, sig. split_and!; try done. by exists i.
Qed.
Lemma loop_ready fuel : forall s prefix_ i (sd : bool) c, ready s i fuel -> (sd = true -> server_done) ->
  (sasl_loop sr fuel db s prefix_ i sd c).2 <> Ret None /\
  ((sasl_loop sr fuel db s prefix_ i sd c).2 = Ret (Some OK) -> accepted s /\ server_done).
Proof.
  assert (forall s i f sd, ready s i f -> s_done s = true -> (sd = true -> server_done) ->
    (mret (Some (if negb sd then Err ProtocolError (B "Client finished before server.") else OK)) : SE C (option Status)) =
    (mret (Some (if negb sd then Err ProtocolError (B "Client finished before server.") else OK))) /\ (sd = true -> accepted s /\ server_done)) as Hend.
  { intros s i f sd [_ Hr] Hd Hsd. split; [done|]. intros Ht. split; [|by apply Hsd]. unfold accepted.
    destruct (s_conversation s) as [[|sc]|]; [by left| |done]. destruct Hr as [(Hd' & _)|[_ ?]]; [congruence|by right]. }
  induction fuel as [|fuel IH]; intros s prefix_ i sd c Hr Hsd; cbn [sasl_loop]; destruct (s_done s) eqn:Hd.
  - destruct (Hend _ _ _ sd Hr Hd Hsd) as [_ He]. destruct sd; cbn; split; try done. by intros _; apply He.
  - exfalso. destruct Hr as [_ Hr]. destruct (s_conversation s) as [[|sc]|]; [|destruct Hr as [(_ & Hpos & Ht & Hready)|[Hd' _]]; [|congruence]|done].
    + destruct Hr; [congruence|lia].
    + unfold scram_turns in Ht. destruct Hready as [|[_ [[]|[]]]]; lia.
  - destruct (Hend _ _ _ sd Hr Hd Hsd) as [_ He]. destruct sd; cbn; split; try done. by intros _; apply He.
  - destruct (turn_ready s prefix_ i c fuel Hr Hd) as [(e & He)|[(st & He & Hst)|(s' & reply & c' & Hsaid & Hr' & Hacc & Ht)]].
    + destruct (sasl_turn sr db s prefix_ i c) as [c1 r] eqn:Et. cbn in He. subst r. unfold mbind, SE_bind. rewrite Et. done.
    + destruct (sasl_turn sr db s prefix_ i c) as [c1 r] eqn:Et. cbn in He. subst r. rewrite (bind_run _ _ _ _ _ Et). cbn. split; [done|]. congruence.
    + rewrite (bind_run _ _ _ _ _ Ht). cbv beta iota. destruct (IH s' [(B "saslContinue", VNumberInt 1)] reply (trueValue (getField reply (B "done"))) c' Hr') as [IH1 IH2].
      { intros Hdone. by exists reply. }
      split; [done|]. intros Hok. destruct (IH2 Hok). split; [by apply Hacc|done].
Qed.
End Sound.

(** ** A server and a hash to run with *)

Definition toy_hash (d : bytes) : bytes := le_bytes 20 (foldl (fun a c => (a * 65599 + uchar c + 1) mod 2 ^ 160) 5381 d).
Lemma toy_hash_length d : zlen (toy_hash d) = hashSize.
Proof. unfold toy_hash, zlen. by rewrite le_bytes_length. Qed.
Definition toy_crypto : Crypto.
Proof.
  refine {| HMAC_SHA1 k d := Some (toy_hash (k ++ d)); SHA1 d := Some (toy_hash d) |}.
  - intros k d h E. injection E as <-. apply toy_hash_length.
  - intros d h E. injection E as <-. apply toy_hash_length.
Defined.
#[local] Existing Instance toy_crypto.
Definition toy_salt : bytes := B "0123456789abcdef".
(** The server that knows a password. *)
Definition toy_server (pw : bytes) : Rfc_server :=
  match generateSecrets pw toy_salt 3 with Ret (k, s) => mkRfc k s toy_salt 3 (B "server") | Throw _ => mkRfc [] [] [] 0 [] end.
(** What it has said: nothing yet; its first message; its last one. *)
Inductive toy_phase := Fresh | Greeted (bare nonce first : bytes) | Signed.
Definition toy_reply (p : bytes) (finished : bool) : BSONObj :=
  [(B "conversationId", VNumberInt 1); (B "done", VBool (chr (if finished then 1 else 0))); (B "payload", VBinData (chr 0) p); (B "ok", VNumberInt 1)].
Definition toy_failure : BSONObj := [(B "ok", VNumberInt 0); (B "code", VNumberInt 18); (B "errmsg", VString (B "Authentication failed."))].
Definition toy_command (sv : Rfc_server) (cmd : BSONObj) (s : toy_phase) : toy_phase * (bool * BSONObj) :=
  match (getField cmd (B "payload")).2, s with
  | VBinData _ p, Fresh =>
      match rfc_first sv p with
      | Some (bare, nonce, first) => (Greeted bare nonce first, (true, toy_reply first false))
      | None => (Fresh, (false, toy_failure))
      end
  | VBinData _ p, Greeted bare nonce first =>
      match rfc_final sv bare nonce first p with
      | Some m => (Signed, (true, toy_reply m false))
      | None => (Fresh, (false, toy_failure))
      end
  | VBinData _ p, Signed => (Signed, (true, toy_reply [] true))
  | _, _ => (Fresh, (false, toy_failure))
  end.
Definition toy_ops (sv : Rfc_server) : DBOps toy_phase := {|
  run_command _ cmd _ := fun s => let '(s, r) := toy_command sv cmd s in (s, Ret r);
  db_insert _ _ := mret tt; db_update _ _ _ _ _ := mret tt; db_remove _ _ := mret tt; db_findOne _ _ _ := mret [] |}.
Definition toy_stack : bytes := replicate 64 nul.
Definition toy_random : Z * Z * Z := (1, 2, 3).
Definition sample_login (pw : bytes) : BSONObj :=
  [(B "mechanism", VString (B "SCRAM-SHA-1")); (B "user", VString (B "a=b,c")); (B "db", VString (B "admin")); (B "pwd", VString pw)].
Definition sample_digest : bytes := match createPasswordDigest toy_stack (B "a=b,c") (B "secret") with Ret d => d | Throw _ => [] end.
Definition login (pw : bytes) : result write_exn (option Status) :=
  (saslClientAuthenticateImpl (H := toy_ops (toy_server sample_digest)) toy_stack (B "") toy_random (B "localhost:27017") 4 (sample_login pw) Fresh).2.
Lemma logins : login (B "secret") = Ret (Some OK) /\
  login (B "guess") = Ret (Some (Err AuthenticationFailed (B "Authentication failed."))).
Proof. by vm_compute. Qed.

(** ** The theorems *)

(** C18: A client and a server that have the same password agree: with the server of
    RFC 5802, whose keys are those that [generateSecrets] makes of the password, the
    client's first message is understood, the proof in its second one is the right one
    for the text both sign, and it accepts the server's signature and is done.  The user
    name may have any characters; the server's nonce is printable. *)
Theorem scram_agrees `{Crypto} (params : Parameters) (sr : Z * Z * Z) (garbage out : bytes) (sv : Rfc_server) :
  crypto_works -> zlen (sv_salt sv) = 16 -> 0 < sv_count sv <= int_max int32 ->
  (","%char ∉ sv_nonce sv) /\ (nul ∉ sv_nonce sv) ->
  generateSecrets (getParameter params parameterPassword) (sv_salt sv) (sv_count sv) = Ret (sv_storedKey sv, sv_serverKey sv) ->
  exists c1 m1 bare nonce r1 c2 m2 r2 c3,
    scram_step params sr (ScramConversation_ctor garbage) [] out = Ret (c1, m1, Ret false) /\
    rfc_first sv m1 = Some (bare, nonce, r1) /\
    scram_step params sr c1 r1 out = Ret (c2, m2, Ret false) /\
    rfc_final sv bare nonce r1 m2 = Some r2 /\
    scram_step params sr c2 r2 out = Ret (c3, [], Ret true).
Proof.
  intros Hcrypto Hsalt Hcount Hnonce Hsec. destruct (extract_secrets _ _ _ _ _ Hsec) as (salted & ck & Hs & Hck & Hk & Hsk).
  destruct (HMAC_SHA1 (sv_storedKey sv) (auth_text params sr sv)) as [sig|] eqn:Esig; [|by destruct Hcrypto as [Hc _]; apply Hc in Esig].
  destruct (HMAC_SHA1 (sv_serverKey sv) (auth_text params sr sv)) as [s|] eqn:Es; [|by destruct Hcrypto as [Hc _]; apply Hc in Es].
  do 9 eexists. split; [apply first_message|]. split; [apply rfc_first_message|].
  split; [by eapply second_message|]. split; [by eapply rfc_final_message|]. by eapply third_message.
Qed.
Lemma scram_agrees_witness :
  let params := setParameter parameterUser (B "a=b,c") (setParameter parameterPassword (B "secret") no_parameters) in
  crypto_works /\ zlen (sv_salt (toy_server (B "secret"))) = 16 /\
  exists c1 m1 bare nonce r1 c2 m2 r2 c3,
    scram_step params toy_random (ScramConversation_ctor []) [] [] = Ret (c1, m1, Ret false) /\
    rfc_first (toy_server (B "secret")) m1 = Some (bare, nonce, r1) /\
    scram_step params toy_random c1 r1 [] = Ret (c2, m2, Ret false) /\
    rfc_final (toy_server (B "secret")) bare nonce r1 m2 = Some r2 /\
    scram_step params toy_random c2 r2 [] = Ret (c3, [], Ret true).
Proof.
  intros params. split; [split; done|]. split; [by vm_compute|].
  apply (scram_agrees params toy_random [] [] (toy_server (B "secret"))); [split; done|by vm_compute| |split; vm_compute; not_in|by vm_compute].
  split; [by vm_compute|]. vm_compute. discriminate.
Defined.

Lemma initialize_ready garbage s s' : session_initialize garbage s = (s', OK) -> s_done s = false -> s_conversation s = None ->
  s_parameters s' = s_parameters s /\ s_done s' = false /\
  (s_conversation s' = Some PLAIN /\ getParameter (s_parameters s') parameterMechanism = B "PLAIN" \/
   s_conversation s' = Some (SCRAM (ScramConversation_ctor garbage)) /\ getParameter (s_parameters s') parameterMechanism = B "SCRAM-SHA-1").
Proof.
  unfold session_initialize. intros E Hd Hc. rewrite Hc in E. case_bool_decide as E1; [injection E as <-; cbn; by repeat split; auto|].
  case_bool_decide as E2; [injection E as <-; cbn; by repeat split; auto|]. discriminate E.
Qed.
Lemma configure_ready stack garbage address db p s' : configureSession stack garbage address NativeSaslClientSession_ctor db p = Ret (s', OK) ->
  s_done s' = false /\
  (s_conversation s' = Some PLAIN /\ getParameter (s_parameters s') parameterMechanism = B "PLAIN" \/
   s_conversation s' = Some (SCRAM (ScramConversation_ctor garbage)) /\ getParameter (s_parameters s') parameterMechanism = B "SCRAM-SHA-1").
Proof.
  unfold configureSession. intros E. repeat match type of E with
  | (let '(_, _) := ?x in _) = _ => destruct x as [[|? ?] ?]; cbn [isOK negb] in E; try discriminate E
  | (_ ≫= _) = Ret _ => apply bind_Ret in E as (? & _ & E)
  end.
  all: try (destruct (negb (is_NoSuchKey _)); [discriminate E|]).
  all: injection E as E; by destruct (initialize_ready _ _ _ E eq_refl eq_refl) as (_ & ? & ?).
Qed.

(** C10: The login ends after at most four turns, whatever the server answers.  When it
    reports success, the session was configured, the server said it was done, and with
    SCRAM-SHA-1 the server has proved that it knows the key: a payload of a reply is its
    signature, under the key salted from the client's password as an earlier reply says,
    of the text made of the client's first message, that reply and its nonce. *)
Theorem saslClientAuthenticate_sound {C : Type} `{DBOps C} `{Crypto} (stack garbage : bytes) (sr : Z * Z * Z) (address : bytes) (p : BSONObj) (c : C) :
  (saslClientAuthenticateImpl stack garbage sr address 4 p c).2 <> Ret None /\
  ((saslClientAuthenticateImpl stack garbage sr address 4 p c).2 = Ret (Some OK) ->
    exists db session,
      bsonExtractStringFieldWithDefault p (B "db") (B "$external") [] = (OK, db) /\
      configureSession stack garbage address NativeSaslClientSession_ctor db p = Ret (session, OK) /\
      server_done db /\
      (getParameter (s_parameters session) parameterMechanism = B "PLAIN" \/
       getParameter (s_parameters session) parameterMechanism = B "SCRAM-SHA-1" /\ server_proved sr db (s_parameters session))).
Proof.
  unfold saslClientAuthenticateImpl.
  destruct (bsonExtractStringFieldWithDefault p (B "db") (B "$external") []) as [[|code reason] db]; cbn [isOK negb]; [|done].
  destruct (bsonExtractStringField p (B "mechanism") []) as [[|code reason] mech]; cbn [isOK negb]; [|done].
  destruct (configureSession _ _ _ _ _ _) as [[session [|code reason]]|e] eqn:Ec; [|done|done].
  rewrite bind_lift_Ret. cbn [isOK negb].
  destruct (configure_ready _ _ _ _ _ _ Ec) as [Hd Hconv].
  match goal with |- context [sasl_loop _ _ _ _ ?a ?i _ _] => set (inp := i); set (pre := a) end.
  destruct (loop_ready sr db (s_parameters session) 4 session pre inp false c) as [L1 L2]; [|done|].
  - split; [done|]. destruct Hconv as [[-> _]|[-> _]]; [right; lia|]. left. split_and!; [done|by cbn|by vm_compute; lia|by left].
  - split; [done|]. intros Hok. destruct (L2 Hok) as [Hacc Hdone]. exists db, session. split_and!; [done|done|done|].
    destruct Hconv as [[_ Hm]|[Hc Hm]]; [by left|]. right. split; [done|]. destruct Hacc as [Hp|]; [congruence|done].
Qed.
Lemma saslClientAuthenticate_sound_witness :
  exists db session,
    configureSession toy_stack (B "") (B "localhost:27017") NativeSaslClientSession_ctor db (sample_login (B "secret")) = Ret (session, OK) /\
    server_done (H := toy_ops (toy_server sample_digest)) db /\
    (getParameter (s_parameters session) parameterMechanism = B "PLAIN" \/
     getParameter (s_parameters session) parameterMechanism = B "SCRAM-SHA-1" /\
     server_proved (H := toy_ops (toy_server sample_digest)) toy_random db (s_parameters session)).
Proof.
  assert ((saslClientAuthenticateImpl (H := toy_ops (toy_server sample_digest)) toy_stack (B "") toy_random (B "localhost:27017") 4
    (sample_login (B "secret")) Fresh).2 = Ret (Some OK)) as Hlog by (vm_compute; reflexivity).
  destruct (proj2 (saslClientAuthenticate_sound (H := toy_ops (toy_server sample_digest)) toy_stack (B "") toy_random (B "localhost:27017")
    (sample_login (B "secret")) Fresh) Hlog) as (db & session & _ & Hc & Hd & Hp).
  exists db, session. split; [exact Hc|]. split; [exact Hd|]. exact Hp.
Defined.

(** ** What the code does not do *)

(** The nonce the client keeps to compare is the empty text: a server may answer with a
    nonce of its own. *)
Lemma foreign_nonce : exists c1 m1 c2 m2,
  scram_step no_parameters toy_random (ScramConversation_ctor []) [] [] = Ret (c1, m1, Ret false) /\ sc_clientNonce c1 = [] /\
  scram_step no_parameters toy_random c1 (B "r=other,s=MDEyMzQ1Njc4OWFiY2RlZg==,i=1") [] = Ret (c2, m2, Ret false).
Proof. do 4 eexists. split; [|split]; [vm_compute; reflexivity|reflexivity|vm_compute; reflexivity]. Qed.
(** A count below zero is accepted, and becomes more than four billion rounds. *)
Lemma negative_count : parseNumberFromStringWithBase int32 (B "-1") 10 = Ret (-1) /\ wrap uint32 (-1) = 2 ^ 32 - 1.
Proof. by vm_compute. Qed.
(** A salt of another length ends the step with an exception instead of a status. *)
Lemma short_salt : exists c1 m1,
  scram_step no_parameters toy_random (ScramConversation_ctor []) [] [] = Ret (c1, m1, Ret false) /\
  scram_step no_parameters toy_random c1 (B "r=x,s=MDEy,i=1") [] = Throw (EUassert 17450).
Proof. do 2 eexists. split; vm_compute; reflexivity. Qed.
(** A comma more or less in the server's message is not seen. *)
Lemma commas_dropped : StringSplitter_split (B "r=x,,,s=y,i=1,,") (B ",") = [B "r=x"; B "s=y"; B "i=1"].
Proof. by vm_compute. Qed.
