(* ===== verification/BsonRange.v ===== *)
(** * The rest of the object builder: bson/bsonobjbuilder.cpp

    The least and the greatest value of a type, numbers given as text, and the
    functions that look at what a builder holds before they append to it. *)
From S2P Require Import Prelude StringData ParseNumber CLib BsonTypes BufBuilder Bson BsonBuilder BsonCompare Oid.
Local Open Scope Z_scope.

(** [- numeric_limits<double>::max()] and its negation. *)
Definition lowest_double : Z := 0xFFEFFFFFFFFFFFFF.
Definition greatest_double : Z := 0x7FEFFFFFFFFFFFFF.

(** [type] is an [int]: the functions switch on the numbers of the enumeration. *)
Definition appendMinForType (fieldName : bytes) (type : Z) (b : BufBuilder) : M BufBuilder :=
  match BSONType_of type with
  | Some (NumberInt | NumberDouble | NumberLong) => append_double fieldName lowest_double b
  | Some (Symbol | String_) => append_string fieldName [] b
  | Some Date_ => append_bool fieldName true b
  | Some Timestamp => appendTimestamp fieldName 0 0 b
  | Some Undefined => appendUndefined fieldName b
  | Some MinKey => appendMinKey fieldName b
  | Some MaxKey => appendMaxKey fieldName b
  | Some jstOID => append_oid fieldName OID_ctor b
  | Some Bool_ => append_bool fieldName false b
  | Some jstNULL => appendNull fieldName b
  | Some Object_ => append_object fieldName (encode_obj []) b
  | Some Array_ => appendArray fieldName (encode_obj []) b
  | Some BinData => appendBinData fieldName (chr 0) [] b
  | Some RegEx => appendRegex fieldName [] [] b
  | Some DBRef => appendDBRef fieldName [] OID_ctor b
  | Some Code => appendCode fieldName [] b
  | Some CodeWScope => appendCodeWScope fieldName [] (encode_obj []) b
  | Some EOO | None => Throw (EUassert 10061)
  end.
Definition appendMaxForType (fieldName : bytes) (type : Z) (b : BufBuilder) : M BufBuilder :=
  match BSONType_of type with
  | Some (NumberInt | NumberDouble | NumberLong) => append_double fieldName greatest_double b
  | Some (Symbol | String_) => appendMinForType fieldName (BSONType_value Object_) b
  | Some Date_ => appendDate fieldName (int_max int64) b
  | Some Timestamp => appendTimestamp fieldName (int_max int32) (int_max int32) b
  | Some Undefined => appendUndefined fieldName b
  | Some MinKey => appendMinKey fieldName b
  | Some MaxKey => appendMaxKey fieldName b
  | Some jstOID => append_oid fieldName OID_max b
  | Some Bool_ => append_bool fieldName true b
  | Some jstNULL => appendNull fieldName b
  | Some Object_ => appendMinForType fieldName (BSONType_value Array_) b
  | Some Array_ => appendMinForType fieldName (BSONType_value BinData) b
  | Some BinData => appendMinForType fieldName (BSONType_value jstOID) b
  | Some RegEx => appendMinForType fieldName (BSONType_value DBRef) b
  | Some DBRef => appendMinForType fieldName (BSONType_value Code) b
  | Some Code => appendMinForType fieldName (BSONType_value CodeWScope) b
  | Some CodeWScope => appendMinForType fieldName (BSONType_value MaxKey) b
  | Some EOO | None => Throw (EUassert 14853)
  end.

(** [appendAsNumber]: whether it was a number, and the buffer after.
    [boost::lexical_cast<long long>] is the argument [lexical_cast]. *)
Section Number.
Context (lexical_cast : bytes -> option Z).
(** The loop over the characters: whether there is a point, when all fit. *)
Fixpoint number_chars (data : bytes) (hasDec : bool) : option bool :=
  match data with
  | [] => Some hasDec
  | c :: data =>
      if isdigit c then number_chars data hasDec
      else if ceq c "."%char then if hasDec then None else number_chars data true
      else None
  end.
Definition appendAsNumber (fieldName data : bytes) (b : BufBuilder) : M (bool * BufBuilder) :=
  if (zlen data =? 0) || bool_decide (data = B "-") || bool_decide (data = B ".") then Ret (false, b)
  else
    let rest := match data with c :: data' => if ceq c "-"%char then data' else data | [] => data end in
    match number_chars rest false with
    | None => Ret (false, b)
    | Some true => b ← append_double fieldName (strtod data).1.1 b; Ret (true, b)
    | Some false =>
        if zlen data <? 8 then b ← append_int fieldName (wrap int32 (strtol data).1.1) b; Ret (true, b)
        else match lexical_cast data with
             | Some num => b ← append_long fieldName num b; Ret (true, b)
             | None => Ret (false, b)
             end
    end.
End Number.

(** [appendElements]: the bytes between the length and the zero byte. *)
Definition appendElements (x : bytes) (b : BufBuilder) : M BufBuilder :=
  n ← objsize x;
  if n <=? 5 then Ret b else s ← read_bytes x 4 (n - 5); BufBuilder_appendBuf b s.

(** [iterator()]: over what has been appended; there is no zero byte at the end yet. *)
Definition builder_iterator (o : BSONObjBuilder) : bytes * BSONObjIterator :=
  (drop (Z.to_nat (_offset o)) (bb_data (_b o)), mkBSONObjIterator 4 (BufBuilder_len (_b o) - _offset o - 1)).
Definition builder_elements (o : BSONObjBuilder) : M BSONObj :=
  let '(d, it) := builder_iterator o in read_loop (S (length d)) d it.
Definition builder_hasField (o : BSONObjBuilder) (name : bytes) : M bool :=
  es ← builder_elements o; Ret (existsb (fun e => bool_decide (name = e.1)) es).
(** The names are those before the call. *)
Definition appendElementsUnique (x : BSONObj) (o : BSONObjBuilder) : M BSONObjBuilder :=
  es ← builder_elements o;
  let have := map fst es in
  with_b o (foldl (fun m e => b ← m; if bool_decide (e.1 ∈ have) then Ret b else append_element e b) (Ret (_b o)) x).
Fixpoint appendKeys (keyPattern values : BSONObj) (b : BufBuilder) : M BufBuilder :=
  match keyPattern, values with
  | k :: keyPattern, v :: values => b ← appendAs v k.1 b; appendKeys keyPattern values b
  | [], [] => Ret b
  | _, _ => Throw EVerify
  end.

(** ** The bounds of a type *)

(** What the functions append. *)
Definition min_value (t : BSONType) : option bson_value :=
  match t with
  | NumberInt | NumberDouble | NumberLong => Some (VNumberDouble lowest_double)
  | Symbol | String_ => Some (VString [])
  | Date_ => Some (VBool (chr 1))
  | Timestamp => Some (VTimestamp 0 0)
  | Undefined => Some VUndefined | MinKey => Some VMinKey | MaxKey => Some VMaxKey
  | jstOID => Some (VjstOID OID_ctor)
  | Bool_ => Some (VBool (chr 0))
  | jstNULL => Some VjstNULL
  | Object_ => Some (VObject []) | Array_ => Some (VArray [])
  | BinData => Some (VBinData (chr 0) [])
  | RegEx => Some (VRegEx [] [])
  | DBRef => Some (VDBRef [] OID_ctor)
  | Code => Some (VCode []) | CodeWScope => Some (VCodeWScope [] [])
  | EOO => None
  end.
Definition max_value (t : BSONType) : option bson_value :=
  match t with
  | NumberInt | NumberDouble | NumberLong => Some (VNumberDouble greatest_double)
  | Symbol | String_ => min_value Object_
  | Date_ => Some (VDate (int_max int64))
  | Timestamp => Some (VTimestamp (int_max int32) (int_max int32))
  | Undefined => Some VUndefined | MinKey => Some VMinKey | MaxKey => Some VMaxKey
  | jstOID => Some (VjstOID OID_max)
  | Bool_ => Some (VBool (chr 1))
  | jstNULL => Some VjstNULL
  | Object_ => min_value Array_ | Array_ => min_value BinData
  | BinData => min_value jstOID
  | RegEx => min_value DBRef | DBRef => min_value Code
  | Code => min_value CodeWScope | CodeWScope => min_value MaxKey
  | EOO => None
  end.
Lemma appendMin_value name t v b : min_value t = Some v ->
  appendMinForType name (BSONType_value t) b = append_value name v b.
Proof. destruct t; intros E; try discriminate E; injection E as <-; reflexivity. Qed.
Lemma appendMax_value name t v b : max_value t = Some v ->
  appendMaxForType name (BSONType_value t) b = append_value name v b.
Proof. destruct t; intros E; try discriminate E; injection E as <-; reflexivity. Qed.
Lemma bounds_appendable t lo : min_value t = Some lo \/ max_value t = Some lo -> appendable lo.
Proof.
  assert (OID_ctor = replicate 12 (chr 0)) as Ho by reflexivity.
  destruct t; intros [E|E]; try discriminate E; injection E as <-; (split; [cbn [wf_value]|try exact I; auto]);
    try exact I; try (split; (discriminate || (intros H; by apply elem_of_nil in H) || (vm_compute; split; discriminate)));
    vm_compute; (reflexivity || (split; discriminate)).
Qed.

(** The greatest finite double, in units. *)
Definition greatest_units : Z := (2 ^ 53 - 1) * 2 ^ 2045.
Lemma finite_bounded b u : double_of_bits b = Finite u -> - greatest_units <= u <= greatest_units.
Proof.
  unfold double_of_bits. set (frac := Z.land b (2 ^ 52 - 1)). set (ex := Z.land (Z.shiftr b 52) 2047).
  assert (0 <= frac < 2 ^ 52) as Hf.
  { unfold frac. change (2 ^ 52 - 1) with (Z.ones 52). rewrite Z.land_ones by lia. apply Z.mod_pos_bound. lia. }
  assert (0 <= ex < 2 ^ 11) as He.
  { unfold ex. change 2047 with (Z.ones 11). rewrite Z.land_ones by lia. apply Z.mod_pos_bound. lia. }
  generalize (Z.testbit b 63). clearbody frac ex. intros neg.
  destruct (ex =? 2047) eqn:E; [by destruct (frac =? 0)|]. apply Z.eqb_neq in E.
  set (m := if ex =? 0 then frac else (2 ^ 52 + frac) * 2 ^ (ex - 1)).
  assert (0 <= m <= greatest_units) as Hm.
  { unfold m, greatest_units. assert (0 < 2 ^ 2045) by (apply Z.pow_pos_nonneg; lia). destruct (ex =? 0) eqn:E0; [nia|]. apply Z.eqb_neq in E0.
    assert (0 < 2 ^ (ex - 1) <= 2 ^ 2045).
    { split; [apply Z.pow_pos_nonneg; lia|]. apply Z.pow_le_mono_r; lia. }
    split; [nia|]. apply Z.mul_le_mono_nonneg; lia. }
  clearbody m. intros H. injection H as <-. destruct neg; lia.
Qed.
Lemma greatest_units_bits : double_of_bits greatest_double = Finite greatest_units /\ double_of_bits lowest_double = Finite (- greatest_units).
Proof. split; vm_compute; reflexivity. Qed.
Lemma long_units_bounded n : in_range int64 n -> - greatest_units <= n * one_units <= greatest_units.
Proof.
  intros [Hl Hh]. assert (int_min int64 = - 2 ^ 63) as E1 by reflexivity. assert (int_max int64 = 2 ^ 63 - 1) as E2 by reflexivity.
  rewrite E1 in Hl. rewrite E2 in Hh. clear E1 E2. pose proof one_units_pos as Hp.
  assert (2 ^ 63 * one_units <= greatest_units) by (apply Z.leb_le; vm_compute; reflexivity).
  generalize dependent one_units. intros one Hp H. nia.
Qed.

(** What lies between the bounds of its type: every value but the doubles that are not
    finite, the timestamps above the greatest signed number and truth values of other
    bytes than 0 and 1. *)
Definition bounded (v : bson_value) : Prop :=
  match v with
  | VNumberDouble b => exists u, double_of_bits b = Finite u
  | VTimestamp increment seconds => timestamp_date increment seconds <= timestamp_date (int_max int32) (int_max int32)
  | VBool b => b = chr 0 \/ b = chr 1
  | VEOO => False
  | _ => True
  end.

Lemma lexZ_head x y a b : x < y -> lexZ (x :: a) (y :: b) <= 0.
Proof. intros Hx. cbn [lexZ]. apply Z.ltb_lt in Hx as ->. lia. Qed.
Lemma lexZ_cons x y a b : x <= y -> lexZ a b <= 0 -> lexZ (x :: a) (y :: b) <= 0.
Proof. intros Hx Hl. cbn [lexZ]. cmp_cases; lia. Qed.
Lemma lexZ_app p a b : lexZ a b <= 0 -> lexZ (p ++ a) (p ++ b) <= 0.
Proof. intros Hl. induction p as [|x p IH]; [exact Hl|]. cbn [app]. by apply lexZ_cons. Qed.
Lemma lexZ_bytes_key s a b : lexZ a b <= 0 -> lexZ (bytes_key [] ++ a) (bytes_key s ++ b) <= 0.
Proof.
  intros Hl. destruct s as [|c s]; [by apply lexZ_app|]. unfold bytes_key. cbn [fmap list_fmap app]. apply lexZ_head.
  pose proof (uchar_range c). lia.
Qed.
(** Bytes of one length, against all zeros or all ones. *)
Lemma lexZ_least s n a b : length s = n -> lexZ a b <= 0 -> lexZ ((uchar <$> replicate n nul) ++ a) ((uchar <$> s) ++ b) <= 0.
Proof.
  intros <- Hl. induction s as [|c s IH]; [exact Hl|]. cbn [length replicate fmap list_fmap app]. apply lexZ_cons; [|exact IH].
  rewrite uchar_nul. pose proof (uchar_range c). lia.
Qed.
Lemma lexZ_greatest s n : length s = n -> lexZ (uchar <$> s) (uchar <$> replicate n (chr 0xFF)) <= 0.
Proof.
  intros <-. induction s as [|c s IH]; [reflexivity|]. cbn [length replicate fmap list_fmap]. apply lexZ_cons; [|exact IH].
  change (uchar (chr 0xFF)) with 255. pose proof (uchar_range c). lia.
Qed.
Lemma zlen_length {A} (s : list A) n : zlen s = Z.of_nat n -> length s = n.
Proof. unfold zlen. lia. Qed.
Lemma elements_key_least o : wf_obj o -> lexZ [end_key] (value_key (VObject o)) <= 0.
Proof.
  intros _. destruct o as [|[n v] o]; [reflexivity|]. cbn [value_key]. apply lexZ_head. pose proof (canonicalType_range v). unfold end_key. lia.
Qed.
Lemma scope_least c o : wf_obj o -> lexZ (value_key (VCodeWScope [] [])) (value_key (VCodeWScope c o)) <= 0.
Proof. intros Ho. exact (lexZ_bytes_key c _ _ (elements_key_least o Ho)). Qed.
Lemma dbref_least ns oid : zlen oid = 12 -> lexZ (value_key (VDBRef [] OID_ctor)) (value_key (VDBRef ns oid)) <= 0.
Proof.
  intros Ho. cbn [value_key]. destruct ns as [|c ns].
  - apply lexZ_cons; [rewrite !zlen_app, Ho; vm_compute; discriminate|]. rewrite !fmap_app. apply lexZ_app.
    rewrite <-(app_nil_r (uchar <$> OID_ctor)), <-(app_nil_r (uchar <$> oid)). apply lexZ_least; [by apply (zlen_length oid 12)|reflexivity].
  - apply lexZ_head. rewrite !zlen_app, Ho, !zlen_encode_string. change (zlen OID_ctor) with 12. change (zlen (@nil char)) with 0.
    change (zlen (c :: ns)) with (zlen ([c] ++ ns)). rewrite zlen_app. change (zlen [c]) with 1. pose proof (zlen_nonneg ns). lia.
Qed.
Lemma binData_least t d : lexZ (value_key (VBinData (chr 0) [])) (value_key (VBinData t d)) <= 0.
Proof.
  cbn [value_key]. destruct d as [|c d].
  - apply lexZ_cons; [reflexivity|]. apply (lexZ_least [t] 1 [] []); reflexivity.
  - apply lexZ_head. change (zlen (c :: d)) with (zlen ([c] ++ d)). rewrite zlen_app. change (zlen [c]) with 1. change (zlen (@nil char)) with 0.
    pose proof (zlen_nonneg d). lia.
Qed.
Lemma number_between (u : Z) : - greatest_units <= u <= greatest_units ->
  lexZ (value_key (VNumberDouble lowest_double)) (num_pair (2, u)) <= 0 /\ lexZ (num_pair (2, u)) (value_key (VNumberDouble greatest_double)) <= 0.
Proof.
  intros Hu. cbn [value_key]. destruct greatest_units_bits as [-> ->]. cbn [num_key]. unfold num_pair. cbn [fst snd].
  generalize dependent greatest_units. intros g Hu. cbn [lexZ]. split; cmp_cases; lia.
Qed.
Lemma number_value_bounds v : wf_value v -> bounded v -> isNumber v = true ->
  lexZ (value_key (VNumberDouble lowest_double)) (value_key v) <= 0 /\ lexZ (value_key v) (value_key (VNumberDouble greatest_double)) <= 0.
Proof.
  intros Hw Hb Hn. destruct v; try discriminate Hn.
  - destruct Hb as [u Hu]. assert (value_key (VNumberDouble bits) = num_pair (2, u)) as -> by (cbn [value_key]; by rewrite Hu).
    apply number_between. by apply (finite_bounded bits).
  - apply (number_between (n * one_units)). apply long_units_bounded. cbn [wf_value] in Hw.
    assert (int_min int32 = -2147483648 /\ int_max int32 = 2147483647 /\ int_min int64 = -9223372036854775808 /\ int_max int64 = 9223372036854775807)
      as (E1 & E2 & E3 & E4) by (repeat split; reflexivity). unfold in_range in *. lia.
  - apply (number_between (n * one_units)). by apply long_units_bounded.
Qed.
Lemma above_min v lo : wf_value v -> bounded v -> min_value (value_type v) = Some lo ->
  lexZ (element_key false ([], lo)) (element_key false ([], v)) <= 0.
Proof.
  intros Hw Hb. unfold element_key. cbn [snd app].
  destruct v; cbn [value_type min_value]; intros E; (discriminate E || injection E as <-);
    try (apply lexZ_head; vm_compute; reflexivity); try (apply lexZ_cons; [reflexivity|]); try reflexivity.
  - by apply number_value_bounds.
  - rewrite <-(app_nil_r (value_key (VString []))), <-(app_nil_r (value_key (VString s))). by apply lexZ_bytes_key.
  - apply elements_key_least. by apply wf_VObject.
  - apply elements_key_least. by apply wf_VArray.
  - apply binData_least.
  - cbn [value_key]. rewrite <-(app_nil_r (uchar <$> OID_ctor)), <-(app_nil_r (uchar <$> oid)).
    apply lexZ_least; [by apply (zlen_length oid 12)|reflexivity].
  - destruct Hb as [-> | ->]; reflexivity || (vm_compute; discriminate).
  - cbn [value_key]. apply lexZ_bytes_key. rewrite <-(app_nil_r (bytes_key [])), <-(app_nil_r (bytes_key flags)). by apply lexZ_bytes_key.
  - apply dbref_least. exact Hw.
  - rewrite <-(app_nil_r (value_key (VCode []))), <-(app_nil_r (value_key (VCode code))). by apply lexZ_bytes_key.
  - rewrite <-(app_nil_r (value_key (VString []))), <-(app_nil_r (value_key (VSymbol s))). by apply lexZ_bytes_key.
  - apply scope_least. by apply (wf_VCodeWScope code scope).
  - by apply number_value_bounds.
  - destruct Hw as [[Hi _] [Hs _]]. cbn [value_key]. unfold timestamp_date. cbn [lexZ].
    change (int_min uint32) with 0 in *. cmp_cases; nia.
  - by apply number_value_bounds.
Qed.
Lemma below_max v hi : wf_value v -> bounded v -> max_value (value_type v) = Some hi ->
  lexZ (element_key false ([], v)) (element_key false ([], hi)) <= 0.
Proof.
  intros Hw Hb. unfold element_key. cbn [snd app].
  destruct v; cbn [value_type max_value min_value]; intros E; (discriminate E || injection E as <-);
    try (apply lexZ_head; vm_compute; reflexivity); try (apply lexZ_cons; [reflexivity|]); try reflexivity.
  - by apply number_value_bounds.
  - cbn [value_key]. apply lexZ_greatest. by apply (zlen_length oid 12).
  - destruct Hb as [-> | ->]; reflexivity || (vm_compute; discriminate).
  - cbn [value_key]. pose proof (wrap_range int64 millis ltac:(vm_compute; reflexivity)) as [_ Hd].
    change (wrap int64 (int_max int64)) with (int_max int64). cbn [lexZ]. cmp_cases; lia.
  - by apply number_value_bounds.
  - cbn [value_key bounded] in *. cbn [lexZ]. cmp_cases; lia.
  - by apply number_value_bounds.
Qed.

Lemma woCompare_key l r : wf_element l -> wf_element r -> lexZ (element_key false l) (element_key false r) <= 0 ->
  exists x, BSONElement_woCompare false l r = Ret x /\ x <= 0.
Proof.
  intros Hl Hr Hk. destruct (element_cmp_all false l r Hl Hr) as (n & -> & Hn). exists n. split; [reflexivity|].
  apply keyed_lexZ in Hn. rewrite <-Hn in Hk. unfold sign_of in Hk. destruct (Z.ltb_spec n 0); [lia|]. destruct (Z.eqb_spec n 0); lia.
Qed.

(** C36: For every type but EOO the two functions append one element each, under the given
    name, and every value of that type lies between them in the order of values: every
    text, document, array, binary, identifier, date, regular expression, reference and
    code, every integer and finite double, every timestamp up to the greatest signed
    number and the two truth values.  On another type they fail. *)
Theorem appendForType_bounds name (t : Z) :
  (BSONType_of t = None \/ BSONType_of t = Some EOO ->
     forall b, appendMinForType name t b = Throw (EUassert 10061) /\ appendMaxForType name t b = Throw (EUassert 14853)) /\
  (forall v, nul ∉ name -> wf_value v -> bounded v -> t = BSONType_value (value_type v) ->
     exists lo hi x y, writes (appendMinForType name t) (encode_element (name, lo)) /\
       writes (appendMaxForType name t) (encode_element (name, hi)) /\
       BSONElement_woCompare false (name, lo) (name, v) = Ret x /\ x <= 0 /\
       BSONElement_woCompare false (name, v) (name, hi) = Ret y /\ y <= 0).
Proof.
  split.
  - intros Ht b. unfold appendMinForType, appendMaxForType. destruct Ht as [-> | ->]; split; reflexivity.
  - intros v Hn Hw Hb ->. assert (value_type v <> EOO) as Ht by (destruct v; discriminate || destruct Hb).
    assert (exists lo hi, min_value (value_type v) = Some lo /\ max_value (value_type v) = Some hi) as (lo & hi & Hlo & Hhi).
    { destruct (value_type v); first [by destruct Ht|by do 2 eexists]. }
    destruct (bounds_appendable _ lo (or_introl Hlo)) as [Hwl Hal]. destruct (bounds_appendable _ hi (or_intror Hhi)) as [Hwh Hah].
    destruct (woCompare_key (name, lo) (name, v)) as (x & Hx & Hx0); [by split|by split|by apply above_min|].
    destruct (woCompare_key (name, v) (name, hi)) as (y & Hy & Hy0); [by split|by split|by apply below_max|].
    exists lo, hi, x, y. split; [|split; [|by repeat split]].
    + eapply writes_ext; [intros b; by apply appendMin_value|]. by apply append_value_writes.
    + eapply writes_ext; [intros b; by apply appendMax_value|]. by apply append_value_writes.
Qed.
Lemma appendForType_bounds_witness :
  (exists lo hi x y, writes (appendMinForType (B "k") 2) (encode_element (B "k", lo)) /\
     writes (appendMaxForType (B "k") 2) (encode_element (B "k", hi)) /\
     BSONElement_woCompare false (B "k", lo) (B "k", VString (B "text")) = Ret x /\ x <= 0 /\
     BSONElement_woCompare false (B "k", VString (B "text")) (B "k", hi) = Ret y /\ y <= 0) /\
  appendMinForType (B "k") 20 (BufBuilder_ctor 16) = Throw (EUassert 10061).
Proof.
  split.
  - apply (appendForType_bounds (B "k") 2); [vm_compute; not_in|exact I|exact I|reflexivity].
  - apply (appendForType_bounds (B "k") 20). left. reflexivity.
Defined.

(** Outside: an infinite double above the greatest number, a timestamp of the year 2038,
    a truth value with another byte. *)
Lemma out_of_bounds :
  BSONElement_woCompare false ([], VNumberDouble inf_bits) ([], VNumberDouble greatest_double) = Ret 1 /\
  BSONElement_woCompare false ([], VNumberDouble quiet_NaN) ([], VNumberDouble lowest_double) = Ret (-1) /\
  BSONElement_woCompare false ([], VTimestamp 0 (2 ^ 31)) ([], VTimestamp (int_max int32) (int_max int32)) = Ret 1 /\
  BSONElement_woCompare false ([], VBool (chr 2)) ([], VBool (chr 1)) = Ret 1.
Proof. repeat split; vm_compute; reflexivity. Qed.

(** ** What a builder holds *)

Lemma encode_element_two e : 2 <= zlen (encode_element e).
Proof.
  destruct e as [n v]. rewrite encode_element_header, zlen_app. change (chr (BSONType_value (value_type v)) :: n ++ [nul])
    with ([chr (BSONType_value (value_type v))] ++ n ++ [nul]). rewrite !zlen_app. change (zlen [nul]) with 1.
  change (zlen [chr (BSONType_value (value_type v))]) with 1. pose proof (zlen_nonneg n). pose proof (zlen_nonneg (encode_value v)). lia.
Qed.
(** The iterator of an open object ends one byte early, inside the last element. *)
Lemma read_open fuel : forall es pre, wf_obj es -> (elements_fuel es <= fuel)%nat ->
  zlen pre + zlen (encode_elements es) <= int_max int32 ->
  read_loop fuel (pre ++ encode_elements es) (mkBSONObjIterator (zlen pre) (zlen pre + zlen (encode_elements es) - 1)) = Ret es.
Proof.
  induction fuel as [|fuel IH]; intros es pre Hw Hf Hs; [destruct es as [|[]]; cbn in Hf; lia|].
  cbn [read_loop]. unfold iterator_more. cbn [_pos _theend]. destruct es as [|e es].
  { change (zlen (encode_elements [])) with 0. by replace (zlen pre <? zlen pre + 0 - 1) with false by lia. }
  apply List.Forall_cons_iff in Hw as [He Hw]. change (encode_elements (e :: es)) with (encode_element e ++ encode_elements es) in *.
  rewrite zlen_app in *. pose proof (encode_element_two e). pose proof (zlen_nonneg (encode_elements es)). pose proof (zlen_nonneg pre).
  replace (_ <? _) with true by lia. unfold iterator_next. cbn [_pos _theend]. replace (_ <=? _) with true by lia.
  cbn [verify guard_throw mbind result_bind]. assert (int_sized (encode_element e)) by (unfold int_sized; lia).
  rewrite drop_zlen, element_size_encode by done. cbn [mbind result_bind]. rewrite drop_zlen, read_element_encode; [|done|done|].
  - cbn [mbind result_bind]. rewrite app_assoc. replace (zlen pre + zlen (encode_element e)) with (zlen (pre ++ encode_element e)) by (by rewrite zlen_app).
    replace (zlen pre + (zlen (encode_element e) + zlen (encode_elements es)) - 1)
      with (zlen (pre ++ encode_element e) + zlen (encode_elements es) - 1) by (rewrite zlen_app; lia).
    rewrite IH; [reflexivity|exact Hw| |rewrite zlen_app; lia]. destruct e as [n v]. cbn in Hf. lia.
  - intros o2 b2 Ho2 Hs2. destruct (nested_fuel _ _ Ho2) as [Ef Hw2].
    apply (proj2 (read_loop_encode fuel)); [by apply Hw2, He| |exact Hs2]. destruct e as [n v]. cbn in *. lia.
Qed.
Lemma builder_elements_started o pre es : started o pre (encode_elements es) -> wf_obj es -> builder_elements o = Ret es.
Proof.
  intros ((_ & Hl & Hm) & Ho & _ & H1 & len4 & H4 & Hd) Hw. unfold builder_elements, builder_iterator.
  unfold BufBuilder_len in *. rewrite Ho, Hd, drop_zlen. rewrite Hd, !zlen_app in Hl. rewrite !zlen_app.
  pose proof (zlen_nonneg pre). pose proof (zlen_nonneg (encode_elements es)).
  assert (BufferMaxSize = 67108864) as HM by done. assert (int_max int32 = 2147483647) as Hint by done.
  replace (zlen pre + (zlen len4 + zlen (encode_elements es)) - zlen pre - 1) with (zlen len4 + zlen (encode_elements es) - 1) by lia.
  replace 4 with (zlen len4). apply read_open; [exact Hw| |lia]. pose proof (elements_fuel_bound es) as Hf.
  unfold encode_obj, encode_obj_with, le4 in Hf. rewrite !length_app, le_bytes_length in Hf. cbn [length] in Hf.
  rewrite length_app. unfold zlen in H4. lia.
Qed.
Lemma append_element_writes e : wf_element e -> writes (append_element e) (encode_element e).
Proof.
  intros [Hn Hv] b Hw Hb. unfold append_element. rewrite checkFieldName_ok by exact Hn. cbn [mbind result_bind].
  assert (eoo e = false) as -> by (destruct e as [n v]; destruct v; reflexivity || destruct Hv). by apply writes_buf.
Qed.
(** The elements whose name was not there: repeated names of the document are all kept. *)
Definition new_elements (have : list bytes) (x : BSONObj) : BSONObj := List.filter (fun e => negb (bool_decide (e.1 ∈ have))) x.
Lemma unique_fold (have : list bytes) (x : BSONObj) : wf_obj x -> forall b0 : exn,
  writes (fun b => foldl (fun m e => b ← m; if bool_decide (e.1 ∈ have) then Ret b else append_element e b) (Ret b) x)
    (encode_elements (new_elements have x)) /\
  foldl (fun m e => b ← m; if bool_decide (e.1 ∈ have) then Ret b else append_element e b) (Throw b0 : M BufBuilder) x = Throw b0.
Proof.
  induction 1 as [|e x He Hx IH]; intros b0; [split; [apply writes_ret|reflexivity]|]. cbn [foldl]. split; [|apply IH].
  unfold new_elements. cbn [List.filter]. destruct (bool_decide (e.1 ∈ have)) eqn:Hi; cbn [negb].
  - eapply writes_ext; [|apply (IH b0)]. intros b. cbn beta. cbn [mbind result_bind]. rewrite ?Hi. reflexivity.
  - change (encode_elements (e :: new_elements have x)) with (encode_element e ++ encode_elements (new_elements have x)).
    eapply writes_ext; [|apply writes_bind; [by apply append_element_writes|apply (IH b0)]]. intros b. cbn [mbind result_bind]. rewrite ?Hi.
    destruct (append_element e b) as [b1|er]; [reflexivity|]. cbn [mbind result_bind]. apply (IH er).
Qed.
Lemma appendElementsUnique_started o pre es x : started o pre (encode_elements es) -> wf_obj es -> wf_obj x ->
  let new := new_elements (map fst es) x in
  2 * (BufBuilder_len (_b o) + zlen (encode_elements new) + bb_reservedBytes (_b o)) <= BufferMaxSize ->
  exists o', appendElementsUnique x o = Ret o' /\ started o' pre (encode_elements (es ++ new)).
Proof.
  intros Ho Hes Hx new Hb. unfold appendElementsUnique. rewrite (builder_elements_started o pre es Ho Hes). cbn [mbind result_bind].
  destruct (started_append _ _ _ _ _ Ho (proj1 (unique_fold (map fst es) x Hx EUndefined)) Hb) as (o' & Eo & Hs & _).
  exists o'. split; [exact Eo|]. by rewrite encode_elements_app.
Qed.
Lemma hasField_started o pre es name : started o pre (encode_elements es) -> wf_obj es ->
  builder_hasField o name = Ret (bool_decide (name ∈ map fst es)).
Proof.
  intros Ho Hes. unfold builder_hasField. rewrite (builder_elements_started o pre es Ho Hes). cbn [mbind result_bind]. f_equal.
  clear. induction es as [|e es IH]; [symmetry; apply bool_decide_eq_false_2; intros Hc; inversion Hc|]. cbn [existsb map]. rewrite IH.
  apply Bool.eq_iff_eq_true. rewrite Bool.orb_true_iff, !bool_decide_eq_true, elem_of_cons. done.
Qed.
(** [appendKeys]: the values under the names of the pattern; two documents of different
    lengths fail when the shorter is at its end. *)
Lemma appendKeys_writes : forall (k x : BSONObj), length k = length x -> Forall (fun e => nul ∉ e.1) k -> wf_obj x ->
  writes (appendKeys k x) (encode_elements (zip (map fst k) (map snd x))).
Proof.
  induction k as [|[n w] k IH]; intros [|[m v] x] Hl Hk Hx; try discriminate Hl; [apply writes_ret|]. cbn [appendKeys map zip zip_with fst snd].
  apply List.Forall_cons_iff in Hk as [Hn Hk]. apply List.Forall_cons_iff in Hx as [[Hm Hv] Hx]. cbn [fst snd] in *.
  change (encode_elements ((n, v) :: zip (map fst k) (map snd x))) with (encode_element (n, v) ++ encode_elements (zip (map fst k) (map snd x))).
  apply writes_bind; [|apply IH; [by injection Hl|exact Hk|exact Hx]].
  rewrite encode_element_header. eapply writes_ext; [|apply (writes_bind _ _ _ _ (writes_header (value_type v) n) (writes_buf (encode_value v)))].
  intros b. unfold appendAs. rewrite checkFieldName_ok by exact Hn. cbn [mbind result_bind].
  assert (eoo (m, v) = false) as -> by (destruct v; reflexivity || destruct Hv). reflexivity.
Qed.

(** ** Numbers given as text *)

Section NumberSpec.
Context (lexical_cast : bytes -> option Z).
Lemma number_chars_digits ds h : forallb isdigit ds = true -> number_chars ds h = Some h.
Proof. revert h. induction ds as [|c ds IH]; intros h; [done|]. cbn [forallb number_chars]. intros [-> Hd]%andb_prop. by apply IH. Qed.
Lemma number_chars_iff s : forall h r, number_chars s h = Some r <->
  exists i f, forallb isdigit i = true /\ forallb isdigit f = true /\
    ((s = i /\ r = h) \/ (s = i ++ "."%char :: f /\ h = false /\ r = true)).
Proof.
  induction s as [|c s IH]; intros h r; cbn [number_chars].
  - split; [intros E; injection E as <-; exists [], []; auto|]. intros (i & f & Hi & Hf & [[<- ->]|[E _]]); [done|]. by destruct i.
  - destruct (isdigit c) eqn:Ec.
    + rewrite IH. split; intros (i & f & Hi & Hf & Hc).
      * exists (c :: i), f. split; [cbn [forallb]; by rewrite Ec|]. split; [exact Hf|]. destruct Hc as [[-> ->]|(-> & -> & ->)]; [by left|by right].
      * destruct Hc as [[<- ->]|(E & -> & ->)].
        -- cbn [forallb] in Hi. apply andb_prop in Hi as [_ Hi]. exists s, []. auto 9.
        -- destruct i as [|c' i]; injection E as -> E; [by vm_compute in Ec|]. cbn [forallb] in Hi. apply andb_prop in Hi as [_ Hi].
           exists i, f. rewrite E. auto 9.
    + destruct (ceq c "."%char) eqn:Ep.
      * apply ceq_true in Ep as ->. destruct h.
        -- split; [discriminate|]. intros (i & f & Hi & _ & [[<- _]|(_ & ? & _)]); [by vm_compute in Hi|discriminate].
        -- rewrite IH. split; intros (i & f & Hi & Hf & Hc).
           ++ destruct Hc as [[-> ->]|(_ & ? & _)]; [|discriminate]. exists [], i. auto 6.
           ++ destruct Hc as [[<- _]|(E & _ & ->)]; [by vm_compute in Hi|]. destruct i as [|c' i].
              ** injection E as ->. exists f, []. auto 9.
              ** injection E as <- E. by vm_compute in Hi.
      * split; [discriminate|]. intros (i & f & Hi & _ & [[<- _]|(E & _)]).
        -- cbn [forallb] in Hi. by rewrite Ec in Hi.
        -- destruct i as [|c' i]; injection E as -> E; [by vm_compute in Ep|]. cbn [forallb] in Hi. by rewrite Ec in Hi.
Qed.
End NumberSpec.
(** A sign and a point without digits are a number, and so are digits of any length with a
    point; seven characters of digits are an [int], eight a [long long]. *)
Lemma appendAsNumber_runs cast b :
  appendAsNumber cast (B "k") (B "-.") b = (b ← append_double (B "k") 0 b; Ret (true, b)) /\
  appendAsNumber cast (B "k") (B "0012345") b = (b ← append_int (B "k") 12345 b; Ret (true, b)) /\
  appendAsNumber cast (B "k") (B "-2.5") b = (b ← append_double (B "k") 0xC004000000000000 b; Ret (true, b)) /\
  appendAsNumber cast (B "k") (B "1e3") b = Ret (false, b) /\ appendAsNumber cast (B "k") (B "+1") b = Ret (false, b) /\
  appendAsNumber cast (B "k") [] b = Ret (false, b).
Proof. repeat split. Qed.
