(* ===== verification/CursorCommands.v ===== *)
(** * Commands that answer with cursors: client/dbclient.cpp

    The collections and indexes of a database, an aggregation, a parallel scan, and
    queries that call a function.  [query] is virtual: it is an argument of what calls
    it.  A cursor that is not returned is destroyed, which closes it at the server. *)
From S2P Require Import Prelude StringData BsonTypes BufBuilder Bson BsonCompare BsonObj BsonRange Namespace WriteResult Message MessagePort Cursor Query Commands.
Local Open Scope Z_scope.

Definition NamespaceNotFound : Z := 26.

Section CursorCommands.
Context {C : Type} `{Client C} (malloc : Z -> bytes) (turns : nat) (lazyKillCursor : bool).
Context (query : bytes -> BSONObj -> Z -> Z -> Z -> Z -> ST C (option DBClientCursor)).
Abbreviation CC := (ST (C * DBClientCursor)).

Definition null_pointer {A} : ST C A := st_lift (Throw EUndefined).
(** What is done with a cursor that is returned; one that something is thrown for ends. *)
Definition on_cursor {A} (c : DBClientCursor) (f : CC A) : ST C (A * DBClientCursor) := fun s =>
  match f (s, c) with
  | ((s, c), Ret a) => (s, Ret (a, c))
  | (sc, Throw e) => let '(sc, _) := destroy malloc lazyKillCursor sc in (sc.1, Throw e)
  end.
(** [while (more()) f(nextSafe())], by the number of turns allowed for. *)
Fixpoint each_document {A} (fuel : nat) (f : bytes -> M A) : CC (list A) :=
  match fuel with
  | O => st_lift (Throw EUndefined)
  | S fuel =>
      m ← more malloc turns;
      if (m : bool) then o ← nextSafe malloc; a ← st_lift (f o); l ← each_document fuel f; mret (a :: l) else mret []
  end.

(** ** Collections *)

Definition transformLegacyCollectionInfos (input output : bytes) : M (bool * bytes) :=
  o ← parsed input;
  ns ← elem_String (getField o (B "name"));
  if negb (StringData_find_char ns "$"%char 0 =? npos) then Ret (false, output)
  else
    name ← StringData_substr ns (size_wrap (StringData_find ns (B ".") + 1)) npos;
    Ret (true, encode_obj ((B "name", VString name) :: new_elements [B "name"] o)).
Definition legacy_filter (db : bytes) (filter : BSONObj) : BSONObj :=
  match getField filter (B "name") with
  | (_, VString name) => (B "name", VString (db ++ B "." ++ name)) :: new_elements [B "name"] filter
  | _ => filter
  end.
Definition _legacyCollectionInfo (db : bytes) (filter : BSONObj) (batchSize : Z) : ST C DBClientCursor :=
  simple ← query (db ++ B ".system.namespaces") (legacy_filter db filter) 0 0 QueryOption_SlaveOk batchSize;
  match simple with
  | None => null_pointer
  | Some c => mret (setBatchSize batchSize (set_nToReturn 0 (set_shim (Some (ShimTransform transformLegacyCollectionInfos empty_object)) c)))
  end.
(** The servers since 2.7.6 put the documents in an array of the reply, those since 2.8 in a cursor. *)
Definition read_reply (field : bytes) (batchSize : Z) (result : BSONObj) : CC unit :=
  (if hasField result field then upd (set_shim (Some (ShimArray field [] false)))
   else upd (set_shim (Some (ShimCursorID [] false)));; get_cursor;; mret tt);;
  upd (set_nToReturn 0);;
  upd (setBatchSize batchSize).
(** An old server does not know the command. *)
Definition command_missing (error_code : Z) (result : BSONObj) : bool :=
  (error_code =? CommandNotFound) || (error_code =? 13390) || contains (valuestrsafe (getField result (B "errmsg"))) (B "no such cmd").
Definition cursor_options (batchSize : Z) : BSONObj := if batchSize =? 0 then [] else [(B "batchSize", VNumberInt batchSize)].
(** The cursor of a command that has failed ends, whatever comes of it. *)
Definition drop_cursor {A} (c : DBClientCursor) (m : ST C A) : ST C A := fun s =>
  let '(s, r) := m s in let '(sc, _) := destroy malloc lazyKillCursor (s, c) in (sc.1, r).
Definition with_first {A} (c : DBClientCursor) (f : BSONObj -> ST C A) : ST C A :=
  match o ← peekFirst c; parsed o with Ret result => f result | Throw e => drop_cursor c (st_lift (Throw e)) end.
Definition enumerateCollections (db : bytes) (filter : BSONObj) (batchSize : Z) : ST C (option DBClientCursor) :=
  let cmd := [(B "listCollections", VNumberInt 1); (B "filter", VObject filter); (B "cursor", VObject (cursor_options batchSize))] in
  cursor ← query (db ++ B ".$cmd") cmd 1 0 QueryOption_SlaveOk 0;
  match cursor with
  | None => mret None
  | Some c =>
      with_first c (fun result =>
      if isOk result then '(_, c) ← on_cursor c (read_reply (B "collections") batchSize result); mret (Some c)
      else drop_cursor c (
        error_code ← st_lift (numberInt_of (getField result (B "code")));
        if command_missing error_code result then c ← _legacyCollectionInfo db filter batchSize; mret (Some c)
        else st_lift (Throw (EUassert 18630))))
  end.
Definition getCollectionNames (fuel : nat) (db : bytes) (filter : BSONObj) : ST C (list bytes) :=
  c ← enumerateCollections db filter 0;
  match c with
  | None => null_pointer
  | Some c => with_cursor malloc lazyKillCursor c (each_document fuel (fun o => o ← parsed o; valuestr (getField o (B "name"))))
  end.
Definition getCollectionInfos (fuel : nat) (db : bytes) (filter : BSONObj) : ST C (list bytes) :=
  c ← enumerateCollections db filter 0;
  match c with None => null_pointer | Some c => with_cursor malloc lazyKillCursor c (each_document fuel (fun o => Ret o)) end.
Definition collection_exists (ns : bytes) : ST C bool :=
  coll ← st_lift (nsToCollectionSubstring ns);
  db ← st_lift (nsToDatabase ns);
  results ← enumerateCollections db [(B "name", VString coll)] 0;
  match results with None => null_pointer | Some c => with_cursor malloc lazyKillCursor c (more malloc turns) end.

(** ** Indexes *)

Definition enumerateIndexes (ns : bytes) (options batchSize : Z) : ST C (option DBClientCursor) :=
  let nsstring := NamespaceString_of ns in
  coll ← st_lift (ns_coll nsstring);
  let cmd := [(B "listIndexes", VString coll); (B "cursor", VObject (cursor_options batchSize))] in
  command_ns ← st_lift (getCommandNS nsstring);
  cursor ← query command_ns cmd 1 0 options 0;
  match cursor with
  | None => mret None
  | Some c =>
      with_first c (fun result =>
      if isOk result then '(_, c) ← on_cursor c (read_reply (B "indexes") batchSize result); mret (Some c)
      else drop_cursor c (
        error_code ← st_lift (numberInt_of (getField result (B "code")));
        if error_code =? NamespaceNotFound then mret None
        else if command_missing error_code result then
          indexes ← st_lift (getSystemIndexesCollection nsstring);
          query indexes [(B "ns", VString ns)] 0 0 options batchSize
        else st_lift (Throw (EUassert 18631))))
  end.
Definition getIndexSpecs (fuel : nat) (ns : bytes) (options : Z) : ST C (list bytes) :=
  c ← enumerateIndexes ns options 0;
  match c with None => mret [] | Some c => with_cursor malloc lazyKillCursor c (each_document fuel (fun o => Ret o)) end.
Definition getIndexNames (fuel : nat) (ns : bytes) (options : Z) : ST C (list bytes) :=
  c ← enumerateIndexes ns options 0;
  match c with
  | None => mret []
  | Some c => with_cursor malloc lazyKillCursor c (each_document fuel (fun o => o ← parsed o; valuestr (getField o (B "name"))))
  end.

(** ** Aggregation *)

(** A cursor for the results; none when the server answered with an error. *)
Definition aggregate (ns : bytes) (pipeline : BSONObj) (aggregateOptions : option BSONObj) (queryOptions : Z)
    : ST C (option DBClientCursor) :=
  coll ← st_lift (nsToCollectionSubstring ns);
  db ← st_lift (nsToDatabase ns);
  let opts := default [] aggregateOptions in
  let has_cursor := hasField opts (B "cursor") in
  let request := [(B "aggregate", VString coll); (B "pipeline", VArray pipeline)] ++ opts ++ (if has_cursor then [] else [(B "cursor", VObject [])]) in
  cursor ← query (db ++ B ".$cmd") request 1 0 queryOptions 0;
  match cursor with
  | None => mret None
  | Some c =>
      '(answer, c) ← on_cursor (set_nToReturn 0 (set_shim (Some (ShimCursorID [] false)) c))
        (more ← rawMore malloc;
         if (more : bool) then
           res ← get_cursor; res ← st_lift (parsed res); ok ← st_lift (numberInt_of (getField res (B "ok"))); mret (Some (ok, res))
         else mret None);
      match answer with
      | Some (ok, res) =>
          if negb (ok =? 0) then mret (Some c)
          else drop_cursor c (
            code ← st_lift (numberInt_of (getField res (B "code")));
            old ← (if code =? 17020 then mret true
                   else msg ← st_lift (elem_String (getField res (B "errmsg"))); mret (bool_decide (msg = B "unrecognized field " ++ [chr 34] ++ B "cursor")));
            if (old : bool) && negb has_cursor then
              simple ← query (db ++ B ".$cmd") (removeField request (B "cursor")) 1 0 queryOptions 0;
              match simple with
              | None => null_pointer
              | Some c => mret (Some (set_nToReturn 0 (set_shim (Some (ShimArray (B "result") [] false)) c)))
              end
            else mret None)
      | None => drop_cursor c (mret None)
      end
  end.

(** ** Queries that call a function *)

(** [DBClientCursorBatchIterator] and the function that takes its documents: how many. *)
Definition batch_next : CC bytes :=
  c ← cur; st_lift (massert 13383 (moreInCurrentBatch c));; nextSafe malloc.
Fixpoint take_batch (fuel : nat) (f : bytes -> CC unit) : CC Z :=
  match fuel with
  | O => st_lift (Throw EUndefined)
  | S fuel =>
      c ← cur;
      if moreInCurrentBatch c then o ← batch_next; f o;; n ← take_batch fuel f; mret (1 + n) else mret 0
  end.
Definition masked_options (queryOptions : Z) : Z := Z.land queryOptions (Z.lor QueryOption_NoCursorTimeout QueryOption_SlaveOk).
Fixpoint take_batches (fuel : nat) (f : bytes -> CC unit) : CC Z :=
  match fuel with
  | O => st_lift (Throw EUndefined)
  | S fuel =>
      m ← more malloc turns;
      if (m : bool) then n ← take_batch (S fuel) f; k ← take_batches fuel f; mret (n + k) else mret 0
  end.
Definition query_function (fuel : nat) (f : bytes -> CC unit) (ns : bytes) (q : BSONObj) (queryOptions : Z) : ST C Z :=
  c ← query ns q 0 0 (masked_options queryOptions) 0;
  match c with
  | None => st_lift (Throw (EUassert 16090))
  | Some c => with_cursor malloc lazyKillCursor c (take_batches fuel f)
  end.
(** With the option to receive all batches without asking: what goes wrong on the way
    ends the connection, since the server goes on sending. *)
Fixpoint exhaust_batches (fuel : nat) (f : bytes -> CC unit) : CC Z :=
  match fuel with
  | O => st_lift (Throw EUndefined)
  | S fuel =>
      n ← (c ← cur; if moreInCurrentBatch c then take_batch fuel f else mret 0);
      c ← cur;
      if c_cursorId c =? 0 then mret n else exhaustReceiveMore;; k ← exhaust_batches fuel f; mret (n + k)
  end.
Definition conn_query_function (availableOptions : ST C Z) (shutdown : ST C unit) (fuel : nat) (f : bytes -> CC unit)
    (ns : bytes) (q : BSONObj) (queryOptions : Z) : ST C Z :=
  available ← availableOptions;
  if negb (has_option available QueryOption_Exhaust) then query_function fuel f ns q queryOptions
  else
    c ← query ns q 0 0 (Z.lor (masked_options queryOptions) QueryOption_Exhaust) 0;
    match c with
    | None => st_lift (Throw (EUassert 13386))
    | Some c => with_cursor malloc lazyKillCursor c (fun s =>
        match exhaust_batches fuel f s with
        | (s, Ret n) => (s, Ret n)
        | (s, Throw e) => (on_client shutdown;; st_lift (Throw e)) s
        end)
    end.
End CursorCommands.

(** ** A scan with several cursors *)

Section ParallelScan.
Context {C : Type} `{Client C} `{DBOps C} (malloc : Z -> bytes) (lazyKillCursor : bool) {D : Type}.
Definition to_write {A} (m : ST C A) : SE C A := fun s => let '(s, r) := m s in (s, lift_exn r).
(** [Obj().getFieldDotted("cursor.id").numberLong()]. *)
Definition scan_id (e : BSONElement) : M Z := o ← Obj e; e ← getFieldDotted 9 o (B "cursor.id"); numberLong_of e.
(** A cursor that is made to be destroyed, which closes it at the server; failures are ignored. *)
Definition killOnServer (ns : bytes) (cursorId : Z) : ST C unit := fun s =>
  let '(sc, _) := destroy malloc lazyKillCursor (s, DBClientCursor_more ns cursorId 0 0 0) in (sc.1, Ret tt).
(** The loop after the factory has failed: the id read last is not used any more. *)
Fixpoint kill_rest (ns : bytes) (cursorId : Z) (l : BSONObj) : ST C unit :=
  match l with
  | [] => mret tt
  | e :: l =>
      killOnServer ns cursorId;;
      match scan_id e with Ret cursorId => kill_rest ns cursorId l | Throw _ => kill_rest ns cursorId l end
  end.
(** The cursors that were made, each with its connection, and what the function ends with. *)
Fixpoint scan_loop (connectionFactory : ST C D) (ns : bytes) (l : BSONObj) : ST C (list (D * DBClientCursor) * result exn unit) :=
  match l with
  | [] => mret ([], Ret tt)
  | e :: l =>
      match scan_id e with
      | Throw er => mret ([], Throw er)
      | Ret cursorId => fun s =>
          match connectionFactory s with
          | (s, Throw er) => (kill_rest ns cursorId l;; mret ([], Throw er)) s
          | (s, Ret conn) =>
              ('(cursors, r) ← scan_loop connectionFactory ns l; mret ((conn, DBClientCursor_more ns cursorId 0 0 0) :: cursors, r)) s
          end
      end
  end.
Definition parallelScan (ns : bytes) (numCursors : Z) (connectionFactory : ST C D) : SE C (list (D * DBClientCursor) * result exn unit) :=
  result ← checked_command (nsGetDB ns) [(B "parallelCollectionScan", VString (nsGetCollection ns)); (B "numCursors", VNumberInt numCursors)];
  to_write (scan_loop connectionFactory ns (getObjectField result (B "cursors"))).
End ParallelScan.

(** ** The documents of one reply *)

Section Reply.
Context {C : Type} `{Client C} (malloc : Z -> bytes) (turns : nat) (lazyKillCursor : bool).
Implicit Types (s : C) (c : DBClientCursor).

Lemma parsed_encode o : wf_obj o -> object_sized o -> parsed (encode_obj o) = Ret o.
Proof.
  intros Hw Hs. unfold parsed. rewrite <-(app_nil_r (encode_obj o)) at 2. apply (proj2 (read_loop_encode _)); [exact Hw| |by apply object_sized_int].
  pose proof (elements_fuel_bound o). lia.
Qed.
(** The next document of a reply is [r]. *)
Definition at_doc (r : BSONObj) c : Prop :=
  exists pre post, msg_buf (b_m (c_batch c)) = Some (pre ++ encode_obj r ++ post) /\ b_data (c_batch c) = zlen pre /\ in_batch c = true.
Lemma rawMore_at r s c : at_doc r c -> c_nToReturn c = 0 -> rawMore malloc (s, c) = ((s, c), Ret true).
Proof.
  intros (pre & post & _ & _ & Hi) Hn. unfold rawMore. erewrite (st_bind_run cur) by reflexivity. cbn [snd].
  rewrite Hn, Hi. reflexivity.
Qed.
Lemma rawNext_at r s c : at_doc r c -> object_sized r ->
  exists b, rawNext (s, c) = ((s, set_batch b c), Ret (encode_obj r)).
Proof.
  intros (pre & post & Hb & Hd & Hi) Hs. unfold rawNext. erewrite (st_bind_run cur) by reflexivity. cbn [snd]. rewrite Hi.
  cbn [uassert guard_throw]. rewrite st_bind_lift. erewrite (st_bind_run (upd _)) by reflexivity. cbn [fst snd].
  assert (singleData (b_m (c_batch c)) = Ret (pre ++ encode_obj r ++ post)) as -> by (unfold singleData; by rewrite Hb).
  rewrite st_bind_lift, Hd, drop_zlen, BSONObj_at_encode by exact Hs. rewrite st_bind_lift.
  erewrite (st_bind_run (upd _)) by reflexivity. cbn [fst snd]. eexists. reflexivity.
Qed.
Lemma peekFirst_at r c : at_doc r c -> object_sized r -> peekFirst c = Ret (encode_obj r).
Proof.
  intros (pre & post & Hb & Hd & Hi) Hs. unfold peekFirst, peek. rewrite Hb, Hd, drop_zlen. unfold in_batch in Hi.
  cbn [peek_loop]. rewrite Hi. cbn [Z.eqb negb andb]. rewrite BSONObj_at_encode by exact Hs. rewrite ret_bind.
  change (int_result (1 - 1)) with (Ret (E := exn) 0). rewrite ret_bind.
  destruct (Z.to_nat (b_nReturned (c_batch c) - b_pos (c_batch c))) as [|n] eqn:En; [lia|]. reflexivity.
Qed.

(** A cursor that answers with these documents and ends. *)
Fixpoint yields (l : list bytes) (s : C) c : Prop :=
  match l with
  | [] => exists c', more malloc turns (s, c) = ((s, c'), Ret false) /\ c_cursorId c' = 0
  | o :: l => exists c1 c2, more malloc turns (s, c) = ((s, c1), Ret true) /\ nextSafe malloc (s, c1) = ((s, c2), Ret o) /\ yields l s c2
  end.
Lemma each_document_yields {A} (f : bytes -> M A) l la : Forall2 (fun o a => f o = Ret a) l la -> forall fuel s c,
  (length l < fuel)%nat -> yields l s c ->
  exists c', each_document malloc turns fuel f (s, c) = ((s, c'), Ret la) /\ c_cursorId c' = 0.
Proof.
  induction 1 as [|o a l la Ho Hl IH]; intros [|fuel] s c Hf Hy; try (cbn in Hf; lia); cbn [each_document].
  - destruct Hy as (c' & Hm & Hc). rewrite (st_bind_run _ _ _ _ _ Hm). by exists c'.
  - destruct Hy as (c1 & c2 & Hm & Hn & Hy). rewrite (st_bind_run _ _ _ _ _ Hm). rewrite (st_bind_run _ _ _ _ _ Hn). rewrite Ho, st_bind_lift.
    destruct (IH fuel s c2 ltac:(cbn in Hf; lia) Hy) as (c' & E & Hc). rewrite (st_bind_run _ _ _ _ _ E). by exists c'.
Qed.
Lemma with_cursor_done {A} c (f : ST (C * DBClientCursor) A) s c' r : f (s, c) = ((s, c'), r) -> c_cursorId c' = 0 ->
  with_cursor malloc lazyKillCursor c f s = (s, r).
Proof.
  intros E Hc. unfold with_cursor. rewrite E. unfold destroy. erewrite (st_bind_run cur) by reflexivity. cbn [snd]. rewrite Hc. reflexivity.
Qed.

(** The elements of an array of documents. *)
Definition array_of (docs : list BSONObj) (iter : BSONObj) : Prop := Forall2 (fun e d => e.2 = VObject d) iter docs.
Lemma nextSafe_quiet s c s' c' o : c_wasError c' = false -> next malloc (s, c) = ((s', c'), Ret o) ->
  nextSafe malloc (s, c) = ((s', c'), Ret o).
Proof.
  intros Hw E. unfold nextSafe. rewrite (st_bind_run _ _ _ _ _ E). erewrite (st_bind_run cur) by reflexivity. cbn [snd]. by rewrite Hw.
Qed.
(** What the two shims have in common when they hold documents. *)
Definition shim_holding (f : option bytes) (iter : BSONObj) : Shim :=
  match f with Some field => ShimArray field iter true | None => ShimCursorID iter true end.
Lemma holding_next f e d iter s c : e.2 = VObject d -> c_shim c = Some (shim_holding f (e :: iter)) -> c_putBack c = [] -> c_wasError c = false ->
  nextSafe malloc (s, c) = ((s, set_shim (Some (shim_holding f iter)) (set_nReturned (c_nReturned c + 1) c)), Ret (encode_obj d)).
Proof.
  intros He Hs Hp Hw. apply nextSafe_quiet; [exact Hw|]. unfold next. erewrite (st_bind_run (upd _)) by reflexivity.
  erewrite (st_bind_run cur) by reflexivity. cbn [fst snd set_nReturned c_putBack c_shim]. rewrite Hp, Hs.
  assert (iter_Obj (e :: iter) = Ret (encode_obj d, iter)) as Hi by (destruct e as [n v]; cbn [snd] in He; by subst v).
  destruct f as [field|]; cbn [shim_holding shim_next negb andb]; [|rewrite bool_decide_eq_true_2 by discriminate]; rewrite Hi, st_bind_lift;
    erewrite (st_bind_run (upd _)) by reflexivity; reflexivity.
Qed.
Lemma holding_more f e iter s c : c_shim c = Some (shim_holding f (e :: iter)) -> c_putBack c = [] ->
  more malloc turns (s, c) = ((s, c), Ret true).
Proof.
  intros Hs Hp. unfold more. erewrite (st_bind_run cur) by reflexivity. cbn [snd]. rewrite Hp, Hs. by destruct f.
Qed.
Lemma holding_end f s c : c_shim c = Some (shim_holding f []) -> c_putBack c = [] -> c_cursorId c = 0 ->
  exists c', more malloc turns (s, c) = ((s, c'), Ret false) /\ c_cursorId c' = 0.
Proof.
  intros Hs Hp Hc. unfold more. erewrite (st_bind_run cur) by reflexivity. cbn [snd]. rewrite Hp, Hs. destruct f as [field|].
  - by exists c.
  - cbn [shim_holding shim_more]. rewrite bool_decide_eq_false_2 by (intros Hn; by apply Hn). erewrite (st_bind_run (upd _)) by reflexivity. erewrite (st_bind_run cur) by reflexivity.
    cbn [fst snd set_shim c_cursorId]. rewrite Hc. eexists. split; [reflexivity|exact Hc].
Qed.
Lemma holding_yields f docs iter : array_of docs iter -> forall s c,
  c_shim c = Some (shim_holding f iter) -> c_putBack c = [] -> c_cursorId c = 0 -> c_wasError c = false -> yields (encode_obj <$> docs) s c.
Proof.
  induction 1 as [|e d iter docs He Hl IH]; intros s c Hs Hp Hc Hw; [by eapply holding_end|]. cbn [fmap list_fmap yields].
  eexists _, _. split; [by eapply holding_more|]. split; [by apply (holding_next f e d iter)|]. apply IH; [reflexivity|exact Hp|exact Hc|exact Hw].
Qed.

(** The two forms of a reply that lists documents: in an array, or in the only batch of
    a cursor. *)
Inductive lists_docs (field : bytes) (r : BSONObj) (docs : list BSONObj) : Prop :=
  | listed_array n iter : getField r field = (n, VArray iter) -> array_of docs iter -> lists_docs field r docs
  | listed_cursor n co n1 n2 ns n3 iter : hasField r field = false -> getField r (B "cursor") = (n, VObject co) ->
      getField co (B "id") = (n1, VNumberLong 0) -> getField co (B "ns") = (n2, VString ns) ->
      getField co (B "firstBatch") = (n3, VArray iter) -> array_of docs iter -> lists_docs field r docs.
Lemma array_yields field r n iter docs s c : at_doc r c -> object_sized r -> wf_obj r -> getField r field = (n, VArray iter) -> array_of docs iter ->
  c_shim c = Some (ShimArray field [] false) -> c_nToReturn c = 0 -> c_putBack c = [] -> c_wasError c = false -> c_cursorId c = 0 ->
  yields (encode_obj <$> docs) s c.
Proof.
  intros Ha Hs Hw Hg Hd Hsh Hn Hp He Hc. destruct (rawNext_at r s c Ha Hs) as [b Hr].
  assert (more malloc turns (s, c) = ((s, set_shim (Some (ShimArray field iter true)) (set_batch b c)), Ret (bool_decide (iter <> [])))) as Hm.
  { unfold more. erewrite (st_bind_run cur) by reflexivity. cbn [snd]. rewrite Hp, Hsh. cbn [shim_more]. unfold array_more. cbn [negb].
    rewrite (st_bind_run _ _ _ _ _ (rawMore_at r s c Ha Hn)). rewrite (st_bind_run _ _ (s, c) (s, set_batch b c) (iter, bool_decide (iter <> []))).
    2: { rewrite (st_bind_run _ _ _ _ _ Hr), parsed_encode, st_bind_lift by done. unfold hasField. rewrite Hg. change (eoo (n, VArray iter)) with false. cbn [negb Obj snd]. rewrite st_bind_lift.
         by destruct iter. }
    erewrite (st_bind_run (upd _)) by reflexivity. reflexivity. }
  destruct Hd as [|e d iter docs Hed Hd].
  - cbn [fmap list_fmap yields]. eexists. split; [exact Hm|exact Hc].
  - cbn [fmap list_fmap yields]. eexists _, _. split; [exact Hm|]. split; [by apply (holding_next (Some field) e d iter)|].
    apply (holding_yields (Some field) docs iter Hd); [reflexivity|exact Hp|exact Hc|exact He].
Qed.
Lemma cursor_reply_yields field r n co n1 n2 ns n3 iter docs s c : at_doc r c -> object_sized r -> wf_obj r -> hasField r field = false ->
  getField r (B "cursor") = (n, VObject co) -> getField co (B "id") = (n1, VNumberLong 0) -> getField co (B "ns") = (n2, VString ns) ->
  getField co (B "firstBatch") = (n3, VArray iter) -> array_of docs iter -> c_putBack c = [] -> c_wasError c = false ->
  exists c', read_reply field 0 r (s, c) = ((s, c'), Ret tt) /\ yields (encode_obj <$> docs) s c'.
Proof.
  intros Ha Hs Hw Hf Hg Hid Hns Hfb Hd Hp He. unfold read_reply. rewrite Hf.
  assert (at_doc r (set_shim (Some (ShimCursorID [] false)) c)) as Ha' by exact Ha. destruct (rawNext_at r s _ Ha' Hs) as [b Hr].
  erewrite (st_bind_run _ _ (s, c)).
  2: { erewrite (st_bind_run (upd _)) by reflexivity. cbn [fst snd]. unfold get_cursor. erewrite (st_bind_run _ _ (s, _)).
       2: { rewrite (st_bind_run _ _ _ _ _ Hr), parsed_encode, st_bind_lift by done. rewrite Hg. change (eoo (n, VObject co)) with false. cbv iota.
            assert (forall name, elem_member (n, VObject co) name = Ret (getField co name)) as Hm by reflexivity. rewrite !Hm, !ret_bind, Hid, Hns, Hfb. cbn [elem_Long snd]. rewrite st_bind_lift. erewrite (st_bind_run (upd _)) by reflexivity. cbn [fst snd].
            cbn [elem_String snd]. rewrite st_bind_lift. erewrite (st_bind_run (upd _)) by reflexivity. cbn [fst snd].
            rewrite st_bind_lift. change (eoo (n3, VArray iter)) with false. cbn [snd Obj]. rewrite st_bind_lift. erewrite (st_bind_run (upd _)) by reflexivity. reflexivity. }
       reflexivity. }
  erewrite (st_bind_run (upd _)) by reflexivity. cbn [fst snd]. eexists. split; [reflexivity|].
  apply (holding_yields None docs iter Hd); [reflexivity|exact Hp|reflexivity|exact He].
Qed.
Lemma reply_yields field r docs s c : lists_docs field r docs -> at_doc r c -> object_sized r -> wf_obj r ->
  c_putBack c = [] -> c_wasError c = false -> c_cursorId c = 0 ->
  exists c', read_reply field 0 r (s, c) = ((s, c'), Ret tt) /\ yields (encode_obj <$> docs) s c'.
Proof.
  intros Hl Ha Hs Hw Hp He Hc. destruct Hl as [n iter Hg Hd|n co n1 n2 ns n3 iter Hf Hg Hid Hns Hfb Hd].
  - unfold read_reply. assert (hasField r field = true) as -> by (unfold hasField; by rewrite Hg).
    do 2 (erewrite (st_bind_run (upd _)) by reflexivity; cbn [fst snd]). eexists. split; [reflexivity|].
    by apply (array_yields field r n iter).
  - by eapply cursor_reply_yields.
Qed.
End Reply.

Section Listed.
Context {C : Type} `{Server C} (malloc : Z -> bytes) (turns : nat) (lazyKillCursor : bool).
Context (Hmalloc : forall n, 0 <= n -> zlen (malloc n) = n).
(** [query] of [DBClientBase], of all fields. *)
Definition client_query (ns : bytes) (q : BSONObj) (nToReturn nToSkip options batchSize : Z) : ST C (option DBClientCursor) :=
  DBClientBase_query malloc ns (encode_obj q) nToReturn nToSkip None options batchSize.
(** A command is a query for one document, which brings the reply. *)
Lemma command_reply ns cmd opts (s : C) r : query_ok ns cmd 1 0 None opts 0 -> srv_open s = None ->
  selected ns cmd 0 None s = [r] -> object_sized r ->
  exists s1 c1, client_query ns cmd 1 0 opts 0 s = (s1, Ret (Some c1)) /\ at_doc r c1 /\ c_putBack c1 = [] /\ c_wasError c1 = false /\
    c_cursorId c1 = 0 /\ srv_open s1 = None.
Proof.
  intros Hq Hopen Hsel Hs. set (c0 := DBClientCursor_query ns (encode_obj cmd) 1 0 (encode_obj <$> None) opts 0).
  assert (c_nToReturn c0 = 1 /\ c_nReturned c0 = 0) as [EN ER] by (unfold c0; cbn; by rewrite (proj1 (q_opts _ _ _ _ _ _ _ Hq))).
  assert (plain_cursor c0) as Hp by (apply (plain_c0 malloc ns cmd 1 0 None opts 0 Hq); lia).
  destruct (nextBatchSize_plain c0 Hp) as (n & Hn & Hn32 & Hnb); [lia|].
  assert (zlen [r] = 1) as H1 by reflexivity.
  destruct (ask_opens malloc Hmalloc ns cmd 1 0 None opts 0 s n Hq Hopen Hn Hn32) as (s1 & k & cid & m & flags & pre & slack & E & Hk & Hcid & Hm & Hpre & Ho).
  { rewrite Hsel, H1. split; [by constructor|vm_compute; discriminate]. }
  rewrite Hsel in *. assert (n = -1) as ->.
  { rewrite EN in Hnb. cbn [Z.eqb] in Hnb. change (c_batchSize c0) with 0 in Hnb. rewrite ER in Hnb. lia. }
  destruct Hk as [-> ->]. change (Nat.min (Z.to_nat (Z.abs (-1))) (length [r])) with 1%nat in *. cbn [take fmap list_fmap concat] in Hm.
  eexists s1, _. split; [exact E|]. split; [|by repeat split]. exists pre, slack. rewrite app_nil_r in Hm. split; [exact Hm|]. split; [by rewrite Hpre|].
  reflexivity.
Qed.
(** What the command for a list comes to. *)
Lemma listed field ns cmd opts r docs (s : C) {A} (f : bytes -> M A) la : query_ok ns cmd 1 0 None opts 0 -> srv_open s = None ->
  selected ns cmd 0 None s = [r] -> object_sized r -> wf_obj r -> lists_docs field r docs -> Forall2 (fun o a => f o = Ret a) (encode_obj <$> docs) la ->
  exists s1 c1, client_query ns cmd 1 0 opts 0 s = (s1, Ret (Some c1)) /\ peekFirst c1 = Ret (encode_obj r) /\ parsed (encode_obj r) = Ret r /\
    srv_open s1 = None /\ exists c2, on_cursor malloc lazyKillCursor c1 (read_reply field 0 r) s1 = (s1, Ret (tt, c2)) /\
    forall fuel, (length docs < fuel)%nat -> with_cursor malloc lazyKillCursor c2 (each_document malloc turns fuel f) s1 = (s1, Ret la).
Proof.
  intros Hq Hopen Hsel Hs Hw Hl Hf. destruct (command_reply ns cmd opts s r Hq Hopen Hsel Hs) as (s1 & c1 & E & Ha & Hp & He & Hc & Ho).
  exists s1, c1. split; [exact E|]. split; [by apply peekFirst_at|]. split; [by apply parsed_encode|]. split; [exact Ho|].
  destruct (reply_yields malloc turns field r docs s1 c1 Hl Ha Hs Hw Hp He Hc) as (c2 & Er & Hy). exists c2.
  split; [unfold on_cursor; by rewrite Er|]. intros fuel Hfu.
  destruct (each_document_yields malloc turns f _ la Hf fuel s1 c2) as (c3 & E3 & Hc3); [by rewrite length_fmap|exact Hy|].
  by apply (with_cursor_done malloc lazyKillCursor c2 _ s1 c3).
Qed.
End Listed.

Definition named (d : BSONObj) (name : bytes) : Prop := exists n, getField d (B "name") = (n, VString name) /\ nul ∉ name.
Lemma c_string_whole s : nul ∉ s -> c_string s = s.
Proof. intros Hn. unfold c_string. by apply memchr_None in Hn as ->. Qed.
Definition name_of (o : bytes) : M bytes := o ← parsed o; valuestr (getField o (B "name")).
Lemma names_read docs names : Forall2 named docs names -> Forall (fun d => wf_obj d /\ object_sized d) docs ->
  Forall2 (fun o a => name_of o = Ret a) (encode_obj <$> docs) names.
Proof.
  induction 1 as [|d a docs names (n & Hd & Ha) _ IH]; intros Hw; [constructor|]. apply Forall_cons in Hw as [[Hw Hs] Hws]. constructor; [|by apply IH].
  unfold name_of. rewrite parsed_encode by done. rewrite ret_bind, Hd. unfold valuestr. cbn [snd]. by rewrite c_string_whole.
Qed.
Lemma documents_read (docs : list bytes) : Forall2 (fun o a => Ret (E := exn) o = Ret a) docs docs.
Proof. induction docs; by constructor. Qed.

Definition listCollections (filter : BSONObj) : BSONObj :=
  [(B "listCollections", VNumberInt 1); (B "filter", VObject filter); (B "cursor", VObject [])].
(** C30: Of a server that lists the collections in its reply, in an array as the servers
    before 2.8 do or in the only batch of a cursor, [getCollectionInfos] answers the
    documents listed and [getCollectionNames] their names, in order, and the server is
    left without a cursor. *)
Theorem collections_listed {C : Type} `{Server C} malloc turns lazyKillCursor db filter r docs names fuel (s : C) :
  (forall n, 0 <= n -> zlen (malloc n) = n) ->
  query_ok (db ++ B ".$cmd") (listCollections filter) 1 0 None QueryOption_SlaveOk 0 -> srv_open s = None ->
  selected (db ++ B ".$cmd") (listCollections filter) 0 None s = [r] -> object_sized r -> wf_obj r -> isOk r = true ->
  lists_docs (B "collections") r docs -> Forall2 named docs names -> Forall (fun d => wf_obj d /\ object_sized d) docs ->
  (length docs < fuel)%nat ->
  exists s1, srv_open s1 = None /\
    getCollectionInfos malloc turns lazyKillCursor (client_query malloc) fuel db filter s = (s1, Ret (encode_obj <$> docs)) /\
    getCollectionNames malloc turns lazyKillCursor (client_query malloc) fuel db filter s = (s1, Ret names).
Proof.
  intros Hmalloc Hq Hopen Hsel Hs Hw Hok Hl Hn Hd Hf.
  destruct (listed malloc turns lazyKillCursor Hmalloc (B "collections") _ _ _ r docs s (fun o => Ret o) _ Hq Hopen Hsel Hs Hw Hl (documents_read _))
    as (s1 & c1 & E & Hp & Hr & Ho & c2 & Ec & Hi).
  destruct (listed malloc turns lazyKillCursor Hmalloc (B "collections") _ _ _ r docs s name_of names Hq Hopen Hsel Hs Hw Hl (names_read _ _ Hn Hd))
    as (s1' & c1' & E' & _ & _ & _ & c2' & Ec' & Hi').
  rewrite E in E'. injection E' as <- <-. rewrite Ec in Ec'. injection Ec' as <-.
  assert (enumerateCollections malloc lazyKillCursor (client_query malloc) db filter 0 s = (s1, Ret (Some c2))) as He.
  { unfold enumerateCollections. rewrite (st_bind_run _ _ _ _ _ E). unfold with_first. rewrite Hp, ret_bind, Hr, Hok.
    by rewrite (st_bind_run _ _ _ _ _ Ec). }
  exists s1. split; [exact Ho|]. unfold getCollectionInfos, getCollectionNames. rewrite !(st_bind_run _ _ _ _ _ He).
  split; [by apply Hi|by apply Hi'].
Qed.
Definition toy_collection (name : bytes) : BSONObj := [(B "name", VString name); (B "options", VObject [])].
Definition toy_listing (l : list bytes) : BSONObj := map (fun n => (n, VObject (toy_collection n))) l.
Definition reply_2_8 : BSONObj :=
  [(B "cursor", VObject [(B "id", VNumberLong 0); (B "ns", VString (B "db.$cmd.listCollections")); (B "firstBatch", VArray (toy_listing [B "a"; B "b"]))]);
   (B "ok", VNumberInt 1)].
Lemma collections_listed_witness :
  let s := mkToy [reply_2_8] None in
  exists s1, srv_open s1 = None /\
    getCollectionInfos toy_malloc 0 true (client_query toy_malloc) 3 (B "db") [] s = (s1, Ret (encode_obj <$> [toy_collection (B "a"); toy_collection (B "b")])) /\
    getCollectionNames toy_malloc 0 true (client_query toy_malloc) 3 (B "db") [] s = (s1, Ret [B "a"; B "b"]).
Proof.
  intros s. apply (collections_listed toy_malloc 0 true (B "db") [] reply_2_8 [toy_collection (B "a"); toy_collection (B "b")] [B "a"; B "b"] 3 s).
  - apply toy_malloc_len.
  - constructor; [vm_compute; not_in|repeat split; vm_compute; discriminate|split; reflexivity|vm_compute; discriminate].
  - reflexivity.
  - reflexivity.
  - vm_compute. discriminate.
  - repeat constructor; try (vm_compute; not_in). 
  - reflexivity.
  - eapply listed_cursor; [reflexivity|reflexivity|reflexivity|reflexivity|reflexivity|]. repeat constructor.
  - constructor; [|constructor; [|constructor]]; (eexists; split; [reflexivity|vm_compute; not_in]).
  - repeat constructor; try (vm_compute; not_in); vm_compute; discriminate.
  - cbn. lia.
Defined.

(** ** What modelling showed *)

(** Where there is no cursor the functions on collections go through a null pointer;
    those on indexes list nothing. *)
Lemma no_cursor {C} `{Client C} malloc turns lazy query fuel db filter ns options (s s' : C) :
  (forall ns q a b c d, query ns q a b c d s = (s', Ret None)) -> nsToDatabase ns = Ret db ->
  (exists c, nsToCollectionSubstring ns = Ret c) -> (exists c d, ns_coll (NamespaceString_of ns) = Ret c /\ getCommandNS (NamespaceString_of ns) = Ret d) ->
  getCollectionNames malloc turns lazy query fuel db filter s = (s', Throw EUndefined) /\
  getCollectionInfos malloc turns lazy query fuel db filter s = (s', Throw EUndefined) /\
  collection_exists malloc turns lazy query ns s = (s', Throw EUndefined) /\
  getIndexNames malloc turns lazy query fuel ns options s = (s', Ret []).
Proof.
  intros Hq Hdb [c Hc] (c' & d & Hc' & Hd).
  assert (forall f, enumerateCollections malloc lazy query db f 0 s = (s', Ret None)) as He
    by (intros f; unfold enumerateCollections; by erewrite (st_bind_run (query _ _ _ _ _ _)) by apply Hq).
  unfold getCollectionNames, getCollectionInfos, collection_exists. rewrite !(st_bind_run _ _ _ _ _ (He _)). rewrite Hc, Hdb, !st_bind_lift.
  rewrite (st_bind_run _ _ _ _ _ (He _)). do 3 (split; [reflexivity|]).
  assert (enumerateIndexes malloc lazy query ns options 0 s = (s', Ret None)) as Hi
    by (unfold enumerateIndexes; cbv zeta; rewrite Hc', Hd, !st_bind_lift; by erewrite (st_bind_run (query _ _ _ _ _ _)) by apply Hq).
  unfold getIndexNames. by rewrite (st_bind_run _ _ _ _ _ Hi).
Qed.
(** An old server names the collections with their database. *)
Lemma transformLegacy_runs :
  let t ns := transformLegacyCollectionInfos (encode_obj [(B "name", VString ns); (B "options", VNumberInt 1)]) empty_object in
  t (B "db.a.b") = Ret (true, encode_obj [(B "name", VString (B "a.b")); (B "options", VNumberInt 1)]) /\
  t (B "db.a.$_id_") = Ret (false, empty_object) /\
  t (B "db") = Ret (true, encode_obj [(B "name", VString (B "db")); (B "options", VNumberInt 1)]).
Proof. repeat split; vm_compute; reflexivity. Qed.

(** After the factory has failed for one cursor of a scan, that cursor and those behind it
    are closed at the server, all but the last of them. *)
Definition kill_each {C} `{Client C} malloc lazy ns (ids : list Z) : ST C unit :=
  foldr (fun i m => killOnServer malloc lazy ns i;; m) (mret tt) ids.
Lemma kill_rest_all_but_last {C} `{Client C} malloc lazy ns l ids : Forall2 (fun e i => scan_id e = Ret i) l ids ->
  forall first (s : C), kill_rest malloc lazy ns first l s = kill_each malloc lazy ns (removelast (first :: ids)) s.
Proof.
  induction 1 as [|e i l ids He Hl IH]; intros first s; [reflexivity|]. cbn [kill_rest]. rewrite He.
  change (removelast (first :: i :: ids)) with (first :: removelast (i :: ids)). cbn [kill_each foldr].
  unfold mbind, ST_bind. destruct (killOnServer malloc lazy ns first s) as [s1 [u|e']]; [apply IH|reflexivity].
Qed.
Definition scan_entry (id : Z) : BSONElement := (B "0", VObject [(B "cursor", VObject [(B "id", VNumberLong id)])]).
Lemma last_scan_cursor_left :
  let run (failing : bool) (open : Z) :=
    (scan_loop toy_malloc true (fun s : ToyServer => (s, if failing then Throw ESocket else Ret tt)) (B "db.c") [scan_entry 7; scan_entry 8] (mkToy [] (Some (open, [])))).1 in
  toy_open (run true 7) = None /\ toy_open (run true 8) = Some (8, []).
Proof. split; vm_compute; reflexivity. Qed.
