(* ===== verification/Connection.v ===== *)
(** * One connection: [DBClientConnection] of client/dbclientinterface.h and
    client/dbclient.cpp, and the login of [DBClientWithCommands]

    The port, the resolver, the clock and the random device are the class [Net].  A call
    on a connection that has failed reconnects first, with commands that are calls
    themselves: [checkConnection] is given how deep that may go.  Built without SSL. *)
From S2P Require Import Prelude StringData HostAndPort ParseNumber BsonTypes BufBuilder Bson BsonCompare BsonObj TimeSupport RSState.
From S2P Require Import WriteResult Message MessagePort Cursor Query Md5 BsonExtract Commands Sasl.
Local Open Scope Z_scope.

(** [net_address]: the address a [SockAddr] resolves to, when it is valid.  [net_new] makes
    a new port in the place of the one before, [net_connect] connects it.  [net_isntMaster]
    is the callback of the replica set the connection belongs to, [net_postHook] that of
    a command. *)
Class Net (N : Type) := {
  net_address : bytes -> Z -> ST N (option bytes);
  net_new : ST N unit;
  net_connect : ST N bool;
  net_call : Message -> ST N (Message * bool);
  net_recv : ST N (Message * bool);
  net_say : Message -> ST N unit;
  net_piggyBack : Message -> ST N unit;
  net_now : ST N Z;
  net_sleep : Z -> ST N unit;
  net_random : ST N (Z * Z * Z);
  net_isntMaster : ST N unit;
  net_postHook : BSONObj -> bytes -> ST N unit }.

Record Conn (N : Type) := mkConn {
  k_net : N;
  k_inSet : bool;
  k_port : bool;
  k_failed : bool;
  k_autoReconnect : bool;
  k_backoff : Backoff;
  k_server : HostAndPort;
  k_serverString : bytes;
  k_serverAddrString : bytes;
  k_authCache : list (bytes * BSONObj);
  k_limits : Z * Z * Z * Z * Z;
  k_options : option Z;
  k_runCommandHook : option (BSONObj -> BSONObj);
  k_postHook : bool }.
Arguments mkConn {N}. Arguments k_net {N}. Arguments k_inSet {N}. Arguments k_port {N}. Arguments k_failed {N}.
Arguments k_autoReconnect {N}. Arguments k_backoff {N}. Arguments k_server {N}. Arguments k_serverString {N}.
Arguments k_serverAddrString {N}. Arguments k_authCache {N}. Arguments k_limits {N}. Arguments k_options {N}.
Arguments k_runCommandHook {N}. Arguments k_postHook {N}.

Section Connection.
Context {N : Type} `{Net N} `{Crypto} (malloc : Z -> bytes) (turns : nat).
(** The bytes of uninitialised buffers. *)
Context (stack garbage : bytes).
Abbreviation K := (ST (Conn N)).

Definition set_k_net (x : N) (c : Conn N) := mkConn x (k_inSet c) (k_port c) (k_failed c) (k_autoReconnect c) (k_backoff c) (k_server c) (k_serverString c) (k_serverAddrString c) (k_authCache c) (k_limits c) (k_options c) (k_runCommandHook c) (k_postHook c).
Definition set_k_inSet (x : bool) (c : Conn N) := mkConn (k_net c) x (k_port c) (k_failed c) (k_autoReconnect c) (k_backoff c) (k_server c) (k_serverString c) (k_serverAddrString c) (k_authCache c) (k_limits c) (k_options c) (k_runCommandHook c) (k_postHook c).
Definition set_k_port (x : bool) (c : Conn N) := mkConn (k_net c) (k_inSet c) x (k_failed c) (k_autoReconnect c) (k_backoff c) (k_server c) (k_serverString c) (k_serverAddrString c) (k_authCache c) (k_limits c) (k_options c) (k_runCommandHook c) (k_postHook c).
Definition set_k_failed (x : bool) (c : Conn N) := mkConn (k_net c) (k_inSet c) (k_port c) x (k_autoReconnect c) (k_backoff c) (k_server c) (k_serverString c) (k_serverAddrString c) (k_authCache c) (k_limits c) (k_options c) (k_runCommandHook c) (k_postHook c).
Definition set_k_backoff (x : Backoff) (c : Conn N) := mkConn (k_net c) (k_inSet c) (k_port c) (k_failed c) (k_autoReconnect c) x (k_server c) (k_serverString c) (k_serverAddrString c) (k_authCache c) (k_limits c) (k_options c) (k_runCommandHook c) (k_postHook c).
Definition set_k_server (h : HostAndPort) (x : bytes) (c : Conn N) := mkConn (k_net c) (k_inSet c) (k_port c) (k_failed c) (k_autoReconnect c) (k_backoff c) h x (k_serverAddrString c) (k_authCache c) (k_limits c) (k_options c) (k_runCommandHook c) (k_postHook c).
Definition set_k_addr (x : bytes) (c : Conn N) := mkConn (k_net c) (k_inSet c) (k_port c) (k_failed c) (k_autoReconnect c) (k_backoff c) (k_server c) (k_serverString c) x (k_authCache c) (k_limits c) (k_options c) (k_runCommandHook c) (k_postHook c).
Definition set_k_authCache (x : list (bytes * BSONObj)) (c : Conn N) := mkConn (k_net c) (k_inSet c) (k_port c) (k_failed c) (k_autoReconnect c) (k_backoff c) (k_server c) (k_serverString c) (k_serverAddrString c) x (k_limits c) (k_options c) (k_runCommandHook c) (k_postHook c).
Definition set_k_limits (x : Z * Z * Z * Z * Z) (c : Conn N) := mkConn (k_net c) (k_inSet c) (k_port c) (k_failed c) (k_autoReconnect c) (k_backoff c) (k_server c) (k_serverString c) (k_serverAddrString c) (k_authCache c) x (k_options c) (k_runCommandHook c) (k_postHook c).
Definition set_k_options (x : option Z) (c : Conn N) := mkConn (k_net c) (k_inSet c) (k_port c) (k_failed c) (k_autoReconnect c) (k_backoff c) (k_server c) (k_serverString c) (k_serverAddrString c) (k_authCache c) (k_limits c) x (k_runCommandHook c) (k_postHook c).
Definition set_k_hooks (x : option (BSONObj -> BSONObj)) (y : bool) (c : Conn N) := mkConn (k_net c) (k_inSet c) (k_port c) (k_failed c) (k_autoReconnect c) (k_backoff c) (k_server c) (k_serverString c) (k_serverAddrString c) (k_authCache c) (k_limits c) (k_options c) x y.

Definition on_net {A} (m : ST N A) : K A := fun c => let '(n, r) := m (k_net c) in (set_k_net n c, r).
Definition k_catch {A} (p : exn -> bool) (m : K A) (h : exn -> K A) : K A := fun c =>
  let '(c, r) := m c in match r with Throw e => if p e then h e c else (c, Throw e) | Ret a => (c, Ret a) end.
Definition is_socket (e : exn) : bool := match e with ESocket => true | _ => false end.
Definition is_code (code : Z) (e : exn) : bool := match e with EUassert c => c =? code | _ => false end.

(** The limits a server states: the size of an object and of a message, the number of
    operations, the range of the protocol. *)
Definition default_limits : Z * Z * Z * Z * Z := (16 * 1024 * 1024, 2 * (16 * 1024 * 1024), 1000, 0, 0).
Definition DBClientConnection_ctor (net : N) (autoReconnect inSet : bool) : M (Conn N) :=
  b ← Backoff_ctor 1000 2000;
  Ret (mkConn net inSet false false autoReconnect b HostAndPort_default [] [] [] default_limits None None false).
Definition maxWireVersion (c : Conn N) : Z := c.(k_limits).2.
Definition with_port {A} (m : ST N A) : K A := c ← st_get; st_lift (verify (k_port c));; on_net m.
Definition conn_toString (c : Conn N) : bytes :=
  k_serverString c ++ (if bool_decide (k_serverAddrString c = []) then [] else B " (" ++ k_serverAddrString c ++ B ")")
  ++ (if k_failed c then B " failed" else []).

(** ** Messages *)

Section Level.
(** [checkConnection] for what a call does first. *)
Context (check : K unit).
(** A call that finds the connection broken marks it. *)
Definition mark_on {A} (m : K A) : K A := k_catch is_socket m (fun e => st_update (set_k_failed true);; st_lift (Throw e)).
Definition conn_say (toSend : Message) : K unit := check;; mark_on (with_port (net_say toSend)).
Definition conn_sayPiggyBack (toSend : Message) : K unit := with_port (net_piggyBack toSend).
Definition conn_recv : K (Message * bool) :=
  '(m, ok) ← with_port net_recv;
  if (ok : bool) then mret (m, true) else st_update (set_k_failed true);; mret (m, false).
Definition conn_call (assertOk : bool) (toSend : Message) : K (Message * bool) :=
  check;;
  mark_on ('(m, ok) ← with_port (net_call toSend);
           if (ok : bool) then mret (m, true)
           else st_update (set_k_failed true);; (if assertOk then st_lift (Throw (EUassert 10278)) else mret (m, false))).
Definition conn_checkResponse (data : bytes) (nReturned : Z) : K (bool * bytes) :=
  c ← st_get;
  (if k_inSet c && negb (nReturned =? 0) then
     o ← st_lift (BSONObj_at data); e ← st_lift (getErrField o);
     if isNotMasterErrorString e then on_net net_isntMaster else mret tt
   else mret tt);;
  mret (false, k_serverString c).

(** ** Commands *)

(** What the cursor of a query needs; it runs no command. *)
Definition query_ops : Client (Conn N) := {|
  client_call := conn_call false; client_recv := conn_recv; client_say := conn_say; client_sayPiggyBack := conn_sayPiggyBack;
  client_checkResponse := conn_checkResponse; client_runCommand := fun _ _ _ => st_lift (Throw EUndefined) |}.
(** [findOne]: the first thing [query] does is to check the connection. *)
Definition conn_findOne (ns query : bytes) (queryOptions : Z) : K bytes :=
  check;; findOne (H := query_ops) malloc turns true ns query None queryOptions.
Definition base_runCommand (dbname : bytes) (cmd : BSONObj) (options : Z) : K (bool * BSONObj) :=
  c ← st_get;
  let cmd := match k_runCommandHook c with Some f => f cmd | None => cmd end in
  o ← conn_findOne (dbname ++ B ".$cmd") (encode_obj cmd) options;
  info ← st_lift (parsed o);
  c ← st_get;
  (if k_postHook c then on_net (net_postHook info (k_serverString c)) else mret tt);;
  mret (isOk info, info).
Definition conn_runCommand (dbname : bytes) (cmd : BSONObj) (options : Z) : K (bool * BSONObj) :=
  '(ok, info) ← base_runCommand dbname cmd options;
  c ← st_get;
  (if negb ok && k_inSet c && isNotMasterErrorString (getField info (B "errmsg")) then on_net net_isntMaster else mret tt);;
  mret (ok, info).

(** [SE] and [ST]: no command here answers with an [OperationException]. *)
Definition to_SE {A} (m : K A) : SE (Conn N) A := fun c => let '(c, r) := m c in (c, lift_exn r).
Definition from_SE {A} (m : SE (Conn N) A) : K A := fun c =>
  let '(c, r) := m c in
  (c, match r with Ret a => Ret a | Throw (OtherException e) => Throw e | Throw (OperationException _) => Throw EUndefined end).
Definition command_ops : DBOps (Conn N) := {|
  run_command db cmd options := to_SE (conn_runCommand db cmd options);
  db_insert _ _ := mret tt; db_update _ _ _ _ _ := mret tt; db_remove _ _ := mret tt; db_findOne _ _ _ := mret [] |}.

(** ** The login *)

Definition uassertStatusOK (s : Status) : K unit := match s with OK => mret tt | Err code _ => st_lift (Throw (EUassert (status_code code))) end.
Definition string_param (params : BSONObj) (name : bytes) : K bytes :=
  let '(status, v) := bsonExtractStringField params name [] in uassertStatusOK status;; mret v.
Definition Int_checked (e : BSONElement) : M Z := match e.2 with VNumberInt n => Ret n | _ => Throw (EMassert 13111) end.
Definition _authMongoCR (dbname username password_text : bytes) (digestPassword : bool) : K (bool * BSONObj) :=
  password ← st_lift (if digestPassword then createPasswordDigest stack username password_text else Ret password_text);
  '(ok, info) ← conn_runCommand dbname [(B "getnonce", VNumberInt 1)] 0;
  if negb ok then mret (false, info)
  else
    let e := getField info (B "nonce") in
    st_lift (verify (bool_decide (element_type e = String_)));;
    nonce ← st_lift (valuestr e);
    d ← st_lift (st ← md5_append (md5_init stack) nonce; st ← md5_append st username; st ← md5_append st password; md5_finish st);
    conn_runCommand dbname [(B "authenticate", VNumberInt 1); (B "nonce", VString nonce); (B "user", VString username);
      (B "key", VString (digestToString d))] 0.
Definition base_auth (params : BSONObj) : K unit :=
  mechanism ← string_param params (B "mechanism");
  st_lift (uassert 17232 (negb (hasField params (B "db") && hasField params (B "userSource"))));;
  if bool_decide (mechanism = B "MONGODB-CR") then
    db ← string_param params (if hasField params (B "userSource") then B "userSource" else B "db");
    user ← string_param params (B "user");
    password ← string_param params (B "pwd");
    let '(status, digestPassword) := bsonExtractBooleanFieldWithDefault params (B "digestPassword") true false in
    uassertStatusOK status;;
    st_lift (uassert (status_code AuthenticationFailed) (negb (hasField params (B "mechanism_properties"))));;
    '(ok, result) ← _authMongoCR db user password digestPassword;
    if (ok : bool) then mret tt
    else code ← st_lift (Int_checked (getField result (B "code"))); st_lift (Throw (EUassert code))
  else
    c ← st_get;
    sr ← (if bool_decide (mechanism = B "SCRAM-SHA-1") then on_net net_random else mret (0, 0, 0));
    status ← from_SE (saslClientAuthenticateImpl (H := command_ops) stack garbage sr (k_serverString c) 4 params);
    match status with Some s => uassertStatusOK s | None => st_lift (Throw EUndefined) end.
(** The parameters are kept before they are tried. *)
Definition conn_auth (params : BSONObj) : K unit :=
  c ← st_get;
  (if k_autoReconnect c then st_update (set_k_authCache (map_assign (str (getField params (B "db"))) params (k_authCache c))) else mret tt);;
  base_auth params.
Definition auth_password (dbname username password_text : bytes) (digestPassword : bool) : K bool :=
  c ← st_get;
  let mech := if 3 <=? maxWireVersion c then B "SCRAM-SHA-1" else B "MONGODB-CR" in
  k_catch (is_code (status_code AuthenticationFailed))
    (conn_auth [(B "mechanism", VString mech); (B "db", VString dbname); (B "user", VString username); (B "pwd", VString password_text);
       (B "digestPassword", IndexSpec.bool_value digestPassword)];; mret true)
    (fun _ => mret false).
Definition conn_logout (dbname : bytes) : K BSONObj :=
  st_update (fun c => set_k_authCache (filter (fun a => a.1 <> dbname) (k_authCache c)) c);;
  '(_, info) ← conn_runCommand dbname [(B "logout", VNumberInt 1)] 0;
  mret info.

(** ** Connecting *)

Definition limit (info : BSONObj) (name : bytes) (now : Z) : K Z :=
  if hasField info name then st_lift (getIntField info name) else mret now.
(** Whether it worked; the text of the error is left out. *)
Definition _connect : K bool :=
  c ← st_get;
  st_update (set_k_server (k_server c) (HostAndPort_toString (k_server c)));;
  st_update (set_k_addr []);;
  let host := c_string (_host (k_server c)) in
  a ← on_net (net_address host (HostAndPort_port (k_server c)));
  match a with
  | None => mret false
  | Some addr =>
      on_net net_new;;
      st_update (set_k_port true);;
      if bool_decide (_host (k_server c) = []) then mret false
      else
        st_update (set_k_addr addr);;
        if bool_decide (addr = B "0.0.0.0") then mret false
        else
          ok ← on_net net_connect;
          if negb ok then st_update (set_k_failed true);; mret false
          else
            '(worked, info) ← conn_runCommand (B "admin") [(B "ismaster", VNumberInt 1)] 0;
            (if (worked : bool) then
               c ← st_get;
               let '(a, b, d, e, f) := k_limits c in
               a ← limit info (B "maxBsonObjectSize") a; b ← limit info (B "maxMessageSizeBytes") b; d ← limit info (B "maxWriteBatchSize") d;
               e ← limit info (B "minWireVersion") e; f ← limit info (B "maxWireVersion") f;
               st_update (set_k_limits (a, b, d, e, f))
             else mret tt);;
            mret worked
  end.
Definition conn_connect (server : HostAndPort) : K bool :=
  st_update (set_k_server server (HostAndPort_toString server));; _connect.
(** The cached logins, in the order of their databases; a refused one is skipped.  The
    code's iterator goes over the map while [_auth] assigns to its keys: the entries do
    not change. *)
Fixpoint reauthenticate (l : list (bytes * BSONObj)) : K unit :=
  match l with
  | [] => mret tt
  | (_, params) :: l =>
      k_catch (is_code (status_code AuthenticationFailed)) (conn_auth params) (fun _ => mret tt);;
      reauthenticate l
  end.
Definition _checkConnection : K unit :=
  c ← st_get;
  if negb (k_failed c) then mret tt
  else if negb (k_autoReconnect c) then st_lift (Throw ESocket)
  else
    now ← on_net net_now;
    '(b, ms) ← st_lift (nextSleepMillis (k_backoff c) now);
    st_update (set_k_backoff b);;
    on_net (net_sleep ms);;
    st_update (set_k_failed false);;
    ok ← _connect;
    if negb ok then st_update (set_k_failed true);; st_lift (Throw ESocket)
    else c ← st_get; reauthenticate (k_authCache c).
Definition availableOptions : K Z :=
  c ← st_get;
  match k_options c with
  | Some o => mret o
  | None =>
      '(ok, ret) ← conn_runCommand (B "admin") [(B "availablequeryoptions", VNumberInt 1)] 0;
      o ← st_lift (if (ok : bool) then getIntField ret (B "options") else Ret 0);
      st_update (set_k_options (Some o));; mret o
  end.
Definition conn_killCursor (lazyKillCursor : bool) (cursorId : Z) : K unit :=
  m ← st_lift (assembleKillCursors malloc cursorId Message_ctor);
  if lazyKillCursor then conn_sayPiggyBack m else conn_say m.
End Level.

(** A call checks the connection, and the reconnection calls: [depth] times. *)
Fixpoint checkConnection (depth : nat) : K unit :=
  match depth with O => c ← st_get; if k_failed c then st_lift (Throw EUndefined) else mret tt | S depth => _checkConnection (checkConnection depth) end.
End Connection.

(** ** A port that answers from a script, and what the code does with it *)

Inductive toy_event := Answer (reply : BSONObj) | Broken.
Record ToyNet := mkToyNet { tn_valid : bool; tn_up : bool; tn_script : list toy_event }.
Definition toy_answer (d : BSONObj) : M (Message * bool) := (Cursor.toy_reply 0 [d] 1 (mkToy [] None)).2.
#[local] Instance toy_net : Net ToyNet := {|
  net_address _ _ := fun n => (n, Ret (if tn_valid n then Some (B "127.0.0.1") else None));
  net_new := mret tt;
  net_connect := fun n => (n, Ret (tn_up n));
  net_call _ := fun n =>
    match tn_script n with
    | Answer d :: l => (mkToyNet (tn_valid n) (tn_up n) l, toy_answer d)
    | Broken :: l => (mkToyNet (tn_valid n) (tn_up n) l, Ret (Message_ctor, false))
    | [] => (n, Throw ESocket)
    end;
  net_recv := mret (Message_ctor, false); net_say _ := mret tt; net_piggyBack _ := mret tt;
  net_now := mret 1000; net_sleep _ := mret tt; net_random := mret (1, 2, 3);
  net_isntMaster := mret tt; net_postHook _ _ := mret tt |}.
#[local] Existing Instance toy_crypto.
Definition toy_check (depth : nat) : ST (Conn ToyNet) unit := checkConnection toy_malloc 1 toy_stack [] depth.
Definition toy_run (depth : nat) (db : bytes) (cmd : BSONObj) := conn_runCommand toy_malloc 1 (toy_check depth) db cmd 0.
Definition toy_conn (valid up failed : bool) (cache : list (bytes * BSONObj)) (script : list toy_event) : Conn ToyNet :=
  mkConn (mkToyNet valid up script) false failed failed true (mkBackoff 1000 3000 0 0) (mkHostAndPort (B "db") 27017) (B "db:27017") [] cache
    default_limits None None false.
Definition ok_doc : BSONObj := [(B "ok", VNumberInt 1)].
Definition fail_doc (code : Z) : BSONObj := [(B "ok", VNumberInt 0); (B "code", VNumberInt code); (B "errmsg", VString (B "no"))].
Definition plain_login (db : bytes) : BSONObj :=
  [(B "mechanism", VString (B "PLAIN")); (B "db", VString db); (B "user", VString (B "u")); (B "pwd", VString (B "p"))].
Definition sasl_done : BSONObj := ok_doc ++ [(B "done", VBool (chr 1)); (B "conversationId", VNumberInt 1); (B "payload", VString [])].
Definition ping : BSONObj := [(B "ping", VNumberInt 1)].

(** A call on a connection that has failed connects again, asks who is there, logs in
    to each database, one refusal being no obstacle, and then is made. *)
Lemma call_reconnects :
  let c := toy_conn true true true [(B "a", plain_login (B "a")); (B "b", plain_login (B "b"))]
    (Answer <$> [ok_doc; fail_doc 18; sasl_done; ok_doc]) in
  exists c', toy_run 2 (B "x") ping c = (c', Ret (true, ok_doc)) /\ k_failed c' = false /\ tn_script (k_net c') = [].
Proof. eexists. split; [vm_compute; reflexivity|]. split; reflexivity. Qed.
(** The reconnection goes one level deep: with more the outcome is the same. *)
Lemma call_reconnects_depth :
  let c := toy_conn true true true [(B "a", plain_login (B "a")); (B "b", plain_login (B "b"))]
    (Answer <$> [ok_doc; fail_doc 18; sasl_done; ok_doc]) in
  toy_run 5 (B "x") ping c = toy_run 2 (B "x") ping c.
Proof. vm_compute. reflexivity. Qed.
(** A port that breaks during the login leaves the connection marked. *)
Lemma login_breaks :
  let c := toy_conn true true true [(B "a", plain_login (B "a"))] [Answer ok_doc; Broken] in
  exists c', toy_check 2 c = (c', Throw (EUassert 10276)) /\ k_failed c' = true.
Proof. eexists. split; [vm_compute; reflexivity|reflexivity]. Qed.
(** Another error of a login than a refusal ends the reconnection, and the connection is
    not marked: the next command is run without the logins that were left. *)
Lemma login_left_out :
  let c := toy_conn true true true [(B "a", plain_login (B "a")); (B "b", plain_login (B "b"))]
    (Answer <$> [ok_doc; fail_doc 13; ok_doc]) in
  exists c', toy_run 2 (B "x") ping c = (c', Throw (EUassert 13)) /\ k_failed c' = false /\ tn_script (k_net c') = [Answer ok_doc] /\
    (toy_run 2 (B "x") ping c').2 = Ret (true, ok_doc).
Proof. eexists. split; [vm_compute; reflexivity|]. split; [reflexivity|]. split; [reflexivity|]. vm_compute. reflexivity. Qed.
(** A server that cannot be resolved: [connect] says no, the connection is not marked,
    and a call fails an assertion instead of connecting. *)
Lemma connect_not_marked :
  let c := set_k_port false (toy_conn false true false [] []) in
  exists c', conn_connect toy_malloc 1 (toy_check 2) (mkHostAndPort (B "nowhere") 27017) c = (c', Ret false) /\ k_failed c' = false /\
    (toy_run 2 (B "x") ping c').2 = Throw EVerify.
Proof. eexists. split; [vm_compute; reflexivity|]. split; [reflexivity|]. vm_compute. reflexivity. Qed.
(** Logins that name their database by userSource share one place in the cache. *)
Definition source_login (db : bytes) : BSONObj :=
  [(B "mechanism", VString (B "MONGODB-CR")); (B "userSource", VString db); (B "user", VString (B "u")); (B "pwd", VString (B "p"))].
Lemma userSource_forgotten :
  let nonce := ok_doc ++ [(B "nonce", VString (B "n"))] in
  let c := toy_conn true true false [] (Answer <$> [nonce; ok_doc; nonce; ok_doc]) in
  let c := set_k_port true c in
  exists c1 c2, conn_auth toy_malloc 1 toy_stack [] (toy_check 2) (source_login (B "a")) c = (c1, Ret tt) /\
    conn_auth toy_malloc 1 toy_stack [] (toy_check 2) (source_login (B "b")) c1 = (c2, Ret tt) /\ k_authCache c2 = [([], source_login (B "b"))].
Proof. do 2 eexists. split; [vm_compute; reflexivity|]. split; [vm_compute; reflexivity|]. reflexivity. Qed.
(** A server that gives no code with its refusal of MONGODB-CR ends the login with an
    error about the type of the code. *)
Lemma no_code_no_refusal :
  let nonce := ok_doc ++ [(B "nonce", VString (B "n"))] in
  let c := set_k_port true (toy_conn true true false [] (Answer <$> [nonce; [(B "ok", VNumberInt 0); (B "errmsg", VString (B "auth fails"))]])) in
  (auth_password toy_malloc 1 toy_stack [] (toy_check 2) (B "a") (B "u") (B "p") true c).2 = Throw (EMassert 13111).
Proof. vm_compute. reflexivity. Qed.

(** ** When the connection is checked *)

Section Check.
Context {N : Type} `{Net N} `{Crypto} (malloc : Z -> bytes) (turns : nat) (stack garbage : bytes).
Abbreviation check depth := (checkConnection malloc turns stack garbage depth).
Lemma check_working depth c : k_failed c = false -> check depth c = (c, Ret tt).
Proof. intros Hc. destruct depth; cbn [checkConnection]; unfold _checkConnection, mbind, ST_bind, st_get; rewrite Hc; reflexivity. Qed.
(** Without reconnection a broken connection stays broken. *)
Lemma check_broken depth c : k_failed c = true -> k_autoReconnect c = false -> check (S depth) c = (c, Throw ESocket).
Proof. intros Hc Ha. cbn [checkConnection]. unfold _checkConnection, mbind, ST_bind, st_get. rewrite Hc. cbn [negb]. by rewrite Ha. Qed.
(** The logins of a list, each accepted or refused. *)
Inductive logged_in (ck : ST (Conn N) unit) : list (bytes * BSONObj) -> Conn N -> Conn N -> Prop :=
  | logged_nil c : logged_in ck [] c c
  | logged_accepted k p l c c1 c2 : conn_auth malloc turns stack garbage ck p c = (c1, Ret tt) -> logged_in ck l c1 c2 -> logged_in ck ((k, p) :: l) c c2
  | logged_refused k p l c c1 c2 : conn_auth malloc turns stack garbage ck p c = (c1, Throw (EUassert (status_code AuthenticationFailed))) ->
      logged_in ck l c1 c2 -> logged_in ck ((k, p) :: l) c c2.
Lemma reauthenticate_cons ck k p l c : reauthenticate malloc turns stack garbage ck ((k, p) :: l) c =
  match conn_auth malloc turns stack garbage ck p c with
  | (c1, Ret _) => reauthenticate malloc turns stack garbage ck l c1
  | (c1, Throw e) => if is_code (status_code AuthenticationFailed) e then reauthenticate malloc turns stack garbage ck l c1 else (c1, Throw e)
  end.
Proof.
  cbn [reauthenticate]. unfold mbind, ST_bind, k_catch. destruct (conn_auth malloc turns stack garbage ck p c) as [c1 [u|e]]; [reflexivity|].
  by destruct (is_code _ e).
Qed.
Lemma reauthenticate_logs ck l : forall c c', reauthenticate malloc turns stack garbage ck l c = (c', Ret tt) <-> logged_in ck l c c'.
Proof.
  induction l as [|[k p] l IH]; intros c c'.
  - split; [intros E; injection E as ->; constructor|inversion 1; reflexivity].
  - rewrite reauthenticate_cons. destruct (conn_auth malloc turns stack garbage ck p c) as [c1 [[]|e]] eqn:Ea.
    + rewrite IH. split; [by econstructor|]. inversion 1; subst; congruence.
    + destruct (is_code (status_code AuthenticationFailed) e) eqn:Ec.
      * destruct e; try discriminate Ec. cbn in Ec. apply Z.eqb_eq in Ec as ->. rewrite IH. split; [by econstructor 3|]. inversion 1; subst; congruence.
      * split; [discriminate|]. inversion 1; subst; [congruence|]. assert (e = EUassert (status_code AuthenticationFailed)) as -> by congruence. discriminate Ec.
Qed.
(** A broken connection that the check lets pass has been connected, and every login in
    the cache has been tried on it. *)
Lemma check_reconnects depth c c' : k_failed c = true -> check (S depth) c = (c', Ret tt) ->
  k_autoReconnect c = true /\ exists c1 c2, k_failed c1 = false /\ k_authCache c1 = k_authCache c /\
    _connect malloc turns (check depth) c1 = (c2, Ret true) /\ logged_in (check depth) (k_authCache c2) c2 c'.
Proof.
  intros Hc. cbn [checkConnection]. unfold _checkConnection. unfold mbind at 1, ST_bind at 1, st_get at 1. rewrite Hc. cbn [negb].
  destruct (k_autoReconnect c) eqn:Ha; cbn [negb]; [|discriminate]. intros E. split; [reflexivity|]. unfold mbind, ST_bind in E.
  unfold on_net in E. destruct (net_now (k_net c)) as [n1 [now|e]]; [|discriminate E]. unfold st_lift at 1 in E.
  destruct (nextSleepMillis (k_backoff c) now) as [[b ms]|e]; [|discriminate E]. unfold st_update at 1 in E. cbn [k_net set_k_net set_k_backoff] in E.
  destruct (net_sleep ms n1) as [n2 [u|e]]; [|discriminate E]. unfold st_update at 1 in E.
  match type of E with context [_connect _ _ _ ?x] => set (c1 := x) in * end. exists c1.
  destruct (_connect malloc turns (check depth) c1) as [c2 [[|]|e]] eqn:Ek; cbn [negb] in E; [|discriminate E|discriminate E].
  exists c2. split; [reflexivity|]. split; [reflexivity|]. split; [reflexivity|]. apply reauthenticate_logs. exact E.
Qed.
(** What comes before a call on a broken connection. *)
Definition reconnected depth (c c' : Conn N) : Prop :=
  k_failed c = true /\ k_autoReconnect c = true /\ exists c1 c2, k_failed c1 = false /\ k_authCache c1 = k_authCache c /\
    _connect malloc turns (check depth) c1 = (c2, Ret true) /\ logged_in (check depth) (k_authCache c2) c2 c'.
Lemma check_lets_pass depth c c1 : check (S depth) c = (c1, Ret tt) -> k_failed c = false /\ c1 = c \/ reconnected depth c c1.
Proof.
  intros Hck. destruct (k_failed c) eqn:Hf.
  - right. destruct (check_reconnects _ _ _ Hf Hck) as (Ha & x & y & H1 & H2 & H3 & H4). split; [exact Hf|]. split; [exact Ha|].
    exists x, y. split; [exact H1|]. split; [exact H2|]. split; [exact H3|exact H4].
  - left. rewrite check_working in Hck by exact Hf. injection Hck as <-. done.
Qed.
(** The call proper: what the port does with the message, the mark it leaves on the
    connection, and the answer. *)
Definition call_outcome (assertOk : bool) msg (c c' : Conn N) (r : M (Message * bool)) : Prop :=
  if k_port c then
    let '(n, o) := net_call msg (k_net c) in
    match o with
    | Ret (m, true) => c' = set_k_net n c /\ r = Ret (m, true)
    | Ret (m, false) => c' = set_k_failed true (set_k_net n c) /\ r = (if assertOk then Throw (EUassert 10278) else Ret (m, false))
    | Throw ESocket => c' = set_k_failed true (set_k_net n c) /\ r = Throw ESocket
    | Throw e => c' = set_k_net n c /\ r = Throw e
    end
  else c' = c /\ r = Throw EVerify.
Lemma call_sends (assertOk : bool) msg (c c' : Conn N) r : conn_call (mret tt) assertOk msg c = (c', r) ->
  call_outcome assertOk msg c c' r.
Proof.
  unfold conn_call, call_outcome, mark_on, k_catch, with_port, mbind, ST_bind, mret, ST_ret, st_get, st_update, st_lift, on_net, verify, guard_throw.
  destruct (k_port c) eqn:Hp; [|by intros [= <- <-]].
  destruct (net_call msg (k_net c)) as [n [[m ok]|e]] eqn:En.
  - by destruct ok; [|destruct assertOk]; cbn [is_socket]; intros [= <- <-].
  - by destruct e; cbn [is_socket]; intros [= <- <-].
Qed.
End Check.

(** C12: A call goes out on a working connection only: one that has not failed, or one
    that reconnects by itself, has been connected again, and on which every login in the
    cache has then been tried in the order of the databases, each accepted or refused;
    on another the check's error is the call's.  The answer is the port's.  Every call
    without an answer leaves the connection marked: when the port says so, whether that
    is then reported or thrown as 10278, and when the socket throws; any other call leaves
    the mark as it was. *)
Theorem call_reconnects_first {N : Type} `{Net N} `{Crypto} malloc turns stack garbage depth assertOk msg (c c' : Conn N) r :
  conn_call (checkConnection malloc turns stack garbage (S depth)) assertOk msg c = (c', r) ->
  (exists c1,
    (k_failed c = false /\ c1 = c \/ reconnected malloc turns stack garbage depth c c1) /\
    call_outcome assertOk msg c1 c' r) \/
  (k_failed c = true /\ exists e, checkConnection malloc turns stack garbage (S depth) c = (c', Throw e) /\ r = Throw e).
Proof.
  intros E. assert (conn_call (checkConnection malloc turns stack garbage (S depth)) assertOk msg c =
    match checkConnection malloc turns stack garbage (S depth) c with
    | (c1, Ret tt) => conn_call (mret tt) assertOk msg c1 | (c1, Throw e) => (c1, Throw e) end) as Heq.
  { unfold conn_call at 1. unfold mbind at 1, ST_bind at 1. by destruct (checkConnection _ _ _ _ _ c) as [c1 [[]|e]]. }
  rewrite Heq in E. clear Heq. destruct (checkConnection malloc turns stack garbage (S depth) c) as [c1 [[]|e]] eqn:Eck.
  - left. exists c1. split; [by apply check_lets_pass|by apply call_sends].
  - injection E as <- <-. right. split; [|by exists e]. destruct (k_failed c) eqn:Hf; [done|].
    rewrite check_working in Eck by exact Hf. discriminate Eck.
Qed.
Lemma call_reconnects_first_witness :
  let c := toy_conn true true true [(B "a", plain_login (B "a"))] (Answer <$> [ok_doc; fail_doc 18; ping]) in
  exists c' m c1, (conn_call (toy_check 2) true (Message_ctor) c) = (c', Ret (m, true)) /\
    reconnected toy_malloc 1 toy_stack [] 1 c c1 /\ call_outcome true Message_ctor c1 c' (Ret (m, true)).
Proof.
  intros c. assert (exists c' m, conn_call (toy_check 2) true (Message_ctor) c = (c', Ret (m, true))) as (c' & m & E)
    by (do 2 eexists; vm_compute; reflexivity).
  destruct (call_reconnects_first toy_malloc 1 toy_stack [] 1 true Message_ctor c c' _ E)
    as [(c1 & [[Hf _]|Hc1] & Ho)|(_ & e & _ & He)]; [discriminate Hf| |discriminate He].
  exists c', m, c1. split; [exact E|]. split; [exact Hc1|exact Ho].
Defined.
