(* ===== verification/BsonStream.v ===== *)
(** * Building documents by streaming: bson/bsonmisc.h, bson/bsonmisc.cpp, bson/bsonobjbuilder.h

    [BSON( "a" << GT << 1 << LT << 5 << "b" << 2 )]: the stream inside a builder keeps the
    name it was given last and, after a label, a builder of its own for the object of the
    labels, which is appended at the next name or at the end.  The name is kept by its
    address: here, as for the code, it must not be changed or freed before it is used. *)
From S2P Require Import Prelude StringData ParseNumber BsonTypes BufBuilder Bson BsonBuilder BsonCompare BsonObj CLib.
Local Open Scope Z_scope.

Record StreamBuilder := mkStreamBuilder { sb_builder : BSONObjBuilder; _fieldName : option bytes; _subobj : option BSONObjBuilder }.

(** The name as a [StringData]: without one, it is null and empty. *)
Definition field_name (s : StreamBuilder) : bytes := default [] (_fieldName s).
(** Comparison with null is comparison with the empty text. *)
Definition subobjStarted (s : StreamBuilder) : bool := negb (bool_decide (field_name s = [])).
Definition haveSubobj (s : StreamBuilder) : bool := bool_decide (is_Some (_subobj s)).
(** [holder_size]: the bytes of the reference count before a document that is owned. *)
Section Stream.
Context (holder_size : Z).

Definition StreamBuilder_ctor (initsize : Z) : M StreamBuilder :=
  b ← BSONObjBuilder_ctor holder_size initsize; Ret (mkStreamBuilder b None None).
Definition subobj (s : StreamBuilder) : M BSONObjBuilder :=
  match _subobj s with Some b => Ret b | None => BSONObjBuilder_ctor holder_size 512 end.
Definition endField (nextFieldName : option bytes) (s : StreamBuilder) : M StreamBuilder :=
  match _subobj s with
  | Some sub =>
    verify (bool_decide (is_Some (_fieldName s)));;
    '(_, o) ← BSONObjBuilder_done sub;
    b ← with_b (sb_builder s) (append_object (field_name s) o (_b (sb_builder s)));
    Ret (mkStreamBuilder b nextFieldName None)
  | None => Ret (mkStreamBuilder (sb_builder s) nextFieldName None)
  end.

(** [builder << name], [stream << value] with the append of the value's type, and
    [stream << element]. *)
Definition stream_name (name : bytes) (s : StreamBuilder) : M StreamBuilder := endField (Some name) s.
Definition stream_append (f : bytes -> BufBuilder -> M BufBuilder) (s : StreamBuilder) : M StreamBuilder :=
  b ← with_b (sb_builder s) (f (field_name s) (_b (sb_builder s)));
  Ret (mkStreamBuilder b None (_subobj s)).
Definition stream_value (v : bson_value) : StreamBuilder -> M StreamBuilder := stream_append (fun n => append_value n v).
Definition stream_element (e : BSONElement) : StreamBuilder -> M StreamBuilder := stream_append (appendAs e).
Definition stream_DATENOW (jsTime : Z) : StreamBuilder -> M StreamBuilder := stream_append (fun n => appendDate n jsTime).
Definition stream_BSONNULL : StreamBuilder -> M StreamBuilder := stream_append appendNull.
Definition stream_BSONUndefined : StreamBuilder -> M StreamBuilder := stream_append appendUndefined.
Definition stream_MINKEY : StreamBuilder -> M StreamBuilder := stream_append appendMinKey.
Definition stream_MAXKEY : StreamBuilder -> M StreamBuilder := stream_append appendMaxKey.

Definition GT := B "$gt".
Definition GTE := B "$gte".
Definition LT := B "$lt".
Definition LTE := B "$lte".
Definition NE := B "$ne".
Definition NIN := B "$nin".
Definition BSIZE := B "$size".
(** [stream << label << value]; after the first, the labels go through the builder. *)
Definition label_append (f : bytes -> BufBuilder -> M BufBuilder) (l : bytes) (s : StreamBuilder) : M StreamBuilder :=
  sub ← subobj s;
  sub ← with_b sub (f l (_b sub));
  Ret (mkStreamBuilder (sb_builder s) (_fieldName s) (Some sub)).
Definition label_value (l : bytes) (v : bson_value) : StreamBuilder -> M StreamBuilder := label_append (fun n => append_value n v) l.
Definition label_element (l : bytes) (e : BSONElement) : StreamBuilder -> M StreamBuilder := label_append (appendAs e) l.
Definition builder_label (l : bytes) (v : bson_value) (s : StreamBuilder) : M StreamBuilder :=
  massert 10336 (subobjStarted s);; label_value l v s.

(** [_done] ends the field first, so [done], [obj] and [asTempObj] do, too. *)
Definition stream_done_field (s : StreamBuilder) : M StreamBuilder :=
  if _doneCalled (sb_builder s) then Ret s else endField None s.
Definition stream_done (s : StreamBuilder) : M (StreamBuilder * bytes) :=
  s ← stream_done_field s;
  '(b, o) ← BSONObjBuilder_done (sb_builder s);
  Ret (mkStreamBuilder b (_fieldName s) (_subobj s), o).
Definition stream_obj (s : StreamBuilder) : M bytes :=
  s ← stream_done_field s; BSONObjBuilder_obj true (sb_builder s).
Definition stream_asTempObj (s : StreamBuilder) : M (StreamBuilder * bytes) :=
  s ← stream_done_field s;
  '(b, o) ← BSONObjBuilder_asTempObj (sb_builder s);
  Ret (mkStreamBuilder b (_fieldName s) (_subobj s), o).
(** The other appends of the builder do not touch the stream. *)
Definition builder_append (f : BufBuilder -> M BufBuilder) (s : StreamBuilder) : M StreamBuilder :=
  b ← with_b (sb_builder s) (f (_b (sb_builder s))); Ret (mkStreamBuilder b (_fieldName s) (_subobj s)).

(** *** What is written between the parentheses of [BSON] *)

Inductive clause :=
  | Value (name : bytes) (v : bson_value)                                   (* name << v *)
  | Labels (name : bytes) (first : BSONElement) (more : list BSONElement).  (* name << l << v << l << v ... *)
Definition clause_run (c : clause) (s : StreamBuilder) : M StreamBuilder :=
  match c with
  | Value name v => s ← stream_name name s; stream_value v s
  | Labels name (l, v) more =>
    s ← stream_name name s; s ← label_value l v s;
    foldl (fun m e => s ← m; builder_label e.1 e.2 s) (Ret s) more
  end.
Definition clauses_run (cs : list clause) (s : StreamBuilder) : M StreamBuilder := foldl (fun m c => s ← m; clause_run c s) (Ret s) cs.
Definition BSON (cs : list clause) : M bytes :=
  s ← StreamBuilder_ctor 64; s ← clauses_run cs s; stream_obj s.

(** *** Arrays *)

Record BSONArrayBuilder := mkArrayBuilder { _i : Z; ab : StreamBuilder }.
Definition BSONArrayBuilder_ctor : M BSONArrayBuilder := s ← StreamBuilder_ctor 512; Ret (mkArrayBuilder 0 s).
(** [num]: the next index as text. *)
Definition array_append (v : bson_value) (a : BSONArrayBuilder) : M BSONArrayBuilder :=
  s ← builder_append (append_value (print_int (_i a)) v) (ab a); Ret (mkArrayBuilder (_i a + 1) s).
Definition array_stream (v : bson_value) (a : BSONArrayBuilder) : M BSONArrayBuilder :=
  s ← stream_name (print_int (_i a)) (ab a); s ← stream_value v s; Ret (mkArrayBuilder (_i a + 1) s).
Definition BSON_ARRAY (vs : list bson_value) : M bytes :=
  a ← BSONArrayBuilder_ctor;
  a ← foldl (fun m v => a ← m; array_stream v a) (Ret a) vs;
  stream_obj (ab a).
(** [OR] of two to six documents. *)
Definition OR (docs : list BSONObj) : M bytes :=
  arr ← BSON_ARRAY (VObject <$> docs);
  s ← StreamBuilder_ctor 64; s ← stream_name (B "$or") s;
  s ← stream_append (fun n => appendArray n arr) s;
  stream_obj s.
End Stream.

(** *** The sizes of the last documents *)

Record BSONSizeTracker := mkTracker { _pos : nat; _sizes : list Z }.
Definition SIZE : nat := 10.
Definition BSONSizeTracker_ctor : BSONSizeTracker := mkTracker 0 (replicate SIZE 512).
Definition got (size : Z) (t : BSONSizeTracker) : BSONSizeTracker := mkTracker ((_pos t + 1) mod SIZE) (<[_pos t := size]> (_sizes t)).
Definition getSize (t : BSONSizeTracker) : Z := foldl (fun x s => if s >? x then s else x) 16 (_sizes t).

(** *** The same names in the same order *)

Fixpoint fieldsMatch (l r : BSONObj) : bool :=
  match l, r with
  | x :: l', y :: r' => if negb (strcmp x.1 y.1 =? 0) then false else fieldsMatch l' r'
  | [], [] => true
  | _, _ => false
  end.

(** ** Theorems *)

Section Facts.
Context (holder_size : Z) (holder_pos : 0 <= holder_size).

(** What fits: half of the limit of a buffer, with the room a builder starts with. *)
Definition room (body : bytes) : Prop := 2 * (holder_size + 512 + zlen body + 5) <= BufferMaxSize.
(** A builder of its own with the elements [body]. *)
Definition builder_at (b : BSONObjBuilder) (body : bytes) : Prop :=
  exists pre, started b pre body /\ zlen pre = holder_size /\ bb_reservedBytes (_b b) = 1.
(** A stream with the elements [body], and the labels of its last name that are still to
    be appended. *)
Definition stream_at (s : StreamBuilder) (body : bytes) (pend : option (bytes * BSONObj)) : Prop :=
  builder_at (sb_builder s) body /\
  match pend with
  | None => _subobj s = None
  | Some (n, o) => _fieldName s = Some n /\ nul ∉ n /\ appendable_obj o /\ exists sub, _subobj s = Some sub /\ builder_at sub (encode_elements o)
  end.
Definition pending (pend : option (bytes * BSONObj)) : bytes :=
  match pend with None => [] | Some (n, o) => encode_element (n, VObject o) end.

(** The labels of a name are looked at with [done], which checks their size. *)
Definition obj_fits (o : BSONObj) : bool := zlen (encode_obj o) <=? BSONObjMaxInternalSize.
Definition pend_ok (pend : option (bytes * BSONObj)) : bool :=
  match pend with None => true | Some (_, o) => obj_fits o end.
#[local] Strategy expand [pend_ok].

Lemma room_mono body body' : zlen body' <= zlen body -> room body -> room body'.
Proof. unfold room. lia. Qed.
Lemma room_app_l a b : room (a ++ b) -> room a.
Proof. apply room_mono. rewrite zlen_app. pose proof (zlen_nonneg b). lia. Qed.
Lemma room_pending body n o : room (body ++ encode_element (n, VObject o)) -> room (encode_elements o).
Proof.
  apply room_mono. rewrite zlen_app, zlen_encode_element. cbn [fst snd]. rewrite encode_VObject, zlen_encode_obj.
  pose proof (zlen_nonneg body). pose proof (zlen_nonneg n). lia.
Qed.

Lemma room_prefix o e more : room (encode_elements (o ++ e :: more)) -> room (encode_elements (o ++ [e])).
Proof. apply room_mono. change (e :: more) with ([e] ++ more). rewrite app_assoc, (encode_elements_app _ more), zlen_app. pose proof (zlen_nonneg (encode_elements more)). lia. Qed.

Lemma builder_at_ctor initsize : 0 <= initsize <= 512 -> room [] -> exists b, BSONObjBuilder_ctor holder_size initsize = Ret b /\ builder_at b [].
Proof.
  intros Hi Hr. unfold room in Hr. change (zlen (@nil char)) with 0 in Hr.
  destruct (ctor_started holder_size initsize holder_pos) as (b & pre & E & Hs & Hp & H1); [lia|lia|].
  exists b. split; [exact E|]. by exists pre.
Qed.
Lemma builder_at_append b body f bs : builder_at b body -> writes f bs -> room (body ++ bs) ->
  exists b', with_b b (f (_b b)) = Ret b' /\ builder_at b' (body ++ bs).
Proof.
  intros (pre & Hs & Hp & H1) Hf Hr. destruct (started_append f bs b pre body Hs Hf) as (b' & E & Hs' & H1').
  { destruct Hs as (_ & _ & _ & _ & len4 & H4 & Hd). unfold BufBuilder_len. rewrite Hd, !zlen_app, H1. unfold room in Hr. rewrite zlen_app in Hr. lia. }
  exists b'. split; [exact E|]. exists pre. split_and!; [done|done|lia].
Qed.
Lemma obj_fits_eq o : obj_fits o = (zlen (encode_elements o) + 5 <=? BSONObjMaxInternalSize).
Proof. unfold obj_fits. by rewrite zlen_encode_obj. Qed.
Lemma builder_at_done b o : builder_at b (encode_elements o) ->
  if obj_fits o
  then exists b', BSONObjBuilder_done b = Ret (b', encode_obj o) else BSONObjBuilder_done b = Throw (EMassert 10334).
Proof.
  intros (pre & Hs & _). rewrite obj_fits_eq. pose proof (done_checked b pre _ Hs) as Hd. by destruct (_ <=? _).
Qed.
Lemma builder_at_obj b body : builder_at b body -> BSONObjBuilder_obj true b = Ret (encode_obj_with body).
Proof.
  intros (pre & Hs & _). destruct (done_started b pre body Hs) as (b' & E & _).
  unfold BSONObjBuilder_obj. cbn [massert guard_throw mbind result_bind]. by rewrite E.
Qed.
Lemma builder_at_not_done b body : builder_at b body -> _doneCalled b = false.
Proof. by intros (pre & (_ & _ & Hd & _) & _). Qed.

Lemma append_object_writes n o : nul ∉ n -> appendable_obj o -> writes (append_object n (encode_obj o)) (encode_element (n, VObject o)).
Proof.
  intros Hn Ho. apply (append_value_writes n (VObject o) Hn). split; [|done]. by apply wf_VObject, appendable_wf.
Qed.

(** Ending a field appends what its labels built, unless that is too large. *)
Lemma endField_big nx s body pend : stream_at s body pend -> pend_ok pend = false -> endField nx s = Throw (EMassert 10334).
Proof.
  intros [_ Hp] Hbig. unfold endField. destruct pend as [[n o]|]; [|done]. cbn [pend_ok] in Hbig.
  destruct Hp as (En & _ & _ & sub & Es & Hsub). rewrite Es. unfold field_name. rewrite En, bool_decide_true by done.
  cbn [verify guard_throw default]. rewrite ret_bind. pose proof (builder_at_done sub o Hsub) as Hd.
  rewrite Hbig in Hd. by rewrite Hd.
Qed.
Lemma endField_at nx s body pend : stream_at s body pend -> room (body ++ pending pend) -> pend_ok pend = true ->
  exists s', endField nx s = Ret s' /\ stream_at s' (body ++ pending pend) None /\ _fieldName s' = nx.
Proof.
  intros [Hb Hp] Hr Hfit. unfold endField. destruct pend as [[n o]|]; cbn [pending pend_ok] in *.
  - destruct Hp as (En & Hn & Ho & sub & Es & Hsub). rewrite Es. unfold field_name. rewrite En, bool_decide_true by done.
    cbn [verify guard_throw default]. rewrite ret_bind.
    pose proof (builder_at_done sub _ Hsub) as Hd. rewrite Hfit in Hd. destruct Hd as (sub' & Ed). rewrite Ed. cbn [mbind result_bind].
    destruct (builder_at_append _ _ _ _ Hb (append_object_writes n o Hn Ho) Hr) as (b' & E & Hb').
    unfold default, id. rewrite E. cbn [mbind result_bind]. eexists. split; [reflexivity|]. by split.
  - rewrite Hp, app_nil_r. eexists. split; [reflexivity|]. by split.
Qed.
Lemma stream_obj_at s body pend : stream_at s body pend -> room (body ++ pending pend) ->
  stream_obj s = if pend_ok pend then Ret (encode_obj_with (body ++ pending pend)) else Throw (EMassert 10334).
Proof.
  intros Hs Hr. unfold stream_obj, stream_done_field. rewrite (builder_at_not_done _ _ (proj1 Hs)). destruct (pend_ok pend) eqn:Hfit.
  - destruct (endField_at None s body pend Hs Hr Hfit) as (s1 & -> & Hs1 & _). cbn [mbind result_bind].
    exact (builder_at_obj _ _ (proj1 Hs1)).
  - by rewrite (endField_big _ _ _ _ Hs Hfit).
Qed.
Lemma stream_append_at f bs s body : stream_at s body None -> writes (f (field_name s)) bs -> room (body ++ bs) ->
  exists s', stream_append f s = Ret s' /\ stream_at s' (body ++ bs) None /\ _fieldName s' = None.
Proof.
  intros [Hb Hp] Hf Hr. destruct (builder_at_append _ _ _ _ Hb Hf Hr) as (b' & E & Hb').
  unfold stream_append. rewrite E. cbn [mbind result_bind]. eexists. split; [reflexivity|]. by split.
Qed.
Lemma label_value_at n l v s body pend : stream_at s body pend -> _fieldName s = Some n -> nul ∉ n -> nul ∉ l -> appendable v ->
  (pend = None \/ exists o, pend = Some (n, o)) ->
  let o := default [] (snd <$> pend) in
  room (encode_elements (o ++ [(l, v)])) ->
  exists s', label_value holder_size l v s = Ret s' /\ stream_at s' body (Some (n, o ++ [(l, v)])) /\ _fieldName s' = Some n.
Proof.
  intros [Hb Hp] En Hn Hl Hv Hpend o Hr.
  assert (exists sub, subobj holder_size s = Ret sub /\ builder_at sub (encode_elements o) /\ appendable_obj o) as (sub & Es & Hsub & Ho).
  { unfold subobj. destruct Hpend as [->|[o' ->]].
    - rewrite Hp. destruct (builder_at_ctor 512) as (b & E & Hb'); [lia|eapply room_mono, Hr; apply zlen_nonneg|].
      exists b. split_and!; [done|done|by constructor].
    - destruct Hp as (_ & _ & Ho' & sub & Es & Hsub). rewrite Es. by exists sub. }
  unfold label_value, label_append. rewrite Es. cbn [mbind result_bind].
  rewrite encode_elements_app in Hr. replace (encode_elements [(l, v)]) with (encode_element (l, v)) in Hr by (cbn; by rewrite app_nil_r).
  destruct (builder_at_append sub _ _ _ Hsub (append_value_writes l v Hl Hv) Hr) as (sub' & E & Hsub').
  rewrite E. cbn [mbind result_bind]. eexists. split; [reflexivity|]. split; [|done]. split; [done|].
  split_and!; [done|done| |].
  - apply Forall_app. split; [done|]. apply Forall_cons_2; [by split|apply Forall_nil_2].
  - exists sub'. split; [done|]. rewrite encode_elements_app. replace (encode_elements [(l, v)]) with (encode_element (l, v)) by (cbn; by rewrite app_nil_r).
    done.
Qed.

(** *** Clauses *)

Definition clause_doc (c : clause) : BSONElement :=
  match c with Value n v => (n, v) | Labels n f more => (n, VObject (f :: more)) end.
(** A name of more than one label is not empty. *)
Definition clause_ok (c : clause) : Prop :=
  match c with
  | Value n v => nul ∉ n /\ appendable v
  | Labels n f more => nul ∉ n /\ appendable_obj (f :: more) /\ (more <> [] -> n <> [])
  end.
(** The labels of a name are an object, which must not be too large. *)
Definition clause_fits (c : clause) : bool :=
  match c with Value _ _ => true | Labels _ f more => obj_fits (f :: more) end.
#[local] Strategy expand [clause_fits].
(** What is appended, and what is pending, after a clause. *)
Lemma stream_name_at n s body pend : stream_at s body pend -> room (body ++ pending pend) -> pend_ok pend = true ->
  exists s', stream_name n s = Ret s' /\ stream_at s' (body ++ pending pend) None /\ _fieldName s' = Some n.
Proof. intros Hs Hr Hf. exact (endField_at (Some n) s body pend Hs Hr Hf). Qed.
Lemma clause_run_big c s body pend : stream_at s body pend -> pend_ok pend = false -> clause_run holder_size c s = Throw (EMassert 10334).
Proof.
  intros Hs Hbig. destruct c as [n v|n [l v] more]; cbn [clause_run]; unfold stream_name;
    by rewrite (endField_big _ _ _ _ Hs Hbig).
Qed.
Lemma labels_at more n s body o : n <> [] -> stream_at s body (Some (n, o)) -> _fieldName s = Some n -> nul ∉ n -> appendable_obj more ->
  room (encode_elements (o ++ more)) ->
  exists s', foldl (fun m e => s ← m; builder_label holder_size e.1 e.2 s) (Ret s) more = Ret s' /\ stream_at s' body (Some (n, o ++ more)) /\ _fieldName s' = Some n.
Proof.
  intros Hne. revert s o. induction more as [|[l v] more IH]; intros s o Hs En Hn Hm Hr; cbn [foldl].
  { rewrite app_nil_r. by exists s. }
  inversion_clear Hm as [|? ? [Hl Hv] Hm'].
  destruct (label_value_at n l v s body (Some (n, o)) Hs En Hn Hl Hv (or_intror (ex_intro _ o eq_refl))) as (s1 & E & Hs1 & En1).
  { exact (room_prefix _ _ _ Hr). }
  rewrite ret_bind. unfold builder_label at 2, subobjStarted, field_name. rewrite En. cbn [default]. unfold id. rewrite bool_decide_false by done.
  cbn [negb massert guard_throw fst snd]. rewrite ret_bind, E. cbn in Hs1.
  destruct (IH s1 _ Hs1 En1 Hn Hm') as (s2 & E2 & Hs2 & En2); [by rewrite <- app_assoc|].
  exists s2. rewrite E2. split; [done|]. by rewrite <- app_assoc in Hs2.
Qed.
Lemma clause_run_at c s body pend : clause_ok c -> stream_at s body pend -> room (body ++ pending pend ++ encode_element (clause_doc c)) ->
  pend_ok pend = true ->
  exists s' body' pend', clause_run holder_size c s = Ret s' /\ stream_at s' body' pend' /\ pend_ok pend' = clause_fits c /\
    body' ++ pending pend' = body ++ pending pend ++ encode_element (clause_doc c).
Proof.
  intros Hc Hs Hr Hfit. rewrite app_assoc in Hr. destruct c as [n v|n [l v] more]; cbn [clause_run clause_doc] in *.
  - destruct Hc as [Hn Hv]. destruct (stream_name_at n s body pend Hs (room_app_l _ _ Hr) Hfit) as (s1 & -> & Hs1 & En).
    rewrite ret_bind. destruct (stream_append_at (fun n => append_value n v) (encode_element (n, v)) s1 _ Hs1) as (s2 & E2 & Hs2 & _); [|exact Hr|].
    { unfold field_name. rewrite En. by apply append_value_writes. }
    exists s2, ((body ++ pending pend) ++ encode_element (n, v)), None. split_and!; [exact E2|exact Hs2|done|]. by rewrite app_nil_r, app_assoc.
  - destruct Hc as (Hn & Ho & Hne). inversion_clear Ho as [|? ? [Hl Hv] Hm].
    destruct (stream_name_at n s body pend Hs (room_app_l _ _ Hr) Hfit) as (s1 & -> & Hs1 & En). rewrite ret_bind.
    pose proof (room_pending _ _ _ Hr) as Hr'.
    destruct (label_value_at n l v s1 _ None Hs1 En Hn Hl Hv (or_introl eq_refl)) as (s2 & -> & Hs2 & En2).
    { exact (room_prefix [] (l, v) more Hr'). }
    rewrite ret_bind. cbn in Hs2.
    assert (exists s3, foldl (fun m e => s ← m; builder_label holder_size e.1 e.2 s) (Ret s2) more = Ret s3 /\
      stream_at s3 (body ++ pending pend) (Some (n, [(l, v)] ++ more))) as (s3 & E3 & Hs3).
    { destruct more as [|e more]; [by exists s2|].
      destruct (labels_at (e :: more) n s2 _ [(l, v)] (Hne ltac:(done)) Hs2 En2 Hn Hm Hr') as (s3 & E3 & Hs3 & _). by exists s3. }
    exists s3, (body ++ pending pend), (Some (n, (l, v) :: more)). split_and!; [exact E3|exact Hs3|done|]. by rewrite <- app_assoc.
Qed.
Lemma clauses_throw cs e : foldl (fun m c => s ← m; clause_run holder_size c s) (Throw e) cs = Throw e.
Proof. induction cs as [|c cs IH]; [done|]. exact IH. Qed.
(** The clauses and the end of the document. *)
Lemma clauses_obj_at cs s body pend : Forall clause_ok cs -> stream_at s body pend -> room (body ++ pending pend ++ encode_elements (clause_doc <$> cs)) ->
  (s' ← clauses_run holder_size cs s; stream_obj s') =
    if pend_ok pend && forallb clause_fits cs
    then Ret (encode_obj_with (body ++ pending pend ++ encode_elements (clause_doc <$> cs))) else Throw (EMassert 10334).
Proof.
  intros Hc. revert s body pend. induction Hc as [|c cs Hc Hcs IH]; intros s body pend Hs Hr.
  { cbn [forallb]. rewrite andb_true_r. cbn in *. rewrite app_nil_r in *. by apply stream_obj_at. }
  rewrite fmap_cons in *. change (encode_elements (clause_doc c :: (clause_doc <$> cs))) with (encode_element (clause_doc c) ++ encode_elements (clause_doc <$> cs)) in *.
  unfold clauses_run. cbn [foldl forallb]. rewrite ret_bind. destruct (pend_ok pend) eqn:Hfit.
  - destruct (clause_run_at c s body pend Hc Hs) as (s1 & body1 & pend1 & E1 & Hs1 & Hf1 & Eb1); [|done|].
    { eapply room_app_l. rewrite <- !app_assoc. exact Hr. }
    rewrite E1. pose proof (IH s1 body1 pend1 Hs1) as IH1. rewrite app_assoc, Eb1, <- !app_assoc, Hf1 in IH1.
    exact (IH1 Hr).
  - by rewrite (clause_run_big c s body pend Hs Hfit), clauses_throw.
Qed.
Lemma StreamBuilder_ctor_at initsize : 0 <= initsize <= 512 -> room [] ->
  exists s, StreamBuilder_ctor holder_size initsize = Ret s /\ stream_at s [] None.
Proof.
  intros Hi Hr. unfold StreamBuilder_ctor. destruct (builder_at_ctor initsize Hi Hr) as (b & -> & Hb). cbn [mbind result_bind].
  eexists. split; [reflexivity|]. by split.
Qed.

(** C37: a document streamed as names with values and names with labels is the encoding
    of those names, in order, with the values and with one object for the labels of a name;
    whatever is still pending at the end is appended.  When the labels of some name are more
    than a document may hold, the object is not built and 10334 is thrown. *)
Theorem BSON_builds cs : Forall clause_ok cs -> room (encode_elements (clause_doc <$> cs)) ->
  BSON holder_size cs =
    if forallb clause_fits cs then Ret (encode_obj (clause_doc <$> cs)) else Throw (EMassert 10334).
Proof.
  intros Hc Hr. unfold BSON. destruct (StreamBuilder_ctor_at 64) as (s & -> & Hs); [lia|eapply room_mono, Hr; apply zlen_nonneg|].
  rewrite ret_bind. exact (clauses_obj_at cs s [] None Hc Hs Hr).
Qed.
End Facts.
Lemma BSON_builds_witness :
  BSON 4 [Labels (B "a") (GT, VNumberInt 1) [(LT, VNumberInt 5)]; Value (B "b") (VNumberInt 2)] =
  Ret (encode_obj [(B "a", VObject [(B "$gt", VNumberInt 1); (B "$lt", VNumberInt 5)]); (B "b", VNumberInt 2)]).
Proof.
  apply (BSON_builds 4 ltac:(lia) [Labels (B "a") (GT, VNumberInt 1) [(LT, VNumberInt 5)]; Value (B "b") (VNumberInt 2)]); [|vm_compute; discriminate].
  assert (forall (n : bytes) z, nul ∉ n -> in_range int32 z -> nul ∉ n /\ appendable (VNumberInt z)) as H by (intros n z Hn Hz; exact (conj Hn (conj Hz I))).
  assert (in_range int32 1 /\ in_range int32 5 /\ in_range int32 2) as (H1 & H5 & H2) by (repeat split; vm_compute; discriminate).
  apply Forall_cons_2; [|apply Forall_cons_2; [|apply Forall_nil_2]].
  - split; [by not_in|]. split; [|done]. apply Forall_cons_2; [by apply H; [not_in|]|]. apply Forall_cons_2; [by apply H; [not_in|]|apply Forall_nil_2].
  - by apply H; [not_in|].
Defined.

(** *** Arrays *)

Lemma print_int_nul i : 0 <= i -> nul ∉ print_int i.
Proof.
  intros Hi. unfold print_int. replace (i <? 0) with false by lia. pose proof (print_nonneg_digits i Hi) as H.
  intros Hin. rewrite forallb_forall in H. apply list_elem_of_In, H in Hin. by vm_compute in Hin.
Qed.
Fixpoint array_doc (i : Z) (vs : list bson_value) : BSONObj :=
  match vs with [] => [] | v :: vs => (print_int i, v) :: array_doc (i + 1) vs end.

Section Arrays.
Context (holder_size : Z) (holder_pos : 0 <= holder_size).

Lemma array_stream_at v a body : stream_at holder_size (ab a) body None -> 0 <= _i a -> appendable v ->
  room holder_size (body ++ encode_element (print_int (_i a), v)) ->
  exists a', array_stream v a = Ret a' /\ stream_at holder_size (ab a') (body ++ encode_element (print_int (_i a), v)) None /\ _i a' = _i a + 1.
Proof.
  intros Hs Hi Hv Hr. unfold array_stream.
  destruct (stream_name_at holder_size (print_int (_i a)) (ab a) body None Hs) as (s1 & -> & Hs1 & En).
  { cbn [pending]. rewrite app_nil_r. by eapply room_app_l. }
  { done. }
  cbn [pending] in Hs1. rewrite app_nil_r in Hs1. rewrite ret_bind.
  destruct (stream_append_at holder_size (fun n => append_value n v) (encode_element (print_int (_i a), v)) s1 body Hs1) as (s2 & E2 & Hs2 & _); [|exact Hr|].
  { unfold field_name. rewrite En. apply append_value_writes; [by apply print_int_nul|done]. }
  unfold stream_value. rewrite E2, ret_bind. eexists. split; [reflexivity|]. by split.
Qed.
Lemma array_run_at vs a body : stream_at holder_size (ab a) body None -> 0 <= _i a -> Forall appendable vs ->
  room holder_size (body ++ encode_elements (array_doc (_i a) vs)) ->
  exists a', foldl (fun m v => a ← m; array_stream v a) (Ret a) vs = Ret a' /\
    stream_at holder_size (ab a') (body ++ encode_elements (array_doc (_i a) vs)) None.
Proof.
  intros Hs Hi Hv. revert a body Hs Hi. induction Hv as [|v vs Hv Hvs IH]; intros a body Hs Hi Hr; cbn [foldl array_doc].
  { exists a. split; [done|]. by rewrite app_nil_r. }
  cbn [array_doc] in Hr. change (encode_elements (?x :: ?l)) with (encode_element x ++ encode_elements l) in *.
  destruct (array_stream_at v a body Hs Hi Hv) as (a1 & E1 & Hs1 & Ei).
  { eapply room_app_l. rewrite <- app_assoc. exact Hr. }
  rewrite ret_bind, E1. destruct (IH a1 _ Hs1 ltac:(lia)) as (a2 & E2 & Hs2).
  { rewrite Ei, <- app_assoc. exact Hr. }
  exists a2. split; [exact E2|]. rewrite Ei, <- app_assoc in Hs2. exact Hs2.
Qed.
(** The elements of an array have the names 0, 1, 2, ... *)
Theorem BSON_ARRAY_builds vs : Forall appendable vs -> room holder_size (encode_elements (array_doc 0 vs)) ->
  BSON_ARRAY holder_size vs = Ret (encode_obj (array_doc 0 vs)).
Proof.
  intros Hv Hr. unfold BSON_ARRAY, BSONArrayBuilder_ctor.
  destruct (StreamBuilder_ctor_at holder_size holder_pos 512) as (s & -> & Hs); [lia|eapply room_mono, Hr; apply zlen_nonneg|].
  rewrite !ret_bind. destruct (array_run_at vs (mkArrayBuilder 0 s) [] Hs ltac:(cbn; lia) Hv Hr) as (a & -> & Ha). rewrite ret_bind.
  rewrite (stream_obj_at holder_size (ab a) _ None Ha); cbn [pending pend_ok]; by rewrite app_nil_r.
Qed.
(** [OR] is the array of its documents under one name. *)
Theorem OR_builds docs : Forall appendable_obj docs ->
  let doc := [(B "$or", VArray (array_doc 0 (VObject <$> docs)))] in
  room holder_size (encode_elements doc) -> OR holder_size docs = Ret (encode_obj doc).
Proof.
  intros Hd doc Hr. set (arr := array_doc 0 (VObject <$> docs)) in *.
  assert (Forall appendable (VObject <$> docs)) as Hv.
  { apply Forall_fmap. eapply Forall_impl; [exact Hd|]. intros o Ho. split; [|done]. by apply wf_VObject, appendable_wf. }
  assert (appendable (VArray arr)) as Harr.
  { split; [|done]. apply wf_VArray. unfold arr. assert (0 <= 0) as H0 by lia. revert H0. generalize 0 at 2 3.
    clear -Hv. induction Hv as [|v vs [Hw _] _ IH]; intros i Hi; [apply Forall_nil_2|]. cbn [array_doc].
    apply Forall_cons_2; [split; [by apply print_int_nul|done]|]. apply IH. lia. }
  assert (zlen (encode_elements arr) <= zlen (encode_elements doc)) as Hl.
  { change (encode_elements doc) with (encode_element (B "$or", VArray arr) ++ []). rewrite app_nil_r, zlen_encode_element. cbn [fst snd].
    rewrite encode_VArray, zlen_encode_obj. pose proof (zlen_nonneg (B "$or")). lia. }
  unfold OR. rewrite BSON_ARRAY_builds by (done || (eapply room_mono; [exact Hl|exact Hr])). rewrite ret_bind. fold arr.
  destruct (StreamBuilder_ctor_at holder_size holder_pos 64) as (s & -> & Hs); [lia|eapply room_mono, Hr; apply zlen_nonneg|]. rewrite ret_bind.
  destruct (stream_name_at holder_size (B "$or") s [] None Hs) as (s1 & -> & Hs1 & En); [eapply room_mono, Hr; apply zlen_nonneg|done|]. rewrite ret_bind.
  destruct (stream_append_at holder_size (fun n => appendArray n (encode_obj arr)) (encode_element (B "$or", VArray arr)) s1 _ Hs1) as (s2 & -> & Hs2 & _).
  { unfold field_name. rewrite En. apply (append_value_writes (B "$or") (VArray arr)); [by not_in|done]. }
  { cbn [pending app]. unfold doc in Hr. cbn [encode_elements flat_map] in Hr. by rewrite app_nil_r in Hr. }
  rewrite ret_bind. rewrite (stream_obj_at holder_size s2 _ None Hs2).
  2: { cbn [pending app]. rewrite app_nil_r. unfold doc in Hr. cbn [encode_elements flat_map] in Hr. by rewrite app_nil_r in Hr. }
  cbn [pending pend_ok app]. unfold encode_obj, doc. cbn [encode_elements flat_map]. by rewrite !app_nil_r.
Qed.
End Arrays.

(** *** The tracker *)

(** The tracker holds the last ten sizes, in the order of a ring. *)
Lemma got_ring t size : length (_sizes t) = SIZE -> (_pos t < SIZE)%nat ->
  drop (_pos (got size t)) (_sizes (got size t)) ++ take (_pos (got size t)) (_sizes (got size t)) =
  drop 1 (drop (_pos t) (_sizes t) ++ take (_pos t) (_sizes t)) ++ [size].
Proof.
  unfold SIZE. destruct t as [p l]. cbn [_pos _sizes got]. intros Hl Hp.
  destruct l as [|s0 [|s1 [|s2 [|s3 [|s4 [|s5 [|s6 [|s7 [|s8 [|s9 [|s10 l]]]]]]]]]]]; try discriminate Hl.
  do 10 (destruct p as [|p]; [reflexivity|]). lia.
Qed.
Definition last_ten (l : list Z) : list Z := drop (length l - SIZE) l.
Theorem getSize_last ten : let t := foldl (fun t s => got s t) BSONSizeTracker_ctor ten in
  getSize t = foldr Z.max 16 (last_ten (replicate SIZE 512 ++ ten)).
Proof.
  intros t.
  assert (length (_sizes t) = SIZE /\ (_pos t < SIZE)%nat /\
    drop (_pos t) (_sizes t) ++ take (_pos t) (_sizes t) = last_ten (replicate SIZE 512 ++ ten)) as (Hl & Hp & Er).
  { unfold t. induction ten as [|s ten IH] using rev_ind.
    - split_and!; [done|unfold SIZE; cbn; lia|reflexivity].
    - rewrite foldl_app. cbn [foldl]. destruct IH as (Hl & Hp & E). split_and!.
      + cbn. by rewrite length_insert.
      + cbn [_pos got]. apply Nat.mod_upper_bound. unfold SIZE. lia.
      + rewrite (got_ring _ s Hl Hp), E. unfold last_ten. rewrite drop_drop, !length_app, length_replicate. cbn [length].
        rewrite app_assoc. symmetry. rewrite drop_app_le by (rewrite length_app, length_replicate; unfold SIZE; lia).
        f_equal. f_equal. unfold SIZE. lia. }
  rewrite <- Er. unfold getSize.
  assert (forall l x, foldl (fun x s => if s >? x then s else x) x l = foldr Z.max x l) as Hf.
  { induction l as [|a l IH]; intros x; cbn; [done|]. rewrite IH. destruct (a >? x) eqn:E.
    - clear IH. revert a x E. induction l as [|b l IH]; intros a x E; cbn; [lia|]. rewrite (IH a x E). lia.
    - clear IH. assert (a <= x) as Ha by lia. clear E. induction l as [|b l IH]; cbn; [lia|]. lia. }
  rewrite Hf. rewrite foldr_app. rewrite <- (take_drop (_pos t) (_sizes t)) at 1. rewrite foldr_app.
  assert (forall a b x, foldr Z.max (foldr Z.max x a) b = foldr Z.max (foldr Z.max x b) a) as Hc; [|apply Hc].
  assert (forall l x y, foldr Z.max (Z.max x y) l = Z.max x (foldr Z.max y l)) as Hm.
  { induction l as [|c l IH]; intros; cbn; [done|]. rewrite IH. lia. }
  induction a as [|c a IH]; intros b x; cbn; [done|]. by rewrite Hm, IH.
Qed.

(** *** Names *)

Theorem fieldsMatch_names l r : wf_obj l -> wf_obj r -> fieldsMatch l r = true <-> l.*1 = r.*1.
Proof.
  intros Hl. revert r. induction Hl as [|x l [Hx _] Hl IH]; intros [|y r] Hr; cbn; try done.
  inversion_clear Hr as [|? ? [Hy _] Hr']. pose proof (strcmp_zero x.1 y.1 Hx Hy) as Hz. destruct (strcmp x.1 y.1 =? 0); cbn.
  - rewrite (IH r Hr'), (proj1 Hz eq_refl). split; [by intros ->|by intros [= ->]].
  - split; [done|]. intros [= E' _]. by apply Hz in E'.
Qed.

(** *** What the stream does besides *)

Definition demo (l : list (StreamBuilder -> M StreamBuilder)) : M StreamBuilder :=
  s ← StreamBuilder_ctor 4 64; foldl (fun m f => s ← m; f s) (Ret s) l.
(** An empty name is taken for none: its second label is refused. *)
Lemma empty_name_refused : BSON 4 [Labels [] (GT, VNumberInt 1) [(LT, VNumberInt 5)]] = Throw (EMassert 10336).
Proof. vm_compute. reflexivity. Qed.
(** Looking at the document ends the field: the label after it is refused. *)
Lemma asTempObj_ends_field :
  (s ← demo [stream_name (B "a"); label_value 4 GT (VNumberInt 1)]; '(s, _) ← stream_asTempObj s; builder_label 4 LT (VNumberInt 5) s) = Throw (EMassert 10336).
Proof. vm_compute. reflexivity. Qed.
(** Labels wait: what is appended to the builder meanwhile comes before their name. *)
Lemma labels_come_late :
  (s ← demo [stream_name (B "a"); label_value 4 GT (VNumberInt 1); builder_append (append_value (B "z") (VNumberInt 2))]; '(_, o) ← stream_done s; Ret o) =
  Ret (encode_obj [(B "z", VNumberInt 2); (B "a", VObject [(B "$gt", VNumberInt 1)])]).
Proof. vm_compute. reflexivity. Qed.
