(* ===== verification/BsonElem.v ===== *)
(** * More of an element: bson/bsonelement.cpp, bson/bsonmisc.cpp

    The operator a name stands for in a query, an array as a vector, and the conversions
    that say whether they are possible. *)
From S2P Require Import Prelude StringData ParseNumber BsonTypes Bson BsonCompare BsonObj CLib BsonBuilder BsonStream RSState Query.
Local Open Scope Z_scope.

(** ** The operator of a name *)

Inductive MatchType :=
  | Equality | opLT | opLTE | opGTE | opGT | opIN | opNE | opSIZE | opALL | opNIN | opEXISTS | opMOD | opTYPE | opREGEX | opOPTIONS
  | opELEM_MATCH | opNEAR | opWITHIN | opMAX_DISTANCE | opGEO_INTERSECTS.
Global Instance MatchType_eq_dec : EqDecision MatchType.
Proof. solve_decision. Defined.
(** [fn[i]]: the name ends with a zero byte; what is behind it is not the name's. *)
Definition at_ (fn : bytes) (i : Z) : M char := match zlookup (fn ++ [nul]) i with Some c => Ret c | None => Throw EUndefined end.
Definition is_at (fn : bytes) (i : Z) (c : char) : M bool := x ← at_ fn i; Ret (ceq x c).
(** [fn[i] == a && fn[i+1] == b && ...]: the rest is read only while it agrees. *)
Fixpoint are_at (fn : bytes) (i : Z) (l : bytes) : M bool :=
  match l with [] => Ret true | c :: l => b ← is_at fn i c; if (b : bool) then are_at fn (i + 1) l else Ret false end.
Definition ends_at (fn : bytes) (i : Z) (l : string) : M bool := are_at fn i (B l ++ [nul]).
(** The branches in their order: the first whose condition holds is taken. *)
Fixpoint branches {A} (l : list (M bool * M A)) (otherwise : M A) : M A :=
  match l with [] => otherwise | (c, a) :: l => b ← c; if (b : bool) then a else branches l otherwise end.
Definition and_then (c d : M bool) : M bool := b ← c; if (b : bool) then d else Ret false.

Definition getGtLtOp (fn : bytes) (def : MatchType) : M MatchType :=
  let c_ := is_at fn in
  let none := Ret def in
  branches [(and_then (c_ 0 "$"%char) (b ← c_ 1 nul; Ret (negb b)),
    branches [
      (c_ 2 "t"%char, branches [
        (c_ 1 "g"%char, branches [(c_ 3 nul, Ret opGT); (ends_at fn 3 "e", Ret opGTE)] none);
        (c_ 1 "l"%char, branches [(c_ 3 nul, Ret opLT); (ends_at fn 3 "e", Ret opLTE)] none)] none);
      (are_at fn 1 (B "ne"), branches [(c_ 3 nul, Ret opNE); (are_at fn 3 (B "ar"), Ret opNEAR)] none);
      (c_ 1 "m"%char, branches [(ends_at fn 2 "od", Ret opMOD); (ends_at fn 2 "axDistance", Ret opMAX_DISTANCE)] none);
      (ends_at fn 1 "type", Ret opTYPE);
      (ends_at fn 1 "in", Ret opIN);
      (ends_at fn 1 "nin", Ret opNIN);
      (ends_at fn 1 "all", Ret opALL);
      (ends_at fn 1 "size", Ret opSIZE);
      (c_ 1 "e"%char, branches [(ends_at fn 2 "xists", Ret opEXISTS); (ends_at fn 2 "lemMatch", Ret opELEM_MATCH)] none);
      (ends_at fn 1 "regex", Ret opREGEX);
      (ends_at fn 1 "options", Ret opOPTIONS);
      (ends_at fn 1 "within", Ret opWITHIN);
      (Ret (strcmp (drop 1 fn) (B "geoIntersects") =? 0), Ret opGEO_INTERSECTS);
      (Ret (strcmp (drop 1 fn) (B "geoNear") =? 0), Ret opNEAR);
      (Ret (strcmp (drop 1 fn) (B "geoWithin") =? 0), Ret opWITHIN)] none)] none.
(** The operator of the first element of an object; other values are equalities. *)
Definition element_getGtLtOp (e : BSONElement) : M MatchType :=
  match e.2 with VObject o => getGtLtOp (default eooElement (head o)).1 Equality | _ => Ret Equality end.

(** What it answers: the names of the operators. *)
Definition operators : list (bytes * MatchType) :=
  [(B "$gt", opGT); (B "$gte", opGTE); (B "$lt", opLT); (B "$lte", opLTE); (B "$ne", opNE); (B "$mod", opMOD);
   (B "$maxDistance", opMAX_DISTANCE); (B "$type", opTYPE); (B "$in", opIN); (B "$nin", opNIN); (B "$all", opALL);
   (B "$size", opSIZE); (B "$exists", opEXISTS); (B "$elemMatch", opELEM_MATCH); (B "$regex", opREGEX); (B "$options", opOPTIONS);
   (B "$within", opWITHIN); (B "$geoIntersects", opGEO_INTERSECTS); (B "$geoNear", opNEAR); (B "$geoWithin", opWITHIN)].

(** ** An array as a vector *)

Definition index_of (name : bytes) : option Z :=
  match parseNumberFromStringWithBase uint32 (c_string name) 0 with Ret u => Some u | Throw _ => None end.
Fixpoint Array_loop (o : BSONObj) (v : list BSONElement) : M (list BSONElement) :=
  match o with
  | [] => Ret v
  | e :: o =>
    match index_of e.1 with
    | Some u =>
      verify (u <? 1000000);;
      let v := if u >=? zlen v then v ++ replicate (Z.to_nat (u + 1 - zlen v)) eooElement else v in
      Array_loop o (<[Z.to_nat u := e]> v)
    | None => Array_loop o v
    end
  end.
Definition Array (e : BSONElement) : M (list BSONElement) :=
  massert 13111 (bool_decide (element_type e = Array_));;
  o ← Obj e; Array_loop o [].

(** ** Conversions *)

Definition coerce_string (e : BSONElement) : option bytes := match e.2 with VString s => Some s | _ => None end.
Definition coerce_int (e : BSONElement) : M (option Z) :=
  if isNumber e.2 then n ← numberInt_of e; Ret (Some n) else Ret None.
Definition coerce_bool (e : BSONElement) : option bool := Some (trueValue e).
(** What was converted before one could not be stays in the vector. *)
Fixpoint coerceVector {T} (coerce : BSONElement -> option T) (o : BSONObj) (out : list T) : bool * list T :=
  match o with
  | [] => (true, out)
  | e :: o => match coerce e with Some t => coerceVector coerce o (out ++ [t]) | None => (false, out) end
  end.
Definition coerce_strings (e : BSONElement) (out : list bytes) : bool * list bytes :=
  match e.2 with VArray o => coerceVector coerce_string o out | _ => (false, out) end.
Definition _asCode (e : BSONElement) : M bytes :=
  match e.2 with VString s | VCode s => Ret s | VCodeWScope code _ => Ret code | _ => Throw (EUassert 10062) end.

(** ** Theorems *)

(** *** Names of operators *)

Lemma operators_recognised : Forall (fun p => getGtLtOp p.1 Equality = Ret p.2) operators.
Proof. repeat (apply Forall_cons_2; [vm_compute; reflexivity|]). apply Forall_nil_2. Qed.

Lemma at_lt fn i : 0 <= i <= zlen fn -> exists c, at_ fn i = Ret c /\ (fn ++ [nul]) !! Z.to_nat i = Some c.
Proof.
  intros Hi. unfold at_, zlookup. rewrite decide_True by lia. destruct (lookup_lt_is_Some_2 (fn ++ [nul]) (Z.to_nat i)) as [c Ec].
  { rewrite length_app. cbn. unfold zlen in Hi. lia. }
  exists c. by rewrite Ec.
Qed.
(** A comparison that has agreed so far has not reached the end, unless its text ends
    there, too. *)
Lemma are_at_spec fn i l : nul ∉ fn -> 0 <= i <= zlen fn -> (forall l1 l2, l = l1 ++ nul :: l2 -> l2 = []) ->
  are_at fn i l = Ret (bool_decide (l `prefix_of` drop (Z.to_nat i) (fn ++ [nul]))).
Proof.
  intros Hfn. revert i. induction l as [|c l IH]; intros i Hi Hl; cbn [are_at].
  { by rewrite bool_decide_true by apply prefix_nil. }
  destruct (at_lt fn i Hi) as (x & Ex & El). unfold is_at. rewrite Ex. cbn [mbind result_bind].
  rewrite (drop_S _ x) by done. unfold ceq. case_bool_decide as Exc.
  - subst x. destruct (decide (c = nul)) as [->|Hc].
    + pose proof (Hl [] l eq_refl) as ->. cbn [are_at]. rewrite bool_decide_true; [done|]. apply prefix_cons, prefix_nil.
    + rewrite IH.
      * replace (Z.to_nat (i + 1)) with (S (Z.to_nat i)) by lia. apply f_equal, bool_decide_ext. split; [by apply prefix_cons|by apply prefix_cons_inv_2].
      * assert (i <> zlen fn); [|lia]. intros ->. unfold zlen in El. rewrite Nat2Z.id, lookup_app_r, Nat.sub_diag in El by lia. cbn in El. congruence.
      * intros l1 l2 ->. by apply (Hl (c :: l1)).
  - rewrite bool_decide_false; [done|]. intros ->%prefix_cons_inv_1. done.
Qed.
Lemma is_at_spec fn i c : 0 <= i <= zlen fn -> is_at fn i c = Ret (bool_decide ((fn ++ [nul]) !! Z.to_nat i = Some c)).
Proof.
  intros Hi. destruct (at_lt fn i Hi) as (x & Ex & El). unfold is_at. rewrite Ex. cbn [mbind result_bind]. rewrite El. unfold ceq.
  apply f_equal, bool_decide_ext. split; [by intros ->|by intros [= ->]].
Qed.
Lemma ends_at_spec fn i l : nul ∉ fn -> nul ∉ B l -> 0 <= i <= zlen fn -> ends_at fn i l = Ret (bool_decide (drop (Z.to_nat i) fn = B l)).
Proof.
  intros Hfn Hl Hi. unfold ends_at. rewrite are_at_spec; [|done|done|].
  - apply f_equal, bool_decide_ext. rewrite drop_app_le by (unfold zlen in Hi; lia). split.
    + intros [k Ek]. destruct k as [|c k _] using rev_ind.
      * rewrite app_nil_r in Ek. by apply app_inj_2 in Ek as [-> _].
      * rewrite !app_assoc in Ek. apply app_inj_2 in Ek as [Ek _]; [|done]. exfalso.
        apply Hfn. rewrite <- (take_drop (Z.to_nat i) fn), Ek. set_solver.
    + by intros ->.
  - intros l1 l2 E. destruct l2 as [|c l2 _] using rev_ind; [done|]. rewrite app_comm_cons, app_assoc in E.
    apply app_inj_2 in E as [E _]; [|done]. exfalso. apply Hl. rewrite E. set_solver.
Qed.
Lemma at_longer (fn : bytes) k c : (fn ++ [nul]) !! k = Some c -> c <> nul -> Z.of_nat k + 1 <= zlen fn.
Proof.
  intros E Hc. destruct (decide (k < length fn)%nat); [unfold zlen; lia|]. exfalso. rewrite lookup_app_r in E by lia.
  apply list_lookup_singleton_Some in E as [_ E]. done.
Qed.

Lemma no_nul l : forallb (fun c => negb (ceq c nul)) l = true -> forall l1 l2, l = l1 ++ nul :: l2 -> l2 = [].
Proof.
  intros H l1 l2 ->. rewrite forallb_app in H. apply andb_prop in H as [_ H]. cbn [forallb] in H. by rewrite ceq_refl in H.
Qed.
Ltac member := solve [repeat first [apply list_elem_of_here | apply list_elem_of_further]].
Lemma strcmp_dec a b : nul ∉ a -> nul ∉ b -> (strcmp a b =? 0) = bool_decide (a = b).
Proof. intros Ha Hb. apply eq_true_iff_eq. by rewrite strcmp_zero, bool_decide_eq_true by done. Qed.
Lemma elem_of_drop (x : char) n l : x ∈ drop n l -> x ∈ l.
Proof. intros H. rewrite <- (take_drop n l). apply elem_of_app. by right. Qed.
(** The leaves of the proof below: a name that is an operator's is excluded. *)
Ltac is_operator := exfalso; match goal with H : ?fn ∉ operators.*1 |- _ => apply H; clear H end;
  repeat match goal with
  | H : (?fn ++ [nul]) !! _ = Some _ |- _ => is_var fn; destruct fn; cbn in H
  | H : drop _ ?fn = _ |- _ => is_var fn; destruct fn; cbn in H
  | _ => progress simplify_eq/=
  end; first [done | solve [member] |
  match goal with H : nul ∉ _ |- _ => exfalso; apply H; member end].

(** The answer for any name: no character behind its end is read; it is the operator of
    that name, [opNEAR] for a name that starts with [$near], and the default for every
    other name. *)
Theorem getGtLtOp_names fn def : nul ∉ fn -> fn ∉ operators.*1 ->
  getGtLtOp fn def = Ret (if bool_decide (B "$near" `prefix_of` fn) then opNEAR else def).
Proof.
  intros Hfn Hno. case_bool_decide as Hnear; [by destruct Hnear as [k ->]|].
  unfold getGtLtOp, and_then. cbn [branches].
  pose proof (zlen_nonneg fn) as Hl. rewrite (is_at_spec fn 0) by lia. rewrite ret_bind. case_bool_decide as E0; [|done].
  assert (1 <= zlen fn) as H1 by (by apply (at_longer fn 0 "$"%char)).
  rewrite (is_at_spec fn 1 nul) by lia. rewrite !ret_bind. change (Z.to_nat 1) with 1%nat. change (Z.to_nat 0) with 0%nat in *.
  case_bool_decide as En1; [done|]. cbn [negb].
  assert (2 <= zlen fn) as H2.
  { destruct fn as [|c0 [|c1 fn]]; [done|done|]. rewrite !zlen_cons. pose proof (zlen_nonneg fn). lia. }
  rewrite (is_at_spec fn 2) by lia. rewrite !ret_bind. change (Z.to_nat 2) with 2%nat. case_bool_decide as E2.
  { assert (3 <= zlen fn) as H3 by (by apply (at_longer fn 2 "t"%char)).
    rewrite !is_at_spec, !ends_at_spec by (first [lia | done | by not_in]). rewrite !ret_bind. change (Z.to_nat 1) with 1%nat. change (Z.to_nat 3) with 3%nat.
    repeat (case_bool_decide; rewrite ?ret_bind); first [done | is_operator]. }
  rewrite (are_at_spec fn 1 (B "ne")) by (first [lia | done | apply no_nul; vm_compute; reflexivity]). rewrite !ret_bind. change (Z.to_nat 1) with 1%nat.
  case_bool_decide as Ene.
  { assert (3 <= zlen fn) as H3.
    { destruct Ene as [k Ek]. destruct fn as [|c0 [|c1 [|c2 fn]]]; try done. rewrite !zlen_cons. pose proof (zlen_nonneg fn). lia. }
    rewrite (is_at_spec fn 3) by lia. rewrite (are_at_spec fn 3 (B "ar")) by (first [lia | done | apply no_nul; vm_compute; reflexivity]). rewrite !ret_bind. change (Z.to_nat 3) with 3%nat.
    destruct Ene as [k Ek]. destruct fn as [|c0 [|c1 [|c2 fn]]]; try done. cbn in Ek, E0. simplify_eq/=.
    case_bool_decide as E3; rewrite ?ret_bind; [|case_bool_decide as Ear; [|done]].
    - destruct fn as [|c3 fn]; [exfalso; apply Hno; cbn; member|]. cbn in E3. simplify_eq/=. exfalso. apply Hfn. member.
    - exfalso. apply Hnear. destruct Ear as [k' Ek']. destruct fn as [|c3 [|c4 fn]]; try done. cbn in Ek'. simplify_eq/=. by exists fn. }
  rewrite !(is_at_spec fn 1) by lia.
  rewrite !ends_at_spec by (first [lia | done | apply (bool_decide_unpack _); vm_compute; exact I]).
  rewrite !strcmp_dec by (first [by intros ?%elem_of_drop | apply (bool_decide_unpack _); vm_compute; exact I]).
  change (Z.to_nat 1) with 1%nat. change (Z.to_nat 2) with 2%nat. rewrite !ret_bind.
  repeat (case_bool_decide; rewrite ?ret_bind; [first [done | is_operator | repeat (case_bool_decide; [first [done | is_operator]|]); done]|]). done.
Qed.

(** *** Arrays as vectors *)

(** The last element with an index. *)
Definition last_at (i : Z) (o : BSONObj) : BSONElement :=
  foldl (fun acc e => if bool_decide (index_of e.1 = Some i) then e else acc) eooElement o.
Lemma index_nonneg n u : index_of n = Some u -> 0 <= u.
Proof.
  unfold index_of. intros E. destruct (parseNumberFromStringWithBase uint32 (c_string n) 0) as [z|] eqn:Ep; [|done]. injection E as <-.
  assert (supported uint32) as Hs by (unfold supported; set_solver).
  destruct ((_extractSign (c_string n)).1) eqn:Es.
  - exfalso. unfold parseNumberFromStringWithBase in Ep. destruct (_extractSign (c_string n)) as [neg rest]. cbn in Es. subst neg.
    cbn [Z.eqb Z.ltb Z.gtb Z.compare orb] in Ep. destruct (_extractBase rest 0) as [str b]. by destruct (StringData_empty str).
  - destruct (parseNumber_result uint32 (c_string n) 0 Hs (or_introl eq_refl) (or_intror Es)) as [(z' & Ez & [Hz _])|(m & Em)]; [|congruence].
    rewrite Ez in Ep. injection Ep as ->. exact Hz.
Qed.
Lemma Array_loop_spec o v : Forall (fun e => forall u, index_of e.1 = Some u -> u < 1000000) o ->
  exists r, Array_loop o v = Ret r /\
    forall i : nat, default eooElement (r !! i) =
      foldl (fun acc e => if bool_decide (index_of e.1 = Some (Z.of_nat i)) then e else acc) (default eooElement (v !! i)) o.
Proof.
  intros H. revert v. induction H as [|e o He Ho IH]; intros v; cbn [Array_loop foldl]; [by exists v|].
  destruct (index_of e.1) as [u|] eqn:Eu.
  - pose proof (He u eq_refl) as Hu. pose proof (index_nonneg _ _ Eu) as Hu0. replace (u <? 1000000) with true by lia. cbn [verify guard_throw]. rewrite ret_bind.
    set (v' := if u >=? zlen v then _ else v).
    assert (Z.to_nat u < length v')%nat as Hl.
    { unfold v', zlen. destruct (u >=? Z.of_nat (length v)) eqn:E; [|lia]. rewrite length_app, length_replicate. lia. }
    assert (forall i, default eooElement (v' !! i) = default eooElement (v !! i)) as Hv.
    { intros i. unfold v'. destruct (u >=? zlen v); [|done]. destruct (decide (i < length v)%nat); [by rewrite lookup_app_l|].
      rewrite lookup_app_r by lia. rewrite (lookup_ge_None_2 v) by lia. destruct (replicate _ _ !! _) eqn:E; [|done].
      by apply lookup_replicate in E as [-> _]. }
    destruct (IH (<[Z.to_nat u := e]> v')) as (r & Er & Hr). exists r. split; [exact Er|]. intros i. rewrite Hr. f_equal.
    case_bool_decide as Ei.
    + injection Ei as ->. rewrite Nat2Z.id in *. by rewrite list_lookup_insert, decide_True.
    + rewrite list_lookup_insert_ne; [apply Hv|]. intros <-. apply Ei. f_equal. lia.
  - destruct (IH v) as (r & Er & Hr). exists r. split; [exact Er|]. intros i. by rewrite Hr.
Qed.
(** The vector of an array holds at each position the last element whose name is that
    number, and the end-of-object element where there is none; a name that is no number
    is skipped. *)
Theorem Array_positions n o : Forall (fun e => forall u, index_of e.1 = Some u -> u < 1000000) o ->
  exists r, Array (n, VArray o) = Ret r /\ forall i : nat, default eooElement (r !! i) = last_at (Z.of_nat i) o.
Proof. intros H. exact (Array_loop_spec o [] H). Qed.

(** What was printed as an index is read as that index. *)
Lemma index_print i : 0 <= i -> in_range uint32 i -> index_of (print_int i) = Some i.
Proof.
  intros Hi Hr. assert (nul ∉ print_int i) as Hn by (by apply print_int_nul).
  assert (c_string (print_int i) = print_int i) as Hc. { unfold c_string. by rewrite (proj2 (memchr_None _ _) Hn). }
  unfold index_of. rewrite Hc. destruct (decide (i = 0)) as [->|Hz]; [reflexivity|].
  assert (supported uint32) as Hs by (unfold supported; set_solver). pose proof (parse_print_aux uint32 i Hs Hr) as Hp.
  revert Hp. unfold print_int. replace (i <? 0) with false by lia. destruct (print_nonneg_head i Hi) as (d & l & E & Hd & Hd0). rewrite E.
  unfold parseNumberFromStringWithBase. cbn [Z.eqb Z.ltb Z.gtb Z.compare orb].
  assert (_extractSign (chr (48 + d) :: l) = (false, chr (48 + d) :: l)) as ->.
  { cbn [_extractSign]. assert (forall k, 0 <= k < 256 -> 48 + d <> k -> ceq (chr (48 + d)) (chr k) = false) as Hne.
    { intros k Hk Hdk. unfold ceq. rewrite bool_decide_false; [done|]. intros Ek%(f_equal uchar). rewrite !uchar_chr_small in Ek by lia. done. }
    change "-"%char with (chr 45). change "+"%char with (chr 43). rewrite !Hne by lia. done. }
  assert (forall x, has_prefix (chr (48 + d) :: l) ("0"%char :: x) = false) as H0x.
  { intros x. unfold has_prefix. rewrite bool_decide_false; [done|]. intros Eh%prefix_cons_inv_1%(f_equal uchar).
    rewrite uchar_chr_small in Eh by lia. change (uchar "0") with 48 in Eh. assert (d = 0) as -> by lia. tauto. }
  unfold _extractBase. change (B "0x") with ("0"%char :: B "x"). change (B "0X") with ("0"%char :: B "X"). change (B "0") with (["0"%char] : bytes).
  rewrite !H0x. cbn [orb Z.eqb Pos.eqb]. rewrite !andb_false_r. change (10 >? 36) with false. cbn [Z.eqb Pos.eqb andb orb]. intros ->. done.
Qed.
(** Round trip: an array of up to a million values, as the builder makes it, comes back as
    the vector of its elements. *)
Theorem Array_of_builder n vs : zlen vs <= 1000000 ->
  Array (n, VArray (array_doc 0 vs)) = Ret (array_doc 0 vs).
Proof.
  intros Hl. change (Array (n, VArray (array_doc 0 vs))) with (Array_loop (array_doc 0 vs) []).
  assert (forall vs i acc, zlen acc = i -> i + zlen vs <= 1000000 -> Array_loop (array_doc i vs) acc = Ret (acc ++ array_doc i vs)) as H.
  { clear. induction vs as [|v vs IH]; intros i acc Ha Hl; cbn [array_doc Array_loop]; [by rewrite app_nil_r|].
    rewrite zlen_cons in Hl. pose proof (zlen_nonneg vs). pose proof (zlen_nonneg acc).
    cbn [fst]. rewrite index_print; [|lia|split; [change (int_min uint32) with 0; lia|change (int_max uint32) with 4294967295; lia]].
    replace (i <? 1000000) with true by lia. cbn [verify guard_throw]. rewrite ret_bind. rewrite Ha. replace (i >=? i) with true by lia.
    replace (i + 1 - i) with 1 by lia. change (Z.to_nat 1) with 1%nat. cbn [replicate].
    assert (Z.to_nat i = length acc) as -> by (unfold zlen in Ha; lia).
    rewrite insert_app_r_alt, Nat.sub_diag by lia. cbn [insert list_insert]. rewrite IH; [|rewrite zlen_app, zlen_cons, zlen_nil; lia|lia].
    by rewrite <- app_assoc. }
  rewrite H; [done|done|lia].
Qed.
(** The names are read like numbers of the language: a leading zero makes them octal. *)
Lemma octal_index : index_of (B "010") = Some 8 /\ index_of (B "0x10") = Some 16 /\ index_of (B "08") = None.
Proof. done. Qed.

(** *** Conversions of all elements *)

Lemma coerceVector_all {T} (coerce : BSONElement -> option T) o out :
  (forall ts, Forall2 (fun e t => coerce e = Some t) o ts -> coerceVector coerce o out = (true, out ++ ts)) /\
  ((coerceVector coerce o out).1 = true -> exists ts, Forall2 (fun e t => coerce e = Some t) o ts) /\
  exists ts, (coerceVector coerce o out).2 = out ++ ts /\ Forall2 (fun e t => coerce e = Some t) (take (length ts) o) ts.
Proof.
  revert out. induction o as [|e o IH]; intros out; cbn [coerceVector].
  - split_and!; [intros ts ->%Forall2_nil_inv_l; by rewrite app_nil_r|by exists []|]. exists []. by rewrite app_nil_r.
  - destruct (coerce e) as [t|] eqn:E.
    + destruct (IH (out ++ [t])) as (H1 & H2 & ts & E3 & H3). split_and!.
      * intros ts' H. inversion H as [|? t' ? ts0 Et Hts]; subst. rewrite E in Et. injection Et as ->. rewrite (H1 ts0 Hts). by rewrite <- app_assoc.
      * intros Ht. destruct (H2 Ht) as [ts0 Hts]. exists (t :: ts0). by constructor.
      * exists (t :: ts). rewrite E3, <- app_assoc. split; [done|]. cbn. by constructor.
    + split_and!; [intros ts H; inversion H; congruence|done|]. exists []. by rewrite app_nil_r.
Qed.
