(* ===== verification/Init.v ===== *)
(** * Starting and stopping the driver: client/init.cpp, client/options.cpp

    The three states of the driver behind an atomic word, what the first caller does
    after it has changed the word, and the object that pairs the two calls.  What the
    operating system, the initializers and the watcher of the replica sets answer are
    arguments. *)
From S2P Require Import Prelude LogSettings Logging.
Local Open Scope Z_scope.

Definition IllegalOperation : ErrorCode := OtherCode 20.
(** The errors of this file have fixed texts. *)
Definition fails (c : ErrorCode) (reason : string) : Status := Err c (B reason).

Section Driver.
Context {Appender : Type}.

Record Options := mkOptions {
  _callShutdownAtExit : bool; _autoShutdownGracePeriodMillis : Z; _defaultLocalThresholdMillis : Z;
  _appenderFactory : option Appender; _minLoggedSeverity : Z; _validateObjects : bool }.
Definition Options_ctor : Options := mkOptions false 0 15 None Log false.
Definition setCallShutdownAtExit (v : bool) (o : Options) : Options :=
  mkOptions v (_autoShutdownGracePeriodMillis o) (_defaultLocalThresholdMillis o) (_appenderFactory o) (_minLoggedSeverity o) (_validateObjects o).

(** The globals: the word, the options, the log, the handlers of the end of the process,
    the watcher of the replica sets, the sockets. *)
Record Driver := mkDriver {
  isInitialized : Z; s_options : Options; log_domain : LogDomain Appender; log_settings : LogComponentSettings;
  atexit_handlers : nat; replicaSetMonitorWatcher : bool; networking : bool }.
Definition Driver_start : Driver := mkDriver 0 Options_ctor LogDomain_ctor LogComponentSettings_ctor 0 false true.
Definition set_word (z : Z) (d : Driver) : Driver :=
  mkDriver z (s_options d) (log_domain d) (log_settings d) (atexit_handlers d) (replicaSetMonitorWatcher d) (networking d).
Definition set_watcher (b : bool) (d : Driver) : Driver :=
  mkDriver (isInitialized d) (s_options d) (log_domain d) (log_settings d) (atexit_handlers d) b (networking d).
(** [compareAndSwap]: the old value, and the driver after it. *)
Definition compareAndSwap (expected new : Z) (d : Driver) : Z * Driver :=
  (isInitialized d, if isInitialized d =? expected then set_word new d else d).

Definition setOptions (o : Options) (d : Driver) : Driver :=
  mkDriver (isInitialized d) o (log_domain d) (log_settings d) (atexit_handlers d) (replicaSetMonitorWatcher d) (networking d).
Definition configureLogging (o : Options) (d : Driver) : M Driver :=
  match _appenderFactory o with
  | Some a =>
    s ← setMinimumLoggedSeverity kDefault (_minLoggedSeverity o) (log_settings d);
    Ret (mkDriver (isInitialized d) (s_options d) (attachAppender (Some a) (log_domain d)).1 s (atexit_handlers d) (replicaSetMonitorWatcher d) (networking d))
  | None => Ret d
  end.
Definition add_handler (d : Driver) : Driver :=
  mkDriver (isInitialized d) (s_options d) (log_domain d) (log_settings d) (S (atexit_handlers d)) (replicaSetMonitorWatcher d) (networking d).
Definition shutdownNetworking (d : Driver) : Driver :=
  mkDriver (isInitialized d) (s_options d) (log_domain d) (log_settings d) (atexit_handlers d) (replicaSetMonitorWatcher d) false.
(** [ReplicaSetMonitor::initialize] and [shutdown]; [stopped]: the watcher ended in time. *)
Definition monitor_initialize (d : Driver) : Driver * Status :=
  if replicaSetMonitorWatcher d then (d, fails AlreadyInitialized "ReplicaSetMonitorWatcher has already been initialized")
  else (set_watcher true d, OK).
Definition monitor_shutdown (stopped : bool) (d : Driver) : Driver * Status :=
  if negb (replicaSetMonitorWatcher d) then (d, fails InternalError "ReplicaSetMonitorWatcher has not been initialized")
  else if negb stopped then (d, fails ExceededTimeLimit "Timed out waiting for ReplicaSetMonitorWatcher to shutdown")
  else (set_watcher false d, OK).

(** What the caller does that changed the word from 0 to 1: [atexit_ok] and
    [initializers] are what [std::atexit] and [runGlobalInitializers] answer. *)
Definition initialize_body (options : Options) (atexit_ok : bool) (initializers : Status) (d : Driver) : M (Driver * Status) :=
  let d := setOptions options d in
  d ← configureLogging options d;
  if _callShutdownAtExit options && negb atexit_ok
  then Ret (d, fails InternalError "Failed setting client driver atexit shutdown handler")
  else
    let d := if _callShutdownAtExit options then add_handler d else d in
    if negb (isOK initializers) then Ret (d, initializers)
    else Ret (monitor_initialize d).
Definition initialize_refused (initStatus : Z) : Status :=
  if initStatus =? 1 then fails AlreadyInitialized "Initialize() may only be called once"
  else fails IllegalOperation "The driver has been terminated.".
Definition initialize (options : Options) (atexit_ok : bool) (initializers : Status) (d : Driver) : M (Driver * Status) :=
  let '(initStatus, d) := compareAndSwap 0 1 d in
  if initStatus =? 0 then initialize_body options atexit_ok initializers d else Ret (d, initialize_refused initStatus).
(** And the caller that changed it from 1 to -1. *)
Definition shutdown_body (stopped : bool) (d : Driver) : Driver * Status :=
  let '(d, result) := monitor_shutdown stopped d in
  match result with
  | Err ExceededTimeLimit _ => (d, result)
  | _ => (shutdownNetworking d, OK)
  end.
Definition shutdown_refused (initStatus : Z) : Status :=
  if initStatus =? 0 then fails IllegalOperation "mongo::client::shutdown() cannot be called before mongo::client::initialize()"
  else fails IllegalOperation "The driver has been terminated.".
Definition shutdown (stopped : bool) (d : Driver) : Driver * Status :=
  let '(initStatus, d) := compareAndSwap 1 (-1) d in
  if initStatus =? 1 then shutdown_body stopped d else (d, shutdown_refused initStatus).

(** ** The object that initializes and terminates *)

Record GlobalInstance := mkInstance { _terminateNeeded : bool; _status : Status }.
Definition GlobalInstance_ctor (options : Options) (atexit_ok : bool) (initializers : Status) (d : Driver) : M (Driver * GlobalInstance) :=
  '(d, st) ← initialize options atexit_ok initializers d;
  Ret (d, mkInstance (isOK st && negb (_callShutdownAtExit (s_options d))) st).
(** [None]: the process is aborted. *)
Definition GlobalInstance_dtor (stopped : bool) (g : GlobalInstance) (d : Driver) : option Driver :=
  if _terminateNeeded g then let '(d, st) := shutdown stopped d in if isOK st then Some d else None else Some d.
Definition assertInitialized (g : GlobalInstance) : M unit := if isOK (_status g) then Ret tt else Throw (EStatus (_status g)).
Definition GlobalInstance_shutdown (stopped : bool) (g : GlobalInstance) (d : Driver) : GlobalInstance * Driver * Status :=
  let '(d, st) := shutdown stopped d in
  (if isOK st then mkInstance false (_status g) else g, d, st).

(** ** Several threads

    The word is changed in one step; what follows is another one, and other threads come
    in between. *)
Inductive Pending := Initializing (options : Options) | Terminating.
Record System := mkSystem { driver : Driver; pending : list Pending; inits : nat; terms : nat }.
Inductive step : System -> System -> Prop :=
  | step_initialize o s : let '(old, d) := compareAndSwap 0 1 (driver s) in
      step s (if old =? 0 then mkSystem d (Initializing o :: pending s) (S (inits s)) (terms s) else mkSystem d (pending s) (inits s) (terms s))
  | step_shutdown s : let '(old, d) := compareAndSwap 1 (-1) (driver s) in
      step s (if old =? 1 then mkSystem d (Terminating :: pending s) (inits s) (S (terms s)) else mkSystem d (pending s) (inits s) (terms s))
  | step_initializing o l r ok ini s d st : pending s = l ++ Initializing o :: r ->
      initialize_body o ok ini (driver s) = Ret (d, st) -> step s (mkSystem d (l ++ r) (inits s) (terms s))
  | step_terminating l r stopped s d st : pending s = l ++ Terminating :: r ->
      shutdown_body stopped (driver s) = (d, st) -> step s (mkSystem d (l ++ r) (inits s) (terms s)).

(** ** Theorems *)

Lemma configureLogging_word o d d' : configureLogging o d = Ret d' -> isInitialized d' = isInitialized d /\ networking d' = networking d /\
  replicaSetMonitorWatcher d' = replicaSetMonitorWatcher d /\ s_options d' = s_options d.
Proof. unfold configureLogging. destruct (_appenderFactory o); [|by intros [= <-]]. intros H. by apply bind_Ret in H as (s & _ & [= <-]). Qed.
Lemma initialize_body_word o ok ini d d' st : initialize_body o ok ini d = Ret (d', st) -> isInitialized d' = isInitialized d.
Proof.
  unfold initialize_body. intros H. apply bind_Ret in H as (d1 & E1 & H). apply configureLogging_word in E1 as (E1 & _). cbn in E1.
  destruct (_ && _); [by injection H as <- _|]. destruct (negb (isOK ini)); [|unfold monitor_initialize in H].
  all: destruct (_callShutdownAtExit o); try destruct (replicaSetMonitorWatcher _); injection H as <- _; done.
Qed.
Lemma shutdown_body_word b d d' st : shutdown_body b d = (d', st) -> isInitialized d' = isInitialized d.
Proof.
  unfold shutdown_body, monitor_shutdown. destruct (negb (replicaSetMonitorWatcher d)); [by intros [= <- _]|]. destruct (negb b); by intros [= <- _].
Qed.

(** Whatever threads call and however they interleave, the driver is set up at most
    once and torn down at most once, never the second without the first; the word says
    which of the two have begun. *)
Theorem initialize_once s : reachable (fun s => s = mkSystem Driver_start [] 0 0) step s ->
  (isInitialized (driver s) = 0 /\ inits s = 0%nat /\ terms s = 0%nat) \/
  (isInitialized (driver s) = 1 /\ inits s = 1%nat /\ terms s = 0%nat) \/
  (isInitialized (driver s) = -1 /\ inits s = 1%nat /\ terms s = 1%nat).
Proof.
  revert s. apply reachable_invariant; [intros s ->; by left|]. intros s s' _ H Hs. destruct Hs as [o s|s|o l r ok ini s d st Ep E|l r b s d st Ep E]; cbn.
  - destruct H as [(E & Ei & Et)|[(E & Ei & Et)|(E & Ei & Et)]]; rewrite E; cbn; rewrite ?Ei, ?Et; auto.
  - destruct H as [(E & Ei & Et)|[(E & Ei & Et)|(E & Ei & Et)]]; rewrite E; cbn; rewrite ?Ei, ?Et; auto.
  - by rewrite (initialize_body_word _ _ _ _ _ _ E).
  - by rewrite (shutdown_body_word _ _ _ _ E).
Qed.
(** One thread: a first call with everything in order starts the driver, a shutdown ends
    it, and from then on both calls are refused. *)
Theorem driver_life o : in_range int8 (_minLoggedSeverity o) ->
  exists d, initialize o true OK Driver_start = Ret (d, OK) /\ replicaSetMonitorWatcher d = true /\ s_options d = o /\
    atexit_handlers d = (if _callShutdownAtExit o then 1%nat else 0%nat) /\
    (forall o' ok ini, initialize o' ok ini d = Ret (d, fails AlreadyInitialized "Initialize() may only be called once")) /\
    exists d', shutdown true d = (d', OK) /\ replicaSetMonitorWatcher d' = false /\ networking d' = false /\
      (forall b, (shutdown b d').2 = fails IllegalOperation "The driver has been terminated.") /\
      (forall o' ok ini, initialize o' ok ini d' = Ret (d', fails IllegalOperation "The driver has been terminated.")).
Proof.
  intros Hr. assert (exists d, configureLogging o (setOptions o (set_word 1 Driver_start)) = Ret d /\ atexit_handlers d = 0%nat) as (d0 & E0 & Ea).
  { unfold configureLogging. destruct (_appenderFactory o); [|by eexists].
    destruct (set_holds _ _ kDefault (_minLoggedSeverity o) ctor_holds) as (s & Es & _); [done|done|]. cbn [log_settings setOptions set_word Driver_start].
    rewrite Es, ret_bind. by eexists. }
  destruct (configureLogging_word _ _ _ E0) as (Ew & En & Et & Eo). cbn in Ew, En, Et, Eo.
  set (d := set_watcher true (if _callShutdownAtExit o then add_handler d0 else d0)).
  assert (isInitialized d = 1 /\ replicaSetMonitorWatcher d = true /\ s_options d = o /\ atexit_handlers d = (if _callShutdownAtExit o then 1%nat else 0%nat)) as (H1 & H2 & H3 & H4).
  { unfold d. destruct (_callShutdownAtExit o); cbn; by rewrite ?Ea. }
  exists d. split_and!; [|done|done|done| |].
  - unfold initialize, compareAndSwap. cbn [isInitialized Driver_start Z.eqb]. unfold initialize_body. rewrite E0, ret_bind, andb_false_r. cbn [isOK negb].
    unfold monitor_initialize. assert (replicaSetMonitorWatcher (if _callShutdownAtExit o then add_handler d0 else d0) = false) as -> by (by destruct (_callShutdownAtExit o)).
    done.
  - intros o' ok ini. unfold initialize, compareAndSwap. by rewrite H1.
  - eexists. unfold shutdown, compareAndSwap. rewrite H1. cbn [Z.eqb Pos.eqb]. unfold shutdown_body, monitor_shutdown. cbn [set_word replicaSetMonitorWatcher]. rewrite H2.
    cbn. by split_and!.
Qed.
(** A shutdown that timed out cannot be tried again: the word was changed before. *)
Lemma shutdown_retry_refused d : isInitialized d = 1 -> replicaSetMonitorWatcher d = true ->
  let '(d', st) := shutdown false d in
  st = fails ExceededTimeLimit "Timed out waiting for ReplicaSetMonitorWatcher to shutdown" /\ networking d' = networking d /\
  forall b, shutdown b d' = (d', fails IllegalOperation "The driver has been terminated.").
Proof.
  intros H1 H2. unfold shutdown, compareAndSwap. rewrite H1. cbn [Z.eqb Pos.eqb]. unfold shutdown_body, monitor_shutdown. cbn [set_word replicaSetMonitorWatcher]. rewrite H2.
  cbn. by split_and!.
Qed.
(** The object of such a shutdown aborts the process when it is destroyed. *)
Lemma instance_aborts d g : isInitialized d = 1 -> replicaSetMonitorWatcher d = true -> _terminateNeeded g = true ->
  let '(g', d', _) := GlobalInstance_shutdown false g d in forall b, GlobalInstance_dtor b g' d' = None.
Proof.
  intros H1 H2 H3. unfold GlobalInstance_shutdown, GlobalInstance_dtor, shutdown, compareAndSwap. rewrite H1. cbn [Z.eqb Pos.eqb].
  unfold shutdown_body, monitor_shutdown. cbn [set_word replicaSetMonitorWatcher]. rewrite H2. cbn. by rewrite H3.
Qed.
(** A shutdown can overtake the initialization it comes after: the watcher that is made
    then is never stopped. *)
Lemma shutdown_overtakes : exists s, reachable (fun s => s = mkSystem Driver_start [] 0 0) step s /\
  isInitialized (driver s) = -1 /\ pending s = [] /\ replicaSetMonitorWatcher (driver s) = true /\ networking (driver s) = false.
Proof.
  set (s0 := mkSystem Driver_start [] 0 0). set (d1 := set_word 1 Driver_start). set (s1 := mkSystem d1 [Initializing Options_ctor] 1 0).
  set (s2 := mkSystem (set_word (-1) d1) [Terminating; Initializing Options_ctor] 1 1).
  set (s3 := mkSystem (shutdownNetworking (set_word (-1) d1)) [Initializing Options_ctor] 1 1).
  eexists. split.
  - eapply reach_step; [eapply reach_step; [eapply reach_step; [eapply reach_step; [apply reach_init; reflexivity|exact (step_initialize Options_ctor s0)]|exact (step_shutdown s1)]|]|].
    + exact (step_terminating [] [Initializing Options_ctor] true s2 _ OK eq_refl eq_refl).
    + eapply (step_initializing Options_ctor [] [] true OK s3 _ OK eq_refl). vm_compute. reflexivity.
  - done.
Qed.
End Driver.
